(* ===== verification/_CoqProject ===== *)
-Q . S2P
Prelude.v
OneTime.v
GoStrings.v
GoEncoding.v
GoSha256.v
PlatformCrypto.v
CryptoFields.v
GoOtp.v
GoHttp.v
TrustedProxy.v
CircuitBreaker.v
SignedHeaders.v
Session.v
SessionFacts.v
SessionContext.v
Flows.v
FlowStore.v
FlowService.v
Continuity.v
RateLimit.v
GoPath.v
Rules.v
RulesFacts.v
Proxy.v
ProxyFacts.v
EventBus.v
EventBusFacts.v
OAuth2Store.v
OAuth2Authorize.v
OAuth2Token.v
OAuth2Facts.v
OAuth2Steps.v
OAuth2Refresh.v
AdminStore.v
AdminService.v
AdminFacts.v
AdminSteps.v
AdminProps.v
AdminHttp.v
Policy.v
PolicyFacts.v
ModulePlan.v
ModulePlanFacts.v
Courier.v
CourierFacts.v
CourierMail.v
LruCache.v
LruCacheFacts.v
MfaStore.v
MfaService.v
MfaFacts.v
MfaCodes.v
MfaHttp.v
MagicLink.v
MagicLinkFacts.v
MagicLinkHttp.v
Registry.v
RegistryFacts.v
AuthToken.v
ModuleAuth.v
ModuleAuthFacts.v
Password.v
PasswordFacts.v
PasswordHttp.v
Jwt.v
JwtFacts.v
Social.v
SocialService.v
SocialFacts.v
SocialHttp.v
Workers.v
WorkersFacts.v
Passkeys.v
PasskeysFacts.v
Egress.v
EgressFacts.v
OAuth2Device.v
OAuth2Http.v
ProxyHealth.v
Router.v
