(* ===== verification/Prelude.v ===== *)
(** * Aegion: a verification library

    Aegion is an identity platform written in Go: sessions, self-service flows
    (login, registration, recovery, settings, verification), an API gateway in
    front of upstream services, an internal event bus, and modules built on
    them.  This library models the core of it and proves what makes that core
    correct.  Paths below are relative to the repository (src/).

    ** The parts and how they interact

    A client request enters the gateway (core/proxy).  The authentication
    middleware (auth.go) asks the session manager (core/session) for the
    session of the cookie or token the request presents; cookies and headers
    are authenticated by internal/platform/crypto.  The proxy (proxy.go) then
    finds a rule (rules.go), consults the rate limiter (ratelimit.go, which
    takes client addresses from internal/platform/trustedproxy), access
    control, and the circuit breaker of the target (circuit.go), and forwards
    the request with signed identity headers.  Self-service flows (core/flows)
    carry a user through a multi-step interaction guarded by a CSRF token and
    keep state across redirects in one-time continuity containers.  Modules
    exchange events over core/eventbus and send mail and text messages through
    the queue of core/courier.  The OAuth2 module turns a session into
    authorization codes and tokens for registered clients; the policy module
    answers authorization queries from roles, relations and attribute rules;
    the admin module manages operators, their roles and API keys; the
    analytics module caches query results.  The modules password, magic_link,
    mfa, passkeys and social log users in; the gateway hands them the identity
    of the session in signed headers.  Modules register with the registry
    (core/registry) under credentials and tokens of core/moduleauth and
    core/authtoken, background workers (core/workers) clean the tables up, and
    requests that leave the platform pass internal/platform/egress.  At start-up
    the configuration (internal/platform/config) decides which modules run and
    in which order.  Sessions, flows, containers, events, messages, grants,
    credentials, operators and policies live in PostgreSQL (core/migrations and
    the migrations of the modules).

    ** Files

    - [Prelude]: results and errors, 64-bit integers, time, the monad of
      database programs, tactics, the hint database [aegion].
    - [GoStrings], [GoEncoding], [GoSha256], [GoOtp], [GoHttp], [GoPath]: what
      the code uses of Go's standard library: strings, strconv, hex, base64 and
      base32, SHA-256, SHA-1 and HMAC, net/http headers and requests,
      path.Clean, path.Match.
    - [OneTime]: objects that may be granted once, and requests that run at the
      same time, cut at their calls of a store; shared by several components.
    - [PlatformCrypto] (internal/platform/crypto, secrettoken),
      [SignedHeaders] (session.go, identity.go there) and [CryptoFields]
      (crypto.go, random.go): opaque tokens, HMAC envelopes, session cookies,
      internal tokens, PKCE, header payloads, password hashes, field
      encryption, random integers.
    - [TrustedProxy] (internal/platform/trustedproxy).
    - [CircuitBreaker] (core/proxy/circuit.go).
    - [Session], [SessionFacts] (core/session/session.go) and [SessionContext]
      (core/session/context.go).
    - [Flows] (core/flows/flow.go, nodes.go), [FlowStore] (store.go: the
      interface as a class with its laws, and the PostgreSQL store that meets
      them), [FlowService] (service.go, over any store that meets the laws),
      [Continuity] (continuity.go).
    - [RateLimit] (core/proxy/ratelimit.go), [Rules] and [RulesFacts]
      (rules.go), [Proxy] and [ProxyFacts] (proxy.go, auth.go, config.go),
      [ProxyHealth] (health.go).
    - [EventBus], [EventBusFacts] (core/eventbus/eventbus.go).
    - The OAuth2 module (modules/oauth2): [OAuth2Store] (store),
      [OAuth2Authorize] (service/authorization), [OAuth2Token] (service/token,
      service/grants, service/revocation); [OAuth2Facts] (what clients are
      registered for, histories of requests, the effect of issuing tokens,
      code exchange), [OAuth2Steps] (the tables as a transition system,
      concurrent exchanges), [OAuth2Refresh] (rotation, chains of successors,
      replay, consent, audiences, a complete concrete flow); [OAuth2Device]
      (store/device.go, service/device) and [OAuth2Http] (handler/handler.go
      and the verification endpoint of cmd/server/main.go).
    - The admin module (modules/admin): [AdminStore] (store/store.go),
      [AdminService] (service/service.go, service/capability.go),
      [AdminFacts] (what the statements and checks do), [AdminSteps] (the
      operations as steps of the tables), [AdminProps] (the theorems),
      [AdminHttp] (handler/middleware.go and the log-in handlers of
      handler/api_contract.go).
    - [Policy], [PolicyFacts] (modules/policy: grpc/server.go, store).
    - [ModulePlan], [ModulePlanFacts] (internal/platform/config/module_plan.go
      and the module part of config.go).
    - [Courier] (core/courier/courier.go, core/workers/courier_dispatch.go),
      [CourierFacts] (the queue as a transition system), [CourierMail] (the
      SMTP messages, progress of a served queue).
    - [LruCache], [LruCacheFacts] (modules/analytics/rest/cache_lru.go): the
      doubly linked list on an explicit heap of nodes.
    - The MFA module (modules/mfa): [MfaStore] (the repository interface with
      both stores), [MfaService] (service, one-time passwords, backup codes,
      trusted devices), [MfaFacts] (enrolment), [MfaCodes] (backup codes and
      devices under concurrent requests), [MfaHttp] (routes and the guard).
    - Magic links (modules/magic_link): [MagicLink] (store and service),
      [MagicLinkFacts] (codes, rate limits, one acceptance, what a mailed code
      does), [MagicLinkHttp] (handlers over identities and sessions).
    - [Registry], [RegistryFacts] (core/registry), [AuthToken]
      (core/authtoken), [ModuleAuth], [ModuleAuthFacts] (core/moduleauth and
      cmd/aegion/registry_grpc.go).
    - The password module (modules/password): [Password] (store and service),
      [PasswordFacts] (refinement of a table of accounts, history, rules),
      [PasswordHttp] (handlers).
    - [Jwt], [JwtFacts] (internal/platform/jwt).
    - Social login (modules/social): [Social] (providers, states and links over
      both stores), [SocialService] (the flow and the catalogue of presets),
      [SocialFacts] (states, subjects), [SocialHttp] (handlers).
    - [Workers], [WorkersFacts] (core/workers: worker.go, session_cleanup.go,
      flow_cleanup.go, event_processor.go).
    - [Passkeys], [PasskeysFacts] (modules/passkeys: stores, service, handlers,
      the guard of cmd/server/main.go).
    - [Egress], [EgressFacts] (internal/platform/egress/egress.go).
    - [Router] (core/router: proxy.go and middleware.go, and the public module
      endpoint of cmd/aegion/routes.go): the way from a session to the modules.

    ** How the code is modelled

    Go functions become Rocq functions of the same name; a method takes its
    receiver first.  Struct values are records; pointers that may be nil are
    options; maps are [gmap]s; [int] and [time.Duration] arithmetic that can
    overflow is kept at 64 bits with [wrap64].  A [time.Time] is its count of
    nanoseconds, and PostgreSQL's rounding of timestamps to microseconds is
    not modelled.  Functions take the clock readings, random bytes and
    generated identifiers they consume as arguments, in the order they are
    drawn, so that theorems quantify over all of them.

    Database code runs in the monad [M]: a [world] is the tables and a script
    of faults that makes any chosen statement fail; quantifying over worlds
    quantifies over all failure patterns.  Statements are atomic, transactions
    roll back, and the constraints, triggers and foreign keys of the
    migrations are part of the statements.  An operation of several
    statements without a transaction can be interrupted between them;
    [OneTime], [Continuity], [OAuth2Steps] and others run such operations
    interleaved; theorems on histories of requests say so when the requests are
    served one at a time.

    Code outside the repository is a parameter: the text form of identifiers
    ([UuidText]), address parsing ([Net]), JSON ([FlowJson], [EventJson]), URL
    parsing and time formatting ([Urls]), the upstream's replies, the JWT
    signer and password verification of the OAuth2 module ([OAuth2Env]),
    password verification and collation in the admin module ([AdminEnv]), the
    CEL compiler of the policy module ([Cel]), templates, JSON and the
    mail and SMS transports of the courier ([CourierEnv], [Transport]), the
    order in which UPDATE ... RETURNING lists its rows ([ReturningOrder]), URL
    parsing of the configuration ([UrlParse]), Argon2id and XChaCha20-Poly1305
    ([Primitives]), the order of unordered queries ([ScanOrder]), links and
    addresses in magic links and the registry ([LinkUrl], [Addresses]), JSON of
    tokens ([ClaimsJson], [JwtJson]), the password hasher, the classes of
    unicode and the breach database ([Hasher], [Runes], [hibp]), signature
    schemes ([Signatures]), what providers of social login answer ([SocialEnv]),
    PostgreSQL's reading of intervals ([SecondsInterval]), keys and signatures
    of passkeys ([PasskeyEnv]), URL parsing in the router ([RouterUrl]), and
    address and URL parsing of the egress policy ([NetEnv]), whose resolver is an
    argument of each call.

    ** What is proved

    - Crypto: cookies and internal tokens verify exactly within their lifetime
      and only with the right HMAC; messages of different kinds cannot be
      confused.  Security of HMAC itself is not claimed.
    - Trusted proxies: forged forwarding headers have no effect.
    - Circuit breaker: state and counters agree in every reachable state; it
      opens at the threshold, rejects until the timeout, and a probe decides.
    - Sessions: only live sessions are returned; revocation is final; a session
      reaches aal2 only by a second recorded authentication; creation and
      lookup round-trip; factors are added all or nothing; clean-up removes
      exactly the stale rows.
    - Flows: requests served one at a time refine an abstract life cycle over
      any store; flows that have ended or whose time is past are unusable until
      a stale copy is written back; validation is sound; creation and
      validation round-trip through the database; containers are consumed once
      under any interleaving.
    - Gateway: the rate bound in any window of time; the highest-priority matching rule serves a
      request; subtree patterns cover exactly their subtree; protected
      subtrees need a session; a request reaches an upstream only after every
      check, with the identity headers of its session, and, end to end, only
      with a live session where the rule asks for one.
    - Event bus: publishing is all or nothing, deliveries follow their life
      cycle, retries are bounded, and when the clean-up can succeed.
    - OAuth2: tokens and codes never exceed the registration of their client;
      a code is exchanged once, by its client and with its PKCE verifier;
      refresh tokens rotate without gaining scopes and their chains end; a
      replay spares the successor, a skipped consent gives no code, and a code
      without an audience gives no tokens.  A device code gets past the poll
      only for its client, unexpired, and accepted by a user whose headers the
      core signed, however requests interleave.
    - Administration: requests served one after the other never lose the last
      super admin (concurrent ones can) and the role is only conferred by a
      peer; the tables stay well formed; every protected route is reached only
      by an operator whose stored role and overrides grant the permission, or
      whose default role does when the lookup of the role fails; the permission
      list agrees with the permission check where no wildcard is involved.
    - Policy: the answer to a query is the one the declarative policy gives,
      deny rules first except in the rebac model, and the expansion of relations
      decides reachability, within its limits and for relation names without
      the separator of the visited keys.
    - Module plan: the start-up order is a topological order exactly when the
      dependencies are acyclic, and depends on the configuration only.
    - Courier: every operation is a run of the queue's transition system; a
      message is accepted by its transport at most once, and a served queue
      drains; header injection is impossible.
    - Query cache: the linked structure refines a list in order of recency,
      stays within its capacity, and finds what was recently stored.
    - MFA: an enrolled secret verifies with the codes of its window over both
      stores; a backup code is accepted once over the PostgreSQL store; a revoked device never validates;
      a request touches the identity of its signed headers only.
    - Magic links: guesses are bounded, a code or link is accepted once under
      any interleaving, a session needs a code, and a mailed code logs in.
    - Registry and module authentication: discovery lists live endpoints and is
      fair, probes stay on the hosts of a module, control-plane calls change
      only the caller's module, revoked modules are locked out, rotation keeps
      the tokens of the grace period.
    - Passwords: the service refines a table of accounts, recent passwords are
      refused while no statement fails, a session needs the password of its identity.
    - JWT: signed tokens verify until they expire and only signed ones do.
    - Social login: a subject keeps its identity, a state is used once, the
      catalogue is changed with the management token only.
    - Workers: clean-up is invisible to sessions, flows and containers; stopping
      ends every loop.
    - Passkeys: a request changes credentials of its signed identity only, and a
      log-in carries a signature over a challenge issued to it.
    - Egress: only allow-listed hosts are dialled, at addresses outside the
      special-purpose networks unless trusted, whatever the resolver answers;
      bodies are bounded.
    - Health checks: the report is the verdict of the last answered probe.
    - Router: from the headers it is sent a module takes an identity only when
      the client presented the token of a live session with that identity, the
      module runs and, where policy checks are enabled, the policy allowed it;
      and from a request without a Connection header it does take it while the
      signature is fresh.  Browsers may send credentials for listed origins only.

    Behaviours where the code departs from its documentation or from its
    schema are stated as lemmas next to the component (for instance
    [shipped_schema_blocks_completion], [cleanup_blocked_by_settled_deliveries],
    [connection_header_drops_identity], [reported_wait_is_too_short],
    [replay_spares_successor], [revoked_jwt_stays_active]).

    ** Bounds and fuel

    Recursion is structural except in [GoPath]: the loops of path.Match take
    the length of the pattern as fuel, and [Match_enough] and
    [matchChunk_enough] show that any larger fuel gives the same answer, and
    in [OAuth2Token], where RefreshAccessToken follows successors:
    [refresh_always_answers] shows how much is enough.  In [ModulePlan] the
    loop of Kahn's algorithm takes one more than the number of modules
    ([place_modules_ends]), and in [Policy] the expansion loop takes a bound on
    the pending tuples ([expand_loop_spec] shows that it is never exhausted).
    In [CryptoFields] the loop that rejects draws takes the number of draws as
    fuel: [random_integers_are_uniform] says how many a stream needs that has an
    accepted draw (one that never has would be read for ever);
    the loop that fills a buffer takes its length ([fill_loop]), as do the loop
    over the runes of a password and the one over the bytes of an integer.
    The rate bound assumes a limit of at most 2^28 requests per second and a clock
    that does not go back, as Go's monotonic clock does not; strings are byte
    strings, and case mapping covers ASCII.

    ** What is not modelled, and why

    Logging, metrics, tracing and the HTTP and gRPC transports, start-up and the
    command-line tools are input and output around the parts above.  Single
    sign-on rests on a SAML library, and the gRPC services on generated code.
    Loading and validating the configuration beyond the module plan, the
    readiness endpoints of the router, the other handlers of the admin module with SCIM and the
    integrations, the ingestion, dashboards and webhooks of the analytics module,
    the proxy and introspection modules and the registration of OAuth2 clients
    could be modelled in the same way and are left out for their size. *)

From stdpp Require Export base gmap strings list.
From Stdlib Require Export ZArith Lia Sorted.

(** ** Results: Go functions that return [(T, error)] *)

Inductive result (E A : Type) : Type :=
| Ok (a : A)
| Err (e : E).
Arguments Ok {E A} a.
Arguments Err {E A} e.

#[global] Instance result_ret E : MRet (result E) := fun A a => Ok a.
#[global] Instance result_bind E : MBind (result E) :=
  fun A B f r => match r with Ok a => f a | Err e => Err e end.
#[global] Instance result_fmap E : FMap (result E) :=
  fun A B f r => match r with Ok a => Ok (f a) | Err e => Err e end.

Definition is_ok {E A} (r : result E A) : bool :=
  match r with Ok _ => true | Err _ => false end.

Definition result_of_option {E A} (e : E) (o : option A) : result E A :=
  match o with Some a => Ok a | None => Err e end.

Lemma result_bind_ok {E A B} (f : A -> result E B) r b :
  (r ≫= f) = Ok b <-> exists a, r = Ok a /\ f a = Ok b.
Proof. destruct r; simpl; naive_solver. Qed.

Lemma result_bind_err {E A B} (f : A -> result E B) r e :
  (r ≫= f) = Err e <-> r = Err e \/ exists a, r = Ok a /\ f a = Err e.
Proof. destruct r; simpl; naive_solver. Qed.

(** ** Machine integers, time and durations

    Go's [int] and [int64] are 64-bit two's complement; [time.Duration] is an
    [int64] count of nanoseconds and a [time.Time] is modelled by the [Z]
    count of nanoseconds since the Unix epoch (monotonic readings and
    locations play no role in the code modelled here). *)

Local Open Scope Z_scope.

Definition int64_min : Z := - 2 ^ 63.
Definition int64_max : Z := 2 ^ 63 - 1.
Definition in_int64 (z : Z) : Prop := int64_min <= z <= int64_max.

(** The value a 64-bit signed computation leaves in its register. *)
Definition wrap64 (z : Z) : Z := (z + 2 ^ 63) mod 2 ^ 64 - 2 ^ 63.

Lemma wrap64_id z : in_int64 z -> wrap64 z = z.
Proof.
  unfold in_int64, int64_min, int64_max, wrap64; intros.
  rewrite Z.mod_small; lia.
Qed.

Lemma wrap64_range z : in_int64 (wrap64 z).
Proof.
  unfold in_int64, int64_min, int64_max, wrap64.
  pose proof (Z.mod_pos_bound (z + 2 ^ 63) (2 ^ 64)). lia.
Qed.

Lemma wrap64_wrap64 z : wrap64 (wrap64 z) = wrap64 z.
Proof. apply wrap64_id, wrap64_range. Qed.

Abbreviation time := Z (only parsing).
Abbreviation duration := Z (only parsing).

Definition nanosecond : duration := 1.
Definition millisecond : duration := 1000000.
Definition second : duration := 1000000000.
Definition minute : duration := 60 * second.
Definition hour : duration := 60 * minute.

(** [t.After(u)], [t.Add(d)], [t.Sub(u)] (which saturates) and the zero
    [time.Time], 1 January of year 1. *)
Definition time_after (t u : time) : bool := u <? t.
Definition time_add (t : time) (d : duration) : time := t + d.
Definition time_sub (t u : time) : duration := Z.max int64_min (Z.min int64_max (t - u)).
Definition time_zero : time := - 62135596800 * second.
(** [t.Unix()]: seconds, rounded towards minus infinity. *)
Definition time_unix (t : time) : Z := t / second.
Definition time_unix_milli (t : time) : Z := t / millisecond.
(** [int(d.Seconds())]: conversion of the float quotient truncates. *)
Definition duration_secs (d : duration) : Z := Z.quot d second.

Lemma time_sub_small t u : in_int64 (t - u) -> time_sub t u = t - u.
Proof. unfold in_int64, time_sub. lia. Qed.

(** Identifiers of the [google/uuid] package: 128-bit values. *)
Abbreviation uuid := N (only parsing).
Definition uuid_Nil : uuid := 0%N.

(** The text form of identifiers belongs to the uuid package; what the code
    relies on is that [uuid.Parse] reads back what [String] prints. *)
Class UuidText := {
  uuid_string : N -> string;
  uuid_parse : string -> option N;
  uuid_parse_string : forall u, uuid_parse (uuid_string u) = Some u;
}.

(** Identifiers printed in unary, as a concrete text form. *)
Fixpoint unary (n : nat) : string := match n with O => "" | S k => String (Ascii.ascii_of_nat 49) (unary k) end.
Lemma unary_length n : String.length (unary n) = n.
Proof. induction n; simpl; congruence. Qed.
Lemma unary_round_trip u : Some (N.of_nat (String.length (unary (N.to_nat u)))) = Some u.
Proof. by rewrite unary_length, N2Nat.id. Qed.
Definition unary_uuid : UuidText :=
  {| uuid_string u := unary (N.to_nat u);
     uuid_parse s := Some (N.of_nat (String.length s));
     uuid_parse_string := unary_round_trip |}.

(** ** Databases

    A component that keeps its state in PostgreSQL is modelled over a [world]:
    the tables it uses and a script of faults.  Every statement consumes one
    entry of the script: [Some e] makes that statement fail with the driver
    error [e] and leaves the tables unchanged; [None], or the end of the
    script, lets it run.  Quantifying over the script covers every pattern of
    database failures. *)

Inductive db_error : Type :=
| DbFault (msg : string)
| NoRows
| CheckViolation (constraint : string)
| UniqueViolation (constraint : string)
| ForeignKeyViolation (constraint : string)
| NotNullViolation (column : string).

Record world (S : Type) : Type := World {
  w_db : S;
  w_faults : list (option string);
}.
Arguments World {S} _ _.
Arguments w_db {S} _.
Arguments w_faults {S} _.

(** How a component's error type includes the errors of the driver. *)
Class DbErr (E : Type) := db_err : db_error -> E.

Definition M (S E A : Type) : Type := world S -> result E A * world S.

#[global] Instance M_ret S E : MRet (M S E) := fun A a w => (Ok a, w).
#[global] Instance M_bind S E : MBind (M S E) :=
  fun A B f m w =>
    match m w with
    | (Ok a, w') => f a w'
    | (Err e, w') => (Err e, w')
    end.

Definition throw {S E A} (e : E) : M S E A := fun w => (Err e, w).
Definition lift_result {S E A} (r : result E A) : M S E A := fun w => (r, w).

(** Runs one SQL statement under the fault script. *)
Definition db_stmt {S E A} `{DbErr E} (stmt : S -> result db_error (A * S)) : M S E A :=
  fun w =>
    match w_faults w with
    | Some e :: fs => (Err (db_err (DbFault e)), World (w_db w) fs)
    | fs =>
        match stmt (w_db w) with
        | Ok (a, s') => (Ok a, World s' (tail fs))
        | Err e => (Err (db_err e), World (w_db w) (tail fs))
        end
    end.

(** [begin; body; commit] with the deferred rollback: any error of the body
    or of the commit leaves the tables as they were. *)
Definition db_tx {S E A} `{DbErr E} (body : M S E A) : M S E A :=
  fun w =>
    match db_stmt (fun s => Ok (tt, s)) w with
    | (Err e, w1) => (Err e, w1)
    | (Ok _, w1) =>
        match body w1 with
        | (Err e, w2) => (Err e, World (w_db w1) (w_faults w2))
        | (Ok a, w2) =>
            match db_stmt (fun s => Ok (tt, s)) w2 with
            | (Err e, w3) => (Err e, World (w_db w1) (w_faults w3))
            | (Ok _, w3) => (Ok a, w3)
            end
        end
    end.

(** [m] handled by [h] when it fails, as [if err != nil { ... }] does. *)
Definition M_try {S E E' A B} (m : M S E A) (f : result E A -> M S E' B) : M S E' B :=
  fun w => let '(r, w') := m w in f r w'.

(** A call whose error is answered with [f err], and one whose result, error
    included, is inspected by the caller. *)
Definition call {S E E' A} (f : E -> E') (m : M S E A) : M S E' A :=
  M_try m (fun r => match r with Ok a => mret a | Err e => throw (f e) end).
Definition attempt {S E E' A} (m : M S E A) : M S E' (result E A) := M_try m (fun r => mret r).

(** A run of an operation in a world where no statement fails. *)
Definition run {S E A} (m : M S E A) (s : S) : result E A * S :=
  let '(r, w) := m (World s []) in (r, w_db w).

Section monad_laws.
Context {S E : Type}.

Lemma M_bind_run {A B} (m : M S E A) (f : A -> M S E B) w :
  (m ≫= f) w = match m w with (Ok a, w') => f a w' | (Err e, w') => (Err e, w') end.
Proof. reflexivity. Qed.

Lemma M_ret_run {A} (a : A) (w : world S) : (mret a : M S E A) w = (Ok a, w).
Proof. reflexivity. Qed.

Lemma M_bind_ok {A B} (m : M S E A) (f : A -> M S E B) w b w' :
  (m ≫= f) w = (Ok b, w') <-> exists a w1, m w = (Ok a, w1) /\ f a w1 = (Ok b, w').
Proof.
  rewrite M_bind_run. destruct (m w) as [[a|e] w1]; naive_solver.
Qed.

Lemma db_stmt_clean {A} `{DbErr E} (stmt : S -> result db_error (A * S)) s :
  db_stmt stmt (World s []) =
  match stmt s with
  | Ok (a, s') => (Ok a, World s' [])
  | Err e => (Err (db_err e), World s [])
  end.
Proof. unfold db_stmt; simpl. by destruct (stmt s) as [[]|]. Qed.

Lemma call_run {E' A} (f : E -> E') (m : M S E A) (w : world S) :
  call f m w = match m w with (Ok a, w') => (Ok a, w') | (Err e, w') => (Err (f e), w') end.
Proof. unfold call, M_try. by destruct (m w) as [[a|e] w']. Qed.

(** Whatever the script, a statement either ran to completion or left the
    tables untouched. *)
Lemma db_stmt_cases {A} `{DbErr E} (stmt : S -> result db_error (A * S)) w r w' :
  db_stmt stmt w = (r, w') ->
  (exists a, r = Ok a /\ stmt (w_db w) = Ok (a, w_db w')) \/
  (exists e, r = Err e /\ w_db w' = w_db w).
Proof.
  unfold db_stmt.
  destruct (w_faults w) as [|[?|] ?]; simpl;
    try destruct (stmt (w_db w)) as [[]|]; intros; simplify_eq/=; eauto.
Qed.

(** A transaction that reports an error changed nothing. *)
Lemma db_tx_atomic {A} `{DbErr E} (body : M S E A) w e w' :
  db_tx body w = (Err e, w') -> w_db w' = w_db w.
Proof.
  unfold db_tx. destruct (db_stmt _ w) as [[[]|?] w1] eqn:Hb;
    apply db_stmt_cases in Hb.
  - destruct (body w1) as [[a|e2] w2] eqn:Hbody.
    + destruct (db_stmt _ w2) as [[[]|e3] w3]; intros; simplify_eq/=.
      naive_solver.
    + intros; simplify_eq/=. naive_solver.
  - intros; simplify_eq/=. naive_solver.
Qed.

(** A transaction that succeeds ran its body, and nothing else. *)
Lemma db_tx_ok {A} `{DbErr E} (body : M S E A) w a w' :
  db_tx body w = (Ok a, w') ->
  exists w1 w2, w_db w1 = w_db w /\ body w1 = (Ok a, w2) /\ w_db w' = w_db w2.
Proof.
  unfold db_tx. destruct (db_stmt _ w) as [[[]|?] w1] eqn:Hb; [|done].
  apply db_stmt_cases in Hb as [(u & _ & Hw1)|(? & ? & _)]; [|done]. injection Hw1 as _ Hw1.
  destruct (body w1) as [[b|e] w2] eqn:Hbody; [|done].
  destruct (db_stmt _ w2) as [[[]|?] w3] eqn:Hc; [|done]. intros [= <- <-].
  apply db_stmt_cases in Hc as [(u2 & _ & Hw2)|(? & ? & _)]; [|done]. injection Hw2 as _ Hw2. exists w1, w2. by rewrite Hw1, Hw2.
Qed.
End monad_laws.

(** ** State invariants of effectful operations *)

(** [m] keeps [P] true of the tables, whatever fails and whatever it returns. *)
Definition preserves {S E A} (P : S -> Prop) (m : M S E A) : Prop :=
  forall w, P (w_db w) -> P (w_db (m w).2).

Section preserves.
Context {S E : Type} (P : S -> Prop).

Lemma preserves_ret {A} (a : A) : preserves P (mret a : M S E A).
Proof. by intros w. Qed.
Lemma preserves_throw {A} (e : E) : preserves P (throw e : M S E A).
Proof. by intros w. Qed.
Lemma preserves_lift {A} (r : result E A) : preserves P (lift_result r : M S E A).
Proof. by intros w. Qed.
Lemma preserves_bind {A B} (m : M S E A) (f : A -> M S E B) :
  preserves P m -> (forall a, preserves P (f a)) -> preserves P (m ≫= f).
Proof.
  intros Hm Hf w Hw. rewrite M_bind_run. specialize (Hm w Hw).
  destruct (m w) as [[a|e] w']; simpl in *; [by apply Hf|done].
Qed.
Lemma preserves_try {E' A B} (m : M S E' A) (f : result E' A -> M S E B) :
  preserves P m -> (forall r, preserves P (f r)) -> preserves P (M_try m f).
Proof.
  intros Hm Hf w Hw. unfold M_try. specialize (Hm w Hw).
  destruct (m w) as [r w']; simpl in *. by apply Hf.
Qed.
Lemma preserves_stmt {A} `{DbErr E} (stmt : S -> result db_error (A * S)) :
  (forall s a s', stmt s = Ok (a, s') -> P s -> P s') -> preserves P (db_stmt stmt).
Proof.
  intros Hs w Hw. destruct (db_stmt stmt w) as [r w'] eqn:E0.
  apply db_stmt_cases in E0 as [(a & -> & E0)|(e & -> & E0)]; simpl; [by eapply Hs|by rewrite E0].
Qed.
Lemma preserves_tx {A} `{DbErr E} (body : M S E A) :
  preserves P body -> preserves P (db_tx body).
Proof.
  intros Hb w Hw. destruct (db_tx body w) as [[a|e] w'] eqn:Ht; simpl.
  - unfold db_tx in Ht.
    destruct (db_stmt _ w) as [[[]|e1] w1] eqn:E1; [|by simplify_eq].
    destruct (body w1) as [[b|e2] w2] eqn:E2; [|by simplify_eq].
    destruct (db_stmt _ w2) as [[[]|e3] w3] eqn:E3; [|by simplify_eq].
    apply db_stmt_cases in E1, E3. specialize (Hb w1).
    rewrite E2 in Hb; simpl in Hb.
    assert (w_db w = w_db w1) as Hw1 by naive_solver.
    assert (w_db w2 = w_db w') as Hw2 by naive_solver.
    rewrite <- Hw2. apply Hb. by rewrite <- Hw1.
  - apply db_tx_atomic in Ht. by rewrite Ht.
Qed.
End preserves.

(** [m] keeps [P] true of the tables, whatever fails, and what it returns
    satisfies [Q]. *)
Definition yields {S E A} (P : S -> Prop) (m : M S E A) (Q : A -> Prop) : Prop :=
  forall w, P (w_db w) -> P (w_db (m w).2) /\ forall a, (m w).1 = Ok a -> Q a.

Section yields.
Context {S : Type} (P : S -> Prop).

Lemma yields_preserves {E A} (m : M S E A) Q : yields P m Q -> preserves P m.
Proof. intros Hm w Hw. by apply Hm. Qed.
Lemma yields_weaken {E A} (m : M S E A) (Q R : A -> Prop) :
  yields P m Q -> (forall a, Q a -> R a) -> yields P m R.
Proof. intros Hm HQ w Hw. destruct (Hm w Hw). eauto. Qed.
Lemma yields_ret {E A} (a : A) (Q : A -> Prop) : Q a -> yields P (mret a : M S E A) Q.
Proof. intros HQ w Hw. split; [done|]. intros b Hb. by simplify_eq/=. Qed.
Lemma yields_throw {E A} (e : E) (Q : A -> Prop) : yields P (throw e : M S E A) Q.
Proof. by intros w Hw. Qed.
Lemma yields_lift {E A} (r : result E A) (Q : A -> Prop) :
  (forall a, r = Ok a -> Q a) -> yields P (lift_result r : M S E A) Q.
Proof. intros HQ w Hw. by split. Qed.
Lemma yields_bind {E A B} (m : M S E A) (f : A -> M S E B) Q R :
  yields P m Q -> (forall a, Q a -> yields P (f a) R) -> yields P (m ≫= f) R.
Proof.
  intros Hm Hf w Hw. rewrite M_bind_run. destruct (Hm w Hw) as [Hw' HQ].
  destruct (m w) as [[a|e] w']; simpl in *; [|done]. apply Hf; eauto.
Qed.
Lemma yields_call {E E' A} (g : E -> E') (m : M S E A) Q : yields P m Q -> yields P (call g m) Q.
Proof.
  intros Hm w Hw. unfold call, M_try. destruct (Hm w Hw) as [Hw' HQ].
  destruct (m w) as [[a|e] w']; simpl in *; [|done]. split; [done|]. intros ? [= <-]. eauto.
Qed.
Lemma yields_attempt {E E' A} (m : M S E A) Q :
  yields P m Q ->
  yields P (attempt m : M S E' (result E A)) (fun r => match r with Ok a => Q a | Err _ => True end).
Proof.
  intros Hm w Hw. unfold attempt, M_try. destruct (Hm w Hw) as [Hw' HQ].
  destruct (m w) as [[a|e] w']; simpl in *; (split; [done|]); intros ? [= <-]; eauto.
Qed.
Lemma yields_stmt {E A} `{DbErr E} (stmt : S -> result db_error (A * S)) Q :
  (forall s a s', stmt s = Ok (a, s') -> P s -> P s' /\ Q a) -> yields P (db_stmt stmt) Q.
Proof.
  intros Hs w Hw. destruct (db_stmt stmt w) as [r w'] eqn:E0.
  apply db_stmt_cases in E0 as [(a & -> & E0)|(e & -> & E0)]; simpl.
  - destruct (Hs _ _ _ E0 Hw) as [? ?]. split; [done|]. by intros ? [= <-].
  - by rewrite E0.
Qed.
End yields.

(** ** Queries and transition systems

    A [query] leaves the tables alone, and what it returns is related to them
    by [Q].  [steps_in step P m]: run in a state satisfying [P], whatever
    fails, [m] takes the tables along transitions of [step]. *)

Definition query {S E A} (m : M S E A) (Q : S -> A -> Prop) : Prop :=
  forall w, w_db (m w).2 = w_db w /\ forall a, (m w).1 = Ok a -> Q (w_db w) a.

Definition steps_in {S E A} (step : S -> S -> Prop) (P : S -> Prop) (m : M S E A) : Prop :=
  forall w, P (w_db w) -> rtc step (w_db w) (w_db (m w).2).

Section query.
Context {S E : Type}.

Lemma query_ret {A} (a : A) : query (mret a : M S E A) (fun _ b => b = a).
Proof. intros w. split; [done|]. by intros ? [= <-]. Qed.
Lemma query_throw {A} (e : E) (Q : S -> A -> Prop) : query (throw e : M S E A) Q.
Proof. intros w. by split. Qed.
Lemma query_lift {A} (r : result E A) : query (lift_result r : M S E A) (fun _ a => r = Ok a).
Proof. intros w. by split. Qed.
Lemma query_weaken {A} (m : M S E A) (Q R : S -> A -> Prop) :
  query m Q -> (forall s a, Q s a -> R s a) -> query m R.
Proof. intros Hm HQ w. destruct (Hm w). eauto. Qed.
Lemma query_stmt {A} `{DbErr E} (stmt : S -> result db_error (A * S)) (Q : S -> A -> Prop) :
  (forall s a s', stmt s = Ok (a, s') -> s' = s /\ Q s a) -> query (db_stmt stmt) Q.
Proof.
  intros Hs w. destruct (db_stmt stmt w) as [r w'] eqn:E0.
  apply db_stmt_cases in E0 as [(a & -> & E0)|(e & -> & E0)]; simpl.
  - apply Hs in E0 as [-> HQ]. split; [done|]. by intros ? [= <-].
  - by rewrite E0.
Qed.
Lemma query_call {E' A} (f : E' -> E) (m : M S E' A) (Q : S -> A -> Prop) :
  query m Q -> query (call f m) Q.
Proof.
  intros Hm w. destruct (Hm w) as [Hw HQ]. unfold call, M_try.
  destruct (m w) as [[a|e] w']; simpl in *; split; try done. intros ? [= <-]. eauto.
Qed.
Lemma query_attempt {E' A} (m : M S E' A) (Q : S -> A -> Prop) :
  query m Q ->
  query (attempt m : M S E (result E' A)) (fun s r => match r with Ok a => Q s a | Err _ => True end).
Proof.
  intros Hm w. destruct (Hm w) as [Hw HQ]. unfold attempt, M_try.
  destruct (m w) as [[a|e] w']; simpl in *; split; try done; intros ? [= <-]; eauto.
Qed.
Lemma query_bind {A B} (m : M S E A) (f : A -> M S E B) (Q : S -> A -> Prop) (R : S -> B -> Prop) :
  query m Q -> (forall a, query (f a) (fun s b => Q s a -> R s b)) -> query (m ≫= f) R.
Proof.
  intros Hm Hf w. rewrite M_bind_run. destruct (Hm w) as [Hw HQ].
  destruct (m w) as [[a|e] w']; simpl in *; [|by split].
  destruct (Hf a w') as [Hw' HR]. rewrite <- Hw. split; [congruence|].
  intros b Hb. apply (HR b Hb). rewrite Hw. eauto.
Qed.

Context (step : S -> S -> Prop).

Lemma steps_query {A} P (m : M S E A) (Q : S -> A -> Prop) : query m Q -> steps_in step P m.
Proof. intros Hm w _. destruct (Hm w) as [-> _]. done. Qed.
Lemma steps_query_bind {A B} P (m : M S E A) (f : A -> M S E B) (Q : S -> A -> Prop) :
  query m Q -> (forall a, steps_in step (fun s => P s /\ Q s a) (f a)) -> steps_in step P (m ≫= f).
Proof.
  intros Hm Hf w Hw. rewrite M_bind_run. destruct (Hm w) as [Hw' HQ].
  destruct (m w) as [[a|e] w']; simpl in *; [|by rewrite Hw'].
  rewrite <- Hw'. apply Hf. rewrite Hw'. eauto.
Qed.
Lemma steps_bind {A B} P (m : M S E A) (f : A -> M S E B) :
  steps_in step P m -> (forall a, steps_in step (fun _ => True) (f a)) -> steps_in step P (m ≫= f).
Proof.
  intros Hm Hf w Hw. rewrite M_bind_run. specialize (Hm w Hw).
  destruct (m w) as [[a|e] w']; simpl in *; [|done].
  etrans; [exact Hm|]. by apply Hf.
Qed.
Lemma steps_stmt {A} `{DbErr E} P (stmt : S -> result db_error (A * S)) :
  (forall s a s', P s -> stmt s = Ok (a, s') -> rtc step s s') -> steps_in step P (db_stmt stmt).
Proof.
  intros Hs w Hw. destruct (db_stmt stmt w) as [r w'] eqn:E0.
  apply db_stmt_cases in E0 as [(a & -> & E0)|(e & -> & E0)]; simpl; [eauto|by rewrite E0].
Qed.
Lemma steps_try {E' A B} P (m : M S E' A) (f : result E' A -> M S E B) :
  steps_in step P m -> (forall r, steps_in step (fun _ => True) (f r)) -> steps_in step P (M_try m f).
Proof.
  intros Hm Hf w Hw. unfold M_try. specialize (Hm w Hw). destruct (m w) as [r w']; simpl in *.
  etrans; [exact Hm|]. by apply Hf.
Qed.
Lemma steps_call {E' A} P (g : E' -> E) (m : M S E' A) : steps_in step P m -> steps_in step P (call g m).
Proof. intros Hm. apply steps_try; [done|]. intros [] w Hw; done. Qed.
Lemma steps_attempt {E' A} P (m : M S E' A) :
  steps_in step P m -> steps_in step P (attempt m : M S E (result E' A)).
Proof. intros Hm. apply steps_try; [done|]. by intros r w Hw. Qed.
Lemma steps_ret {A} P (a : A) : steps_in step P (mret a : M S E A).
Proof. by intros w Hw. Qed.
Lemma steps_throw {A} P (e : E) : steps_in step P (throw e : M S E A).
Proof. by intros w Hw. Qed.
Lemma steps_weaken {A} (P P' : S -> Prop) (m : M S E A) :
  steps_in step P' m -> (forall s, P s -> P' s) -> steps_in step P m.
Proof. intros Hm HP w Hw. apply Hm. auto. Qed.
End query.

(** ** Scripts of faults

    [faulty w]: some statement of what is left of the script fails.  An
    operation only consumes the script. *)

Definition faulty {S} (w : world S) : Prop := exists e, Some e ∈ w_faults w.
Definition consumes {S E A} (m : M S E A) : Prop := forall w, w_faults (m w).2 ⊆ w_faults w.

Section consumes.
Context {S E : Type}.

Lemma consumes_ret {A} (a : A) : consumes (mret a : M S E A).
Proof. by intros w x. Qed.
Lemma consumes_throw {A} (e : E) : consumes (throw e : M S E A).
Proof. by intros w x. Qed.
Lemma consumes_stmt {A} `{DbErr E} (stmt : S -> result db_error (A * S)) : consumes (db_stmt stmt).
Proof.
  intros w x. unfold db_stmt. destruct (w_faults w) as [|[e|] fs];
    try destruct (stmt (w_db w)) as [[a s]|e']; simpl; try done; apply list_elem_of_further.
Qed.
Lemma consumes_try {E' A B} (m : M S E' A) (f : result E' A -> M S E B) :
  consumes m -> (forall r, consumes (f r)) -> consumes (M_try m f).
Proof.
  intros Hm Hf w. unfold M_try. specialize (Hm w). destruct (m w) as [r w'].
  etrans; [apply Hf|exact Hm].
Qed.
Lemma consumes_call {E' A} (g : E' -> E) (m : M S E' A) : consumes m -> consumes (call g m).
Proof. intros Hm. apply consumes_try; [done|]. intros []; [apply consumes_ret|apply consumes_throw]. Qed.
Lemma consumes_attempt {E' A} (m : M S E' A) : consumes m -> consumes (attempt m : M S E (result E' A)).
Proof. intros Hm. apply consumes_try; [done|]. intros; apply consumes_ret. Qed.
Lemma consumes_bind {A B} (m : M S E A) (f : A -> M S E B) :
  consumes m -> (forall a, consumes (f a)) -> consumes (m ≫= f).
Proof.
  intros Hm Hf w. rewrite M_bind_run. specialize (Hm w). destruct (m w) as [[a|e] w']; [|done].
  etrans; [apply Hf|exact Hm].
Qed.
Lemma consumes_faulty {A} (m : M S E A) w r w' : consumes m -> m w = (r, w') -> faulty w' -> faulty w.
Proof. intros Hm Hr (e & He). specialize (Hm w). rewrite Hr in Hm. exists e. by apply Hm. Qed.
End consumes.

(** An operation of a component that owns a part of the tables. *)
Definition zoom {S T E A} (get : S -> T) (put : T -> S -> S) (m : M T E A) : M S E A :=
  fun w => let '(r, w') := m (World (get (w_db w)) (w_faults w)) in (r, World (put (w_db w') (w_db w)) (w_faults w')).

Lemma zoom_run {S T E A} (get : S -> T) put (m : M T E A) w r w' :
  zoom get put m w = (r, w') ->
  exists w1, m (World (get (w_db w)) (w_faults w)) = (r, w1) /\ w_db w' = put (w_db w1) (w_db w).
Proof.
  unfold zoom. destruct (m _) as [r1 w1]. intros [= <- <-]. by exists w1.
Qed.

(** ** Stable sorting by a boolean order, as [sort.SliceStable] and ORDER BY *)

Section sort_by.
Context {A : Type} (leb : A -> A -> bool).

Fixpoint insert_by (x : A) (l : list A) : list A :=
  match l with
  | [] => [x]
  | y :: l' => if leb x y then x :: l else y :: insert_by x l'
  end.
Definition sort_by (l : list A) : list A := foldr insert_by [] l.

Lemma insert_by_perm x l : insert_by x l ≡ₚ x :: l.
Proof.
  induction l as [|y l IH]; simpl; [done|]. destruct (leb x y); [done|].
  rewrite IH. apply Permutation_swap.
Qed.
Lemma sort_by_perm l : sort_by l ≡ₚ l.
Proof. induction l as [|x l IH]; simpl; [done|]. by rewrite insert_by_perm, IH. Qed.

Context (Htotal : forall x y, leb x y = true \/ leb y x = true)
  (Htrans : forall x y z, leb x y = true -> leb y z = true -> leb x z = true).

Lemma insert_by_sorted x l :
  StronglySorted (fun a b => leb a b = true) l ->
  StronglySorted (fun a b => leb a b = true) (insert_by x l).
Proof.
  induction 1 as [|y l Hl IH Hy]; simpl; [by repeat constructor|].
  destruct (leb x y) eqn:Hxy.
  - constructor; [by constructor|]. constructor; [done|].
    eapply Forall_impl; [exact Hy|]. simpl; intros z Hz. by eapply Htrans.
  - constructor; [done|]. rewrite insert_by_perm. constructor; [|done].
    destruct (Htotal x y); congruence.
Qed.
Lemma sort_by_sorted l : StronglySorted (fun a b => leb a b = true) (sort_by l).
Proof. induction l; simpl; [constructor|]. by apply insert_by_sorted. Qed.
End sort_by.

(** What every transition keeps holds after any number of them. *)
Lemma rtc_invariant {A} (R : A -> A -> Prop) (P : A -> Prop) x y :
  (forall a b, R a b -> P a -> P b) -> P x -> rtc R x y -> P y.
Proof. intros HR Hx Hrun. induction Hrun; eauto. Qed.

(** ** Tables as finite maps *)

Lemma nodup_filter_fst {K V} (p : K * V -> bool) (l : list (K * V)) :
  NoDup (List.map fst l) -> NoDup (List.map fst (List.filter p l)).
Proof.
  induction l as [|x l IH]; simpl; [done|]. intros [Hx Hnd]%NoDup_cons.
  destruct (p x); simpl; [|auto]. apply NoDup_cons. split; [|auto]. intros Hin. apply Hx.
  rewrite list_elem_of_In in Hin. rewrite list_elem_of_In.
  apply List.in_map_iff in Hin as (y & Hy & [Hin _]%List.filter_In). apply List.in_map_iff. eauto.
Qed.

Lemma alter_some {K V} `{Countable K} (f : V -> V) (m : gmap K V) k v :
  m !! k = Some v -> alter f k m = <[k := f v]> m.
Proof.
  intros Hk. apply map_eq. intros i. destruct (decide (k = i)) as [<-|].
  - by rewrite lookup_alter_eq, lookup_insert_eq, Hk.
  - by rewrite lookup_alter_ne, lookup_insert_ne.
Qed.

(** A query lists its rows in an order of the server's choice; ORDER BY sorts
    it and leaves rows that compare equal in that order. *)
Class ScanOrder := {
  scan : forall K V `{Countable K}, gmap K V -> list (K * V);
  scan_perm : forall K V `{Countable K} (m : gmap K V), scan K V m ≡ₚ map_to_list m;
}.
Arguments scan {_ K V _ _} _.
Arguments scan_perm {_ K V _ _} _.

(** Rows listed in the order of the map, as a concrete choice. *)
Definition key_order : ScanOrder :=
  {| scan K V _ _ m := map_to_list m; scan_perm K V _ _ m := reflexivity (map_to_list m) |}.

(** An UPDATE of the rows of a list. *)
Lemma fold_insert_spec {K V} `{Countable K} (f : K * V -> V) (l : list (K * V)) : forall (m : gmap K V),
  NoDup (List.map fst l) ->
  (forall p, p ∈ l -> fold_left (fun m p => <[p.1 := f p]> m) l m !! p.1 = Some (f p)) /\
  (forall k, k ∉ List.map fst l -> fold_left (fun m p => <[p.1 := f p]> m) l m !! k = m !! k).
Proof.
  induction l as [|x l IH]; simpl; intros m Hnd; [split; [by intros p ?%not_elem_of_nil|done]|].
  apply NoDup_cons in Hnd as [Hx Hnd]. destruct (IH (<[x.1 := f x]> m) Hnd) as [H1 H2]. split.
  - intros p [->|Hp]%elem_of_cons; [|auto]. rewrite H2 by done. apply lookup_insert_eq.
  - intros k Hk. apply not_elem_of_cons in Hk as [Hne Hk]. rewrite H2 by done. by apply lookup_insert_ne.
Qed.

(** ** Tactics *)

(** Case analysis on every [match]/[if] whose scrutinee is in the goal or a
    hypothesis, keeping equations. *)
Ltac split_match :=
  match goal with
  | |- context [match ?x with _ => _ end] => destruct x eqn:?
  | H : context [match ?x with _ => _ end] |- _ => destruct x eqn:?
  end.
Ltac split_matches := repeat (split_match; simplify_eq/=).

(** Boolean tests become the propositions they decide. *)
Ltac bool_to_prop :=
  repeat match goal with
  | H : (_ && _)%bool = true |- _ => apply andb_true_iff in H; destruct H
  | H : (_ || _)%bool = false |- _ => apply orb_false_iff in H; destruct H
  | H : negb _ = true |- _ => apply negb_true_iff in H
  | H : negb _ = false |- _ => apply negb_false_iff in H
  | H : (_ <? _) = true |- _ => apply Z.ltb_lt in H
  | H : (_ <? _) = false |- _ => apply Z.ltb_ge in H
  | H : (_ <=? _) = true |- _ => apply Z.leb_le in H
  | H : (_ <=? _) = false |- _ => apply Z.leb_gt in H
  | H : (_ >=? _) = true |- _ => apply Z.geb_le in H
  | H : (_ =? _) = true |- _ => apply Z.eqb_eq in H
  | H : (_ =? _) = false |- _ => apply Z.eqb_neq in H
  | H : (_ =? _)%string = true |- _ => apply String.eqb_eq in H
  | H : (_ =? _)%string = false |- _ => apply String.eqb_neq in H
  | H : bool_decide _ = true |- _ => apply bool_decide_eq_true in H
  | H : bool_decide _ = false |- _ => apply bool_decide_eq_false in H
  end.

(** Destructs existentials and conjunctions in the context. *)
Ltac deex :=
  repeat match goal with
  | H : exists x, _ |- _ => let y := fresh x in destruct H as [y H]
  | H : _ /\ _ |- _ => destruct H
  end.

(** ** Hint database for state-passing proofs *)

Create HintDb aegion.
Create Rewrite HintDb aegion.
#[export] Hint Resolve wrap64_range : aegion.
#[export] Hint Resolve preserves_ret preserves_throw preserves_lift preserves_bind preserves_tx : aegion.
#[export] Hint Resolve steps_ret steps_throw steps_call steps_attempt query_ret query_throw query_lift
  query_call query_attempt consumes_ret consumes_throw consumes_stmt consumes_call consumes_attempt : aegion.
#[export] Hint Rewrite @M_bind_run @M_ret_run @db_stmt_clean : aegion.
