(* ===== verification/OneTime.v ===== *)
(** One-time objects: codes, links, tokens and challenges that many requests
    may claim at the same time and that must be granted once.

    A component shows that each of its statements is a [claim_step]: a grant
    needs the object open and closes it, and what a statement opens is not an
    object granted before.  Then no history grants an object twice. *)

From S2P Require Import Prelude.

Section one_time.
Context {S K : Type} (open : S -> K -> Prop).

Inductive claim_step : list K * S -> list K * S -> Prop :=
| Grant log s s' k :
    open s k -> ~ open s' k -> (forall j, open s' j -> open s j) -> claim_step (log, s) (k :: log, s')
| Silent log s s' :
    (forall j, open s' j -> open s j \/ j ∉ log) -> claim_step (log, s) (log, s').

Definition once (p : list K * S) : Prop := NoDup p.1 /\ forall k, k ∈ p.1 -> ~ open p.2 k.

Lemma claim_step_once p p' : claim_step p p' -> once p -> once p'.
Proof.
  unfold once. intros Hs [Hnd Hcl]. destruct Hs as [log s s' k Ho Hc Hold|log s s' Hold]; cbn [fst snd] in *.
  - split.
    + constructor; [|done]. intros Hin. by apply (Hcl k).
    + intros j [->|Hj]%elem_of_cons; [done|]. intros Hj'. by apply (Hcl j), Hold.
  - split; [done|]. intros j Hj Hj'. destruct (Hold j Hj') as [Ho|Hn]; [by apply (Hcl j)|done].
Qed.

(** The order in which grants are recorded does not matter. *)
Lemma once_perm log log' s : log ≡ₚ log' -> once (log, s) -> once (log', s).
Proof. unfold once. intros Hp [Hnd Hcl]. cbn [fst snd] in *. setoid_rewrite <- Hp. done. Qed.

Lemma granted_once s p : rtc claim_step ([], s) p -> once p.
Proof.
  intros Hrun. eapply rtc_invariant; [exact claim_step_once| |exact Hrun].
  split; [constructor|]. by intros k ?%not_elem_of_nil.
Qed.
End one_time.

(** ** Requests that run at the same time

    A [prog] is a request cut at its calls of the store: between two calls of
    one request the other requests may run.  [run_prog] runs it alone. *)

Inductive prog (S R : Type) : Type :=
| Ret (r : R)
| Call {A E : Type} (m : M S E A) (k : result E A -> prog S R).
Arguments Ret {S R} r.
Arguments Call {S R A E} m k.

Fixpoint run_prog {S R} (p : prog S R) (w : world S) : R * world S :=
  match p with
  | Ret r => (r, w)
  | Call m k => let '(r, w') := m w in run_prog (k r) w'
  end.

(** A call whose error ends the request. *)
Definition bindc {S E A B} (m : M S E A) (k : A -> prog S (result E B)) : prog S (result E B) :=
  Call m (fun r => match r with Ok a => k a | Err e => Ret (Err e) end).

Lemma run_bindc {S E A B C} (g : B -> C) (m : M S E A) (k : A -> prog S (result E B)) (f : A -> M S E C) w :
  (forall a w, (fun rw => (g <$> rw.1, rw.2)) (run_prog (k a) w) = f a w) ->
  (fun rw => (g <$> rw.1, rw.2)) (run_prog (bindc m k) w) = (m ≫= f) w.
Proof. intros Hk. rewrite M_bind_run. cbn. destruct (m w) as [[a|e] w']; [apply Hk|done]. Qed.

Section pool.
Context {S R K : Type} (open : S -> K -> Prop) (grant : R -> option K).

(** Some request makes its next call, under some faults. *)
Inductive pool_step : list (prog S R) * S -> list (prog S R) * S -> Prop :=
| Pool_call i ps s A E (m : M S E A) k fs r w' :
    ps !! i = Some (Call m k) -> m (World s fs) = (r, w') ->
    pool_step (ps, s) (<[i := k r]> ps, w_db w').

(** A schedule without faults, executably. *)
Fixpoint pool_run (schedule : list nat) (p : list (prog S R) * S) : list (prog S R) * S :=
  match schedule with
  | [] => p
  | i :: rest =>
      match p.1 !! i with
      | Some (Call m k) => let '(r, w') := m (World p.2 []) in pool_run rest (<[i := k r]> p.1, w_db w')
      | _ => pool_run rest p
      end
  end.
Lemma pool_run_steps schedule p : rtc pool_step p (pool_run schedule p).
Proof.
  revert p. induction schedule as [|i rest IH]; intros [ps s]; cbn [pool_run fst snd]; [done|].
  destruct (ps !! i) as [[r|A E m k]|] eqn:Hi; [apply IH| |apply IH].
  destruct (m (World s [])) as [r w'] eqn:Hm. eapply rtc_l; [by eapply Pool_call|apply IH].
Qed.

Definition granted_by (p : prog S R) : option K := match p with Ret r => grant r | Call _ _ => None end.
Definition grants (ps : list (prog S R)) : list K := omap granted_by ps.

(** [disciplined new p]: [p] grants an object only by closing it in its last
    call, and opens nothing but objects of [new], each in one call. *)
Fixpoint disciplined (new : K -> Prop) (p : prog S R) : Prop :=
  match p with
  | Ret r => grant r = None
  | Call m k =>
      exists new' : K -> Prop, (forall j, new' j -> new j) /\
      forall w r w', m w = (r, w') ->
        (granted_by (k r) = None /\ disciplined new' (k r) /\
           forall j, open (w_db w') j -> open (w_db w) j \/ (new j /\ ~ new' j)) \/
        (exists x j, k r = Ret x /\ grant x = Some j /\ open (w_db w) j /\ ~ open (w_db w') j /\
           forall j, open (w_db w') j -> open (w_db w) j)
  end.

Lemma grants_insert i p p' ps :
  ps !! i = Some p -> granted_by p = None -> grants (<[i := p']> ps) ≡ₚ option_list (granted_by p') ++ grants ps.
Proof.
  unfold grants. revert i. induction ps as [|u ps IH]; intros [|i] Hi Hp; simplify_eq/=.
  - rewrite Hp. by destruct (granted_by p').
  - specialize (IH i Hi Hp). destruct (granted_by u); [|done]. rewrite IH. by rewrite Permutation_middle.
Qed.

(** What holds of a pool: every request has ended or is disciplined with the
    objects it may still open, which are its own, closed and not granted. *)
Record pool_inv (p : list (prog S R) * S) : Prop := {
  pool_once : once open (grants p.1, p.2);
  pool_owned : exists new : nat -> K -> Prop,
    (forall i q, p.1 !! i = Some q -> (exists r, q = Ret r) \/ disciplined (new i) q) /\
    (forall i i' j, new i j -> new i' j -> i = i') /\
    (forall i j, new i j -> ~ open p.2 j /\ j ∉ grants p.1);
}.

Lemma pool_inv_step p p' : pool_step p p' -> pool_inv p -> pool_inv p'.
Proof.
  intros Hs [Honce (new & Hd & Hown & Hcl)]. destruct Hs as [i ps s A E m k fs r w' Hi Hm]. cbn [fst snd] in *.
  destruct (Hd i _ Hi) as [[r' Hr]|Hdisc]; [done|].
  cbn [disciplined] in Hdisc. destruct Hdisc as (new' & Hsub & Hcase). specialize (Hcase _ _ _ Hm).
  cbn [w_db] in Hcase.
  set (upd := fun i' j => if decide (i' = i) then new' j else new i' j).
  assert (Hupd : forall i' j, upd i' j -> new i' j) by (unfold upd; intros i' j; case_decide; subst; auto).
  assert (Hlen : (i < length ps)%nat) by (by eapply lookup_lt_Some).
  assert (Hrest : (exists x, k r = Ret x) \/ disciplined new' (k r) ->
    forall i' q, <[i := k r]> ps !! i' = Some q -> (exists r, q = Ret r) \/ disciplined (upd i' ) q).
  { intros Hk i' q Hq. unfold upd. destruct (decide (i' = i)) as [He|Hne]; [subst i'|].
    - rewrite list_lookup_insert_eq in Hq by done. by injection Hq as <-.
    - rewrite list_lookup_insert_ne in Hq by done. eauto. }
  pose proof (grants_insert i (Call m k) (k r) ps Hi eq_refl) as Hperm.
  destruct Hcase as [(Hg & Hdk & Hop)|(x & j & Hx & Hg & Ho & Hc & Hop)].
  - rewrite Hg in Hperm. cbn [option_list app] in Hperm. split; cbn [fst snd].
    + eapply once_perm; [symmetry; exact Hperm|]. eapply claim_step_once; [apply Silent|exact Honce].
      intros j Hj. destruct (Hop j Hj) as [?|[Hn _]]; [by left|right]. by apply (Hcl i).
    + exists upd. split_and!; [by apply Hrest; right|eauto|].
      intros i' j Hj. destruct (Hcl i' j (Hupd _ _ Hj)) as [Hno Hng]. split.
      * intros Hj'. destruct (Hop j Hj') as [?|[Hn Hn']]; [done|].
        assert (i' = i) as -> by eauto. unfold upd in Hj. by rewrite decide_True in Hj.
      * by rewrite Hperm.
  - rewrite Hx in Hperm. cbn [granted_by] in Hperm. rewrite Hg in Hperm. cbn [option_list app] in Hperm.
    assert (Hgr : forall j', j' ∈ grants (<[i := k r]> ps) -> j' = j \/ j' ∈ grants ps)
      by (intros j'; rewrite Hx, Hperm; set_solver).
    split; cbn [fst snd].
    + eapply once_perm; [rewrite Hx; symmetry; exact Hperm|]. by eapply claim_step_once; [apply Grant|exact Honce].
    + exists upd. split_and!; [apply Hrest; left; eauto|eauto|].
      intros i' j' Hj. destruct (Hcl i' j' (Hupd _ _ Hj)) as [Hno Hng]. split; [by intros ?%Hop|].
      intros [->|?]%Hgr; done.
Qed.

(** Requests that start disciplined, each with its own new objects, never
    grant an object twice, and what was granted is closed. *)
Lemma pool_grants_once ps s ps' s' (new : nat -> K -> Prop) :
  (forall i p, ps !! i = Some p -> disciplined (new i) p /\ granted_by p = None) ->
  (forall i i' j, new i j -> new i' j -> i = i') -> (forall i j, new i j -> ~ open s j) ->
  rtc pool_step (ps, s) (ps', s') -> NoDup (grants ps') /\ forall j, j ∈ grants ps' -> ~ open s' j.
Proof.
  intros Hd Hown Hcl Hrun.
  assert (Hg0 : grants ps = []).
  { clear Hrun Hown Hcl. revert new Hd. unfold grants. induction ps as [|p ps IH]; intros new Hd; [done|]. cbn.
    destruct (Hd 0%nat p eq_refl) as [_ ->]. apply (IH (fun i => new (Datatypes.S i))). intros i q Hq. exact (Hd (Datatypes.S i) q Hq). }
  assert (Hinv : pool_inv (ps', s')).
  { eapply rtc_invariant; [exact pool_inv_step| |exact Hrun]. split; cbn [fst snd]; rewrite Hg0.
    - split; [constructor|]. by intros j ?%not_elem_of_nil.
    - exists new. split_and!; [|done|].
      + intros i p Hp. right. by apply (Hd i p).
      + intros i j Hj. split; [eauto|]. by apply not_elem_of_nil. }
  destruct Hinv as [[Hnd Hc] _]. split; [exact Hnd|exact Hc].
Qed.
End pool.

(** ** Showing that a request is disciplined *)

Section discipline.
Context {S K : Type} (open : S -> K -> Prop).

(** [m] opens nothing, whatever fails. *)
Definition closing (s s' : S) : Prop := forall j, open s' j -> open s j.
Definition opens_nothing {E A} (m : M S E A) : Prop := steps_in closing (fun _ => True) m.

Lemma opens_nothing_run {E A} (m : M S E A) w r w' j :
  opens_nothing m -> m w = (r, w') -> open (w_db w') j -> open (w_db w) j.
Proof.
  intros Hm E0 Hj. specialize (Hm w I). rewrite E0 in Hm. cbn [snd] in Hm. revert Hj.
  induction Hm as [|x y z Hxy _ IH]; [done|]. intros Hj. by apply Hxy, IH.
Qed.

Context {R : Type} (grant : R -> option K).

Lemma disciplined_not_granted new p : disciplined open grant new p -> granted_by grant p = None.
Proof. by destruct p. Qed.

Lemma disciplined_weaken (new new2 : K -> Prop) p :
  (forall j, new j -> new2 j) -> disciplined open grant new p -> disciplined open grant new2 p.
Proof.
  intros Hsub. destruct p as [r|A E m k]; [done|]. intros (new' & Hsub' & Hcase). exists new'. split; [auto|].
  intros w r w' Hm. destruct (Hcase w r w' Hm) as [(Hg & Hd & Ho)|Hcl]; [left|by right]. split_and!; [done..|].
  intros j Hj. destruct (Ho j Hj) as [?|[? ?]]; auto.
Qed.
End discipline.

Section bindc_discipline.
Context {S K E B : Type} (open : S -> K -> Prop) (grant : result E B -> option K)
  (Hgrant : forall e, grant (Err e) = None).

(** A call that opens nothing. *)
Lemma disciplined_quiet {A} new (m : M S E A) k :
  opens_nothing open m -> (forall a, disciplined open grant new (k a)) -> disciplined open grant new (bindc m k).
Proof using Hgrant.
  intros Hm Hk. exists new. split; [done|]. intros w r w' E0. left.
  assert (Hd : disciplined open grant new (match r with Ok a => k a | Err e => Ret (Err e) end))
    by (destruct r; [apply Hk|apply Hgrant]).
  split_and!; [by eapply disciplined_not_granted|done|]. intros j Hj. left. by eapply opens_nothing_run.
Qed.

(** A call that may open the request's own new object. *)
Lemma disciplined_open {A} id (m : M S E A) k :
  (forall w r w' j, m w = (r, w') -> open (w_db w') j -> open (w_db w) j \/ j = id) ->
  (forall a, disciplined open grant (fun _ => False) (k a)) ->
  disciplined open grant (fun j => j = id) (bindc m k).
Proof using Hgrant.
  intros Hm Hk. exists (fun _ => False). split; [done|]. intros w r w' E0. left.
  assert (Hd : disciplined open grant (fun _ => False) (match r with Ok a => k a | Err e => Ret (Err e) end))
    by (destruct r; [apply Hk|apply Hgrant]).
  split_and!; [by eapply disciplined_not_granted|done|]. intros j Hj. destruct (Hm _ _ _ j E0 Hj); auto.
Qed.

(** The last call of a request that is granted an object: it closes it. *)
Lemma disciplined_claim {A} new id (m : M S E A) (answer : A -> result E B) :
  opens_nothing open m ->
  (forall w a w', m w = (Ok a, w') -> open (w_db w) id /\ ~ open (w_db w') id) ->
  (forall a, grant (answer a) = Some id) ->
  disciplined open grant new (bindc m (fun a => Ret (answer a))).
Proof using Hgrant.
  intros Hm Hcl Hans. exists new. split; [done|]. intros w r w' E0. destruct r as [a|e]; [right|left].
  - exists (answer a), id. destruct (Hcl _ _ _ E0). split_and!; [done|apply Hans|done..|].
    intros j. by eapply opens_nothing_run.
  - cbn [granted_by disciplined]. split_and!; [apply Hgrant..|]. intros j Hj. left. by eapply opens_nothing_run.
Qed.
End bindc_discipline.
