(* ===== verification/GoStrings.v ===== *)
(** Go's [strings], [strconv] and [path] packages, as far as the modelled code
    uses them.

    A Go string is a sequence of bytes and is modelled by [String.string].
    Case conversion and [TrimSpace] act on the ASCII range (bytes from 128 on,
    which Go would decode as UTF-8, are kept as they are), and a rune of
    [path.Match] is one byte. *)

From Stdlib Require Import Ascii String DecimalString DecimalZ DecimalPos.
From S2P Require Import Prelude.

Local Open Scope string_scope.

#[global] Arguments String.append !_ _ / : simpl nomatch.

(** ** Characters *)

Definition code (c : ascii) : N := N_of_ascii c.

Definition is_space (c : ascii) : bool :=
  ((9 <=? code c) && (code c <=? 13) || (code c =? 32))%N.

Definition lower_char (c : ascii) : ascii :=
  if ((65 <=? code c) && (code c <=? 90))%N then ascii_of_N (code c + 32) else c.
Definition upper_char (c : ascii) : ascii :=
  if ((97 <=? code c) && (code c <=? 122))%N then ascii_of_N (code c - 32) else c.

(** ** Strings *)

Fixpoint str_forall (p : ascii -> bool) (s : string) : bool :=
  match s with
  | EmptyString => true
  | String c s' => p c && str_forall p s'
  end.

Fixpoint str_map (f : ascii -> ascii) (s : string) : string :=
  match s with
  | EmptyString => EmptyString
  | String c s' => String (f c) (str_map f s')
  end.

Definition ToLower : string -> string := str_map lower_char.
Definition ToUpper : string -> string := str_map upper_char.

Fixpoint trim_left (p : ascii -> bool) (s : string) : string :=
  match s with
  | EmptyString => EmptyString
  | String c s' => if p c then trim_left p s' else s
  end.

Fixpoint trim_right (p : ascii -> bool) (s : string) : string :=
  match s with
  | EmptyString => EmptyString
  | String c s' =>
      match trim_right p s' with
      | EmptyString => if p c then EmptyString else String c EmptyString
      | r => String c r
      end
  end.

Definition trim (p : ascii -> bool) (s : string) : string := trim_right p (trim_left p s).
Definition TrimSpace : string -> string := trim is_space.

Definition HasPrefix (s p : string) : bool := String.prefix p s.

Fixpoint str_drop (n : nat) (s : string) : string :=
  match n, s with
  | O, _ => s
  | S n', String _ s' => str_drop n' s'
  | _, EmptyString => EmptyString
  end.
Fixpoint str_take (n : nat) (s : string) : string :=
  match n, s with
  | S n', String c s' => String c (str_take n' s')
  | _, _ => EmptyString
  end.

Definition CutPrefix (s p : string) : option string :=
  if HasPrefix s p then Some (str_drop (String.length p) s) else None.
Definition TrimPrefix (s p : string) : string :=
  if HasPrefix s p then str_drop (String.length p) s else s.

Definition HasSuffix (s p : string) : bool :=
  (String.length p <=? String.length s)%nat &&
  String.eqb (str_drop (String.length s - String.length p) s) p.
Definition TrimSuffix (s p : string) : string :=
  if HasSuffix s p then str_take (String.length s - String.length p) s else s.

(** [strings.Split(s, sep)] for a one-byte separator. *)
Fixpoint Split (s : string) (sep : ascii) : list string :=
  match s with
  | EmptyString => [EmptyString]
  | String c s' =>
      if Ascii.eqb c sep then EmptyString :: Split s' sep
      else match Split s' sep with
           | h :: t => String c h :: t
           | [] => [String c EmptyString]
           end
  end.

Fixpoint Join (parts : list string) (sep : string) : string :=
  match parts with
  | [] => EmptyString
  | [p] => p
  | p :: ps => p +:+ sep +:+ Join ps sep
  end.

Definition not_char (sep : ascii) (c : ascii) : bool := negb (Ascii.eqb c sep).

(** Byte-wise lexicographic order, Go's [<] on strings. *)
Definition str_ltb (a b : string) : bool :=
  match String.compare a b with Lt => true | _ => false end.

(** ** Lemmas *)

Lemma str_app_assoc (a b c : string) : (a +:+ b) +:+ c = a +:+ b +:+ c.
Proof. induction a; simpl; congruence. Qed.

Lemma str_app_nil_r (a : string) : a +:+ "" = a.
Proof. induction a; simpl; congruence. Qed.

Lemma str_length_app (a b : string) :
  String.length (a +:+ b) = (String.length a + String.length b)%nat.
Proof. induction a; simpl; congruence. Qed.

Lemma str_drop_app (a b : string) : str_drop (String.length a) (a +:+ b) = b.
Proof. induction a; simpl; auto. Qed.

Lemma str_take_app (a b : string) : str_take (String.length a) (a +:+ b) = a.
Proof. induction a; simpl; f_equal; auto. Qed.

Lemma prefix_app (a b : string) : String.prefix a (a +:+ b) = true.
Proof. induction a; simpl; [by destruct b|]. by case_match. Qed.

Lemma HasPrefix_spec s p : HasPrefix s p = true <-> exists t, s = p +:+ t.
Proof.
  unfold HasPrefix. split; [|intros [t ->]; apply prefix_app].
  revert s; induction p as [|c p IH]; intros s H; [by exists s|].
  destruct s as [|d s]; simpl in H; [done|].
  case_match; [|done]. subst. apply IH in H as [t ->]. by exists t.
Qed.

Lemma CutPrefix_app p t : CutPrefix (p +:+ t) p = Some t.
Proof. unfold CutPrefix, HasPrefix. by rewrite prefix_app, str_drop_app. Qed.

Lemma CutPrefix_some s p t : CutPrefix s p = Some t <-> s = p +:+ t.
Proof.
  split; [|intros ->; apply CutPrefix_app].
  unfold CutPrefix. destruct (HasPrefix s p) eqn:H; [|done].
  apply HasPrefix_spec in H as [u ->]. rewrite str_drop_app. by intros [= ->].
Qed.

Lemma TrimPrefix_app p t : TrimPrefix (p +:+ t) p = t.
Proof. unfold TrimPrefix, HasPrefix. by rewrite prefix_app, str_drop_app. Qed.

Lemma str_take_drop n s : str_take n s +:+ str_drop n s = s.
Proof. revert s; induction n; intros [|c s]; simpl; f_equal; auto. Qed.

Lemma HasSuffix_spec s p : HasSuffix s p = true <-> exists t, s = t +:+ p.
Proof.
  unfold HasSuffix. rewrite andb_true_iff, Nat.leb_le, String.eqb_eq. split.
  - intros [_ H]. exists (str_take (String.length s - String.length p) s).
    rewrite <- H at 2. by rewrite str_take_drop.
  - intros [t ->]. rewrite str_length_app. split; [lia|].
    replace (_ - _)%nat with (String.length t) by lia. apply str_drop_app.
Qed.

Lemma TrimSuffix_app t p : TrimSuffix (t +:+ p) p = t.
Proof.
  unfold TrimSuffix. replace (HasSuffix _ _) with true.
  - rewrite str_length_app.
    replace (_ - _)%nat with (String.length t) by lia. apply str_take_app.
  - symmetry; apply HasSuffix_spec; eauto.
Qed.

Lemma str_forall_app p a b : str_forall p (a +:+ b) = str_forall p a && str_forall p b.
Proof. induction a; simpl; [done|]. by rewrite IHa, andb_assoc. Qed.

Lemma str_forall_impl (p q : ascii -> bool) s :
  (forall c, p c = true -> q c = true) -> str_forall p s = true -> str_forall q s = true.
Proof.
  intros Hpq; induction s; simpl; [done|].
  rewrite !andb_true_iff; naive_solver.
Qed.

Lemma trim_left_forall p q s : str_forall q s = true -> str_forall q (trim_left p s) = true.
Proof.
  induction s; simpl; [done|]. rewrite andb_true_iff; intros [? ?].
  case_match; [auto|]. simpl. by rewrite andb_true_iff.
Qed.

Lemma trim_right_forall p q s : str_forall q s = true -> str_forall q (trim_right p s) = true.
Proof.
  induction s as [|c s IH]; [done|]. change (str_forall q (String c s)) with (q c && str_forall q s).
  rewrite andb_true_iff; intros [Hc Hs]. specialize (IH Hs).
  simpl. destruct (trim_right p s) eqn:E.
  - case_match; simpl; by rewrite ?Hc.
  - change (q c && str_forall q (String a s0) = true). by rewrite Hc, IH.
Qed.

(** A string whose bytes are all kept is unchanged by trimming. *)
Lemma trim_right_none p s : str_forall (fun c => negb (p c)) s = true -> trim_right p s = s.
Proof.
  induction s as [|c s IH]; simpl; [done|]. rewrite andb_true_iff, negb_true_iff.
  intros [Hc Hs]. rewrite IH by done. destruct s; [by rewrite Hc|done].
Qed.

Lemma trim_none p s : str_forall (fun c => negb (p c)) s = true -> trim p s = s.
Proof.
  intros H. unfold trim. destruct s as [|c s]; [done|]. simpl trim_left.
  pose proof H as H'. simpl in H'. rewrite andb_true_iff, negb_true_iff in H'.
  destruct H' as [-> _]. by apply trim_right_none.
Qed.

(** Trimming twice trims once. *)
Lemma trim_left_idem p s : trim_left p (trim_left p s) = trim_left p s.
Proof.
  induction s as [|c s IH]; simpl; [done|]. destruct (p c) eqn:Hc; [done|]. simpl. by rewrite Hc.
Qed.
Lemma trim_right_idem p s : trim_right p (trim_right p s) = trim_right p s.
Proof.
  induction s as [|c s IH]; simpl; [done|].
  destruct (trim_right p s) as [|d r] eqn:Hr.
  - destruct (p c) eqn:Hc; simpl; [done|]. by rewrite Hc.
  - change (match trim_right p (String d r) with
            | "" => if p c then "" else String c ""
            | String a s0 => String c (String a s0)
            end = String c (String d r)).
    by rewrite IH.
Qed.
Lemma trim_left_right p s : trim_left p (trim_right p (trim_left p s)) = trim_right p (trim_left p s).
Proof.
  induction s as [|c s IH]; simpl; [done|]. destruct (p c) eqn:Hc; [done|]. simpl.
  destruct (trim_right p s); rewrite ?Hc; simpl; by rewrite Hc.
Qed.
Lemma TrimSpace_idem s : TrimSpace (TrimSpace s) = TrimSpace s.
Proof. unfold TrimSpace, trim. by rewrite trim_left_right, trim_right_idem. Qed.

(** A text between characters that are kept is kept. *)
Lemma trim_right_app p a b : b <> "" -> str_forall (fun c => negb (p c)) b = true -> trim_right p (a +:+ b) = a +:+ b.
Proof.
  intros Hb Hall. induction a as [|c a IH]; [by apply trim_right_none|].
  change (trim_right p (String c (a +:+ b)) = String c (a +:+ b)). simpl. rewrite IH.
  destruct (a +:+ b) eqn:E; [|done]. by destruct a, b.
Qed.
Lemma trim_app p c a b :
  p c = false -> b <> "" -> str_forall (fun c => negb (p c)) b = true ->
  trim p (String c a +:+ b) = String c a +:+ b.
Proof.
  intros Hc Hb Hall. unfold trim.
  change (trim_left p (String c a +:+ b)) with (if p c then trim_left p (a +:+ b) else String c (a +:+ b)).
  rewrite Hc. by apply (trim_right_app p (String c a) b).
Qed.

Lemma Split_nonempty s c : Split s c <> [].
Proof. destruct s; simpl; [done|]. repeat case_match; done. Qed.

Lemma Split_single s c : str_forall (not_char c) s = true -> Split s c = [s].
Proof.
  induction s as [|d s IH]; simpl; [done|]. unfold not_char at 1.
  rewrite andb_true_iff, negb_true_iff. intros [-> H]. by rewrite IH.
Qed.

Lemma Split_app_sep a b c :
  str_forall (not_char c) a = true -> Split (a +:+ String c b) c = a :: Split b c.
Proof.
  induction a as [|d a IH]; simpl.
  - by rewrite Ascii.eqb_refl.
  - unfold not_char at 1. rewrite andb_true_iff, negb_true_iff. intros [-> H].
    by rewrite IH.
Qed.

(** [Split] inverts [Join] on parts that do not contain the separator. *)
Lemma Split_Join parts c :
  parts <> [] -> Forall (fun p => str_forall (not_char c) p = true) parts ->
  Split (Join parts (String c "")) c = parts.
Proof.
  induction parts as [|p ps IH]; intros Hne HF; [done|].
  inversion HF as [|? ? Hp Hps]; subst. destruct ps as [|q qs].
  - by apply Split_single.
  - change (Join (p :: q :: qs) (String c "")) with (p +:+ String c (Join (q :: qs) (String c ""))).
    rewrite Split_app_sep by done. by rewrite IH.
Qed.

Lemma Split_forall s c : Forall (fun p => str_forall (not_char c) p = true) (Split s c).
Proof.
  induction s as [|d s IH]; simpl; [by repeat constructor|].
  destruct (Ascii.eqb d c) eqn:E; [by constructor|].
  assert (Hd : not_char c d = true) by (unfold not_char; by rewrite E).
  destruct (Split s c) as [|h t]; [repeat constructor|rewrite Forall_cons in IH; destruct IH; constructor; [|done]];
    simpl; by rewrite Hd.
Qed.

Lemma Join_Split s c : Join (Split s c) (String c "") = s.
Proof.
  induction s as [|d s IH]; simpl; [done|].
  pose proof (Split_nonempty s c). destruct (Ascii.eqb_spec d c).
  - subst. destruct (Split s c) eqn:E; [done|]. simpl in IH |- *. by rewrite IH.
  - destruct (Split s c) as [|h [|h' t]]; simpl in *; [done|congruence|congruence].
Qed.

Lemma str_app_inj_r a a' p : a +:+ p = a' +:+ p -> a = a'.
Proof. intros E. rewrite <- (TrimSuffix_app a p), E. apply TrimSuffix_app. Qed.

(** A field that does not contain the separator can be read off. *)
Lemma str_app_sep_inj c a b a' b' :
  str_forall (not_char c) a = true -> str_forall (not_char c) a' = true ->
  a +:+ String c b = a' +:+ String c b' -> a = a' /\ b = b'.
Proof.
  revert a'. induction a as [|d a IH]; intros [|d' a'] Ha Ha' H; simpl in *;
    repeat match goal with H : _ && _ = true |- _ => apply andb_true_iff in H as [? ?] end;
    unfold not_char in *; simplify_eq/=; rewrite ?Ascii.eqb_refl in *; try done.
  edestruct (IH a') as [-> ->]; eauto.
Qed.

(** ** [sort.Strings] *)

Definition sort_Strings (l : list string) : list string := sort_by String.leb l.

Lemma sort_Strings_perm l : sort_Strings l ≡ₚ l.
Proof. apply sort_by_perm. Qed.

Lemma str_leb_cons x a y b :
  String.leb (String x a) (String y b) = (code x <? code y)%N || (code x =? code y)%N && String.leb a b.
Proof.
  unfold String.leb. simpl. change (Ascii.compare x y) with (code x ?= code y)%N.
  destruct (N.compare_spec (code x) (code y)) as [Heq|Hlt|Hgt].
  - rewrite Heq, N.eqb_refl. by replace (_ <? _)%N with false by (symmetry; apply N.ltb_irrefl).
  - by replace (_ <? _)%N with true by (symmetry; by apply N.ltb_lt).
  - replace (_ <? _)%N with false by (symmetry; apply N.ltb_ge; lia).
    by replace (_ =? _)%N with false by (symmetry; apply N.eqb_neq; lia).
Qed.

Lemma str_leb_trans a b c : String.leb a b = true -> String.leb b c = true -> String.leb a c = true.
Proof.
  revert b c. induction a as [|x a IH]; intros [|y b] [|z c]; try done.
  rewrite !str_leb_cons, !orb_true_iff, !andb_true_iff, !N.ltb_lt, !N.eqb_eq.
  intros [?|[? ?]] [?|[? ?]]; [left; lia|left; lia|left; lia|right; split; [lia|eauto]].
Qed.

Lemma sort_Strings_sorted l : StronglySorted (fun a b => String.leb a b = true) (sort_Strings l).
Proof. apply sort_by_sorted; [exact String.leb_total|exact str_leb_trans]. Qed.

(** Two sorted lists with the same elements are equal. *)
Lemma sorted_perm_eq (l l' : list string) :
  StronglySorted (fun a b => String.leb a b = true) l ->
  StronglySorted (fun a b => String.leb a b = true) l' -> l ≡ₚ l' -> l = l'.
Proof.
  intros Hl. revert l'. induction Hl as [|x l Hl IH Hx]; intros l' Hl' Hp.
  - symmetry. by apply Permutation_nil.
  - destruct Hl' as [|y l' Hl' Hy]; [by symmetry in Hp; apply Permutation_nil_cons in Hp|].
    assert (x = y) as ->.
    { apply String.leb_antisym.
      - assert (y ∈ x :: l) as Hin by (rewrite Hp; left).
        apply list_elem_of_In in Hin as [->|Hin]; [by destruct (String.leb_total y y)|].
        rewrite Forall_forall in Hx. by apply Hx, list_elem_of_In.
      - assert (x ∈ y :: l') as Hin by (rewrite <- Hp; left).
        apply list_elem_of_In in Hin as [->|Hin]; [by destruct (String.leb_total x x)|].
        rewrite Forall_forall in Hy. by apply Hy, list_elem_of_In. }
    f_equal. apply IH; [done|]. by apply Permutation_cons_inv in Hp.
Qed.

(** Sorting forgets the order of its argument. *)
Lemma sort_Strings_of_perm l l' : l ≡ₚ l' -> sort_Strings l = sort_Strings l'.
Proof.
  intros Hp. apply sorted_perm_eq; [apply sort_Strings_sorted..|]. by rewrite !sort_Strings_perm.
Qed.

(** ** [strings.Contains], [strings.LastIndex] and [strings.ReplaceAll] of a character *)

Definition Contains (s substr : string) : bool :=
  match String.index 0 substr s with Some _ => true | None => false end.

(** The position of the last occurrence of a character, -1 if there is none. *)
Fixpoint LastIndex (s : string) (c : ascii) : Z :=
  match s with
  | EmptyString => -1
  | String d s' =>
      let i := LastIndex s' c in
      if (0 <=? i)%Z then (i + 1)%Z else if Ascii.eqb d c then 0%Z else (-1)%Z
  end.

Definition ReplaceChar (s : string) (old new : ascii) : string :=
  str_map (fun c => if Ascii.eqb c old then new else c) s.

(** A string of zeros. *)
Fixpoint zeros (n : nat) : string := match n with O => "" | S k => String "0" (zeros k) end.
Lemma zeros_length n : String.length (zeros n) = n.
Proof. induction n; simpl; congruence. Qed.
