(* ===== verification/GoEncoding.v ===== *)
(** Go's [strconv] (decimal [int64]), [encoding/hex] and [encoding/base64]
    (the alphabets and paddings the platform package uses), with their
    round trips.  Byte slices and strings are both [String.string]. *)

From Stdlib Require Import Ascii String DecimalString DecimalZ DecimalPos.
From S2P Require Import Prelude GoStrings.

Local Open Scope string_scope.

(** ** Decimal integers *)

(** [strconv.AppendInt(_, z, 10)] and the [%d] verb. *)
Definition FormatInt (z : Z) : string := NilZero.string_of_int (Z.to_int z).

(** [strconv.ParseInt(s, 10, 64)]: optional sign, at least one digit, only
    digits, in the range of [int64]. *)
Definition ParseInt (s : string) : option Z :=
  let of_digits neg d :=
    match NilZero.uint_of_string d with
    | Some u =>
        let z := if neg : bool then Z.opp (Z.of_uint u) else Z.of_uint u in
        if ((int64_min <=? z) && (z <=? int64_max))%Z then Some z else None
    | None => None
    end in
  match s with
  | String "-" d => of_digits true d
  | String "+" d => of_digits false d
  | _ => of_digits false s
  end.

Definition is_digit (c : ascii) : bool := ((48 <=? code c) && (code c <=? 57))%N.

Lemma uint_string_digits u : str_forall is_digit (NilEmpty.string_of_uint u) = true.
Proof. induction u; simpl; auto. Qed.

Lemma uint_string_digits_zero u : str_forall is_digit (NilZero.string_of_uint u) = true.
Proof. destruct u; try reflexivity; exact (uint_string_digits (_ _)). Qed.

Lemma FormatInt_cases z :
  (exists c d, FormatInt z = String c d /\ is_digit c = true /\ str_forall is_digit d = true) \/
  (exists d, FormatInt z = String "-" d /\ str_forall is_digit d = true).
Proof.
  unfold FormatInt. assert (Hpos : forall u, exists c d, NilZero.string_of_uint u = String c d).
  { intros []; simpl; eauto. }
  destruct z as [|p|p]; simpl.
  - left; by exists "0"%char, "".
  - left. destruct (Hpos (Pos.to_uint p)) as (c & d & E). exists c, d.
    pose proof (uint_string_digits_zero (Pos.to_uint p)) as H. rewrite E in *.
    simpl in H. rewrite andb_true_iff in H. naive_solver.
  - right. eexists; split; [done|]. apply uint_string_digits_zero.
Qed.

Lemma is_digit_not c d : is_digit c = true -> is_digit d = false -> Ascii.eqb c d = false.
Proof. destruct (Ascii.eqb_spec c d); [subst; congruence|done]. Qed.

(** The printed form contains only digits and at most a leading sign, hence
    none of the separators of the token formats. *)
Lemma FormatInt_not_char z c :
  is_digit c = false -> Ascii.eqb "-" c = false -> str_forall (not_char c) (FormatInt z) = true.
Proof.
  intros Hc Hm.
  assert (Hd : forall s, str_forall is_digit s = true -> str_forall (not_char c) s = true).
  { intros s; apply str_forall_impl. intros d Hd. unfold not_char.
    by rewrite (is_digit_not d c). }
  destruct (FormatInt_cases z) as [(x & d & -> & Hx & Hs)|(d & -> & Hs)];
    cbn [str_forall]; rewrite (Hd d Hs); unfold not_char.
  - by rewrite (is_digit_not x c).
  - by rewrite Hm.
Qed.

Lemma FormatInt_nonempty z : FormatInt z <> "".
Proof. destruct (FormatInt_cases z) as [(?&?&->&_)|(?&->&_)]; done. Qed.

Lemma ParseInt_in_range z : in_int64 z -> ((int64_min <=? z) && (z <=? int64_max))%Z = true.
Proof. unfold in_int64. rewrite andb_true_iff, !Z.leb_le. lia. Qed.

Lemma ParseInt_digit c d :
  is_digit c = true ->
  ParseInt (String c d) =
  match NilZero.uint_of_string (String c d) with
  | Some u => if ((int64_min <=? Z.of_uint u) && (Z.of_uint u <=? int64_max))%Z
              then Some (Z.of_uint u) else None
  | None => None
  end.
Proof. intros H. destruct c as [[] [] [] [] [] [] [] []]; try reflexivity; discriminate H. Qed.

(** [ParseInt] reads back every [int64] that [FormatInt] prints. *)
Lemma ParseInt_FormatInt z : in_int64 z -> ParseInt (FormatInt z) = Some z.
Proof.
  intros Hz. pose proof (ParseInt_in_range z Hz) as Hr.
  pose proof (DecimalZ.of_to z) as Hof.
  destruct (FormatInt_cases z) as [(x & d & E & Hx & _)|(d & E & _)].
  - rewrite E, ParseInt_digit by done. rewrite <- E.
    destruct z as [|p|p]; unfold FormatInt; simpl in *.
    + reflexivity.
    + rewrite NilZero.usu by apply Unsigned.to_uint_nonnil.
      rewrite Hof. by rewrite Hr.
    + unfold FormatInt in E; simpl in E. inversion E; subst. discriminate Hx.
  - destruct z as [|p|p]; unfold FormatInt in E; simpl in E.
    + discriminate E.
    + pose proof (uint_string_digits_zero (Pos.to_uint p)) as H. rewrite E in H. discriminate H.
    + inversion E; subst. unfold FormatInt; simpl.
      rewrite NilZero.usu by apply Unsigned.to_uint_nonnil.
      simpl in Hof. rewrite Hof. by rewrite Hr.
Qed.

(** ** Hexadecimal *)

Definition hex_alphabet : string := "0123456789abcdef".

Definition bits4 (x : bool * bool * bool * bool) : nat :=
  let '(a, b, c, d) := x in
  (8 * Nat.b2n a + 4 * Nat.b2n b + 2 * Nat.b2n c + Nat.b2n d)%nat.

Definition hex_char (x : bool * bool * bool * bool) : ascii :=
  match String.get (bits4 x) hex_alphabet with Some c => c | None => "0"%char end.

Definition nat_bits4 (n : N) : bool * bool * bool * bool :=
  (N.testbit n 3, N.testbit n 2, N.testbit n 1, N.testbit n 0).

(** [hex] accepts both cases when decoding. *)
Definition hex_val (c : ascii) : option (bool * bool * bool * bool) :=
  let n := code c in
  (if (48 <=? n) && (n <=? 57) then Some (nat_bits4 (n - 48))
   else if (97 <=? n) && (n <=? 102) then Some (nat_bits4 (n - 87))
   else if (65 <=? n) && (n <=? 70) then Some (nat_bits4 (n - 55))
   else None)%N.

Fixpoint hex_EncodeToString (s : string) : string :=
  match s with
  | EmptyString => EmptyString
  | String (Ascii a0 a1 a2 a3 a4 a5 a6 a7) r =>
      String (hex_char (a7, a6, a5, a4))
        (String (hex_char (a3, a2, a1, a0)) (hex_EncodeToString r))
  end.

Fixpoint hex_DecodeString (s : string) : option string :=
  match s with
  | EmptyString => Some EmptyString
  | String h (String l r) =>
      match hex_val h, hex_val l, hex_DecodeString r with
      | Some (a7, a6, a5, a4), Some (a3, a2, a1, a0), Some t =>
          Some (String (Ascii a0 a1 a2 a3 a4 a5 a6 a7) t)
      | _, _, _ => None
      end
  | String _ EmptyString => None
  end.

Lemma hex_val_char x : hex_val (hex_char x) = Some x.
Proof. by destruct x as [[[[] []] []] []]. Qed.

Lemma hex_round_trip s : hex_DecodeString (hex_EncodeToString s) = Some s.
Proof.
  induction s as [|[] s IH]; [done|]. cbn [hex_EncodeToString hex_DecodeString].
  rewrite !hex_val_char. by rewrite IH.
Qed.

Definition is_hex (c : ascii) : bool :=
  (is_digit c || ((97 <=? code c) && (code c <=? 102)))%N.

Lemma hex_char_is_hex x : is_hex (hex_char x) = true.
Proof. by destruct x as [[[[] []] []] []]. Qed.

Lemma hex_Encode_chars s : str_forall is_hex (hex_EncodeToString s) = true.
Proof. induction s as [|[] s IH]; [done|]. cbn -[is_hex]. by rewrite !hex_char_is_hex. Qed.

Lemma hex_Encode_length s :
  String.length (hex_EncodeToString s) = (2 * String.length s)%nat.
Proof. induction s as [|[] s IH]; simpl in *; lia. Qed.

(** ** Base64 *)

Definition sextet : Type := bool * bool * bool * bool * bool * bool.

Definition url_alphabet : string :=
  "ABCDEFGHIJKLMNOPQRSTUVWXYZabcdefghijklmnopqrstuvwxyz0123456789-_".

Definition bits6 (x : sextet) : nat :=
  let '(a, b, c, d, e, f) := x in
  (32 * Nat.b2n a + 16 * Nat.b2n b + 8 * Nat.b2n c + 4 * Nat.b2n d + 2 * Nat.b2n e + Nat.b2n f)%nat.

Definition b64_char (x : sextet) : ascii :=
  match String.get (bits6 x) url_alphabet with Some c => c | None => "A"%char end.

Definition N_sextet (n : N) : sextet :=
  (N.testbit n 5, N.testbit n 4, N.testbit n 3, N.testbit n 2, N.testbit n 1, N.testbit n 0).

Definition b64_val (c : ascii) : option sextet :=
  let n := code c in
  (if (65 <=? n) && (n <=? 90) then Some (N_sextet (n - 65))
   else if (97 <=? n) && (n <=? 122) then Some (N_sextet (n - 71))
   else if (48 <=? n) && (n <=? 57) then Some (N_sextet (n + 4))
   else if n =? 45 then Some (N_sextet 62)
   else if n =? 95 then Some (N_sextet 63)
   else None)%N.

(** [base64.RawURLEncoding.EncodeToString]. *)
Fixpoint b64url_Encode (s : string) : string :=
  match s with
  | EmptyString => EmptyString
  | String (Ascii a0 a1 a2 a3 a4 a5 a6 a7) EmptyString =>
      String (b64_char (a7, a6, a5, a4, a3, a2))
        (String (b64_char (a1, a0, false, false, false, false)) EmptyString)
  | String (Ascii a0 a1 a2 a3 a4 a5 a6 a7)
      (String (Ascii b0 b1 b2 b3 b4 b5 b6 b7) EmptyString) =>
      String (b64_char (a7, a6, a5, a4, a3, a2))
        (String (b64_char (a1, a0, b7, b6, b5, b4))
          (String (b64_char (b3, b2, b1, b0, false, false)) EmptyString))
  | String (Ascii a0 a1 a2 a3 a4 a5 a6 a7)
      (String (Ascii b0 b1 b2 b3 b4 b5 b6 b7)
        (String (Ascii c0 c1 c2 c3 c4 c5 c6 c7) r)) =>
      String (b64_char (a7, a6, a5, a4, a3, a2))
        (String (b64_char (a1, a0, b7, b6, b5, b4))
          (String (b64_char (b3, b2, b1, b0, c7, c6))
            (String (b64_char (c5, c4, c3, c2, c1, c0)) (b64url_Encode r))))
  end.

(** The decoder skips line breaks, refuses any other foreign byte and a lone
    trailing character, and ignores the unused trailing bits. *)
Definition is_newline (c : ascii) : bool := ((code c =? 10) || (code c =? 13))%N.

Fixpoint strip_newlines (s : string) : string :=
  match s with
  | EmptyString => EmptyString
  | String c r => if is_newline c then strip_newlines r else String c (strip_newlines r)
  end.

Fixpoint b64url_quanta (s : string) : option string :=
  match s with
  | EmptyString => Some EmptyString
  | String _ EmptyString => None
  | String w (String x EmptyString) =>
      match b64_val w, b64_val x with
      | Some (a7, a6, a5, a4, a3, a2), Some (a1, a0, _, _, _, _) =>
          Some (String (Ascii a0 a1 a2 a3 a4 a5 a6 a7) EmptyString)
      | _, _ => None
      end
  | String w (String x (String y EmptyString)) =>
      match b64_val w, b64_val x, b64_val y with
      | Some (a7, a6, a5, a4, a3, a2), Some (a1, a0, b7, b6, b5, b4),
        Some (b3, b2, b1, b0, _, _) =>
          Some (String (Ascii a0 a1 a2 a3 a4 a5 a6 a7)
                 (String (Ascii b0 b1 b2 b3 b4 b5 b6 b7) EmptyString))
      | _, _, _ => None
      end
  | String w (String x (String y (String z r))) =>
      match b64_val w, b64_val x, b64_val y, b64_val z, b64url_quanta r with
      | Some (a7, a6, a5, a4, a3, a2), Some (a1, a0, b7, b6, b5, b4),
        Some (b3, b2, b1, b0, c7, c6), Some (c5, c4, c3, c2, c1, c0), Some t =>
          Some (String (Ascii a0 a1 a2 a3 a4 a5 a6 a7)
                 (String (Ascii b0 b1 b2 b3 b4 b5 b6 b7)
                   (String (Ascii c0 c1 c2 c3 c4 c5 c6 c7) t)))
      | _, _, _, _, _ => None
      end
  end.

Definition b64url_Decode (s : string) : option string := b64url_quanta (strip_newlines s).

Lemma b64_val_char x : b64_val (b64_char x) = Some x.
Proof. by destruct x as [[[[[[] []] []] []] []] []]. Qed.

Definition is_b64 (c : ascii) : bool :=
  match b64_val c with Some _ => true | None => false end.

Lemma b64_char_is_b64 x : is_b64 (b64_char x) = true.
Proof. unfold is_b64. by rewrite b64_val_char. Qed.

(** Induction by groups of three bytes. *)
Lemma triple_ind (P : string -> Prop) :
  P "" -> (forall a, P (String a "")) -> (forall a b, P (String a (String b ""))) ->
  (forall a b c r, P r -> P (String a (String b (String c r)))) ->
  forall s, P s.
Proof.
  intros H0 H1 H2 H3 s. enough (P s /\ (forall a, P (String a s)) /\ forall a b, P (String a (String b s))) by tauto.
  induction s as [|c s (IH1 & IH2 & IH3)]; auto.
Qed.

Lemma b64url_Encode_chars s : str_forall is_b64 (b64url_Encode s) = true.
Proof.
  induction s as [| [] | [] [] | [] [] [] r IH ] using triple_ind;
    cbn -[b64_char is_b64]; rewrite ?b64_char_is_b64; auto.
Qed.

Lemma strip_newlines_none s : str_forall is_b64 s = true -> strip_newlines s = s.
Proof.
  induction s as [|c s IH]; [done|]. cbn -[is_b64]. rewrite andb_true_iff. intros [Hc Hs].
  rewrite IH by done. destruct (is_newline c) eqn:E; [|done].
  exfalso. revert Hc E. by destruct c as [[] [] [] [] [] [] [] []].
Qed.

Lemma b64url_round_trip s : b64url_Decode (b64url_Encode s) = Some s.
Proof.
  unfold b64url_Decode. rewrite strip_newlines_none by apply b64url_Encode_chars.
  induction s as [| [] | [] [] | [] [] [] r IH ] using triple_ind; [done|..];
    cbn -[b64_char b64_val]; rewrite !b64_val_char; [done|done|].
  by rewrite IH.
Qed.

Lemma is_b64_not c d : is_b64 c = true -> is_b64 d = false -> not_char d c = true.
Proof. unfold not_char. destruct (Ascii.eqb_spec c d); [subst; congruence|done]. Qed.

Lemma is_hex_not c d : is_hex c = true -> is_hex d = false -> not_char d c = true.
Proof. unfold not_char. destruct (Ascii.eqb_spec c d); [subst; congruence|done]. Qed.

Lemma b64url_Encode_nonempty s : s <> "" -> b64url_Encode s <> "".
Proof. intros Hs He. apply Hs. pose proof (b64url_round_trip s) as H. rewrite He in H. by injection H. Qed.

Lemma b64url_no_sep s sep : is_b64 sep = false -> str_forall (not_char sep) (b64url_Encode s) = true.
Proof.
  intros H. eapply str_forall_impl; [|apply b64url_Encode_chars].
  intros c Hc. by apply is_b64_not.
Qed.

Lemma hex_no_sep s sep : is_hex sep = false -> str_forall (not_char sep) (hex_EncodeToString s) = true.
Proof.
  intros H. eapply str_forall_impl; [|apply hex_Encode_chars].
  intros c Hc. by apply is_hex_not.
Qed.

Lemma is_b64_not_space c : is_b64 c = true -> negb (is_space c) = true.
Proof.
  unfold is_b64, is_space. intros Hb. apply negb_true_iff. apply not_true_iff_false. intros Hs.
  destruct c as [[] [] [] [] [] [] [] []]; vm_compute in Hb, Hs; discriminate.
Qed.

Lemma b64url_trimmed s : TrimSpace (b64url_Encode s) = b64url_Encode s.
Proof. apply trim_none. eapply str_forall_impl; [|apply b64url_Encode_chars]. apply is_b64_not_space. Qed.

Example hex_example : hex_EncodeToString "Hi!" = "486921".
Proof. reflexivity. Qed.
Example b64_example : b64url_Encode "Hello" = "SGVsbG8".
Proof. reflexivity. Qed.
