(* ===== verification/GoSha256.v ===== *)
(** Go's [crypto/sha256] and [crypto/hmac]: SHA-256 (FIPS 180-4) over byte
    strings and HMAC-SHA256 (RFC 2104), executable, with the published test
    vectors.  32-bit words are [N] kept below 2^32. *)

From Stdlib Require Import Ascii String NArith.
From S2P Require Import Prelude GoStrings GoEncoding.

Local Open Scope list_scope.
Local Open Scope N_scope.

Definition w32 (x : N) : N := N.land x 0xFFFFFFFF.
Definition add32 (x y : N) : N := w32 (x + y).
Definition rotr (n x : N) : N := N.lor (N.shiftr x n) (w32 (N.shiftl x (32 - n))).
Definition xor3 (a b c : N) : N := N.lxor a (N.lxor b c).

Definition bsig0 x := xor3 (rotr 2 x) (rotr 13 x) (rotr 22 x).
Definition bsig1 x := xor3 (rotr 6 x) (rotr 11 x) (rotr 25 x).
Definition ssig0 x := xor3 (rotr 7 x) (rotr 18 x) (N.shiftr x 3).
Definition ssig1 x := xor3 (rotr 17 x) (rotr 19 x) (N.shiftr x 10).
Definition ch x y z := N.lxor (N.land x y) (N.land (N.lxor x 0xFFFFFFFF) z).
Definition maj x y z := xor3 (N.land x y) (N.land x z) (N.land y z).

(** The constants are what FIPS 180-4 says they are: the first 32 bits of the
    fractional parts of the cube roots (round constants) and the square roots
    (initial state) of the first primes, evaluated once.  The numbers below are
    the primes; [root_bits] finds the integer root by bits, highest first. *)
Fixpoint root_bits (k : N) (bits : nat) (r x : N) : N :=
  match bits with
  | O => r
  | S b =>
      let r' := r + N.shiftl 1 (N.of_nat b) in
      root_bits k b (if r' ^ k <=? x then r' else r) x
  end.
Definition frac_root (k p : N) : N := w32 (root_bits k 40 0 (p * 2 ^ (32 * k))).

Definition is_prime (n : N) : bool :=
  forallb (fun d => negb (n mod N.of_nat d =? 0)) (seq 2 (N.to_nat n - 2)).
Definition primes : list N :=
  Eval vm_compute in List.filter is_prime (List.map N.of_nat (seq 2 310)).

Definition sha_k : list N := Eval vm_compute in List.map (frac_root 3) primes.
Definition sha_iv : list N := Eval vm_compute in List.map (frac_root 2) (take 8 primes).

Definition nthN (i : nat) (l : list N) : N := List.nth i l 0.

(** Message schedule, most recent word first. *)
Fixpoint schedule (n : nat) (ws : list N) : list N :=
  match n with
  | O => ws
  | S n' =>
      let w := w32 (ssig1 (nthN 1 ws) + nthN 6 ws + ssig0 (nthN 14 ws) + nthN 15 ws) in
      schedule n' (w :: ws)
  end.

Definition round (st : list N) (kw : N * N) : list N :=
  match st with
  | [a; b; c; d; e; f; g; h] =>
      let t1 := w32 (h + bsig1 e + ch e f g + kw.1 + kw.2) in
      let t2 := w32 (bsig0 a + maj a b c) in
      [add32 t1 t2; a; b; c; add32 d t1; e; f; g]
  | _ => st
  end.

Definition compress (st block : list N) : list N :=
  let ws := rev (schedule 48 (rev block)) in
  zip_with add32 st (fold_left round (zip sha_k ws) st).

Fixpoint words (bs : list N) : list N :=
  match bs with
  | a :: b :: c :: d :: r => (a * 16777216 + b * 65536 + c * 256 + d) :: words r
  | _ => []
  end.

Fixpoint blocks (n : nat) (ws : list N) : list (list N) :=
  match n with
  | O => []
  | S n' => take 16 ws :: blocks n' (drop 16 ws)
  end.

Fixpoint be_bytes (n : nat) (x : N) : list N :=
  match n with
  | O => []
  | S n' => be_bytes n' (x / 256) ++ [x mod 256]
  end.

Definition bytes_of (s : string) : list N := N_of_ascii <$> list_ascii_of_string s.
Definition string_of (bs : list N) : string := string_of_list_ascii (ascii_of_N <$> bs).

Definition sha_pad (bs : list N) : list N :=
  let len := length bs in
  let zeros := ((119 - len mod 64) mod 64)%nat in
  bs ++ [128] ++ replicate zeros 0 ++ be_bytes 8 (8 * N.of_nat len).

(** [sha256.Sum256]. *)
Definition sha256 (msg : string) : string :=
  let ws := words (sha_pad (bytes_of msg)) in
  string_of (concat (be_bytes 4 <$>
    fold_left compress (blocks (length ws / 16)%nat ws) sha_iv)).

(** [hmac.New(sha256.New, key)] applied to a message. *)
Definition hmac_sha256 (key msg : string) : string :=
  let k0 := if (64 <? String.length key)%nat then sha256 key else key in
  let kb := bytes_of k0 ++ replicate (64 - String.length k0)%nat 0 in
  let pad c := string_of (N.lxor c <$> kb) in
  sha256 (pad 0x5c +:+ sha256 (pad 0x36 +:+ msg)).

Local Open Scope string_scope.

Example sha256_abc : hex_EncodeToString (sha256 "abc") =
  "ba7816bf8f01cfea414140de5dae2223b00361a396177a9cb410ff61f20015ad".
Proof. vm_compute. reflexivity. Qed.

Example sha256_two_blocks :
  hex_EncodeToString (sha256 "abcdbcdecdefdefgefghfghighijhijkijkljklmklmnlmnomnopnopq") =
  "248d6a61d20638b8e5c026930c3e6039a33ce45964ff2167f6ecedd419db06c1".
Proof. vm_compute. reflexivity. Qed.

Example hmac_rfc4231_2 :
  hex_EncodeToString (hmac_sha256 "Jefe" "what do ya want for nothing?") =
  "5bdcc146bf60754e6a042426089575c75a003f089d2739839dec58b964ec3843".
Proof. vm_compute. reflexivity. Qed.

Lemma length_be_bytes n x : length (be_bytes n x) = n.
Proof. revert x; induction n; intros; simpl; [done|]. rewrite length_app, IHn; simpl; lia. Qed.
