(* ===== verification/PlatformCrypto.v ===== *)
(** internal/platform/crypto: signed envelopes, session cookies, internal
    module tokens, opaque token hashes and PKCE (crypto.go, hmac.go,
    session.go, identity.go, internal_token.go, opaque.go, pkce.go), and
    internal/platform/secrettoken. *)

From Stdlib Require Import Ascii String.
From S2P Require Import Prelude GoStrings GoEncoding GoSha256.

Local Open Scope string_scope.

(** ** Errors and constants (crypto.go) *)

Inductive crypto_error : Type :=
| ErrHashFailed
| ErrVerifyFailed
| ErrEncryptFailed
| ErrDecryptFailed
| ErrInvalidKeyLength
| ErrRngFailed
| ErrInvalidRandomBound
| ErrSignatureFailed
| ErrEnvelopeFailed
| ErrSessionCookie
| ErrInternalToken
| ErrPKCEFailed
| ErrExpired
| ErrInvalidSignature.

#[global] Instance crypto_error_dec : EqDecision crypto_error.
Proof. solve_decision. Defined.

Definition envelopeVersion : string := "v1".
Definition sessionCookieVer : string := "v1".
Definition internalTokenKind : string := "internal_token".
Definition internalTokenVer : string := "v1".
Definition sessionCookieKind : string := "session_cookie".
Definition sessionContextEnvelopeKind : string := "session_context".
Definition identityEnvelopeKind : string := "identity_headers".
Definition defaultSessionEnvelopeTTL : duration := (5 * minute)%Z.

Definition nl : string := String "010" "".

(** ** Comparison, HMAC and hashes *)

(** [subtle.ConstantTimeCompare] on slices of equal length: the accumulated
    differences are zero. *)
Fixpoint subtle_diff (a b : string) (acc : N) : N :=
  match a, b with
  | String c a', String d b' => subtle_diff a' b' (N.lor acc (N.lxor (code c) (code d)))
  | _, _ => acc
  end.

Definition ConstantTimeCompare (a b : string) : bool :=
  if negb (String.length a =? String.length b)%nat then false
  else (subtle_diff a b 0 =? 0)%N.

(** [hmac.Equal]. *)
Definition hmac_Equal (a b : string) : bool := ConstantTimeCompare a b.

Definition cHMACSHA256Hex (secret message : string) : result crypto_error string :=
  if String.eqb secret "" then Err ErrSignatureFailed
  else Ok (hex_EncodeToString (hmac_sha256 secret message)).

Definition HMACSHA256Hex (secret message : string) : result crypto_error string :=
  cHMACSHA256Hex secret message.

Definition verifyHMACHex (secret message signatureHex : string) : bool :=
  match hex_DecodeString signatureHex with
  | None => false
  | Some provided =>
      match cHMACSHA256Hex secret message with
      | Err _ => false
      | Ok expectedHex =>
          match hex_DecodeString expectedHex with
          | None => false
          | Some expected => hmac_Equal expected provided
          end
      end
  end.

(** [base64.StdEncoding]: the other alphabet, padded. *)
Definition std_char (c : ascii) : ascii :=
  if Ascii.eqb c "-" then "+" else if Ascii.eqb c "_" then "/" else c.
Definition b64std_Encode (s : string) : string :=
  let e := str_map std_char (b64url_Encode s) in
  match (String.length e mod 4)%nat with
  | 2%nat => e +:+ "=="
  | 3%nat => e +:+ "="
  | _ => e
  end.

Definition cOpaqueHash (token : string) : result crypto_error string :=
  Ok (b64std_Encode (sha256 token)).

Definition cOpaqueValidate (token expectedHash : string) : bool :=
  match cOpaqueHash token with
  | Err _ => false
  | Ok actual => ConstantTimeCompare actual expectedHash
  end.

(** The loop over the runes of the token. *)
Fixpoint opaque_prefix_loop (token : string) (length : nat) : string :=
  match token with
  | EmptyString => EmptyString
  | String c r =>
      match length with
      | O => EmptyString
      | S n => String c (opaque_prefix_loop r n)
      end
  end.

Definition cOpaquePrefix (token : string) (length : Z) : result crypto_error string :=
  if (length <=? 0)%Z then Ok "" else Ok (opaque_prefix_loop token (Z.to_nat length)).

(** opaque.go *)
Definition HashOpaqueToken (token : string) : result crypto_error string := cOpaqueHash token.
Definition ValidateOpaqueToken (token expectedHash : string) : bool :=
  if String.eqb token "" || String.eqb expectedHash "" then false
  else cOpaqueValidate token expectedHash.
Definition OpaqueTokenPrefix (token : string) (length : Z) : result crypto_error string :=
  if (length <=? 0)%Z then Ok "" else cOpaquePrefix token length.

(** secrettoken.go *)
Module secrettoken.
Definition DefaultLookupPrefixLength : Z := 12.
Definition Hash (token : string) : string :=
  match HashOpaqueToken token with Ok h => h | Err _ => "" end.
Definition Validate (token expectedHash : string) : bool :=
  if String.eqb token "" || String.eqb expectedHash "" then false
  else ValidateOpaqueToken token expectedHash.
Definition Prefix (token : string) (length : Z) : string :=
  if (length <=? 0)%Z then ""
  else match OpaqueTokenPrefix token length with Ok p => p | Err _ => "" end.
End secrettoken.

(** ** Envelopes *)

Definition envelopeMessage (kind : string) (timestamp : Z) (payload : string) : string :=
  envelopeVersion +:+ nl +:+ kind +:+ nl +:+ FormatInt timestamp +:+ nl +:+ payload.

Definition cSignEnvelope (kind secret payload : string) (timestampUnix : Z) : result crypto_error string :=
  match cHMACSHA256Hex secret (envelopeMessage kind timestampUnix payload) with
  | Err _ => Err ErrEnvelopeFailed
  | Ok signature =>
      Ok (envelopeVersion +:+ ";t=" +:+ FormatInt timestampUnix +:+ ";s=" +:+ signature)
  end.

Definition parseEnvelope (envelope : string) : result crypto_error (Z * string) :=
  match Split envelope ";" with
  | [p0; p1; p2] =>
      if negb (String.eqb p0 envelopeVersion) then Err ErrInvalidSignature
      else match CutPrefix p1 "t=" with
      | None => Err ErrInvalidSignature
      | Some timestampText =>
          match ParseInt timestampText with
          | None => Err ErrInvalidSignature
          | Some timestamp =>
              match CutPrefix p2 "s=" with
              | None => Err ErrInvalidSignature
              | Some signature =>
                  if String.eqb signature "" then Err ErrInvalidSignature
                  else Ok (timestamp, signature)
              end
          end
      end
  | _ => Err ErrInvalidSignature
  end.

(** [maxAgeSeconds] is a [uint64] converted to [int64]; the subtraction is
    64-bit. *)
Definition cVerifyEnvelope (kind secret payload envelope : string)
    (maxAgeSeconds nowUnix : Z) : bool :=
  match parseEnvelope envelope with
  | Err _ => false
  | Ok (timestamp, signature) =>
      if ((0 <? maxAgeSeconds) &&
          ((nowUnix <? timestamp) || (wrap64 maxAgeSeconds <? wrap64 (nowUnix - timestamp))))%Z
      then false
      else verifyHMACHex secret (envelopeMessage kind timestamp payload) signature
  end.

(** hmac.go *)
Definition SignEnvelope (kind secret payload : string) (now : time) : result crypto_error string :=
  cSignEnvelope kind secret payload (time_unix now).

Definition max_age_seconds (maxAge : duration) : Z :=
  if (0 <? maxAge)%Z then Z.quot maxAge second else 0%Z.

Definition VerifyEnvelope (kind secret payload envelope : string) (maxAge : duration) (now : time) : bool :=
  cVerifyEnvelope kind secret payload envelope (max_age_seconds maxAge) (time_unix now).

(** ** Session cookies *)

Definition sessionCookieMessage (encodedToken : string) (timestamp : Z) : string :=
  sessionCookieKind +:+ nl +:+ sessionCookieVer +:+ nl +:+ FormatInt timestamp +:+ nl +:+ encodedToken.

Definition cSignSessionCookie (secret token : string) (timestampUnix : Z) : result crypto_error string :=
  let encoded := b64url_Encode token in
  match cHMACSHA256Hex secret (sessionCookieMessage encoded timestampUnix) with
  | Err _ => Err ErrSessionCookie
  | Ok signature =>
      Ok (sessionCookieVer +:+ "." +:+ encoded +:+ "." +:+ FormatInt timestampUnix +:+ "." +:+ signature)
  end.

Definition cVerifySessionCookie (secret signed : string) (maxAgeSeconds nowUnix : Z)
    : result crypto_error string :=
  match Split signed "." with
  | [p0; p1; p2; p3] =>
      if negb (String.eqb p0 sessionCookieVer) then Err ErrInvalidSignature
      else match ParseInt p2 with
      | None => Err ErrInvalidSignature
      | Some timestamp =>
          if ((0 <? maxAgeSeconds) && (nowUnix <? timestamp))%Z then Err ErrInvalidSignature
          else if ((0 <? maxAgeSeconds) && (wrap64 maxAgeSeconds <? wrap64 (nowUnix - timestamp)))%Z
          then Err ErrExpired
          else if negb (verifyHMACHex secret (sessionCookieMessage p1 timestamp) p3)
          then Err ErrInvalidSignature
          else match b64url_Decode p1 with
               | None => Err ErrSessionCookie
               | Some token => Ok token
               end
      end
  | _ => Err ErrInvalidSignature
  end.

(** session.go *)
Definition SignSessionCookieValue (secret token : string) (now : time) : result crypto_error string :=
  cSignSessionCookie secret token (time_unix now).
Definition VerifySessionCookieValue (secret signed : string) (maxAge : duration) (now : time)
    : result crypto_error string :=
  cVerifySessionCookie secret signed (max_age_seconds maxAge) (time_unix now).

(** ** Internal module tokens *)

Record ValidatedInternalToken : Type := {
  vit_ModuleID : string;
  vit_Timestamp : time;
  vit_Signature : string;
}.

Definition internalTokenMessage (encodedModuleID : string) (timestamp : Z) : string :=
  internalTokenKind +:+ nl +:+ internalTokenVer +:+ nl +:+ FormatInt timestamp +:+ nl +:+ encodedModuleID.

Definition cGenerateInternalToken (secret moduleID : string) (timestampUnix : Z) : result crypto_error string :=
  if String.eqb (TrimSpace moduleID) "" then Err ErrInternalToken
  else
    let encoded := b64url_Encode moduleID in
    match cHMACSHA256Hex secret (internalTokenMessage encoded timestampUnix) with
    | Err _ => Err ErrInternalToken
    | Ok signature =>
        Ok (internalTokenVer +:+ "." +:+ encoded +:+ "." +:+ FormatInt timestampUnix +:+ "." +:+ signature)
    end.

Definition cVerifyInternalToken (secret token : string) (ttlMillis nowUnix : Z)
    : result crypto_error (string * Z * string) :=
  match Split token "." with
  | [p0; p1; p2; p3] =>
      if negb (String.eqb p0 internalTokenVer) then Err ErrInvalidSignature
      else match ParseInt p2 with
      | None => Err ErrInvalidSignature
      | Some timestamp =>
          if (nowUnix <? timestamp)%Z then Err ErrInvalidSignature
          else if ((0 <? ttlMillis) && (wrap64 ttlMillis <? wrap64 (nowUnix - timestamp)))%Z
          then Err ErrExpired
          else if negb (verifyHMACHex secret (internalTokenMessage p1 timestamp) p3)
          then Err ErrInvalidSignature
          else match b64url_Decode p1 with
               | None => Err ErrInternalToken
               | Some moduleID => Ok (moduleID, timestamp, p3)
               end
      end
  | _ => Err ErrInvalidSignature
  end.

(** internal_token.go *)
Definition GenerateInternalToken (secret moduleID : string) (now : time) : result crypto_error string :=
  cGenerateInternalToken secret moduleID (time_unix_milli now).

Definition ttl_millis (ttl : duration) : Z :=
  if (0 <? ttl)%Z then
    let m := Z.quot ttl millisecond in if (m =? 0)%Z then 1%Z else m
  else 0%Z.

Definition VerifyInternalToken (secret token : string) (ttl : duration) (now : time)
    : result crypto_error ValidatedInternalToken :=
  match cVerifyInternalToken secret token (ttl_millis ttl) (time_unix_milli now) with
  | Err e => Err e
  | Ok (moduleID, timestamp, signatureHex) =>
      match hex_DecodeString signatureHex with
      | None => Err ErrInternalToken
      | Some signature =>
          Ok {| vit_ModuleID := moduleID;
                vit_Timestamp := (timestamp * millisecond)%Z;
                vit_Signature := signature |}
      end
  end.

(** ** PKCE *)

(** [strings.EqualFold] on ASCII. *)
Definition EqualFold (a b : string) : bool := String.eqb (ToLower a) (ToLower b).

Definition normalizePKCEMethod (method : string) : string :=
  if String.eqb (TrimSpace method) "" || EqualFold method "plain" then "plain"
  else if EqualFold method "s256" then "S256"
  else method.

Definition cPKCEChallenge (verifier method : string) : result crypto_error string :=
  let normalized := normalizePKCEMethod method in
  if String.eqb normalized "plain" then Ok verifier
  else if String.eqb normalized "S256" then Ok (b64url_Encode (sha256 verifier))
  else Err ErrPKCEFailed.

Definition cPKCEVerify (verifier challenge method : string) : result crypto_error bool :=
  match cPKCEChallenge verifier method with
  | Err e => Err e
  | Ok computed => Ok (ConstantTimeCompare computed challenge)
  end.

Definition PKCEChallenge (verifier method : string) : result crypto_error string :=
  cPKCEChallenge verifier method.
Definition VerifyPKCE (verifier challenge method : string) : result crypto_error bool :=
  cPKCEVerify verifier challenge method.

(** ** Comparison is equality *)

Lemma code_inj c d : code c = code d -> c = d.
Proof.
  unfold code. intros H. rewrite <- (ascii_N_embedding c), <- (ascii_N_embedding d). by rewrite H.
Qed.

Lemma subtle_diff_zero a b acc :
  String.length a = String.length b ->
  subtle_diff a b acc = 0%N <-> acc = 0%N /\ a = b.
Proof.
  revert b acc. induction a as [|c a IH]; intros [|d b] acc Hl; simpl in *; try lia; [naive_solver|].
  rewrite IH by lia. rewrite N.lor_eq_0_iff, N.lxor_eq_0_iff.
  split; [intros [[? ?%code_inj] ?]; naive_solver|naive_solver].
Qed.

Lemma ConstantTimeCompare_eqb a b : ConstantTimeCompare a b = String.eqb a b.
Proof.
  unfold ConstantTimeCompare. destruct (Nat.eqb_spec (String.length a) (String.length b)) as [Hl|Hl]; simpl.
  - apply eq_bool_prop_intro. rewrite !Is_true_true, N.eqb_eq, String.eqb_eq, subtle_diff_zero by done. naive_solver.
  - symmetry. apply String.eqb_neq. congruence.
Qed.

(** A signature is accepted exactly when it is a hex spelling of the MAC. *)
Lemma verifyHMACHex_spec secret message signatureHex :
  verifyHMACHex secret message signatureHex = true <->
  secret <> "" /\ hex_DecodeString signatureHex = Some (hmac_sha256 secret message).
Proof.
  unfold verifyHMACHex, cHMACSHA256Hex, hmac_Equal.
  destruct (hex_DecodeString signatureHex) as [provided|]; [|naive_solver].
  destruct (String.eqb_spec secret ""); [naive_solver|].
  rewrite hex_round_trip, ConstantTimeCompare_eqb, String.eqb_eq. naive_solver.
Qed.

Lemma verifyHMACHex_sign secret message :
  secret <> "" ->
  verifyHMACHex secret message (hex_EncodeToString (hmac_sha256 secret message)) = true.
Proof. intros. apply verifyHMACHex_spec. by rewrite hex_round_trip. Qed.

Lemma cHMACSHA256Hex_ok secret message :
  secret <> "" -> cHMACSHA256Hex secret message = Ok (hex_EncodeToString (hmac_sha256 secret message)).
Proof. intros. unfold cHMACSHA256Hex. by destruct (String.eqb_spec secret ""). Qed.

(** Every digest is 32 bytes: the signature is never empty. *)
Lemma round_length l s : length s = 8%nat -> length (fold_left round l s) = 8%nat.
Proof.
  revert s. induction l as [|kw l IH]; intros s Hl; [done|]. simpl. apply IH.
  do 9 (destruct s as [|? s]; try done).
Qed.
Lemma compress_length bs st : length st = 8%nat -> length (fold_left compress bs st) = 8%nat.
Proof.
  revert st. induction bs as [|b bs IH]; intros st Hst; simpl; [done|]. apply IH.
  unfold compress. rewrite length_zip_with_l_eq; [done|]. by rewrite round_length.
Qed.
Lemma sha256_nonempty m : sha256 m <> "".
Proof.
  unfold sha256. pose proof (compress_length (blocks (length (words (sha_pad (bytes_of m))) / 16)%nat
    (words (sha_pad (bytes_of m)))) sha_iv eq_refl) as Hf.
  destruct (fold_left compress _ sha_iv) as [|w ws]; [done|].
  simpl. pose proof (length_be_bytes 4 w) as Hb. by destruct (be_bytes 4 w).
Qed.
Lemma sha256_nonempty_hex secret message : hex_EncodeToString (hmac_sha256 secret message) <> "".
Proof.
  unfold hmac_sha256. cbv zeta. destruct (sha256 _) as [|[] r] eqn:E; [by apply sha256_nonempty in E|done].
Qed.

Lemma b64std_Encode_nonempty s : s <> "" -> b64std_Encode s <> "".
Proof.
  intros Hs. apply b64url_Encode_nonempty in Hs. unfold b64std_Encode.
  destruct (b64url_Encode s) as [|c e]; [done|]. cbv zeta. repeat case_match; done.
Qed.

(** A token validates against its own hash. *)
Lemma Validate_Hash token : token <> "" -> secrettoken.Validate token (secrettoken.Hash token) = true.
Proof.
  intros Ht. unfold secrettoken.Validate, secrettoken.Hash, HashOpaqueToken, ValidateOpaqueToken, cOpaqueValidate, cOpaqueHash.
  rewrite (proj2 (String.eqb_neq token "") Ht).
  rewrite (proj2 (String.eqb_neq _ "") (b64std_Encode_nonempty _ (sha256_nonempty token))).
  simpl. rewrite ConstantTimeCompare_eqb. apply String.eqb_refl.
Qed.

(** ** Round trips *)

(** Freshness as the verifiers compute it on 64-bit integers. *)
Definition fresh (maxAgeSeconds nowUnix timestamp : Z) : Prop :=
  (maxAgeSeconds <= 0)%Z \/
  (timestamp <= nowUnix)%Z /\ (wrap64 (nowUnix - timestamp) <= wrap64 maxAgeSeconds)%Z.

Lemma fresh_not_future maxAge now ts :
  fresh maxAge now ts -> ((0 <? maxAge) && (now <? ts))%Z = false.
Proof. unfold fresh. rewrite andb_false_iff, !Z.ltb_ge. lia. Qed.

Lemma fresh_not_expired maxAge now ts :
  fresh maxAge now ts -> ((0 <? maxAge) && (wrap64 maxAge <? wrap64 (now - ts)))%Z = false.
Proof. unfold fresh. rewrite andb_false_iff, !Z.ltb_ge. lia. Qed.

Lemma fresh_tests maxAge now ts :
  ((0 <? maxAge) && (now <? ts))%Z = false ->
  ((0 <? maxAge) && (wrap64 maxAge <? wrap64 (now - ts)))%Z = false ->
  fresh maxAge now ts.
Proof. unfold fresh. rewrite !andb_false_iff, !Z.ltb_ge. lia. Qed.

Lemma parseEnvelope_format ts sig :
  in_int64 ts -> sig <> "" -> str_forall (not_char ";") sig = true ->
  parseEnvelope (envelopeVersion +:+ ";t=" +:+ FormatInt ts +:+ ";s=" +:+ sig) = Ok (ts, sig).
Proof.
  intros Hts Hne Hsig. unfold parseEnvelope.
  assert (E : Split (envelopeVersion +:+ ";t=" +:+ FormatInt ts +:+ ";s=" +:+ sig) ";" =
              [envelopeVersion; "t=" +:+ FormatInt ts; "s=" +:+ sig]).
  { rewrite <- (Split_Join [envelopeVersion; "t=" +:+ FormatInt ts; "s=" +:+ sig] ";"%char).
    - done.
    - done.
    - repeat constructor; rewrite ?str_forall_app, ?FormatInt_not_char, ?Hsig; done. }
  rewrite E, String.eqb_refl. cbn [negb]. rewrite !CutPrefix_app, ParseInt_FormatInt by done.
  by destruct (String.eqb_spec sig "").
Qed.

Lemma envelope_round_trip kind secret payload ts maxAge now :
  secret <> "" -> in_int64 ts -> fresh maxAge now ts ->
  exists env, cSignEnvelope kind secret payload ts = Ok env /\
              cVerifyEnvelope kind secret payload env maxAge now = true.
Proof.
  intros Hs Hts Hf. unfold cSignEnvelope. rewrite cHMACSHA256Hex_ok by done.
  eexists; split; [done|]. unfold cVerifyEnvelope.
  rewrite parseEnvelope_format; [|done|apply sha256_nonempty_hex|by apply hex_no_sep].
  rewrite andb_orb_distrib_r, fresh_not_future, fresh_not_expired by done.
  by apply verifyHMACHex_sign.
Qed.

Lemma cVerifyEnvelope_sound kind secret payload env maxAge now :
  cVerifyEnvelope kind secret payload env maxAge now = true ->
  exists ts sig,
    parseEnvelope env = Ok (ts, sig) /\ secret <> "" /\ fresh maxAge now ts /\
    hex_DecodeString sig = Some (hmac_sha256 secret (envelopeMessage kind ts payload)).
Proof.
  unfold cVerifyEnvelope. destruct (parseEnvelope env) as [[ts sig]|]; [|done].
  rewrite andb_orb_distrib_r. destruct (_ || _) eqn:Hf; [done|].
  apply orb_false_iff in Hf as [? ?]. rewrite verifyHMACHex_spec. intros [? ?].
  exists ts, sig. split_and!; try done. by apply fresh_tests.
Qed.

(** The four dot-separated fields of cookies and internal tokens. *)
Lemma Split_dots ver enc ts sig :
  str_forall (not_char ".") ver = true -> str_forall (not_char ".") enc = true ->
  str_forall (not_char ".") sig = true ->
  Split (ver +:+ "." +:+ enc +:+ "." +:+ FormatInt ts +:+ "." +:+ sig) "." =
  [ver; enc; FormatInt ts; sig].
Proof.
  intros. rewrite <- (Split_Join [ver; enc; FormatInt ts; sig] "."%char); [done|done|].
  repeat constructor; rewrite ?FormatInt_not_char; done.
Qed.

Lemma cookie_round_trip secret token ts maxAge now :
  secret <> "" -> in_int64 ts -> fresh maxAge now ts ->
  exists c, cSignSessionCookie secret token ts = Ok c /\
            cVerifySessionCookie secret c maxAge now = Ok token.
Proof.
  intros Hs Hts Hf. unfold cSignSessionCookie. rewrite cHMACSHA256Hex_ok by done.
  eexists; split; [done|]. unfold cVerifySessionCookie.
  rewrite Split_dots; [|done|by apply b64url_no_sep|by apply hex_no_sep].
  rewrite String.eqb_refl, ParseInt_FormatInt by done. cbn [negb].
  rewrite verifyHMACHex_sign, b64url_round_trip by done. cbn [negb].
  by rewrite fresh_not_future, fresh_not_expired.
Qed.

Lemma cVerifySessionCookie_sound secret signed maxAge now token :
  cVerifySessionCookie secret signed maxAge now = Ok token ->
  exists enc tstext ts sig,
    Split signed "." = [sessionCookieVer; enc; tstext; sig] /\ ParseInt tstext = Some ts /\
    secret <> "" /\ fresh maxAge now ts /\ b64url_Decode enc = Some token /\
    hex_DecodeString sig = Some (hmac_sha256 secret (sessionCookieMessage enc ts)).
Proof.
  unfold cVerifySessionCookie. intros H. split_matches.
  bool_to_prop. subst.
  match goal with H : verifyHMACHex _ _ _ = true |- _ => apply verifyHMACHex_spec in H as [? ?] end.
  do 4 eexists; split_and!; try done. by apply fresh_tests.
Qed.

Lemma internal_token_round_trip secret moduleID ts ttl now :
  secret <> "" -> TrimSpace moduleID <> "" -> in_int64 ts -> (ts <= now)%Z -> fresh ttl now ts ->
  exists t sig, cGenerateInternalToken secret moduleID ts = Ok t /\
            cVerifyInternalToken secret t ttl now = Ok (moduleID, ts, sig) /\
            hex_DecodeString sig = Some (hmac_sha256 secret (internalTokenMessage (b64url_Encode moduleID) ts)).
Proof.
  intros Hs Hm Hts Hle Hf. unfold cGenerateInternalToken.
  destruct (String.eqb_spec (TrimSpace moduleID) ""); [done|].
  rewrite cHMACSHA256Hex_ok by done.
  do 2 eexists; split; [done|]. unfold cVerifyInternalToken.
  rewrite Split_dots; [|done|by apply b64url_no_sep|by apply hex_no_sep].
  rewrite String.eqb_refl, ParseInt_FormatInt by done. cbn [negb].
  rewrite verifyHMACHex_sign, b64url_round_trip by done. cbn [negb].
  rewrite fresh_not_expired, (proj2 (Z.ltb_ge now ts)) by done.
  split; [done|apply hex_round_trip].
Qed.

Lemma cVerifyInternalToken_sound secret token ttl now moduleID ts sig :
  cVerifyInternalToken secret token ttl now = Ok (moduleID, ts, sig) ->
  exists enc tstext,
    Split token "." = [internalTokenVer; enc; tstext; sig] /\ ParseInt tstext = Some ts /\
    secret <> "" /\ (ts <= now)%Z /\ fresh ttl now ts /\ b64url_Decode enc = Some moduleID /\
    hex_DecodeString sig = Some (hmac_sha256 secret (internalTokenMessage enc ts)).
Proof.
  unfold cVerifyInternalToken. intros H. split_matches. bool_to_prop. subst.
  match goal with H : verifyHMACHex _ _ _ = true |- _ => apply verifyHMACHex_spec in H as [? ?] end.
  do 2 eexists; split_and!; try done.
  apply fresh_tests; [|done]. rewrite (proj2 (Z.ltb_ge now ts)) by done. apply andb_false_r.
Qed.

(** ** Signed messages *)

Lemma FormatInt_inj z z' : in_int64 z -> in_int64 z' -> FormatInt z = FormatInt z' -> z = z'.
Proof.
  intros Hz Hz' H. apply ParseInt_FormatInt in Hz, Hz'. rewrite H in Hz. congruence.
Qed.

(** Fields joined by line breaks, none of which contains one, are recovered. *)
Lemma three_fields_inj a1 a2 a3 r b1 b2 b3 r' :
  Forall (fun f => str_forall (not_char "010") f = true) [a1; a2; a3; b1; b2; b3] ->
  a1 +:+ nl +:+ a2 +:+ nl +:+ a3 +:+ nl +:+ r = b1 +:+ nl +:+ b2 +:+ nl +:+ b3 +:+ nl +:+ r' ->
  a1 = b1 /\ a2 = b2 /\ a3 = b3 /\ r = r'.
Proof.
  rewrite !Forall_cons. intros (Ha1&Ha2&Ha3&Hb1&Hb2&Hb3&_). unfold nl. simpl.
  intros [-> H]%str_app_sep_inj; [|done..].
  apply str_app_sep_inj in H as [-> H]; [|done..].
  apply str_app_sep_inj in H as [-> ->]; done.
Qed.

Lemma envelopeMessage_inj kind ts payload kind' ts' payload' :
  str_forall (not_char "010") kind = true -> str_forall (not_char "010") kind' = true ->
  in_int64 ts -> in_int64 ts' ->
  envelopeMessage kind ts payload = envelopeMessage kind' ts' payload' ->
  kind = kind' /\ ts = ts' /\ payload = payload'.
Proof.
  intros ? ? ? ? H. apply three_fields_inj in H as (_ & -> & Hts & ->).
  - eauto using FormatInt_inj.
  - repeat constructor; auto using FormatInt_not_char.
Qed.

Lemma sessionCookieMessage_inj enc ts enc' ts' :
  in_int64 ts -> in_int64 ts' ->
  sessionCookieMessage enc ts = sessionCookieMessage enc' ts' -> enc = enc' /\ ts = ts'.
Proof.
  intros ? ? H. apply three_fields_inj in H as (_ & _ & Hts & ->).
  - eauto using FormatInt_inj.
  - repeat constructor; auto using FormatInt_not_char.
Qed.

Lemma internalTokenMessage_inj enc ts enc' ts' :
  in_int64 ts -> in_int64 ts' ->
  internalTokenMessage enc ts = internalTokenMessage enc' ts' -> enc = enc' /\ ts = ts'.
Proof.
  intros ? ? H. apply three_fields_inj in H as (_ & _ & Hts & ->).
  - eauto using FormatInt_inj.
  - repeat constructor; auto using FormatInt_not_char.
Qed.

(** ** Theorems *)

(** A session cookie signed at [t0] with a non-empty secret is judged, at
    any later verification time [t1], exactly by its age: with a maximum age
    of at least a second it is refused as invalid when it lies in the future
    and as expired when it is older than the maximum age in whole seconds; in
    every other case verification returns the very token that was signed. *)
Theorem session_cookie_lifetime secret token t0 t1 maxAge :
  secret <> "" -> in_int64 (time_unix t0) ->
  exists cookie,
    SignSessionCookieValue secret token t0 = Ok cookie /\
    VerifySessionCookieValue secret cookie maxAge t1 =
      let m := max_age_seconds maxAge in
      if ((0 <? m) && (time_unix t1 <? time_unix t0))%Z then Err ErrInvalidSignature
      else if ((0 <? m) && (wrap64 m <? wrap64 (time_unix t1 - time_unix t0)))%Z then Err ErrExpired
      else Ok token.
Proof.
  intros Hs Hts. unfold SignSessionCookieValue, VerifySessionCookieValue, cSignSessionCookie.
  rewrite cHMACSHA256Hex_ok by done. eexists; split; [done|].
  unfold cVerifySessionCookie.
  rewrite Split_dots; [|done|by apply b64url_no_sep|by apply hex_no_sep].
  rewrite String.eqb_refl, ParseInt_FormatInt by done. cbn [negb].
  by rewrite verifyHMACHex_sign, b64url_round_trip.
Qed.

Lemma session_cookie_lifetime_witness :
  exists cookie,
    SignSessionCookieValue "k" "tok" (100 * second) = Ok cookie /\
    VerifySessionCookieValue "k" cookie hour (160 * second) = Ok "tok".
Proof.
  destruct (session_cookie_lifetime "k" "tok" (100 * second) (160 * second) hour) as (c & H1 & H2).
  - done.
  - vm_compute; split; discriminate.
  - exists c. split; [exact H1|]. rewrite H2. vm_compute. reflexivity.
Defined.

(** Whatever cookie value is presented, verification returns a token only
    if the value has the four fields [v1.encoded.timestamp.signature], the
    signature field is a hex spelling of the MAC, under a non-empty secret, of
    the cookie message over that encoded token and timestamp, the timestamp is
    fresh, and the encoded field decodes to the returned token. *)
Theorem session_cookie_authentic secret signed maxAge now token :
  VerifySessionCookieValue secret signed maxAge now = Ok token ->
  exists enc tstext ts sig,
    Split signed "." = [sessionCookieVer; enc; tstext; sig] /\ ParseInt tstext = Some ts /\
    secret <> "" /\ fresh (max_age_seconds maxAge) (time_unix now) ts /\
    b64url_Decode enc = Some token /\
    hex_DecodeString sig = Some (hmac_sha256 secret (sessionCookieMessage enc ts)).
Proof. apply cVerifySessionCookie_sound. Qed.

Lemma session_cookie_authentic_witness :
  exists enc tstext ts sig,
    Split ("v1.dG9r.100." +:+
      hex_EncodeToString (hmac_sha256 "k" (sessionCookieMessage "dG9r" 100))) "." =
      [sessionCookieVer; enc; tstext; sig] /\ ParseInt tstext = Some ts /\
    "k" <> "" /\ fresh (max_age_seconds hour) (time_unix (160 * second)) ts /\
    b64url_Decode enc = Some "tok" /\
    hex_DecodeString sig = Some (hmac_sha256 "k" (sessionCookieMessage enc ts)).
Proof.
  apply (session_cookie_authentic "k"
    ("v1.dG9r.100." +:+ hex_EncodeToString (hmac_sha256 "k" (sessionCookieMessage "dG9r" 100)))
    hour (160 * second) "tok").
  vm_compute. reflexivity.
Defined.

(** The byte strings that are signed cannot be confused: envelope, cookie
    and internal-token messages are pairwise different whatever their fields,
    and within each format equal messages have equal fields (for kinds without
    line breaks and 64-bit timestamps), so a MAC made for one purpose, moment
    or payload is never the MAC of another message. *)
Theorem signed_messages_unambiguous kind kind' ts ts' payload payload' enc enc' :
  str_forall (not_char "010") kind = true -> str_forall (not_char "010") kind' = true ->
  in_int64 ts -> in_int64 ts' ->
  (envelopeMessage kind ts payload <> sessionCookieMessage enc ts' /\
   envelopeMessage kind ts payload <> internalTokenMessage enc ts' /\
   sessionCookieMessage enc ts <> internalTokenMessage enc' ts') /\
  (envelopeMessage kind ts payload = envelopeMessage kind' ts' payload' ->
     kind = kind' /\ ts = ts' /\ payload = payload') /\
  (sessionCookieMessage enc ts = sessionCookieMessage enc' ts' -> enc = enc' /\ ts = ts') /\
  (internalTokenMessage enc ts = internalTokenMessage enc' ts' -> enc = enc' /\ ts = ts').
Proof.
  intros. split; [by split_and!|].
  split_and!; eauto using envelopeMessage_inj, sessionCookieMessage_inj, internalTokenMessage_inj.
Qed.

Lemma signed_messages_unambiguous_witness :
  envelopeMessage "session_context" 5 "p" <> sessionCookieMessage "p" 5.
Proof.
  refine (proj1 (proj1 (signed_messages_unambiguous "session_context" "identity_headers" 5 5
    "p" "q" "p" "q" eq_refl eq_refl _ _))); vm_compute; split; discriminate.
Defined.

(** An internal module token generated for a non-blank module id is
    verified, at any time not before its generation and within the time to
    live in milliseconds, to exactly that module id and timestamp; once the
    time to live has passed verification fails with [ErrExpired]. *)
Theorem internal_token_lifetime secret moduleID t0 t1 ttl :
  secret <> "" -> TrimSpace moduleID <> "" -> in_int64 (time_unix_milli t0) ->
  (time_unix_milli t0 <= time_unix_milli t1)%Z ->
  exists token,
    GenerateInternalToken secret moduleID t0 = Ok token /\
    VerifyInternalToken secret token ttl t1 =
      if ((0 <? ttl_millis ttl) &&
          (wrap64 (ttl_millis ttl) <? wrap64 (time_unix_milli t1 - time_unix_milli t0)))%Z
      then Err ErrExpired
      else Ok {| vit_ModuleID := moduleID;
                 vit_Timestamp := (time_unix_milli t0 * millisecond)%Z;
                 vit_Signature := hmac_sha256 secret
                   (internalTokenMessage (b64url_Encode moduleID) (time_unix_milli t0)) |}.
Proof.
  intros Hs Hm Hts Hle. unfold GenerateInternalToken, VerifyInternalToken, cGenerateInternalToken.
  destruct (String.eqb_spec (TrimSpace moduleID) ""); [done|].
  rewrite cHMACSHA256Hex_ok by done. eexists; split; [done|].
  unfold cVerifyInternalToken.
  rewrite Split_dots; [|done|by apply b64url_no_sep|by apply hex_no_sep].
  rewrite String.eqb_refl, ParseInt_FormatInt by done. cbn [negb].
  rewrite verifyHMACHex_sign, b64url_round_trip, (proj2 (Z.ltb_ge _ _)) by done. cbn [negb].
  destruct (_ && _)%Z; [done|]. by rewrite hex_round_trip.
Qed.

Lemma internal_token_lifetime_witness :
  exists token,
    GenerateInternalToken "k" "mfa" (7 * millisecond) = Ok token /\
    VerifyInternalToken "k" token (5 * millisecond) (13 * millisecond) = Err ErrExpired.
Proof.
  destruct (internal_token_lifetime "k" "mfa" (7 * millisecond) (13 * millisecond) (5 * millisecond))
    as (t & H1 & H2).
  - done.
  - vm_compute; discriminate.
  - vm_compute; split; discriminate.
  - vm_compute; discriminate.
  - exists t. split; [exact H1|]. rewrite H2. vm_compute. reflexivity.
Defined.
