(* ===== verification/CryptoFields.v ===== *)
(** internal/platform/crypto: password hashes and their PHC text form, field
    encryption (crypto.go), and random bytes and integers (random.go).

    Argon2id and XChaCha20-Poly1305 belong to golang.org/x/crypto and are
    parameters ([Primitives]); what the code relies on is that [IDKey] returns
    as many bytes as asked, that [Seal] appends a 16-byte tag and that [Open]
    reads back what [Seal] wrote.  A draw from the operating system's random
    source is an argument, [None] when the source fails. *)

From Stdlib Require Import Ascii String DecimalString.
From S2P Require Import Prelude GoStrings GoEncoding PlatformCrypto.

Local Open Scope string_scope.

(** ** [encoding/base64]: the standard alphabet, decoded *)

(** The alphabets differ in two letters; the URL letters are foreign here. *)
Definition url_char (c : ascii) : ascii :=
  if Ascii.eqb c "+" then "-" else if Ascii.eqb c "/" then "_"
  else if Ascii.eqb c "-" || Ascii.eqb c "_" then "=" else c.

(** [base64.RawStdEncoding]. *)
Definition b64raw_Encode (s : string) : string := str_map std_char (b64url_Encode s).
Definition b64raw_Decode (s : string) : option string := b64url_Decode (str_map url_char s).

(** [base64.StdEncoding.DecodeString]: whole quanta, the last one padded. *)
Definition b64std_Decode (s : string) : option string :=
  let t := strip_newlines s in
  if negb (String.length t mod 4 =? 0)%nat then None
  else b64raw_Decode
    (if HasSuffix t "==" then TrimSuffix t "==" else if HasSuffix t "=" then TrimSuffix t "=" else t).

(** [strconv.ParseUint(value, 10, 32)]. *)
Definition ParseUint32 (value : string) : option Z :=
  match NilZero.uint_of_string value with
  | Some u => if (Z.of_uint u <=? 2 ^ 32 - 1)%Z then Some (Z.of_uint u) else None
  | None => None
  end.

(** [strings.Cut(s, sep)] for a one-byte separator. *)
Fixpoint Cut (s : string) (sep : ascii) : option (string * string) :=
  match s with
  | EmptyString => None
  | String c r =>
      if Ascii.eqb c sep then Some (EmptyString, r)
      else match Cut r sep with Some (a, b) => Some (String c a, b) | None => None end
  end.

Class Primitives := {
  (** password, salt, iterations, memory, parallelism, length *)
  IDKey : string -> string -> Z -> Z -> Z -> Z -> string;
  IDKey_length : forall password salt t m p len,
    (0 <= len)%Z -> String.length (IDKey password salt t m p len) = Z.to_nat len;
  (** key, nonce, text, additional data *)
  Seal : string -> string -> string -> string -> string;
  Open : string -> string -> string -> string -> option string;
  Seal_length : forall key nonce plaintext aad,
    String.length (Seal key nonce plaintext aad) = (String.length plaintext + 16)%nat;
  Open_Seal : forall key nonce plaintext aad,
    Open key nonce (Seal key nonce plaintext aad) aad = Some plaintext;
}.

Definition KeySize : nat := 32.
Definition argonMemoryKiB : Z := 65536.
Definition argonIterations : Z := 3.
Definition argonParallelism : Z := 4.
Definition argonSaltSize : nat := 16.
Definition argonOutputLen : Z := 32.
Definition encryptedNonceBytes : nat := 24.
Definition encryptedTagBytes : nat := 16.

(** ** Password hashes (crypto.go) *)

Record phcParams : Type := {
  memoryKiB : Z;
  iterations : Z;
  parallelism : Z;
}.

(** One turn of the loop over the comma-separated parameters. *)
Definition phc_param (params : phcParams) (part : string) : result crypto_error phcParams :=
  match Cut part "=" with
  | None => Err ErrVerifyFailed
  | Some (key, value) =>
      match ParseUint32 value with
      | None => Err ErrVerifyFailed
      | Some parsed =>
          if (parsed =? 0)%Z then Err ErrVerifyFailed
          else if String.eqb key "m" then
            Ok {| memoryKiB := parsed; iterations := iterations params; parallelism := parallelism params |}
          else if String.eqb key "t" then
            Ok {| memoryKiB := memoryKiB params; iterations := parsed; parallelism := parallelism params |}
          else if String.eqb key "p" then
            if (255 <? parsed)%Z then Err ErrVerifyFailed
            else Ok {| memoryKiB := memoryKiB params; iterations := iterations params; parallelism := parsed |}
          else Err ErrVerifyFailed
      end
  end.

Fixpoint phc_params (params : phcParams) (parts : list string) : result crypto_error phcParams :=
  match parts with
  | [] => Ok params
  | part :: rest => params' ← phc_param params part; phc_params params' rest
  end.

(** [base64.RawStdEncoding.DecodeString] of a field that must not be empty. *)
Definition phc_bytes (field : string) : result crypto_error string :=
  match b64raw_Decode field with
  | None => Err ErrVerifyFailed
  | Some bytes => if String.eqb bytes "" then Err ErrVerifyFailed else Ok bytes
  end.

Definition parsePHC (hash : string) : result crypto_error (phcParams * string * string) :=
  match Split hash "$" with
  | [p0; p1; p2; p3; p4; p5] =>
      if negb (String.eqb p0 "" && String.eqb p1 "argon2id" && String.eqb p2 "v=19")
      then Err ErrVerifyFailed
      else
        params ← phc_params {| memoryKiB := 0; iterations := 0; parallelism := 0 |} (Split p3 ",");
        if ((memoryKiB params =? 0) || (iterations params =? 0) || (parallelism params =? 0))%Z
        then Err ErrVerifyFailed
        else
          salt ← phc_bytes p4;
          digest ← phc_bytes p5;
          Ok (params, salt, digest)
  | _ => Err ErrVerifyFailed
  end.

Section primitives.
Context `{Primitives}.

(** [salt] is what [rand.Read] wrote. *)
Definition HashPassword (password : string) (salt : option string) : result crypto_error string :=
  match salt with
  | None => Err ErrHashFailed
  | Some salt =>
      let hash := IDKey password salt argonIterations argonMemoryKiB argonParallelism argonOutputLen in
      Ok ("$argon2id$v=19$m=" +:+ FormatInt argonMemoryKiB +:+ ",t=" +:+ FormatInt argonIterations +:+
          ",p=" +:+ FormatInt argonParallelism +:+ "$" +:+ b64raw_Encode salt +:+ "$" +:+ b64raw_Encode hash)
  end.

Definition VerifyPassword (password hash : string) : result crypto_error bool :=
  match parsePHC hash with
  | Err _ => Err ErrVerifyFailed
  | Ok (params, salt, expected) =>
      let actual := IDKey password salt (iterations params) (memoryKiB params) (parallelism params)
                      (Z.of_nat (String.length expected) mod 2 ^ 32) in
      Ok (ConstantTimeCompare actual expected)
  end.

(** ** Field encryption (crypto.go) *)

Definition EncryptField (key plaintext aad : string) (nonce : option string) : result crypto_error string :=
  if negb (String.length key =? KeySize)%nat then Err ErrInvalidKeyLength
  else match nonce with
  | None => Err ErrEncryptFailed
  | Some nonce => Ok (b64std_Encode (nonce +:+ Seal key nonce plaintext aad))
  end.

Definition DecryptField (key ciphertext aad : string) : result crypto_error string :=
  if negb (String.length key =? KeySize)%nat then Err ErrInvalidKeyLength
  else match b64std_Decode ciphertext with
  | None => Err ErrDecryptFailed
  | Some data =>
      if (String.length data <? encryptedNonceBytes + encryptedTagBytes)%nat then Err ErrDecryptFailed
      else
        match Open key (str_take encryptedNonceBytes data) (str_drop encryptedNonceBytes data) aad with
        | None => Err ErrDecryptFailed
        | Some plaintext => Ok plaintext
        end
  end.
End primitives.

(** ** Random bytes and integers (crypto.go, random.go)

    The random source is a stream of 32-byte blocks; a program threads its
    position in it. *)

Definition rand_source : Type := nat -> option string.

Definition GenerateKey (rand : rand_source) (pos : nat) : result crypto_error string * nat :=
  (match rand pos with Some key => Ok key | None => Err ErrRngFailed end, S pos).

(** The loop fills [len] more bytes; a turn copies at least one, so [len]
    turns are enough. *)
Fixpoint fill_loop (fuel len : nat) (rand : rand_source) (pos : nat) : result crypto_error string * nat :=
  match len, fuel with
  | O, _ | _, O => (Ok "", pos)
  | _, S fuel' =>
      match GenerateKey rand pos with
      | (Err e, pos') => (Err e, pos')
      | (Ok block, pos') =>
          let copied := str_take len block in
          match fill_loop fuel' (len - String.length copied) rand pos' with
          | (Ok rest, pos'') => (Ok (copied +:+ rest), pos'')
          | r => r
          end
      end
  end.
Definition FillRandomBytes (len : nat) (rand : rand_source) (pos : nat) : result crypto_error string * nat :=
  fill_loop len len rand pos.

Definition RandomBytes (length : Z) (rand : rand_source) (pos : nat) : result crypto_error string * nat :=
  if (length <? 0)%Z then (Err ErrInvalidRandomBound, pos)
  else FillRandomBytes (Z.to_nat length) rand pos.

Fixpoint big_endian (acc : Z) (b : string) : Z :=
  match b with
  | EmptyString => acc
  | String c r => big_endian (acc * 256 + Z.of_N (code c)) r
  end.

Definition max_uint64 : Z := 2 ^ 64 - 1.
Definition draw_limit (n : Z) : Z := max_uint64 - max_uint64 mod n.

(** The rejection loop; [None] when [fuel] draws were all rejected. *)
Fixpoint reject_loop (fuel : nat) (n : Z) (rand : rand_source) (pos : nat)
    : option (result crypto_error Z * nat) :=
  match fuel with
  | O => None
  | S fuel' =>
      match RandomBytes 8 rand pos with
      | (Err e, pos') => Some (Err e, pos')
      | (Ok b, pos') =>
          let r := big_endian 0 b in
          if (r <? draw_limit n)%Z then Some (Ok (r mod n)%Z, pos') else reject_loop fuel' n rand pos'
      end
  end.

Definition RandomIntN (fuel : nat) (n : Z) (rand : rand_source) (pos : nat)
    : option (result crypto_error Z * nat) :=
  if (n <=? 0)%Z then Some (Err ErrInvalidRandomBound, pos)
  else if (n =? 1)%Z then Some (Ok 0%Z, pos)
  else reject_loop fuel n rand pos.

(** ** Standard base64 reads back what it wrote *)

Lemma str_map_map f g s : str_map f (str_map g s) = str_map (fun c => f (g c)) s.
Proof. induction s; simpl; congruence. Qed.

Lemma str_map_id p f s : (forall c, p c = true -> f c = c) -> str_forall p s = true -> str_map f s = s.
Proof. intros Hf. induction s; simpl; [done|]. intros [? ?]%andb_true_iff. f_equal; auto. Qed.

Lemma str_map_length f s : String.length (str_map f s) = String.length s.
Proof. induction s; simpl; congruence. Qed.

Lemma url_std c : is_b64 c = true -> url_char (std_char c) = c.
Proof. by destruct c as [[] [] [] [] [] [] [] []]. Qed.

Lemma b64raw_round_trip s : b64raw_Decode (b64raw_Encode s) = Some s.
Proof.
  unfold b64raw_Decode, b64raw_Encode. rewrite str_map_map.
  rewrite (str_map_id is_b64); [apply b64url_round_trip|exact url_std|apply b64url_Encode_chars].
Qed.

Definition is_std (c : ascii) : bool := is_b64 (url_char c) && negb (Ascii.eqb c "-" || Ascii.eqb c "_").

Lemma str_forall_map p f s : str_forall p (str_map f s) = str_forall (fun c => p (f c)) s.
Proof. induction s; simpl; congruence. Qed.

Lemma b64raw_chars s : str_forall is_std (b64raw_Encode s) = true.
Proof.
  unfold b64raw_Encode. rewrite str_forall_map. eapply str_forall_impl; [|apply b64url_Encode_chars].
  intros c. by destruct c as [[] [] [] [] [] [] [] []].
Qed.

Lemma b64raw_no_sep s sep : is_std sep = false -> str_forall (not_char sep) (b64raw_Encode s) = true.
Proof.
  intros Hsep. eapply str_forall_impl; [|apply b64raw_chars].
  intros c Hc. unfold not_char. destruct (Ascii.eqb_spec c sep); [subst; congruence|done].
Qed.

Lemma b64raw_nonempty s : s <> "" -> b64raw_Encode s <> "".
Proof.
  intros Hs He. apply Hs. pose proof (b64raw_round_trip s) as Hr. rewrite He in Hr. by injection Hr.
Qed.

Lemma strip_std s p : str_forall is_std s = true -> strip_newlines p = p -> strip_newlines (s +:+ p) = s +:+ p.
Proof.
  intros Hs Hp. induction s as [|c s IH]; [done|].
  cbn -[is_std] in *. apply andb_true_iff in Hs as [Hc Hs].
  rewrite IH by done. destruct (is_newline c) eqn:E; [|done].
  exfalso. revert Hc E. by destruct c as [[] [] [] [] [] [] [] []].
Qed.

Lemma b64url_Encode_mod s : (String.length (b64url_Encode s) mod 4)%nat <> 1%nat.
Proof.
  induction s as [| [] | [] [] | [] [] [] r IH ] using triple_ind; try done.
  cbn [b64url_Encode String.length]. rewrite <- (Nat.Div0.mod_add _ 1) in IH.
  by replace (S (S (S (S _)))) with (String.length (b64url_Encode r) + 1 * 4)%nat by lia.
Qed.

(** A text without padding characters has no padding to strip. *)
Lemma no_padding s q : str_forall is_std s = true -> HasSuffix s (q +:+ "=") = false.
Proof.
  intros Hs. apply not_true_is_false. rewrite HasSuffix_spec. intros (t & ->).
  rewrite !str_forall_app in Hs. apply andb_true_iff in Hs as [_ [_ Hs]%andb_true_iff]. done.
Qed.

Lemma HasSuffix_app t p : HasSuffix (t +:+ p) p = true.
Proof. apply HasSuffix_spec. eauto. Qed.

Lemma one_padding s : str_forall is_std s = true -> HasSuffix (s +:+ "=") "==" = false.
Proof.
  intros Hs. apply not_true_is_false. rewrite HasSuffix_spec. intros (t & Ht).
  assert (s = t +:+ "=") as ->.
  { rewrite <- (TrimSuffix_app s "="), Ht.
    change "==" with ("=" +:+ "="). by rewrite <- str_app_assoc, TrimSuffix_app. }
  rewrite str_forall_app in Hs. by apply andb_true_iff in Hs as [_ Hs].
Qed.

Lemma b64std_round_trip s : b64std_Decode (b64std_Encode s) = Some s.
Proof.
  unfold b64std_Encode. fold (b64raw_Encode s). cbv zeta.
  pose proof (b64raw_chars s) as Hc. pose proof (b64raw_round_trip s) as Hr.
  assert (Hm : (String.length (b64raw_Encode s) mod 4)%nat <> 1%nat).
  { unfold b64raw_Encode. rewrite str_map_length. apply b64url_Encode_mod. }
  pose proof (Nat.mod_upper_bound (String.length (b64raw_Encode s)) 4 ltac:(lia)) as Hb.
  set (e := b64raw_Encode s) in *.
  pose proof (strip_std e "" Hc eq_refl) as H0. rewrite str_app_nil_r in H0.
  unfold b64std_Decode.
  destruct (String.length e mod 4)%nat as [|[|[|[|m]]]] eqn:Em; try lia; try done.
  - rewrite H0, Em. cbv [Nat.eqb negb]. pose proof (no_padding e "=" Hc) as Hp2. pose proof (no_padding e "" Hc) as Hp1.
    simpl in Hp1, Hp2. by rewrite Hp2, Hp1.
  - rewrite strip_std, str_length_app by done. cbn [String.length].
    replace ((String.length e + 2) mod 4)%nat with 0%nat by (rewrite Nat.Div0.add_mod, Em; done).
    cbv [Nat.eqb negb]. by rewrite HasSuffix_app, TrimSuffix_app.
  - rewrite strip_std, str_length_app by done. cbn [String.length].
    replace ((String.length e + 1) mod 4)%nat with 0%nat by (rewrite Nat.Div0.add_mod, Em; done).
    cbv [Nat.eqb negb]. by rewrite one_padding, HasSuffix_app, TrimSuffix_app.
Qed.

(** ** Passwords and fields *)

Section primitives_facts.
Context `{Primitives}.

Lemma IDKey_nonempty password salt t m p : IDKey password salt t m p argonOutputLen <> "".
Proof.
  intros He. pose proof (IDKey_length password salt t m p argonOutputLen ltac:(done)) as Hl.
  by rewrite He in Hl.
Qed.

Lemma phc_bytes_Encode s : s <> "" -> phc_bytes (b64raw_Encode s) = Ok s.
Proof. intros Hs. unfold phc_bytes. rewrite b64raw_round_trip. by apply String.eqb_neq in Hs as ->. Qed.

Lemma parsePHC_format salt digest : salt <> "" -> digest <> "" ->
  parsePHC ("$argon2id$v=19$m=65536,t=3,p=4$" +:+ b64raw_Encode salt +:+ "$" +:+ b64raw_Encode digest) =
  Ok ({| memoryKiB := argonMemoryKiB; iterations := argonIterations; parallelism := argonParallelism |},
      salt, digest).
Proof.
  intros Hs Hd. unfold parsePHC.
  assert (Hsplit : Split ("$argon2id$v=19$m=65536,t=3,p=4$" +:+ b64raw_Encode salt +:+ "$" +:+ b64raw_Encode digest) "$"
    = [""; "argon2id"; "v=19"; "m=65536,t=3,p=4"; b64raw_Encode salt; b64raw_Encode digest]).
  { transitivity (Split (Join [""; "argon2id"; "v=19"; "m=65536,t=3,p=4"; b64raw_Encode salt; b64raw_Encode digest] "$") "$");
      [done|]. apply Split_Join; [done|].
    repeat (apply Forall_cons; split; [first [by apply b64raw_no_sep|done]|]). constructor. }
  rewrite Hsplit. cbn -[b64raw_Encode]. by rewrite !phc_bytes_Encode.
Qed.

(** A password verifies against a hash exactly when Argon2id derives the same
    key from it; in particular the password that was hashed does. *)
Lemma password_hash_verifies password candidate salt h :
  salt <> "" -> HashPassword password (Some salt) = Ok h ->
  VerifyPassword candidate h =
  Ok (bool_decide (
    IDKey candidate salt argonIterations argonMemoryKiB argonParallelism argonOutputLen =
    IDKey password salt argonIterations argonMemoryKiB argonParallelism argonOutputLen)).
Proof.
  intros Hs Hh. unfold HashPassword in Hh. simplify_eq. unfold VerifyPassword.
  match goal with |- context [parsePHC ?h] => assert (Hp : parsePHC h =
    Ok ({| memoryKiB := argonMemoryKiB; iterations := argonIterations; parallelism := argonParallelism |}, salt,
        IDKey password salt argonIterations argonMemoryKiB argonParallelism argonOutputLen)) end.
  { apply parsePHC_format; [done|apply IDKey_nonempty]. }
  rewrite Hp. cbn [iterations memoryKiB parallelism]. rewrite IDKey_length by done.
  change (Z.of_nat (Z.to_nat argonOutputLen) mod 2 ^ 32)%Z with argonOutputLen.
  rewrite ConstantTimeCompare_eqb. f_equal. destruct (String.eqb_spec
    (IDKey candidate salt argonIterations argonMemoryKiB argonParallelism argonOutputLen)
    (IDKey password salt argonIterations argonMemoryKiB argonParallelism argonOutputLen)) as [->|Hne].
  - by rewrite bool_decide_true.
  - by rewrite bool_decide_false.
Qed.

Lemma DecryptField_EncryptField key plaintext aad nonce c :
  String.length nonce = encryptedNonceBytes ->
  EncryptField key plaintext aad (Some nonce) = Ok c -> DecryptField key c aad = Ok plaintext.
Proof.
  unfold EncryptField, DecryptField. intros Hn. destruct (negb _); [done|]. intros [= <-].
  rewrite b64std_round_trip, str_length_app, Seal_length, Hn.
  replace (_ <? _)%nat with false by (symmetry; apply Nat.ltb_ge; unfold encryptedTagBytes; lia).
  rewrite <- Hn, str_take_app, str_drop_app, Open_Seal. done.
Qed.
End primitives_facts.

(** ** Random bytes and integers *)

Local Open Scope Z_scope.

(** The source delivers whole blocks. *)
Definition full_blocks (rand : rand_source) : Prop :=
  forall pos key, rand pos = Some key -> String.length key = KeySize.

Lemma str_take_length n s : String.length (str_take n s) = Nat.min n (String.length s).
Proof. revert s; induction n; intros [|c s]; simpl; auto. Qed.

Lemma fill_loop_length rand fuel : full_blocks rand -> forall len pos b pos',
  (len <= fuel)%nat -> fill_loop fuel len rand pos = (Ok b, pos') -> String.length b = len.
Proof.
  intros Hfull. induction fuel as [|fuel IH]; intros len pos b pos' Hle Hf.
  { destruct len; [|lia]. by simplify_eq/=. }
  destruct len as [|len]; [by simplify_eq/=|]. cbn [fill_loop] in Hf. unfold GenerateKey in Hf.
  destruct (rand pos) as [block|] eqn:Hr; [|done]. apply Hfull in Hr.
  pose proof (str_take_length (S len) block) as Ht. unfold KeySize in Hr. cbv zeta in Hf.
  set (copied := str_take (S len) block) in *.
  destruct (fill_loop fuel _ rand (S pos)) as [[rest|] pos1] eqn:E; [|done]. simplify_eq.
  apply IH in E; [|lia]. rewrite str_length_app. lia.
Qed.

Lemma RandomBytes_length rand n pos b pos' :
  full_blocks rand -> RandomBytes n rand pos = (Ok b, pos') -> Z.of_nat (String.length b) = n.
Proof.
  unfold RandomBytes, FillRandomBytes. intros Hfull. destruct (n <? 0) eqn:En; [done|]. bool_to_prop.
  intros Hb%fill_loop_length; [lia|done..].
Qed.

(** An accepted draw: below the largest multiple of [n]. *)
Lemma draw_limit_multiple n : 0 < n -> draw_limit n = n * (max_uint64 / n).
Proof. intros. unfold draw_limit. pose proof (Z.div_mod max_uint64 n). lia. Qed.

(** The integers are uniform: the accepted 64-bit draws that give [k] are
    [k], [k + n], [k + 2n], ..., as many for each [k]. *)
Lemma accepted_draws n k r :
  0 < n -> 0 <= k < n ->
  (0 <= r < draw_limit n /\ r mod n = k <-> exists q, 0 <= q < max_uint64 / n /\ r = k + q * n).
Proof.
  intros Hn Hk. rewrite draw_limit_multiple by done. split.
  - intros [Hr <-]. exists (r / n). pose proof (Z.div_mod r n ltac:(lia)).
    split; [split; [apply Z.div_pos; lia|apply Z.div_lt_upper_bound; lia]|lia].
  - intros (q & Hq & ->). rewrite Z.mod_add, Z.mod_small by lia. split; [nia|done].
Qed.

(** One draw of [RandomIntN] is the first eight bytes of a block. *)
Definition draw64 (block : string) : Z := big_endian 0 (str_take 8 block).

Lemma RandomBytes_8 rand pos block :
  rand pos = Some block -> String.length block = KeySize -> RandomBytes 8 rand pos = (Ok (str_take 8 block), S pos).
Proof.
  intros Hr Hl. unfold RandomBytes, FillRandomBytes. change (8 <? 0) with false.
  change (Z.to_nat 8) with 8%nat. cbn [fill_loop]. unfold GenerateKey. rewrite Hr. cbv zeta.
  rewrite str_take_length, Hl. cbn [Nat.min KeySize Nat.sub fill_loop]. by rewrite str_app_nil_r.
Qed.

Lemma big_endian_nonneg b : forall acc, 0 <= acc -> 0 <= big_endian acc b.
Proof. induction b as [|c b IH]; intros acc Hacc; simpl; [done|]. apply IH. lia. Qed.

Lemma reject_loop_range n rand fuel : 0 < n -> forall pos v pos',
  reject_loop fuel n rand pos = Some (Ok v, pos') -> 0 <= v < n.
Proof.
  intros Hn. induction fuel as [|fuel IH]; intros pos v pos' Hr; [done|]. cbn [reject_loop] in Hr.
  destruct (RandomBytes 8 rand pos) as [[b|] pos1]; [|done]. cbv zeta in Hr.
  destruct (_ <? _); [|by eapply IH]. simplify_eq. by apply Z.mod_pos_bound.
Qed.

Lemma RandomIntN_range fuel n rand pos v pos' : RandomIntN fuel n rand pos = Some (Ok v, pos') -> 0 <= v < n.
Proof.
  unfold RandomIntN. destruct (Z.leb_spec n 0); [done|]. destruct (Z.eqb_spec n 1); [intros; simplify_eq; lia|].
  apply reject_loop_range. lia.
Qed.

Lemma reject_loop_first n rand : full_blocks rand -> forall i pos fuel block,
  (i < fuel)%nat -> (forall j, (j < i)%nat -> exists b, rand (pos + j)%nat = Some b /\ draw_limit n <= draw64 b) ->
  rand (pos + i)%nat = Some block -> draw64 block < draw_limit n ->
  reject_loop fuel n rand pos = Some (Ok (draw64 block mod n), S (pos + i)).
Proof.
  intros Hfull. induction i as [|i IH]; intros pos fuel block Hf Hrej Hr Hacc;
    (destruct fuel as [|fuel]; [lia|]); cbn [reject_loop].
  - rewrite Nat.add_0_r in Hr. rewrite (RandomBytes_8 _ _ block) by eauto. cbv zeta. fold (draw64 block).
    rewrite (proj2 (Z.ltb_lt _ _) Hacc). by rewrite Nat.add_0_r.
  - destruct (Hrej 0%nat) as (b & Hb & Hbig); [lia|]. rewrite Nat.add_0_r in Hb.
    rewrite (RandomBytes_8 _ _ b) by eauto. cbv zeta. fold (draw64 b). rewrite (proj2 (Z.ltb_ge _ _) Hbig).
    rewrite <- Nat.add_succ_comm in Hr. rewrite (IH (S pos) fuel block); [f_equal; f_equal; lia|lia| |done|done].
    intros j Hj. destruct (Hrej (S j)) as (b' & Hb' & ?); [lia|]. exists b'. by rewrite Nat.add_succ_comm.
Qed.

(** C31: Random integers are uniform: [RandomIntN] returns the first draw below
    the largest multiple of [n], reduced modulo [n], however many draws it
    rejects before; and the draws that give [k] are exactly [k], [k + n],
    [k + 2n], ..., as many for each [k] below [n]. *)
Theorem random_integers_are_uniform n rand :
  1 < n <= int64_max -> full_blocks rand ->
  (forall i pos fuel block, (i < fuel)%nat ->
     (forall j, (j < i)%nat -> exists b, rand (pos + j)%nat = Some b /\ draw_limit n <= draw64 b) ->
     rand (pos + i)%nat = Some block -> draw64 block < draw_limit n ->
     RandomIntN fuel n rand pos = Some (Ok (draw64 block mod n), S (pos + i))) /\
  (forall k r, 0 <= k < n ->
     (0 <= r < draw_limit n /\ r mod n = k <-> exists q, 0 <= q < max_uint64 / n /\ r = k + q * n)).
Proof.
  intros Hn Hfull. split.
  - intros i pos fuel block Hf Hrej Hr Hacc. unfold RandomIntN.
    rewrite (proj2 (Z.leb_gt n 0)), (proj2 (Z.eqb_neq n 1)) by lia. by apply reject_loop_first.
  - intros k r Hk. apply accepted_draws; lia.
Qed.

(** Two draws for a decimal digit: the first is rejected. *)
Fixpoint filled (n : nat) (c : ascii) : string := match n with O => "" | S k => String c (filled k c) end.
Definition two_blocks (pos : nat) : option string :=
  match pos with 0%nat => Some (filled 32 "255") | _ => Some (filled 32 "001") end.
Lemma random_integers_are_uniform_witness :
  RandomIntN 2 10 two_blocks 0 = Some (Ok (draw64 (filled 32 "001") mod 10), 2%nat).
Proof.
  assert (Hfull : full_blocks two_blocks) by (intros [|pos] key [= <-]; reflexivity).
  apply (proj1 (random_integers_are_uniform 10 two_blocks ltac:(unfold int64_max; lia) Hfull) 1%nat 0%nat);
    [lia| |reflexivity|reflexivity].
  intros j Hj. destruct j; [|lia]. exists (filled 32 "255"). split; [reflexivity|]. vm_compute. discriminate.
Defined.

(** ** Concrete primitives: a key derivation that pads, a cipher that appends a
    tag *)

Definition pad_key (password salt : string) (t m p len : Z) : string :=
  str_take (Z.to_nat len) (password +:+ zeros (Z.to_nat len)).
Lemma pad_key_length password salt t m p len :
  (0 <= len)%Z -> String.length (pad_key password salt t m p len) = Z.to_nat len.
Proof. intros _. unfold pad_key. rewrite str_take_length, str_length_app, zeros_length. lia. Qed.

Definition tag_seal (key nonce text aad : string) : string := text +:+ zeros 16.
Definition tag_open (key nonce c aad : string) : option string := Some (str_take (String.length c - 16) c).
Lemma tag_seal_length key nonce text aad : String.length (tag_seal key nonce text aad) = (String.length text + 16)%nat.
Proof. unfold tag_seal. by rewrite str_length_app. Qed.
Lemma tag_open_seal key nonce text aad : tag_open key nonce (tag_seal key nonce text aad) aad = Some text.
Proof.
  unfold tag_open, tag_seal. rewrite str_length_app. replace (_ - 16)%nat with (String.length text) by (cbn; lia).
  by rewrite str_take_app.
Qed.
Definition toy_primitives : Primitives :=
  {| IDKey := pad_key; IDKey_length := pad_key_length; Seal := tag_seal; Open := tag_open;
     Seal_length := tag_seal_length; Open_Seal := tag_open_seal |}.
