(* ===== verification/GoOtp.v ===== *)
(** Go's [crypto/sha1] under [crypto/hmac], and [encoding/base32] with the
    standard alphabet and no padding: what one-time passwords are computed
    from.  Executable, with published test vectors and the round trip of
    base32. *)

From Stdlib Require Import Ascii String NArith.
From S2P Require Import Prelude GoStrings GoEncoding GoSha256.

Local Open Scope list_scope.
Local Open Scope N_scope.

(** ** SHA-1 (FIPS 180-4) *)

Definition rotl (n x : N) : N := rotr (32 - n) x.

(** Message schedule, most recent word first. *)
Fixpoint sha1_schedule (n : nat) (ws : list N) : list N :=
  match n with
  | O => ws
  | S n' =>
      let w := rotl 1 (N.lxor (nthN 2 ws) (xor3 (nthN 7 ws) (nthN 13 ws) (nthN 15 ws))) in
      sha1_schedule n' (w :: ws)
  end.

(** The function and the constant of round [t]: the constants are the square
    roots of 2, 3, 5 and 10 with 30 fractional bits. *)
Definition sha1_root (n : N) : N := Eval vm_compute in N.sqrt (n * 2 ^ 60).
Definition sha1_f (t : nat) (b c d : N) : N :=
  if (t <? 20)%nat then ch b c d
  else if (t <? 40)%nat then xor3 b c d
  else if (t <? 60)%nat then maj b c d
  else xor3 b c d.
Definition sha1_k (t : nat) : N :=
  if (t <? 20)%nat then sha1_root 2
  else if (t <? 40)%nat then sha1_root 3
  else if (t <? 60)%nat then sha1_root 5
  else sha1_root 10.

Definition sha1_round (st : list N) (tw : nat * N) : list N :=
  match st with
  | [a; b; c; d; e] =>
      [w32 (rotl 5 a + sha1_f tw.1 b c d + e + sha1_k tw.1 + tw.2); a; rotl 30 b; c; d]
  | _ => st
  end.

Definition sha1_compress (st block : list N) : list N :=
  let ws := rev (sha1_schedule 64 (rev block)) in
  zip_with add32 st (fold_left sha1_round (zip (seq 0 80) ws) st).

Definition sha1_iv : list N := [0x67452301; 0xEFCDAB89; 0x98BADCFE; 0x10325476; 0xC3D2E1F0].

(** [sha1.Sum]. *)
Definition sha1 (msg : string) : string :=
  let ws := words (sha_pad (bytes_of msg)) in
  string_of (concat (be_bytes 4 <$> fold_left sha1_compress (blocks (length ws / 16)%nat ws) sha1_iv)).

(** [hmac.New(sha1.New, key)] applied to a message. *)
Definition hmac_sha1 (key msg : string) : string :=
  let k0 := if (64 <? String.length key)%nat then sha1 key else key in
  let kb := bytes_of k0 ++ replicate (64 - String.length k0)%nat 0 in
  let pad c := string_of (N.lxor c <$> kb) in
  sha1 (pad 0x5c +:+ sha1 (pad 0x36 +:+ msg)).

Local Open Scope string_scope.

Example sha1_abc : hex_EncodeToString (sha1 "abc") = "a9993e364706816aba3e25717850c26c9cd0d89d".
Proof. vm_compute. reflexivity. Qed.

Example sha1_two_blocks :
  hex_EncodeToString (sha1 "abcdbcdecdefdefgefghfghighijhijkijkljklmklmnlmnomnopnopq") =
  "84983e441c3bd26ebaae4aa1f95129e5e54670f1".
Proof. vm_compute. reflexivity. Qed.

Example hmac_rfc2202_2 :
  hex_EncodeToString (hmac_sha1 "Jefe" "what do ya want for nothing?") =
  "effcdf6ae5eb2fa2d27416d5f184df9c259a7c79".
Proof. vm_compute. reflexivity. Qed.

(** A digest has 20 bytes. *)
Lemma sha1_round_length st tw : length (sha1_round st tw) = length st.
Proof. unfold sha1_round. by do 6 (destruct st as [|? st]; [done|]). Qed.

Lemma sha1_compress_length st block : length st = 5%nat -> length (sha1_compress st block) = 5%nat.
Proof.
  intros Hst. unfold sha1_compress. rewrite length_zip_with, Hst.
  assert (Hf : forall l s, length (fold_left sha1_round l s) = length s).
  { induction l as [|tw l IH]; intros s; simpl; [done|]. by rewrite IH, sha1_round_length. }
  by rewrite Hf, Hst.
Qed.

Lemma string_of_length bs : String.length (string_of bs) = length bs.
Proof. induction bs as [|b bs IH]; [done|]. cbn. by f_equal. Qed.

Lemma sha1_length msg : String.length (sha1 msg) = 20%nat.
Proof.
  unfold sha1. rewrite string_of_length.
  assert (Hfold : forall l s, length s = 5%nat -> length (fold_left sha1_compress l s) = 5%nat).
  { induction l as [|b l IH]; intros s Hs; simpl; [done|]. by apply IH, sha1_compress_length. }
  assert (Hbytes : forall ws, length (concat (be_bytes 4 <$> ws)) = (4 * length ws)%nat).
  { induction ws as [|x ws IH]; [done|]. cbn [fmap list_fmap concat].
    rewrite length_app, length_be_bytes, IH. simpl. lia. }
  by rewrite Hbytes, Hfold.
Qed.

Lemma hmac_sha1_length key msg : String.length (hmac_sha1 key msg) = 20%nat.
Proof. apply sha1_length. Qed.

(** ** Base32 *)

Definition quintet : Type := bool * bool * bool * bool * bool.
Definition b32_alphabet : string := "ABCDEFGHIJKLMNOPQRSTUVWXYZ234567".

Definition bits5 (x : quintet) : nat :=
  let '(a, b, c, d, e) := x in
  (16 * Nat.b2n a + 8 * Nat.b2n b + 4 * Nat.b2n c + 2 * Nat.b2n d + Nat.b2n e)%nat.
Definition b32_char (x : quintet) : ascii :=
  match String.get (bits5 x) b32_alphabet with Some c => c | None => "A"%char end.
Definition N_quintet (n : N) : quintet :=
  (N.testbit n 4, N.testbit n 3, N.testbit n 2, N.testbit n 1, N.testbit n 0).
Definition b32_val (c : ascii) : option quintet :=
  let n := code c in
  (if (65 <=? n) && (n <=? 90) then Some (N_quintet (n - 65))
   else if (50 <=? n) && (n <=? 55) then Some (N_quintet (n - 24))
   else None)%N.

(** The bits of a string, most significant first, and groups of five. *)
Definition byte_bits (c : ascii) : list bool :=
  let '(Ascii a0 a1 a2 a3 a4 a5 a6 a7) := c in [a7; a6; a5; a4; a3; a2; a1; a0].
Fixpoint str_bits (s : string) : list bool :=
  match s with EmptyString => [] | String c r => (byte_bits c ++ str_bits r)%list end.

(** [EncodeToString]: five bits a letter, the last group filled with zeros. *)
Fixpoint b32_letters (bs : list bool) : string :=
  match bs with
  | [] => ""
  | [a] => String (b32_char (a, false, false, false, false)) ""
  | [a; b] => String (b32_char (a, b, false, false, false)) ""
  | [a; b; c] => String (b32_char (a, b, c, false, false)) ""
  | [a; b; c; d] => String (b32_char (a, b, c, d, false)) ""
  | a :: b :: c :: d :: e :: r => String (b32_char (a, b, c, d, e)) (b32_letters r)
  end.
Definition b32_Encode (s : string) : string := b32_letters (str_bits s).

Fixpoint bits_bytes (bs : list bool) : string :=
  match bs with
  | a7 :: a6 :: a5 :: a4 :: a3 :: a2 :: a1 :: a0 :: r => String (Ascii a0 a1 a2 a3 a4 a5 a6 a7) (bits_bytes r)
  | _ => ""
  end.

(** The bits of a text; a letter outside the alphabet is an error. *)
Fixpoint letter_bits (s : string) : option (list bool) :=
  match s with
  | EmptyString => Some []
  | String c r =>
      match b32_val c, letter_bits r with
      | Some (a, b, c, d, e), Some bs => Some (a :: b :: c :: d :: e :: bs)
      | _, _ => None
      end
  end.

(** [DecodeString]: line breaks are skipped; of a last quantum of 2, 4, 5 or 7
    letters the whole bytes are kept, one of 1, 3 or 6 letters gives none. *)
Definition whole_letters (n : nat) : nat :=
  let rest := (n mod 8)%nat in
  if (rest =? 1)%nat || (rest =? 3)%nat || (rest =? 6)%nat then (n - rest)%nat else n.
Definition b32_Decode (s : string) : option string :=
  match letter_bits (strip_newlines s) with
  | Some bs => Some (bits_bytes (take (5 * whole_letters (length bs / 5)) bs))
  | None => None
  end.

Lemma b32_val_char x : b32_val (b32_char x) = Some x.
Proof. by destruct x as [[[[[] []] []] []] []]. Qed.

Definition is_b32 (c : ascii) : bool := match b32_val c with Some _ => true | None => false end.
Lemma b32_char_is_b32 x : is_b32 (b32_char x) = true.
Proof. unfold is_b32. by rewrite b32_val_char. Qed.

(** Induction by groups of five bits. *)
Lemma quint_ind (P : list bool -> Prop) :
  P [] -> (forall a, P [a]) -> (forall a b, P [a; b]) -> (forall a b c, P [a; b; c]) ->
  (forall a b c d, P [a; b; c; d]) ->
  (forall a b c d e r, P r -> P (a :: b :: c :: d :: e :: r)) -> forall bs, P bs.
Proof.
  intros H0 H1 H2 H3 H4 H5 bs.
  enough (P bs /\ (forall a, P (a :: bs)) /\ (forall a b, P (a :: b :: bs)) /\
    (forall a b c, P (a :: b :: c :: bs)) /\ (forall a b c d, P (a :: b :: c :: d :: bs))) by tauto.
  induction bs as [|x bs (I0 & I1 & I2 & I3 & I4)]; split_and!; auto.
Qed.

Lemma b32_letters_chars bs : str_forall is_b32 (b32_letters bs) = true.
Proof.
  induction bs as [|?|??|???|????|a b c d e r IH] using quint_ind;
    cbn -[b32_char is_b32]; rewrite ?b32_char_is_b32; auto.
Qed.

(** The letters carry the bits, filled to a multiple of five. *)
Lemma letter_bits_letters bs :
  exists fill, letter_bits (b32_letters bs) = Some (bs ++ replicate fill false)%list /\
    (fill < 5)%nat /\ (5 * String.length (b32_letters bs) = length bs + fill)%nat.
Proof.
  induction bs as [|?|??|???|????|a b c d e r (fill & IH & Hf & Hl)] using quint_ind;
    [exists 0%nat|exists 4%nat|exists 3%nat|exists 2%nat|exists 1%nat|exists fill];
    cbn -[b32_char b32_val]; rewrite ?b32_val_char; split_and!; try done; try lia.
  by rewrite IH.
Qed.

Lemma strip_b32 s : str_forall is_b32 s = true -> strip_newlines s = s.
Proof.
  induction s as [|c s IH]; [done|]. cbn -[is_b32]. rewrite andb_true_iff. intros [Hc Hs].
  rewrite IH by done. destruct (is_newline c) eqn:E; [|done].
  exfalso. revert Hc E. by destruct c as [[] [] [] [] [] [] [] []].
Qed.

Lemma str_bits_length s : length (str_bits s) = (8 * String.length s)%nat.
Proof. induction s as [|[] s IH]; simpl in *; lia. Qed.

Lemma bits_bytes_short fill : (fill < 5)%nat -> bits_bytes (replicate fill false) = "".
Proof. intros. by do 5 (destruct fill as [|fill]; [done|]); lia. Qed.

Lemma bits_bytes_bits s fill : (fill < 5)%nat -> bits_bytes (str_bits s ++ replicate fill false)%list = s.
Proof.
  intros Hf. induction s as [|[] s IH]; [by apply bits_bytes_short|].
  cbn [str_bits byte_bits app bits_bytes]. by f_equal.
Qed.

(** Whole bytes never leave a quantum of 1, 3 or 6 letters. *)
Lemma whole_letters_bytes n m fill :
  (fill < 5)%nat -> (5 * n = 8 * m + fill)%nat -> whole_letters n = n.
Proof.
  intros Hf Hn. unfold whole_letters.
  pose proof (Nat.div_mod n 8 ltac:(lia)) as Hd. pose proof (Nat.mod_upper_bound n 8 ltac:(lia)) as Hb.
  destruct (n mod 8 =? 1)%nat eqn:E1; [apply Nat.eqb_eq in E1; lia|].
  destruct (n mod 8 =? 3)%nat eqn:E3; [apply Nat.eqb_eq in E3; lia|].
  destruct (n mod 8 =? 6)%nat eqn:E6; [apply Nat.eqb_eq in E6; lia|]. done.
Qed.

Lemma b32_round_trip s : b32_Decode (b32_Encode s) = Some s.
Proof.
  unfold b32_Decode, b32_Encode. rewrite strip_b32 by apply b32_letters_chars.
  destruct (letter_bits_letters (str_bits s)) as (fill & -> & Hf & Hl). f_equal.
  rewrite str_bits_length in Hl.
  assert (Hlen : length (str_bits s ++ replicate fill false)%list = (5 * String.length (b32_letters (str_bits s)))%nat)
    by (rewrite length_app, str_bits_length, length_replicate; lia).
  rewrite Hlen, (Nat.mul_comm 5 (String.length _)), Nat.div_mul by lia.
  rewrite (whole_letters_bytes _ (String.length s) fill) by done.
  rewrite firstn_all2 by lia. by apply bits_bytes_bits.
Qed.

Example b32_example : b32_Encode "foobar" = "MZXW6YTBOI".
Proof. reflexivity. Qed.
