(* ===== verification/GoHttp.v ===== *)
(** Go's [net/http] request and header types and [net.SplitHostPort]. *)

From Stdlib Require Import Ascii String.
From S2P Require Import Prelude GoStrings.

Local Open Scope string_scope.

(** ** Header keys: [textproto.CanonicalMIMEHeaderKey] *)

Definition is_alnum (c : ascii) : bool :=
  let n := code c in
  (((48 <=? n) && (n <=? 57)) || ((65 <=? n) && (n <=? 90)) || ((97 <=? n) && (n <=? 122)))%N.

(** Bytes a header field name may contain. *)
Definition valid_header_byte (c : ascii) : bool :=
  is_alnum c ||
  existsb (Ascii.eqb c) ["!"; "#"; "$"; "%"; "&"; "'"; "*"; "+"; "-"; "."; "^"; "_"; "`"; "|"; "~"]%char.

Fixpoint canon_loop (upper : bool) (s : string) : string :=
  match s with
  | EmptyString => EmptyString
  | String c r =>
      String (if upper then upper_char c else lower_char c) (canon_loop (Ascii.eqb c "-") r)
  end.

Definition CanonicalHeaderKey (k : string) : string :=
  if str_forall valid_header_byte k then canon_loop true k else k.

(** ** [http.Header] *)

Abbreviation header := (gmap string (list string)).

Definition Header_Get (h : header) (k : string) : string :=
  match h !! CanonicalHeaderKey k with
  | Some (v :: _) => v
  | _ => ""
  end.
Definition Header_Set (h : header) (k v : string) : header := <[CanonicalHeaderKey k := [v]]> h.
Definition Header_Del (h : header) (k : string) : header := delete (CanonicalHeaderKey k) h.

Lemma Header_Get_Set h k v : Header_Get (Header_Set h k v) k = v.
Proof. unfold Header_Get, Header_Set. by rewrite lookup_insert_eq. Qed.

Lemma Header_Get_Set_ne h k k' v :
  CanonicalHeaderKey k <> CanonicalHeaderKey k' ->
  Header_Get (Header_Set h k v) k' = Header_Get h k'.
Proof. intros. unfold Header_Get, Header_Set. by rewrite lookup_insert_ne. Qed.

Lemma Header_Get_Del h k : Header_Get (Header_Del h k) k = "".
Proof. unfold Header_Get, Header_Del. by rewrite lookup_delete_eq. Qed.

Lemma Header_Get_Del_ne h k k' :
  CanonicalHeaderKey k <> CanonicalHeaderKey k' ->
  Header_Get (Header_Del h k) k' = Header_Get h k'.
Proof. intros. unfold Header_Get, Header_Del. by rewrite lookup_delete_ne. Qed.

#[export] Hint Rewrite Header_Get_Set Header_Get_Del : aegion.
#[export] Hint Rewrite Header_Get_Set_ne Header_Get_Del_ne using (vm_compute; discriminate) : aegion.

(** ** Requests

    The fields the code reads; [Cookies] are the parsed cookies in order and
    [TLS] says whether the connection is encrypted. *)
Record Request : Type := {
  Method : string;
  URL_Path : string;
  URL_RawQuery : string;
  Host : string;
  RemoteAddr : string;
  TLS : bool;
  Cookies : list (string * string);
  Header : header;
}.

Definition set_Header (r : Request) (h : header) : Request :=
  {| Method := Method r; URL_Path := URL_Path r; URL_RawQuery := URL_RawQuery r;
     Host := Host r; RemoteAddr := RemoteAddr r; TLS := TLS r; Cookies := Cookies r; Header := h |}.

Definition set_Path (r : Request) (p : string) : Request :=
  {| Method := Method r; URL_Path := p; URL_RawQuery := URL_RawQuery r;
     Host := Host r; RemoteAddr := RemoteAddr r; TLS := TLS r; Cookies := Cookies r; Header := Header r |}.

Definition set_Host (r : Request) (h : string) : Request :=
  {| Method := Method r; URL_Path := URL_Path r; URL_RawQuery := URL_RawQuery r;
     Host := h; RemoteAddr := RemoteAddr r; TLS := TLS r; Cookies := Cookies r; Header := Header r |}.

(** [r.Cookie(name)]: the first cookie of that name. *)
Fixpoint Request_Cookie (cs : list (string * string)) (name : string) : option string :=
  match cs with
  | [] => None
  | (n, v) :: cs' => if String.eqb n name then Some v else Request_Cookie cs' name
  end.

(** ** [net.SplitHostPort] *)

Fixpoint str_index (c : ascii) (s : string) : option nat :=
  match s with
  | EmptyString => None
  | String d r => if Ascii.eqb d c then Some O else S <$> str_index c r
  end.

Fixpoint str_last_index (c : ascii) (s : string) : option nat :=
  match s with
  | EmptyString => None
  | String d r =>
      match str_last_index c r with
      | Some i => Some (S i)
      | None => if Ascii.eqb d c then Some O else None
      end
  end.

Definition has_char (c : ascii) (s : string) : bool := negb (str_forall (not_char c) s).

(** The host part, or [None] when [SplitHostPort] reports an error. *)
Definition SplitHostPort (hostport : string) : option string :=
  match str_last_index ":" hostport with
  | None => None
  | Some i =>
      match hostport with
      | String "[" _ =>
          match str_index "]" hostport with
          | None => None
          | Some e =>
              if negb (S e =? i)%nat then None
              else if has_char "[" (str_drop 1 hostport) then None
              else if has_char "]" (str_drop (S e) hostport) then None
              else Some (str_take (e - 1) (str_drop 1 hostport))
          end
      | _ =>
          let host := str_take i hostport in
          if has_char ":" host then None
          else if has_char "[" hostport then None
          else if has_char "]" hostport then None
          else Some host
      end
  end.

Example shp1 : SplitHostPort "10.0.0.1:443" = Some "10.0.0.1".
Proof. reflexivity. Qed.
Example shp2 : SplitHostPort "[::1]:443" = Some "::1".
Proof. reflexivity. Qed.
Example shp3 : SplitHostPort "::1:443" = None.
Proof. reflexivity. Qed.
Example canon1 : CanonicalHeaderKey "x-aegion-session-ID" = "X-Aegion-Session-Id".
Proof. reflexivity. Qed.
