(* ===== verification/TrustedProxy.v ===== *)
(** internal/platform/trustedproxy: which client address, protocol and host a
    request is attributed to when it may have come through proxies.

    IP parsing and network membership belong to Go's [net] package and are the
    interface [Net]; the theorems hold for every implementation of it.  The
    value of the environment variable is the argument [raw]. *)

From Stdlib Require Import Ascii String.
From S2P Require Import Prelude GoStrings GoHttp.

Local Open Scope string_scope.

Class Net := {
  ip : Type;
  ipnet : Type;
  ParseIP : string -> option ip;
  ParseCIDR : string -> option ipnet;
  Contains : ipnet -> ip -> bool;
}.

Section trustedproxy.
Context `{Net}.

Definition is_bracket (c : ascii) : bool := Ascii.eqb c "[" || Ascii.eqb c "]".

Definition RemoteIP (remoteAddr : string) : string :=
  let remoteAddr := TrimSpace remoteAddr in
  if String.eqb remoteAddr "" then ""
  else match SplitHostPort remoteAddr with
       | Some host => trim is_bracket host
       | None => trim is_bracket remoteAddr
       end.

Fixpoint parse_parts (parts : list string) : list ipnet :=
  match parts with
  | [] => []
  | part :: rest =>
      let part := TrimSpace part in
      if String.eqb part "" then parse_parts rest
      else match ParseCIDR part with
           | Some network => network :: parse_parts rest
           | None => parse_parts rest
           end
  end.

Definition parseCIDRs (raw : string) : list ipnet := parse_parts (Split raw ",").

Definition isTrusted (ipStr : string) (trustedCIDRs : list ipnet) : bool :=
  match ParseIP ipStr with
  | None => false
  | Some ip => existsb (fun cidr => Contains cidr ip) trustedCIDRs
  end.

(** The process-wide cache of parsed lists ([cidrCache]). *)
Abbreviation cidr_cache := (gmap string (list ipnet)).

Definition cached_cidrs (cache : cidr_cache) (raw : string) : list ipnet * cidr_cache :=
  match cache !! raw with
  | Some nets => (nets, cache)
  | None => let nets := parseCIDRs raw in (nets, <[raw := nets]> cache)
  end.

(** The loop over the entries of X-Forwarded-For from right to left: [rest]
    are the entries still to visit, last first; the final one is index 0. *)
Fixpoint xff_walk (rest : list string) (nets : list ipnet) : option string :=
  match rest with
  | [] => None
  | entry :: rest' =>
      let candidate := TrimSpace entry in
      if String.eqb candidate "" then xff_walk rest' nets
      else if negb (isTrusted candidate nets) then Some candidate
      else match rest' with
           | [] => Some candidate
           | _ => xff_walk rest' nets
           end
  end.

Definition fallback_ip (r : Request) (remoteIP : string) : string :=
  let xri := TrimSpace (Header_Get (GoHttp.Header r) "X-Real-IP") in
  if negb (String.eqb xri "") then xri
  else
    let cfip := TrimSpace (Header_Get (GoHttp.Header r) "CF-Connecting-IP") in
    if negb (String.eqb cfip "") then cfip else remoteIP.

(** [env] is [Some raw] when an environment variable name is given. *)
Definition ClientIP (cache : cidr_cache) (r : option Request) (trustForwarded : bool)
    (env : option string) : string * cidr_cache :=
  match r with
  | None => ("", cache)
  | Some r =>
      let remoteIP := RemoteIP (RemoteAddr r) in
      if negb trustForwarded then (remoteIP, cache)
      else
        let '(nets, cache) :=
          match env with
          | Some raw => cached_cidrs cache raw
          | None => ([], cache)
          end in
        match nets with
        | [] => (remoteIP, cache)
        | _ =>
            if negb (isTrusted remoteIP nets) then (remoteIP, cache)
            else
              let xff := TrimSpace (Header_Get (GoHttp.Header r) "X-Forwarded-For") in
              let walked :=
                if negb (String.eqb xff "") then xff_walk (rev (Split xff ",")) nets else None in
              match walked with
              | Some candidate => (candidate, cache)
              | None => (fallback_ip r remoteIP, cache)
              end
        end
  end.

Definition canTrustForwardedHeaders (r : option Request) (trustForwarded : bool) (raw : string) : bool :=
  match r with
  | None => false
  | Some r =>
      if negb trustForwarded then false
      else
        let peer := RemoteIP (RemoteAddr r) in
        if String.eqb peer "" then false
        else match ParseIP peer with
             | None => false
             | Some ip =>
                 let trustedCIDRs := parseCIDRs raw in
                 match trustedCIDRs with
                 | [] => false
                 | _ => existsb (fun cidr => Contains cidr ip) trustedCIDRs
                 end
             end
  end.

Definition PriorForwardedFor (r : option Request) (trustForwarded : bool) (raw : string) : string :=
  match r with
  | None => ""
  | Some r' =>
      if negb (canTrustForwardedHeaders r trustForwarded raw) then ""
      else TrimSpace (Header_Get (GoHttp.Header r') "X-Forwarded-For")
  end.

Definition ForwardedProto (r : option Request) (trustForwarded : bool) (raw : string) : string :=
  let plain := match r with
               | Some r' => if TLS r' then "https" else "http"
               | None => "http"
               end in
  match r with
  | Some r' =>
      if canTrustForwardedHeaders r trustForwarded raw then
        let proto := TrimSpace (Header_Get (GoHttp.Header r') "X-Forwarded-Proto") in
        if negb (String.eqb proto "") then proto else plain
      else plain
  | None => plain
  end.

Definition ForwardedHost (r : option Request) (trustForwarded : bool) (raw : string) : string :=
  match r with
  | None => ""
  | Some r' =>
      if canTrustForwardedHeaders r trustForwarded raw then
        let host := TrimSpace (Header_Get (GoHttp.Header r') "X-Forwarded-Host") in
        if negb (String.eqb host "") then host else Host r'
      else Host r'
  end.

(** ** Cache coherence *)

Definition cache_ok (cache : cidr_cache) : Prop :=
  forall raw nets, cache !! raw = Some nets -> nets = parseCIDRs raw.

Lemma cached_cidrs_ok cache raw :
  cache_ok cache ->
  (cached_cidrs cache raw).1 = parseCIDRs raw /\ cache_ok (cached_cidrs cache raw).2.
Proof.
  intros Hc. unfold cached_cidrs. destruct (cache !! raw) eqn:E; simpl.
  - split; [by apply Hc|done].
  - split; [done|]. intros raw' nets. destruct (decide (raw = raw')) as [->|].
    + rewrite lookup_insert_eq. congruence.
    + rewrite lookup_insert_ne by done. apply Hc.
Qed.

Lemma ClientIP_cache_ok cache r trust env :
  cache_ok cache -> cache_ok (ClientIP cache r trust env).2.
Proof.
  intros Hc. unfold ClientIP. destruct r as [r|]; [|done]. destruct trust; [|done]. simpl.
  destruct env as [raw|]; simpl.
  - destruct (cached_cidrs_ok cache raw Hc) as [_ Hc'].
    destruct (cached_cidrs cache raw) as [nets cache']; simpl in Hc'.
    by repeat case_match.
  - done.
Qed.

(** ** The walk over X-Forwarded-For *)

Lemma xff_walk_trusted_suffix trusted client rest nets :
  Forall (fun e => TrimSpace e = "" \/ isTrusted (TrimSpace e) nets = true) trusted ->
  TrimSpace client <> "" -> isTrusted (TrimSpace client) nets = false ->
  xff_walk (trusted ++ client :: rest)%list nets = Some (TrimSpace client).
Proof.
  intros HF Hne Hu. induction HF as [|e es He HF IH]; simpl.
  - apply String.eqb_neq in Hne. by rewrite Hne, Hu.
  - destruct (String.eqb_spec (TrimSpace e) ""); [done|].
    destruct He as [?|He]; [done|]. rewrite He. simpl.
    destruct es; simpl in *; exact IH.
Qed.

(** With forwarded headers trusted and the peer one of the configured
    proxies, the client address is the rightmost X-Forwarded-For entry that is
    not a trusted proxy, whatever stands to its left: a client that prepends
    addresses of its own to the header cannot change what it is attributed. *)
Theorem client_ip_spoof_resistant cache raw r forged client proxies :
  cache_ok cache ->
  isTrusted (RemoteIP (RemoteAddr r)) (parseCIDRs raw) = true ->
  TrimSpace (Header_Get (GoHttp.Header r) "X-Forwarded-For") =
    Join (forged ++ client :: proxies) "," ->
  Forall (fun e => str_forall (not_char ",") e = true) (forged ++ client :: proxies) ->
  TrimSpace client <> "" -> isTrusted (TrimSpace client) (parseCIDRs raw) = false ->
  Forall (fun e => isTrusted (TrimSpace e) (parseCIDRs raw) = true) proxies ->
  (ClientIP cache (Some r) true (Some raw)).1 = TrimSpace client.
Proof.
  intros Hc Hpeer Hx Hsep Hne Hu Hp. unfold ClientIP. simpl negb.
  destruct (cached_cidrs_ok cache raw Hc) as [Hn _].
  destruct (cached_cidrs cache raw) as [nets cache']; simpl in Hn. subst nets.
  destruct (parseCIDRs raw) as [|net nets] eqn:Hnets; cbv iota beta.
  { unfold isTrusted in Hpeer. by destruct (ParseIP _). }
  rewrite <- Hnets in *. rewrite Hpeer. cbn [negb]. rewrite Hx.
  assert (Hjoin : Join (forged ++ client :: proxies) "," <> "").
  { clear Hx. intros E. pose proof (Split_Join (forged ++ client :: proxies) ","%char) as HS.
    rewrite E in HS. specialize (HS ltac:(by destruct forged) Hsep). simpl in HS.
    destruct forged as [|f [|]]; simpl in HS; simplify_eq/=; by apply Hne. }
  apply String.eqb_neq in Hjoin. rewrite Hjoin. cbn [negb].
  rewrite Split_Join by (done || by destruct forged).
  rewrite rev_app_distr. simpl rev. rewrite <- app_assoc. simpl.
  rewrite xff_walk_trusted_suffix; [done| |done|done].
  apply Forall_rev. eapply Forall_impl; [exact Hp|]. naive_solver.
Qed.

(** Unless the operator enabled forwarded headers and the peer address
    itself lies in a configured trusted network, no forwarded header has any
    effect: client address, protocol, host and prior hops are computed from
    the connection alone. *)
Theorem untrusted_peer_headers_ignored cache raw r h trust :
  cache_ok cache ->
  trust = false \/ isTrusted (RemoteIP (RemoteAddr r)) (parseCIDRs raw) = false ->
  let r' := set_Header r h in
  (ClientIP cache (Some r') trust (Some raw)).1 = RemoteIP (RemoteAddr r) /\
  PriorForwardedFor (Some r') trust raw = "" /\
  ForwardedProto (Some r') trust raw = (if TLS r then "https" else "http") /\
  ForwardedHost (Some r') trust raw = Host r.
Proof.
  intros Hc Hu r'. assert (Hcan : canTrustForwardedHeaders (Some r') trust raw = false).
  { unfold canTrustForwardedHeaders, r'; simpl. destruct Hu as [->|Hu]; [done|].
    destruct trust; [|done]. simpl. case_match; [done|].
    unfold isTrusted in Hu. destruct (ParseIP _); [|done]. by destruct (parseCIDRs raw). }
  unfold PriorForwardedFor, ForwardedProto, ForwardedHost. rewrite Hcan. simpl.
  split_and!; [|done..]. unfold ClientIP, r'; simpl.
  destruct trust; [|done]. simpl. destruct Hu as [?|Hu]; [done|].
  destruct (cached_cidrs_ok cache raw Hc) as [Hn _].
  destruct (cached_cidrs cache raw) as [nets cache']; simpl in Hn. subst nets.
  rewrite Hu. by destruct (parseCIDRs raw).
Qed.
End trustedproxy.

(** A concrete [net]: dotted-quad addresses and single-host networks. *)
Definition host_net : Net :=
  {| ip := string; ipnet := string;
     ParseIP s := if str_forall (not_char " ") s && negb (String.eqb s "") then Some s else None;
     ParseCIDR s := Some s;
     Contains := String.eqb |}.

Definition proxied_request : Request :=
  {| Method := "GET"; URL_Path := "/"; URL_RawQuery := ""; Host := "app"; RemoteAddr := "10.0.0.1:555";
     TLS := true; Cookies := [];
     Header := Header_Set ∅ "X-Forwarded-For" "6.6.6.6,198.51.100.7,10.0.0.2" |}.

Lemma client_ip_spoof_resistant_witness :
  (@ClientIP host_net ∅ (Some proxied_request) true (Some "10.0.0.1,10.0.0.2")).1 = "198.51.100.7".
Proof.
  apply (@client_ip_spoof_resistant host_net ∅ "10.0.0.1,10.0.0.2" proxied_request
           ["6.6.6.6"] "198.51.100.7" ["10.0.0.2"]).
  - intros raw nets Hl. rewrite lookup_empty in Hl. discriminate Hl.
  - vm_compute. reflexivity.
  - vm_compute. reflexivity.
  - repeat constructor.
  - vm_compute. discriminate.
  - vm_compute. reflexivity.
  - repeat constructor.
Defined.

Lemma untrusted_peer_headers_ignored_witness :
  (@ClientIP host_net ∅ (Some (set_Header proxied_request
     (Header_Set ∅ "X-Forwarded-For" "1.2.3.4"))) true (Some "10.9.9.9")).1 = "10.0.0.1".
Proof.
  refine (proj1 (@untrusted_peer_headers_ignored host_net ∅ "10.9.9.9" proxied_request
    (Header_Set ∅ "X-Forwarded-For" "1.2.3.4") true _ (or_intror _))).
  - intros raw nets Hl. rewrite lookup_empty in Hl. discriminate Hl.
  - vm_compute. reflexivity.
Defined.
