(* ===== verification/CircuitBreaker.v ===== *)
(** core/proxy/circuit.go: the circuit breaker that guards each upstream.

    The breaker's fields are the record [CircuitBreaker]; every method is a
    function of the breaker and of the clock reading [now] it takes under its
    lock.  Counters are unbounded integers (an [int64] counter would need 2^63
    requests to wrap). *)

From Stdlib Require Import Ascii String.
From S2P Require Import Prelude.

Local Open Scope Z_scope.

Inductive State : Type := StateClosed | StateOpen | StateHalfOpen.

#[global] Instance State_eq_dec : EqDecision State.
Proof. solve_decision. Defined.

Definition State_String (s : State) : string :=
  match s with
  | StateClosed => "closed"
  | StateOpen => "open"
  | StateHalfOpen => "half-open"
  end.

Record CircuitBreakerConfig : Type := {
  FailureThreshold : Z;
  Timeout : duration;
  SuccessThreshold : Z;
}.

Definition DefaultCircuitBreakerConfig : CircuitBreakerConfig :=
  {| FailureThreshold := 5; Timeout := 60 * second; SuccessThreshold := 3 |}.

Record CircuitBreaker : Type := {
  config : CircuitBreakerConfig;
  state : State;
  failures : Z;
  successes : Z;
  lastFailure : time;
  lastSuccess : time;
  lastStateTime : time;
  totalRequests : Z;
  totalFailures : Z;
  totalSuccesses : Z;
  rejectedCount : Z;
}.

Definition NewCircuitBreaker (c : CircuitBreakerConfig) (now : time) : CircuitBreaker :=
  {| config := c; state := StateClosed; failures := 0; successes := 0;
     lastFailure := time_zero; lastSuccess := time_zero; lastStateTime := now;
     totalRequests := 0; totalFailures := 0; totalSuccesses := 0; rejectedCount := 0 |}.

(** Field updates. *)
Definition with_counts (cb : CircuitBreaker) (f s : Z) : CircuitBreaker :=
  {| config := config cb; state := state cb; failures := f; successes := s;
     lastFailure := lastFailure cb; lastSuccess := lastSuccess cb; lastStateTime := lastStateTime cb;
     totalRequests := totalRequests cb; totalFailures := totalFailures cb;
     totalSuccesses := totalSuccesses cb; rejectedCount := rejectedCount cb |}.
Definition with_state (cb : CircuitBreaker) (s : State) (t : time) : CircuitBreaker :=
  {| config := config cb; state := s; failures := failures cb; successes := successes cb;
     lastFailure := lastFailure cb; lastSuccess := lastSuccess cb; lastStateTime := t;
     totalRequests := totalRequests cb; totalFailures := totalFailures cb;
     totalSuccesses := totalSuccesses cb; rejectedCount := rejectedCount cb |}.
Definition with_totals (cb : CircuitBreaker) (req fail succ rej : Z) (lf ls : time) : CircuitBreaker :=
  {| config := config cb; state := state cb; failures := failures cb; successes := successes cb;
     lastFailure := lf; lastSuccess := ls; lastStateTime := lastStateTime cb;
     totalRequests := req; totalFailures := fail; totalSuccesses := succ; rejectedCount := rej |}.

Definition count_request (cb : CircuitBreaker) : CircuitBreaker :=
  with_totals cb (totalRequests cb + 1) (totalFailures cb) (totalSuccesses cb) (rejectedCount cb)
    (lastFailure cb) (lastSuccess cb).
Definition count_rejected (cb : CircuitBreaker) : CircuitBreaker :=
  with_totals cb (totalRequests cb) (totalFailures cb) (totalSuccesses cb) (rejectedCount cb + 1)
    (lastFailure cb) (lastSuccess cb).
Definition count_success (cb : CircuitBreaker) (now : time) : CircuitBreaker :=
  with_totals cb (totalRequests cb) (totalFailures cb) (totalSuccesses cb + 1) (rejectedCount cb)
    (lastFailure cb) now.
Definition count_failure (cb : CircuitBreaker) (now : time) : CircuitBreaker :=
  with_totals cb (totalRequests cb) (totalFailures cb + 1) (totalSuccesses cb) (rejectedCount cb)
    now (lastSuccess cb).

Definition setState (cb : CircuitBreaker) (newState : State) (now : time) : CircuitBreaker :=
  if negb (bool_decide (state cb = newState)) then
    let cb := with_state cb newState now in
    match newState with
    | StateClosed => with_counts cb 0 0
    | StateHalfOpen => with_counts cb (failures cb) 0
    | StateOpen => cb
    end
  else cb.

Definition Allow (cb : CircuitBreaker) (now : time) : bool * CircuitBreaker :=
  let cb := count_request cb in
  match state cb with
  | StateClosed => (true, cb)
  | StateOpen =>
      if time_sub now (lastStateTime cb) >=? Timeout (config cb)
      then (true, setState cb StateHalfOpen now)
      else (false, count_rejected cb)
  | StateHalfOpen => (true, cb)
  end.

Definition RecordSuccess (cb : CircuitBreaker) (now : time) : CircuitBreaker :=
  let cb := count_success cb now in
  match state cb with
  | StateClosed => with_counts cb 0 (successes cb)
  | StateHalfOpen =>
      let cb := with_counts cb 0 (successes cb + 1) in
      if successes cb >=? SuccessThreshold (config cb) then setState cb StateClosed now else cb
  | StateOpen =>
      let cb := with_counts cb 0 1 in
      setState cb StateHalfOpen now
  end.

Definition RecordFailure (cb : CircuitBreaker) (now : time) : CircuitBreaker :=
  let cb := with_counts (count_failure cb now) (failures cb + 1) 0 in
  if failures cb >=? FailureThreshold (config cb) then
    match state cb with
    | StateClosed | StateHalfOpen => setState cb StateOpen now
    | StateOpen => cb
    end
  else cb.

Definition GetState (cb : CircuitBreaker) : State := state cb.

Definition Reset (cb : CircuitBreaker) (now : time) : CircuitBreaker :=
  with_counts (with_state cb StateClosed now) 0 0.

Record CircuitBreakerMetrics : Type := {
  m_State : State;
  m_TotalRequests : Z;
  m_TotalSuccesses : Z;
  m_TotalFailures : Z;
  m_RejectedCount : Z;
  m_Failures : Z;
  m_Successes : Z;
  m_LastFailure : time;
  m_LastSuccess : time;
  m_LastStateChange : time;
}.

Definition GetMetrics (cb : CircuitBreaker) : CircuitBreakerMetrics :=
  {| m_State := state cb; m_TotalRequests := totalRequests cb;
     m_TotalSuccesses := totalSuccesses cb; m_TotalFailures := totalFailures cb;
     m_RejectedCount := rejectedCount cb; m_Failures := failures cb; m_Successes := successes cb;
     m_LastFailure := lastFailure cb; m_LastSuccess := lastSuccess cb;
     m_LastStateChange := lastStateTime cb |}.

(** ** Executions *)

Inductive op : Type := OpAllow | OpSuccess | OpFailure | OpReset.

Definition step (o : op) (now : time) (cb : CircuitBreaker) : CircuitBreaker :=
  match o with
  | OpAllow => (Allow cb now).2
  | OpSuccess => RecordSuccess cb now
  | OpFailure => RecordFailure cb now
  | OpReset => Reset cb now
  end.

(** Method calls in the order in which they take the lock. *)
Fixpoint exec (tr : list (op * time)) (cb : CircuitBreaker) : CircuitBreaker :=
  match tr with
  | [] => cb
  | (o, now) :: tr' => exec tr' (step o now cb)
  end.

(** The answers that the [Allow] calls of a trace get. *)
Fixpoint answers (tr : list (op * time)) (cb : CircuitBreaker) : list bool :=
  match tr with
  | [] => []
  | (o, now) :: tr' =>
      (match o with OpAllow => [(Allow cb now).1] | _ => [] end) ++ answers tr' (step o now cb)
  end.

Inductive reachable (c : CircuitBreakerConfig) : CircuitBreaker -> Prop :=
| reachable_new now : reachable c (NewCircuitBreaker c now)
| reachable_step cb o now : reachable c cb -> reachable c (step o now cb).

(** ** Invariant *)

Record cb_inv (c : CircuitBreakerConfig) (cb : CircuitBreaker) : Prop := {
  inv_config : config cb = c;
  inv_nonneg : 0 <= failures cb /\ 0 <= successes cb;
  inv_closed : state cb = StateClosed -> failures cb < FailureThreshold c;
  inv_open : state cb = StateOpen -> FailureThreshold c <= failures cb;
  inv_half : state cb = StateHalfOpen -> successes cb < SuccessThreshold c;
  inv_probe : state cb = StateHalfOpen -> successes cb = 0 \/ failures cb = 0;
}.

Definition valid_config (c : CircuitBreakerConfig) : Prop :=
  1 <= FailureThreshold c /\ 1 <= SuccessThreshold c.

Ltac cb_unfold :=
  unfold step, Allow, RecordSuccess, RecordFailure, Reset, setState, count_request, count_rejected,
    count_success, count_failure, with_counts, with_state, with_totals in *; simpl in *.
(** Splits on the breaker's state and on every test of the method. *)
Ltac cb_cases cb :=
  cb_unfold; destruct (state cb) eqn:?; simpl in *;
  repeat (case_match; simpl in *); bool_to_prop; try congruence.

Lemma cb_inv_new c now : valid_config c -> cb_inv c (NewCircuitBreaker c now).
Proof. intros [? ?]. constructor; simpl; done || lia. Qed.

Lemma cb_inv_step c cb o now : valid_config c -> cb_inv c cb -> cb_inv c (step o now cb).
Proof.
  intros [Hf Hs] [Hc [Hn1 Hn2] H1 H2 H3 H4]. destruct o.
  all: cb_cases cb; repeat match goal with H : ?x = ?x -> _ |- _ => specialize (H eq_refl) end.
  all: constructor; simpl; rewrite ?Hc in *; try done; try congruence; intros; try lia.
Qed.

Lemma cb_inv_reachable c cb : valid_config c -> reachable c cb -> cb_inv c cb.
Proof. induction 2; auto using cb_inv_new, cb_inv_step. Qed.

(** ** Behaviour over sequences of calls *)

Lemma exec_app tr1 tr2 cb : exec (tr1 ++ tr2) cb = exec tr2 (exec tr1 cb).
Proof. revert cb; induction tr1 as [|[o t] tr1 IH]; intros; simpl; auto. Qed.

Lemma step_config o now cb : config (step o now cb) = config cb.
Proof. destruct o; cb_cases cb; done. Qed.

(** One failure: the streak grows and the breaker opens when it reaches the
    threshold. *)
Lemma RecordFailure_closed cb now :
  state cb = StateClosed ->
  (failures cb + 1 < FailureThreshold (config cb) ->
     state (RecordFailure cb now) = StateClosed /\ failures (RecordFailure cb now) = failures cb + 1) /\
  (FailureThreshold (config cb) <= failures cb + 1 ->
     state (RecordFailure cb now) = StateOpen /\ lastStateTime (RecordFailure cb now) = now).
Proof. intros Hs. cb_cases cb; split; intros; try split; try done; lia. Qed.

Lemma RecordFailure_open cb now :
  state cb = StateOpen ->
  state (RecordFailure cb now) = StateOpen /\ lastStateTime (RecordFailure cb now) = lastStateTime cb.
Proof. intros Hs. cb_cases cb; done. Qed.

Lemma RecordSuccess_half cb now :
  state cb = StateHalfOpen ->
  (successes cb + 1 < SuccessThreshold (config cb) ->
     state (RecordSuccess cb now) = StateHalfOpen /\ successes (RecordSuccess cb now) = successes cb + 1) /\
  (SuccessThreshold (config cb) <= successes cb + 1 ->
     state (RecordSuccess cb now) = StateClosed /\ failures (RecordSuccess cb now) = 0).
Proof. intros Hs. cb_cases cb; split; intros; try split; try done; lia. Qed.

Lemma RecordSuccess_closed cb now : state cb = StateClosed -> state (RecordSuccess cb now) = StateClosed.
Proof. intros Hs. cb_cases cb; done. Qed.

Definition all_of (o : op) (ts : list time) : list (op * time) := (fun t => (o, t)) <$> ts.

(** In every state the breaker can reach, its counters agree with its
    state: while closed the failure streak is below the failure threshold,
    while open it is at least the threshold, and while half-open fewer than
    the required successes have been seen and a success streak means the
    failure streak was cleared. *)
Theorem breaker_counters_agree_with_state c cb :
  valid_config c -> reachable c cb -> cb_inv c cb.
Proof. apply cb_inv_reachable. Qed.

Lemma breaker_counters_agree_with_state_witness :
  cb_inv DefaultCircuitBreakerConfig
    (step OpFailure 7 (NewCircuitBreaker DefaultCircuitBreakerConfig 0)).
Proof.
  apply breaker_counters_agree_with_state.
  - vm_compute; split; discriminate.
  - apply reachable_step, reachable_new.
Defined.

(** A closed breaker opens exactly when the current failure streak
    reaches the failure threshold: after [n] further failures in a row it is
    still closed, with the streak grown by [n], if that is below the
    threshold, and open otherwise. *)
Theorem breaker_opens_at_threshold cb ts :
  state cb = StateClosed -> failures cb < FailureThreshold (config cb) ->
  let cb' := exec (all_of OpFailure ts) cb in
  if failures cb + Z.of_nat (length ts) <? FailureThreshold (config cb)
  then state cb' = StateClosed /\ failures cb' = failures cb + Z.of_nat (length ts)
  else state cb' = StateOpen.
Proof.
  revert cb. induction ts as [|t ts IH]; intros cb Hs Hf; simpl.
  - rewrite Z.add_0_r. by rewrite (proj2 (Z.ltb_lt _ _)).
  - destruct (RecordFailure_closed cb t Hs) as [Hlt Hge].
    pose proof (step_config OpFailure t cb) as Hc; simpl in Hc.
    destruct (Z.ltb_spec (failures cb + 1) (FailureThreshold (config cb))) as [Hl|Hl].
    + destruct (Hlt Hl) as [Hs' Hf']. specialize (IH (RecordFailure cb t) Hs').
      rewrite Hf', Hc in IH. specialize (IH Hl).
      replace (failures cb + Z.of_nat (S (length ts))) with (failures cb + 1 + Z.of_nat (length ts)) by lia.
      exact IH.
    + destruct (Z.ltb_spec (failures cb + Z.of_nat (S (length ts))) (FailureThreshold (config cb))); [lia|].
      destruct (Hge Hl) as [Hs' _]. revert Hs'. generalize (RecordFailure cb t). clear.
      induction ts as [|u ts IH]; intros cb Hs; simpl; [done|].
      apply IH. by apply RecordFailure_open.
Qed.

Lemma breaker_opens_at_threshold_witness :
  state (exec (all_of OpFailure [1; 2; 3; 4; 5]) (NewCircuitBreaker DefaultCircuitBreakerConfig 0))
  = StateOpen.
Proof.
  exact (breaker_opens_at_threshold (NewCircuitBreaker DefaultCircuitBreakerConfig 0) [1; 2; 3; 4; 5]
           eq_refl eq_refl).
Defined.

(** Once open, the breaker admits no request before its timeout has
    elapsed since it opened: every [Allow] made in that period, whatever
    failures are reported in between, is refused, and the breaker stays open
    since the same instant. *)
Theorem breaker_open_rejects_until_timeout cb tr :
  state cb = StateOpen ->
  Forall (fun '(o, t) => (o = OpAllow \/ o = OpFailure) /\
            time_sub t (lastStateTime cb) < Timeout (config cb)) tr ->
  Forall (fun b => b = false) (answers tr cb) /\
  state (exec tr cb) = StateOpen /\ lastStateTime (exec tr cb) = lastStateTime cb.
Proof.
  intros Hs HF. revert cb Hs HF.
  induction tr as [|[o t] tr IH]; intros cb Hs HF; simpl; [done|].
  rewrite Forall_cons in HF. destruct HF as [[Ho Ht] HF].
  assert (Hst : state (step o t cb) = StateOpen /\
                lastStateTime (step o t cb) = lastStateTime cb /\
                (o = OpAllow -> (Allow cb t).1 = false)).
  { destruct Ho as [-> | ->]; cb_cases cb; split_and!; try done; lia. }
  destruct Hst as (Hs' & Hl & Ha).
  destruct (IH (step o t cb) Hs') as (IH1 & IH2 & IH3).
  { by rewrite Hl, step_config. }
  rewrite IH2, IH3, Hl. split_and!; [|done..].
  apply Forall_app; split; [|done]. destruct o; try done. by repeat constructor; apply Ha.
Qed.

Lemma breaker_open_rejects_until_timeout_witness :
  Forall (fun b => b = false)
    (answers [(OpAllow, 10); (OpFailure, 11); (OpAllow, 12)]
       (with_state (NewCircuitBreaker DefaultCircuitBreakerConfig 0) StateOpen 5)).
Proof.
  refine (proj1 (breaker_open_rejects_until_timeout
    (with_state (NewCircuitBreaker DefaultCircuitBreakerConfig 0) StateOpen 5)
    [(OpAllow, 10); (OpFailure, 11); (OpAllow, 12)] eq_refl _)).
  repeat constructor; tauto || reflexivity.
Defined.

Lemma successes_keep_closed ts p :
  state p = StateClosed -> failures p = 0 ->
  state (exec (all_of OpSuccess ts) p) = StateClosed /\ failures (exec (all_of OpSuccess ts) p) = 0.
Proof.
  revert p. induction ts as [|v ts IH]; intros p Hs Hf; simpl; [done|].
  apply IH; [by apply RecordSuccess_closed|]. cb_cases p; done.
Qed.

(** A half-open breaker closes exactly at the success threshold. *)
Lemma half_open_successes c ts p :
  state p = StateHalfOpen -> config p = c -> successes p < SuccessThreshold c ->
  let p' := exec (all_of OpSuccess ts) p in
  if successes p + Z.of_nat (length ts) <? SuccessThreshold c
  then state p' = StateHalfOpen else state p' = StateClosed /\ failures p' = 0.
Proof.
  revert p. induction ts as [|u ts IH]; intros p Hs Hc Hl; simpl.
  - rewrite Z.add_0_r. by rewrite (proj2 (Z.ltb_lt _ _)).
  - destruct (RecordSuccess_half p u Hs) as [Hlt Hge]. rewrite Hc in *.
    pose proof (step_config OpSuccess u p) as Hc'; simpl in Hc'.
    replace (successes p + Z.of_nat (S (length ts))) with (successes p + 1 + Z.of_nat (length ts)) by lia.
    destruct (Z.ltb_spec (successes p + 1) (SuccessThreshold c)) as [Hx|Hx].
    + destruct (Hlt Hx) as [Hs' Hn']. specialize (IH (RecordSuccess p u) Hs').
      rewrite Hn' in IH. apply IH; congruence.
    + destruct (Z.ltb_spec (successes p + 1 + Z.of_nat (length ts)) (SuccessThreshold c)); [lia|].
      destruct (Hge Hx) as [Hs' Hf']. by apply successes_keep_closed.
Qed.

(** Recovery. When the timeout has elapsed the next request is admitted
    as a probe; if its outcome is a failure the breaker opens again at once
    for a full timeout, and if the configured number of successes follow
    instead the breaker closes with a clean failure streak, not earlier. *)
Theorem breaker_probe_decides c cb now t ts :
  valid_config c -> reachable c cb -> state cb = StateOpen ->
  Timeout c <= time_sub now (lastStateTime cb) ->
  (Allow cb now).1 = true /\
  (let probed := (Allow cb now).2 in
   state probed = StateHalfOpen /\
   (state (RecordFailure probed t) = StateOpen /\ lastStateTime (RecordFailure probed t) = t) /\
   (let cb' := exec (all_of OpSuccess ts) probed in
    if Z.of_nat (length ts) <? SuccessThreshold c
    then state cb' = StateHalfOpen
    else state cb' = StateClosed /\ failures cb' = 0)).
Proof.
  intros Hv Hr Hs Ht. pose proof (cb_inv_reachable c cb Hv Hr) as [Hc Hn _ Hopen _ _].
  specialize (Hopen Hs).
  assert (Hprobe : (Allow cb now).1 = true /\ state (Allow cb now).2 = StateHalfOpen /\
    successes (Allow cb now).2 = 0 /\ failures (Allow cb now).2 = failures cb /\
    config (Allow cb now).2 = c).
  { cb_cases cb; rewrite ?Hc in *; split_and!; try done; lia. }
  destruct Hprobe as (H1 & H2 & H3 & H4 & H5). split; [done|]. split; [done|].
  generalize dependent (Allow cb now).2. intros p H2 H3 H4 H5. split.
  - cb_cases p; rewrite ?H5 in *; try done; lia.
  - pose proof (half_open_successes c ts p H2 H5) as Hg. rewrite H3 in Hg. apply Hg.
    unfold valid_config in Hv. lia.
Qed.

Lemma breaker_probe_decides_witness :
  let cb := exec (all_of OpFailure [1; 2; 3; 4; 5]) (NewCircuitBreaker DefaultCircuitBreakerConfig 0) in
  (Allow cb (61 * second)).1 = true.
Proof.
  refine (proj1 (breaker_probe_decides DefaultCircuitBreakerConfig
    (exec (all_of OpFailure [1; 2; 3; 4; 5]) (NewCircuitBreaker DefaultCircuitBreakerConfig 0))
    (61 * second) 0 [] _ _ _ _)).
  - vm_compute; split; discriminate.
  - repeat (apply reachable_step with (o := OpFailure)). apply reachable_new.
  - vm_compute; reflexivity.
  - vm_compute; discriminate.
Defined.

Definition is_op (o : op) (e : op * time) : bool :=
  match o, e.1 with
  | OpAllow, OpAllow | OpSuccess, OpSuccess | OpFailure, OpFailure | OpReset, OpReset => true
  | _, _ => false
  end.
Definition count_ops (o : op) (tr : list (op * time)) : Z := Z.of_nat (length (List.filter (is_op o) tr)).
Definition refused (bs : list bool) : Z := Z.of_nat (length (List.filter negb bs)).

(** The metrics of a breaker after any sequence of calls account for
    every call: requests, successes and failures are the numbers of calls
    made, and the rejected count is the number of [Allow] calls that were
    answered no. *)
Theorem breaker_metrics_account c t0 tr :
  let m := GetMetrics (exec tr (NewCircuitBreaker c t0)) in
  m_TotalRequests m = count_ops OpAllow tr /\
  m_TotalSuccesses m = count_ops OpSuccess tr /\
  m_TotalFailures m = count_ops OpFailure tr /\
  m_RejectedCount m = refused (answers tr (NewCircuitBreaker c t0)).
Proof.
  enough (H : forall cb, let m := GetMetrics (exec tr cb) in
    m_TotalRequests m = totalRequests cb + count_ops OpAllow tr /\
    m_TotalSuccesses m = totalSuccesses cb + count_ops OpSuccess tr /\
    m_TotalFailures m = totalFailures cb + count_ops OpFailure tr /\
    m_RejectedCount m = rejectedCount cb + refused (answers tr cb)).
  { apply H. }
  unfold count_ops, refused.
  induction tr as [|[o t] tr IH]; intros cb; [simpl; lia|].
  destruct (IH (step o t cb)) as (E1 & E2 & E3 & E4). cbn [exec answers].
  rewrite E1, E2, E3, E4. clear.
  destruct o; cb_cases cb; lia.
Qed.

(** A success reported while the breaker is open (a request admitted before it
    opened) moves it to half-open with no success counted, although the code's
    comment says it is treated as a half-open success. *)
Lemma late_success_is_not_counted cb now :
  state cb = StateOpen ->
  state (RecordSuccess cb now) = StateHalfOpen /\ successes (RecordSuccess cb now) = 0.
Proof. intros Hs. cb_cases cb; done. Qed.
