(* ===== verification/SignedHeaders.v ===== *)
(** internal/platform/crypto/session.go and identity.go: the canonical
    payloads of signed header sets, and their signatures. *)

From Stdlib Require Import Ascii String.
From S2P Require Import Prelude GoStrings GoEncoding GoSha256 PlatformCrypto GoHttp.

Local Open Scope string_scope.

(** One line of the session payload. *)
Definition session_line (headers : gmap string string) (key : string) : string :=
  ToLower (TrimSpace key) +:+ ":" +:+ TrimSpace (default "" (headers !! key)).

Definition CanonicalSessionContextPayload (headers : gmap string string) : string :=
  let keys := sort_Strings (map fst (map_to_list headers)) in
  Join (map (session_line headers) keys) nl.

Definition SignSessionContextHeaders (secret : string) (headers : gmap string string) (now : time)
    : result crypto_error string :=
  SignEnvelope sessionContextEnvelopeKind secret (CanonicalSessionContextPayload headers) now.

Definition VerifySessionContextHeaders (secret : string) (headers : gmap string string)
    (envelope : string) (now : time) : bool :=
  VerifyEnvelope sessionContextEnvelopeKind secret (CanonicalSessionContextPayload headers)
    envelope defaultSessionEnvelopeTTL now.

(** The lines of an allowlist of headers; empty values are left out. *)
Fixpoint header_lines (h : header) (signedHeaders : list string) : list string :=
  match signedHeaders with
  | [] => []
  | name :: rest =>
      let value := TrimSpace (Header_Get h name) in
      if String.eqb value "" then header_lines h rest
      else (ToLower (TrimSpace name) +:+ ":" +:+ value) :: header_lines h rest
  end.

Definition CanonicalHeaderPayload (h : header) (signedHeaders : list string) : string :=
  Join (sort_Strings (header_lines h signedHeaders)) nl.

Definition SignIdentityHeaders (secret : string) (h : header) (signedHeaders : list string) (now : time)
    : result crypto_error string :=
  let payload := CanonicalHeaderPayload h signedHeaders in
  if String.eqb payload "" then Ok ""
  else SignEnvelope identityEnvelopeKind secret payload now.

Definition VerifyIdentityHeaders (secret : string) (h : header) (signedHeaders : list string)
    (envelope : string) (maxAge : duration) (now : time) : bool :=
  VerifyEnvelope identityEnvelopeKind secret (CanonicalHeaderPayload h signedHeaders) envelope maxAge now.

(** ** Freshness in wall-clock terms *)

Lemma fresh_window maxAge t0 t1 :
  in_int64 (time_unix t0) -> in_int64 (time_unix t1) -> in_int64 maxAge ->
  (time_unix t0 <= time_unix t1)%Z ->
  (time_unix t1 - time_unix t0 <= max_age_seconds maxAge)%Z ->
  fresh (max_age_seconds maxAge) (time_unix t1) (time_unix t0).
Proof.
  intros H0 H1 Hm Hle Hage. right. split; [done|].
  assert (0 <= max_age_seconds maxAge <= int64_max)%Z.
  { unfold max_age_seconds. destruct (Z.ltb_spec 0 maxAge); [|unfold int64_max; lia].
    unfold in_int64 in Hm. split; [apply Z.quot_pos; unfold second; lia|].
    transitivity maxAge; [|lia]. apply Z.quot_le_upper_bound; unfold second; lia. }
  rewrite !wrap64_id; [done|..]; unfold in_int64, int64_min, int64_max in *; lia.
Qed.

Lemma VerifyEnvelope_sign kind secret payload t0 t1 maxAge :
  secret <> "" -> in_int64 (time_unix t0) -> in_int64 (time_unix t1) -> in_int64 maxAge ->
  (time_unix t0 <= time_unix t1)%Z ->
  (time_unix t1 - time_unix t0 <= max_age_seconds maxAge)%Z ->
  exists env, SignEnvelope kind secret payload t0 = Ok env /\
              VerifyEnvelope kind secret payload env maxAge t1 = true.
Proof. intros. apply envelope_round_trip; auto using fresh_window. Qed.

(** Header sets with the same canonical payload are interchangeable for the
    verifier, and only those are: a signature accepted for one set fixes the
    payload of every set it is accepted for. *)
Lemma VerifyIdentityHeaders_payload secret h h' names names' env maxAge now :
  CanonicalHeaderPayload h names = CanonicalHeaderPayload h' names' ->
  VerifyIdentityHeaders secret h names env maxAge now =
  VerifyIdentityHeaders secret h' names' env maxAge now.
Proof. unfold VerifyIdentityHeaders. by intros ->. Qed.
