(* ===== verification/Session.v ===== *)
(** core/session/session.go: sessions, their assurance levels and the session
    manager over the tables [core_sessions] and [core_session_auth_methods]
    (core/migrations/0002 and 0008).

    [AAL] and [AuthMethod] are Go string types and stay strings.  Operations
    take the clock readings ([now] is the manager's clock, [dbnow] the
    database's [NOW()]), the generated identifier and the random bytes they
    consume as arguments. *)

From Stdlib Require Import Ascii String.
From S2P Require Import Prelude GoStrings GoEncoding GoSha256 PlatformCrypto GoHttp.

Local Open Scope string_scope.

(** ** Errors and data *)

Inductive session_error : Type :=
| ErrSessionNotFound
| ErrSessionExpired
| ErrSessionInvalid
| errTokenEntropyFailure
| errSessionDBUnavailable
| SessionDb (e : db_error).

#[global] Instance session_dberr : DbErr session_error := SessionDb.

Abbreviation AAL := string (only parsing).
Definition AAL0 : AAL := "aal0".
Definition AAL1 : AAL := "aal1".
Definition AAL2 : AAL := "aal2".

Abbreviation AuthMethod := string (only parsing).
Definition AuthMethodPassword : AuthMethod := "password".
Definition AuthMethodTOTP : AuthMethod := "totp".
Definition AuthMethodWebAuthn : AuthMethod := "webauthn".
Definition AuthMethodMagicLink : AuthMethod := "magic_link".
Definition AuthMethodSocial : AuthMethod := "social".
Definition AuthMethodSAML : AuthMethod := "saml".
Definition AuthMethodPasskey : AuthMethod := "passkey".
Definition AuthMethodSMS : AuthMethod := "sms".
Definition AuthMethodBackup : AuthMethod := "backup_code".

Record SessionAuthMethod : Type := {
  am_Method : AuthMethod;
  am_AALContrib : AAL;
  am_CompletedAt : time;
}.

Record DeviceInfo : Type := {
  dev_UserAgent : string;
  dev_IPAddress : string;
  dev_Location : string;
}.

Record Session : Type := {
  ID : uuid;
  Token : string;
  IdentityID : uuid;
  SessionAAL : AAL;
  IssuedAt : time;
  ExpiresAt : time;
  AuthenticatedAt : time;
  LogoutToken : string;
  Devices : list DeviceInfo;
  Active : bool;
  IsImpersonation : bool;
  ImpersonatorID : option uuid;
  AuthMethods : list SessionAuthMethod;
  CreatedAt : time;
  UpdatedAt : time;
}.

Record CookieConfig : Type := {
  ck_Name : string;
  ck_Path : string;
  ck_Domain : string;
  ck_SameSite : Z;
  ck_Secure : bool;
  ck_HTTPOnly : bool;
}.

(** The manager's configuration; [m_db] says whether a pool was supplied. *)
Record SessionManager : Type := {
  m_db : bool;
  m_cookieSecret : string;
  m_cookieConfig : CookieConfig;
  m_lifespan : duration;
  m_idleTimeout : duration;
  m_cleanupExpiredAfter : duration;
  m_cleanupInactiveAfter : duration;
}.

(** ** Tables *)

(** A row of [core_sessions]; [row_token] and [row_logout_token] are the
    nullable clear-text columns kept for migrated rows. *)
Record session_row : Type := {
  row_token : option string;
  row_token_hash : string;
  row_token_prefix : string;
  row_identity : uuid;
  row_aal : AAL;
  row_issued : time;
  row_expires : time;
  row_authenticated : time;
  row_logout_token : option string;
  row_logout_hash : string;
  row_logout_prefix : string;
  row_devices : list DeviceInfo;
  row_active : bool;
  row_impersonation : bool;
  row_impersonator : option uuid;
  row_created : time;
  row_updated : time;
}.

Record session_db : Type := {
  t_sessions : gmap N session_row;
  t_methods : list (N * SessionAuthMethod);
}.

Definition aal_check (a : AAL) : bool := existsb (String.eqb a) [AAL0; AAL1; AAL2].
Definition contrib_check (a : AAL) : bool := existsb (String.eqb a) [AAL1; AAL2].
Definition method_check (m : AuthMethod) : bool :=
  existsb (String.eqb m) ["password"; "totp"; "webauthn"; "magic_link"; "social"; "saml"; "passkey";
                          "sms"; "backup_code"].

Definition hash_taken (h : string) (rows : gmap N session_row) : bool :=
  existsb (fun p => String.eqb (row_token_hash p.2) h) (map_to_list rows).
Definition logout_hash_taken (h : string) (rows : gmap N session_row) : bool :=
  existsb (fun p => String.eqb (row_logout_hash p.2) h) (map_to_list rows).

(** [INSERT INTO core_sessions]: primary key, the unique indexes of migration
    0008 and the check on [aal]. *)
Definition insert_session (id : uuid) (row : session_row) (db : session_db)
    : result db_error (unit * session_db) :=
  if negb (aal_check (row_aal row)) then Err (CheckViolation "core_sessions_aal_check")
  else if bool_decide (is_Some (t_sessions db !! id)) then Err (UniqueViolation "core_sessions_pkey")
  else if hash_taken (row_token_hash row) (t_sessions db)
  then Err (UniqueViolation "idx_core_sessions_token_hash")
  else if logout_hash_taken (row_logout_hash row) (t_sessions db)
  then Err (UniqueViolation "idx_core_sessions_logout_token_hash")
  else Ok (tt, {| t_sessions := <[id := row]> (t_sessions db); t_methods := t_methods db |}).

(** [INSERT INTO core_session_auth_methods]: the two checks and the foreign key. *)
Definition insert_method (id : uuid) (am : SessionAuthMethod) (db : session_db)
    : result db_error (unit * session_db) :=
  if negb (method_check (am_Method am)) then Err (CheckViolation "core_session_auth_methods_method_check")
  else if negb (contrib_check (am_AALContrib am)) then Err (CheckViolation "core_session_auth_methods_aal_check")
  else if bool_decide (is_Some (t_sessions db !! id))
  then Ok (tt, {| t_sessions := t_sessions db; t_methods := (t_methods db ++ [(id, am)])%list |})
  else Err (ForeignKeyViolation "core_session_auth_methods_session_id_fkey").

Definition set_active (row : session_row) (b : bool) (t : time) : session_row :=
  {| row_token := row_token row; row_token_hash := row_token_hash row;
     row_token_prefix := row_token_prefix row; row_identity := row_identity row; row_aal := row_aal row;
     row_issued := row_issued row; row_expires := row_expires row;
     row_authenticated := row_authenticated row; row_logout_token := row_logout_token row;
     row_logout_hash := row_logout_hash row; row_logout_prefix := row_logout_prefix row;
     row_devices := row_devices row; row_active := b; row_impersonation := row_impersonation row;
     row_impersonator := row_impersonator row; row_created := row_created row; row_updated := t |}.
Definition set_expires (row : session_row) (e : time) (t : time) : session_row :=
  {| row_token := row_token row; row_token_hash := row_token_hash row;
     row_token_prefix := row_token_prefix row; row_identity := row_identity row; row_aal := row_aal row;
     row_issued := row_issued row; row_expires := e;
     row_authenticated := row_authenticated row; row_logout_token := row_logout_token row;
     row_logout_hash := row_logout_hash row; row_logout_prefix := row_logout_prefix row;
     row_devices := row_devices row; row_active := row_active row;
     row_impersonation := row_impersonation row;
     row_impersonator := row_impersonator row; row_created := row_created row; row_updated := t |}.
Definition set_aal (row : session_row) (a : AAL) (auth t : time) : session_row :=
  {| row_token := row_token row; row_token_hash := row_token_hash row;
     row_token_prefix := row_token_prefix row; row_identity := row_identity row; row_aal := a;
     row_issued := row_issued row; row_expires := row_expires row;
     row_authenticated := auth; row_logout_token := row_logout_token row;
     row_logout_hash := row_logout_hash row; row_logout_prefix := row_logout_prefix row;
     row_devices := row_devices row; row_active := row_active row;
     row_impersonation := row_impersonation row;
     row_impersonator := row_impersonator row; row_created := row_created row; row_updated := t |}.

Definition upd_sessions (f : gmap N session_row -> gmap N session_row) (db : session_db) : session_db :=
  {| t_sessions := f (t_sessions db); t_methods := t_methods db |}.

(** ** Assurance levels *)

Definition methodToAAL (method : AuthMethod) : AAL :=
  if existsb (String.eqb method)
       [AuthMethodPassword; AuthMethodMagicLink; AuthMethodSocial; AuthMethodSAML; AuthMethodPasskey]
  then AAL1
  else if existsb (String.eqb method)
       [AuthMethodTOTP; AuthMethodWebAuthn; AuthMethodSMS; AuthMethodBackup]
  then AAL2
  else AAL0.

Definition computeAAL (current contrib : AAL) : AAL :=
  if String.eqb current AAL1 && String.eqb contrib AAL2 then AAL2
  else if String.eqb current AAL0 || String.eqb current "" then contrib
  else current.

(** ** The manager *)

Module Manager.

Abbreviation SM := (M session_db session_error).

(** [ManagerConfig] with the defaults of [NewManager]. *)
Definition NewManager (hasDB : bool) (cookieSecret : string) (cookieConfig : CookieConfig)
    (lifespan idleTimeout cleanupExpiredAfter cleanupInactiveAfter : duration) : SessionManager :=
  {| m_db := hasDB; m_cookieSecret := cookieSecret; m_cookieConfig := cookieConfig;
     m_lifespan := lifespan; m_idleTimeout := idleTimeout;
     m_cleanupExpiredAfter :=
       if (cleanupExpiredAfter <=? 0)%Z then (7 * 24 * hour)%Z else cleanupExpiredAfter;
     m_cleanupInactiveAfter :=
       if (cleanupInactiveAfter <=? 0)%Z then (24 * hour)%Z else cleanupInactiveAfter |}.

(** [execStmt]/[queryRowFn]/[queryRows] as [NewManager] wires them. *)
Definition stmt {A} (m : SessionManager) (s : session_db -> result db_error (A * session_db)) : SM A :=
  if m_db m then db_stmt s else throw errSessionDBUnavailable.
Definition tx {A} (m : SessionManager) (body : SM A) : SM A :=
  if m_db m then db_tx body else throw errSessionDBUnavailable.

(** [rand] is what the entropy source returns for 32 bytes. *)
Definition generateToken (rand : option string) : result session_error string :=
  match rand with
  | None => Err errTokenEntropyFailure
  | Some b => Ok (b64url_Encode b)
  end.

Definition sessionLookupPrefixLength : Z := secrettoken.DefaultLookupPrefixLength.

Definition row_of_session (s : Session) : session_row :=
  {| row_token := None;
     row_token_hash := secrettoken.Hash (Token s);
     row_token_prefix := secrettoken.Prefix (Token s) sessionLookupPrefixLength;
     row_identity := IdentityID s; row_aal := SessionAAL s; row_issued := IssuedAt s;
     row_expires := ExpiresAt s; row_authenticated := AuthenticatedAt s;
     row_logout_token := None;
     row_logout_hash := secrettoken.Hash (LogoutToken s);
     row_logout_prefix := secrettoken.Prefix (LogoutToken s) sessionLookupPrefixLength;
     row_devices := Devices s; row_active := Active s; row_impersonation := IsImpersonation s;
     row_impersonator := ImpersonatorID s; row_created := CreatedAt s; row_updated := UpdatedAt s |}.

Definition Create (m : SessionManager) (identityID : uuid) (method : AuthMethod) (device : DeviceInfo)
    (now : time) (newID : uuid) (rand1 rand2 : option string) : SM Session :=
  token ← lift_result (generateToken rand1);
  logoutToken ← lift_result (generateToken rand2);
  let methodAAL := methodToAAL method in
  let initialAAL := if String.eqb methodAAL AAL2 then AAL1 else methodAAL in
  let session :=
    {| ID := newID; Token := token; IdentityID := identityID; SessionAAL := initialAAL;
       IssuedAt := now; ExpiresAt := time_add now (m_lifespan m); AuthenticatedAt := now;
       LogoutToken := logoutToken; Devices := [device]; Active := true;
       IsImpersonation := false; ImpersonatorID := None;
       AuthMethods := [{| am_Method := method; am_AALContrib := methodAAL; am_CompletedAt := now |}];
       CreatedAt := now; UpdatedAt := now |} in
  _ ← stmt m (insert_session newID (row_of_session session));
  _ ← stmt m (insert_method newID
       {| am_Method := method; am_AALContrib := methodAAL; am_CompletedAt := now |});
  mret session.

(** The active row with the given hash and prefix that was created last. *)
Definition token_match (hash prefix : string) (row : session_row) : bool :=
  row_active row && String.eqb (row_token_hash row) hash && String.eqb (row_token_prefix row) prefix.

Fixpoint latest (rows : list (N * session_row)) (best : option (N * session_row))
    : option (N * session_row) :=
  match rows with
  | [] => best
  | r :: rows' =>
      match best with
      | Some b => latest rows' (if (row_created b.2 <? row_created r.2)%Z then Some r else Some b)
      | None => latest rows' (Some r)
      end
  end.

Definition select_by_token (hash prefix : string) (db : session_db)
    : result db_error ((N * session_row) * session_db) :=
  match latest (List.filter (fun p => token_match hash prefix p.2) (map_to_list (t_sessions db))) None with
  | Some r => Ok (r, db)
  | None => Err NoRows
  end.

(** [ORDER BY completed_at]. *)
Fixpoint insert_by_completed (x : SessionAuthMethod) (l : list SessionAuthMethod) :=
  match l with
  | [] => [x]
  | y :: ys => if (am_CompletedAt x <? am_CompletedAt y)%Z then x :: l else y :: insert_by_completed x ys
  end.
Definition sort_by_completed (l : list SessionAuthMethod) : list SessionAuthMethod :=
  fold_left (fun acc x => insert_by_completed x acc) l [].

Definition methods_of (id : uuid) (ms : list (N * SessionAuthMethod)) : list SessionAuthMethod :=
  map snd (List.filter (fun p => (p.1 =? id)%N) ms).

Definition select_methods (id : uuid) (db : session_db)
    : result db_error (list SessionAuthMethod * session_db) :=
  Ok (sort_by_completed (methods_of id (t_methods db)), db).

Definition session_of_row (token : string) (id : uuid) (row : session_row) (ms : list SessionAuthMethod) : Session :=
  {| ID := id; Token := token; IdentityID := row_identity row; SessionAAL := row_aal row;
     IssuedAt := row_issued row; ExpiresAt := row_expires row; AuthenticatedAt := row_authenticated row;
     LogoutToken := default "" (row_logout_token row); Devices := row_devices row; Active := row_active row;
     IsImpersonation := row_impersonation row; ImpersonatorID := row_impersonator row;
     AuthMethods := ms; CreatedAt := row_created row; UpdatedAt := row_updated row |}.

(** A missing row is reported as [ErrSessionNotFound], any other driver error
    as it is; [now1] and [now2] are the two clock readings of the checks. *)
Definition not_found {A} (m : SM A) : SM A :=
  M_try m (fun r => match r with
                    | Err (SessionDb NoRows) => throw ErrSessionNotFound
                    | r => lift_result r
                    end).

Definition Get (m : SessionManager) (token : string) (now1 now2 : time) : SM Session :=
  let tokenHash := secrettoken.Hash token in
  let tokenPrefix := secrettoken.Prefix token sessionLookupPrefixLength in
  '(id, row) ← not_found (stmt m (select_by_token tokenHash tokenPrefix));
  if time_after now1 (row_expires row) then throw ErrSessionExpired
  else if ((0 <? m_idleTimeout m)%Z && time_after now2 (time_add (row_updated row) (m_idleTimeout m)))
  then throw ErrSessionExpired
  else
    ms ← stmt m (select_methods id);
    mret (session_of_row token id row ms).

Definition Revoke (m : SessionManager) (sessionID : uuid) (dbnow : time) : SM unit :=
  stmt m (fun db => Ok (tt, upd_sessions (alter (fun row => set_active row false dbnow) sessionID) db)).

Definition RevokeAllForIdentity (m : SessionManager) (identityID : uuid) (dbnow : time) : SM unit :=
  stmt m (fun db => Ok (tt, upd_sessions (fmap (fun row =>
    if (row_identity row =? identityID)%N && row_active row then set_active row false dbnow else row)) db)).

Definition Extend (m : SessionManager) (sessionID : uuid) (now dbnow : time) : SM unit :=
  let newExpiry := time_add now (m_lifespan m) in
  stmt m (fun db => Ok (tt, upd_sessions (alter (fun row =>
    if row_active row then set_expires row newExpiry dbnow else row) sessionID) db)).

Definition AddAuthMethod (m : SessionManager) (sessionID : uuid) (method : AuthMethod)
    (now dbnow : time) : SM unit :=
  let aalContrib := methodToAAL method in
  tx m (
    _ ← db_stmt (insert_method sessionID
          {| am_Method := method; am_AALContrib := aalContrib; am_CompletedAt := now |});
    currentAAL ← db_stmt (fun db =>
        match t_sessions db !! sessionID with
        | Some row => Ok (row_aal row, db)
        | None => Err NoRows
        end);
    let newAAL := computeAAL currentAAL aalContrib in
    if negb (String.eqb newAAL currentAAL) then
      db_stmt (fun db => Ok (tt, upd_sessions (alter (fun row => set_aal row newAAL now dbnow) sessionID) db))
    else mret tt).

(** [DELETE ... WHERE expires_at < NOW() - e OR (active = FALSE AND updated_at
    < NOW() - i)], with the cascade to the methods. *)
Definition cleanup_row (m : SessionManager) (dbnow : time) (row : session_row) : bool :=
  (row_expires row <? dbnow - m_cleanupExpiredAfter m)%Z ||
  (negb (row_active row) && (row_updated row <? dbnow - m_cleanupInactiveAfter m)%Z).

Definition delete_sessions (p : session_row -> bool) (db : session_db) : Z * session_db :=
  let kept := filter (fun '(_, row) => p row = false) (t_sessions db) in
  (Z.of_nat (size (t_sessions db) - size kept),
   {| t_sessions := kept;
      t_methods := List.filter (fun q => bool_decide (is_Some (kept !! q.1))) (t_methods db) |}).

Definition Cleanup (m : SessionManager) (dbnow : time) : SM Z :=
  stmt m (fun db => Ok (delete_sessions (cleanup_row m dbnow) db)).

(** ** Cookies and requests *)

Record Cookie : Type := {
  c_Name : string;
  c_Value : string;
  c_Path : string;
  c_Domain : string;
  c_SameSite : Z;
  c_Secure : bool;
  c_HttpOnly : bool;
  c_MaxAge : Z;
  c_Expires : time;
}.

Definition signToken (m : SessionManager) (token : string) (now : time) : string :=
  match SignSessionCookieValue (m_cookieSecret m) token now with
  | Ok signed => signed
  | Err _ => ""
  end.

Definition verifySignedToken (m : SessionManager) (signed : string) (now : time) : result session_error string :=
  match VerifySessionCookieValue (m_cookieSecret m) signed (m_lifespan m) now with
  | Ok token => Ok token
  | Err _ => Err ErrSessionInvalid
  end.

(** [http.SetCookie] is given the cookie returned here. *)
Definition SetCookie (m : SessionManager) (session : Session) (now : time) : Cookie :=
  {| c_Name := ck_Name (m_cookieConfig m); c_Value := signToken m (Token session) now;
     c_Path := ck_Path (m_cookieConfig m); c_Domain := ck_Domain (m_cookieConfig m);
     c_SameSite := ck_SameSite (m_cookieConfig m); c_Secure := ck_Secure (m_cookieConfig m);
     c_HttpOnly := ck_HTTPOnly (m_cookieConfig m); c_MaxAge := 0; c_Expires := ExpiresAt session |}.

Definition ClearCookie (m : SessionManager) : Cookie :=
  {| c_Name := ck_Name (m_cookieConfig m); c_Value := "";
     c_Path := ck_Path (m_cookieConfig m); c_Domain := ck_Domain (m_cookieConfig m);
     c_SameSite := ck_SameSite (m_cookieConfig m); c_Secure := ck_Secure (m_cookieConfig m);
     c_HttpOnly := ck_HTTPOnly (m_cookieConfig m); c_MaxAge := -1; c_Expires := 0 |}.

(** The token a request presents: a cookie with a valid signature, else the
    bearer token, else the session-token header. *)
Definition request_token (m : SessionManager) (r : Request) (now : time) : option string :=
  let from_headers :=
    let auth := Header_Get (GoHttp.Header r) "Authorization" in
    if HasPrefix auth "Bearer " then Some (TrimPrefix auth "Bearer ")
    else
      let token := Header_Get (GoHttp.Header r) "X-Session-Token" in
      if negb (String.eqb token "") then Some token else None in
  match Request_Cookie (Cookies r) (ck_Name (m_cookieConfig m)) with
  | Some value =>
      if String.eqb value "" then from_headers
      else match verifySignedToken m value now with
           | Ok token => Some token
           | Err _ => from_headers
           end
  | None => from_headers
  end.

Definition GetFromRequest (m : SessionManager) (r : Request) (now now1 now2 : time) : SM Session :=
  match request_token m r now with
  | Some token => Get m token now1 now2
  | None => throw ErrSessionNotFound
  end.

End Manager.
