(* ===== verification/SessionFacts.v ===== *)
(** Theorems on the session manager (Session.v): what [Get] returns, what
    revocation guarantees, how the assurance level is earned, what cleanup
    removes, and that no failure of the database leaves a half-done
    transaction. *)

From Stdlib Require Import Ascii String.
From S2P Require Import Prelude GoStrings GoEncoding GoSha256 PlatformCrypto GoHttp Session.
Import Session.Manager.

Local Open Scope string_scope.

(** ** Statements *)

Lemma stmt_preserves {A} (P : session_db -> Prop) m (s : session_db -> result db_error (A * session_db)) :
  (forall db a db', s db = Ok (a, db') -> P db -> P db') -> preserves P (stmt m s).
Proof. intros H. unfold stmt. destruct (m_db m); [by apply preserves_stmt|apply preserves_throw]. Qed.

Lemma stmt_cases {A} m (s : session_db -> result db_error (A * session_db)) w r w' :
  stmt m s w = (r, w') ->
  (exists a, r = Ok a /\ s (w_db w) = Ok (a, w_db w')) \/ (exists e, r = Err e /\ w_db w' = w_db w).
Proof.
  unfold stmt. destruct (m_db m); [apply db_stmt_cases|]. intros [= <- <-]. eauto.
Qed.

Lemma stmt_clean {A} m (s : session_db -> result db_error (A * session_db)) db :
  m_db m = true ->
  stmt m s (World db []) =
  match s db with
  | Ok (a, db') => (Ok a, World db' [])
  | Err e => (Err (SessionDb e), World db [])
  end.
Proof. intros Hm. unfold stmt. rewrite Hm. apply db_stmt_clean. Qed.

(** ** Lookup by token *)

Lemma latest_in rows best r :
  latest rows best = Some r -> r ∈ rows \/ best = Some r.
Proof.
  revert best. induction rows as [|x rows IH]; intros best H; simpl in H; [by right|].
  destruct best as [b|]; apply IH in H as [H|H]; try (left; by right).
  - case_match; simplify_eq; [left; by left|by right].
  - simplify_eq. left; by left.
Qed.

Lemma latest_some rows b : exists r, latest rows (Some b) = Some r.
Proof. revert b. induction rows as [|x rows IH]; intros b; simpl; [eauto|]. case_match; apply IH. Qed.

Lemma select_by_token_ok hash prefix db id row db' :
  select_by_token hash prefix db = Ok ((id, row), db') ->
  db' = db /\ t_sessions db !! id = Some row /\ token_match hash prefix row = true.
Proof.
  unfold select_by_token. intros H. case_match eqn:E; simplify_eq.
  apply latest_in in E as [E|E]; [|done].
  apply list_elem_of_In, filter_In in E as [E Hm].
  split; [done|]. split; [|exact Hm].
  by apply elem_of_map_to_list, list_elem_of_In.
Qed.

(** When exactly one active row has the token, it is the one selected. *)
Lemma select_by_token_unique hash prefix db id row :
  t_sessions db !! id = Some row -> token_match hash prefix row = true ->
  (forall id' row', t_sessions db !! id' = Some row' -> token_match hash prefix row' = true -> id' = id) ->
  select_by_token hash prefix db = Ok ((id, row), db).
Proof.
  intros Hl Hm Hu. unfold select_by_token.
  set (l := List.filter _ _).
  assert (Hall : forall p, p ∈ l -> p = (id, row)).
  { intros [id' row'] Hp. apply list_elem_of_In, filter_In in Hp as [Hp Hm'].
    apply list_elem_of_In, elem_of_map_to_list in Hp.
    assert (id' = id) as -> by eauto. by simplify_eq. }
  assert (Hin : (id, row) ∈ l).
  { apply list_elem_of_In, filter_In. split; [|exact Hm].
    by apply list_elem_of_In, elem_of_map_to_list. }
  destruct l as [|p l']; [by apply not_elem_of_nil in Hin|]. simpl.
  destruct (latest_some l' p) as [r Hr]. rewrite Hr.
  apply latest_in in Hr. assert (r = (id, row)) as ->; [|done].
  destruct Hr as [Hr|[= <-]]; apply Hall; [by right|by left].
Qed.

(** What a session that [Get] returns is. *)
Lemma Get_live m token now1 now2 w s w' :
  Get m token now1 now2 w = (Ok s, w') ->
  exists row,
    t_sessions (w_db w) !! ID s = Some row /\
    row_active row = true /\ row_token_hash row = secrettoken.Hash token /\
    (now1 <= row_expires row)%Z /\
    ((0 < m_idleTimeout m)%Z -> (now2 <= row_updated row + m_idleTimeout m)%Z) /\
    s = session_of_row token (ID s) row (sort_by_completed (methods_of (ID s) (t_methods (w_db w)))) /\
    w_db w' = w_db w.
Proof.
  unfold Get. rewrite M_bind_ok. intros ([id row] & w1 & H1 & H2).
  unfold not_found, M_try in H1.
  destruct (stmt m _ w) as [r w2] eqn:E1. apply stmt_cases in E1 as [(p & -> & E1)|(e & -> & E1)];
    [|by split_matches].
  destruct p as [id' row']. unfold lift_result in H1. simplify_eq/=. apply select_by_token_ok in E1 as (Hdb & Hrow & Hm).
  unfold throw, time_after, time_add in H2.
  destruct (Z.ltb_spec (row_expires row) now1); [done|].
  destruct (_ && _) eqn:Hidle; [done|].
  rewrite M_bind_ok in H2. destruct H2 as (ms & w3 & H2 & H3). simplify_eq/=.
  apply stmt_cases in H2 as [(a & [= ->] & [= ? ?])|(e & ? & ?)]; [|done]. simplify_eq/=.
  assert ((0 < m_idleTimeout m)%Z -> (now2 <= row_updated row + m_idleTimeout m)%Z).
  { intros Hpos. apply andb_false_iff in Hidle as [Hidle|Hidle]; apply Z.ltb_ge in Hidle; lia. }
  unfold token_match in Hm. bool_to_prop. rewrite M_ret_run in H3. simplify_eq/=.
  exists row. rewrite Hdb. split_and!; congruence || done.
Qed.

(** ** The invariant of the tables *)

Record db_ok (db : session_db) : Prop := {
  ok_fk : forall id am, (id, am) ∈ t_methods db -> is_Some (t_sessions db !! id);
  ok_unique : forall i r j q, t_sessions db !! i = Some r -> t_sessions db !! j = Some q ->
    row_token_hash r = row_token_hash q -> i = j;
  ok_aal : forall id row, t_sessions db !! id = Some row -> aal_check (row_aal row) = true;
  ok_second_factor : forall id row, t_sessions db !! id = Some row -> row_aal row = AAL2 ->
    exists am, (id, am) ∈ t_methods db /\ am_AALContrib am = AAL2 /\
      am_CompletedAt am = row_authenticated row;
}.

(** Row updates that keep the key columns. *)
Definition keeps (f : session_row -> session_row) : Prop :=
  forall r, row_token_hash (f r) = row_token_hash r /\ row_aal (f r) = row_aal r /\
            row_authenticated (f r) = row_authenticated r.

Lemma db_ok_fmap f db : keeps f -> db_ok db -> db_ok (upd_sessions (fmap f) db).
Proof.
  intros Hf [H1 H2 H3 H4]. constructor; simpl.
  - intros id am Hin. rewrite lookup_fmap. destruct (H1 id am Hin) as [r ->]. by eexists.
  - intros i r j q. rewrite !lookup_fmap_Some. intros (r0 & <- & Hr) (q0 & <- & Hq).
    destruct (Hf r0) as (-> & _), (Hf q0) as (-> & _). eauto.
  - intros id row. rewrite lookup_fmap_Some. intros (r0 & <- & Hr).
    destruct (Hf r0) as (_ & -> & _). eauto.
  - intros id row. rewrite lookup_fmap_Some. intros (r0 & <- & Hr).
    destruct (Hf r0) as (_ & -> & ->). eauto.
Qed.

Lemma alter_as_fmap {A} (f : A -> A) i (m : gmap N A) r :
  m !! i = Some r -> alter f i m = <[i := f r]> m.
Proof.
  intros H. apply map_eq. intros j. destruct (decide (i = j)) as [->|].
  - by rewrite lookup_alter_eq, lookup_insert_eq, H.
  - by rewrite lookup_alter_ne, lookup_insert_ne.
Qed.

Lemma db_ok_alter f i db : keeps f -> db_ok db -> db_ok (upd_sessions (alter f i) db).
Proof.
  intros Hf [H1 H2 H3 H4].
  assert (Hl : forall j r, alter f i (t_sessions db) !! j = Some r ->
    exists r0, t_sessions db !! j = Some r0 /\ row_token_hash r = row_token_hash r0 /\
      row_aal r = row_aal r0 /\ row_authenticated r = row_authenticated r0).
  { intros j r. destruct (decide (i = j)) as [->|Hne].
    - rewrite lookup_alter_eq. destruct (t_sessions db !! j) as [r0|]; simpl; [|done].
      intros [= <-]. exists r0. destruct (Hf r0) as (-> & -> & ->). done.
    - rewrite lookup_alter_ne by done. eauto. }
  constructor; simpl.
  - intros id am Hin. apply lookup_alter_is_Some. eauto.
  - intros a r b q Hr Hq Hh.
    apply Hl in Hr as (r0 & Hr & E1 & _), Hq as (q0 & Hq & E2 & _). eapply H2; eauto. congruence.
  - intros id row Hr. apply Hl in Hr as (r0 & Hr & _ & -> & _). eauto.
  - intros id row Hr Ha. apply Hl in Hr as (r0 & Hr & _ & Ea & Et). rewrite Et. eapply H4; eauto. congruence.
Qed.

Lemma keeps_set_active b t : keeps (fun r => set_active r b t).
Proof. by intros []. Qed.
Lemma keeps_set_expires e t : keeps (fun r => set_expires r e t).
Proof. by intros []. Qed.
Lemma keeps_if (p : session_row -> bool) f : keeps f -> keeps (fun r => if p r then f r else r).
Proof. intros Hf r. destruct (p r); [apply Hf|done]. Qed.

Lemma hash_taken_false h rows :
  hash_taken h rows = false <-> forall id r, rows !! id = Some r -> row_token_hash r <> h.
Proof.
  unfold hash_taken. split.
  - intros H id r Hr E. apply elem_of_map_to_list, list_elem_of_In in Hr.
    assert (existsb (fun p => String.eqb (row_token_hash p.2) h) (map_to_list rows) = true) as H'.
    { apply existsb_exists. exists (id, r). split; [done|]. simpl. by apply String.eqb_eq. }
    congruence.
  - intros H. apply not_true_is_false. rewrite existsb_exists. intros ([id r] & Hin & E).
    apply list_elem_of_In, elem_of_map_to_list in Hin. apply String.eqb_eq in E. by eapply H.
Qed.

Lemma insert_session_ok id row db u db' :
  insert_session id row db = Ok (u, db') ->
  t_sessions db !! id = None /\ aal_check (row_aal row) = true /\
  hash_taken (row_token_hash row) (t_sessions db) = false /\
  db' = {| t_sessions := <[id := row]> (t_sessions db); t_methods := t_methods db |}.
Proof.
  unfold insert_session. intros H. split_matches. bool_to_prop.
  split_and!; try done. by apply eq_None_not_Some.
Qed.

Lemma insert_method_ok id am db u db' :
  insert_method id am db = Ok (u, db') ->
  method_check (am_Method am) = true /\ contrib_check (am_AALContrib am) = true /\
  is_Some (t_sessions db !! id) /\
  db' = {| t_sessions := t_sessions db; t_methods := (t_methods db ++ [(id, am)])%list |}.
Proof. unfold insert_method. intros H. split_matches. bool_to_prop. done. Qed.

(** A new row may be inserted below [AAL2]. *)
Lemma db_ok_insert_session id row db u db' :
  row_aal row <> AAL2 -> insert_session id row db = Ok (u, db') -> db_ok db -> db_ok db'.
Proof.
  intros Hn (Hnone & Ha & Hh & ->)%insert_session_ok [H1 H2 H3 H4].
  rewrite hash_taken_false in Hh.
  constructor; simpl.
  - intros i am Hin. apply lookup_insert_is_Some'. eauto.
  - intros i r j q. rewrite !lookup_insert_Some.
    intros [[<- <-]|[? Hr]] [[<- <-]|[? Hq]] E; eauto; exfalso; eapply Hh; eauto.
  - intros i r. rewrite lookup_insert_Some. intros [[<- <-]|[? Hr]]; eauto.
  - intros i r. rewrite lookup_insert_Some. intros [[<- <-]|[? Hr]] E; [done|eauto].
Qed.

Lemma db_ok_insert_method id am db u db' :
  insert_method id am db = Ok (u, db') -> db_ok db -> db_ok db'.
Proof.
  intros (_ & _ & Hs & ->)%insert_method_ok [H1 H2 H3 H4]. constructor; simpl; try done.
  - intros i a. rewrite elem_of_app, list_elem_of_singleton. intros [Hin|[= -> ->]]; eauto.
  - intros i r Hr Ha. destruct (H4 i r Hr Ha) as (a & Hin & ?). exists a. rewrite elem_of_app. eauto.
Qed.

(** What [AddAuthMethod] does to the tables: nothing, or it records the method
    and raises the level as [computeAAL] says. *)
Lemma AddAuthMethod_effect m id method now dbnow w r w' :
  AddAuthMethod m id method now dbnow w = (r, w') ->
  (exists e, r = Err e /\ w_db w' = w_db w) \/
  (r = Ok tt /\ exists row, t_sessions (w_db w) !! id = Some row /\
    method_check method = true /\ contrib_check (methodToAAL method) = true /\
    let new := computeAAL (row_aal row) (methodToAAL method) in
    w_db w' =
      {| t_sessions := if String.eqb new (row_aal row) then t_sessions (w_db w)
                       else <[id := set_aal row new now dbnow]> (t_sessions (w_db w));
         t_methods := (t_methods (w_db w) ++
           [(id, {| am_Method := method; am_AALContrib := methodToAAL method; am_CompletedAt := now |})])%list |}).
Proof.
  unfold AddAuthMethod, tx. destruct (m_db m); [|intros [= <- <-]; left; eauto].
  intros H. destruct r as [[]|e]; [|left; apply db_tx_atomic in H; eauto].
  right. split; [done|]. unfold db_tx in H.
  destruct (db_stmt _ w) as [[[]|?] w1] eqn:E1; [|done].
  match type of H with context [match ?b w1 with _ => _ end] => destruct (b w1) as [[[]|?] w2] eqn:E2 end; [|done].
  destruct (db_stmt _ w2) as [[[]|?] w3] eqn:E3; [|done]. simplify_eq/=.
  apply db_stmt_cases in E1 as [(? & _ & [= _ E1])|(? & ? & ?)]; [|done].
  apply db_stmt_cases in E3 as [(? & _ & [= _ E3])|(? & ? & ?)]; [|done].
  apply M_bind_ok in E2 as ([] & w4 & E2 & E4).
  apply M_bind_ok in E4 as (cur & w5 & E4 & E5).
  apply db_stmt_cases in E2 as [(? & _ & E2)|(? & ? & ?)]; [|done].
  apply insert_method_ok in E2 as (Hm & Hc & _ & E2). simpl in *.
  apply db_stmt_cases in E4 as [(? & [= <-] & E4)|(? & ? & ?)]; [|done].
  rewrite E2 in E4. simpl in E4. rewrite <- E1 in *.
  destruct (t_sessions (w_db w) !! id) as [row|] eqn:Hrow; [|done]. simplify_eq/=.
  exists row. split_and!; try done.
  rewrite <- E3. destruct (String.eqb _ (row_aal row)); simpl in E5.
  - rewrite M_ret_run in E5. simplify_eq. congruence.
  - apply db_stmt_cases in E5 as [(? & _ & [= _ E5])|(? & ? & ?)]; [|done].
    rewrite <- E5. rewrite <- H. unfold upd_sessions; simpl.
    by rewrite (alter_as_fmap _ _ _ row).
Qed.

Lemma computeAAL_AAL2 cur contrib :
  contrib_check contrib = true ->
  computeAAL cur contrib = AAL2 -> cur <> AAL2 -> contrib = AAL2.
Proof.
  unfold computeAAL. intros _.
  destruct (String.eqb_spec cur AAL1), (String.eqb_spec contrib AAL2); simpl; try done.
  - subst. simpl. intros ->. done.
  - destruct (_ || _); congruence.
Qed.

Lemma computeAAL_check cur contrib :
  aal_check cur = true -> contrib_check contrib = true -> aal_check (computeAAL cur contrib) = true.
Proof.
  unfold computeAAL. intros Hc Hk. repeat case_match; try done.
  unfold contrib_check, aal_check in *. simpl in *. by destruct (contrib =? AAL0).
Qed.

Lemma db_ok_AddAuthMethod m id method now dbnow :
  preserves db_ok (AddAuthMethod m id method now dbnow).
Proof.
  intros w Hok. destruct (AddAuthMethod m id method now dbnow w) as [res w'] eqn:E; simpl.
  apply AddAuthMethod_effect in E as [(e & _ & ->)|(_ & row & Hrow & Hm & Hc & ->)]; [done|].
  set (am := {| am_Method := method; am_AALContrib := methodToAAL method; am_CompletedAt := now |}).
  destruct Hok as [H1 H2 H3 H4]. set (new := computeAAL _ _).
  assert (Hsess : forall i r,
    (if String.eqb new (row_aal row) then t_sessions (w_db w)
     else <[id := set_aal row new now dbnow]> (t_sessions (w_db w))) !! i = Some r ->
    t_sessions (w_db w) !! i = Some r \/
    (i = id /\ r = set_aal row new now dbnow /\ new <> row_aal row)).
  { intros i r. destruct (String.eqb_spec new (row_aal row)); [by left|].
    rewrite lookup_insert_Some. naive_solver. }
  constructor; simpl.
  - intros i a. rewrite elem_of_app, list_elem_of_singleton. intros Hin.
    assert (is_Some (t_sessions (w_db w) !! i)) by (destruct Hin as [?|[= -> _]]; eauto).
    case_match; [done|]. by apply lookup_insert_is_Some'; right.
  - intros i r j q Hr Hq E. apply Hsess in Hr as [Hr|(-> & -> & _)], Hq as [Hq|(-> & -> & _)]; eauto.
  - intros i r Hr. apply Hsess in Hr as [Hr|(-> & -> & _)]; [eauto|]. simpl.
    apply computeAAL_check; eauto.
  - intros i r Hr Ha. apply Hsess in Hr as [Hr|(-> & -> & Hne)].
    + destruct (H4 i r Hr Ha) as (a & Hin & ?). exists a. rewrite elem_of_app. eauto.
    + simpl in Ha. exists am. rewrite elem_of_app, list_elem_of_singleton. split_and!; [by right| |done].
      apply computeAAL_AAL2 with (cur := row_aal row); [done|done|]. intros E. apply Hne. by rewrite E, Ha.
Qed.

Lemma initial_aal_low method :
  (if String.eqb (methodToAAL method) AAL2 then AAL1 else methodToAAL method) <> AAL2.
Proof. destruct (String.eqb_spec (methodToAAL method) AAL2); done. Qed.

Lemma db_ok_Create m identity method device now id r1 r2 :
  preserves db_ok (Create m identity method device now id r1 r2).
Proof.
  unfold Create. repeat (apply preserves_bind; [|intros]); auto with aegion.
  - apply stmt_preserves. intros db [] db' Hi Hok.
    eapply db_ok_insert_session; [|exact Hi|done]. simpl. apply initial_aal_low.
  - apply stmt_preserves. intros; eapply db_ok_insert_method; eauto.
Qed.

Lemma db_ok_Cleanup m dbnow : preserves db_ok (Cleanup m dbnow).
Proof.
  apply stmt_preserves. intros db a db' [= <- <-] [H1 H2 H3 H4].
  constructor; simpl.
  - intros id am Hin. apply list_elem_of_In, filter_In in Hin as [_ Hin]. by apply bool_decide_eq_true in Hin.
  - intros i r j q. rewrite !map_lookup_filter_Some. naive_solver.
  - intros i r. rewrite map_lookup_filter_Some. naive_solver.
  - intros i r Hr Ha. pose proof Hr as Hk. rewrite map_lookup_filter_Some in Hr. destruct Hr as [Hr _].
    destruct (H4 i r Hr Ha) as (am & Hin & ?). exists am. split; [|done].
    apply list_elem_of_In, filter_In. split; [by apply list_elem_of_In|].
    apply bool_decide_eq_true. simpl. by rewrite Hk.
Qed.

(** ** Executions of the manager *)

Inductive mop : Type :=
| MCreate (identity : uuid) (method : AuthMethod) (device : DeviceInfo) (now : time) (id : uuid)
    (r1 r2 : option string)
| MRevoke (id : uuid) (dbnow : time)
| MRevokeAll (identity : uuid) (dbnow : time)
| MExtend (id : uuid) (now dbnow : time)
| MAddAuth (id : uuid) (method : AuthMethod) (now dbnow : time)
| MCleanup (dbnow : time).

Definition mstep (m : SessionManager) (o : mop) (w : world session_db) : world session_db :=
  match o with
  | MCreate identity method device now id r1 r2 => (Create m identity method device now id r1 r2 w).2
  | MRevoke id dbnow => (Revoke m id dbnow w).2
  | MRevokeAll identity dbnow => (RevokeAllForIdentity m identity dbnow w).2
  | MExtend id now dbnow => (Extend m id now dbnow w).2
  | MAddAuth id method now dbnow => (AddAuthMethod m id method now dbnow w).2
  | MCleanup dbnow => (Cleanup m dbnow w).2
  end.

Definition mexec (m : SessionManager) (ops : list mop) (w : world session_db) : world session_db :=
  fold_left (fun w o => mstep m o w) ops w.

Lemma mstep_ok m o w : db_ok (w_db w) -> db_ok (w_db (mstep m o w)).
Proof.
  destruct o; simpl; intros Hok.
  - by apply db_ok_Create.
  - by apply (stmt_preserves db_ok); [intros db a db' [= <- <-]; apply db_ok_alter, keeps_set_active|].
  - by apply (stmt_preserves db_ok);
      [intros db a db' [= <- <-]; apply db_ok_fmap, keeps_if, keeps_set_active|].
  - by apply (stmt_preserves db_ok);
      [intros db a db' [= <- <-]; apply db_ok_alter, keeps_if, keeps_set_expires|].
  - by apply db_ok_AddAuthMethod.
  - by apply db_ok_Cleanup.
Qed.

Lemma mexec_ok m ops w : db_ok (w_db w) -> db_ok (w_db (mexec m ops w)).
Proof. revert w. induction ops as [|o ops IH]; intros w Hok; simpl; [done|]. apply IH, mstep_ok, Hok. Qed.

Definition empty_db : session_db := {| t_sessions := ∅; t_methods := [] |}.

Lemma empty_db_ok : db_ok empty_db.
Proof. constructor; simpl; intros *; rewrite ?lookup_empty; try done. by intros ?%not_elem_of_nil. Qed.

(** ** Assurance level *)

Lemma insert_by_completed_perm x l : insert_by_completed x l ≡ₚ x :: l.
Proof. induction l as [|y l IH]; simpl; [done|]. case_match; [done|]. rewrite IH. apply Permutation_swap. Qed.

Lemma sort_by_completed_perm l : sort_by_completed l ≡ₚ l.
Proof.
  unfold sort_by_completed. enough (H : forall l acc,
    fold_left (fun acc x => insert_by_completed x acc) l acc ≡ₚ l ++ acc)
    by (rewrite H; by rewrite app_nil_r).
  clear l. induction l as [|x l IH]; intros acc; simpl; [done|].
  rewrite IH, insert_by_completed_perm. by rewrite Permutation_middle.
Qed.

Lemma elem_of_methods_of id am ms : am ∈ methods_of id ms <-> (id, am) ∈ ms.
Proof.
  unfold methods_of. rewrite !list_elem_of_In, in_map_iff. split.
  - intros ([i a] & <- & Hin). apply filter_In in Hin as [Hin E]. apply N.eqb_eq in E. by simpl in E; subst.
  - intros Hin. exists (id, am). split; [done|]. apply filter_In. split; [done|]. by apply N.eqb_refl.
Qed.

(** Over the sessions of any history, also of creations that failed half-way,
    a session that [Get] reports at level [aal2] has a recorded method that
    contributes [aal2] and was completed at its authentication time. *)
Lemma aal2_needs_contribution m ops faults token now1 now2 s w' :
  Get m token now1 now2 (mexec m ops (World empty_db faults)) = (Ok s, w') ->
  SessionAAL s = AAL2 ->
  exists am, am ∈ AuthMethods s /\ am_AALContrib am = AAL2 /\ am_CompletedAt am = AuthenticatedAt s.
Proof.
  intros Hget Haal. apply Get_live in Hget as (row & Hrow & _ & _ & _ & _ & Hs & _).
  assert (Hok : db_ok (w_db (mexec m ops (World empty_db faults)))) by apply mexec_ok, empty_db_ok.
  rewrite Hs in Haal |- *. simpl in *.
  destruct (ok_second_factor _ Hok _ _ Hrow Haal) as (am & Hin & ? & ?).
  exists am. split; [|done]. rewrite sort_by_completed_perm. by apply elem_of_methods_of.
Qed.

(** ** Revocation *)

Definition not_active (id : uuid) (db : session_db) : Prop :=
  forall row, t_sessions db !! id = Some row -> row_active row = false.

(** The operation does not create a session under this identifier. *)
Definition not_creating (id : uuid) (o : mop) : Prop :=
  match o with MCreate _ _ _ _ id' _ _ => id' <> id | _ => True end.

Lemma not_active_alter id i f db :
  (forall r, row_active r = false -> row_active (f r) = false) ->
  not_active id db -> not_active id (upd_sessions (alter f i) db).
Proof.
  intros Hf H row. simpl. rewrite lookup_alter_Some. intros [(-> & r & Hr & ->)|[_ Hr]]; eauto.
Qed.

Lemma mstep_not_active m o id w :
  not_creating id o -> not_active id (w_db w) -> not_active id (w_db (mstep m o w)).
Proof.
  intros Hnc. revert w. change (preserves (not_active id) (fun w => (Ok (E:=session_error) tt, mstep m o w))).
  destruct o; simpl in *.
  - intros w Hw. simpl. revert w Hw. change (preserves (not_active id) (Create m identity method device now id0 r1 r2)).
    unfold Create. repeat (apply preserves_bind; [|intros]); auto with aegion.
    + apply stmt_preserves. intros db [] db' (_ & _ & _ & ->)%insert_session_ok H row.
      simpl. rewrite lookup_insert_ne by done. apply H.
    + apply stmt_preserves. intros db [] db' (_ & _ & _ & ->)%insert_method_ok H. done.
  - apply (stmt_preserves (not_active id)). intros db a db' [= <- <-]. by apply not_active_alter.
  - apply (stmt_preserves (not_active id)). intros db a db' [= <- <-] H row. simpl.
    rewrite lookup_fmap_Some. intros (r & <- & Hr). case_match; [done|eauto].
  - apply (stmt_preserves (not_active id)). intros db a db' [= <- <-]. apply not_active_alter.
    intros r Hr. by rewrite Hr.
  - intros w Hw. simpl. destruct (AddAuthMethod _ _ _ _ _ w) as [res w'] eqn:E. simpl.
    apply AddAuthMethod_effect in E as [(e & _ & ->)|(_ & row & Hrow & _ & _ & ->)]; [done|].
    intros r. simpl. case_match; [apply Hw|].
    rewrite lookup_insert_Some. intros [[-> <-]|[_ Hr]]; [simpl; by apply Hw|by apply Hw].
  - apply (stmt_preserves (not_active id)). intros db a db' [= <- <-] H row. simpl.
    rewrite map_lookup_filter_Some. intros [Hr _]. eauto.
Qed.

Lemma mexec_not_active m ops id w :
  Forall (not_creating id) ops -> not_active id (w_db w) -> not_active id (w_db (mexec m ops w)).
Proof.
  intros HF. revert w. induction HF as [|o ops Ho HF IH]; intros w Hw; simpl; [done|].
  apply IH. by apply mstep_not_active.
Qed.

(** C37: Once [Revoke] has succeeded, no later sequence of manager operations
    (extensions, added factors, cleanups, other sessions, under any database
    failures) makes [Get] return that session again, with whatever token. *)
Theorem revoked_session_never_returned m id dbnow w w1 ops token now1 now2 s w2 :
  Revoke m id dbnow w = (Ok tt, w1) ->
  Forall (not_creating id) ops ->
  Get m token now1 now2 (mexec m ops w1) = (Ok s, w2) ->
  ID s <> id.
Proof.
  intros Hrev Hops Hget <-.
  apply Get_live in Hget as (row & Hrow & Hact & _).
  assert (Hna : not_active (ID s) (w_db w1)).
  { apply stmt_cases in Hrev as [(? & _ & [= _ E])|(? & ? & ?)]; [|done].
    rewrite <- E. intros r. simpl. rewrite lookup_alter_eq.
    destruct (t_sessions (w_db w) !! ID s); simpl; [|done]. by intros [= <-]. }
  apply (mexec_not_active m ops _ _ Hops) in Hna. apply Hna in Hrow. congruence.
Qed.

(** ** The second step of a session

    [Create] records the method a session begins with and keeps its level
    below [aal2], so the level is reached in a later [AddAuthMethod]. *)

Lemma methods_of_app id ms ms' : methods_of id (ms ++ ms')%list = (methods_of id ms ++ methods_of id ms')%list.
Proof. unfold methods_of. by rewrite List.filter_app, map_app. Qed.

Lemma methods_of_cons_ne id i am ms : i <> id -> methods_of id ((i, am) :: ms) = methods_of id ms.
Proof. intros Hne. unfold methods_of. simpl. by destruct (N.eqb_spec i id). Qed.

Lemma methods_of_kept (p : N -> bool) id ms :
  p id = true -> methods_of id (List.filter (fun q => p q.1) ms) = methods_of id ms.
Proof.
  intros Hp. unfold methods_of. induction ms as [|[i am] ms IH]; [done|]. simpl.
  destruct (N.eqb_spec i id) as [->|Hne].
  - rewrite Hp. simpl. rewrite N.eqb_refl. simpl. by rewrite IH.
  - destruct (p i); simpl; [|done]. by destruct (N.eqb_spec i id).
Qed.

(** An operation leaves the level and the methods of a session alone, or it is
    an [AddAuthMethod] on it that records one more method. *)
Definition second_step (id : uuid) (o : mop) (db db' : session_db) : Prop :=
  forall row', t_sessions db' !! id = Some row' ->
    exists row, t_sessions db !! id = Some row /\
    ((methods_of id (t_methods db') = methods_of id (t_methods db) /\
      row_aal row' = row_aal row /\ row_authenticated row' = row_authenticated row) \/
     exists am dbnow, o = MAddAuth id (am_Method am) (am_CompletedAt am) dbnow /\
       methods_of id (t_methods db') = (methods_of id (t_methods db) ++ [am])%list /\
       ((row_aal row' = row_aal row /\ row_authenticated row' = row_authenticated row) \/
        row_aal row <> AAL2 /\
        (row_aal row' = AAL2 -> am_AALContrib am = AAL2 /\ am_CompletedAt am = row_authenticated row'))).

(** Statements that keep the key columns and the methods. *)
Lemma second_step_keeps id o db db' :
  t_methods db' = t_methods db ->
  (forall row', t_sessions db' !! id = Some row' ->
    exists row, t_sessions db !! id = Some row /\ row_aal row' = row_aal row /\
      row_authenticated row' = row_authenticated row) ->
  second_step id o db db'.
Proof. intros Hm H row' Hr. destruct (H row' Hr) as (row & ? & ? & ?). exists row. rewrite Hm. eauto. Qed.

Lemma second_step_refl id o db : second_step id o db db.
Proof. apply second_step_keeps; eauto. Qed.
#[local] Hint Resolve second_step_refl : core.

Lemma second_step_alter id o i f db : keeps f -> second_step id o db (upd_sessions (alter f i) db).
Proof.
  intros Hf. apply second_step_keeps; [done|]. intros row'. simpl. rewrite lookup_alter_Some.
  intros [(-> & r & Hr & ->)|[_ Hr]]; [exists r|by eauto]. destruct (Hf r) as (_ & -> & ->). done.
Qed.

Lemma second_step_fmap id o f db : keeps f -> second_step id o db (upd_sessions (fmap f) db).
Proof.
  intros Hf. apply second_step_keeps; [done|]. intros row'. simpl. rewrite lookup_fmap_Some.
  intros (r & <- & Hr). exists r. destruct (Hf r) as (_ & -> & ->). done.
Qed.

Lemma stmt_second_step {A} id o m (st : session_db -> result db_error (A * session_db)) w :
  (forall db a db', st db = Ok (a, db') -> second_step id o db db') ->
  second_step id o (w_db w) (w_db (stmt m st w).2).
Proof.
  intros H. destruct (stmt m st w) as [r w'] eqn:E. simpl.
  apply stmt_cases in E as [(a & _ & E)|(e & _ & ->)]; [eauto|done].
Qed.

Lemma AddAuthMethod_second_step m i id method now dbnow w :
  second_step id (MAddAuth i method now dbnow) (w_db w) (w_db (AddAuthMethod m i method now dbnow w).2).
Proof.
  destruct (AddAuthMethod m i method now dbnow w) as [res w'] eqn:E. simpl.
  apply AddAuthMethod_effect in E as [(e & _ & ->)|(_ & row & Hrow & _ & Hc & ->)]; [done|].
  set (new := computeAAL _ _). set (am := {| am_Method := method |}).
  intros row' Hr. simpl in Hr |- *. rewrite methods_of_app. destruct (decide (i = id)) as [->|Hne].
  - exists row. split; [done|]. right. exists am, dbnow. split; [done|].
    split; [unfold methods_of; simpl; by rewrite N.eqb_refl|].
    destruct (String.eqb_spec new (row_aal row)) as [E|E]; [left; by simplify_eq|].
    rewrite lookup_insert_eq in Hr. simplify_eq. simpl. right.
    assert (Hlow : row_aal row <> AAL2) by (intros E2; apply E; unfold new; by rewrite E2).
    split; [done|]. intros Ha. split; [|done]. by eapply computeAAL_AAL2.
  - exists row'. rewrite methods_of_cons_ne by done. rewrite app_nil_r.
    split; [|by left]. case_match; [done|]. by rewrite lookup_insert_ne in Hr by done.
Qed.

Lemma Create_second_step m identity method device now i r1 r2 id w :
  i <> id ->
  second_step id (MCreate identity method device now i r1 r2) (w_db w)
    (w_db (Create m identity method device now i r1 r2 w).2).
Proof.
  intros Hne. set (o := MCreate _ _ _ _ _ _ _).
  pose (P := fun db => forall row, t_sessions db !! id = Some row ->
    t_sessions (w_db w) !! id = Some row /\
    methods_of id (t_methods db) = methods_of id (t_methods (w_db w))).
  assert (HP : P (w_db (Create m identity method device now i r1 r2 w).2)).
  { enough (Hpr : preserves P (Create m identity method device now i r1 r2)) by (apply Hpr; by intros row).
    unfold Create. repeat (apply preserves_bind; [|intros]); auto with aegion.
    - apply stmt_preserves. intros db [] db' (_ & _ & _ & ->)%insert_session_ok H row.
      simpl. rewrite lookup_insert_ne by done. apply H.
    - apply stmt_preserves. intros db [] db' (_ & _ & _ & ->)%insert_method_ok H row Hr. simpl.
      rewrite methods_of_app, methods_of_cons_ne, app_nil_r by done. by apply H. }
  intros row' Hr. exists row'. apply HP in Hr as [Hr ->]. eauto.
Qed.

Lemma mstep_second_step m o id w :
  not_creating id o -> second_step id o (w_db w) (w_db (mstep m o w)).
Proof.
  destruct o; intros Hnc; simpl in *.
  - by apply Create_second_step.
  - apply stmt_second_step. intros db a db' [= <- <-]. apply second_step_alter, keeps_set_active.
  - apply stmt_second_step. intros db a db' [= <- <-]. apply second_step_fmap, keeps_if, keeps_set_active.
  - apply stmt_second_step. intros db a db' [= <- <-]. apply second_step_alter, keeps_if, keeps_set_expires.
  - apply AddAuthMethod_second_step.
  - apply stmt_second_step. intros db a db' [= <- <-] row' Hr. exists row'.
    pose proof Hr as Hk. simpl in Hk. apply map_lookup_filter_Some in Hk as [Hk _].
    split; [done|]. left. split; [|done]. simpl.
    apply (methods_of_kept (fun i => @bool_decide (is_Some (_ !! i)) (is_Some_dec (_ !! i)))).
    apply bool_decide_eq_true. by exists row'.
Qed.

(** What is stored of a session that began with [first], after [seen]. *)
Definition began_with (id : uuid) (first : SessionAuthMethod) (seen : list mop) (db : session_db) : Prop :=
  forall row, t_sessions db !! id = Some row ->
    [first] ⊆+ methods_of id (t_methods db) /\
    (row_aal row = AAL2 -> exists second dbnow,
      MAddAuth id (am_Method second) (am_CompletedAt second) dbnow ∈ seen /\
      am_AALContrib second = AAL2 /\ am_CompletedAt second = row_authenticated row /\
      [first; second] ⊆+ methods_of id (t_methods db)).

Lemma began_with_step id first seen o db db' :
  second_step id o db db' -> began_with id first seen db -> began_with id first (seen ++ [o])%list db'.
Proof.
  intros Hs Hb row' Hr. destruct (Hs row' Hr) as (row & Hrow & Hc). destruct (Hb row Hrow) as [Hf Hsec].
  assert (Hkept : forall l, methods_of id (t_methods db) ⊆+ l -> row_aal row' = row_aal row ->
    row_authenticated row' = row_authenticated row -> row_aal row' = AAL2 ->
    exists second dbnow, MAddAuth id (am_Method second) (am_CompletedAt second) dbnow ∈ (seen ++ [o])%list /\
      am_AALContrib second = AAL2 /\ am_CompletedAt second = row_authenticated row' /\ [first; second] ⊆+ l).
  { intros l Hl Ea Et Ha. rewrite Et. rewrite Ea in Ha. destruct (Hsec Ha) as (second & dbnow & ? & ? & ? & ?).
    exists second, dbnow. split_and!; [apply elem_of_app; by left|done|done|by etrans]. }
  destruct Hc as [(-> & Ea & Et)|(am & dbnow & -> & -> & Hc)]; [eauto|].
  split; [by apply submseteq_inserts_r|]. destruct Hc as [[Ea Et]|[Hlow Hup]].
  - apply Hkept; [by apply submseteq_inserts_r|done|done].
  - intros Ha. destruct (Hup Ha) as [Hc Ht]. exists am, dbnow.
    split_and!; [apply elem_of_app; right; by left|done|done|].
    change [first; am] with ([first] ++ [am])%list. by apply submseteq_app.
Qed.

Lemma mexec_began_with m id first ops seen w :
  Forall (not_creating id) ops -> began_with id first seen (w_db w) ->
  began_with id first (seen ++ ops)%list (w_db (mexec m ops w)).
Proof.
  intros HF. revert seen w. induction HF as [|o ops Ho HF IH]; intros seen w Hb; simpl; [by rewrite app_nil_r|].
  rewrite cons_middle, app_assoc. apply IH. eapply began_with_step; [|exact Hb]. by apply mstep_second_step.
Qed.

Lemma Create_began_with m identity method device now id r1 r2 w s w' :
  Create m identity method device now id r1 r2 w = (Ok s, w') ->
  began_with id {| am_Method := method; am_AALContrib := methodToAAL method; am_CompletedAt := now |} [] (w_db w').
Proof.
  unfold Create. rewrite M_bind_ok. intros (t1 & w1 & _ & H). apply M_bind_ok in H as (t2 & w2 & _ & H).
  apply M_bind_ok in H as ([] & w3 & H1 & H). apply M_bind_ok in H as ([] & w4 & H2 & H).
  rewrite M_ret_run in H. simplify_eq.
  apply stmt_cases in H1 as [(? & _ & H1)|(? & ? & ?)]; [|done].
  apply stmt_cases in H2 as [(? & _ & H2)|(? & ? & ?)]; [|done].
  apply insert_method_ok in H2 as (_ & _ & _ & ->). apply insert_session_ok in H1 as (_ & _ & _ & ->).
  intros row. simpl. rewrite lookup_insert_eq. intros [= <-]. simpl. split.
  - rewrite methods_of_app. apply submseteq_inserts_l. unfold methods_of. simpl. by rewrite N.eqb_refl.
  - intros Ha. by apply initial_aal_low in Ha.
Qed.

(** C32: A session that was created with one method, whatever that method is
    and whatever operations and database failures come later, is at level
    [aal2] only after a separate [AddAuthMethod] on it: its list of methods
    then has, besides the method it began with, a second entry that one of the
    later calls recorded, that contributes [aal2], and whose completion is the
    authentication time of the session. (The identifiers of new sessions are
    fresh; the code does not ask that the two methods differ.) *)
Theorem aal2_session_has_second_factor m identity method device now id r1 r2 w s0 w1 ops token now1 now2 s w2 :
  Create m identity method device now id r1 r2 w = (Ok s0, w1) ->
  Forall (not_creating id) ops ->
  Get m token now1 now2 (mexec m ops w1) = (Ok s, w2) ->
  ID s = id -> SessionAAL s = AAL2 ->
  exists second dbnow,
    [{| am_Method := method; am_AALContrib := methodToAAL method; am_CompletedAt := now |}; second]
      ⊆+ AuthMethods s /\
    MAddAuth id (am_Method second) (am_CompletedAt second) dbnow ∈ ops /\
    am_AALContrib second = AAL2 /\ am_CompletedAt second = AuthenticatedAt s.
Proof.
  intros Hcr Hops Hget <- Haal. apply Get_live in Hget as (row & Hrow & _ & _ & _ & _ & Hs & _).
  assert (Hb := mexec_began_with m (ID s) _ ops [] w1 Hops (Create_began_with _ _ _ _ _ _ _ _ _ _ _ Hcr)).
  rewrite Hs in Haal |- *. simpl in *.
  destruct (Hb row Hrow) as [_ Hsec]. destruct (Hsec Haal) as (second & dbnow & ? & ? & ? & ?).
  exists second, dbnow. split_and!; try done. by rewrite sort_by_completed_perm.
Qed.

Definition mgr : SessionManager :=
  Manager.NewManager true "secret"
    {| ck_Name := "aegion"; ck_Path := "/"; ck_Domain := ""; ck_SameSite := 1; ck_Secure := true; ck_HTTPOnly := true |}
    (24 * hour)%Z hour 0%Z 0%Z.
Definition device0 : DeviceInfo := {| dev_UserAgent := "ua"; dev_IPAddress := "10.0.0.9"; dev_Location := "" |}.
Definition two_sessions : world session_db :=
  mexec mgr [MCreate 7 "password" device0 0 1 (Some "a") (Some "b");
             MCreate 7 "password" device0 0 2 (Some "c") (Some "d")] (World empty_db []).

(** The second session after the first was revoked. *)
Definition second_session : option Session :=
  match Get mgr (b64url_Encode "c") 5 5 (mexec mgr [MExtend 1 3 3] (Revoke mgr 1 2 two_sessions).2) with
  | (Ok s, _) => Some s
  | _ => None
  end.

Lemma revoked_session_never_returned_witness :
  exists s, second_session = Some s /\ ID s <> 1%N.
Proof.
  destruct (Get mgr (b64url_Encode "c") 5 5 (mexec mgr [MExtend 1 3 3] (Revoke mgr 1 2 two_sessions).2))
    as [[s|e] w2] eqn:E.
  - exists s. split; [unfold second_session; rewrite E; reflexivity|].
    eapply (revoked_session_never_returned mgr 1 2 two_sessions (Revoke mgr 1 2 two_sessions).2
      [MExtend 1 3 3] (b64url_Encode "c") 5 5 s w2).
    + vm_compute. reflexivity.
    + repeat constructor.
    + exact E.
  - exfalso. vm_compute in E. discriminate E.
Defined.

(** Whatever happened to the database, a session that [Get] returns is
    the stored row of its identifier, is active, is the one the presented
    token hashes to, has not passed its expiry, has been used within the idle
    timeout when one is configured, carries the stored assurance level and the
    recorded methods, and the lookup changes nothing. *)
Theorem get_returns_only_live_sessions m token now1 now2 w s w' :
  Get m token now1 now2 w = (Ok s, w') ->
  exists row,
    t_sessions (w_db w) !! ID s = Some row /\
    row_active row = true /\ row_token_hash row = secrettoken.Hash token /\
    (now1 <= row_expires row)%Z /\
    ((0 < m_idleTimeout m)%Z -> (now2 <= row_updated row + m_idleTimeout m)%Z) /\
    s = session_of_row token (ID s) row (sort_by_completed (methods_of (ID s) (t_methods (w_db w)))) /\
    w_db w' = w_db w.
Proof. apply Get_live. Qed.

Lemma get_returns_only_live_sessions_witness :
  exists s w', Get mgr (b64url_Encode "a") 5 5 two_sessions = (Ok s, w') /\
    exists row, t_sessions (w_db two_sessions) !! ID s = Some row /\ row_active row = true /\ (5 <= row_expires row)%Z.
Proof.
  destruct (Get mgr (b64url_Encode "a") 5 5 two_sessions) as [[s|e] w'] eqn:E;
    [|exfalso; vm_compute in E; discriminate E].
  exists s, w'. split; [reflexivity|].
  destruct (get_returns_only_live_sessions mgr (b64url_Encode "a") 5 5 two_sessions s w' E)
    as (row & Hrow & Hact & _ & Hexp & _).
  exists row. split; [exact Hrow|]. split; [exact Hact|exact Hexp].
Defined.

(** A password session to which a one-time code was added. *)
Definition password_session : result session_error Session * world session_db :=
  Create mgr 7 "password" device0 0 1 (Some "a") (Some "b") (World empty_db []).

Lemma aal2_session_has_second_factor_witness :
  exists s w2, Get mgr (b64url_Encode "a") 9 9 (mexec mgr [MAddAuth 1 "totp" 4 4] password_session.2) = (Ok s, w2) /\
    SessionAAL s = AAL2 /\
    exists second dbnow,
      [{| am_Method := "password"; am_AALContrib := methodToAAL "password"; am_CompletedAt := 0 |}; second]
        ⊆+ AuthMethods s /\
      MAddAuth 1 (am_Method second) (am_CompletedAt second) dbnow ∈ [MAddAuth 1 "totp" 4 4] /\
      am_AALContrib second = AAL2 /\ am_CompletedAt second = AuthenticatedAt s.
Proof.
  destruct password_session as [[s0|e] w1] eqn:Ec; [|exfalso; vm_compute in Ec; discriminate Ec].
  destruct (Get mgr (b64url_Encode "a") 9 9 (mexec mgr [MAddAuth 1 "totp" 4 4] w1)) as [[s|e] w2] eqn:E;
    [|exfalso; vm_compute in Ec; injection Ec as <- <-; vm_compute in E; discriminate E].
  exists s, w2. split; [exact E|].
  assert (Hs : SessionAAL s = AAL2 /\ ID s = 1%N).
  { vm_compute in Ec. injection Ec as _ <-. vm_compute in E. injection E as <- _. split; reflexivity. }
  destruct Hs as [Ha Hid]. split; [exact Ha|].
  apply (aal2_session_has_second_factor mgr 7 "password" device0 0 1 (Some "a") (Some "b") (World empty_db [])
    s0 w1 [MAddAuth 1 "totp" 4 4] (b64url_Encode "a") 9 9 s w2 Ec ltac:(repeat constructor) E Hid Ha).
Defined.

(** ** Creation, extension and cleanup *)

(** A session as it is read back: the logout token is stored hashed only. *)
Definition without_logout_token (s : Session) : Session :=
  {| ID := ID s; Token := Token s; IdentityID := IdentityID s; SessionAAL := SessionAAL s;
     IssuedAt := IssuedAt s; ExpiresAt := ExpiresAt s; AuthenticatedAt := AuthenticatedAt s;
     LogoutToken := ""; Devices := Devices s; Active := Active s; IsImpersonation := IsImpersonation s;
     ImpersonatorID := ImpersonatorID s; AuthMethods := AuthMethods s; CreatedAt := CreatedAt s;
     UpdatedAt := UpdatedAt s |}.

Lemma method_check_contrib method :
  method_check method = true ->
  contrib_check (methodToAAL method) = true /\
  aal_check (if String.eqb (methodToAAL method) AAL2 then AAL1 else methodToAAL method) = true.
Proof.
  unfold method_check. simpl. rewrite !orb_true_iff, !String.eqb_eq.
  intros H. repeat (destruct H as [->|H]; [by vm_compute|]). done.
Qed.

Lemma methods_of_none id ms : (forall am, (id, am) ∉ ms) -> methods_of id ms = [].
Proof.
  intros H. destruct (methods_of id ms) as [|am l] eqn:E; [done|].
  exfalso. apply (H am). apply elem_of_methods_of. rewrite E. by left.
Qed.

Lemma insert_session_fresh id row db :
  aal_check (row_aal row) = true -> t_sessions db !! id = None ->
  hash_taken (row_token_hash row) (t_sessions db) = false ->
  logout_hash_taken (row_logout_hash row) (t_sessions db) = false ->
  insert_session id row db =
  Ok (tt, {| t_sessions := <[id := row]> (t_sessions db); t_methods := t_methods db |}).
Proof.
  intros Ha Hn Hh Hl. unfold insert_session. rewrite Ha, Hh, Hl. simpl.
  by rewrite bool_decide_eq_false_2 by (rewrite Hn; apply is_Some_None).
Qed.

Lemma insert_method_fresh id am db :
  method_check (am_Method am) = true -> contrib_check (am_AALContrib am) = true ->
  is_Some (t_sessions db !! id) ->
  insert_method id am db =
  Ok (tt, {| t_sessions := t_sessions db; t_methods := (t_methods db ++ [(id, am)])%list |}).
Proof.
  intros Hm Hc Hs. unfold insert_method. rewrite Hm, Hc. simpl. by rewrite bool_decide_eq_true_2.
Qed.

(** Creating a session with a known method, a fresh identifier and fresh
    random tokens succeeds on a consistent database, and the session token it
    returns then opens exactly that session (the logout token apart, which is
    stored only as a hash) at any time up to its expiry and within the idle
    timeout. *)
Theorem created_session_is_found m identity method device now id b1 b2 db t1 t2 :
  m_db m = true -> db_ok db -> t_sessions db !! id = None -> method_check method = true ->
  hash_taken (secrettoken.Hash (b64url_Encode b1)) (t_sessions db) = false ->
  logout_hash_taken (secrettoken.Hash (b64url_Encode b2)) (t_sessions db) = false ->
  (t1 <= now + m_lifespan m)%Z -> ((0 < m_idleTimeout m)%Z -> (t2 <= now + m_idleTimeout m)%Z) ->
  exists s db',
    run (Create m identity method device now id (Some b1) (Some b2)) db = (Ok s, db') /\
    Token s = b64url_Encode b1 /\ IdentityID s = identity /\
    run (Get m (Token s) t1 t2) db' = (Ok (without_logout_token s), db').
Proof.
  intros Hm Hok Hnone Hmc Hh Hlh Ht1 Ht2. destruct (method_check_contrib _ Hmc) as [Hc Ha].
  unfold run, Create, lift_result, generateToken. unfold mbind, M_bind. cbv beta iota zeta.
  rewrite stmt_clean by done. rewrite insert_session_fresh by done.
  rewrite stmt_clean by done. rewrite insert_method_fresh by (done || (simpl; by rewrite lookup_insert_eq)).
  rewrite M_ret_run. do 2 eexists. split; [done|]. split; [done|]. split; [done|].
  unfold Get. simpl Token. rewrite M_bind_run. unfold not_found at 1, M_try.
  rewrite stmt_clean by done. set (row := row_of_session _).
  rewrite (select_by_token_unique _ _ _ id row); simpl.
  - unfold time_after, time_add. replace (now + m_lifespan m <? t1)%Z with false by (symmetry; apply Z.ltb_ge; lia).
    replace (_ && _) with false.
    2:{ symmetry. apply andb_false_iff. rewrite !Z.ltb_ge. lia. }
    rewrite M_bind_run, stmt_clean by done. simpl. rewrite methods_of_app, methods_of_none.
    + unfold methods_of. simpl. rewrite N.eqb_refl. reflexivity.
    + intros am Hin. apply (ok_fk _ Hok) in Hin. rewrite Hnone in Hin. by destruct Hin.
  - apply lookup_insert_eq.
  - unfold token_match. simpl. by rewrite !String.eqb_refl.
  - intros i r. rewrite lookup_insert_Some. intros [[-> _]|[_ Hr]] Hmt; [done|].
    unfold token_match in Hmt. bool_to_prop. rewrite hash_taken_false in Hh. by edestruct Hh.
Qed.

Lemma created_session_is_found_witness :
  exists s db',
    run (Create mgr 7 "password" device0 0 1 (Some "a") (Some "b")) empty_db = (Ok s, db') /\
    Token s = b64url_Encode "a" /\ IdentityID s = 7%N /\
    run (Get mgr (Token s) 5 5) db' = (Ok (without_logout_token s), db').
Proof.
  apply (created_session_is_found mgr 7 "password" device0 0 1 "a" "b" empty_db 5 5);
    [reflexivity|apply empty_db_ok|reflexivity..|vm_compute; discriminate|vm_compute; discriminate].
Defined.

Lemma computeAAL_not_lower cur contrib :
  aal_check cur = true -> contrib_check contrib = true -> str_ltb (computeAAL cur contrib) cur = false.
Proof.
  unfold aal_check, contrib_check. simpl. rewrite !orb_true_iff, !String.eqb_eq.
  intros [->|[->|[->|?]]] [->|[->|?]]; done.
Qed.

(** Adding a factor is all or nothing: an error of any statement, of the
    commit or of a constraint leaves both tables exactly as they were; on
    success the method is recorded once and the level becomes what
    [computeAAL] gives, which never lowers it. *)
Theorem add_auth_method_all_or_nothing m id method now dbnow w r w' :
  AddAuthMethod m id method now dbnow w = (r, w') ->
  (exists e, r = Err e /\ w_db w' = w_db w) \/
  (r = Ok tt /\ exists row row',
     t_sessions (w_db w) !! id = Some row /\ t_sessions (w_db w') !! id = Some row' /\
     row_aal row' = computeAAL (row_aal row) (methodToAAL method) /\
     (aal_check (row_aal row) = true -> str_ltb (row_aal row') (row_aal row) = false) /\
     (forall i, i <> id -> t_sessions (w_db w') !! i = t_sessions (w_db w) !! i) /\
     t_methods (w_db w') = (t_methods (w_db w) ++
       [(id, {| am_Method := method; am_AALContrib := methodToAAL method; am_CompletedAt := now |})])%list).
Proof.
  intros [?|(-> & row & Hrow & Hmc & Hc & Hdb)]%AddAuthMethod_effect; [by left|right].
  split; [done|]. rewrite Hdb. simpl. set (new := computeAAL (row_aal row) (methodToAAL method)).
  exists row, (if String.eqb new (row_aal row) then row else set_aal row new now dbnow).
  assert (Hnew : row_aal (if String.eqb new (row_aal row) then row else set_aal row new now dbnow) = new)
    by by destruct (String.eqb_spec new (row_aal row)).
  rewrite Hnew. split_and!; try done.
  - destruct (String.eqb new (row_aal row)); [done|by rewrite lookup_insert_eq].
  - intros. by apply computeAAL_not_lower.
  - intros i Hi. destruct (String.eqb new (row_aal row)); [done|by rewrite lookup_insert_ne].
Qed.

Lemma add_auth_method_all_or_nothing_witness :
  exists w', AddAuthMethod mgr 1 "totp" 4 4 two_sessions = (Ok tt, w') /\
    exists row', t_sessions (w_db w') !! 1%N = Some row'.
Proof.
  destruct (AddAuthMethod mgr 1 "totp" 4 4 two_sessions) as [r w'] eqn:E.
  assert (r = Ok tt) as -> by (vm_compute in E; injection E as <- _; reflexivity).
  exists w'. split; [reflexivity|].
  destruct (add_auth_method_all_or_nothing mgr 1 "totp" 4 4 two_sessions (Ok tt) w' E)
    as [(e & He & _)|(_ & row & row' & _ & Hrow' & _)]; [discriminate He|].
  exists row'. exact Hrow'.
Defined.

(** [Cleanup] removes exactly the rows that are past their retention
    (expired longer ago than the expired retention, or inactive and untouched
    for longer than the inactive retention), reports how many, drops the
    methods of removed sessions only, and in particular never removes an
    active session that has not expired. *)
Theorem cleanup_removes_exactly_stale m dbnow db n db' :
  m_db m = true -> db_ok db -> run (Cleanup m dbnow) db = (Ok n, db') ->
  (forall id row, t_sessions db' !! id = Some row <->
     t_sessions db !! id = Some row /\ cleanup_row m dbnow row = false) /\
  n = Z.of_nat (size (t_sessions db) - size (t_sessions db')) /\
  (forall id am, (id, am) ∈ t_methods db' <->
     (id, am) ∈ t_methods db /\ is_Some (t_sessions db' !! id)) /\
  ((0 <= m_cleanupExpiredAfter m)%Z ->
   forall id row, t_sessions db !! id = Some row -> row_active row = true ->
     (dbnow <= row_expires row)%Z -> t_sessions db' !! id = Some row).
Proof.
  intros Hm Hok. unfold run, Cleanup. rewrite stmt_clean by done. unfold delete_sessions. simpl.
  intros [= <- <-]. simpl. split; [|split; [done|split]].
  - intros id row. by rewrite map_lookup_filter_Some.
  - intros id am. rewrite !list_elem_of_In, filter_In, bool_decide_eq_true. done.
  - intros Hpos id row Hr Ha Hexp. apply map_lookup_filter_Some. split; [done|].
    unfold cleanup_row. rewrite Ha. simpl. rewrite orb_false_r. apply Z.ltb_ge. lia.
Qed.

Lemma cleanup_removes_exactly_stale_witness :
  exists db', run (Cleanup mgr (3 * hour)) (w_db two_sessions) = (Ok 0%Z, db') /\
    is_Some (t_sessions db' !! 2%N).
Proof.
  destruct (run (Cleanup mgr (3 * hour)) (w_db two_sessions)) as [r db'] eqn:E.
  assert (r = Ok 0%Z) as -> by (vm_compute in E; injection E as <- _; reflexivity).
  exists db'. split; [reflexivity|].
  destruct (t_sessions (w_db two_sessions) !! 2%N) as [row|] eqn:Hrow;
    [|exfalso; vm_compute in Hrow; discriminate Hrow].
  exists row. refine (proj2 (proj2 (proj2 (cleanup_removes_exactly_stale mgr (3 * hour)
    (w_db two_sessions) 0 db' eq_refl _ E))) _ 2%N row Hrow _ _).
  - apply mexec_ok, empty_db_ok.
  - vm_compute. discriminate.
  - vm_compute in Hrow. injection Hrow as <-. reflexivity.
  - vm_compute in Hrow. injection Hrow as <-. vm_compute. discriminate.
Defined.

(** [RevokeAllForIdentity] deactivates every session of the identity and no
    other. *)
Lemma RevokeAllForIdentity_spec m identity dbnow w w' :
  RevokeAllForIdentity m identity dbnow w = (Ok tt, w') ->
  forall id row, t_sessions (w_db w') !! id = Some row ->
    (row_identity row = identity -> row_active row = false) /\
    (row_identity row <> identity -> t_sessions (w_db w) !! id = Some row).
Proof.
  intros [(? & _ & [= _ E])|(? & ? & ?)]%stmt_cases; [|done].
  intros id row. rewrite <- E. simpl. rewrite lookup_fmap_Some. intros (r & Hr & Hl).
  destruct (N.eqb_spec (row_identity r) identity) as [Ei|Ei]; simpl in Hr.
  - destruct (row_active r) eqn:Ea; subst row; simpl; split; try done; congruence.
  - subst row. split; [congruence|done].
Qed.

(** After [RevokeAllForIdentity] succeeds, no token opens a session of
    that identity, and every session of another identity that was reachable
    by a token is still found in the same row. *)
Theorem revoke_all_locks_out_identity m identity dbnow w w1 token now1 now2 s w2 :
  RevokeAllForIdentity m identity dbnow w = (Ok tt, w1) ->
  Get m token now1 now2 w1 = (Ok s, w2) ->
  IdentityID s <> identity /\
  exists row, t_sessions (w_db w) !! ID s = Some row /\ row_identity row = IdentityID s /\
    row_active row = true.
Proof.
  intros Hrev Hget.
  apply Get_live in Hget as (row & Hrow & Hact & _ & _ & _ & Hs & _).
  destruct (RevokeAllForIdentity_spec _ _ _ _ _ Hrev _ _ Hrow) as [Hin Hout].
  assert (Hid : IdentityID s = row_identity row) by by rewrite Hs.
  assert (row_identity row <> identity) as Hne by (intros E; apply Hin in E; congruence).
  rewrite Hid. split; [done|]. exists row. auto.
Qed.

Definition other_identity : world session_db :=
  mexec mgr [MCreate 7 "password" device0 0 1 (Some "a") (Some "b");
             MCreate 8 "passkey" device0 0 2 (Some "c") (Some "d")] (World empty_db []).

Lemma revoke_all_locks_out_identity_witness :
  exists s w2, Get mgr (b64url_Encode "c") 5 5 (RevokeAllForIdentity mgr 7 3 other_identity).2 = (Ok s, w2) /\
    IdentityID s <> 7%N.
Proof.
  destruct (Get mgr (b64url_Encode "c") 5 5 (RevokeAllForIdentity mgr 7 3 other_identity).2)
    as [[s|e] w2] eqn:E; [|exfalso; vm_compute in E; discriminate E].
  exists s, w2. split; [reflexivity|].
  apply (proj1 (revoke_all_locks_out_identity mgr 7 3 other_identity
    (RevokeAllForIdentity mgr 7 3 other_identity).2 (b64url_Encode "c") 5 5 s w2
    ltac:(vm_compute; reflexivity) E)).
Defined.

(** ** Behaviours worth knowing *)

(** The same second factor presented twice reaches [aal2]: a session created
    with TOTP starts at [aal1], and a second TOTP raises it, although the
    comment in [computeAAL] asks for a combination of factors. *)
Lemma same_factor_twice_reaches_aal2 :
  let w := mexec mgr [MCreate 7 "totp" device0 0 1 (Some "a") (Some "b"); MAddAuth 1 "totp" 4 4]
             (World empty_db []) in
  (row_aal <$> t_sessions (w_db w) !! 1%N) = Some AAL2 /\
  (am_Method <$> methods_of 1 (t_methods (w_db w))) = ["totp"; "totp"].
Proof. vm_compute. split; reflexivity. Qed.

(** [Create] is two statements without a transaction: when the second fails it
    reports an error but the session row of the first stays, active. *)
Lemma failed_create_leaves_session :
  let '(r, w) := Create mgr 7 "password" device0 0 1 (Some "a") (Some "b")
                   (World empty_db [None; Some "connection reset"]) in
  is_ok r = false /\ (row_active <$> t_sessions (w_db w) !! 1%N) = Some true.
Proof. vm_compute. split; reflexivity. Qed.
