(* ===== verification/SessionContext.v ===== *)
(** core/session/context.go: handing a session to a module in signed headers,
    and the session stored in a request context; and the path from a signed
    session cookie to the session (session.go, [SetCookie] and
    [GetFromRequest]). *)

From Stdlib Require Import Ascii String.
From S2P Require Import Prelude GoStrings GoEncoding GoSha256 PlatformCrypto GoHttp SignedHeaders Session.

Local Open Scope string_scope.

(** ** Signed headers *)

Definition HeaderPrefix : string := "X-Aegion-Session-".

(** What a module learns about the caller's session. *)
Record Context : Type := {
  ctx_SessionID : uuid;
  ctx_IdentityID : uuid;
  ctx_AAL : AAL;
  ctx_RequestID : string;
  ctx_IsAdmin : bool;
}.

(** A request context: what is stored under the session key, by either
    [WithSession] or [WithContext]. *)
Inductive ctx_value : Type :=
| CtxEmpty
| CtxSession (s : option Session)
| CtxContext (c : option Context).

Definition WithSession (ctx : ctx_value) (s : option Session) : ctx_value := CtxSession s.
Definition FromContext (ctx : ctx_value) : option Session :=
  match ctx with CtxSession s => s | _ => None end.
Definition WithContext (ctx : ctx_value) (c : option Context) : ctx_value := CtxContext c.
Definition GetContext (ctx : ctx_value) : option Context :=
  match ctx with CtxContext c => c | _ => None end.

Section context.
Context `{UuidText}.

Definition context_headers (sid iid aal : string) : gmap string string :=
  <["Session-ID" := sid]> (<["Identity-ID" := iid]> (<["AAL" := aal]> ∅)).

(** The loop over the map sets three different headers; its order is
    immaterial. *)
Definition InjectHeaders (r : Request) (session : option Session) (secret : string) (now : time) : Request :=
  match session with
  | None => r
  | Some s =>
      let headers := context_headers (uuid_string (ID s)) (uuid_string (IdentityID s)) (SessionAAL s) in
      let h := Header_Set (Header_Set (Header_Set (GoHttp.Header r)
                 (HeaderPrefix +:+ "Session-ID") (uuid_string (ID s)))
                 (HeaderPrefix +:+ "Identity-ID") (uuid_string (IdentityID s)))
                 (HeaderPrefix +:+ "AAL") (SessionAAL s) in
      match SignSessionContextHeaders secret headers now with
      | Err _ => set_Header r h
      | Ok sig => set_Header r (Header_Set h (HeaderPrefix +:+ "Signature") sig)
      end
  end.

Definition VerifyHeaders (r : Request) (secret : string) (now : time) : result session_error Context :=
  let get k := Header_Get (GoHttp.Header r) k in
  let headers := context_headers (get (HeaderPrefix +:+ "Session-ID"))
                   (get (HeaderPrefix +:+ "Identity-ID")) (get (HeaderPrefix +:+ "AAL")) in
  let actualSig := get (HeaderPrefix +:+ "Signature") in
  if negb (VerifySessionContextHeaders secret headers actualSig now) then Err ErrSessionInvalid
  else match uuid_parse (get (HeaderPrefix +:+ "Session-ID")) with
       | None => Err ErrSessionInvalid
       | Some sessionID =>
           match uuid_parse (get (HeaderPrefix +:+ "Identity-ID")) with
           | None => Err ErrSessionInvalid
           | Some identityID =>
               Ok {| ctx_SessionID := sessionID; ctx_IdentityID := identityID;
                     ctx_AAL := get (HeaderPrefix +:+ "AAL");
                     ctx_RequestID := get "X-Request-ID"; ctx_IsAdmin := false |}
           end
       end.

(** [signHeaders]: the signature at the epoch, kept for tests. *)
Definition signHeaders (headers : gmap string string) (secret : string) : string :=
  match SignSessionContextHeaders secret headers 0 with Ok sig => sig | Err _ => "" end.

(** ** The canonical payload *)

Lemma payload_text sid iid aal :
  CanonicalSessionContextPayload (context_headers sid iid aal) =
  "aal:" +:+ TrimSpace aal +:+ nl +:+ "identity-id:" +:+ TrimSpace iid +:+ nl +:+
  "session-id:" +:+ TrimSpace sid.
Proof.
  unfold CanonicalSessionContextPayload.
  replace (sort_Strings (map fst (map_to_list (context_headers sid iid aal))))
    with ["AAL"; "Identity-ID"; "Session-ID"] by reflexivity.
  unfold session_line, context_headers. simpl map.
  rewrite lookup_insert_eq.
  rewrite (lookup_insert_ne _ "Session-ID" "AAL"), (lookup_insert_ne _ "Identity-ID" "AAL"),
    (lookup_insert_ne _ "Session-ID" "Identity-ID"), !lookup_insert_eq by done.
  reflexivity.
Qed.

(** The payload determines the trimmed header values. *)
Lemma payload_inj sid iid aal sid' iid' aal' :
  Forall (fun v => str_forall (not_char "010") v = true) [sid; iid; aal; sid'; iid'; aal'] ->
  CanonicalSessionContextPayload (context_headers sid iid aal) =
    CanonicalSessionContextPayload (context_headers sid' iid' aal') ->
  TrimSpace sid = TrimSpace sid' /\ TrimSpace iid = TrimSpace iid' /\ TrimSpace aal = TrimSpace aal'.
Proof.
  rewrite !payload_text. unfold nl. rewrite !Forall_cons. intros (H1 & H2 & H3 & H4 & H5 & H6 & _).
  assert (Ht : forall v, str_forall (not_char "010") v = true ->
    str_forall (not_char "010") (TrimSpace v) = true).
  { intros v Hv. by apply trim_right_forall, trim_left_forall. }
  simpl. intros [= E].
  apply str_app_sep_inj in E as [-> E]; auto. simpl in E. injection E as E.
  apply str_app_sep_inj in E as [-> E]; auto. simpl in E. by injection E as ->.
Qed.

(** A module that receives the headers [InjectHeaders] wrote, within the
    five minutes of the envelope and with the same secret, recovers exactly the
    session id, identity and level of the session, and the request id, and
    never an admin flag. *)
Theorem session_headers_round_trip r s secret t0 t1 :
  secret <> "" -> in_int64 (time_unix t0) -> in_int64 (time_unix t1) ->
  (time_unix t0 <= time_unix t1)%Z -> (time_unix t1 - time_unix t0 <= 300)%Z ->
  VerifyHeaders (InjectHeaders r (Some s) secret t0) secret t1 =
    Ok {| ctx_SessionID := ID s; ctx_IdentityID := IdentityID s; ctx_AAL := SessionAAL s;
          ctx_RequestID := Header_Get (GoHttp.Header r) "X-Request-ID"; ctx_IsAdmin := false |}.
Proof.
  intros Hs H0 H1 Hle Hage. unfold InjectHeaders.
  destruct (VerifyEnvelope_sign sessionContextEnvelopeKind secret
    (CanonicalSessionContextPayload (context_headers (uuid_string (ID s)) (uuid_string (IdentityID s)) (SessionAAL s)))
    t0 t1 defaultSessionEnvelopeTTL) as (env & Hsign & Hver); try done.
  unfold SignSessionContextHeaders. rewrite Hsign. unfold VerifyHeaders, VerifySessionContextHeaders.
  cbn [GoHttp.Header set_Header]. autorewrite with aegion.
  rewrite Hver. cbn [negb]. by rewrite !uuid_parse_string.
Qed.

(** [VerifyHeaders] accepts a request only if its signature header carries
    the MAC, under a non-empty secret and a timestamp at most five minutes old,
    of the canonical payload of exactly the session id, identity id and level
    headers it was sent with, and the two ids parse to the returned ones. *)
Theorem session_headers_authentic r secret now c :
  VerifyHeaders r secret now = Ok c ->
  exists ts sig,
    parseEnvelope (Header_Get (GoHttp.Header r) "X-Aegion-Session-Signature") = Ok (ts, sig) /\
    secret <> "" /\ fresh 300 (time_unix now) ts /\
    hex_DecodeString sig = Some (hmac_sha256 secret (envelopeMessage sessionContextEnvelopeKind ts
      ("aal:" +:+ TrimSpace (Header_Get (GoHttp.Header r) "X-Aegion-Session-AAL") +:+ nl +:+
       "identity-id:" +:+ TrimSpace (Header_Get (GoHttp.Header r) "X-Aegion-Session-Identity-ID") +:+ nl +:+
       "session-id:" +:+ TrimSpace (Header_Get (GoHttp.Header r) "X-Aegion-Session-Session-ID")))) /\
    uuid_parse (Header_Get (GoHttp.Header r) "X-Aegion-Session-Session-ID") = Some (ctx_SessionID c) /\
    uuid_parse (Header_Get (GoHttp.Header r) "X-Aegion-Session-Identity-ID") = Some (ctx_IdentityID c) /\
    ctx_AAL c = Header_Get (GoHttp.Header r) "X-Aegion-Session-AAL" /\ ctx_IsAdmin c = false.
Proof.
  unfold VerifyHeaders. destruct (VerifySessionContextHeaders _ _ _ _) eqn:Hv; [|done]. cbn [negb].
  intros Hok. split_matches. unfold VerifySessionContextHeaders, VerifyEnvelope in Hv.
  apply cVerifyEnvelope_sound in Hv as (ts & sig & Hp & Hs & Hf & Hh).
  rewrite payload_text in Hh. exists ts, sig. split_and!; done.
Qed.
End context.

Definition plain_request : Request :=
  {| Method := "GET"; URL_Path := "/"; URL_RawQuery := ""; Host := "mod"; RemoteAddr := "10.0.0.1:5";
     TLS := true; Cookies := []; Header := Header_Set ∅ "X-Request-ID" "req-1" |}.
Definition some_session : Session :=
  {| ID := 3; Token := "t"; IdentityID := 4; SessionAAL := AAL1; IssuedAt := 0; ExpiresAt := 100;
     AuthenticatedAt := 0; LogoutToken := ""; Devices := []; Active := true; IsImpersonation := false;
     ImpersonatorID := None; AuthMethods := []; CreatedAt := 0; UpdatedAt := 0 |}.

Lemma session_headers_round_trip_witness :
  @VerifyHeaders unary_uuid (@InjectHeaders unary_uuid plain_request (Some some_session) "k" 0) "k" (9 * second) =
    Ok {| ctx_SessionID := 3; ctx_IdentityID := 4; ctx_AAL := AAL1; ctx_RequestID := "req-1"; ctx_IsAdmin := false |}.
Proof.
  apply (@session_headers_round_trip unary_uuid plain_request some_session "k" 0 (9 * second));
    vm_compute; try discriminate; split; discriminate.
Defined.

Definition signed_request : Request :=
  @InjectHeaders unary_uuid plain_request (Some some_session) "k" 0.

Lemma session_headers_authentic_witness :
  exists ts sig,
    parseEnvelope (Header_Get (GoHttp.Header signed_request) "X-Aegion-Session-Signature") = Ok (ts, sig) /\
    fresh 300 (time_unix (9 * second)) ts.
Proof.
  destruct (@session_headers_authentic unary_uuid signed_request "k" (9 * second)
    {| ctx_SessionID := 3; ctx_IdentityID := 4; ctx_AAL := AAL1; ctx_RequestID := "req-1"; ctx_IsAdmin := false |}
    ltac:(vm_compute; reflexivity)) as (ts & sig & H1 & _ & H2 & _).
  exists ts, sig. split; assumption.
Defined.

(** ** From cookie to session *)

(** A browser that returns the cookie [SetCookie] issued is, until the
    session lifespan has passed, served the session of the cookie's token,
    whatever other credentials the request carries; and when the cookie is
    absent, empty or badly signed the bearer token and then the session-token
    header decide. *)
Theorem cookie_opens_its_session m s r t0 t1 now1 now2 :
  m_cookieSecret m <> "" -> in_int64 (time_unix t0) -> in_int64 (time_unix t1) -> in_int64 (m_lifespan m) ->
  (time_unix t0 <= time_unix t1)%Z ->
  (time_unix t1 - time_unix t0 <= max_age_seconds (m_lifespan m))%Z ->
  (Request_Cookie (Cookies r) (ck_Name (m_cookieConfig m)) = Some (Manager.c_Value (Manager.SetCookie m s t0)) ->
   Manager.GetFromRequest m r t1 now1 now2 = Manager.Get m (Token s) now1 now2) /\
  (forall forged, Request_Cookie (Cookies r) (ck_Name (m_cookieConfig m)) = Some forged ->
   is_ok (Manager.verifySignedToken m forged t1) = false ->
   Manager.GetFromRequest m r t1 now1 now2 =
   if HasPrefix (Header_Get (GoHttp.Header r) "Authorization") "Bearer "
   then Manager.Get m (TrimPrefix (Header_Get (GoHttp.Header r) "Authorization") "Bearer ") now1 now2
   else if String.eqb (Header_Get (GoHttp.Header r) "X-Session-Token") ""
   then throw ErrSessionNotFound
   else Manager.Get m (Header_Get (GoHttp.Header r) "X-Session-Token") now1 now2).
Proof.
  intros Hs H0 H1 Hm Hle Hage. split.
  - intros Hc. unfold Manager.GetFromRequest, Manager.request_token. rewrite Hc.
    unfold Manager.SetCookie, Manager.signToken. simpl.
    destruct (cookie_round_trip (m_cookieSecret m) (Token s) (time_unix t0)
      (max_age_seconds (m_lifespan m)) (time_unix t1) Hs H0) as (c & Hsign & Hver).
    { by apply fresh_window. }
    unfold SignSessionCookieValue. rewrite Hsign.
    destruct (String.eqb_spec c "") as [->|_]; [vm_compute in Hver; discriminate Hver|].
    unfold Manager.verifySignedToken, VerifySessionCookieValue. by rewrite Hver.
  - intros forged Hc Hbad. unfold Manager.GetFromRequest, Manager.request_token. rewrite Hc.
    destruct (Manager.verifySignedToken m forged t1); [done|].
    destruct (String.eqb forged ""), (HasPrefix _ "Bearer "),
      (String.eqb (Header_Get (GoHttp.Header r) "X-Session-Token") ""); done.
Qed.

Definition cookie_request : Request :=
  {| Method := "GET"; URL_Path := "/"; URL_RawQuery := ""; Host := "app"; RemoteAddr := "10.0.0.1:5";
     TLS := true;
     Cookies := [("aegion", Manager.c_Value (Manager.SetCookie
       (Manager.NewManager true "secret"
         {| ck_Name := "aegion"; ck_Path := "/"; ck_Domain := ""; ck_SameSite := 1; ck_Secure := true;
            ck_HTTPOnly := true |} hour 0 0 0) some_session 0))];
     Header := ∅ |}.

Lemma cookie_opens_its_session_witness :
  let m := Manager.NewManager true "secret"
    {| ck_Name := "aegion"; ck_Path := "/"; ck_Domain := ""; ck_SameSite := 1; ck_Secure := true;
       ck_HTTPOnly := true |} hour 0 0 0 in
  Manager.GetFromRequest m cookie_request (60 * second) 1 1 = Manager.Get m "t" 1 1.
Proof.
  intros m. refine (proj1 (cookie_opens_its_session m some_session cookie_request 0 (60 * second) 1 1 _ _ _ _ _ _) _).
  - discriminate.
  - vm_compute; split; discriminate.
  - vm_compute; split; discriminate.
  - vm_compute; split; discriminate.
  - vm_compute; discriminate.
  - vm_compute; discriminate.
  - vm_compute. reflexivity.
Defined.
