(* ===== verification/Flows.v ===== *)
(** core/flows/flow.go and nodes.go: self-service flows, their life cycle,
    CSRF protection and the form nodes shown to the user. *)

From Stdlib Require Import Ascii String.
From S2P Require Import Prelude GoStrings GoEncoding PlatformCrypto.

Local Open Scope string_scope.

(** ** Types, states and errors *)

Abbreviation FlowType := string (only parsing).
Definition TypeLogin : FlowType := "login".
Definition TypeRegistration : FlowType := "registration".
Definition TypeRecovery : FlowType := "recovery".
Definition TypeSettings : FlowType := "settings".
Definition TypeVerification : FlowType := "verification".

Abbreviation FlowState := string (only parsing).
Definition StateActive : FlowState := "active".
Definition StateCompleted : FlowState := "completed".
Definition StateFailed : FlowState := "failed".
Definition StateExpired : FlowState := "expired".

Definition DefaultTTL : duration := (15 * minute)%Z.

Definition FlowType_Valid (t : FlowType) : bool :=
  existsb (String.eqb t) [TypeLogin; TypeRegistration; TypeRecovery; TypeSettings; TypeVerification].
Definition FlowState_Valid (s : FlowState) : bool :=
  existsb (String.eqb s) [StateActive; StateCompleted; StateFailed; StateExpired].
Definition IsTerminal (s : FlowState) : bool :=
  String.eqb s StateCompleted || String.eqb s StateFailed || String.eqb s StateExpired.

(** [PanicNilUI] is the run-time panic of a field access through a nil [UI]. *)
Inductive flow_error : Type :=
| ErrFlowNotFound
| ErrFlowExpired
| ErrFlowCompleted
| ErrFlowFailed
| ErrInvalidCSRF
| ErrInvalidFlowType
| ErrRandom
| ErrJSON
| PanicNilUI
| FlowDb (e : db_error).

#[global] Instance flow_dberr : DbErr flow_error := FlowDb.

(** ** UI *)

(** Values of type [any] in flow contexts and node attributes. *)
Inductive any : Type :=
| ANil
| ABool (b : bool)
| ANum (z : Z)
| AStr (s : string)
| AUuid (u : N).

#[global] Instance any_eq_dec : EqDecision any.
Proof. solve_decision. Defined.

Record Msg : Type := {
  msg_ID : string;
  msg_Type : string;
  msg_Text : string;
  msg_Context : any;
}.
Definition MsgTypeInfo : string := "info".
Definition MsgTypeError : string := "error".
Definition MsgTypeSuccess : string := "success".
Definition MsgTypeWarning : string := "warning".

(** Node and input types. *)
Definition NodeTypeInput : string := "input".
Definition NodeTypeText : string := "text".
Definition NodeTypeSubmit : string := "submit".
Definition NodeTypeError : string := "error".
Definition NodeTypeInfo : string := "info".
Definition NodeTypeScript : string := "script".
Definition NodeTypeImage : string := "image".
Definition NodeTypeAnchor : string := "anchor".

Definition InputTypeText : string := "text".
Definition InputTypePassword : string := "password".
Definition InputTypeEmail : string := "email".
Definition InputTypeHidden : string := "hidden".
Definition InputTypeSubmit : string := "submit".

Record NodeAttributes : Type := {
  at_Name : string;
  at_Type : string;
  at_Value : any;
  at_Required : bool;
  at_Disabled : bool;
  at_Pattern : string;
  at_Autocomplete : string;
  at_Label : string;
  at_Placeholder : string;
  at_MaxLength : Z;
  at_MinLength : Z;
  at_Href : string;
  at_Src : string;
  at_Alt : string;
  at_ID : string;
  at_OnClick : string;
  at_NodeValue : string;
}.

Definition zero_attributes : NodeAttributes :=
  {| at_Name := ""; at_Type := ""; at_Value := ANil; at_Required := false; at_Disabled := false;
     at_Pattern := ""; at_Autocomplete := ""; at_Label := ""; at_Placeholder := "";
     at_MaxLength := 0; at_MinLength := 0; at_Href := ""; at_Src := ""; at_Alt := ""; at_ID := "";
     at_OnClick := ""; at_NodeValue := "" |}.

Record TextMeta : Type := { tm_ID : string; tm_Text : string; tm_Type : string }.
Record NodeMeta : Type := { nm_Label : option TextMeta; nm_Description : string }.
Definition zero_meta : NodeMeta := {| nm_Label := None; nm_Description := "" |}.

Record Node : Type := {
  node_Type : string;
  node_Group : string;
  node_Attributes : NodeAttributes;
  node_Messages : list Msg;
  node_Meta : NodeMeta;
}.

Record UIState : Type := {
  ui_Action : string;
  ui_Method : string;
  ui_Nodes : list Node;
  ui_Messages : list Msg;
}.

(** Error messages. *)
Definition ErrIDInternalError : string := "error.internal".
Definition ErrorMessages : list (string * string) := [
  ("error.invalid_credentials", "The credentials provided are invalid.");
  ("error.account_not_found", "No account found with this identifier.");
  ("error.email_taken", "This email address is already registered.");
  ("error.username_taken", "This username is already taken.");
  ("error.password_too_weak", "The password does not meet security requirements.");
  ("error.password_mismatch", "The passwords do not match.");
  ("error.invalid_email", "Please enter a valid email address.");
  ("error.session_expired", "Your session has expired. Please start again.");
  ("error.csrf_invalid", "Security validation failed. Please try again.");
  ("error.flow_expired", "This action has expired. Please start again.");
  ("error.recovery_code_invalid", "The recovery code is invalid or has expired.");
  ("error.too_many_attempts", "Too many attempts. Please try again later.");
  (ErrIDInternalError, "An unexpected error occurred. Please try again.") ].

Definition assoc (k : string) (l : list (string * string)) : option string :=
  snd <$> List.find (fun p => String.eqb p.1 k) l.

Definition GetErrorMessage (errID : string) : string :=
  match assoc errID ErrorMessages with
  | Some msg => msg
  | None => default "" (assoc ErrIDInternalError ErrorMessages)
  end.

(** Node constructors. *)
Definition set_attr_input (a : NodeAttributes) (name type : string) (v : any) (req : bool) : NodeAttributes :=
  {| at_Name := name; at_Type := type; at_Value := v; at_Required := req; at_Disabled := at_Disabled a;
     at_Pattern := at_Pattern a; at_Autocomplete := at_Autocomplete a; at_Label := at_Label a;
     at_Placeholder := at_Placeholder a; at_MaxLength := at_MaxLength a; at_MinLength := at_MinLength a;
     at_Href := at_Href a; at_Src := at_Src a; at_Alt := at_Alt a; at_ID := at_ID a;
     at_OnClick := at_OnClick a; at_NodeValue := at_NodeValue a |}.
Definition set_attr_text (a : NodeAttributes) (id href value : string) : NodeAttributes :=
  {| at_Name := at_Name a; at_Type := at_Type a; at_Value := at_Value a; at_Required := at_Required a;
     at_Disabled := at_Disabled a; at_Pattern := at_Pattern a; at_Autocomplete := at_Autocomplete a;
     at_Label := at_Label a; at_Placeholder := at_Placeholder a; at_MaxLength := at_MaxLength a;
     at_MinLength := at_MinLength a; at_Href := href; at_Src := at_Src a; at_Alt := at_Alt a; at_ID := id;
     at_OnClick := at_OnClick a; at_NodeValue := value |}.

Definition NewInputNode (name inputType label : string) (required : bool) : Node :=
  {| node_Type := NodeTypeInput; node_Group := "default";
     node_Attributes := set_attr_input zero_attributes name inputType ANil required;
     node_Messages := [];
     node_Meta := {| nm_Label := Some {| tm_ID := "label." +:+ name; tm_Text := label; tm_Type := "" |};
                     nm_Description := "" |} |}.

Definition NewHiddenNode (name : string) (value : any) : Node :=
  {| node_Type := NodeTypeInput; node_Group := "default";
     node_Attributes := set_attr_input zero_attributes name InputTypeHidden value false;
     node_Messages := []; node_Meta := zero_meta |}.

Definition NewSubmitNode (name label : string) : Node :=
  {| node_Type := NodeTypeSubmit; node_Group := "default";
     node_Attributes := set_attr_input zero_attributes name InputTypeSubmit (AStr label) false;
     node_Messages := [];
     node_Meta := {| nm_Label := Some {| tm_ID := "button." +:+ name; tm_Text := label; tm_Type := "" |};
                     nm_Description := "" |} |}.

Definition NewTextNode (id text : string) : Node :=
  {| node_Type := NodeTypeText; node_Group := "default";
     node_Attributes := set_attr_text zero_attributes id "" text; node_Messages := []; node_Meta := zero_meta |}.

Definition NewErrorNode (errID : string) : Node :=
  {| node_Type := NodeTypeError; node_Group := "default"; node_Attributes := zero_attributes;
     node_Messages := [{| msg_ID := errID; msg_Type := MsgTypeError; msg_Text := GetErrorMessage errID;
                          msg_Context := ANil |}];
     node_Meta := zero_meta |}.

Definition NewInfoNode (id text : string) : Node :=
  {| node_Type := NodeTypeInfo; node_Group := "default";
     node_Attributes := set_attr_text zero_attributes id "" text; node_Messages := []; node_Meta := zero_meta |}.

Definition NewAnchorNode (id href text : string) : Node :=
  {| node_Type := NodeTypeAnchor; node_Group := "default";
     node_Attributes := set_attr_text zero_attributes id href text; node_Messages := []; node_Meta := zero_meta |}.

Definition GenerateLoginFormNodes (csrfToken : string) : list Node := [
  NewHiddenNode "csrf_token" (AStr csrfToken);
  NewInputNode "identifier" InputTypeEmail "Email or Username" true;
  NewInputNode "password" InputTypePassword "Password" true;
  NewSubmitNode "method" "Sign In" ].

Definition GenerateRegistrationFormNodes (csrfToken : string) : list Node := [
  NewHiddenNode "csrf_token" (AStr csrfToken);
  NewInputNode "email" InputTypeEmail "Email" true;
  NewInputNode "password" InputTypePassword "Password" true;
  NewInputNode "password_confirm" InputTypePassword "Confirm Password" true;
  NewSubmitNode "method" "Create Account" ].

Definition GenerateRecoveryFormNodes (csrfToken : string) : list Node := [
  NewHiddenNode "csrf_token" (AStr csrfToken);
  NewInputNode "email" InputTypeEmail "Email" true;
  NewSubmitNode "method" "Send Recovery Link" ].

Definition GenerateSettingsFormNodes (csrfToken : string) : list Node := [
  NewHiddenNode "csrf_token" (AStr csrfToken);
  NewInputNode "current_password" InputTypePassword "Current Password" true;
  NewInputNode "new_password" InputTypePassword "New Password" true;
  NewInputNode "new_password_confirm" InputTypePassword "Confirm New Password" true;
  NewSubmitNode "method" "Update Password" ].

Definition GenerateVerificationFormNodes (csrfToken : string) : list Node := [
  NewHiddenNode "csrf_token" (AStr csrfToken);
  NewInputNode "code" InputTypeText "Verification Code" true;
  NewSubmitNode "method" "Verify" ].

(** Node modifiers. *)
Definition upd_attrs (a : NodeAttributes) (dis : bool) (pat auto ph : string) (maxl minl : Z) : NodeAttributes :=
  {| at_Name := at_Name a; at_Type := at_Type a; at_Value := at_Value a; at_Required := at_Required a;
     at_Disabled := dis; at_Pattern := pat; at_Autocomplete := auto; at_Label := at_Label a;
     at_Placeholder := ph; at_MaxLength := maxl; at_MinLength := minl;
     at_Href := at_Href a; at_Src := at_Src a; at_Alt := at_Alt a; at_ID := at_ID a;
     at_OnClick := at_OnClick a; at_NodeValue := at_NodeValue a |}.
Definition with_attrs (n : Node) (f : NodeAttributes -> NodeAttributes) : Node :=
  {| node_Type := node_Type n; node_Group := node_Group n; node_Attributes := f (node_Attributes n);
     node_Messages := node_Messages n; node_Meta := node_Meta n |}.

Definition AddNodeToGroup (node : Node) (group : string) : Node :=
  {| node_Type := node_Type node; node_Group := group; node_Attributes := node_Attributes node;
     node_Messages := node_Messages node; node_Meta := node_Meta node |}.
Definition WithAutocomplete (node : Node) (autocomplete : string) : Node :=
  with_attrs node (fun a => upd_attrs a (at_Disabled a) (at_Pattern a) autocomplete (at_Placeholder a)
    (at_MaxLength a) (at_MinLength a)).
Definition WithPlaceholder (node : Node) (placeholder : string) : Node :=
  with_attrs node (fun a => upd_attrs a (at_Disabled a) (at_Pattern a) (at_Autocomplete a) placeholder
    (at_MaxLength a) (at_MinLength a)).
Definition WithPattern (node : Node) (pattern : string) : Node :=
  with_attrs node (fun a => upd_attrs a (at_Disabled a) pattern (at_Autocomplete a) (at_Placeholder a)
    (at_MaxLength a) (at_MinLength a)).
Definition WithMinLength (node : Node) (minLen : Z) : Node :=
  with_attrs node (fun a => upd_attrs a (at_Disabled a) (at_Pattern a) (at_Autocomplete a) (at_Placeholder a)
    (at_MaxLength a) minLen).
Definition WithMaxLength (node : Node) (maxLen : Z) : Node :=
  with_attrs node (fun a => upd_attrs a (at_Disabled a) (at_Pattern a) (at_Autocomplete a) (at_Placeholder a)
    maxLen (at_MinLength a)).
Definition WithDisabled (node : Node) (disabled : bool) : Node :=
  with_attrs node (fun a => upd_attrs a disabled (at_Pattern a) (at_Autocomplete a) (at_Placeholder a)
    (at_MaxLength a) (at_MinLength a)).

(** ** Flows *)

Record Flow : Type := {
  ID : uuid;
  Type_ : FlowType;
  State : FlowState;
  IdentityID : option uuid;
  SessionID : option uuid;
  RequestURL : string;
  ReturnTo : string;
  UI : option UIState;
  Context : gmap string any;
  IssuedAt : time;
  ExpiresAt : time;
  CSRFToken : string;
  CreatedAt : time;
  UpdatedAt : time;
}.

(** Field updates; each setter of the code also stamps [UpdatedAt]. *)
Definition upd_flow (f : Flow) (st : FlowState) (i s : option uuid) (ret : string) (ui : option UIState)
    (c : gmap string any) (t : time) : Flow :=
  {| ID := ID f; Type_ := Type_ f; State := st; IdentityID := i; SessionID := s;
     RequestURL := RequestURL f; ReturnTo := ret; UI := ui; Context := c; IssuedAt := IssuedAt f;
     ExpiresAt := ExpiresAt f; CSRFToken := CSRFToken f; CreatedAt := CreatedAt f; UpdatedAt := t |}.
Definition set_state (f : Flow) (st : FlowState) (t : time) : Flow :=
  upd_flow f st (IdentityID f) (SessionID f) (ReturnTo f) (UI f) (Context f) t.
Definition set_ui (f : Flow) (ui : option UIState) : Flow :=
  upd_flow f (State f) (IdentityID f) (SessionID f) (ReturnTo f) ui (Context f) (UpdatedAt f).

(** [rand] is the answer of the entropy source for 32 bytes. *)
Definition GenerateCSRFToken (rand : option string) : result flow_error string :=
  match rand with
  | None => Err ErrRandom
  | Some b => Ok (b64url_Encode b)
  end.

Definition ValidateCSRFToken (expected actual : string) : bool :=
  if (String.length expected =? 0)%nat || (String.length actual =? 0)%nat then false
  else ConstantTimeCompare expected actual.

Definition NewFlow (flowType : FlowType) (requestURL : string) (ttl : duration)
    (now : time) (newID : uuid) (rand : option string) : result flow_error Flow :=
  if negb (FlowType_Valid flowType) then Err ErrInvalidFlowType
  else
    let ttl := if (ttl <=? 0)%Z then DefaultTTL else ttl in
    csrf ← GenerateCSRFToken rand;
    Ok {| ID := newID; Type_ := flowType; State := StateActive; IdentityID := None; SessionID := None;
          RequestURL := requestURL; ReturnTo := "";
          UI := Some {| ui_Action := ""; ui_Method := ""; ui_Nodes := []; ui_Messages := [] |};
          Context := ∅; IssuedAt := now; ExpiresAt := time_add now ttl; CSRFToken := csrf;
          CreatedAt := now; UpdatedAt := now |}.

Definition IsExpired (f : Flow) (now : time) : bool := time_after now (ExpiresAt f).
Definition IsActive (f : Flow) (now : time) : bool := String.eqb (State f) StateActive && negb (IsExpired f now).

Definition ValidateCSRF (f : Flow) (token : string) : result flow_error unit :=
  if negb (ValidateCSRFToken (CSRFToken f) token) then Err ErrInvalidCSRF else Ok tt.

Definition Complete (f : Flow) (now : time) : result flow_error Flow :=
  if IsTerminal (State f) then Err ErrFlowCompleted else Ok (set_state f StateCompleted now).
Definition Fail_ (f : Flow) (now : time) : Flow :=
  if negb (IsTerminal (State f)) then set_state f StateFailed now else f.
Definition Expire (f : Flow) (now : time) : Flow :=
  if negb (IsTerminal (State f)) then set_state f StateExpired now else f.

Definition SetIdentity (f : Flow) (identityID : uuid) (now : time) : Flow :=
  upd_flow f (State f) (Some identityID) (SessionID f) (ReturnTo f) (UI f) (Context f) now.
Definition SetSession (f : Flow) (sessionID : uuid) (now : time) : Flow :=
  upd_flow f (State f) (IdentityID f) (Some sessionID) (ReturnTo f) (UI f) (Context f) now.
Definition SetReturnTo (f : Flow) (returnTo : string) (now : time) : Flow :=
  upd_flow f (State f) (IdentityID f) (SessionID f) returnTo (UI f) (Context f) now.
Definition AddContext (f : Flow) (key : string) (value : any) (now : time) : Flow :=
  upd_flow f (State f) (IdentityID f) (SessionID f) (ReturnTo f) (UI f) (<[key := value]> (Context f)) now.
Definition GetContext (f : Flow) (key : string) : option any := Context f !! key.

(** ** Lemmas *)

Lemma ValidateCSRFToken_spec e a : ValidateCSRFToken e a = true <-> e <> "" /\ e = a.
Proof.
  unfold ValidateCSRFToken. destruct e as [|c e]; [naive_solver|]. destruct a as [|d a]; [naive_solver|].
  simpl. rewrite ConstantTimeCompare_eqb, String.eqb_eq. naive_solver.
Qed.

Lemma IsTerminal_not_active s : IsTerminal s = true -> s <> StateActive.
Proof. by intros H ->. Qed.
