(* ===== verification/FlowStore.v ===== *)
(** core/flows/store.go: the [FlowStore] interface as a class of operations
    with its laws, and the PostgreSQL store that implements it over the table
    [core_flows] (core/migrations/0003_core_flows.up.sql). *)

From Stdlib Require Import Ascii String.
From S2P Require Import Prelude GoStrings Flows.

Local Open Scope string_scope.

(** ** The interface *)

Abbreviation FM S := (M S flow_error).

(** [now] is the store's clock and [dbnow] the database's [NOW()]. *)
Class FlowStore (S : Type) := {
  fs_Create : Flow -> FM S unit;
  fs_Get : uuid -> FM S Flow;
  fs_GetByCSRF : string -> FM S Flow;
  fs_Update : Flow -> time -> time -> FM S unit;
  fs_Delete : uuid -> FM S unit;
  fs_DeleteExpired : time -> FM S Z;
  fs_ListByIdentity : uuid -> FlowType -> FM S (list Flow);
}.

(** What the service relies on: the columns that decide whether a flow may be
    used, without the JSON documents and the modification stamp. *)
Definition core (f : Flow) : Flow := upd_flow f (State f) (IdentityID f) (SessionID f) (ReturnTo f) None ∅ 0%Z.

(** [UPDATE] keeps the issue and creation times and the CSRF token. *)
Definition merge_core (old f : Flow) : Flow :=
  {| ID := ID old; Type_ := Type_ f; State := State f; IdentityID := IdentityID f; SessionID := SessionID f;
     RequestURL := RequestURL f; ReturnTo := ReturnTo f; UI := None; Context := ∅;
     IssuedAt := IssuedAt old; ExpiresAt := ExpiresAt f; CSRFToken := CSRFToken old;
     CreatedAt := CreatedAt old; UpdatedAt := 0%Z |}.

Definition stale (dbnow : time) (f : Flow) : bool := (ExpiresAt f <? dbnow)%Z || IsTerminal (State f).

Class FlowStoreLaws (S : Type) `{FlowStore S} := {
  fs_view : S -> gmap N Flow;
  fs_Create_law f w r w' :
    fs_Create f w = (r, w') ->
    (r = Ok tt /\ fs_view (w_db w) !! ID f = None /\
     fs_view (w_db w') = <[ID f := core f]> (fs_view (w_db w))) \/
    (exists e, r = Err e /\ fs_view (w_db w') = fs_view (w_db w));
  fs_Get_law id w r w' :
    fs_Get id w = (r, w') ->
    fs_view (w_db w') = fs_view (w_db w) /\
    (forall f, r = Ok f -> ID f = id /\ fs_view (w_db w) !! id = Some (core f));
  fs_GetByCSRF_law tok w r w' :
    fs_GetByCSRF tok w = (r, w') ->
    fs_view (w_db w') = fs_view (w_db w) /\
    (forall f, r = Ok f -> CSRFToken f = tok /\ State f = StateActive /\
                           fs_view (w_db w) !! ID f = Some (core f));
  fs_Update_law f now dbnow w r w' :
    fs_Update f now dbnow w = (r, w') ->
    (exists old, r = Ok tt /\ fs_view (w_db w) !! ID f = Some old /\
       fs_view (w_db w') = <[ID f := merge_core old f]> (fs_view (w_db w))) \/
    (exists e, r = Err e /\ fs_view (w_db w') = fs_view (w_db w));
  fs_Delete_law id w r w' :
    fs_Delete id w = (r, w') ->
    (r = Ok tt /\ fs_view (w_db w') = delete id (fs_view (w_db w))) \/
    (exists e, r = Err e /\ fs_view (w_db w') = fs_view (w_db w));
  fs_DeleteExpired_law dbnow w r w' :
    fs_DeleteExpired dbnow w = (r, w') ->
    (exists n, r = Ok n /\
       fs_view (w_db w') = filter (fun '(_, f) => stale dbnow f = false) (fs_view (w_db w))) \/
    (exists e, r = Err e /\ fs_view (w_db w') = fs_view (w_db w));
}.

(** ** The PostgreSQL store *)

(** The JSON documents of the columns [ui] and [context] and the package
    [encoding/json]: [json] is the type of JSONB values, and encoding fails
    for values JSON cannot represent. *)
Class FlowJson := {
  json : Type;
  ui_Marshal : option UIState -> option json;
  ui_Unmarshal : json -> option (option UIState);
  ctx_Marshal : gmap string any -> option json;
  ctx_Unmarshal : json -> option (gmap string any);
}.

(** The check constraints of the table, and those of the shipped migration. *)
Record flow_schema : Type := { type_check : string -> bool; state_check : string -> bool }.
Definition shipped_schema : flow_schema :=
  {| type_check t := existsb (String.eqb t) ["login"; "registration"; "recovery"; "settings"; "verification"];
     state_check s := existsb (String.eqb s) ["active"; "complete"; "failed"] |}.

Section postgres.
Context `{FlowJson} (schema : flow_schema).

Record flow_row : Type := {
  fr_type : FlowType;
  fr_state : FlowState;
  fr_identity : option uuid;
  fr_session : option uuid;
  fr_request_url : string;
  fr_return_to : string;
  fr_ui : json;
  fr_context : json;
  fr_issued : time;
  fr_expires : time;
  fr_csrf : string;
  fr_created : time;
  fr_updated : time;
}.

(** The flows, and the keys of the two tables their foreign keys refer to. *)
Record flow_db : Type := {
  t_flows : gmap N flow_row;
  t_identity_ids : gset N;
  t_session_ids : gset N;
}.

Definition with_flows (db : flow_db) (fs : gmap N flow_row) : flow_db :=
  {| t_flows := fs; t_identity_ids := t_identity_ids db; t_session_ids := t_session_ids db |}.

Definition fk_ok (o : option uuid) (ids : gset N) : bool :=
  match o with None => true | Some i => bool_decide (i ∈ ids) end.

(** The constraints a written row meets. *)
Definition row_check (db : flow_db) (row : flow_row) : result db_error unit :=
  if negb (type_check schema (fr_type row)) then Err (CheckViolation "core_flows_type_check")
  else if negb (state_check schema (fr_state row)) then Err (CheckViolation "core_flows_state_check")
  else if negb (fk_ok (fr_identity row) (t_identity_ids db)) then Err (ForeignKeyViolation "core_flows_identity_id_fkey")
  else if negb (fk_ok (fr_session row) (t_session_ids db)) then Err (ForeignKeyViolation "core_flows_session_id_fkey")
  else Ok tt.

Definition row_of_flow (flow : Flow) (ui ctx : json) : flow_row :=
  {| fr_type := Type_ flow; fr_state := State flow; fr_identity := IdentityID flow;
     fr_session := SessionID flow; fr_request_url := RequestURL flow; fr_return_to := ReturnTo flow;
     fr_ui := ui; fr_context := ctx; fr_issued := IssuedAt flow; fr_expires := ExpiresAt flow;
     fr_csrf := CSRFToken flow; fr_created := CreatedAt flow; fr_updated := UpdatedAt flow |}.

Definition insert_flow (id : uuid) (row : flow_row) (db : flow_db) : result db_error (unit * flow_db) :=
  _ ← row_check db row;
  if bool_decide (is_Some (t_flows db !! id)) then Err (UniqueViolation "core_flows_pkey")
  else Ok (tt, with_flows db (<[id := row]> (t_flows db))).

Definition marshal {A} (o : option A) : FM flow_db A := lift_result (result_of_option ErrJSON o).

Definition Create (flow : Flow) : FM flow_db unit :=
  ui ← marshal (ui_Marshal (UI flow));
  ctx ← marshal (ctx_Marshal (Context flow));
  db_stmt (insert_flow (ID flow) (row_of_flow flow ui ctx)).

(** The flow a scanned row denotes. *)
Definition flow_of_row (id : uuid) (row : flow_row) (ui : option UIState) (ctx : gmap string any) : Flow :=
  {| ID := id; Type_ := fr_type row; State := fr_state row; IdentityID := fr_identity row;
     SessionID := fr_session row; RequestURL := fr_request_url row; ReturnTo := fr_return_to row;
     UI := ui; Context := ctx; IssuedAt := fr_issued row; ExpiresAt := fr_expires row;
     CSRFToken := fr_csrf row; CreatedAt := fr_created row; UpdatedAt := fr_updated row |}.

Definition decode_row (id : uuid) (row : flow_row) : result flow_error Flow :=
  ui ← result_of_option ErrJSON (ui_Unmarshal (fr_ui row));
  ctx ← result_of_option ErrJSON (ctx_Unmarshal (fr_context row));
  Ok (flow_of_row id row ui ctx).

(** [pgx.ErrNoRows] is reported as [ErrFlowNotFound]. *)
Definition no_rows {A} (m : FM flow_db A) : FM flow_db A :=
  M_try m (fun r => match r with
                    | Err (FlowDb NoRows) => throw ErrFlowNotFound
                    | r => lift_result r
                    end).

Definition select_flow (id : uuid) (db : flow_db) : result db_error ((N * flow_row) * flow_db) :=
  match t_flows db !! id with
  | Some row => Ok ((id, row), db)
  | None => Err NoRows
  end.

Definition Get (id : uuid) : FM flow_db Flow :=
  '(id, row) ← no_rows (db_stmt (select_flow id));
  lift_result (decode_row id row).

(** [csrf_token] is not unique: the query returns one of the matching rows. *)
Definition select_by_csrf (tok : string) (db : flow_db) : result db_error ((N * flow_row) * flow_db) :=
  match List.find (fun p => String.eqb (fr_csrf p.2) tok && String.eqb (fr_state p.2) "active")
          (map_to_list (t_flows db)) with
  | Some r => Ok (r, db)
  | None => Err NoRows
  end.

Definition GetByCSRF (csrfToken : string) : FM flow_db Flow :=
  '(id, row) ← no_rows (db_stmt (select_by_csrf csrfToken));
  lift_result (decode_row id row).

(** The columns [UPDATE] sets; the trigger overrides [updated_at]. *)
Definition updated_row (old : flow_row) (flow : Flow) (ui ctx : json) (dbnow : time) : flow_row :=
  {| fr_type := Type_ flow; fr_state := State flow; fr_identity := IdentityID flow;
     fr_session := SessionID flow; fr_request_url := RequestURL flow; fr_return_to := ReturnTo flow;
     fr_ui := ui; fr_context := ctx; fr_issued := fr_issued old; fr_expires := ExpiresAt flow;
     fr_csrf := fr_csrf old; fr_created := fr_created old; fr_updated := dbnow |}.

(** The statement's result is the number of rows affected. *)
Definition update_flow (flow : Flow) (ui ctx : json) (dbnow : time) (db : flow_db)
    : result db_error (Z * flow_db) :=
  match t_flows db !! ID flow with
  | None => Ok (0%Z, db)
  | Some old =>
      let row := updated_row old flow ui ctx dbnow in
      _ ← row_check db row;
      Ok (1%Z, with_flows db (<[ID flow := row]> (t_flows db)))
  end.

Definition affected {S} (n : Z) : FM S unit :=
  if (n =? 0)%Z then throw ErrFlowNotFound else mret tt.

(** The stamp [now] is written into the caller's flow and then overridden in
    the row by the trigger. *)
Definition Update (flow : Flow) (now dbnow : time) : FM flow_db unit :=
  ui ← marshal (ui_Marshal (UI flow));
  ctx ← marshal (ctx_Marshal (Context flow));
  let flow := set_state flow (State flow) now in
  n ← db_stmt (update_flow flow ui ctx dbnow);
  affected n.

Definition Delete (id : uuid) : FM flow_db unit :=
  n ← db_stmt (fun db => Ok (if bool_decide (is_Some (t_flows db !! id)) then 1%Z else 0%Z,
                             with_flows db (delete id (t_flows db))));
  affected n.

Definition row_stale (dbnow : time) (row : flow_row) : bool :=
  (fr_expires row <? dbnow)%Z || existsb (String.eqb (fr_state row)) ["completed"; "failed"; "expired"].

Definition DeleteExpired (dbnow : time) : FM flow_db Z :=
  db_stmt (fun db =>
    let kept := filter (fun '(_, row) => row_stale dbnow row = false) (t_flows db) in
    Ok (Z.of_nat (size (t_flows db) - size kept), with_flows db kept)).

(** [ORDER BY created_at DESC]. *)
Fixpoint insert_by_created (x : N * flow_row) (l : list (N * flow_row)) : list (N * flow_row) :=
  match l with
  | [] => [x]
  | y :: ys => if (fr_created y.2 <? fr_created x.2)%Z then x :: l else y :: insert_by_created x ys
  end.
Definition sort_by_created (l : list (N * flow_row)) : list (N * flow_row) :=
  fold_left (fun acc x => insert_by_created x acc) l [].

Definition select_by_identity (identityID : uuid) (flowType : FlowType) (db : flow_db)
    : result db_error (list (N * flow_row) * flow_db) :=
  Ok (sort_by_created (List.filter (fun p =>
        bool_decide (fr_identity p.2 = Some identityID) && String.eqb (fr_type p.2) flowType &&
        String.eqb (fr_state p.2) "active") (map_to_list (t_flows db))), db).

Fixpoint decode_rows (rows : list (N * flow_row)) : result flow_error (list Flow) :=
  match rows with
  | [] => Ok []
  | (id, row) :: rows' =>
      f ← decode_row id row;
      fs ← decode_rows rows';
      Ok (f :: fs)
  end.

Definition ListByIdentity (identityID : uuid) (flowType : FlowType) : FM flow_db (list Flow) :=
  rows ← db_stmt (select_by_identity identityID flowType);
  lift_result (decode_rows rows).

(** The store as an implementation of the interface. *)
#[local] Instance PostgresFlowStore : FlowStore flow_db := {
  fs_Create := Create;
  fs_Get := Get;
  fs_GetByCSRF := GetByCSRF;
  fs_Update := Update;
  fs_Delete := Delete;
  fs_DeleteExpired := DeleteExpired;
  fs_ListByIdentity := ListByIdentity;
}.

(** ** The store keeps the interface's promises *)

Definition row_core (id : uuid) (row : flow_row) : Flow := core (flow_of_row id row None ∅).
Definition flow_view (db : flow_db) : gmap N Flow := map_imap (fun id row => Some (row_core id row)) (t_flows db).

Lemma flow_view_lookup db id : flow_view db !! id = row_core id <$> t_flows db !! id.
Proof. unfold flow_view. rewrite map_lookup_imap. by destruct (t_flows db !! id). Qed.

Lemma flow_view_insert db id row :
  flow_view (with_flows db (<[id := row]> (t_flows db))) = <[id := row_core id row]> (flow_view db).
Proof.
  apply map_eq; intros i. rewrite flow_view_lookup; simpl.
  destruct (decide (i = id)) as [->|Hne]; [by rewrite !lookup_insert_eq|].
  rewrite !lookup_insert_ne by done. by rewrite flow_view_lookup.
Qed.

Lemma row_stale_core id dbnow row : row_stale dbnow row = stale dbnow (row_core id row).
Proof.
  unfold row_stale, stale, IsTerminal; cbn [existsb row_core flow_of_row core upd_flow ExpiresAt State].
  by rewrite orb_false_r, !orb_assoc.
Qed.

Lemma decode_row_core id row f : decode_row id row = Ok f -> ID f = id /\ core f = row_core id row.
Proof. intros (? & ? & (? & ? & [=<-])%result_bind_ok)%result_bind_ok. done. Qed.

(** A query that hands the same tables back leaves the view alone. *)
Lemma no_rows_read {A} (q : flow_db -> result db_error (A * flow_db)) w r w' :
  (forall db a db', q db = Ok (a, db') -> db' = db) ->
  no_rows (db_stmt q) w = (r, w') ->
  w_db w' = w_db w /\ (forall a, r = Ok a -> q (w_db w) = Ok (a, w_db w)).
Proof.
  intros Hq. unfold no_rows, M_try. destruct (db_stmt q w) as [r1 w1] eqn:E.
  apply db_stmt_cases in E as [(a & -> & E)|(e & -> & E)]; cbn.
  - intros [= <- <-]. pose proof (Hq _ _ _ E) as Hw. rewrite Hw in E |- *. naive_solver.
  - destruct e as [ | | | | | | | | |[]]; intros [= <- <-]; naive_solver.
Qed.

Lemma select_then_decode (q : flow_db -> result db_error ((N * flow_row) * flow_db)) w r w' :
  (forall db a db', q db = Ok (a, db') -> db' = db) ->
  ('(id, row) ← no_rows (db_stmt q); lift_result (decode_row id row)) w = (r, w') ->
  w_db w' = w_db w /\
  (forall f, r = Ok f -> exists id row, q (w_db w) = Ok ((id, row), w_db w) /\
                                        ID f = id /\ core f = row_core id row).
Proof.
  intros Hq. rewrite M_bind_run. destruct (no_rows _ w) as [[[id row]|e] w1] eqn:E; cbn.
  - apply no_rows_read in E as [Hw Hok]; [|done]. intros [= <- <-]. split; [done|].
    intros f Hd. exists id, row. split; [by apply Hok|]. by apply decode_row_core.
  - apply no_rows_read in E as [Hw _]; [|done]. intros [= <- <-]. split; [done|]. naive_solver.
Qed.

Lemma Postgres_Create_law : forall f w r w',
    Create f w = (r, w') ->
    (r = Ok tt /\ flow_view (w_db w) !! ID f = None /\
     flow_view (w_db w') = <[ID f := core f]> (flow_view (w_db w))) \/
    (exists e, r = Err e /\ flow_view (w_db w') = flow_view (w_db w)).
Proof.
  intros f w r w'. unfold Create, marshal, lift_result. rewrite M_bind_run.
  destruct (ui_Marshal (UI f)) as [ui|]; cbn; [|intros [= <- <-]; eauto].
  rewrite M_bind_run. destruct (ctx_Marshal (Context f)) as [ctx|]; cbn; [|intros [= <- <-]; eauto].
  intros [([] & -> & E)|(e & -> & E)]%db_stmt_cases; [left|right; rewrite E; eauto].
  unfold insert_flow in E. apply result_bind_ok in E as ([] & _ & E). case_bool_decide as Hx; [done|].
  injection E as E. rewrite <- E, flow_view_insert, flow_view_lookup, eq_None_not_Some.
  split_and!; [done| |done]. by intros ?%fmap_is_Some.
Qed.

Lemma Postgres_Get_law : forall id w r w',
    Get id w = (r, w') ->
    flow_view (w_db w') = flow_view (w_db w) /\
    (forall f, r = Ok f -> ID f = id /\ flow_view (w_db w) !! id = Some (core f)).
Proof.
  intros id w r w' [Hw Hok]%select_then_decode; [|unfold select_flow; intros; by split_matches].
  rewrite Hw. split; [done|]. intros f (id' & row & Hq & Hid & Hc)%Hok.
  unfold select_flow in Hq. rewrite flow_view_lookup. split_matches. by rewrite Hc.
Qed.

Lemma Postgres_GetByCSRF_law : forall tok w r w',
    GetByCSRF tok w = (r, w') ->
    flow_view (w_db w') = flow_view (w_db w) /\
    (forall f, r = Ok f -> CSRFToken f = tok /\ State f = StateActive /\
                           flow_view (w_db w) !! ID f = Some (core f)).
Proof.
  intros tok w r w' [Hw Hok]%select_then_decode; [|unfold select_by_csrf; intros; by split_matches].
  rewrite Hw. split; [done|]. intros f (id' & row & Hq & Hid & Hc)%Hok.
  unfold select_by_csrf in Hq. split_matches.
  match goal with Hf : List.find _ _ = Some _ |- _ => apply List.find_some in Hf as [Hin Hp] end.
  cbn in Hp. bool_to_prop. apply list_elem_of_In, elem_of_map_to_list in Hin.
  rewrite flow_view_lookup, Hin; cbn. rewrite Hc.
  assert (CSRFToken f = CSRFToken (core f) /\ State f = State (core f)) as [-> ->] by done.
  by rewrite Hc.
Qed.

Lemma Postgres_Update_law : forall f now dbnow w r w',
    Update f now dbnow w = (r, w') ->
    (exists old, r = Ok tt /\ flow_view (w_db w) !! ID f = Some old /\
       flow_view (w_db w') = <[ID f := merge_core old f]> (flow_view (w_db w))) \/
    (exists e, r = Err e /\ flow_view (w_db w') = flow_view (w_db w)).
Proof.
  intros f now dbnow w r w'. unfold Update, marshal, lift_result. rewrite M_bind_run.
  destruct (ui_Marshal (UI f)) as [ui|]; cbn; [|intros [= <- <-]; eauto].
  rewrite M_bind_run. destruct (ctx_Marshal (Context f)) as [ctx|]; cbn; [|intros [= <- <-]; eauto].
  rewrite M_bind_run. destruct (db_stmt _ w) as [r1 w1] eqn:E.
  apply db_stmt_cases in E as [(n & -> & E)|(e & -> & E)]; cbn; [|intros [= <- <-]; right; rewrite E; eauto].
  unfold update_flow in E; cbn in E. destruct (t_flows (w_db w) !! ID f) as [old|] eqn:Hold.
  + apply result_bind_ok in E as ([] & _ & E). injection E as <- E. intros [= <- <-]. left.
    exists (row_core (ID f) old). rewrite <- E, flow_view_insert, flow_view_lookup, Hold. done.
  + injection E as <- E. intros [= <- <-]. right. rewrite E. eauto.
Qed.

Lemma Postgres_Delete_law : forall id w r w',
    Delete id w = (r, w') ->
    (r = Ok tt /\ flow_view (w_db w') = delete id (flow_view (w_db w))) \/
    (exists e, r = Err e /\ flow_view (w_db w') = flow_view (w_db w)).
Proof.
  intros id w r w'. unfold Delete. rewrite M_bind_run. destruct (db_stmt _ w) as [r1 w1] eqn:E.
  apply db_stmt_cases in E as [(n & -> & E)|(e & -> & E)]; cbn; [|intros [= <- <-]; right; rewrite E; eauto].
  injection E as Hn E. assert (flow_view (w_db w1) = delete id (flow_view (w_db w))) as Hv.
  { rewrite <- E. apply map_eq; intros i. rewrite flow_view_lookup; cbn.
    destruct (decide (i = id)) as [->|Hne]; [by rewrite !lookup_delete_eq|].
    by rewrite !lookup_delete_ne, flow_view_lookup by done. }
  case_bool_decide as Hx; subst n; cbn; intros [= <- <-]; [by left|]. right. eexists; split; [done|].
  rewrite Hv. apply delete_id. rewrite flow_view_lookup. apply eq_None_not_Some in Hx. by rewrite Hx.
Qed.

Lemma Postgres_DeleteExpired_law : forall dbnow w r w',
    DeleteExpired dbnow w = (r, w') ->
    (exists n, r = Ok n /\
       flow_view (w_db w') = filter (fun '(_, f) => stale dbnow f = false) (flow_view (w_db w))) \/
    (exists e, r = Err e /\ flow_view (w_db w') = flow_view (w_db w)).
Proof.
  intros dbnow w r w' [(n & -> & E)|(e & -> & E)]%db_stmt_cases; [left|right; rewrite E; eauto].
  exists n; split; [done|]. injection E as _ E. rewrite <- E. apply map_eq; intros i.
  rewrite flow_view_lookup; cbn. apply option_eq; intros f.
  rewrite fmap_Some, map_lookup_filter_Some, flow_view_lookup, fmap_Some. split.
  + intros (row & (Hl & Hs)%map_lookup_filter_Some & ->). rewrite (row_stale_core i) in Hs. naive_solver.
  + intros [(row & Hl & ->) Hs]. exists row. rewrite <- row_stale_core in Hs.
    split; [|done]. by apply map_lookup_filter_Some.
Qed.

#[local] Instance PostgresFlowStoreLaws : FlowStoreLaws flow_db := {
  fs_view := flow_view;
  fs_Create_law := Postgres_Create_law;
  fs_Get_law := Postgres_Get_law;
  fs_GetByCSRF_law := Postgres_GetByCSRF_law;
  fs_Update_law := Postgres_Update_law;
  fs_Delete_law := Postgres_Delete_law;
  fs_DeleteExpired_law := Postgres_DeleteExpired_law;
}.
End postgres.
