(* ===== verification/FlowService.v ===== *)
(** core/flows/service.go: the flow service over any [FlowStore].

    The safety theorems are proved against the laws of the interface, so they
    hold for every store and every pattern of store failures; the theorems
    about particular results are for the PostgreSQL store.  [now] arguments
    are the successive clock readings of an operation. *)

From Stdlib Require Import Ascii String.
From S2P Require Import Prelude GoStrings GoEncoding PlatformCrypto Flows FlowStore.

Local Open Scope string_scope.

Record AuthMethod : Type := { am_Method : string; am_Provider : string; am_Config : any }.
Definition method (m : string) : AuthMethod := {| am_Method := m; am_Provider := ""; am_Config := ANil |}.

Record Config : Type := {
  LoginTTL : duration;
  RegistrationTTL : duration;
  RecoveryTTL : duration;
  SettingsTTL : duration;
  VerificationTTL : duration;
  DefaultMethods : list AuthMethod;
}.

Definition DefaultConfig : Config :=
  {| LoginTTL := 15 * minute; RegistrationTTL := 30 * minute; RecoveryTTL := 15 * minute;
     SettingsTTL := 30 * minute; VerificationTTL := 24 * hour; DefaultMethods := [method "password"] |}.

(** The configuration the service keeps: non-positive lifetimes are replaced. *)
Definition NewService (c : Config) : Config :=
  let ttl d := if (d <=? 0)%Z then DefaultTTL else d in
  {| LoginTTL := ttl (LoginTTL c); RegistrationTTL := ttl (RegistrationTTL c);
     RecoveryTTL := ttl (RecoveryTTL c); SettingsTTL := ttl (SettingsTTL c);
     VerificationTTL := ttl (VerificationTTL c); DefaultMethods := DefaultMethods c |}.

Definition form_ui (flow : Flow) (nodes : list Node) : option UIState :=
  Some {| ui_Action := RequestURL flow; ui_Method := "POST"; ui_Nodes := nodes; ui_Messages := [] |}.
Definition generateLoginUI (flow : Flow) := form_ui flow (GenerateLoginFormNodes (CSRFToken flow)).
Definition generateRegistrationUI (flow : Flow) := form_ui flow (GenerateRegistrationFormNodes (CSRFToken flow)).
Definition generateRecoveryUI (flow : Flow) := form_ui flow (GenerateRecoveryFormNodes (CSRFToken flow)).
Definition generateSettingsUI (flow : Flow) := form_ui flow (GenerateSettingsFormNodes (CSRFToken flow)).
Definition generateVerificationUI (flow : Flow) := form_ui flow (GenerateVerificationFormNodes (CSRFToken flow)).

(** The check, and the caller's flow after it. *)
Definition checkFlowState (flow : Flow) (now now' : time) : result flow_error unit * Flow :=
  if IsExpired flow now then
    (Err ErrFlowExpired, if String.eqb (State flow) StateActive then Expire flow now' else flow)
  else if String.eqb (State flow) StateCompleted then (Err ErrFlowCompleted, flow)
  else if String.eqb (State flow) StateFailed then (Err ErrFlowFailed, flow)
  else if String.eqb (State flow) StateExpired then (Err ErrFlowExpired, flow)
  else (Ok tt, flow).

(** What a creation draws from its environment: the clock, [uuid.New] and the
    entropy source. *)
Record draws : Type := { d_now : time; d_id : uuid; d_rand : option string }.

Section service.
Context {S : Type} `{FlowStore S} (s : Config).

Definition start (t : FlowType) (url : string) (ttl : duration) (d : draws) : FM S Flow :=
  lift_result (NewFlow t url ttl (d_now d) (d_id d) (d_rand d)).

Definition CreateLoginFlow (requestURL : string) (d : draws) : FM S Flow :=
  flow ← start TypeLogin requestURL (LoginTTL s) d;
  let flow := set_ui flow (generateLoginUI flow) in
  _ ← fs_Create flow;
  mret flow.

Definition CreateRegistrationFlow (requestURL : string) (d : draws) : FM S Flow :=
  flow ← start TypeRegistration requestURL (RegistrationTTL s) d;
  let flow := set_ui flow (generateRegistrationUI flow) in
  _ ← fs_Create flow;
  mret flow.

Definition CreateRecoveryFlow (requestURL : string) (d : draws) : FM S Flow :=
  flow ← start TypeRecovery requestURL (RecoveryTTL s) d;
  let flow := set_ui flow (generateRecoveryUI flow) in
  _ ← fs_Create flow;
  mret flow.

Definition CreateSettingsFlow (requestURL : string) (identityID sessionID : uuid) (d : draws)
    (now1 now2 : time) : FM S Flow :=
  flow ← start TypeSettings requestURL (SettingsTTL s) d;
  let flow := SetIdentity flow identityID now1 in
  let flow := SetSession flow sessionID now2 in
  let flow := set_ui flow (generateSettingsUI flow) in
  _ ← fs_Create flow;
  mret flow.

Definition CreateVerificationFlow (requestURL : string) (identityID : option uuid) (d : draws)
    (now1 : time) : FM S Flow :=
  flow ← start TypeVerification requestURL (VerificationTTL s) d;
  let flow := match identityID with Some i => SetIdentity flow i now1 | None => flow end in
  let flow := set_ui flow (generateVerificationUI flow) in
  _ ← fs_Create flow;
  mret flow.

(** [checkFlowState] followed by the early return. *)
Definition checked (flow : Flow) (now now' : time) : FM S Flow :=
  let '(r, flow) := checkFlowState flow now now' in
  _ ← lift_result r;
  mret flow.

Definition GetFlow (id : uuid) (now now' : time) : FM S Flow :=
  flow ← fs_Get id;
  checked flow now now'.

Definition ValidateFlow (id : uuid) (csrfToken : string) (now now' : time) : FM S Flow :=
  flow ← fs_Get id;
  flow ← checked flow now now';
  _ ← lift_result (ValidateCSRF flow csrfToken);
  mret flow.

Definition ValidateFlowByCSRF (csrfToken : string) (now now' : time) : FM S Flow :=
  flow ← fs_GetByCSRF csrfToken;
  checked flow now now'.

Definition CompleteFlow (id : uuid) (now now' dbnow : time) : FM S unit :=
  flow ← fs_Get id;
  flow ← lift_result (Flows.Complete flow now);
  fs_Update flow now' dbnow.

(** [flow.UI.Messages = append(flow.UI.Messages, msg)]: a nil [UI] panics. *)
Definition append_message (flow : Flow) (msg : Msg) : result flow_error Flow :=
  match UI flow with
  | None => Err PanicNilUI
  | Some ui => Ok (set_ui flow (Some {| ui_Action := ui_Action ui; ui_Method := ui_Method ui;
                                        ui_Nodes := ui_Nodes ui;
                                        ui_Messages := (ui_Messages ui ++ [msg])%list |}))
  end.

Definition FailFlow (id : uuid) (errMsg : string) (now now' dbnow : time) : FM S unit :=
  flow ← fs_Get id;
  let flow := Flows.Fail_ flow now in
  flow ← (if negb (String.eqb errMsg "") then
            lift_result (append_message flow
              {| msg_ID := "flow_error"; msg_Type := MsgTypeError; msg_Text := errMsg; msg_Context := ANil |})
          else mret flow);
  fs_Update flow now' dbnow.

Definition UpdateFlowUI (id : uuid) (ui : option UIState) (now' dbnow : time) : FM S unit :=
  flow ← fs_Get id;
  fs_Update (set_ui flow ui) now' dbnow.

Definition AddFlowMessage (id : uuid) (msg : Msg) (now' dbnow : time) : FM S unit :=
  flow ← fs_Get id;
  flow ← lift_result (append_message flow msg);
  fs_Update flow now' dbnow.

(** A nil flow is [None]. *)
Definition UpdateFlow (flow : option Flow) (now' dbnow : time) : FM S unit :=
  match flow with
  | None => throw ErrFlowNotFound
  | Some flow => fs_Update flow now' dbnow
  end.

Definition GetFlowMethods (flowType : FlowType) : list AuthMethod :=
  if String.eqb flowType TypeLogin then DefaultMethods s
  else if String.eqb flowType TypeRegistration then DefaultMethods s
  else if String.eqb flowType TypeRecovery then [method "link"; method "code"]
  else if String.eqb flowType TypeSettings then [method "password"; method "profile"]
  else if String.eqb flowType TypeVerification then [method "link"; method "code"]
  else [].

Definition Cleanup (dbnow : time) : FM S Z := fs_DeleteExpired dbnow.

(** ** Requests to the service, in any order *)

Inductive request : Type :=
| RLogin (url : string) (d : draws)
| RRegistration (url : string) (d : draws)
| RRecovery (url : string) (d : draws)
| RSettings (url : string) (i se : uuid) (d : draws) (n1 n2 : time)
| RVerification (url : string) (i : option uuid) (d : draws) (n1 : time)
| RGet (id : uuid) (n n' : time)
| RValidate (id : uuid) (tok : string) (n n' : time)
| RValidateByCSRF (tok : string) (n n' : time)
| RComplete (id : uuid) (n n' db : time)
| RFail (id : uuid) (msg : string) (n n' db : time)
| RUpdateUI (id : uuid) (ui : option UIState) (n' db : time)
| RMessage (id : uuid) (msg : Msg) (n' db : time)
| RUpdate (flow : option Flow) (n' db : time)
| RCleanup (db : time).

Definition discard {A} (m : FM S A) : FM S unit := _ ← m; mret tt.

Definition serve (r : request) : FM S unit :=
  match r with
  | RLogin url d => discard (CreateLoginFlow url d)
  | RRegistration url d => discard (CreateRegistrationFlow url d)
  | RRecovery url d => discard (CreateRecoveryFlow url d)
  | RSettings url i se d n1 n2 => discard (CreateSettingsFlow url i se d n1 n2)
  | RVerification url i d n1 => discard (CreateVerificationFlow url i d n1)
  | RGet id n n' => discard (GetFlow id n n')
  | RValidate id tok n n' => discard (ValidateFlow id tok n n')
  | RValidateByCSRF tok n n' => discard (ValidateFlowByCSRF tok n n')
  | RComplete id n n' db => CompleteFlow id n n' db
  | RFail id msg n n' db => FailFlow id msg n n' db
  | RUpdateUI id ui n' db => UpdateFlowUI id ui n' db
  | RMessage id msg n' db => AddFlowMessage id msg n' db
  | RUpdate flow n' db => UpdateFlow flow n' db
  | RCleanup db => discard (Cleanup db)
  end.

(** The identifier a request would create. *)
Definition creates (r : request) : option uuid :=
  match r with
  | RLogin _ d | RRegistration _ d | RRecovery _ d | RSettings _ _ _ d _ _ | RVerification _ _ d _ => Some (d_id d)
  | _ => None
  end.

(** The world after a sequence of requests, whatever each answered. *)
Definition serve_all (rs : list request) (w : world S) : world S :=
  fold_left (fun w r => (serve r w).2) rs w.
End service.

(** ** Abstract life cycle of one flow

    A flow is born active, is completed or failed once, and is removed only by
    a clean-up, once it has expired or ended.  [UpdateFlow] is the exception:
    it writes the state and the expiry of the copy its caller holds over
    whatever is stored. *)

Inductive phase : Type :=
| Absent
| Live (expires : time) (csrf : string)
| Ended (st : FlowState) (expires : time) (csrf : string).

Definition phase_of (o : option Flow) : phase :=
  match o with
  | None => Absent
  | Some f => if IsTerminal (State f) then Ended (State f) (ExpiresAt f) (CSRFToken f)
              else Live (ExpiresAt f) (CSRFToken f)
  end.

Definition phase_csrf (p : phase) : option string :=
  match p with Absent => None | Live _ c | Ended _ _ c => Some c end.
(** What a copy of a flow becomes when it is written over a stored flow. *)
Definition written (f : Flow) (csrf : string) : phase :=
  if IsTerminal (State f) then Ended (State f) (ExpiresAt f) csrf else Live (ExpiresAt f) csrf.

(** [life_step id r p p']: request [r] may take flow [id] from [p] to [p']. *)
Inductive life_step (id : uuid) (r : request) : phase -> phase -> Prop :=
| LStay p : life_step id r p p
| LBirth e c : creates r = Some id -> life_step id r Absent (Live e c)
| LComplete n n' db e c : r = RComplete id n n' db -> life_step id r (Live e c) (Ended StateCompleted e c)
| LFail msg n n' db e c : r = RFail id msg n n' db -> life_step id r (Live e c) (Ended StateFailed e c)
| LWrite f n' db p c : r = RUpdate (Some f) n' db -> ID f = id -> phase_csrf p = Some c ->
    life_step id r p (written f c)
| LExpire db e c : r = RCleanup db -> (e < db)%Z -> life_step id r (Live e c) Absent
| LReap db st e c : r = RCleanup db -> life_step id r (Ended st e c) Absent.

Section safety.
Context {S : Type} `{FlowStoreLaws S} (s : Config).
Abbreviation view w := (fs_view (w_db w)).

(** What the code does with the flow it has read never changes the columns
    that identify it, and changes the state as [Complete] and [Fail] do. *)
Definition same_flow (old f : Flow) : Prop :=
  ID f = ID old /\ ExpiresAt f = ExpiresAt old /\ CSRFToken f = CSRFToken old.

(** [set_ui], [append_message], [Fail] and [Complete] keep the identity. *)
Lemma append_message_same f m g : append_message f m = Ok g -> same_flow f g /\ State g = State f.
Proof. unfold append_message. destruct (UI f); [|done]. by intros [= <-]. Qed.

Lemma Fail_same f now : same_flow f (Fail_ f now) /\
  State (Fail_ f now) = if IsTerminal (State f) then State f else StateFailed.
Proof. unfold Fail_. by destruct (IsTerminal (State f)). Qed.

Lemma Complete_same f now g : Flows.Complete f now = Ok g ->
  same_flow f g /\ IsTerminal (State f) = false /\ State g = StateCompleted.
Proof. unfold Flows.Complete. destruct (IsTerminal (State f)); [done|]. by intros [= <-]. Qed.

(** A flow that is read, changed by [k] and written back. *)
Definition read_modify_write (id : uuid) (k : Flow -> result flow_error Flow) (now' dbnow : time) : FM S unit :=
  flow ← fs_Get id;
  flow ← lift_result (k flow);
  fs_Update flow now' dbnow.

Lemma read_modify_write_view id k now' dbnow w :
  (forall f g, k f = Ok g -> same_flow f g) ->
  view (read_modify_write id k now' dbnow w).2 = view w \/
  exists f g, view w !! id = Some (core f) /\ k f = Ok g /\
    view (read_modify_write id k now' dbnow w).2 = <[id := merge_core (core f) g]> (view w).
Proof.
  intros Hk. unfold read_modify_write, lift_result. rewrite M_bind_run.
  destruct (fs_Get id w) as [r w1] eqn:E. apply fs_Get_law in E as [Hv Hf].
  destruct r as [f|e]; [|by left]. destruct (Hf f eq_refl) as [Hid Hl]. rewrite M_bind_run.
  destruct (k f) as [g|e] eqn:Ek; [|by left]. destruct (Hk _ _ Ek) as (Hg & _).
  destruct (fs_Update g now' dbnow w1) as [r2 w2] eqn:E2; simpl.
  apply fs_Update_law in E2 as [(old & -> & Hold & Hw)|(e & -> & Hw)]; rewrite Hw, Hv; [right|by left].
  rewrite Hv, Hg, Hid, Hl in Hold. injection Hold as <-. rewrite Hg, Hid. naive_solver.
Qed.

Lemma CompleteFlow_rmw id n n' db w :
  CompleteFlow id n n' db w = read_modify_write id (fun f => Flows.Complete f n) n' db w.
Proof. done. Qed.

Lemma FailFlow_rmw id msg n n' db w :
  FailFlow id msg n n' db w =
  read_modify_write id (fun f => if negb (String.eqb msg "") then append_message (Fail_ f n)
     {| msg_ID := "flow_error"; msg_Type := MsgTypeError; msg_Text := msg; msg_Context := ANil |}
     else Ok (Fail_ f n)) n' db w.
Proof.
  unfold FailFlow, read_modify_write. rewrite !M_bind_run. destruct (fs_Get id w) as [[f|e] w1]; [|done].
  by destruct (negb _).
Qed.

Lemma UpdateFlowUI_rmw id ui n' db w :
  UpdateFlowUI id ui n' db w = read_modify_write id (fun f => Ok (set_ui f ui)) n' db w.
Proof. done. Qed.

Lemma AddFlowMessage_rmw id m n' db w :
  AddFlowMessage id m n' db w = read_modify_write id (fun f => append_message f m) n' db w.
Proof. done. Qed.

(** The phase of the flow a read-modify-write touches. *)
Lemma rmw_phase i id r k now' dbnow w :
  (forall f g, k f = Ok g -> same_flow f g) ->
  (forall f g, k f = Ok g -> id = i -> life_step i r (phase_of (Some f)) (phase_of (Some g))) ->
  life_step i r (phase_of (view w !! i)) (phase_of (view (read_modify_write id k now' dbnow w).2 !! i)).
Proof.
  intros Hk Hs. destruct (read_modify_write_view id k now' dbnow w Hk) as [->|(f & g & Hl & Ek & ->)]; [constructor|].
  destruct (decide (i = id)) as [->|Hne]; [|rewrite lookup_insert_ne by done; constructor].
  rewrite lookup_insert_eq, Hl. specialize (Hs f g Ek eq_refl). destruct (Hk f g Ek) as (_ & He & Hc).
  simpl in *. by rewrite Hc in Hs.
Qed.

(** A read leaves every phase alone. *)
Lemma read_view {A} (m : FM S Flow) (k : Flow -> FM S A) w :
  (forall w r w', m w = (r, w') -> view w' = view w) ->
  (forall f w, (k f w).2 = w) ->
  view ((m ≫= k) w).2 = view w.
Proof.
  intros Hm Hk. rewrite M_bind_run. destruct (m w) as [[f|e] w1] eqn:E; simpl; [rewrite Hk|]; eauto.
Qed.

Lemma checked_same (f : Flow) n n' (w : world S) : (checked f n n' w).2 = w.
Proof. unfold checked. destruct (checkFlowState f n n') as [[[]|] ?]; done. Qed.

Lemma discard_view {A} (m : FM S A) w : (discard m w).2 = (m w).2.
Proof. unfold discard. rewrite M_bind_run. by destruct (m w) as [[] ?]. Qed.

Lemma reads_view id tok n n' w :
  view (GetFlow id n n' w).2 = view w /\ view (ValidateFlow id tok n n' w).2 = view w /\
  view (ValidateFlowByCSRF tok n n' w).2 = view w.
Proof.
  split_and!; apply read_view; try (intros; apply checked_same).
  - intros ??? E. by apply fs_Get_law in E as [? _].
  - intros ??? E. by apply fs_Get_law in E as [? _].
  - intros f w0. rewrite M_bind_run. pose proof (checked_same f n n' w0) as Hc.
    destruct (checked f n n' w0) as [[g|e] w1]; simpl in *; subst; [|done].
    unfold lift_result. rewrite M_bind_run. by destruct (ValidateCSRF g tok).
  - intros ??? E. by apply fs_GetByCSRF_law in E as [? _].
Qed.

(** The five creations: a fresh flow, prepared, stored and returned. *)
Definition creation (r : request) : option (FM S Flow) :=
  match r with
  | RLogin url d => Some (CreateLoginFlow s url d)
  | RRegistration url d => Some (CreateRegistrationFlow s url d)
  | RRecovery url d => Some (CreateRecoveryFlow s url d)
  | RSettings url i se d n1 n2 => Some (CreateSettingsFlow s url i se d n1 n2)
  | RVerification url i d n1 => Some (CreateVerificationFlow s url i d n1)
  | _ => None
  end.

Definition creation_url (r : request) : string :=
  match r with
  | RLogin url _ | RRegistration url _ | RRecovery url _ | RSettings url _ _ _ _ _ | RVerification url _ _ _ => url
  | _ => ""
  end.
Definition creation_ttl (r : request) : duration :=
  match r with
  | RLogin _ _ => LoginTTL s
  | RRegistration _ _ => RegistrationTTL s
  | RRecovery _ _ => RecoveryTTL s
  | RSettings _ _ _ _ _ _ => SettingsTTL s
  | _ => VerificationTTL s
  end.
Definition creation_draws (r : request) : draws :=
  match r with
  | RLogin _ d | RRegistration _ d | RRecovery _ d | RSettings _ _ _ d _ _ | RVerification _ _ d _ => d
  | _ => {| d_now := 0; d_id := 0%N; d_rand := None |}
  end.

(** The hidden field every form starts with. *)
Definition carries_csrf (f : Flow) : Prop :=
  exists nodes, UI f = form_ui f (NewHiddenNode "csrf_token" (AStr (CSRFToken f)) :: nodes).

(** The flow a creation prepares before it stores it. *)
Definition prepared (r : request) (f : Flow) : Prop :=
  let d := creation_draws r in
  let ttl := creation_ttl r in
  exists b, d_rand d = Some b /\ CSRFToken f = b64url_Encode b /\ creates r = Some (ID f) /\
  State f = StateActive /\ RequestURL f = creation_url r /\
  ExpiresAt f = time_add (d_now d) (if (ttl <=? 0)%Z then DefaultTTL else ttl) /\
  Context f = ∅ /\ carries_csrf f.

Lemma creation_cases r m w :
  creation r = Some m ->
  (exists e, m w = (Err e, w)) \/
  (exists f, prepared r f /\ m w = (_ ← fs_Create f; mret f) w).
Proof.
  destruct r; intros [= <-]; unfold CreateLoginFlow, CreateRegistrationFlow, CreateRecoveryFlow,
    CreateSettingsFlow, CreateVerificationFlow, start, lift_result; rewrite M_bind_run;
    unfold NewFlow; cbn [FlowType_Valid negb]; unfold GenerateCSRFToken; destruct (d_rand d) as [b|] eqn:Eb;
    cbn -[minute hour]; try (left; by eexists); right; try destruct i; eexists; (split; [|reflexivity]);
    exists b; (split_and!; try done); by eexists.
Qed.

Lemma creation_view r m w :
  creation r = Some m ->
  view (m w).2 = view w \/
  exists f, prepared r f /\ view w !! ID f = None /\ view (m w).2 = <[ID f := core f]> (view w).
Proof.
  intros Hm. destruct (creation_cases r m w Hm) as [(e & ->)|(f & Hp & ->)]; [by left|].
  rewrite M_bind_run. destruct (fs_Create f w) as [[[]|e] w1] eqn:E; cbn;
    apply fs_Create_law in E; naive_solver.
Qed.

Lemma serve_creation r m w : creation r = Some m -> (serve s r w).2 = (m w).2.
Proof. destruct r; intros [= <-]; apply discard_view. Qed.

Lemma creation_phase r m w id :
  creation r = Some m ->
  life_step id r (phase_of (view w !! id)) (phase_of (view (m w).2 !! id)).
Proof.
  intros Hm. destruct (creation_view r m w Hm) as [->|(f & Hp & Hn & ->)]; [constructor|].
  destruct (decide (id = ID f)) as [->|Hne]; [|rewrite lookup_insert_ne by done; constructor].
  destruct Hp as (b & _ & _ & Hid & Hst & _). rewrite Hn, lookup_insert_eq. simpl. rewrite Hst. by constructor.
Qed.

Lemma cleanup_phase db w id :
  life_step id (RCleanup db) (phase_of (view w !! id)) (phase_of (view (Cleanup db w).2 !! id)).
Proof.
  unfold Cleanup. destruct (fs_DeleteExpired db w) as [r w1] eqn:E; simpl.
  apply fs_DeleteExpired_law in E as [(n & -> & ->)|(e & -> & ->)]; [|constructor].
  destruct (view w !! id) as [f|] eqn:Hf.
  - destruct (stale db f) eqn:Hs.
    + rewrite (proj2 (map_lookup_filter_None _ _ _)) by (right; intros; simplify_eq; congruence).
      simpl. unfold stale in Hs. destruct (IsTerminal (State f)); [by eapply LReap|].
      eapply LExpire; [done|]. rewrite orb_false_r in Hs. by bool_to_prop.
    + rewrite (proj2 (map_lookup_filter_Some _ _ _ f)) by done. constructor.
  - rewrite (proj2 (map_lookup_filter_None _ _ _)) by (by left). constructor.
Qed.

Lemma CompleteFlow_phase id n n' db w i :
  life_step i (RComplete id n n' db) (phase_of (view w !! i)) (phase_of (view (CompleteFlow id n n' db w).2 !! i)).
Proof.
  rewrite CompleteFlow_rmw. apply rmw_phase; [by intros ?? (? & _)%Complete_same|].
  intros f g ((_ & He & Hc) & Ht & Hs)%Complete_same ->. simpl. rewrite Ht, Hs, He, Hc. by eapply LComplete.
Qed.

Lemma FailFlow_phase id msg n n' db w i :
  life_step i (RFail id msg n n' db) (phase_of (view w !! i)) (phase_of (view (FailFlow id msg n n' db w).2 !! i)).
Proof.
  rewrite FailFlow_rmw.
  assert (forall f g, (if negb (String.eqb msg "") then append_message (Fail_ f n)
     {| msg_ID := "flow_error"; msg_Type := MsgTypeError; msg_Text := msg; msg_Context := ANil |}
     else Ok (Fail_ f n)) = Ok g -> same_flow f g /\ State g = if IsTerminal (State f) then State f else StateFailed) as Hk.
  { intros f g. destruct (Fail_same f n) as [Hf Hs]. destruct (negb _); [|by intros [= <-]].
    intros [Hg Hgs]%append_message_same. rewrite Hgs, <- Hs. split; [|done]. unfold same_flow in *. naive_solver congruence. }
  apply rmw_phase; [by intros ?? (? & _)%Hk|].
  intros f g ((_ & He & Hc) & Hs)%Hk ->. simpl. rewrite Hs, He, Hc.
  destruct (IsTerminal (State f)) eqn:Ht; [rewrite Ht; constructor|]. by eapply LFail.
Qed.

Lemma UpdateFlow_phase o n' db w i :
  life_step i (RUpdate o n' db) (phase_of (view w !! i)) (phase_of (view (UpdateFlow o n' db w).2 !! i)).
Proof.
  destruct o as [f|]; [|constructor]. unfold UpdateFlow. destruct (fs_Update f n' db w) as [r w1] eqn:E. simpl.
  apply fs_Update_law in E as [(old & -> & Hold & ->)|(e & -> & ->)]; [|constructor].
  destruct (decide (i = ID f)) as [->|Hne]; [|rewrite lookup_insert_ne by done; constructor].
  rewrite lookup_insert_eq, Hold.
  change (phase_of (Some (merge_core old f))) with (written f (CSRFToken old)).
  eapply LWrite; [done|done|]. simpl. by destruct (IsTerminal (State old)).
Qed.

Lemma same_state_phase i r f g : same_flow f g -> State g = State f ->
  life_step i r (phase_of (Some f)) (phase_of (Some g)).
Proof. intros (_ & He & Hc) Hs. simpl. rewrite He, Hc, Hs. constructor. Qed.

Lemma service_step r w id :
  life_step id r (phase_of (view w !! id)) (phase_of (view (serve s r w).2 !! id)).
Proof.
  destruct (creation r) as [m|] eqn:Hm.
  { rewrite (serve_creation r m w Hm). by apply creation_phase. }
  destruct r; try done; cbn [serve]; rewrite ?discard_view.
  - rewrite (proj1 (reads_view id0 "" n n' w)). constructor.
  - rewrite (proj1 (proj2 (reads_view id0 tok n n' w))). constructor.
  - rewrite (proj2 (proj2 (reads_view id tok n n' w))). constructor.
  - apply CompleteFlow_phase.
  - apply FailFlow_phase.
  - rewrite UpdateFlowUI_rmw. apply rmw_phase; [by intros ?? [= <-]|].
    intros ?? [= <-] _. by apply same_state_phase.
  - rewrite AddFlowMessage_rmw. apply rmw_phase; [by intros ?? (? & _)%append_message_same|].
    intros ?? (? & ?)%append_message_same _. by apply same_state_phase.
  - apply UpdateFlow_phase.
  - apply cleanup_phase.
Qed.

(** C22: The service implements the abstract life cycle, for every store that
    keeps the laws of [FlowStore] and every pattern of store failures: any
    request, the requests being served one at a time, takes any flow along one
    edge of the life cycle. A flow is born active with a creation, is completed
    or failed only by [CompleteFlow] or [FailFlow] on that very flow while it is
    active, and is removed only by a clean-up after expiry or the end; its CSRF
    token never changes. Only [UpdateFlow], which writes the copy its caller
    holds as it is, overrides this: it gives the stored flow the state and the
    expiry of the copy, so that a stale one may reopen an ended flow. *)
Theorem service_refines_life_cycle r w id :
  life_step id r (phase_of (view w !! id)) (phase_of (view (serve s r w).2 !! id)).
Proof. apply service_step. Qed.

(** What [ValidateFlow] and [GetFlow] check of the flow they return. *)
Lemma checkFlowState_ok f n n' g :
  checkFlowState f n n' = (Ok tt, g) -> g = f /\ IsExpired f n = false /\ IsTerminal (State f) = false.
Proof. unfold checkFlowState, IsTerminal. intros. by split_matches. Qed.

Lemma checked_ok (f : Flow) n n' (w : world S) g w' :
  checked f n n' w = (Ok g, w') -> w' = w /\ g = f /\ IsExpired f n = false /\ IsTerminal (State f) = false.
Proof.
  unfold checked. destruct (checkFlowState f n n') as [[[]|e] g'] eqn:E; [|done].
  apply checkFlowState_ok in E. intros [= <- <-]. naive_solver.
Qed.

Lemma GetFlow_sound id n n' w f w' :
  GetFlow id n n' w = (Ok f, w') ->
  ID f = id /\ view w !! id = Some (core f) /\ (n <= ExpiresAt f)%Z /\ IsTerminal (State f) = false.
Proof.
  unfold GetFlow. rewrite M_bind_ok. intros (f0 & w1 & E & Hc).
  apply fs_Get_law in E as [_ Hl]. destruct (Hl f0 eq_refl). apply checked_ok in Hc as (_ & -> & He & Ht).
  unfold IsExpired, time_after in He. bool_to_prop. naive_solver.
Qed.

Lemma ValidateFlow_sound id tok n n' w f w' :
  ValidateFlow id tok n n' w = (Ok f, w') ->
  tok <> "" /\ CSRFToken f = tok /\
  ID f = id /\ view w !! id = Some (core f) /\ (n <= ExpiresAt f)%Z /\ IsTerminal (State f) = false.
Proof.
  intros Hv. assert (GetFlow id n n' w = (Ok f, w') /\ ValidateCSRF f tok = Ok tt) as [Hg Hc].
  { unfold ValidateFlow in Hv. rewrite M_bind_ok in Hv. destruct Hv as (f0 & w1 & E & Hv).
    rewrite M_bind_ok in Hv. destruct Hv as (f1 & w2 & E1 & Hv). unfold lift_result in Hv.
    rewrite M_bind_run in Hv. destruct (ValidateCSRF f1 tok) as [[]|] eqn:Ec; [|done].
    injection Hv as <- <-. unfold GetFlow. rewrite M_bind_run, E. by split. }
  apply GetFlow_sound in Hg. unfold ValidateCSRF in Hc.
  destruct (ValidateCSRFToken (CSRFToken f) tok) eqn:Ht; [|done]. apply ValidateCSRFToken_spec in Ht. naive_solver.
Qed.

(** The flow would be handed out at [now]: it has not ended and not expired. *)
Definition usable (now : time) (f : Flow) : bool := negb (IsTerminal (State f)) && negb (IsExpired f now).

(** The request may make flow [id] usable at [now]: it creates it, or writes a
    copy of it back that is usable then. *)
Definition revives (id : uuid) (now : time) (r : request) : bool :=
  bool_decide (creates r = Some id) ||
  match r with
  | RUpdate (Some f) _ _ => bool_decide (ID f = id) && usable now f
  | _ => false
  end.

Definition usable_phase (now : time) (p : phase) : Prop :=
  match p with Live e _ => (now <= e)%Z | _ => False end.

Lemma usable_phase_of now f : usable_phase now (phase_of (Some f)) <-> usable now f = true.
Proof.
  unfold usable, IsExpired, time_after. simpl. destruct (IsTerminal (State f)); simpl; [done|].
  rewrite negb_true_iff, Z.ltb_ge. done.
Qed.

Lemma life_step_usable id now r p p' :
  life_step id r p p' -> revives id now r = false -> usable_phase now p' -> usable_phase now p.
Proof.
  unfold revives. intros Hs [Hc Hu]%orb_false_iff Hp.
  destruct Hs as [p|e c Hb|n n' db e c ->|msg n n' db e c ->|f n' db p c -> <- _|db e c -> _|db st e c ->];
    try done; [by rewrite Hb, bool_decide_true in Hc|].
  rewrite bool_decide_true in Hu by done. simpl in Hu. unfold written in Hp.
  assert (usable now f = true) as Hx; [|by rewrite Hu in Hx]. apply usable_phase_of. simpl.
  by destruct (IsTerminal (State f)).
Qed.

Lemma serve_all_usable id now rs w :
  Forall (fun r => revives id now r = false) rs ->
  usable_phase now (phase_of (view (serve_all s rs w) !! id)) -> usable_phase now (phase_of (view w !! id)).
Proof.
  intros Hrs. revert w. induction Hrs as [|r rs Hr _ IH]; intros w Hu; [done|].
  eapply life_step_usable; [apply (service_step r w id)|exact Hr|]. by apply IH.
Qed.

(** C36: A flow that has ended (its stored state is completed, failed or
    expired), or whose time is past, is not handed out by its identifier: after
    any further requests, served one at a time, that neither create a flow under
    the same identifier nor write back by [UpdateFlow] a copy of it that is
    still active and unexpired, whatever the store's failures, both [GetFlow]
    and [ValidateFlow] report an error at that time for every token. (A stale
    copy does reopen it: [stale_copy_reopens_flow].) *)
Theorem ended_flow_is_unusable rs w id f tok n n' :
  view w !! id = Some f -> usable n f = false ->
  Forall (fun r => revives id n r = false) rs ->
  (exists e, (GetFlow id n n' (serve_all s rs w)).1 = Err e) /\
  (exists e, (ValidateFlow id tok n n' (serve_all s rs w)).1 = Err e).
Proof.
  intros Hf Hn Hrs.
  assert (Hend : ~ usable_phase n (phase_of (view (serve_all s rs w) !! id))).
  { intros Hu. apply serve_all_usable in Hu; [|done]. rewrite Hf in Hu. apply usable_phase_of in Hu. congruence. }
  set (w' := serve_all s rs w) in *. split.
  - destruct (GetFlow id n n' w') as [[g|e] w2] eqn:E; [|eauto].
    apply GetFlow_sound in E as (_ & Hl & He & Hnt). rewrite Hl in Hend. simpl in Hend. by rewrite Hnt in Hend.
  - destruct (ValidateFlow id tok n n' w') as [[g|e] w2] eqn:E; [|eauto].
    apply ValidateFlow_sound in E as (_ & _ & _ & Hl & He & Hnt). rewrite Hl in Hend. simpl in Hend.
    by rewrite Hnt in Hend.
Qed.

(** [ValidateFlow] is sound: a flow it returns is the stored one under the
    requested identifier, has not expired and has not ended, and the caller
    presented its CSRF token, which is not empty; the store is unchanged. *)
Theorem validate_flow_sound id tok n n' w f w' :
  ValidateFlow id tok n n' w = (Ok f, w') ->
  tok <> "" /\ CSRFToken f = tok /\ ID f = id /\ view w !! id = Some (core f) /\
  (n <= ExpiresAt f)%Z /\ IsTerminal (State f) = false /\ view w' = view w.
Proof.
  intros Hv. pose proof (proj1 (proj2 (reads_view id tok n n' w))) as Hw. rewrite Hv in Hw.
  apply ValidateFlow_sound in Hv. naive_solver.
Qed.
End safety.

(** ** The service over PostgreSQL *)

Section postgres_service.
Context `{J : FlowJson} (schema : flow_schema) (s : Config).
#[local] Existing Instance PostgresFlowStore.
#[local] Existing Instance PostgresFlowStoreLaws.
#[local] Hint Extern 0 (FlowStore _) => exact (PostgresFlowStore schema) : typeclass_instances.

(** A row is read back as the flow that was stored, once JSON documents are. *)
Lemma Create_then_Get f db w' ui ctx :
  ui_Marshal (UI f) = Some ui -> ui_Unmarshal ui = Some (UI f) ->
  ctx_Marshal (Context f) = Some ctx -> ctx_Unmarshal ctx = Some (Context f) ->
  FlowStore.Create schema f db = (Ok tt, w') ->
  run (FlowStore.Get (ID f)) (w_db w') = (Ok f, w_db w').
Proof.
  intros Hm Hu Hcm Hcu. unfold FlowStore.Create, marshal, lift_result. rewrite M_bind_run, Hm. cbn.
  rewrite M_bind_run, Hcm. cbn. intros [(? & [= <-] & E)|(? & [=] & _)]%db_stmt_cases.
  unfold insert_flow in E. apply result_bind_ok in E as ([] & _ & E). case_bool_decide; [done|].
  injection E as E. rewrite <- E. unfold run, FlowStore.Get, no_rows, M_try. rewrite M_bind_run, db_stmt_clean.
  unfold select_flow; cbn. rewrite lookup_insert_eq. cbn. unfold decode_row, lift_result; cbn. rewrite Hu; cbn.
  rewrite Hcu; cbn. by destruct f.
Qed.

Lemma ValidateFlow_run id tok n n' db f :
  run (FlowStore.Get id) db = (Ok f, db) ->
  run (ValidateFlow id tok n n') db =
  (_ ← (checkFlowState f n n').1; _ ← ValidateCSRF (checkFlowState f n n').2 tok;
   Ok (checkFlowState f n n').2, db).
Proof.
  unfold run, ValidateFlow. intros Hg. cbn [fs_Get PostgresFlowStore]. rewrite M_bind_run.
  destruct (FlowStore.Get id _) as [[g|e] [db1 fs]]; cbn in Hg; simplify_eq.
  rewrite M_bind_run. unfold checked.
  destruct (checkFlowState f n n') as [[[]|e] g] eqn:Ec; [|done]. cbn [fst snd].
  unfold lift_result. rewrite !M_bind_run. cbn. by destruct (ValidateCSRF g tok) as [[]|].
Qed.

(** Creating and validating round-trip through the database: a flow of any
    of the five types that was created, with whatever store failures on the
    way, is active, expires after its configured lifetime and carries its CSRF
    token in its form; the stored row then validates to that very flow with
    that token until it expires, and any other token is refused. *)
Theorem created_flow_validates r m w f w' ui ctx n n' tok :
  creation (S := flow_db) s r = Some m -> m w = (Ok f, w') ->
  (forall b, d_rand (creation_draws r) = Some b -> b <> "") ->
  ui_Marshal (UI f) = Some ui -> ui_Unmarshal ui = Some (UI f) ->
  ctx_Marshal ∅ = Some ctx -> ctx_Unmarshal ctx = Some ∅ ->
  prepared s r f /\
  run (ValidateFlow (ID f) tok n n') (w_db w') =
    (if (ExpiresAt f <? n)%Z then Err ErrFlowExpired
     else if String.eqb tok (CSRFToken f) then Ok f else Err ErrInvalidCSRF, w_db w').
Proof.
  intros Hm Hrun Hb Hu1 Hu2 Hc1 Hc2. destruct (creation_cases s r m w Hm) as [(e & He)|(g & Hp & He)];
    rewrite He in Hrun; [done|].
  rewrite M_bind_run in Hrun. destruct (fs_Create g w) as [[[]|] w1] eqn:E; [|done]. injection Hrun as -> ->.
  split; [done|]. destruct Hp as (b & Hd & Htok & _ & Hst & _ & _ & Hctx & _).
  cbn [fs_Create PostgresFlowStore] in E. apply (Create_then_Get _ _ _ ui ctx) in E; [|congruence..].
  rewrite (ValidateFlow_run _ _ _ _ _ f E). f_equal. unfold checkFlowState, IsExpired, time_after.
  destruct (ExpiresAt f <? n)%Z; [done|]. rewrite Hst. cbn. unfold ValidateCSRF.
  destruct (ValidateCSRFToken (CSRFToken f) tok) eqn:Ht.
  - apply ValidateCSRFToken_spec in Ht as [_ ->]. by rewrite String.eqb_refl.
  - destruct (String.eqb_spec tok (CSRFToken f)) as [->|]; [|done].
    exfalso. assert (ValidateCSRFToken (CSRFToken f) (CSRFToken f) = true) as Hx; [|by rewrite Ht in Hx].
    apply ValidateCSRFToken_spec. split; [|done]. rewrite Htok. specialize (Hb b Hd).
    by apply b64url_Encode_nonempty.
Qed.

(** An update that fails the check constraint on [state] fails. *)
Lemma Update_state_violation f now dbnow w :
  state_check schema (State f) = false -> exists e, (FlowStore.Update schema f now dbnow w).1 = Err e.
Proof.
  intros Hs. unfold FlowStore.Update, marshal, lift_result. rewrite M_bind_run.
  destruct (ui_Marshal (UI f)) as [ui|]; cbn; [|eauto]. rewrite M_bind_run.
  destruct (ctx_Marshal (Context f)) as [ctx|]; cbn; [|eauto]. rewrite M_bind_run.
  destruct (db_stmt _ w) as [r w1] eqn:E. apply db_stmt_cases in E as [(n & -> & E)|(e & -> & _)]; cbn; [|eauto].
  unfold update_flow in E; cbn in E. destruct (t_flows (w_db w) !! ID f) as [old|].
  - unfold row_check in E; cbn in E. rewrite Hs in E. by destruct (type_check schema (Type_ f)).
  - injection E as <- _. by eexists.
Qed.
End postgres_service.

(** Under the check constraint of the shipped migration, which spells the
    final state 'complete', the state [StateCompleted] the code writes is never
    accepted: [CompleteFlow] reports an error for every flow in every world. *)
Theorem shipped_schema_blocks_completion `{J : FlowJson} id n n' db w :
  exists e, (CompleteFlow (H := PostgresFlowStore shipped_schema) id n n' db w).1 = Err e.
Proof.
  unfold CompleteFlow. rewrite M_bind_run. destruct (fs_Get id w) as [[f|e] w1]; [|by eexists].
  unfold lift_result. rewrite M_bind_run. destruct (Flows.Complete f n) as [g|e] eqn:Ec; [|by eexists].
  apply Complete_same in Ec as (_ & _ & Hs). apply Update_state_violation. by rewrite Hs.
Qed.

(** ** Interleavings

    [UpdateFlowUI] reads the flow and writes the whole row back in a second
    statement.  When another request ends the flow in between, the write
    restores the state that was read: the life cycle above is that of requests
    served one at a time. *)
Lemma stale_update_restores_state {S : Type} `{FlowStoreLaws S} (s : Config) id f ui rs now dbnow w w1 w3 :
  fs_Get id w = (Ok f, w1) ->
  fs_Update (set_ui f ui) now dbnow (serve_all s rs w1) = (Ok tt, w3) ->
  exists g, fs_view (w_db w3) !! id = Some g /\ State g = State f.
Proof.
  intros Hg Hu. apply fs_Get_law in Hg as [_ Hg]. destruct (Hg f eq_refl) as [<- _].
  apply fs_Update_law in Hu as [(old & _ & _ & Hv)|(? & [=] & _)]. rewrite Hv, lookup_insert_eq. eauto.
Qed.

(** The same for a caller of [UpdateFlow] that holds the flow it read: whatever
    was done with the flow since, a write that succeeds makes it active again. *)
Lemma stale_copy_reopens_flow {S : Type} `{FlowStoreLaws S} (s : Config) id f rs now dbnow w w1 w3 :
  fs_Get id w = (Ok f, w1) -> IsTerminal (State f) = false ->
  UpdateFlow (Some f) now dbnow (serve_all s rs w1) = (Ok tt, w3) ->
  exists c, phase_of (fs_view (w_db w3) !! id) = Live (ExpiresAt f) c.
Proof.
  intros Hg Ht Hu. apply fs_Get_law in Hg as [_ Hg]. destruct (Hg f eq_refl) as [<- _]. unfold UpdateFlow in Hu.
  apply fs_Update_law in Hu as [(old & _ & _ & Hv)|(? & [=] & _)]. rewrite Hv, lookup_insert_eq. simpl.
  rewrite Ht. eauto.
Qed.

(** ** Witnesses *)

Module Witness.
(** JSON documents that are the values themselves. *)
Definition plain_json : FlowJson :=
  {| json := option UIState + gmap string any;
     ui_Marshal u := Some (inl u);
     ui_Unmarshal j := match j with inl u => Some u | inr _ => None end;
     ctx_Marshal c := Some (inr c);
     ctx_Unmarshal j := match j with inr c => Some c | inl _ => None end |}.
#[local] Existing Instance plain_json.
#[local] Existing Instance PostgresFlowStoreLaws.

Definition empty_db : flow_db := {| t_flows := ∅; t_identity_ids := ∅; t_session_ids := ∅ |}.
Definition login : request := RLogin "/login" {| d_now := 0; d_id := 7%N; d_rand := Some "abc" |}.
#[local] Instance shipped_store : FlowStore flow_db := PostgresFlowStore shipped_schema.
#[local] Instance shipped_laws : FlowStoreLaws flow_db := PostgresFlowStoreLaws shipped_schema.
Definition w0 : world flow_db := World empty_db [].
Definition w1 : world flow_db := serve_all DefaultConfig [login] w0.
Definition w2 : world flow_db := serve_all DefaultConfig [login; RFail 7%N "" 5 5 5] w0.
Definition created : Flow := default (Build_Flow 0 "" "" None None "" "" None ∅ 0 0 "" 0 0)
  (match creation DefaultConfig login with Some m => match (m w0).1 with Ok f => Some f | _ => None end | None => None end).

Lemma service_refines_life_cycle_witness :
  life_step 7%N (RFail 7%N "" 5 5 5) (phase_of (fs_view (w_db w1) !! 7%N))
    (phase_of (fs_view (w_db (serve DefaultConfig (RFail 7%N "" 5 5 5) w1).2) !! 7%N)).
Proof. apply (service_refines_life_cycle DefaultConfig). Defined.

Lemma ended_flow_is_unusable_witness :
  fs_view (w_db w2) !! 7%N <> None /\
  (exists e, (GetFlow 7%N 6 6 (serve_all DefaultConfig [RGet 7%N 6 6] w2)).1 = Err e) /\
  (exists e, (ValidateFlow 7%N "YWJj" 6 6 (serve_all DefaultConfig [RGet 7%N 6 6] w2)).1 = Err e).
Proof.
  split; [vm_compute; discriminate|].
  destruct (fs_view (w_db w2) !! 7%N) as [f|] eqn:E; [|vm_compute in E; discriminate].
  apply (ended_flow_is_unusable DefaultConfig [RGet 7%N 6 6] w2 7%N f "YWJj" 6 6 E).
  - vm_compute in E. injection E as <-. reflexivity.
  - repeat constructor.
Defined.

Lemma validate_flow_sound_witness :
  exists f w', ValidateFlow 7%N "YWJj" 3 3 w1 = (Ok f, w') /\ CSRFToken f = "YWJj".
Proof.
  exists created, w1. assert (ValidateFlow 7%N "YWJj" 3 3 w1 = (Ok created, w1)) as E by reflexivity.
  split; [exact E|]. apply (validate_flow_sound 7%N "YWJj" 3 3 w1 created w1 E).
Defined.

Lemma created_flow_validates_witness :
  prepared DefaultConfig login created /\
  run (ValidateFlow 7%N "YWJj" 3 3) (w_db w1) = (Ok created, w_db w1).
Proof.
  destruct (creation DefaultConfig login) as [m|] eqn:Em; [|discriminate].
  assert (m w0 = (Ok created, w1)) as E by (injection Em as <-; reflexivity).
  destruct (created_flow_validates shipped_schema DefaultConfig login m w0 created w1
    (inl (UI created)) (inr ∅) 3 3 "YWJj" Em E) as [Hp Hv]; try reflexivity; [intros b [= <-]; discriminate|].
  split; [exact Hp|]. exact Hv.
Defined.

(** A clean read of the flow, a [FailFlow], then the late write: the failed
    flow is active again in the shipped schema. *)
Lemma stale_update_reopens_failed_flow :
  match fs_Get 7%N w1 with
  | (Ok f, wr) =>
      let wf := serve_all DefaultConfig [RFail 7%N "" 5 5 5] wr in
      (State <$> fs_view (w_db wf) !! 7%N) = Some StateFailed /\
      (State <$> fs_view (w_db (fs_Update (set_ui f None) 6 6 wf).2) !! 7%N) = Some StateActive
  | _ => False
  end.
Proof. vm_compute. by split. Qed.

(** The copy a caller still holds is written back after the flow was failed,
    and the failed flow is handed out again. *)
Lemma stale_copy_is_handed_out :
  match GetFlow 7%N 3 3 w1 with
  | (Ok f, wr) =>
      let wf := serve_all DefaultConfig [RFail 7%N "" 5 5 5] wr in
      (GetFlow 7%N 6 6 wf).1 = Err ErrFlowFailed /\
      State <$> (GetFlow 7%N 6 6 (serve DefaultConfig (RUpdate (Some f) 6 6) wf).2).1 = Ok StateActive
  | _ => False
  end.
Proof. vm_compute. by split. Qed.
End Witness.
