(* ===== verification/Continuity.v ===== *)
(** core/flows/continuity.go: continuity containers, the state that survives a
    redirect and is consumed once. *)

From Stdlib Require Import Ascii String.
From S2P Require Import Prelude GoStrings Flows FlowStore.

Local Open Scope string_scope.

Definition DefaultContinuityTTL : duration := (15 * minute)%Z.

Inductive continuity_error : Type :=
| ErrContainerNotFound
| ErrContainerExpired
| ErrPayloadJSON
| ContinuityDb (e : db_error).
#[global] Instance continuity_dberr : DbErr continuity_error := ContinuityDb.

Abbreviation Payload := (gmap string any) (only parsing).

Record ContinuityContainer : Type := {
  cc_ID : uuid;
  cc_Name : string;
  cc_IdentityID : option uuid;
  cc_SessionID : option uuid;
  cc_Payload : Payload;
  cc_ExpiresAt : time;
  cc_CreatedAt : time;
}.

Definition NewContinuityContainer (name : string) (ttl : duration) (now : time) (newID : uuid) : ContinuityContainer :=
  let ttl := if (ttl <=? 0)%Z then DefaultContinuityTTL else ttl in
  {| cc_ID := newID; cc_Name := name; cc_IdentityID := None; cc_SessionID := None; cc_Payload := ∅;
     cc_ExpiresAt := time_add now ttl; cc_CreatedAt := now |}.

Definition cc_IsExpired (c : ContinuityContainer) (now : time) : bool := time_after now (cc_ExpiresAt c).

Definition cc_upd (c : ContinuityContainer) (i s : option uuid) (p : Payload) : ContinuityContainer :=
  {| cc_ID := cc_ID c; cc_Name := cc_Name c; cc_IdentityID := i; cc_SessionID := s; cc_Payload := p;
     cc_ExpiresAt := cc_ExpiresAt c; cc_CreatedAt := cc_CreatedAt c |}.
Definition cc_SetIdentity (c : ContinuityContainer) (identityID : uuid) : ContinuityContainer :=
  cc_upd c (Some identityID) (cc_SessionID c) (cc_Payload c).
Definition cc_SetSession (c : ContinuityContainer) (sessionID : uuid) : ContinuityContainer :=
  cc_upd c (cc_IdentityID c) (Some sessionID) (cc_Payload c).
Definition cc_Set (c : ContinuityContainer) (key : string) (value : any) : ContinuityContainer :=
  cc_upd c (cc_IdentityID c) (cc_SessionID c) (<[key := value]> (cc_Payload c)).
Definition cc_Get (c : ContinuityContainer) (key : string) : option any := cc_Payload c !! key.

Definition GetString (c : ContinuityContainer) (key : string) : string :=
  match cc_Payload c !! key with
  | Some (AStr s) => s
  | _ => ""
  end.

Definition GetUUID `{UuidText} (c : ContinuityContainer) (key : string) : option uuid :=
  match cc_Payload c !! key with
  | Some (AUuid u) => Some u
  | Some (AStr s) => uuid_parse s
  | _ => None
  end.

Section continuity.
Context `{FlowJson}.

Record container_row : Type := {
  cr_name : string;
  cr_identity : option uuid;
  cr_session : option uuid;
  cr_payload : json;
  cr_expires : time;
  cr_created : time;
}.

Record continuity_db : Type := {
  t_containers : gmap N container_row;
  c_identity_ids : gset N;
  c_session_ids : gset N;
}.
Definition with_containers (db : continuity_db) (cs : gmap N container_row) : continuity_db :=
  {| t_containers := cs; c_identity_ids := c_identity_ids db; c_session_ids := c_session_ids db |}.

Abbreviation CM := (M continuity_db continuity_error).

(** [INSERT]: the foreign keys and the primary key. *)
Definition insert_container (id : uuid) (row : container_row) (db : continuity_db)
    : result db_error (unit * continuity_db) :=
  if negb (fk_ok (cr_identity row) (c_identity_ids db)) then Err (ForeignKeyViolation "core_continuity_containers_identity_id_fkey")
  else if negb (fk_ok (cr_session row) (c_session_ids db)) then Err (ForeignKeyViolation "core_continuity_containers_session_id_fkey")
  else if bool_decide (is_Some (t_containers db !! id)) then Err (UniqueViolation "core_continuity_containers_pkey")
  else Ok (tt, with_containers db (<[id := row]> (t_containers db))).

Definition payload_result {A} (o : option A) : CM A := lift_result (result_of_option ErrPayloadJSON o).

Definition Store (c : ContinuityContainer) : CM unit :=
  payload ← payload_result (ctx_Marshal (cc_Payload c));
  db_stmt (insert_container (cc_ID c)
    {| cr_name := cc_Name c; cr_identity := cc_IdentityID c; cr_session := cc_SessionID c;
       cr_payload := payload; cr_expires := cc_ExpiresAt c; cr_created := cc_CreatedAt c |}).

Definition cc_no_rows {A} (m : CM A) : CM A :=
  M_try m (fun r => match r with
                    | Err (ContinuityDb NoRows) => throw ErrContainerNotFound
                    | r => lift_result r
                    end).

Definition container_of_row (id : uuid) (row : container_row) (p : Payload) : ContinuityContainer :=
  {| cc_ID := id; cc_Name := cr_name row; cc_IdentityID := cr_identity row; cc_SessionID := cr_session row;
     cc_Payload := p; cc_ExpiresAt := cr_expires row; cc_CreatedAt := cr_created row |}.

Definition select_container (id : uuid) (db : continuity_db) : result db_error (container_row * continuity_db) :=
  match t_containers db !! id with
  | Some row => Ok (row, db)
  | None => Err NoRows
  end.

Definition Retrieve (id : uuid) (now : time) : CM ContinuityContainer :=
  row ← cc_no_rows (db_stmt (select_container id));
  p ← payload_result (ctx_Unmarshal (cr_payload row));
  let container := container_of_row id row p in
  if cc_IsExpired container now then throw ErrContainerExpired else mret container.

(** The latest container of the list. *)
Fixpoint latest_container (rows : list (N * container_row)) (best : option (N * container_row))
    : option (N * container_row) :=
  match rows with
  | [] => best
  | r :: rows' =>
      match best with
      | Some b => latest_container rows' (if (cr_created b.2 <? cr_created r.2)%Z then Some r else Some b)
      | None => latest_container rows' (Some r)
      end
  end.

Definition name_match (name : string) (identityID : uuid) (dbnow : time) (row : container_row) : bool :=
  String.eqb (cr_name row) name && bool_decide (cr_identity row = Some identityID) && (dbnow <? cr_expires row)%Z.

Definition RetrieveByName (name : string) (identityID : uuid) (dbnow : time) : CM ContinuityContainer :=
  '(id, row) ← cc_no_rows (db_stmt (fun db =>
     match latest_container (List.filter (fun p => name_match name identityID dbnow p.2)
             (map_to_list (t_containers db))) None with
     | Some r => Ok (r, db)
     | None => Err NoRows
     end));
  p ← payload_result (ctx_Unmarshal (cr_payload row));
  mret (container_of_row id row p).

Definition Delete (id : uuid) : CM unit :=
  n ← db_stmt (fun db => Ok (if bool_decide (is_Some (t_containers db !! id)) then 1%Z else 0%Z,
                             with_containers db (delete id (t_containers db))));
  if (n =? 0)%Z then throw ErrContainerNotFound else mret tt.

Definition DeleteExpired (dbnow : time) : CM Z :=
  db_stmt (fun db =>
    let kept := filter (fun '(_, row) => (cr_expires row <? dbnow)%Z = false) (t_containers db) in
    Ok (Z.of_nat (size (t_containers db) - size kept), with_containers db kept)).

(** ** The manager; [ttl] is its lifetime *)

Definition NewContinuityManager (ttl : duration) : duration :=
  if (ttl <=? 0)%Z then DefaultContinuityTTL else ttl.

(** [for k, v := range payload] in any order writes the same map. *)
Definition Create (ttl : duration) (name : string) (identityID : option uuid) (payload : Payload)
    (now : time) (newID : uuid) : CM ContinuityContainer :=
  let container := NewContinuityContainer name ttl now newID in
  let container := match identityID with Some i => cc_SetIdentity container i | None => container end in
  let container := map_fold (fun k v c => cc_Set c k v) container payload in
  _ ← Store container;
  mret container.

Definition Get (id : uuid) (now : time) : CM ContinuityContainer := Retrieve id now.
Definition GetByName (name : string) (identityID : uuid) (dbnow : time) : CM ContinuityContainer :=
  RetrieveByName name identityID dbnow.

Definition Consume (id : uuid) (now : time) : CM ContinuityContainer :=
  container ← Retrieve id now;
  _ ← Delete id;
  mret container.

Definition Cleanup (dbnow : time) : CM Z := DeleteExpired dbnow.

(** ** Concurrent consumers

    [Consume] is two statements.  Any number of callers run it at the same
    time on one container; each step runs one statement of one caller, under
    any script of faults, and other operations may run in between. *)

Inductive consumer : Type :=
| CStart
| CRead (c : ContinuityContainer)
| CDone (r : result continuity_error ContinuityContainer).

Definition after_read (r : result continuity_error ContinuityContainer) : consumer :=
  match r with Ok c => CRead c | Err e => CDone (Err e) end.
Definition after_delete (c : ContinuityContainer) (r : result continuity_error unit) : consumer :=
  CDone (match r with Ok _ => Ok c | Err e => Err e end).

Inductive consume_step (id : uuid) : list consumer * continuity_db -> list consumer * continuity_db -> Prop :=
| StepRead i now fs cs db r w' :
    cs !! i = Some CStart -> Retrieve id now (World db fs) = (r, w') ->
    consume_step id (cs, db) (<[i := after_read r]> cs, w_db w')
| StepDelete i c fs cs db r w' :
    cs !! i = Some (CRead c) -> Delete id (World db fs) = (r, w') ->
    consume_step id (cs, db) (<[i := after_delete c r]> cs, w_db w')
| StepCleanup dbnow fs cs db r w' :
    Cleanup dbnow (World db fs) = (r, w') -> consume_step id (cs, db) (cs, w_db w')
| StepStore c fs cs db r w' :
    cc_ID c <> id -> Store c (World db fs) = (r, w') -> consume_step id (cs, db) (cs, w_db w').

(** One caller's two steps are its [Consume]. *)
Lemma Consume_steps id now w :
  exists r, (Consume id now w).1 = r /\
  match Retrieve id now w with
  | (Ok c, w1) => after_delete c (Delete id w1).1 = CDone r
  | (Err e, _) => r = Err e
  end.
Proof.
  unfold Consume. rewrite M_bind_run. destruct (Retrieve id now w) as [[c|e] w1]; [|by eexists].
  rewrite M_bind_run. destruct (Delete id w1) as [[[]|e] w2]; by eexists.
Qed.

Definition won (c : consumer) : bool := match c with CDone (Ok _) => true | _ => false end.
Definition winners (cs : list consumer) : nat := List.length (List.filter won cs).
Definition present (id : uuid) (db : continuity_db) : nat :=
  if bool_decide (is_Some (t_containers db !! id)) then 1 else 0.

Lemma winners_insert i x y cs :
  cs !! i = Some x -> won x = false -> winners (<[i := y]> cs) = winners cs + if won y then 1 else 0.
Proof.
  unfold winners. revert i. induction cs as [|z cs IH]; intros [|i] Hi Hx; simplify_eq/=.
  - rewrite Hx. destruct (won y); simpl; lia.
  - specialize (IH i Hi Hx). destruct (won z); simpl; lia.
Qed.

Lemma winners_start n : winners (replicate n CStart) = 0.
Proof. by induction n. Qed.

Lemma Retrieve_db id now w r w' : Retrieve id now w = (r, w') -> w_db w' = w_db w.
Proof.
  unfold Retrieve, cc_no_rows, M_try, payload_result, lift_result. rewrite M_bind_run.
  destruct (db_stmt _ w) as [r1 w1] eqn:E.
  assert (w_db w1 = w_db w) as Hw.
  { apply db_stmt_cases in E as [(a & -> & E)|(e & -> & E)]; [|done].
    unfold select_container in E. by split_matches. }
  destruct r1 as [row|[| | |[]]]; cbn; try (intros [= <- <-]; done).
  rewrite M_bind_run. destruct (ctx_Unmarshal (cr_payload row)); cbn; [|by intros [= <- <-]].
  destruct (cc_IsExpired _ now); by intros [= <- <-].
Qed.

Lemma Delete_present id w r w' :
  Delete id w = (r, w') ->
  (r = Ok tt /\ present id (w_db w) = 1 /\ present id (w_db w') = 0) \/
  (exists e, r = Err e /\ present id (w_db w') = present id (w_db w)).
Proof.
  unfold Delete. rewrite M_bind_run. destruct (db_stmt _ w) as [r1 w1] eqn:E.
  apply db_stmt_cases in E as [(n & -> & E)|(e & -> & E)].
  - injection E as Hn Hdb. unfold present.
    assert (bool_decide (is_Some (t_containers (w_db w1) !! id)) = false) as Hw1
      by (rewrite <- Hdb; simpl; by rewrite lookup_delete_eq).
    rewrite <- Hn. destruct (bool_decide (is_Some (t_containers (w_db w) !! id)));
      cbn; intros [= <- <-]; rewrite Hw1; eauto.
  - intros [= <- <-]. right. rewrite E. eauto.
Qed.

Lemma Cleanup_present id dbnow w r w' :
  Cleanup dbnow w = (r, w') -> present id (w_db w') <= present id (w_db w).
Proof.
  intros [(n & -> & E)|(e & -> & ->)]%db_stmt_cases; [|lia]. injection E as _ <-.
  unfold present; simpl. case_bool_decide as Hp; [|lia].
  destruct Hp as [row [Hr _]%map_lookup_filter_Some]. rewrite Hr. by rewrite bool_decide_true.
Qed.

Lemma Store_present id c w r w' :
  cc_ID c <> id -> Store c w = (r, w') -> present id (w_db w') = present id (w_db w).
Proof.
  intros Hne. unfold Store, payload_result, lift_result. rewrite M_bind_run.
  destruct (ctx_Marshal (cc_Payload c)); cbn; [|by intros [= <- <-]].
  intros [([] & -> & E)|(e & -> & ->)]%db_stmt_cases; [|done].
  unfold insert_container in E.
  destruct (negb _); [done|]. destruct (negb _); [done|]. case_bool_decide; [done|].
  injection E as <-. unfold present; simpl. by rewrite lookup_insert_ne.
Qed.

(** The container and the callers that obtained it are never two. *)
Lemma consume_step_inv id p p' :
  consume_step id p p' -> winners p.1 + present id p.2 <= 1 -> winners p'.1 + present id p'.2 <= 1.
Proof.
  intros Hs. destruct Hs as [i now fs cs db r w' Hi E|i c fs cs db r w' Hi E|dbnow fs cs db r w' E|c fs cs db r w' Hne E]; simpl.
  - rewrite (winners_insert i CStart) by done. apply Retrieve_db in E. rewrite E. simpl. destruct r; simpl; lia.
  - rewrite (winners_insert i (CRead c)) by done.
    apply Delete_present in E as [(-> & ? & ?)|(e & -> & ?)]; simpl in *; lia.
  - apply (Cleanup_present id) in E. simpl in *. lia.
  - apply (Store_present id) in E; [|done]. simpl in *. lia.
Qed.

(** A continuity container is consumed at most once: however many callers
    run [Consume] on it at the same time, in whatever interleaving of their
    statements with each other, with clean-ups and with the storing of other
    containers, and whatever the database's failures, at most one of them
    obtains it, and once one has, it is gone. *)
Theorem container_consumed_once id n db cs db' :
  rtc (consume_step id) (replicate n CStart, db) (cs, db') ->
  winners cs <= 1 /\ (winners cs = 1 -> t_containers db' !! id = None).
Proof.
  intros Hs. assert (winners cs + present id db' <= 1) as Hinv.
  { remember (replicate n CStart, db) as p eqn:Hp. remember (cs, db') as q eqn:Hq.
    assert (winners p.1 + present id p.2 <= 1) as Hi.
    { subst p; simpl. rewrite winners_start. unfold present. case_bool_decide; lia. }
    clear Hp. assert (winners q.1 + present id q.2 <= 1); [|by subst q].
    induction Hs as [|x y z Hxy _ IH]; [done|]. apply IH; [done|]. by eapply consume_step_inv. }
  split; [lia|]. intros Hw. unfold present in Hinv. case_bool_decide as Hp; [lia|]. by apply eq_None_not_Some.
Qed.
End continuity.

(** ** Witness: two interleaved consumers *)

Module ContinuityWitness.
#[local] Instance unit_json : FlowJson :=
  {| json := option UIState + gmap string any;
     ui_Marshal u := Some (inl u);
     ui_Unmarshal j := match j with inl u => Some u | inr _ => None end;
     ctx_Marshal c := Some (inr c);
     ctx_Unmarshal j := match j with inr c => Some c | inl _ => None end |}.
Definition row : container_row :=
  {| cr_name := "oauth"; cr_identity := None; cr_session := None; cr_payload := inr ∅;
     cr_expires := 100; cr_created := 0 |}.
Definition db0 : continuity_db := {| t_containers := {[ 1%N := row ]}; c_identity_ids := ∅; c_session_ids := ∅ |}.
Definition db1 : continuity_db := {| t_containers := ∅; c_identity_ids := ∅; c_session_ids := ∅ |}.
Definition c0 : ContinuityContainer := container_of_row 1%N row ∅.

(** Both read the container; the second delete finds no row. *)
Lemma container_consumed_once_witness :
  rtc (consume_step 1%N) (replicate 2 CStart, db0) ([CDone (Ok c0); CDone (Err ErrContainerNotFound)], db1) /\
  winners [CDone (Ok c0); CDone (Err ErrContainerNotFound)] <= 1.
Proof.
  assert (rtc (consume_step 1%N) (replicate 2 CStart, db0)
            ([CDone (Ok c0); CDone (Err ErrContainerNotFound)], db1)) as Hs.
  { eapply rtc_l; [apply (StepRead _ 0 5 [] _ _ (Ok c0) (World db0 [])); reflexivity|].
    eapply rtc_l; [apply (StepRead _ 1 5 [] _ _ (Ok c0) (World db0 [])); reflexivity|].
    eapply rtc_l; [apply (StepDelete _ 0 c0 [] _ _ (Ok tt) (World db1 [])); reflexivity|].
    eapply rtc_l; [apply (StepDelete _ 1 c0 [] _ _ (Err ErrContainerNotFound) (World db1 [])); reflexivity|].
    apply rtc_refl. }
  split; [exact Hs|]. apply (container_consumed_once 1%N 2 db0 _ db1 Hs).
Defined.
End ContinuityWitness.
