(* ===== verification/RateLimit.v ===== *)
(** core/proxy/ratelimit.go: the token-bucket store and the rate limiter of
    the gateway.

    [int] arithmetic is kept at 64 bits.  Seconds are floating point in the
    code; the truncated quotients below are the same numbers for whole-second
    windows and for limits below 2^53.  An operation takes its clock readings
    as arguments, and runs inside the store's locks: operations of concurrent
    callers are a sequence. *)

From Stdlib Require Import Ascii String.
From S2P Require Import Prelude GoStrings GoHttp TrustedProxy Session SessionContext.

Local Open Scope string_scope.

(** ** Token buckets *)

Record tokenBucket : Type := {
  tokens : Z;
  capacity : Z;
  refillRate : Z;
  lastRefill : time;
}.

Definition min (a b : Z) : Z := if (a <? b)%Z then a else b.

Definition with_tokens (tb : tokenBucket) (n : Z) (t : time) : tokenBucket :=
  {| tokens := n; capacity := capacity tb; refillRate := refillRate tb; lastRefill := t |}.

Definition refill (tb : tokenBucket) (now : time) : tokenBucket :=
  let elapsed := time_sub now (lastRefill tb) in
  let tokensToAdd := wrap64 (duration_secs elapsed * refillRate tb) in
  if (0 <? tokensToAdd)%Z
  then with_tokens tb (min (capacity tb) (wrap64 (tokens tb + tokensToAdd))) now
  else tb.

(** Whether a token was taken, the suggested wait, and the bucket afterwards. *)
Definition consume (tb : tokenBucket) (now : time) : bool * duration * tokenBucket :=
  let tb := refill tb now in
  if (0 <? tokens tb)%Z then (true, 0%Z, with_tokens tb (tokens tb - 1) (lastRefill tb))
  else (false, Z.quot second (refillRate tb), tb).

(** ** The in-memory store *)

Abbreviation buckets := (gmap string tokenBucket) (only parsing).
Definition cleanup_interval : duration := (5 * minute)%Z.

Definition new_bucket (limit : Z) (window : duration) (now : time) : tokenBucket :=
  let rate := Z.quot (limit * second) window in
  {| tokens := limit; capacity := limit; refillRate := if (rate =? 0)%Z then 1%Z else rate; lastRefill := now |}.

(** [now] is read when a bucket is created, [now'] when it is consumed. *)
Definition MemoryStore_Allow (m : buckets) (key : string) (limit : Z) (window : duration) (now now' : time)
    : bool * duration * buckets :=
  let bucket := match m !! key with Some b => b | None => new_bucket limit window now end in
  let '(ok, wait, bucket) := consume bucket now' in
  (ok, wait, <[key := bucket]> m).

Definition MemoryStore_Reset (m : buckets) (key : string) (now : time) : buckets :=
  alter (fun b => with_tokens b (capacity b) now) key m.

Definition MemoryStore_GetCount (m : buckets) (key : string) (now : time) : Z * buckets :=
  match m !! key with
  | None => (0%Z, m)
  | Some b => let b := refill b now in (capacity b - tokens b, <[key := b]> m)%Z
  end.

(** One tick of [cleanupLoop]. *)
Definition MemoryStore_cleanup (m : buckets) (now : time) : buckets :=
  filter (fun '(_, b) => (2 * cleanup_interval <? time_sub now (lastRefill b))%Z = false) m.

(** ** The limiter *)

(** The interface [RateLimitStore]; the clock readings an implementation
    takes are part of its arguments. *)
Class RateLimitStore (S : Type) := {
  rl_Allow : string -> Z -> duration -> time * time -> S -> result string (bool * duration) * S;
  rl_Reset : string -> time -> S -> S;
  rl_GetCount : string -> time -> S -> result string Z * S;
}.

#[global] Instance MemoryStore : RateLimitStore buckets := {
  rl_Allow key limit window now m :=
    let '(ok, wait, m) := MemoryStore_Allow m key limit window now.1 now.2 in (Ok (ok, wait), m);
  rl_Reset key now m := MemoryStore_Reset m key now;
  rl_GetCount key now m := let '(n, m) := MemoryStore_GetCount m key now in (Ok n, m);
}.

Record RateLimitConfig : Type := {
  RequestsPerSecond : Z;
  BurstSize : Z;
  ByIP : bool;
  ByUser : bool;
  ByPath : bool;
  rl_TrustForwardedHeaders : bool;
}.

Definition DefaultRateLimitConfig : RateLimitConfig :=
  {| RequestsPerSecond := 100; BurstSize := 200; ByIP := true; ByUser := false; ByPath := false;
     rl_TrustForwardedHeaders := false |}.

Inductive limit_error : Type :=
| ErrRateLimitExceeded
| StoreErr (e : string).

Section limiter.
Context {S : Type} `{RateLimitStore S}.

(** The answer of [Allow]: allowed, the wait, and the error it reports. *)
Fixpoint allow_keys (config : RateLimitConfig) (keys : list string) (clk : nat -> time * time) (st : S)
    : (bool * duration * option limit_error) * S :=
  match keys with
  | [] => ((true, 0%Z, None), st)
  | key :: keys' =>
      match rl_Allow key (RequestsPerSecond config) second (clk O) st with
      | (Err e, st') => ((false, 0%Z, Some (StoreErr e)), st')
      | (Ok (true, _), st') => allow_keys config keys' (fun i => clk (Datatypes.S i)) st'
      | (Ok (false, wait), st') => ((false, wait, Some ErrRateLimitExceeded), st')
      end
  end.

Context `{Net} `{UuidText}.
Abbreviation cidr_cache := (gmap string (list ipnet)).

(** [cidrs] is the value of AEGION_TRUSTED_PROXY_CIDRS and [cache] the parsed
    networks kept for it (a memo, which never changes an answer); [sess] is the session of the request's context. *)
Definition getClientIPWithTrust (cache : cidr_cache) (r : Request) (trust : bool) (cidrs : string) : string :=
  (ClientIP cache (Some r) trust (Some cidrs)).1.
Definition getClientIP (cache : cidr_cache) (r : Request) (cidrs : string) : string :=
  getClientIPWithTrust cache r true cidrs.
Definition getRemoteIP (remoteAddr : string) : string := RemoteIP remoteAddr.

Definition generateKeys (config : RateLimitConfig) (cache : cidr_cache) (cidrs : string) (r : Request)
    (sess : option Session) : list string :=
  let ip := getClientIPWithTrust cache r (rl_TrustForwardedHeaders config) cidrs in
  ((if ByIP config then if negb (String.eqb ip "") then ["ip:" +:+ ip] else [] else []) ++
   (if ByUser config then match sess with Some s => ["user:" +:+ uuid_string (IdentityID s)] | None => [] end else []) ++
   (if ByPath config then ["path:" +:+ ToLower (URL_Path r)] else []))%list.

Definition RateLimiter_Allow (config : RateLimitConfig) (cache : cidr_cache) (cidrs : string) (r : Request)
    (sess : option Session) (clk : nat -> time * time) (st : S)
    : (bool * duration * option limit_error) * S :=
  let keys := generateKeys config cache cidrs r sess in
  match keys with
  | [] => ((true, 0%Z, None), st)
  | _ => allow_keys config keys clk st
  end.

Definition RateLimiter_Reset (key : string) (now : time) (st : S) : S := rl_Reset key now st.
Definition Limit (config : RateLimitConfig) : Z := RequestsPerSecond config.

Fixpoint GetMetrics (keys : list string) (now : time) (st : S) : gmap string Z * S :=
  match keys with
  | [] => (∅, st)
  | key :: keys' =>
      match rl_GetCount key now st with
      | (Ok count, st') =>
          let '(ms, st'') := GetMetrics keys' now st' in
          (if bool_decide (is_Some (ms !! key)) then ms else <[key := count]> ms, st'')
      | (Err _, st') => GetMetrics keys' now st'
      end
  end.
End limiter.

(** ** How many requests the store admits *)

(** A use of the memory store by anyone: requests for any key with the
    limiter's limit and window, monitoring, and ticks of the clean-up. *)
Inductive store_op : Type :=
| OAllow (key : string) (now now' : time)
| OCount (key : string) (now : time)
| OTick (now : time).

Definition store_step (limit : Z) (o : store_op) (m : buckets) : bool * buckets :=
  match o with
  | OAllow key now now' =>
      let '(ok, _, m) := MemoryStore_Allow m key limit second now now' in (ok, m)
  | OCount key now => (false, (MemoryStore_GetCount m key now).2)
  | OTick now => (false, MemoryStore_cleanup m now)
  end.

Definition op_key (o : store_op) : option string :=
  match o with OAllow key _ _ => Some key | _ => None end.

(** Requests for key [k] that are admitted along a trace. *)
Fixpoint admitted (limit : Z) (k : string) (tr : list store_op) (m : buckets) : Z :=
  match tr with
  | [] => 0
  | o :: tr' =>
      let '(ok, m') := store_step limit o m in
      (if ok && bool_decide (op_key o = Some k) then 1 else 0) + admitted limit k tr' m'
  end.

Definition store_exec (limit : Z) (tr : list store_op) (m : buckets) : buckets :=
  fold_left (fun m o => (store_step limit o m).2) tr m.

(** The clock never goes back along the trace, and all readings are between
    [t] and [t1]. *)
Fixpoint timed (t : time) (tr : list store_op) (t1 : time) : Prop :=
  match tr with
  | [] => t <= t1
  | OAllow _ now now' :: tr' => t <= now /\ now <= now' /\ timed now' tr' t1
  | OCount _ now :: tr' | OTick now :: tr' => t <= now /\ timed now tr' t1
  end%Z.

(** The store is in use from [tb] on, and admissions are counted in the window
    from [t0] to [t1]. *)
Section bound.
Local Open Scope Z_scope.
Context (limit : Z) (tb t0 t1 : time).
Hypothesis Hlimit : 0 < limit <= 2 ^ 28.
Hypothesis Hspan : tb <= t0 <= t1 /\ t1 - tb <= int64_max.

(** Whole seconds since the start of the window. *)
Definition secs (t : time) : Z := (t - t0) / second.

(** What may have been admitted or be left in a bucket last refilled at
    [last]: a full bucket from before the window, and once it was refilled in
    the window another one and the refills of the whole seconds since. *)
Definition allowance (last : time) : Z :=
  if t0 <=? last then limit * (2 + secs last) else limit.

(** [n] admissions in the window so far and the bucket stay within it. *)
Definition bucket_inv (t : time) (n : Z) (b : tokenBucket) : Prop :=
  capacity b = limit /\ refillRate b = limit /\ 0 <= tokens b <= limit /\
  tb <= lastRefill b <= t /\ n + tokens b <= allowance (lastRefill b).
Definition key_inv (t : time) (n : Z) (o : option tokenBucket) : Prop :=
  match o with None => n <= limit * (1 + secs t) | Some b => bucket_inv t n b end.

Lemma secs_add t t' e : e * second <= t' - t -> secs t + e <= secs t'.
Proof.
  unfold secs. intros He. rewrite <- Z.div_add by done. apply Z.div_le_mono; [done|lia].
Qed.

Lemma secs_mono t t' : t <= t' -> secs t <= secs t'.
Proof. intros. pose proof (secs_add t t' 0). lia. Qed.

Lemma secs_nonneg t : t0 <= t -> 0 <= secs t.
Proof. intros. pose proof (secs_mono t0 t). unfold secs in *. rewrite Z.sub_diag, Z.div_0_l in * by done. lia. Qed.

Lemma allowance_bound last t : t0 <= t -> last <= t -> allowance last <= limit * (2 + secs t).
Proof.
  intros. pose proof (secs_nonneg t). unfold allowance. destruct (Z.leb_spec t0 last); [|nia].
  pose proof (secs_mono last t). nia.
Qed.

(** A refill by [e] whole seconds, capped at the limit. *)
Lemma allowance_refill last now e : t0 <= now -> e * second <= now - last -> 0 < e ->
  forall n tok, 0 <= tok <= limit -> n + tok <= allowance last ->
    n + Z.min limit (tok + e * limit) <= limit * (2 + secs now).
Proof.
  intros H0 He Hpos n tok Htok. pose proof (secs_nonneg now H0). unfold allowance.
  destruct (Z.leb_spec t0 last); [|nia]. pose proof (secs_add last now e He). nia.
Qed.

Lemma elapsed_secs last now : tb <= last -> last <= now -> now <= t1 ->
  exists e, duration_secs (time_sub now last) = e /\ 0 <= e <= 9223372036 /\ e * second <= now - last.
Proof.
  intros. assert (time_sub now last = now - last) as ->.
  { apply time_sub_small. unfold in_int64, int64_min, int64_max in *. lia. }
  unfold duration_secs, int64_max in *. eexists; split; [done|].
  rewrite Z.quot_div_nonneg by (unfold second; lia). unfold second. split.
  - split; [apply Z.div_pos; lia|]. apply (Z.div_le_mono _ (2 ^ 63 - 1) 1000000000); lia.
  - rewrite Z.mul_comm. apply Z.mul_div_le. lia.
Qed.

Lemma min_min a b : min a b = Z.min a b.
Proof. unfold min. destruct (Z.ltb_spec a b); lia. Qed.

Lemma refill_inv t now n b : t0 <= t -> t <= now <= t1 -> bucket_inv t n b -> bucket_inv now n (refill b now).
Proof.
  intros H0 Ht (Hc & Hr & Htok & Hlast & Hn).
  destruct (elapsed_secs (lastRefill b) now) as (e & He & Hb & Hs); [lia..|].
  unfold refill. rewrite He, Hr. assert (0 <= e * limit <= 9223372036 * 2 ^ 28) by nia.
  rewrite wrap64_id by (unfold in_int64, int64_min, int64_max; lia).
  destruct (Z.ltb_spec 0 (e * limit)).
  - rewrite wrap64_id by (unfold in_int64, int64_min, int64_max; lia).
    pose proof (allowance_refill (lastRefill b) now e ltac:(lia) Hs ltac:(nia) n (tokens b) Htok Hn).
    unfold bucket_inv; simpl. rewrite Hc, min_min.
    unfold allowance. destruct (Z.leb_spec t0 now); [|lia]. repeat split; try done; lia.
  - unfold bucket_inv. repeat split; try done; lia.
Qed.

Lemma consume_inv t now n b : t0 <= t -> t <= now <= t1 -> bucket_inv t n b ->
  let '(ok, _, b') := consume b now in bucket_inv now (n + if ok then 1 else 0) b'.
Proof.
  intros H0 Ht Hb. apply (refill_inv t now) in Hb; [|done..]. unfold consume.
  destruct Hb as (Hc & Hr & Htok & Hlast & Hn). destruct (Z.ltb_spec 0 (tokens (refill b now)));
    unfold bucket_inv; simpl; repeat split; try done; lia.
Qed.

Lemma new_bucket_inv t now n : t0 <= t -> t <= now -> n <= limit * (1 + secs t) ->
  bucket_inv now n (new_bucket limit second now).
Proof.
  intros. unfold new_bucket. rewrite Z.quot_mul by done. unfold bucket_inv; simpl.
  destruct (Z.eqb_spec limit 0); [lia|]. pose proof (secs_mono t now).
  unfold allowance. destruct (Z.leb_spec t0 now); [|lia]. repeat split; try done; [lia..|nia].
Qed.

(** A bucket is dropped ten minutes after its last refill, so that the seconds
    in between pay for the full bucket a later request gets. *)
Lemma allowance_dropped last now : t0 <= now -> 2 * cleanup_interval < now - last ->
  allowance last <= limit * (1 + secs now).
Proof.
  intros H0 Hl. pose proof (secs_nonneg now H0). unfold allowance.
  destruct (Z.leb_spec t0 last); [|nia].
  pose proof (secs_add last now 600). unfold cleanup_interval, minute, second in *. nia.
Qed.

Lemma cleanup_inv t now n o : t0 <= t -> t <= now <= t1 -> key_inv t n o ->
  key_inv now n (o ≫= fun b => if 2 * cleanup_interval <? time_sub now (lastRefill b) then None else Some b).
Proof.
  intros H0 Ht. destruct o as [b|]; simpl.
  - intros (Hc & Hr & Htok & Hlast & Hn). destruct (Z.ltb_spec (2 * cleanup_interval) (time_sub now (lastRefill b))) as [Hl|]; simpl.
    + rewrite time_sub_small in Hl by (unfold in_int64, int64_min, int64_max in *; lia).
      pose proof (allowance_dropped (lastRefill b) now ltac:(lia) Hl). lia.
    + unfold bucket_inv. repeat split; try done; lia.
  - intros. pose proof (secs_mono t now). nia.
Qed.

Lemma key_inv_later t t' n o : t <= t' -> key_inv t n o -> key_inv t' n o.
Proof.
  destruct o as [b|]; simpl; unfold bucket_inv; [intros; lia|]. intros.
  pose proof (secs_mono t t'). nia.
Qed.

Lemma key_inv_bound t n o : t0 <= t <= t1 -> key_inv t n o -> n <= limit * (2 + secs t1).
Proof.
  intros Ht. destruct o as [b|]; simpl.
  - intros (_ & _ & ? & ? & ?). pose proof (allowance_bound (lastRefill b) t1). lia.
  - intros. pose proof (secs_mono t t1). nia.
Qed.

Lemma timed_end t tr u : timed t tr u -> t <= u.
Proof.
  clear. revert t. induction tr as [|[] tr IH]; simpl; intros; [done|..];
    (etransitivity; [|by eapply IH; naive_solver]); lia.
Qed.

(** One operation advances the clock to its last reading and keeps the
    invariant of every key, counting its admissions. *)
Lemma store_step_inv k o tr t n m : t0 <= t -> timed t (o :: tr) t1 -> key_inv t n (m !! k) ->
  exists t', t <= t' /\ timed t' tr t1 /\
    let '(ok, m') := store_step limit o m in
    key_inv t' (n + if ok && bool_decide (op_key o = Some k) then 1 else 0) (m' !! k).
Proof.
  intros H0 Htm Hk.
  destruct o as [key now now'|key now|now]; simpl in Htm;
    [destruct Htm as (? & ? & Htm)|destruct Htm as (? & Htm)|destruct Htm as (? & Htm)].
  - exists now'. split; [lia|]. split; [done|]. simpl. unfold MemoryStore_Allow.
    apply timed_end in Htm.
    destruct (decide (key = k)) as [->|Hne].
    + rewrite bool_decide_true by done.
      set (b := match m !! k with Some b => b | None => new_bucket limit second now end).
      assert (bucket_inv now n b) as Hb.
      { subst b. destruct (m !! k) as [b|]; [by apply (key_inv_later t now n (Some b))|].
        by apply (new_bucket_inv t); [lia..|]. }
      pose proof (consume_inv now now' n b ltac:(lia) ltac:(lia) Hb) as Hc.
      destruct (consume b now') as [[ok wait] b']. rewrite lookup_insert_eq, andb_true_r. done.
    + destruct (consume _ now') as [[ok wait] b']. rewrite lookup_insert_ne by done.
      rewrite bool_decide_false by congruence. rewrite andb_false_r, Z.add_0_r.
      apply (key_inv_later t); [lia|done].
  - exists now. split; [lia|]. split; [done|]. simpl. rewrite Z.add_0_r. unfold MemoryStore_GetCount.
    apply timed_end in Htm.
    destruct (m !! key) as [b|] eqn:Hb; simpl; [|by apply (key_inv_later t)].
    destruct (decide (key = k)) as [->|Hne].
    + rewrite lookup_insert_eq. rewrite Hb in Hk. by apply (refill_inv t).
    + rewrite lookup_insert_ne by done. by apply (key_inv_later t).
  - exists now. split; [lia|]. split; [done|]. simpl. rewrite Z.add_0_r. unfold MemoryStore_cleanup.
    apply timed_end in Htm.
    apply (cleanup_inv t now) in Hk; [|lia..]. rewrite map_lookup_filter.
    destruct (m !! k) as [b|]; simpl in *; [|done].
    by destruct (2 * cleanup_interval <? time_sub now (lastRefill b)).
Qed.

Lemma exec_inv k tr t n m : t0 <= t -> timed t tr t1 -> key_inv t n (m !! k) ->
  exists t', t <= t' <= t1 /\ key_inv t' (n + admitted limit k tr m) (store_exec limit tr m !! k).
Proof.
  revert t n m. induction tr as [|o tr IH]; intros t n m H0 Htm Hk.
  - exists t. simpl in *. rewrite Z.add_0_r. done.
  - destruct (store_step_inv k o tr t n m H0 Htm Hk) as (t' & Ht' & Htm' & Hk'). simpl.
    unfold store_exec in *. simpl. destruct (store_step limit o m) as [ok m'].
    destruct (IH t' _ m' ltac:(lia) Htm' Hk') as (t'' & Ht'' & Hk''). exists t''. split; [lia|].
    by rewrite Z.add_assoc.
Qed.

Lemma admitted_bound k tr m : timed t0 tr t1 -> key_inv t0 0 (m !! k) ->
  admitted limit k tr m <= limit * (2 + secs t1).
Proof.
  intros Htm Hk. destruct (exec_inv k tr t0 0 m ltac:(lia) Htm Hk) as (t' & Ht' & Hk').
  by apply (key_inv_bound t') in Hk'.
Qed.
End bound.

(** Whatever was done with the store from [tb] on, every bucket is at most full
    when a window begins at [t0]. *)
Lemma window_begins limit tb t0 k tr :
  (0 < limit <= 2 ^ 28)%Z -> (tb <= t0 /\ t0 - tb <= int64_max)%Z -> timed tb tr t0 ->
  key_inv limit tb t0 t0 0 (store_exec limit tr ∅ !! k).
Proof.
  intros Hl [Hle Hs] Htm.
  destruct (exec_inv limit tb tb t0 Hl ltac:(lia) k tr tb 0 ∅ ltac:(lia) Htm) as (t' & Ht' & Hk).
  { rewrite lookup_empty. unfold key_inv, secs. rewrite Z.sub_diag, Z.div_0_l by done. lia. }
  destruct (store_exec limit tr ∅ !! k) as [b|]; simpl in *.
  - destruct Hk as (Hc & Hr & Htok & Hlast & _). unfold bucket_inv. repeat split; try done; [lia..|].
    unfold allowance, secs. destruct (Z.leb_spec t0 (lastRefill b)); [|lia].
    assert (lastRefill b - t0 = 0)%Z as -> by lia. rewrite Z.div_0_l by done. lia.
  - unfold secs. rewrite Z.sub_diag, Z.div_0_l by done. lia.
Qed.

(** ** How many requests the limiter lets through *)

Lemma admitted_app limit k tr tr' m :
  (admitted limit k (tr ++ tr') m = admitted limit k tr m + admitted limit k tr' (store_exec limit tr m))%Z.
Proof.
  revert m. induction tr as [|o tr IH]; intros m; simpl; [done|].
  unfold store_exec in *; simpl. destruct (store_step limit o m) as [ok m'].
  specialize (IH m'). cbn [snd] in *. lia.
Qed.

Lemma admitted_nonneg limit k tr m : (0 <= admitted limit k tr m)%Z.
Proof.
  revert m. induction tr as [|o tr IH]; intros m; simpl; [done|].
  destruct (store_step limit o m) as [ok m']. specialize (IH m'). case_match; lia.
Qed.

(** The store operations a request makes: the keys in order, up to the first
    refusal. *)
Fixpoint attempts (limit : Z) (keys : list string) (clk : nat -> time * time) (m : buckets) : list store_op :=
  match keys with
  | [] => []
  | key :: keys' =>
      let o := OAllow key (clk O).1 (clk O).2 in
      let '(ok, m') := store_step limit o m in
      o :: if ok then attempts limit keys' (fun i => clk (S i)) m' else []
  end.

Lemma allow_keys_attempts config k keys clk m :
  let '(answer, m') := allow_keys config keys clk m in
  let tr := attempts (RequestsPerSecond config) keys clk m in
  m' = store_exec (RequestsPerSecond config) tr m /\
  (answer.1.1 = true -> k ∈ keys -> (1 <= admitted (RequestsPerSecond config) k tr m)%Z).
Proof.
  revert clk m. induction keys as [|key keys IH]; intros clk m; [simpl; set_solver|].
  cbn [allow_keys attempts rl_Allow MemoryStore store_step].
  destruct (MemoryStore_Allow m key _ second (clk O).1 (clk O).2) as [[ok wait] m1] eqn:E. destruct ok.
  - specialize (IH (fun i => clk (S i)) m1).
    destruct (allow_keys config keys _ m1) as [answer m'].
    destruct IH as [Hm Hk]. split.
    + rewrite Hm. unfold store_exec. simpl. by rewrite E.
    + intros Ha Hin. cbn [admitted store_step]. rewrite E. cbn [op_key].
      match goal with |- context [admitted ?l k ?tr m1] => pose proof (admitted_nonneg l k tr m1) end.
      apply elem_of_cons in Hin as [->|Hin]; [rewrite bool_decide_true by done; simpl; lia|].
      specialize (Hk Ha Hin). case_match; lia.
  - simpl. split; [|done]. unfold store_exec. simpl. by rewrite E.
Qed.

(** What happens at the limiter: a request with its keys and clock readings,
    or any other use of its store. *)
Abbreviation gate_event := ((list string * (nat -> time * time)) + store_op)%type.

Definition gate_ops (limit : Z) (e : gate_event) (m : buckets) : list store_op :=
  match e with inl (keys, clk) => attempts limit keys clk m | inr o => [o] end.

Fixpoint gate_timed (config : RateLimitConfig) (t : time) (es : list gate_event) (m : buckets) (t1 : time) : Prop :=
  match es with
  | [] => (t <= t1)%Z
  | e :: es' =>
      let ops := gate_ops (RequestsPerSecond config) e m in
      exists t', timed t ops t' /\ gate_timed config t' es' (store_exec (RequestsPerSecond config) ops m) t1
  end.

(** Requests counted under key [k] that the limiter allowed. *)
Fixpoint let_through (config : RateLimitConfig) (k : string) (es : list gate_event) (m : buckets) : Z :=
  match es with
  | [] => 0
  | inl (keys, clk) :: es' =>
      let '(answer, m') := allow_keys config keys clk m in
      (if answer.1.1 && bool_decide (k ∈ keys) then 1 else 0) + let_through config k es' m'
  | inr o :: es' => let_through config k es' (store_step (RequestsPerSecond config) o m).2
  end.

Fixpoint all_ops (config : RateLimitConfig) (es : list gate_event) (m : buckets) : list store_op :=
  match es with
  | [] => []
  | e :: es' =>
      let ops := gate_ops (RequestsPerSecond config) e m in
      (ops ++ all_ops config es' (store_exec (RequestsPerSecond config) ops m))%list
  end.

Lemma timed_app t tr tr' t' t1 : timed t tr t' -> timed t' tr' t1 -> timed t (tr ++ tr') t1.
Proof.
  assert (forall t t' tr t1, (t <= t')%Z -> timed t' tr t1 -> timed t tr t1) as Hle.
  { intros u u' [|[] ?] ?; simpl; intros; naive_solver lia. }
  revert t. induction tr as [|[] tr IH]; intros t; simpl; naive_solver.
Qed.

Lemma all_ops_timed config es t m t1 : gate_timed config t es m t1 -> timed t (all_ops config es m) t1.
Proof.
  revert t m. induction es as [|e es IH]; intros t m; simpl; [done|].
  intros (t' & Ht & Hes). eapply timed_app; [done|]. by apply IH.
Qed.

Lemma let_through_admitted config k es m :
  (let_through config k es m <= admitted (RequestsPerSecond config) k (all_ops config es m) m)%Z.
Proof.
  revert m. induction es as [|[[keys clk]|o] es IH]; intros m; [done|..]; cbn [let_through all_ops gate_ops];
    rewrite admitted_app.
  - pose proof (allow_keys_attempts config k keys clk m) as Ha.
    destruct (allow_keys config keys clk m) as [answer m']. destruct Ha as [-> Hk].
    match goal with |- context [(_ + let_through _ _ _ ?m1)%Z] => specialize (IH m1) end.
    match goal with |- context [admitted ?l k ?tr m] => pose proof (admitted_nonneg l k tr m) end.
    destruct answer.1.1; simpl; [|lia]. case_bool_decide; [|lia]. specialize (Hk eq_refl ltac:(done)). lia.
  - match goal with |- context [admitted ?l k [o] m] => pose proof (admitted_nonneg l k [o] m) end.
    specialize (IH (store_step (RequestsPerSecond config) o m).2). unfold store_exec; simpl fold_left. lia.
Qed.

(** The store after the events. *)
Definition gate_step (config : RateLimitConfig) (m : buckets) (e : gate_event) : buckets :=
  match e with
  | inl (keys, clk) => (allow_keys config keys clk m).2
  | inr o => (store_step (RequestsPerSecond config) o m).2
  end.
Definition gate_exec (config : RateLimitConfig) (es : list gate_event) (m : buckets) : buckets :=
  fold_left (gate_step config) es m.

Lemma gate_step_ops config m e :
  gate_step config m e = store_exec (RequestsPerSecond config) (gate_ops (RequestsPerSecond config) e m) m.
Proof.
  destruct e as [[keys clk]|o]; simpl; [|done].
  pose proof (allow_keys_attempts config "" keys clk m) as Ha.
  destruct (allow_keys config keys clk m) as [answer m']. by destruct Ha as [-> _].
Qed.

Lemma gate_exec_ops config es m :
  gate_exec config es m = store_exec (RequestsPerSecond config) (all_ops config es m) m.
Proof.
  revert m. induction es as [|e es IH]; intros m; [done|]. simpl. rewrite IH, gate_step_ops.
  unfold store_exec at 4. by rewrite fold_left_app.
Qed.


Definition two_per_second : RateLimitConfig :=
  {| RequestsPerSecond := 2; BurstSize := 0; ByIP := true; ByUser := false; ByPath := false;
     rl_TrustForwardedHeaders := false |}.
Definition requests_at (ts : list time) : list gate_event :=
  map (fun t : Z => inl (["ip:10.0.0.1"], fun _ => (t, t))) ts.

(** One request, a pause, and a full bucket on either side of a refill. *)
Definition first_request : list gate_event := requests_at [0]%Z.
Definition burst_after_pause : list gate_event :=
  requests_at [9 * second; 9 * second; 9 * second; 10 * second; 10 * second; 10 * second]%Z.

Lemma gate_timed_requests config t ts m t1 :
  Sorted.StronglySorted Z.le (t :: ts) -> Forall (fun u => u <= t1)%Z (t :: ts) ->
  gate_timed config t (requests_at ts) m t1.
Proof.
  revert t m. induction ts as [|u ts IH]; intros t m Hs Hf; simpl.
  - by inversion Hf.
  - inversion Hs as [|? ? Hs' Hall]; subst. inversion Hf as [|? ? _ Hf']; subst.
    exists u. split; [|by apply IH].
    assert (t <= u)%Z by (by inversion Hall).
    repeat case_match; simpl; lia.
Qed.


(** ** When an exhausted key recovers *)

(** A key whose bucket is empty is refused until one whole second has
    passed since the last refill and is admitted from then on, whatever its
    limit: tokens are added for whole seconds only. *)
Theorem empty_bucket_recovers_after_one_second m k b limit window now now' :
  m !! k = Some b -> tokens b = 0%Z -> (0 < capacity b <= 2 ^ 28)%Z -> refillRate b = capacity b ->
  (0 <= now' - lastRefill b <= int64_max)%Z ->
  (MemoryStore_Allow m k limit window now now').1.1 = (second <=? now' - lastRefill b)%Z.
Proof.
  intros Hb Htok Hcap Hr Hel. unfold MemoryStore_Allow. rewrite Hb.
  destruct (elapsed_secs (lastRefill b) (lastRefill b) now' ltac:(lia) (lastRefill b) now') as (e & He & Hb9 & Hs); [lia..|].
  assert ((1 <= e)%Z <-> (second <= now' - lastRefill b)%Z) as Hiff.
  { split; [nia|]. intros Hs'. rewrite time_sub_small in He by (unfold in_int64, int64_min, int64_max in *; lia).
    subst e. unfold duration_secs. apply Z.quot_le_lower_bound; [done|lia]. }
  unfold consume, refill. rewrite He, Hr, Htok.
  assert (0 <= e * capacity b <= 9223372036 * 2 ^ 28)%Z by nia.
  rewrite !wrap64_id by (unfold in_int64, int64_min, int64_max; lia).
  destruct (Z.leb_spec second (now' - lastRefill b)).
  - assert (1 <= e)%Z by (apply Hiff; lia). destruct (Z.ltb_spec 0 (e * capacity b)); [|nia].
    assert (0 < min (capacity b) (0 + e * capacity b))%Z as Hpos by (unfold min; case_match; lia).
    apply Z.ltb_lt in Hpos. simpl in *. by rewrite Hpos.
  - assert (e = 0)%Z as -> by lia. simpl. rewrite Htok. done.
Qed.

Definition spent : buckets :=
  {[ "ip:10.0.0.1" := {| tokens := 0; capacity := 100; refillRate := 100; lastRefill := 0 |} ]}.

Lemma empty_bucket_recovers_after_one_second_witness :
  (MemoryStore_Allow spent "ip:10.0.0.1" 100 second (second - 1) (second - 1)).1.1 = false /\
  (MemoryStore_Allow spent "ip:10.0.0.1" 100 second second second).1.1 = true.
Proof.
  split; rewrite (empty_bucket_recovers_after_one_second spent "ip:10.0.0.1"
    {| tokens := 0; capacity := 100; refillRate := 100; lastRefill := 0 |});
    try reflexivity; unfold int64_max, second; simpl; lia.
Defined.

(** The wait a refusal reports is the refill interval of a continuous bucket:
    at 100 requests per second it is 10 ms, after which the key is still
    refused. *)
Lemma reported_wait_is_too_short :
  let '(ok, wait, m) := MemoryStore_Allow spent "ip:10.0.0.1" 100 second 1 1 in
  ok = false /\ wait = (10 * millisecond)%Z /\
  (MemoryStore_Allow m "ip:10.0.0.1" 100 second (1 + wait) (1 + wait)).1.1 = false.
Proof. vm_compute. by split_and!. Qed.
