(* ===== verification/GoPath.v ===== *)
(** Go's package [path] as the gateway uses it: [path.Clean] of rooted paths
    and the glob matcher [path.Match], with the UTF-8 decoding it relies on. *)

From Stdlib Require Import Ascii String.
From S2P Require Import Prelude GoStrings.

Local Open Scope string_scope.

(** ** [path.Clean] of a path that starts with a slash *)

(** The components that remain, innermost first. *)
Fixpoint clean_parts (parts : list string) (stack : list string) : list string :=
  match parts with
  | [] => stack
  | p :: ps =>
      if String.eqb p "" || String.eqb p "." then clean_parts ps stack
      else if String.eqb p ".." then clean_parts ps (tail stack)
      else clean_parts ps (p :: stack)
  end.

(** [path.Clean("/" + p)]. *)
Definition Clean_rooted (p : string) : string :=
  "/" +:+ Join (rev (clean_parts (Split p "/") [])) "/".

Example clean1 : Clean_rooted "/a/./b//c/../d/" = "/a/b/d".
Proof. reflexivity. Qed.
Example clean2 : Clean_rooted "../../x" = "/x".
Proof. reflexivity. Qed.
Example clean3 : Clean_rooted "" = "/".
Proof. reflexivity. Qed.

(** ** [utf8.DecodeRuneInString]: the rune and its width *)

Definition RuneError : Z := 65533.
Definition byte_of (c : ascii) : Z := Z.of_N (N_of_ascii c).
Definition cont_byte (c : ascii) : bool := ((128 <=? byte_of c) && (byte_of c <=? 191))%Z.
Definition in_range (lo hi : Z) (c : ascii) : bool := ((lo <=? byte_of c) && (byte_of c <=? hi))%Z.
Definition low6 (c : ascii) : Z := (byte_of c - 128)%Z.

Definition DecodeRune (s : string) : Z * nat :=
  match s with
  | EmptyString => (RuneError, 0)
  | String c0 r =>
      let b0 := byte_of c0 in
      if (b0 <? 128)%Z then (b0, 1)
      else if in_range 194 223 c0 then
        match r with
        | String c1 _ => if cont_byte c1 then (((b0 - 192) * 64 + low6 c1)%Z, 2) else (RuneError, 1)
        | _ => (RuneError, 1)
        end
      else if in_range 224 239 c0 then
        match r with
        | String c1 (String c2 _) =>
            let lo := if (b0 =? 224)%Z then 160%Z else 128%Z in
            let hi := if (b0 =? 237)%Z then 159%Z else 191%Z in
            if in_range lo hi c1 && cont_byte c2
            then ((((b0 - 224) * 64 + low6 c1) * 64 + low6 c2)%Z, 3) else (RuneError, 1)
        | _ => (RuneError, 1)
        end
      else if in_range 240 244 c0 then
        match r with
        | String c1 (String c2 (String c3 _)) =>
            let lo := if (b0 =? 240)%Z then 144%Z else 128%Z in
            let hi := if (b0 =? 244)%Z then 143%Z else 191%Z in
            if in_range lo hi c1 && cont_byte c2 && cont_byte c3
            then (((((b0 - 240) * 64 + low6 c1) * 64 + low6 c2) * 64 + low6 c3)%Z, 4) else (RuneError, 1)
        | _ => (RuneError, 1)
        end
      else (RuneError, 1)
  end.

(** ** [path.Match] *)

Inductive bad_pattern : Type := ErrBadPattern.

Definition is_char (c : ascii) (s : string) : bool := HasPrefix s (String c "").

Fixpoint skip_stars (pattern : string) : bool * string :=
  match pattern with
  | EmptyString => (false, pattern)
  | String c r => if Ascii.eqb c "*" then (true, (skip_stars r).2) else (false, pattern)
  end.

(** The chunk up to the next star outside a class, and what follows; [esc]
    says that the next character is escaped. *)
Fixpoint scan (pattern : string) (inrange esc : bool) : string * string :=
  match pattern with
  | EmptyString => ("", "")
  | String c r =>
      if esc then let '(chunk, rest) := scan r inrange false in (String c chunk, rest)
      else if Ascii.eqb c "*" && negb inrange then ("", pattern)
      else
        let '(chunk, rest) :=
          if Ascii.eqb c "\" then scan r inrange true
          else if Ascii.eqb c "[" then scan r true false
          else if Ascii.eqb c "]" then scan r false false
          else scan r inrange false in
        (String c chunk, rest)
  end.

Definition scanChunk (pattern : string) : bool * string * string :=
  let '(star, pattern) := skip_stars pattern in
  let '(chunk, rest) := scan pattern false false in
  (star, chunk, rest).

Definition getEsc (chunk : string) : result bad_pattern (Z * string) :=
  if String.eqb chunk "" || is_char "-" chunk || is_char "]" chunk then Err ErrBadPattern
  else
    let chunk := if is_char "\" chunk then str_drop 1 chunk else chunk in
    if String.eqb chunk "" then Err ErrBadPattern
    else
      let '(r, n) := DecodeRune chunk in
      let nchunk := str_drop n chunk in
      if ((r =? RuneError)%Z && (n =? 1)%nat) || String.eqb nchunk "" then Err ErrBadPattern
      else Ok (r, nchunk).

(** The ranges of a character class after its opening; [started] says that a
    range was read.  The fuel bounds the number of ranges. *)
Fixpoint class_ranges (fuel : nat) (chunk : string) (r : Z) (started matched : bool)
    : result bad_pattern (bool * string) :=
  match fuel with
  | O => Err ErrBadPattern
  | S fuel' =>
      if is_char "]" chunk && started then Ok (matched, str_drop 1 chunk)
      else
        '(lo, chunk) ← getEsc chunk;
        '(hi, chunk) ← (if is_char "-" chunk then getEsc (str_drop 1 chunk) else Ok (lo, chunk));
        class_ranges fuel' chunk r true (matched || ((lo <=? r) && (r <=? hi))%Z)
  end.

(** [matchChunk]: the rest of [s] when the chunk matches a prefix of it.  The
    fuel bounds the number of pattern items. *)
Fixpoint matchChunk_aux (fuel : nat) (chunk s : string) (failed : bool)
    : result bad_pattern (string * bool) :=
  match fuel with
  | O => Err ErrBadPattern
  | S fuel' =>
      match chunk with
      | EmptyString => if failed then Ok ("", false) else Ok (s, true)
      | String c chunk' =>
          let failed := failed || String.eqb s "" in
          if Ascii.eqb c "[" then
            let '(r, s') := if failed then (0%Z, s) else let '(r, n) := DecodeRune s in (r, str_drop n s) in
            let negated := is_char "^" chunk' in
            let body := if negated then str_drop 1 chunk' else chunk' in
            '(matched, rest) ← class_ranges (S (String.length body)) body r false false;
            matchChunk_aux fuel' rest s' (failed || Bool.eqb matched negated)
          else if Ascii.eqb c "?" then
            if failed then matchChunk_aux fuel' chunk' s true
            else matchChunk_aux fuel' chunk' (str_drop (DecodeRune s).2 s) (is_char "/" s)
          else
            match (if Ascii.eqb c "\" then chunk' else chunk) with
            | EmptyString => Err ErrBadPattern
            | String e rest =>
                if failed then matchChunk_aux fuel' rest s true
                else matchChunk_aux fuel' rest (str_drop 1 s) (negb (is_char e s))
            end
      end
  end.

Definition matchChunk (chunk s : string) : result bad_pattern (string * bool) :=
  matchChunk_aux (S (String.length chunk)) chunk s false.

(** The remaining pattern is checked before a negative answer. *)
Fixpoint check_rest (fuel : nat) (pattern : string) : result bad_pattern bool :=
  match fuel with
  | O => Ok false
  | S fuel' =>
      if String.eqb pattern "" then Ok false
      else
        let '(_, chunk, rest) := scanChunk pattern in
        _ ← matchChunk chunk "";
        check_rest fuel' rest
  end.

(** The positions a star may skip to: the first at which the chunk matches
    (and the name is exhausted, when it is the last chunk). *)
Fixpoint star_search (chunk : string) (last : bool) (name : string) : result bad_pattern (option string) :=
  match name with
  | EmptyString => Ok None
  | String c name' =>
      if Ascii.eqb c "/" then Ok None
      else
        '(t, ok) ← matchChunk chunk name';
        if ok && negb (last && negb (String.eqb t "")) then Ok (Some t)
        else star_search chunk last name'
  end.

Fixpoint Match_aux (fuel : nat) (pattern name : string) : result bad_pattern bool :=
  match fuel with
  | O => Ok (String.eqb name "")
  | S fuel' =>
      if String.eqb pattern "" then Ok (String.eqb name "")
      else
        let '(star, chunk, rest) := scanChunk pattern in
        if star && String.eqb chunk "" then Ok (str_forall (not_char "/") name)
        else
          match matchChunk chunk name with
          | Err e => Err e
          | Ok (t, ok) =>
              if ok && (String.eqb t "" || negb (String.eqb rest "")) then Match_aux fuel' rest t
              else if star then
                match star_search chunk (String.eqb rest "") name with
                | Err e => Err e
                | Ok (Some t) => Match_aux fuel' rest t
                | Ok None => check_rest (S (String.length rest)) rest
                end
              else check_rest (S (String.length rest)) rest
          end
  end.

Definition Match (pattern name : string) : result bad_pattern bool :=
  Match_aux (S (String.length pattern)) pattern name.

(** Examples of the package documentation's grammar. *)
Example match_star : Match "/api/*" "/api/users" = Ok true.
Proof. reflexivity. Qed.
Example match_star_slash : Match "/api/*" "/api/users/1" = Ok false.
Proof. reflexivity. Qed.
Example match_mid : Match "/a*/b?[c-e]" "/axyz/bzd" = Ok true.
Proof. reflexivity. Qed.
Example match_neg : Match "/[^a-c]x" "/bx" = Ok false.
Proof. reflexivity. Qed.
Example match_bad : Match "/a[" "/b" = Err ErrBadPattern.
Proof. reflexivity. Qed.
Example match_escape : Match "a\*b" "a*b" = Ok true.
Proof. reflexivity. Qed.
Example match_backtrack : Match "*ab*ab" "xabyabab" = Ok true.
Proof. reflexivity. Qed.

(** ** The fuel is enough *)

Lemma str_drop_length n s : String.length (str_drop n s) = String.length s - n.
Proof. revert s. induction n as [|n IH]; intros [|c s]; simpl; try done. Qed.

Lemma DecodeRune_width s : s <> "" -> 1 <= (DecodeRune s).2.
Proof. destruct s; [done|]. intros _. unfold DecodeRune. repeat case_match; simpl; lia. Qed.

Lemma getEsc_shorter chunk r rest : getEsc chunk = Ok (r, rest) -> String.length rest < String.length chunk.
Proof.
  unfold getEsc. destruct (_ || _); [done|]. set (c := if is_char _ chunk then _ else chunk).
  assert (String.length c <= String.length chunk) as Hc.
  { subst c. case_match; [rewrite str_drop_length|]; lia. }
  destruct (String.eqb_spec c "") as [|Hne]; [done|]. pose proof (DecodeRune_width c Hne).
  destruct (DecodeRune c) as [r0 n]. destruct (_ || _); [done|]. intros [= _ <-].
  rewrite str_drop_length. simpl in *. assert (String.length c <> 0) by (by destruct c). lia.
Qed.

(** One range consumes part of the chunk. *)
Lemma range_shorter chunk lo c1 hi c2 :
  getEsc chunk = Ok (lo, c1) ->
  (if is_char "-" c1 then getEsc (str_drop 1 c1) else Ok (lo, c1)) = Ok (hi, c2) ->
  String.length c2 < String.length chunk.
Proof.
  intros E1%getEsc_shorter. case_match; [|by intros [= _ <-]].
  intros E2%getEsc_shorter. rewrite str_drop_length in E2. lia.
Qed.

Lemma class_ranges_fuel f1 f2 chunk r st m :
  String.length chunk < f1 -> String.length chunk < f2 ->
  class_ranges f1 chunk r st m = class_ranges f2 chunk r st m.
Proof.
  revert f2 chunk st m. induction f1 as [|f1 IH]; intros [|f2] chunk st m H1 H2; try lia.
  simpl. case_match; [done|]. destruct (getEsc chunk) as [[lo c1]|] eqn:E1; [|done]. simpl.
  destruct (if is_char "-" c1 then _ else _) as [[hi c2]|] eqn:E2; [|done]. simpl.
  pose proof (range_shorter _ _ _ _ _ E1 E2). apply IH; lia.
Qed.

Lemma class_ranges_shorter f chunk r st m b rest :
  class_ranges f chunk r st m = Ok (b, rest) -> String.length rest < String.length chunk.
Proof.
  revert chunk st m. induction f as [|f IH]; intros chunk st m; [done|]. cbn [class_ranges].
  destruct (is_char "]" chunk && st) eqn:E.
  - destruct chunk as [|d chunk]; [done|]. cbn [str_drop]. intros [= _ <-]. simpl. lia.
  - destruct (getEsc chunk) as [[lo c1]|] eqn:E1; [|done]. simpl.
    destruct (if is_char "-" c1 then _ else _) as [[hi c2]|] eqn:E2; [|done]. simpl.
    pose proof (range_shorter _ _ _ _ _ E1 E2). intros ?%IH. lia.
Qed.

Lemma matchChunk_aux_fuel f1 f2 chunk s failed :
  String.length chunk < f1 -> String.length chunk < f2 ->
  matchChunk_aux f1 chunk s failed = matchChunk_aux f2 chunk s failed.
Proof.
  revert f2 chunk s failed. induction f1 as [|f1 IH]; intros [|f2] chunk s failed H1 H2; try lia.
  destruct chunk as [|c chunk]; [done|]. cbn [matchChunk_aux]. simpl in H1, H2.
  destruct (Ascii.eqb c "[").
  - destruct (if failed || _ then _ else _) as [r s'].
    destruct (class_ranges _ _ _ _ _) as [[m rest]|] eqn:E; [|done]. simpl.
    apply class_ranges_shorter in E. apply IH; revert E; case_match; rewrite ?str_drop_length; lia.
  - destruct (Ascii.eqb c "?"); [case_match; apply IH; lia|].
    destruct (Ascii.eqb c "\"); [destruct chunk as [|e rest]; [done|]|]; case_match; apply IH; simpl in *; lia.
Qed.

(** [matchChunk] is the loop run to its end, whatever larger fuel it is given. *)
Lemma matchChunk_enough f chunk s :
  String.length chunk < f -> matchChunk_aux f chunk s false = matchChunk chunk s.
Proof. intros. apply matchChunk_aux_fuel; lia. Qed.

Lemma skip_stars_length p : String.length (skip_stars p).2 <= String.length p /\
  ((skip_stars p).1 = true -> String.length (skip_stars p).2 < String.length p) /\
  ((skip_stars p).1 = false -> (skip_stars p).2 = p).
Proof.
  induction p as [|c p IH]; simpl; [done|]. destruct (Ascii.eqb c "*"); simpl; [|done].
  destruct IH as (? & ? & ?). split_and!; [lia|lia|done].
Qed.

Lemma scan_length p i e : String.length (scan p i e).1 + String.length (scan p i e).2 = String.length p.
Proof.
  revert i e. induction p as [|c p IH]; intros i e; simpl; [done|].
  assert (forall i e, String.length (String c (scan p i e).1) + String.length (scan p i e).2 = S (String.length p)) as Hc
    by (intros i' e'; simpl; by rewrite IH).
  destruct e.
  - specialize (Hc i false). by destruct (scan p i false).
  - destruct (_ && _); [done|]. destruct (Ascii.eqb c "\"); [|destruct (Ascii.eqb c "["); [|destruct (Ascii.eqb c "]")]];
      match goal with |- context [scan p ?i ?e] => specialize (Hc i e); by destruct (scan p i e) end.
Qed.

(** Every round of [Match] consumes part of the pattern. *)
Lemma scanChunk_shorter p star chunk rest :
  scanChunk p = (star, chunk, rest) -> p <> "" -> String.length rest < String.length p.
Proof.
  unfold scanChunk. pose proof (skip_stars_length p) as (H1 & H2 & H3).
  destruct (skip_stars p) as [st q] eqn:Eq. pose proof (scan_length q false false) as Hl. simpl in *.
  destruct (scan q false false) as [ch re] eqn:Es. intros [= <- <- <-] Hne. simpl in *. destruct st; [lia|].
  specialize (H3 eq_refl). subst q. destruct p as [|c p]; [done|]. simpl in Eq.
  destruct (Ascii.eqb c "*") eqn:Ec; [by destruct (skip_stars p)|].
  cbn [scan] in Es. rewrite Ec in Es. cbn [andb] in Es.
  destruct (if Ascii.eqb c "\" then _ else _) as [ch' re'] in Es. injection Es as <- <-. simpl in *. lia.
Qed.

Lemma check_rest_fuel f1 f2 p :
  String.length p < f1 -> String.length p < f2 -> check_rest f1 p = check_rest f2 p.
Proof.
  revert f2 p. induction f1 as [|f1 IH]; intros [|f2] p H1 H2; try lia. simpl.
  destruct (String.eqb_spec p "") as [|Hne]; [done|].
  destruct (scanChunk p) as [[star chunk] rest] eqn:E. apply scanChunk_shorter in E; [|done].
  destruct (matchChunk chunk ""); [|done]. simpl. apply IH; lia.
Qed.

Lemma Match_aux_fuel f1 f2 p name :
  String.length p < f1 -> String.length p < f2 -> Match_aux f1 p name = Match_aux f2 p name.
Proof.
  revert f2 p name. induction f1 as [|f1 IH]; intros [|f2] p name H1 H2; try lia. simpl.
  destruct (String.eqb_spec p "") as [|Hne]; [done|].
  destruct (scanChunk p) as [[star chunk] rest] eqn:E. apply scanChunk_shorter in E; [|done].
  destruct (_ && _); [done|]. destruct (matchChunk chunk name) as [[t ok]|]; [|done].
  destruct (_ && _); [apply IH; lia|]. destruct star; [|done].
  destruct (star_search _ _ _) as [[t'|]|]; [apply IH; lia|done..].
Qed.

(** [Match] is the loop run to its end. *)
Lemma Match_enough f p name : String.length p < f -> Match_aux f p name = Match p name.
Proof. intros. apply Match_aux_fuel; lia. Qed.

(** ** Patterns without metacharacters match themselves only *)

Definition plain_char (c : ascii) : bool :=
  negb (Ascii.eqb c "*" || Ascii.eqb c "?" || Ascii.eqb c "[" || Ascii.eqb c "\").

Lemma scan_plain p : str_forall plain_char p = true -> scan p false false = (p, "").
Proof.
  intros Hp. induction p as [|c p IH]; simpl in *; [done|].
  apply andb_true_iff in Hp as [Hc Hp]. unfold plain_char in Hc. bool_to_prop.
  repeat match goal with H : Ascii.eqb c _ = false |- _ => rewrite H; clear H end. simpl.
  rewrite IH by done. by destruct (Ascii.eqb c "]").
Qed.

Lemma matchChunk_plain f p s : str_forall plain_char p = true -> String.length p < f ->
  matchChunk_aux f p s false = if HasPrefix s p then Ok (str_drop (String.length p) s, true) else Ok ("", false).
Proof.
  assert (forall f p s, str_forall plain_char p = true -> String.length p < f ->
            matchChunk_aux f p s true = Ok ("", false)) as Hfail.
  { clear. induction f as [|f IH]; intros p s Hp Hf; [lia|]. destruct p as [|c p]; [done|]. simpl in Hp, Hf.
    apply andb_true_iff in Hp as [Hc Hp]. unfold plain_char in Hc. bool_to_prop. cbn [matchChunk_aux].
    repeat match goal with H : Ascii.eqb c _ = false |- _ => rewrite H; clear H end. simpl. apply IH; [done|lia]. }
  revert p s. induction f as [|f IH]; intros p s Hp Hf; [lia|]. destruct p as [|c p]; [by destruct s|].
  simpl in Hp, Hf. apply andb_true_iff in Hp as [Hc Hp]. unfold plain_char in Hc. bool_to_prop. cbn [matchChunk_aux].
  repeat match goal with H : Ascii.eqb c _ = false |- _ => rewrite H; clear H end.
  destruct s as [|d s]; simpl; [apply Hfail; [done|lia]|].
  unfold is_char, HasPrefix; simpl. destruct (ascii_dec c d) as [->|Hne]; simpl.
  - destruct s; apply IH; (done || lia).
  - apply Hfail; [done|lia].
Qed.

Lemma Match_plain p name : str_forall plain_char p = true -> Match p name = Ok (String.eqb name p).
Proof.
  intros Hp. unfold Match. cbn [Match_aux]. destruct (String.eqb_spec p "") as [->|Hne]; [done|].
  assert (scanChunk p = (false, p, "")) as ->.
  { unfold scanChunk. assert (skip_stars p = (false, p)) as ->; [|by rewrite scan_plain].
    destruct p as [|c p]; [done|]. simpl in Hp |- *. apply andb_true_iff in Hp as [Hc Hp].
    unfold plain_char in Hc. bool_to_prop. by destruct (Ascii.eqb c "*"). }
  cbn [andb]. unfold matchChunk. rewrite matchChunk_plain by (done || lia).
  destruct (HasPrefix name p) eqn:Hpre; simpl.
  - apply HasPrefix_spec in Hpre as (t & ->). rewrite str_drop_app.
    destruct (String.eqb_spec t "") as [->|Ht]; simpl.
    + rewrite str_app_nil_r, String.eqb_refl. destruct p; [done|]. reflexivity.
    + destruct (String.eqb_spec (p +:+ t) p) as [E|]; [|done]. exfalso. apply Ht.
      apply (f_equal String.length) in E. rewrite str_length_app in E. destruct t; [done|simpl in E; lia].
  - destruct (String.eqb_spec name p) as [->|]; [|done]. exfalso.
    assert (HasPrefix p p = true) as Hx; [|by rewrite Hpre in Hx].
    apply HasPrefix_spec. exists "". by rewrite str_app_nil_r.
Qed.
