(* ===== verification/Rules.v ===== *)
(** core/proxy/rules.go: the rules of the gateway, their priority order, the
    matching of requests and access control. *)

From Stdlib Require Import Ascii String.
From S2P Require Import Prelude GoStrings GoHttp GoPath Session RateLimit.

Local Open Scope string_scope.

Inductive access_error : Type :=
| ErrAccessDenied
| ErrAuthenticationRequired
| ErrInsufficientPrivileges.

Record RewriteConfig : Type := {
  StripPrefix : string;
  AddPrefix : string;
  Regex : string;
  Replacement : string;
}.

Record Rule : Type := {
  rule_ID : string;
  Path : string;
  Methods : list string;
  RequireAuth : bool;
  RequiredAAL : AAL;
  Capabilities : list string;
  rule_RateLimit : option RateLimitConfig;
  Target : string;
  Priority : Z;
  rule_Headers : gmap string string;
  Rewrite : option RewriteConfig;
  Enabled : bool;
  Description : string;
}.

(** ** The engine: the rules in evaluation order *)

Abbreviation RuleEngine := (list Rule) (only parsing).

(** One pass of the inner loop: [x] at the outer index against the rules after
    it, swapping it with each one of higher priority. *)
Fixpoint swap_pass (x : Rule) (l : list Rule) : Rule * list Rule :=
  match l with
  | [] => (x, [])
  | y :: l' =>
      if (Priority x <? Priority y)%Z
      then let '(m, l'') := swap_pass y l' in (m, x :: l'')
      else let '(m, l'') := swap_pass x l' in (m, y :: l'')
  end.
(** The outer loop, one pass per index. *)
Fixpoint exchange_sort (passes : nat) (l : list Rule) : list Rule :=
  match passes, l with
  | S n, x :: l' => let '(m, l'') := swap_pass x l' in m :: exchange_sort n l''
  | _, _ => l
  end.
Definition sortRules (e : RuleEngine) : RuleEngine := exchange_sort (length e) e.

Definition NewRuleEngine (rules : list Rule) : RuleEngine := sortRules rules.

(** [append], then the new rule moves up while its priority is higher. *)
Fixpoint bubble_up (x : Rule) (before : list Rule) : list Rule :=
  match before with
  | [] => [x]
  | y :: ys => if (Priority y <? Priority x)%Z then y :: bubble_up x ys else x :: y :: ys
  end.
Definition AddRule (e : RuleEngine) (rule : Rule) : RuleEngine := rev (bubble_up rule (rev e)).

Fixpoint RemoveRule (e : RuleEngine) (id : string) : bool * RuleEngine :=
  match e with
  | [] => (false, [])
  | r :: e' =>
      if String.eqb (rule_ID r) id then (true, e')
      else let '(b, e'') := RemoveRule e' id in (b, r :: e'')
  end.

Definition GetRules (e : RuleEngine) : list Rule := e.
Definition GetRule (e : RuleEngine) (id : string) : option Rule :=
  List.find (fun r => String.eqb (rule_ID r) id) e.

Fixpoint replace_rule (e : RuleEngine) (rule : Rule) : bool * RuleEngine :=
  match e with
  | [] => (false, [])
  | r :: e' =>
      if String.eqb (rule_ID r) (rule_ID rule) then (true, rule :: e')
      else let '(b, e'') := replace_rule e' rule in (b, r :: e'')
  end.
Definition UpdateRule (e : RuleEngine) (rule : Rule) : bool * RuleEngine :=
  let '(b, e') := replace_rule e rule in
  if b then (true, sortRules e') else (false, e').

(** ** Matching *)

Definition matchesMethod (r : Rule) (method : string) : bool :=
  match Methods r with
  | [] => true
  | ms => existsb (fun allowed => String.eqb (ToUpper allowed) (ToUpper method)) ms
  end.

Definition matchesPattern (urlPath pattern : string) : bool :=
  let subtree :=
    if HasSuffix pattern "/*" then
      let prefix := TrimSuffix pattern "*" in
      let p := Clean_rooted urlPath in
      let p := if HasSuffix p "/" then p else p +:+ "/" in
      HasPrefix p ("/" +:+ TrimPrefix prefix "/")
    else false in
  if subtree then true
  else
    let urlPath := Clean_rooted urlPath in
    let pattern := Clean_rooted pattern in
    match Match pattern urlPath with
    | Err _ => String.eqb urlPath pattern
    | Ok matched => matched
    end.

Definition rule_matches (r : Request) (rule : Rule) : bool :=
  Enabled rule && matchesPattern (URL_Path r) (Path rule) && matchesMethod rule (Method r).

Definition Match_rule (e : RuleEngine) (r : Request) : option Rule := List.find (rule_matches r) e.

(** ** Access control *)

Definition normalizeCapability (capability : string) : string := ToLower (TrimSpace capability).

Definition sessionCapabilities (sess : option Session) : gset string :=
  match sess with
  | None => {[ "authenticated" ]}
  | Some s =>
      let aal := normalizeCapability (SessionAAL s) in
      {[ "authenticated" ]} ∪
      (if Active s then {[ "session:active" ]} else ∅) ∪
      (if IsImpersonation s then {[ "session:impersonation" ]} else ∅) ∪
      (if String.eqb aal "" then ∅ else {[ aal; "session:" +:+ aal ]}) ∪
      list_to_set (map (fun n => "auth:" +:+ n)
        (List.filter (fun n => negb (String.eqb n ""))
           (map (fun m => normalizeCapability (am_Method m)) (AuthMethods s))))
  end.

Definition checkCapabilities (sess : option Session) (requiredCaps : list string) : result access_error unit :=
  match sess with
  | None => Err ErrAuthenticationRequired
  | Some s =>
      let available := sessionCapabilities (Some s) in
      if forallb (fun rawCap =>
           let capability := normalizeCapability rawCap in
           String.eqb capability "" || bool_decide (capability ∈ available)) requiredCaps
      then Ok tt else Err ErrInsufficientPrivileges
  end.

Definition CheckAccess (rule : Rule) (sess : option Session) : result access_error unit :=
  if negb (RequireAuth rule) then Ok tt
  else match sess with
       | None => Err ErrAuthenticationRequired
       | Some s =>
           if negb (String.eqb (RequiredAAL rule) "") && str_ltb (SessionAAL s) (RequiredAAL rule)
           then Err ErrInsufficientPrivileges
           else match Capabilities rule with
                | [] => Ok tt
                | caps => checkCapabilities sess caps
                end
       end.

(** ** Rewriting and validation *)

Definition ApplyRewrite (r : Rule) (path : string) : string :=
  match Rewrite r with
  | None => path
  | Some rw =>
      let path :=
        if negb (String.eqb (StripPrefix rw) "") && HasPrefix path (StripPrefix rw) then
          let path := TrimPrefix path (StripPrefix rw) in
          if HasPrefix path "/" then path else "/" +:+ path
        else path in
      if negb (String.eqb (AddPrefix rw) "") then
        let prefix := if HasPrefix (AddPrefix rw) "/" then AddPrefix rw else "/" +:+ AddPrefix rw in
        let prefix :=
          if HasSuffix prefix "/" && negb (String.eqb path "/") && negb (String.eqb path "")
          then TrimSuffix prefix "/" else prefix in
        prefix +:+ path
      else path
  end.

Inductive rule_error : Type :=
| EmptyID
| EmptyPath
| EmptyTarget
| InvalidGlob
| InvalidAAL.

Definition Validate (r : Rule) : result rule_error unit :=
  if String.eqb (rule_ID r) "" then Err EmptyID
  else if String.eqb (Path r) "" then Err EmptyPath
  else if String.eqb (Target r) "" then Err EmptyTarget
  else match Match (Path r) "test" with
       | Err _ => Err InvalidGlob
       | Ok _ =>
           if negb (String.eqb (RequiredAAL r) "") &&
              negb (existsb (String.eqb (RequiredAAL r)) [AAL0; AAL1; AAL2])
           then Err InvalidAAL else Ok tt
       end.
