(* ===== verification/RulesFacts.v ===== *)
(** Theorems about the rule engine: the priority order, which rule serves a
    request, which paths a subtree rule covers, and access control. *)

From Stdlib Require Import Ascii String.
From stdpp Require Import sorting.
From S2P Require Import Prelude GoStrings GoHttp GoPath Session RateLimit Rules.

Local Open Scope string_scope.

(** ** Priority order *)

Definition above (a b : Rule) : Prop := (Priority b <= Priority a)%Z.
Abbreviation ordered := (StronglySorted above).

#[global] Instance above_trans : Transitive above.
Proof. intros a b c. unfold above. lia. Qed.

Lemma swap_pass_spec x l m l' :
  swap_pass x l = (m, l') -> m :: l' ≡ₚ x :: l /\ Forall (above m) l' /\ length l' = length l.
Proof.
  revert x m l'. induction l as [|y l IH]; intros x m l'; simpl; [by intros [= <- <-]|].
  destruct (Z.ltb_spec (Priority x) (Priority y)).
  - destruct (swap_pass y l) as [m1 l1] eqn:E. intros [= <- <-].
    destruct (IH _ _ _ E) as (Hp & Hf & Hl). split_and!; [|constructor; [|done]|simpl; lia].
    + by rewrite Permutation_swap, Hp.
    + assert (above m1 y) as Hy.
      { assert (y ∈ m1 :: l1) as Hin by (rewrite Hp; left). apply elem_of_cons in Hin as [->|Hin]; [unfold above; lia|].
        by eapply Forall_forall in Hf. }
      unfold above in *. lia.
  - destruct (swap_pass x l) as [m1 l1] eqn:E. intros [= <- <-].
    destruct (IH _ _ _ E) as (Hp & Hf & Hl). split_and!; [|constructor; [|done]|simpl; lia].
    + rewrite Permutation_swap, Hp. apply Permutation_swap.
    + assert (above m1 x) as Hx.
      { assert (x ∈ m1 :: l1) as Hin by (rewrite Hp; left). apply elem_of_cons in Hin as [->|Hin]; [unfold above; lia|].
        by eapply Forall_forall in Hf. }
      unfold above in *. lia.
Qed.

Lemma exchange_sort_spec n l : length l <= n -> exchange_sort n l ≡ₚ l /\ ordered (exchange_sort n l).
Proof.
  revert l. induction n as [|n IH]; intros [|x l] Hn; simpl in *; [by split; [|apply SSorted_nil]|lia|by split; [|apply SSorted_nil]|].
  destruct (swap_pass x l) as [m l'] eqn:E. apply swap_pass_spec in E as (Hp & Hf & Hl).
  destruct (IH l') as [Hp' Ho]; [lia|]. split; [by rewrite Hp'|]. constructor; [done|]. by rewrite Hp'.
Qed.

Lemma sortRules_spec e : sortRules e ≡ₚ e /\ ordered (sortRules e).
Proof. by apply exchange_sort_spec. Qed.

Lemma ordered_snoc l x : ordered l -> Forall (fun y => above y x) l -> ordered (l ++ [x]).
Proof.
  intros Ho. induction Ho as [|y l Ho IH Hy]; intros HF; simpl; [by apply SSorted_cons; [apply SSorted_nil|]|].
  apply Forall_cons in HF as [? ?]. constructor; [by apply IH|]. apply Forall_app. auto.
Qed.

Lemma AddRule_snoc e y x :
  AddRule (e ++ [y]) x = if (Priority y <? Priority x)%Z then (AddRule e x ++ [y])%list else (e ++ [y; x])%list.
Proof.
  unfold AddRule. rewrite rev_app_distr. simpl. case_match; [done|].
  simpl. rewrite rev_involutive, <- app_assoc. done.
Qed.

Lemma AddRule_spec e x : ordered e -> AddRule e x ≡ₚ x :: e /\ ordered (AddRule e x).
Proof.
  induction e as [|y e IH] using rev_ind; intros Ho; [split; [done|by apply SSorted_cons; [apply SSorted_nil|]]|].
  pose proof (StronglySorted_app_1_l _ _ _ Ho) as Ho'.
  assert (Forall (fun z => above z y) e) as Hy.
  { apply Forall_forall. intros z Hz. eapply StronglySorted_app_1_elem_of; [done|done|set_solver]. }
  destruct (IH Ho') as [Hp Hs]. rewrite AddRule_snoc.
  destruct (Z.ltb_spec (Priority y) (Priority x)).
  - split; [by rewrite Hp|]. apply ordered_snoc; [done|]. rewrite Hp. constructor; [unfold above; lia|done].
  - assert (e ++ [y; x] = (e ++ [y]) ++ [x])%list as -> by by rewrite <- app_assoc.
    split; [by rewrite Permutation_app_comm|]. apply ordered_snoc; [done|]. apply Forall_app. split.
    + eapply Forall_impl; [done|]. unfold above. intros; lia.
    + repeat constructor. unfold above. lia.
Qed.

Lemma RemoveRule_ordered e id : ordered e -> ordered (RemoveRule e id).2 /\ forall r, r ∈ (RemoveRule e id).2 -> r ∈ e.
Proof.
  intros Ho. induction Ho as [|y e Ho [IH IHin] Hy]; simpl; [split; [apply SSorted_nil|done]|].
  case_match; [set_solver|]. destruct (RemoveRule e id) as [b e']; simpl in *. split; [|set_solver].
  constructor; [done|]. apply Forall_forall. intros z Hz. eapply Forall_forall; [done|]. by apply IHin.
Qed.

(** The engines the code can build. *)
Inductive built : RuleEngine -> Prop :=
| BNew rules : built (NewRuleEngine rules)
| BAdd e rule : built e -> built (AddRule e rule)
| BRemove e id : built e -> built (RemoveRule e id).2
| BUpdate e rule : built e -> built (UpdateRule e rule).2.

Lemma UpdateRule_ordered e rule : ordered e -> ordered (UpdateRule e rule).2.
Proof.
  intros Ho. unfold UpdateRule. destruct (replace_rule e rule) as [b e'] eqn:E.
  destruct b; simpl; [apply sortRules_spec|].
  assert (e' = e) as ->; [|done]. clear Ho. revert e' E. induction e as [|y e IH]; simpl; intros e' E; [congruence|].
  case_match; [done|]. destruct (replace_rule e rule) as [b e1]. injection E as -> <-. f_equal. by apply IH.
Qed.

Lemma built_ordered e : built e -> ordered e.
Proof.
  induction 1; [apply sortRules_spec|by apply AddRule_spec|by apply RemoveRule_ordered|by apply UpdateRule_ordered].
Qed.

Lemma Match_rule_some e r rule :
  ordered e -> Match_rule e r = Some rule ->
  rule ∈ e /\ rule_matches r rule = true /\
  forall rule', rule' ∈ e -> rule_matches r rule' = true -> (Priority rule' <= Priority rule)%Z.
Proof.
  intros Ho. induction Ho as [|y e Ho IH Hy]; simpl; [done|]. unfold Match_rule in *; simpl.
  destruct (rule_matches r y) eqn:E.
  - intros [= <-]. split_and!; [set_solver|done|]. intros rule' [->|Hin]%elem_of_cons _; [lia|].
    by eapply Forall_forall in Hy.
  - intros Hf. destruct (IH Hf) as (Hin & Hm & Hmax). split_and!; [set_solver|done|].
    intros rule' [->|Hin']%elem_of_cons Hm'; [congruence|by apply Hmax].
Qed.

Lemma Match_rule_none e r : Match_rule e r = None <-> forall rule, rule ∈ e -> rule_matches r rule = false.
Proof.
  unfold Match_rule. induction e as [|y e IH]; simpl; [set_solver|].
  destruct (rule_matches r y) eqn:E.
  - split; [done|]. intros Hx. rewrite (Hx y) in E by left. done.
  - rewrite IH. split; [|by intros Hx rule Hin; apply Hx; right].
    intros Hx rule [->|Hin]%elem_of_cons; [done|by apply Hx].
Qed.

(** However the engine was built, from an initial list of rules by adding,
    removing and updating rules, a request is served by an enabled rule that
    matches its path and method and whose priority no other such rule exceeds,
    and by none only if there is no such rule. *)
Theorem engine_serves_highest_priority e r :
  built e ->
  match Match_rule e r with
  | Some rule => rule ∈ e /\ rule_matches r rule = true /\
      forall rule', rule' ∈ e -> rule_matches r rule' = true -> (Priority rule' <= Priority rule)%Z
  | None => forall rule, rule ∈ e -> rule_matches r rule = false
  end.
Proof.
  intros Hb%built_ordered. destruct (Match_rule e r) as [rule|] eqn:E; [by apply Match_rule_some|by apply Match_rule_none].
Qed.

(** ** Which paths a subtree rule covers *)

(** The segments of a path once "." and ".." and repeated slashes are resolved. *)
Definition segments (p : string) : list string := rev (clean_parts (Split p "/") []).

Definition no_slash (c : string) : bool := str_forall (not_char "/") c.
Definition segment (c : string) : Prop := c <> "" /\ c <> "." /\ c <> ".." /\ no_slash c = true.

Lemma clean_parts_segments ps st :
  Forall (fun p => no_slash p = true) ps -> Forall segment st -> Forall segment (clean_parts ps st).
Proof.
  revert st. induction ps as [|p ps IH]; intros st Hps Hst; [done|]. apply Forall_cons in Hps as [Hp Hps]. simpl.
  destruct (String.eqb_spec p ""); [by apply IH|]. destruct (String.eqb_spec p "."); [by apply IH|]. simpl.
  destruct (String.eqb_spec p ".."); [|apply IH; [done|by constructor]].
  apply IH; [done|]. destruct Hst; [constructor|done].
Qed.

Lemma segments_ok p : Forall segment (segments p).
Proof. apply Forall_rev, clean_parts_segments; [apply Split_forall|constructor]. Qed.

(** Every segment followed by a slash. *)
Definition slashed (l : list string) : string := foldr (fun c acc => c +:+ "/" +:+ acc) "" l.

Lemma Join_slashed l : l <> [] -> Join l "/" +:+ "/" = slashed l.
Proof.
  induction l as [|c [|d l] IH]; intros Hne; [done|simpl; done|].
  change (Join (c :: d :: l) "/") with (c +:+ "/" +:+ Join (d :: l) "/").
  rewrite !str_app_assoc. rewrite IH by done. done.
Qed.

Lemma Join_no_slash_suffix l : l <> [] -> Forall segment l -> HasSuffix ("/" +:+ Join l "/") "/" = false.
Proof.
  intros Hne HF. destruct (HasSuffix _ "/") eqn:E; [|done]. exfalso.
  apply HasSuffix_spec in E as (t & E). 
  assert (Split ("/" +:+ Join l "/") "/" = "" :: l) as H1.
  { change ("/" +:+ Join l "/") with ("" +:+ String "/" (Join l "/")). rewrite Split_app_sep by done.
    f_equal. apply Split_Join; [done|]. eapply Forall_impl; [done|]. intros c (_ & _ & _ & Hc). exact Hc. }
  assert (forall t, List.last (Split (t +:+ "/") "/") "x" = "") as H2.
  { clear. induction t as [|c t IH]; [done|]. simpl. pose proof (Split_nonempty (t +:+ "/") "/").
    destruct (Ascii.eqb c "/"); [|destruct (Split (t +:+ "/") "/") as [|h [|h' r]] eqn:Es; [done| |done]].
    - destruct (Split (t +:+ "/") "/"); [done|]. exact IH.
    - exfalso. assert (length (Split (t +:+ "/") "/") >= 2); [|rewrite Es in *; simpl in *; lia].
      clear. induction t as [|c t IH]; simpl; [lia|]. destruct (Ascii.eqb c "/"); simpl; [lia|].
      destruct (Split (t +:+ "/") "/"); simpl in *; lia. }
  specialize (H2 t). rewrite <- E, H1 in H2. destruct l as [|c l]; [done|].
  assert (List.last (c :: l) "x" ∈ c :: l) as Hin.
  { rewrite list_elem_of_In. clear. revert c. induction l as [|d l IH]; intros c; [by left|]. right. apply IH. }
  assert (List.last ("" :: c :: l) "x" = List.last (c :: l) "x") as Hl by done.
  rewrite Hl in H2. rewrite H2 in Hin. eapply Forall_forall in Hin; [|done]. by destruct Hin.
Qed.

(** The subtree test of the code looks at the cleaned path with a final slash. *)
Lemma cleaned_with_slash q :
  (if HasSuffix (Clean_rooted q) "/" then Clean_rooted q else Clean_rooted q +:+ "/") = "/" +:+ slashed (segments q).
Proof.
  unfold Clean_rooted. fold (segments q). destruct (segments q) as [|c l] eqn:E; [done|].
  pose proof (segments_ok q) as Hok. rewrite E in Hok.
  rewrite Join_no_slash_suffix by done. by rewrite str_app_assoc, Join_slashed.
Qed.

Lemma slashed_prefix ps l :
  Forall segment ps -> Forall segment l ->
  HasPrefix (slashed l) (slashed ps) = true <-> ps `prefix_of` l.
Proof.
  intros Hps. revert l. induction Hps as [|p ps (_ & _ & _ & Hp) Hps IH]; intros l Hl.
  - split; intros _; [apply prefix_nil|]. by destruct (slashed l).
  - rewrite HasPrefix_spec. destruct Hl as [|c l (_ & _ & _ & Hc) Hl].
    + split; [|by intros []%prefix_nil_not]. intros (t & Ht). simpl in Ht. by destruct p.
    + simpl. split.
      * intros (t & Ht). rewrite !str_app_assoc in Ht. apply str_app_sep_inj in Ht as [-> Ht]; [|done..].
        apply prefix_cons, IH; [done|]. apply HasPrefix_spec. by exists t.
      * intros Hx. pose proof (prefix_cons_inv_1 _ _ _ _ Hx) as ->. apply prefix_cons_inv_2 in Hx.
        apply IH in Hx; [|done]. apply HasPrefix_spec in Hx as (t & ->). exists t. by rewrite !str_app_assoc.
Qed.

(** [path.Match] on a literal prefix followed by a star. *)
Lemma scan_plain_star p : str_forall plain_char p = true -> scan (p +:+ "*") false false = (p, "*").
Proof.
  intros Hp. induction p as [|c p IH]; simpl in *; [done|].
  apply andb_true_iff in Hp as [Hc Hp]. unfold plain_char in Hc. bool_to_prop.
  repeat match goal with H : Ascii.eqb c _ = false |- _ => rewrite H; clear H end. simpl.
  rewrite IH by done. by destruct (Ascii.eqb c "]").
Qed.

Lemma Match_star_suffix p name : p <> "" -> str_forall plain_char p = true ->
  Match (p +:+ "*") name = Ok (HasPrefix name p && no_slash (str_drop (String.length p) name)).
Proof.
  intros Hne Hp. unfold Match. cbn [Match_aux].
  destruct (String.eqb_spec (p +:+ "*") "") as [E|_]; [by destruct p|].
  assert (scanChunk (p +:+ "*") = (false, p, "*")) as ->.
  { unfold scanChunk. assert (skip_stars (p +:+ "*") = (false, p +:+ "*")) as ->; [|by rewrite scan_plain_star].
    destruct p as [|c p]; [done|]. simpl in Hp |- *. apply andb_true_iff in Hp as [Hc Hp].
    unfold plain_char in Hc. bool_to_prop. by destruct (Ascii.eqb c "*"). }
  cbn [andb]. unfold matchChunk. rewrite matchChunk_plain by (done || lia).
  destruct (HasPrefix name p); [|done]. simpl. rewrite orb_true_r.
  rewrite str_length_app. simpl. by rewrite Nat.add_comm.
Qed.

Definition subtree_pattern (ps : list string) : string := "/" +:+ slashed ps +:+ "*".

Lemma slashed_suffix ps : exists t, "/" +:+ slashed ps = t +:+ "/".
Proof.
  destruct ps as [|p ps]; [by exists ""|]. exists ("/" +:+ Join (p :: ps) "/"). by rewrite str_app_assoc, Join_slashed.
Qed.

Lemma clean_subtree_pattern ps : Forall segment ps -> Clean_rooted (subtree_pattern ps) = subtree_pattern ps.
Proof.
  intros HF. unfold Clean_rooted, subtree_pattern. f_equal.
  assert (Split ("/" +:+ slashed ps +:+ "*") "/" = "" :: ps ++ ["*"])%list as ->.
  { change ("/" +:+ slashed ps +:+ "*") with ("" +:+ String "/" (slashed ps +:+ "*")). rewrite Split_app_sep by done.
    f_equal. induction HF as [|p ps (_ & _ & _ & Hp) HF IH]; [done|]. simpl.
    rewrite !str_app_assoc. simpl. rewrite Split_app_sep by done. f_equal. exact IH. }
  assert (forall st, clean_parts (ps ++ ["*"]) st = "*" :: rev ps ++ st)%list as Hc.
  { induction HF as [|p ps (H1 & H2 & H3 & _) HF IH]; intros st; [done|]. simpl.
    apply String.eqb_neq in H1, H2, H3. rewrite H1, H2, H3. simpl. by rewrite IH, <- app_assoc. }
  simpl. rewrite Hc, app_nil_r. simpl. rewrite rev_involutive.
  clear. induction ps as [|p ps IH]; [done|]. simpl.
  destruct (ps ++ ["*"])%list as [|d l] eqn:E; [by destruct ps|]. rewrite IH. by rewrite !str_app_assoc.
Qed.

Lemma slashed_plain ps : Forall (fun p => str_forall plain_char p = true) ps -> str_forall plain_char (slashed ps) = true.
Proof. induction 1 as [|p ps Hp _ IH]; [done|]. cbn [slashed foldr].
  change (foldr _ _ ps) with (slashed ps). by rewrite !str_forall_app, Hp, IH. Qed.

Lemma subtree_matches ps q :
  Forall segment ps -> Forall (fun p => str_forall plain_char p = true) ps ->
  matchesPattern q (subtree_pattern ps) = true <-> ps `prefix_of` segments q.
Proof.
  intros Hps Hplain. unfold matchesPattern. rewrite cleaned_with_slash, clean_subtree_pattern by done.
  assert (HasSuffix (subtree_pattern ps) "/*" = true) as ->.
  { apply HasSuffix_spec. destruct (slashed_suffix ps) as (t & Ht). exists t.
    unfold subtree_pattern. by rewrite <- str_app_assoc, Ht, str_app_assoc. }
  assert (TrimSuffix (subtree_pattern ps) "*" = "/" +:+ slashed ps) as ->.
  { unfold subtree_pattern. rewrite <- str_app_assoc. apply TrimSuffix_app. }
  rewrite TrimPrefix_app.
  assert (HasPrefix ("/" +:+ slashed (segments q)) ("/" +:+ slashed ps) = HasPrefix (slashed (segments q)) (slashed ps)) as -> by done.
  destruct (HasPrefix (slashed (segments q)) (slashed ps)) eqn:E.
  { rewrite slashed_prefix in E by (done || apply segments_ok). done. }
  assert (~ ps `prefix_of` segments q) as Hn.
  { intros Hx. rewrite <- slashed_prefix in Hx by (done || apply segments_ok). congruence. }
  split; [|done]. unfold subtree_pattern. rewrite <- str_app_assoc, Match_star_suffix; [|done|by rewrite str_forall_app, slashed_plain].
  intros [Hp _]%andb_true_iff. exfalso. apply Hn. unfold Clean_rooted in Hp. fold (segments q) in Hp.
  apply HasPrefix_spec in Hp as (t & Ht). rewrite str_app_assoc in Ht. simpl in Ht. injection Ht as Ht.
  apply slashed_prefix; [done|apply segments_ok|]. apply HasPrefix_spec.
  destruct (segments q) as [|c l] eqn:Eq; [|exists (t +:+ "/"); by rewrite <- Join_slashed, Ht, str_app_assoc].
  destruct ps as [|p ps]; [by exists ""|]. exfalso. simpl in Ht. by destruct p.
Qed.

(** A rule with the pattern "/a/b/*" covers exactly the subtree "/a/b":
    it matches a request path if and only if the path, with its "." and ".."
    segments, repeated and trailing slashes resolved, is "/a/b" or lies below
    it.  No spelling of a path in the subtree escapes the rule, and none
    outside enters it. *)
Theorem subtree_rule_covers_exactly ps q :
  Forall segment ps -> Forall (fun p => str_forall plain_char p = true) ps ->
  matchesPattern q (subtree_pattern ps) = true <-> ps `prefix_of` segments q.
Proof. apply subtree_matches. Qed.

Lemma subtree_rule_covers_exactly_witness :
  matchesPattern "/public/..//admin/./users" "/admin/*" = true /\
  matchesPattern "/admin/../public/x" "/admin/*" = false.
Proof.
  split.
  - apply (proj2 (subtree_rule_covers_exactly ["admin"] "/public/..//admin/./users"
      ltac:(repeat constructor; discriminate) ltac:(repeat constructor))). exists ["users"]. reflexivity.
  - apply not_true_is_false. intros Hm.
    apply (proj1 (subtree_rule_covers_exactly ["admin"] "/admin/../public/x"
      ltac:(repeat constructor; discriminate) ltac:(repeat constructor))) in Hm.
    destruct Hm as [l Hl]. vm_compute in Hl. discriminate Hl.
Defined.

(** ** Access control *)

Lemma CheckAccess_ok rule sess :
  CheckAccess rule sess = Ok tt -> RequireAuth rule = true ->
  exists s, sess = Some s /\
    (RequiredAAL rule <> "" -> str_ltb (SessionAAL s) (RequiredAAL rule) = false) /\
    (forall c, c ∈ Capabilities rule -> normalizeCapability c <> "" ->
       normalizeCapability c ∈ sessionCapabilities (Some s)).
Proof.
  unfold CheckAccess. intros Ha Hr. rewrite Hr in Ha. simpl in Ha. destruct sess as [s|]; [|done].
  exists s. split; [done|].
  destruct (negb (String.eqb (RequiredAAL rule) "") && str_ltb (SessionAAL s) (RequiredAAL rule)) eqn:E; [done|].
  split.
  - intros Hne. apply String.eqb_neq in Hne. by rewrite Hne in E.
  - destruct (Capabilities rule) as [|c0 cs]; [set_solver|]. unfold checkCapabilities in Ha.
    destruct (forallb _ _) eqn:Hf in Ha; [|done]. intros c Hc Hn. rewrite forallb_forall in Hf.
    rewrite list_elem_of_In in Hc. apply Hf in Hc. apply String.eqb_neq in Hn. rewrite Hn in Hc. simpl in Hc.
    by bool_to_prop.
Qed.

(** The converse: what [CheckAccess] asks for is enough. *)
Lemma CheckAccess_complete rule s :
  (RequiredAAL rule <> "" -> str_ltb (SessionAAL s) (RequiredAAL rule) = false) ->
  (forall c, c ∈ Capabilities rule -> normalizeCapability c <> "" ->
     normalizeCapability c ∈ sessionCapabilities (Some s)) ->
  CheckAccess rule (Some s) = Ok tt.
Proof.
  intros Ha Hc. unfold CheckAccess. destruct (RequireAuth rule); [|done]. cbn [negb].
  replace (negb (String.eqb (RequiredAAL rule) "") && str_ltb (SessionAAL s) (RequiredAAL rule)) with false.
  2:{ destruct (String.eqb_spec (RequiredAAL rule) "") as [_|Hne]; [done|]. by rewrite (Ha Hne). }
  assert (checkCapabilities (Some s) (Capabilities rule) = Ok tt) as Hok; [|by destruct (Capabilities rule)].
  unfold checkCapabilities. replace (forallb _ _) with true; [done|]. symmetry. apply forallb_forall.
  intros c Hin. rewrite <- list_elem_of_In in Hin. destruct (String.eqb_spec (normalizeCapability c) ""); [done|]. simpl.
  apply bool_decide_eq_true. by apply Hc.
Qed.

(** A protected subtree stays protected: when an enabled rule for all
    methods guards "/a/b/*" with authentication at level [L], and every rule
    of at least its priority asks for authentication at level [L] too, then
    any request for a path of the subtree, however it is spelled and whatever
    its method, is served by a rule that admits it only with a session of at
    least that level. *)
Theorem protected_subtree_needs_session e guard ps L r sess :
  built e -> guard ∈ e -> Enabled guard = true -> Methods guard = [] ->
  Path guard = subtree_pattern ps -> Forall segment ps -> Forall (fun p => str_forall plain_char p = true) ps ->
  L <> "" ->
  (forall rule, rule ∈ e -> (Priority guard <= Priority rule)%Z -> RequireAuth rule = true /\ RequiredAAL rule = L) ->
  ps `prefix_of` segments (URL_Path r) ->
  exists rule, Match_rule e r = Some rule /\
    (CheckAccess rule sess = Ok tt -> exists s, sess = Some s /\ str_ltb (SessionAAL s) L = false).
Proof.
  intros Hb Hin He Hm Hpath Hseg Hplain HL Hhigh Hpre.
  assert (rule_matches r guard = true) as Hg.
  { unfold rule_matches, matchesMethod. rewrite He, Hm, Hpath, andb_true_r. simpl.
    apply (subtree_matches ps (URL_Path r) Hseg Hplain). done. }
  destruct (Match_rule e r) as [rule|] eqn:E.
  - apply Match_rule_some in E as (Hre & _ & Hmax); [|by apply built_ordered].
    destruct (Hhigh rule Hre (Hmax guard Hin Hg)) as [Ha Hl]. exists rule. split; [done|].
    intros Hc. destruct (CheckAccess_ok rule sess Hc Ha) as (s & -> & Haal & _). exists s. split; [done|].
    rewrite Hl in Haal. by apply Haal.
  - rewrite Match_rule_none in E. rewrite (E guard Hin) in Hg. done.
Qed.

Definition rule0 : Rule :=
  {| rule_ID := "admin"; Path := "/admin/*"; Methods := []; RequireAuth := true; RequiredAAL := AAL2;
     Capabilities := []; rule_RateLimit := None; Target := "admin"; Priority := 10; rule_Headers := ∅;
     Rewrite := None; Enabled := true; Description := "" |}.
Definition open_rule : Rule :=
  {| rule_ID := "all"; Path := "/*"; Methods := []; RequireAuth := false; RequiredAAL := "";
     Capabilities := []; rule_RateLimit := None; Target := "web"; Priority := 1; rule_Headers := ∅;
     Rewrite := None; Enabled := true; Description := "" |}.
Definition traversal : Request :=
  {| Method := "GET"; URL_Path := "/static/..//admin/keys"; URL_RawQuery := ""; Host := "h"; RemoteAddr := "";
     TLS := true; Cookies := []; Header := ∅ |}.

Lemma protected_subtree_needs_session_witness :
  exists rule, Match_rule (NewRuleEngine [open_rule; rule0]) traversal = Some rule /\
    (CheckAccess rule None = Ok tt -> exists s, @None Session = Some s /\ str_ltb (SessionAAL s) AAL2 = false).
Proof.
  apply (protected_subtree_needs_session (NewRuleEngine [open_rule; rule0]) rule0 ["admin"] AAL2 traversal None).
  - apply BNew.
  - change (rule0 ∈ [rule0; open_rule]). left.
  - reflexivity.
  - reflexivity.
  - reflexivity.
  - repeat constructor; discriminate.
  - repeat constructor.
  - discriminate.
  - intros rule Hin Hp. change (rule ∈ [rule0; open_rule]) in Hin. apply elem_of_cons in Hin as [->|Hin]; [split; reflexivity|].
    apply list_elem_of_singleton in Hin as ->. exfalso. vm_compute in Hp. by apply Hp.
  - exists ["keys"]. reflexivity.
Defined.

Lemma engine_serves_highest_priority_witness :
  Match_rule (NewRuleEngine [open_rule; rule0]) traversal = Some rule0 /\
  forall rule', rule' ∈ NewRuleEngine [open_rule; rule0] -> rule_matches traversal rule' = true ->
    (Priority rule' <= Priority rule0)%Z.
Proof.
  split; [reflexivity|].
  exact (proj2 (proj2 (engine_serves_highest_priority (NewRuleEngine [open_rule; rule0]) traversal (BNew _)))).
Defined.
