(* ===== verification/Proxy.v ===== *)
(** core/proxy/proxy.go, auth.go and config.go: the gateway.

    A request goes through the authentication middleware, the rules, the rate
    limiter, access control, the circuit breaker of its target and then to the
    upstream through [httputil.ReverseProxy].  The state is what the proxy
    keeps between requests: limiter buckets and circuit breakers.  What the
    network does (the upstream's answer, deadlines), the clock readings and
    the entropy drawn are the [exchange] of a request.  [net/url] and the
    RFC 3339 formatting of times are parameters. *)

From Stdlib Require Import Ascii String.
From S2P Require Import Prelude GoStrings GoEncoding GoSha256 PlatformCrypto GoHttp TrustedProxy.
From S2P Require Import CircuitBreaker SignedHeaders Session SessionContext RateLimit Rules.

Local Open Scope string_scope.

(** ** Configuration *)

Record TransportConfig : Type := {
  MaxIdleConns : Z;
  MaxIdleConnsPerHost : Z;
  IdleConnTimeout : duration;
  TLSHandshakeTimeout : duration;
  ExpectContinueTimeout : duration;
  DialTimeout : duration;
  KeepAlive : duration;
}.

Record Upstream : Type := {
  URL : string;
  HealthCheck : string;
  HealthCheckExpectedBody : string;
  Weight : Z;
  up_CircuitBreaker : option CircuitBreakerConfig;
  up_Timeout : duration;
  MaxConnections : Z;
  up_Headers : gmap string string;
}.

Record Config : Type := {
  Upstreams : gmap string Upstream;
  DefaultTarget : string;
  px_Timeout : duration;
  MaxRetries : Z;
  RetryBackoff : duration;
  EnableHealthChecks : bool;
  HealthCheckInterval : duration;
  Transport : TransportConfig;
  StripInboundIdentityHeaders : bool;
  IdentitySigningSecret : string;
  IdentitySignatureHeader : string;
  SignedIdentityHeaders : list string;
  TrustForwardedHeaders : bool;
}.

Definition trustedIdentityHeaders : list string := [
  "X-Aegion-Session-ID"; "X-Aegion-Identity-ID"; "X-Aegion-AAL"; "X-Aegion-Authenticated-At";
  "X-Aegion-Impersonation"; "X-Aegion-Impersonator-ID" ].

Definition DefaultConfig : Config :=
  {| Upstreams := ∅; DefaultTarget := ""; px_Timeout := 30 * second; MaxRetries := 3; RetryBackoff := second;
     EnableHealthChecks := true; HealthCheckInterval := 30 * second;
     StripInboundIdentityHeaders := true; IdentitySigningSecret := "";
     IdentitySignatureHeader := "X-Aegion-Signature"; TrustForwardedHeaders := false;
     SignedIdentityHeaders := [
       "X-Aegion-Session-ID"; "X-Aegion-Identity-ID"; "X-Aegion-AAL"; "X-Aegion-Authenticated-At";
       "X-Aegion-Impersonation"; "X-Aegion-Impersonator-ID" ];
     Transport := {| MaxIdleConns := 100; MaxIdleConnsPerHost := 10; IdleConnTimeout := 90 * second;
                     TLSHandshakeTimeout := 10 * second; ExpectContinueTimeout := second;
                     DialTimeout := 5 * second; KeepAlive := 30 * second |} |}.

(** ** State *)

Record Proxy : Type := {
  config : Config;
  rules : RuleEngine;
  limiter : RateLimitConfig * buckets;
  ruleLimiters : gmap string (RateLimitConfig * buckets);
  breakers : gmap string CircuitBreaker;
}.

Definition set_limiter (p : Proxy) (l : RateLimitConfig * buckets) : Proxy :=
  {| config := config p; rules := rules p; limiter := l; ruleLimiters := ruleLimiters p; breakers := breakers p |}.
Definition set_ruleLimiter (p : Proxy) (k : string) (l : RateLimitConfig * buckets) : Proxy :=
  {| config := config p; rules := rules p; limiter := limiter p;
     ruleLimiters := <[k := l]> (ruleLimiters p); breakers := breakers p |}.
Definition set_breaker (p : Proxy) (k : string) (b : CircuitBreaker) : Proxy :=
  {| config := config p; rules := rules p; limiter := limiter p; ruleLimiters := ruleLimiters p;
     breakers := <[k := b]> (breakers p) |}.

Definition breaker_config (c : Config) (name : string) : CircuitBreakerConfig :=
  match Upstreams c !! name with
  | Some u => default DefaultCircuitBreakerConfig (up_CircuitBreaker u)
  | None => DefaultCircuitBreakerConfig
  end.

(** [rules] is nil-able; the health checkers run on their own. *)
Definition NewProxy (c : Config) (rs : option RuleEngine) (now : time) : Proxy :=
  {| config := c;
     rules := default (NewRuleEngine []) rs;
     limiter := ({| RequestsPerSecond := RequestsPerSecond DefaultRateLimitConfig;
                    BurstSize := BurstSize DefaultRateLimitConfig; ByIP := ByIP DefaultRateLimitConfig;
                    ByUser := ByUser DefaultRateLimitConfig; ByPath := ByPath DefaultRateLimitConfig;
                    rl_TrustForwardedHeaders := TrustForwardedHeaders c |}, ∅);
     ruleLimiters := ∅;
     breakers := map_imap (fun name _ => Some (NewCircuitBreaker (breaker_config c name) now)) (Upstreams c) |}.

(** The breaker of an upstream, created on first use. *)
Definition getCircuitBreaker (p : Proxy) (name : string) (now : time) : CircuitBreaker :=
  match breakers p !! name with
  | Some b => b
  | None => NewCircuitBreaker (breaker_config (config p) name) now
  end.

Definition rule_limiter_key (rule : Rule) : string :=
  if String.eqb (rule_ID rule) "" then Path rule +:+ "|" +:+ Target rule +:+ "|" +:+ FormatInt (Priority rule)
  else rule_ID rule.

(** The limiter of a rule with the limit [rl], created on first use and kept. *)
Definition getRuleLimiter (p : Proxy) (rule : Rule) (rl : RateLimitConfig) : RateLimitConfig * buckets :=
  match ruleLimiters p !! rule_limiter_key rule with
  | Some l => l
  | None =>
      ({| RequestsPerSecond := RequestsPerSecond rl; BurstSize := BurstSize rl; ByIP := ByIP rl;
          ByUser := ByUser rl; ByPath := ByPath rl;
          rl_TrustForwardedHeaders := if TrustForwardedHeaders (config p) then true else rl_TrustForwardedHeaders rl |}, ∅)
  end.

(** [Close] drops the rule limiters; health checkers and idle connections are
    outside the state. *)
Definition Close (p : Proxy) : Proxy :=
  {| config := config p; rules := rules p; limiter := limiter p; ruleLimiters := ∅; breakers := breakers p |}.

(** ** Responses *)

(** What is written to the client: headers until the status is sent, the first
    status only, and body parts in order. *)
Inductive body_part : Type :=
| Upstream_body (b : string)
| Error_json (code : Z) (message request_id : string).

Record writer : Type := {
  rw_header : header;
  rw_status : option Z;
  rw_body : list body_part;
}.
Definition new_writer : writer := {| rw_header := ∅; rw_status := None; rw_body := [] |}.

Definition w_set (w : writer) (k v : string) : writer :=
  match rw_status w with
  | None => {| rw_header := Header_Set (rw_header w) k v; rw_status := None; rw_body := rw_body w |}
  | Some _ => w
  end.
Definition WriteHeader (w : writer) (code : Z) : writer :=
  match rw_status w with
  | None => {| rw_header := rw_header w; rw_status := Some code; rw_body := rw_body w |}
  | Some _ => w
  end.
Definition w_write (w : writer) (b : body_part) : writer :=
  {| rw_header := rw_header w; rw_status := rw_status w; rw_body := (rw_body w ++ [b])%list |}.

Definition writeErrorResponse (w : writer) (statusCode : Z) (message requestID : string) : writer :=
  let w := w_set w "Content-Type" "application/json" in
  let w := WriteHeader w statusCode in
  w_write w (Error_json statusCode message requestID).

Inductive proxy_error : Type :=
| ErrNoRuleMatched
| ErrUpstreamNotFound
| ErrUpstreamUnhealthy
| ErrInvalidUpstreamURL (e : string)
| ErrRequestTimeoutForward
| ErrUpstreamStatus (status : Z).

Definition proxy_error_string (e : proxy_error) : string :=
  match e with
  | ErrNoRuleMatched => "no rule matched"
  | ErrUpstreamNotFound => "upstream not found"
  | ErrUpstreamUnhealthy => "upstream is unhealthy"
  | ErrInvalidUpstreamURL e => "invalid upstream URL: " +:+ e
  | ErrRequestTimeoutForward => "request timeout"
  | ErrUpstreamStatus n => "upstream error: status " +:+ FormatInt n
  end.

Definition handleError (w : writer) (e : proxy_error) (statusCode : Z) (requestID : string) : writer :=
  writeErrorResponse w statusCode (proxy_error_string e) requestID.

Definition handleRateLimitExceeded (p : Proxy) (w : writer) (waitTime : duration) (requestID : string) : writer :=
  let w := w_set w "X-RateLimit-Limit" (FormatInt (Limit (limiter p).1)) in
  let w := w_set w "X-RateLimit-Remaining" (FormatInt 0) in
  let w := w_set w "Retry-After" (FormatInt (duration_secs waitTime)) in
  writeErrorResponse w 429 "Rate limit exceeded" requestID.

Definition handleAccessError (w : writer) (e : access_error) (requestID : string) : writer :=
  match e with
  | ErrAuthenticationRequired => writeErrorResponse w 401 "Authentication required" requestID
  | ErrInsufficientPrivileges => writeErrorResponse w 403 "Insufficient privileges" requestID
  | ErrAccessDenied => writeErrorResponse w 403 "Access denied" requestID
  end.

Definition handleProxyError (w : writer) (deadline : bool) (requestID : string) : writer :=
  if deadline then writeErrorResponse w 504 "Request timeout" requestID
  else writeErrorResponse w 502 "Upstream error" requestID.

(** ** Forwarding *)

Class Urls := { url_Parse : string -> result string (string * string); rfc3339 : time -> string }.

(** The upstream's side of a round trip. *)
Inductive reply : Type :=
| Reply (status : Z) (body : string)
| TransportError.

(** What one request meets: clock readings (for limiter keys, the breaker and
    signatures), entropy, deadlines and the upstream. *)
Record exchange : Type := {
  ex_limit_clock : nat -> time * time;
  ex_new_breaker : time;
  ex_allow : time;
  ex_sign : time;
  ex_record : time;
  ex_rand : option string;
  ex_unix_nano_hex : string;
  ex_deadline_forward : bool;
  ex_deadline_error : bool;
}.

Section proxy.
Context `{Net} `{UuidText} `{Urls}.
Abbreviation cidr_cache := (gmap string (list ipnet)).
(** AEGION_TRUSTED_PROXY_CIDRS and the networks parsed for it. *)
Context (cidrs : string) (cache : cidr_cache).

Definition injectSessionHeaders (h : header) (sess : Session) : header :=
  let h := Header_Set h "X-Aegion-Session-ID" (uuid_string (ID sess)) in
  let h := Header_Set h "X-Aegion-Identity-ID" (uuid_string (IdentityID sess)) in
  let h := Header_Set h "X-Aegion-AAL" (SessionAAL sess) in
  let h := Header_Set h "X-Aegion-Authenticated-At" (rfc3339 (AuthenticatedAt sess)) in
  match IsImpersonation sess, ImpersonatorID sess with
  | true, Some i =>
      let h := Header_Set h "X-Aegion-Impersonation" "true" in
      Header_Set h "X-Aegion-Impersonator-ID" (uuid_string i)
  | _, _ => h
  end.

Definition stripInboundIdentityHeaders (c : Config) (h : header) : header :=
  let h := fold_left Header_Del trustedIdentityHeaders h in
  if negb (String.eqb (IdentitySignatureHeader c) "") then Header_Del h (IdentitySignatureHeader c) else h.

Definition identityHeaders (c : Config) : list string :=
  match SignedIdentityHeaders c with [] => trustedIdentityHeaders | hs => hs end.

Definition signature_header (c : Config) : string :=
  if String.eqb (IdentitySignatureHeader c) "" then "X-Aegion-Signature" else IdentitySignatureHeader c.

Definition signIdentityHeaders (c : Config) (h : header) (now : time) : header :=
  let secret := TrimSpace (IdentitySigningSecret c) in
  if String.eqb secret "" then h
  else match SignIdentityHeaders secret h (identityHeaders c) now with
       | Ok signed => if String.eqb signed "" then h else Header_Set h (signature_header c) signed
       | Err _ => h
       end.

Definition addForwardedHeaders (c : Config) (h : header) (original : Request) : header :=
  let clientIP := RemoteIP (RemoteAddr original) in
  let clientIP := if String.eqb clientIP ""
                  then (ClientIP cache (Some original) (TrustForwardedHeaders c) (Some cidrs)).1 else clientIP in
  let prior := PriorForwardedFor (Some original) (TrustForwardedHeaders c) cidrs in
  let h :=
    if negb (String.eqb prior "") then
      if negb (String.eqb clientIP "") then Header_Set h "X-Forwarded-For" (prior +:+ ", " +:+ clientIP)
      else Header_Set h "X-Forwarded-For" prior
    else if String.eqb clientIP "" then Header_Del h "X-Forwarded-For"
    else Header_Set h "X-Forwarded-For" clientIP in
  let h := Header_Set h "X-Forwarded-Proto" (ForwardedProto (Some original) (TrustForwardedHeaders c) cidrs) in
  Header_Set h "X-Forwarded-Host" (ForwardedHost (Some original) (TrustForwardedHeaders c) cidrs).

Definition set_all (h : header) (m : gmap string string) : header :=
  map_fold (fun k v h => Header_Set h k v) h m.

(** The outgoing request: its URL's scheme and host, and the request. *)
Record outgoing : Type := { out_Scheme : string; out_URLHost : string; out_req : Request }.

(** The [Director]; [r] is the inbound request after rewriting, of which the
    outgoing one starts as a copy, and [sess] the session of its context. *)
Definition director (c : Config) (rule : Rule) (upstream : Upstream) (target : string * string)
    (r : Request) (sess : option Session) (requestID : string) (now : time) : outgoing :=
  let h := GoHttp.Header r in
  let h := if StripInboundIdentityHeaders c then stripInboundIdentityHeaders c h else h in
  let h := set_all h (rule_Headers rule) in
  let h := set_all h (up_Headers upstream) in
  let h := match sess with
           | Some s => signIdentityHeaders c (injectSessionHeaders h s) now
           | None => h
           end in
  let h := addForwardedHeaders c h r in
  let h := if negb (String.eqb requestID "") then Header_Set h "X-Request-ID" requestID else h in
  {| out_Scheme := target.1; out_URLHost := target.2; out_req := set_Header (set_Host r target.2) h |}.

(** [httputil.ReverseProxy] between the Director and the transport: the
    headers named in [Connection] and the hop-by-hop headers are removed, and
    the peer's address is appended to X-Forwarded-For.  (The TE, Upgrade and
    User-Agent adjustments are left out.) *)
Definition hopHeaders : list string := [
  "Connection"; "Proxy-Connection"; "Keep-Alive"; "Proxy-Authenticate"; "Proxy-Authorization"; "Te";
  "Trailer"; "Transfer-Encoding"; "Upgrade" ].

Definition connection_options (h : header) : list string :=
  List.filter (fun f => negb (String.eqb f ""))
    (concat (map (fun f => map TrimSpace (Split f ",")) (default [] (h !! "Connection")))).

Definition removeHopByHopHeaders (h : header) : header :=
  fold_left Header_Del hopHeaders (fold_left Header_Del (connection_options h) h).

Definition append_forwarded_for (h : header) (remoteAddr : string) : header :=
  match SplitHostPort remoteAddr with
  | None => h
  | Some clientIP =>
      match h !! "X-Forwarded-For" with
      | Some (v :: vs) => Header_Set h "X-Forwarded-For" (Join (v :: vs) ", " +:+ ", " +:+ clientIP)
      | Some [] => h
      | None => Header_Set h "X-Forwarded-For" clientIP
      end
  end.

Definition reverse_proxy_request (inbound : Request) (o : outgoing) : outgoing :=
  {| out_Scheme := out_Scheme o; out_URLHost := out_URLHost o;
     out_req := set_Header (out_req o)
       (append_forwarded_for (removeHopByHopHeaders (GoHttp.Header (out_req o))) (RemoteAddr inbound)) |}.

Definition rewritten (rule : Rule) (r : Request) : Request :=
  match Rewrite rule with
  | Some _ => set_Path r (ApplyRewrite rule (URL_Path r))
  | None => r
  end.

(** [Forward]: the request that was sent, what was written, and the error.
    [upstream_reply] is the upstream. *)
Definition Forward (upstream_reply : outgoing -> reply) (c : Config) (target : string * string) (w : writer)
    (r : Request) (sess : option Session) (rule : Rule) (upstream : Upstream) (requestID : string) (ex : exchange)
    : outgoing * writer * option proxy_error :=
  let r := rewritten rule r in
  let o := reverse_proxy_request r (director c rule upstream target r sess requestID (ex_sign ex)) in
  let '(w, responseStatus) :=
    match upstream_reply o with
    | Reply status body => (w_write (WriteHeader w status) (Upstream_body body), status)
    | TransportError => (w, if ex_deadline_forward ex then 504%Z else 502%Z)
    end in
  (o, w,
   if ex_deadline_forward ex then Some ErrRequestTimeoutForward
   else if (500 <=? responseStatus)%Z then Some (ErrUpstreamStatus responseStatus)
   else None).

(** ** Serving a request *)

Definition getOrCreateRequestID (r : Request) (ex : exchange) : string :=
  let id := Header_Get (GoHttp.Header r) "X-Request-ID" in
  if negb (String.eqb id "") then id
  else match ex_rand ex with
       | Some b => hex_EncodeToString b
       | None => ex_unix_nano_hex ex
       end.

(** The rate-limit decision and the proxy afterwards. *)
Definition limit_request (p : Proxy) (rule : Rule) (r : Request) (sess : option Session) (ex : exchange)
    : bool * duration * Proxy :=
  match rule_RateLimit rule with
  | Some rl =>
      let '(lc, m) := getRuleLimiter p rule rl in
      let '((ok, wait, _), m) := RateLimiter_Allow lc cache cidrs r sess (ex_limit_clock ex) m in
      (ok, wait, set_ruleLimiter p (rule_limiter_key rule) (lc, m))
  | None =>
      let '(lc, m) := limiter p in
      let '((ok, wait, _), m) := RateLimiter_Allow lc cache cidrs r sess (ex_limit_clock ex) m in
      (ok, wait, set_limiter p (lc, m))
  end.

(** The result: the proxy afterwards, what the client got, and the request
    that went to the upstream, if any. *)
Definition ServeHTTP (upstream_reply : outgoing -> reply) (p : Proxy) (r : Request) (sess : option Session)
    (ex : exchange) : Proxy * writer * option outgoing :=
  let requestID := getOrCreateRequestID r ex in
  let w := w_set new_writer "X-Request-ID" requestID in
  match Match_rule (rules p) r with
  | None => (p, handleError w ErrNoRuleMatched 404 requestID, None)
  | Some rule =>
      let '(allowed, waitTime, p) := limit_request p rule r sess ex in
      if negb allowed then (p, handleRateLimitExceeded p w waitTime requestID, None)
      else match CheckAccess rule sess with
      | Err e => (p, handleAccessError w e requestID, None)
      | Ok _ =>
          match Upstreams (config p) !! Target rule with
          | None => (p, handleError w ErrUpstreamNotFound 502 requestID, None)
          | Some upstream =>
              let '(ok, breaker) := CircuitBreaker.Allow (getCircuitBreaker p (Target rule) (ex_new_breaker ex)) (ex_allow ex) in
              if negb ok then
                (set_breaker p (Target rule) breaker, handleError w ErrUpstreamUnhealthy 503 requestID, None)
              else match url_Parse (URL upstream) with
              | Err e =>
                  (set_breaker p (Target rule) (CircuitBreaker.RecordFailure breaker (ex_record ex)),
                   handleError w (ErrInvalidUpstreamURL e) 500 requestID, None)
              | Ok target =>
                  let '(o, w, err) := Forward upstream_reply (config p) target w r sess rule upstream requestID ex in
                  match err with
                  | Some _ =>
                      (set_breaker p (Target rule) (CircuitBreaker.RecordFailure breaker (ex_record ex)),
                       handleProxyError w (ex_deadline_error ex) requestID, Some o)
                  | None =>
                      (set_breaker p (Target rule) (CircuitBreaker.RecordSuccess breaker (ex_record ex)), w, Some o)
                  end
              end
          end
      end
  end.

(** ** Authentication middleware (auth.go) *)

(** What a middleware does: call the next handler with a session in the
    context, or answer itself. *)
Inductive auth_outcome : Type :=
| Next (sess : option Session)
| Answered (w : writer).

Definition auth_error_message (e : session_error) : string :=
  match e with
  | ErrSessionNotFound => "Authentication required"
  | ErrSessionExpired => "Session expired"
  | ErrSessionInvalid => "Invalid session"
  | _ => "Authentication failed"
  end.

Definition handleAuthError (w : writer) (e : session_error) (requestID : string) : writer :=
  let w := w_set w "Content-Type" "application/json" in
  let w := w_set w "Cache-Control" "no-cache, no-store, must-revalidate" in
  let w := w_set w "Pragma" "no-cache" in
  let w := w_set w "Expires" "0" in
  let w := match e with ErrSessionExpired => w_set w "X-Aegion-Action" "reauthenticate" | _ => w end in
  let w := WriteHeader w 401 in
  w_write w (Error_json 401 (auth_error_message e) requestID).

(** [t], [t1], [t2] are the session manager's clock readings. *)
Definition resolveSession (getFromRequest : option (Request -> M session_db session_error Session))
    (sessionManager : option SessionManager) (r : Request) (t t1 t2 : time) : M session_db session_error Session :=
  match getFromRequest, sessionManager with
  | Some f, _ => f r
  | None, None => throw ErrSessionNotFound
  | None, Some m => Manager.GetFromRequest m r t t1 t2
  end.

(** [ctx] is the session the incoming context already holds. *)
Definition Middleware (optional : bool) (resolved : M session_db session_error Session) (w : writer)
    (ctx : option Session) (requestID : string) (now : time) : world session_db -> auth_outcome * world session_db :=
  fun db =>
    match resolved db with
    | (Err e, db) => (if optional then Next ctx else Answered (handleAuthError w e requestID), db)
    | (Ok sess, db) =>
        (if negb (Active sess) && negb optional then Answered (handleAuthError w ErrSessionInvalid requestID)
         else if time_after now (ExpiresAt sess) && negb optional
         then Answered (handleAuthError w ErrSessionExpired requestID)
         else Next (Some sess), db)
    end.

(** The latest device and the methods, besides the session's identity. *)
Definition joinStrings (slice : list string) (sep : string) : string :=
  match slice with
  | [] => ""
  | s :: rest => fold_left (fun acc x => acc +:+ sep +:+ x) rest s
  end.

Definition set_nonempty (h : header) (k v : string) : header :=
  if negb (String.eqb v "") then Header_Set h k v else h.

Definition InjectHeaders (h : header) (sess : option Session) : header :=
  match sess with
  | None => h
  | Some s =>
      let h := Header_Set h "X-Aegion-Session-ID" (uuid_string (ID s)) in
      let h := Header_Set h "X-Aegion-Identity-ID" (uuid_string (IdentityID s)) in
      let h := Header_Set h "X-Aegion-AAL" (SessionAAL s) in
      let h := Header_Set h "X-Aegion-Authenticated-At" (rfc3339 (AuthenticatedAt s)) in
      let h := Header_Set h "X-Aegion-Expires-At" (rfc3339 (ExpiresAt s)) in
      let h := match IsImpersonation s, ImpersonatorID s with
               | true, Some i =>
                   let h := Header_Set h "X-Aegion-Impersonation" "true" in
                   Header_Set h "X-Aegion-Impersonator-ID" (uuid_string i)
               | _, _ => h
               end in
      let h := match AuthMethods s with
               | [] => h
               | ms => Header_Set h "X-Aegion-Auth-Methods" (joinStrings (map am_Method ms) ",")
               end in
      match last (Devices s) with
      | None => h
      | Some d =>
          let h := set_nonempty h "X-Aegion-Device-IP" (dev_IPAddress d) in
          set_nonempty h "X-Aegion-Device-UA" (dev_UserAgent d)
      end
  end.

(** The helper without a request identifier. *)
Definition writeError (w : writer) (statusCode : Z) (message : string) : writer :=
  let w := w_set w "Content-Type" "application/json" in
  w_write (WriteHeader w statusCode) (Error_json statusCode message "").

Definition RequireAAL (requiredAAL : AAL) (w : writer) (ctx : option Session) : auth_outcome :=
  match ctx with
  | None => Answered (writeError w 401 "Authentication required")
  | Some s =>
      if str_ltb (SessionAAL s) requiredAAL then Answered (writeError w 403 "Insufficient authentication level")
      else Next ctx
  end.

Definition RequireCapabilities (capabilities : list string) (w : writer) (ctx : option Session) : auth_outcome :=
  match ctx with
  | None => Answered (writeError w 401 "Authentication required")
  | Some s =>
      match checkCapabilities (Some s) capabilities with
      | Err _ => Answered (writeError w 403 "Insufficient privileges")
      | Ok _ => Next ctx
      end
  end.

(** The gateway: the middleware in front of the proxy. *)
Definition gateway (upstream_reply : outgoing -> reply) (optional : bool) (m : SessionManager) (p : Proxy)
    (r : Request) (t t1 t2 now : time) (ex : exchange) (db : world session_db)
    : Proxy * writer * option outgoing * world session_db :=
  match Middleware optional (resolveSession None (Some m) r t t1 t2) new_writer None "" now db with
  | (Answered w, db) => (p, w, None, db)
  | (Next sess, db) => let '(p, w, o) := ServeHTTP upstream_reply p r sess ex in (p, w, o, db)
  end.
End proxy.
