(* ===== verification/ProxyFacts.v ===== *)
(** Theorems about the gateway: which requests reach an upstream, what the
    client is told otherwise, and where the identity headers come from. *)

From Stdlib Require Import Ascii String.
From S2P Require Import Prelude GoStrings GoEncoding GoSha256 PlatformCrypto GoHttp TrustedProxy.
From S2P Require Import CircuitBreaker SignedHeaders Session SessionFacts SessionContext RateLimit GoPath Rules RulesFacts Proxy.

Local Open Scope string_scope.

(** ** Header lookups *)

Lemma Header_Set_lookup h k v k' :
  Header_Set h k v !! k' = if decide (CanonicalHeaderKey k = k') then Some [v] else h !! k'.
Proof.
  unfold Header_Set. case_decide as E; [subst; apply lookup_insert_eq|by apply lookup_insert_ne].
Qed.

Lemma Header_Del_lookup h k k' :
  Header_Del h k !! k' = if decide (CanonicalHeaderKey k = k') then None else h !! k'.
Proof.
  unfold Header_Del. case_decide as E; [subst; apply lookup_delete_eq|by apply lookup_delete_ne].
Qed.

Lemma fold_Del_lookup ks h k' :
  fold_left Header_Del ks h !! k' = if decide (k' ∈ map CanonicalHeaderKey ks) then None else h !! k'.
Proof.
  revert h. induction ks as [|k ks IH]; intros h; cbn [fold_left map].
  - by rewrite decide_False by apply not_elem_of_nil.
  - rewrite IH, Header_Del_lookup. destruct (decide (k' ∈ map CanonicalHeaderKey ks)) as [Hin|Hin].
    + by rewrite decide_True by (by right).
    + destruct (decide (CanonicalHeaderKey k = k')) as [E|E]; [by rewrite decide_True by (subst; left)|].
      rewrite decide_False; [done|]. intros [->|?]%elem_of_cons; done.
Qed.

Lemma set_all_lookup h m k' :
  (forall k v, m !! k = Some v -> CanonicalHeaderKey k <> k') -> set_all h m !! k' = h !! k'.
Proof.
  unfold set_all. revert h. induction m as [|k v m Hk Hfst IH] using map_first_key_ind; intros h Hm.
  - by rewrite map_fold_empty.
  - rewrite map_fold_insert_first_key by done. rewrite Header_Set_lookup, decide_False.
    + apply IH. intros k0 v0 Hl. apply (Hm k0 v0). rewrite lookup_insert_ne; [done|]. intros ->. congruence.
    + apply (Hm k v). apply lookup_insert_eq.
Qed.

(** The canonical names of the identity headers. *)
Abbreviation identity_key k := (k ∈ map CanonicalHeaderKey trustedIdentityHeaders).

(** Setting or deleting another header leaves the identity headers alone. *)
Lemma Set_other h c v k :
  identity_key k -> bool_decide (identity_key (CanonicalHeaderKey c)) = false -> Header_Set h c v !! k = h !! k.
Proof.
  intros Hk Hc. bool_to_prop. rewrite Header_Set_lookup, decide_False; [done|]. intros E. apply Hc. by rewrite E.
Qed.
Lemma Del_other h c k :
  identity_key k -> bool_decide (identity_key (CanonicalHeaderKey c)) = false -> Header_Del h c !! k = h !! k.
Proof.
  intros Hk Hc. bool_to_prop. rewrite Header_Del_lookup, decide_False; [done|]. intros E. apply Hc. by rewrite E.
Qed.

Section proxy_facts.
Context `{Net} `{UuidText} `{Urls} (cidrs : string) (cache : gmap string (list ipnet)).

Lemma inject_lookup h s k :
  h !! k = None -> injectSessionHeaders h s !! k = injectSessionHeaders ∅ s !! k.
Proof.
  intros Hk. unfold injectSessionHeaders. repeat case_match; rewrite !Header_Set_lookup, Hk, lookup_empty; done.
Qed.

Lemma sign_lookup c h now k :
  CanonicalHeaderKey (signature_header c) <> k -> signIdentityHeaders c h now !! k = h !! k.
Proof.
  intros Hk. unfold signIdentityHeaders. repeat case_match; try done. by rewrite Header_Set_lookup, decide_False.
Qed.

Lemma forwarded_lookup c h r k : identity_key k -> addForwardedHeaders cidrs cache c h r !! k = h !! k.
Proof.
  intros Hk. unfold addForwardedHeaders.
  repeat case_match; by rewrite !Set_other, ?Del_other by done.
Qed.

Lemma strip_lookup c h k : identity_key k -> stripInboundIdentityHeaders c h !! k = None.
Proof.
  intros Hk. unfold stripInboundIdentityHeaders.
  case_match; rewrite ?Header_Del_lookup, fold_Del_lookup, (decide_True (P := identity_key k)) by done; [by case_decide|done].
Qed.

(** The session's identity headers, and nothing else. *)
Definition session_identity (sess : option Session) : header :=
  match sess with Some s => injectSessionHeaders ∅ s | None => ∅ end.

(** A name the operator leaves to the gateway: not an identity header and not
    [Connection]. *)
Definition free_name (k : string) : Prop :=
  ~ identity_key (CanonicalHeaderKey k) /\ CanonicalHeaderKey k <> "Connection".
(** No configured header overrides one of those. *)
Definition no_override (m : gmap string string) : Prop := forall k v, m !! k = Some v -> free_name k.

Lemma director_identity c rule upstream target r sess requestID now k :
  StripInboundIdentityHeaders c = true -> no_override (rule_Headers rule) -> no_override (up_Headers upstream) ->
  free_name (signature_header c) -> identity_key k ->
  GoHttp.Header (out_req (director cidrs cache c rule upstream target r sess requestID now)) !! k =
  session_identity sess !! k.
Proof.
  intros Hs Hr Hu [Hsig _] Hk. unfold director; cbn [out_req set_Header GoHttp.Header]. rewrite Hs.
  assert (forall h, (if negb (String.eqb requestID "") then Header_Set h "X-Request-ID" requestID else h) !! k = h !! k) as Hid.
  { intros h. case_match; [|done]. by apply Set_other. }
  rewrite Hid, forwarded_lookup by done.
  assert (set_all (set_all (stripInboundIdentityHeaders c (GoHttp.Header r)) (rule_Headers rule))
            (up_Headers upstream) !! k = None) as Hnone.
  { rewrite !set_all_lookup; [by apply strip_lookup|intros k0 v0 Hl <-; by destruct (Hr k0 v0 Hl)|intros k0 v0 Hl <-; by destruct (Hu k0 v0 Hl)]. }
  destruct sess as [s|]; simpl; [|by rewrite Hnone, lookup_empty].
  rewrite sign_lookup by (intros E; apply Hsig; by rewrite E). by apply inject_lookup.
Qed.

(** The Director leaves the client's [Connection] header as it is. *)
Lemma director_connection c rule upstream target r sess requestID now :
  no_override (rule_Headers rule) -> no_override (up_Headers upstream) -> free_name (signature_header c) ->
  GoHttp.Header (out_req (director cidrs cache c rule upstream target r sess requestID now)) !! "Connection" =
  GoHttp.Header r !! "Connection".
Proof.
  intros Hr Hu [_ Hsig]. unfold director; cbn [out_req set_Header GoHttp.Header].
  assert (forall h k v, CanonicalHeaderKey k <> "Connection" -> Header_Set h k v !! "Connection" = h !! "Connection") as Hset
    by (intros; by rewrite Header_Set_lookup, decide_False).
  assert (forall h k, CanonicalHeaderKey k <> "Connection" -> Header_Del h k !! "Connection" = h !! "Connection") as Hdel
    by (intros; by rewrite Header_Del_lookup, decide_False).
  assert (forall h m, no_override m -> set_all h m !! "Connection" = h !! "Connection") as Hall.
  { intros h m Hm. apply set_all_lookup. intros k v Hl. by apply (Hm k v). }
  assert (forall h, addForwardedHeaders cidrs cache c h r !! "Connection" = h !! "Connection") as Hfwd.
  { intros h. unfold addForwardedHeaders. repeat case_match; by rewrite !Hset, ?Hdel by (vm_compute; discriminate). }
  assert (forall h s, injectSessionHeaders h s !! "Connection" = h !! "Connection") as Hinj.
  { intros h s. unfold injectSessionHeaders. repeat case_match; by rewrite !Hset by (vm_compute; discriminate). }
  transitivity (set_all (set_all (if StripInboundIdentityHeaders c then stripInboundIdentityHeaders c (GoHttp.Header r)
    else GoHttp.Header r) (rule_Headers rule)) (up_Headers upstream) !! "Connection").
  { destruct (negb (String.eqb requestID "")); rewrite ?Hset by (vm_compute; discriminate); rewrite Hfwd;
      (destruct sess as [s|]; [|done]); by rewrite sign_lookup, Hinj. }
  rewrite !Hall by done. destruct (StripInboundIdentityHeaders c); [|done].
  unfold stripInboundIdentityHeaders. destruct (String.eqb_spec (IdentitySignatureHeader c) "") as [E|E]; cbn [negb].
  - rewrite fold_Del_lookup, decide_False; [done|]. apply (bool_decide_unpack _). vm_compute. exact I.
  - assert (signature_header c = IdentitySignatureHeader c) as Hs
      by (unfold signature_header; apply String.eqb_neq in E; by rewrite E).
    rewrite Hs in Hsig. rewrite Hdel by done. rewrite fold_Del_lookup, decide_False; [done|].
    apply (bool_decide_unpack _). vm_compute. exact I.
Qed.

Lemma reverse_proxy_identity inbound o k :
  identity_key k ->
  GoHttp.Header (out_req (reverse_proxy_request inbound o)) !! k =
  if decide (k ∈ map CanonicalHeaderKey (connection_options (GoHttp.Header (out_req o)))) then None
  else GoHttp.Header (out_req o) !! k.
Proof.
  intros Hk. unfold reverse_proxy_request; cbn [out_req set_Header GoHttp.Header].
  assert (forall h a, append_forwarded_for h a !! k = h !! k) as Hf.
  { intros h a. unfold append_forwarded_for. repeat case_match; try done; by apply Set_other. }
  rewrite Hf. unfold removeHopByHopHeaders. rewrite fold_Del_lookup, decide_False; [apply fold_Del_lookup|].
  assert (Forall (fun k => k ∉ map CanonicalHeaderKey hopHeaders) (map CanonicalHeaderKey trustedIdentityHeaders)) as Hd
    by (apply (bool_decide_unpack _); vm_compute; exact I).
  by eapply Forall_forall in Hk; [|exact Hd].
Qed.

(** ** Which requests reach an upstream *)

(** What was decided about a request and what the client is told. *)
Definition checks_passed (up : outgoing -> reply) (p : Proxy) (r : Request) (sess : option Session) (ex : exchange)
    (rule : Rule) (upstream : Upstream) (target : string * string) : Prop :=
  Match_rule (rules p) r = Some rule /\
  (limit_request cidrs cache p rule r sess ex).1.1 = true /\
  CheckAccess rule sess = Ok tt /\
  Upstreams (config p) !! Target rule = Some upstream /\
  (CircuitBreaker.Allow (getCircuitBreaker p (Target rule) (ex_new_breaker ex)) (ex_allow ex)).1 = true /\
  url_Parse (URL upstream) = Ok target.

Lemma limit_request_parts p rule r sess ex :
  config (limit_request cidrs cache p rule r sess ex).2 = config p /\
  rules (limit_request cidrs cache p rule r sess ex).2 = rules p /\
  breakers (limit_request cidrs cache p rule r sess ex).2 = breakers p.
Proof.
  unfold limit_request. destruct (rule_RateLimit rule) as [rl|].
  - destruct (getRuleLimiter p rule rl) as [lc m]. by destruct (RateLimiter_Allow _ _ _ _ _ _ _) as [[[] ?] ?].
  - destruct (limiter p) as [lc m]. by destruct (RateLimiter_Allow _ _ _ _ _ _ _) as [[[] ?] ?].
Qed.

(** The request that [ServeHTTP] sends when every check passed. *)
Definition sent (p : Proxy) (r : Request) (sess : option Session) (ex : exchange) (rule : Rule)
    (upstream : Upstream) (target : string * string) : outgoing :=
  let r' := rewritten rule r in
  reverse_proxy_request r'
    (director cidrs cache (config p) rule upstream target r' sess (getOrCreateRequestID r ex) (ex_sign ex)).

Lemma ServeHTTP_cases up p r sess ex p' w o :
  ServeHTTP cidrs cache up p r sess ex = (p', w, o) ->
  match o with
  | Some out => exists rule upstream target,
      checks_passed up p r sess ex rule upstream target /\ out = sent p r sess ex rule upstream target
  | None => exists code, rw_status w = Some code /\
      match Match_rule (rules p) r with
      | None => code = 404%Z
      | Some rule =>
          (code = 429%Z /\ (limit_request cidrs cache p rule r sess ex).1.1 = false) \/
          (code = 401%Z /\ CheckAccess rule sess = Err ErrAuthenticationRequired) \/
          (code = 403%Z /\ exists e, CheckAccess rule sess = Err e) \/
          (code = 502%Z /\ Upstreams (config p) !! Target rule = None) \/
          (code = 503%Z /\
           (CircuitBreaker.Allow (getCircuitBreaker p (Target rule) (ex_new_breaker ex)) (ex_allow ex)).1 = false) \/
          (code = 500%Z /\ exists u e, Upstreams (config p) !! Target rule = Some u /\ url_Parse (URL u) = Err e)
      end
  end.
Proof.
  unfold ServeHTTP. destruct (Match_rule (rules p) r) as [rule|] eqn:Em; [|intros [= <- <- <-]; by eexists].
  pose proof (limit_request_parts p rule r sess ex) as (Hc & Hr & Hb).
  destruct (limit_request cidrs cache p rule r sess ex) as [[ok wait] p1] eqn:El; cbn [fst snd] in *.
  destruct ok; cbn [negb]; [|intros [= <- <- <-]; eexists; split; [done|by left]].
  destruct (CheckAccess rule sess) as [[]|e] eqn:Ea.
  2:{ destruct e; intros [= <- <- <-]; eexists; (split; [reflexivity|]); eauto 6. }
  rewrite Hc. destruct (Upstreams (config p) !! Target rule) as [u|] eqn:Eu.
  2:{ intros [= <- <- <-]. eexists. split; [reflexivity|]. eauto 8. }
  assert (getCircuitBreaker p1 (Target rule) (ex_new_breaker ex) =
          getCircuitBreaker p (Target rule) (ex_new_breaker ex)) as -> by (unfold getCircuitBreaker; by rewrite Hb, Hc).
  destruct (CircuitBreaker.Allow _ (ex_allow ex)) as [ok cb] eqn:Eb. destruct ok; cbn [negb fst].
  2:{ intros [= <- <- <-]. eexists. split; [reflexivity|]. eauto 10. }
  destruct (url_Parse (URL u)) as [target|e] eqn:Et.
  2:{ intros [= <- <- <-]. eexists. split; [reflexivity|]. eauto 12. }
  destruct (Forward _ _ _ _ _ _ _ _ _ _ _ _) as [[out w1] err] eqn:Ef.
  assert (out = sent p r sess ex rule u target) as ->.
  { unfold Forward in Ef. destruct (up _); simplify_eq; done. }
  assert (checks_passed up p r sess ex rule u target) as Hok.
  { unfold checks_passed. by rewrite Em, El, Ea, Eu, Eb, Et. }
  destruct err; intros [= <- <- <-]; eauto.
Qed.

(** The gateway sends a request upstream exactly when every check passed:
    a rule matched, the rate limiter admitted it, access control allowed it,
    the target is configured with a valid address and its circuit breaker let
    it through; what is sent is then the prepared request.  Otherwise the
    upstream is not contacted and the client gets the status of the check that
    failed: 404, 429, 401 or 403, 502, 503 or 500. *)
Theorem upstream_reached_only_after_all_checks up p r sess ex :
  let '(_, w, o) := ServeHTTP cidrs cache up p r sess ex in
  match o with
  | Some out => exists rule upstream target,
      checks_passed up p r sess ex rule upstream target /\ out = sent p r sess ex rule upstream target
  | None => exists code, rw_status w = Some code /\
      match Match_rule (rules p) r with
      | None => code = 404%Z
      | Some rule =>
          (code = 429%Z /\ (limit_request cidrs cache p rule r sess ex).1.1 = false) \/
          (code = 401%Z /\ CheckAccess rule sess = Err ErrAuthenticationRequired) \/
          (code = 403%Z /\ exists e, CheckAccess rule sess = Err e) \/
          (code = 502%Z /\ Upstreams (config p) !! Target rule = None) \/
          (code = 503%Z /\
           (CircuitBreaker.Allow (getCircuitBreaker p (Target rule) (ex_new_breaker ex)) (ex_allow ex)).1 = false) \/
          (code = 500%Z /\ exists u e, Upstreams (config p) !! Target rule = Some u /\ url_Parse (URL u) = Err e)
      end
  end.
Proof.
  destruct (ServeHTTP cidrs cache up p r sess ex) as [[p' w] o] eqn:E. by apply ServeHTTP_cases in E.
Qed.

(** Clients cannot forge an identity towards an upstream: when inbound
    identity headers are stripped and no configured header overrides one, an
    identity header of the request that is sent carries the value of the
    authenticated session or is absent, whatever headers the client sent, and
    it is absent only if the session does not set it or the client named it in
    its [Connection] header, in which case it is. *)
Theorem identity_headers_come_from_session up p r sess ex p' w o k :
  StripInboundIdentityHeaders (config p) = true ->
  (forall rule, rule ∈ rules p -> no_override (rule_Headers rule)) ->
  (forall name u, Upstreams (config p) !! name = Some u -> no_override (up_Headers u)) ->
  free_name (signature_header (config p)) ->
  ServeHTTP cidrs cache up p r sess ex = (p', w, Some o) -> identity_key k ->
  GoHttp.Header (out_req o) !! k =
  if decide (k ∈ map CanonicalHeaderKey (connection_options (GoHttp.Header r))) then None
  else session_identity sess !! k.
Proof.
  intros Hstrip Hrules Hups Hsig Hs Hk. apply ServeHTTP_cases in Hs as (rule & u & target & (Hm & _ & _ & Hu & _) & ->).
  assert (no_override (rule_Headers rule)) as Hr.
  { apply Hrules. unfold Match_rule in Hm. apply List.find_some in Hm as [Hin _]. by apply list_elem_of_In. }
  unfold sent. rewrite reverse_proxy_identity by done. unfold connection_options.
  rewrite director_connection, director_identity by (done || by eapply Hups).
  assert (GoHttp.Header (rewritten rule r) = GoHttp.Header r) as -> by (unfold rewritten; by destruct (Rewrite rule)).
  done.
Qed.

(** C1: End to end, a request reaches an upstream under a rule that requires
    authentication only if it presented a token whose hash is that of an
    active session row that had not expired, and whose assurance level is at
    least the one the rule asks for; the session's row decides, whether the
    middleware is optional or not. *)
Theorem gateway_forwards_only_live_sessions up optional m p r t t1 t2 now ex db p' w o db' :
  gateway cidrs cache up optional m p r t t1 t2 now ex db = (p', w, Some o, db') ->
  exists rule, Match_rule (rules p) r = Some rule /\
    (RequireAuth rule = true ->
     exists token id row,
       Manager.request_token m r t = Some token /\ t_sessions (w_db db) !! id = Some row /\
       row_active row = true /\ row_token_hash row = secrettoken.Hash token /\ (t1 <= row_expires row)%Z /\
       (RequiredAAL rule <> "" -> str_ltb (row_aal row) (RequiredAAL rule) = false)).
Proof.
  unfold gateway, Middleware, resolveSession. intros Hg.
  destruct (Manager.GetFromRequest m r t t1 t2 db) as [[s|e] db1] eqn:Er.
  - destruct (negb (Active s) && _); [done|]. destruct (time_after now _ && _); [done|].
    destruct (ServeHTTP _ _ _ _ _ _ _) as [[p1 w1] o1] eqn:Es. injection Hg as -> -> -> ->.
    apply ServeHTTP_cases in Es as (rule & u & target & (Hm & _ & Ha & _) & _). exists rule. split; [done|].
    intros Hauth. destruct (CheckAccess_ok _ _ Ha Hauth) as (s' & [= <-] & Haal & _).
    unfold Manager.GetFromRequest in Er. destruct (Manager.request_token m r t) as [token|] eqn:Et; [|done].
    apply Get_live in Er as (row & Hrow & Hact & Hh & Hexp & _ & Hs & _).
    exists token, (ID s), row. split_and!; try done. by rewrite Hs in Haal.
  - destruct optional; [|done]. destruct (ServeHTTP _ _ _ _ _ _ _) as [[p1 w1] o1] eqn:Es. injection Hg as -> -> -> ->.
    apply ServeHTTP_cases in Es as (rule & u & target & (Hm & _ & Ha & _) & _). exists rule. split; [done|].
    intros Hauth. destruct (CheckAccess_ok _ _ Ha Hauth) as (s' & [=] & _).
Qed.
End proxy_facts.

(** ** A concrete gateway *)

Module ProxyWitness.
#[local] Existing Instance host_net.
#[local] Existing Instance unary_uuid.
#[local] Instance some_urls : Urls := {| url_Parse s := Ok ("http", s); rfc3339 t := FormatInt t |}.

Definition web : Upstream :=
  {| URL := "web:80"; HealthCheck := "/health"; HealthCheckExpectedBody := ""; Weight := 1; up_CircuitBreaker := None;
     up_Timeout := 0; MaxConnections := 0; up_Headers := ∅ |}.
Definition conf : Config :=
  {| Upstreams := {[ "web" := web ]}; DefaultTarget := ""; px_Timeout := 30 * second; MaxRetries := 3;
     RetryBackoff := second; EnableHealthChecks := false; HealthCheckInterval := 0;
     Transport := Transport DefaultConfig; StripInboundIdentityHeaders := true; IdentitySigningSecret := "k";
     IdentitySignatureHeader := "X-Aegion-Signature"; SignedIdentityHeaders := []; TrustForwardedHeaders := false |}.
Definition members : Rule :=
  {| rule_ID := "members"; Path := "/*"; Methods := []; RequireAuth := true; RequiredAAL := AAL1;
     Capabilities := []; rule_RateLimit := None; Target := "web"; Priority := 1; rule_Headers := ∅;
     Rewrite := None; Enabled := true; Description := "" |}.
Definition px : Proxy := NewProxy conf (Some (NewRuleEngine [members])) 0.
Definition forged (extra : header) : Request :=
  {| Method := "GET"; URL_Path := "/x"; URL_RawQuery := ""; Host := "app"; RemoteAddr := "10.0.0.1:555";
     TLS := true; Cookies := []; Header := Header_Set (Header_Set extra "X-Aegion-Identity-ID" "999")
       "X-Session-Token" (b64url_Encode "a") |}.
Definition ex0 : exchange :=
  {| ex_limit_clock _ := (0, 0); ex_new_breaker := 0; ex_allow := 0; ex_sign := 0; ex_record := 0;
     ex_rand := Some "r"; ex_unix_nano_hex := "0"; ex_deadline_forward := false; ex_deadline_error := false |}%Z.
Definition healthy (_ : outgoing) : reply := Reply 200 "hello".

Lemma px_free : (forall rule, rule ∈ rules px -> no_override (rule_Headers rule)) /\
  (forall name u, Upstreams (config px) !! name = Some u -> no_override (up_Headers u)) /\
  free_name (signature_header (config px)).
Proof.
  split; [|split].
  - intros rule Hin. change (rule ∈ [members]) in Hin. apply list_elem_of_singleton in Hin as ->. intros k v Hl.
    cbn [rule_Headers members] in Hl. rewrite lookup_empty in Hl. discriminate Hl.
  - intros name u Hl. change (Upstreams (config px)) with ({[ "web" := web ]} : gmap string Upstream) in Hl.
    apply lookup_singleton_Some in Hl as [_ <-]. intros k v Hk.
    cbn [up_Headers web] in Hk. rewrite lookup_empty in Hk. discriminate Hk.
  - split; [apply (bool_decide_unpack _); vm_compute; exact I|vm_compute; discriminate].
Qed.

Lemma identity_headers_come_from_session_witness :
  exists p' w o, ServeHTTP "" ∅ healthy px (forged ∅) (Some some_session) ex0 = (p', w, Some o) /\
    GoHttp.Header (out_req o) !! "X-Aegion-Identity-Id" = Some ["1111"].
Proof.
  destruct (ServeHTTP "" ∅ healthy px (forged ∅) (Some some_session) ex0) as [[p' w] [o|]] eqn:E;
    [|exfalso; vm_compute in E; discriminate E].
  exists p', w, o. split; [reflexivity|]. destruct px_free as (H1 & H2 & H3).
  rewrite (identity_headers_come_from_session "" ∅ healthy px (forged ∅) (Some some_session) ex0 p' w o
    "X-Aegion-Identity-Id" eq_refl H1 H2 H3 E ltac:(apply (bool_decide_unpack _); vm_compute; exact I)).
  vm_compute. reflexivity.
Defined.

Lemma gateway_forwards_only_live_sessions_witness :
  exists p' w o db', gateway "" ∅ healthy true mgr px (forged ∅) 1 1 1 1 ex0 two_sessions = (p', w, Some o, db') /\
    exists rule, Match_rule (rules px) (forged ∅) = Some rule /\ RequireAuth rule = true /\
      exists token id row, Manager.request_token mgr (forged ∅) 1 = Some token /\
        t_sessions (w_db two_sessions) !! id = Some row /\ row_active row = true.
Proof.
  destruct (gateway "" ∅ healthy true mgr px (forged ∅) 1 1 1 1 ex0 two_sessions) as [[[p' w] [o|]] db'] eqn:E;
    [|exfalso; vm_compute in E; discriminate E].
  exists p', w, o, db'. split; [reflexivity|].
  destruct (gateway_forwards_only_live_sessions "" ∅ healthy true mgr px (forged ∅) 1 1 1 1 ex0 two_sessions
    p' w o db' E) as (rule & Hm & Hr).
  assert (RequireAuth rule = true) as Ha by (vm_compute in Hm; injection Hm as <-; reflexivity).
  exists rule. split; [exact Hm|]. split; [exact Ha|].
  destruct (Hr Ha) as (token & id & row & H1 & H2 & H3 & _). exists token, id, row. split; [exact H1|split; [exact H2|exact H3]].
Defined.

(** ** Behaviours worth knowing *)

(** The reverse proxy removes the headers the client names in [Connection]
    after the Director has set them: a client can make the gateway send its
    authenticated request without the injected identity headers. *)
Lemma connection_header_drops_identity :
  match ServeHTTP "" ∅ healthy px (forged (Header_Set ∅ "Connection" "x-aegion-identity-id, X-Aegion-Signature"))
          (Some some_session) ex0 with
  | (_, _, Some o) =>
      Header_Get (GoHttp.Header (out_req o)) "X-Aegion-Identity-ID" = "" /\
      Header_Get (GoHttp.Header (out_req o)) "X-Aegion-Signature" = "" /\
      Header_Get (GoHttp.Header (out_req o)) "X-Aegion-Session-ID" = "111"
  | _ => False
  end.
Proof. vm_compute. by split_and!. Qed.

(** The peer's address is put in X-Forwarded-For by the Director and once more
    by the reverse proxy. *)
Lemma forwarded_for_names_peer_twice :
  match ServeHTTP "" ∅ healthy px (forged ∅) (Some some_session) ex0 with
  | (_, _, Some o) => Header_Get (GoHttp.Header (out_req o)) "X-Forwarded-For" = "10.0.0.1, 10.0.0.1"
  | _ => False
  end.
Proof. vm_compute. reflexivity. Qed.

(** An upstream's own 5xx response is passed on to the client, and the
    gateway's error document is written after it. *)
Lemma upstream_5xx_gets_two_bodies :
  match ServeHTTP "" ∅ (fun _ => Reply 503 "busy") px (forged ∅) (Some some_session) ex0 with
  | (_, w, _) => rw_status w = Some 503%Z /\
                 rw_body w = [Upstream_body "busy"; Error_json 502 "Upstream error" "72"]
  end.
Proof. vm_compute. by split. Qed.
End ProxyWitness.
