(* ===== verification/EventBus.v ===== *)
(** core/eventbus/eventbus.go: the event bus over the tables
    [core_event_bus_events] and [core_event_bus_deliveries]
    (core/migrations/0005_core_audit_events.up.sql).

    A handler is the function of its verdict: [None] for success or the error
    it reports.  [NOW()] is [dbnow]; the identifiers PostgreSQL generates for
    delivery rows are arguments. *)

From Stdlib Require Import Ascii String.
From S2P Require Import Prelude GoStrings Flows.

Local Open Scope string_scope.

Inductive bus_error : Type :=
| errDatabaseUnavailable
| ErrEventJSON
| BusDb (e : db_error).
#[global] Instance bus_dberr : DbErr bus_error := BusDb.

(** A nil map is [None]. *)
Abbreviation json_map := (option (gmap string any)) (only parsing).

Record Event : Type := {
  ev_ID : uuid;
  ev_Type : string;
  SourceModule : string;
  EntityType : string;
  EntityID : string;
  ev_IdentityID : option uuid;
  ev_Payload : json_map;
  Metadata : json_map;
  OccurredAt : time;
}.

Abbreviation DeliveryStatus := string (only parsing).
Definition DeliveryPending : DeliveryStatus := "pending".
Definition DeliveryDelivered : DeliveryStatus := "delivered".
Definition DeliveryFailed : DeliveryStatus := "failed".
Definition DeliveryDeadLettered : DeliveryStatus := "dead_lettered".

Abbreviation Handler := (Event -> option string) (only parsing).

Record Subscription : Type := {
  sub_ID : string;
  Subscriber : string;
  EventTypes : list string;
  sub_Handler : Handler;
}.

Record Bus : Type := {
  b_db : bool;
  subscriptions : gmap string (list Subscription);
  maxRetries : Z;
  retryDelay : duration;
  batchSize : Z;
}.

Definition defaultBatchSize : Z := 100.
Definition maxBatchSize : Z := 1000.

Definition New (hasDB : bool) (MaxRetries : Z) (RetryDelay : duration) (BatchSize : Z) : Bus :=
  {| b_db := hasDB; subscriptions := ∅;
     maxRetries := if (MaxRetries =? 0)%Z then 3%Z else MaxRetries;
     retryDelay := if (RetryDelay =? 0)%Z then second else RetryDelay;
     batchSize := if (BatchSize <=? 0)%Z then defaultBatchSize
                  else if (maxBatchSize <? BatchSize)%Z then maxBatchSize else BatchSize |}.

Definition with_subscriptions (b : Bus) (s : gmap string (list Subscription)) : Bus :=
  {| b_db := b_db b; subscriptions := s; maxRetries := maxRetries b; retryDelay := retryDelay b;
     batchSize := batchSize b |}.

(** ** Subscriptions *)

Definition subs_of (s : gmap string (list Subscription)) (eventType : string) : list Subscription :=
  default [] (s !! eventType).

Definition Subscribe (b : Bus) (subscriber : string) (eventTypes : list string) (handler : Handler)
    (newID : string) : Subscription * Bus :=
  let sub := {| sub_ID := newID; Subscriber := subscriber; EventTypes := eventTypes; sub_Handler := handler |} in
  (sub, with_subscriptions b
     (fold_left (fun s t => <[t := (subs_of s t ++ [sub])%list]> s) eventTypes (subscriptions b))).

(** The first subscription with the identifier is removed. *)
Fixpoint remove_sub (id : string) (l : list Subscription) : list Subscription :=
  match l with
  | [] => []
  | s :: l' => if String.eqb (sub_ID s) id then l' else s :: remove_sub id l'
  end.

Definition Unsubscribe (b : Bus) (sub : Subscription) : Bus :=
  with_subscriptions b
    (fold_left (fun s t =>
       match s !! t with
       | Some l => <[t := remove_sub (sub_ID sub) l]> s
       | None => s
       end) (EventTypes sub) (subscriptions b)).

(** The handler of a subscriber: that of its first subscription found; [order]
    is the order in which the map is ranged over. *)
Definition handler_for (b : Bus) (order : list string) (subscriber : string) : option Handler :=
  sub_Handler <$> List.find (fun s => String.eqb (Subscriber s) subscriber)
                    (concat (map (subs_of (subscriptions b)) order)).

(** ** Tables *)

(** The package [encoding/json] on [map[string]interface{}]. *)
Class EventJson := {
  ejson : Type;
  map_Marshal : json_map -> option ejson;
  map_Unmarshal : ejson -> option json_map;
}.

Section eventbus.
Context `{EventJson}.

Record event_row : Type := {
  er_type : string;
  er_source : string;
  er_entity_type : string;
  er_entity_id : string;
  er_identity : option uuid;
  er_payload : ejson;
  er_metadata : ejson;
  er_occurred : time;
}.

Record delivery_row : Type := {
  dr_event : uuid;
  dr_subscriber : string;
  dr_status : DeliveryStatus;
  dr_attempts : Z;
  dr_error : option string;
  dr_next_retry : option time;
  dr_delivered : option time;
}.

Record bus_db : Type := {
  t_events : gmap N event_row;
  t_deliveries : gmap N delivery_row;
}.
Definition with_deliveries (db : bus_db) (ds : gmap N delivery_row) : bus_db :=
  {| t_events := t_events db; t_deliveries := ds |}.

Abbreviation BM := (M bus_db bus_error).

Definition bus_stmt {A} (b : Bus) (s : bus_db -> result db_error (A * bus_db)) : BM A :=
  if b_db b then db_stmt s else throw errDatabaseUnavailable.
Definition bus_tx {A} (b : Bus) (body : BM A) : BM A :=
  if b_db b then db_tx body else throw errDatabaseUnavailable.

Definition insert_event (id : uuid) (row : event_row) (db : bus_db) : result db_error (unit * bus_db) :=
  if bool_decide (is_Some (t_events db !! id)) then Err (UniqueViolation "core_event_bus_events_pkey")
  else Ok (tt, {| t_events := <[id := row]> (t_events db); t_deliveries := t_deliveries db |}).

Definition pending_delivery (event : uuid) (subscriber : string) (dbnow : time) : delivery_row :=
  {| dr_event := event; dr_subscriber := subscriber; dr_status := "pending"; dr_attempts := 0;
     dr_error := None; dr_next_retry := Some dbnow; dr_delivered := None |}.

Definition insert_delivery (id : uuid) (row : delivery_row) (db : bus_db) : result db_error (unit * bus_db) :=
  if negb (bool_decide (is_Some (t_events db !! dr_event row)))
  then Err (ForeignKeyViolation "core_event_bus_deliveries_event_id_fkey")
  else if bool_decide (is_Some (t_deliveries db !! id)) then Err (UniqueViolation "core_event_bus_deliveries_pkey")
  else Ok (tt, with_deliveries db (<[id := row]> (t_deliveries db))).

(** ** Publishing *)

(** Identifier, time and metadata are filled in. *)
Definition prepare (event : Event) (newID : uuid) (now : time) : Event :=
  {| ev_ID := if (ev_ID event =? uuid_Nil)%N then newID else ev_ID event; ev_Type := ev_Type event;
     SourceModule := SourceModule event; EntityType := EntityType event; EntityID := EntityID event;
     ev_IdentityID := ev_IdentityID event; ev_Payload := ev_Payload event;
     Metadata := match Metadata event with None => Some ∅ | m => m end;
     OccurredAt := if (OccurredAt event =? time_zero)%Z then now else OccurredAt event |}.

Definition row_of_event (e : Event) (payload metadata : ejson) : event_row :=
  {| er_type := ev_Type e; er_source := SourceModule e; er_entity_type := EntityType e; er_entity_id := EntityID e;
     er_identity := ev_IdentityID e; er_payload := payload; er_metadata := metadata; er_occurred := OccurredAt e |}.

(** One delivery row per subscription; [ids] are the generated keys. *)
Fixpoint insert_deliveries (event : uuid) (subs : list Subscription) (ids : nat -> uuid) (dbnow : time) : BM unit :=
  match subs with
  | [] => mret tt
  | sub :: subs' =>
      _ ← db_stmt (insert_delivery (ids O) (pending_delivery event (Subscriber sub) dbnow));
      insert_deliveries event subs' (fun i => ids (S i)) dbnow
  end.

Definition Publish (b : Bus) (event : Event) (newID : uuid) (now : time) (ids : nat -> uuid) (dbnow : time) : BM unit :=
  let event := prepare event newID now in
  payload ← lift_result (result_of_option ErrEventJSON (map_Marshal (ev_Payload event)));
  metadata ← lift_result (result_of_option ErrEventJSON (map_Marshal (Metadata event)));
  bus_tx b
    (_ ← db_stmt (insert_event (ev_ID event) (row_of_event event payload metadata));
     insert_deliveries (ev_ID event) (subs_of (subscriptions b) (ev_Type event)) ids dbnow).

(** ** Processing *)

Definition due (subscriber : string) (dbnow : time) (row : delivery_row) : bool :=
  String.eqb (dr_subscriber row) subscriber &&
  (String.eqb (dr_status row) "pending" || String.eqb (dr_status row) "failed") &&
  match dr_next_retry row with Some t => (t <=? dbnow)%Z | None => false end.

Fixpoint insert_by_occurred (x : N * delivery_row * event_row) (l : list (N * delivery_row * event_row))
    : list (N * delivery_row * event_row) :=
  match l with
  | [] => [x]
  | y :: ys => if (er_occurred x.2 <? er_occurred y.2)%Z then x :: l else y :: insert_by_occurred x ys
  end.

(** The join with the events, in order of occurrence, up to the batch size. *)
Definition select_due (b : Bus) (subscriber : string) (dbnow : time) (db : bus_db)
    : list (N * delivery_row * event_row) :=
  take (Z.to_nat (batchSize b))
    (fold_left (fun acc x => insert_by_occurred x acc)
       (omap (fun p => (fun e => (p.1, p.2, e)) <$> t_events db !! dr_event p.2)
          (List.filter (fun p => due subscriber dbnow p.2) (map_to_list (t_deliveries db)))) []).

Definition set_status (row : delivery_row) (st : DeliveryStatus) (n : Z) (err : option string)
    (next : option time) (delivered : option time) : delivery_row :=
  {| dr_event := dr_event row; dr_subscriber := dr_subscriber row; dr_status := st; dr_attempts := n;
     dr_error := err; dr_next_retry := next; dr_delivered := delivered |}.

Definition update_delivery (id : uuid) (f : delivery_row -> delivery_row) (db : bus_db)
    : result db_error (unit * bus_db) :=
  Ok (tt, with_deliveries db (alter f id (t_deliveries db))).

(** The error of the statement is ignored. *)
Definition ignore_error (m : BM unit) : BM unit := M_try m (fun _ => mret tt).

Definition markDelivered (b : Bus) (id : uuid) (dbnow : time) : BM unit :=
  ignore_error (bus_stmt b (update_delivery id (fun row =>
    set_status row "delivered" (dr_attempts row) (dr_error row) (dr_next_retry row) (Some dbnow)))).

(** [b.retryDelay * time.Duration(1<<uint(attemptCount))], at 64 bits. *)
Definition backoff (b : Bus) (attempt : Z) : duration :=
  wrap64 (retryDelay b * wrap64 (if (attempt <? 64)%Z then Z.shiftl 1 attempt else 0)).

Definition markFailed (b : Bus) (id : uuid) (attemptCount : Z) (err : string) (now : time) : BM unit :=
  let attemptCount := (attemptCount + 1)%Z in
  if (maxRetries b <=? attemptCount)%Z then
    ignore_error (bus_stmt b (update_delivery id (fun row =>
      set_status row "dead_lettered" attemptCount (Some err) (dr_next_retry row) (dr_delivered row))))
  else
    ignore_error (bus_stmt b (update_delivery id (fun row =>
      set_status row "failed" attemptCount (Some err) (Some (time_add now (backoff b attemptCount))) (dr_delivered row)))).

Definition event_of_row (id : uuid) (row : event_row) (payload metadata : json_map) : Event :=
  {| ev_ID := id; ev_Type := er_type row; SourceModule := er_source row; EntityType := er_entity_type row;
     EntityID := er_entity_id row; ev_IdentityID := er_identity row; ev_Payload := payload; Metadata := metadata;
     OccurredAt := er_occurred row |}.

(** Processes the selected rows; the result is the events given to the handler. *)
Fixpoint process_rows (b : Bus) (handler : Handler) (rows : list (N * delivery_row * event_row))
    (now : nat -> time) (dbnow : time) : BM (list Event) :=
  match rows with
  | [] => mret []
  | (id, d, e) :: rows' =>
      let next := process_rows b handler rows' (fun i => now (S i)) dbnow in
      match map_Unmarshal (er_payload e) with
      | None => _ ← markFailed b id (dr_attempts d) "invalid payload JSON" (now O); next
      | Some payload =>
          match map_Unmarshal (er_metadata e) with
          | None => _ ← markFailed b id (dr_attempts d) "invalid metadata JSON" (now O); next
          | Some metadata =>
              let event := event_of_row (dr_event d) e payload metadata in
              _ ← match handler event with
                  | Some err => markFailed b id (dr_attempts d) err (now O)
                  | None => markDelivered b id dbnow
                  end;
              handled ← next;
              mret (event :: handled)
          end
      end
  end.

Definition ProcessPending (b : Bus) (order : list string) (subscriber : string) (now : nat -> time) (dbnow : time)
    : BM (list Event) :=
  match handler_for b order subscriber with
  | None => mret []
  | Some handler =>
      rows ← bus_stmt b (fun db => Ok (select_due b subscriber dbnow db, db));
      process_rows b handler rows now dbnow
  end.

(** ** Clean-up *)

Definition open_delivery (row : delivery_row) : bool :=
  String.eqb (dr_status row) "pending" || String.eqb (dr_status row) "failed".

(** Old events without an open delivery. *)
Definition removable (cutoff : time) (db : bus_db) (id : uuid) (row : event_row) : bool :=
  (er_occurred row <? cutoff)%Z &&
  negb (existsb (fun p => (dr_event p.2 =? id)%N && open_delivery p.2) (map_to_list (t_deliveries db))).

(** [DELETE]: deliveries reference their event without a cascade, so that the
    statement fails when a removed event still has a delivery. *)
Definition delete_events (p : uuid -> event_row -> bool) (db : bus_db) : result db_error (Z * bus_db) :=
  let kept := filter (fun '(id, row) => p id row = false) (t_events db) in
  if forallb (fun d => bool_decide (is_Some (kept !! dr_event d.2)))
       (List.filter (fun d => bool_decide (is_Some (t_events db !! dr_event d.2))) (map_to_list (t_deliveries db)))
  then Ok (Z.of_nat (size (t_events db) - size kept), {| t_events := kept; t_deliveries := t_deliveries db |})
  else Err (ForeignKeyViolation "core_event_bus_deliveries_event_id_fkey").

Definition Cleanup (b : Bus) (olderThan : duration) (now : time) : BM Z :=
  bus_stmt b (fun db => delete_events (removable (time_add now (- olderThan)) db) db).
End eventbus.

(** ** Common events *)

Section common.
Context `{EventJson} `{UuidText}.

Definition EventIdentityCreated : string := "identity.created".
Definition EventLoginSucceeded : string := "login.succeeded".
Definition EventLoginFailed : string := "login.failed".

Definition make_event (t source etype eid : string) (identity : option uuid) (payload : gmap string any) : Event :=
  {| ev_ID := uuid_Nil; ev_Type := t; SourceModule := source; EntityType := etype; EntityID := eid;
     ev_IdentityID := identity; ev_Payload := Some payload; Metadata := None; OccurredAt := time_zero |}.

Definition PublishIdentityCreated (b : Bus) (identityID : uuid) (source : string)
    (newID : uuid) (now : time) (ids : nat -> uuid) (dbnow : time) : M bus_db bus_error unit :=
  Publish b (make_event EventIdentityCreated source "identity" (uuid_string identityID) (Some identityID)
    {[ "identity_id" := AStr (uuid_string identityID) ]}) newID now ids dbnow.

Definition PublishLoginSucceeded (b : Bus) (identityID sessionID : uuid) (method source : string)
    (newID : uuid) (now : time) (ids : nat -> uuid) (dbnow : time) : M bus_db bus_error unit :=
  Publish b (make_event EventLoginSucceeded source "session" (uuid_string sessionID) (Some identityID)
    (<["identity_id" := AStr (uuid_string identityID)]>
     (<["session_id" := AStr (uuid_string sessionID)]> {[ "method" := AStr method ]}))) newID now ids dbnow.

Definition PublishLoginFailed (b : Bus) (identifier reason source : string) (identityID : option uuid)
    (newID : uuid) (now : time) (ids : nat -> uuid) (dbnow : time) : M bus_db bus_error unit :=
  Publish b (make_event EventLoginFailed source "login_attempt" "" identityID
    (<["identifier" := AStr identifier]> {[ "reason" := AStr reason ]})) newID now ids dbnow.
End common.
