(* ===== verification/EventBusFacts.v ===== *)
(** Theorems about the event bus: publishing is all or nothing, deliveries
    follow their life cycle, and what the clean-up can remove. *)

From Stdlib Require Import Ascii String.
From S2P Require Import Prelude GoStrings Flows EventBus.

Local Open Scope string_scope.

Section facts.
Context `{EventJson}.

(** ** Publishing *)

(** The rows the deliveries of an event add. *)
Fixpoint added (event : uuid) (subs : list Subscription) (ids : nat -> uuid) (dbnow : time)
    (ds : gmap N delivery_row) : gmap N delivery_row :=
  match subs with
  | [] => ds
  | sub :: subs' =>
      added event subs' (fun i => ids (S i)) dbnow (<[ids O := pending_delivery event (Subscriber sub) dbnow]> ds)
  end.

(** Every inserted key was new. *)
Fixpoint fresh_keys (subs : list Subscription) (ids : nat -> uuid) (event : uuid) (dbnow : time)
    (ds : gmap N delivery_row) : Prop :=
  match subs with
  | [] => True
  | sub :: subs' =>
      ds !! ids O = None /\
      fresh_keys subs' (fun i => ids (S i)) event dbnow
        (<[ids O := pending_delivery event (Subscriber sub) dbnow]> ds)
  end.

Lemma insert_deliveries_ok event subs ids dbnow w w' :
  insert_deliveries event subs ids dbnow w = (Ok tt, w') ->
  t_events (w_db w') = t_events (w_db w) /\
  t_deliveries (w_db w') = added event subs ids dbnow (t_deliveries (w_db w)) /\
  fresh_keys subs ids event dbnow (t_deliveries (w_db w)).
Proof.
  revert ids w. induction subs as [|sub subs IH]; intros ids w; simpl; [by intros [= <-]|].
  rewrite M_bind_ok. intros ([] & w1 & E & Hrest). apply IH in Hrest as (He & Hd & Hf).
  apply db_stmt_cases in E as [([] & _ & E)|(? & [=] & _)]. unfold insert_delivery in E.
  destruct (negb _); [done|]. case_bool_decide as Hx; [done|]. injection E as E.
  rewrite <- E in He, Hd, Hf. simpl in *. apply eq_None_not_Some in Hx. done.
Qed.

Lemma added_lookup_new event subs ids dbnow ds :
  fresh_keys subs ids event dbnow ds ->
  (forall i sub, subs !! i = Some sub ->
     added event subs ids dbnow ds !! ids i = Some (pending_delivery event (Subscriber sub) dbnow) /\ ds !! ids i = None) /\
  (forall k, (forall i, i < length subs -> ids i <> k) -> added event subs ids dbnow ds !! k = ds !! k).
Proof.
  revert ids ds. induction subs as [|sub subs IH]; intros ids ds; simpl; [naive_solver lia|].
  intros [Hn Hf]. destruct (IH _ _ Hf) as [H1 H2]. split.
  - intros [|i] sub' Hs; simpl in Hs.
    + injection Hs as <-. split; [|done]. rewrite H2; [apply lookup_insert_eq|].
      intros i Hi E. destruct (lookup_lt_is_Some_2 subs i Hi) as [s Hl].
      apply H1 in Hl as [_ Hl]. rewrite E, lookup_insert_eq in Hl. done.
    + apply H1 in Hs as [Ha Hb]. split; [done|]. destruct (decide (ids O = ids (S i))) as [E|E].
      * rewrite <- E in Hb. by rewrite lookup_insert_eq in Hb.
      * by rewrite lookup_insert_ne in Hb.
  - intros k Hk. rewrite H2; [|intros i Hi; apply (Hk (S i)); lia].
    apply lookup_insert_ne. apply (Hk 0). lia.
Qed.

Lemma bus_tx_cases {A} b (body : M bus_db bus_error A) w r w' :
  bus_tx b body w = (r, w') ->
  (exists e, r = Err e /\ w_db w' = w_db w) \/
  (exists a w1 w2, r = Ok a /\ w_db w1 = w_db w /\ body w1 = (Ok a, w2) /\ w_db w' = w_db w2).
Proof.
  unfold bus_tx. destruct (b_db b); [|intros [= <- <-]; eauto].
  destruct r as [a|e]; [|intros E; left; apply db_tx_atomic in E; eauto].
  unfold db_tx. destruct (db_stmt _ w) as [[[]|] w1] eqn:E1; [|done].
  destruct (body w1) as [[a'|] w2] eqn:E2; [|done].
  destruct (db_stmt _ w2) as [[[]|] w3] eqn:E3; [|done]. intros [= -> ->]. right.
  apply db_stmt_cases in E1, E3. exists a, w1, w2. naive_solver.
Qed.

Lemma Publish_cases b event newID now ids dbnow w r w' :
  Publish b event newID now ids dbnow w = (r, w') ->
  let e := prepare event newID now in
  let subs := subs_of (subscriptions b) (ev_Type event) in
  (exists err, r = Err err /\ w_db w' = w_db w) \/
  (r = Ok tt /\ t_events (w_db w) !! ev_ID e = None /\
   (exists p m, t_events (w_db w') = <[ev_ID e := row_of_event e p m]> (t_events (w_db w))) /\
   (forall i sub, subs !! i = Some sub ->
      t_deliveries (w_db w') !! ids i = Some (pending_delivery (ev_ID e) (Subscriber sub) dbnow) /\
      t_deliveries (w_db w) !! ids i = None) /\
   (forall k, (forall i, i < length subs -> ids i <> k) -> t_deliveries (w_db w') !! k = t_deliveries (w_db w) !! k)).
Proof.
  intros Hp e subs. unfold Publish, lift_result in Hp. rewrite M_bind_run in Hp. fold e in Hp.
  destruct (map_Marshal (ev_Payload e)) as [p|]; cbn [result_of_option] in Hp; [|left; injection Hp as <- <-; eauto].
  rewrite M_bind_run in Hp. destruct (map_Marshal (Metadata e)) as [m|]; cbn [result_of_option] in Hp; [|left; injection Hp as <- <-; eauto].
  apply bus_tx_cases in Hp as [?|(a & w1 & w2 & -> & Hw1 & Hbody & Hw')]; [by left|right].
  destruct a. rewrite M_bind_ok in Hbody. destruct Hbody as ([] & w3 & E & Hins).
  apply insert_deliveries_ok in Hins as (He & Hd & Hf).
  apply db_stmt_cases in E as [([] & _ & E)|(? & [=] & _)]. unfold insert_event in E.
  case_bool_decide as Hx; [done|]. injection E as E. rewrite <- E, Hw1 in He, Hd, Hf. rewrite Hw1 in Hx. simpl in *.
  rewrite Hw', He, Hd. apply added_lookup_new in Hf as [H1 H2]. apply eq_None_not_Some in Hx.
  split_and!; [done|done|by eexists _, _|exact H1|exact H2].
Qed.

(** C26: Publishing is all or nothing, whatever fails: an error leaves both
    tables as they were; on success the event is stored under a new key, every
    subscription to its type has exactly one new delivery, pending and due
    now, and no other delivery is touched. *)
Theorem publish_all_or_nothing b event newID now ids dbnow w r w' :
  Publish b event newID now ids dbnow w = (r, w') ->
  let e := prepare event newID now in
  let subs := subs_of (subscriptions b) (ev_Type event) in
  (exists err, r = Err err /\ w_db w' = w_db w) \/
  (r = Ok tt /\ t_events (w_db w) !! ev_ID e = None /\
   (exists p m, t_events (w_db w') = <[ev_ID e := row_of_event e p m]> (t_events (w_db w))) /\
   (forall i sub, subs !! i = Some sub ->
      t_deliveries (w_db w') !! ids i = Some (pending_delivery (ev_ID e) (Subscriber sub) dbnow) /\
      t_deliveries (w_db w) !! ids i = None) /\
   (forall k, (forall i, i < length subs -> ids i <> k) -> t_deliveries (w_db w') !! k = t_deliveries (w_db w) !! k)).
Proof. apply Publish_cases. Qed.

(** ** The life cycle of a delivery *)

(** One step of a delivery: it is created pending; an open one is delivered,
    or fails and is retried while attempts remain, or is dead-lettered. *)
Inductive delivery_step (max : Z) : option delivery_row -> option delivery_row -> Prop :=
| DStay o : delivery_step max o o
| DNew e s t : delivery_step max None (Some (pending_delivery e s t))
| DDelivered d t : open_delivery d = true ->
    delivery_step max (Some d) (Some (set_status d "delivered" (dr_attempts d) (dr_error d) (dr_next_retry d) (Some t)))
| DRetry d err t : open_delivery d = true -> (dr_attempts d + 1 < max)%Z ->
    delivery_step max (Some d) (Some (set_status d "failed" (dr_attempts d + 1) (Some err) (Some t) (dr_delivered d)))
| DDead d err : open_delivery d = true -> (max <= dr_attempts d + 1)%Z ->
    delivery_step max (Some d) (Some (set_status d "dead_lettered" (dr_attempts d + 1) (Some err) (dr_next_retry d) (dr_delivered d))).

Lemma ignore_update b id f w :
  let w' := (ignore_error (bus_stmt b (update_delivery id f)) w).2 in
  (ignore_error (bus_stmt b (update_delivery id f)) w).1 = Ok tt /\
  (w_db w' = w_db w \/ w_db w' = with_deliveries (w_db w) (alter f id (t_deliveries (w_db w)))).
Proof.
  unfold ignore_error, M_try, bus_stmt. destruct (b_db b); [|by split; [|left]].
  destruct (db_stmt _ w) as [r w1] eqn:E. simpl. split; [done|].
  apply db_stmt_cases in E as [(a & -> & E)|(e & -> & E)]; [right; by injection E|by left].
Qed.

(** What processing does to the row of a delivery. *)
Definition row_mark (b : Bus) (handler : Handler) (x : N * delivery_row * event_row) (now dbnow : time)
    : M bus_db bus_error unit :=
  let '(id, d, e) := x in
  match map_Unmarshal (er_payload e) with
  | None => markFailed b id (dr_attempts d) "invalid payload JSON" now
  | Some payload =>
      match map_Unmarshal (er_metadata e) with
      | None => markFailed b id (dr_attempts d) "invalid metadata JSON" now
      | Some metadata =>
          match handler (event_of_row (dr_event d) e payload metadata) with
          | Some err => markFailed b id (dr_attempts d) err now
          | None => markDelivered b id dbnow
          end
      end
  end.

(** It is one update, whose failure is ignored. *)
Lemma row_mark_update b handler x now dbnow :
  exists f, row_mark b handler x now dbnow = ignore_error (bus_stmt b (update_delivery x.1.1 f)) /\
    (open_delivery x.1.2 = true -> delivery_step (maxRetries b) (Some x.1.2) (Some (f x.1.2))).
Proof.
  destruct x as [[id d] e]; simpl.
  assert (forall err, exists f, markFailed b id (dr_attempts d) err now = ignore_error (bus_stmt b (update_delivery id f)) /\
    (open_delivery d = true -> delivery_step (maxRetries b) (Some d) (Some (f d)))) as Hf.
  { intros err. unfold markFailed. destruct (Z.leb_spec (maxRetries b) (dr_attempts d + 1));
      (eexists; split; [reflexivity|by constructor]). }
  destruct (map_Unmarshal (er_payload e)); [|apply Hf]. destruct (map_Unmarshal (er_metadata e)); [|apply Hf].
  destruct (handler _); [apply Hf|]. unfold markDelivered. eexists; split; [reflexivity|by constructor].
Qed.

Lemma process_rows_cons b handler x rows now dbnow w :
  (process_rows b handler (x :: rows) now dbnow w).2 =
  (process_rows b handler rows (fun i => now (S i)) dbnow (row_mark b handler x (now O) dbnow w).2).2.
Proof.
  destruct (row_mark_update b handler x (now O) dbnow) as (f & Hf & _).
  pose proof (proj1 (ignore_update b x.1.1 f w)) as Hok. rewrite <- Hf in Hok.
  destruct x as [[id d] e]. cbn [process_rows]. unfold row_mark in *.
  destruct (map_Unmarshal (er_payload e)) as [p|].
  2:{ rewrite M_bind_run. destruct (markFailed _ _ _ _ _ w) as [r w1]; simpl in *. by subst r. }
  destruct (map_Unmarshal (er_metadata e)) as [m|].
  2:{ rewrite M_bind_run. destruct (markFailed _ _ _ _ _ w) as [r w1]; simpl in *. by subst r. }
  rewrite M_bind_run. set (mk := match handler _ with Some _ => _ | None => _ end) in *.
  destruct (mk w) as [r w1]; simpl in *. subst r.
  rewrite M_bind_run. by destruct (process_rows b handler rows _ dbnow w1) as [[evs|] w2].
Qed.

Lemma row_mark_other b handler x now dbnow w i :
  i <> x.1.1 -> t_deliveries (w_db (row_mark b handler x now dbnow w).2) !! i = t_deliveries (w_db w) !! i.
Proof.
  intros Hi. destruct (row_mark_update b handler x now dbnow) as (f & -> & _).
  destruct (ignore_update b x.1.1 f w) as [_ [->| ->]]; [done|]. simpl. by apply lookup_alter_ne.
Qed.

Lemma row_mark_step b handler x now dbnow w :
  t_deliveries (w_db w) !! x.1.1 = Some x.1.2 -> open_delivery x.1.2 = true ->
  delivery_step (maxRetries b) (Some x.1.2) (t_deliveries (w_db (row_mark b handler x now dbnow w).2) !! x.1.1).
Proof.
  intros Hd Ho. destruct (row_mark_update b handler x now dbnow) as (f & -> & Hs).
  destruct (ignore_update b x.1.1 f w) as [_ [->| ->]]; simpl.
  - rewrite Hd. constructor.
  - rewrite lookup_alter_eq, Hd. by apply Hs.
Qed.

Lemma process_rows_other b handler rows now dbnow w i :
  i ∉ map (fun x => x.1.1) rows ->
  t_deliveries (w_db (process_rows b handler rows now dbnow w).2) !! i = t_deliveries (w_db w) !! i.
Proof.
  revert now w. induction rows as [|x rows IH]; intros now w Hi; [done|]. rewrite process_rows_cons.
  apply not_elem_of_cons in Hi as [Hx Hi]. rewrite IH by done. by apply row_mark_other.
Qed.

Lemma process_rows_steps b handler rows now dbnow w i :
  NoDup (map (fun x => x.1.1) rows) ->
  (forall x, x ∈ rows -> t_deliveries (w_db w) !! x.1.1 = Some x.1.2 /\ open_delivery x.1.2 = true) ->
  delivery_step (maxRetries b) (t_deliveries (w_db w) !! i)
    (t_deliveries (w_db (process_rows b handler rows now dbnow w).2) !! i).
Proof.
  revert now w. induction rows as [|x rows IH]; intros now w Hnd Hrows; [constructor|].
  cbn [map] in Hnd. apply NoDup_cons in Hnd as [Hni Hnd]. rewrite process_rows_cons.
  destruct (Hrows x ltac:(left)) as [Hd Ho].
  destruct (decide (i = x.1.1)) as [->|Hne].
  - rewrite process_rows_other by done. rewrite Hd. by apply row_mark_step.
  - rewrite <- (row_mark_other b handler x (now O) dbnow w i Hne). apply IH; [done|].
    intros y Hy. destruct (Hrows y ltac:(by right)) as [Hd' Ho']. split; [|done].
    rewrite row_mark_other; [done|]. intros E. apply Hni. rewrite <- E.
    apply list_elem_of_In, in_map_iff. exists y. split; [done|]. by apply list_elem_of_In.
Qed.

(** The selected rows are open deliveries, each once. *)
Lemma insert_by_occurred_perm x l : insert_by_occurred x l ≡ₚ x :: l.
Proof. induction l as [|y l IH]; simpl; [done|]. case_match; [done|]. rewrite IH. apply Permutation_swap. Qed.

Lemma NoDup_map_filter {A B} (f : A -> B) (p : A -> bool) l : NoDup (map f l) -> NoDup (map f (List.filter p l)).
Proof.
  induction l as [|x l IH]; simpl; [done|]. intros [Hx Hl]%NoDup_cons. case_match; [|by apply IH].
  constructor; [|by apply IH]. intros Hin. apply Hx.
  apply list_elem_of_In, in_map_iff in Hin as (y & Hy & Hin). apply filter_In in Hin as [Hin _].
  apply list_elem_of_In, in_map_iff. eauto.
Qed.

Lemma NoDup_joined (events : gmap N event_row) (ds : list (N * delivery_row)) :
  NoDup (map fst ds) ->
  NoDup (map (fun x => x.1.1) (omap (fun p => (fun e => (p.1, p.2, e)) <$> events !! dr_event p.2) ds)).
Proof.
  induction ds as [|y ys IH]; simpl; [done|]. intros [Hy Hys]%NoDup_cons.
  destruct (events !! dr_event y.2); simpl; [|by apply IH]. constructor; [|by apply IH].
  intros Hin. apply Hy. rewrite list_elem_of_In, in_map_iff in Hin. destruct Hin as (z & Hz & Hz').
  rewrite <- list_elem_of_In, list_elem_of_omap in Hz'. destruct Hz' as (q & Hq & Hq').
  destruct (events !! dr_event q.2); simpl in Hq'; [|done]. injection Hq' as <-. simpl in Hz.
  rewrite list_elem_of_In, in_map_iff. exists q. split; [done|]. by apply list_elem_of_In.
Qed.

Lemma select_due_spec b subscriber dbnow db :
  NoDup (map (fun x => x.1.1) (select_due b subscriber dbnow db)) /\
  forall x, x ∈ select_due b subscriber dbnow db ->
    t_deliveries db !! x.1.1 = Some x.1.2 /\ open_delivery x.1.2 = true.
Proof.
  unfold select_due. set (l := omap _ _).
  assert (forall acc, fold_left (fun acc x => insert_by_occurred x acc) l acc ≡ₚ l ++ acc) as Hperm.
  { induction l as [|y l' IH]; intros acc; simpl; [done|]. rewrite IH, insert_by_occurred_perm. by rewrite Permutation_middle. }
  specialize (Hperm []). rewrite app_nil_r in Hperm.
  assert (NoDup (map (fun x => x.1.1) l)) as Hnd.
  { subst l. clear Hperm. apply NoDup_joined, NoDup_map_filter. apply (NoDup_fst_map_to_list (t_deliveries db)). }
  split.
  - rewrite <- Hperm in Hnd. eapply sublist_NoDup; [exact Hnd|]. apply (fmap_sublist (fun x => x.1.1)), sublist_take.
  - intros x Hx. apply elem_of_take in Hx as (i & Hx & _). apply list_elem_of_lookup_2 in Hx. rewrite Hperm in Hx.
    subst l. rewrite list_elem_of_omap in Hx. destruct Hx as (q & Hq & Hq').
    destruct (t_events db !! dr_event q.2); simpl in Hq'; [|done]. injection Hq' as <-. simpl.
    rewrite list_elem_of_In, filter_In, <- list_elem_of_In in Hq. destruct Hq as [Hq Hdue].
    destruct q as [qi qd]. apply elem_of_map_to_list in Hq. split; [done|]. unfold due in Hdue. bool_to_prop. done.
Qed.

(** Uses of the bus, in any order and under any faults. *)
Inductive bus_op : Type :=
| BPublish (event : Event) (newID : uuid) (now : time) (ids : nat -> uuid) (dbnow : time)
| BProcess (order : list string) (subscriber : string) (now : nat -> time) (dbnow : time)
| BCleanup (olderThan : duration) (now : time).

Definition bus_run (b : Bus) (o : bus_op) (w : world bus_db) : world bus_db :=
  match o with
  | BPublish event newID now ids dbnow => (Publish b event newID now ids dbnow w).2
  | BProcess order subscriber now dbnow => (ProcessPending b order subscriber now dbnow w).2
  | BCleanup olderThan now => (Cleanup b olderThan now w).2
  end.
Definition bus_exec (b : Bus) (os : list bus_op) (w : world bus_db) : world bus_db :=
  fold_left (fun w o => bus_run b o w) os w.

Lemma bus_stmt_cases {A} b (q : bus_db -> result db_error (A * bus_db)) w r w' :
  bus_stmt b q w = (r, w') ->
  (exists a, r = Ok a /\ q (w_db w) = Ok (a, w_db w')) \/ (exists e, r = Err e /\ w_db w' = w_db w).
Proof. unfold bus_stmt. destruct (b_db b); [apply db_stmt_cases|]. intros [= <- <-]. eauto. Qed.

Lemma publish_step b event newID now ids dbnow w i :
  delivery_step (maxRetries b) (t_deliveries (w_db w) !! i)
    (t_deliveries (w_db (Publish b event newID now ids dbnow w).2) !! i).
Proof.
  destruct (Publish b event newID now ids dbnow w) as [r w'] eqn:E; simpl.
  apply Publish_cases in E as [(? & _ & ->)|(_ & _ & _ & Hnew & Hold)]; [constructor|].
  set (subs := subs_of _ _) in *. destruct (decide (i ∈ map ids (seq 0 (length subs)))) as [Hin|Hni].
  - apply list_elem_of_In, in_map_iff in Hin as (j & <- & Hj%in_seq).
    destruct (lookup_lt_is_Some_2 subs j ltac:(lia)) as [sub Hsub]. destruct (Hnew j sub Hsub) as [-> ->]. constructor.
  - rewrite Hold; [constructor|]. intros j Hj E. apply Hni. apply list_elem_of_In, in_map_iff. exists j.
    split; [done|]. apply in_seq. lia.
Qed.

Lemma process_step b order subscriber now dbnow w i :
  delivery_step (maxRetries b) (t_deliveries (w_db w) !! i)
    (t_deliveries (w_db (ProcessPending b order subscriber now dbnow w).2) !! i).
Proof.
  unfold ProcessPending. destruct (handler_for b order subscriber) as [handler|]; [|constructor].
  rewrite M_bind_run. destruct (bus_stmt b _ w) as [r w1] eqn:E.
  apply bus_stmt_cases in E as [(rows & -> & E)|(e & -> & E)]; [|simpl; rewrite E; constructor].
  injection E as <- Hw. rewrite Hw. destruct (select_due_spec b subscriber dbnow (w_db w1)) as [Hnd Hrows].
  by apply process_rows_steps.
Qed.

Lemma cleanup_deliveries b olderThan now w :
  t_deliveries (w_db (Cleanup b olderThan now w).2) = t_deliveries (w_db w).
Proof.
  unfold Cleanup. destruct (bus_stmt b _ w) as [r w1] eqn:E. simpl.
  apply bus_stmt_cases in E as [(n & -> & E)|(e & -> & ->)]; [|done].
  unfold delete_events in E. destruct (forallb _ _); [|done]. by injection E as _ <-.
Qed.

Lemma bus_step b o w i :
  delivery_step (maxRetries b) (t_deliveries (w_db w) !! i) (t_deliveries (w_db (bus_run b o w)) !! i).
Proof.
  destruct o; simpl; [apply publish_step|apply process_step|rewrite cleanup_deliveries; constructor].
Qed.

(** Deliveries follow their life cycle: any use of the bus takes any
    delivery along one edge of it. A delivery appears pending; only an open one
    (pending or failed) changes, at most once per pass, to delivered, to failed
    with one more attempt while attempts remain, or to dead-lettered when they
    are used up; and once delivered or dead-lettered it never changes again,
    whatever the database's failures. *)
Theorem deliveries_follow_life_cycle b os w i d :
  (forall o, delivery_step (maxRetries b) (t_deliveries (w_db w) !! i) (t_deliveries (w_db (bus_run b o w)) !! i)) /\
  (t_deliveries (w_db w) !! i = Some d -> open_delivery d = false ->
   t_deliveries (w_db (bus_exec b os w)) !! i = Some d).
Proof.
  split; [intros o; apply bus_step|]. revert w. induction os as [|o os IH]; intros w Hd Ho; [done|].
  apply (IH (bus_run b o w)); [|done]. pose proof (bus_step b o w i) as Hs. rewrite Hd in Hs.
  inversion Hs; subst; congruence.
Qed.

(** Attempts of a delivery relative to the limit. *)
Definition attempts_ok (max : Z) (d : delivery_row) : Prop :=
  (0 <= dr_attempts d <= max)%Z /\ (open_delivery d = true -> (dr_attempts d < max)%Z) /\
  (dr_status d = "dead_lettered" -> dr_attempts d = max).

Lemma attempts_ok_step max o d' :
  (0 < max)%Z -> (forall d, o = Some d -> attempts_ok max d) -> delivery_step max o (Some d') -> attempts_ok max d'.
Proof.
  intros Hmax Ho Hs. inversion Hs as [|e s t|d t Hop|d err t Hop Hlt|d err Hop Hle]; subst; [by apply Ho|..];
    unfold attempts_ok; simpl.
  - repeat split; (lia || done).
  - destruct (Ho d eq_refl) as (? & ? & ?). repeat split; (lia || done).
  - destruct (Ho d eq_refl) as (? & ? & ?). repeat split; (lia || done).
  - destruct (Ho d eq_refl) as (? & H2 & ?). specialize (H2 Hop). repeat split; (lia || done).
Qed.

(** Retries are bounded: in every state the bus can reach from empty
    tables, a delivery has made at most [maxRetries] attempts, one that is
    still open has attempts left, and one is dead-lettered only after exactly
    [maxRetries] of them. *)
Theorem retries_are_bounded b os faults i d :
  (0 < maxRetries b)%Z ->
  t_deliveries (w_db (bus_exec b os (World {| t_events := ∅; t_deliveries := ∅ |} faults))) !! i = Some d ->
  (0 <= dr_attempts d <= maxRetries b)%Z /\ (open_delivery d = true -> (dr_attempts d < maxRetries b)%Z) /\
  (dr_status d = "dead_lettered" -> dr_attempts d = maxRetries b).
Proof.
  intros Hmax. set (w := World _ faults).
  assert (forall d, t_deliveries (w_db w) !! i = Some d -> attempts_ok (maxRetries b) d) as Hw
    by (intros d0 Hd0; subst w; simpl in Hd0; by rewrite lookup_empty in Hd0).
  clearbody w. revert w Hw. induction os as [|o os IH]; intros w Hw Hd; [by apply Hw|].
  apply (IH (bus_run b o w)); [|exact Hd]. intros d1 Hd1. pose proof (bus_step b o w i) as Hs. rewrite Hd1 in Hs.
  by apply (attempts_ok_step _ _ _ Hmax Hw).
Qed.

(** ** Clean-up *)

(** The clean-up deletes the old events that have no open delivery, and
    no others, when it succeeds; but deliveries refer to their event without a
    cascade, so as soon as one of those events was ever delivered to anybody
    (its deliveries all settled) the statement violates the foreign key: the
    clean-up fails and removes nothing. *)
Theorem cleanup_blocked_by_settled_deliveries b olderThan now db :
  b_db b = true ->
  let cutoff := time_add now (- olderThan) in
  (forall n db', run (Cleanup b olderThan now) db = (Ok n, db') ->
     (forall id row, t_events db' !! id = Some row <-> t_events db !! id = Some row /\ removable cutoff db id row = false) /\
     t_deliveries db' = t_deliveries db) /\
  (forall id row i d, t_events db !! id = Some row -> removable cutoff db id row = true ->
     t_deliveries db !! i = Some d -> dr_event d = id ->
     exists e, run (Cleanup b olderThan now) db = (Err e, db)).
Proof.
  intros Hb cutoff. unfold run, Cleanup, bus_stmt. rewrite Hb. rewrite db_stmt_clean. fold cutoff.
  unfold delete_events. set (kept := filter _ (t_events db)).
  destruct (forallb _ _) eqn:Hf.
  - split.
    + intros n db' [= <- <-]. simpl. split; [|done]. intros id row. subst kept. by rewrite map_lookup_filter_Some.
    + intros id row i d He Hr Hd <-. exfalso. rewrite forallb_forall in Hf.
      specialize (Hf (i, d)). rewrite bool_decide_eq_true in Hf. destruct Hf as [row' Hk].
      * apply filter_In. split; [by apply list_elem_of_In, elem_of_map_to_list|]. simpl. rewrite He. by apply bool_decide_eq_true.
      * subst kept. apply map_lookup_filter_Some in Hk as [Hk1 Hk2]. simpl in Hk1, Hk2. congruence.
  - split; [done|]. intros. by eexists.
Qed.
End facts.

(** ** Witnesses: one subscriber whose handler always fails *)

Module BusWitness.
#[local] Instance raw_json : EventJson :=
  {| ejson := option (gmap string any); map_Marshal m := Some m; map_Unmarshal m := Some m |}.
Definition bus : Bus :=
  (Subscribe (New true 2 second 10) "audit" ["login.failed"] (fun _ => Some "down") "s1").2.
Definition failed_login : Event := make_event "login.failed" "core" "login_attempt" "" None ∅.
Definition empty : world bus_db := World {| t_events := ∅; t_deliveries := ∅ |} [].
Definition publish : bus_op := BPublish failed_login 1 0 (fun i => N.of_nat i) 0.
Definition process (t : Z) : bus_op := BProcess ["login.failed"] "audit" (fun _ => t) t.
Definition dead : world bus_db := bus_exec bus [publish; process 1; process (5 * second)] empty.

Lemma publish_all_or_nothing_witness :
  exists w', Publish bus failed_login 1 0 (fun i => N.of_nat i) 0 empty = (Ok tt, w') /\
    t_deliveries (w_db w') !! 0%N = Some (pending_delivery 1 "audit" 0).
Proof.
  destruct (Publish bus failed_login 1 0 (fun i => N.of_nat i) 0 empty) as [r w'] eqn:E.
  assert (r = Ok tt) as -> by (vm_compute in E; injection E as <- _; reflexivity).
  exists w'. split; [reflexivity|].
  destruct (publish_all_or_nothing bus failed_login 1 0 (fun i => N.of_nat i) 0 empty (Ok tt) w' E)
    as [(err & Herr & _)|(_ & _ & _ & Hnew & _)]; [discriminate Herr|].
  destruct (subs_of (subscriptions bus) (ev_Type failed_login) !! 0) as [sub|] eqn:Es; [|vm_compute in Es; discriminate Es].
  assert (Subscriber sub = "audit") as Hs by (vm_compute in Es; injection Es as <-; reflexivity).
  rewrite <- Hs. exact (proj1 (Hnew 0 sub Es)).
Defined.

Lemma deliveries_follow_life_cycle_witness :
  exists d, t_deliveries (w_db dead) !! 0%N = Some d /\ dr_status d = "dead_lettered" /\
    t_deliveries (w_db (bus_exec bus [process (100 * second); publish] dead)) !! 0%N = Some d.
Proof.
  destruct (t_deliveries (w_db dead) !! 0%N) as [d|] eqn:E; [|vm_compute in E; discriminate E].
  assert (dr_status d = "dead_lettered" /\ open_delivery d = false) as [H1 H2]
    by (vm_compute in E; injection E as <-; split; reflexivity).
  exists d. split; [reflexivity|]. split; [exact H1|].
  exact (proj2 (deliveries_follow_life_cycle bus [process (100 * second); publish] dead 0%N d) E H2).
Defined.

Lemma retries_are_bounded_witness :
  exists d, t_deliveries (w_db dead) !! 0%N = Some d /\ dr_attempts d = 2%Z.
Proof.
  destruct (t_deliveries (w_db dead) !! 0%N) as [d|] eqn:E; [|vm_compute in E; discriminate E].
  assert (dr_status d = "dead_lettered") as H1 by (vm_compute in E; injection E as <-; reflexivity).
  exists d. split; [reflexivity|].
  exact (proj2 (proj2 (retries_are_bounded bus [publish; process 1; process (5 * second)] [] 0%N d
    ltac:(vm_compute; reflexivity) E)) H1).
Defined.

Lemma cleanup_blocked_by_settled_deliveries_witness :
  exists e, run (Cleanup bus second (100 * second)) (w_db dead) = (Err e, w_db dead).
Proof.
  destruct (t_events (w_db dead) !! 1%N) as [row|] eqn:Er; [|vm_compute in Er; discriminate Er].
  destruct (t_deliveries (w_db dead) !! 0%N) as [d|] eqn:E; [|vm_compute in E; discriminate E].
  apply (proj2 (cleanup_blocked_by_settled_deliveries bus second (100 * second) (w_db dead) eq_refl) 1%N row 0%N d Er).
  - vm_compute in Er. injection Er as <-. vm_compute. reflexivity.
  - exact E.
  - vm_compute in E. injection E as <-. reflexivity.
Defined.
End BusWitness.
