(* ===== verification/OAuth2Store.v ===== *)
(** modules/oauth2/store: the tables of the OAuth2 module (migrations 0001 to
    0003) and the operations of [Store] on clients, authorization codes, login
    and consent challenges, remembered consents, and access, refresh and ID
    tokens.

    A Go slice of strings is [strings]: [None] is the nil slice, which the
    driver writes as NULL and reads back as nil, so that the NOT NULL columns
    of the schema are visible in the model.  Operations take a [clock] (the
    successive readings of time.Now) and an [entropy] (the successive results
    of RandomBytes).  The JSON claim columns, which the services never set, are
    left out. *)

From Stdlib Require Import Ascii String.
From S2P Require Import Prelude GoStrings GoEncoding PlatformCrypto Session.

Local Open Scope string_scope.

Abbreviation strings := (option (list string)).
Definition elems (s : strings) : list string := default [] s.

Definition clock : Type := nat -> time.
Definition entropy : Type := nat -> option string.

(** ** Errors (store.go) *)

Inductive store_error : Type :=
| ErrNotFound
| ErrAlreadyExists
| ErrCodeExpired
| ErrCodeUsed
| ErrTokenRevoked
| ErrTokenExpired
| ErrTokenInactive
| ErrFamilyInvalidated
| ErrPKCERequired
| ErrPKCEMismatch
| ErrRandomBytes
| StoreDb (e : db_error).
#[global] Instance store_dberr : DbErr store_error := StoreDb.

(** ** Data (client.go, authcode.go, consent.go, token.go) *)

(** A client, without the display texts, key material and audience that no
    operation modelled here reads. *)
Record Client : Type := {
  cl_ID : string;
  cl_SecretHash : option string;
  cl_Name : string;
  cl_RedirectURIs : list string;
  cl_GrantTypes : list string;
  cl_ResponseTypes : list string;
  cl_Scopes : list string;
  cl_TokenEndpointAuthMethod : string;
  cl_SectorIdentifierURI : option string;
  cl_SubjectType : string;
  cl_AccessTokenTTL : Z;
  cl_RefreshTokenTTL : Z;
  cl_IDTokenTTL : Z;
  cl_AuthCodeTTL : Z;
  cl_RequirePKCE : bool;
  cl_RequireConsent : bool;
  cl_AllowOfflineAccess : bool;
  cl_Metadata : option (gmap string string);
}.

Record AuthCode : Type := {
  ac_Code : string;
  ac_ClientID : string;
  ac_IdentityID : string;
  ac_SessionID : string;
  ac_RedirectURI : string;
  ac_Scopes : strings;
  ac_Audience : strings;
  ac_CodeChallenge : option string;
  ac_CodeChallengeMethod : option string;
  ac_Nonce : option string;
  ac_State : option string;
  ac_ACR : string;
  ac_AMR : strings;
  ac_AuthTime : time;
  ac_RequestObject : option string;
  ac_Used : bool;
  ac_UsedAt : option time;
  ac_ExpiresAt : time;
  ac_CreatedAt : time;
}.

Record ConsentSession : Type := {
  cs_ID : string;
  cs_ClientID : string;
  cs_IdentityID : string;
  cs_Scopes : strings;
  cs_Audience : strings;
  cs_Remember : bool;
  cs_RememberFor : option Z;
  cs_Handled : bool;
  cs_GrantedAt : option time;
  cs_ExpiresAt : option time;
  cs_CreatedAt : time;
  cs_UpdatedAt : time;
}.

Record LoginChallenge : Type := {
  lc_ID : string;
  lc_ClientID : string;
  lc_RequestURL : string;
  lc_RedirectURI : string;
  lc_Scopes : strings;
  lc_Audience : strings;
  lc_ACRValues : strings;
  lc_State : option string;
  lc_CodeChallenge : option string;
  lc_CodeChallengeMethod : option string;
  lc_Nonce : option string;
  lc_Skip : bool;
  lc_IdentityID : option string;
  lc_SessionID : option string;
  lc_AuthenticatedAt : option time;
  lc_ExpiresAt : time;
  lc_CreatedAt : time;
}.

Record ConsentChallenge : Type := {
  ch_ID : string;
  ch_LoginChallengeID : string;
  ch_ClientID : string;
  ch_IdentityID : string;
  ch_SessionID : string;
  ch_RequestURL : string;
  ch_RedirectURI : string;
  ch_RequestedScopes : strings;
  ch_RequestedAudience : strings;
  ch_Skip : bool;
  ch_GrantedScopes : strings;
  ch_GrantedAudience : strings;
  ch_Remember : option bool;
  ch_RememberFor : option Z;
  ch_Handled : bool;
  ch_HandledAt : option time;
  ch_Rejected : bool;
  ch_Error : option string;
  ch_ErrorDescription : option string;
  ch_ExpiresAt : time;
  ch_CreatedAt : time;
}.

Record AccessToken : Type := {
  at_JTI : string;
  at_Signature : option string;
  at_ClientID : string;
  at_IdentityID : string;
  at_SessionID : string;
  at_Scopes : strings;
  at_Audience : strings;
  at_Issuer : string;
  at_Subject : string;
  at_Revoked : bool;
  at_RevokedAt : option time;
  at_ExpiresAt : time;
  at_CreatedAt : time;
}.

Record RefreshToken : Type := {
  rt_ID : string;
  rt_FamilyID : string;
  rt_ClientID : string;
  rt_IdentityID : string;
  rt_SessionID : string;
  rt_Scopes : strings;
  rt_Audience : strings;
  rt_Active : bool;
  rt_Used : bool;
  rt_UsedAt : option time;
  rt_SuccessorID : option string;
  rt_GracePeriodExpiresAt : option time;
  rt_FirstUsedAt : option time;
  rt_AccessTokenJTI : option string;
  rt_ExpiresAt : time;
  rt_CreatedAt : time;
}.

Record IDToken : Type := {
  it_JTI : string;
  it_ClientID : string;
  it_IdentityID : string;
  it_SessionID : string;
  it_Nonce : option string;
  it_ATHash : option string;
  it_CHash : option string;
  it_ACR : string;
  it_AMR : strings;
  it_AuthTime : time;
  it_Revoked : bool;
  it_ExpiresAt : time;
  it_CreatedAt : time;
}.

(** [SessionAuthContext] (session_context.go). *)
Record SessionAuthContext : Type := {
  sac_AAL : string;
  sac_AuthenticatedAt : time;
  sac_Methods : list string;
}.

(** ** Tables

    Keyed by primary key; [t_remembered] by its unique pair of client and
    identity.  [t_core] is the session store of the core, which
    GetSessionAuthContext reads. *)
Record oauth_db : Type := {
  t_clients : gmap string Client;
  t_codes : gmap string AuthCode;
  t_logins : gmap string LoginChallenge;
  t_consents : gmap string ConsentChallenge;
  t_remembered : gmap (string * string) ConsentSession;
  t_access : gmap string AccessToken;
  t_refresh : gmap string RefreshToken;
  t_idtokens : gmap string IDToken;
  t_core : session_db;
}.

Definition upd_codes f db :=
  {| t_clients := t_clients db; t_codes := f (t_codes db); t_logins := t_logins db;
     t_consents := t_consents db; t_remembered := t_remembered db; t_access := t_access db;
     t_refresh := t_refresh db; t_idtokens := t_idtokens db; t_core := t_core db |}.
Definition upd_logins f db :=
  {| t_clients := t_clients db; t_codes := t_codes db; t_logins := f (t_logins db);
     t_consents := t_consents db; t_remembered := t_remembered db; t_access := t_access db;
     t_refresh := t_refresh db; t_idtokens := t_idtokens db; t_core := t_core db |}.
Definition upd_consents f db :=
  {| t_clients := t_clients db; t_codes := t_codes db; t_logins := t_logins db;
     t_consents := f (t_consents db); t_remembered := t_remembered db; t_access := t_access db;
     t_refresh := t_refresh db; t_idtokens := t_idtokens db; t_core := t_core db |}.
Definition upd_remembered f db :=
  {| t_clients := t_clients db; t_codes := t_codes db; t_logins := t_logins db;
     t_consents := t_consents db; t_remembered := f (t_remembered db); t_access := t_access db;
     t_refresh := t_refresh db; t_idtokens := t_idtokens db; t_core := t_core db |}.
Definition upd_access f db :=
  {| t_clients := t_clients db; t_codes := t_codes db; t_logins := t_logins db;
     t_consents := t_consents db; t_remembered := t_remembered db; t_access := f (t_access db);
     t_refresh := t_refresh db; t_idtokens := t_idtokens db; t_core := t_core db |}.
Definition upd_refresh f db :=
  {| t_clients := t_clients db; t_codes := t_codes db; t_logins := t_logins db;
     t_consents := t_consents db; t_remembered := t_remembered db; t_access := t_access db;
     t_refresh := f (t_refresh db); t_idtokens := t_idtokens db; t_core := t_core db |}.
Definition upd_idtokens f db :=
  {| t_clients := t_clients db; t_codes := t_codes db; t_logins := t_logins db;
     t_consents := t_consents db; t_remembered := t_remembered db; t_access := t_access db;
     t_refresh := t_refresh db; t_idtokens := f (t_idtokens db); t_core := t_core db |}.

(** ** Statements

    The SELECT by primary key, the INSERT with its primary key and the NOT NULL
    array columns ([req]) and foreign keys ([refs]) of its table, the UPDATE
    that reports the number of affected rows, and the DELETE of a predicate. *)

Definition select {A} (tbl : oauth_db -> gmap string A) (k : string) (db : oauth_db)
    : result db_error (A * oauth_db) :=
  match tbl db !! k with
  | Some a => Ok (a, db)
  | None => Err NoRows
  end.

Definition first_null (req : list (string * strings)) : option string :=
  fst <$> List.find (fun p => bool_decide (p.2 = None)) req.

Definition insert_row {A} (tbl : oauth_db -> gmap string A)
    (upd : (gmap string A -> gmap string A) -> oauth_db -> oauth_db)
    (req : list (string * strings)) (refs : list (string * bool))
    (k : string) (row : A) (db : oauth_db) : result db_error (unit * oauth_db) :=
  match first_null req with
  | Some col => Err (NotNullViolation col)
  | None =>
      match tbl db !! k with
      | Some _ => Err (UniqueViolation k)
      | None =>
          match List.find (fun p => negb p.2) refs with
          | Some p => Err (ForeignKeyViolation p.1)
          | None => Ok (tt, upd (insert k row) db)
          end
      end
  end.

Definition update_where {A} (tbl : oauth_db -> gmap string A)
    (upd : (gmap string A -> gmap string A) -> oauth_db -> oauth_db)
    (p : A -> bool) (f : A -> A) (k : string) (db : oauth_db) : result db_error (bool * oauth_db) :=
  match tbl db !! k with
  | Some row => if p row then Ok (true, upd (insert k (f row)) db) else Ok (false, db)
  | None => Ok (false, db)
  end.

Definition delete_where {A} (tbl : oauth_db -> gmap string A)
    (upd : (gmap string A -> gmap string A) -> oauth_db -> oauth_db)
    (p : A -> bool) (db : oauth_db) : result db_error (Z * oauth_db) :=
  Ok (Z.of_nat (size (filter (fun kv => p kv.2 = true) (tbl db))),
      upd (filter (fun kv => p kv.2 = false)) db).

(** A parameter of an INTEGER column has to fit it. *)
Definition int4 {A} (v : option Z) (stmt : oauth_db -> result db_error (A * oauth_db)) (db : oauth_db)
    : result db_error (A * oauth_db) :=
  match v with
  | Some z => if ((- 2 ^ 31 <=? z) && (z <? 2 ^ 31))%Z then stmt db
              else Err (DbFault "integer out of range")
  | None => stmt db
  end.

Definition has {A} (m : gmap string A) (k : string) : bool := bool_decide (is_Some (m !! k)).

Module Store.

Abbreviation SM := (M oauth_db store_error).

Definition no_rows {A} (m : SM A) : SM A :=
  M_try m (fun r => match r with
                    | Err (StoreDb NoRows) => throw ErrNotFound
                    | r => lift_result r
                    end).

(** [isDuplicateKeyError]. *)
Definition no_duplicate (m : SM unit) : SM unit :=
  M_try m (fun r => match r with
                    | Err (StoreDb (UniqueViolation _)) => throw ErrAlreadyExists
                    | r => lift_result r
                    end).

(** An UPDATE that must affect a row. *)
Definition affects (e : store_error) (m : SM bool) : SM unit :=
  ok ← m; if (ok : bool) then mret tt else throw e.

(** ** Identifiers (store.go) *)

Definition generateID (prefix : string) (b : option string) : result store_error string :=
  match b with
  | None => Err ErrRandomBytes
  | Some b => Ok (prefix ++ b64url_Encode b)
  end.
Definition GenerateClientID := generateID "oa2_".
Definition GenerateAuthCode := generateID "".
Definition GenerateAccessTokenJTI := generateID "at_".
Definition GenerateRefreshToken := generateID "rt_".
Definition GenerateRefreshTokenFamily := generateID "rtf_".
Definition GenerateIDTokenJTI := generateID "idt_".
Definition GenerateLoginChallenge := generateID "lc_".
Definition GenerateConsentChallenge := generateID "cc_".

(** [if x == "" { x, err = Generate() }]. *)
Definition or_generate (x : string) (gen : result store_error string) : SM string :=
  if String.eqb x "" then lift_result gen else mret x.

(** ** Clients (client.go) *)

Definition GetClient (id : string) : SM Client := no_rows (db_stmt (select t_clients id)).

Definition mem (x : string) (l : list string) : bool := existsb (fun y => String.eqb y x) l.
Definition ValidateRedirectURI (c : Client) (uri : string) : bool := mem uri (cl_RedirectURIs c).
Definition HasGrantType (c : Client) (gt : string) : bool := mem gt (cl_GrantTypes c).
Definition HasScope (c : Client) (scope : string) : bool := mem scope (cl_Scopes c).

(** ** Authorization codes (authcode.go) *)

Definition CreateAuthCode (code : AuthCode) (rand : option string) (now : time) : SM AuthCode :=
  id ← or_generate (ac_Code code) (GenerateAuthCode rand);
  let row :=
    {| ac_Code := id; ac_ClientID := ac_ClientID code; ac_IdentityID := ac_IdentityID code;
       ac_SessionID := ac_SessionID code; ac_RedirectURI := ac_RedirectURI code;
       ac_Scopes := ac_Scopes code; ac_Audience := ac_Audience code;
       ac_CodeChallenge := ac_CodeChallenge code;
       ac_CodeChallengeMethod := ac_CodeChallengeMethod code; ac_Nonce := ac_Nonce code;
       ac_State := ac_State code; ac_ACR := ac_ACR code; ac_AMR := ac_AMR code;
       ac_AuthTime := if bool_decide (ac_AuthTime code = time_zero) then now else ac_AuthTime code;
       ac_RequestObject := ac_RequestObject code; ac_Used := ac_Used code; ac_UsedAt := None;
       ac_ExpiresAt := ac_ExpiresAt code; ac_CreatedAt := now |} in
  _ ← no_duplicate (db_stmt (fun db =>
        insert_row t_codes upd_codes [("scopes", ac_Scopes row)]
          [("client_id", has (t_clients db) (ac_ClientID row))] id row db));
  mret row.

Definition GetAuthCode (code : string) : SM AuthCode := no_rows (db_stmt (select t_codes code)).

Definition set_code_used (now : time) (c : AuthCode) : AuthCode :=
  {| ac_Code := ac_Code c; ac_ClientID := ac_ClientID c; ac_IdentityID := ac_IdentityID c;
     ac_SessionID := ac_SessionID c; ac_RedirectURI := ac_RedirectURI c; ac_Scopes := ac_Scopes c;
     ac_Audience := ac_Audience c; ac_CodeChallenge := ac_CodeChallenge c;
     ac_CodeChallengeMethod := ac_CodeChallengeMethod c; ac_Nonce := ac_Nonce c;
     ac_State := ac_State c; ac_ACR := ac_ACR c; ac_AMR := ac_AMR c; ac_AuthTime := ac_AuthTime c;
     ac_RequestObject := ac_RequestObject c; ac_Used := true; ac_UsedAt := Some now;
     ac_ExpiresAt := ac_ExpiresAt c; ac_CreatedAt := ac_CreatedAt c |}.

Definition MarkAuthCodeUsed (code : string) (now : time) : SM unit :=
  affects ErrCodeUsed (db_stmt (update_where t_codes upd_codes
    (fun c => negb (ac_Used c)) (set_code_used now) code)).

Definition DeleteAuthCode (code : string) : SM unit :=
  db_stmt (fun db => Ok (tt, upd_codes (base.delete code) db)).

Definition CleanupExpiredAuthCodes (dbnow : time) : SM Z :=
  db_stmt (delete_where t_codes upd_codes (fun c => (ac_ExpiresAt c <? dbnow)%Z)).

Definition AuthCode_IsValid (c : AuthCode) (now : time) : result store_error unit :=
  if ac_Used c then Err ErrCodeUsed
  else if time_after now (ac_ExpiresAt c) then Err ErrCodeExpired
  else Ok tt.

(** ** Consent (consent.go) *)

Definition update_remembered (c old : ConsentSession) (dbnow : time) : ConsentSession :=
  {| cs_ID := cs_ID old; cs_ClientID := cs_ClientID old; cs_IdentityID := cs_IdentityID old;
     cs_Scopes := cs_Scopes c; cs_Audience := cs_Audience c; cs_Remember := cs_Remember c;
     cs_RememberFor := cs_RememberFor c; cs_Handled := cs_Handled old;
     cs_GrantedAt := cs_GrantedAt c; cs_ExpiresAt := cs_ExpiresAt c;
     cs_CreatedAt := cs_CreatedAt old; cs_UpdatedAt := dbnow |}.

(** The INSERT ... ON CONFLICT (client_id, identity_id) DO UPDATE; the update
    trigger sets [updated_at] to the database clock. *)
Definition CreateConsentSession (c : ConsentSession) (now dbnow : time) : SM unit :=
  let row :=
    {| cs_ID := cs_ID c; cs_ClientID := cs_ClientID c; cs_IdentityID := cs_IdentityID c;
       cs_Scopes := cs_Scopes c; cs_Audience := cs_Audience c; cs_Remember := cs_Remember c;
       cs_RememberFor := cs_RememberFor c; cs_Handled := cs_Handled c;
       cs_GrantedAt := cs_GrantedAt c; cs_ExpiresAt := cs_ExpiresAt c;
       cs_CreatedAt := now; cs_UpdatedAt := now |} in
  let key := (cs_ClientID c, cs_IdentityID c) in
  db_stmt (int4 (cs_RememberFor row) (fun db =>
    match cs_Scopes row with
    | None => Err (NotNullViolation "scopes")
    | Some _ =>
        match t_remembered db !! key with
        | Some old => Ok (tt, upd_remembered (insert key (update_remembered row old dbnow)) db)
        | None =>
            if existsb (fun kv => String.eqb (cs_ID kv.2) (cs_ID row)) (map_to_list (t_remembered db))
            then Err (UniqueViolation "oa2_consent_sessions_pkey")
            else if has (t_clients db) (cs_ClientID row)
            then Ok (tt, upd_remembered (insert key row) db)
            else Err (ForeignKeyViolation "client_id")
        end
    end)).

Definition GetConsentSession (clientID identityID : string) : SM ConsentSession :=
  no_rows (db_stmt (fun db =>
    match t_remembered db !! (clientID, identityID) with
    | Some c => Ok (c, db)
    | None => Err NoRows
    end)).

Definition DeleteConsentSession (clientID identityID : string) : SM unit :=
  db_stmt (fun db => Ok (tt, upd_remembered (base.delete (clientID, identityID)) db)).

Definition CreateLoginChallenge (c : LoginChallenge) (rand : option string) (now : time) : SM string :=
  id ← or_generate (lc_ID c) (GenerateLoginChallenge rand);
  let row :=
    {| lc_ID := id; lc_ClientID := lc_ClientID c; lc_RequestURL := lc_RequestURL c;
       lc_RedirectURI := lc_RedirectURI c; lc_Scopes := lc_Scopes c; lc_Audience := lc_Audience c;
       lc_ACRValues := lc_ACRValues c; lc_State := lc_State c; lc_CodeChallenge := lc_CodeChallenge c;
       lc_CodeChallengeMethod := lc_CodeChallengeMethod c; lc_Nonce := lc_Nonce c;
       lc_Skip := lc_Skip c; lc_IdentityID := lc_IdentityID c; lc_SessionID := lc_SessionID c;
       lc_AuthenticatedAt := lc_AuthenticatedAt c; lc_ExpiresAt := lc_ExpiresAt c;
       lc_CreatedAt := now |} in
  _ ← db_stmt (fun db =>
        insert_row t_logins upd_logins [("scopes", lc_Scopes row)]
          [("client_id", has (t_clients db) (lc_ClientID row))] id row db);
  mret id.

Definition GetLoginChallenge (id : string) : SM LoginChallenge := no_rows (db_stmt (select t_logins id)).

Definition set_login (identityID sessionID : string) (now : time) (c : LoginChallenge) : LoginChallenge :=
  {| lc_ID := lc_ID c; lc_ClientID := lc_ClientID c; lc_RequestURL := lc_RequestURL c;
     lc_RedirectURI := lc_RedirectURI c; lc_Scopes := lc_Scopes c; lc_Audience := lc_Audience c;
     lc_ACRValues := lc_ACRValues c; lc_State := lc_State c; lc_CodeChallenge := lc_CodeChallenge c;
     lc_CodeChallengeMethod := lc_CodeChallengeMethod c; lc_Nonce := lc_Nonce c; lc_Skip := lc_Skip c;
     lc_IdentityID := Some identityID; lc_SessionID := Some sessionID;
     lc_AuthenticatedAt := Some now; lc_ExpiresAt := lc_ExpiresAt c; lc_CreatedAt := lc_CreatedAt c |}.

Definition AcceptLoginChallenge (id identityID sessionID : string) (now : time) : SM unit :=
  affects ErrNotFound (db_stmt (update_where t_logins upd_logins
    (fun _ => true) (set_login identityID sessionID now) id)).

Definition CreateConsentChallenge (c : ConsentChallenge) (rand : option string) (now : time) : SM string :=
  id ← or_generate (ch_ID c) (GenerateConsentChallenge rand);
  let row :=
    {| ch_ID := id; ch_LoginChallengeID := ch_LoginChallengeID c; ch_ClientID := ch_ClientID c;
       ch_IdentityID := ch_IdentityID c; ch_SessionID := ch_SessionID c; ch_RequestURL := ch_RequestURL c;
       ch_RedirectURI := ch_RedirectURI c; ch_RequestedScopes := ch_RequestedScopes c;
       ch_RequestedAudience := ch_RequestedAudience c; ch_Skip := ch_Skip c;
       ch_GrantedScopes := ch_GrantedScopes c; ch_GrantedAudience := ch_GrantedAudience c;
       ch_Remember := ch_Remember c; ch_RememberFor := ch_RememberFor c; ch_Handled := ch_Handled c;
       ch_HandledAt := ch_HandledAt c; ch_Rejected := ch_Rejected c; ch_Error := ch_Error c;
       ch_ErrorDescription := ch_ErrorDescription c; ch_ExpiresAt := ch_ExpiresAt c;
       ch_CreatedAt := now |} in
  _ ← db_stmt (fun db =>
        insert_row t_consents upd_consents [("requested_scopes", ch_RequestedScopes row)]
          [("login_challenge_id", has (t_logins db) (ch_LoginChallengeID row));
           ("client_id", has (t_clients db) (ch_ClientID row))] id row db);
  mret id.

Definition GetConsentChallenge (id : string) : SM ConsentChallenge :=
  no_rows (db_stmt (select t_consents id)).

Definition set_granted (scopes audience : strings) (remember : bool) (rememberFor : option Z) (now : time)
    (c : ConsentChallenge) : ConsentChallenge :=
  {| ch_ID := ch_ID c; ch_LoginChallengeID := ch_LoginChallengeID c; ch_ClientID := ch_ClientID c;
     ch_IdentityID := ch_IdentityID c; ch_SessionID := ch_SessionID c; ch_RequestURL := ch_RequestURL c;
     ch_RedirectURI := ch_RedirectURI c; ch_RequestedScopes := ch_RequestedScopes c;
     ch_RequestedAudience := ch_RequestedAudience c; ch_Skip := ch_Skip c;
     ch_GrantedScopes := scopes; ch_GrantedAudience := audience; ch_Remember := Some remember;
     ch_RememberFor := rememberFor; ch_Handled := true; ch_HandledAt := Some now;
     ch_Rejected := ch_Rejected c; ch_Error := ch_Error c; ch_ErrorDescription := ch_ErrorDescription c;
     ch_ExpiresAt := ch_ExpiresAt c; ch_CreatedAt := ch_CreatedAt c |}.

Definition AcceptConsentChallenge (id : string) (scopes audience : strings) (remember : bool)
    (rememberFor : option Z) (now : time) : SM unit :=
  affects ErrNotFound (db_stmt (int4 rememberFor (update_where t_consents upd_consents
    (fun _ => true) (set_granted scopes audience remember rememberFor now) id))).

Definition set_rejected (code desc : string) (now : time) (c : ConsentChallenge) : ConsentChallenge :=
  {| ch_ID := ch_ID c; ch_LoginChallengeID := ch_LoginChallengeID c; ch_ClientID := ch_ClientID c;
     ch_IdentityID := ch_IdentityID c; ch_SessionID := ch_SessionID c; ch_RequestURL := ch_RequestURL c;
     ch_RedirectURI := ch_RedirectURI c; ch_RequestedScopes := ch_RequestedScopes c;
     ch_RequestedAudience := ch_RequestedAudience c; ch_Skip := ch_Skip c;
     ch_GrantedScopes := ch_GrantedScopes c; ch_GrantedAudience := ch_GrantedAudience c;
     ch_Remember := ch_Remember c; ch_RememberFor := ch_RememberFor c; ch_Handled := true;
     ch_HandledAt := Some now; ch_Rejected := true; ch_Error := Some code;
     ch_ErrorDescription := Some desc; ch_ExpiresAt := ch_ExpiresAt c; ch_CreatedAt := ch_CreatedAt c |}.

Definition RejectConsentChallenge (id code desc : string) (now : time) : SM unit :=
  affects ErrNotFound (db_stmt (update_where t_consents upd_consents
    (fun _ => true) (set_rejected code desc now) id)).

(** Deleting a login challenge cascades to its consent challenges. *)
Definition CleanupExpiredChallenges (dbnow1 dbnow2 : time) : SM Z :=
  let stale c := (lc_ExpiresAt c <? dbnow1)%Z in
  n ← db_stmt (fun db =>
        Ok (Z.of_nat (size (filter (fun kv => stale kv.2 = true) (t_logins db))),
            upd_logins (filter (fun kv => stale kv.2 = false))
              (upd_consents (filter (fun kv =>
                 match t_logins db !! ch_LoginChallengeID kv.2 with
                 | Some l => stale l
                 | None => false
                 end = false)) db)));
  m ← db_stmt (delete_where t_consents upd_consents (fun c => (ch_ExpiresAt c <? dbnow2)%Z));
  mret (n + m)%Z.

(** ** Tokens (token.go) *)

Definition CreateAccessToken (t : AccessToken) (rand : option string) (now : time) : SM unit :=
  id ← or_generate (at_JTI t) (GenerateAccessTokenJTI rand);
  let row :=
    {| at_JTI := id; at_Signature := at_Signature t; at_ClientID := at_ClientID t;
       at_IdentityID := at_IdentityID t; at_SessionID := at_SessionID t; at_Scopes := at_Scopes t;
       at_Audience := at_Audience t; at_Issuer := at_Issuer t; at_Subject := at_Subject t;
       at_Revoked := at_Revoked t; at_RevokedAt := None; at_ExpiresAt := at_ExpiresAt t;
       at_CreatedAt := now |} in
  db_stmt (insert_row t_access upd_access
    [("scopes", at_Scopes row); ("audience", at_Audience row)] [] id row).

Definition GetAccessToken (jti : string) : SM AccessToken := no_rows (db_stmt (select t_access jti)).

(** [signature] has no unique index; QueryRow takes the first row found. *)
Definition GetAccessTokenBySignature (signature : string) : SM AccessToken :=
  no_rows (db_stmt (fun db =>
    match List.find (fun kv => bool_decide (at_Signature kv.2 = Some signature))
            (map_to_list (t_access db)) with
    | Some kv => Ok (kv.2, db)
    | None => Err NoRows
    end)).

Definition set_revoked (now : time) (t : AccessToken) : AccessToken :=
  {| at_JTI := at_JTI t; at_Signature := at_Signature t; at_ClientID := at_ClientID t;
     at_IdentityID := at_IdentityID t; at_SessionID := at_SessionID t; at_Scopes := at_Scopes t;
     at_Audience := at_Audience t; at_Issuer := at_Issuer t; at_Subject := at_Subject t;
     at_Revoked := true; at_RevokedAt := Some now; at_ExpiresAt := at_ExpiresAt t;
     at_CreatedAt := at_CreatedAt t |}.

Definition RevokeAccessToken (jti : string) (now : time) : SM unit :=
  affects ErrNotFound (db_stmt (update_where t_access upd_access (fun _ => true) (set_revoked now) jti)).

(** An UPDATE of every row that satisfies [p], with the number of such rows. *)
Definition update_all {A} (tbl : oauth_db -> gmap string A)
    (upd : (gmap string A -> gmap string A) -> oauth_db -> oauth_db)
    (p : A -> bool) (f : A -> A) (db : oauth_db) : result db_error (Z * oauth_db) :=
  Ok (Z.of_nat (size (filter (fun kv => p kv.2 = true) (tbl db))),
      upd (fmap (fun row => if p row then f row else row)) db).

Definition RevokeAccessTokensBySession (sessionID : string) (now : time) : SM Z :=
  db_stmt (update_all t_access upd_access
    (fun t => String.eqb (at_SessionID t) sessionID && negb (at_Revoked t)) (set_revoked now)).

Definition CreateRefreshToken (t : RefreshToken) (rand1 rand2 : option string) (now : time) : SM unit :=
  id ← or_generate (rt_ID t) (GenerateRefreshToken rand1);
  family ← or_generate (rt_FamilyID t) (GenerateRefreshTokenFamily rand2);
  let row :=
    {| rt_ID := id; rt_FamilyID := family; rt_ClientID := rt_ClientID t;
       rt_IdentityID := rt_IdentityID t; rt_SessionID := rt_SessionID t; rt_Scopes := rt_Scopes t;
       rt_Audience := rt_Audience t; rt_Active := rt_Active t; rt_Used := rt_Used t;
       rt_UsedAt := None; rt_SuccessorID := rt_SuccessorID t;
       rt_GracePeriodExpiresAt := rt_GracePeriodExpiresAt t; rt_FirstUsedAt := None;
       rt_AccessTokenJTI := rt_AccessTokenJTI t; rt_ExpiresAt := rt_ExpiresAt t;
       rt_CreatedAt := now |} in
  db_stmt (insert_row t_refresh upd_refresh [("scopes", rt_Scopes row)] [] id row).

Definition GetRefreshToken (id : string) : SM RefreshToken := no_rows (db_stmt (select t_refresh id)).

Definition set_rt_used (now : time) (successor : string) (grace : option time) (t : RefreshToken) : RefreshToken :=
  {| rt_ID := rt_ID t; rt_FamilyID := rt_FamilyID t; rt_ClientID := rt_ClientID t;
     rt_IdentityID := rt_IdentityID t; rt_SessionID := rt_SessionID t; rt_Scopes := rt_Scopes t;
     rt_Audience := rt_Audience t; rt_Active := rt_Active t; rt_Used := true; rt_UsedAt := Some now;
     rt_SuccessorID := Some successor; rt_GracePeriodExpiresAt := grace;
     rt_FirstUsedAt := match rt_FirstUsedAt t with Some u => Some u | None => Some now end;
     rt_AccessTokenJTI := rt_AccessTokenJTI t; rt_ExpiresAt := rt_ExpiresAt t;
     rt_CreatedAt := rt_CreatedAt t |}.

Definition MarkRefreshTokenUsed (id successorID : string) (gracePeriod : duration) (now : time) : SM unit :=
  let grace := if (0 <? gracePeriod)%Z then Some (time_add now gracePeriod) else None in
  affects ErrTokenInactive (db_stmt (update_where t_refresh upd_refresh
    (fun t => rt_Active t && negb (rt_Used t)) (set_rt_used now successorID grace) id)).

Definition set_inactive (t : RefreshToken) : RefreshToken :=
  {| rt_ID := rt_ID t; rt_FamilyID := rt_FamilyID t; rt_ClientID := rt_ClientID t;
     rt_IdentityID := rt_IdentityID t; rt_SessionID := rt_SessionID t; rt_Scopes := rt_Scopes t;
     rt_Audience := rt_Audience t; rt_Active := false; rt_Used := rt_Used t; rt_UsedAt := rt_UsedAt t;
     rt_SuccessorID := rt_SuccessorID t; rt_GracePeriodExpiresAt := rt_GracePeriodExpiresAt t;
     rt_FirstUsedAt := rt_FirstUsedAt t; rt_AccessTokenJTI := rt_AccessTokenJTI t;
     rt_ExpiresAt := rt_ExpiresAt t; rt_CreatedAt := rt_CreatedAt t |}.

Definition InvalidateRefreshTokenFamily (familyID : string) : SM Z :=
  db_stmt (update_all t_refresh upd_refresh
    (fun t => String.eqb (rt_FamilyID t) familyID && rt_Active t) set_inactive).

Definition RevokeRefreshTokensBySession (sessionID : string) : SM Z :=
  db_stmt (update_all t_refresh upd_refresh
    (fun t => String.eqb (rt_SessionID t) sessionID && rt_Active t) set_inactive).

Definition CreateIDToken (t : IDToken) (rand : option string) (now : time) : SM unit :=
  id ← or_generate (it_JTI t) (GenerateIDTokenJTI rand);
  let row :=
    {| it_JTI := id; it_ClientID := it_ClientID t; it_IdentityID := it_IdentityID t;
       it_SessionID := it_SessionID t; it_Nonce := it_Nonce t; it_ATHash := it_ATHash t;
       it_CHash := it_CHash t; it_ACR := it_ACR t; it_AMR := it_AMR t; it_AuthTime := it_AuthTime t;
       it_Revoked := it_Revoked t; it_ExpiresAt := it_ExpiresAt t; it_CreatedAt := now |} in
  db_stmt (insert_row t_idtokens upd_idtokens [] [] id row).

Definition CleanupExpiredTokens (dbnow1 dbnow2 dbnow3 : time) : SM Z :=
  n1 ← db_stmt (delete_where t_access upd_access (fun t => (at_ExpiresAt t <? dbnow1)%Z));
  n2 ← db_stmt (delete_where t_refresh upd_refresh (fun t => (rt_ExpiresAt t <? dbnow2)%Z));
  n3 ← db_stmt (delete_where t_idtokens upd_idtokens (fun t => (it_ExpiresAt t <? dbnow3)%Z));
  mret (n1 + n2 + n3)%Z.

Definition AccessToken_IsValid (t : AccessToken) (now : time) : result store_error unit :=
  if at_Revoked t then Err ErrTokenRevoked
  else if time_after now (at_ExpiresAt t) then Err ErrTokenExpired
  else Ok tt.

Definition RefreshToken_IsValid (t : RefreshToken) (now : time) : result store_error unit :=
  if negb (rt_Active t) then Err ErrTokenInactive
  else if rt_Used t then Err ErrTokenInactive
  else if time_after now (rt_ExpiresAt t) then Err ErrTokenExpired
  else Ok tt.

(** ** The session behind a challenge (session_context.go)

    [core_sessions.id] is a uuid column: an identifier that does not parse is
    an error of the driver, not a missing row. *)
Definition GetSessionAuthContext `{UuidText} (sessionID : string) : SM SessionAuthContext :=
  if String.eqb (TrimSpace sessionID) "" then throw ErrNotFound
  else
    match uuid_parse sessionID with
    | None => db_stmt (fun _ => Err (DbFault "invalid input syntax for type uuid"))
    | Some id =>
        row ← no_rows (db_stmt (fun db =>
                match t_sessions (t_core db) !! id with
                | Some row => Ok (row, db)
                | None => Err NoRows
                end));
        ms ← db_stmt (fun db =>
               Ok (am_Method <$> Manager.sort_by_completed (Manager.methods_of id (t_methods (t_core db))), db));
        mret {| sac_AAL := row_aal row; sac_AuthenticatedAt := row_authenticated row; sac_Methods := ms |}
    end.

End Store.
