(* ===== verification/OAuth2Authorize.v ===== *)
(** modules/oauth2/service/authorization: the authorization-code flow up to
    the code.  StartAuthorization stores a login challenge, AcceptLogin binds
    it to an identity and a session and stores a consent challenge,
    AcceptConsent turns a granted consent challenge into an authorization
    code.  [fmt.Errorf("%w: ...", ErrX)] is the sentinel ErrX. *)

From Stdlib Require Import Ascii String.
From S2P Require Import Prelude GoStrings GoEncoding PlatformCrypto Session OAuth2Store.

Local Open Scope string_scope.

(** [parseScopes], the same function in four packages of the module. *)
Definition parseScopes (scope : string) : strings :=
  if String.eqb scope "" then Some []
  else
    match List.filter (fun p => negb (String.eqb p "")) (TrimSpace <$> Split scope " ") with
    | [] => None
    | l => Some l
    end.

Definition isSubset (values allowed : strings) : bool :=
  forallb (fun v => Store.mem v (elems allowed)) (elems values).

Module Authorization.

Inductive error : Type :=
| ErrInvalidRequest
| ErrUnauthorizedClient
| ErrUnsupportedResponseType
| ErrInvalidScope
| ErrServerError
| ErrPKCERequired
| ErrInvalidPKCE
| AZStore (e : store_error).

Abbreviation AM := (M oauth_db error).

Record AuthorizeRequest : Type := {
  ar_ClientID : string;
  ar_RedirectURI : string;
  ar_RequestURL : string;
  ar_ResponseType : string;
  ar_Scope : string;
  ar_State : string;
  ar_Nonce : string;
  ar_CodeChallenge : string;
  ar_CodeChallengeMethod : string;
  ar_Audience : strings;
  ar_ACRValues : strings;
  ar_MaxAge : option Z;
  ar_Prompt : string;
}.

Record LoginChallengeResponse : Type := {
  lr_LoginChallenge : string;
  lr_RedirectTo : string;
}.

Record ConsentChallengeResponse : Type := {
  cr_ConsentChallenge : string;
  cr_RedirectTo : string;
}.

Record AuthorizationResponse : Type := {
  az_Code : string;
  az_State : string;
}.

Definition supportsValue (values : list string) (expected : string) : bool := Store.mem expected values.
Definition blank (s : string) : bool := String.eqb (TrimSpace s) "".
Definition nonempty {A} (l : list A) : bool := negb (bool_decide (l = [])).
Definition challengeTTL : duration := (10 * minute)%Z.

(** The checks of StartAuthorization on request and client, in order; the
    scopes it settles on. *)
Definition checkAuthorize (req : AuthorizeRequest) (client : Client) : result error strings :=
  if nonempty (cl_GrantTypes client) && negb (Store.HasGrantType client "authorization_code")
  then Err ErrUnauthorizedClient
  else if negb (Store.ValidateRedirectURI client (ar_RedirectURI req)) then Err ErrInvalidRequest
  else if negb (String.eqb (ar_ResponseType req) "code") then Err ErrUnsupportedResponseType
  else if nonempty (cl_ResponseTypes client) &&
          negb (supportsValue (cl_ResponseTypes client) (ar_ResponseType req))
  then Err ErrUnauthorizedClient
  else
    let scopes :=
      match elems (parseScopes (ar_Scope req)) with
      | [] => Some ["openid"]
      | _ => parseScopes (ar_Scope req)
      end in
    if negb (forallb (Store.HasScope client) (elems scopes)) then Err ErrInvalidScope
    else if cl_RequirePKCE client && String.eqb (ar_CodeChallenge req) "" then Err ErrPKCERequired
    else if cl_RequirePKCE client && negb (String.eqb (ar_CodeChallengeMethod req) "S256") &&
            negb (String.eqb (ar_CodeChallengeMethod req) "plain")
    then Err ErrInvalidPKCE
    else Ok scopes.

Definition StartAuthorization (req : option AuthorizeRequest) (rand : option string) (ck : clock)
    : AM LoginChallengeResponse :=
  match req with
  | None => throw ErrInvalidRequest
  | Some req =>
      if blank (ar_ClientID req) || blank (ar_RedirectURI req) || blank (ar_ResponseType req)
      then throw ErrInvalidRequest
      else
        client ← call (fun _ => ErrUnauthorizedClient) (Store.GetClient (ar_ClientID req));
        scopes ← lift_result (checkAuthorize req client);
        let requestURL :=
          if blank (ar_RequestURL req) then ar_RedirectURI req else TrimSpace (ar_RequestURL req) in
        challengeID ← call (fun _ => ErrServerError) (lift_result (Store.GenerateLoginChallenge rand));
        let challenge :=
          {| lc_ID := challengeID; lc_ClientID := cl_ID client; lc_RequestURL := requestURL;
             lc_RedirectURI := ar_RedirectURI req; lc_Scopes := scopes; lc_Audience := ar_Audience req;
             lc_ACRValues := ar_ACRValues req; lc_State := Some (ar_State req);
             lc_CodeChallenge := Some (ar_CodeChallenge req);
             lc_CodeChallengeMethod := Some (ar_CodeChallengeMethod req);
             lc_Nonce := Some (ar_Nonce req); lc_Skip := false; lc_IdentityID := None;
             lc_SessionID := None; lc_AuthenticatedAt := None;
             lc_ExpiresAt := time_add (ck 0%nat) challengeTTL; lc_CreatedAt := time_zero |} in
        id ← call (fun _ => ErrServerError) (Store.CreateLoginChallenge challenge None (ck 1%nat));
        mret {| lr_LoginChallenge := id; lr_RedirectTo := "/oauth2/login?challenge=" ++ id |}
  end.

(** A remembered consent that covers the challenge. *)
Definition remembered (challenge : LoginChallenge) (now : time) (consent : result store_error ConsentSession)
    : bool :=
  match consent with
  | Ok c =>
      cs_Remember c &&
      match cs_ExpiresAt c with None => true | Some e => time_after e now end &&
      isSubset (lc_Scopes challenge) (cs_Scopes c) && isSubset (lc_Audience challenge) (cs_Audience c)
  | Err _ => false
  end.

(** Whether AcceptLogin skips the consent screen. *)
Definition skipsConsent (challenge : LoginChallenge) (identityID : string) (now : time) : AM bool :=
  if lc_Skip challenge then mret false
  else
    client ← attempt (Store.GetClient (lc_ClientID challenge));
    if match client with Ok c => negb (cl_RequireConsent c) | Err _ => false end then mret true
    else
      consent ← attempt (Store.GetConsentSession (lc_ClientID challenge) identityID);
      mret (remembered challenge now consent).

Definition AcceptLogin (challengeID identityID sessionID : string) (ck : clock)
    : AM ConsentChallengeResponse :=
  challenge ← call (fun _ => ErrInvalidRequest) (Store.GetLoginChallenge challengeID);
  if time_after (ck 0%nat) (lc_ExpiresAt challenge) then throw ErrInvalidRequest
  else
    _ ← call AZStore (Store.AcceptLoginChallenge challengeID identityID sessionID (ck 1%nat));
    skipConsent ← skipsConsent challenge identityID (ck 2%nat);
    let consentChallenge :=
      {| ch_ID := challengeID ++ "_consent"; ch_LoginChallengeID := challengeID;
         ch_ClientID := lc_ClientID challenge; ch_IdentityID := identityID; ch_SessionID := sessionID;
         ch_RequestURL := lc_RequestURL challenge; ch_RedirectURI := lc_RedirectURI challenge;
         ch_RequestedScopes := lc_Scopes challenge; ch_RequestedAudience := lc_Audience challenge;
         ch_Skip := skipConsent; ch_GrantedScopes := None; ch_GrantedAudience := None;
         ch_Remember := None; ch_RememberFor := None; ch_Handled := false; ch_HandledAt := None;
         ch_Rejected := false; ch_Error := None; ch_ErrorDescription := None;
         ch_ExpiresAt := time_add (ck 3%nat) challengeTTL; ch_CreatedAt := time_zero |} in
    id ← call AZStore (Store.CreateConsentChallenge consentChallenge None (ck 4%nat));
    _ ← (if skipConsent
         then call AZStore (Store.AcceptConsentChallenge id (lc_Scopes challenge) (lc_Audience challenge)
                              false None (ck 5%nat))
         else mret tt);
    mret {| cr_ConsentChallenge := id; cr_RedirectTo := "/oauth2/consent?challenge=" ++ id |}.

(** ** The authentication context of a code *)

Definition normalizeACR (aal : string) : string :=
  let v := ToLower (TrimSpace aal) in
  if Store.mem v ["aal0"; "aal1"; "aal2"] then v else "".

Definition mapMethodToAMR (method : string) : string :=
  let v := ToLower (TrimSpace method) in
  if String.eqb v "password" then "pwd"
  else if Store.mem v ["totp"; "magic_link"; "sms"; "backup_code"] then "otp"
  else if Store.mem v ["webauthn"; "passkey"] then "hwk"
  else if Store.mem v ["social"; "saml"] then "federated"
  else "".

(** The loop of dedupeAMR; [amr] holds exactly the values seen. *)
Fixpoint dedupe_from (amr methods : list string) : list string :=
  match methods with
  | [] => amr
  | m :: ms =>
      let value := mapMethodToAMR m in
      if String.eqb value "" || Store.mem value amr then dedupe_from amr ms
      else dedupe_from (amr ++ [value]) ms
  end.
Definition dedupeAMR (methods : list string) : list string := dedupe_from [] methods.

Definition deriveAuthContext (l : LoginChallenge) (now : time) : string * list string * time :=
  ("aal1", ["pwd"], default now (lc_AuthenticatedAt l)).

Definition deriveAuthContextFromSession (c : SessionAuthContext) (fallback : time)
    : string * list string * time :=
  let acr := if String.eqb (normalizeACR (sac_AAL c)) "" then "aal1" else normalizeACR (sac_AAL c) in
  let amr := match dedupeAMR (sac_Methods c) with [] => ["pwd"] | l => l end in
  let authTime := if bool_decide (sac_AuthenticatedAt c = time_zero) then fallback else sac_AuthenticatedAt c in
  (acr, amr, authTime).

Section consent.
Context `{UuidText}.

(** ** Consent *)

(** The remembered consent stored by AcceptConsent; its error is ignored. *)
Definition rememberConsent (challenge : ConsentChallenge) (grantedScopes : strings)
    (rememberFor : option Z) (rand : option string) (now1 now2 dbnow : time) : AM unit :=
  let expiresAt :=
    match rememberFor with
    | Some n => if (0 <? n)%Z then Some (time_add now1 (wrap64 (n * second))) else None
    | None => None
    end in
  consentID ← call (fun _ => ErrServerError) (lift_result (Store.GenerateClientID rand));
  _ ← attempt (Store.CreateConsentSession
        {| cs_ID := consentID; cs_ClientID := ch_ClientID challenge;
           cs_IdentityID := ch_IdentityID challenge; cs_Scopes := grantedScopes;
           cs_Audience := ch_RequestedAudience challenge; cs_Remember := true;
           cs_RememberFor := rememberFor; cs_Handled := false; cs_GrantedAt := None;
           cs_ExpiresAt := expiresAt; cs_CreatedAt := time_zero; cs_UpdatedAt := time_zero |} now2 dbnow);
  mret tt.

(** The authentication context: the session's when it is known, the
    challenge's when the session is not found. *)
Definition authContext (sessionID : string) (l : LoginChallenge) (now : time)
    : AM (string * list string * time) :=
  let '(acr, amr, authTime) := deriveAuthContext l now in
  r ← attempt (Store.GetSessionAuthContext sessionID);
  match r with
  | Ok c => mret (deriveAuthContextFromSession c authTime)
  | Err ErrNotFound => mret (acr, amr, authTime)
  | Err _ => throw ErrServerError
  end.

Definition AcceptConsent (challengeID : string) (grantedScopes : strings) (remember : bool)
    (rememberFor : option Z) (rd : entropy) (ck : clock) (dbnow : time) : AM AuthorizationResponse :=
  challenge ← call (fun _ => ErrInvalidRequest) (Store.GetConsentChallenge challengeID);
  if time_after (ck 0%nat) (ch_ExpiresAt challenge) then throw ErrInvalidRequest
  else if ch_Handled challenge then throw ErrInvalidRequest
  else if negb (isSubset grantedScopes (ch_RequestedScopes challenge)) then throw ErrInvalidScope
  else
    _ ← call AZStore (Store.AcceptConsentChallenge challengeID grantedScopes
                        (ch_RequestedAudience challenge) remember rememberFor (ck 1%nat));
    _ ← (if remember
         then rememberConsent challenge grantedScopes rememberFor (rd 0%nat) (ck 2%nat) (ck 3%nat) dbnow
         else mret tt);
    loginChallenge ← call AZStore (Store.GetLoginChallenge (ch_LoginChallengeID challenge));
    '(acr, amr, authTime) ← authContext (ch_SessionID challenge) loginChallenge (ck 4%nat);
    authCodeValue ← call (fun _ => ErrServerError) (lift_result (Store.GenerateAuthCode (rd 1%nat)));
    code ← call (fun _ => ErrServerError) (Store.CreateAuthCode
      {| ac_Code := authCodeValue; ac_ClientID := ch_ClientID challenge;
         ac_IdentityID := ch_IdentityID challenge; ac_SessionID := ch_SessionID challenge;
         ac_RedirectURI := ch_RedirectURI challenge; ac_Scopes := grantedScopes;
         ac_Audience := ch_RequestedAudience challenge;
         ac_CodeChallenge := lc_CodeChallenge loginChallenge;
         ac_CodeChallengeMethod := lc_CodeChallengeMethod loginChallenge;
         ac_Nonce := lc_Nonce loginChallenge; ac_State := lc_State loginChallenge; ac_ACR := acr;
         ac_AMR := Some amr; ac_AuthTime := authTime; ac_RequestObject := None; ac_Used := false;
         ac_UsedAt := None; ac_ExpiresAt := time_add (ck 5%nat) challengeTTL;
         ac_CreatedAt := time_zero |} (rd 2%nat) (ck 6%nat));
    mret {| az_Code := ac_Code code; az_State := default "" (lc_State loginChallenge) |}.

Definition AcceptConsentForIdentity (challengeID identityID : string) (grantedScopes : strings)
    (remember : bool) (rememberFor : option Z) (rd : entropy) (ck : clock) (dbnow : time)
    : AM AuthorizationResponse :=
  challenge ← call (fun _ => ErrInvalidRequest) (Store.GetConsentChallenge challengeID);
  if negb (String.eqb (ch_IdentityID challenge) identityID) then throw ErrInvalidRequest
  else AcceptConsent challengeID grantedScopes remember rememberFor rd ck dbnow.

Definition RejectConsent (challengeID errorCode errorDesc : string) (now : time) : AM unit :=
  call AZStore (Store.RejectConsentChallenge challengeID errorCode errorDesc now).

Definition RejectConsentForIdentity (challengeID identityID errorCode errorDesc : string) (now : time)
    : AM unit :=
  challenge ← call (fun _ => ErrInvalidRequest) (Store.GetConsentChallenge challengeID);
  if negb (String.eqb (ch_IdentityID challenge) identityID) then throw ErrInvalidRequest
  else RejectConsent challengeID errorCode errorDesc now.

End consent.

(** An error of [authorization.VerifyPKCE]: the method is not supported, or
    the verifier does not match. *)
Inductive pkce_error : Type :=
| PKCEUnsupported
| PKCEMismatch.

Definition VerifyPKCE (verifier challenge method : string) : result pkce_error unit :=
  match PlatformCrypto.VerifyPKCE verifier challenge method with
  | Err _ => Err PKCEUnsupported
  | Ok true => Ok tt
  | Ok false => Err PKCEMismatch
  end.

End Authorization.
