(* ===== verification/OAuth2Token.v ===== *)
(** modules/oauth2/service/token, service/revocation and service/grants: the
    token endpoint.  Tokens are issued for authorization codes, refresh
    tokens, approved device codes and client credentials; access tokens are
    introspected and revoked.

    The JWT signer is an interface of the code; [VerifyPassword] (Argon2id and
    bcrypt) and the host name of a parsed URL belong to libraries.  They are
    the fields of [OAuth2Env].  An operation that returns early consumes fewer
    readings of its [clock] and [entropy] than one that succeeds. *)

From Stdlib Require Import Ascii String.
From S2P Require Import Prelude GoStrings GoEncoding GoSha256 PlatformCrypto Session OAuth2Store OAuth2Authorize.

Local Open Scope string_scope.

(** The values the claim maps hold. *)
Inductive claim : Type :=
| CStr (s : string)
| CStrs (l : strings)
| CInt (z : Z).
Abbreviation claims := (list (string * claim)).

(** [None] of a signer is its error; [None] of [url_Hostname] is an error of
    url.Parse; [None] of [VerifyPassword] is its error. *)
Class OAuth2Env := {
  SignAccessToken : claims -> option string;
  SignIDToken : claims -> option string;
  VerifyPassword : string -> string -> option bool;
  url_Hostname : string -> option string;
}.

Definition blank (s : string) : bool := String.eqb (TrimSpace s) "".
Definition ttl (seconds : Z) : duration := wrap64 (seconds * second).

Module TokenService.

Inductive error : Type :=
| ErrInvalidGrant
| ErrInvalidClient
| ErrInvalidRequest
| ErrUnauthorizedClient
| ErrInvalidScope
| ErrUnsupportedChallengeMethod
| ErrGenerate
| ErrSign
| TKStore (e : store_error)
| OutOfFuel.

Abbreviation TM := (M oauth_db error).

Record TokenRequest : Type := {
  tr_GrantType : string;
  tr_Code : string;
  tr_RedirectURI : string;
  tr_ClientID : string;
  tr_ClientSecret : string;
  tr_CodeVerifier : string;
  tr_RefreshToken : string;
  tr_Scope : string;
}.

Record DeviceCodeTokenRequest : Type := {
  dr_ClientID : string;
  dr_ClientSecret : string;
  dr_IdentityID : string;
  dr_SessionID : string;
  dr_Scopes : strings;
  dr_Audience : strings;
  dr_AuthTime : time;
}.

Record TokenResponse : Type := {
  ts_AccessToken : string;
  ts_TokenType : string;
  ts_ExpiresIn : Z;
  ts_RefreshToken : option string;
  ts_IDToken : option string;
  ts_Scope : string;
}.

Record IntrospectionRequest : Type := {
  ir_Token : string;
  ir_ClientID : string;
  ir_ClientSecret : string;
}.

Record IntrospectionResponse : Type := {
  is_Active : bool;
  is_ClientID : string;
  is_Subject : string;
  is_Scope : string;
  is_ExpiresAt : Z;
  is_Issuer : string;
  is_Audience : strings;
  is_TokenType : string;
}.

Definition inactive : IntrospectionResponse :=
  {| is_Active := false; is_ClientID := ""; is_Subject := ""; is_Scope := ""; is_ExpiresAt := 0;
     is_Issuer := ""; is_Audience := None; is_TokenType := "" |}.

Definition shift (n : nat) {A} (f : nat -> A) : nat -> A := fun i => f (n + i)%nat.

Section service.
Context `{OAuth2Env} (issuer : string).

(** ** Clients *)

Definition authenticateClient (client : Client) (clientSecret : string) : result error unit :=
  let method := cl_TokenEndpointAuthMethod client in
  if String.eqb method "" || String.eqb method "none" then Ok tt
  else if negb (String.eqb method "client_secret_basic" || String.eqb method "client_secret_post")
  then Err ErrInvalidClient
  else
    match cl_SecretHash client with
    | None => Err ErrInvalidClient
    | Some hash =>
        if blank hash then Err ErrInvalidClient
        else if blank clientSecret then Err ErrInvalidClient
        else match VerifyPassword clientSecret hash with
             | Some true => Ok tt
             | _ => Err ErrInvalidClient
             end
    end.

(** The client of a grant: found, authenticated and, when it lists grant
    types, registered for one of [gts]. *)
Definition grantClient (id secret : string) (gts : list string) : TM Client :=
  client ← call (fun _ => ErrInvalidClient) (Store.GetClient id);
  _ ← lift_result (authenticateClient client secret);
  if Authorization.nonempty (cl_GrantTypes client) && negb (existsb (Store.HasGrantType client) gts)
  then throw ErrUnauthorizedClient
  else mret client.

(** ** Subjects *)

Definition normalizeSectorIdentifier (raw : string) : string :=
  let trimmed := TrimSpace raw in
  if String.eqb trimmed "" then ""
  else
    match url_Hostname trimmed with
    | None => ToLower trimmed
    | Some h => if blank h then ToLower trimmed else ToLower (TrimSpace h)
    end.

Fixpoint firstSector (uris : list string) : string :=
  match uris with
  | [] => ""
  | u :: us =>
      if String.eqb (normalizeSectorIdentifier u) "" then firstSector us
      else normalizeSectorIdentifier u
  end.

Definition resolvePairwiseSector (client : Client) : string :=
  firstSector (match cl_SectorIdentifierURI client with Some u => [u] | None => [] end ++
               cl_RedirectURIs client)%list.

Definition computePairwiseSubject (identityID iss sector : string) : string :=
  b64url_Encode (sha256 (Join [iss; sector; identityID] "|")).

Definition resolveTokenSubject (client : Client) (identityID iss : string) : result error string :=
  let identityID := TrimSpace identityID in
  if String.eqb identityID "" then Err ErrInvalidRequest
  else
    let kind := ToLower (TrimSpace (cl_SubjectType client)) in
    if String.eqb kind "" || String.eqb kind "public" then Ok identityID
    else if String.eqb kind "pairwise" then
      let sector := resolvePairwiseSector client in
      if String.eqb sector "" then Err ErrInvalidClient
      else Ok (computePairwiseSubject identityID (TrimSpace iss) sector)
    else Err ErrInvalidClient.

(** ** Token values *)

Definition accessTokenSignature (token : string) : string := b64url_Encode (sha256 token).

(** The left half of the digest: 16 bytes. *)
Definition computeATHash (accessToken : string) : string :=
  b64url_Encode (str_take 16 (sha256 accessToken)).

Definition hasScope (scopes : strings) (scope : string) : bool := Store.mem scope (elems scopes).

Definition generated (r : result store_error string) : TM string :=
  call (fun _ => ErrGenerate) (lift_result r).
Definition signed (r : option string) : TM string :=
  match r with Some s => mret s | None => throw ErrSign end.

(** What one grant is issued for: the arguments of issueTokens. *)
Record grant : Type := {
  g_IdentityID : string;
  g_SessionID : string;
  g_Scopes : strings;
  g_Audience : strings;
  g_Nonce : option string;
  g_ACR : string;
  g_AMR : strings;
  g_AuthTime : time;
}.

(** ** Issuing tokens *)

(** The access token: its JWT and its row. *)
Definition issueAccessToken (client : Client) (g : grant) (subject : string)
    (rd : entropy) (ck : clock) : TM (string * string) :=
  let now := ck 0%nat in
  accessJTI ← generated (Store.GenerateAccessTokenJTI (rd 0%nat));
  let expiresAt := time_add now (ttl (cl_AccessTokenTTL client)) in
  jwt ← signed (SignAccessToken
    [("iss", CStr issuer); ("sub", CStr subject); ("aud", CStrs (g_Audience g));
     ("iat", CInt (time_unix now)); ("exp", CInt (time_unix expiresAt)); ("jti", CStr accessJTI);
     ("client_id", CStr (cl_ID client)); ("scope", CStr (Join (elems (g_Scopes g)) " "))]);
  _ ← call TKStore (Store.CreateAccessToken
    {| at_JTI := accessJTI; at_Signature := Some (accessTokenSignature jwt);
       at_ClientID := cl_ID client; at_IdentityID := g_IdentityID g; at_SessionID := g_SessionID g;
       at_Scopes := g_Scopes g; at_Audience := g_Audience g; at_Issuer := issuer;
       at_Subject := subject; at_Revoked := false; at_RevokedAt := None; at_ExpiresAt := expiresAt;
       at_CreatedAt := time_zero |} None (ck 1%nat));
  mret (accessJTI, jwt).

(** The refresh token, for clients and grants with offline access. *)
Definition issueRefreshToken (client : Client) (g : grant) (accessJTI : string)
    (rd : entropy) (ck : clock) : TM (option string) :=
  if cl_AllowOfflineAccess client && hasScope (g_Scopes g) "offline_access" then
    refreshTokenID ← generated (Store.GenerateRefreshToken (rd 1%nat));
    familyID ← generated (Store.GenerateRefreshTokenFamily (rd 2%nat));
    _ ← call TKStore (Store.CreateRefreshToken
      {| rt_ID := refreshTokenID; rt_FamilyID := familyID; rt_ClientID := cl_ID client;
         rt_IdentityID := g_IdentityID g; rt_SessionID := g_SessionID g; rt_Scopes := g_Scopes g;
         rt_Audience := g_Audience g; rt_Active := true; rt_Used := false; rt_UsedAt := None;
         rt_SuccessorID := None; rt_GracePeriodExpiresAt := None; rt_FirstUsedAt := None;
         rt_AccessTokenJTI := Some accessJTI;
         rt_ExpiresAt := time_add (ck 0%nat) (ttl (cl_RefreshTokenTTL client));
         rt_CreatedAt := time_zero |} None None (ck 2%nat));
    mret (Some refreshTokenID)
  else mret None.

(** The ID token, for grants with the openid scope. *)
Definition issueIDToken (client : Client) (g : grant) (subject accessJWT : string)
    (rd : entropy) (ck : clock) : TM (option string) :=
  if hasScope (g_Scopes g) "openid" then
    let now := ck 0%nat in
    idJTI ← generated (Store.GenerateIDTokenJTI (rd 3%nat));
    let idExpiresAt := time_add now (ttl (cl_IDTokenTTL client)) in
    let atHash := computeATHash accessJWT in
    let idClaims :=
      [("iss", CStr issuer); ("sub", CStr subject); ("aud", CStr (cl_ID client));
       ("iat", CInt (time_unix now)); ("exp", CInt (time_unix idExpiresAt));
       ("auth_time", CInt (time_unix (g_AuthTime g))); ("jti", CStr idJTI); ("acr", CStr (g_ACR g));
       ("amr", CStrs (g_AMR g)); ("at_hash", CStr atHash)]%list in
    let idClaims :=
      match g_Nonce g with
      | Some n => if String.eqb n "" then idClaims else (idClaims ++ [("nonce", CStr n)])%list
      | None => idClaims
      end in
    idTokenJWT ← signed (SignIDToken idClaims);
    _ ← call TKStore (Store.CreateIDToken
      {| it_JTI := idJTI; it_ClientID := cl_ID client; it_IdentityID := g_IdentityID g;
         it_SessionID := g_SessionID g; it_Nonce := g_Nonce g; it_ATHash := Some atHash;
         it_CHash := None; it_ACR := g_ACR g; it_AMR := g_AMR g; it_AuthTime := g_AuthTime g;
         it_Revoked := false; it_ExpiresAt := idExpiresAt; it_CreatedAt := time_zero |}
      None (ck 3%nat));
    mret (Some idTokenJWT)
  else mret None.

Definition issueTokens (client : Client) (g : grant) (rd : entropy) (ck : clock) : TM TokenResponse :=
  subject ← lift_result (resolveTokenSubject client (g_IdentityID g) issuer);
  '(accessJTI, jwt) ← issueAccessToken client g subject rd ck;
  refresh ← issueRefreshToken client g accessJTI rd ck;
  idToken ← issueIDToken client g subject jwt rd ck;
  mret {| ts_AccessToken := jwt; ts_TokenType := "Bearer"; ts_ExpiresIn := cl_AccessTokenTTL client;
          ts_RefreshToken := refresh; ts_IDToken := idToken;
          ts_Scope := Join (elems (g_Scopes g)) " " |}.

(** ** The authorization code grant *)

(** The PKCE check of a code. *)
Definition checkPKCE (c : AuthCode) (verifier : string) : result error unit :=
  match ac_CodeChallenge c with
  | None => Ok tt
  | Some challenge =>
      if String.eqb challenge "" then Ok tt
      else if String.eqb verifier "" then Err (TKStore ErrPKCERequired)
      else
        match Authorization.VerifyPKCE verifier challenge (default "S256" (ac_CodeChallengeMethod c)) with
        | Ok _ => Ok tt
        | Err Authorization.PKCEUnsupported => Err ErrUnsupportedChallengeMethod
        | Err Authorization.PKCEMismatch => Err (TKStore ErrPKCEMismatch)
        end
  end.

(** The checks of a retrieved code, in order. *)
Definition checkCode (c : AuthCode) (client : Client) (req : TokenRequest) (now : time) : result error unit :=
  match Store.AuthCode_IsValid c now with
  | Err _ => Err ErrInvalidGrant
  | Ok _ =>
      if negb (String.eqb (ac_ClientID c) (cl_ID client)) then Err ErrInvalidGrant
      else if negb (String.eqb (ac_RedirectURI c) (tr_RedirectURI req)) then Err ErrInvalidGrant
      else checkPKCE c (tr_CodeVerifier req)
  end.

Definition code_grant (c : AuthCode) : grant :=
  {| g_IdentityID := ac_IdentityID c; g_SessionID := ac_SessionID c; g_Scopes := ac_Scopes c;
     g_Audience := ac_Audience c; g_Nonce := ac_Nonce c; g_ACR := ac_ACR c; g_AMR := ac_AMR c;
     g_AuthTime := ac_AuthTime c |}.

(** Up to and including the read of the code; the code passed its checks. *)
Definition readCode (req : TokenRequest) (now : time) : TM (Client * AuthCode) :=
  if blank (tr_ClientID req) || blank (tr_Code req) || blank (tr_RedirectURI req)
  then throw ErrInvalidRequest
  else
    client ← grantClient (tr_ClientID req) (tr_ClientSecret req) ["authorization_code"];
    authCode ← call (fun _ => ErrInvalidGrant) (Store.GetAuthCode (tr_Code req));
    _ ← lift_result (checkCode authCode client req now);
    mret (client, authCode).

(** The statement that claims the code. *)
Definition claimCode (req : TokenRequest) (now : time) : TM unit :=
  call (fun _ => ErrInvalidGrant) (Store.MarkAuthCodeUsed (tr_Code req) now).

Definition ExchangeAuthorizationCode (req : option TokenRequest) (rd : entropy) (ck : clock)
    : TM TokenResponse :=
  match req with
  | None => throw ErrInvalidRequest
  | Some req =>
      '(client, authCode) ← readCode req (ck 0%nat);
      _ ← claimCode req (ck 1%nat);
      issueTokens client (code_grant authCode) rd (shift 2 ck)
  end.

(** ** The refresh token grant *)

(** strconv.Atoi on 64-bit platforms. *)
Definition refreshTokenGracePeriod (client : Client) : result error duration :=
  match cl_Metadata client with
  | None => Ok 0%Z
  | Some md =>
      let field k := TrimSpace (default "" (md !! k)) in
      let raw := if String.eqb (field "refresh_token_grace_seconds") ""
                 then field "refresh_token_grace_period_seconds"
                 else field "refresh_token_grace_seconds" in
      if String.eqb raw "" then Ok 0%Z
      else
        match ParseInt raw with
        | Some n => if (n <? 0)%Z then Err ErrInvalidClient else Ok (ttl n)
        | None => Err ErrInvalidClient
        end
  end.

(** The scopes of a refresh: those requested, which have to be among the
    original ones, or the original ones. *)
Definition refreshScopes (t : RefreshToken) (scope : string) : result error strings :=
  if String.eqb scope "" then Ok (rt_Scopes t)
  else if forallb (fun rs => Store.mem rs (elems (rt_Scopes t))) (elems (parseScopes scope))
  then Ok (parseScopes scope)
  else Err ErrInvalidScope.

Definition inGracePeriod (t : RefreshToken) (now : time) : bool :=
  match rt_GracePeriodExpiresAt t with Some e => time_after e now | None => false end.

Definition refresh_grant (t : RefreshToken) (scopes : strings) (now : time) : grant :=
  {| g_IdentityID := rt_IdentityID t; g_SessionID := rt_SessionID t; g_Scopes := scopes;
     g_Audience := rt_Audience t; g_Nonce := None; g_ACR := "aal1"; g_AMR := Some ["pwd"];
     g_AuthTime := now |}.

(** The rotation: new tokens, then the old token is marked used and linked to
    its successor. *)
Definition rotate (client : Client) (req : TokenRequest) (t : RefreshToken) (rd : entropy) (ck : clock)
    : TM TokenResponse :=
  match Store.RefreshToken_IsValid t (ck 0%nat) with
  | Err _ => throw ErrInvalidGrant
  | Ok _ =>
      if negb (String.eqb (rt_ClientID t) (cl_ID client)) then throw ErrInvalidGrant
      else
        scopes ← lift_result (refreshScopes t (tr_Scope req));
        resp ← issueTokens client (refresh_grant t scopes (ck 1%nat)) rd (shift 2 ck);
        match ts_RefreshToken resp with
        | None => throw ErrInvalidScope
        | Some successor =>
            if blank successor then throw ErrInvalidScope
            else
              gracePeriod ← lift_result (refreshTokenGracePeriod client);
              _ ← call TKStore (Store.MarkRefreshTokenUsed (tr_RefreshToken req) successor gracePeriod (ck 6%nat));
              mret resp
        end
  end.

(** The request of the recursive call: the successor, without a scope. *)
Definition successor_request (req : TokenRequest) (successor : string) : TokenRequest :=
  {| tr_GrantType := tr_GrantType req; tr_Code := ""; tr_RedirectURI := "";
     tr_ClientID := tr_ClientID req; tr_ClientSecret := tr_ClientSecret req; tr_CodeVerifier := "";
     tr_RefreshToken := successor; tr_Scope := "" |}.

(** [fuel] bounds the chain of successors followed within the grace period. *)
Fixpoint refreshAccessToken (fuel : nat) (req : TokenRequest) (rd : entropy) (ck : clock) : TM TokenResponse :=
  match fuel with
  | O => throw OutOfFuel
  | S fuel =>
      if blank (tr_ClientID req) || blank (tr_RefreshToken req) then throw ErrInvalidRequest
      else
        client ← grantClient (tr_ClientID req) (tr_ClientSecret req) ["refresh_token"];
        refreshToken ← call (fun _ => ErrInvalidGrant) (Store.GetRefreshToken (tr_RefreshToken req));
        if rt_Used refreshToken then
          if negb (inGracePeriod refreshToken (ck 0%nat)) then
            _ ← attempt (Store.InvalidateRefreshTokenFamily (rt_FamilyID refreshToken));
            throw (TKStore ErrFamilyInvalidated)
          else
            match rt_SuccessorID refreshToken with
            | Some successor =>
                refreshAccessToken fuel (successor_request req successor) rd (shift 1 ck)
            | None => rotate client req refreshToken rd (shift 1 ck)
            end
        else rotate client req refreshToken rd (shift 1 ck)
  end.

Definition RefreshAccessToken (fuel : nat) (req : option TokenRequest) (rd : entropy) (ck : clock)
    : TM TokenResponse :=
  match req with
  | None => throw ErrInvalidRequest
  | Some req => refreshAccessToken fuel req rd ck
  end.

(** ** The device code grant *)

Definition ExchangeDeviceCode (req : option DeviceCodeTokenRequest) (rd : entropy) (ck : clock)
    : TM TokenResponse :=
  match req with
  | None => throw ErrInvalidRequest
  | Some req =>
      if blank (dr_ClientID req) || blank (dr_IdentityID req) then throw ErrInvalidRequest
      else
        client ← grantClient (dr_ClientID req) (dr_ClientSecret req)
                   ["urn:ietf:params:oauth:grant-type:device_code"; "device_code"];
        if negb (forallb (Store.HasScope client) (elems (dr_Scopes req))) then throw ErrInvalidScope
        else
          let authTime := if bool_decide (dr_AuthTime req = time_zero) then ck 0%nat else dr_AuthTime req in
          issueTokens client
            {| g_IdentityID := dr_IdentityID req; g_SessionID := dr_SessionID req;
               g_Scopes := dr_Scopes req; g_Audience := dr_Audience req; g_Nonce := None;
               g_ACR := "aal1"; g_AMR := Some ["pwd"]; g_AuthTime := authTime |} rd (shift 1 ck)
  end.

(** ** Introspection and revocation *)

Definition resolveAccessTokenForIntrospection (token : string) : TM AccessToken :=
  r ← attempt (Store.GetAccessToken token);
  match r with
  | Ok t => mret t
  | Err ErrNotFound => call TKStore (Store.GetAccessTokenBySignature (accessTokenSignature token))
  | Err e => throw (TKStore e)
  end.

Definition IntrospectToken (req : option IntrospectionRequest) (now : time) : TM IntrospectionResponse :=
  match req with
  | None => throw ErrInvalidRequest
  | Some req =>
      if blank (ir_Token req) || blank (ir_ClientID req) then throw ErrInvalidRequest
      else
        client ← call (fun _ => ErrInvalidClient) (Store.GetClient (ir_ClientID req));
        if blank (cl_TokenEndpointAuthMethod client) || String.eqb (cl_TokenEndpointAuthMethod client) "none"
        then throw ErrUnauthorizedClient
        else
          _ ← lift_result (authenticateClient client (ir_ClientSecret req));
          r ← attempt (resolveAccessTokenForIntrospection (ir_Token req));
          match r with
          | Err (TKStore ErrNotFound) => mret inactive
          | Err e => throw e
          | Ok t =>
              if at_Revoked t || time_after now (at_ExpiresAt t) then mret inactive
              else if negb (String.eqb (at_ClientID t) (cl_ID client)) then throw ErrUnauthorizedClient
              else mret {| is_Active := true; is_ClientID := at_ClientID t; is_Subject := at_Subject t;
                           is_Scope := Join (elems (at_Scopes t)) " ";
                           is_ExpiresAt := time_unix (at_ExpiresAt t); is_Issuer := at_Issuer t;
                           is_Audience := match elems (at_Audience t) with [] => None | l => Some l end;
                           is_TokenType := "Bearer" |}
          end
  end.

(** [TokenService.RevokeToken], which authenticates nobody. *)
Definition RevokeToken (token hint : string) (now : time) : TM unit :=
  let tries kind := String.eqb hint "" || String.eqb hint kind in
  done ← (if tries "access_token"
          then r ← attempt (Store.RevokeAccessToken token now);
               mret (match r with Ok _ => true | Err _ => false end)
          else mret false);
  if (done : bool) then mret tt
  else if tries "refresh_token" then
    r ← attempt (Store.GetRefreshToken token);
    match r with
    | Ok t => _ ← attempt (E' := error) (Store.InvalidateRefreshTokenFamily (rt_FamilyID t)); mret tt
    | Err _ => mret tt
    end
  else mret tt.

End service.

End TokenService.

(** ** Client credentials and JWT bearer assertions (service/grants) *)

Module Grants.

Inductive error : Type :=
| ErrInvalidClient
| ErrInvalidScope
| ErrUnauthorizedClient
| ErrGenerate
| ErrSign
| ErrAssertion
| GRStore (e : store_error).

Abbreviation GM := (M oauth_db error).

Record ClientCredentialsResponse : Type := {
  cc_AccessToken : string;
  cc_TokenType : string;
  cc_ExpiresIn : Z;
  cc_Scope : string;
}.

Record ClientCredentialsRequest : Type := {
  cq_ClientID : string;
  cq_ClientSecret : string;
  cq_Scope : string;
}.

Record JWTBearerRequest : Type := {
  jb_GrantType : string;
  jb_Assertion : string;
  jb_Scope : string;
  jb_ClientID : string;
  jb_ClientSecret : string;
}.

Record JWTAssertionClaims : Type := {
  jc_Issuer : string;
  jc_Subject : string;
  jc_Audience : strings;
  jc_ExpiresAt : time;
  jc_IssuedAt : time;
  jc_Scopes : strings;
}.

Section grants.
Context `{OAuth2Env} (issuer : string).
(** The assertion validator is an interface of the code; [None] is its error. *)
Context (ValidateJWTAssertion : string -> string -> option JWTAssertionClaims).

(** [hasGrantType] and [scopesAllowed]. *)
Definition hasGrantType (gts : list string) (gt : string) : bool := Store.mem gt gts.
Definition scopesAllowed (scopes : strings) (allowed : list string) : bool :=
  forallb (fun s => Store.mem s allowed) (elems scopes).

(** The client of both grants: confidential, authenticated and registered for
    the grant type.  [authenticateClient] of this package is the function of
    the token package with this package's ErrInvalidClient. *)
Definition grantsClient (id secret gt : string) : GM Client :=
  client ← call (fun _ => ErrInvalidClient) (Store.GetClient id);
  let method := cl_TokenEndpointAuthMethod client in
  if String.eqb method "" || String.eqb method "none" then throw ErrInvalidClient
  else
    _ ← call (fun _ => ErrInvalidClient) (lift_result (TokenService.authenticateClient client secret));
    if negb (hasGrantType (cl_GrantTypes client) gt) then throw ErrUnauthorizedClient
    else mret client.

(** The access token both grants end with; its row has no signature. *)
Definition issueAccess (client : Client) (identityID subject : string) (audience : strings) (aud : claim)
    (scopes : strings) (rd : entropy) (ck : clock) : GM ClientCredentialsResponse :=
  let now := ck 0%nat in
  jti ← call (fun _ => ErrGenerate) (lift_result (Store.GenerateAccessTokenJTI (rd 0%nat)));
  let expiresAt := time_add now (ttl (cl_AccessTokenTTL client)) in
  let scope := Join (elems scopes) " " in
  jwt ← match SignAccessToken
           [("iss", CStr issuer); ("sub", CStr subject); ("aud", aud); ("iat", CInt (time_unix now));
            ("exp", CInt (time_unix expiresAt)); ("jti", CStr jti); ("client_id", CStr (cl_ID client));
            ("scope", CStr scope)] with
        | Some jwt => mret jwt
        | None => throw ErrSign
        end;
  _ ← call GRStore (Store.CreateAccessToken
    {| at_JTI := jti; at_Signature := None; at_ClientID := cl_ID client; at_IdentityID := identityID;
       at_SessionID := ""; at_Scopes := scopes; at_Audience := audience; at_Issuer := issuer;
       at_Subject := subject; at_Revoked := false; at_RevokedAt := None; at_ExpiresAt := expiresAt;
       at_CreatedAt := time_zero |} None (ck 1%nat));
  mret {| cc_AccessToken := jwt; cc_TokenType := "Bearer"; cc_ExpiresIn := cl_AccessTokenTTL client;
          cc_Scope := scope |}.

Definition IssueClientCredentials (req : option ClientCredentialsRequest) (rd : entropy) (ck : clock)
    : GM ClientCredentialsResponse :=
  match req with
  | None => throw ErrInvalidClient
  | Some req =>
      if blank (cq_ClientID req) then throw ErrInvalidClient
      else
        client ← grantsClient (cq_ClientID req) (cq_ClientSecret req) "client_credentials";
        let scopes := parseScopes (cq_Scope req) in
        if negb (scopesAllowed scopes (cl_Scopes client)) then throw ErrInvalidScope
        else issueAccess client "" (cl_ID client) (Some [cl_ID client]) (CStr (cl_ID client)) scopes rd ck
  end.

Definition IssueJWTBearer (req : option JWTBearerRequest) (rd : entropy) (ck : clock)
    : GM ClientCredentialsResponse :=
  match req with
  | None => throw ErrInvalidClient
  | Some req =>
      if blank (jb_ClientID req) || blank (jb_Assertion req) then throw ErrInvalidClient
      else
        client ← grantsClient (jb_ClientID req) (jb_ClientSecret req)
                   "urn:ietf:params:oauth:grant-type:jwt-bearer";
        match ValidateJWTAssertion (jb_Assertion req) (jb_ClientID req) with
        | None => throw ErrAssertion
        | Some cl =>
            let scopes := if String.eqb (jb_Scope req) "" then jc_Scopes cl else parseScopes (jb_Scope req) in
            if negb (scopesAllowed scopes (cl_Scopes client)) then throw ErrInvalidScope
            else issueAccess client (jc_Subject cl) (jc_Subject cl) (jc_Audience cl) (CStrs (jc_Audience cl))
                   scopes rd ck
        end
  end.

End grants.
End Grants.

(** ** Revocation (service/revocation) *)

Module Revocation.

Inductive error : Type := ErrInvalidClient.
Abbreviation RM := (M oauth_db error).

Record RevocationRequest : Type := {
  rv_Token : string;
  rv_TokenTypeHint : string;
  rv_ClientID : string;
  rv_ClientSecret : string;
}.

Section revocation.
Context `{OAuth2Env}.

(** [authenticateClientSecret]: hashes start with a dollar sign, anything else
    is a legacy clear-text secret. *)
Definition authenticateClientSecret (hashed plain : string) : bool :=
  if HasPrefix hashed "$" then
    match VerifyPassword plain hashed with Some b => b | None => false end
  else ConstantTimeCompare hashed plain.

Definition mayRevoke (client : Client) (secret : string) : bool :=
  let method := cl_TokenEndpointAuthMethod client in
  if String.eqb method "" || String.eqb method "none" then true
  else if String.eqb method "client_secret_basic" || String.eqb method "client_secret_post" then
    negb (String.eqb secret "") &&
    match cl_SecretHash client with Some h => authenticateClientSecret h secret | None => false end
  else false.

Definition RevokeToken (req : RevocationRequest) (now : time) : RM unit :=
  if String.eqb (rv_ClientID req) "" then throw ErrInvalidClient
  else
    client ← call (fun _ => ErrInvalidClient) (Store.GetClient (rv_ClientID req));
    if negb (mayRevoke client (rv_ClientSecret req)) then throw ErrInvalidClient
    else
      let hint := rv_TokenTypeHint req in
      let tries kind := String.eqb hint "" || String.eqb hint kind in
      done ← (if tries "access_token"
              then r ← attempt (Store.RevokeAccessToken (rv_Token req) now);
                   mret (match r with Ok _ => true | Err _ => false end)
              else mret false);
      if (done : bool) then mret tt
      else if tries "refresh_token" then
        r ← attempt (Store.GetRefreshToken (rv_Token req));
        match r with
        | Ok t =>
            if negb (String.eqb (rt_ClientID t) (cl_ID client)) then mret tt
            else _ ← attempt (E' := error) (Store.InvalidateRefreshTokenFamily (rt_FamilyID t)); mret tt
        | Err _ => mret tt
        end
      else mret tt.

End revocation.
End Revocation.
