(* ===== verification/OAuth2Facts.v ===== *)
(** The OAuth2 module: no grant, refresh or exchange reaches beyond what the
    client is registered for; the token endpoint: who gets tokens for a code,
    and what issuing them changes. *)

From Stdlib Require Import Ascii String.
From S2P Require Import Prelude GoStrings GoEncoding GoSha256 PlatformCrypto Session.
From S2P Require Import OAuth2Store OAuth2Authorize OAuth2Token.

Local Open Scope string_scope.

(** ** Statements of the store *)

Lemma mem_elem x l : Store.mem x l = true <-> x ∈ l.
Proof.
  unfold Store.mem. rewrite existsb_exists. split.
  - intros (y & Hy & Heq). apply String.eqb_eq in Heq as ->. by apply list_elem_of_In.
  - intros Hx. exists x. rewrite String.eqb_refl. split; [by apply list_elem_of_In|done].
Qed.

Lemma forallb_mem l allowed :
  forallb (fun v => Store.mem v allowed) l = true <-> forall v, v ∈ l -> v ∈ allowed.
Proof.
  rewrite forallb_forall. setoid_rewrite mem_elem. split; intros Hl v Hv; apply Hl; by apply list_elem_of_In.
Qed.

Section statements.
Context {A : Type} (tbl : oauth_db -> gmap string A)
  (upd : (gmap string A -> gmap string A) -> oauth_db -> oauth_db).

Lemma insert_row_ok req refs k (row : A) db u db' :
  insert_row tbl upd req refs k row db = Ok (u, db') ->
  tbl db !! k = None /\ first_null req = None /\ db' = upd (insert k row) db.
Proof. unfold insert_row. intros. split_matches; naive_solver. Qed.

Lemma update_where_ok p f k db b db' :
  update_where tbl upd p f k db = Ok (b, db') ->
  (b = false /\ db' = db) \/
  (exists row, b = true /\ tbl db !! k = Some row /\ p row = true /\ db' = upd (insert k (f row)) db).
Proof. unfold update_where. intros. split_matches; naive_solver. Qed.

Lemma select_ok k db (a : A) db' :
  select tbl k db = Ok (a, db') -> tbl db !! k = Some a /\ db' = db.
Proof. unfold select. intros. split_matches; naive_solver. Qed.

End statements.

Lemma no_rows_yields {A} P (m : Store.SM A) Q : yields P m Q -> yields P (Store.no_rows m) Q.
Proof.
  intros Hm w Hw. unfold Store.no_rows, M_try. destruct (Hm w Hw) as [Hw' HQ].
  destruct (m w) as [[a|e] w']; simpl in *.
  - split; [done|]. intros ? [= <-]. eauto.
  - split; [by destruct e as [| | | | | | | | | | |[]]|]. by destruct e as [| | | | | | | | | | |[]].
Qed.

Lemma no_duplicate_yields P (m : Store.SM unit) Q : yields P m Q -> yields P (Store.no_duplicate m) Q.
Proof.
  intros Hm w Hw. unfold Store.no_duplicate, M_try. destruct (Hm w Hw) as [Hw' HQ].
  destruct (m w) as [[a|e] w']; simpl in *.
  - split; [done|]. intros ? [= <-]. eauto.
  - split; [by destruct e as [| | | | | | | | | | |[]]|]. by destruct e as [| | | | | | | | | | |[]].
Qed.

(** Sequencing where the result of the first step does not matter. *)
Lemma yields_seq {S E A B} (P : S -> Prop) (m : M S E A) (f : A -> M S E B) R :
  yields P m (fun _ => True) -> (forall a, yields P (f a) R) -> yields P (m ≫= f) R.
Proof. intros Hm Hf. eapply yields_bind; eauto. Qed.

Lemma affects_yields P e (m : Store.SM bool) : yields P m (fun _ => True) ->
  yields P (Store.affects e m) (fun _ => True).
Proof.
  intros Hm. eapply yields_bind; [exact Hm|]. intros [] _; [by apply yields_ret|by apply yields_throw].
Qed.

Lemma or_generate_yields P x gen : yields P (Store.or_generate x gen) (fun _ => True).
Proof. unfold Store.or_generate. case_match; [by apply yields_lift|by apply yields_ret]. Qed.

(** ** What a client is registered for *)

Section scopes.
Context (cl : gmap string Client).

Definition within (id : string) (scopes : strings) : Prop :=
  exists c, cl !! id = Some c /\ forall s, s ∈ elems scopes -> s ∈ cl_Scopes c.
Definition registered (id uri : string) : Prop :=
  exists c, cl !! id = Some c /\ uri ∈ cl_RedirectURIs c.

Definition login_ok (l : LoginChallenge) : Prop :=
  within (lc_ClientID l) (lc_Scopes l) /\ registered (lc_ClientID l) (lc_RedirectURI l).
Definition consent_ok (c : ConsentChallenge) : Prop :=
  within (ch_ClientID c) (ch_RequestedScopes c) /\ registered (ch_ClientID c) (ch_RedirectURI c).
Definition code_ok (c : AuthCode) : Prop :=
  within (ac_ClientID c) (ac_Scopes c) /\ registered (ac_ClientID c) (ac_RedirectURI c).
Definition access_ok (t : AccessToken) : Prop := within (at_ClientID t) (at_Scopes t).
Definition refresh_ok (t : RefreshToken) : Prop := within (rt_ClientID t) (rt_Scopes t).

(** The tables hold nothing beyond the registrations [cl]. *)
Record scope_inv (db : oauth_db) : Prop := {
  si_clients : t_clients db = cl;
  si_logins : map_Forall (fun _ => login_ok) (t_logins db);
  si_consents : map_Forall (fun _ => consent_ok) (t_consents db);
  si_codes : map_Forall (fun _ => code_ok) (t_codes db);
  si_access : map_Forall (fun _ => access_ok) (t_access db);
  si_refresh : map_Forall (fun _ => refresh_ok) (t_refresh db);
}.

Lemma Forall_filter {K A} `{Countable K} (P : A -> Prop) (Q : K * A -> Prop) `{!forall x, Decision (Q x)}
    (m : gmap K A) : map_Forall (fun _ => P) m -> map_Forall (fun _ => P) (filter Q m).
Proof. intros Hm k a [Ha _]%map_lookup_filter_Some. by eapply Hm. Qed.

Lemma Forall_fmap {A} (P : A -> Prop) (f : A -> A) (m : gmap string A) :
  (forall a, P a -> P (f a)) -> map_Forall (fun _ => P) m -> map_Forall (fun _ => P) (f <$> m).
Proof. intros Hf Hm k a. rewrite lookup_fmap. intros (b & Hb & ->)%fmap_Some. eauto. Qed.

Lemma Forall_insert {A} (P : A -> Prop) k a (m : gmap string A) :
  P a -> map_Forall (fun _ => P) m -> map_Forall (fun _ => P) (<[k := a]> m).
Proof. intros. by apply map_Forall_insert_2. Qed.

Lemma Forall_delete {A} (P : A -> Prop) k (m : gmap string A) :
  map_Forall (fun _ => P) m -> map_Forall (fun _ => P) (base.delete k m).
Proof. intros Hm i a [_ Ha]%lookup_delete_Some. by eapply Hm. Qed.

End scopes.

Create HintDb oauth.
#[export] Hint Resolve Forall_insert Forall_filter Forall_fmap Forall_delete : oauth.
#[export] Hint Extern 1 => match goal with
  | Hm : map_Forall _ ?m, Hk : ?m !! _ = Some ?a |- _ => apply (Hm _ _ Hk)
  end : oauth.
#[export] Hint Resolve yields_ret yields_throw yields_call yields_lift : oauth.

(** Statements: destruct what ran, rebuild the invariant. *)
Ltac stmt_cases :=
  repeat match goal with
  | Hs : insert_row _ _ _ _ _ _ _ = Ok _ |- _ => apply insert_row_ok in Hs as (? & ? & ->)
  | Hs : update_where _ _ _ _ _ _ = Ok _ |- _ =>
      apply update_where_ok in Hs as [(-> & ->)|(? & -> & ? & ? & ->)]
  | Hs : select _ _ _ = Ok _ |- _ => apply select_ok in Hs as (? & ->)
  | Hs : delete_where _ _ _ _ = Ok _ |- _ => unfold delete_where in Hs; simplify_eq/=
  | Hs : Store.update_all _ _ _ _ _ = Ok _ |- _ => unfold Store.update_all in Hs; simplify_eq/=
  end.
Ltac by_stmt :=
  apply yields_stmt; intros ? ? ? ? [];
  stmt_cases; simplify_eq/=; split_and?; try constructor; simpl; eauto with oauth.

Section store.
Context (cl : gmap string Client).
Abbreviation inv := (scope_inv cl).

Lemma GetClient_yields id : yields inv (Store.GetClient id) (fun c => cl !! id = Some c).
Proof. apply no_rows_yields. by_stmt. Qed.
Lemma GetAuthCode_yields k : yields inv (Store.GetAuthCode k) (code_ok cl).
Proof. apply no_rows_yields. by_stmt. Qed.
Lemma GetLoginChallenge_yields k : yields inv (Store.GetLoginChallenge k) (login_ok cl).
Proof. apply no_rows_yields. by_stmt. Qed.
Lemma GetConsentChallenge_yields k : yields inv (Store.GetConsentChallenge k) (consent_ok cl).
Proof. apply no_rows_yields. by_stmt. Qed.
Lemma GetRefreshToken_yields k : yields inv (Store.GetRefreshToken k) (refresh_ok cl).
Proof. apply no_rows_yields. by_stmt. Qed.

Lemma CreateAuthCode_yields c r now :
  code_ok cl c -> yields inv (Store.CreateAuthCode c r now) (fun _ => True).
Proof.
  intros Hc. apply yields_seq; [apply or_generate_yields|]; intros id. cbv zeta.
  apply yields_seq; [apply no_duplicate_yields; by_stmt|]; eauto with oauth.
Qed.
Lemma CreateLoginChallenge_yields c r now :
  login_ok cl c -> yields inv (Store.CreateLoginChallenge c r now) (fun _ => True).
Proof.
  intros Hc. apply yields_seq; [apply or_generate_yields|]; intros id. cbv zeta.
  apply yields_seq; [by_stmt|]; eauto with oauth.
Qed.
Lemma CreateConsentChallenge_yields c r now :
  consent_ok cl c -> yields inv (Store.CreateConsentChallenge c r now) (fun _ => True).
Proof.
  intros Hc. apply yields_seq; [apply or_generate_yields|]; intros id. cbv zeta.
  apply yields_seq; [by_stmt|]; eauto with oauth.
Qed.
Lemma CreateAccessToken_yields t r now :
  access_ok cl t -> yields inv (Store.CreateAccessToken t r now) (fun _ => True).
Proof.
  intros Hc. apply yields_seq; [apply or_generate_yields|]; intros id. cbv zeta. by_stmt.
Qed.
Lemma CreateRefreshToken_yields t r1 r2 now :
  refresh_ok cl t -> yields inv (Store.CreateRefreshToken t r1 r2 now) (fun _ => True).
Proof.
  intros Hc. apply yields_seq; [apply or_generate_yields|]; intros id.
  apply yields_seq; [apply or_generate_yields|]; intros family. cbv zeta. by_stmt.
Qed.
Lemma CreateIDToken_yields t r now : yields inv (Store.CreateIDToken t r now) (fun _ => True).
Proof.
  apply yields_seq; [apply or_generate_yields|]; intros id. cbv zeta. by_stmt.
Qed.
Lemma CreateConsentSession_yields c now dbnow :
  yields inv (Store.CreateConsentSession c now dbnow) (fun _ => True).
Proof. apply yields_stmt. unfold int4. intros db a db' Hs []. split_matches; by constructor. Qed.
Lemma GetConsentSession_yields c i : yields inv (Store.GetConsentSession c i) (fun _ => True).
Proof. apply no_rows_yields, yields_stmt. intros db a db' Hs Hdb. by split_matches. Qed.

Lemma MarkAuthCodeUsed_yields k now : yields inv (Store.MarkAuthCodeUsed k now) (fun _ => True).
Proof. apply affects_yields. by_stmt. Qed.
Lemma AcceptLoginChallenge_yields k i s now :
  yields inv (Store.AcceptLoginChallenge k i s now) (fun _ => True).
Proof. apply affects_yields. by_stmt. Qed.
Lemma AcceptConsentChallenge_yields k sc au rem rf now :
  yields inv (Store.AcceptConsentChallenge k sc au rem rf now) (fun _ => True).
Proof.
  apply affects_yields, yields_stmt. unfold int4. intros db a db' Hs Hdb.
  assert (Hs' : update_where t_consents upd_consents (fun _ => true)
                  (Store.set_granted sc au rem rf now) k db = Ok (a, db')) by by split_matches.
  clear Hs. destruct Hdb. stmt_cases; split; try constructor; simpl; eauto with oauth.
Qed.
Lemma RejectConsentChallenge_yields k c d now :
  yields inv (Store.RejectConsentChallenge k c d now) (fun _ => True).
Proof. apply affects_yields. by_stmt. Qed.
Lemma RevokeAccessToken_yields k now : yields inv (Store.RevokeAccessToken k now) (fun _ => True).
Proof. apply affects_yields. by_stmt. Qed.
Lemma MarkRefreshTokenUsed_yields k s g now :
  yields inv (Store.MarkRefreshTokenUsed k s g now) (fun _ => True).
Proof. apply affects_yields. by_stmt. Qed.
Lemma InvalidateRefreshTokenFamily_yields f :
  yields inv (Store.InvalidateRefreshTokenFamily f) (fun _ => True).
Proof. by_stmt. apply Forall_fmap; [|done]. intros t ?. by case_match. Qed.
Lemma GetSessionAuthContext_yields `{UuidText} s :
  yields inv (Store.GetSessionAuthContext s) (fun _ => True).
Proof.
  unfold Store.GetSessionAuthContext. repeat case_match; [by apply yields_throw| |].
  - apply yields_seq; [apply no_rows_yields, yields_stmt|].
    { intros. by split_matches. }
    intros row. apply yields_seq; [by_stmt|]. eauto with oauth.
  - by apply yields_stmt.
Qed.
End store.
#[export] Hint Resolve GetClient_yields GetAuthCode_yields GetLoginChallenge_yields
  GetConsentChallenge_yields GetRefreshToken_yields CreateAuthCode_yields CreateLoginChallenge_yields
  CreateConsentChallenge_yields CreateAccessToken_yields CreateRefreshToken_yields CreateIDToken_yields
  CreateConsentSession_yields GetConsentSession_yields MarkAuthCodeUsed_yields
  AcceptLoginChallenge_yields AcceptConsentChallenge_yields RejectConsentChallenge_yields
  RevokeAccessToken_yields MarkRefreshTokenUsed_yields InvalidateRefreshTokenFamily_yields
  GetSessionAuthContext_yields : oauth.

Lemma attempt_any {S E E' A} (P : S -> Prop) (m : M S E A) Q :
  yields P m Q -> yields P (attempt m : M S E' _) (fun _ => True).
Proof. intros Hm. eapply yields_weaken; [by apply yields_attempt|done]. Qed.
#[export] Hint Resolve attempt_any : oauth.

(** ** The services keep the registrations *)

Section services.
Context (cl : gmap string Client) (Hcl : forall k c, cl !! k = Some c -> cl_ID c = k).
Abbreviation inv := (scope_inv cl).

Lemma checkAuthorize_ok req c scopes :
  Authorization.checkAuthorize req c = Ok scopes ->
  Authorization.ar_RedirectURI req ∈ cl_RedirectURIs c /\
  (forall s, s ∈ elems scopes -> s ∈ cl_Scopes c).
Proof.
  unfold Authorization.checkAuthorize. intros Hc.
  repeat (case_match; [discriminate|]); simplify_eq.
  repeat match goal with Hb : negb _ = false |- _ => apply negb_false_iff in Hb end.
  split; [by apply mem_elem|by apply forallb_mem].
Qed.

Lemma StartAuthorization_yields req r ck :
  yields inv (Authorization.StartAuthorization req r ck) (fun _ => True).
Proof.
  unfold Authorization.StartAuthorization. destruct req as [req|]; [|eauto with oauth].
  case_match; [eauto with oauth|].
  eapply yields_bind; [eauto with oauth|]. intros c Hc. cbv beta in Hc.
  eapply yields_bind; [apply yields_lift, checkAuthorize_ok|]. intros scopes [Huri Hsc].
  apply yields_seq; [eauto with oauth|]. intros id. cbv zeta.
  apply yields_seq; [|eauto with oauth]. apply yields_call, CreateLoginChallenge_yields.
  pose proof (Hcl _ _ Hc) as Hid. unfold login_ok; simpl.
  rewrite Hid. split; exists c; eauto.
Qed.

Lemma skipsConsent_yields l i now : yields inv (Authorization.skipsConsent l i now) (fun _ => True).
Proof.
  unfold Authorization.skipsConsent. case_match; [eauto with oauth|].
  apply yields_seq; [eauto with oauth|]. intros [c|]; simpl; repeat case_match; eauto with oauth;
    (apply yields_seq; [eauto with oauth|]); eauto with oauth.
Qed.

Lemma AcceptLogin_yields k i s ck : yields inv (Authorization.AcceptLogin k i s ck) (fun _ => True).
Proof.
  unfold Authorization.AcceptLogin. eapply yields_bind; [eauto with oauth|]. intros l Hl.
  case_match; [eauto with oauth|].
  apply yields_seq; [eauto with oauth|]. intros _.
  apply yields_seq; [apply skipsConsent_yields|]. intros skip. cbv zeta.
  apply yields_seq; [apply yields_call, CreateConsentChallenge_yields, Hl|]. intros id.
  apply yields_seq; [|eauto with oauth]. case_match; eauto with oauth.
Qed.

Lemma AcceptConsent_yields `{UuidText} k sc rem rf rd ck dbnow :
  yields inv (Authorization.AcceptConsent k sc rem rf rd ck dbnow) (fun _ => True).
Proof.
  unfold Authorization.AcceptConsent. eapply yields_bind; [eauto with oauth|]. intros ch [Hsc Huri].
  do 3 (case_match; [eauto with oauth|]).
  apply yields_seq; [eauto with oauth|]. intros _.
  apply yields_seq.
  { unfold Authorization.rememberConsent. case_match; eauto with oauth. cbv zeta.
    apply yields_seq; [eauto with oauth|]. intros id.
    apply yields_seq; eauto with oauth. }
  intros _. apply yields_seq; [eapply yields_weaken; eauto with oauth|]. intros l.
  apply yields_seq.
  { unfold Authorization.authContext, Authorization.deriveAuthContext.
    apply yields_seq; [eauto with oauth|]. intros [|[]]; eauto with oauth. }
  intros [[acr amr] authTime]. apply yields_seq; [eauto with oauth|]. intros code.
  apply yields_seq; [|eauto with oauth]. apply yields_call, CreateAuthCode_yields.
  split; [|done]. destruct Hsc as (c & Hc & Hsc). exists c; split; [done|]. simpl.
  match goal with Hs : negb (isSubset _ _) = false |- _ => apply negb_false_iff in Hs;
    unfold isSubset in Hs; rewrite forallb_mem in Hs; eauto end.
Qed.

Lemma consent_ops_yield `{UuidText} k i sc rem rf rd ck dbnow c d now :
  yields inv (Authorization.AcceptConsentForIdentity k i sc rem rf rd ck dbnow) (fun _ => True) /\
  yields inv (Authorization.RejectConsentForIdentity k i c d now) (fun _ => True).
Proof.
  split; (eapply yields_bind; [eauto with oauth|]); intros ch _; case_match; eauto with oauth.
  apply AcceptConsent_yields.
Qed.

Import TokenService.
Context `{OAuth2Env} (issuer : string).

Lemma grantClient_yields id secret gts :
  yields inv (grantClient id secret gts) (fun c => cl !! id = Some c).
Proof.
  unfold grantClient. eapply yields_bind; [eauto with oauth|]. intros c Hc.
  apply yields_seq; [eauto with oauth|]. intros _. case_match; eauto with oauth.
Qed.

Lemma issueTokens_yields c g rd ck :
  within cl (cl_ID c) (g_Scopes g) -> yields inv (issueTokens issuer c g rd ck) (fun _ => True).
Proof.
  intros Hsc. unfold issueTokens. apply yields_seq; [eauto with oauth|]. intros subject.
  apply yields_seq; [|intros [jti jwt]; apply yields_seq; [|intros rt; apply yields_seq]];
    eauto with oauth.
  - unfold issueAccessToken, generated, signed. cbv zeta.
    apply yields_seq; [eauto with oauth|]. intros jti.
    apply yields_seq; [case_match; eauto with oauth|]. intros jwt.
    apply yields_seq; [apply yields_call, CreateAccessToken_yields, Hsc|]. eauto with oauth.
  - unfold issueRefreshToken, generated. case_match; [|eauto with oauth].
    apply yields_seq; [eauto with oauth|]. intros id. apply yields_seq; [eauto with oauth|]. intros fam.
    apply yields_seq; [apply yields_call, CreateRefreshToken_yields, Hsc|]. eauto with oauth.
  - unfold issueIDToken, generated, signed. case_match; [|eauto with oauth]. cbv zeta.
    apply yields_seq; [eauto with oauth|]. intros id.
    apply yields_seq; [case_match; eauto with oauth|]. intros idjwt.
    apply yields_seq; eauto with oauth.
Qed.

Lemma ExchangeAuthorizationCode_yields req rd ck :
  yields inv (ExchangeAuthorizationCode issuer req rd ck) (fun _ => True).
Proof.
  unfold ExchangeAuthorizationCode. destruct req as [req|]; [|eauto with oauth].
  apply (yields_bind _ _ _ (fun p => code_ok cl p.2 /\ ac_ClientID p.2 = cl_ID p.1)).
  - unfold readCode. case_match; [eauto with oauth|].
    eapply yields_bind; [apply grantClient_yields|]. intros c Hc.
    eapply yields_bind; [apply yields_call, GetAuthCode_yields|]. intros code Hcode.
    eapply yields_bind; [by apply yields_lift with (Q := fun _ =>
      checkCode code c req (ck 0%nat) = Ok tt); intros []|].
    intros [] Hck. apply yields_ret; simpl; split; [done|]. unfold checkCode in Hck.
    repeat (case_match; try discriminate). by bool_to_prop.
  - intros [c code] [[Hsc _] Hid]; simpl in *. apply yields_seq; [unfold claimCode; eauto with oauth|].
    intros _. apply issueTokens_yields. simpl. by rewrite <- Hid.
Qed.

Lemma refreshScopes_sub t scope scopes :
  refreshScopes t scope = Ok scopes -> forall s, s ∈ elems scopes -> s ∈ elems (rt_Scopes t).
Proof.
  unfold refreshScopes. intros Hr. repeat case_match; simplify_eq; [done|]. by apply forallb_mem.
Qed.

Lemma rotate_yields c req t rd ck :
  refresh_ok cl t -> yields inv (rotate issuer c req t rd ck) (fun _ => True).
Proof.
  intros (c' & Hc' & Hsc). unfold rotate. do 2 (case_match; eauto with oauth).
  apply (yields_bind _ _ _ (fun sc => forall s, s ∈ elems sc -> s ∈ elems (rt_Scopes t))).
  { apply yields_lift. intros sc. apply refreshScopes_sub. }
  intros scopes Hsub.
  apply yields_seq.
  { apply issueTokens_yields. bool_to_prop. exists c'. split; [congruence|eauto]. }
  intros resp. do 2 (case_match; eauto with oauth).
  apply yields_seq; [eauto with oauth|]. intros grace. apply yields_seq; eauto with oauth.
Qed.

Lemma refreshAccessToken_yields fuel : forall req rd ck,
  yields inv (refreshAccessToken issuer fuel req rd ck) (fun _ => True).
Proof.
  induction fuel as [|fuel IH]; intros req rd ck; simpl; [eauto with oauth|].
  case_match; [eauto with oauth|].
  apply yields_seq; [eapply yields_weaken; [apply grantClient_yields|done]|]. intros c.
  eapply yields_bind; [apply yields_call, GetRefreshToken_yields|]. intros t Ht.
  repeat case_match; eauto using rotate_yields.
  apply yields_seq; eauto with oauth.
Qed.

Lemma ExchangeDeviceCode_yields req rd ck :
  yields inv (ExchangeDeviceCode issuer req rd ck) (fun _ => True).
Proof.
  unfold ExchangeDeviceCode. destruct req as [req|]; [|eauto with oauth].
  case_match; [eauto with oauth|].
  eapply yields_bind; [apply grantClient_yields|]. intros c Hc. cbv beta in Hc.
  case_match; [eauto with oauth|]. apply issueTokens_yields. simpl. bool_to_prop.
  rewrite (Hcl _ _ Hc). exists c; split; [done|]. by apply forallb_mem.
Qed.

Lemma grantsClient_yields id secret gt :
  yields inv (Grants.grantsClient id secret gt) (fun c => cl !! id = Some c).
Proof.
  unfold Grants.grantsClient. eapply yields_bind; [eauto with oauth|]. intros c Hc. cbv zeta.
  case_match; [eauto with oauth|]. apply yields_seq; [eauto with oauth|]. intros _.
  case_match; eauto with oauth.
Qed.

Lemma issueAccess_yields c i sub au aud sc rd ck :
  within cl (cl_ID c) sc -> yields inv (Grants.issueAccess issuer c i sub au aud sc rd ck) (fun _ => True).
Proof.
  intros Hsc. unfold Grants.issueAccess. cbv zeta.
  apply yields_seq; [eauto with oauth|]. intros jti.
  apply yields_seq; [case_match; eauto with oauth|]. intros jwt.
  apply yields_seq; [apply yields_call, CreateAccessToken_yields, Hsc|]. eauto with oauth.
Qed.

Lemma grants_yield V creq jreq rd ck :
  yields inv (Grants.IssueClientCredentials issuer creq rd ck) (fun _ => True) /\
  yields inv (Grants.IssueJWTBearer issuer V jreq rd ck) (fun _ => True).
Proof.
  split.
  - unfold Grants.IssueClientCredentials. destruct creq as [req|]; [|eauto with oauth].
    case_match; [eauto with oauth|].
    eapply yields_bind; [apply grantsClient_yields|]. intros c Hc. cbv beta zeta in *.
    case_match; [eauto with oauth|]. apply issueAccess_yields. bool_to_prop.
    rewrite (Hcl _ _ Hc). exists c; split; [done|]. by apply forallb_mem.
  - unfold Grants.IssueJWTBearer. destruct jreq as [req|]; [|eauto with oauth].
    case_match; [eauto with oauth|].
    eapply yields_bind; [apply grantsClient_yields|]. intros c Hc. cbv beta zeta in *.
    case_match; [|eauto with oauth]. case_match; [eauto with oauth|]. apply issueAccess_yields. bool_to_prop.
    rewrite (Hcl _ _ Hc). exists c; split; [done|]. by apply forallb_mem.
Qed.

Lemma IntrospectToken_yields req now : yields inv (IntrospectToken req now) (fun _ => True).
Proof.
  unfold IntrospectToken. destruct req as [req|]; [|eauto with oauth].
  case_match; [eauto with oauth|].
  apply yields_seq; [eapply yields_weaken; eauto with oauth|]. intros c.
  case_match; [eauto with oauth|]. apply yields_seq; [eauto with oauth|]. intros _.
  apply yields_seq.
  - eapply attempt_any with (Q := fun _ => True). unfold resolveAccessTokenForIntrospection.
    assert (yields inv (Store.GetAccessToken (ir_Token req)) (fun _ => True)).
    { apply no_rows_yields. by_stmt. }
    apply yields_seq; [eauto with oauth|]. intros [|[]]; eauto with oauth.
    apply yields_call, no_rows_yields, yields_stmt. intros. by split_matches.
  - intros [t|e]; repeat case_match; eauto with oauth.
Qed.

Lemma revokes_yield token hint req now :
  yields inv (RevokeToken token hint now) (fun _ => True) /\
  yields inv (Revocation.RevokeToken req now) (fun _ => True).
Proof.
  assert (Hrt : forall E t, yields inv (attempt (Store.GetRefreshToken t) : M _ E _) (fun _ => True))
    by eauto with oauth.
  split.
  - unfold RevokeToken. cbv zeta. apply yields_seq.
    { case_match; [apply yields_seq|]; eauto with oauth. }
    intros []; [eauto with oauth|]. case_match; [|eauto with oauth].
    apply yields_seq; [apply Hrt|]. intros []; [apply yields_seq|]; eauto with oauth.
  - unfold Revocation.RevokeToken. case_match; [eauto with oauth|].
    apply yields_seq; [eapply yields_weaken; eauto with oauth|]. intros c. cbv zeta.
    case_match; [eauto with oauth|]. apply yields_seq.
    { case_match; [apply yields_seq|]; eauto with oauth. }
    intros []; [eauto with oauth|]. case_match; [|eauto with oauth].
    apply yields_seq; [apply Hrt|]. intros []; [|eauto with oauth].
    case_match; [|apply yields_seq]; eauto with oauth.
Qed.

Lemma cleanups_yield d1 d2 d3 :
  yields inv (Store.CleanupExpiredAuthCodes d1) (fun _ => True) /\
  yields inv (Store.CleanupExpiredChallenges d1 d2) (fun _ => True) /\
  yields inv (Store.CleanupExpiredTokens d1 d2 d3) (fun _ => True).
Proof.
  split_and!; [by_stmt| |].
  - apply yields_seq; [by_stmt|]. intros n. apply yields_seq; [by_stmt|]. eauto with oauth.
  - do 3 (apply yields_seq; [by_stmt|]; intros ?). eauto with oauth.
Qed.
End services.

(** ** Histories of requests *)

Section history.
Context `{UuidText} `{OAuth2Env} (issuer : string)
  (validate : string -> string -> option Grants.JWTAssertionClaims).

(** The requests to the module, each with its inputs. *)
Inductive oauth_op : Type :=
| OpAuthorize (req : option Authorization.AuthorizeRequest) (rand : option string) (ck : clock)
| OpLogin (challengeID identityID sessionID : string) (ck : clock)
| OpConsent (challengeID identityID : string) (scopes : strings) (remember : bool)
    (rememberFor : option Z) (rd : entropy) (ck : clock) (dbnow : time)
| OpReject (challengeID identityID code desc : string) (now : time)
| OpExchange (req : option TokenService.TokenRequest) (rd : entropy) (ck : clock)
| OpRefresh (fuel : nat) (req : option TokenService.TokenRequest) (rd : entropy) (ck : clock)
| OpDevice (req : option TokenService.DeviceCodeTokenRequest) (rd : entropy) (ck : clock)
| OpClientCredentials (req : option Grants.ClientCredentialsRequest) (rd : entropy) (ck : clock)
| OpJWTBearer (req : option Grants.JWTBearerRequest) (rd : entropy) (ck : clock)
| OpIntrospect (req : option TokenService.IntrospectionRequest) (now : time)
| OpRevoke (token hint : string) (now : time)
| OpRevocation (req : Revocation.RevocationRequest) (now : time)
| OpCleanupCodes (dbnow : time)
| OpCleanupChallenges (dbnow1 dbnow2 : time)
| OpCleanupTokens (dbnow1 dbnow2 dbnow3 : time).

Definition discard {E A} (m : M oauth_db E A) : M oauth_db unit unit := M_try m (fun _ => mret tt).

Definition serve (op : oauth_op) : M oauth_db unit unit :=
  match op with
  | OpAuthorize req rand ck => discard (Authorization.StartAuthorization req rand ck)
  | OpLogin k i s ck => discard (Authorization.AcceptLogin k i s ck)
  | OpConsent k i sc rem rf rd ck dbnow =>
      discard (Authorization.AcceptConsentForIdentity k i sc rem rf rd ck dbnow)
  | OpReject k i c d now => discard (Authorization.RejectConsentForIdentity k i c d now)
  | OpExchange req rd ck => discard (TokenService.ExchangeAuthorizationCode issuer req rd ck)
  | OpRefresh fuel req rd ck => discard (TokenService.RefreshAccessToken issuer fuel req rd ck)
  | OpDevice req rd ck => discard (TokenService.ExchangeDeviceCode issuer req rd ck)
  | OpClientCredentials req rd ck => discard (Grants.IssueClientCredentials issuer req rd ck)
  | OpJWTBearer req rd ck => discard (Grants.IssueJWTBearer issuer validate req rd ck)
  | OpIntrospect req now => discard (TokenService.IntrospectToken req now)
  | OpRevoke token hint now => discard (TokenService.RevokeToken token hint now)
  | OpRevocation req now => discard (Revocation.RevokeToken req now)
  | OpCleanupCodes dbnow => discard (Store.CleanupExpiredAuthCodes dbnow)
  | OpCleanupChallenges d1 d2 => discard (Store.CleanupExpiredChallenges d1 d2)
  | OpCleanupTokens d1 d2 d3 => discard (Store.CleanupExpiredTokens d1 d2 d3)
  end.

(** A history: every request with the database faults that occur in it. *)
Fixpoint serve_all (ops : list (oauth_op * list (option string))) (db : oauth_db) : oauth_db :=
  match ops with
  | [] => db
  | (op, faults) :: ops => serve_all ops (w_db (serve op (World db faults)).2)
  end.

Lemma discard_preserves {E A} (P : oauth_db -> Prop) (m : M oauth_db E A) :
  preserves P m -> preserves P (discard m).
Proof. intros Hm. apply preserves_try; [done|]. intros r. apply preserves_ret. Qed.

Lemma serve_all_preserves (P : oauth_db -> Prop) :
  (forall op, preserves P (serve op)) -> forall ops db, P db -> P (serve_all ops db).
Proof.
  intros Hop. induction ops as [|[op faults] ops IH]; intros db Hdb; simpl; [done|].
  apply IH. by apply (Hop op (World db faults)).
Qed.

Lemma serve_scope_inv cl op :
  (forall k c, cl !! k = Some c -> cl_ID c = k) -> preserves (scope_inv cl) (serve op).
Proof.
  intros Hcl. destruct op; simpl; apply discard_preserves; eapply yields_preserves with (Q := fun _ => True).
  - by apply StartAuthorization_yields.
  - by apply AcceptLogin_yields.
  - by apply (consent_ops_yield cl _ _ _ _ _ _ _ _ "" "" 0%Z).
  - by apply (consent_ops_yield cl _ _ None false None (fun _ => None) (fun _ => 0%Z) 0%Z).
  - by apply ExchangeAuthorizationCode_yields.
  - destruct req; [by apply refreshAccessToken_yields|by apply yields_throw].
  - by apply ExchangeDeviceCode_yields.
  - by apply (grants_yield cl Hcl issuer validate _ None).
  - by apply (grants_yield cl Hcl issuer validate None).
  - by apply IntrospectToken_yields.
  - by apply (revokes_yield cl _ _ (Revocation.Build_RevocationRequest "" "" "" "")).
  - by apply (revokes_yield cl "" "").
  - by apply (cleanups_yield cl Hcl dbnow 0 0).
  - by apply (cleanups_yield cl Hcl dbnow1 dbnow2 0).
  - by apply (cleanups_yield cl Hcl dbnow1 dbnow2 dbnow3).
Qed.

(** Tables with registered clients and nothing issued. *)
Definition fresh_db (db : oauth_db) : Prop :=
  (forall k c, t_clients db !! k = Some c -> cl_ID c = k) /\
  t_logins db = ∅ /\ t_consents db = ∅ /\ t_codes db = ∅ /\ t_access db = ∅ /\ t_refresh db = ∅.

(** C20: Whatever requests are served and whatever fails, every access and refresh
    token carries only scopes its client is registered for, and every
    authorization code only such scopes and a registered redirect URI. *)
Theorem tokens_stay_within_registration ops db :
  fresh_db db ->
  let db' := serve_all ops db in
  (forall jti t, t_access db' !! jti = Some t ->
     exists c, t_clients db' !! at_ClientID t = Some c /\ (forall s, s ∈ elems (at_Scopes t) -> s ∈ cl_Scopes c)) /\
  (forall id t, t_refresh db' !! id = Some t ->
     exists c, t_clients db' !! rt_ClientID t = Some c /\ (forall s, s ∈ elems (rt_Scopes t) -> s ∈ cl_Scopes c)) /\
  (forall k a, t_codes db' !! k = Some a ->
     exists c, t_clients db' !! ac_ClientID a = Some c /\ ac_RedirectURI a ∈ cl_RedirectURIs c /\
       (forall s, s ∈ elems (ac_Scopes a) -> s ∈ cl_Scopes c)).
Proof.
  intros (Hk & Hl & Hc & Ha & Hat & Hrt). simpl.
  assert (Hinv : scope_inv (t_clients db) (serve_all ops db)).
  { apply serve_all_preserves; [intros op; by apply serve_scope_inv|].
    constructor; [done| | | | |]; rewrite ?Hl, ?Hc, ?Ha, ?Hat, ?Hrt; apply map_Forall_empty. }
  destruct Hinv as [-> _ _ Hcodes Hacc Href]. split_and!.
  - intros jti t Ht. apply (Hacc _ _ Ht).
  - intros id t Ht. apply (Href _ _ Ht).
  - intros k a Hka. destruct (Hcodes _ _ Hka) as [(c & Hc1 & Hs) (c' & Hc2 & Hu)].
    exists c. rewrite Hc1 in Hc2. naive_solver.
Qed.

End history.

(** ** Successful runs *)

Lemma call_ok {S E E' A} (f : E -> E') (m : M S E A) w a w' :
  call f m w = (Ok a, w') <-> m w = (Ok a, w').
Proof.
  unfold call, M_try. destruct (m w) as [[b|e] w1]; [rewrite M_ret_run|unfold throw]; naive_solver.
Qed.

Lemma lift_ok {S E A} (r : result E A) (w : world S) a w' :
  lift_result r w = (Ok a, w') <-> r = Ok a /\ w' = w.
Proof. unfold lift_result. naive_solver. Qed.

Lemma ret_ok {S E A} (a b : A) (w w' : world S) :
  (mret a : M S E A) w = (Ok b, w') <-> a = b /\ w' = w.
Proof. rewrite M_ret_run. naive_solver. Qed.

Lemma db_stmt_ok {S E A} `{DbErr E} (stmt : S -> result db_error (A * S)) w a w' :
  db_stmt stmt w = (Ok a, w') -> stmt (w_db w) = Ok (a, w_db w').
Proof. intros Hs. apply db_stmt_cases in Hs. naive_solver. Qed.

Lemma no_rows_ok {A} (m : Store.SM A) w a w' :
  Store.no_rows m w = (Ok a, w') -> m w = (Ok a, w').
Proof.
  unfold Store.no_rows, M_try. destruct (m w) as [[|e] ?]; [naive_solver|].
  by destruct e as [| | | | | | | | | | |[]].
Qed.

Lemma affects_ok e (m : Store.SM bool) w w' :
  Store.affects e m w = (Ok tt, w') -> m w = (Ok true, w').
Proof.
  unfold Store.affects. rewrite M_bind_ok. intros ([] & w1 & Hm & Hr); [|done].
  by apply ret_ok in Hr as [_ ->].
Qed.

Lemma or_generate_ok x gen w id w' :
  Store.or_generate x gen w = (Ok id, w') -> x <> "" -> id = x /\ w' = w.
Proof.
  unfold Store.or_generate. intros Hg Hx. apply String.eqb_neq in Hx. rewrite Hx in Hg.
  by apply ret_ok in Hg as [-> ->].
Qed.

Lemma generateID_nonempty p b id : Store.generateID p b = Ok id -> p <> "" -> id <> "".
Proof. unfold Store.generateID. destruct b, p; intros; simplify_eq/=; congruence. Qed.

Lemma first_null_none req : first_null req = None <-> Forall (fun p => p.2 <> None) req.
Proof.
  unfold first_null. induction req as [|[col [l|]] req IH]; simpl.
  - by split.
  - rewrite IH, Forall_cons. naive_solver.
  - rewrite Forall_cons. naive_solver.
Qed.

(** Inverts the successful run in the context, step by step. *)
Ltac inv_run :=
  repeat match goal with
  | Hr : (_ ≫= _) _ = (Ok _, _) |- _ => apply M_bind_ok in Hr as (? & ? & ? & Hr)
  | Hr : throw _ _ = (Ok _, _) |- _ => discriminate Hr
  | Hr : call _ _ _ = (Ok _, _) |- _ => apply call_ok in Hr
  | Hr : lift_result _ _ = (Ok _, _) |- _ => apply lift_ok in Hr as [Hr ->]
  | Hr : mret _ _ = (Ok _, _) |- _ => apply ret_ok in Hr as [Hr ->]
  | Hr : (if ?b then _ else _) _ = (Ok _, _) |- _ => destruct b eqn:?
  | Hr : (match ?o with Some _ => _ | None => _ end) _ = (Ok _, _) |- _ => destruct o eqn:?
  | Hr : (match ?o with Ok _ => _ | Err _ => _ end) _ = (Ok _, _) |- _ => destruct o eqn:?
  | Hr : (let (_, _) := ?p in _) _ = (Ok _, _) |- _ => destruct p
  | Hr : Store.affects _ _ _ = (Ok ?u, _) |- _ => destruct u; apply affects_ok in Hr
  | Hr : Store.no_rows _ _ = (Ok _, _) |- _ => apply no_rows_ok in Hr
  | Hr : db_stmt _ _ = (Ok _, _) |- _ => apply db_stmt_ok in Hr
  end.

Lemma GetClient_ok id w c w' :
  Store.GetClient id w = (Ok c, w') -> t_clients (w_db w) !! id = Some c /\ w_db w' = w_db w.
Proof. unfold Store.GetClient. intros. inv_run. by apply select_ok in H. Qed.
Lemma GetAuthCode_ok k w c w' :
  Store.GetAuthCode k w = (Ok c, w') -> t_codes (w_db w) !! k = Some c /\ w_db w' = w_db w.
Proof. unfold Store.GetAuthCode. intros. inv_run. by apply select_ok in H. Qed.
Lemma GetRefreshToken_ok k w t w' :
  Store.GetRefreshToken k w = (Ok t, w') -> t_refresh (w_db w) !! k = Some t /\ w_db w' = w_db w.
Proof. unfold Store.GetRefreshToken. intros. inv_run. by apply select_ok in H. Qed.
Lemma GetConsentChallenge_ok k w c w' :
  Store.GetConsentChallenge k w = (Ok c, w') -> t_consents (w_db w) !! k = Some c /\ w_db w' = w_db w.
Proof. unfold Store.GetConsentChallenge. intros. inv_run. by apply select_ok in H. Qed.

Lemma MarkAuthCodeUsed_ok k now w u w' :
  Store.MarkAuthCodeUsed k now w = (Ok u, w') ->
  exists c, t_codes (w_db w) !! k = Some c /\ ac_Used c = false /\
    w_db w' = upd_codes (insert k (Store.set_code_used now c)) (w_db w).
Proof.
  unfold Store.MarkAuthCodeUsed. intros. inv_run. apply update_where_ok in H as [[]|(c & _ & Hc & Hu & Hw)]; [done|].
  exists c. split_and!; [done|by apply negb_true_iff|done].
Qed.

Lemma MarkRefreshTokenUsed_ok k s g now w u w' :
  Store.MarkRefreshTokenUsed k s g now w = (Ok u, w') ->
  exists t gr, t_refresh (w_db w) !! k = Some t /\ rt_Active t = true /\ rt_Used t = false /\
    gr = (if (0 <? g)%Z then Some (time_add now g) else None) /\
    w_db w' = upd_refresh (insert k (Store.set_rt_used now s gr t)) (w_db w).
Proof.
  unfold Store.MarkRefreshTokenUsed. intros. inv_run.
  apply update_where_ok in H as [[]|(t & _ & Ht & Hu & Hw)]; [done|].
  apply andb_true_iff in Hu as [Ha Hu%negb_true_iff]. eexists t, _. by split_and!.
Qed.

Import TokenService.

(** ** What issueTokens leaves behind *)

Section issuing.
Context `{OAuth2Env} (issuer : string).

Lemma CreateAccessToken_ok t r now w u w' :
  Store.CreateAccessToken t r now w = (Ok u, w') -> at_JTI t <> "" ->
  exists row, t_access (w_db w) !! at_JTI t = None /\ at_Scopes t <> None /\ at_Audience t <> None /\
    w_db w' = upd_access (insert (at_JTI t) row) (w_db w) /\
    at_ClientID row = at_ClientID t /\ at_IdentityID row = at_IdentityID t /\
    at_SessionID row = at_SessionID t /\ at_Scopes row = at_Scopes t /\ at_Audience row = at_Audience t /\
    at_Subject row = at_Subject t /\ at_Signature row = at_Signature t /\
    at_Revoked row = at_Revoked t /\ at_ExpiresAt row = at_ExpiresAt t.
Proof.
  unfold Store.CreateAccessToken. intros. inv_run.
  match goal with Hg : Store.or_generate _ _ _ = _ |- _ => apply or_generate_ok in Hg as [-> ->]; [|done] end.
  apply insert_row_ok in H0 as (Hk & Hnull & ->). rewrite first_null_none, !Forall_cons in Hnull.
  eexists. split; [exact Hk|]. destruct Hnull as (Hs & Ha & _). by split_and!.
Qed.

Lemma issueAccessToken_ok c g subject rd ck w jti jwt w' :
  issueAccessToken issuer c g subject rd ck w = (Ok (jti, jwt), w') ->
  exists row, t_access (w_db w) !! jti = None /\ g_Scopes g <> None /\ g_Audience g <> None /\
    w_db w' = upd_access (insert jti row) (w_db w) /\
    at_ClientID row = cl_ID c /\ at_IdentityID row = g_IdentityID g /\
    at_SessionID row = g_SessionID g /\ at_Scopes row = g_Scopes g /\ at_Audience row = g_Audience g /\
    at_Subject row = subject /\ at_Signature row = Some (accessTokenSignature jwt) /\
    at_Revoked row = false /\ at_ExpiresAt row = time_add (ck 0%nat) (ttl (cl_AccessTokenTTL c)).
Proof.
  unfold issueAccessToken, generated, signed. cbv zeta. intros. inv_run. simplify_eq.
  match goal with Hg : Store.GenerateAccessTokenJTI _ = Ok _ |- _ =>
    apply generateID_nonempty in Hg as Hne; [|done] end.
  match goal with Hc : Store.CreateAccessToken _ _ _ _ = _ |- _ => apply CreateAccessToken_ok in Hc; [|done] end.
  done.
Qed.

(** The refresh token row issued for a grant. *)
Definition fresh_refresh (c : Client) (g : grant) (rd : entropy) (ck : clock) (row : RefreshToken) : Prop :=
  rt_ClientID row = cl_ID c /\ rt_IdentityID row = g_IdentityID g /\ rt_SessionID row = g_SessionID g /\
  rt_Scopes row = g_Scopes g /\ rt_Audience row = g_Audience g /\ rt_Active row = true /\
  rt_Used row = false /\ rt_SuccessorID row = None /\
  rt_ExpiresAt row = time_add (ck 0%nat) (ttl (cl_RefreshTokenTTL c)) /\
  Store.GenerateRefreshTokenFamily (rd 2%nat) = Ok (rt_FamilyID row).

Lemma issueRefreshToken_ok c g jti rd ck w o w' :
  issueRefreshToken c g jti rd ck w = (Ok o, w') ->
  match o with
  | None => w_db w' = w_db w
  | Some id => exists row, id <> "" /\ t_refresh (w_db w) !! id = None /\
      w_db w' = upd_refresh (insert id row) (w_db w) /\ fresh_refresh c g rd ck row
  end.
Proof.
  unfold issueRefreshToken, generated, Store.CreateRefreshToken. intros. inv_run; simplify_eq; [|done].
  repeat match goal with
  | Hg : Store.or_generate _ _ _ = _ |- _ => apply or_generate_ok in Hg as [-> ->]; [|by eapply generateID_nonempty]
  end.
  match goal with Hi : insert_row _ _ _ _ _ _ _ = _ |- _ => apply insert_row_ok in Hi as (? & ? & ->) end.
  eexists. split_and!; [by eapply generateID_nonempty|done|done|].
  unfold fresh_refresh; by split_and!.
Qed.

Lemma issueIDToken_ok c g subject jwt rd ck w o w' :
  issueIDToken issuer c g subject jwt rd ck w = (Ok o, w') ->
  exists f, w_db w' = upd_idtokens f (w_db w).
Proof.
  unfold issueIDToken, generated, signed, Store.CreateIDToken. cbv zeta. intros. inv_run; simplify_eq.
  - match goal with Hi : insert_row _ _ _ _ _ _ _ = _ |- _ => apply insert_row_ok in Hi as (? & ? & ->) end.
    match goal with Hg : Store.or_generate _ _ _ = _ |- _ =>
      apply or_generate_ok in Hg as [-> ->]; [|by eapply generateID_nonempty] end. eauto.
  - exists (fun m => m). by destruct (w_db _).
Qed.

(** The tables after tokens were issued: one access token of the grant whose
    signature is that of the answer, one refresh token if the answer has one,
    and no other change to the tables of tokens, codes and clients. *)
Record issued (c : Client) (g : grant) (rd : entropy) (ck : clock) (resp : TokenResponse) (db db' : oauth_db) : Prop := {
  is_access : exists jti row, t_access db !! jti = None /\ t_access db' = <[jti := row]> (t_access db) /\
    at_ClientID row = cl_ID c /\ at_IdentityID row = g_IdentityID g /\ at_SessionID row = g_SessionID g /\
    at_Scopes row = g_Scopes g /\ at_Audience row = g_Audience g /\
    resolveTokenSubject c (g_IdentityID g) issuer = Ok (at_Subject row) /\
    at_Signature row = Some (accessTokenSignature (ts_AccessToken resp)) /\ at_Revoked row = false /\
    at_ExpiresAt row = time_add (ck 0%nat) (ttl (cl_AccessTokenTTL c));
  is_refresh : match ts_RefreshToken resp with
    | None => t_refresh db' = t_refresh db
    | Some id => exists row, t_refresh db !! id = None /\ t_refresh db' = <[id := row]> (t_refresh db) /\
        fresh_refresh c g rd ck row
    end;
  is_clients : t_clients db' = t_clients db;
  is_codes : t_codes db' = t_codes db;
  is_audience : g_Audience g <> None;
}.

Lemma issueTokens_ok c g rd ck w resp w' :
  issueTokens issuer c g rd ck w = (Ok resp, w') -> issued c g rd ck resp (w_db w) (w_db w').
Proof.
  unfold issueTokens. intros. inv_run. simplify_eq.
  match goal with Ha : issueAccessToken _ _ _ _ _ _ _ = _ |- _ =>
    apply issueAccessToken_ok in Ha as (row & Hfresh & _ & Haud & Hw1 & Hrow) end.
  match goal with Hr : issueRefreshToken _ _ _ _ _ _ = _ |- _ =>
    apply issueRefreshToken_ok in Hr; rename Hr into Hrt end.
  match goal with Hi : issueIDToken _ _ _ _ _ _ _ _ = _ |- _ => apply issueIDToken_ok in Hi as (f & Hw3) end.
  match type of Hrt with match ?o with _ => _ end => destruct o as [id|] end;
    [destruct Hrt as (rrow & _ & Hnone & Hw2 & Hrrow)|rename Hrt into Hw2];
    rewrite Hw1 in *; constructor; rewrite ?Hw3, ?Hw2; simpl in *; try done.
  1,3: eexists _, row; split_and!; try done; destruct_and!; congruence.
  by exists rrow.
Qed.
End issuing.

(** ** The authorization code grant *)

(** The verifier answers the challenge of the code, if it has one. *)
Definition pkce_proved (code : AuthCode) (verifier : string) : Prop :=
  forall ch, ac_CodeChallenge code = Some ch -> ch <> "" ->
    verifier <> "" /\ PKCEChallenge verifier (default "S256" (ac_CodeChallengeMethod code)) = Ok ch.

Lemma checkPKCE_ok code verifier u : checkPKCE code verifier = Ok u -> pkce_proved code verifier.
Proof.
  unfold checkPKCE, pkce_proved, Authorization.VerifyPKCE, PlatformCrypto.VerifyPKCE, cPKCEVerify, PKCEChallenge.
  intros Hc ch Hch Hne. rewrite Hch in Hc. apply String.eqb_neq in Hne. rewrite Hne in Hc.
  destruct (String.eqb verifier "") eqn:Hv; [done|]. split; [by apply String.eqb_neq|].
  destruct (cPKCEChallenge _ _) as [computed|]; [|done]. rewrite ConstantTimeCompare_eqb in Hc.
  destruct (String.eqb computed ch) eqn:He; [|done]. apply String.eqb_eq in He. by subst.
Qed.

(** A code that may be exchanged by [req] for the client [c] at [now]. *)
Definition exchangeable (code : AuthCode) (c : Client) (req : TokenRequest) (now : time) : Prop :=
  ac_Used code = false /\ (now <= ac_ExpiresAt code)%Z /\ ac_ClientID code = cl_ID c /\
  ac_RedirectURI code = tr_RedirectURI req /\ pkce_proved code (tr_CodeVerifier req).

Lemma checkCode_ok code c req now u : checkCode code c req now = Ok u -> exchangeable code c req now.
Proof.
  unfold checkCode, Store.AuthCode_IsValid, exchangeable, time_after. intros Hc.
  split_matches. bool_to_prop. split_and!; try done. by eapply checkPKCE_ok.
Qed.

Section exchange.
Context `{OAuth2Env} (issuer : string).

Lemma grantClient_ok id secret gts w c w' :
  grantClient id secret gts w = (Ok c, w') ->
  t_clients (w_db w) !! id = Some c /\ authenticateClient c secret = Ok tt /\
  (cl_GrantTypes c = [] \/ exists gt, gt ∈ gts /\ gt ∈ cl_GrantTypes c) /\ w_db w' = w_db w.
Proof.
  unfold grantClient. intros. inv_run. simplify_eq.
  match goal with Hg : Store.GetClient _ _ = _ |- _ => apply GetClient_ok in Hg as [Hc ->] end.
  match goal with x : unit |- _ => destruct x end.
  split_and!; try done. apply andb_false_iff in Heqb as [Hn|Hn]; unfold Authorization.nonempty in *; bool_to_prop.
  - by left.
  - right. apply existsb_exists in Hn as (gt & Hgt & Hm). exists gt. split; [by apply list_elem_of_In|].
    by apply mem_elem.
Qed.

Lemma readCode_ok req now w c code w' :
  readCode req now w = (Ok (c, code), w') ->
  t_clients (w_db w) !! tr_ClientID req = Some c /\ authenticateClient c (tr_ClientSecret req) = Ok tt /\
  (cl_GrantTypes c = [] \/ "authorization_code" ∈ cl_GrantTypes c) /\
  t_codes (w_db w) !! tr_Code req = Some code /\ exchangeable code c req now /\ w_db w' = w_db w.
Proof.
  unfold readCode. intros. inv_run. simplify_eq.
  match goal with Hg : grantClient _ _ _ _ = _ |- _ => apply grantClient_ok in Hg as (? & ? & Hgt & Hw1) end.
  match goal with Hg : Store.GetAuthCode _ _ = _ |- _ => apply GetAuthCode_ok in Hg as [? Hw2] end.
  rewrite Hw1 in *. split_and!; try done; [|by eapply checkCode_ok].
  destruct Hgt as [|(gt & ->%list_elem_of_singleton & ?)]; auto.
Qed.

(** Tokens are given for an authorization code only to its client,
    authenticated, for an unused, unexpired code, with the redirect URI of the
    authorization request and the PKCE verifier of its challenge; the code is
    used from then on, and the access token recorded is that of the answer and
    carries the identity, session, scopes and audience of the code. *)
Theorem code_exchange_is_authorized req rd ck w resp w' :
  ExchangeAuthorizationCode issuer (Some req) rd ck w = (Ok resp, w') ->
  exists c code, t_clients (w_db w) !! tr_ClientID req = Some c /\
    authenticateClient c (tr_ClientSecret req) = Ok tt /\
    (cl_GrantTypes c = [] \/ "authorization_code" ∈ cl_GrantTypes c) /\
    t_codes (w_db w) !! tr_Code req = Some code /\ exchangeable code c req (ck 0%nat) /\
    t_codes (w_db w') = <[tr_Code req := Store.set_code_used (ck 1%nat) code]> (t_codes (w_db w)) /\
    exists jti row, t_access (w_db w) !! jti = None /\ t_access (w_db w') = <[jti := row]> (t_access (w_db w)) /\
      at_ClientID row = cl_ID c /\ at_IdentityID row = ac_IdentityID code /\
      at_SessionID row = ac_SessionID code /\ at_Scopes row = ac_Scopes code /\
      at_Audience row = ac_Audience code /\
      at_Signature row = Some (accessTokenSignature (ts_AccessToken resp)) /\ at_Revoked row = false.
Proof.
  unfold ExchangeAuthorizationCode, claimCode. intros. inv_run.
  match goal with Hr : readCode _ _ _ = (Ok (?c, ?code), _) |- _ =>
    apply readCode_ok in Hr as (? & ? & ? & Hcode & ? & Hw1); exists c, code end.
  match goal with Hm : Store.MarkAuthCodeUsed _ _ _ = _ |- _ => apply MarkAuthCodeUsed_ok in Hm as (c2 & Hc2 & _ & Hw2) end.
  match goal with Hi : issueTokens _ _ _ _ _ _ = _ |- _ => apply issueTokens_ok in Hi as [Ha _ _ Hcodes _] end.
  rewrite Hw1 in *. simplify_eq. rewrite Hcodes, Hw2 in *. split_and!; try done.
  destruct Ha as (jti & row & Ha). exists jti, row. naive_solver.
Qed.
End exchange.
