(* ===== verification/OAuth2Steps.v ===== *)
(** The OAuth2 tables as a transition system.  [db_step] lists the elementary
    changes the statements of the store make; every request performs a
    sequence of them, whatever fails.  Invariants of codes and tokens are then
    proved by rule induction. *)

From Stdlib Require Import Ascii String.
From S2P Require Import Prelude GoStrings GoEncoding GoSha256 PlatformCrypto Session.
From S2P Require Import OAuth2Store OAuth2Authorize OAuth2Token OAuth2Facts.

Local Open Scope string_scope.

(** [fresh] says which codes may be created. *)
Inductive db_step (fresh : string -> Prop) : oauth_db -> oauth_db -> Prop :=
| StLogins f db : db_step fresh db (upd_logins f db)
| StConsents f db : db_step fresh db (upd_consents f db)
| StRemembered f db : db_step fresh db (upd_remembered f db)
| StIDTokens f db : db_step fresh db (upd_idtokens f db)
| StNewCode k row db :
    fresh k -> t_codes db !! k = None -> db_step fresh db (upd_codes (insert k row) db)
| StUseCode k c now db :
    t_codes db !! k = Some c -> ac_Used c = false ->
    db_step fresh db (upd_codes (insert k (Store.set_code_used now c)) db)
| StDropCodes (p : AuthCode -> bool) db : db_step fresh db (upd_codes (filter (fun kv : string * AuthCode => p kv.2 = false)) db)
| StNewAccess jti row db :
    t_access db !! jti = None -> at_Revoked row = false -> db_step fresh db (upd_access (insert jti row) db)
| StRevoke jti t now db :
    t_access db !! jti = Some t -> db_step fresh db (upd_access (insert jti (Store.set_revoked now t)) db)
| StDropAccess (p : AccessToken -> bool) db : db_step fresh db (upd_access (filter (fun kv : string * AccessToken => p kv.2 = false)) db)
| StNewRefresh id row db :
    t_refresh db !! id = None -> rt_SuccessorID row = None -> rt_Used row = false ->
    db_step fresh db (upd_refresh (insert id row) db)
| StRotate id t row s now g db :
    t_refresh db !! id = Some t -> rt_Used t = false -> t_refresh db !! s = Some row ->
    rt_SuccessorID row = None -> s <> id ->
    db_step fresh db (upd_refresh (insert id (Store.set_rt_used now s g t)) db)
| StInactivate (p : RefreshToken -> bool) db :
    db_step fresh db (upd_refresh (fmap (fun t => if p t then Store.set_inactive t else t)) db)
| StDropRefresh (p : RefreshToken -> bool) db : db_step fresh db (upd_refresh (filter (fun kv : string * RefreshToken => p kv.2 = false)) db).

Abbreviation moves fresh m := (forall db0, preserves (rtc (db_step fresh) db0) m).

Lemma preserves_call {S E E' A} (P : S -> Prop) (g : E -> E') (m : M S E A) :
  preserves P m -> preserves P (call g m).
Proof.
  intros Hm. apply preserves_try; [done|]. intros []; [apply preserves_ret|apply preserves_throw].
Qed.
Lemma preserves_attempt {S E E' A} (P : S -> Prop) (m : M S E A) :
  preserves P m -> preserves P (attempt m : M S E' _).
Proof. intros Hm. apply preserves_try; [done|]. intros r. apply preserves_ret. Qed.
#[export] Hint Resolve preserves_call preserves_attempt : aegion.

Lemma preserves_no_rows {A} P (m : Store.SM A) : preserves P m -> preserves P (Store.no_rows m).
Proof.
  intros Hm. apply preserves_try; [done|].
  intros [|[| | | | | | | | | | |[]]]; first [apply preserves_lift|apply preserves_throw].
Qed.
Lemma preserves_no_duplicate P (m : Store.SM unit) : preserves P m -> preserves P (Store.no_duplicate m).
Proof.
  intros Hm. apply preserves_try; [done|].
  intros [|[| | | | | | | | | | |[]]]; first [apply preserves_lift|apply preserves_throw].
Qed.
Lemma preserves_affects P e (m : Store.SM bool) : preserves P m -> preserves P (Store.affects e m).
Proof. intros Hm. apply preserves_bind; [done|]. intros []; auto with aegion. Qed.
Lemma preserves_or_generate P x gen : preserves P (Store.or_generate x gen).
Proof. unfold Store.or_generate. case_match; auto with aegion. Qed.
#[export] Hint Resolve preserves_no_rows preserves_no_duplicate preserves_affects preserves_or_generate : aegion.

Section moves.
Context (fresh : string -> Prop).
Abbreviation P db0 := (rtc (db_step fresh) db0).

Lemma moves_step {A} (stmt : oauth_db -> result db_error (A * oauth_db)) :
  (forall db a db', stmt db = Ok (a, db') -> db' = db \/ db_step fresh db db') ->
  moves fresh (db_stmt stmt : Store.SM A).
Proof.
  intros Hs db0. apply preserves_stmt. intros db a db' Hr Hdb.
  destruct (Hs _ _ _ Hr) as [->|]; [done|]. by eapply rtc_r.
Qed.

Lemma select_moves {A} (tbl : oauth_db -> gmap string A) k : moves fresh (db_stmt (select tbl k) : Store.SM A).
Proof. apply moves_step. intros db a db' Hs. stmt_cases. by left. Qed.

Lemma store_reads k id c i :
  moves fresh (Store.GetClient k) /\ moves fresh (Store.GetAuthCode k) /\
  moves fresh (Store.GetLoginChallenge k) /\ moves fresh (Store.GetConsentChallenge k) /\
  moves fresh (Store.GetRefreshToken id) /\ moves fresh (Store.GetAccessToken id) /\
  moves fresh (Store.GetAccessTokenBySignature id) /\ moves fresh (Store.GetConsentSession c i).
Proof.
  split_and!; intros; apply preserves_no_rows; try apply select_moves;
    apply moves_step; intros; split_matches; by left.
Qed.

(** A generated identifier: what follows is judged for every outcome. *)
Lemma preserves_generate {A} Q x gen (f : string -> Store.SM A) :
  (forall id, x = id \/ gen = Ok id -> preserves Q (f id)) -> preserves Q (Store.or_generate x gen ≫= f).
Proof.
  intros Hf. unfold Store.or_generate. case_match.
  - destruct gen as [id|e]; [intros w; by apply Hf; right|by intros w].
  - intros w. by apply Hf; left.
Qed.

Lemma CreateAuthCode_moves c r now :
  fresh (ac_Code c) -> (forall id, Store.GenerateAuthCode r = Ok id -> fresh id) ->
  moves fresh (Store.CreateAuthCode c r now).
Proof.
  intros Hc Hg db0. apply preserves_generate. intros id Hid. cbv zeta.
  apply preserves_bind; [|auto with aegion]. apply preserves_no_duplicate, moves_step.
  intros db u db' Hs. stmt_cases. right. apply StNewCode; naive_solver.
Qed.

Lemma CreateLoginChallenge_moves l r now : moves fresh (Store.CreateLoginChallenge l r now).
Proof.
  intros db0. apply preserves_generate; intros id _; cbv zeta. apply preserves_bind; [|auto with aegion].
  apply moves_step. intros. stmt_cases. right. constructor.
Qed.
Lemma CreateConsentChallenge_moves c r now : moves fresh (Store.CreateConsentChallenge c r now).
Proof.
  intros db0. apply preserves_generate; intros id _; cbv zeta. apply preserves_bind; [|auto with aegion].
  apply moves_step. intros. stmt_cases. right. constructor.
Qed.
Lemma CreateConsentSession_moves c now d : moves fresh (Store.CreateConsentSession c now d).
Proof. apply moves_step. unfold int4. intros. split_matches; right; constructor. Qed.
Lemma CreateAccessToken_moves t r now : at_Revoked t = false -> moves fresh (Store.CreateAccessToken t r now).
Proof.
  intros Hrev db0. apply preserves_generate; intros id _; cbv zeta.
  apply moves_step. intros. stmt_cases. right. by constructor.
Qed.
Lemma CreateIDToken_moves t r now : moves fresh (Store.CreateIDToken t r now).
Proof.
  intros db0. apply preserves_generate; intros id _; cbv zeta.
  apply moves_step. intros. stmt_cases. right. constructor.
Qed.

Lemma CreateRefreshToken_moves t r1 r2 now :
  rt_SuccessorID t = None -> rt_Used t = false -> moves fresh (Store.CreateRefreshToken t r1 r2 now).
Proof.
  intros Hs Hu db0. apply preserves_generate. intros id _. apply preserves_generate. intros fam _. cbv zeta.
  apply moves_step. intros. stmt_cases. right. by constructor.
Qed.

Lemma MarkAuthCodeUsed_moves k now : moves fresh (Store.MarkAuthCodeUsed k now).
Proof.
  intros db0. apply preserves_affects, moves_step. intros. stmt_cases; [by left|right].
  constructor; [done|]. by apply negb_true_iff.
Qed.
Lemma AcceptLoginChallenge_moves k i s now : moves fresh (Store.AcceptLoginChallenge k i s now).
Proof. intros db0. apply preserves_affects, moves_step. intros. stmt_cases; [by left|right; constructor]. Qed.
Lemma AcceptConsentChallenge_moves k sc au rem rf now :
  moves fresh (Store.AcceptConsentChallenge k sc au rem rf now).
Proof.
  intros db0. apply preserves_affects, moves_step. unfold int4. intros.
  split_matches; stmt_cases; auto; right; constructor.
Qed.
Lemma RejectConsentChallenge_moves k c d now : moves fresh (Store.RejectConsentChallenge k c d now).
Proof. intros db0. apply preserves_affects, moves_step. intros. stmt_cases; [by left|right; constructor]. Qed.
Lemma RevokeAccessToken_moves k now : moves fresh (Store.RevokeAccessToken k now).
Proof. intros db0. apply preserves_affects, moves_step. intros. stmt_cases; [by left|right; by constructor]. Qed.
Lemma InvalidateRefreshTokenFamily_moves f : moves fresh (Store.InvalidateRefreshTokenFamily f).
Proof. apply moves_step. intros. stmt_cases. right. constructor. Qed.

Lemma delete_codes_moves p : moves fresh (db_stmt (delete_where t_codes upd_codes p) : Store.SM Z).
Proof. apply moves_step. intros. stmt_cases. right. apply (StDropCodes fresh p). Qed.
Lemma delete_access_moves p : moves fresh (db_stmt (delete_where t_access upd_access p) : Store.SM Z).
Proof. apply moves_step. intros. stmt_cases. right. apply (StDropAccess fresh p). Qed.
Lemma delete_refresh_moves p : moves fresh (db_stmt (delete_where t_refresh upd_refresh p) : Store.SM Z).
Proof. apply moves_step. intros. stmt_cases. right. apply (StDropRefresh fresh p). Qed.

Lemma CleanupExpiredTokens_moves d1 d2 d3 : moves fresh (Store.CleanupExpiredTokens d1 d2 d3).
Proof.
  intros db0. apply preserves_bind; [apply delete_access_moves|intros n1].
  apply preserves_bind; [apply delete_refresh_moves|intros n2].
  apply preserves_bind; [|auto with aegion]. apply moves_step. intros. stmt_cases. right. constructor.
Qed.
Lemma CleanupExpiredChallenges_moves d1 d2 : moves fresh (Store.CleanupExpiredChallenges d1 d2).
Proof.
  intros db0. apply preserves_bind; [|intros n; apply preserves_bind; [|auto with aegion]].
  - apply preserves_stmt. intros db a db' Hs Hdb. simplify_eq/=.
    eapply rtc_r, StLogins. eapply rtc_r, StConsents. done.
  - apply moves_step. intros. stmt_cases. right. constructor.
Qed.

Lemma GetSessionAuthContext_moves `{UuidText} s : moves fresh (Store.GetSessionAuthContext s).
Proof.
  intros db0. unfold Store.GetSessionAuthContext. repeat case_match; auto with aegion.
  - apply preserves_bind; [apply preserves_no_rows, moves_step; intros; split_matches; by left|].
    intros row. apply preserves_bind; [|auto with aegion]. apply moves_step. intros. simplify_eq. by left.
  - by apply moves_step.
Qed.
End moves.

Create HintDb moves.
#[export] Hint Resolve CreateLoginChallenge_moves CreateConsentChallenge_moves CreateConsentSession_moves
  CreateIDToken_moves MarkAuthCodeUsed_moves AcceptLoginChallenge_moves AcceptConsentChallenge_moves
  RejectConsentChallenge_moves RevokeAccessToken_moves InvalidateRefreshTokenFamily_moves
  CleanupExpiredTokens_moves CleanupExpiredChallenges_moves GetSessionAuthContext_moves
  delete_codes_moves : moves.
#[export] Hint Extern 1 => match goal with
  | |- preserves _ (Store.GetClient ?k) => apply (store_reads _ k "" "" "")
  | |- preserves _ (Store.GetAuthCode ?k) => apply (store_reads _ k "" "" "")
  | |- preserves _ (Store.GetLoginChallenge ?k) => apply (store_reads _ k "" "" "")
  | |- preserves _ (Store.GetConsentChallenge ?k) => apply (store_reads _ k "" "" "")
  | |- preserves _ (Store.GetRefreshToken ?k) => apply (store_reads _ "" k "" "")
  | |- preserves _ (Store.GetAccessToken ?k) => apply (store_reads _ "" k "" "")
  | |- preserves _ (Store.GetAccessTokenBySignature ?k) => apply (store_reads _ "" k "" "")
  | |- preserves _ (Store.GetConsentSession ?c ?i) => apply (store_reads _ "" "" c i)
  end : moves.

(** A pure step that may fail: what follows knows its result. *)
Lemma preserves_pure {S E E' A B} (P : S -> Prop) (g : E -> E') (r : result E A) (f : A -> M S E' B) :
  (forall a, r = Ok a -> preserves P (f a)) -> preserves P (call g (lift_result r) ≫= f).
Proof. intros Hf. destruct r as [a|e]; intros w; [by apply Hf|done]. Qed.

(** Walks through a request, one statement at a time. *)
Ltac walk :=
  repeat first
    [ progress intros | progress cbv zeta | solve [auto 6 with aegion moves]
    | apply preserves_pure | apply preserves_bind | case_match
    | apply preserves_attempt; match goal with |- preserves _ (_ ≫= _) => idtac end ].

Section requests.
Context (fresh : string -> Prop) `{UuidText} `{OAuth2Env} (issuer : string).

Lemma StartAuthorization_moves req r ck : moves fresh (Authorization.StartAuthorization req r ck).
Proof. unfold Authorization.StartAuthorization. walk. Qed.

Lemma AcceptLogin_moves k i s ck : moves fresh (Authorization.AcceptLogin k i s ck).
Proof. unfold Authorization.AcceptLogin, Authorization.skipsConsent. walk. Qed.

(** The codes AcceptConsent may create with this entropy are fresh. *)
Definition fresh_codes (rd : entropy) : Prop :=
  forall n id, Store.GenerateAuthCode (rd n) = Ok id -> fresh id.

Lemma AcceptConsent_moves k sc rem rf rd ck d :
  fresh_codes rd -> moves fresh (Authorization.AcceptConsent k sc rem rf rd ck d).
Proof.
  intros Hrd. unfold Authorization.AcceptConsent, Authorization.rememberConsent, Authorization.authContext,
    Authorization.deriveAuthContext.
  walk. apply preserves_call, CreateAuthCode_moves; eauto.
Qed.

Lemma AcceptConsentForIdentity_moves k i sc rem rf rd ck d :
  fresh_codes rd -> moves fresh (Authorization.AcceptConsentForIdentity k i sc rem rf rd ck d).
Proof.
  intros Hrd. pose proof (AcceptConsent_moves k sc rem rf rd ck d Hrd) as Hm.
  unfold Authorization.AcceptConsentForIdentity. walk.
Qed.

Lemma RejectConsentForIdentity_moves k i c d now :
  moves fresh (Authorization.RejectConsentForIdentity k i c d now).
Proof. unfold Authorization.RejectConsentForIdentity, Authorization.RejectConsent. walk. Qed.

Import TokenService.

Lemma grantClient_moves id secret gts : moves fresh (grantClient id secret gts).
Proof. unfold grantClient. walk. Qed.

Lemma issueTokens_moves c g rd ck : moves fresh (issueTokens issuer c g rd ck).
Proof.
  unfold issueTokens, issueAccessToken, issueRefreshToken, issueIDToken, generated, signed. walk;
    apply preserves_call; [by apply CreateAccessToken_moves|by apply CreateRefreshToken_moves].
Qed.
Hint Resolve grantClient_moves issueTokens_moves : moves.

Lemma ExchangeAuthorizationCode_moves req rd ck :
  moves fresh (ExchangeAuthorizationCode issuer req rd ck).
Proof. unfold ExchangeAuthorizationCode, readCode, claimCode. walk. Qed.

Lemma ExchangeDeviceCode_moves req rd ck : moves fresh (ExchangeDeviceCode issuer req rd ck).
Proof. unfold ExchangeDeviceCode. walk. Qed.

Lemma issueAccess_moves c i s au aud sc rd ck :
  moves fresh (Grants.issueAccess issuer c i s au aud sc rd ck).
Proof. unfold Grants.issueAccess. walk. apply preserves_call. by apply CreateAccessToken_moves. Qed.
Hint Resolve issueAccess_moves : moves.

Lemma IssueClientCredentials_moves req rd ck : moves fresh (Grants.IssueClientCredentials issuer req rd ck).
Proof. unfold Grants.IssueClientCredentials, Grants.grantsClient. walk. Qed.
Lemma IssueJWTBearer_moves V req rd ck : moves fresh (Grants.IssueJWTBearer issuer V req rd ck).
Proof. unfold Grants.IssueJWTBearer, Grants.grantsClient. walk. Qed.

Lemma IntrospectToken_moves req now : moves fresh (IntrospectToken req now).
Proof. unfold IntrospectToken, resolveAccessTokenForIntrospection. walk. Qed.
Lemma RevokeToken_moves token hint now : moves fresh (RevokeToken token hint now).
Proof. unfold RevokeToken. walk. Qed.
Lemma Revocation_moves req now : moves fresh (Revocation.RevokeToken req now).
Proof. unfold Revocation.RevokeToken. walk. Qed.

(** ** Rotation

    The successor was created by the same request, so it has no successor of
    its own when the old token is linked to it. *)

Lemma mark_links id s g now w row (db0 : oauth_db) :
  t_refresh (w_db w) !! s = Some row -> rt_SuccessorID row = None -> s <> id ->
  rtc (db_step fresh) db0 (w_db w) ->
  rtc (db_step fresh) db0 (w_db (Store.MarkRefreshTokenUsed id s g now w).2).
Proof.
  intros Hs Hn Hne Hw. unfold Store.MarkRefreshTokenUsed.
  match goal with |- context [update_where t_refresh upd_refresh ?p ?f id] =>
    destruct (db_stmt (update_where t_refresh upd_refresh p f id) w) as [r w1] eqn:Hu end.
  assert (Hw1 : rtc (db_step fresh) db0 (w_db w1)).
  { apply db_stmt_cases in Hu as [(b & -> & Hu)|(e & -> & ->)]; [|done].
    apply update_where_ok in Hu as [[_ ->]|(t & _ & Ht & Hp & ->)]; [done|].
    apply andb_true_iff in Hp as [_ Hp%negb_true_iff]. eapply rtc_r; [done|]. by eapply StRotate. }
  unfold Store.affects. rewrite M_bind_run, Hu. by destruct r as [[]|].
Qed.

Lemma rotate_moves c req t rd ck w (db0 : oauth_db) :
  is_Some (t_refresh (w_db w) !! tr_RefreshToken req) ->
  rtc (db_step fresh) db0 (w_db w) -> rtc (db_step fresh) db0 (w_db (rotate issuer c req t rd ck w).2).
Proof.
  intros [old Hold] Hw. unfold rotate.
  destruct (Store.RefreshToken_IsValid _ _) as [?|?]; [|done]. case_match; [done|].
  destruct (refreshScopes _ _) as [scopes|?]; [|done].
  change (lift_result (Ok scopes) ≫= ?f) with (mret (M := M oauth_db error) scopes ≫= f).
  rewrite M_bind_run, M_ret_run, M_bind_run.
  pose proof (issueTokens_moves c (refresh_grant t scopes (ck 1%nat)) rd (shift 2 ck) db0 w Hw) as Hw1.
  destruct (issueTokens _ _ _ _ _ _) as [[resp|e] w1] eqn:Hi; [|done]. simpl in Hw1.
  apply issueTokens_ok in Hi as [_ Hr _ _ _].
  destruct (ts_RefreshToken resp) as [s|]; [|done]. destruct Hr as (row & Hnew & Htab & Hrow).
  case_match; [done|]. destruct (refreshTokenGracePeriod c) as [g|]; [|done].
  change (lift_result (Ok g) ≫= ?f) with (mret (M := M oauth_db error) g ≫= f).
  rewrite M_bind_run, M_ret_run, M_bind_run. unfold call, M_try.
  pose proof (mark_links (tr_RefreshToken req) s g (ck 6%nat) w1 row db0) as Hm.
  destruct (Store.MarkRefreshTokenUsed _ _ _ _ _) as [r w2]; simpl in Hm.
  assert (Hw2 : rtc (db_step fresh) db0 (w_db w2)); [|by destruct r].
  unfold fresh_refresh in Hrow. apply Hm; [|by destruct_and!|congruence|done]. by rewrite Htab, lookup_insert_eq.
Qed.

Lemma refreshAccessToken_moves fuel : forall req rd ck, moves fresh (refreshAccessToken issuer fuel req rd ck).
Proof.
  induction fuel as [|fuel IH]; intros req rd ck db0; simpl; [auto with aegion|].
  case_match; [auto with aegion|]. apply preserves_bind; [auto with moves|]. intros c w Hw.
  rewrite M_bind_run. unfold call, M_try.
  destruct (Store.GetRefreshToken (tr_RefreshToken req) w) as [[t|e] w1] eqn:Hg.
  - apply GetRefreshToken_ok in Hg as [Ht Hw1]. rewrite M_ret_run. rewrite <- Hw1 in Hw.
    assert (Hrot : rtc (db_step fresh) db0 (w_db (rotate issuer c req t rd (shift 1 ck) w1).2)).
    { apply rotate_moves; [rewrite Hw1; eauto|done]. }
    repeat case_match; try done; [|by apply IH].
    by apply (preserves_bind _ _ _ (preserves_attempt _ _ (InvalidateRefreshTokenFamily_moves fresh _ db0))
      (fun _ => preserves_throw _ _)).
  - pose proof (proj1 (proj2 (proj2 (proj2 (proj2 (store_reads fresh "" (tr_RefreshToken req) "" "")))))) as Hmv.
    specialize (Hmv db0 w Hw). by rewrite Hg in Hmv.
Qed.
End requests.

(** ** Every request is a sequence of steps *)

Section histories.
Context `{UuidText} `{OAuth2Env} (issuer : string)
  (validate : string -> string -> option Grants.JWTAssertionClaims).
Abbreviation serve := (serve issuer validate).
Abbreviation serve_all := (serve_all issuer validate).

(** The request creates only fresh authorization codes. *)
Definition op_fresh (fresh : string -> Prop) (op : oauth_op) : Prop :=
  match op with
  | OpConsent _ _ _ _ _ rd _ _ => fresh_codes fresh rd
  | _ => True
  end.

Lemma serve_moves fresh op : op_fresh fresh op -> moves fresh (serve op).
Proof.
  intros Hop db0. destruct op; simpl; apply discard_preserves; auto with moves.
  - apply StartAuthorization_moves.
  - apply AcceptLogin_moves.
  - by apply AcceptConsentForIdentity_moves.
  - apply RejectConsentForIdentity_moves.
  - apply ExchangeAuthorizationCode_moves.
  - destruct req; [apply refreshAccessToken_moves|apply preserves_throw].
  - apply ExchangeDeviceCode_moves.
  - apply IssueClientCredentials_moves.
  - apply IssueJWTBearer_moves.
  - apply IntrospectToken_moves.
  - apply RevokeToken_moves.
  - apply Revocation_moves.
  - apply delete_codes_moves.
Qed.

Lemma serve_steps fresh op faults db :
  op_fresh fresh op -> rtc (db_step fresh) db (w_db (serve op (World db faults)).2).
Proof. intros Hop. by apply (serve_moves fresh op Hop db (World db faults)). Qed.

Lemma serve_all_steps fresh ops : forall db,
  Forall (fun o => op_fresh fresh o.1) ops -> rtc (db_step fresh) db (serve_all ops db).
Proof.
  induction ops as [|[op faults] ops IH]; intros db Hops; simpl; [done|].
  apply Forall_cons in Hops as [Hop Hops]. etransitivity; [by apply serve_steps|]. by apply IH.
Qed.

Lemma steps_invariant fresh (I : oauth_db -> Prop) db db' :
  (forall d d', db_step fresh d d' -> I d -> I d') -> rtc (db_step fresh) db db' -> I db -> I db'.
Proof. intros Hstep Hrtc. induction Hrtc; eauto. Qed.
End histories.

(** ** A used code stays used *)

Definition spent (k : string) (db : oauth_db) : Prop :=
  forall c, t_codes db !! k = Some c -> ac_Used c = true.

Lemma spent_step k db db' : db_step (fun id => id <> k) db db' -> spent k db -> spent k db'.
Proof.
  intros Hstep Hk. destruct Hstep; try exact Hk; intros c' Hc'; simpl in Hc'.
  - rewrite lookup_insert_ne in Hc' by done. by apply Hk.
  - destruct (decide (k0 = k)) as [->|Hne].
    + rewrite lookup_insert_eq in Hc'. by simplify_eq.
    + rewrite lookup_insert_ne in Hc' by done. by apply Hk.
  - apply map_lookup_filter_Some in Hc' as [Hc' _]. by apply Hk.
Qed.

(** ** Concurrent exchanges of one code

    An exchange reads the code, claims it with one UPDATE and issues tokens;
    these parts of concurrent exchanges of the code [k] interleave with each
    other and with every other request. *)

Import TokenService.

Section exchangers.
Context `{UuidText} `{OAuth2Env} (issuer : string)
  (validate : string -> string -> option Grants.JWTAssertionClaims).

Inductive exchanger : Type :=
| ExStart
| ExRead (c : Client) (code : AuthCode)
| ExClaimed (c : Client) (code : AuthCode)
| ExDone (r : result error TokenResponse).

Definition after_read (r : result error (Client * AuthCode)) : exchanger :=
  match r with Ok (c, code) => ExRead c code | Err e => ExDone (Err e) end.
Definition after_claim (c : Client) (code : AuthCode) (r : result error unit) : exchanger :=
  match r with Ok _ => ExClaimed c code | Err e => ExDone (Err e) end.

Inductive exchange_step (k : string) : list exchanger * oauth_db -> list exchanger * oauth_db -> Prop :=
| XRead i req now fs xs db r w' :
    xs !! i = Some ExStart -> tr_Code req = k -> readCode req now (World db fs) = (r, w') ->
    exchange_step k (xs, db) (<[i := after_read r]> xs, w_db w')
| XClaim i req now fs c code xs db r w' :
    xs !! i = Some (ExRead c code) -> tr_Code req = k -> claimCode req now (World db fs) = (r, w') ->
    exchange_step k (xs, db) (<[i := after_claim c code r]> xs, w_db w')
| XIssue i c code rd ck fs xs db r w' :
    xs !! i = Some (ExClaimed c code) -> issueTokens issuer c (code_grant code) rd ck (World db fs) = (r, w') ->
    exchange_step k (xs, db) (<[i := ExDone r]> xs, w_db w')
| XOther op fs xs db :
    op_fresh (fun id => id <> k) op ->
    exchange_step k (xs, db) (xs, w_db (serve issuer validate op (World db fs)).2).

(** The exchanger won the code. *)
Definition won (x : exchanger) : bool :=
  match x with ExClaimed _ _ | ExDone (Ok _) => true | _ => false end.

Record exchange_inv (k : string) (s : list exchanger * oauth_db) : Prop := {
  xi_unique : forall i j x y, s.1 !! i = Some x -> s.1 !! j = Some y -> won x = true -> won y = true -> i = j;
  xi_spent : forall i x, s.1 !! i = Some x -> won x = true -> spent k s.2;
}.

(** Replacing exchanger [i] by one that has not won, or that had won before. *)
Lemma exchange_inv_set k xs db db' i x y :
  exchange_inv k (xs, db) -> xs !! i = Some x -> (won y = true -> won x = true) ->
  (spent k db -> spent k db') -> exchange_inv k (<[i := y]> xs, db').
Proof.
  intros [Hu Hs] Hx Hy Hsp.
  assert (Hold : forall j z, <[i := y]> xs !! j = Some z -> won z = true ->
    exists z', xs !! j = Some z' /\ won z' = true).
  { intros j z [(<- & -> & _)|[_ Hz]]%list_lookup_insert_Some; eauto. }
  constructor; simpl.
  - intros a b za zb Ha Hb Wa Wb. apply Hold in Ha as (? & ? & ?), Hb as (? & ? & ?); [|done..].
    by eapply Hu.
  - intros a za Ha Wa. apply Hold in Ha as (? & ? & ?); [|done]. apply Hsp. by eapply Hs.
Qed.

(** Winning for the first time. *)
Lemma exchange_inv_win k xs db db' i x y :
  exchange_inv k (xs, db) -> xs !! i = Some x -> won x = false -> ~ spent k db -> spent k db' ->
  exchange_inv k (<[i := y]> xs, db').
Proof.
  intros [Hu Hs] Hx Hwx Hno Hsp.
  assert (Hnone : forall j z, <[i := y]> xs !! j = Some z -> won z = true -> i = j).
  { intros j z [(-> & _ & _)|[_ Hz]]%list_lookup_insert_Some Wz; [done|]. exfalso. eauto. }
  constructor; simpl; [|done]. intros a b za zb Ha Hb Wa Wb.
  rewrite <- (Hnone a za), <- (Hnone b zb) by done. done.
Qed.

Lemma claimCode_cases req now w r w' :
  claimCode req now w = (r, w') ->
  (exists e, r = Err e /\ w_db w' = w_db w) \/
  (exists c, r = Ok tt /\ t_codes (w_db w) !! tr_Code req = Some c /\ ac_Used c = false /\
     w_db w' = upd_codes (insert (tr_Code req) (Store.set_code_used now c)) (w_db w)).
Proof.
  unfold claimCode, call, M_try. destruct (Store.MarkAuthCodeUsed _ _ w) as [r0 w1] eqn:Hm.
  destruct r0 as [[]|e]; [rewrite M_ret_run|unfold throw]; intros; simplify_eq/=.
  - right. apply MarkAuthCodeUsed_ok in Hm as (c & ? & ? & ?). by exists c.
  - left. eexists; split; [done|]. unfold Store.MarkAuthCodeUsed, Store.affects in Hm.
    rewrite M_bind_run in Hm. destruct (db_stmt _ w) as [r2 w2] eqn:Hs.
    apply db_stmt_cases in Hs as [(b & -> & Hs)|(e2 & -> & Hs)]; [|by simplify_eq].
    apply update_where_ok in Hs as [[-> Hs]|(? & -> & _)]; [|discriminate]. unfold throw in Hm. by simplify_eq.
Qed.

Lemma readCode_moves fresh req now : moves fresh (readCode req now).
Proof. unfold readCode. intros db0. pose proof (grantClient_moves fresh). walk. Qed.

Lemma exchange_inv_step k s s' : exchange_step k s s' -> exchange_inv k s -> exchange_inv k s'.
Proof.
  intros Hstep Hinv. destruct Hstep as [i req now fs xs db r w' Hi Hk Hr|i req now fs c code xs db r w' Hi Hk Hr|
    i c code rd ck fs xs db r w' Hi Hr|op fs xs db Hop].
  - eapply exchange_inv_set; [done|done| |].
    + destruct r as [[]|]; discriminate.
    + apply (steps_invariant (fun id => id <> k)); [apply spent_step|].
      pose proof (readCode_moves (fun id => id <> k) req now db (World db fs)) as Hm. rewrite Hr in Hm. by apply Hm.
  - apply claimCode_cases in Hr as [(e & -> & Hw)|(c' & -> & Hc & Hu & Hw)]; rewrite Hw; simpl in *.
    + by eapply exchange_inv_set.
    + eapply exchange_inv_win; [done|done|done| |].
      * subst k. intros Hsp. specialize (Hsp _ Hc). congruence.
      * subst k. intros c2. simpl. rewrite lookup_insert_eq. by intros [= <-].
  - eapply exchange_inv_set; [done|done|by intros|].
    apply (steps_invariant (fun id => id <> k)); [apply spent_step|].
    pose proof (issueTokens_moves (fun id => id <> k) issuer c (code_grant code) rd ck db (World db fs)) as Hm.
    rewrite Hr in Hm. by apply Hm.
  - destruct Hinv as [Hu Hs]. constructor; simpl in *; [done|]. intros i x Hi Hx.
    eapply (steps_invariant (fun id => id <> k)); [apply spent_step|by apply serve_steps|eauto].
Qed.

(** C3: However many exchanges of one authorization code run concurrently, in any
    interleaving with each other and with other requests, and whatever fails,
    at most one of them gets tokens. *)
Theorem code_is_exchanged_once k n db xs db' i j r1 r2 :
  rtc (exchange_step k) (replicate n ExStart, db) (xs, db') ->
  xs !! i = Some (ExDone (Ok r1)) -> xs !! j = Some (ExDone (Ok r2)) -> i = j.
Proof.
  intros Hrtc Hi Hj.
  assert (Hinv : exchange_inv k (xs, db')).
  { revert Hrtc. generalize (xs, db'). intros s Hrtc.
    assert (Hstart : exchange_inv k (replicate n ExStart, db)).
    { constructor; simpl; intros *; intros [-> _]%lookup_replicate; [by intros _ ?|discriminate]. }
    induction Hrtc; eauto using exchange_inv_step. }
  destruct Hinv as [Hu _]. eapply (Hu i j); eauto.
Qed.
End exchangers.
