(* ===== verification/OAuth2Refresh.v ===== *)
(** Refresh tokens: rotation, the chain of successors followed within the
    grace period, and replay.

    Consent and codes of the OAuth2 module, and concrete runs of the flow. *)

From Stdlib Require Import Ascii String.
From S2P Require Import Prelude GoStrings GoEncoding GoSha256 PlatformCrypto Session.
From S2P Require Import OAuth2Store OAuth2Authorize OAuth2Token OAuth2Facts OAuth2Steps.
From S2P Require Import SessionContext.

Local Open Scope string_scope.
Import TokenService.

(** ** Chains of successors end *)

Definition descends (rank : string -> nat) (m : gmap string RefreshToken) : Prop :=
  forall k t s, m !! k = Some t -> rt_SuccessorID t = Some s -> is_Some (m !! s) -> (rank s < rank k)%nat.
Definition chains_end (db : oauth_db) : Prop := exists rank, descends rank (t_refresh db).

(** [s] becomes the lowest token. *)
Definition sink (s : string) (rank : string -> nat) (k : string) : nat :=
  if String.eqb k s then 0%nat else S (rank k).

Lemma descends_sink rank m m' s :
  descends rank m ->
  (forall t, m' !! s = Some t -> rt_SuccessorID t = None) ->
  (forall k t s', k <> s -> s' <> s -> m' !! k = Some t -> rt_SuccessorID t = Some s' -> is_Some (m' !! s') ->
     exists t0, m !! k = Some t0 /\ rt_SuccessorID t0 = Some s' /\ is_Some (m !! s')) ->
  descends (sink s rank) m'.
Proof.
  intros Hd Hs Hother k t s' Hk Hsucc Hex. unfold sink.
  destruct (String.eqb_spec k s) as [->|Hks]; [specialize (Hs _ Hk); congruence|].
  destruct (String.eqb_spec s' s) as [->|Hs's]; [lia|].
  destruct (Hother k t s') as (t0 & Ht0 & Hsucc0 & Hex0); try done.
  specialize (Hd _ _ _ Ht0 Hsucc0 Hex0). lia.
Qed.

Lemma descends_sub rank m m' :
  descends rank m ->
  (forall k t, m' !! k = Some t -> exists t0, m !! k = Some t0 /\ rt_SuccessorID t0 = rt_SuccessorID t) ->
  descends rank m'.
Proof.
  intros Hd Hsub k t s Hk Hs [t' Hs']. destruct (Hsub _ _ Hk) as (t0 & Ht0 & Heq).
  destruct (Hsub _ _ Hs') as (t1 & Ht1 & _). eapply Hd; eauto. congruence.
Qed.

Lemma chains_end_step fresh db db' : db_step fresh db db' -> chains_end db -> chains_end db'.
Proof.
  intros Hstep [rank Hd]. destruct Hstep; try (exists rank; exact Hd).
  - exists (sink id rank). eapply descends_sink; [done| |]; simpl.
    + intros t. rewrite lookup_insert_eq. by intros [= <-].
    + intros k t s' Hk Hs'. rewrite !lookup_insert_ne by done. eauto.
  - exists (sink s rank). eapply descends_sink; [done| |]; simpl.
    + intros t'. rewrite lookup_insert_ne by done. congruence.
    + intros k t' s' Hk Hs'. destruct (decide (k = id)) as [->|Hkid].
      * rewrite lookup_insert_eq. intros [= <-] [= <-]. done.
      * rewrite lookup_insert_ne by done. intros Ht' Hsucc Hex. exists t'. split_and!; [done|done|].
        destruct (decide (s' = id)) as [->|]; [eauto|]. by rewrite lookup_insert_ne in Hex.
  - exists rank. eapply descends_sub; [done|]. simpl. intros k t'. rewrite lookup_fmap.
    intros (t0 & Ht0 & ->)%fmap_Some. exists t0. split; [done|]. by case_match.
  - exists rank. eapply descends_sub; [done|]. simpl. intros k t' [Ht' _]%map_lookup_filter_Some. eauto.
Qed.

(** The tokens below a rank; following a successor leaves fewer of them. *)
Definition below (rank : string -> nat) (n : nat) (m : gmap string RefreshToken) : nat :=
  size (filter (fun kv => (rank kv.1 < n)%nat) m).

Lemma below_decreases rank m s n :
  is_Some (m !! s) -> (rank s < n)%nat -> (below rank (rank s) m < below rank n m)%nat.
Proof.
  intros [t Ht] Hlt. unfold below. apply map_subset_size. apply map_subset_alt. split.
  - apply map_subseteq_spec. intros k t' [Hk Hr]%map_lookup_filter_Some. simpl in Hr.
    apply map_lookup_filter_Some. simpl. split; [done|lia].
  - exists s. split.
    + apply map_lookup_filter_None. right. intros ? _. simpl. lia.
    + exists t. by apply map_lookup_filter_Some.
Qed.

(** ** No other error is taken for a missing fuel *)

Definition fueled {A} (m : TM A) : Prop := forall w, (m w).1 <> Err OutOfFuel.

Lemma fueled_ret {A} (a : A) : fueled (mret a).
Proof. by intros w. Qed.
Lemma fueled_throw {A} e : e <> OutOfFuel -> fueled (throw e : TM A).
Proof. intros He w. simpl. congruence. Qed.
Lemma fueled_bind {A B} (m : TM A) (f : A -> TM B) :
  fueled m -> (forall a, fueled (f a)) -> fueled (m ≫= f).
Proof.
  intros Hm Hf w. rewrite M_bind_run. specialize (Hm w). destruct (m w) as [[a|e] w1]; simpl in *; [apply Hf|congruence].
Qed.
Lemma fueled_call {E A} (g : E -> error) (m : M oauth_db E A) : (forall e, g e <> OutOfFuel) -> fueled (call g m).
Proof.
  intros Hg w. unfold call, M_try. destruct (m w) as [[a|e] w1]; [done|]. simpl. intros [= He]. by apply (Hg e).
Qed.
Lemma fueled_attempt {E A} (m : M oauth_db E A) : fueled (attempt m).
Proof. intros w. unfold attempt, M_try. by destruct (m w). Qed.
Lemma fueled_lift {A} (r : result error A) : r <> Err OutOfFuel -> fueled (lift_result r).
Proof. by intros Hr w. Qed.

Create HintDb fueled.
#[export] Hint Resolve fueled_ret fueled_throw fueled_call fueled_attempt fueled_lift : fueled.
Ltac fuel_walk :=
  repeat first
    [ progress intros | progress cbv zeta | discriminate
    | solve [apply fueled_ret | apply fueled_attempt | apply fueled_throw; discriminate
            | apply fueled_call; discriminate ]
    | apply fueled_lift | apply fueled_bind | case_match ].

Section refresh.
Context `{OAuth2Env} (issuer : string).

Lemma grantClient_fueled id secret gts : fueled (grantClient id secret gts).
Proof. unfold grantClient, authenticateClient. fuel_walk. Qed.

Lemma rotate_fueled c req t rd ck : fueled (rotate issuer c req t rd ck).
Proof.
  unfold rotate, issueTokens, issueAccessToken, issueRefreshToken, issueIDToken, generated, signed,
    resolveTokenSubject, refreshScopes, refreshTokenGracePeriod. fuel_walk.
Qed.

Lemma refresh_answers rank fuel : forall req rd ck w,
  descends rank (t_refresh (w_db w)) ->
  (is_Some (t_refresh (w_db w) !! tr_RefreshToken req) ->
     (S (below rank (rank (tr_RefreshToken req)) (t_refresh (w_db w))) < fuel)%nat) ->
  (0 < fuel)%nat ->
  (refreshAccessToken issuer fuel req rd ck w).1 <> Err OutOfFuel.
Proof.
  induction fuel as [|fuel IH]; intros req rd ck w Hd Hbelow Hpos; [lia|]. simpl.
  case_match; [done|]. rewrite M_bind_run.
  pose proof (grantClient_fueled (tr_ClientID req) (tr_ClientSecret req) ["refresh_token"] w) as Hf.
  destruct (grantClient _ _ _ w) as [[c|e] w1] eqn:Hg; [|simpl in *; congruence].
  apply grantClient_ok in Hg as (_ & _ & _ & Hw1). rewrite M_bind_run. unfold call, M_try.
  destruct (Store.GetRefreshToken (tr_RefreshToken req) w1) as [[t|e] w2] eqn:Ht; [|done].
  apply GetRefreshToken_ok in Ht as [Ht Hw2]. rewrite M_ret_run. rewrite Hw1 in *.
  repeat case_match; try (by apply rotate_fueled); [|].
  - apply fueled_bind; [apply fueled_attempt|]. intros _. by apply fueled_throw.
  - assert (Hlt := Hbelow ltac:(eauto)). apply IH; rewrite ?Hw2; simpl; [done| |lia].
    intros Hs. assert (Hr : (rank s < rank (tr_RefreshToken req))%nat) by by eapply Hd.
    pose proof (below_decreases rank _ s _ Hs Hr). lia.
Qed.

(** After any history of requests and database failures, RefreshAccessToken
    answers within a chain of successors no longer than the table: two more
    levels of recursion than there are refresh tokens are enough. *)
Theorem refresh_always_answers `{UuidText} validate ops db req rd ck faults :
  t_refresh db = ∅ ->
  let db' := serve_all issuer validate ops db in
  (RefreshAccessToken issuer (S (S (size (t_refresh db')))) req rd ck (World db' faults)).1 <> Err OutOfFuel.
Proof.
  intros Hempty db'. destruct req as [req|]; [|done].
  assert (Hend : chains_end db').
  { eapply (steps_invariant (fun _ => True)); [apply chains_end_step| |].
    - apply serve_all_steps. apply Forall_forall. by intros [[] ?] _.
    - exists (fun _ => 0%nat). intros k t s. by rewrite Hempty. }
  destruct Hend as [rank Hd]. apply (refresh_answers rank); [done| |lia].
  intros [t Ht]. simpl in *. apply le_n_S, le_n_S, map_subseteq_size, map_filter_subseteq.
Qed.

(** ** Rotation *)

(** What a successful refresh with an unused token did. *)
Record rotated (req : TokenRequest) (rd : entropy) (ck : clock) (resp : TokenResponse)
    (c : Client) (t : RefreshToken) (s : string) (row : RefreshToken) (db db' : oauth_db) : Prop := {
  ro_client : t_clients db !! tr_ClientID req = Some c;
  ro_auth : authenticateClient c (tr_ClientSecret req) = Ok tt;
  ro_owner : rt_ClientID t = cl_ID c;
  ro_active : rt_Active t = true;
  ro_live : (ck 1%nat <= rt_ExpiresAt t)%Z;
  ro_answer : ts_RefreshToken resp = Some s;
  ro_new : t_refresh db !! s = None;
  ro_table : exists grace, t_refresh db' =
    <[tr_RefreshToken req := Store.set_rt_used (ck 7%nat) s grace t]> (<[s := row]> (t_refresh db)) /\
    (refreshTokenGracePeriod c = Ok 0%Z -> grace = None);
  ro_grant : rt_ClientID row = rt_ClientID t /\ rt_IdentityID row = rt_IdentityID t /\
    rt_SessionID row = rt_SessionID t /\ rt_Audience row = rt_Audience t;
  ro_scopes : forall x, x ∈ elems (rt_Scopes row) -> x ∈ elems (rt_Scopes t);
  ro_usable : rt_Active row = true /\ rt_Used row = false;
  ro_family : Store.GenerateRefreshTokenFamily (rd 2%nat) = Ok (rt_FamilyID row);
}.

Lemma rotate_ok c req t rd ck w resp w' :
  rotate issuer c req t rd (shift 1 ck) w = (Ok resp, w') ->
  t_clients (w_db w) !! tr_ClientID req = Some c -> authenticateClient c (tr_ClientSecret req) = Ok tt ->
  t_refresh (w_db w) !! tr_RefreshToken req = Some t ->
  exists s row, rotated req rd ck resp c t s row (w_db w) (w_db w').
Proof.
  unfold rotate, Store.RefreshToken_IsValid, time_after. intros Hr Hc Hauth Ht. inv_run; simplify_eq.
  match goal with Hi : issueTokens _ _ _ _ _ _ = _ |- _ => apply issueTokens_ok in Hi as [_ Hrt _ _ _] end.
  match goal with Hs : ts_RefreshToken _ = Some ?s |- _ =>
    rewrite Hs in Hrt; destruct Hrt as (row & Hnew & Htab & Hrow); exists s, row end.
  match goal with Hm : Store.MarkRefreshTokenUsed _ _ _ _ _ = _ |- _ =>
    apply MarkRefreshTokenUsed_ok in Hm as (t' & gr & Ht' & _ & _ & -> & Hw2) end.
  unfold fresh_refresh in Hrow; simpl in Hrow; destruct_and! Hrow.
  rewrite Htab, lookup_insert_ne in Ht' by congruence. simplify_eq.
  split_matches; bool_to_prop; constructor; try done; try (split_and!; congruence);
    try (intros y Hy; eapply refreshScopes_sub; [done|]; congruence);
    eexists; (split; [by rewrite Hw2; simpl; rewrite Htab|]); intros Hg0; [|done].
  match goal with Hp : (0 < ?x)%Z |- _ => assert (x = 0%Z) by congruence; lia end.
Qed.

Lemma refresh_rotated fuel req rd ck w resp w' t :
  refreshAccessToken issuer fuel req rd ck w = (Ok resp, w') ->
  t_refresh (w_db w) !! tr_RefreshToken req = Some t -> rt_Used t = false ->
  exists c s row, rotated req rd ck resp c t s row (w_db w) (w_db w').
Proof.
  destruct fuel as [|fuel]; [done|]. simpl. intros Hr Ht Hu.
  case_match; [done|]. apply M_bind_ok in Hr as (c & w1 & Hg & Hr). exists c.
  apply grantClient_ok in Hg as (Hc & Hauth & _ & Hw1).
  apply M_bind_ok in Hr as (t' & w2 & Hg & Hr). apply call_ok, GetRefreshToken_ok in Hg as [Ht' Hw2].
  rewrite Hw1 in *. simplify_eq. rewrite Hu in Hr. rewrite <- Hw2 in *. by eapply rotate_ok.
Qed.

(** A refresh with an unused token succeeds only for its authenticated client
    while the token is active and unexpired; it stores one new active token
    for the same client, identity, session and audience whose scopes are among
    the old ones, answers with it, and marks the old token used with the new
    one as its successor. *)
Theorem refresh_rotates fuel req rd ck w resp w' t :
  RefreshAccessToken issuer fuel (Some req) rd ck w = (Ok resp, w') ->
  t_refresh (w_db w) !! tr_RefreshToken req = Some t -> rt_Used t = false ->
  exists c s row, rotated req rd ck resp c t s row (w_db w) (w_db w').
Proof. apply refresh_rotated. Qed.

(** ** Replay *)

Lemma GetClient_reads id (db : oauth_db) : preserves (eq db) (Store.GetClient id).
Proof. apply preserves_no_rows, preserves_stmt. intros. stmt_cases. done. Qed.
Lemma GetRefreshToken_reads id (db : oauth_db) : preserves (eq db) (Store.GetRefreshToken id).
Proof. apply preserves_no_rows, preserves_stmt. intros. stmt_cases. done. Qed.
Lemma grantClient_reads id secret gts (db : oauth_db) : preserves (eq db) (grantClient id secret gts).
Proof. pose proof GetClient_reads. unfold grantClient. walk. Qed.

(** Rows of other families survive whatever a used token out of its grace
    period is answered. *)
Lemma used_token_refused fuel req rd ck w r w' t :
  refreshAccessToken issuer (S fuel) req rd ck w = (r, w') ->
  t_refresh (w_db w) !! tr_RefreshToken req = Some t -> rt_Used t = true ->
  rt_GracePeriodExpiresAt t = None ->
  (exists e, r = Err e) /\
  forall k row, t_refresh (w_db w) !! k = Some row -> rt_FamilyID row <> rt_FamilyID t ->
    t_refresh (w_db w') !! k = Some row.
Proof.
  simpl. intros Hr Ht Hu Hgr. case_match; [unfold throw in Hr; simplify_eq; eauto|].
  rewrite M_bind_run in Hr.
  pose proof (grantClient_reads (tr_ClientID req) (tr_ClientSecret req) ["refresh_token"] (w_db w) w eq_refl) as Hw1.
  destruct (grantClient _ _ _ w) as [[c|e] w1]; simpl in Hw1; [|simplify_eq; rewrite <- Hw1; eauto].
  rewrite M_bind_run in Hr. unfold call, M_try in Hr.
  pose proof (GetRefreshToken_reads (tr_RefreshToken req) (w_db w1) w1 eq_refl) as Hw2.
  destruct (Store.GetRefreshToken _ w1) as [[t'|e] w2] eqn:Hg; simpl in Hw2;
    [|unfold throw in Hr; simplify_eq; rewrite <- Hw2, <- Hw1; eauto].
  apply GetRefreshToken_ok in Hg as [Ht' _]. rewrite M_ret_run in Hr. rewrite <- Hw1 in Ht'. simplify_eq.
  unfold inGracePeriod in Hr. rewrite Hu, Hgr in Hr. cbn [negb] in Hr.
  rewrite M_bind_run in Hr.
  unfold attempt, M_try in Hr. destruct (Store.InvalidateRefreshTokenFamily _ w2) as [r2 w3] eqn:Hi.
  rewrite M_ret_run in Hr. unfold throw in Hr. simplify_eq. split; [eauto|].
  intros k row Hk Hfam. apply db_stmt_cases in Hi as [(n & _ & Hi)|(e & _ & Hi)]; [|congruence].
  unfold Store.update_all in Hi. injection Hi as _ Hi. rewrite <- Hi, <- Hw2, <- Hw1. simpl.
  rewrite lookup_fmap, Hk. simpl.
  apply String.eqb_neq in Hfam. by rewrite Hfam.
Qed.

(** A rotated token that is presented again is refused, but, for a client
    without a grace period, the token that replaced it stays active: every
    rotation starts a new family, and only the old family is invalidated. *)
Theorem replay_spares_successor fuel req rd ck w resp w' t c fuel' rd' ck' faults r w'' :
  RefreshAccessToken issuer fuel (Some req) rd ck w = (Ok resp, w') ->
  t_refresh (w_db w) !! tr_RefreshToken req = Some t -> rt_Used t = false ->
  t_clients (w_db w) !! tr_ClientID req = Some c -> refreshTokenGracePeriod c = Ok 0%Z ->
  Store.GenerateRefreshTokenFamily (rd 2%nat) <> Ok (rt_FamilyID t) ->
  RefreshAccessToken issuer (S fuel') (Some req) rd' ck' (World (w_db w') faults) = (r, w'') ->
  (exists e, r = Err e) /\
  exists s row, ts_RefreshToken resp = Some s /\ t_refresh (w_db w'') !! s = Some row /\
    rt_Active row = true /\ rt_Used row = false.
Proof.
  intros Hr Ht Hu Hc Hgr Hfam Hagain.
  apply refresh_rotated with (t := t) in Hr as (c' & s & row & [Hc' _ _ _ _ Hs Hnew (grace & Htab & Hg) _ _ [Ha Hn] Hf]);
    [|done..]. simplify_eq. rewrite (Hg Hgr) in Htab.
  assert (Hne : s <> tr_RefreshToken req) by congruence.
  eapply used_token_refused in Hagain as [He Hkeep]; [|simpl; by rewrite Htab, lookup_insert_eq|done|done].
  split; [done|]. exists s, row. split_and!; try done. apply Hkeep; simpl.
  - by rewrite Htab, lookup_insert_ne, lookup_insert_eq.
  - congruence.
Qed.
End refresh.

Import TokenService.

(** ** Skipped consent *)

Lemma GetLoginChallenge_ok k w l w' :
  Store.GetLoginChallenge k w = (Ok l, w') -> t_logins (w_db w) !! k = Some l /\ w_db w' = w_db w.
Proof. unfold Store.GetLoginChallenge. intros. inv_run. by apply select_ok in H. Qed.

Lemma CreateConsentChallenge_ok c r now w id w' :
  Store.CreateConsentChallenge c r now w = (Ok id, w') -> ch_ID c <> "" ->
  id = ch_ID c /\ exists row, t_consents (w_db w') !! id = Some row /\
    ch_IdentityID row = ch_IdentityID c /\ ch_Skip row = ch_Skip c.
Proof.
  unfold Store.CreateConsentChallenge. intros. inv_run.
  match goal with Hg : Store.or_generate _ _ _ = _ |- _ => apply or_generate_ok in Hg as [-> ->]; [|done] end.
  simplify_eq. split; [done|].
  match goal with Hi : insert_row _ _ _ _ _ _ _ = _ |- _ => apply insert_row_ok in Hi as (_ & _ & ->) end.
  eexists. simpl. by rewrite lookup_insert_eq.
Qed.

Lemma AcceptConsentChallenge_ok k sc au rem rf now w u w' row :
  Store.AcceptConsentChallenge k sc au rem rf now w = (Ok u, w') -> t_consents (w_db w) !! k = Some row ->
  t_consents (w_db w') !! k = Some (Store.set_granted sc au rem rf now row).
Proof.
  unfold Store.AcceptConsentChallenge, int4. intros Hr Hk. inv_run. split_matches.
  all: match goal with Hu : update_where _ _ _ _ _ _ = _ |- _ =>
    apply update_where_ok in Hu as [[]|(? & _ & Hk' & _ & ->)]; [done|] end.
  all: simplify_eq; simpl; by rewrite lookup_insert_eq.
Qed.

Lemma GetConsentChallenge_reads k (db : oauth_db) : preserves (eq db) (Store.GetConsentChallenge k).
Proof. apply preserves_no_rows, preserves_stmt. intros. stmt_cases. done. Qed.

(** What reading a stored consent challenge can give. *)
Lemma read_consent {E} (f : store_error -> E) k w ch :
  t_consents (w_db w) !! k = Some ch ->
  exists r w', call f (Store.GetConsentChallenge k) w = (r, w') /\ w_db w' = w_db w /\
    (r = Ok ch \/ exists e, r = Err e).
Proof.
  intros Hk. unfold call, M_try. pose proof (GetConsentChallenge_reads k (w_db w) w eq_refl) as Hw.
  destruct (Store.GetConsentChallenge k w) as [[ch'|e] w1] eqn:Hg; simpl in Hw.
  - apply GetConsentChallenge_ok in Hg as [Hg _]. simplify_eq. eexists _, w1. split_and!; eauto.
  - eexists _, w1. split_and!; eauto.
Qed.

(** A handled challenge gives no code. *)
Lemma handled_yields_no_code `{UuidText} k i sc rem rf rd ck dbnow w ch :
  t_consents (w_db w) !! k = Some ch -> ch_Handled ch = true ->
  exists e w', Authorization.AcceptConsentForIdentity k i sc rem rf rd ck dbnow w = (Err e, w') /\
    w_db w' = w_db w.
Proof.
  intros Hk Hh. unfold Authorization.AcceptConsentForIdentity. rewrite M_bind_run.
  destruct (read_consent (fun _ => Authorization.ErrInvalidRequest) k w ch Hk)
    as (r & w1 & -> & Hw1 & [->|[e ->]]); [|eauto].
  case_match; [eauto|]. unfold Authorization.AcceptConsent. rewrite M_bind_run. rewrite <- Hw1 in Hk.
  destruct (read_consent (fun _ => Authorization.ErrInvalidRequest) k w1 ch Hk)
    as (r & w2 & -> & Hw2 & [->|[e ->]]); [|eexists _, _; split; [done|congruence]].
  rewrite Hh. case_match; eexists _, w2; (split; [done|congruence]).
Qed.

(** When AcceptLogin skips the consent screen, because the client does not
    require consent or the identity gave it before, it marks the consent
    challenge handled; no later consent for it is accepted, so the flow never
    yields an authorization code. *)
Theorem skipped_consent_yields_no_code `{UuidText} k i s ck w resp w' :
  Authorization.AcceptLogin k i s ck w = (Ok resp, w') ->
  exists ch, t_consents (w_db w') !! Authorization.cr_ConsentChallenge resp = Some ch /\
    ch_IdentityID ch = i /\
    (ch_Skip ch = true -> forall sc rem rf rd ck' dbnow faults, exists e w'',
       Authorization.AcceptConsentForIdentity (Authorization.cr_ConsentChallenge resp) i sc rem rf rd ck' dbnow
         (World (w_db w') faults) = (Err e, w'') /\ t_codes (w_db w'') = t_codes (w_db w')).
Proof.
  unfold Authorization.AcceptLogin. intros. inv_run; simplify_eq; simpl.
  all: match goal with Hc : Store.CreateConsentChallenge _ _ _ _ = _ |- _ =>
    apply CreateConsentChallenge_ok in Hc as (-> & row & Hrow & Hid & Hskip); [|by destruct k] end.
  - match goal with Ha : Store.AcceptConsentChallenge _ _ _ _ _ _ _ = _ |- _ =>
      eapply AcceptConsentChallenge_ok in Ha as Hrow'; [|exact Hrow] end.
    eexists. split_and!; [exact Hrow'|done|]. intros _ *.
    match type of Hrow' with t_consents (w_db ?w1) !! _ = _ =>
      destruct (handled_yields_no_code (k ++ "_consent") i sc rem rf rd ck' dbnow
        (World (w_db w1) faults) _ Hrow' eq_refl) as (e & w'' & Hrun & Hw'') end.
    exists e, w''. split; [done|]. by rewrite Hw''.
  - exists row. split_and!; [done|done|]. simpl in Hskip. congruence.
Qed.

(** ** Audiences *)

(** A code without an audience, which is what the authorization endpoint
    leads to, never yields tokens under the shipped schema: the audience
    column of access tokens is NOT NULL. *)
Theorem code_without_audience_yields_no_tokens `{OAuth2Env} issuer req code rd ck w resp w' :
  t_codes (w_db w) !! tr_Code req = Some code -> ac_Audience code = None ->
  ExchangeAuthorizationCode issuer (Some req) rd ck w <> (Ok resp, w').
Proof.
  intros Hcode Haud. unfold ExchangeAuthorizationCode. intros Hx. inv_run.
  match goal with Hr : readCode _ _ _ = _ |- _ => apply readCode_ok in Hr as (_ & _ & _ & Hcode' & _ & _) end.
  match goal with Hi : issueTokens _ _ _ _ _ _ = _ |- _ => apply issueTokens_ok in Hi as [_ _ _ _ Ha] end.
  by simplify_eq.
Qed.

(** ** A concrete flow *)

Module OAuth2Witness.

#[local] Existing Instance unary_uuid.

(** A signer that signs with a constant, and passwords hashed by a prefix. *)
#[local] Instance toy_env : OAuth2Env := {|
  SignAccessToken := fun _ => Some "access.jwt";
  SignIDToken := fun _ => Some "id.jwt";
  VerifyPassword := fun plain hash => Some (String.eqb ("$" ++ plain) hash);
  url_Hostname := fun _ => None |}.

Definition app_client (requireConsent : bool) : Client :=
  {| cl_ID := "app"; cl_SecretHash := Some "$s3cret"; cl_Name := "App";
     cl_RedirectURIs := ["https://app.example/cb"]; cl_GrantTypes := ["authorization_code"; "refresh_token"];
     cl_ResponseTypes := ["code"]; cl_Scopes := ["openid"; "offline_access"; "read"];
     cl_TokenEndpointAuthMethod := "client_secret_basic"; cl_SectorIdentifierURI := None;
     cl_SubjectType := "public"; cl_AccessTokenTTL := 900; cl_RefreshTokenTTL := 2592000;
     cl_IDTokenTTL := 3600; cl_AuthCodeTTL := 600; cl_RequirePKCE := true;
     cl_RequireConsent := requireConsent; cl_AllowOfflineAccess := true; cl_Metadata := None |}.

Definition start_db (requireConsent : bool) : oauth_db :=
  {| t_clients := {[ "app" := app_client requireConsent ]}; t_codes := ∅; t_logins := ∅; t_consents := ∅;
     t_remembered := ∅; t_access := ∅; t_refresh := ∅; t_idtokens := ∅;
     t_core := {| t_sessions := ∅; t_methods := [] |} |}.

Definition bytes (seed : string) : entropy := fun n => Some (seed ++ FormatInt (Z.of_nat n)).
Definition ticks (t0 : Z) : clock := fun n => (t0 + Z.of_nat n)%Z.

Definition authorize_request (audience : strings) : Authorization.AuthorizeRequest :=
  {| Authorization.ar_ClientID := "app"; Authorization.ar_RedirectURI := "https://app.example/cb";
     Authorization.ar_RequestURL := ""; Authorization.ar_ResponseType := "code";
     Authorization.ar_Scope := "openid offline_access read"; Authorization.ar_State := "xyz";
     Authorization.ar_Nonce := "n"; Authorization.ar_CodeChallenge := b64url_Encode (sha256 "verifier");
     Authorization.ar_CodeChallengeMethod := "S256"; Authorization.ar_Audience := audience;
     Authorization.ar_ACRValues := None; Authorization.ar_MaxAge := None; Authorization.ar_Prompt := "" |}.

Definition login_id : string := "lc_" ++ b64url_Encode "login".
Definition the_code : string := b64url_Encode "c1".
Definition first_refresh : string := "rt_" ++ b64url_Encode "x1".

Definition token_request (code refresh : string) : TokenRequest :=
  {| tr_GrantType := ""; tr_Code := code; tr_RedirectURI := "https://app.example/cb";
     tr_ClientID := "app"; tr_ClientSecret := "s3cret"; tr_CodeVerifier := "verifier";
     tr_RefreshToken := refresh; tr_Scope := "" |}.

(** Authorization, login, consent: a code is stored. *)
Definition flow (audience : strings) : list (oauth_op * list (option string)) :=
  [(OpAuthorize (Some (authorize_request audience)) (Some "login") (ticks 0), []);
   (OpLogin login_id "user" "s" (ticks 10), []);
   (OpConsent (login_id ++ "_consent") "user" (Some ["openid"; "offline_access"]) false None
      (bytes "c") (ticks 20) 20%Z, [])].

Definition no_assertions (_ _ : string) : option Grants.JWTAssertionClaims := None.
Definition after (ops : list (oauth_op * list (option string))) (db : oauth_db) : oauth_db :=
  serve_all "https://iss" no_assertions ops db.

Definition code_db : oauth_db := Eval vm_compute in after (flow (Some ["api"])) (start_db true).
Definition exchange (db : oauth_db) : result error TokenResponse * world oauth_db :=
  ExchangeAuthorizationCode "https://iss" (Some (token_request the_code "")) (bytes "x") (ticks 30) (World db []).
Definition token_db : oauth_db := Eval vm_compute in w_db (exchange code_db).2.
Definition refresh (fuel : nat) (token seed : string) (db : oauth_db)
    : result error TokenResponse * world oauth_db :=
  RefreshAccessToken "https://iss" fuel (Some (token_request "" token)) (bytes seed) (ticks 50) (World db []).

(** The whole flow up to a rotated refresh token. *)
Definition whole_flow : list (oauth_op * list (option string)) :=
  (flow (Some ["api"]) ++
   [(OpExchange (Some (token_request the_code "")) (bytes "x") (ticks 30), []);
    (OpRefresh 5 (Some (token_request "" first_refresh)) (bytes "y") (ticks 50), [])])%list.

Lemma start_db_fresh b : fresh_db (start_db b).
Proof.
  unfold fresh_db, start_db; simpl. split_and!; try done.
  intros k c [<- <-]%lookup_singleton_Some. done.
Qed.

Lemma tokens_stay_within_registration_witness :
  size (t_access (after whole_flow (start_db true))) = 2%nat /\
  forall jti t, t_access (after whole_flow (start_db true)) !! jti = Some t ->
    exists c, t_clients (after whole_flow (start_db true)) !! at_ClientID t = Some c /\
      (forall s, s ∈ elems (at_Scopes t) -> s ∈ cl_Scopes c).
Proof.
  split; [by vm_compute|].
  exact (proj1 (tokens_stay_within_registration "https://iss" no_assertions whole_flow (start_db true)
    (start_db_fresh true))).
Defined.

Lemma code_exchange_is_authorized_witness : exists c code,
  t_clients code_db !! "app" = Some c /\ t_codes code_db !! the_code = Some code /\
  exchangeable code c (token_request the_code "") 30.
Proof.
  destruct (exchange code_db) as [[resp|e] w'] eqn:Hx; [|vm_compute in Hx; discriminate].
  destruct (code_exchange_is_authorized "https://iss" (token_request the_code "") (bytes "x") (ticks 30)
    (World code_db []) resp w' Hx) as (c & code & Hc & _ & _ & Hcode & Hx' & _).
  exists c, code. exact (conj Hc (conj Hcode Hx')).
Defined.

Lemma code_is_exchanged_once_witness : exists xs db' r,
  rtc (exchange_step "https://iss" no_assertions the_code) (replicate 2 ExStart, code_db) (xs, db') /\
  xs !! 0%nat = Some (ExDone (Ok r)) /\
  forall j r2, xs !! j = Some (ExDone (Ok r2)) -> 0%nat = j.
Proof.
  assert (Hrun : exists xs db' r,
    rtc (exchange_step "https://iss" no_assertions the_code) (replicate 2 ExStart, code_db) (xs, db') /\
    xs !! 0%nat = Some (ExDone (Ok r))).
  { eexists _, _, _. split.
    - eapply rtc_l; [eapply (XRead _ _ _ 0 (token_request the_code "") 30 []); [done|done|apply surjective_pairing]|].
      eapply rtc_l; [eapply (XRead _ _ _ 1 (token_request the_code "") 31 []); [done|done|apply surjective_pairing]|].
      eapply rtc_l; [eapply (XClaim _ _ _ 0 (token_request the_code "") 32 []); [vm_compute; reflexivity|done|apply surjective_pairing]|].
      eapply rtc_l; [eapply (XClaim _ _ _ 1 (token_request the_code "") 33 []); [vm_compute; reflexivity|done|apply surjective_pairing]|].
      eapply rtc_l; [|apply rtc_refl]. eapply (XIssue _ _ _ 0 _ _ (bytes "x") (ticks 34) []); [vm_compute; reflexivity|apply surjective_pairing].
    - vm_compute. reflexivity. }
  destruct Hrun as (xs & db' & r & Hrtc & H0). exists xs, db', r. split_and!; [done|done|].
  intros j r2 Hj. exact (code_is_exchanged_once "https://iss" no_assertions the_code 2 code_db xs db' 0 j r r2 Hrtc H0 Hj).
Defined.

Lemma refresh_rotates_witness : exists t resp w' c s row,
  t_refresh token_db !! first_refresh = Some t /\ rt_Used t = false /\
  refresh 5 first_refresh "y" token_db = (Ok resp, w') /\
  rotated (token_request "" first_refresh) (bytes "y") (ticks 50) resp c t s row token_db (w_db w').
Proof.
  destruct (t_refresh token_db !! first_refresh) as [t|] eqn:Ht; [|vm_compute in Ht; discriminate].
  destruct (refresh 5 first_refresh "y" token_db) as [[resp|e] w'] eqn:Hx; [|vm_compute in Hx; discriminate].
  assert (Hu : rt_Used t = false) by (vm_compute in Ht; injection Ht as <-; reflexivity).
  destruct (refresh_rotates "https://iss" 5 (token_request "" first_refresh) (bytes "y") (ticks 50)
    (World token_db []) resp w' t Hx Ht Hu) as (c & s & row & Hrot).
  exists t, resp, w', c, s, row. exact (conj eq_refl (conj Hu (conj eq_refl Hrot))).
Defined.

Lemma refresh_always_answers_witness :
  t_refresh (start_db true) = ∅ /\
  (RefreshAccessToken "https://iss" (S (S (size (t_refresh (after whole_flow (start_db true))))))
     (Some (token_request "" first_refresh)) (bytes "z") (ticks 90)
     (World (after whole_flow (start_db true)) [])).1 <> Err OutOfFuel.
Proof.
  split; [done|].
  exact (refresh_always_answers "https://iss" no_assertions whole_flow (start_db true)
    (Some (token_request "" first_refresh)) (bytes "z") (ticks 90) [] eq_refl).
Defined.

Lemma replay_spares_successor_witness : exists resp w' r w'' s row,
  refresh 5 first_refresh "y" token_db = (Ok resp, w') /\
  RefreshAccessToken "https://iss" 5 (Some (token_request "" first_refresh)) (bytes "z") (ticks 90)
    (World (w_db w') []) = (r, w'') /\ (exists e, r = Err e) /\
  ts_RefreshToken resp = Some s /\ t_refresh (w_db w'') !! s = Some row /\ rt_Active row = true.
Proof.
  destruct (t_refresh token_db !! first_refresh) as [t|] eqn:Ht; [|vm_compute in Ht; discriminate].
  destruct (refresh 5 first_refresh "y" token_db) as [[resp|e] w'] eqn:Hx; [|vm_compute in Hx; discriminate].
  destruct (RefreshAccessToken "https://iss" 5 (Some (token_request "" first_refresh)) (bytes "z") (ticks 90)
    (World (w_db w') [])) as [r w''] eqn:Hy.
  assert (Htv : rt_Used t = false /\ rt_FamilyID t = "rtf_eDI") by (vm_compute in Ht; injection Ht as <-; split; reflexivity).
  destruct Htv as [Hu Hf].
  destruct (replay_spares_successor "https://iss" 5 (token_request "" first_refresh) (bytes "y") (ticks 50)
    (World token_db []) resp w' t (app_client true) 4 (bytes "z") (ticks 90) [] r w'' Hx Ht Hu) as (He & s & row & Hs & Hrow & Ha & _);
    [by vm_compute|by vm_compute|rewrite Hf; by vm_compute|exact Hy|].
  exists resp, w', r, w'', s, row. exact (conj eq_refl (conj Hy (conj He (conj Hs (conj Hrow Ha))))).
Defined.

(** The client does not require consent: its flow ends without a code. *)
Definition login_db : oauth_db :=
  Eval vm_compute in after (take 1 (flow (Some ["api"]))) (start_db false).

Lemma skipped_consent_yields_no_code_witness : exists resp w' ch,
  Authorization.AcceptLogin login_id "user" "s" (ticks 10) (World login_db []) = (Ok resp, w') /\
  t_consents (w_db w') !! Authorization.cr_ConsentChallenge resp = Some ch /\ ch_Skip ch = true /\
  exists e w'', Authorization.AcceptConsentForIdentity (Authorization.cr_ConsentChallenge resp) "user"
    (Some ["openid"]) false None (bytes "c") (ticks 20) 20%Z (World (w_db w') []) = (Err e, w'') /\
    t_codes (w_db w'') = t_codes (w_db w').
Proof.
  destruct (Authorization.AcceptLogin login_id "user" "s" (ticks 10) (World login_db [])) as [[resp|e] w'] eqn:Hx;
    [|vm_compute in Hx; discriminate].
  destruct (skipped_consent_yields_no_code login_id "user" "s" (ticks 10) (World login_db []) resp w' Hx)
    as (ch & Hch & _ & Hno).
  assert (Hskip : ch_Skip ch = true).
  { vm_compute in Hx. injection Hx as <- <-. vm_compute in Hch. by injection Hch as <-. }
  exists resp, w', ch. split_and!; [done|done|done|]. exact (Hno Hskip _ _ _ _ _ _ _).
Defined.

Lemma code_without_audience_yields_no_tokens_witness : exists code,
  t_codes (after (flow None) (start_db true)) !! the_code = Some code /\ ac_Audience code = None /\
  forall resp w', exchange (after (flow None) (start_db true)) <> (Ok resp, w').
Proof.
  destruct (t_codes (after (flow None) (start_db true)) !! the_code) as [code|] eqn:Hc;
    [|vm_compute in Hc; discriminate].
  assert (Ha : ac_Audience code = None) by (vm_compute in Hc; by injection Hc as <-).
  exists code. split_and!; [done|done|]. intros resp w'.
  exact (code_without_audience_yields_no_tokens "https://iss" (token_request the_code "") code (bytes "x") (ticks 30)
    (World (after (flow None) (start_db true)) []) resp w' Hc Ha).
Defined.

(** ** Introspection of what clients hold

    A client holds the JWT, the store keys access tokens by the JWT identifier:
    revoking the JWT answers success and changes nothing, and introspection,
    which looks it up by its signature, still reports it active. *)
Definition introspect (token : string) (db : oauth_db) : result error IntrospectionResponse * world oauth_db :=
  IntrospectToken (Some {| ir_Token := token; ir_ClientID := "app"; ir_ClientSecret := "s3cret" |}) 60
    (World db []).
Definition revoke (token : string) (db : oauth_db) : result Revocation.error unit * world oauth_db :=
  Revocation.RevokeToken {| Revocation.rv_Token := token; Revocation.rv_TokenTypeHint := "access_token";
    Revocation.rv_ClientID := "app"; Revocation.rv_ClientSecret := "s3cret" |} 55 (World db []).
Definition reported_active (r : result error IntrospectionResponse * world oauth_db) : bool :=
  match r.1 with Ok resp => is_Active resp | Err _ => false end.

Lemma revoked_jwt_stays_active :
  (revoke "access.jwt" token_db).1 = Ok tt /\
  reported_active (introspect "access.jwt" (w_db (revoke "access.jwt" token_db).2)) = true /\
  reported_active (introspect "access.jwt" (w_db (revoke ("at_" ++ b64url_Encode "x0") token_db).2)) = false.
Proof. by vm_compute. Qed.

(** A client-credentials token is stored without a signature and is reported
    inactive while it is valid. *)
Definition machine_client : Client :=
  {| cl_ID := "app"; cl_SecretHash := Some "$s3cret"; cl_Name := "Machine"; cl_RedirectURIs := [];
     cl_GrantTypes := ["client_credentials"]; cl_ResponseTypes := []; cl_Scopes := ["read"];
     cl_TokenEndpointAuthMethod := "client_secret_post"; cl_SectorIdentifierURI := None;
     cl_SubjectType := "public"; cl_AccessTokenTTL := 900; cl_RefreshTokenTTL := 0; cl_IDTokenTTL := 0;
     cl_AuthCodeTTL := 0; cl_RequirePKCE := false; cl_RequireConsent := false;
     cl_AllowOfflineAccess := false; cl_Metadata := None |}.
Definition machine_db : oauth_db :=
  {| t_clients := {[ "app" := machine_client ]}; t_codes := ∅; t_logins := ∅; t_consents := ∅;
     t_remembered := ∅; t_access := ∅; t_refresh := ∅; t_idtokens := ∅;
     t_core := {| t_sessions := ∅; t_methods := [] |} |}.
Definition machine_token : result Grants.error Grants.ClientCredentialsResponse * world oauth_db :=
  Grants.IssueClientCredentials "https://iss"
    (Some {| Grants.cq_ClientID := "app"; Grants.cq_ClientSecret := "s3cret"; Grants.cq_Scope := "read" |})
    (bytes "m") (ticks 40) (World machine_db []).

Lemma client_credentials_token_reported_inactive :
  Grants.cc_AccessToken <$> (match machine_token.1 with Ok r => Some r | Err _ => None end) = Some "access.jwt" /\
  size (t_access (w_db machine_token.2)) = 1%nat /\
  reported_active (introspect "access.jwt" (w_db machine_token.2)) = false.
Proof. by vm_compute. Qed.

End OAuth2Witness.
