(* ===== verification/AdminStore.v ===== *)
(** modules/admin/store/store.go: the tables of the administration module
    (migrations 0001 and 0002) and the operations of [Store] on operators,
    roles, the audit log and API keys.

    JSON columns hold decoded values; a column whose JSON is not of the shape
    the code unmarshals is [None], which makes Unmarshal fail and the code fall
    back to an empty value.  [VerifyPassword] (Argon2, a C library) and the
    collation of the database, which orders text, are parameters. *)

From Stdlib Require Import Ascii String.
From S2P Require Import Prelude GoStrings GoEncoding PlatformCrypto.

Local Open Scope string_scope.

Inductive admin_store_error : Type :=
| ErrOperatorNotFound
| ErrIdentityNotFound
| ErrRoleNotFound
| ErrAPIKeyNotFound
| ErrDuplicateOperator
| ErrDuplicateRole
| ErrSystemRole
| ErrInvalidCredentials
| AdminDb (e : db_error).
#[global] Instance admin_dberr : DbErr admin_store_error := AdminDb.

(** A decoded JSON value; [JOther] is any value that is not used further, by
    its text. *)
Inductive jval : Type :=
| JBool (b : bool)
| JStr (s : string)
| JStrings (l : list string)
| JOther (text : string).
#[global] Instance jval_eq_dec : EqDecision jval.
Proof. solve_decision. Defined.

Abbreviation jobject := (gmap string jval) (only parsing).

Record Operator : Type := {
  op_ID : uuid;
  op_IdentityID : uuid;
  op_Role : string;
  op_Permissions : jobject;
  op_CreatedAt : time;
  op_UpdatedAt : time;
}.

Record Role : Type := {
  role_ID : uuid;
  role_Name : string;
  role_Description : string;
  role_Permissions : list string;
  role_IsSystem : bool;
  role_CreatedAt : time;
  role_UpdatedAt : time;
}.

Record AuditLogEntry : Type := {
  al_ID : uuid;
  al_OperatorID : option uuid;
  al_Action : string;
  al_ResourceType : string;
  al_ResourceID : string;
  al_Details : jobject;
  al_IPAddress : string;
  al_CreatedAt : time;
}.

Record APIKey : Type := {
  key_ID : uuid;
  key_OperatorID : uuid;
  key_Name : string;
  key_Hash : string;
  key_Prefix : string;
  key_Permissions : jobject;
  key_LastUsedAt : option time;
  key_ExpiresAt : option time;
  key_CreatedAt : time;
  key_UpdatedAt : time;
}.

Record IdentityProfile : Type := {
  ip_Email : string;
  ip_Name : string;
  ip_State : string;
  ip_LastLoginAt : option time;
}.

Record ListOptions : Type := { Limit : Z; Offset : Z; Sort : string }.

(** ** Tables *)

Record operator_row : Type := {
  or_identity : uuid;
  or_role : string;
  or_permissions : option jobject;
  or_created : time;
  or_updated : time;
}.

Record role_row : Type := {
  rr_name : string;
  rr_description : string;
  rr_permissions : option (list string);
  rr_is_system : bool;
  rr_created : time;
  rr_updated : time;
}.

Record api_key_row : Type := {
  kr_operator : uuid;
  kr_name : string;
  kr_hash : string;
  kr_prefix : string;
  kr_permissions : option jobject;
  kr_last_used : option time;
  kr_expires : option time;
  kr_created : time;
  kr_updated : time;
}.

(** The columns the module reads of the identity tables of the core and of the
    password module: traits as [->>] returns them. *)
Record identity_row : Type := {
  ir_traits : gmap string string;
  ir_state : string;
  ir_deleted : option time;
}.
Record address_row : Type := {
  ad_identity : uuid;
  ad_type : string;
  ad_value : string;
  ad_primary : bool;
  ad_created : time;
}.

Record admin_db : Type := {
  t_operators : gmap N operator_row;
  t_roles : gmap N role_row;
  t_audit : list AuditLogEntry;
  t_api_keys : gmap N api_key_row;
  t_identities : gmap N identity_row;
  t_addresses : list address_row;
  t_credentials : list (uuid * string);
  t_session_times : list (uuid * time);
}.

Definition with_operators (db : admin_db) (ops : gmap N operator_row) : admin_db :=
  {| t_operators := ops; t_roles := t_roles db; t_audit := t_audit db; t_api_keys := t_api_keys db;
     t_identities := t_identities db; t_addresses := t_addresses db; t_credentials := t_credentials db;
     t_session_times := t_session_times db |}.
Definition with_roles (db : admin_db) (roles : gmap N role_row) : admin_db :=
  {| t_operators := t_operators db; t_roles := roles; t_audit := t_audit db; t_api_keys := t_api_keys db;
     t_identities := t_identities db; t_addresses := t_addresses db; t_credentials := t_credentials db;
     t_session_times := t_session_times db |}.
Definition with_audit (db : admin_db) (log : list AuditLogEntry) : admin_db :=
  {| t_operators := t_operators db; t_roles := t_roles db; t_audit := log; t_api_keys := t_api_keys db;
     t_identities := t_identities db; t_addresses := t_addresses db; t_credentials := t_credentials db;
     t_session_times := t_session_times db |}.
Definition with_api_keys (db : admin_db) (keys : gmap N api_key_row) : admin_db :=
  {| t_operators := t_operators db; t_roles := t_roles db; t_audit := t_audit db; t_api_keys := keys;
     t_identities := t_identities db; t_addresses := t_addresses db; t_credentials := t_credentials db;
     t_session_times := t_session_times db |}.

Abbreviation AM := (M admin_db admin_store_error).

(** The first row of a table that satisfies a condition. *)
Definition find_row {A} (p : A -> bool) (t : gmap N A) : option (N * A) :=
  List.find (fun r => p r.2) (map_to_list t).
Definition exists_row {A} (p : A -> bool) (t : gmap N A) : bool :=
  List.existsb (fun r => p r.2) (map_to_list t).
Definition filter_rows {A} (p : A -> bool) (t : gmap N A) : gmap N A :=
  base.filter (fun r => p r.2 = true) t.

Definition role_named (name : string) (row : role_row) : bool := String.eqb (rr_name row) name.
Definition holds_role (role : string) (row : operator_row) : bool := String.eqb (or_role row) role.

(** ** Queries built at run time *)

Definition str_contains (s substr : string) : bool := Contains s substr.

(** [isDuplicateKeyError] looks for "duplicate key" or "23505" in the text of
    the error: PostgreSQL's text of a unique violation has the first, and a
    fault of the connection may carry any text. *)
Definition isDuplicateKeyError (e : admin_store_error) : bool :=
  match e with
  | AdminDb (UniqueViolation _) => true
  | AdminDb (DbFault msg) => str_contains msg "duplicate key" || str_contains msg "23505"
  | _ => false
  end.

Definition duplicate_as {A} (dup : admin_store_error) (m : AM A) : AM A :=
  call (fun e => if isDuplicateKeyError e then dup else e) m.
Definition no_rows_as {A} (missing : admin_store_error) (m : AM A) : AM A :=
  call (fun e => match e with AdminDb NoRows => missing | e => e end) m.

Definition safeSortExpression (input fallback : string) (allowed : gmap string string) : string :=
  let normalized := TrimSpace (ToLower input) in
  if String.eqb normalized "" then fallback
  else match allowed !! normalized with
       | Some safe => safe
       | None => fallback
       end.

Definition operator_sorts : gmap string string :=
  {["created_at desc" := "created_at DESC"; "created_at asc" := "created_at ASC";
    "updated_at desc" := "updated_at DESC"; "updated_at asc" := "updated_at ASC";
    "role asc" := "role ASC"; "role desc" := "role DESC"]}.
Definition role_sorts : gmap string string :=
  {["is_system desc, name asc" := "is_system DESC, name ASC";
    "name asc" := "name ASC"; "name desc" := "name DESC";
    "created_at desc" := "created_at DESC"; "created_at asc" := "created_at ASC";
    "updated_at desc" := "updated_at DESC"; "updated_at asc" := "updated_at ASC"]}.
Definition audit_sorts : gmap string string :=
  {["created_at desc" := "created_at DESC"; "created_at asc" := "created_at ASC";
    "action asc" := "action ASC"; "action desc" := "action DESC";
    "resource_type asc" := "resource_type ASC"; "resource_type desc" := "resource_type DESC"]}.

Class AdminEnv := {
  VerifyPassword : string -> string -> option bool;
  text_leb : string -> string -> bool;
}.

Section store.
Context `{AdminEnv}.

(** ** Operators *)

Definition operator_of_row (id : uuid) (row : operator_row) : Operator :=
  {| op_ID := id; op_IdentityID := or_identity row; op_Role := or_role row;
     op_Permissions := default ∅ (or_permissions row); op_CreatedAt := or_created row;
     op_UpdatedAt := or_updated row |}.

Definition insert_operator (op : Operator) (db : admin_db) : result db_error (unit * admin_db) :=
  if bool_decide (is_Some (t_operators db !! op_ID op)) then Err (UniqueViolation "adm_operators_pkey")
  else if exists_row (fun row => bool_decide (or_identity row = op_IdentityID op)) (t_operators db)
  then Err (UniqueViolation "adm_operators_identity_id_key")
  else if negb (bool_decide (is_Some (t_identities db !! op_IdentityID op)))
  then Err (ForeignKeyViolation "fk_adm_operators_identity")
  else if negb (exists_row (role_named (op_Role op)) (t_roles db))
  then Err (ForeignKeyViolation "fk_adm_operators_role")
  else Ok (tt, with_operators db (<[op_ID op :=
         {| or_identity := op_IdentityID op; or_role := op_Role op;
            or_permissions := Some (op_Permissions op); or_created := op_CreatedAt op;
            or_updated := op_UpdatedAt op |}]> (t_operators db))).

Definition store_CreateOperator (op : Operator) : AM unit :=
  duplicate_as ErrDuplicateOperator (db_stmt (insert_operator op)).

Definition store_GetOperator (id : uuid) : AM Operator :=
  no_rows_as ErrOperatorNotFound (db_stmt (fun db =>
    match t_operators db !! id with
    | Some row => Ok (operator_of_row id row, db)
    | None => Err NoRows
    end)).

Definition store_GetOperatorByIdentityID (identityID : uuid) : AM Operator :=
  no_rows_as ErrOperatorNotFound (db_stmt (fun db =>
    match find_row (fun row => bool_decide (or_identity row = identityID)) (t_operators db) with
    | Some (id, row) => Ok (operator_of_row id row, db)
    | None => Err NoRows
    end)).

(** The lateral subquery: the e-mail address of an identity, primary addresses
    first, then the oldest. *)
Definition address_leb (a b : address_row) : bool :=
  if Bool.eqb (ad_primary a) (ad_primary b) then (ad_created a <=? ad_created b)%Z else ad_primary a.
Definition first_email (identityID : uuid) (db : admin_db) : option string :=
  option_map ad_value (head (sort_by address_leb
    (List.filter (fun a => bool_decide (ad_identity a = identityID) && String.eqb (ad_type a) "email")
       (t_addresses db)))).
Definition coalesce (l : list (option string)) : string :=
  foldr (fun o rest => default rest o) "" l.
Definition identity_email (identityID : uuid) (ident : identity_row) (db : admin_db) : string :=
  coalesce [first_email identityID db; ir_traits ident !! "email"].

(** The joined rows that match an e-mail address. *)
Definition email_rows (email : string) (db : admin_db) : list ((uuid * operator_row) * string) :=
  List.concat (List.map (fun r : uuid * operator_row =>
    match t_identities db !! or_identity r.2 with
    | Some ident =>
        if bool_decide (ir_deleted ident = None)
           && String.eqb (ToLower (identity_email (or_identity r.2) ident db)) email
        then List.map (fun c => (r, snd c))
               (List.filter (fun c => bool_decide (fst c = or_identity r.2)) (t_credentials db))
        else []
    | None => []
    end) (map_to_list (t_operators db))).

Definition AuthenticateOperatorByEmail (email password : string) : AM Operator :=
  let normalizedEmail := ToLower (TrimSpace email) in
  if String.eqb normalizedEmail "" || String.eqb password "" then throw ErrInvalidCredentials
  else
    '(op, passwordHash) ← no_rows_as ErrInvalidCredentials (db_stmt (fun db =>
       match email_rows normalizedEmail db with
       | (r, hash) :: _ => Ok ((operator_of_row r.1 r.2, hash), db)
       | [] => Err NoRows
       end));
    match VerifyPassword password passwordHash with
    | Some true => mret op
    | _ => throw ErrInvalidCredentials
    end.

Definition max_time (l : list time) : option time :=
  foldr (fun t m => Some (match m with Some u => Z.max t u | None => t end)) None l.

Definition GetIdentityProfile (identityID : uuid) : AM IdentityProfile :=
  no_rows_as ErrIdentityNotFound (db_stmt (fun db =>
    match t_identities db !! identityID with
    | Some ident =>
        if bool_decide (ir_deleted ident = None)
        then Ok ({| ip_Email := identity_email identityID ident db;
                    ip_Name := coalesce [ir_traits ident !! "display_name"; ir_traits ident !! "name"];
                    ip_State := ir_state ident;
                    ip_LastLoginAt := max_time (List.map snd
                      (List.filter (fun s => bool_decide (fst s = identityID)) (t_session_times db))) |}, db)
        else Err NoRows
    | None => Err NoRows
    end)).

Definition update_operator (op : Operator) (dbnow : time) (db : admin_db) : result db_error (Z * admin_db) :=
  match t_operators db !! op_ID op with
  | None => Ok (0%Z, db)
  | Some row =>
      if negb (exists_row (role_named (op_Role op)) (t_roles db))
      then Err (ForeignKeyViolation "fk_adm_operators_role")
      else Ok (1%Z, with_operators db (<[op_ID op :=
             {| or_identity := or_identity row; or_role := op_Role op;
                or_permissions := Some (op_Permissions op); or_created := or_created row;
                or_updated := dbnow |}]> (t_operators db)))
  end.

Definition store_UpdateOperator (op : Operator) (dbnow : time) : AM unit :=
  n ← db_stmt (update_operator op dbnow);
  if (n =? 0)%Z then throw ErrOperatorNotFound else mret tt.

(** [DELETE]: refused while the audit log names the operator as an actor
    (ON DELETE RESTRICT); the operator's API keys go with it (ON DELETE
    CASCADE). *)
Definition delete_operator (id : uuid) (db : admin_db) : result db_error (Z * admin_db) :=
  match t_operators db !! id with
  | None => Ok (0%Z, db)
  | Some _ =>
      if List.existsb (fun e => bool_decide (al_OperatorID e = Some id)) (t_audit db)
      then Err (ForeignKeyViolation "fk_adm_audit_log_operator")
      else Ok (1%Z, with_api_keys (with_operators db (base.delete id (t_operators db)))
             (filter_rows (fun k => negb (bool_decide (kr_operator k = id))) (t_api_keys db)))
  end.

Definition store_DeleteOperator (id : uuid) : AM unit :=
  n ← db_stmt (delete_operator id);
  if (n =? 0)%Z then throw ErrOperatorNotFound else mret tt.

Definition CountOperatorsByRole (role : string) : AM Z :=
  db_stmt (fun db =>
    Ok (Z.of_nat (length (List.filter (fun r => holds_role role r.2) (map_to_list (t_operators db)))), db)).

(** [LIMIT l OFFSET o]; PostgreSQL refuses a negative offset. *)
Definition page {A} (opts : ListOptions) (l : list A) : result db_error (list A) :=
  if (Offset opts <? 0)%Z then Err (DbFault "OFFSET must not be negative")
  else Ok (take (Z.to_nat (Limit opts)) (drop (Z.to_nat (Offset opts)) l)).

Definition desc {A} (leb : A -> A -> bool) (a b : A) : bool := leb b a.

Definition operator_order (sort : string) (a b : Operator) : bool :=
  if String.eqb sort "created_at ASC" then (op_CreatedAt a <=? op_CreatedAt b)%Z
  else if String.eqb sort "updated_at DESC" then (op_UpdatedAt b <=? op_UpdatedAt a)%Z
  else if String.eqb sort "updated_at ASC" then (op_UpdatedAt a <=? op_UpdatedAt b)%Z
  else if String.eqb sort "role ASC" then text_leb (op_Role a) (op_Role b)
  else if String.eqb sort "role DESC" then text_leb (op_Role b) (op_Role a)
  else (op_CreatedAt b <=? op_CreatedAt a)%Z.

Definition store_ListOperators (opts : ListOptions) : AM (list Operator * Z) :=
  totalCount ← db_stmt (fun db => Ok (Z.of_nat (size (t_operators db)), db));
  let opts :=
    {| Limit := if (Limit opts <=? 0)%Z then 10%Z else Limit opts; Offset := Offset opts;
       Sort := safeSortExpression (Sort opts) "created_at DESC" operator_sorts |} in
  operators ← db_stmt (fun db =>
    (fun l => (l, db)) <$> page opts (sort_by (operator_order (Sort opts))
      (List.map (fun r => operator_of_row r.1 r.2) (map_to_list (t_operators db)))));
  mret (operators, totalCount).

(** ** Roles *)

Definition role_of_row (id : uuid) (row : role_row) : Role :=
  {| role_ID := id; role_Name := rr_name row; role_Description := rr_description row;
     role_Permissions := default [] (rr_permissions row); role_IsSystem := rr_is_system row;
     role_CreatedAt := rr_created row; role_UpdatedAt := rr_updated row |}.

Definition insert_role (role : Role) (db : admin_db) : result db_error (unit * admin_db) :=
  if bool_decide (is_Some (t_roles db !! role_ID role)) then Err (UniqueViolation "adm_roles_pkey")
  else if exists_row (role_named (role_Name role)) (t_roles db) then Err (UniqueViolation "adm_roles_name_key")
  else Ok (tt, with_roles db (<[role_ID role :=
         {| rr_name := role_Name role; rr_description := role_Description role;
            rr_permissions := Some (role_Permissions role); rr_is_system := role_IsSystem role;
            rr_created := role_CreatedAt role; rr_updated := role_UpdatedAt role |}]> (t_roles db))).

Definition store_CreateRole (role : Role) : AM unit :=
  duplicate_as ErrDuplicateRole (db_stmt (insert_role role)).

Definition store_GetRole (id : uuid) : AM Role :=
  no_rows_as ErrRoleNotFound (db_stmt (fun db =>
    match t_roles db !! id with
    | Some row => Ok (role_of_row id row, db)
    | None => Err NoRows
    end)).

Definition GetRoleByName (name : string) : AM Role :=
  no_rows_as ErrRoleNotFound (db_stmt (fun db =>
    match find_row (role_named name) (t_roles db) with
    | Some (id, row) => Ok (role_of_row id row, db)
    | None => Err NoRows
    end)).

Definition select_is_system (id : uuid) : AM bool :=
  no_rows_as ErrRoleNotFound (db_stmt (fun db =>
    match t_roles db !! id with
    | Some row => Ok (rr_is_system row, db)
    | None => Err NoRows
    end)).

(** [UPDATE adm_roles]: a new name must be free and is carried into the
    operators that hold the role (ON UPDATE CASCADE). *)
Definition rename_role (old new : string) (row : operator_row) : operator_row :=
  if String.eqb (or_role row) old
  then {| or_identity := or_identity row; or_role := new; or_permissions := or_permissions row;
          or_created := or_created row; or_updated := or_updated row |}
  else row.
Definition update_role (role : Role) (dbnow : time) (db : admin_db) : result db_error (Z * admin_db) :=
  match t_roles db !! role_ID role with
  | None => Ok (0%Z, db)
  | Some row =>
      if rr_is_system row then Ok (0%Z, db)
      else if exists_row (role_named (role_Name role)) (base.delete (role_ID role) (t_roles db))
      then Err (UniqueViolation "adm_roles_name_key")
      else Ok (1%Z, with_roles (with_operators db (rename_role (rr_name row) (role_Name role) <$> t_operators db))
             (<[role_ID role :=
                {| rr_name := role_Name role; rr_description := role_Description role;
                   rr_permissions := Some (role_Permissions role); rr_is_system := rr_is_system row;
                   rr_created := rr_created row; rr_updated := dbnow |}]> (t_roles db)))
  end.

Definition store_UpdateRole (role : Role) (dbnow : time) : AM unit :=
  isSystem ← select_is_system (role_ID role);
  if isSystem : bool then throw ErrSystemRole
  else
    n ← duplicate_as ErrDuplicateRole (db_stmt (update_role role dbnow));
    if (n =? 0)%Z then throw ErrRoleNotFound else mret tt.

Definition delete_role (id : uuid) (db : admin_db) : result db_error (Z * admin_db) :=
  match t_roles db !! id with
  | None => Ok (0%Z, db)
  | Some row =>
      if rr_is_system row then Ok (0%Z, db)
      else if exists_row (holds_role (rr_name row)) (t_operators db)
      then Err (ForeignKeyViolation "fk_adm_operators_role")
      else Ok (1%Z, with_roles db (base.delete id (t_roles db)))
  end.

Definition store_DeleteRole (id : uuid) : AM unit :=
  isSystem ← select_is_system id;
  if isSystem : bool then throw ErrSystemRole
  else
    n ← db_stmt (delete_role id);
    if (n =? 0)%Z then throw ErrRoleNotFound else mret tt.

Definition role_order (sort : string) (a b : Role) : bool :=
  if String.eqb sort "name ASC" then text_leb (role_Name a) (role_Name b)
  else if String.eqb sort "name DESC" then text_leb (role_Name b) (role_Name a)
  else if String.eqb sort "created_at DESC" then (role_CreatedAt b <=? role_CreatedAt a)%Z
  else if String.eqb sort "created_at ASC" then (role_CreatedAt a <=? role_CreatedAt b)%Z
  else if String.eqb sort "updated_at DESC" then (role_UpdatedAt b <=? role_UpdatedAt a)%Z
  else if String.eqb sort "updated_at ASC" then (role_UpdatedAt a <=? role_UpdatedAt b)%Z
  else if Bool.eqb (role_IsSystem a) (role_IsSystem b) then text_leb (role_Name a) (role_Name b)
  else role_IsSystem a.

Definition store_ListRoles (opts : ListOptions) : AM (list Role * Z) :=
  totalCount ← db_stmt (fun db => Ok (Z.of_nat (size (t_roles db)), db));
  let opts :=
    {| Limit := if (Limit opts <=? 0)%Z then 10%Z else Limit opts; Offset := Offset opts;
       Sort := safeSortExpression (Sort opts) "is_system DESC, name ASC" role_sorts |} in
  roles ← db_stmt (fun db =>
    (fun l => (l, db)) <$> page opts (sort_by (role_order (Sort opts))
      (List.map (fun r => role_of_row r.1 r.2) (map_to_list (t_roles db)))));
  mret (roles, totalCount).

(** ** Audit log *)

Definition audit_actions : list string := ["create"; "read"; "update"; "delete"].

Definition insert_audit (entry : AuditLogEntry) (db : admin_db) : result db_error (unit * admin_db) :=
  if List.existsb (fun e => bool_decide (al_ID e = al_ID entry)) (t_audit db)
  then Err (UniqueViolation "adm_audit_log_pkey")
  else if negb (List.existsb (String.eqb (al_Action entry)) audit_actions)
  then Err (CheckViolation "adm_audit_log_action_check")
  else if match al_OperatorID entry with
          | Some id => negb (bool_decide (is_Some (t_operators db !! id)))
          | None => false
          end
  then Err (ForeignKeyViolation "fk_adm_audit_log_operator")
  else Ok (tt, with_audit db (t_audit db ++ [entry])).

Definition LogAction (entry : AuditLogEntry) : AM unit := db_stmt (insert_audit entry).

Record AuditFilter : Type := {
  f_OperatorID : option uuid;
  f_Action : string;
  f_ResourceType : string;
  f_ResourceID : string;
  f_StartTime : option time;
  f_EndTime : option time;
}.

(** The conditions the filter adds, in the order of the code; the argument of
    the n-th is the n-th query parameter. *)
Inductive audit_cond : Type :=
| COperator (id : uuid)
| CAction (action : string)
| CResourceType (t : string)
| CResourceID (id : string)
| CStart (t : time)
| CEnd (t : time).

Definition nonempty_cond (c : string -> audit_cond) (s : string) : list audit_cond :=
  if String.eqb s "" then [] else [c s].
Definition option_cond {A} (c : A -> audit_cond) (o : option A) : list audit_cond :=
  match o with Some a => [c a] | None => [] end.
Definition audit_conds (f : AuditFilter) : list audit_cond :=
  option_cond COperator (f_OperatorID f) ++ nonempty_cond CAction (f_Action f) ++
  nonempty_cond CResourceType (f_ResourceType f) ++ nonempty_cond CResourceID (f_ResourceID f) ++
  option_cond CStart (f_StartTime f) ++ option_cond CEnd (f_EndTime f).

Definition cond_text (c : audit_cond) : string :=
  match c with
  | COperator _ => " AND operator_id = $"
  | CAction _ => " AND action = $"
  | CResourceType _ => " AND resource_type = $"
  | CResourceID _ => " AND resource_id = $"
  | CStart _ => " AND created_at >= $"
  | CEnd _ => " AND created_at <= $"
  end.
Fixpoint conds_text (argIndex : Z) (cs : list audit_cond) : string :=
  match cs with
  | [] => ""
  | c :: cs' => cond_text c +:+ FormatInt argIndex +:+ conds_text (argIndex + 1) cs'
  end.
Definition whereClause (f : AuditFilter) : string := "WHERE 1=1" +:+ conds_text 1 (audit_conds f).

Definition cond_holds (e : AuditLogEntry) (c : audit_cond) : bool :=
  match c with
  | COperator id => bool_decide (al_OperatorID e = Some id)
  | CAction a => String.eqb (al_Action e) a
  | CResourceType t => String.eqb (al_ResourceType e) t
  | CResourceID id => String.eqb (al_ResourceID e) id
  | CStart t => (t <=? al_CreatedAt e)%Z
  | CEnd t => (al_CreatedAt e <=? t)%Z
  end.

Definition audit_order (sort : string) (a b : AuditLogEntry) : bool :=
  if String.eqb sort "created_at ASC" then (al_CreatedAt a <=? al_CreatedAt b)%Z
  else if String.eqb sort "action ASC" then text_leb (al_Action a) (al_Action b)
  else if String.eqb sort "action DESC" then text_leb (al_Action b) (al_Action a)
  else if String.eqb sort "resource_type ASC" then text_leb (al_ResourceType a) (al_ResourceType b)
  else if String.eqb sort "resource_type DESC" then text_leb (al_ResourceType b) (al_ResourceType a)
  else (al_CreatedAt b <=? al_CreatedAt a)%Z.

Definition store_ListAuditLogs (filter : AuditFilter) (opts : ListOptions) : AM (list AuditLogEntry * Z) :=
  let selected := fun db => List.filter (fun e => forallb (cond_holds e) (audit_conds filter)) (t_audit db) in
  totalCount ← db_stmt (fun db => Ok (Z.of_nat (length (selected db)), db));
  let opts :=
    {| Limit := if (Limit opts <=? 0)%Z then 50%Z else Limit opts; Offset := Offset opts;
       Sort := safeSortExpression (Sort opts) "created_at DESC" audit_sorts |} in
  entries ← db_stmt (fun db =>
    (fun l => (l, db)) <$> page opts (sort_by (audit_order (Sort opts)) (selected db)));
  mret (entries, totalCount).

(** ** API keys *)

Definition key_of_row (id : uuid) (row : api_key_row) : APIKey :=
  {| key_ID := id; key_OperatorID := kr_operator row; key_Name := kr_name row; key_Hash := kr_hash row;
     key_Prefix := kr_prefix row; key_Permissions := default ∅ (kr_permissions row);
     key_LastUsedAt := kr_last_used row; key_ExpiresAt := kr_expires row; key_CreatedAt := kr_created row;
     key_UpdatedAt := kr_updated row |}.

Definition row_of_key (key : APIKey) : api_key_row :=
  {| kr_operator := key_OperatorID key; kr_name := key_Name key; kr_hash := key_Hash key;
     kr_prefix := key_Prefix key; kr_permissions := Some (key_Permissions key); kr_last_used := None;
     kr_expires := key_ExpiresAt key; kr_created := key_CreatedAt key; kr_updated := key_UpdatedAt key |}.

Definition insert_api_key (key : APIKey) (db : admin_db) : result db_error (unit * admin_db) :=
  if bool_decide (is_Some (t_api_keys db !! key_ID key)) then Err (UniqueViolation "adm_api_keys_pkey")
  else if negb (bool_decide (is_Some (t_operators db !! key_OperatorID key)))
  then Err (ForeignKeyViolation "fk_adm_api_keys_operator")
  else Ok (tt, with_api_keys db (<[key_ID key := row_of_key key]> (t_api_keys db))).

Definition CreateAPIKey (key : APIKey) : AM unit := db_stmt (insert_api_key key).

Definition GetAPIKey (id : uuid) : AM APIKey :=
  no_rows_as ErrAPIKeyNotFound (db_stmt (fun db =>
    match t_api_keys db !! id with
    | Some row => Ok (key_of_row id row, db)
    | None => Err NoRows
    end)).

Definition has_prefix (prefix : string) (row : api_key_row) : bool := String.eqb (kr_prefix row) prefix.

Definition GetAPIKeyByPrefix (prefix : string) : AM APIKey :=
  no_rows_as ErrAPIKeyNotFound (db_stmt (fun db =>
    match find_row (has_prefix prefix) (t_api_keys db) with
    | Some (id, row) => Ok (key_of_row id row, db)
    | None => Err NoRows
    end)).

Definition touch_key (dbnow : time) (row : api_key_row) : api_key_row :=
  {| kr_operator := kr_operator row; kr_name := kr_name row; kr_hash := kr_hash row;
     kr_prefix := kr_prefix row; kr_permissions := kr_permissions row; kr_last_used := Some dbnow;
     kr_expires := kr_expires row; kr_created := kr_created row; kr_updated := dbnow |}.

Definition UpdateAPIKeyLastUsed (id : uuid) (dbnow : time) : AM unit :=
  db_stmt (fun db => Ok (tt, with_api_keys db (alter (touch_key dbnow) id (t_api_keys db)))).

Definition HashAPIKeyToken (token : string) : string := secrettoken.Hash token.
Definition ValidateAPIKeyToken (token expectedHash : string) : bool := secrettoken.Validate token expectedHash.

Definition DeleteAPIKey (id : uuid) : AM unit :=
  n ← db_stmt (fun db =>
    if bool_decide (is_Some (t_api_keys db !! id))
    then Ok (1%Z, with_api_keys db (base.delete id (t_api_keys db)))
    else Ok (0%Z, db));
  if (n =? 0)%Z then throw ErrAPIKeyNotFound else mret tt.

Definition ListAPIKeysByOperator (operatorID : uuid) : AM (list APIKey) :=
  db_stmt (fun db =>
    Ok (sort_by (fun a b => (key_CreatedAt b <=? key_CreatedAt a)%Z)
          (List.map (fun r => key_of_row r.1 r.2)
             (List.filter (fun r => bool_decide (kr_operator r.2 = operatorID)) (map_to_list (t_api_keys db)))), db)).
End store.

(** ** Lookups in tables *)

Lemma find_row_some {A} (p : A -> bool) (t : gmap N A) id row :
  find_row p t = Some (id, row) -> t !! id = Some row /\ p row = true.
Proof.
  unfold find_row. intros Hf. apply find_some in Hf as [Hin Hp].
  apply list_elem_of_In, elem_of_map_to_list in Hin. done.
Qed.

Lemma find_row_none {A} (p : A -> bool) (t : gmap N A) :
  find_row p t = None <-> forall id row, t !! id = Some row -> p row = false.
Proof.
  unfold find_row. split.
  - intros Hf id row Hrow.
    apply (find_none _ _ Hf (id, row)), list_elem_of_In, elem_of_map_to_list. done.
  - intros Hall. destruct (List.find _ _) as [[id row]|] eqn:Hf; [|done].
    apply find_some in Hf as [Hin Hp].
    apply list_elem_of_In, elem_of_map_to_list, Hall in Hin. simpl in Hp. congruence.
Qed.

Lemma exists_row_true {A} (p : A -> bool) (t : gmap N A) :
  exists_row p t = true <-> exists id row, t !! id = Some row /\ p row = true.
Proof.
  unfold exists_row. rewrite existsb_exists. split.
  - intros ([id row] & Hin & Hp). apply list_elem_of_In, elem_of_map_to_list in Hin. eauto.
  - intros (id & row & Hrow & Hp). exists (id, row). split; [|done].
    by apply list_elem_of_In, elem_of_map_to_list.
Qed.

Lemma exists_row_false {A} (p : A -> bool) (t : gmap N A) :
  exists_row p t = false <-> forall id row, t !! id = Some row -> p row = false.
Proof.
  split.
  - intros Hf id row Hrow. destruct (p row) eqn:Hp; [|done].
    assert (exists_row p t = true) by (apply exists_row_true; eauto). congruence.
  - intros Hall. destruct (exists_row p t) eqn:He; [|done].
    apply exists_row_true in He as (id & row & Hrow & Hp). rewrite (Hall _ _ Hrow) in Hp. done.
Qed.

(** A unique match is what a search finds. *)
Lemma find_row_unique {A} (p : A -> bool) (t : gmap N A) id row :
  t !! id = Some row -> p row = true ->
  (forall id' row', t !! id' = Some row' -> p row' = true -> id' = id) ->
  find_row p t = Some (id, row).
Proof.
  intros Hrow Hp Huniq. destruct (find_row p t) as [[id' row']|] eqn:Hf.
  - apply find_row_some in Hf as [Hrow' Hp']. assert (id' = id) as -> by eauto. congruence.
  - rewrite find_row_none in Hf. rewrite (Hf _ _ Hrow) in Hp. done.
Qed.
