(* ===== verification/AdminService.v ===== *)
(** modules/admin/service (service.go, capability.go): operators, roles and the
    evaluation of permissions of the administration module.  A call of
    uuid.New or time.Now is an argument of the operation. *)

From Stdlib Require Import Ascii String.
From S2P Require Import Prelude GoStrings GoEncoding PlatformCrypto GoHttp AdminStore.

Local Open Scope string_scope.

Inductive admin_error : Type :=
| ErrUnauthorized
| ErrInvalidRole
| ErrInvalidRoleName
| ErrInvalidPermission
| ErrRoleInUse
| ErrPermissionDenied
| ErrBootstrapNotAllowed
| ErrSelfDeletion
| ErrSelfDemotion
| AdminStoreErr (e : admin_store_error).

Definition SystemRoles : list string := ["super_admin"; "admin"; "operator"; "viewer"].

(** ** Permissions (capability.go) *)

Definition PermAll := "*".
Definition PermIdentitiesRead := "identities:read".
Definition PermIdentitiesWrite := "identities:write".
Definition PermIdentitiesCreate := "identities:create".
Definition PermIdentitiesUpdate := "identities:update".
Definition PermIdentitiesDelete := "identities:delete".
Definition PermIdentitiesAll := "identities:*".
Definition PermSessionsRead := "sessions:read".
Definition PermSessionsRevoke := "sessions:revoke".
Definition PermSessionsDelete := "sessions:delete".
Definition PermSessionsAll := "sessions:*".
Definition PermConfigRead := "config:read".
Definition PermConfigWrite := "config:write".
Definition PermConfigUpdate := "config:update".
Definition PermConfigAll := "config:*".
Definition PermOperatorsRead := "operators:read".
Definition PermOperatorsCreate := "operators:create".
Definition PermOperatorsUpdate := "operators:update".
Definition PermOperatorsDelete := "operators:delete".
Definition PermOperatorsAll := "operators:*".
Definition PermRolesRead := "roles:read".
Definition PermRolesCreate := "roles:create".
Definition PermRolesUpdate := "roles:update".
Definition PermRolesDelete := "roles:delete".
Definition PermRolesAll := "roles:*".
Definition PermAPIKeysRead := "api_keys:read".
Definition PermAPIKeysCreate := "api_keys:create".
Definition PermAPIKeysDelete := "api_keys:delete".
Definition PermAPIKeysAll := "api_keys:*".
Definition PermAuditRead := "audit:read".
Definition PermAuditAll := "audit:*".
Definition PermSchemasRead := "schemas:read".
Definition PermSchemasCreate := "schemas:create".
Definition PermSchemasUpdate := "schemas:update".
Definition PermSchemasDelete := "schemas:delete".
Definition PermSchemasAll := "schemas:*".
Definition PermFlowsRead := "flows:read".
Definition PermFlowsCreate := "flows:create".
Definition PermFlowsUpdate := "flows:update".
Definition PermFlowsDelete := "flows:delete".
Definition PermFlowsAll := "flows:*".
Definition PermOAuth2ClientsRead := "oauth2:clients:read".
Definition PermOAuth2ClientsManage := "oauth2:clients:manage".
Definition PermOAuth2TokensRead := "oauth2:tokens:read".
Definition PermOAuth2TokensRevoke := "oauth2:tokens:revoke".
Definition PermOAuth2All := "oauth2:*".
Definition PermSecurityRead := "security:read".
Definition PermSecurityCreate := "security:create".
Definition PermSecurityUpdate := "security:update".
Definition PermSecurityDelete := "security:delete".
Definition PermSecurityAll := "security:*".

Definition permissionCatalog : list string :=
  [PermAll;
   PermIdentitiesRead; PermIdentitiesWrite; PermIdentitiesCreate; PermIdentitiesUpdate;
   PermIdentitiesDelete; PermIdentitiesAll;
   PermSessionsRead; PermSessionsRevoke; PermSessionsDelete; PermSessionsAll;
   PermConfigRead; PermConfigWrite; PermConfigUpdate; PermConfigAll;
   PermOperatorsRead; PermOperatorsCreate; PermOperatorsUpdate; PermOperatorsDelete; PermOperatorsAll;
   PermRolesRead; PermRolesCreate; PermRolesUpdate; PermRolesDelete; PermRolesAll;
   PermAPIKeysRead; PermAPIKeysCreate; PermAPIKeysDelete; PermAPIKeysAll;
   PermAuditRead; PermAuditAll;
   PermSchemasRead; PermSchemasCreate; PermSchemasUpdate; PermSchemasDelete; PermSchemasAll;
   PermFlowsRead; PermFlowsCreate; PermFlowsUpdate; PermFlowsDelete; PermFlowsAll;
   PermOAuth2ClientsRead; PermOAuth2ClientsManage; PermOAuth2TokensRead; PermOAuth2TokensRevoke;
   PermOAuth2All;
   PermSecurityRead; PermSecurityCreate; PermSecurityUpdate; PermSecurityDelete; PermSecurityAll].

(** A missing key of the Go map reads as the nil slice. *)
Definition DefaultRolePermissions (role : string) : list string :=
  if String.eqb role "super_admin" then [PermAll]
  else if String.eqb role "admin" then
    [PermIdentitiesAll; PermSessionsAll; PermConfigRead; PermConfigUpdate; PermAuditRead; PermOAuth2All;
     PermOperatorsRead; PermRolesRead; PermSecurityAll]
  else if String.eqb role "operator" then
    [PermIdentitiesRead; PermIdentitiesUpdate; PermSessionsRead; PermSessionsDelete; PermAuditRead;
     PermOAuth2ClientsRead; PermOAuth2TokensRead; PermSecurityRead]
  else if String.eqb role "viewer" then
    [PermIdentitiesRead; PermSessionsRead; PermConfigRead; PermAuditRead]
  else [].

Definition AvailablePermissions : list string := sort_Strings permissionCatalog.

Definition IsValidPermission (permission : string) : bool :=
  let permission := TrimSpace permission in
  if String.eqb permission "" then false
  else List.existsb (String.eqb permission) permissionCatalog.

Definition matchPermission (granted required : string) : bool :=
  if String.eqb granted required then true
  else if String.eqb granted PermAll then true
  else if HasSuffix granted ":*" then HasPrefix required (TrimSuffix granted "*")
  else false.

(** The decision of [hasPermission], given the permissions of the role: an
    exact override, then the denying overrides, the role, the granting
    overrides.  A Go map is ranged over in any order; every loop asks whether
    some entry qualifies. *)
Definition override_matches (verdict : bool) (permission : string) (o : string * jval) : bool :=
  match o.2 with
  | JBool g => Bool.eqb g verdict && matchPermission o.1 permission
  | _ => false
  end.
Definition permission_decision (rolePerms : list string) (overrides : jobject) (permission : string) : bool :=
  match overrides !! permission with
  | Some (JBool g) => g
  | _ =>
      if List.existsb (override_matches false permission) (map_to_list overrides) then false
      else if List.existsb (fun rolePerm => matchPermission rolePerm permission) rolePerms then true
      else List.existsb (override_matches true permission) (map_to_list overrides)
  end.

Section service.
Context `{AdminEnv} `{UuidText}.

Abbreviation SVM := (M admin_db admin_error).
Definition st {A} (m : M admin_db admin_store_error A) : SVM A := call AdminStoreErr m.

(** [s.store.GetRoleByName], any error of which falls back to the defaults. *)
Definition role_permissions (role : string) : SVM (list string) :=
  cachedRole ← attempt (GetRoleByName role);
  mret (match cachedRole with Ok r => role_Permissions r | Err _ => DefaultRolePermissions role end).

(** The two early returns of [hasPermission] read no role. *)
Definition hasPermission (role : string) (overrides : jobject) (permission : string) : SVM bool :=
  match overrides !! permission with
  | Some (JBool g) => mret g
  | _ =>
      if List.existsb (override_matches false permission) (map_to_list overrides) then mret false
      else
        rolePerms ← role_permissions role;
        mret (permission_decision rolePerms overrides permission)
  end.

Definition EvaluateCapability (operatorID : uuid) (permission : string) : SVM unit :=
  op ← call (fun _ => ErrUnauthorized) (store_GetOperator operatorID);
  ok ← hasPermission (op_Role op) (op_Permissions op) permission;
  if ok : bool then mret tt else throw ErrPermissionDenied.

Definition EvaluateCapabilityByIdentity (identityID : uuid) (permission : string) : SVM unit :=
  op ← call (fun _ => ErrUnauthorized) (store_GetOperatorByIdentityID identityID);
  ok ← hasPermission (op_Role op) (op_Permissions op) permission;
  if ok : bool then mret tt else throw ErrPermissionDenied.

Definition HasCapability (operatorID : uuid) (permission : string) : SVM bool :=
  r ← attempt (EvaluateCapability operatorID permission);
  mret (is_ok r).

Definition RequireCapability (operatorID : uuid) (permission : string) : SVM unit :=
  EvaluateCapability operatorID permission.

(** The set of effective permissions: every override touches its own key, so
    the order of the range does not matter. *)
Definition effective_permissions (rolePerms : list string) (overrides : jobject) : gset string :=
  (list_to_set rolePerms ∪ dom (base.filter (fun o => o.2 = JBool true) overrides))
  ∖ dom (base.filter (fun o => o.2 = JBool false) overrides).

Definition GetEffectivePermissions (operatorID : uuid) : SVM (gset string) :=
  op ← st (store_GetOperator operatorID);
  rolePerms ← role_permissions (op_Role op);
  mret (effective_permissions rolePerms (op_Permissions op)).

(** ** Helpers of service.go *)

Definition is_lower_ascii (c : ascii) : bool := (N.leb 97 (code c) && N.leb (code c) 122)%N.
Definition is_digit_ascii (c : ascii) : bool := (N.leb 48 (code c) && N.leb (code c) 57)%N.
Definition role_name_char (c : ascii) : bool :=
  is_lower_ascii c || is_digit_ascii c || Ascii.eqb c "_".

(** [^[a-z][a-z0-9_]{2,31}$] *)
Definition roleNamePattern (s : string) : bool :=
  match s with
  | EmptyString => false
  | String c rest =>
      is_lower_ascii c && str_forall role_name_char rest
      && Nat.leb 2 (String.length rest) && Nat.leb (String.length rest) 31
  end.

Definition normalizeRoleName (name : string) : result admin_error string :=
  let normalized := TrimSpace (ToLower name) in
  if negb (roleNamePattern normalized) then Err ErrInvalidRoleName else Ok normalized.

(** The loop of [normalizePermissions]: [out] in order of appearance; [seen]
    has the same elements. *)
Fixpoint normalize_loop (permissions : list string) (out : list string) : result admin_error (list string) :=
  match permissions with
  | [] => Ok out
  | permission :: rest =>
      let p := TrimSpace permission in
      if negb (IsValidPermission p) then Err ErrInvalidPermission
      else if List.existsb (String.eqb p) out then normalize_loop rest out
      else normalize_loop rest (out ++ [p])
  end.
Definition normalizePermissions (permissions : list string) : result admin_error (list string) :=
  sort_Strings <$> normalize_loop permissions [].

Definition valid_override (o : string * jval) : bool :=
  IsValidPermission o.1 && match o.2 with JBool _ => true | _ => false end.
Definition validatePermissionOverrides (overrides : jobject) : result admin_error unit :=
  if forallb valid_override (map_to_list overrides) then Ok tt else Err ErrInvalidPermission.

Definition requireExistingRole (role : string) : SVM string :=
  normalizedRole ← lift_result (normalizeRoleName role);
  _ ← call (fun e => match e with ErrRoleNotFound => ErrInvalidRole | e => AdminStoreErr e end)
        (GetRoleByName normalizedRole);
  mret normalizedRole.

Definition logAction (operatorID : option uuid) (action resourceType resourceID : string) (details : jobject)
    (ipAddress : string) (newID : uuid) (now : time) : SVM unit :=
  _ ← attempt (LogAction
        {| al_ID := newID; al_OperatorID := operatorID; al_Action := action; al_ResourceType := resourceType;
           al_ResourceID := resourceID; al_Details := details; al_IPAddress := ipAddress;
           al_CreatedAt := now |});
  mret tt.

(** ** Bootstrap *)

Definition CanBootstrap (bootstrapEnabled : bool) : SVM bool :=
  '(operators, _) ← st (store_ListOperators {| Limit := 1; Offset := 0; Sort := "" |});
  mret (Nat.eqb (length operators) 0 && bootstrapEnabled).

Definition Bootstrap (bootstrapEnabled : bool) (identityID : uuid) (ipAddress : string)
    (newID logID : uuid) (now : time) : SVM Operator :=
  canBootstrap ← CanBootstrap bootstrapEnabled;
  if negb canBootstrap then throw ErrBootstrapNotAllowed
  else
    let op := {| op_ID := newID; op_IdentityID := identityID; op_Role := "super_admin"; op_Permissions := ∅;
                 op_CreatedAt := now; op_UpdatedAt := now |} in
    _ ← st (store_CreateOperator op);
    _ ← logAction (Some newID) "create" "operator" (uuid_string newID)
          {["bootstrap" := JBool true; "identity_id" := JStr (uuid_string identityID);
            "role" := JStr "super_admin"]} ipAddress logID now;
    mret op.

(** ** Operators *)

Definition require_super_admin (actorID : uuid) : SVM unit :=
  actor ← st (store_GetOperator actorID);
  if negb (String.eqb (op_Role actor) "super_admin") then throw ErrPermissionDenied else mret tt.

Definition CreateOperator (actorID identityID : uuid) (role : string) (permissions : option jobject)
    (ipAddress : string) (newID logID : uuid) (now : time) : SVM Operator :=
  normalizedRole ← call (fun _ => ErrInvalidRole) (requireExistingRole role);
  _ ← EvaluateCapability actorID PermOperatorsCreate;
  _ ← (if String.eqb normalizedRole "super_admin" then require_super_admin actorID else mret tt);
  let permissions := default ∅ permissions in
  _ ← lift_result (validatePermissionOverrides permissions);
  let op := {| op_ID := newID; op_IdentityID := identityID; op_Role := normalizedRole;
               op_Permissions := permissions; op_CreatedAt := now; op_UpdatedAt := now |} in
  _ ← st (store_CreateOperator op);
  _ ← logAction (Some actorID) "create" "operator" (uuid_string newID)
        {["identity_id" := JStr (uuid_string identityID); "role" := JStr normalizedRole]} ipAddress logID now;
  mret op.

Definition GetOperator (actorID operatorID : uuid) : SVM Operator :=
  _ ← EvaluateCapability actorID PermOperatorsRead;
  st (store_GetOperator operatorID).

Definition GetOperatorByIdentityID (identityID : uuid) : SVM Operator :=
  st (store_GetOperatorByIdentityID identityID).

Definition UpdateOperator (actorID operatorID : uuid) (role : string) (permissions : option jobject)
    (ipAddress : string) (logID : uuid) (now dbnow : time) : SVM Operator :=
  _ ← EvaluateCapability actorID PermOperatorsUpdate;
  normalizedRole ← (if String.eqb role "" then mret ""
                    else call (fun _ => ErrInvalidRole) (requireExistingRole role));
  _ ← (if bool_decide (actorID = operatorID) && negb (String.eqb normalizedRole "")
       then
         actor ← st (store_GetOperator actorID);
         if String.eqb (op_Role actor) "super_admin" && negb (String.eqb normalizedRole "super_admin")
         then throw ErrSelfDemotion else mret tt
       else mret tt);
  _ ← match permissions with
      | Some p => lift_result (validatePermissionOverrides p)
      | None => mret tt
      end;
  op ← st (store_GetOperator operatorID);
  _ ← (if String.eqb (op_Role op) "super_admin" || String.eqb normalizedRole "super_admin"
       then require_super_admin actorID else mret tt);
  let oldRole := op_Role op in
  let op := {| op_ID := op_ID op; op_IdentityID := op_IdentityID op;
               op_Role := if String.eqb normalizedRole "" then op_Role op else normalizedRole;
               op_Permissions := default (op_Permissions op) permissions;
               op_CreatedAt := op_CreatedAt op; op_UpdatedAt := now |} in
  _ ← st (store_UpdateOperator op dbnow);
  _ ← logAction (Some actorID) "update" "operator" (uuid_string (op_ID op))
        {["old_role" := JStr oldRole; "new_role" := JStr (op_Role op)]} ipAddress logID now;
  mret op.

Definition DeleteOperator (actorID operatorID : uuid) (ipAddress : string) (logID : uuid) (now : time) : SVM unit :=
  if bool_decide (actorID = operatorID) then throw ErrSelfDeletion
  else
    _ ← EvaluateCapability actorID PermOperatorsDelete;
    op ← st (store_GetOperator operatorID);
    _ ← (if String.eqb (op_Role op) "super_admin" then require_super_admin actorID else mret tt);
    _ ← st (store_DeleteOperator operatorID);
    logAction (Some actorID) "delete" "operator" (uuid_string operatorID)
      {["identity_id" := JStr (uuid_string (op_IdentityID op)); "role" := JStr (op_Role op)]} ipAddress logID now.

Definition clamp_limit (limit dflt max : Z) : Z :=
  let limit := if (limit <=? 0)%Z then dflt else limit in
  if (max <? limit)%Z then max else limit.

Definition ListOperators (actorID : uuid) (limit offset : Z) : SVM (list Operator * Z) :=
  _ ← EvaluateCapability actorID PermOperatorsRead;
  st (store_ListOperators {| Limit := clamp_limit limit 20 100; Offset := offset; Sort := "created_at DESC" |}).

(** ** Roles *)

Definition ListRoles (actorID : uuid) (limit offset : Z) : SVM (list Role * Z) :=
  _ ← EvaluateCapability actorID PermRolesRead;
  st (store_ListRoles {| Limit := clamp_limit limit 20 100; Offset := offset; Sort := "" |}).

Definition GetRole (actorID : uuid) (name : string) : SVM Role :=
  _ ← EvaluateCapability actorID PermRolesRead;
  st (GetRoleByName (TrimSpace (ToLower name))).

Definition CreateRole (actorID : uuid) (name description : string) (permissions : list string)
    (ipAddress : string) (newID logID : uuid) (now : time) : SVM Role :=
  _ ← EvaluateCapability actorID PermRolesCreate;
  normalizedName ← lift_result (normalizeRoleName name);
  if List.existsb (String.eqb normalizedName) SystemRoles then throw ErrPermissionDenied
  else
    normalizedPerms ← lift_result (normalizePermissions permissions);
    let role := {| role_ID := newID; role_Name := normalizedName; role_Description := TrimSpace description;
                   role_Permissions := normalizedPerms; role_IsSystem := false; role_CreatedAt := now;
                   role_UpdatedAt := now |} in
    _ ← st (store_CreateRole role);
    _ ← logAction (Some actorID) "create" "role" (uuid_string newID)
          {["name" := JStr (role_Name role); "permissions" := JStrings (role_Permissions role)]} ipAddress logID now;
    mret role.

Definition system_as_denied (e : admin_store_error) : admin_error :=
  match e with ErrSystemRole => ErrPermissionDenied | e => AdminStoreErr e end.

Definition UpdateRole (actorID : uuid) (name : string) (description : option string)
    (permissions : option (list string)) (ipAddress : string) (logID : uuid) (now dbnow : time) : SVM Role :=
  _ ← EvaluateCapability actorID PermRolesUpdate;
  normalizedName ← lift_result (normalizeRoleName name);
  role ← st (GetRoleByName normalizedName);
  if role_IsSystem role then throw ErrPermissionDenied
  else
    perms ← match permissions with
            | Some p => lift_result (normalizePermissions p)
            | None => mret (role_Permissions role)
            end;
    let role := {| role_ID := role_ID role; role_Name := role_Name role;
                   role_Description := match description with
                                       | Some d => TrimSpace d
                                       | None => role_Description role
                                       end;
                   role_Permissions := perms; role_IsSystem := role_IsSystem role;
                   role_CreatedAt := role_CreatedAt role; role_UpdatedAt := now |} in
    _ ← call system_as_denied (store_UpdateRole role dbnow);
    _ ← logAction (Some actorID) "update" "role" (uuid_string (role_ID role))
          {["name" := JStr (role_Name role); "permissions" := JStrings (role_Permissions role)]} ipAddress logID now;
    mret role.

Definition DeleteRole (actorID : uuid) (name ipAddress : string) (logID : uuid) (now : time) : SVM unit :=
  _ ← EvaluateCapability actorID PermRolesDelete;
  normalizedName ← lift_result (normalizeRoleName name);
  role ← st (GetRoleByName normalizedName);
  if role_IsSystem role then throw ErrPermissionDenied
  else
    assigned ← st (CountOperatorsByRole (role_Name role));
    if (0 <? assigned)%Z then throw ErrRoleInUse
    else
      _ ← call system_as_denied (store_DeleteRole (role_ID role));
      logAction (Some actorID) "delete" "role" (uuid_string (role_ID role))
        {["name" := JStr (role_Name role)]} ipAddress logID now.

(** ** Audit log *)

Definition ListAuditLogs (actorID : uuid) (filter : AuditFilter) (limit offset : Z)
    : SVM (list AuditLogEntry * Z) :=
  _ ← EvaluateCapability actorID PermAuditRead;
  st (store_ListAuditLogs filter {| Limit := clamp_limit limit 50 500; Offset := offset; Sort := "created_at DESC" |}).
End service.
