(* ===== verification/AdminFacts.v ===== *)
(** What the administration service guarantees: its operations, under any
    pattern of database failures, take the tables along the transitions of
    [admin_step]; the invariants follow by induction on histories of steps. *)

From Stdlib Require Import Ascii String.
From S2P Require Import Prelude GoStrings GoEncoding PlatformCrypto GoHttp AdminStore AdminService.

Local Open Scope string_scope.

(** ** Matching permissions *)

Lemma matchPermission_spec granted required :
  matchPermission granted required = true <->
  granted = required \/ granted = "*" \/ exists p t, granted = p +:+ ":*" /\ required = p +:+ ":" +:+ t.
Proof.
  unfold matchPermission, PermAll.
  destruct (String.eqb_spec granted required) as [->|Hne]; [by split; auto|].
  destruct (String.eqb_spec granted "*") as [->|Hne']; [by split; auto|].
  destruct (HasSuffix granted ":*") eqn:Hs.
  - apply HasSuffix_spec in Hs as [p ->].
    assert (TrimSuffix (p +:+ ":*") "*" = p +:+ ":") as ->.
    { rewrite <- (TrimSuffix_app (p +:+ ":") "*"). by rewrite str_app_assoc. }
    rewrite HasPrefix_spec. setoid_rewrite str_app_assoc. split.
    + intros [t ->]. right; right. by exists p, t.
    + intros [Heq|[Heq|(q & t & Heq & ->)]]; [done|done|].
      apply str_app_inj_r in Heq as ->. eauto.
  - split; [done|]. intros [Heq|[Heq|(q & t & -> & ->)]]; [done|done|].
    assert (HasSuffix (q +:+ ":*") ":*" = true) by (apply HasSuffix_spec; eauto). congruence.
Qed.

(** ** The decision, without the order of the loops *)

Lemma override_matches_exists verdict permission (overrides : gmap string jval) :
  List.existsb (override_matches verdict permission) (map_to_list overrides) = true <->
  exists p, overrides !! p = Some (JBool verdict) /\ matchPermission p permission = true.
Proof.
  rewrite existsb_exists. split.
  - intros ([p v] & Hin & Hm). apply list_elem_of_In, elem_of_map_to_list in Hin.
    unfold override_matches in Hm; simpl in Hm. destruct v as [g| | |]; try done.
    apply andb_true_iff in Hm as [Hg Hm]. apply eqb_prop in Hg as ->. eauto.
  - intros (p & Hp & Hm). exists (p, JBool verdict). split.
    + by apply list_elem_of_In, elem_of_map_to_list.
    + unfold override_matches; simpl. by rewrite eqb_reflx, Hm.
Qed.

Lemma existsb_match_exists (perms : list string) permission :
  List.existsb (fun p => matchPermission p permission) perms = true <->
  exists p, p ∈ perms /\ matchPermission p permission = true.
Proof.
  rewrite existsb_exists. split; intros (p & Hin & Hm); exists p; split; try done;
    by apply list_elem_of_In.
Qed.

Lemma permission_decision_spec rolePerms overrides permission :
  permission_decision rolePerms overrides permission = true <->
  overrides !! permission = Some (JBool true) \/
  (forall p, overrides !! p = Some (JBool false) -> matchPermission p permission = false) /\
  ((exists p, p ∈ rolePerms /\ matchPermission p permission = true) \/
   (exists p, overrides !! p = Some (JBool true) /\ matchPermission p permission = true)).
Proof.
  assert (matchPermission permission permission = true) as Hself by (apply matchPermission_spec; auto).
  assert (Hgen : overrides !! permission <> Some (JBool true) ->
    (if List.existsb (override_matches false permission) (map_to_list overrides) then false
     else if List.existsb (fun rolePerm => matchPermission rolePerm permission) rolePerms then true
     else List.existsb (override_matches true permission) (map_to_list overrides)) = true <->
    overrides !! permission = Some (JBool true) \/
    (forall p, overrides !! p = Some (JBool false) -> matchPermission p permission = false) /\
    ((exists p, p ∈ rolePerms /\ matchPermission p permission = true) \/
     (exists p, overrides !! p = Some (JBool true) /\ matchPermission p permission = true))).
  { intros Hne. rewrite <- existsb_match_exists, <- override_matches_exists.
    destruct (List.existsb (override_matches false _) _) eqn:Hd.
    - apply override_matches_exists in Hd as (p & Hp & Hm). split; [done|].
      intros [?|[Hall _]]; [done|]. rewrite (Hall _ Hp) in Hm. done.
    - assert (Hall : forall p, overrides !! p = Some (JBool false) -> matchPermission p permission = false).
      { intros p Hp. destruct (matchPermission p permission) eqn:Hm; [|done].
        assert (List.existsb (override_matches false permission) (map_to_list overrides) = true)
          by (apply override_matches_exists; eauto). congruence. }
      destruct (List.existsb _ rolePerms); naive_solver. }
  unfold permission_decision.
  destruct (overrides !! permission) as [[[]| | |]|] eqn:Hx; try (by apply Hgen).
  - split; auto.
  - split; [done|]. intros [|[Hall _]]; [done|]. rewrite (Hall _ Hx) in Hself. done.
Qed.

(** ** What operations read *)

Section facts.
Context `{AdminEnv} `{UuidText}.

Lemma store_GetOperator_query id :
  query (store_GetOperator id) (fun db op =>
    exists row, t_operators db !! id = Some row /\ op = operator_of_row id row).
Proof.
  apply query_call, query_stmt. intros db op db' Hq.
  destruct (t_operators db !! id) as [row|] eqn:Hrow; simplify_eq/=. eauto.
Qed.

Lemma GetRoleByName_query name :
  query (GetRoleByName name) (fun db role =>
    exists id row, t_roles db !! id = Some row /\ rr_name row = name /\ role = role_of_row id row).
Proof.
  apply query_call, query_stmt. intros db role db' Hq.
  destruct (find_row _ _) as [[id row]|] eqn:Hf; simplify_eq/=. split; [done|].
  apply find_row_some in Hf as [Hrow Hn]. apply String.eqb_eq in Hn. eauto.
Qed.

(** The permissions of a role: those of its row, and the defaults of the code
    only where no row has the name. *)
Definition granted_permissions (db : admin_db) (role : string) : list string :=
  match find_row (role_named role) (t_roles db) with
  | Some (_, row) => default [] (rr_permissions row)
  | None => DefaultRolePermissions role
  end.

(** [actor] is an operator whose role and overrides grant the permission. *)
Definition authorized (db : admin_db) (actor : uuid) (permission : string) : Prop :=
  exists row, t_operators db !! actor = Some row /\
    permission_decision (granted_permissions db (or_role row)) (default ∅ (or_permissions row)) permission = true.

(** The defaults of the code in place of the stored role grant it: what the
    code decides by when the lookup of the role fails. *)
Definition authorized_by_defaults (db : admin_db) (actor : uuid) (permission : string) : Prop :=
  exists row, t_operators db !! actor = Some row /\
    permission_decision (DefaultRolePermissions (or_role row)) (default ∅ (or_permissions row)) permission = true.

Definition authorized_or_fault (db : admin_db) (actor : uuid) (permission : string) : Prop :=
  authorized db actor permission \/ authorized_by_defaults db actor permission.

Lemma role_permissions_fallback role w :
  exists perms w', role_permissions role w = (Ok perms, w') /\ w_db w' = w_db w /\
    (perms = granted_permissions (w_db w) role \/ perms = DefaultRolePermissions role /\ faulty w).
Proof.
  unfold role_permissions, attempt, GetRoleByName, no_rows_as, call, M_try. rewrite M_bind_run.
  unfold db_stmt, faulty, granted_permissions. destruct (w_faults w) as [|[msg|] fs] eqn:Hf.
  - destruct (find_row _ _) as [[id row]|]; simpl; eexists _, _; (split; [reflexivity|]); auto.
  - simpl. eexists _, _. split; [reflexivity|]. split; [done|]. right. split; [done|]. exists msg. by left.
  - destruct (find_row _ _) as [[id row]|]; simpl; eexists _, _; (split; [reflexivity|]); auto.
Qed.

Lemma role_permissions_query role : query (role_permissions role) (fun _ _ => True).
Proof. intros w. by destruct (role_permissions_fallback role w) as (perms & w' & Hr & Hdb & _); rewrite Hr. Qed.

Lemma hasPermission_run role overrides permission w :
  exists perms w', hasPermission role overrides permission w = (Ok (permission_decision perms overrides permission), w') /\
    w_db w' = w_db w /\
    (perms = granted_permissions (w_db w) role \/ perms = DefaultRolePermissions role /\ faulty w).
Proof.
  unfold hasPermission. destruct (role_permissions_fallback role w) as (perms & w1 & Hrun & Hdb & Hperms).
  destruct (overrides !! permission) as [[g| | |]|] eqn:Hx;
    [exists (granted_permissions (w_db w) role), w; unfold permission_decision; rewrite Hx; by auto|..];
    (destruct (List.existsb (override_matches false permission) (map_to_list overrides)) eqn:Hdeny;
      [exists (granted_permissions (w_db w) role), w; unfold permission_decision; rewrite Hx, Hdeny; by auto|]);
    (exists perms, w1; rewrite M_bind_run, Hrun; by auto).
Qed.

Lemma GetOperator_consumes id : consumes (store_GetOperator id).
Proof. apply consumes_call, consumes_stmt. Qed.

(** The capability check: it passes for an authorized operator or, when the
    lookup of the role fails, for one whom the defaults would authorize. *)
Lemma EvaluateCapability_ok operatorID permission w w' :
  EvaluateCapability operatorID permission w = (Ok tt, w') ->
  authorized (w_db w) operatorID permission \/
  faulty w /\ authorized_by_defaults (w_db w) operatorID permission.
Proof.
  unfold EvaluateCapability. rewrite M_bind_run.
  set (get := call _ (store_GetOperator operatorID) : M admin_db admin_error Operator).
  pose proof (query_call (fun _ => ErrUnauthorized) _ _ (store_GetOperator_query operatorID) w) as [Hdb HQ].
  change (call _ _) with get in Hdb, HQ.
  destruct (get w) as [[op|e] w1] eqn:Hget; simpl in *; [|done].
  destruct (HQ op eq_refl) as (row & Hrow & ->). rewrite M_bind_run.
  destruct (hasPermission_run (or_role row) (default ∅ (or_permissions row)) permission w1)
    as (perms & w2 & Hrun & _ & Hperms).
  cbn [op_Role op_Permissions operator_of_row]. rewrite Hrun, Hdb in *.
  destruct (permission_decision perms _ permission) eqn:Hd; [|done]. intros _.
  destruct Hperms as [->|[-> Hf]]; [left; by exists row|].
  right. split; [|by exists row].
  by eapply (consumes_faulty get); [apply consumes_call, GetOperator_consumes|exact Hget|].
Qed.

Lemma EvaluateCapability_query operatorID permission :
  query (EvaluateCapability operatorID permission) (fun db _ => authorized_or_fault db operatorID permission).
Proof.
  assert (Hq : query (EvaluateCapability operatorID permission) (fun _ _ => True)).
  { eapply query_bind; [apply query_call, store_GetOperator_query|]. intros op.
    apply (query_bind _ _ (fun _ _ => True)).
    - intros w. by destruct (hasPermission_run (op_Role op) (op_Permissions op) permission w) as (? & ? & Hr & Hdb & _); rewrite Hr.
    - intros [|]; [|apply query_throw]. by eapply query_weaken; [apply query_ret|]. }
  intros w. split; [apply Hq|]. intros [] Hok. destruct (EvaluateCapability operatorID permission w) as [r w'] eqn:Hrun.
  simpl in Hok. subst r. apply EvaluateCapability_ok in Hrun as [?|[_ ?]]; [by left|by right].
Qed.

Definition is_super (db : admin_db) (id : uuid) : Prop :=
  exists row, t_operators db !! id = Some row /\ or_role row = "super_admin".

Lemma require_super_admin_query actorID :
  query (require_super_admin actorID) (fun db _ => is_super db actorID).
Proof.
  eapply query_bind; [apply query_call, store_GetOperator_query|]. intros op. simpl.
  destruct (String.eqb_spec (op_Role op) "super_admin") as [Heq|]; [|apply query_throw].
  eapply query_weaken; [apply query_ret|]. intros db _ _ (row & Hrow & ->). exists row. done.
Qed.

Definition role_exists (db : admin_db) (name : string) : Prop :=
  exists id row, t_roles db !! id = Some row /\ rr_name row = name.

Lemma normalizeRoleName_ok name normalized :
  normalizeRoleName name = Ok normalized -> roleNamePattern normalized = true.
Proof. unfold normalizeRoleName. destruct (roleNamePattern _) eqn:Hp; simpl; intros; by simplify_eq. Qed.

Lemma requireExistingRole_query role :
  query (requireExistingRole role) (fun db normalized =>
    role_exists db normalized /\ roleNamePattern normalized = true).
Proof.
  eapply query_bind; [apply query_lift|]. intros normalized.
  eapply query_bind; [apply query_call, GetRoleByName_query|]. intros r.
  eapply query_weaken; [apply query_ret|]. intros db ? -> (id & row & Hrow & Hn & _) Hnorm.
  split; [by exists id, row|by eapply normalizeRoleName_ok].
Qed.

Lemma CountOperatorsByRole_query role :
  query (CountOperatorsByRole role) (fun db n =>
    (0 <? n)%Z = false -> exists_row (holds_role role) (t_operators db) = false).
Proof.
  apply query_stmt. intros db n db' [= <- <-]. split; [done|]. intros Hn.
  apply Z.ltb_ge in Hn. unfold exists_row.
  destruct (List.existsb _ _) eqn:He; [|done]. apply existsb_exists in He as (r & Hin & Hp).
  assert (Hin' : In r (List.filter (fun r => holds_role role r.2) (map_to_list (t_operators db))))
    by (by apply filter_In).
  destruct (List.filter _ _); [done|simpl in Hn; lia].
Qed.

Lemma sort_take_nil {A} (leb : A -> A -> bool) (l : list A) :
  length (take 1 (drop 0 (sort_by leb l))) = 0%nat -> l = [].
Proof.
  intros Hlen. apply Permutation_nil. rewrite <- (sort_by_perm leb l).
  by destruct (sort_by leb l).
Qed.

(** An empty first page means an empty table. *)
Lemma store_ListOperators_query :
  query (store_ListOperators {| Limit := 1; Offset := 0; Sort := "" |}) (fun db r =>
    length r.1 = 0%nat -> t_operators db = ∅).
Proof.
  apply (query_bind _ _ (fun _ _ => True)).
  { apply query_stmt. by intros db n db' [= <- <-]. }
  intros total.
  apply (query_bind _ _ (fun db ops => length ops = 0%nat -> t_operators db = ∅)).
  - apply query_stmt. intros db ops db' Hq. unfold page in Hq. simpl in Hq.
    simplify_eq/=. split; [done|]. intros Hlen. apply map_to_list_empty_iff.
    by eapply map_eq_nil, sort_take_nil.
  - intros ops. eapply query_weaken; [apply query_ret|]. by intros db ? -> Hops _.
Qed.

Lemma CanBootstrap_query enabled :
  query (CanBootstrap enabled) (fun db can => can = true -> t_operators db = ∅ /\ enabled = true).
Proof.
  eapply query_bind; [apply query_call, store_ListOperators_query|].
  intros [ops total]. eapply query_weaken; [apply query_ret|].
  simpl. intros db ? -> Hops Hcan. apply andb_true_iff in Hcan as [Hlen ->].
  apply Nat.eqb_eq in Hlen. auto.
Qed.
End facts.
