(* ===== verification/AdminSteps.v ===== *)
(** The administration tables as a transition system: every operation of the
    service refines [admin_step], and histories of requests keep the invariants
    of the module. *)

From Stdlib Require Import Ascii String.
From S2P Require Import Prelude GoStrings GoEncoding PlatformCrypto GoHttp AdminStore AdminService AdminFacts.

Local Open Scope string_scope.

Definition overrides_valid (overrides : gmap string jval) : Prop :=
  forall p v, overrides !! p = Some v -> IsValidPermission p = true /\ exists g, v = JBool g.

(** One change of the tables on behalf of [actor], with the guard it was made
    under.  (Where the lookup of the actor's role fails, the defaults of the
    code decide.) *)
Inductive admin_step (actor : option uuid) (db db' : admin_db) : Prop :=
| step_log e : insert_audit e db = Ok (tt, db') -> admin_step actor db db'
| step_bootstrap op :
    actor = None -> t_operators db = ∅ -> op_Role op = "super_admin" -> op_Permissions op = ∅ ->
    insert_operator op db = Ok (tt, db') -> admin_step actor db db'
| step_create a op :
    actor = Some a -> authorized_or_fault db a PermOperatorsCreate ->
    (op_Role op = "super_admin" -> is_super db a) -> overrides_valid (op_Permissions op) ->
    insert_operator op db = Ok (tt, db') -> admin_step actor db db'
| step_update a op row n now :
    actor = Some a -> authorized_or_fault db a PermOperatorsUpdate -> t_operators db !! op_ID op = Some row ->
    (or_role row = "super_admin" \/ op_Role op = "super_admin" -> is_super db a) ->
    (op_ID op = a -> or_role row = "super_admin" -> op_Role op = "super_admin") ->
    overrides_valid (op_Permissions op) \/ op_Permissions op = default ∅ (or_permissions row) ->
    update_operator op now db = Ok (n, db') -> admin_step actor db db'
| step_delete a id n :
    actor = Some a -> a <> id -> authorized_or_fault db a PermOperatorsDelete ->
    (is_super db id -> is_super db a) ->
    delete_operator id db = Ok (n, db') -> admin_step actor db db'
| step_create_role a role :
    actor = Some a -> authorized_or_fault db a PermRolesCreate ->
    role_IsSystem role = false -> roleNamePattern (role_Name role) = true -> role_Name role ∉ SystemRoles ->
    (exists raw, normalizePermissions raw = Ok (role_Permissions role)) ->
    insert_role role db = Ok (tt, db') -> admin_step actor db db'
| step_update_role a role row n now :
    actor = Some a -> authorized_or_fault db a PermRolesUpdate -> t_roles db !! role_ID role = Some row ->
    role_Name role = rr_name row ->
    (exists raw, normalizePermissions raw = Ok (role_Permissions role)) \/
      role_Permissions role = default [] (rr_permissions row) ->
    update_role role now db = Ok (n, db') -> admin_step actor db db'
| step_delete_role a id n :
    actor = Some a -> authorized_or_fault db a PermRolesDelete ->
    delete_role id db = Ok (n, db') -> admin_step actor db db'.

(** ** Requests *)

Inductive admin_request : Type :=
| ReqBootstrap (enabled : bool) (identityID : uuid) (ip : string) (newID logID : uuid) (now : time)
| ReqCreateOperator (actorID identityID : uuid) (role : string) (permissions : option (gmap string jval))
    (ip : string) (newID logID : uuid) (now : time)
| ReqUpdateOperator (actorID operatorID : uuid) (role : string) (permissions : option (gmap string jval))
    (ip : string) (logID : uuid) (now dbnow : time)
| ReqDeleteOperator (actorID operatorID : uuid) (ip : string) (logID : uuid) (now : time)
| ReqCreateRole (actorID : uuid) (name description : string) (permissions : list string) (ip : string)
    (newID logID : uuid) (now : time)
| ReqUpdateRole (actorID : uuid) (name : string) (description : option string)
    (permissions : option (list string)) (ip : string) (logID : uuid) (now dbnow : time)
| ReqDeleteRole (actorID : uuid) (name ip : string) (logID : uuid) (now : time).

Definition request_actor (r : admin_request) : option uuid :=
  match r with
  | ReqBootstrap _ _ _ _ _ _ => None
  | ReqCreateOperator a _ _ _ _ _ _ _ | ReqUpdateOperator a _ _ _ _ _ _ _ | ReqDeleteOperator a _ _ _ _
  | ReqCreateRole a _ _ _ _ _ _ _ | ReqUpdateRole a _ _ _ _ _ _ _ | ReqDeleteRole a _ _ _ _ => Some a
  end.

Section steps.
Context `{AdminEnv} `{UuidText}.

Definition discard {A} (m : M admin_db admin_error A) : M admin_db admin_error unit := _ ← m; mret tt.

Definition serve (r : admin_request) : M admin_db admin_error unit :=
  match r with
  | ReqBootstrap en i ip n l t => discard (Bootstrap en i ip n l t)
  | ReqCreateOperator a i ro p ip n l t => discard (CreateOperator a i ro p ip n l t)
  | ReqUpdateOperator a o ro p ip l t u => discard (UpdateOperator a o ro p ip l t u)
  | ReqDeleteOperator a o ip l t => DeleteOperator a o ip l t
  | ReqCreateRole a n d p ip i l t => discard (CreateRole a n d p ip i l t)
  | ReqUpdateRole a n d p ip l t u => discard (UpdateRole a n d p ip l t u)
  | ReqDeleteRole a n ip l t => DeleteRole a n ip l t
  end.

(** A history: requests served one after the other, each under its own script
    of database faults. *)
Fixpoint history (h : list (admin_request * list (option string))) (db : admin_db) : admin_db :=
  match h with
  | [] => db
  | (r, faults) :: h' => history h' (w_db (serve r (World db faults)).2)
  end.

(** ** Refinement *)

Lemma validatePermissionOverrides_ok overrides :
  validatePermissionOverrides overrides = Ok tt -> overrides_valid overrides.
Proof.
  unfold validatePermissionOverrides. destruct (forallb _ _) eqn:Hall; [|done]. intros _ p v Hv.
  rewrite forallb_forall in Hall. specialize (Hall (p, v)). unfold valid_override in Hall. simpl in Hall.
  destruct (andb_prop _ _ (Hall ltac:(by apply list_elem_of_In, elem_of_map_to_list))) as [Hp Hb].
  split; [done|]. destruct v; eauto; done.
Qed.

Lemma steps_logAction actor P o ac ty rid d ip i t :
  steps_in (admin_step actor) P (logAction o ac ty rid d ip i t).
Proof.
  apply steps_bind; [|intros; apply steps_ret]. apply steps_attempt, steps_stmt.
  intros s [] s' _ Hs. eapply rtc_once, step_log, Hs.
Qed.

Lemma steps_discard {A} actor P (m : M admin_db admin_error A) :
  steps_in (admin_step actor) P m -> steps_in (admin_step actor) P (discard m).
Proof. intros Hm. apply steps_bind; [done|]. intros; apply steps_ret. Qed.

(** After the change, an entry is logged and the result returned. *)
Lemma steps_logged {A B} actor P (m : M admin_db admin_error A) o ac ty rid d ip i t (b : B) :
  steps_in (admin_step actor) P m ->
  steps_in (admin_step actor) P (_ ← m; _ ← logAction o ac ty rid d ip i t; mret b).
Proof.
  intros Hm. apply steps_bind; [done|]. intros _.
  apply steps_bind; [apply steps_logAction|]. intros; apply steps_ret.
Qed.

Lemma steps_rows {E} `{DbErr E} actor P (stmt : admin_db -> result db_error (Z * admin_db)) (missing : E) :
  (forall s n s', P s -> stmt s = Ok (n, s') -> admin_step actor s s') ->
  steps_in (admin_step actor) P (n ← db_stmt stmt; if (n =? 0)%Z then throw missing else mret tt).
Proof.
  intros Hs. apply steps_bind.
  - apply steps_stmt. intros s n s' HP Hn. eapply rtc_once, Hs; eauto.
  - intros n. destruct (n =? 0)%Z; [apply steps_throw|apply steps_ret].
Qed.

(** An optional guard. *)
Lemma query_guard (b : bool) (m : M admin_db admin_error unit) (Q : admin_db -> unit -> Prop) :
  query m Q -> query (if b then m else mret tt) (fun db u => b = true -> Q db u).
Proof.
  intros Hm. destruct b.
  - eapply query_weaken; [exact Hm|]. auto.
  - eapply query_weaken; [apply query_ret|]. done.
Qed.

Lemma Bootstrap_steps en i ip n l t :
  steps_in (admin_step None) (fun _ => True) (Bootstrap en i ip n l t).
Proof.
  eapply steps_query_bind; [apply CanBootstrap_query|]. intros [|]; simpl; [|apply steps_throw].
  apply steps_logged, steps_call, steps_call, steps_stmt.
  intros s [] s' [_ Hcan] Hs. destruct (Hcan eq_refl) as [Hempty _].
  eapply rtc_once, step_bootstrap; [done|exact Hempty| | |exact Hs]; done.
Qed.

Lemma CreateOperator_steps a i ro p ip n l t :
  steps_in (admin_step (Some a)) (fun _ => True) (CreateOperator a i ro p ip n l t).
Proof.
  eapply steps_query_bind; [apply query_call, requireExistingRole_query|]. intros normalized.
  eapply steps_query_bind; [apply EvaluateCapability_query|]. intros [].
  eapply steps_query_bind; [apply query_guard, require_super_admin_query|]. intros [].
  eapply steps_query_bind; [apply query_lift|]. intros [].
  apply steps_logged, steps_call, steps_call, steps_stmt.
  intros s [] s' ((((_ & _) & Hauth) & Hsuper) & Hvalid) Hs.
  eapply rtc_once, step_create; [done|exact Hauth| | |exact Hs]; simpl.
  - intros ->. by apply Hsuper.
  - by apply validatePermissionOverrides_ok.
Qed.

(** The check against self-demotion. *)
Lemma self_demotion_query (a o : uuid) (normalized : string) :
  query (if bool_decide (a = o) && negb (String.eqb normalized "")
         then
           actor ← st (store_GetOperator a);
           if String.eqb (op_Role actor) "super_admin" && negb (String.eqb normalized "super_admin")
           then throw ErrSelfDemotion else mret tt
         else mret tt) (fun db _ =>
    a = o -> normalized <> "" -> is_super db a -> normalized = "super_admin").
Proof.
  destruct (bool_decide (a = o) && negb (String.eqb normalized "")) eqn:Hb.
  - eapply query_bind; [apply query_call, store_GetOperator_query|]. intros actor.
    destruct (String.eqb (op_Role actor) "super_admin" && negb (String.eqb normalized "super_admin")) eqn:Hd;
      [apply query_throw|].
    eapply query_weaken; [apply query_ret|].
    intros db _ _ (row & Hrow & ->) _ _ (row' & Hrow' & Hsup). simplify_eq. simpl in Hd. rewrite Hsup in Hd.
    simpl in Hd. apply negb_false_iff, String.eqb_eq in Hd. done.
  - eapply query_weaken; [apply query_ret|]. intros db _ _ -> Hne.
    rewrite bool_decide_true in Hb by done. simpl in Hb. bool_to_prop. done.
Qed.

Lemma UpdateOperator_steps a o ro p ip l t u :
  steps_in (admin_step (Some a)) (fun _ => True) (UpdateOperator a o ro p ip l t u).
Proof.
  eapply steps_query_bind; [apply EvaluateCapability_query|]. intros [].
  apply (steps_query_bind _ _ _ _ (fun _ _ => True)).
  { destruct (String.eqb ro ""); [eapply query_weaken; [apply query_ret|done]|].
    eapply query_weaken; [apply query_call, requireExistingRole_query|done]. }
  intros normalized.
  eapply steps_query_bind; [apply self_demotion_query|]. intros [].
  apply (steps_query_bind _ _ _ _ (fun _ _ => forall q, p = Some q -> overrides_valid q)).
  { destruct p as [q|]; [|eapply query_weaken; [apply query_ret|done]].
    eapply query_weaken; [apply query_lift|]. intros ? [] Hv ? [= <-].
    by apply validatePermissionOverrides_ok. }
  intros [].
  eapply steps_query_bind; [apply query_call, store_GetOperator_query|]. intros op.
  eapply steps_query_bind; [apply query_guard, require_super_admin_query|]. intros [].
  apply steps_logged, steps_call, steps_rows.
  intros s n s' ((((((_ & Hauth) & _) & Hself) & Hvalid) & (row & Hrow & ->)) & Hsuper) Hs.
  eapply step_update; [done|exact Hauth| | | | |exact Hs]; simpl in *.
  - exact Hrow.
  - intros Hor. apply Hsuper, orb_true_iff. rewrite !String.eqb_eq.
    destruct Hor as [Hor|Hor]; [by left|]. destruct (String.eqb_spec normalized ""); auto.
  - intros <- Hrole. destruct (String.eqb_spec normalized ""); [done|].
    apply Hself; [done|done|]. by exists row.
  - destruct p as [q|]; simpl; auto.
Qed.

Lemma DeleteOperator_steps a o ip l t :
  steps_in (admin_step (Some a)) (fun _ => True) (DeleteOperator a o ip l t).
Proof.
  unfold DeleteOperator. destruct (bool_decide_reflect (a = o)) as [|Hne]; [apply steps_throw|].
  eapply steps_query_bind; [apply EvaluateCapability_query|]. intros [].
  eapply steps_query_bind; [apply query_call, store_GetOperator_query|]. intros op.
  eapply steps_query_bind; [apply query_guard, require_super_admin_query|]. intros [].
  apply steps_bind; [|intros; apply steps_logAction]. apply steps_call, steps_rows.
  intros s n s' (((_ & Hauth) & (row & Hrow & ->)) & Hsuper) Hs.
  eapply step_delete; [done|done|exact Hauth| |exact Hs].
  intros (row' & Hrow' & Hrole). simplify_eq. apply Hsuper. simpl. by rewrite Hrole.
Qed.

Lemma CreateRole_steps a n d p ip i l t :
  steps_in (admin_step (Some a)) (fun _ => True) (CreateRole a n d p ip i l t).
Proof.
  eapply steps_query_bind; [apply EvaluateCapability_query|]. intros [].
  eapply steps_query_bind; [apply query_lift|]. intros normalized.
  destruct (List.existsb (String.eqb normalized) SystemRoles) eqn:Hsys; [apply steps_throw|].
  eapply steps_query_bind; [apply query_lift|]. intros perms.
  apply steps_logged, steps_call, steps_call, steps_stmt.
  intros s [] s' (((_ & Hauth) & Hname) & Hperms) Hs.
  eapply rtc_once, step_create_role; [done|exact Hauth| | | | |exact Hs]; simpl.
  - done.
  - by eapply normalizeRoleName_ok.
  - intros Hin. apply not_true_iff_false in Hsys. apply Hsys, existsb_exists.
    exists normalized. split; [by apply list_elem_of_In|apply String.eqb_refl].
  - eauto.
Qed.

(** Reading the flag of a role first does not change what follows. *)
Lemma steps_role_guarded {A} actor P id (m : M admin_db admin_store_error A) :
  steps_in (admin_step actor) P m ->
  steps_in (admin_step actor) P
    (isSystem ← select_is_system id; if isSystem : bool then throw ErrSystemRole else m).
Proof.
  intros Hm. apply (steps_query_bind _ _ _ _ (fun _ _ => True)).
  { apply query_call, query_stmt. intros s b s' Hs. by destruct (t_roles s !! id); simplify_eq/=. }
  intros [|]; [apply steps_throw|]. eapply steps_weaken; [exact Hm|]. by intros s [? _].
Qed.

Lemma UpdateRole_steps a n d p ip l t u :
  steps_in (admin_step (Some a)) (fun _ => True) (UpdateRole a n d p ip l t u).
Proof.
  eapply steps_query_bind; [apply EvaluateCapability_query|]. intros [].
  eapply steps_query_bind; [apply query_lift|]. intros normalized.
  eapply steps_query_bind; [apply query_call, GetRoleByName_query|]. intros role.
  destruct (role_IsSystem role) eqn:Hsys; [apply steps_throw|].
  apply (steps_query_bind _ _ _ _ (fun _ perms =>
    (exists raw, normalizePermissions raw = Ok perms) \/ perms = role_Permissions role)).
  { destruct p as [raw|].
    - eapply query_weaken; [apply query_lift|]. intros ? ? Hr. left. by exists raw.
    - eapply query_weaken; [apply query_ret|]. intros ? ? ->. by right. }
  intros perms. apply steps_logged, steps_call, steps_role_guarded.
  apply steps_bind; [|intros k; destruct (k =? 0)%Z; [apply steps_throw|apply steps_ret]].
  apply steps_call, steps_stmt.
  intros s k s' ((((_ & Hauth) & _) & (id & row & Hrow & Hn & ->)) & Hperms) Hs.
  eapply rtc_once, step_update_role; [done|exact Hauth| | | |exact Hs]; done.
Qed.

Lemma DeleteRole_steps a n ip l t :
  steps_in (admin_step (Some a)) (fun _ => True) (DeleteRole a n ip l t).
Proof.
  eapply steps_query_bind; [apply EvaluateCapability_query|]. intros [].
  eapply steps_query_bind; [apply query_lift|]. intros normalized.
  eapply steps_query_bind; [apply query_call, GetRoleByName_query|]. intros role.
  destruct (role_IsSystem role) eqn:Hsys; [apply steps_throw|].
  eapply steps_query_bind; [apply query_call, CountOperatorsByRole_query|]. intros assigned.
  destruct (0 <? assigned)%Z; [apply steps_throw|].
  apply steps_bind; [|intros; apply steps_logAction].
  apply steps_call, steps_role_guarded, steps_rows.
  intros s k s' ((((_ & Hauth) & _) & _) & _) Hs. eapply step_delete_role; eauto.
Qed.

(** Every request, whatever the database does, takes the tables along steps
    made in the name of its actor. *)
Lemma request_steps r w : rtc (admin_step (request_actor r)) (w_db w) (w_db (serve r w).2).
Proof.
  enough (steps_in (admin_step (request_actor r)) (fun _ => True) (serve r)) as Hs by (by apply Hs).
  destruct r; cbn [serve request_actor].
  - apply steps_discard, Bootstrap_steps.
  - apply steps_discard, CreateOperator_steps.
  - apply steps_discard, UpdateOperator_steps.
  - apply DeleteOperator_steps.
  - apply steps_discard, CreateRole_steps.
  - apply steps_discard, UpdateRole_steps.
  - apply DeleteRole_steps.
Qed.

(** What every step keeps, every history keeps. *)
Lemma history_invariant (P : admin_db -> Prop) h db :
  (forall actor s s', admin_step actor s s' -> P s -> P s') -> P db -> P (history h db).
Proof.
  intros Hstep. revert db. induction h as [|[r fs] h IH]; intros db Hdb; simpl; [done|].
  apply IH. pose proof (request_steps r (World db fs)) as Hs. simpl in Hs.
  revert Hdb. induction Hs; eauto.
Qed.
End steps.
