(* ===== verification/AdminProps.v ===== *)
(** Invariants of the administration module over histories of requests: the
    super administrators, the system roles, the integrity of the tables. *)

From Stdlib Require Import Ascii String.
From S2P Require Import Prelude GoStrings GoEncoding PlatformCrypto GoHttp AdminStore AdminService AdminFacts AdminSteps OneTime.

Local Open Scope string_scope.

(** ** Effects of the statements *)

Definition row_of_operator (op : Operator) : operator_row :=
  {| or_identity := op_IdentityID op; or_role := op_Role op; or_permissions := Some (op_Permissions op);
     or_created := op_CreatedAt op; or_updated := op_UpdatedAt op |}.

Lemma role_named_exists db name :
  exists_row (role_named name) (t_roles db) = true <-> role_exists db name.
Proof.
  rewrite exists_row_true. unfold role_exists, role_named. setoid_rewrite String.eqb_eq. done.
Qed.

Lemma insert_operator_ok op db db' :
  insert_operator op db = Ok (tt, db') ->
  t_operators db !! op_ID op = None /\
  (forall id row, t_operators db !! id = Some row -> or_identity row <> op_IdentityID op) /\
  role_exists db (op_Role op) /\
  db' = with_operators db (<[op_ID op := row_of_operator op]> (t_operators db)).
Proof.
  unfold insert_operator. intros Hi. split_matches. bool_to_prop.
  repeat match goal with H : exists_row _ _ = false |- _ => rewrite exists_row_false in H end.
  split_and!; [by apply eq_None_not_Some| |by apply role_named_exists|done].
  intros id row Hrow Heq.
  match goal with H : forall _ _, _ -> bool_decide _ = false |- _ => specialize (H id row Hrow) end.
  bool_to_prop. done.
Qed.

Lemma update_operator_ok op now n db db' :
  update_operator op now db = Ok (n, db') ->
  db' = db \/ exists row row', t_operators db !! op_ID op = Some row /\ role_exists db (op_Role op) /\
    or_identity row' = or_identity row /\ or_role row' = op_Role op /\
    or_permissions row' = Some (op_Permissions op) /\
    db' = with_operators db (<[op_ID op := row']> (t_operators db)).
Proof.
  unfold update_operator. destruct (t_operators db !! op_ID op) as [row|]; [|intros [= _ <-]; by left].
  destruct (exists_row _ (t_roles db)) eqn:Hr; [|done]. simpl. intros [= _ <-]. right.
  exists row. eexists. split_and!; [done|by apply role_named_exists| | | |reflexivity]; done.
Qed.

Lemma delete_operator_ok id n db db' :
  delete_operator id db = Ok (n, db') ->
  db' = db \/ t_operators db' = base.delete id (t_operators db) /\ t_roles db' = t_roles db /\
    t_audit db' = t_audit db /\ (forall e, e ∈ t_audit db -> al_OperatorID e <> Some id) /\
    (forall k row, t_api_keys db' !! k = Some row -> t_api_keys db !! k = Some row /\ kr_operator row <> id).
Proof.
  unfold delete_operator. destruct (t_operators db !! id) as [row|]; [|intros [= _ <-]; by left].
  destruct (List.existsb _ (t_audit db)) eqn:He; [done|]. intros [= _ <-]. right.
  split_and!; [done|done|done| |].
  - intros e Hin Heq. apply not_true_iff_false in He. apply He, existsb_exists.
    exists e. split; [by apply list_elem_of_In|]. by apply bool_decide_eq_true.
  - intros k row' Hk. simpl in Hk. unfold filter_rows in Hk.
    apply map_lookup_filter_Some in Hk as [Hk Hp]. simpl in Hp. bool_to_prop. done.
Qed.

Lemma insert_role_ok role db db' :
  insert_role role db = Ok (tt, db') ->
  t_roles db !! role_ID role = None /\ ~ role_exists db (role_Name role) /\
  exists row, rr_name row = role_Name role /\ rr_permissions row = Some (role_Permissions role) /\
    rr_is_system row = role_IsSystem role /\
    db' = with_roles db (<[role_ID role := row]> (t_roles db)).
Proof.
  unfold insert_role. intros Hi. split_matches. bool_to_prop. split_and!.
  - by apply eq_None_not_Some.
  - rewrite <- role_named_exists. congruence.
  - eexists. split_and!; [| | |reflexivity]; done.
Qed.

Lemma rename_role_id name row : rename_role name name row = row.
Proof.
  unfold rename_role. destruct (String.eqb_spec (or_role row) name) as [<-|]; [|done]. by destruct row.
Qed.

(** An update that keeps the name changes only the row of the role. *)
Lemma update_role_ok role row now n db db' :
  t_roles db !! role_ID role = Some row -> role_Name role = rr_name row ->
  update_role role now db = Ok (n, db') ->
  db' = db \/ rr_is_system row = false /\
    t_operators db' = t_operators db /\ t_audit db' = t_audit db /\ t_api_keys db' = t_api_keys db /\
    exists row', rr_name row' = rr_name row /\ rr_permissions row' = Some (role_Permissions role) /\
      rr_is_system row' = false /\ t_roles db' = <[role_ID role := row']> (t_roles db).
Proof.
  intros Hrow Hname. unfold update_role. rewrite Hrow.
  destruct (rr_is_system row) eqn:Hsys; [intros [= _ <-]; by left|].
  destruct (exists_row _ _); [done|]. intros [= _ <-]. right. split_and!; [done| |done|done|].
  - simpl. rewrite Hname. rewrite <- (map_fmap_id (t_operators db)) at 2.
    apply map_fmap_ext. intros i x _. apply rename_role_id.
  - simpl. eexists. split_and!; [| | |reflexivity]; done.
Qed.

Lemma delete_role_ok id n db db' :
  delete_role id db = Ok (n, db') ->
  db' = db \/ exists row, t_roles db !! id = Some row /\ rr_is_system row = false /\
    (forall o orow, t_operators db !! o = Some orow -> or_role orow <> rr_name row) /\
    db' = with_roles db (base.delete id (t_roles db)).
Proof.
  unfold delete_role. destruct (t_roles db !! id) as [row|]; [|intros [= _ <-]; by left].
  destruct (rr_is_system row) eqn:Hsys; [intros [= _ <-]; by left|].
  destruct (exists_row _ (t_operators db)) eqn:He; [done|]. intros [= _ <-]. right.
  rewrite exists_row_false in He. exists row. split_and!; [done|done| |done].
  intros o orow Ho Heq. specialize (He o orow Ho). unfold holds_role in He.
  apply String.eqb_neq in He. done.
Qed.

Lemma insert_audit_ok e db db' :
  insert_audit e db = Ok (tt, db') ->
  (forall id, al_OperatorID e = Some id -> is_Some (t_operators db !! id)) /\
  db' = with_audit db (t_audit db ++ [e]).
Proof.
  unfold insert_audit. intros Hi.
  destruct (List.existsb _ (t_audit db)); [done|]. destruct (negb _); [done|].
  destruct (al_OperatorID e) as [id|]; simpl in Hi; [|simplify_eq; by split].
  destruct (bool_decide_reflect (is_Some (t_operators db !! id))); simplify_eq/=.
  split; [|done]. by intros ? [= <-].
Qed.

(** ** Super administrators *)

Definition has_super (db : admin_db) : Prop := exists id, is_super db id.

Lemma is_super_insert db id k row :
  is_super db id -> (id = k -> or_role row = "super_admin") ->
  is_super (with_operators db (<[k := row]> (t_operators db))) id.
Proof.
  intros (r & Hr & Hs) Hk. unfold is_super. simpl.
  destruct (decide (k = id)) as [->|Hne].
  - exists row. rewrite lookup_insert_eq. auto.
  - exists r. by rewrite lookup_insert_ne.
Qed.

(** Someone keeps the role: the actor who could take it from another cannot
    take it from itself. *)
Lemma has_super_step actor db db' : admin_step actor db db' -> has_super db -> has_super db'.
Proof.
  intros Hstep [s Hs]. destruct Hstep as
    [e Hi|op _ Hempty _ _ Hi|a op _ _ _ _ Hi|a op row n now _ _ Hrow Hguard Hself _ Hu|a id n _ Hne _ Hguard Hd
    |a role _ _ _ _ _ _ Hi|a role row n now _ _ Hrow Hname _ Hu|a id n _ _ Hd].
  - apply insert_audit_ok in Hi as [_ ->]. by exists s.
  - destruct Hs as (row & Hrow & _). by rewrite Hempty, lookup_empty in Hrow.
  - apply insert_operator_ok in Hi as (Hnone & _ & _ & ->). exists s.
    apply is_super_insert; [done|]. intros ->. destruct Hs as (? & Hs & _). congruence.
  - apply update_operator_ok in Hu as [->|(row0 & row' & Hrow0 & _ & _ & Hrole & _ & ->)]; [by exists s|].
    simplify_eq. destruct (decide (s = op_ID op)) as [->|Hne].
    + destruct Hs as (? & Hs & Hsup). simplify_eq.
      assert (is_super db a) as Ha by auto. exists a. apply is_super_insert; [done|].
      intros ->. rewrite Hrole. auto.
    + exists s. apply is_super_insert; [done|]. by intros ->.
  - apply delete_operator_ok in Hd as [->|(Hops & _)]; [by exists s|].
    assert (exists s', s' <> id /\ is_super db s') as (s' & Hs' & row & Hrow & Hsup).
    { destruct (decide (s = id)) as [->|]; [exists a; auto|eauto]. }
    exists s', row. rewrite Hops, lookup_delete_ne by done. done.
  - apply insert_role_ok in Hi as (_ & _ & row & _ & _ & _ & ->). by exists s.
  - eapply update_role_ok in Hu as [->|(_ & Hops & _)]; [by exists s| |exact Hrow|exact Hname].
    exists s. unfold is_super. by rewrite Hops.
  - apply delete_role_ok in Hd as [->|(row & _ & _ & _ & ->)]; by exists s.
Qed.

(** A step on behalf of [a] makes nobody a super administrator unless [a] is
    one. *)
Lemma is_super_step a db db' id :
  admin_step (Some a) db db' -> is_super db' id -> is_super db id \/ is_super db a.
Proof.
  intros Hstep (row' & Hrow' & Hsup). destruct Hstep as
    [e Hi|op Ha _ _ _ Hi|b op Ha _ Hguard _ Hi|b op row n now Ha _ Hrow Hguard _ _ Hu|b k n _ _ _ _ Hd
    |b role _ _ _ _ _ _ Hi|b role row n now _ _ Hrow Hname _ Hu|b k n _ _ Hd]; simplify_eq.
  - apply insert_audit_ok in Hi as [_ ->]. left. by exists row'.
  - apply insert_operator_ok in Hi as (_ & _ & _ & ->). simpl in Hrow'.
    apply lookup_insert_Some in Hrow' as [[<- <-]|[_ Hrow']]; [right; auto|left; by exists row'].
  - apply update_operator_ok in Hu as [->|(row0 & row2 & Hrow0 & _ & _ & Hrole & _ & ->)]; [left; by exists row'|].
    simpl in Hrow'. apply lookup_insert_Some in Hrow' as [[<- <-]|[_ Hrow']]; [|left; by exists row'].
    right. apply Hguard. right. congruence.
  - apply delete_operator_ok in Hd as [->|(Hops & _)]; [left; by exists row'|].
    rewrite Hops in Hrow'. apply lookup_delete_Some in Hrow' as [_ Hrow']. left. by exists row'.
  - apply insert_role_ok in Hi as (_ & _ & row & _ & _ & _ & ->). left. by exists row'.
  - eapply update_role_ok in Hu as [->|(_ & Hops & _)]; [| |exact Hrow|exact Hname]; left; exists row'; [done|].
    by rewrite <- Hops.
  - apply delete_role_ok in Hd as [->|(row & _ & _ & _ & ->)]; left; by exists row'.
Qed.

(** Without an actor, operators appear only in an empty table. *)
Lemma bootstrap_step db db' :
  admin_step None db db' -> t_operators db <> ∅ -> t_operators db' = t_operators db.
Proof.
  intros Hstep Hne. destruct Hstep as [e Hi| | | | | | | ]; try done.
  by apply insert_audit_ok in Hi as [_ ->].
Qed.

(** ** Integrity of the tables *)

(** A custom role: a well-formed name that is not reserved, and a sorted list
    of distinct permissions of the catalogue. *)
Definition custom_role_wf (row : role_row) : Prop :=
  roleNamePattern (rr_name row) = true /\ (rr_name row ∉ SystemRoles) /\
  exists perms, rr_permissions row = Some perms /\ NoDup perms /\ perms ⊆ permissionCatalog /\
    StronglySorted (fun a b => String.leb a b = true) perms.

Record admin_wf (db : admin_db) : Prop := {
  wf_role_exists : forall id row, t_operators db !! id = Some row -> role_exists db (or_role row);
  wf_identity_unique : forall id id' row row', t_operators db !! id = Some row -> t_operators db !! id' = Some row' ->
    or_identity row = or_identity row' -> id = id';
  wf_overrides : forall id row, t_operators db !! id = Some row -> overrides_valid (default ∅ (or_permissions row));
  wf_name_unique : forall id id' row row', t_roles db !! id = Some row -> t_roles db !! id' = Some row' ->
    rr_name row = rr_name row' -> id = id';
  wf_custom : forall id row, t_roles db !! id = Some row -> rr_is_system row = false -> custom_role_wf row;
  wf_audit : forall e id, e ∈ t_audit db -> al_OperatorID e = Some id -> is_Some (t_operators db !! id);
}.

Lemma normalize_loop_spec raw out perms :
  normalize_loop raw out = Ok perms -> NoDup out -> out ⊆ permissionCatalog ->
  NoDup perms /\ perms ⊆ permissionCatalog.
Proof.
  revert out. induction raw as [|p raw IH]; intros out; simpl; [by intros [= <-]|].
  destruct (IsValidPermission (TrimSpace p)) eqn:Hv; [|done]. simpl.
  destruct (List.existsb _ out) eqn:Hin; [by apply IH|]. intros Hl Hnd Hsub.
  apply (IH _ Hl).
  - apply NoDup_app. split_and!; [done| |by apply NoDup_singleton].
    intros x Hx Hx'. apply list_elem_of_singleton in Hx' as ->. apply not_true_iff_false in Hin.
    apply Hin, existsb_exists. eexists. split; [by apply list_elem_of_In|apply String.eqb_refl].
  - intros x [Hx|Hx]%elem_of_app; [by apply Hsub|]. apply list_elem_of_singleton in Hx as ->.
    unfold IsValidPermission in Hv. rewrite TrimSpace_idem in Hv.
    destruct (String.eqb _ ""); [done|]. apply existsb_exists in Hv as (q & Hq & Heq).
    apply String.eqb_eq in Heq as ->. by apply list_elem_of_In.
Qed.

Lemma normalizePermissions_spec raw perms :
  normalizePermissions raw = Ok perms ->
  NoDup perms /\ perms ⊆ permissionCatalog /\ StronglySorted (fun a b => String.leb a b = true) perms.
Proof.
  unfold normalizePermissions. destruct (normalize_loop raw []) as [out|] eqn:Hl; [|done].
  intros [= <-].
  destruct (normalize_loop_spec _ _ _ Hl) as [Hnd Hsub]; [by constructor|by intros ? []%not_elem_of_nil|].
  split_and!.
  - by rewrite sort_Strings_perm.
  - intros x. rewrite sort_Strings_perm. apply Hsub.
  - apply sort_Strings_sorted.
Qed.

Lemma role_exists_mono db db' name :
  (forall id row, t_roles db !! id = Some row ->
     exists row', t_roles db' !! id = Some row' /\ rr_name row' = rr_name row) ->
  role_exists db name -> role_exists db' name.
Proof. intros Hr (id & row & Hrow & <-). destruct (Hr _ _ Hrow) as (row' & ? & ?). by exists id, row'. Qed.

(** A new or changed row of the operator table. *)
Lemma admin_wf_operator db k row :
  admin_wf db -> role_exists db (or_role row) -> overrides_valid (default ∅ (or_permissions row)) ->
  (forall id r, t_operators db !! id = Some r -> or_identity r = or_identity row -> id = k) ->
  admin_wf (with_operators db (<[k := row]> (t_operators db))).
Proof.
  intros [Hre Hiu Hov Hnu Hcu Hau] Hrole Hperm Huniq.
  split; simpl; [| | |done|done|].
  - intros id r [[<- <-]|[_ Hr]]%lookup_insert_Some; eauto.
  - intros id id' r r' [[<- <-]|[? Hr]]%lookup_insert_Some [[<- <-]|[? Hr']]%lookup_insert_Some Heq;
      [done|symmetry; by eapply Huniq|by eapply Huniq|eauto].
  - intros id r [[<- <-]|[_ Hr]]%lookup_insert_Some; eauto.
  - intros e id Hin He. apply lookup_insert_is_Some. destruct (decide (k = id)); eauto.
Qed.

(** A new or changed row of the role table. *)
Lemma admin_wf_role db k row :
  admin_wf db ->
  (forall r, t_roles db !! k = Some r -> rr_name r = rr_name row) ->
  (rr_is_system row = false -> custom_role_wf row) ->
  (forall id r, t_roles db !! id = Some r -> rr_name r = rr_name row -> id = k) ->
  admin_wf (with_roles db (<[k := row]> (t_roles db))).
Proof.
  intros [Hre Hiu Hov Hnu Hcu Hau] Hsame Hcustom Huniq. split; simpl; [|done|done| | |done].
  - intros id r Hr. eapply role_exists_mono; [|by eapply Hre]. simpl. intros j s Hj.
    destruct (decide (k = j)) as [->|].
    + exists row. rewrite lookup_insert_eq. split; [done|]. symmetry. auto.
    + exists s. by rewrite lookup_insert_ne.
  - intros id id' r r' [[<- <-]|[? Hr]]%lookup_insert_Some [[<- <-]|[? Hr']]%lookup_insert_Some Heq;
      [done|symmetry; by eapply Huniq|by eapply Huniq|eauto].
  - intros id r [[<- <-]|[_ Hr]]%lookup_insert_Some; eauto.
Qed.

Lemma admin_wf_delete_operator id n db db' :
  delete_operator id db = Ok (n, db') -> admin_wf db -> admin_wf db'.
Proof.
  intros [->|(Hops & Hroles & Haud & Hno & _)]%delete_operator_ok; [done|].
  intros [Hre Hiu Hov Hnu Hcu Hau]. split; rewrite ?Hops, ?Hroles, ?Haud; try done.
  - intros k row [_ Hk]%lookup_delete_Some. unfold role_exists. rewrite Hroles. by eapply Hre.
  - intros k k' row row' [_ Hk]%lookup_delete_Some [_ Hk']%lookup_delete_Some. eauto.
  - intros k row [_ Hk]%lookup_delete_Some. eauto.
  - intros e k Hin He. rewrite lookup_delete_ne; [eauto|]. intros ->. by apply (Hno e).
Qed.

Lemma admin_wf_delete_role id n db db' :
  delete_role id db = Ok (n, db') -> admin_wf db -> admin_wf db'.
Proof.
  intros [->|(row & Hrow & _ & Hfree & ->)]%delete_role_ok; [done|].
  intros [Hre Hiu Hov Hnu Hcu Hau]. split; simpl; try done.
  - intros k r Hk. destruct (Hre _ _ Hk) as (j & s & Hj & Hn). exists j, s. simpl.
    rewrite lookup_delete_ne; [done|]. intros ->. simplify_eq. by eapply Hfree.
  - intros k k' r r' [_ Hk]%lookup_delete_Some [_ Hk']%lookup_delete_Some. eauto.
  - intros k r [_ Hk]%lookup_delete_Some. eauto.
Qed.

Lemma admin_wf_log e db db' : insert_audit e db = Ok (tt, db') -> admin_wf db -> admin_wf db'.
Proof.
  intros [Hop ->]%insert_audit_ok [Hre Hiu Hov Hnu Hcu Hau]. split; simpl; try done.
  intros e' id [Hin|Hin]%elem_of_app; [eauto|]. apply list_elem_of_singleton in Hin as ->. eauto.
Qed.

Lemma admin_wf_with_roles_eq db db' k row :
  t_operators db' = t_operators db -> t_audit db' = t_audit db -> t_roles db' = <[k := row]> (t_roles db) ->
  admin_wf (with_roles db (<[k := row]> (t_roles db))) -> admin_wf db'.
Proof.
  intros Hops Haud Hroles [Hre Hiu Hov Hnu Hcu Hau]. unfold role_exists in *. simpl in *.
  split; unfold role_exists; rewrite ?Hops, ?Haud, ?Hroles; eauto.
Qed.

Lemma admin_wf_insert_operator op db db' :
  overrides_valid (op_Permissions op) -> insert_operator op db = Ok (tt, db') -> admin_wf db -> admin_wf db'.
Proof.
  intros Hov (Hnone & Huniq & Hrole & ->)%insert_operator_ok Hwf.
  apply admin_wf_operator; [done|done|done|]. intros id r Hr Heq. exfalso. by eapply Huniq.
Qed.

Lemma admin_wf_update_operator op row now n db db' :
  t_operators db !! op_ID op = Some row ->
  overrides_valid (op_Permissions op) \/ op_Permissions op = default ∅ (or_permissions row) ->
  update_operator op now db = Ok (n, db') -> admin_wf db -> admin_wf db'.
Proof.
  intros Hrow Hov [->|(row0 & row' & Hrow0 & Hrole & Hid & Hr & Hp & ->)]%update_operator_ok Hwf; [done|].
  simplify_eq. apply admin_wf_operator; [done|by rewrite Hr| |].
  - rewrite Hp. simpl. destruct Hov as [?| ->]; [done|]. by eapply (wf_overrides _ Hwf).
  - intros id r Hid' Heq. eapply (wf_identity_unique _ Hwf); [done|done|congruence].
Qed.

Lemma admin_wf_insert_role role db db' :
  role_IsSystem role = false -> roleNamePattern (role_Name role) = true -> (role_Name role ∉ SystemRoles) ->
  (exists raw, normalizePermissions raw = Ok (role_Permissions role)) ->
  insert_role role db = Ok (tt, db') -> admin_wf db -> admin_wf db'.
Proof.
  intros Hsys Hpat Hres [raw Hraw] (Hnone & Hfree & row & Hname & Hperms & _ & ->)%insert_role_ok Hwf.
  apply normalizePermissions_spec in Hraw as (? & ? & ?).
  apply admin_wf_role; [done|congruence| |].
  - intros _. unfold custom_role_wf. rewrite Hname, Hperms. eauto 10.
  - intros id r Hr Heq. exfalso. apply Hfree. exists id, r. by rewrite <- Hname.
Qed.

Lemma admin_wf_update_role role row now n db db' :
  t_roles db !! role_ID role = Some row -> role_Name role = rr_name row ->
  (exists raw, normalizePermissions raw = Ok (role_Permissions role)) \/
    role_Permissions role = default [] (rr_permissions row) ->
  update_role role now db = Ok (n, db') -> admin_wf db -> admin_wf db'.
Proof.
  intros Hrow Hname Hperms Hu Hwf.
  eapply update_role_ok in Hu as [->|(Hsys & Hops & Haud & _ & row' & Hn & Hp & Hs & Hroles)]; [done| |done|done].
  eapply admin_wf_with_roles_eq; [done|done|done|].
  apply admin_wf_role; [done| | |].
  - intros r Hr. congruence.
  - intros _. destruct (wf_custom _ Hwf _ _ Hrow Hsys) as (Hpat & Hres & perms & Hps & ? & ? & ?).
    unfold custom_role_wf. rewrite Hn, Hp. split_and!; [done|done|].
    destruct Hperms as [[raw Hraw]|Hperms].
    + apply normalizePermissions_spec in Hraw as (? & ? & ?). eauto 10.
    + rewrite Hps in Hperms. simpl in Hperms. rewrite Hperms. eauto 10.
  - intros id r Hr Heq. eapply (wf_name_unique _ Hwf); [done|done|congruence].
Qed.

Lemma admin_wf_step actor db db' : admin_step actor db db' -> admin_wf db -> admin_wf db'.
Proof.
  destruct 1; eauto using admin_wf_log, admin_wf_insert_operator, admin_wf_update_operator,
    admin_wf_delete_operator, admin_wf_insert_role, admin_wf_update_role, admin_wf_delete_role.
  intros Hwf. eapply admin_wf_insert_operator; [|done|done].
  match goal with H : op_Permissions _ = ∅ |- _ => rewrite H end. intros p v Hv. by rewrite lookup_empty in Hv.
Qed.

(** ** System roles *)

Definition system_role (db : admin_db) (id : uuid) : option role_row :=
  match t_roles db !! id with
  | Some row => if rr_is_system row then Some row else None
  | None => None
  end.

Lemma system_role_insert (roles : gmap N role_row) db k row id :
  t_roles db = <[k := row]> roles -> rr_is_system row = false ->
  (forall r, roles !! k = Some r -> rr_is_system r = false) ->
  system_role db id =
  match roles !! id with Some r => if rr_is_system r then Some r else None | None => None end.
Proof.
  intros Hdb Hrow Hold. unfold system_role. rewrite Hdb.
  destruct (decide (k = id)) as [->|]; [|by rewrite lookup_insert_ne].
  rewrite lookup_insert_eq, Hrow. destruct (roles !! id) eqn:Hid; [|done]. by rewrite Hold.
Qed.

Lemma system_role_step actor db db' id : admin_step actor db db' -> system_role db' id = system_role db id.
Proof.
  destruct 1 as
    [e Hi|op _ _ _ _ Hi|a op _ _ _ _ Hi|a op row n now _ _ _ _ _ _ Hu|a k n _ _ _ _ Hd
    |a role _ _ Hsys _ _ _ Hi|a role row n now _ _ Hrow Hname _ Hu|a k n _ _ Hd].
  - by apply insert_audit_ok in Hi as [_ ->].
  - by apply insert_operator_ok in Hi as (_ & _ & _ & ->).
  - by apply insert_operator_ok in Hi as (_ & _ & _ & ->).
  - by apply update_operator_ok in Hu as [->|(? & ? & _ & _ & _ & _ & _ & ->)].
  - apply delete_operator_ok in Hd as [->|(_ & Hroles & _)]; [done|]. unfold system_role. by rewrite Hroles.
  - apply insert_role_ok in Hi as (Hnone & _ & row & _ & _ & Hs & ->).
    eapply system_role_insert; [done|congruence|congruence].
  - eapply update_role_ok in Hu as [->|(Hs & _ & _ & _ & row' & _ & _ & Hs' & Hroles)];
      [done| |exact Hrow|exact Hname].
    eapply system_role_insert; [done|done|congruence].
  - apply delete_role_ok in Hd as [->|(row & Hrow & Hs & _ & ->)]; [done|]. unfold system_role. simpl.
    destruct (decide (k = id)) as [->|]; [|by rewrite lookup_delete_ne]. by rewrite lookup_delete_eq, Hrow, Hs.
Qed.

(** ** The audit log *)

Lemma audit_step actor db db' : admin_step actor db db' -> t_audit db `prefix_of` t_audit db'.
Proof.
  destruct 1 as
    [e Hi|op _ _ _ _ Hi|a op _ _ _ _ Hi|a op row n now _ _ _ _ _ _ Hu|a k n _ _ _ _ Hd
    |a role _ _ Hsys _ _ _ Hi|a role row n now _ _ Hrow Hname _ Hu|a k n _ _ Hd].
  - apply insert_audit_ok in Hi as [_ ->]. by apply prefix_app_r.
  - by apply insert_operator_ok in Hi as (_ & _ & _ & ->).
  - by apply insert_operator_ok in Hi as (_ & _ & _ & ->).
  - by apply update_operator_ok in Hu as [->|(? & ? & _ & _ & _ & _ & _ & ->)].
  - by apply delete_operator_ok in Hd as [->|(_ & _ & -> & _)].
  - by apply insert_role_ok in Hi as (_ & _ & row & _ & _ & _ & ->).
  - by eapply update_role_ok in Hu as [->|(_ & _ & -> & _)]; [| |exact Hrow|exact Hname].
  - by apply delete_role_ok in Hd as [->|(row & _ & _ & _ & ->)].
Qed.

(** ** Effective permissions *)

Definition wildcard (p : string) : bool := String.eqb p "*" || HasSuffix p ":*".

Lemma match_plain p q : wildcard p = false -> matchPermission p q = true <-> p = q.
Proof.
  intros Hw. unfold wildcard in Hw. apply orb_false_iff in Hw as [Hstar Hsuf].
  rewrite matchPermission_spec. split; [|auto]. intros [?|[->|(r & t & -> & _)]]; [done|done|].
  assert (HasSuffix (r +:+ ":*") ":*" = true) by (apply HasSuffix_spec; eauto). congruence.
Qed.

(** ** The properties *)

Section props.
Context `{AdminEnv} `{UuidText}.

(** C5: No history of requests to the administration service that are served
    one after the other, under any pattern of database failures, takes the last
    super administrator away: operators cannot delete themselves or give up the
    role, and only super administrators may delete or demote one. (Requests that
    run at the same time may: [concurrent_demotions_lose_super_admin].) *)
Theorem super_admin_never_lost h db : has_super db -> has_super (history h db).
Proof. apply history_invariant. intros. by eapply has_super_step. Qed.

(** An operator becomes a super administrator only through a request made
    by a super administrator or, without an actor, through the bootstrap of an
    empty operator table. *)
Theorem super_admin_conferred_by_peer r w id :
  is_super (w_db (serve r w).2) id ->
  is_super (w_db w) id \/
  (exists a, request_actor r = Some a /\ is_super (w_db w) a) \/
  request_actor r = None /\ t_operators (w_db w) = ∅.
Proof.
  intros Hid. pose proof (request_steps r w) as Hsteps. revert Hid Hsteps.
  generalize (w_db (serve r w).2) as db'. generalize (w_db w) as db. intros db db' Hid Hsteps.
  destruct (request_actor r) as [a|].
  - assert (is_super db id \/ is_super db a); [|naive_solver].
    revert Hid. induction Hsteps as [|db db1 db' Hstep _ IH]; intros Hid; [by left|].
    destruct (IH Hid) as [Hs|Hs]; eapply is_super_step in Hs; [|done| |done]; tauto.
  - destruct (decide (t_operators db = ∅)) as [|Hne]; [by auto|]. left.
    assert (t_operators db' = t_operators db) as Heq.
    { revert Hne. clear Hid. induction Hsteps as [|db db1 db' Hstep _ IH]; [done|]. intros Hne.
      eapply bootstrap_step in Hstep as He; [|done]. rewrite <- He. apply IH. by rewrite He. }
    unfold is_super in *. by rewrite <- Heq.
Qed.

(** C40: The administration tables stay well formed through every history:
    operators hold existing roles and valid boolean overrides, one operator per
    identity; custom roles have well-formed unreserved names and sorted,
    duplicate-free permissions of the catalogue; the actors of the audit log
    exist. *)
Theorem admin_tables_stay_well_formed h db : admin_wf db -> admin_wf (history h db).
Proof. apply history_invariant. intros. by eapply admin_wf_step. Qed.

(** The system roles are immutable: through every history their rows keep
    name, description and permissions, none disappears and none is added. *)
Theorem system_roles_are_immutable h db id : system_role (history h db) id = system_role db id.
Proof.
  apply (history_invariant (fun s => system_role s id = system_role db id)); [|done].
  intros actor s s' Hstep <-. by eapply system_role_step.
Qed.

(** The audit log only grows, and an operator it names as an actor is never
    removed from the operator table, whoever asks. *)
Theorem audited_operators_are_kept h db e id :
  admin_wf db -> e ∈ t_audit db -> al_OperatorID e = Some id ->
  t_audit db `prefix_of` t_audit (history h db) /\ is_Some (t_operators (history h db) !! id).
Proof.
  intros Hwf Hin He.
  assert (t_audit db `prefix_of` t_audit (history h db)) as Hpre.
  { apply (history_invariant (fun s => t_audit db `prefix_of` t_audit s)); [|done].
    intros actor s s' Hstep Hs. etrans; [exact Hs|]. by eapply audit_step. }
  split; [done|]. eapply (wf_audit (history h db)); [|by eapply elem_of_prefix|exact He].
  apply (history_invariant admin_wf); [|done]. intros. by eapply admin_wf_step.
Qed.

(** For permissions without wildcards, the list [GetEffectivePermissions]
    reports and the decision [EvaluateCapability] takes agree. *)
Theorem effective_permissions_agree rolePerms overrides permission :
  (forall p, p ∈ rolePerms -> wildcard p = false) ->
  (forall p, is_Some (overrides !! p) -> wildcard p = false) ->
  permission ∈ effective_permissions rolePerms overrides <->
  permission_decision rolePerms overrides permission = true.
Proof.
  intros Hr Ho. rewrite permission_decision_spec. unfold effective_permissions.
  rewrite elem_of_difference, elem_of_union, elem_of_list_to_set, !elem_of_dom.
  assert (Hf : forall b, is_Some (base.filter (fun o : string * jval => o.2 = JBool b) overrides !! permission) <->
    overrides !! permission = Some (JBool b)).
  { intros b. split.
    - intros [v Hv]. apply map_lookup_filter_Some in Hv as [Hv Hb]. simpl in Hb. by subst.
    - intros Hv. exists (JBool b). by apply map_lookup_filter_Some. }
  rewrite !Hf. split.
  - intros [[Hin|Ht] Hd]; [|by left]. right. split.
    + intros p Hp. destruct (matchPermission p permission) eqn:Hm; [|done].
      apply match_plain in Hm; [by subst|eauto].
    + left. exists permission. split; [done|]. by apply match_plain; [apply Hr|].
  - intros [Ht|[Hno Hyes]]; [split; [by right|congruence]|]. split.
    + destruct Hyes as [(p & Hp & Hm)|(p & Hp & Hm)]; apply match_plain in Hm; subst; eauto.
    + intros Hd. specialize (Hno _ Hd). rewrite (proj2 (match_plain permission permission ltac:(eauto))) in Hno; done.
Qed.

(** Reads without faults. *)
Lemma GetOperator_run id db row :
  t_operators db !! id = Some row ->
  store_GetOperator id (World db []) = (Ok (operator_of_row id row), World db []).
Proof. intros Hrow. unfold store_GetOperator, no_rows_as, call, M_try. by rewrite db_stmt_clean, Hrow. Qed.

Lemma role_permissions_run role db :
  exists perms, role_permissions role (World db []) = (Ok perms, World db []).
Proof.
  unfold role_permissions, attempt, GetRoleByName, no_rows_as, call, M_try.
  rewrite M_bind_run, db_stmt_clean.
  destruct (find_row _ _) as [[? ?]|]; simpl; eexists; reflexivity.
Qed.

Lemma EvaluateCapability_run id db row permission :
  t_operators db !! id = Some row ->
  (forall perms, permission_decision perms (default ∅ (or_permissions row)) permission = true) ->
  EvaluateCapability id permission (World db []) = (Ok tt, World db []).
Proof.
  intros Hrow Hall. unfold EvaluateCapability, call, M_try. rewrite M_bind_run.
  rewrite (GetOperator_run _ _ _ Hrow). simpl. rewrite M_bind_run. unfold hasPermission.
  pose proof (Hall []) as Hd. unfold permission_decision in Hd.
  destruct (role_permissions_run (or_role row) db) as [perms Hperms].
  destruct (_ !! permission) as [[[]| | |]|]; try done;
    (destruct (List.existsb (override_matches false _) _); [done|]);
    rewrite M_bind_run, Hperms; simpl; by rewrite Hall.
Qed.

Definition everything : gmap string jval := {["*" := JBool true]}.

Lemma everything_allows perms permission : permission_decision perms everything permission = true.
Proof.
  apply permission_decision_spec. right. split.
  - intros p Hp. unfold everything in Hp. apply lookup_singleton_Some in Hp as [_ Hp]. done.
  - right. exists "*". split; [by apply lookup_singleton_Some|]. apply matchPermission_spec. auto.
Qed.

(** The permission to update operators is, without the role, as good as
    being a super administrator: such an operator can override its own
    permissions with the wildcard and is then granted every permission. *)
Theorem operator_update_escalates a db row ip logID now dbnow :
  admin_wf db -> t_operators db !! a = Some row -> or_role row <> "super_admin" ->
  EvaluateCapability a PermOperatorsUpdate (World db []) = (Ok tt, World db []) ->
  exists op db',
    UpdateOperator a a "" (Some everything) ip logID now dbnow (World db []) = (Ok op, World db' []) /\
    forall permission, EvaluateCapability a permission (World db' []) = (Ok tt, World db' []).
Proof.
  intros Hwf Hrow Hrole Heval.
  set (row' := {| or_identity := or_identity row; or_role := or_role row; or_permissions := Some everything;
                  or_created := or_created row; or_updated := dbnow |}).
  assert (Hlog : forall e db1, t_operators db1 !! a = Some row' -> exists r db2,
    (attempt (LogAction e) : M admin_db admin_error _) (World db1 []) = (Ok r, World db2 []) /\
    t_operators db2 !! a = Some row').
  { intros e db1 Hdb1. unfold attempt, M_try, LogAction. rewrite db_stmt_clean.
    destruct (insert_audit e db1) as [[[] db2]|err] eqn:Hi; [|by repeat eexists].
    apply insert_audit_ok in Hi as [_ ->]. by repeat eexists. }
  assert (Hupd : forall op, op_ID op = a -> op_Role op = or_role row -> op_Permissions op = everything ->
    (st (store_UpdateOperator op dbnow) : M admin_db admin_error _) (World db []) =
    (Ok tt, World (with_operators db (<[a := row']> (t_operators db))) [])).
  { intros op Hid Hro Hp. unfold st, call, M_try, store_UpdateOperator. rewrite M_bind_run, db_stmt_clean.
    unfold update_operator. rewrite Hid, Hrow, Hro, Hp.
    replace (exists_row _ _) with true; [done|]. symmetry. apply role_named_exists, (wf_role_exists _ Hwf _ _ Hrow). }
  unfold UpdateOperator. rewrite M_bind_run, Heval. cbn [String.eqb]. rewrite M_bind_run, M_ret_run.
  rewrite M_bind_run. replace (bool_decide _ && _) with false by (by rewrite andb_false_r). rewrite M_ret_run.
  rewrite M_bind_run. change (lift_result _ _) with (validatePermissionOverrides everything, World db []).
  replace (validatePermissionOverrides everything) with (Ok (E := admin_error) tt) by reflexivity.
  rewrite M_bind_run. unfold st at 1, call at 1, M_try at 1. rewrite (GetOperator_run _ _ _ Hrow), M_ret_run.
  rewrite M_bind_run. cbn [op_Role operator_of_row].
  replace (String.eqb (or_role row) "super_admin") with false by (symmetry; by apply String.eqb_neq).
  replace (false || _) with false by reflexivity. rewrite M_ret_run, M_bind_run, Hupd by done.
  rewrite M_bind_run. unfold logAction. rewrite M_bind_run.
  edestruct Hlog as (r & db2 & Hrun & Hrow2); [|rewrite Hrun].
  { simpl. apply lookup_insert_eq. }
  eexists _, db2. split; [reflexivity|]. intros permission.
  eapply EvaluateCapability_run; [exact Hrow2|]. intros perms. apply everything_allows.
Qed.
End props.

(** ** A concrete installation *)

(** The rows migration 0001 inserts. *)
Definition seed_role (name description : string) (permissions : list string) : role_row :=
  {| rr_name := name; rr_description := description; rr_permissions := Some permissions;
     rr_is_system := true; rr_created := 0; rr_updated := 0 |}.
Definition seeded_roles : gmap N role_row :=
  {[1%N := seed_role "super_admin" "Full system access with all permissions" ["*"];
    2%N := seed_role "admin" "Administrative access to manage identities and configurations"
             ["identities:*"; "sessions:*"; "config:read"; "config:update"; "audit:read"];
    3%N := seed_role "operator" "Operational access to manage identities and view sessions"
             ["identities:read"; "identities:update"; "sessions:read"; "sessions:delete"; "audit:read"];
    4%N := seed_role "viewer" "Read-only access to view system data"
             ["identities:read"; "sessions:read"; "config:read"; "audit:read"]]}.

Definition plain_env : AdminEnv :=
  {| VerifyPassword password hash := Some (String.eqb password hash); text_leb := String.leb |}.
#[local] Existing Instances plain_env unary_uuid.

Definition demo_role : role_row :=
  {| rr_name := "team_lead"; rr_description := ""; rr_permissions := Some ["operators:update"];
     rr_is_system := false; rr_created := 0; rr_updated := 0 |}.
Definition demo_db : admin_db :=
  {| t_operators :=
       {[1%N := {| or_identity := 11; or_role := "super_admin"; or_permissions := Some ∅; or_created := 0; or_updated := 0 |};
         2%N := {| or_identity := 12; or_role := "team_lead"; or_permissions := Some ∅; or_created := 0; or_updated := 0 |}]};
     t_roles := <[5%N := demo_role]> seeded_roles;
     t_audit := [{| al_ID := 1; al_OperatorID := Some 1%N; al_Action := "create"; al_ResourceType := "operator";
                    al_ResourceID := ""; al_Details := ∅; al_IPAddress := ""; al_CreatedAt := 0 |}];
     t_api_keys := ∅;
     t_identities := {[11%N := {| ir_traits := ∅; ir_state := "active"; ir_deleted := None |};
                       12%N := {| ir_traits := ∅; ir_state := "active"; ir_deleted := None |}]};
     t_addresses := []; t_credentials := []; t_session_times := [] |}.

Definition demo_history : list (admin_request * list (option string)) :=
  [(ReqDeleteOperator 1 1 "" 90 5, []);
   (ReqUpdateOperator 1 1 "viewer" None "" 91 5 5, [None; Some "connection reset"]);
   (ReqUpdateOperator 1 2 "super_admin" None "" 92 5 5, []);
   (ReqDeleteOperator 2 1 "" 93 6, [])].

Lemma demo_wf : admin_wf demo_db.
Proof.
  split; unfold role_exists, overrides_valid; simpl.
  - intros id row Hrow. apply lookup_insert_Some in Hrow as [[<- <-]|[_ Hrow]].
    + by exists 1%N, (seed_role "super_admin" "Full system access with all permissions" ["*"]).
    + apply lookup_singleton_Some in Hrow as [<- <-]. by exists 5%N, demo_role.
  - intros id id' row row' Hrow Hrow' Heq.
    apply lookup_insert_Some in Hrow as [[<- <-]|[_ Hrow]];
    apply lookup_insert_Some in Hrow' as [[<- <-]|[_ Hrow']]; try done;
    repeat match goal with H : {[_ := _]} !! _ = Some _ |- _ => apply lookup_singleton_Some in H as [<- <-] end; done.
  - intros id row Hrow p v Hp.
    apply lookup_insert_Some in Hrow as [[<- <-]|[_ Hrow]];
      [|apply lookup_singleton_Some in Hrow as [<- <-]]; simpl in Hp; by rewrite lookup_empty in Hp.
  - intros id id' row row' Hrow Hrow' Heq.
    assert (Hk : forall i r, <[5%N := demo_role]> seeded_roles !! i = Some r ->
      i = (if String.eqb (rr_name r) "super_admin" then 1 else if String.eqb (rr_name r) "admin" then 2
           else if String.eqb (rr_name r) "operator" then 3 else if String.eqb (rr_name r) "viewer" then 4 else 5)%N).
    { intros i r Hi. unfold seeded_roles in Hi. repeat (apply lookup_insert_Some in Hi as [[<- <-]|[_ Hi]]; [reflexivity|]).
      by apply lookup_singleton_Some in Hi as [<- <-]. }
    by rewrite (Hk _ _ Hrow), (Hk _ _ Hrow'), Heq.
  - intros id row Hrow Hsys.
    apply lookup_insert_Some in Hrow as [[<- <-]|[_ Hrow]].
    + split_and!; [reflexivity|by vm_compute; set_solver|].
      exists ["operators:update"]. split_and!; [done|by apply NoDup_singleton| |by repeat constructor].
      intros x ->%list_elem_of_singleton. by vm_compute; set_solver.
    + exfalso. unfold seeded_roles in Hrow. repeat (apply lookup_insert_Some in Hrow as [[<- <-]|[_ Hrow]]; [done|]).
      by apply lookup_singleton_Some in Hrow as [<- <-].
  - intros e id ->%list_elem_of_singleton [= <-]. by eexists.
Qed.

Lemma super_admin_never_lost_witness : has_super demo_db /\ has_super (history demo_history demo_db).
Proof.
  assert (H : has_super demo_db) by (exists 1%N; eexists; split; reflexivity).
  exact (conj H (super_admin_never_lost demo_history demo_db H)).
Defined.

Definition promote_2 : admin_request := ReqUpdateOperator 1 2 "super_admin" None "" 92 5 5.

Lemma super_admin_conferred_by_peer_witness :
  is_super (w_db (serve promote_2 (World demo_db [])).2) 2 /\ is_super demo_db 1.
Proof.
  assert (H : is_super (w_db (serve promote_2 (World demo_db [])).2) 2).
  { eexists. split; [vm_compute; reflexivity|reflexivity]. }
  split; [exact H|].
  destruct (super_admin_conferred_by_peer promote_2 (World demo_db []) 2 H) as [(row & Hrow & Hr)|[(a & [= <-] & Ha)|[Hn _]]];
    [vm_compute in Hrow; injection Hrow as <-; discriminate Hr|exact Ha|discriminate Hn].
Defined.

Lemma admin_tables_stay_well_formed_witness : admin_wf demo_db /\ admin_wf (history demo_history demo_db).
Proof. exact (conj demo_wf (admin_tables_stay_well_formed demo_history demo_db demo_wf)). Defined.

Lemma audited_operators_are_kept_witness : is_Some (t_operators (history demo_history demo_db) !! 1%N).
Proof.
  refine (proj2 (audited_operators_are_kept demo_history demo_db _ 1 demo_wf (list_elem_of_here _ _) eq_refl)).
Defined.

Lemma effective_permissions_agree_witness :
  "config:read" ∈ effective_permissions ["config:read"] {["audit:read" := JBool false]} <->
  permission_decision ["config:read"] {["audit:read" := JBool false]} "config:read" = true.
Proof.
  apply effective_permissions_agree.
  - intros p ->%list_elem_of_singleton. reflexivity.
  - intros p [v [<- _]%lookup_singleton_Some]. reflexivity.
Defined.

Lemma operator_update_escalates_witness :
  exists op db',
    UpdateOperator 2 2 "" (Some everything) "" 90 1 1 (World demo_db []) = (Ok op, World db' []) /\
    EvaluateCapability 2 PermOperatorsDelete (World db' []) = (Ok tt, World db' []).
Proof.
  edestruct (operator_update_escalates 2 demo_db) as (op & db' & Hu & Hall);
    [exact demo_wf|reflexivity|discriminate|vm_compute; reflexivity|].
  exists op, db'. exact (conj Hu (Hall _)).
Defined.

(** ** Requests at the same time *)

Section concurrent.
Context `{AdminEnv} `{UuidText}.

(** [UpdateOperator] cut where it has decided and where it has written: the
    checks and the update are separate statements, without a transaction or a
    lock around them. *)
Definition update_decision (actorID operatorID : uuid) (role : string) (permissions : option jobject)
    (now : time) : M admin_db admin_error (string * Operator) :=
  _ ← EvaluateCapability actorID PermOperatorsUpdate;
  normalizedRole ← (if String.eqb role "" then mret ""
                    else call (fun _ => ErrInvalidRole) (requireExistingRole role));
  _ ← (if bool_decide (actorID = operatorID) && negb (String.eqb normalizedRole "")
       then
         actor ← st (store_GetOperator actorID);
         if String.eqb (op_Role actor) "super_admin" && negb (String.eqb normalizedRole "super_admin")
         then throw ErrSelfDemotion else mret tt
       else mret tt);
  _ ← match permissions with
      | Some p => lift_result (validatePermissionOverrides p)
      | None => mret tt
      end;
  op ← st (store_GetOperator operatorID);
  _ ← (if String.eqb (op_Role op) "super_admin" || String.eqb normalizedRole "super_admin"
       then require_super_admin actorID else mret tt);
  mret (op_Role op,
    {| op_ID := op_ID op; op_IdentityID := op_IdentityID op;
       op_Role := if String.eqb normalizedRole "" then op_Role op else normalizedRole;
       op_Permissions := default (op_Permissions op) permissions;
       op_CreatedAt := op_CreatedAt op; op_UpdatedAt := now |}).

Definition update_request (actorID operatorID : uuid) (role : string) (permissions : option jobject)
    (ip : string) (logID : uuid) (now dbnow : time) : prog admin_db (result admin_error Operator) :=
  bindc (update_decision actorID operatorID role permissions now) (fun decided =>
  bindc (st (store_UpdateOperator decided.2 dbnow)) (fun _ =>
  bindc (logAction (Some actorID) "update" "operator" (uuid_string (op_ID decided.2))
           {["old_role" := JStr decided.1; "new_role" := JStr (op_Role decided.2)]} ip logID now) (fun _ =>
  Ret (Ok decided.2)))).

(** Alone, the cut request is the operation. *)
Lemma update_request_run actorID operatorID role permissions ip logID now dbnow w :
  run_prog (update_request actorID operatorID role permissions ip logID now dbnow) w =
  UpdateOperator actorID operatorID role permissions ip logID now dbnow w.
Proof.
  unfold update_request, bindc, update_decision, UpdateOperator. cbn [run_prog].
  repeat (rewrite ?M_bind_run; match goal with
  | |- context [match ?m ?v with pair _ _ => _ end] =>
      lazymatch m with
      | mbind _ _ => fail
      | mret _ => rewrite M_ret_run; cbn [run_prog fst snd]
      | _ => destruct (m v) as [[?|?] ?]; cbn [run_prog fst snd]; [|reflexivity]
      end
  end).
  reflexivity.
Qed.
End concurrent.

Definition two_supers : admin_db :=
  with_operators demo_db
    {[1%N := {| or_identity := 11; or_role := "super_admin"; or_permissions := Some ∅; or_created := 0; or_updated := 0 |};
      2%N := {| or_identity := 12; or_role := "super_admin"; or_permissions := Some ∅; or_created := 0; or_updated := 0 |}]}.

(** Two super administrators who demote each other at the same time both pass
    the check before either update is written, and none is left. *)
Example concurrent_demotions_lose_super_admin :
  exists_row (holds_role "super_admin") (t_operators two_supers) = true /\
  exists_row (holds_role "super_admin")
    (t_operators (pool_run [0; 1; 0; 1; 0; 1]%nat
      ([update_request 1 2 "viewer" None "" 91 5 5; update_request 2 1 "viewer" None "" 92 5 5], two_supers)).2) = false.
Proof. split; vm_compute; reflexivity. Qed.

(** ** Divergences *)

(** An exact grant wins over a denying wildcard. *)
Example exact_grant_beats_wildcard_deny :
  permission_decision [] {["identities:*" := JBool false; "identities:read" := JBool true]} "identities:read" = true.
Proof. reflexivity. Qed.

(** With wildcards the reported list and the decision differ. *)
Example effective_list_ignores_wildcards :
  "identities:read" ∈ effective_permissions ["identities:read"] {["identities:*" := JBool false]} /\
  permission_decision ["identities:read"] {["identities:*" := JBool false]} "identities:read" = false.
Proof. split; [by vm_compute|reflexivity]. Qed.

(** An override with surrounding space is accepted and has no effect. *)
Example padded_deny_is_inert :
  validatePermissionOverrides {[" audit:read" := JBool false]} = Ok tt /\
  permission_decision ["audit:read"] {[" audit:read" := JBool false]} "audit:read" = true.
Proof. split; reflexivity. Qed.

(** A fault while the role is read widens what an admin may do: the defaults
    in the code grant more than the seeded row. *)
Example role_lookup_fault_widens :
  let db := with_operators demo_db
    {[3%N := {| or_identity := 13; or_role := "admin"; or_permissions := Some ∅; or_created := 0; or_updated := 0 |}]} in
  (EvaluateCapability 3 PermSecurityDelete (World db [])).1 = Err ErrPermissionDenied /\
  (EvaluateCapability 3 PermSecurityDelete (World db [None; Some "timeout"])).1 = Ok tt.
Proof. split; vm_compute; reflexivity. Qed.
