(* ===== verification/AdminHttp.v ===== *)
(** modules/admin/handler: how a request to the administration API is
    authenticated (middleware.go, handler.go), and how operators log in and out
    (api_contract.go).  An answer written with [writeError] is the error of the
    operation; the JSON bodies arrive decoded; security events, which only
    observe, are left out. *)

From Stdlib Require Import Ascii String.
From S2P Require Import Prelude GoStrings GoEncoding PlatformCrypto GoHttp AdminStore AdminService.
From S2P Require Import AdminFacts AdminProps.

Local Open Scope string_scope.

Inductive http_error : Type := HttpError (status : Z) (code : string).

Record HandlerConfig : Type := {
  SessionTokenExpiry : duration;
  DefaultPageSize : Z;
  MaxPageSize : Z;
  APIKeyPrefix : string;
  APIKeyPrefixLen : Z;
  APIKeyEntropyBytes : Z;
}.

Definition DefaultHandlerConfig : HandlerConfig :=
  {| SessionTokenExpiry := 8 * hour; DefaultPageSize := 20; MaxPageSize := 100; APIKeyPrefix := "aegion_";
     APIKeyPrefixLen := 12; APIKeyEntropyBytes := 32 |}.

(** [New]: unset fields take their defaults. *)
Definition New (cfg : HandlerConfig) : HandlerConfig :=
  {| SessionTokenExpiry := if (SessionTokenExpiry cfg =? 0)%Z then (8 * hour)%Z else SessionTokenExpiry cfg;
     DefaultPageSize := if (DefaultPageSize cfg =? 0)%Z then 20%Z else DefaultPageSize cfg;
     MaxPageSize := if (MaxPageSize cfg =? 0)%Z then 100%Z else MaxPageSize cfg;
     APIKeyPrefix := if String.eqb (APIKeyPrefix cfg) "" then "aegion_" else APIKeyPrefix cfg;
     APIKeyPrefixLen := if (APIKeyPrefixLen cfg <=? 0)%Z then 12%Z else APIKeyPrefixLen cfg;
     APIKeyEntropyBytes := if (APIKeyEntropyBytes cfg =? 0)%Z then 32%Z else APIKeyEntropyBytes cfg |}.

Definition normalizeIdentityState (state : string) : string :=
  let s := ToLower state in
  if String.eqb s "active" then "active"
  else if List.existsb (String.eqb s) ["inactive"; "banned"; "blocked"; "deleted"] then "inactive"
  else "active".

(** The page of a listing: [Query().Get] of the two parameters, "" when
    absent. *)
Definition positive_int (s : string) : option Z :=
  if String.eqb s "" then None
  else match ParseInt s with Some n => if (0 <? n)%Z then Some n else None | None => None end.
Definition parsePaginationWithConfig (pageParam perPageParam : string) (cfg : HandlerConfig) : Z * Z * Z :=
  let page := default 1%Z (positive_int pageParam) in
  let perPage := match positive_int perPageParam with
                 | Some n => if (n <=? MaxPageSize cfg)%Z then n else DefaultPageSize cfg
                 | None => DefaultPageSize cfg
                 end in
  (page, perPage, wrap64 ((page - 1) * perPage)).

Section handler.
Context `{AdminEnv} `{UuidText}.

Abbreviation HM := (M admin_db http_error).

(** ** Session tokens *)

(** [random n]: what FillRandomBytes writes into n bytes, or its failure. *)
Definition generateAPIKeyToken (cfg : HandlerConfig) (random : Z -> option string) : option string :=
  let entropy := if (APIKeyEntropyBytes cfg <? 16)%Z then 16%Z else APIKeyEntropyBytes cfg in
  match random entropy with
  | Some b => Some (APIKeyPrefix cfg +:+ b64url_Encode b)
  | None => None
  end.

Definition str_slice (s : string) (start stop : nat) : string := str_take (stop - start) (str_drop start s).

Definition lookupPrefix (cfg : HandlerConfig) (token : string) : string :=
  let start := String.length (APIKeyPrefix cfg) in
  let stop := (start + Z.to_nat (APIKeyPrefixLen cfg))%nat in
  if Nat.ltb (String.length token) stop then "" else str_slice token start stop.

Definition login_answer (e : admin_store_error) : http_error :=
  match e with ErrInvalidCredentials => HttpError 401 "invalid_credentials" | _ => HttpError 500 "internal_error" end.
Definition internal {E} (_ : E) : http_error := HttpError 500 "internal_error".

Definition session_key (newID : uuid) (op : Operator) (token prefix : string) (expiry : duration) (now : time) : APIKey :=
  {| key_ID := newID; key_OperatorID := op_ID op; key_Name := "ui_session_" +:+ FormatInt (time_unix now);
     key_Hash := HashAPIKeyToken token; key_Prefix := prefix; key_Permissions := {["session" := JBool true]};
     key_LastUsedAt := None; key_ExpiresAt := Some (time_add now expiry); key_CreatedAt := now;
     key_UpdatedAt := now |}.

Definition Login (cfg : HandlerConfig) (email password : string) (random : Z -> option string) (newID : uuid)
    (now : time) : HM (string * Operator * IdentityProfile * gset string) :=
  let email := TrimSpace email in
  if String.eqb email "" || String.eqb (TrimSpace password) "" then throw (HttpError 400 "invalid_request")
  else
    op ← call login_answer (AuthenticateOperatorByEmail email password);
    profile ← call internal (GetIdentityProfile (op_IdentityID op));
    if negb (String.eqb (normalizeIdentityState (ip_State profile)) "active")
    then throw (HttpError 401 "invalid_credentials")
    else match generateAPIKeyToken cfg random with
    | None => throw (HttpError 500 "internal_error")
    | Some token =>
        _ ← call internal (CreateAPIKey
              (session_key newID op token (lookupPrefix cfg token) (SessionTokenExpiry cfg) now));
        effectivePermissions ← call internal (GetEffectivePermissions (op_ID op));
        mret (token, op, profile, effectivePermissions)
    end.

(** ** Authentication of requests *)

Definition invalid_key {E} (_ : E) : http_error := HttpError 401 "invalid_api_key".

Definition handleAPIKeyAuth (cfg : HandlerConfig) (auth : string) (now dbnow : time) : HM (Operator * uuid) :=
  let apiKey := TrimPrefix auth "Bearer " in
  if String.eqb apiKey "" || negb (HasPrefix apiKey (APIKeyPrefix cfg)) then throw (HttpError 401 "invalid_api_key")
  else
    let start := String.length (APIKeyPrefix cfg) in
    let minLen := (start + Z.to_nat (APIKeyPrefixLen cfg))%nat in
    if Nat.ltb (String.length apiKey) minLen then throw (HttpError 401 "invalid_api_key")
    else
      key ← call invalid_key (GetAPIKeyByPrefix (str_slice apiKey start minLen));
      if negb (ValidateAPIKeyToken apiKey (key_Hash key)) then throw (HttpError 401 "invalid_api_key")
      else if match key_ExpiresAt key with Some t => time_after now t | None => false end
      then throw (HttpError 401 "api_key_expired")
      else
        operator ← call invalid_key (store_GetOperator (key_OperatorID key));
        _ ← attempt (UpdateAPIKeyLastUsed (key_ID key) dbnow);
        mret (operator, key_ID key).

Definition RequireAdmin (cfg : HandlerConfig) (r : Request) (now dbnow : time) : HM (Operator * uuid) :=
  let auth := TrimSpace (Header_Get (GoHttp.Header r) "Authorization") in
  if HasPrefix auth ("Bearer " +:+ APIKeyPrefix cfg) then handleAPIKeyAuth cfg auth now dbnow
  else throw (HttpError 401 "unauthorized").

Definition RequirePermission (permission : string) (operator : option Operator) : HM unit :=
  match operator with
  | None => throw (HttpError 401 "unauthorized")
  | Some op => call (fun _ => HttpError 403 "insufficient_permissions") (EvaluateCapability (op_ID op) permission)
  end.

(** A route of [RegisterRoutes]: the group's middleware, the permission of the
    route, then the handler, which receives the operator. *)
Definition route {A} (cfg : HandlerConfig) (permission : string) (r : Request) (now dbnow : time)
    (handler : Operator -> HM A) : HM A :=
  '(operator, _) ← RequireAdmin cfg r now dbnow;
  _ ← RequirePermission permission (Some operator);
  handler operator.

(** [Logout]: the key that authenticated the request is deleted; a key that is
    gone already is no error.  The key's identifier travels in the request
    context as text. *)
Definition revokeAPIKey (keyID : uuid) : M admin_db admin_store_error unit :=
  r ← attempt (DeleteAPIKey keyID);
  match r with
  | Ok _ | Err ErrAPIKeyNotFound => mret tt
  | Err e => throw e
  end.
Definition Logout (keyIDRaw : string) : HM unit :=
  match uuid_parse (TrimSpace keyIDRaw) with
  | None => throw (HttpError 500 "internal_error")
  | Some keyID => call internal (revokeAPIKey keyID)
  end.

(** ** Facts *)

(** The stored key a presented token belongs to. *)
Definition live_key (db : admin_db) (token : string) (now : time) (keyID : uuid) (op : uuid) : Prop :=
  exists row, t_api_keys db !! keyID = Some row /\ kr_operator row = op /\
    secrettoken.Validate token (kr_hash row) = true /\
    (forall t, kr_expires row = Some t -> (now <= t)%Z).

Lemma GetAPIKeyByPrefix_query prefix :
  query (GetAPIKeyByPrefix prefix) (fun db key =>
    exists id row, t_api_keys db !! id = Some row /\ kr_prefix row = prefix /\ key = key_of_row id row).
Proof.
  apply query_call, query_stmt. intros db key db' Hq.
  destruct (find_row _ _) as [[id row]|] eqn:Hf; simplify_eq/=. split; [done|].
  apply find_row_some in Hf as [Hrow Hn]. apply String.eqb_eq in Hn. eauto.
Qed.

Lemma UpdateAPIKeyLastUsed_tables id dbnow w :
  t_operators (w_db (UpdateAPIKeyLastUsed id dbnow w).2) = t_operators (w_db w) /\
  t_roles (w_db (UpdateAPIKeyLastUsed id dbnow w).2) = t_roles (w_db w).
Proof.
  unfold UpdateAPIKeyLastUsed. destruct (db_stmt _ w) as [r w'] eqn:Hs.
  apply db_stmt_cases in Hs as [(a & -> & Hs)|(e & -> & Hs)]; simpl; [|by rewrite Hs].
  by injection Hs as _ <-.
Qed.

Lemma handleAPIKeyAuth_ok cfg auth now dbnow w op keyID w' :
  handleAPIKeyAuth cfg auth now dbnow w = (Ok (op, keyID), w') ->
  live_key (w_db w) (TrimPrefix auth "Bearer ") now keyID (op_ID op) /\
  (exists row, t_operators (w_db w) !! op_ID op = Some row /\ op = operator_of_row (op_ID op) row) /\
  t_operators (w_db w') = t_operators (w_db w) /\ t_roles (w_db w') = t_roles (w_db w).
Proof.
  unfold handleAPIKeyAuth. set (apiKey := TrimPrefix auth "Bearer ").
  destruct (_ || _); [done|]. destruct (Nat.ltb _ _); [done|].
  rewrite M_bind_run.
  destruct (query_call invalid_key _ _ (GetAPIKeyByPrefix_query
    (str_slice apiKey (String.length (APIKeyPrefix cfg)) (String.length (APIKeyPrefix cfg) + Z.to_nat (APIKeyPrefixLen cfg)))) w)
    as [Hdb HQ].
  destruct (call invalid_key _ w) as [[key|e] w1]; simpl in *; [|done].
  destruct (HQ key eq_refl) as (id & row & Hrow & _ & ->). clear HQ.
  destruct (ValidateAPIKeyToken apiKey _) eqn:Hv; [|done]. simpl.
  destruct (match kr_expires row with Some t => time_after now t | None => false end) eqn:Hexp; [done|].
  rewrite M_bind_run.
  destruct (query_call invalid_key _ _ (store_GetOperator_query (kr_operator row)) w1) as [Hdb' HQ'].
  destruct (call invalid_key _ w1) as [[o|e] w2]; simpl in *; [|done].
  destruct (HQ' o eq_refl) as (orow & Horow & ->). rewrite Hdb in *.
  rewrite M_bind_run. unfold attempt, M_try.
  pose proof (UpdateAPIKeyLastUsed_tables id dbnow w2) as [Ho Hr].
  destruct (UpdateAPIKeyLastUsed id dbnow w2) as [r w3]. simpl in *. rewrite M_ret_run.
  intros [= <- <- <-]. rewrite Hdb' in *. split_and!; [|by exists orow|done|done].
  exists row. split_and!; [done|done|done|]. intros t Ht. rewrite Ht in Hexp.
  unfold time_after in Hexp. by apply Z.ltb_ge in Hexp.
Qed.

Lemma RequireAdmin_consumes cfg r now dbnow : consumes (RequireAdmin cfg r now dbnow).
Proof.
  unfold RequireAdmin, handleAPIKeyAuth. destruct (HasPrefix _ _); [|apply consumes_throw].
  repeat (first [case_match | apply consumes_throw | apply consumes_ret
    | apply consumes_bind; [|intros] | apply consumes_call | apply consumes_attempt | apply consumes_stmt]).
Qed.

(** C34: A route of the administration API answers with an error before its
    handler runs, or the handler runs for an operator of the table: the bearer
    token of the request has the hash of a stored, unexpired key of that
    operator, whose role and overrides grant the permission of the route. The
    role's permissions are those of its row, and the defaults of the code only
    where no row has its name; when a database statement of the request fails,
    the defaults may have decided in place of the row. *)
Theorem admin_route_is_authorized {A} cfg permission r now dbnow w :
  (exists e w', forall handler : Operator -> M admin_db http_error A,
     route cfg permission r now dbnow handler w = (Err e, w')) \/
  exists op keyID w1,
    live_key (w_db w) (TrimPrefix (TrimSpace (Header_Get (GoHttp.Header r) "Authorization")) "Bearer ")
      now keyID (op_ID op) /\
    (authorized (w_db w) (op_ID op) permission \/
     faulty w /\ authorized_by_defaults (w_db w) (op_ID op) permission) /\
    t_operators (w_db w1) = t_operators (w_db w) /\ t_roles (w_db w1) = t_roles (w_db w) /\
    forall handler : Operator -> M admin_db http_error A,
      route cfg permission r now dbnow handler w = handler op w1.
Proof.
  unfold route.
  destruct (RequireAdmin cfg r now dbnow w) as [[[op keyID]|e] w1] eqn:Hh;
    [|left; exists e, w1; intros handler; by rewrite M_bind_run, Hh].
  pose proof (consumes_faulty _ _ _ _ (RequireAdmin_consumes cfg r now dbnow) Hh) as Hfaulty.
  assert (Hadm := Hh). unfold RequireAdmin in Hadm. destruct (HasPrefix _ _) in Hadm; [|done].
  apply handleAPIKeyAuth_ok in Hadm as (Hlive & _ & Ho & Hr).
  unfold RequirePermission.
  destruct (EvaluateCapability (op_ID op) permission w1) as [[[]|e] w2] eqn:He.
  - right. exists op, keyID, w2.
    destruct (EvaluateCapability_query (op_ID op) permission w1) as [Hdb _]. rewrite He in Hdb. simpl in Hdb.
    split_and!; [done| |by rewrite Hdb|by rewrite Hdb|].
    + apply EvaluateCapability_ok in He. unfold authorized, authorized_by_defaults, granted_permissions in *.
      rewrite Ho, Hr in He. naive_solver.
    + intros handler. rewrite M_bind_run, Hh. cbn. by rewrite M_bind_run, call_run, He.
  - left. exists (HttpError 403 "insufficient_permissions"), w2. intros handler.
    rewrite M_bind_run, Hh. cbn. by rewrite M_bind_run, call_run, He.
Qed.

(** ** Logging in *)

Lemma bearer_token_kept cfg b :
  b <> "" ->
  TrimSpace ("Bearer " +:+ APIKeyPrefix cfg +:+ b64url_Encode b) = "Bearer " +:+ APIKeyPrefix cfg +:+ b64url_Encode b.
Proof.
  intros Hb. rewrite <- str_app_assoc.
  apply (trim_app is_space "B" ("earer " +:+ APIKeyPrefix cfg)); [reflexivity|by apply b64url_Encode_nonempty|].
  eapply str_forall_impl; [|apply b64url_Encode_chars]. apply is_b64_not_space.
Qed.

Lemma AuthenticateOperatorByEmail_query email password :
  query (AuthenticateOperatorByEmail email password) (fun db op =>
    exists row, t_operators db !! op_ID op = Some row /\ op = operator_of_row (op_ID op) row).
Proof.
  unfold AuthenticateOperatorByEmail. destruct (_ || _); [apply query_throw|].
  apply (query_bind _ _ (fun db r =>
    exists row, t_operators db !! op_ID r.1 = Some row /\ r.1 = operator_of_row (op_ID r.1) row)).
  - apply query_call, query_stmt. intros db [op hash] db' Hq.
    destruct (email_rows _ db) as [|[[id row] h] rest] eqn:He; [done|]. injection Hq as <- <- <-.
    split; [done|]. exists row. split; [|done]. simpl.
    assert (Hin : In (id, row, h) (email_rows (ToLower (TrimSpace email)) db)) by (rewrite He; by left).
    unfold email_rows in Hin. apply in_concat in Hin as (l & Hl & Hin). apply in_map_iff in Hl as ([k r] & <- & Hr).
    apply list_elem_of_In, elem_of_map_to_list in Hr. simpl in Hin.
    destruct (t_identities db !! or_identity r); [|done]. destruct (_ && _); [|done].
    apply in_map_iff in Hin as (c & [= <- <- _] & _). done.
  - intros [op hash]. destruct (VerifyPassword password hash) as [[]|]; try apply query_throw.
    eapply query_weaken; [apply query_ret|]. by intros db ? -> Hop.
Qed.

Lemma GetIdentityProfile_query identityID :
  query (GetIdentityProfile identityID) (fun db profile =>
    exists row, t_identities db !! identityID = Some row /\ ip_State profile = ir_state row).
Proof.
  apply query_call, query_stmt. intros db p db' Hq.
  destruct (t_identities db !! identityID) as [row|] eqn:Hrow; [|done].
  destruct (bool_decide _); simplify_eq/=. eauto.
Qed.

Lemma GetEffectivePermissions_query operatorID :
  query (GetEffectivePermissions operatorID) (fun _ _ => True).
Proof.
  eapply query_bind; [apply query_call, store_GetOperator_query|]. intros op.
  eapply query_bind; [apply role_permissions_query|]. intros perms.
  eapply query_weaken; [apply query_ret|]. done.
Qed.

(** What a successful login did. *)
Lemma Login_ok cfg email password random newID now w token op profile perms w1 :
  Login cfg email password random newID now w = (Ok (token, op, profile, perms), w1) ->
  (exists row, t_operators (w_db w1) !! op_ID op = Some row /\ op = operator_of_row (op_ID op) row) /\
  (exists n b, random n = Some b /\ (16 <= n)%Z /\ token = APIKeyPrefix cfg +:+ b64url_Encode b) /\
  (exists row, t_identities (w_db w) !! op_IdentityID op = Some row /\
     normalizeIdentityState (ir_state row) = "active") /\
  t_api_keys (w_db w1) =
    <[newID := row_of_key (session_key newID op token (lookupPrefix cfg token) (SessionTokenExpiry cfg) now)]>
      (t_api_keys (w_db w)).
Proof.
  unfold Login. destruct (_ || _); [done|]. rewrite M_bind_run.
  destruct (query_call login_answer _ _ (AuthenticateOperatorByEmail_query (TrimSpace email) password) w) as [Hdb HQ].
  destruct (call login_answer _ w) as [[op0|e] w2]; simpl in *; [|done].
  destruct (HQ op0 eq_refl) as (row & Hrow & Hop). rewrite M_bind_run.
  destruct (query_call (internal (E := admin_store_error)) _ _ (GetIdentityProfile_query (op_IdentityID op0)) w2) as [Hdb2 HQ2].
  destruct (call internal _ w2) as [[pr|e] w3]; simpl in *; [|done].
  destruct (HQ2 pr eq_refl) as (irow & Hirow & Hstate).
  destruct (String.eqb_spec (normalizeIdentityState (ip_State pr)) "active") as [Hact|]; [|done]. simpl.
  destruct (generateAPIKeyToken cfg random) as [tok|] eqn:Hgen; [|done]. rewrite M_bind_run.
  destruct (call internal (CreateAPIKey _) w3) as [[[]|e] w4] eqn:Hc; [|done]. rewrite M_bind_run.
  destruct (query_call (internal (E := admin_error)) _ _ (GetEffectivePermissions_query (op_ID op0)) w4) as [Hdb4 _].
  destruct (call internal (GetEffectivePermissions _) w4) as [[ps|e] w5]; simpl in *; [|done].
  rewrite M_ret_run. intros [= <- <- <- <- <-]. rewrite Hdb4.
  unfold CreateAPIKey, call, M_try in Hc.
  destruct (db_stmt _ w3) as [[[]|e] w6] eqn:Hs; [|done]. injection Hc as <-.
  apply db_stmt_cases in Hs as [([] & _ & Hs)|(? & ? & _)]; [|done].
  unfold insert_api_key in Hs. destruct (bool_decide _); [done|]. destruct (negb _); [done|].
  injection Hs as <-. simpl. rewrite Hdb2, Hdb in *. split_and!; [by exists row| |exists irow; by rewrite <- Hstate|done].
  unfold generateAPIKeyToken in Hgen. set (n := if (APIKeyEntropyBytes cfg <? 16)%Z then 16%Z else APIKeyEntropyBytes cfg) in Hgen.
  destruct (random n) as [b|] eqn:Hb; [|done]. injection Hgen as <-. exists n, b. split_and!; [done| |done].
  subst n. destruct (Z.ltb_spec (APIKeyEntropyBytes cfg) 16); lia.
Qed.

(** Logging in yields a working session: until it expires, a request that
    presents the issued token is authenticated as the operator who logged in,
    provided no other stored key has the token's lookup prefix; the operator's
    identity was in an active state. *)
Theorem login_opens_session cfg email password random newID now w token op profile perms w1 r now2 dbnow :
  Login cfg email password random newID now w = (Ok (token, op, profile, perms), w1) ->
  (forall n b, random n = Some b -> Z.of_nat (String.length b) = n) ->
  lookupPrefix cfg token <> "" ->
  (forall id row, t_api_keys (w_db w) !! id = Some row -> kr_prefix row <> lookupPrefix cfg token) ->
  Header_Get (GoHttp.Header r) "Authorization" = "Bearer " +:+ token ->
  (now2 <= now + SessionTokenExpiry cfg)%Z ->
  (RequireAdmin cfg r now2 dbnow (World (w_db w1) [])).1 = Ok (op, newID).
Proof.
  intros ((row & Hrow & Hop) & (n & b & Hb & Hn & Htok) & _ & Hkeys)%Login_ok Hlen Hpre Hfresh Hauth Hnow.
  assert (b <> "") as Hne by (intros ->; apply Hlen in Hb; simpl in Hb; lia).
  assert (token <> "") as Htne.
  { intros Ht. rewrite Ht in Htok. destruct (APIKeyPrefix cfg); [|done].
    by apply (b64url_Encode_nonempty b Hne). }
  unfold RequireAdmin. rewrite Hauth, Htok, bearer_token_kept by done.
  replace (HasPrefix _ _) with true; [|symmetry; apply HasPrefix_spec; exists (b64url_Encode b); by rewrite str_app_assoc].
  rewrite <- Htok. unfold handleAPIKeyAuth. rewrite TrimPrefix_app.
  rewrite (proj2 (String.eqb_neq token "") Htne).
  replace (HasPrefix token (APIKeyPrefix cfg)) with true by (symmetry; apply HasPrefix_spec; eauto).
  cbn [orb negb]. unfold lookupPrefix in *.
  destruct (Nat.ltb _ _) eqn:Hlt; [done|]. set (prefix := str_slice _ _ _) in *.
  set (key := session_key _ _ _ _ _ _) in *. simpl in *.
  rewrite M_bind_run. unfold GetAPIKeyByPrefix, no_rows_as, call, M_try. rewrite db_stmt_clean.
  rewrite (find_row_unique _ _ newID (row_of_key key)).
  2: { rewrite Hkeys. apply lookup_insert_eq. }
  2: { apply String.eqb_refl. }
  2: { intros id row' Hrow' Hp. rewrite Hkeys in Hrow'.
       apply lookup_insert_Some in Hrow' as [[<- _]|[_ Hrow']]; [done|].
       apply String.eqb_eq in Hp. by apply Hfresh in Hrow'. }
  cbn. unfold ValidateAPIKeyToken, HashAPIKeyToken. rewrite Validate_Hash by done. cbn.
  replace (time_after now2 _) with false by (symmetry; unfold time_after, time_add; apply Z.ltb_ge; lia).
  rewrite M_bind_run. rewrite (GetOperator_run _ _ _ Hrow). cbn. by rewrite <- Hop.
Qed.
(** Logging out ends the session at once: when [Logout] succeeds the key is
    gone from the table, and no request is authenticated by it any more. *)
Theorem logout_ends_session cfg keyID w w1 :
  TrimSpace (uuid_string keyID) = uuid_string keyID ->
  Logout (uuid_string keyID) w = (Ok tt, w1) ->
  t_api_keys (w_db w1) !! keyID = None /\
  forall r now dbnow faults op w2,
    RequireAdmin cfg r now dbnow (World (w_db w1) faults) <> (Ok (op, keyID), w2).
Proof.
  intros Htrim Hl.
  assert (Hnone : t_api_keys (w_db w1) !! keyID = None).
  { unfold Logout in Hl. rewrite Htrim, uuid_parse_string in Hl.
    unfold call, M_try, revokeAPIKey in Hl. rewrite M_bind_run in Hl. unfold attempt, M_try, DeleteAPIKey in Hl.
    rewrite M_bind_run in Hl.
    match type of Hl with context [db_stmt ?s w] => destruct (db_stmt s w) as [[n|e] w'] eqn:Hs end.
    - apply db_stmt_cases in Hs as [(a & [= <-] & Hs)|(? & ? & _)]; [|done].
      case_bool_decide as Hk; injection Hs as <- Hw; simpl in Hl; injection Hl as <-; rewrite <- Hw.
      + simpl. apply lookup_delete_eq.
      + by apply eq_None_not_Some.
    - exfalso. unfold db_stmt in Hs. destruct (w_faults w) as [|[msg|] fs]; simpl in Hs;
        try (destruct (bool_decide _)); simplify_eq; simpl in Hl; by inversion Hl. }
  split; [done|]. intros r now dbnow faults op w2. unfold RequireAdmin.
  destruct (HasPrefix _ _); [|done]. intros ((row & Hrow & _) & _)%handleAPIKeyAuth_ok. simpl in Hrow. congruence.
Qed.
End handler.

(** ** A session, concretely *)

#[local] Existing Instances plain_env unary_uuid.

Definition login_db : admin_db :=
  {| t_operators := {[1%N := {| or_identity := 11; or_role := "super_admin"; or_permissions := Some ∅;
                                or_created := 0; or_updated := 0 |}]};
     t_roles := seeded_roles; t_audit := []; t_api_keys := ∅;
     t_identities := {[11%N := {| ir_traits := {["email" := "Root@Example.org"]}; ir_state := "active"; ir_deleted := None |}]};
     t_addresses := []; t_credentials := [(11%N, "hunter2")]; t_session_times := [] |}.

Fixpoint zero_bytes (n : nat) : string := match n with O => "" | S k => String "000" (zero_bytes k) end.
Lemma zero_bytes_length n : String.length (zero_bytes n) = n.
Proof. induction n; simpl; congruence. Qed.
Definition zeros (n : Z) : option string := if (n <? 0)%Z then None else Some (zero_bytes (Z.to_nat n)).

Definition login_result := Eval vm_compute in
  Login DefaultHandlerConfig " root@example.org" "hunter2" zeros 7 0 (World login_db []).

Definition login_request : Request :=
  {| Method := "GET"; URL_Path := "/admin/auth/me"; URL_RawQuery := ""; Host := "admin"; RemoteAddr := "10.0.0.1:5";
     TLS := true; Cookies := [];
     GoHttp.Header := {["Authorization" := ["Bearer aegion_AAAAAAAAAAAAAAAAAAAAAAAAAAAAAAAAAAAAAAAAAAA"]]} |}.

Lemma login_opens_session_witness :
  (RequireAdmin DefaultHandlerConfig login_request hour 5 (World (w_db login_result.2) [])).1 =
  Ok (operator_of_row 1 {| or_identity := 11; or_role := "super_admin"; or_permissions := Some ∅;
                           or_created := 0; or_updated := 0 |}, 7%N).
Proof.
  refine (login_opens_session DefaultHandlerConfig " root@example.org" "hunter2" zeros 7 0 (World login_db [])
    "aegion_AAAAAAAAAAAAAAAAAAAAAAAAAAAAAAAAAAAAAAAAAAA" _
    {| ip_Email := "Root@Example.org"; ip_Name := ""; ip_State := "active"; ip_LastLoginAt := None |}
    {["*"]} login_result.2 login_request hour 5 _ _ _ _ _ _).
  - vm_compute. reflexivity.
  - intros n b. unfold zeros. destruct (Z.ltb_spec n 0); [discriminate|]. intros [= <-].
    rewrite zero_bytes_length. lia.
  - vm_compute. discriminate.
  - intros id row Hrow. vm_compute in Hrow. discriminate.
  - reflexivity.
  - vm_compute. discriminate.
Defined.

Lemma logout_ends_session_witness :
  t_api_keys (w_db (Logout "1111111" login_result.2).2) !! 7%N = None.
Proof.
  refine (proj1 (logout_ends_session DefaultHandlerConfig 7 login_result.2 _ _ _)); vm_compute; reflexivity.
Defined.
