(* ===== verification/Policy.v ===== *)
(** modules/policy (grpc/server.go, store/store.go): authorization decisions
    from roles (RBAC), rules (ABAC, CEL expressions) and relation tuples
    (ReBAC).

    The CEL library is a parameter.  The state of an operation is the tables
    and the server's cache of compiled expressions; the deadline and values of
    a Go context are left out, except the client address, which is an
    argument.  [expand_loop] takes fuel; [expandReBAC] gives it two more than
    there are tuples, which is always enough. *)

From Stdlib Require Import Ascii String.
From S2P Require Import Prelude GoStrings GoHttp PlatformCrypto.

Local Open Scope string_scope.

(** ** Data *)

Record RequestContext : Type := { rc_Ip : string; rc_TenantId : string; rc_Extra : gmap string string }.

Record CheckRequest : Type := {
  cr_Subject : string;
  cr_Resource : string;
  cr_ResourceType : string;
  cr_Action : string;
  cr_Model : string;
  cr_Context : option RequestContext;
}.

Record CheckResponse : Type := {
  Allowed : bool;
  ModelUsed : string;
  DenyReason : string;
  EvalPath : list string;
}.

Record Permission : Type := { perm_ResourceType : string; perm_Action : string }.
Record ABACRule : Type := {
  rule_Name : string;
  rule_Expression : string;
  rule_Priority : Z;
  rule_Effect : string;
  rule_Enabled : bool;
}.
Record ReBACTuple : Type := {
  tp_Namespace : string;
  tp_ObjectID : string;
  tp_Relation : string;
  tp_SubjectID : string;
}.

(** What [buildABACActivation] binds; the roles of the subject are always the
    empty list. *)
Record Activation : Type := {
  act_subject_id : string;
  act_resource_id : string;
  act_resource_type : string;
  act_action : string;
  act_ip : string;
  act_tenant_id : string;
  act_extra : gmap string string;
}.

(** The CEL library: [Compile], the output type, [Program] and [Eval]; a value
    that is not a boolean is [None]. *)
Class Cel := {
  cel_Ast : Type;
  cel_Compile : string -> result string cel_Ast;
  cel_output_bool : cel_Ast -> bool;
  cel_Program : cel_Ast -> result string (Activation -> result string (option bool));
}.

Inductive policy_error : Type :=
| ErrInit (msg : string)
| ErrSubjectRequired
| ErrResourceTypeRequired
| ErrActionRequired
| ErrUnsupportedModel (model : string)
| ErrEmptyExpression
| ErrCel (msg : string)
| ErrExpressionType
| ErrExpressionValue
| ErrRule (name : string) (e : policy_error)
| ErrNotFound
| ErrEmptyRoleID
| errReBACMaxDepthExceeded
| errReBACTraversalLimitExceeded
| LoopFuel
| PolicyDb (e : db_error).
#[global] Instance policy_dberr : DbErr policy_error := PolicyDb.

(** ** Tables (migration 0001) *)

Record policy_db : Type := {
  t_pol_roles : list (uuid * string);
  t_role_assignments : list (uuid * uuid);
  t_active_identities : gset N;
  t_permissions : list (uuid * Permission);
  t_abac_rules : list ABACRule;
  t_rebac_tuples : list ReBACTuple;
}.

Section policy.
Context `{Cel} `{UuidText}.

Record policy_state : Type := { ps_tables : policy_db; ps_cache : gmap string cel_Ast }.

Abbreviation PM := (M policy_state policy_error).

Definition select {A} (q : policy_db -> result db_error A) : PM A :=
  db_stmt (fun s => (fun a => (a, s)) <$> q (ps_tables s)).

(** ** Store *)

(** The identity column is a UUID: PostgreSQL refuses a parameter that is not
    the text of one. *)
Definition ListRoleIDsByIdentity (identityID : string) : PM (list string) :=
  select (fun db =>
    match uuid_parse identityID with
    | None => Err (DbFault "invalid input syntax for type uuid")
    | Some id =>
        Ok (List.map (fun a => uuid_string a.2)
              (List.filter (fun a => bool_decide (a.1 = id) && bool_decide (id ∈ t_active_identities db))
                 (t_role_assignments db)))
    end).

Definition ListPermissionsByRoleIDs (roleIDs : list string) : PM (list Permission) :=
  match roleIDs with
  | [] => mret []
  | _ => select (fun db =>
      Ok (List.map snd (List.filter (fun p => List.existsb (String.eqb (uuid_string p.1)) roleIDs) (t_permissions db))))
  end.

Definition ListABACRules : PM (list ABACRule) :=
  select (fun db =>
    Ok (sort_by (fun a b => (rule_Priority a <=? rule_Priority b)%Z) (List.filter rule_Enabled (t_abac_rules db)))).

Definition tuple_of (namespace objectID relation : string) (t : ReBACTuple) : bool :=
  String.eqb (tp_Namespace t) namespace && String.eqb (tp_ObjectID t) objectID && String.eqb (tp_Relation t) relation.

Definition ListReBACTuples (namespace objectID relation : string) : PM (list ReBACTuple) :=
  select (fun db => Ok (List.filter (tuple_of namespace objectID relation) (t_rebac_tuples db))).

Definition GetRoleIDByName (roleName : string) : PM string :=
  roleID ← call (fun e => match e with PolicyDb NoRows => ErrNotFound | e => e end)
    (select (fun db =>
       match List.find (fun r => String.eqb r.2 roleName) (t_pol_roles db) with
       | Some r => Ok (uuid_string r.1)
       | None => Err NoRows
       end));
  if String.eqb roleID "" then throw ErrEmptyRoleID else mret roleID.

(** ** Normalization *)

Definition normalizeModel (model : string) : string := ToLower (TrimSpace model).
Definition normalizePermissionToken (value : string) : string := ToLower (TrimSpace value).
Definition normalizeSubject (subject : string) : string :=
  let subject := TrimSpace subject in
  if HasPrefix subject "user:" then TrimPrefix subject "user:" else subject.
Definition isRBACIdentity (identityID : string) : bool :=
  let identityID := TrimSpace identityID in
  negb (String.eqb identityID "") && negb (EqualFold identityID "anonymous").

Definition actionToRelation (action : string) : string :=
  let action := normalizeModel action in
  if List.existsb (String.eqb action) ["read"; "view"; "get"; "list"] then "viewer"
  else if List.existsb (String.eqb action) ["write"; "update"; "edit"; "patch"] then "editor"
  else if List.existsb (String.eqb action) ["delete"; "remove"] then "owner"
  else if String.eqb action "owner" then "owner"
  else action.

Definition parseNamespaceAndObject (resource resourceType : string) : string * string :=
  let resource := TrimSpace resource in
  let resourceType := TrimSpace resourceType in
  let fallback := if negb (String.eqb resourceType "") && negb (String.eqb resource "")
                  then (resourceType, resource) else ("", "") in
  match String.index 0 ":" resource with
  | Some idx =>
      if Nat.ltb 0 idx && Nat.ltb idx (String.length resource - 1)
      then (TrimSpace (str_take idx resource), TrimSpace (str_drop (S idx) resource))
      else fallback
  | None => fallback
  end.

Definition parseSubjectSet (subjectID : string) : option (string * string) :=
  match Split subjectID "#" with
  | [l; r] =>
      let left := TrimSpace l in
      let rel := TrimSpace r in
      if String.eqb left "" || String.eqb rel "" then None else Some (left, rel)
  | _ => None
  end.

Definition splitCSV (raw : string) : list string :=
  let raw := TrimSpace raw in
  if String.eqb raw "" then []
  else List.filter (fun p => negb (String.eqb p "")) (List.map TrimSpace (Split raw ",")).

(** The address [WithRequestContextIP] stored in the Go context, "" if none. *)
Definition WithRequestContextIP (ctx_ip ip : string) : string :=
  if String.eqb (TrimSpace ip) "" then ctx_ip else TrimSpace ip.
Definition is_bracket (c : ascii) : bool := Ascii.eqb c "[" || Ascii.eqb c "]".
Definition extractClientIP (ctx_ip : string) : string :=
  let ip := TrimSpace ctx_ip in
  if String.eqb ip "" then ""
  else trim is_bracket (default ip (SplitHostPort ip)).

(** ** RBAC *)

Definition rbac_allow : CheckResponse :=
  {| Allowed := true; ModelUsed := "rbac"; DenyReason := ""; EvalPath := ["rbac:allow"] |}.
Definition rbac_miss : CheckResponse :=
  {| Allowed := false; ModelUsed := "rbac"; DenyReason := "rbac_no_matching_permission"; EvalPath := ["rbac:miss"] |}.

Definition perm_is (resourceType action : string) (p : Permission) : bool :=
  String.eqb (normalizePermissionToken (perm_ResourceType p)) resourceType
  && String.eqb (normalizePermissionToken (perm_Action p)) action.
Definition hasPermission (perms : list Permission) (resourceType action : string) : bool :=
  let resourceType := normalizePermissionToken resourceType in
  let action := normalizePermissionToken action in
  if List.existsb (perm_is resourceType action) perms then true
  else if List.existsb (perm_is resourceType "*") perms then true
  else if List.existsb (perm_is "*" action) perms then true
  else List.existsb (perm_is "*" "*") perms.

Definition evaluateRBAC (req : CheckRequest) : PM CheckResponse :=
  let identityID := normalizeSubject (cr_Subject req) in
  if negb (isRBACIdentity identityID) then mret rbac_miss
  else
    roleIDs ← ListRoleIDsByIdentity identityID;
    match roleIDs with
    | [] => mret rbac_miss
    | _ =>
        permissions ← ListPermissionsByRoleIDs roleIDs;
        mret (if hasPermission permissions (cr_ResourceType req) (cr_Action req) then rbac_allow else rbac_miss)
    end.

(** ** ABAC *)

Definition compileABACExpression (expression : string) : PM cel_Ast :=
  let expression := TrimSpace expression in
  if String.eqb expression "" then throw ErrEmptyExpression
  else fun w =>
    match ps_cache (w_db w) !! expression with
    | Some ast => (Ok ast, w)
    | None =>
        match cel_Compile expression with
        | Err issues => (Err (ErrCel issues), w)
        | Ok ast =>
            if negb (cel_output_bool ast) then (Err ErrExpressionType, w)
            else (Ok ast, World {| ps_tables := ps_tables (w_db w);
                                   ps_cache := <[expression := ast]> (ps_cache (w_db w)) |} (w_faults w))
        end
    end.

Definition buildABACActivation (ctx_ip : string) (req : CheckRequest) : Activation :=
  let clientIP := match cr_Context req with Some c => TrimSpace (rc_Ip c) | None => "" end in
  {| act_subject_id := normalizeSubject (cr_Subject req);
     act_resource_id := TrimSpace (cr_Resource req);
     act_resource_type := TrimSpace (cr_ResourceType req);
     act_action := TrimSpace (cr_Action req);
     act_ip := if String.eqb clientIP "" then extractClientIP ctx_ip else clientIP;
     act_tenant_id := match cr_Context req with Some c => TrimSpace (rc_TenantId c) | None => "" end;
     act_extra := match cr_Context req with Some c => rc_Extra c | None => ∅ end |}.

(** Evaluation of a compiled expression. *)
Definition eval_ast (ast : cel_Ast) (a : Activation) : result policy_error bool :=
  match cel_Program ast with
  | Err e => Err (ErrCel e)
  | Ok prg =>
      match prg a with
      | Err e => Err (ErrCel e)
      | Ok (Some b) => Ok b
      | Ok None => Err ErrExpressionValue
      end
  end.
Definition evaluateABACExpression (ctx_ip : string) (req : CheckRequest) (expression : string) : PM bool :=
  ast ← compileABACExpression expression;
  lift_result (eval_ast ast (buildABACActivation ctx_ip req)).

(** The name of the first rule of the effect that matches. *)
Fixpoint first_matched (ctx_ip : string) (req : CheckRequest) (rules : list ABACRule) (effect : string)
    : PM (option string) :=
  match rules with
  | [] => mret None
  | rule :: rules' =>
      if negb (String.eqb (normalizeModel (rule_Effect rule)) effect) then first_matched ctx_ip req rules' effect
      else
        matched ← call (ErrRule (rule_Name rule)) (evaluateABACExpression ctx_ip req (rule_Expression rule));
        if matched : bool then mret (Some (rule_Name rule)) else first_matched ctx_ip req rules' effect
  end.
Definition firstMatchedABACRule (ctx_ip : string) (req : CheckRequest) (rules : list ABACRule) (effect : string)
    : PM (option string) :=
  first_matched ctx_ip req rules (normalizeModel effect).

Definition abac_deny (ruleName : string) : CheckResponse :=
  {| Allowed := false; ModelUsed := "abac"; DenyReason := "abac_deny_rule_matched";
     EvalPath := ["abac:deny:" +:+ ruleName] |}.

Definition evaluateABACOnly (ctx_ip : string) (req : CheckRequest) (rules : list ABACRule) : PM CheckResponse :=
  denied ← firstMatchedABACRule ctx_ip req rules "deny";
  match denied with
  | Some ruleName => mret (abac_deny ruleName)
  | None =>
      allowed ← firstMatchedABACRule ctx_ip req rules "allow";
      mret (match allowed with
            | Some ruleName =>
                {| Allowed := true; ModelUsed := "abac"; DenyReason := "";
                   EvalPath := ["abac:deny_miss"; "abac:allow:" +:+ ruleName] |}
            | None =>
                {| Allowed := false; ModelUsed := "abac"; DenyReason := "abac_no_matching_rule";
                   EvalPath := ["abac:deny_miss"; "abac:allow_miss"] |}
            end)
  end.

(** ** ReBAC *)

Record node : Type := { nd_objectID : string; nd_relation : string; nd_depth : Z }.

Definition rebacMaxVisitedNodes : nat := 1000.

Definition node_key (namespace : string) (n : node) : string :=
  namespace +:+ "|" +:+ nd_objectID n +:+ "|" +:+ nd_relation n.

Definition names_subject (subject subjectID : string) : bool :=
  EqualFold subjectID subject || EqualFold subjectID ("user:" +:+ subject).

(** The inner loop over the tuples of a node: [None] when the subject was
    found, else the nodes to add to the queue. *)
Fixpoint scan_tuples (subject : string) (depth : Z) (tuples : list ReBACTuple) : option (list node) :=
  match tuples with
  | [] => Some []
  | tpl :: rest =>
      let subjectID := TrimSpace (tp_SubjectID tpl) in
      if String.eqb subjectID "" then scan_tuples subject depth rest
      else if names_subject subject subjectID then None
      else match parseSubjectSet subjectID with
           | Some (setObj, setRel) =>
               option_map (cons {| nd_objectID := setObj; nd_relation := setRel; nd_depth := depth + 1 |})
                 (scan_tuples subject depth rest)
           | None => scan_tuples subject depth rest
           end
  end.

Fixpoint expand_loop (fuel : nat) (namespace subject : string) (maxDepth : Z) (queue : list node)
    (visited : gset string) : PM bool :=
  match fuel with
  | O => throw LoopFuel
  | S fuel' =>
      match queue with
      | [] => mret false
      | current :: queue' =>
          if (maxDepth <? nd_depth current)%Z then throw errReBACMaxDepthExceeded
          else
            let key := node_key namespace current in
            if bool_decide (key ∈ visited) then expand_loop fuel' namespace subject maxDepth queue' visited
            else
              let visited' := {[key]} ∪ visited in
              if Nat.ltb rebacMaxVisitedNodes (size visited') then throw errReBACTraversalLimitExceeded
              else
                tuples ← ListReBACTuples namespace (nd_objectID current) (nd_relation current);
                match scan_tuples subject (nd_depth current) tuples with
                | None => mret true
                | Some nodes => expand_loop fuel' namespace subject maxDepth (queue' ++ nodes) visited'
                end
      end
  end.

Definition expandReBAC (namespace objectID relation subject : string) (maxDepth : Z) : PM bool :=
  fun w => expand_loop (2 + length (t_rebac_tuples (ps_tables (w_db w)))) namespace subject maxDepth
             [{| nd_objectID := objectID; nd_relation := relation; nd_depth := 0 |}] ∅ w.

Definition rebac_deny (reason path : string) : CheckResponse :=
  {| Allowed := false; ModelUsed := "rebac"; DenyReason := reason; EvalPath := [path] |}.

Definition evaluateReBAC (req : CheckRequest) : PM CheckResponse :=
  let '(namespace, objectID) := parseNamespaceAndObject (cr_Resource req) (cr_ResourceType req) in
  let relation := actionToRelation (cr_Action req) in
  if String.eqb namespace "" || String.eqb objectID "" || String.eqb relation ""
  then mret (rebac_deny "rebac_invalid_resource" "rebac:invalid_resource")
  else
    r ← attempt (expandReBAC namespace objectID relation (normalizeSubject (cr_Subject req)) 20);
    match r with
    | Err errReBACMaxDepthExceeded => mret (rebac_deny "max_depth_exceeded" "rebac:max_depth_exceeded")
    | Err errReBACTraversalLimitExceeded =>
        mret (rebac_deny "traversal_limit_exceeded" "rebac:traversal_limit_exceeded")
    | Err e => throw e
    | Ok true => mret {| Allowed := true; ModelUsed := "rebac"; DenyReason := ""; EvalPath := ["rebac:allow"] |}
    | Ok false => mret (rebac_deny "rebac_no_matching_tuple" "rebac:miss")
    end.

(** ** Decisions *)

Definition default_path (tail : list string) : list string :=
  "abac:deny_miss" :: "rbac:miss" :: tail.

(** The default model after the deny rules: RBAC, the allow rules, ReBAC. *)
Definition evaluateDefault (ctx_ip : string) (req : CheckRequest) (rules : list ABACRule) : PM CheckResponse :=
  rbacRes ← evaluateRBAC req;
  if Allowed rbacRes
  then mret {| Allowed := true; ModelUsed := "rbac"; DenyReason := ""; EvalPath := ["abac:deny_miss"; "rbac:allow"] |}
  else
    allowed ← firstMatchedABACRule ctx_ip req rules "allow";
    match allowed with
    | Some ruleName =>
        mret {| Allowed := true; ModelUsed := "abac"; DenyReason := "";
                EvalPath := default_path ["abac:allow:" +:+ ruleName] |}
    | None =>
        rebacRes ← evaluateReBAC req;
        mret (if String.eqb (DenyReason rebacRes) "max_depth_exceeded"
              then {| Allowed := false; ModelUsed := "rebac"; DenyReason := "max_depth_exceeded";
                      EvalPath := default_path ["abac:allow_miss"; "rebac:max_depth_exceeded"] |}
              else if Allowed rebacRes
              then {| Allowed := true; ModelUsed := "rebac"; DenyReason := "";
                      EvalPath := default_path ["abac:allow_miss"; "rebac:allow"] |}
              else {| Allowed := false; ModelUsed := "default"; DenyReason := "default_deny";
                      EvalPath := default_path ["abac:allow_miss"; "rebac:miss"; "default:deny"] |})
    end.

(** The checks of the arguments; the model to use. *)
Definition checked_model (initErr : option string) (req : CheckRequest) : result policy_error string :=
  match initErr with
  | Some e => Err (ErrInit e)
  | None =>
      if String.eqb (TrimSpace (cr_Subject req)) "" then Err ErrSubjectRequired
      else if String.eqb (TrimSpace (cr_ResourceType req)) "" then Err ErrResourceTypeRequired
      else if String.eqb (TrimSpace (cr_Action req)) "" then Err ErrActionRequired
      else
        let model := normalizeModel (cr_Model req) in
        let model := if String.eqb model "" then "default" else model in
        if List.existsb (String.eqb model) ["default"; "rbac"; "abac"; "rebac"] then Ok model
        else Err (ErrUnsupportedModel (cr_Model req))
  end.

Definition Check_ (initErr : option string) (ctx_ip : string) (req : CheckRequest) : PM CheckResponse :=
  model ← lift_result (checked_model initErr req);
  if String.eqb model "rebac" then evaluateReBAC req
  else
    rules ← ListABACRules;
    if String.eqb model "abac" then evaluateABACOnly ctx_ip req rules
    else
      denied ← firstMatchedABACRule ctx_ip req rules "deny";
      match denied with
      | Some ruleName => mret (abac_deny ruleName)
      | None =>
          if String.eqb model "rbac" then evaluateRBAC req else evaluateDefault ctx_ip req rules
      end.

Fixpoint BatchCheck (initErr : option string) (ctx_ip : string) (checks : list CheckRequest)
    : PM (list CheckResponse) :=
  match checks with
  | [] => mret []
  | check :: rest =>
      res ← Check_ initErr ctx_ip check;
      results ← BatchCheck initErr ctx_ip rest;
      mret (res :: results)
  end.
End policy.
