(* ===== verification/PolicyFacts.v ===== *)
(** The policy module: the expansion of relation tuples always ends and decides
    reachability in the graph of subject sets; a decision of [Check] follows
    the roles, rules and tuples of the tables, deny rules first, whatever the
    cache of compiled expressions holds. *)

From Stdlib Require Import Ascii String.
From S2P Require Import Prelude GoStrings GoHttp PlatformCrypto Policy.

Local Open Scope string_scope.

(** ** The graph of subject sets *)

Section graph.
Context (T : list ReBACTuple) (namespace subject : string).

Definition vertex : Type := string * string.

(** A tuple of the vertex names the subject. *)
Definition direct (v : vertex) : Prop :=
  exists t, t ∈ T /\ tuple_of namespace v.1 v.2 t = true /\ TrimSpace (tp_SubjectID t) <> "" /\
    names_subject subject (TrimSpace (tp_SubjectID t)) = true.

(** A tuple of the first vertex names the subject set of the second. *)
Definition edge (v v' : vertex) : Prop :=
  exists t, t ∈ T /\ tuple_of namespace v.1 v.2 t = true /\ TrimSpace (tp_SubjectID t) <> "" /\
    parseSubjectSet (TrimSpace (tp_SubjectID t)) = Some v'.

Definition related (v : vertex) : Prop := exists v', rtc edge v v' /\ direct v'.

Definition vertex_of (n : node) : vertex := (nd_objectID n, nd_relation n).
Definition vertex_key (v : vertex) : string := namespace +:+ "|" +:+ v.1 +:+ "|" +:+ v.2.
Definition tuples_of (v : vertex) : list ReBACTuple := List.filter (tuple_of namespace v.1 v.2) T.

Definition bar_free (s : string) : Prop := str_forall (not_char "|") s = true.
Definition plain_relations : Prop := forall v v', edge v v' -> bar_free v'.2.

Lemma last_sep_inj c a b a' b' :
  str_forall (not_char c) b = true -> str_forall (not_char c) b' = true ->
  a +:+ String c b = a' +:+ String c b' -> a = a' /\ b = b'.
Proof.
  intros Hb Hb'. revert a'.
  assert (Hno : forall x y, str_forall (not_char c) (x +:+ String c y) = false).
  { intros x y. rewrite str_forall_app. simpl. unfold not_char at 2. rewrite Ascii.eqb_refl. by rewrite andb_false_r. }
  induction a as [|d a IH]; intros [|d' a'] Heq; simpl in Heq.
  - by injection Heq as ->.
  - injection Heq as -> ->. by rewrite (Hno a' b') in Hb.
  - injection Heq as -> <-. by rewrite (Hno a b) in Hb'.
  - injection Heq as -> Heq. destruct (IH a' Heq) as [-> ->]. done.
Qed.

Lemma vertex_key_inj v v' : bar_free v.2 -> bar_free v'.2 -> vertex_key v = vertex_key v' -> v = v'.
Proof.
  destruct v as [o r], v' as [o' r']. unfold vertex_key, bar_free. simpl. intros Hr Hr' Heq.
  apply (inj (String.append namespace)), (inj (String.append "|")) in Heq.
  by destruct (last_sep_inj "|" _ _ _ _ Hr Hr' Heq) as [-> ->].
Qed.

(** ** Scanning the tuples of a vertex *)

Lemma scan_found l depth :
  scan_tuples subject depth l = None ->
  exists t, t ∈ l /\ TrimSpace (tp_SubjectID t) <> "" /\ names_subject subject (TrimSpace (tp_SubjectID t)) = true.
Proof.
  induction l as [|t l IH]; simpl; [done|].
  assert (Hrec : (exists t0, t0 ∈ l /\ TrimSpace (tp_SubjectID t0) <> "" /\
                   names_subject subject (TrimSpace (tp_SubjectID t0)) = true) ->
                 exists t0, t0 ∈ t :: l /\ TrimSpace (tp_SubjectID t0) <> "" /\
                   names_subject subject (TrimSpace (tp_SubjectID t0)) = true).
  { intros (t0 & Hin & Ht0). exists t0. split; [by right|done]. }
  destruct (String.eqb_spec (TrimSpace (tp_SubjectID t)) "") as [|Hne]; [eauto|].
  destruct (names_subject subject _) eqn:Hn; [intros _; exists t; split; [left|done]|].
  destruct (parseSubjectSet _) as [[o r]|]; [|eauto].
  destruct (scan_tuples subject depth l); [done|eauto].
Qed.

Lemma scan_nodes l depth nodes :
  scan_tuples subject depth l = Some nodes ->
  (length nodes <= length l)%nat /\
  (forall t, t ∈ l -> TrimSpace (tp_SubjectID t) <> "" ->
     names_subject subject (TrimSpace (tp_SubjectID t)) = false /\
     forall v, parseSubjectSet (TrimSpace (tp_SubjectID t)) = Some v ->
       exists n, n ∈ nodes /\ vertex_of n = v) /\
  (forall n, n ∈ nodes -> nd_depth n = (depth + 1)%Z /\
     exists t, t ∈ l /\ TrimSpace (tp_SubjectID t) <> "" /\
       parseSubjectSet (TrimSpace (tp_SubjectID t)) = Some (vertex_of n)).
Proof.
  revert nodes. induction l as [|t l IH]; intros nodes; simpl.
  { intros [= <-]. split_and!; [simpl; lia| |]; by intros ? ?%not_elem_of_nil. }
  destruct (String.eqb_spec (TrimSpace (tp_SubjectID t)) "") as [He|Hne].
  { intros Hs. destruct (IH _ Hs) as (Hlen & Hall & Hback). split_and!; [lia| |].
    - intros t0 [->|Hin]%elem_of_cons Ht0; [done|eauto].
    - intros n Hn. destruct (Hback n Hn) as (Hd & t0 & Hin & Ht0). split; [done|].
      exists t0. split; [by right|done]. }
  destruct (names_subject subject _) eqn:Hn; [done|].
  destruct (parseSubjectSet _) as [[o r]|] eqn:Hp.
  - destruct (scan_tuples subject depth l) as [nodes'|] eqn:Hs; [|done]. intros [= <-].
    destruct (IH _ eq_refl) as (Hlen & Hall & Hback). simpl. split_and!; [lia| |].
    + intros t0 [->|Hin]%elem_of_cons Ht0.
      * split; [done|]. intros v Hv. rewrite Hp in Hv. injection Hv as <-. eexists. split; [left|done].
      * destruct (Hall t0 Hin Ht0) as [Hf Hsub]. split; [done|]. intros v Hv.
        destruct (Hsub v Hv) as (n & Hin' & Hv'). exists n. split; [by right|done].
    + intros n [->|Hin]%elem_of_cons; [split; [done|]; exists t; split; [left|done]|].
      destruct (Hback n Hin) as (Hd & t0 & Hin0 & Ht0). split; [done|]. exists t0. split; [by right|done].
  - intros Hs. destruct (IH _ Hs) as (Hlen & Hall & Hback). split_and!; [lia| |].
    + intros t0 [->|Hin]%elem_of_cons Ht0; [split; [done|]; by rewrite Hp|eauto].
    + intros n Hin. destruct (Hback n Hin) as (Hd & t0 & Hin0 & Ht0). split; [done|].
      exists t0. split; [by right|done].
Qed.

Lemma elem_of_tuples_of t v : t ∈ tuples_of v <-> t ∈ T /\ tuple_of namespace v.1 v.2 t = true.
Proof. unfold tuples_of. rewrite list_elem_of_In, filter_In, <- list_elem_of_In. done. Qed.

(** ** Progress: a tuple is put into the queue at most once *)

Definition tuple_pending (visited : gset string) (t : ReBACTuple) : bool :=
  String.eqb (tp_Namespace t) namespace && bool_decide (vertex_key (tp_ObjectID t, tp_Relation t) ∉ visited).
Definition pending (visited : gset string) : nat := length (List.filter (tuple_pending visited) T).

Lemma filter_split {A} (p q r : A -> bool) (l : list A) :
  (forall x, q x = true -> p x = true /\ r x = false) -> (forall x, r x = true -> p x = true) ->
  (length (List.filter q l) + length (List.filter r l) <= length (List.filter p l))%nat.
Proof.
  intros Hq Hr. induction l as [|x l IH]; simpl; [lia|].
  destruct (q x) eqn:Eq, (r x) eqn:Er; simpl; try (destruct (Hq x Eq) as [-> ?]); try rewrite (Hr x Er); simpl;
    try congruence; try lia. destruct (p x); simpl; lia.
Qed.

Lemma pending_decreases visited v :
  vertex_key v ∉ visited ->
  (length (tuples_of v) + pending ({[vertex_key v]} ∪ visited) <= pending visited)%nat.
Proof.
  intros Hnew. apply filter_split.
  - intros t Ht. unfold tuple_of in Ht. bool_to_prop. unfold tuple_pending.
    repeat match goal with H : _ = _ |- _ => rewrite H end. rewrite String.eqb_refl. destruct v as [o r]. simpl in *.
    split; [by rewrite bool_decide_true|]. rewrite bool_decide_false; [done|set_solver].
  - intros t Ht. unfold tuple_pending in *. bool_to_prop.
    match goal with H : tp_Namespace t = _ |- _ => rewrite H end. rewrite String.eqb_refl.
    rewrite bool_decide_true; [done|set_solver].
Qed.
End graph.

(** ** The expansion *)

Section expansion.
Context `{Cel} `{UuidText}.

Lemma ListReBACTuples_query namespace v :
  query (ListReBACTuples namespace v.1 v.2) (fun s l => l = tuples_of (t_rebac_tuples (ps_tables s)) namespace v).
Proof. apply query_stmt. by intros s l s' [= <- <-]. Qed.

(** What the answer of an expansion from the vertex [s] means. *)
Definition expansion_spec (T : list ReBACTuple) (namespace subject : string) (maxDepth : Z) (s : vertex)
    (r : result policy_error bool) : Prop :=
  match r with
  | Ok true => related T namespace subject s
  | Ok false => plain_relations T namespace -> bar_free s.2 -> ~ related T namespace subject s
  | Err errReBACMaxDepthExceeded => exists n v, (maxDepth < Z.of_nat n)%Z /\ nsteps (edge T namespace) n s v
  | Err errReBACTraversalLimitExceeded =>
      exists V : gset string, (rebacMaxVisitedNodes < size V)%nat /\
        forall k, k ∈ V -> exists v, rtc (edge T namespace) s v /\ vertex_key namespace v = k
  | Err (PolicyDb _) => True
  | Err _ => False
  end.

(** The invariant of the loop: the queue holds walks from the start, the
    visited keys are of reachable vertices, and the visited vertices are done:
    none names the subject, and their successors are visited or queued. *)
Record loop_inv (T : list ReBACTuple) (namespace subject : string) (s : vertex) (queue : list node)
    (visited : gset string) : Prop := {
  inv_queue : forall n, n ∈ queue -> (0 <= nd_depth n)%Z /\
    nsteps (edge T namespace) (Z.to_nat (nd_depth n)) s (vertex_of n);
  inv_visited : forall k, k ∈ visited -> exists v, rtc (edge T namespace) s v /\ vertex_key namespace v = k;
  inv_plain : plain_relations T namespace -> bar_free s.2 -> forall n, n ∈ queue -> bar_free (nd_relation n);
  inv_done : plain_relations T namespace -> bar_free s.2 -> forall v, vertex_key namespace v ∈ visited -> bar_free v.2 ->
    ~ direct T namespace subject v /\
    forall v', edge T namespace v v' -> vertex_key namespace v' ∈ visited \/ exists n, n ∈ queue /\ vertex_of n = v';
  inv_start : vertex_key namespace s ∈ visited \/ exists n, n ∈ queue /\ vertex_of n = s;
}.

Section loop.
Context (T : list ReBACTuple) (namespace subject : string) (s : vertex).

Lemma loop_inv_start depth0 :
  depth0 = 0%Z ->
  loop_inv T namespace subject s [{| nd_objectID := s.1; nd_relation := s.2; nd_depth := depth0 |}] ∅.
Proof.
  intros ->. assert (vertex_of {| nd_objectID := s.1; nd_relation := s.2; nd_depth := 0 |} = s) as Hs by (by destruct s).
  split.
  - intros n ->%list_elem_of_singleton. rewrite Hs. simpl. split; [lia|constructor].
  - intros k Hk. set_solver.
  - intros _ Hb n ->%list_elem_of_singleton. done.
  - intros _ _ v Hv. set_solver.
  - right. eexists. split; [left|done].
Qed.

Lemma loop_inv_skip n queue visited :
  vertex_key namespace (vertex_of n) ∈ visited ->
  loop_inv T namespace subject s (n :: queue) visited -> loop_inv T namespace subject s queue visited.
Proof.
  intros Hn [Hq Hv Hp Hd Hs]. split; [| done | | |].
  - intros m Hm. apply Hq. by right.
  - intros Hpl Hb m Hm. apply Hp; [done|done|by right].
  - intros Hpl Hb v Hkey Hbv. destruct (Hd Hpl Hb v Hkey Hbv) as [Hnd Hsucc]. split; [done|].
    intros v' Hv'. destruct (Hsucc v' Hv') as [?|(m & [->|Hm]%elem_of_cons & <-)]; eauto.
  - destruct Hs as [?|(m & [->|Hm]%elem_of_cons & <-)]; eauto.
Qed.

(** The current vertex is expanded. *)
Lemma loop_inv_expand n queue visited nodes :
  scan_tuples subject (nd_depth n) (tuples_of T namespace (vertex_of n)) = Some nodes ->
  loop_inv T namespace subject s (n :: queue) visited ->
  loop_inv T namespace subject s (queue ++ nodes) ({[vertex_key namespace (vertex_of n)]} ∪ visited).
Proof.
  intros (_ & Hall & Hback)%scan_nodes [Hq Hv Hp Hd Hs].
  assert (Hedge : forall m, m ∈ nodes -> edge T namespace (vertex_of n) (vertex_of m)).
  { intros m Hm. destruct (Hback m Hm) as (_ & t & [Hin Ht]%elem_of_tuples_of & Hne & Hset). exists t. done. }
  destruct (Hq n) as [Hpos Hwalk]; [left|].
  assert (Hin : forall m, m ∈ n :: queue -> vertex_of m = vertex_of n \/ m ∈ (queue ++ nodes)%list).
  { intros m [->|Hm]%elem_of_cons; [by left|right; apply elem_of_app; by left]. }
  split.
  - intros m [Hm|Hm]%elem_of_app; [apply Hq; by right|].
    destruct (Hback m Hm) as [-> _]. split; [lia|].
    replace (Z.to_nat (nd_depth n + 1)) with (Z.to_nat (nd_depth n) + 1)%nat by lia.
    eapply nsteps_trans; [exact Hwalk|]. apply nsteps_once, Hedge, Hm.
  - intros k [->%elem_of_singleton|Hk]%elem_of_union; [|eauto].
    exists (vertex_of n). split; [|done]. by eapply rtc_nsteps_2.
  - intros Hpl Hb m [Hm|Hm]%elem_of_app; [apply Hp; [done|done|by right]|].
    by apply (Hpl (vertex_of n) (vertex_of m)), Hedge.
  - intros Hpl Hb v [Hkey%elem_of_singleton|Hkey]%elem_of_union Hbv.
    + apply vertex_key_inj in Hkey as ->; [|done|apply Hp; [done|done|left]]. split.
      * intros (t & Hin' & Ht & Hne & Hn). destruct (Hall t) as [Hf _]; [by apply elem_of_tuples_of|done|].
        congruence.
      * intros v' (t & Hin' & Ht & Hne & Hset). right.
        destruct (Hall t) as [_ Hsub]; [by apply elem_of_tuples_of|done|].
        destruct (Hsub v' Hset) as (m & Hm & Hv'). exists m. split; [|done]. apply elem_of_app. by right.
    + destruct (Hd Hpl Hb v Hkey Hbv) as [Hnd Hsucc]. split; [done|]. intros v' Hv'.
      destruct (Hsucc v' Hv') as [?|(m & Hm & <-)]; [left; set_solver|].
      destruct (Hin m Hm) as [Heq|Hm']; [left; rewrite Heq; set_solver|eauto].
  - destruct Hs as [?|(m & Hm & Heq)]; [left; set_solver|].
    destruct (Hin m Hm) as [Heq'|Hm']; [left; rewrite <- Heq, Heq'; set_solver|eauto].
Qed.

(** An exhausted queue: nothing reachable names the subject. *)
Lemma loop_inv_exhausted visited :
  loop_inv T namespace subject s [] visited ->
  plain_relations T namespace -> bar_free s.2 -> ~ related T namespace subject s.
Proof.
  intros [_ _ _ Hd Hs] Hpl Hb (v' & Hsteps & Hdir).
  destruct Hs as [Hs|(n & []%not_elem_of_nil & _)].
  assert (Hstay : vertex_key namespace v' ∈ visited /\ bar_free v'.2).
  { clear Hdir. revert Hs Hb Hd. induction Hsteps as [|v v1 v' He _ IH]; intros Hs Hb Hd; [done|].
    destruct (Hd Hpl Hb v Hs Hb) as [_ Hsucc]. destruct (Hsucc v1 He) as [Hv1|(n & []%not_elem_of_nil & _)].
    apply IH; [done|by eapply Hpl|]. intros _ _. exact (Hd Hpl Hb). }
  destruct Hstay as [Hv' Hbv']. by apply (Hd Hpl Hb v' Hv' Hbv').
Qed.
End loop.

Lemma expand_loop_spec fuel namespace subject maxDepth s queue visited w :
  let T := t_rebac_tuples (ps_tables (w_db w)) in
  (length queue + pending T namespace visited < fuel)%nat ->
  loop_inv T namespace subject s queue visited ->
  w_db (expand_loop fuel namespace subject maxDepth queue visited w).2 = w_db w /\
  expansion_spec T namespace subject maxDepth s (expand_loop fuel namespace subject maxDepth queue visited w).1.
Proof.
  cbv zeta. revert queue visited w.
  induction fuel as [|fuel IH]; intros queue visited w Hfuel Hinv; [lia|].
  destruct queue as [|n queue]; simpl.
  { split; [done|]. by eapply loop_inv_exhausted. }
  destruct (Z.ltb_spec maxDepth (nd_depth n)) as [Hdeep|Hdepth]; simpl.
  { split; [done|]. destruct (inv_queue _ _ _ _ _ _ Hinv n) as [Hpos Hwalk]; [left|].
    exists (Z.to_nat (nd_depth n)), (vertex_of n). split; [lia|done]. }
  change (node_key namespace n) with (vertex_key namespace (vertex_of n)).
  case_bool_decide as Hseen.
  { apply IH; [simpl in Hfuel; lia|]. by eapply loop_inv_skip. }
  destruct (Nat.ltb_spec rebacMaxVisitedNodes (size ({[vertex_key namespace (vertex_of n)]} ∪ visited))) as [Hmany|Hfew].
  { simpl. split; [done|]. eexists. split; [exact Hmany|].
    intros k [->%elem_of_singleton|Hk]%elem_of_union; [|by eapply (inv_visited _ _ _ _ _ _ Hinv)].
    exists (vertex_of n). split; [|done]. eapply rtc_nsteps_2, (inv_queue _ _ _ _ _ _ Hinv). left. }
  rewrite M_bind_run. change (nd_objectID n) with (vertex_of n).1. change (nd_relation n) with (vertex_of n).2.
  destruct (ListReBACTuples_query namespace (vertex_of n) w) as [Hdb HQ].
  destruct (ListReBACTuples namespace _ _ w) as [[l|e] w1] eqn:Hl; simpl in Hdb, HQ.
  2: { simpl. split; [done|]. unfold ListReBACTuples, select, db_stmt in Hl.
       destruct (w_faults w) as [|[]]; simpl in Hl; simplify_eq; done. }
  rewrite (HQ l eq_refl).
  destruct (scan_tuples subject (nd_depth n) _) as [nodes|] eqn:Hscan.
  - rewrite <- Hdb in *. apply IH; [|by apply loop_inv_expand].
    pose proof (pending_decreases (t_rebac_tuples (ps_tables (w_db w1))) namespace visited _ Hseen) as Hdec.
    apply scan_nodes in Hscan as [Hlen _]. rewrite length_app. simpl in Hfuel. lia.
  - simpl. split; [done|]. apply scan_found in Hscan as (t & [Hin Ht]%elem_of_tuples_of & Hne & Hn).
    exists (vertex_of n). split; [eapply rtc_nsteps_2, (inv_queue _ _ _ _ _ _ Hinv); left|]. exists t. done.
Qed.

Lemma expandReBAC_spec namespace objectID relation subject maxDepth w :
  expansion_spec (t_rebac_tuples (ps_tables (w_db w))) namespace subject maxDepth (objectID, relation)
    (expandReBAC namespace objectID relation subject maxDepth w).1 /\
  w_db (expandReBAC namespace objectID relation subject maxDepth w).2 = w_db w.
Proof.
  unfold expandReBAC. apply and_comm. apply expand_loop_spec.
  - simpl. unfold pending. pose proof (filter_length_le (tuple_pending namespace ∅)
      (t_rebac_tuples (ps_tables (w_db w)))). lia.
  - by apply (loop_inv_start _ _ _ (objectID, relation)).
Qed.

(** ** Rules, without the cache *)

Definition cache_ok (s : policy_state) : Prop :=
  forall e ast, ps_cache s !! e = Some ast -> cel_Compile e = Ok ast /\ cel_output_bool ast = true.

Definition compile_spec (expression : string) : result policy_error cel_Ast :=
  if String.eqb (TrimSpace expression) "" then Err ErrEmptyExpression
  else match cel_Compile (TrimSpace expression) with
       | Err issues => Err (ErrCel issues)
       | Ok ast => if cel_output_bool ast then Ok ast else Err ErrExpressionType
       end.
Definition rule_value (ctx_ip : string) (req : CheckRequest) (rule : ABACRule) : result policy_error bool :=
  ast ← compile_spec (rule_Expression rule); eval_ast ast (buildABACActivation ctx_ip req).

(** [m] computes [r] from the tables, whatever a sound cache holds, and keeps
    tables, faults and the soundness of the cache. *)
Definition cached {A} (m : M policy_state policy_error A) (r : result policy_error A) : Prop :=
  forall w, cache_ok (w_db w) -> (m w).1 = r /\ ps_tables (w_db (m w).2) = ps_tables (w_db w) /\
    w_faults (m w).2 = w_faults w /\ cache_ok (w_db (m w).2).

Lemma compile_cached expression : cached (compileABACExpression expression) (compile_spec expression).
Proof.
  intros w Hok. unfold compileABACExpression, compile_spec.
  destruct (String.eqb (TrimSpace expression) ""); [done|].
  destruct (ps_cache (w_db w) !! TrimSpace expression) as [ast|] eqn:Hc.
  - destruct (Hok _ _ Hc) as [-> ->]. done.
  - destruct (cel_Compile (TrimSpace expression)) as [ast|] eqn:Hcomp; [|done].
    destruct (cel_output_bool ast) eqn:Hb; [|done]. simpl. split_and!; [done|done|done|].
    intros e a Ha. simpl in Ha. apply lookup_insert_Some in Ha as [[<- <-]|[_ Ha]]; [done|eauto].
Qed.

Lemma cached_bind {A B} (m : M policy_state policy_error A) r (f : A -> M policy_state policy_error B) (g : A -> result policy_error B) :
  cached m r -> (forall a, cached (f a) (g a)) -> cached (m ≫= f) (r ≫= g).
Proof.
  intros Hm Hf w Hw. rewrite M_bind_run. destruct (Hm w Hw) as (Hr & Ht & Hfa & Hc).
  destruct (m w) as [[a|e] w1]; simpl in *; subst; simpl; [|done].
  destruct (Hf a w1 Hc) as (? & ? & ? & ?). split_and!; congruence || done.
Qed.
Lemma cached_pure {A} (r : result policy_error A) : cached (lift_result r) r.
Proof. by intros w Hw. Qed.
Lemma cached_call {A} (g : policy_error -> policy_error) (m : M policy_state policy_error A) r :
  cached m r -> cached (call g m) (match r with Ok a => Ok a | Err e => Err (g e) end).
Proof.
  intros Hm w Hw. destruct (Hm w Hw) as (Hr & Ht & Hf & Hc). unfold call, M_try.
  destruct (m w) as [[a|e] w1]; simpl in *; subst; done.
Qed.

Fixpoint first_spec (ctx_ip : string) (req : CheckRequest) (rules : list ABACRule) (effect : string)
    : result policy_error (option string) :=
  match rules with
  | [] => Ok None
  | rule :: rules' =>
      if negb (String.eqb (normalizeModel (rule_Effect rule)) effect) then first_spec ctx_ip req rules' effect
      else match rule_value ctx_ip req rule with
           | Err e => Err (ErrRule (rule_Name rule) e)
           | Ok true => Ok (Some (rule_Name rule))
           | Ok false => first_spec ctx_ip req rules' effect
           end
  end.

Lemma first_cached ctx_ip req rules effect :
  cached (first_matched ctx_ip req rules effect) (first_spec ctx_ip req rules effect).
Proof.
  induction rules as [|rule rules IH]; simpl; [apply (cached_pure (Ok None))|].
  destruct (negb _); [done|].
  assert (Hv : cached (evaluateABACExpression ctx_ip req (rule_Expression rule)) (rule_value ctx_ip req rule)).
  { apply cached_bind; [apply compile_cached|]. intros ast. apply cached_pure. }
  pose proof (cached_bind _ _ (fun matched : bool =>
    if matched then mret (Some (rule_Name rule)) else first_matched ctx_ip req rules effect)
    (fun matched : bool => if matched then Ok (Some (rule_Name rule)) else first_spec ctx_ip req rules effect)
    (cached_call (ErrRule (rule_Name rule)) _ _ Hv)) as Hb.
  destruct (rule_value ctx_ip req rule) as [[]|e]; apply Hb; intros [];
    first [apply (cached_pure (Ok (Some (rule_Name rule))))|done].
Qed.

(** What a search for a rule of an effect tells about the rules. *)
Lemma first_spec_none ctx_ip req rules effect :
  first_spec ctx_ip req rules effect = Ok None ->
  forall rule, rule ∈ rules -> normalizeModel (rule_Effect rule) = effect -> rule_value ctx_ip req rule = Ok false.
Proof.
  induction rules as [|rule rules IH]; simpl; [by intros _ ? ?%not_elem_of_nil|].
  destruct (String.eqb_spec (normalizeModel (rule_Effect rule)) effect) as [He|He]; simpl.
  - destruct (rule_value ctx_ip req rule) as [[]|] eqn:Hv; [done| |done].
    intros Hr r [->|Hin]%elem_of_cons Hre; [done|eauto].
  - intros Hr r [->|Hin]%elem_of_cons Hre; [done|eauto].
Qed.
Lemma first_spec_some ctx_ip req rules effect name :
  first_spec ctx_ip req rules effect = Ok (Some name) ->
  exists rule, rule ∈ rules /\ normalizeModel (rule_Effect rule) = effect /\ rule_Name rule = name /\
    rule_value ctx_ip req rule = Ok true.
Proof.
  induction rules as [|rule rules IH]; simpl; [done|].
  assert (Hrec : first_spec ctx_ip req rules effect = Ok (Some name) ->
    exists r, r ∈ rule :: rules /\ normalizeModel (rule_Effect r) = effect /\ rule_Name r = name /\
      rule_value ctx_ip req r = Ok true).
  { intros Hf. destruct (IH Hf) as (r & Hin & Hr). exists r. split; [by right|done]. }
  destruct (String.eqb_spec (normalizeModel (rule_Effect rule)) effect) as [He|He]; simpl; [|done].
  destruct (rule_value ctx_ip req rule) as [[]|] eqn:Hv; [|done|done].
  intros [= <-]. exists rule. split; [left|done].
Qed.

(** ** What the tables grant *)

Definition rbac_grants (db : policy_db) (req : CheckRequest) : Prop :=
  isRBACIdentity (normalizeSubject (cr_Subject req)) = true /\
  exists u role perm, uuid_parse (normalizeSubject (cr_Subject req)) = Some u /\ u ∈ t_active_identities db /\
    (u, role) ∈ t_role_assignments db /\ (role, perm) ∈ t_permissions db /\
    (normalizePermissionToken (perm_ResourceType perm) = normalizePermissionToken (cr_ResourceType req) \/
     normalizePermissionToken (perm_ResourceType perm) = "*") /\
    (normalizePermissionToken (perm_Action perm) = normalizePermissionToken (cr_Action req) \/
     normalizePermissionToken (perm_Action perm) = "*").

Definition rule_fires (ctx_ip : string) (db : policy_db) (req : CheckRequest) (effect : string) : Prop :=
  exists rule, rule ∈ t_abac_rules db /\ rule_Enabled rule = true /\
    normalizeModel (rule_Effect rule) = effect /\ rule_value ctx_ip req rule = Ok true.

Definition rebac_target (req : CheckRequest) : option (string * vertex) :=
  let '(namespace, objectID) := parseNamespaceAndObject (cr_Resource req) (cr_ResourceType req) in
  let relation := actionToRelation (cr_Action req) in
  if String.eqb namespace "" || String.eqb objectID "" || String.eqb relation "" then None
  else Some (namespace, (objectID, relation)).

Definition rebac_grants (db : policy_db) (req : CheckRequest) : Prop :=
  exists namespace v, rebac_target req = Some (namespace, v) /\
    related (t_rebac_tuples db) namespace (normalizeSubject (cr_Subject req)) v.

(** No relation name in play contains the separator of the visited keys. *)
Definition plain_request (db : policy_db) (req : CheckRequest) : Prop :=
  forall namespace v, rebac_target req = Some (namespace, v) ->
    plain_relations (t_rebac_tuples db) namespace /\ bar_free v.2.

(** The graph is out of the limits of the expansion. *)
Definition rebac_exceeds (db : policy_db) (req : CheckRequest) : Prop :=
  exists namespace v, rebac_target req = Some (namespace, v) /\
    ((exists n v', (20 < Z.of_nat n)%Z /\ nsteps (edge (t_rebac_tuples db) namespace) n v v') \/
     (exists V : gset string, (rebacMaxVisitedNodes < size V)%nat /\
        forall k, k ∈ V -> exists v', rtc (edge (t_rebac_tuples db) namespace) v v' /\ vertex_key namespace v' = k)).

Definition granted (model ctx_ip : string) (db : policy_db) (req : CheckRequest) : Prop :=
  model = "rbac" /\ rbac_grants db req \/
  model = "abac" /\ rule_fires ctx_ip db req "allow" \/
  model = "rebac" /\ rebac_grants db req \/
  model = "default" /\ (rbac_grants db req \/ rule_fires ctx_ip db req "allow" \/ rebac_grants db req).

(** No enabled deny rule fires, and none fails to evaluate. *)
Definition no_deny (ctx_ip : string) (db : policy_db) (req : CheckRequest) : Prop :=
  forall rule, rule ∈ t_abac_rules db -> rule_Enabled rule = true -> normalizeModel (rule_Effect rule) = "deny" ->
    rule_value ctx_ip req rule = Ok false.

Lemma hasPermission_spec perms resourceType action :
  hasPermission perms resourceType action = true <->
  exists p, p ∈ perms /\
    (normalizePermissionToken (perm_ResourceType p) = normalizePermissionToken resourceType \/
     normalizePermissionToken (perm_ResourceType p) = "*") /\
    (normalizePermissionToken (perm_Action p) = normalizePermissionToken action \/
     normalizePermissionToken (perm_Action p) = "*").
Proof.
  assert (He : forall rt a, List.existsb (perm_is rt a) perms = true <->
    exists p, p ∈ perms /\ normalizePermissionToken (perm_ResourceType p) = rt /\
      normalizePermissionToken (perm_Action p) = a).
  { intros rt a. rewrite existsb_exists. unfold perm_is.
    setoid_rewrite andb_true_iff. setoid_rewrite String.eqb_eq. setoid_rewrite list_elem_of_In. naive_solver. }
  unfold hasPermission. split.
  - intros Hp. repeat case_match;
      repeat match goal with
      | H : List.existsb _ _ = true |- _ => apply He in H as (p & ? & ? & ?)
      end; by exists p; auto.
  - intros (p & Hin & [Hr|Hr] & [Ha|Ha]);
      repeat case_match; try done; apply He; eauto;
      exfalso; repeat match goal with H : List.existsb _ _ = false |- _ => apply not_true_iff_false in H end;
      match goal with H : ~ List.existsb (perm_is ?a ?b) _ = true |- _ => apply H, He; exists p; by eauto end.
Qed.

Lemma uuid_string_inj u v : uuid_string u = uuid_string v -> u = v.
Proof. intros Heq. apply (inj Some). rewrite <- !uuid_parse_string. by rewrite Heq. Qed.

Lemma evaluateRBAC_query req :
  query (evaluateRBAC req) (fun s res =>
    res = rbac_allow /\ rbac_grants (ps_tables s) req \/ res = rbac_miss /\ ~ rbac_grants (ps_tables s) req).
Proof.
  unfold evaluateRBAC. set (id := normalizeSubject (cr_Subject req)).
  destruct (isRBACIdentity id) eqn:Hid; simpl.
  2: { eapply query_weaken; [apply query_ret|]. intros s res ->. right. split; [done|].
       intros [Hid' _]. fold id in Hid'. congruence. }
  apply (query_bind _ _ (fun s roles => exists u, uuid_parse id = Some u /\
    forall r, r ∈ roles <-> exists role, r = uuid_string role /\ u ∈ t_active_identities (ps_tables s) /\
      (u, role) ∈ t_role_assignments (ps_tables s))).
  { apply query_stmt. intros s roles s'. destruct (uuid_parse id) as [u|]; [|done].
    intros [= <- <-]. split; [done|]. exists u. split; [done|]. intros r.
    rewrite list_elem_of_In, in_map_iff. split.
    - intros ([a role] & <- & [Hin Hc]%filter_In). simpl in *. bool_to_prop. subst.
      exists role. split_and!; [done|done|by apply list_elem_of_In].
    - intros (role & -> & Hact & Hin). exists (u, role). split; [done|]. apply filter_In.
      split; [by apply list_elem_of_In|]. simpl. by rewrite !bool_decide_true. }
  intros roles. destruct roles as [|r0 roles'].
  { eapply query_weaken; [apply query_ret|]. intros s res -> (u & Hu & Hroles). right. split; [done|].
    intros (_ & u' & role & perm & Hu' & Hact & Has & _). fold id in Hu'. simplify_eq.
    assert (uuid_string role ∈ []) as []%not_elem_of_nil. apply Hroles. eauto. }
  set (roles := r0 :: roles').
  apply (query_bind _ _ (fun s perms => forall p, p ∈ perms <->
    exists role, (role, p) ∈ t_permissions (ps_tables s) /\ uuid_string role ∈ roles)).
  { apply query_stmt. intros s perms s' [= <- <-]. split; [done|]. intros p.
    rewrite list_elem_of_In, in_map_iff. split.
    - intros ([role q] & <- & [Hin Hc]%filter_In). exists role. split; [by apply list_elem_of_In|].
      change (List.existsb (String.eqb (uuid_string role)) roles = true) in Hc.
      apply existsb_exists in Hc as (x & Hx & Heq). apply String.eqb_eq in Heq. rewrite Heq.
      by apply list_elem_of_In.
    - intros (role & Hin & Hrole). exists (role, p). split; [done|]. apply filter_In.
      split; [by apply list_elem_of_In|]. apply (existsb_exists _ roles). exists (uuid_string role).
      split; [by apply list_elem_of_In|apply String.eqb_refl]. }
  intros perms. eapply query_weaken; [apply query_ret|]. intros s res -> Hperms (u & Hu & Hroles).
  assert (Hiff : hasPermission perms (cr_ResourceType req) (cr_Action req) = true <-> rbac_grants (ps_tables s) req).
  { rewrite hasPermission_spec. split.
    - intros (p & (role & Hp & Hin)%Hperms & Hr & Ha). apply Hroles in Hin as (role' & ->%uuid_string_inj & Hact & Has).
      split; [done|]. exists u, role', p. done.
    - intros (_ & u' & role & p & Hu' & Hact & Has & Hp & Hr & Ha). fold id in Hu'. simplify_eq.
      exists p. split; [|done]. apply Hperms. exists role. split; [done|]. apply Hroles. eauto. }
  destruct (hasPermission perms _ _); [left|right]; (split; [done|]); rewrite <- Hiff; done.
Qed.

Lemma evaluateReBAC_spec req w res w' :
  evaluateReBAC req w = (Ok res, w') ->
  w_db w' = w_db w /\
  (Allowed res = true -> rebac_grants (ps_tables (w_db w)) req /\ DenyReason res = "") /\
  (Allowed res = false -> plain_request (ps_tables (w_db w)) req ->
     ~ rebac_grants (ps_tables (w_db w)) req \/ rebac_exceeds (ps_tables (w_db w)) req).
Proof.
  unfold evaluateReBAC. unfold rebac_grants, rebac_exceeds, plain_request, rebac_target.
  destruct (parseNamespaceAndObject _ _) as [namespace objectID].
  destruct (_ || _) eqn:Hinv.
  { rewrite M_ret_run. intros [= <- <-]. split_and!; [done|done|]. intros _ _. left. by intros (? & ? & ? & _). }
  set (relation := actionToRelation _) in *. set (subject := normalizeSubject _).
  destruct (expandReBAC_spec namespace objectID relation subject 20 w) as [Hspec Hdb].
  rewrite M_bind_run. unfold attempt, M_try.
  destruct (expandReBAC namespace objectID relation subject 20 w) as [r w1]. simpl in *.
  assert (Hex : forall P : string -> vertex -> Prop, P namespace (objectID, relation) ->
    exists ns v, Some (namespace, (objectID, relation)) = Some (ns, v) /\ P ns v) by (intros; eauto).
  destruct r as [[]|[]]; simpl in Hspec; intros Hr;
    rewrite ?M_ret_run in Hr; unfold throw in Hr; simplify_eq/=; (split_and!; [done| |]); intros Ha; try done.
  - split; [|done]. by apply Hex.
  - intros Hpl. left. intros (? & ? & [= <- <-] & Hrel).
    destruct (Hpl namespace (objectID, relation) eq_refl) as [? ?]. by apply Hspec.
  - intros _. right. apply Hex. auto.
  - intros _. right. apply Hex. auto.
Qed.

Definition rules_of (db : policy_db) : list ABACRule :=
  sort_by (fun a b => (rule_Priority a <=? rule_Priority b)%Z) (List.filter rule_Enabled (t_abac_rules db)).

Lemma elem_of_rules_of rule db : rule ∈ rules_of db <-> rule ∈ t_abac_rules db /\ rule_Enabled rule = true.
Proof. unfold rules_of. by rewrite sort_by_perm, list_elem_of_In, filter_In, <- list_elem_of_In. Qed.

Lemma ListABACRules_query : query ListABACRules (fun s rules => rules = rules_of (ps_tables s)).
Proof. apply query_stmt. by intros s rules s' [= <- <-]. Qed.

(** A search for a rule, run in a world with a sound cache. *)
Lemma firstMatched_run ctx_ip req effect w r w' :
  cache_ok (w_db w) -> normalizeModel effect = effect ->
  firstMatchedABACRule ctx_ip req (rules_of (ps_tables (w_db w))) effect w = (Ok r, w') ->
  ps_tables (w_db w') = ps_tables (w_db w) /\ cache_ok (w_db w') /\
  match r with
  | Some _ => rule_fires ctx_ip (ps_tables (w_db w)) req effect
  | None => forall rule, rule ∈ t_abac_rules (ps_tables (w_db w)) -> rule_Enabled rule = true ->
      normalizeModel (rule_Effect rule) = effect -> rule_value ctx_ip req rule = Ok false
  end.
Proof.
  intros Hok Heff. unfold firstMatchedABACRule. rewrite Heff. intros Hrun.
  destruct (first_cached ctx_ip req (rules_of (ps_tables (w_db w))) effect w Hok) as (Hr & Ht & _ & Hc).
  rewrite Hrun in Hr, Ht, Hc. simpl in *. split_and!; [done|done|]. destruct r as [name|].
  - symmetry in Hr. apply first_spec_some in Hr as (rule & [Hin Hen]%elem_of_rules_of & He & _ & Hv). exists rule. done.
  - intros rule Hin Hen He. eapply first_spec_none; [by symmetry| |exact He]. by apply elem_of_rules_of.
Qed.

Lemma no_rule_fires ctx_ip db req effect :
  (forall rule, rule ∈ t_abac_rules db -> rule_Enabled rule = true ->
     normalizeModel (rule_Effect rule) = effect -> rule_value ctx_ip req rule = Ok false) ->
  ~ rule_fires ctx_ip db req effect.
Proof. intros Hall (rule & Hin & Hen & He & Hv). rewrite (Hall rule Hin Hen He) in Hv. done. Qed.

(** The specification of a decision. *)
Definition decision_spec (model ctx_ip : string) (db : policy_db) (req : CheckRequest) (res : CheckResponse) : Prop :=
  (Allowed res = true -> granted model ctx_ip db req /\ (model <> "rebac" -> no_deny ctx_ip db req)) /\
  (Allowed res = false -> plain_request db req ->
     model <> "rebac" /\ rule_fires ctx_ip db req "deny" \/ ~ granted model ctx_ip db req \/ rebac_exceeds db req).

Lemma deny_decision model ctx_ip db req name :
  model <> "rebac" -> rule_fires ctx_ip db req "deny" -> decision_spec model ctx_ip db req (abac_deny name).
Proof. intros Hm Hf. split; [done|]. auto. Qed.

Lemma evaluateABACOnly_spec ctx_ip req w res w' :
  cache_ok (w_db w) ->
  evaluateABACOnly ctx_ip req (rules_of (ps_tables (w_db w))) w = (Ok res, w') ->
  decision_spec "abac" ctx_ip (ps_tables (w_db w)) req res /\
  ps_tables (w_db w') = ps_tables (w_db w) /\ cache_ok (w_db w').
Proof.
  intros Hok. unfold evaluateABACOnly. rewrite M_bind_run.
  destruct (firstMatchedABACRule ctx_ip req _ "deny" w) as [[[name|]|e] w1] eqn:Hd; [| |done];
    apply firstMatched_run in Hd as (Ht & Hc & Hdeny); [|done|done| |done|done].
  - intros [= <- <-]. split_and!; [by apply deny_decision|done|done].
  - rewrite <- Ht. rewrite M_bind_run.
    destruct (firstMatchedABACRule ctx_ip req _ "allow" w1) as [[o|e] w2] eqn:Ha; [|done].
    apply firstMatched_run in Ha as (Ht2 & Hc2 & Hallow); [|done|done].
    rewrite <- Ht in Hdeny. rewrite M_ret_run. intros [= <- <-]. split_and!; [|done|done].
    destruct o; (split; [|]); simpl; intros H1; try done.
    + split; [right; left; done|]. intros _. exact Hdeny.
    + intros _. right. left. intros [[? _]|[[_ Hf]|[[? _]|[? _]]]]; try done.
      eapply no_rule_fires; [exact Hallow|exact Hf].
Qed.

Lemma evaluateDefault_spec ctx_ip req w res w' :
  cache_ok (w_db w) -> no_deny ctx_ip (ps_tables (w_db w)) req ->
  evaluateDefault ctx_ip req (rules_of (ps_tables (w_db w))) w = (Ok res, w') ->
  decision_spec "default" ctx_ip (ps_tables (w_db w)) req res /\
  ps_tables (w_db w') = ps_tables (w_db w) /\ cache_ok (w_db w').
Proof.
  intros Hok Hdeny. unfold evaluateDefault. rewrite M_bind_run.
  destruct (evaluateRBAC_query req w) as [Hdb HQ].
  destruct (evaluateRBAC req w) as [[rb|e] w1]; simpl in *; [|done].
  destruct (HQ rb eq_refl) as [[-> Hrb]|[-> Hrb]]; simpl.
  { rewrite M_ret_run. intros [= <- <-]. rewrite Hdb. split_and!; [|done|done].
    split; simpl; [|done]. intros _. split; [|done]. right; right; right. auto. }
  rewrite <- Hdb in *. rewrite M_bind_run.
  destruct (firstMatchedABACRule ctx_ip req _ "allow" w1) as [[[name|]|e] w2] eqn:Ha; [| |done];
    apply firstMatched_run in Ha as (Ht & Hc & Hallow); [|done|done| |done|done].
  { rewrite M_ret_run. intros [= <- <-]. split_and!; [|done|done].
    split; simpl; [|done]. intros _. split; [|done]. right; right; right. auto. }
  rewrite M_bind_run. destruct (evaluateReBAC req w2) as [[rr|e] w3] eqn:Hr; [|done].
  apply evaluateReBAC_spec in Hr as (Hdb3 & Hyes & Hno). rewrite M_ret_run. intros [= <- <-].
  rewrite Hdb3. split_and!; [|done|done]. rewrite Ht in *.
  assert (Hnot : ~ rebac_grants (ps_tables (w_db w1)) req -> ~ granted "default" ctx_ip (ps_tables (w_db w1)) req).
  { intros Hnr [[? _]|[[? _]|[[? _]|[_ [?|[Hf|?]]]]]]; try done. by eapply no_rule_fires. }
  destruct (Allowed rr) eqn:Hal.
  - destruct (Hyes eq_refl) as [Hg Hreason]. rewrite Hreason. simpl. split; simpl; [|done].
    intros _. split; [|done]. right; right; right. auto.
  - assert (Hd : forall res', Allowed res' = false -> decision_spec "default" ctx_ip (ps_tables (w_db w1)) req res').
    { intros res' Hres'. split; [congruence|]. intros _ Hpl. right. destruct (Hno eq_refl Hpl); auto. }
    destruct (String.eqb _ _); by apply Hd.
Qed.

End expansion.

(** ** Concrete decisions *)

Module PolicyWitness.

(** A CEL with the constants only. *)
Definition constant_cel : Cel :=
  {| cel_Ast := bool;
     cel_Compile s := if String.eqb s "true" then Ok true else if String.eqb s "false" then Ok false else Err "syntax";
     cel_output_bool _ := true;
     cel_Program b := Ok (fun _ => Ok (Some b)) |}.
Fixpoint ones (n : nat) : string := match n with O => "" | S k => String "1" (ones k) end.
Lemma ones_length n : String.length (ones n) = n.
Proof. induction n; simpl; congruence. Qed.
Definition ones_value (s : string) : option N :=
  if str_forall (fun c => Ascii.eqb c "1") s then Some (N.of_nat (String.length s)) else None.
Definition ones_ids : UuidText.
Proof.
  refine {| uuid_string n := ones (N.to_nat n); uuid_parse := ones_value |}.
  intros u. unfold ones_value.
  assert (str_forall (fun c => Ascii.eqb c "1") (ones (N.to_nat u)) = true) as ->
    by (induction (N.to_nat u); simpl; auto).
  by rewrite ones_length, N2Nat.id.
Defined.
#[local] Existing Instances constant_cel ones_ids.

Definition tuple (o r s : string) : ReBACTuple :=
  {| tp_Namespace := "doc"; tp_ObjectID := o; tp_Relation := r; tp_SubjectID := s |}.
Definition tables (rules : list ABACRule) (tuples : list ReBACTuple) : policy_db :=
  {| t_pol_roles := []; t_role_assignments := []; t_active_identities := {[2%N]}; t_permissions := [];
     t_abac_rules := rules; t_rebac_tuples := tuples |}.
Definition state (db : policy_db) : policy_state := {| ps_tables := db; ps_cache := ∅ |}.
Definition deny_all : ABACRule :=
  {| rule_Name := "freeze"; rule_Expression := "true"; rule_Priority := 1; rule_Effect := "deny"; rule_Enabled := true |}.
Definition read_doc (model subject : string) : CheckRequest :=
  {| cr_Subject := subject; cr_Resource := "doc:plan"; cr_ResourceType := "doc"; cr_Action := "read";
     cr_Model := model; cr_Context := None |}.
Definition team_tuples : list ReBACTuple :=
  [tuple "plan" "viewer" "team#member"; tuple "team" "member" "user:11"; tuple "team" "member" "team#member"].


(** A caller that asks for the ReBAC model is not subject to deny rules. *)
Example rebac_model_skips_deny_rules :
  let w := World (state (tables [deny_all] team_tuples)) [] in
  Allowed <$> (Check_ None "" (read_doc "default" "user:11") w).1 = Ok false /\
  Allowed <$> (Check_ None "" (read_doc "rebac" "user:11") w).1 = Ok true.
Proof. split; vm_compute; reflexivity. Qed.

(** A subject that is not a UUID makes the default model fail, also when a
    tuple grants the request. *)
Example non_uuid_subject_fails :
  let w := World (state (tables [] [tuple "plan" "viewer" "user:alice"])) [] in
  (Check_ None "" (read_doc "default" "user:alice") w).1 =
    Err (PolicyDb (DbFault "invalid input syntax for type uuid")) /\
  Allowed <$> (Check_ None "" (read_doc "rebac" "user:alice") w).1 = Ok true.
Proof. split; vm_compute; reflexivity. Qed.

(** Two vertices with the same visited key: the second is never expanded. *)
Example colliding_keys_hide_a_vertex :
  let tuples := [tuple "plan" "viewer" "a#b|c"; tuple "plan" "viewer" "a|b#c"; tuple "a|b" "c" "user:11"] in
  Allowed <$> (Check_ None "" (read_doc "rebac" "user:11") (World (state (tables [] tuples)) [])).1 = Ok false.
Proof. vm_compute. reflexivity. Qed.
End PolicyWitness.
