(* ===== verification/ModulePlan.v ===== *)
(** internal/platform/config/module_plan.go: which modules are enabled, the
    order they start in, and the checks of their deployment.

    A Go map is ranged over in any order; a function that ranges over the
    enabled set takes enumerations of it as arguments, and the theorems show
    that they do not matter.  [url.Parse] is a parameter. *)

From Stdlib Require Import Ascii String.
From S2P Require Import Prelude GoStrings PlatformCrypto.

Local Open Scope string_scope.

Inductive ModuleMode : Type := ModuleModeEmbedded | ModuleModeExternal.

Record ModuleDeploymentConfig : Type := {
  dc_Image : string;
  dc_PublicURL : string;
  dc_DatabaseURL : string;
  dc_CACertFile : string;
  dc_ClientCertFile : string;
  dc_ClientKeyFile : string;
  dc_CredentialFile : string;
}.
Definition no_deployment : ModuleDeploymentConfig :=
  {| dc_Image := ""; dc_PublicURL := ""; dc_DatabaseURL := ""; dc_CACertFile := ""; dc_ClientCertFile := "";
     dc_ClientKeyFile := ""; dc_CredentialFile := "" |}.

Record ModuleRoute : Type := { rt_Method : string; rt_Prefix : string }.

(** The migration source, without the embedded file system. *)
Record ResolvedModule : Type := {
  rm_ID : string;
  rm_Mode : ModuleMode;
  rm_Version : string;
  rm_DependsOn : list string;
  rm_MigrationPath : string;
  rm_PublicRoutes : list ModuleRoute;
  rm_InternalPermissions : list string;
  rm_Image : string;
}.

Abbreviation ModulePlan := (list ResolvedModule) (only parsing).

Definition Module_ (p : ModulePlan) (id : string) : option ResolvedModule :=
  List.find (fun m => String.eqb (rm_ID m) id) p.
Definition Enabled (p : ModulePlan) (id : string) : bool :=
  match Module_ p id with Some _ => true | None => false end.

Record moduleDefinition : Type := {
  md_id : string;
  md_mode : ModuleMode;
  md_dependencies : list string;
  md_publicRoutes : list ModuleRoute;
  md_internalPermissions : list string;
}.

Abbreviation catalog := (gmap string moduleDefinition) (only parsing).

Definition any_method (prefix : string) : ModuleRoute := {| rt_Method := "*"; rt_Prefix := prefix |}.
Definition define (id : string) (mode : ModuleMode) (deps : list string) (routes : list ModuleRoute)
    (perms : list string) : string * moduleDefinition :=
  (id, {| md_id := id; md_mode := mode; md_dependencies := deps; md_publicRoutes := routes;
          md_internalPermissions := perms |}).

Definition catalog_entries : list (string * moduleDefinition) :=
  [define "admin" ModuleModeExternal ["core"; "policy"] [any_method "/aegion"] ["admin:manage"];
   define "analytics" ModuleModeExternal ["core"] [any_method "/api/v1/analytics"; any_method "/graphql/analytics"] [];
   define "introspection" ModuleModeExternal ["oauth2"]
     [{| rt_Method := "POST"; rt_Prefix := "/api/v1/introspection/token" |}] ["oauth2:introspect"];
   define "magic_link" ModuleModeEmbedded ["core"] [] [];
   define "mfa" ModuleModeExternal ["core"; "password"] [any_method "/api/v1/self-service/mfa"] ["session:step_up"];
   define "oauth2" ModuleModeExternal ["core"]
     [{| rt_Method := "GET"; rt_Prefix := "/.well-known/openid-configuration" |};
      {| rt_Method := "GET"; rt_Prefix := "/.well-known/jwks.json" |};
      any_method "/oidc/userinfo"; any_method "/oauth2"] ["identity:read"];
   define "passkeys" ModuleModeExternal ["core"] [any_method "/api/v1/self-service/passkeys"] ["session:create"];
   define "password" ModuleModeEmbedded ["core"] [] [];
   define "policy" ModuleModeEmbedded ["core"] [] ["policy:check"];
   define "proxy" ModuleModeExternal ["core"] [] ["proxy:manage"];
   define "social" ModuleModeExternal ["core"] [any_method "/api/v1/self-service/social"] ["identity:provision"];
   define "sso" ModuleModeExternal ["core"] [any_method "/api/v1/self-service/sso"] ["identity:provision"]].
Definition moduleCatalog : catalog := list_to_map catalog_entries.

Inductive plan_error : Type :=
| ErrUnknownModule (id : string)
| ErrRequires (id dependency : string)
| ErrCyclic
| ErrIncompleteRoute (id : string)
| ErrInvalidPrefix (id prefix : string)
| ErrReservedPrefix (id prefix reserved : string)
| ErrRouteClaimed (route : ModuleRoute) (first second : string)
| ErrProduction (id reason : string)
| PlanFuel.

(** ** Dependencies *)

Definition moduleVersionEnabled (version : string) : bool :=
  negb (List.existsb (String.eqb (ToLower (TrimSpace version)))
          [""; "disabled"; "disable"; "off"; "false"; "0"; "none"]).

(** The dependencies of a module but the implicit root. *)
Definition module_deps (cat : catalog) (moduleID : string) : list string :=
  match cat !! moduleID with
  | Some def => List.filter (fun d => negb (String.eqb d "core")) (md_dependencies def)
  | None => []
  end.

Fixpoint first_missing (deps : list string) (enabled : gset string) : option string :=
  match deps with
  | [] => None
  | d :: rest => if bool_decide (d ∈ enabled) then first_missing rest enabled else Some d
  end.
Fixpoint validateEnabledDependencies (cat : catalog) (enum : list string) (enabled : gset string)
    : result plan_error unit :=
  match enum with
  | [] => Ok tt
  | moduleID :: rest =>
      match first_missing (module_deps cat moduleID) enabled with
      | Some dependency => Err (ErrRequires moduleID dependency)
      | None => validateEnabledDependencies cat rest enabled
      end
  end.

(** ** The order of the modules *)

Record degrees : Type := {
  indegree : gmap string Z;
  dependents : gmap string (list string);
}.
Definition degree (g : gmap string Z) (m : string) : Z := default 0%Z (g !! m).
Definition dependents_of (g : degrees) (m : string) : list string := default [] (dependents g !! m).

(** [indegree[moduleID]++] and the append, for one dependency. *)
Definition add_dependency (g : degrees) (e : string * string) : degrees :=
  {| indegree := <[e.1 := (degree (indegree g) e.1 + 1)%Z]> (indegree g);
     dependents := <[e.2 := (dependents_of g e.2 ++ [e.1])%list]> (dependents g) |}.
Definition dependency_pairs (cat : catalog) (enum : list string) : list (string * string) :=
  List.concat (List.map (fun m => List.map (pair m) (module_deps cat m)) enum).
Definition count_degrees (cat : catalog) (enum : list string) : degrees :=
  fold_left add_dependency (dependency_pairs cat enum)
    {| indegree := list_to_map (List.map (fun m => (m, 0%Z)) enum); dependents := ∅ |}.

(** The loop over the dependents of the module just placed. *)
Fixpoint release (ds : list string) (ind : gmap string Z) (ready : list string) : gmap string Z * list string :=
  match ds with
  | [] => (ind, ready)
  | d :: rest =>
      let n := (degree ind d - 1)%Z in
      release rest (<[d := n]> ind) (if (n =? 0)%Z then (ready ++ [d])%list else ready)
  end.

Fixpoint place_modules (fuel : nat) (g : degrees) (ind : gmap string Z) (ready order : list string)
    : option (list string) :=
  match fuel with
  | O => None
  | S fuel' =>
      match ready with
      | [] => Some order
      | moduleID :: ready' =>
          let '(ind', ready'') := release (dependents_of g moduleID) ind ready' in
          place_modules fuel' g ind' (sort_Strings ready'') (order ++ [moduleID])%list
      end
  end.

(** [enum1] enumerates the enabled modules in the second loop, [enum2] in the
    third, which collects the modules without dependencies. *)
Definition orderedEnabledModules (cat : catalog) (enum1 enum2 : list string) : result plan_error (list string) :=
  let g := count_degrees cat enum1 in
  let ready := List.filter (fun m => (degree (indegree g) m =? 0)%Z) enum2 in
  match place_modules (S (length enum1)) g (indegree g) (sort_Strings ready) [] with
  | None => Err PlanFuel
  | Some order => if negb (Nat.eqb (length order) (length enum1)) then Err ErrCyclic else Ok order
  end.

(** ** Routes *)

Definition routeHasPrefix (value prefix : string) : bool :=
  String.eqb value prefix || HasPrefix value (prefix +:+ "/").

Definition routesOverlap (left right : ModuleRoute) : bool :=
  if negb (String.eqb (rt_Method left) "*") && negb (String.eqb (rt_Method right) "*")
     && negb (String.eqb (rt_Method left) (rt_Method right)) then false
  else routeHasPrefix (rt_Prefix left) (rt_Prefix right) || routeHasPrefix (rt_Prefix right) (rt_Prefix left).

Definition validateModuleRoute (moduleID : string) (route : ModuleRoute) : result plan_error unit :=
  if String.eqb (TrimSpace (rt_Method route)) "" || String.eqb (TrimSpace (rt_Prefix route)) ""
  then Err (ErrIncompleteRoute moduleID)
  else if negb (HasPrefix (rt_Prefix route) "/") || Contains (rt_Prefix route) "//"
  then Err (ErrInvalidPrefix moduleID (rt_Prefix route))
  else match List.find (routeHasPrefix (rt_Prefix route)) ["/internal"; "/health"; "/metrics"] with
       | Some reserved => Err (ErrReservedPrefix moduleID (rt_Prefix route) reserved)
       | None => Ok tt
       end.

(** The nested loops of [validateCatalogRoutes] over the routes of the
    definitions, in the order of an enumeration. *)
Fixpoint check_routes (routes seen : list (string * ModuleRoute)) : result plan_error unit :=
  match routes with
  | [] => Ok tt
  | (moduleID, route) :: rest =>
      _ ← validateModuleRoute moduleID route;
      match List.find (fun o => negb (String.eqb o.1 moduleID) && routesOverlap o.2 route) seen with
      | Some existing => Err (ErrRouteClaimed route existing.1 moduleID)
      | None => check_routes rest (seen ++ [(moduleID, route)])%list
      end
  end.
Definition validateCatalogRoutes (enum : list moduleDefinition) : result plan_error unit :=
  check_routes (List.concat (List.map (fun d => List.map (pair (md_id d)) (md_publicRoutes d)) enum)) [].

(** ** Deployment *)

Definition configuredModuleImage (registry moduleID version configured : string) : string :=
  let image := TrimSpace configured in
  if negb (String.eqb image "") then image
  else
    let base := TrimSuffix (TrimSpace registry) "/" in
    let imageName := "aegion/aegion-" +:+ ReplaceChar moduleID "_" "-" in
    let imageName := if negb (String.eqb base "") then base +:+ "/" +:+ imageName else imageName in
    imageName +:+ ":" +:+ version.

Definition isPinnedVersion (version : string) : bool :=
  let version := TrimSpace version in
  negb (String.eqb version "") && negb (EqualFold version "latest") && negb (Contains version "${").

Definition imageMatchesVersion (image version : string) : bool :=
  HasSuffix (TrimSpace image) (":" +:+ TrimSpace version).

Definition isPinnedImage (image : string) : bool :=
  let image := TrimSpace image in
  if String.eqb image "" || Contains image "@sha256:placeholder" then false
  else
    let lastSlash := LastIndex image "/" in
    let lastColon := LastIndex image ":" in
    if (lastColon <=? lastSlash)%Z || (lastColon =? Z.of_nat (String.length image) - 1)%Z then false
    else
      let tag := str_drop (Z.to_nat (lastColon + 1)) image in
      negb (EqualFold tag "latest") && negb (Contains tag "${").

Record parsed_url : Type := { pu_Scheme : string; pu_Host : string; pu_User : bool }.
Class UrlParse := parse_public_url : string -> option parsed_url.

Definition isProductionEnvironment (getenv : string -> string) : bool :=
  List.existsb (fun key => let env := ToLower (TrimSpace (getenv key)) in
                           String.eqb env "production" || String.eqb env "prod")
    ["AEGION_ENV"; "AEGION_ENVIRONMENT"].

Section plan.
Context `{UrlParse}.

Definition blank (s : string) : bool := String.eqb (TrimSpace s) "".

Definition validateProductionDeployment (m : ResolvedModule) (d : ModuleDeploymentConfig) : result plan_error unit :=
  let fail reason := Err (ErrProduction (rm_ID m) reason) in
  if negb (isPinnedVersion (rm_Version m)) then fail "module_versions must be pinned"
  else if negb (imageMatchesVersion (rm_Image m) (rm_Version m)) then fail "image tag must match module_versions"
  else if negb (isPinnedImage (rm_Image m)) then fail "image must be a pinned image reference"
  else if blank (dc_Image d) then fail "image is required"
  else if blank (dc_DatabaseURL d) then fail "database_url is required"
  else if blank (dc_CACertFile d) then fail "ca_cert_file is required"
  else if blank (dc_ClientCertFile d) || blank (dc_ClientKeyFile d) then fail "client_cert_file and client_key_file are required"
  else if blank (dc_CredentialFile d) then fail "credential_file is required"
  else match rm_PublicRoutes m with
       | [] => Ok tt
       | _ =>
           let publicURL := TrimSpace (dc_PublicURL d) in
           if String.eqb publicURL "" then fail "public_url is required"
           else match parse_public_url publicURL with
                | Some u =>
                    if negb (String.eqb (pu_Scheme u) "https") || String.eqb (pu_Host u) "" || pu_User u
                    then fail "public_url must be an absolute https URL" else Ok tt
                | None => fail "public_url must be an absolute https URL"
                end
       end.

(** The fields of the configuration the plan reads. *)
Record Config : Type := {
  cf_ModuleVersions : gmap string string;
  cf_Modules : gmap string ModuleDeploymentConfig;
  cf_RegistryBaseURL : string;
}.

Definition resolved (cfg : Config) (moduleID : string) (def : moduleDefinition) : ResolvedModule :=
  let version := TrimSpace (default "" (cf_ModuleVersions cfg !! moduleID)) in
  {| rm_ID := md_id def; rm_Mode := md_mode def; rm_Version := version; rm_DependsOn := md_dependencies def;
     rm_MigrationPath := moduleID +:+ "/migrations"; rm_PublicRoutes := md_publicRoutes def;
     rm_InternalPermissions := md_internalPermissions def;
     rm_Image := match md_mode def with
                 | ModuleModeExternal =>
                     configuredModuleImage (cf_RegistryBaseURL cfg) (md_id def) version
                       (dc_Image (default no_deployment (cf_Modules cfg !! md_id def)))
                 | ModuleModeEmbedded => ""
                 end |}.

Fixpoint resolve_modules (cfg : Config) (production : bool) (cat : catalog) (order : list string)
    : result plan_error ModulePlan :=
  match order with
  | [] => Ok []
  | moduleID :: rest =>
      match cat !! moduleID with
      | None => Err (ErrUnknownModule moduleID)
      | Some def =>
          let m := resolved cfg moduleID def in
          _ ← match md_mode def with
              | ModuleModeExternal =>
                  if production then validateProductionDeployment m (default no_deployment (cf_Modules cfg !! md_id def))
                  else Ok tt
              | ModuleModeEmbedded => Ok tt
              end;
          plan ← resolve_modules cfg production cat rest;
          Ok (m :: plan)
      end
  end.

(** The first loop: unknown modules are refused. *)
Fixpoint enabled_modules (cat : catalog) (versions : list (string * string)) : result plan_error (list string) :=
  match versions with
  | [] => Ok []
  | (moduleID, version) :: rest =>
      if negb (moduleVersionEnabled version) then enabled_modules cat rest
      else match cat !! moduleID with
           | None => Err (ErrUnknownModule moduleID)
           | Some _ => cons moduleID <$> enabled_modules cat rest
           end
  end.

(** The ranges over the configured versions, the enabled set and the catalogue
    as enumerations: [versions] of the configuration, [e1], [e2], [e3] of the
    enabled set, [defs] of the definitions. *)
Definition ResolveModulePlan (cfg : Config) (production : bool) (versions : list (string * string))
    (enumerate : list string -> nat -> list string) (defs : list moduleDefinition) : result plan_error ModulePlan :=
  enabled ← enabled_modules moduleCatalog versions;
  _ ← validateEnabledDependencies moduleCatalog (enumerate enabled 0%nat) (list_to_set enabled);
  _ ← validateCatalogRoutes defs;
  order ← orderedEnabledModules moduleCatalog (enumerate enabled 1%nat) (enumerate enabled 2%nat);
  resolve_modules cfg production moduleCatalog order.
End plan.
