(* ===== verification/ModulePlanFacts.v ===== *)
(** The start order of [ModulePlan]: the loop of orderedEnabledModules places
    every module after its dependencies, always ends, does not depend on the
    order in which Go ranges over its maps, and fails only on a cycle; and what
    the shipped catalogue makes of it. *)

From Stdlib Require Import Ascii String.
From S2P Require Import Prelude GoStrings PlatformCrypto ModulePlan.

Local Open Scope string_scope.

(** ** Occurrences *)

Definition occ (l : list string) (x : string) : nat := count_occ String.string_dec l x.

Arguments occ : simpl never.

Lemma occ_cons y l x : occ (y :: l) x = (if decide (y = x) then S (occ l x) else occ l x).
Proof. unfold occ; simpl. destruct (String.string_dec y x), (decide (y = x)); congruence. Qed.

Lemma occ_pos l x : (0 < occ l x)%nat <-> x ∈ l.
Proof. rewrite list_elem_of_In. unfold occ. symmetry. apply count_occ_In. Qed.

Lemma occ_app l k x : occ (l ++ k) x = (occ l x + occ k x)%nat.
Proof. apply count_occ_app. Qed.

#[local] Instance occ_perm : Proper ((≡ₚ) ==> (=) ==> (=)) occ.
Proof. intros l k Hp x ? <-. by apply Permutation_count_occ. Qed.

(** ** The loop over the dependents *)

(** [release] lowers the count of a module once per occurrence and adds the
    modules whose count it brings to zero, each once. *)
Lemma release_spec ds : forall ind ready,
  (forall x, x ∈ ds -> Z.of_nat (occ ds x) <= degree ind x)%Z ->
  exists ind' hits,
    release ds ind ready = (ind', ready ++ hits)%list /\
    (forall x, degree ind' x = degree ind x - Z.of_nat (occ ds x))%Z /\
    NoDup hits /\
    (forall x, x ∈ hits <-> x ∈ ds /\ degree ind x = Z.of_nat (occ ds x)).
Proof.
  induction ds as [|d ds IH]; intros ind ready Hle; simpl.
  { exists ind, []. rewrite app_nil_r. unfold occ; simpl.
    split_and!; [done|intros; lia|constructor|set_solver]. }
  set (n := (degree ind d - 1)%Z).
  assert (Hd : forall x, degree (<[d := n]> ind) x = (degree ind x - (if decide (d = x) then 1 else 0))%Z).
  { intros x. unfold degree at 1. destruct (decide (d = x)) as [->|]; [by rewrite lookup_insert_eq|].
    rewrite lookup_insert_ne by done. unfold degree. lia. }
  destruct (IH (<[d := n]> ind) (if (n =? 0)%Z then (ready ++ [d])%list else ready)) as (ind' & hits & -> & Hdeg & Hnd & Hin).
  { intros x Hx. pose proof (Hle x) as Hlx. rewrite occ_cons in Hlx. rewrite Hd.
    destruct (decide (d = x)); [specialize (Hlx ltac:(set_solver)); lia|].
    specialize (Hlx ltac:(set_solver)). lia. }
  pose proof (Hle d ltac:(set_solver)) as Hld. rewrite occ_cons, decide_True in Hld by done.
  assert (Hdeg' : forall x, degree ind' x = (degree ind x - Z.of_nat (occ (d :: ds) x))%Z).
  { intros x. rewrite Hdeg, Hd, occ_cons. destruct (decide (d = x)); lia. }
  assert (Hiff : forall x, x ∈ hits <-> x ∈ ds /\ degree ind x = Z.of_nat (occ (d :: ds) x)).
  { intros x. rewrite Hin, Hd, occ_cons. destruct (decide (d = x)); intuition lia. }
  destruct (n =? 0)%Z eqn:Hn; subst n; [apply Z.eqb_eq in Hn|apply Z.eqb_neq in Hn].
  - exists ind', (d :: hits). rewrite <- app_assoc. split_and!; [done|done| |].
    + constructor; [|done]. rewrite Hiff. intros [Hd' _]. apply occ_pos in Hd'. lia.
    + intros x. rewrite elem_of_cons, Hiff, elem_of_cons.
      destruct (decide (d = x)) as [->|Hne].
      * split; [|by left]. intros _. split; [by left|]. rewrite occ_cons, decide_True by done. lia.
      * split; [intros [->|[? ?]]; [done|auto]|intros [[->|?] ?]; [done|auto]].
  - exists ind', hits. split_and!; [done|done|done|].
    intros x. rewrite Hiff, elem_of_cons.
    destruct (decide (d = x)) as [->|Hne].
    + rewrite occ_cons, decide_True, <- occ_pos by done. split; [intros [? ?]; auto|]. intros [_ ?]. split; [lia|done].
    + split; [intros [? ?]; auto|intros [[->|?] ?]; [done|auto]].
Qed.

(** ** The counts the loop starts with *)

Section kahn.
Context (cat : gmap string moduleDefinition).
Abbreviation deps := (module_deps cat).

Lemma fold_dependencies ps : forall g,
  let g' := fold_left add_dependency ps g in
  (forall m, degree (indegree g') m = degree (indegree g) m + Z.of_nat (occ (List.map fst ps) m))%Z /\
  (forall d, dependents_of g' d
     = dependents_of g d ++ List.map fst (List.filter (fun e => String.eqb e.2 d) ps))%list.
Proof.
  induction ps as [|[m d] ps IH]; intros g; simpl.
  { split; intros; [unfold occ; simpl; lia|by rewrite app_nil_r]. }
  destruct (IH (add_dependency g (m, d))) as [Hdeg Hdep]. split.
  - intros x. rewrite Hdeg, occ_cons. unfold add_dependency, degree at 1; simpl.
    destruct (decide (m = x)) as [->|]; [rewrite lookup_insert_eq; simpl; lia|].
    rewrite lookup_insert_ne by done. unfold degree. lia.
  - intros x. rewrite Hdep. unfold add_dependency, dependents_of at 1; simpl.
    destruct (String.eqb_spec d x) as [->|]; [rewrite lookup_insert_eq; simpl; by rewrite <- app_assoc|].
    by rewrite lookup_insert_ne.
Qed.

Lemma pairs_fst enum m :
  occ (List.map fst (dependency_pairs cat enum)) m = (occ enum m * length (deps m))%nat.
Proof.
  unfold dependency_pairs. induction enum as [|e enum IH]; simpl; [done|].
  rewrite List.map_app, occ_app, IH, List.map_map, occ_cons; simpl.
  assert (Hc : forall l : list string, occ (List.map (fun _ => e) l) m = if decide (e = m) then length l else 0%nat).
  { induction l as [|? l IHl]; [by destruct (decide _)|]; simpl. rewrite occ_cons, IHl. by destruct (decide _). }
  rewrite Hc. destruct (decide (e = m)) as [->|]; lia.
Qed.

Lemma pairs_dependents enum d m :
  occ (List.map fst (List.filter (fun e => String.eqb e.2 d) (dependency_pairs cat enum))) m
  = (occ enum m * occ (deps m) d)%nat.
Proof.
  unfold dependency_pairs. induction enum as [|e enum IH]; simpl; [done|].
  rewrite List.filter_app, List.map_app, occ_app, IH, occ_cons.
  assert (Hc : forall l : list string,
    occ (List.map fst (List.filter (fun p => String.eqb p.2 d) (List.map (pair e) l))) m
    = if decide (e = m) then occ l d else 0%nat).
  { induction l as [|y l IHl]; [by destruct (decide (e = m))|]; simpl. rewrite (occ_cons y).
    destruct (String.eqb_spec y d) as [->|]; simpl; rewrite ?occ_cons, IHl;
      destruct (decide (e = m)); try done; [by rewrite decide_True|by rewrite decide_False]. }
  rewrite Hc. destruct (decide (e = m)) as [->|]; lia.
Qed.

Lemma occ_nodup l x : NoDup l -> occ l x = if decide (x ∈ l) then 1%nat else 0%nat.
Proof.
  intros Hnd%NoDup_ListNoDup. unfold occ. rewrite NoDup_count_occ' in Hnd.
  destruct (decide (x ∈ l)) as [Hx|Hx]; rewrite list_elem_of_In in Hx; [by apply Hnd|].
  by apply count_occ_not_In.
Qed.

Lemma count_degrees_spec E :
  NoDup E ->
  (forall m, m ∈ E -> degree (indegree (count_degrees cat E)) m = Z.of_nat (length (deps m))) /\
  (forall d m, occ (dependents_of (count_degrees cat E) d) m = if decide (m ∈ E) then occ (deps m) d else 0%nat).
Proof.
  intros Hnd. unfold count_degrees.
  edestruct fold_dependencies as [Hdeg Hdep]. split.
  - intros m Hm. rewrite Hdeg, pairs_fst, occ_nodup, decide_True by done. simpl.
    unfold degree. erewrite (elem_of_list_to_map_1 _ m 0%Z); [simpl; lia| |].
    + rewrite <- list_fmap_compose. simpl. rewrite list_fmap_id. done.
    + apply list_elem_of_fmap. eauto.
  - intros d m. rewrite Hdep. unfold dependents_of at 1; simpl. rewrite lookup_empty. simpl.
    rewrite pairs_dependents, occ_nodup by done. destruct (decide _); lia.
Qed.

(** ** The loop *)

(** The dependencies of a module that are not placed yet. *)
Definition waits (order : list string) (m : string) : list string := filter (fun d => d ∉ order) (deps m).

Lemma waits_snoc order m x :
  m ∉ order -> (length (waits order x) = length (waits (order ++ [m]) x) + occ (deps x) m)%nat.
Proof.
  intros Hm. unfold waits. induction (deps x) as [|d l IH]; [done|].
  rewrite !filter_cons, occ_cons. destruct (decide (d = m)) as [->|].
  - rewrite decide_True, decide_False by set_solver. simpl. lia.
  - destruct (decide (d ∉ order)); [rewrite decide_True by set_solver; simpl; lia|].
    rewrite decide_False by set_solver. done.
Qed.

Lemma waits_nil order m d : length (waits order m) = 0%nat -> d ∈ deps m -> d ∈ order.
Proof.
  unfold waits. intros Hw Hd. destruct (decide (d ∈ order)) as [|Hn]; [done|].
  assert (d ∈ filter (fun d => d ∉ order) (deps m)) as Hin by (by apply list_elem_of_filter).
  apply nil_length_inv in Hw. rewrite Hw in Hin. by apply elem_of_nil in Hin.
Qed.

(** Every module comes after its dependencies. *)
Definition dependencies_first (order : list string) : Prop :=
  forall pre m post, order = (pre ++ m :: post)%list -> forall d, d ∈ deps m -> d ∈ pre.

Lemma dependencies_first_snoc order m :
  dependencies_first order -> (forall d, d ∈ deps m -> d ∈ order) -> dependencies_first (order ++ [m]).
Proof.
  intros Ho Hm pre x post Heq d Hd.
  destruct post as [|y post _] using rev_ind; [apply app_inj_tail in Heq as [-> ->]; auto|].
  rewrite app_comm_cons, app_assoc in Heq. apply app_inj_tail in Heq as [-> ->]. eauto.
Qed.

Section loop.
Context (E : list string) (g : degrees).
Hypothesis Hg : forall d m, occ (dependents_of g d) m = if decide (m ∈ E) then occ (deps m) d else 0%nat.

(** What holds each time the loop is at its head. *)
Record placing (ind : gmap string Z) (ready order : list string) : Prop := {
  placing_nodup : NoDup (order ++ ready);
  placing_degree m : m ∈ E -> degree ind m = Z.of_nat (length (waits order m));
  placing_members m : m ∈ (order ++ ready)%list <-> m ∈ E /\ length (waits order m) = 0%nat;
  placing_order : dependencies_first order;
}.

Lemma placing_step ind m ready order :
  placing ind (m :: ready) order ->
  exists ind' hits, release (dependents_of g m) ind ready = (ind', ready ++ hits)%list /\
    placing ind' (ready ++ hits) (order ++ [m]).
Proof.
  intros [Hnd Hdeg Hmem Hord].
  assert ((m ∉ order) /\ (m ∉ ready)) as [Hmo Hmr].
  { apply NoDup_app in Hnd as (_ & Hd & Hr). apply NoDup_cons in Hr as [? _]. split; [|done].
    intros Ho. eapply Hd; [done|left]. }
  assert (Hw := fun x => waits_snoc order m x Hmo).
  assert (Hdep : forall x, x ∈ dependents_of g m <-> x ∈ E /\ m ∈ deps x).
  { intros x. rewrite <- (occ_pos (dependents_of g m)), <- (occ_pos (deps x)), Hg. destruct (decide (x ∈ E)); [tauto|].
    split; [lia|by intros [? _]]. }
  destruct (release_spec (dependents_of g m) ind ready) as (ind' & hits & -> & Hdeg' & Hnd' & Hhits).
  { intros x Hx. apply Hdep in Hx as [Hx _]. rewrite Hg, decide_True, Hdeg, Hw by done. lia. }
  assert (Hhits' : forall x, x ∈ hits <-> x ∈ E /\ (0 < length (waits order x))%nat
                                         /\ length (waits (order ++ [m]) x) = 0%nat).
  { intros x. rewrite Hhits, Hdep, <- (occ_pos (deps x)), Hg. specialize (Hw x).
    destruct (decide (x ∈ E)) as [Hx|Hx]; [rewrite Hdeg by done|split; [intros [[? _] _]|intros [? _]]; done].
    split; [intros [[_ ?] ?]|intros (_ & ? & ?)]; split_and?; try done; lia. }
  exists ind', hits. split; [done|]. split.
  - rewrite <- app_assoc. simpl. rewrite app_comm_cons, (app_assoc order).
    apply NoDup_app. split_and!; [done| |done].
    intros x [_ Hx]%Hmem (_ & Hx' & _)%Hhits'. lia.
  - intros x Hx. rewrite Hdeg', Hdeg, Hg, decide_True, Hw by done. lia.
  - intros x. rewrite <- app_assoc. simpl. rewrite app_comm_cons, app_assoc, elem_of_app, Hmem, Hhits'.
    specialize (Hw x). split; [intros [[? ?]|(? & ? & ?)]; split; try done; lia|].
    intros [Hx Hx']. destruct (decide (length (waits order x) = 0%nat)); [by left|right].
    split_and!; [done|lia|done].
  - apply dependencies_first_snoc; [done|]. intros d. apply waits_nil. apply Hmem. set_solver.
Qed.

Lemma placing_perm ind ready ready' order :
  ready ≡ₚ ready' -> placing ind ready order -> placing ind ready' order.
Proof.
  intros Hp [Hnd Hdeg Hmem Hord].
  split; [by rewrite <- Hp|done| |done]. intros x. rewrite <- Hp. apply Hmem.
Qed.

Lemma placing_bound ind ready order : placing ind ready order -> (length order + length ready <= length E)%nat.
Proof.
  intros [Hnd _ Hmem _]. rewrite <- length_app.
  apply submseteq_length, NoDup_submseteq; [done|]. intros x [? _]%Hmem. done.
Qed.

(** With one more unit of fuel than there are modules the loop ends, with all
    the modules that wait for nothing placed. *)
Lemma place_modules_ends fuel : forall ind ready order,
  placing ind ready order -> (length E < fuel + length order)%nat ->
  exists ind' order', place_modules fuel g ind ready order = Some order' /\ placing ind' [] order'.
Proof.
  induction fuel as [|fuel IH]; intros ind ready order Hp Hf.
  { pose proof (placing_bound _ _ _ Hp). lia. }
  destruct ready as [|m ready]; simpl; [eauto|].
  destruct (placing_step _ _ _ _ Hp) as (ind' & hits & -> & Hp').
  apply IH; [|rewrite length_app; simpl; lia].
  eapply placing_perm; [symmetry; apply sort_Strings_perm|done].
Qed.
End loop.

Definition counts_of (E : list string) (g : degrees) : Prop :=
  forall d m, occ (dependents_of g d) m = if decide (m ∈ E) then occ (deps m) d else 0%nat.

(** The modules ready at a point are determined by those placed. *)
Lemma placing_ready E ind ind' ready ready' order :
  placing E ind ready order -> placing E ind' ready' order -> ready ≡ₚ ready'.
Proof.
  intros [Hnd _ Hmem _] [Hnd' _ Hmem' _]. apply (Permutation_app_inv_l order).
  apply NoDup_Permutation; [done|done|]. intros x. by rewrite Hmem, Hmem'.
Qed.

(** Two runs from the same point agree, whatever the order of the dependents. *)
Lemma place_modules_det E g g' fuel :
  counts_of E g -> counts_of E g' -> forall ind ind' ready order,
  placing E ind ready order -> placing E ind' ready order ->
  place_modules fuel g ind ready order = place_modules fuel g' ind' ready order.
Proof.
  intros Hg Hg'. induction fuel as [|fuel IH]; intros ind ind' ready order Hp Hp'; [done|].
  destruct ready as [|m ready]; simpl; [done|].
  destruct (placing_step E g Hg _ _ _ _ Hp) as (ind1 & hits & -> & Hp1).
  destruct (placing_step E g' Hg' _ _ _ _ Hp') as (ind1' & hits' & -> & Hp1').
  pose proof (placing_ready _ _ _ _ _ _ Hp1 Hp1') as Hready.
  rewrite <- (sort_Strings_of_perm _ _ Hready). apply IH.
  - eapply placing_perm; [symmetry; apply sort_Strings_perm|done].
  - eapply placing_perm; [|exact Hp1']. by rewrite sort_Strings_perm.
Qed.

Lemma placing_start E E2 :
  NoDup E -> E ≡ₚ E2 ->
  placing E (indegree (count_degrees cat E))
    (sort_Strings (List.filter (fun m => (degree (indegree (count_degrees cat E)) m =? 0)%Z) E2)) [].
Proof.
  intros Hnd HE. destruct (count_degrees_spec E Hnd) as [Hdeg _].
  assert (Hw : forall m, waits [] m = deps m).
  { intros m. unfold waits. induction (deps m) as [|d l IH]; [done|].
    rewrite filter_cons, decide_True, IH by apply not_elem_of_nil. done. }
  eapply placing_perm; [symmetry; apply sort_Strings_perm|]. split.
  - apply NoDup_ListNoDup. simpl. apply List.NoDup_filter, NoDup_ListNoDup. by rewrite <- HE.
  - intros m Hm. by rewrite Hw, Hdeg.
  - intros m. simpl. rewrite list_elem_of_In, List.filter_In, <- list_elem_of_In, <- HE, Hw.
    split; intros [Hm H0]; (split; [done|]); rewrite Hdeg, ?Z.eqb_eq in * by done; lia.
  - intros pre m post Heq. by destruct pre.
Qed.

(** A set of modules each of which waits for another one of the set. *)
Definition cyclic (R : list string) : Prop := R <> [] /\ forall m, m ∈ R -> exists d, d ∈ deps m /\ d ∈ R.

(** The dependencies of the enabled modules are enabled. *)
Definition closed (E : list string) : Prop := forall m d, m ∈ E -> d ∈ deps m -> d ∈ E.

Lemma ordered_run E E2 :
  NoDup E -> E ≡ₚ E2 ->
  exists order ind, placing E ind [] order /\
    orderedEnabledModules cat E E2
    = if negb (Nat.eqb (length order) (length E)) then Err ErrCyclic else Ok order.
Proof.
  intros Hnd HE. destruct (count_degrees_spec E Hnd) as [_ Hg].
  destruct (place_modules_ends E _ Hg (S (length E)) _ _ _ (placing_start E E2 Hnd HE)) as (ind & order & Hrun & Hp);
    [simpl; lia|].
  exists order, ind. split; [done|]. unfold orderedEnabledModules. by rewrite Hrun.
Qed.

Lemma placing_of_perm E E' ind ready order : E ≡ₚ E' -> placing E ind ready order -> placing E' ind ready order.
Proof.
  intros HE [Hnd Hdeg Hmem Hord].
  split; [done|intros m Hm; apply Hdeg; by rewrite HE| |done]. intros m. by rewrite Hmem, HE.
Qed.

Lemma counts_of_perm E E' g : E ≡ₚ E' -> counts_of E g -> counts_of E' g.
Proof.
  intros HE Hg d m. rewrite Hg. destruct (decide (m ∈ E)) as [Hm|Hm]; rewrite HE in Hm;
    [by rewrite decide_True|by rewrite decide_False].
Qed.

Lemma ordered_det E E2 E' E2' :
  NoDup E -> E ≡ₚ E2 -> E' ≡ₚ E -> E2' ≡ₚ E ->
  orderedEnabledModules cat E' E2' = orderedEnabledModules cat E E2.
Proof.
  intros Hnd HE HE' HE2'.
  assert (NoDup E') as Hnd' by (by rewrite HE').
  destruct (count_degrees_spec E Hnd) as [_ Hg]. destruct (count_degrees_spec E' Hnd') as [_ Hg'].
  pose proof (placing_start E E2 Hnd HE) as Hp.
  assert (E' ≡ₚ E2') as HEE by (by rewrite HE', HE2').
  pose proof (placing_of_perm _ _ _ _ _ HE' (placing_start E' E2' Hnd' HEE)) as Hp'.
  apply (counts_of_perm _ _ _ HE') in Hg'.
  unfold orderedEnabledModules. rewrite (Permutation_length HE').
  pose proof (placing_ready _ _ _ _ _ _ Hp' Hp) as Hready.
  rewrite !sort_Strings_perm in Hready. apply sort_Strings_of_perm in Hready. rewrite Hready in Hp' |- *.
  by rewrite (place_modules_det E _ _ _ Hg' Hg _ _ _ _ Hp' Hp).
Qed.

Lemma ordered_full E ind order :
  NoDup E -> placing E ind [] order -> length order = length E -> order ≡ₚ E.
Proof.
  intros Hnd [Ho _ Hmem _] Hlen. rewrite app_nil_r in *.
  apply submseteq_length_Permutation; [|lia]. apply NoDup_submseteq; [done|].
  intros x Hx. apply Hmem in Hx. tauto.
Qed.

Lemma stuck_cyclic E ind order :
  NoDup E -> closed E -> placing E ind [] order -> length order <> length E ->
  exists R, R ⊆ E /\ cyclic R.
Proof.
  intros Hnd Hcl [Ho _ Hmem _] Hlen. rewrite app_nil_r in *.
  exists (filter (fun m => m ∉ order) E). split; [intros x [_ Hx]%list_elem_of_filter; done|]. split.
  - intros Hnil. apply Hlen. apply Permutation_length, NoDup_Permutation; [done|done|].
    intros x. split; [by intros [? _]%Hmem|]. intros Hx. destruct (decide (x ∈ order)) as [|Hn]; [done|].
    assert (x ∈ filter (fun m => m ∉ order) E) as Hin by (by apply list_elem_of_filter).
    rewrite Hnil in Hin. by apply not_elem_of_nil in Hin.
  - intros m [Hm HE]%list_elem_of_filter.
    destruct (waits order m) as [|d l] eqn:Hw; [exfalso; apply Hm, Hmem; by rewrite Hw|].
    assert (d ∈ waits order m) as [Hd Hdm]%list_elem_of_filter by (rewrite Hw; left).
    exists d. split; [done|]. apply list_elem_of_filter. eauto.
Qed.

Lemma ordered_acyclic E order R :
  order ≡ₚ E -> dependencies_first order -> R ⊆ E -> cyclic R -> False.
Proof.
  intros Hp Ho HR [Hne Hcy].
  assert (forall pre, (exists post, order = pre ++ post)%list -> forall m, m ∈ pre -> m ∉ R) as Hno.
  { intros pre. induction pre as [|x pre IH] using rev_ind; intros [post Heq] m Hm; [by apply not_elem_of_nil in Hm|].
    assert (forall y, y ∈ pre -> y ∉ R) as IH'.
    { apply IH. exists (x :: post). by rewrite Heq, <- app_assoc. }
    apply elem_of_app in Hm as [?|Hm%list_elem_of_singleton]; [auto|]. subst m. intros HxR.
    destruct (Hcy _ HxR) as (d & Hd & HdR). eapply IH'; [|exact HdR].
    eapply Ho; [|exact Hd]. by rewrite Heq, <- app_assoc. }
  destruct R as [|m R]; [done|]. apply (Hno order) with m; [exists []; by rewrite app_nil_r| |left].
  rewrite Hp. apply HR. left.
Qed.
End kahn.

(** C21: The start order: every enabled module once, each after its dependencies;
    the only failure is a set of modules that wait for each other, the loop
    always ends, and the result does not depend on the order in which Go
    ranges over the enabled set. *)
Theorem startup_order_is_topological (cat : gmap string moduleDefinition) (E1 E2 : list string) :
  NoDup E1 -> E1 ≡ₚ E2 -> closed cat E1 ->
  match orderedEnabledModules cat E1 E2 with
  | Ok order => order ≡ₚ E1 /\ dependencies_first cat order /\ ~ exists R, R ⊆ E1 /\ cyclic cat R
  | Err e => e = ErrCyclic /\ exists R, R ⊆ E1 /\ cyclic cat R
  end /\
  forall E1' E2', E1' ≡ₚ E1 -> E2' ≡ₚ E1 -> orderedEnabledModules cat E1' E2' = orderedEnabledModules cat E1 E2.
Proof.
  intros Hnd HE Hcl. split.
  - destruct (ordered_run cat E1 E2 Hnd HE) as (order & ind & Hp & ->).
    destruct (Nat.eqb_spec (length order) (length E1)) as [Hlen|Hlen]; simpl.
    + pose proof (ordered_full _ _ _ _ Hnd Hp Hlen) as Hfull. pose proof (placing_order _ _ _ _ _ Hp) as Ho.
      split_and!; [done|done|]. intros (R & HR & Hcy). by eapply ordered_acyclic.
    + split; [done|]. by eapply stuck_cyclic.
  - intros E1' E2' H1 H2. by apply ordered_det.
Qed.

(** ** The checks around the order *)

Lemma first_missing_spec ds (enabled : gset string) :
  match first_missing ds enabled with
  | Some d => d ∈ ds /\ (d ∉ enabled)
  | None => forall d, d ∈ ds -> d ∈ enabled
  end.
Proof.
  induction ds as [|d ds IH]; simpl; [set_solver|].
  case_bool_decide; [|set_solver]. destruct (first_missing ds enabled); set_solver.
Qed.

Lemma validate_dependencies_spec cat enum enabled :
  match validateEnabledDependencies cat enum enabled with
  | Ok _ => forall m d, m ∈ enum -> d ∈ module_deps cat m -> d ∈ enabled
  | Err e => exists m d, e = ErrRequires m d /\ m ∈ enum /\ d ∈ module_deps cat m /\ (d ∉ enabled)
  end.
Proof.
  induction enum as [|m enum IH]; simpl; [set_solver|].
  pose proof (first_missing_spec (module_deps cat m) enabled) as Hm.
  destruct (first_missing _ _) as [d|].
  - exists m, d. destruct Hm. split_and!; [done|left|done|done].
  - destruct (validateEnabledDependencies cat enum enabled) as [[]|e].
    + intros x d [->|Hx]%elem_of_cons; eauto.
    + destruct IH as (x & d & ? & ? & ? & ?). exists x, d. split_and!; [done|by right|done|done].
Qed.

Lemma enabled_modules_spec cat versions :
  match enabled_modules cat versions with
  | Ok l => l = List.map fst (List.filter (fun p => moduleVersionEnabled p.2) versions)
            /\ forall m, m ∈ l -> is_Some (cat !! m)
  | Err e => exists m v, e = ErrUnknownModule m /\ (m, v) ∈ versions /\ moduleVersionEnabled v = true /\ cat !! m = None
  end.
Proof.
  induction versions as [|[m v] versions IH]; simpl; [set_solver|].
  assert (Hskip : forall e, (exists m' v', e = ErrUnknownModule m' /\ (m', v') ∈ versions
                              /\ moduleVersionEnabled v' = true /\ cat !! m' = None) ->
            exists m' v', e = ErrUnknownModule m' /\ (m', v') ∈ (m, v) :: versions
                              /\ moduleVersionEnabled v' = true /\ cat !! m' = None).
  { intros e (m' & v' & ? & ? & ?). exists m', v'. split_and!; [done|by right|tauto..]. }
  destruct (moduleVersionEnabled v) eqn:Hv; simpl.
  - destruct (cat !! m) as [def|] eqn:Hm; [|exists m, v; split_and!; [done|left|done|done]].
    destruct (enabled_modules cat versions) as [l|e]; simpl; [|auto].
    destruct IH as [-> Hk]. split; [done|]. intros x [->|Hx]%elem_of_cons; eauto.
  - destruct (enabled_modules cat versions) as [l|e]; auto.
Qed.

Lemma check_routes_ok routes : forall seen,
  (forall r, r ∈ routes -> validateModuleRoute r.1 r.2 = Ok tt) ->
  (forall r o, r ∈ routes -> o ∈ (seen ++ routes)%list -> o.1 <> r.1 -> routesOverlap o.2 r.2 = false) ->
  check_routes routes seen = Ok tt.
Proof.
  induction routes as [|[m r] routes IH]; intros seen Hv Hov; simpl; [done|].
  pose proof (Hv (m, r) ltac:(left)) as Hmr. simpl in Hmr. rewrite Hmr. simpl.
  destruct (List.find _ seen) as [o|] eqn:Hf.
  - apply List.find_some in Hf as [Ho Hb]. apply andb_true_iff in Hb as [Hne Hb].
    enough (routesOverlap o.2 r = false) as Hn by congruence.
    apply (Hov (m, r) o); [left|apply elem_of_app; left; by apply list_elem_of_In|].
    simpl. intros Heq. by rewrite Heq, String.eqb_refl in Hne.
  - apply IH; [intros x Hx; apply Hv; by right|].
    intros x o Hx Ho. apply Hov; [by right|]. rewrite <- app_assoc in Ho. done.
Qed.

(** ** The shipped catalogue *)

Lemma shipped_entry id def : moduleCatalog !! id = Some def -> (id, def) ∈ catalog_entries.
Proof. apply elem_of_list_to_map_2. Qed.

Lemma shipped_ids id def : moduleCatalog !! id = Some def -> md_id def = id.
Proof.
  intros He%shipped_entry. revert He. rewrite list_elem_of_In.
  assert (List.forallb (fun e => String.eqb (md_id e.2) e.1) catalog_entries = true) as Hall by (vm_compute; reflexivity).
  intros He. rewrite List.forallb_forall in Hall. by apply String.eqb_eq, (Hall _ He).
Qed.

(** The dependencies of a shipped module have none themselves. *)
Lemma shipped_depth id d : d ∈ module_deps moduleCatalog id -> module_deps moduleCatalog d = [].
Proof.
  unfold module_deps at 1. destruct (moduleCatalog !! id) as [def|] eqn:He; [|by intros ?%not_elem_of_nil].
  apply shipped_entry, list_elem_of_In in He. rewrite list_elem_of_In. intros Hd.
  assert (List.forallb (fun e => List.forallb (fun d => match module_deps moduleCatalog d with [] => true | _ => false end)
            (List.filter (fun d => negb (String.eqb d "core")) (md_dependencies e.2))) catalog_entries = true) as Hall
    by (vm_compute; reflexivity).
  rewrite List.forallb_forall in Hall. specialize (Hall _ He). rewrite List.forallb_forall in Hall.
  specialize (Hall _ Hd). by destruct (module_deps moduleCatalog d).
Qed.

Lemma shipped_acyclic R : ~ cyclic moduleCatalog R.
Proof.
  intros [Hne Hcy]. destruct R as [|m R]; [done|].
  destruct (Hcy m) as (d & Hd & HdR); [left|]. destruct (Hcy d HdR) as (d' & Hd' & _).
  rewrite (shipped_depth _ _ Hd) in Hd'. by apply not_elem_of_nil in Hd'.
Qed.

Definition shipped_routes (entries : list moduleDefinition) : list (string * ModuleRoute) :=
  List.concat (List.map (fun d => List.map (pair (md_id d)) (md_publicRoutes d)) entries).

Lemma shipped_routes_valid defs :
  defs ≡ₚ List.map snd catalog_entries -> validateCatalogRoutes defs = Ok tt.
Proof.
  intros Hp. unfold validateCatalogRoutes.
  assert (forall r, r ∈ shipped_routes defs -> List.In r (shipped_routes (List.map snd catalog_entries))) as Hin.
  { intros r. rewrite list_elem_of_In. unfold shipped_routes. rewrite !List.in_concat.
    intros (l & Hl & Hr). exists l. split; [|done]. rewrite List.in_map_iff in *.
    destruct Hl as (d & Hd & Hdin). exists d. split; [done|]. rewrite <- list_elem_of_In in *. by rewrite <- Hp. }
  assert (List.forallb (fun r => is_ok (validateModuleRoute r.1 r.2)
            && List.forallb (fun o => String.eqb o.1 r.1 || negb (routesOverlap o.2 r.2))
                 (shipped_routes (List.map snd catalog_entries)))
            (shipped_routes (List.map snd catalog_entries)) = true) as Hall by (vm_compute; reflexivity).
  rewrite List.forallb_forall in Hall. apply check_routes_ok.
  - intros r Hr%Hin. apply Hall, andb_true_iff in Hr as [Hr _].
    destruct (validateModuleRoute r.1 r.2) as [[]|]; done.
  - intros r o Hr%Hin Ho%Hin Hne. apply Hall, andb_true_iff in Hr as [_ Hr].
    rewrite List.forallb_forall in Hr. specialize (Hr _ Ho). apply orb_true_iff in Hr as [Hr|Hr].
    + by apply String.eqb_eq in Hr.
    + by apply negb_true_iff in Hr.
Qed.

(** ** The whole plan *)

Section plan.
Context `{UrlParse}.

Definition deployment_of (cfg : Config) (id : string) : ModuleDeploymentConfig :=
  default no_deployment (cf_Modules cfg !! id).

(** A module runs externally and its deployment does not pass the production
    checks. *)
Definition rejected_in_production (cfg : Config) (id : string) (e : plan_error) : Prop :=
  exists def, moduleCatalog !! id = Some def /\ md_mode def = ModuleModeExternal /\
    validateProductionDeployment (resolved cfg id def) (deployment_of cfg id) = Err e.

Lemma resolve_modules_spec cfg production order :
  (forall m, m ∈ order -> is_Some (moduleCatalog !! m)) ->
  match resolve_modules cfg production moduleCatalog order with
  | Ok plan => List.map rm_ID plan = order /\
      (production = true -> forall m e, m ∈ order -> ~ rejected_in_production cfg m e)
  | Err e => production = true /\ exists m, m ∈ order /\ rejected_in_production cfg m e
  end.
Proof.
  induction order as [|m order IH]; intros Hk; simpl; [set_solver|].
  destruct (Hk m ltac:(left)) as [def Hdef]. rewrite Hdef.
  pose proof (shipped_ids _ _ Hdef) as Hid. rewrite Hid. fold (deployment_of cfg m).
  destruct (match md_mode def with ModuleModeExternal => _ | ModuleModeEmbedded => _ end) as [[]|e] eqn:Hc; simpl.
  - specialize (IH ltac:(intros; apply Hk; by right)).
    destruct (resolve_modules cfg production moduleCatalog order) as [plan|e]; simpl.
    + destruct IH as [<- Hp]. split; [by rewrite Hid|]. intros Hprod x e [->|Hx]%elem_of_cons; [|by apply Hp].
      intros (def' & Hd' & Hm & He). rewrite Hdef in Hd'. injection Hd' as <-. rewrite Hm, Hprod in Hc. congruence.
    + destruct IH as [? (x & ? & ?)]. split; [done|]. exists x. split; [by right|done].
  - destruct (md_mode def) eqn:Hm; [done|]. destruct production; [|done].
    split; [done|]. exists m. split; [left|]. by exists def.
Qed.

Definition enabled_in (cfg : Config) (id : string) : Prop :=
  exists version, cf_ModuleVersions cfg !! id = Some version /\ moduleVersionEnabled version = true.

(** Orders in which Go may range over the maps. *)
Record enumerations (cfg : Config) (versions : list (string * string)) (enumerate : list string -> nat -> list string)
    (defs : list moduleDefinition) : Prop := {
  enum_versions : versions ≡ₚ map_to_list (cf_ModuleVersions cfg);
  enum_enabled l n : enumerate l n ≡ₚ l;
  enum_defs : defs ≡ₚ List.map snd catalog_entries;
}.

Lemma enabled_ids cfg versions :
  versions ≡ₚ map_to_list (cf_ModuleVersions cfg) ->
  let l := List.map fst (List.filter (fun p => moduleVersionEnabled p.2) versions) in
  NoDup l /\ forall id, id ∈ l <-> enabled_in cfg id.
Proof.
  intros Hp l. assert (Hv : forall id v, (id, v) ∈ versions <-> cf_ModuleVersions cfg !! id = Some v).
  { intros id v. by rewrite Hp, elem_of_map_to_list. }
  split.
  - assert (NoDup (List.map fst versions)) as Hnd by (rewrite Hp; apply NoDup_fst_map_to_list).
    clear -Hnd. unfold l. induction versions as [|[k v] vs IH]; simpl; [constructor|].
    apply NoDup_cons in Hnd as [Hk Hnd]. destruct (moduleVersionEnabled v); simpl; [|by apply IH].
    constructor; [|by apply IH]. intros Hin. apply Hk.
    rewrite list_elem_of_In in Hin. rewrite list_elem_of_In. apply List.in_map_iff in Hin as (p & Hfst & [Hin _]%List.filter_In).
    apply List.in_map_iff. by exists p.
  - intros id. unfold l. rewrite list_elem_of_In, List.in_map_iff. split.
    + intros ([k v] & Hk & [Hin He]%List.filter_In). simpl in *. subst k. exists v.
      split; [|done]. by apply Hv, list_elem_of_In.
    + intros (v & Hl & He). exists (id, v). split; [done|]. apply List.filter_In. split; [|done].
      by apply list_elem_of_In, Hv.
Qed.

(** What resolution runs through once the enabled modules are known and
    closed: the order exists and the deployment checks decide. *)
Lemma resolve_enabled cfg production versions enumerate defs :
  enumerations cfg versions enumerate defs ->
  match ResolveModulePlan cfg production versions enumerate defs with
  | Ok plan => exists l,
      enabled_modules moduleCatalog versions = Ok l /\ closed moduleCatalog l /\
      orderedEnabledModules moduleCatalog l l = Ok (List.map rm_ID plan) /\
      resolve_modules cfg production moduleCatalog (List.map rm_ID plan) = Ok plan
  | Err e =>
      (exists id, e = ErrUnknownModule id /\ enabled_in cfg id /\ moduleCatalog !! id = None)
      \/ (exists id d, e = ErrRequires id d /\ enabled_in cfg id /\ d ∈ module_deps moduleCatalog id /\ ~ enabled_in cfg d)
      \/ (production = true /\ exists id, enabled_in cfg id /\ rejected_in_production cfg id e)
  end.
Proof.
  intros [Hv He Hd]. destruct (enabled_ids cfg versions Hv) as [Hnd Hids].
  unfold ResolveModulePlan. pose proof (enabled_modules_spec moduleCatalog versions) as Hen.
  destruct (enabled_modules moduleCatalog versions) as [l|e]; simpl; last first.
  { left. destruct Hen as (m & v & -> & Hin & Hver & Hnone). exists m. split_and!; [done| |done].
    exists v. split; [|done]. by rewrite Hv, elem_of_map_to_list in Hin. }
  destruct Hen as [-> Hk]. set (l := List.map fst _) in *.
  pose proof (validate_dependencies_spec moduleCatalog (enumerate l 0%nat) (list_to_set l)) as Hdeps.
  destruct (validateEnabledDependencies _ _ _) as [[]|e]; simpl; last first.
  { right; left. destruct Hdeps as (m & d & -> & Hm & Hd' & Hnd'). rewrite He in Hm.
    rewrite elem_of_list_to_set in Hnd'. exists m, d. split_and!; [done|by apply Hids|done|by rewrite <- Hids]. }
  rewrite (shipped_routes_valid _ Hd); simpl.
  assert (closed moduleCatalog l) as Hcl.
  { intros m d Hm Hd'. rewrite <- (elem_of_list_to_set (C:=gset string)). eapply Hdeps; [|done]. by rewrite He. }
  rewrite (ordered_det _ l l _ _ Hnd (reflexivity _) (He _ _) (He _ _)).
  destruct (ordered_run moduleCatalog l l Hnd (reflexivity _)) as (order & ind & Hpl & Hrun).
  destruct (Nat.eqb_spec (length order) (length l)) as [Hlen|Hlen]; simpl in Hrun; last first.
  { destruct (stuck_cyclic _ _ _ _ Hnd Hcl Hpl Hlen) as (R & _ & HR). by apply shipped_acyclic in HR. }
  pose proof (ordered_full _ _ _ _ Hnd Hpl Hlen) as Hfull. rewrite Hrun. simpl.
  pose proof (resolve_modules_spec cfg production order ltac:(intros m Hm; apply Hk; by rewrite <- Hfull)) as Hres.
  destruct (resolve_modules cfg production moduleCatalog order) as [plan|e] eqn:Hr.
  - destruct Hres as [Hmap _]. exists l. rewrite Hmap. done.
  - right; right. destruct Hres as [? (m & Hm & ?)]. split; [done|]. exists m. split; [|done].
    apply Hids. by rewrite <- Hfull.
Qed.

Lemma plan_facts cfg production versions l plan :
  versions ≡ₚ map_to_list (cf_ModuleVersions cfg) ->
  enabled_modules moduleCatalog versions = Ok l ->
  orderedEnabledModules moduleCatalog l l = Ok (List.map rm_ID plan) ->
  resolve_modules cfg production moduleCatalog (List.map rm_ID plan) = Ok plan ->
  NoDup (List.map rm_ID plan) /\
  (forall id, id ∈ List.map rm_ID plan <-> enabled_in cfg id) /\
  dependencies_first moduleCatalog (List.map rm_ID plan) /\
  (production = true -> forall id e, enabled_in cfg id -> ~ rejected_in_production cfg id e).
Proof.
  intros Hv Hen Hord Hres. destruct (enabled_ids cfg versions Hv) as [Hnd Hids].
  pose proof (enabled_modules_spec moduleCatalog versions) as Hs. rewrite Hen in Hs. destruct Hs as [Hl Hk].
  rewrite <- Hl in *. destruct (ordered_run moduleCatalog l l Hnd (reflexivity _)) as (order & ind & Hpl & Hrun).
  rewrite Hord in Hrun. destruct (Nat.eqb_spec (length order) (length l)) as [Hlen|Hlen]; simpl in Hrun; [|done].
  injection Hrun as Hrun. rewrite Hrun in *. pose proof (ordered_full _ _ _ _ Hnd Hpl Hlen) as Hfull.
  split_and!; [by rewrite Hfull|intros id; by rewrite Hfull|eapply placing_order; eauto|].
  intros Hprod id e Hid. pose proof (resolve_modules_spec cfg production order) as Hrs. rewrite Hres in Hrs.
  apply Hrs; [intros m Hm; apply Hk; by rewrite <- Hfull|done|]. rewrite Hfull. by apply Hids.
Qed.

Lemma plan_unique cfg production versions l plan versions' enumerate' defs' :
  versions ≡ₚ map_to_list (cf_ModuleVersions cfg) ->
  enabled_modules moduleCatalog versions = Ok l -> closed moduleCatalog l ->
  orderedEnabledModules moduleCatalog l l = Ok (List.map rm_ID plan) ->
  resolve_modules cfg production moduleCatalog (List.map rm_ID plan) = Ok plan ->
  enumerations cfg versions' enumerate' defs' ->
  ResolveModulePlan cfg production versions' enumerate' defs' = Ok plan.
Proof.
  intros Hv Hen Hcl Hord Hres [Hv' He Hd].
  destruct (enabled_ids cfg versions Hv) as [Hnd Hids]. destruct (enabled_ids cfg versions' Hv') as [Hnd' Hids'].
  pose proof (enabled_modules_spec moduleCatalog versions) as Hs. rewrite Hen in Hs. destruct Hs as [Hl Hk].
  rewrite <- Hl in *. unfold ResolveModulePlan. pose proof (enabled_modules_spec moduleCatalog versions') as Hs.
  destruct (enabled_modules moduleCatalog versions') as [l'|e]; simpl; last first.
  { destruct Hs as (m & v & _ & Hin & Hver & Hnone). destruct (Hk m) as [? Hsome]; [|congruence].
    apply Hids. exists v. split; [|done]. by rewrite Hv', elem_of_map_to_list in Hin. }
  destruct Hs as [Hl' _]. rewrite <- Hl' in *.
  assert (l' ≡ₚ l) as Hll by (apply NoDup_Permutation; [done|done|]; intros x; by rewrite Hids, Hids').
  pose proof (validate_dependencies_spec moduleCatalog (enumerate' l' 0%nat) (list_to_set l')) as Hdeps.
  destruct (validateEnabledDependencies _ _ _) as [[]|e]; simpl; last first.
  { destruct Hdeps as (m & d & _ & Hm & Hd' & Hno). rewrite He, Hll in Hm.
    rewrite elem_of_list_to_set, Hll in Hno. by destruct Hno; eapply Hcl. }
  rewrite (shipped_routes_valid _ Hd). simpl.
  rewrite (ordered_det _ l l _ _ Hnd (reflexivity _)), Hord by (by rewrite He). done.
Qed.

(** Resolving the configured modules: the plan holds exactly the enabled
    modules, each once and after its dependencies, and in production only
    with valid deployments; it is the same whatever order Go ranges over its
    maps in; and resolution fails only because an enabled module is unknown,
    lacks an enabled dependency, or is not deployable in production. *)
Theorem module_plan_follows_configuration cfg production versions enumerate defs :
  enumerations cfg versions enumerate defs ->
  match ResolveModulePlan cfg production versions enumerate defs with
  | Ok plan =>
      NoDup (List.map rm_ID plan) /\
      (forall id, id ∈ List.map rm_ID plan <-> enabled_in cfg id) /\
      dependencies_first moduleCatalog (List.map rm_ID plan) /\
      (production = true -> forall id e, enabled_in cfg id -> ~ rejected_in_production cfg id e) /\
      forall versions' enumerate' defs', enumerations cfg versions' enumerate' defs' ->
        ResolveModulePlan cfg production versions' enumerate' defs' = Ok plan
  | Err e =>
      (exists id, e = ErrUnknownModule id /\ enabled_in cfg id /\ moduleCatalog !! id = None)
      \/ (exists id d, e = ErrRequires id d /\ enabled_in cfg id /\ d ∈ module_deps moduleCatalog id /\ ~ enabled_in cfg d)
      \/ (production = true /\ exists id, enabled_in cfg id /\ rejected_in_production cfg id e)
  end.
Proof.
  intros He. pose proof (resolve_enabled _ production _ _ _ He) as Hr.
  destruct (ResolveModulePlan cfg production versions enumerate defs) as [plan|e]; [|done].
  destruct Hr as (l & Hen & Hcl & Hord & Hres).
  pose proof (plan_facts _ _ _ _ _ (enum_versions _ _ _ _ He) Hen Hord Hres) as (Hnd & Hids & Hdf & Hprod).
  split_and!; [done..|]. intros versions' enumerate' defs' He'. exact (plan_unique _ _ _ _ _ _ _ _ (enum_versions _ _ _ _ He) Hen Hcl Hord Hres He').
Qed.
End plan.

(** ** Witnesses *)

Module PlanWitness.
(** Admin with the policy engine it needs, and analytics switched off. *)
Definition cfg : Config :=
  {| cf_ModuleVersions := {[ "admin" := "1.2.0"; "policy" := "1.2.0"; "analytics" := "off" ]};
     cf_Modules := ∅; cf_RegistryBaseURL := "registry.example" |}.
#[local] Instance urls : UrlParse := fun _ => None.

Definition versions : list (string * string) := map_to_list (cf_ModuleVersions cfg).
Definition defs : list moduleDefinition := List.map snd catalog_entries.

Example plan_places_policy_first :
  (List.map rm_ID <$> ResolveModulePlan cfg false versions (fun l _ => List.rev l) defs) = Ok ["policy"; "admin"].
Proof. vm_compute. reflexivity. Qed.

Lemma module_plan_follows_configuration_witness :
  exists plan, ResolveModulePlan cfg false versions (fun l _ => List.rev l) defs = Ok plan /\
    List.map rm_ID plan = ["policy"; "admin"] /\ dependencies_first moduleCatalog (List.map rm_ID plan).
Proof.
  pose proof (module_plan_follows_configuration cfg false versions (fun l _ => List.rev l) defs) as Ht.
  destruct (ResolveModulePlan cfg false versions (fun l _ => List.rev l) defs) as [plan|e] eqn:Hr;
    [|vm_compute in Hr; discriminate].
  exists plan. split; [reflexivity|]. split; [vm_compute in Hr; injection Hr as <-; reflexivity|].
  apply Ht. split; [reflexivity|intros l n; symmetry; apply Permutation_rev|reflexivity].
Defined.

Lemma startup_order_is_topological_witness :
  orderedEnabledModules moduleCatalog ["mfa"; "password"] ["password"; "mfa"] = Ok ["password"; "mfa"] /\
  orderedEnabledModules moduleCatalog ["password"; "mfa"] ["password"; "mfa"]
  = orderedEnabledModules moduleCatalog ["mfa"; "password"] ["password"; "mfa"].
Proof.
  split; [vm_compute; reflexivity|].
  apply (startup_order_is_topological moduleCatalog ["mfa"; "password"] ["password"; "mfa"]).
  - apply (bool_decide_unpack _). vm_compute. exact I.
  - apply perm_swap.
  - intros m d Hm Hd. apply elem_of_cons in Hm as [->|Hm]; [|apply list_elem_of_singleton in Hm as ->].
    + vm_compute in Hd. right. exact Hd.
    + vm_compute in Hd. by apply not_elem_of_nil in Hd.
  - apply perm_swap.
  - apply perm_swap.
Defined.

(** A catalogue with a cycle is refused. *)
Definition looping : gmap string moduleDefinition :=
  list_to_map [define "a" ModuleModeEmbedded ["b"] [] []; define "b" ModuleModeEmbedded ["core"; "a"] [] []].
Example cycle_is_refused : orderedEnabledModules looping ["a"; "b"] ["b"; "a"] = Err ErrCyclic.
Proof. vm_compute. reflexivity. Qed.
End PlanWitness.
