(* ===== verification/Courier.v ===== *)
(** core/courier/courier.go, the queue of emails and text messages over the
    tables of cmd/aegion/migrations/0004_core_courier.up.sql, and
    core/workers/courier_dispatch.go, the worker that empties it.

    Beside the tables the state holds the templates a courier has parsed and
    the calls it has made to the mail server and to the SMS gateway, whose
    answers are a parameter ([Transport]); so are Go's template engines and
    JSON ([CourierEnv], [EventJson]).  [NOW()] is [dbnow].  Error texts of other
    packages are left out of the messages that quote them. *)

From Stdlib Require Import Ascii String.
From S2P Require Import Prelude GoStrings GoEncoding PlatformCrypto GoHttp Flows EventBus.

Local Open Scope string_scope.

(** ** [fmt] of a [time.Duration] *)

Fixpoint pad_zeros (n : nat) (s : string) : string :=
  if (n <=? String.length s)%nat then s else match n with O => s | S n' => "0" +:+ pad_zeros n' s end.
(** The fraction of [u] in units of 10^prec, without trailing zeros. *)
Definition frac_text (u : Z) (prec : nat) : string :=
  let f := (u mod 10 ^ Z.of_nat prec)%Z in
  if (f =? 0)%Z then ""
  else "." +:+ trim_right (Ascii.eqb "0") (pad_zeros prec (FormatInt f)).
Definition Duration_String (d : duration) : string :=
  let u := Z.abs d in
  let scaled prec := FormatInt (u / 10 ^ Z.of_nat prec)%Z +:+ frac_text u prec in
  let text :=
    if (u =? 0)%Z then "0s"
    else if (u <? 1000)%Z then scaled 0%nat +:+ "ns"
    else if (u <? millisecond)%Z then scaled 3%nat +:+ String "194" (String "181" "s")
    else if (u <? second)%Z then scaled 6%nat +:+ "ms"
    else
      let secs := (u / second)%Z in
      let mins := (secs / 60)%Z in
      let hours := (mins / 60)%Z in
      (if (0 <? hours)%Z then FormatInt hours +:+ "h" else "") +:+
      (if (0 <? mins)%Z then FormatInt (mins mod 60) +:+ "m" else "") +:+
      FormatInt (secs mod 60) +:+ frac_text u 9%nat +:+ "s" in
  if (d <? 0)%Z then "-" +:+ text else text.

Example duration_quarter : Duration_String (15 * minute) = "15m0s".
Proof. reflexivity. Qed.
Example duration_fraction : Duration_String (hour + 2500 * millisecond) = "1h0m2.5s".
Proof. reflexivity. Qed.
Example duration_millis : Duration_String (- (1050 * 1000)) = "-1.05ms".
Proof. reflexivity. Qed.

(** ** Messages *)

Abbreviation MessageType := string (only parsing).
Definition MessageTypeEmail : MessageType := "email".
Definition MessageTypeSMS : MessageType := "sms".

Abbreviation MessageStatus := string (only parsing).
Definition StatusQueued : MessageStatus := "queued".
Definition StatusProcessing : MessageStatus := "processing".
Definition StatusSent : MessageStatus := "sent".
Definition StatusFailed : MessageStatus := "failed".
Definition StatusAbandoned : MessageStatus := "abandoned".
Definition StatusCancelled : MessageStatus := "cancelled".

Record Message : Type := {
  ms_ID : uuid;
  ms_Type : MessageType;
  ms_Status : MessageStatus;
  ms_Recipient : string;
  ms_Subject : string;
  ms_Body : string;
  ms_TemplateID : string;
  ms_TemplateData : option (gmap string any);
  ms_IdempotencyKey : string;
  ms_SendAfter : option time;
  ms_IdentityID : option uuid;
  ms_SourceModule : string;
  ms_CreatedAt : time;
  ms_UpdatedAt : time;
}.

Record SMTPConfig : Type := {
  sm_Host : string;
  sm_Port : Z;
  sm_FromAddress : string;
  sm_FromName : string;
  sm_Username : string;
  sm_Password : string;
  sm_AuthEnabled : bool;
}.

(** The headers in the order Go ranges over the map. *)
Record SMSConfig : Type := {
  ss_Enabled : bool;
  ss_URL : string;
  ss_Method : string;
  ss_Headers : list (string * string);
  ss_BodyTemplate : string;
  ss_Timeout : duration;
}.

Record Courier : Type := {
  c_db : bool;
  c_smtp : SMTPConfig;
  c_sms : SMSConfig;
  c_maxRetries : Z;
  c_codeExpiry : duration;
  c_linkExpiry : duration;
}.

Definition New (hasDB : bool) (smtp : SMTPConfig) (sms : SMSConfig) (MaxRetries : Z) (CodeExpiry LinkExpiry : duration)
    : Courier :=
  {| c_db := hasDB; c_smtp := smtp;
     c_sms := {| ss_Enabled := ss_Enabled sms; ss_URL := ss_URL sms;
                 ss_Method := if String.eqb (ss_Method sms) "" then "POST" else ss_Method sms;
                 ss_Headers := ss_Headers sms; ss_BodyTemplate := ss_BodyTemplate sms;
                 ss_Timeout := if (ss_Timeout sms =? 0)%Z then (10 * second)%Z else ss_Timeout sms |};
     c_maxRetries := if (MaxRetries =? 0)%Z then 3%Z else MaxRetries;
     c_codeExpiry := if (CodeExpiry =? 0)%Z then (15 * minute)%Z else CodeExpiry;
     c_linkExpiry := if (LinkExpiry =? 0)%Z then (15 * minute)%Z else LinkExpiry |}.

Inductive courier_error : Type :=
| errCourierDBUnavailable
| CourierErr (msg : string)
| CourierDb (e : db_error).
#[global] Instance courier_dberr : DbErr courier_error := CourierDb.

(** ** Values that go into a header *)

(** [strings.ContainsAny(s, "\r\n")]. *)
Definition contains_newline (s : string) : bool := negb (str_forall (fun c => negb (is_newline c)) s).

Definition sanitizeDeliveryValue (value field : string) (required : bool) : result string string :=
  let normalized := TrimSpace value in
  if contains_newline normalized then Err ("invalid " +:+ field +:+ ": newline characters are not allowed")
  else if required && String.eqb normalized "" then Err ("invalid " +:+ field +:+ ": value is required")
  else Ok normalized.

Definition sanitizeSMTPHeaderValue (value field : string) (required : bool) : result string string :=
  sanitizeDeliveryValue value field required.

Definition set_content (m : Message) (recipient subject body : string) : Message :=
  {| ms_ID := ms_ID m; ms_Type := ms_Type m; ms_Status := ms_Status m; ms_Recipient := recipient;
     ms_Subject := subject; ms_Body := body; ms_TemplateID := ms_TemplateID m; ms_TemplateData := ms_TemplateData m;
     ms_IdempotencyKey := ms_IdempotencyKey m; ms_SendAfter := ms_SendAfter m; ms_IdentityID := ms_IdentityID m;
     ms_SourceModule := ms_SourceModule m; ms_CreatedAt := ms_CreatedAt m; ms_UpdatedAt := ms_UpdatedAt m |}.

Definition prepareMessage (m : Message) : result string Message :=
  recipient ← sanitizeDeliveryValue (ms_Recipient m) "recipient" true;
  subject ← sanitizeDeliveryValue (ms_Subject m) "subject" false;
  let body := TrimSpace (ms_Body m) in
  if String.eqb body "" then Err "invalid body: value is required"
  else Ok (set_content m recipient subject body).

(** ** Options *)

Abbreviation QueueOption := (Message -> Message) (only parsing).

Definition WithTemplate (templateID : string) (data : option (gmap string any)) : QueueOption := fun m =>
  {| ms_ID := ms_ID m; ms_Type := ms_Type m; ms_Status := ms_Status m; ms_Recipient := ms_Recipient m;
     ms_Subject := ms_Subject m; ms_Body := ms_Body m; ms_TemplateID := templateID; ms_TemplateData := data;
     ms_IdempotencyKey := ms_IdempotencyKey m; ms_SendAfter := ms_SendAfter m; ms_IdentityID := ms_IdentityID m;
     ms_SourceModule := ms_SourceModule m; ms_CreatedAt := ms_CreatedAt m; ms_UpdatedAt := ms_UpdatedAt m |}.

Definition with_routing (m : Message) (key : string) (after : option time) (identity : option uuid) (source : string)
    : Message :=
  {| ms_ID := ms_ID m; ms_Type := ms_Type m; ms_Status := ms_Status m; ms_Recipient := ms_Recipient m;
     ms_Subject := ms_Subject m; ms_Body := ms_Body m; ms_TemplateID := ms_TemplateID m;
     ms_TemplateData := ms_TemplateData m; ms_IdempotencyKey := key; ms_SendAfter := after; ms_IdentityID := identity;
     ms_SourceModule := source; ms_CreatedAt := ms_CreatedAt m; ms_UpdatedAt := ms_UpdatedAt m |}.
Definition WithIdempotencyKey (key : string) : QueueOption := fun m =>
  with_routing m key (ms_SendAfter m) (ms_IdentityID m) (ms_SourceModule m).
Definition WithSendAfter (t : time) : QueueOption := fun m =>
  with_routing m (ms_IdempotencyKey m) (Some t) (ms_IdentityID m) (ms_SourceModule m).
Definition WithIdentity (identityID : uuid) : QueueOption := fun m =>
  with_routing m (ms_IdempotencyKey m) (ms_SendAfter m) (Some identityID) (ms_SourceModule m).
Definition WithSource (module_ : string) : QueueOption := fun m =>
  with_routing m (ms_IdempotencyKey m) (ms_SendAfter m) (ms_IdentityID m) module_.

(** ** What the courier calls *)

Record smtp_call : Type := {
  sc_addr : string;
  sc_auth : option (string * string * string);
  sc_from : string;
  sc_to : list string;
  sc_msg : string;
}.
Record http_call : Type := {
  hc_method : string;
  hc_url : string;
  hc_header : header;
  hc_payload : string;
}.
Inductive outcall : Type := SmtpCall (c : smtp_call) | HttpCall (c : http_call).

(** The answer to the n-th call: of the mail server [None] or an error; of the
    gateway a status with the start of its body, or a transport error. *)
Class Transport := {
  smtp_answer : nat -> smtp_call -> option string;
  http_answer : nat -> http_call -> result string (Z * string);
}.

(** html/template and text/template, url.Parse (scheme, host and text of the
    result), the checks of http.NewRequest and json.Marshal of a string. *)
Class CourierEnv := {
  html_template : Type;
  html_Parse : string -> result string html_template;
  html_Execute : html_template -> option (gmap string any) -> result string string;
  text_render : string -> gmap string string -> result string string;
  courier_url_Parse : string -> option (string * string * string);
  http_NewRequest_ok : string -> string -> bool;
  json_string : string -> string;
}.

(** The order in which UPDATE ... RETURNING gives its rows. *)
Class ReturningOrder := {
  returning {A} : list A -> list A;
  returning_perm {A} (l : list A) : returning l ≡ₚ l;
}.

Section courier.
Context `{EventJson} `{CourierEnv} `{Transport} `{ReturningOrder} `{UuidText}.

(** ** Tables and state *)

Record message_row : Type := {
  mr_type : MessageType;
  mr_status : MessageStatus;
  mr_recipient : string;
  mr_subject : option string;
  mr_body : string;
  mr_template_id : option string;
  mr_template_data : option ejson;
  mr_send_count : Z;
  mr_last_error : option string;
  mr_key : option string;
  mr_send_after : option time;
  mr_sent_at : option time;
  mr_identity : option uuid;
  mr_source : option string;
  mr_created : time;
  mr_updated : time;
}.
Record template_row : Type := { tr_subject : option string; tr_body : string }.

(** [cs_identities] are the keys of core_identities; [cs_attempts] is a record
    kept for the statements: which messages were handed to a transport and
    whether it accepted them. *)
Record courier_state : Type := {
  cs_messages : gmap N message_row;
  cs_template_rows : gmap string template_row;
  cs_identities : gset N;
  cs_templates : gmap string html_template;
  cs_subjects : gmap string html_template;
  cs_calls : list outcall;
  cs_attempts : list (uuid * bool);
}.
Definition with_messages (s : courier_state) (ms : gmap N message_row) : courier_state :=
  {| cs_messages := ms; cs_template_rows := cs_template_rows s; cs_identities := cs_identities s;
     cs_templates := cs_templates s; cs_subjects := cs_subjects s; cs_calls := cs_calls s;
     cs_attempts := cs_attempts s |}.
Definition with_templates (s : courier_state) (ts ss : gmap string html_template) : courier_state :=
  {| cs_messages := cs_messages s; cs_template_rows := cs_template_rows s; cs_identities := cs_identities s;
     cs_templates := ts; cs_subjects := ss; cs_calls := cs_calls s; cs_attempts := cs_attempts s |}.
Definition with_calls (s : courier_state) (calls : list outcall) (attempts : list (uuid * bool)) : courier_state :=
  {| cs_messages := cs_messages s; cs_template_rows := cs_template_rows s; cs_identities := cs_identities s;
     cs_templates := cs_templates s; cs_subjects := cs_subjects s; cs_calls := calls; cs_attempts := attempts |}.

Abbreviation CM := (M courier_state courier_error).

(** [execStmt] and [queryRows]. *)
Definition stmt {A} (c : Courier) (q : courier_state -> result db_error (A * courier_state)) : CM A :=
  if c_db c then db_stmt q else throw errCourierDBUnavailable.

(** Steps that touch the courier's own memory and the network, not the database. *)
Definition local {A} (f : courier_state -> A * courier_state) : CM A :=
  fun w => let '(a, s) := f (w_db w) in (Ok a, World s (w_faults w)).

(** ** Queueing *)

Definition row_of_message (m : Message) (data : option ejson) : message_row :=
  {| mr_type := ms_Type m; mr_status := ms_Status m; mr_recipient := ms_Recipient m; mr_subject := Some (ms_Subject m);
     mr_body := ms_Body m; mr_template_id := Some (ms_TemplateID m); mr_template_data := data; mr_send_count := 0;
     mr_last_error := None; mr_key := Some (ms_IdempotencyKey m); mr_send_after := ms_SendAfter m; mr_sent_at := None;
     mr_identity := ms_IdentityID m; mr_source := Some (ms_SourceModule m); mr_created := ms_CreatedAt m;
     mr_updated := ms_UpdatedAt m |}.

Definition valid_type (t : MessageType) : bool := String.eqb t "email" || String.eqb t "sms".
Definition valid_status (st : MessageStatus) : bool :=
  List.existsb (String.eqb st) ["queued"; "processing"; "sent"; "failed"; "abandoned"; "cancelled"].

Definition has_key (ms : gmap N message_row) (key : option string) : bool :=
  match key with
  | None => false
  | Some k => List.existsb (fun p => bool_decide (mr_key p.2 = Some k)) (map_to_list ms)
  end.

(** INSERT ... ON CONFLICT (idempotency_key) DO NOTHING. *)
Definition insert_message (id : uuid) (row : message_row) (s : courier_state) : result db_error (unit * courier_state) :=
  if negb (valid_type (mr_type row)) then Err (CheckViolation "core_courier_messages_type_check")
  else if negb (valid_status (mr_status row)) then Err (CheckViolation "core_courier_messages_status_check")
  else if has_key (cs_messages s) (mr_key row) then Ok (tt, s)
  else if bool_decide (is_Some (cs_messages s !! id)) then Err (UniqueViolation "core_courier_messages_pkey")
  else if match mr_identity row with Some i => negb (bool_decide (i ∈ cs_identities s)) | None => false end
  then Err (ForeignKeyViolation "core_courier_messages_identity_id_fkey")
  else Ok (tt, with_messages s (<[id := row]> (cs_messages s))).

Definition queueMessage (c : Courier) (m : Message) : CM Message :=
  _ ← stmt c (insert_message (ms_ID m) (row_of_message m (map_Marshal (ms_TemplateData m))));
  mret m.

Definition new_message (id : uuid) (t : MessageType) (recipient subject body : string) (now1 now2 : time) : Message :=
  {| ms_ID := id; ms_Type := t; ms_Status := StatusQueued; ms_Recipient := recipient; ms_Subject := subject;
     ms_Body := body; ms_TemplateID := ""; ms_TemplateData := None; ms_IdempotencyKey := ""; ms_SendAfter := None;
     ms_IdentityID := None; ms_SourceModule := ""; ms_CreatedAt := now1; ms_UpdatedAt := now2 |}.

Definition apply_options (m : Message) (opts : list QueueOption) : Message := fold_left (fun m opt => opt m) opts m.

Definition QueueEmail (c : Courier) (recipient subject body : string) (opts : list QueueOption)
    (newID : uuid) (now1 now2 : time) : CM Message :=
  match prepareMessage (new_message newID MessageTypeEmail recipient subject body now1 now2) with
  | Err e => throw (CourierErr e)
  | Ok m => queueMessage c (apply_options m opts)
  end.

Definition QueueSMS (c : Courier) (recipient body : string) (opts : list QueueOption)
    (newID : uuid) (now1 now2 : time) : CM Message :=
  match prepareMessage (new_message newID MessageTypeSMS recipient "" body now1 now2) with
  | Err e => throw (CourierErr e)
  | Ok m => queueMessage c (apply_options m opts)
  end.

(** ** Templates *)

Definition loadTemplate (c : Courier) (templateID : string) : CM unit :=
  if negb (c_db c) then throw (CourierErr ("template not found: " +:+ templateID))
  else
    row ← db_stmt (fun s => Ok (cs_template_rows s !! templateID, s));
    match row with
    | None => throw (CourierErr ("template not found: " +:+ templateID))
    | Some row =>
        match html_Parse (tr_body row) with
        | Err e => throw (CourierErr ("invalid template body: " +:+ e))
        | Ok body =>
            _ ← local (fun s => (tt, with_templates s (<[templateID := body]> (cs_templates s)) (cs_subjects s)));
            match tr_subject row with
            | None => mret tt
            | Some subject =>
                if String.eqb (TrimSpace subject) "" then mret tt
                else match html_Parse subject with
                     | Err e => throw (CourierErr ("invalid template subject: " +:+ e))
                     | Ok t => local (fun s => (tt, with_templates s (cs_templates s) (<[templateID := t]> (cs_subjects s))))
                     end
            end
        end
    end.

Definition execute_template (t : html_template) (data : option (gmap string any)) : CM string :=
  match html_Execute t data with Ok text => mret text | Err e => throw (CourierErr e) end.

Definition renderTemplate (c : Courier) (templateID : string) (data : option (gmap string any)) : CM string :=
  known ← local (fun s => (cs_templates s !! templateID, s));
  _ ← match known with Some _ => mret tt | None => loadTemplate c templateID end;
  found ← local (fun s => (cs_templates s !! templateID, s));
  match found with
  | Some t => execute_template t data
  | None => throw (CourierErr "nil template")
  end.

Definition renderSubjectTemplate (c : Courier) (templateID : string) (data : option (gmap string any)) : CM string :=
  known ← local (fun s => (cs_subjects s !! templateID, s));
  _ ← match known with Some _ => mret tt | None => loadTemplate c templateID end;
  found ← local (fun s => (cs_subjects s !! templateID, s));
  match found with
  | Some t => text ← execute_template t data; mret (TrimSpace text)
  | None => throw (CourierErr ("template subject not found: " +:+ templateID))
  end.

(** ** Sending *)

Definition dquote : string := String "034" "".
Definition crlf : string := String "013" (String "010" "").

Definition smtp_message (from to subject body : string) : string :=
  "From: " +:+ from +:+ crlf +:+
  "To: " +:+ to +:+ crlf +:+
  "Subject: " +:+ subject +:+ crlf +:+
  "MIME-Version: 1.0" +:+ crlf +:+
  "Content-Type: text/html; charset=" +:+ dquote +:+ "utf-8" +:+ dquote +:+ crlf +:+
  crlf +:+ body.

(** The call a courier makes for an email, or the value it refuses. *)
Definition email_call (c : Courier) (to subject body : string) : result string smtp_call :=
  to ← sanitizeDeliveryValue to "recipient" true;
  subject ← sanitizeDeliveryValue subject "subject" false;
  fromAddress ← sanitizeDeliveryValue (sm_FromAddress (c_smtp c)) "from address" true;
  fromName ← sanitizeDeliveryValue (sm_FromName (c_smtp c)) "from name" true;
  let from := fromName +:+ " <" +:+ fromAddress +:+ ">" in
  Ok {| sc_addr := sm_Host (c_smtp c) +:+ ":" +:+ FormatInt (sm_Port (c_smtp c));
        sc_auth := if sm_AuthEnabled (c_smtp c)
                   then Some (sm_Username (c_smtp c), sm_Password (c_smtp c), sm_Host (c_smtp c)) else None;
        sc_from := fromAddress; sc_to := [to]; sc_msg := smtp_message from to subject body |}.

(** [None] is success.  The attempt is recorded for the message [id]. *)
Definition sendEmail (c : Courier) (id : uuid) (to subject body : string) : CM (option string) :=
  match email_call c to subject body with
  | Err e => mret (Some e)
  | Ok call => local (fun s =>
      let answer := smtp_answer (length (cs_calls s)) call in
      (answer, with_calls s (cs_calls s ++ [SmtpCall call]) (cs_attempts s ++ [(id, bool_decide (answer = None))])))
  end.

Definition escapeJSONStringForTemplate (value : string) : string :=
  let encoded := json_string value in
  if (String.length encoded <? 2)%nat then value
  else str_take (String.length encoded - 2) (str_drop 1 encoded).

Definition renderSMSPayload (c : Courier) (to body : string) : result string string :=
  if String.eqb (TrimSpace (ss_BodyTemplate (c_sms c))) ""
  then Ok ("{" +:+ json_string "body" +:+ ":" +:+ json_string body +:+ "," +:+ json_string "to" +:+ ":"
           +:+ json_string to +:+ "}")
  else text_render (ss_BodyTemplate (c_sms c))
         (<["To" := escapeJSONStringForTemplate to]> {[ "Body" := escapeJSONStringForTemplate body ]}).

Fixpoint sms_headers (hs : list (string * string)) (h : header) (contentTypeSet : bool) : result string (header * bool) :=
  match hs with
  | [] => Ok (h, contentTypeSet)
  | (key, value) :: rest =>
      key ← sanitizeDeliveryValue key "sms header name" true;
      value ← sanitizeDeliveryValue value "sms header value" true;
      sms_headers rest (Header_Set h key value) (contentTypeSet || EqualFold key "Content-Type")
  end.

Definition sms_call (c : Courier) (to body : string) : result string http_call :=
  to ← sanitizeDeliveryValue to "recipient" true;
  let trimmedBody := TrimSpace body in
  if String.eqb trimmedBody "" then Err "invalid body: value is required"
  else if negb (ss_Enabled (c_sms c)) then Err "sms delivery is not configured"
  else match courier_url_Parse (TrimSpace (ss_URL (c_sms c))) with
       | None => Err "sms delivery url is invalid"
       | Some (scheme, host, text) =>
           if String.eqb scheme "" || String.eqb host "" then Err "sms delivery url is invalid"
           else
             payload ← renderSMSPayload c to trimmedBody;
             let method := ToUpper (TrimSpace (ss_Method (c_sms c))) in
             if negb (http_NewRequest_ok method text) then Err "invalid request"
             else
               '(h, contentTypeSet) ← sms_headers (ss_Headers (c_sms c)) ∅ false;
               let h := if contentTypeSet : bool then h else Header_Set h "Content-Type" "application/json" in
               Ok {| hc_method := method; hc_url := text; hc_header := h; hc_payload := payload |}
       end.

Definition sms_verdict (answer : result string (Z * string)) : option string :=
  match answer with
  | Err e => Some e
  | Ok (status, body) =>
      if ((status <? 200) || (300 <=? status))%Z
      then Some ("sms delivery failed: status " +:+ FormatInt status +:+ ": " +:+ TrimSpace body) else None
  end.

Definition sendSMS (c : Courier) (id : uuid) (to body : string) : CM (option string) :=
  match sms_call c to body with
  | Err e => mret (Some e)
  | Ok call => local (fun s =>
      let verdict := sms_verdict (http_answer (length (cs_calls s)) call) in
      (verdict, with_calls s (cs_calls s ++ [HttpCall call]) (cs_attempts s ++ [(id, bool_decide (verdict = None))])))
  end.

(** ** The end of an attempt *)

Definition set_delivery (row : message_row) (status : MessageStatus) (count : Z) (err : option string)
    (sentAt : option time) (dbnow : time) : message_row :=
  {| mr_type := mr_type row; mr_status := status; mr_recipient := mr_recipient row; mr_subject := mr_subject row;
     mr_body := mr_body row; mr_template_id := mr_template_id row; mr_template_data := mr_template_data row;
     mr_send_count := count; mr_last_error := err; mr_key := mr_key row; mr_send_after := mr_send_after row;
     mr_sent_at := sentAt; mr_identity := mr_identity row; mr_source := mr_source row; mr_created := mr_created row;
     mr_updated := dbnow |}.

Definition update_message (id : uuid) (f : message_row -> message_row) (s : courier_state)
    : result db_error (unit * courier_state) :=
  Ok (tt, with_messages s (alter f id (cs_messages s))).

Definition sent_row (dbnow : time) (row : message_row) : message_row :=
  set_delivery row "sent" (mr_send_count row) (mr_last_error row) (Some dbnow) dbnow.
Definition markSent (c : Courier) (id : uuid) (dbnow : time) : CM unit :=
  stmt c (update_message id (sent_row dbnow)).

Definition failed_row (max sendCount : Z) (err : string) (dbnow : time) (row : message_row) : message_row :=
  let sendCount := (sendCount + 1)%Z in
  set_delivery row (if (max <=? sendCount)%Z then "abandoned" else "queued") sendCount (Some err) (mr_sent_at row) dbnow.
Definition markFailed (c : Courier) (id : uuid) (sendCount : Z) (err : string) (dbnow : time) : CM unit :=
  stmt c (update_message id (failed_row (c_maxRetries c) sendCount err dbnow)).

(** ** Processing *)

Definition is_due (dbnow : time) (row : message_row) : bool :=
  String.eqb (mr_status row) "queued" &&
  match mr_send_after row with Some t => (t <=? dbnow)%Z | None => true end.

(** SELECT ... ORDER BY created_at LIMIT. *)
Definition due_messages (dbnow : time) (limit : Z) (ms : gmap N message_row) : list (N * message_row) :=
  take (Z.to_nat limit)
    (sort_by (fun a b => (mr_created a.2 <=? mr_created b.2)%Z)
       (List.filter (fun p => is_due dbnow p.2) (map_to_list ms))).

Definition claimed_row (dbnow : time) (row : message_row) : message_row :=
  set_delivery row "processing" (mr_send_count row) (mr_last_error row) (mr_sent_at row) dbnow.

Definition claim (dbnow : time) (limit : Z) (s : courier_state)
    : result db_error (list (N * message_row) * courier_state) :=
  if (limit <? 0)%Z then Err (DbFault "LIMIT must not be negative")
  else
    let due := due_messages dbnow limit (cs_messages s) in
    Ok (returning due,
        with_messages s (fold_left (fun ms p => <[p.1 := claimed_row dbnow p.2]> ms) due (cs_messages s))).

(** The body and subject to send: template errors leave them as they are. *)
Definition render (c : Courier) (row : message_row) (subject templateID : string) (data : option (gmap string any))
    : CM (string * string) :=
  rendered ← attempt (renderTemplate c templateID data);
  let body := match rendered with Ok text => text | Err _ => mr_body row end in
  if String.eqb (mr_type row) MessageTypeEmail && String.eqb (TrimSpace subject) "" then
    renderedSubject ← attempt (renderSubjectTemplate c templateID data);
    mret (match renderedSubject with Ok text => text | Err _ => subject end, body)
  else mret (subject, body).

(** The switch on the type: another type sends nothing and counts as sent. *)
Definition send (c : Courier) (id : uuid) (row : message_row) (subject body : string) : CM (option string) :=
  if String.eqb (mr_type row) MessageTypeEmail then sendEmail c id (mr_recipient row) subject body
  else if String.eqb (mr_type row) MessageTypeSMS then sendSMS c id (mr_recipient row) body
  else mret None.

Definition finish (c : Courier) (id : uuid) (sendCount : Z) (sendErr : option string) (dbnow : time) : CM unit :=
  match sendErr with
  | Some e => markFailed c id sendCount e dbnow
  | None => markSent c id dbnow
  end.

(** One turn of the loop; the result says whether the row is counted. *)
Definition process_message (c : Courier) (id : uuid) (row : message_row) (dbnow : time) : CM bool :=
  match mr_subject row with
  | None => mret false
  | Some subject =>
      let templated := match mr_template_id row with Some t => negb (String.eqb t "") | None => false end in
      if templated then
        let templateID := default "" (mr_template_id row) in
        match mr_template_data row ≫= map_Unmarshal with
        | None =>
            _ ← attempt (E' := courier_error) (markFailed c id (mr_send_count row) "invalid template data" dbnow);
            mret true
        | Some data =>
            '(subject, body) ← render c row subject templateID data;
            sendErr ← send c id row subject body;
            _ ← finish c id (mr_send_count row) sendErr dbnow;
            mret true
        end
      else
        sendErr ← send c id row subject (mr_body row);
        _ ← finish c id (mr_send_count row) sendErr dbnow;
        mret true
  end.

(** [dbnow i] is the database's clock while row [i] is finished. *)
Fixpoint process_messages (c : Courier) (rows : list (N * message_row)) (dbnow : nat -> time) (processed : Z) : CM Z :=
  match rows with
  | [] => mret processed
  | (id, row) :: rest =>
      counted ← process_message c id row (dbnow O);
      process_messages c rest (fun i => dbnow (S i)) (if counted : bool then (processed + 1)%Z else processed)
  end.

(** [broken] is the number of rows read when the connection that returns them
    breaks, if it does: [rows.Err()] then reports it. *)
Definition ProcessQueue (c : Courier) (batchSize : Z) (dbnow : nat -> time) (broken : option nat) : CM Z :=
  let batchSize := if (batchSize =? 0)%Z then 10%Z else batchSize in
  rows ← stmt c (claim (dbnow O) batchSize);
  match broken with
  | None => process_messages c rows (fun i => dbnow (S i)) 0
  | Some n =>
      _ ← process_messages c (take n rows) (fun i => dbnow (S i)) 0;
      throw (CourierErr "rows")
  end.

(** ** Cancelling and cleaning up *)

Definition Cancel (c : Courier) (id : uuid) (dbnow : time) : CM unit :=
  affected ← stmt c (fun s =>
    match cs_messages s !! id with
    | Some row =>
        if String.eqb (mr_status row) "queued"
        then Ok (1%Z, with_messages s (<[id := set_delivery row "cancelled" (mr_send_count row) (mr_last_error row)
                                                (mr_sent_at row) dbnow]> (cs_messages s)))
        else Ok (0%Z, s)
    | None => Ok (0%Z, s)
    end);
  if (affected =? 0)%Z then throw (CourierErr "message not found or not cancelable") else mret tt.

Definition is_old (cutoff : time) (row : message_row) : bool :=
  List.existsb (String.eqb (mr_status row)) ["sent"; "abandoned"; "cancelled"] && (mr_updated row <? cutoff)%Z.
Definition delete_old (cutoff : time) (s : courier_state) : result db_error (Z * courier_state) :=
  let kept := filter (fun '(_, row) => is_old cutoff row = false) (cs_messages s) in
  Ok (Z.of_nat (size (cs_messages s) - size kept), with_messages s kept).

Definition Cleanup (c : Courier) (olderThan : duration) (now : time) : CM Z :=
  stmt c (delete_old (time_add now (- olderThan))).

(** ** The mails of the core *)

Definition nl : string := String "010" "".
Definition tab (n : nat) : string := Nat.iter n (String "009") "".
Definition html_page (lines : list string) : string :=
  nl +:+ tab 2 +:+ "<html>" +:+ nl +:+ tab 2 +:+ "<body>" +:+ nl +:+
  String.concat "" (List.map (fun l => tab 3 +:+ l +:+ nl) lines) +:+
  tab 2 +:+ "</body>" +:+ nl +:+ tab 2 +:+ "</html>" +:+ nl +:+ tab 1.

Definition SendVerificationEmail (c : Courier) (to code_ : string) (identityID newID : uuid) (now1 now2 : time) : CM Message :=
  QueueEmail c to "Verify your email address"
    (html_page ["<h1>Email Verification</h1>";
                "<p>Your verification code is: <strong>" +:+ code_ +:+ "</strong></p>";
                "<p>This code will expire in " +:+ Duration_String (c_codeExpiry c) +:+ ".</p>"])
    [WithIdentity identityID; WithSource "core";
     WithIdempotencyKey ("verify:" +:+ uuid_string identityID +:+ ":" +:+ code_)] newID now1 now2.

Definition SendPasswordResetEmail (c : Courier) (to code_ : string) (identityID newID : uuid) (now1 now2 : time) : CM Message :=
  QueueEmail c to "Reset your password"
    (html_page ["<h1>Password Reset</h1>";
                "<p>Your password reset code is: <strong>" +:+ code_ +:+ "</strong></p>";
                "<p>This code will expire in " +:+ Duration_String (c_codeExpiry c) +:+ ".</p>";
                "<p>If you did not request this, please ignore this email.</p>"])
    [WithIdentity identityID; WithSource "core";
     WithIdempotencyKey ("reset:" +:+ uuid_string identityID +:+ ":" +:+ code_)] newID now1 now2.

Definition SendMagicLinkEmail (c : Courier) (to link code_ : string) (newID : uuid) (now1 now2 : time) : CM Message :=
  QueueEmail c to "Sign in to your account"
    (html_page ["<h1>Sign In</h1>"; "<p>Click the link below to sign in:</p>";
                "<p><a href=" +:+ dquote +:+ link +:+ dquote +:+ ">Sign In</a></p>";
                "<p>Or enter this code: <strong>" +:+ code_ +:+ "</strong></p>";
                "<p>This link will expire in " +:+ Duration_String (c_linkExpiry c) +:+ ".</p>"])
    [WithSource "magic_link"; WithIdempotencyKey ("magic:" +:+ code_)] newID now1 now2.

(** ** The dispatch worker *)

Record CourierDispatchWorker : Type := {
  cw_db : bool;
  cw_courier : option Courier;
  cw_interval : duration;
  cw_batchSize : Z;
  cw_maxRetries : Z;
}.
Definition NewCourierDispatchWorker (hasDB : bool) (courier : option Courier) (Interval : duration)
    (BatchSize MaxRetries : Z) : CourierDispatchWorker :=
  {| cw_db := hasDB; cw_courier := courier;
     cw_interval := if (Interval =? 0)%Z then (30 * second)%Z else Interval;
     cw_batchSize := if (BatchSize =? 0)%Z then 10%Z else BatchSize;
     cw_maxRetries := if (MaxRetries =? 0)%Z then 3%Z else MaxRetries |}.

Definition worker_stmt {A} (w : CourierDispatchWorker) (q : courier_state -> result db_error (A * courier_state)) : CM A :=
  if cw_db w then db_stmt q else throw errCourierDBUnavailable.

Definition unsent_row (max sendCount : Z) (dbnow : time) (row : message_row) : message_row :=
  failed_row max sendCount (if (max <=? sendCount + 1)%Z then "no courier configured" else "retrying") dbnow row.

(** The errors of the updates are ignored. *)
Fixpoint fail_messages (w : CourierDispatchWorker) (rows : list (N * message_row)) (dbnow : nat -> time) : CM unit :=
  match rows with
  | [] => mret tt
  | (id, row) :: rest =>
      let next := fail_messages w rest (fun i => dbnow (S i)) in
      match mr_subject row with
      | None => next
      | Some _ =>
          _ ← attempt (E' := courier_error)
                (worker_stmt w (update_message id (unsent_row (cw_maxRetries w) (mr_send_count row) (dbnow O))));
          next
      end
  end.

Definition processDirectly (w : CourierDispatchWorker) (dbnow : nat -> time) (broken : option nat) : CM unit :=
  rows ← worker_stmt w (claim (dbnow O) (cw_batchSize w));
  match broken with
  | None => fail_messages w rows (fun i => dbnow (S i))
  | Some n => _ ← fail_messages w (take n rows) (fun i => dbnow (S i)); throw (CourierErr "rows")
  end.

Definition dispatch (w : CourierDispatchWorker) (dbnow : nat -> time) (broken : option nat) : CM unit :=
  match cw_courier w with
  | Some c => _ ← ProcessQueue c (cw_batchSize w) dbnow broken; mret tt
  | None => processDirectly w dbnow broken
  end.

Definition CleanupOldMessages (w : CourierDispatchWorker) (olderThan : duration) (now : time) : CM Z :=
  worker_stmt w (delete_old (time_add now (- olderThan))).
End courier.
