(* ===== verification/CourierFacts.v ===== *)
(** Delivery by the courier of [Courier]: under any interleaving of workers,
    failures of the database and crashes a message is accepted by a transport
    at most once and tried a bounded number of times; a queue that is served
    drains; what is stranded stays stranded; and values of a message cannot
    add header lines to a mail. *)

From Stdlib Require Import Ascii String.
From S2P Require Import Prelude GoStrings GoEncoding PlatformCrypto GoHttp Flows EventBus Courier.

Local Open Scope string_scope.

Section facts.
Context `{EventJson} `{CourierEnv} `{Transport} `{ReturningOrder}.

(** ** The courier as a transition system

    A system is the state with the rows that workers hold in memory: a message
    with the count it was claimed with, and, once it was handed to a
    transport, whether it was accepted. *)

Definition held : Type := N * Z * option bool.
Definition system : Type := courier_state * list held.
Definition held_id (h : held) : N := h.1.1.

Lemma held_in h F : h ∈ F -> held_id h ∈ List.map held_id F.
Proof. rewrite !list_elem_of_In. apply List.in_map. Qed.

(** How often a message was handed to a transport, and accepted. *)
Definition tries (s : courier_state) (id : N) : Z :=
  Z.of_nat (length (filter (fun a : N * bool => a.1 = id) (cs_attempts s))).
Definition successes (s : courier_state) (id : N) : Z :=
  Z.of_nat (length (filter (fun a : N * bool => a = (id, true)) (cs_attempts s))).

Lemma successes_le_tries s id : (successes s id <= tries s id)%Z.
Proof.
  unfold successes, tries. induction (cs_attempts s) as [|[i b] l IH]; [done|].
  rewrite !filter_cons. destruct (decide ((i, b) = (id, true))) as [[= -> ->]|].
  - rewrite decide_True by done. simpl. lia.
  - destruct (decide _); simpl; lia.
Qed.

Lemma attempts_snoc s s' i ok id :
  cs_attempts s' = (cs_attempts s ++ [(i, ok)])%list ->
  tries s' id = (tries s id + if decide (i = id) then 1 else 0)%Z /\
  successes s' id = (successes s id + if decide (i = id) then (if ok then 1 else 0) else 0)%Z.
Proof.
  intros Ha. unfold tries, successes. rewrite Ha, !filter_app, !length_app, !filter_cons, !filter_nil. simpl.
  destruct (decide (i = id)) as [->|Hne].
  - destruct ok; [rewrite decide_True by done|rewrite decide_False by done]; simpl; lia.
  - rewrite decide_False by congruence. simpl. lia.
Qed.

Definition cancel_row (id : N) (dbnow : time) (s : courier_state) : courier_state :=
  match cs_messages s !! id with
  | Some row =>
      if String.eqb (mr_status row) "queued"
      then with_messages s (<[id := set_delivery row "cancelled" (mr_send_count row) (mr_last_error row)
                                      (mr_sent_at row) dbnow]> (cs_messages s))
      else s
  | None => s
  end.

Definition same_queue (s s' : courier_state) : Prop :=
  cs_messages s' = cs_messages s /\ cs_attempts s' = cs_attempts s /\ cs_calls s' = cs_calls s.

Inductive courier_step (max : Z) : system -> system -> Prop :=
| StQueue s F id row s' :
    insert_message id row s = Ok (tt, s') -> mr_status row = "queued" -> mr_send_count row = 0%Z -> tries s id = 0%Z ->
    courier_step max (s, F) (s', F)
| StClaim s F t limit rows s' :
    claim t limit s = Ok (rows, s') ->
    courier_step max (s, F) (s', (List.map (fun p => (p.1, mr_send_count p.2, None)) rows ++ F)%list)
| StMemory s F s' : same_queue s s' -> courier_step max (s, F) (s', F)
| StRefuse s F id n F' ok :
    F ≡ₚ (id, n, None) :: F' -> courier_step max (s, F) (s, (id, n, Some ok) :: F')
| StSend s F id n F' ok s' :
    F ≡ₚ (id, n, None) :: F' -> cs_messages s' = cs_messages s ->
    cs_attempts s' = (cs_attempts s ++ [(id, ok)])%list ->
    courier_step max (s, F) (s', (id, n, Some ok) :: F')
| StMarkSent s F id n F' t s' :
    F ≡ₚ (id, n, Some true) :: F' -> update_message id (sent_row t) s = Ok (tt, s') ->
    courier_step max (s, F) (s', F')
| StMarkFailed s F id n r F' m e t s' :
    F ≡ₚ (id, n, r) :: F' -> r = Some false /\ m = max \/ r = None ->
    update_message id (failed_row m n e t) s = Ok (tt, s') ->
    courier_step max (s, F) (s', F')
| StLose s F h F' : F ≡ₚ h :: F' -> courier_step max (s, F) (s, F')
| StCancel s F id t : courier_step max (s, F) (cancel_row id t s, F)
| StCleanup s F cutoff n s' : delete_old cutoff s = Ok (n, s') -> courier_step max (s, F) (s', F).

(** ** What the transitions keep *)

Section invariant.
Context (max : Z).
Definition bound : Z := Z.max 1 max.

Definition held_ok (s : courier_state) (h : held) : Prop :=
  exists row, cs_messages s !! held_id h = Some row /\ mr_status row = "processing" /\ mr_send_count row = h.1.2 /\
    match h.2 with
    | None => (tries s (held_id h) < bound)%Z /\ (tries s (held_id h) <= h.1.2)%Z /\ successes s (held_id h) = 0%Z
    | Some ok => (tries s (held_id h) <= h.1.2 + 1)%Z /\ (ok = false -> successes s (held_id h) = 0%Z)
    end.

Record delivery_inv (y : system) : Prop := {
  inv_nodup : NoDup (List.map held_id y.2);
  inv_held h : h ∈ y.2 -> held_ok y.1 h;
  inv_queued id row : cs_messages y.1 !! id = Some row -> mr_status row = "queued" ->
    (tries y.1 id < bound)%Z /\ (tries y.1 id <= mr_send_count row)%Z /\ successes y.1 id = 0%Z;
  inv_bounds id : (tries y.1 id <= bound)%Z /\ (successes y.1 id <= 1)%Z;
}.

Lemma inv_perm s F F' : F ≡ₚ F' -> delivery_inv (s, F) -> delivery_inv (s, F').
Proof.
  intros Hp [Hn Hh Hq Hb]. simpl in *. split; simpl; [|intros h; rewrite <- Hp; apply Hh|done|done].
  rewrite <- Hp. done.
Qed.

(** Only what concerns the queue matters. *)
Lemma inv_same_queue s s' F : same_queue s s' -> delivery_inv (s, F) -> delivery_inv (s', F).
Proof.
  intros (Hm & Ha & _) [Hn Hh Hq Hb]. simpl in *.
  assert (forall id, tries s' id = tries s id) as Ht by (intros id; unfold tries; by rewrite Ha).
  assert (forall id, successes s' id = successes s id) as Hs by (intros id; unfold successes; by rewrite Ha).
  split; simpl; [done| | |].
  - intros h Hin. destruct (Hh h Hin) as (row & Hr & Hst & Hc & Hx). exists row.
    rewrite Hm, Ht, Hs. done.
  - intros id row. rewrite Hm, Ht, Hs. apply Hq.
  - intros id. rewrite Ht, Hs. apply Hb.
Qed.

(** Rows that the held messages do not point to may change, as long as what
    is queued afterwards was accounted for. *)
Lemma inv_change s F ms :
  delivery_inv (s, F) ->
  (forall h, h ∈ F -> ms !! held_id h = cs_messages s !! held_id h) ->
  (forall id row, ms !! id = Some row -> mr_status row = "queued" ->
     cs_messages s !! id = Some row \/
     (tries s id < bound)%Z /\ (tries s id <= mr_send_count row)%Z /\ successes s id = 0%Z) ->
  delivery_inv (with_messages s ms, F).
Proof.
  intros [Hn Hh Hq Hb] Hsame Hnew. simpl in *. split; simpl; [done| | |done].
  - intros h Hin. destruct (Hh h Hin) as (row & Hr & Hrest). exists row. simpl. by rewrite Hsame.
  - intros id row Hr Hst. destruct (Hnew id row Hr Hst) as [Hold|?]; [by eapply Hq|done].
Qed.

Lemma inv_drop s F h : delivery_inv (s, h :: F) -> delivery_inv (s, F).
Proof.
  intros [Hn Hh Hq Hb]. simpl in *. apply NoDup_cons in Hn as [_ Hn].
  split; simpl; [done|intros x Hx; apply Hh; by right|done|done].
Qed.

(** A message at rest is not held when its row is not being processed. *)
Lemma not_held s F id row :
  delivery_inv (s, F) -> cs_messages s !! id = Some row -> mr_status row <> "processing" ->
  forall h, h ∈ F -> held_id h <> id.
Proof.
  intros Hi Hr Hst h Hin Hid. destruct (inv_held _ Hi h Hin) as (row' & Hr' & Hst' & _).
  rewrite Hid in Hr'. simpl in Hr'. congruence.
Qed.

Lemma inv_queue s F id row s' :
  insert_message id row s = Ok (tt, s') -> mr_status row = "queued" -> mr_send_count row = 0%Z -> tries s id = 0%Z ->
  delivery_inv (s, F) -> delivery_inv (s', F).
Proof.
  intros Hins Hst Hc Ht Hi. unfold insert_message in Hins.
  destruct (negb (valid_type _)); [done|]. destruct (negb (valid_status _)); [done|].
  destruct (has_key _ _); [by injection Hins as <-|]. case_bool_decide as Hn; [done|].
  destruct (match mr_identity row with Some _ => _ | None => _ end); [done|]. injection Hins as <-.
  apply eq_None_not_Some in Hn. apply inv_change; [done| |].
  - intros h Hin. destruct (inv_held _ Hi h Hin) as (row' & Hr' & _). simpl in Hr'.
    apply lookup_insert_ne. congruence.
  - intros id' row' Hr' Hst'. apply lookup_insert_Some in Hr' as [[<- <-]|[_ Hr']]; [right|by left].
    rewrite Hc, Ht. unfold bound. split_and!; [lia|lia|].
    assert (successes s id <= tries s id)%Z as Hle by apply successes_le_tries. unfold successes in *. lia.
Qed.

(** What a claim returns: rows that were queued, each once, now being processed. *)
Lemma claim_spec t limit s rows s' :
  claim t limit s = Ok (rows, s') ->
  exists ms, s' = with_messages s ms /\ NoDup (List.map fst rows) /\
  (forall id row, (id, row) ∈ rows ->
     cs_messages s !! id = Some row /\ is_due t row = true /\ ms !! id = Some (claimed_row t row)) /\
  (forall id, id ∉ List.map fst rows -> ms !! id = cs_messages s !! id).
Proof.
  unfold claim. destruct (limit <? 0)%Z; [done|]. intros [= <- <-].
  set (due := due_messages t limit (cs_messages s)).
  assert (exists rest, sort_by (fun a b => (mr_created a.2 <=? mr_created b.2)%Z)
       (List.filter (fun p => is_due t p.2) (map_to_list (cs_messages s))) = due ++ rest)%list as [rest Hrest].
  { eexists. symmetry. apply take_drop. }
  assert (due ++ rest ≡ₚ List.filter (fun p => is_due t p.2) (map_to_list (cs_messages s)))%list as Hperm.
  { rewrite <- Hrest. apply sort_by_perm. }
  assert (forall id row, (id, row) ∈ due -> cs_messages s !! id = Some row /\ is_due t row = true) as Hin.
  { intros id row Hd. assert ((id, row) ∈ (due ++ rest)%list) as Hd' by (apply elem_of_app; by left).
    rewrite Hperm, list_elem_of_In, List.filter_In, <- list_elem_of_In in Hd'.
    destruct Hd' as [Hd' ?]. by apply elem_of_map_to_list in Hd'. }
  assert (NoDup (List.map fst due)) as Hnd.
  { apply (NoDup_app (List.map fst due) (List.map fst rest)). rewrite <- List.map_app, Hperm.
    apply nodup_filter_fst, NoDup_fst_map_to_list. }
  destruct (fold_insert_spec (fun p : N * message_row => claimed_row t p.2) due (cs_messages s) Hnd) as [Hup Hkeep].
  eexists. split; [done|]. split_and!.
  - by rewrite returning_perm.
  - intros id row. rewrite returning_perm. intros Hd. destruct (Hin _ _ Hd). split_and!; [done|done|].
    apply (Hup (id, row)). done.
  - intros id. rewrite returning_perm. apply Hkeep.
Qed.

Lemma inv_claim s F t limit rows s' :
  claim t limit s = Ok (rows, s') -> delivery_inv (s, F) ->
  delivery_inv (s', List.map (fun p => (p.1, mr_send_count p.2, None)) rows ++ F)%list.
Proof.
  intros (ms & -> & Hnd & Hrows & Hother)%claim_spec Hi.
  assert (forall id row, (id, row) ∈ rows -> forall h, h ∈ F -> held_id h <> id) as Hfree.
  { intros id row Hr. destruct (Hrows _ _ Hr) as (Hm & Hdue & _). eapply not_held; [done|done|].
    apply andb_true_iff in Hdue as [Hst%String.eqb_eq _]. congruence. }
  assert (delivery_inv (with_messages s ms, F)) as Hi'.
  { apply inv_change; [done| |].
    - intros h Hh. apply Hother. intros ([id row] & Hid & Hr%list_elem_of_In)%list_elem_of_In%List.in_map_iff.
      by eapply Hfree.
    - intros id row Hr Hst. left. destruct (decide (id ∈ List.map fst rows)) as [Hin|Hin]; [|by rewrite <- Hother].
      apply list_elem_of_In, List.in_map_iff in Hin as ([id' row'] & <- & Hin%list_elem_of_In).
      destruct (Hrows _ _ Hin) as (_ & _ & Hr'). simpl in Hr. rewrite Hr' in Hr. injection Hr as <-. done. }
  split; simpl.
  - rewrite List.map_app, List.map_map. unfold held_id at 1; simpl. apply NoDup_app.
    split_and!; [done| |apply Hi]. intros id ([id' row] & <- & Hr%list_elem_of_In)%list_elem_of_In%List.in_map_iff Hh.
    apply list_elem_of_In, List.in_map_iff in Hh as (h & Hid & Hh%list_elem_of_In). by eapply Hfree.
  - intros h Hh. apply elem_of_app in Hh as [Hh|Hh]; [|by apply (inv_held _ Hi')].
    apply list_elem_of_In, List.in_map_iff in Hh as ([id row] & <- & Hr%list_elem_of_In).
    destruct (Hrows _ _ Hr) as (Hm & Hdue & Hr'). exists (claimed_row t row). simpl.
    refine (conj _ (conj _ (conj _ _))); [done..|]. eapply (inv_queued _ Hi); [done|].
    by apply andb_true_iff in Hdue as [Hst%String.eqb_eq _].
  - apply (inv_queued _ Hi').
  - apply (inv_bounds _ Hi').
Qed.

Lemma inv_try s F id n ok (s' : courier_state) :
  delivery_inv (s, (id, n, None) :: F) -> cs_messages s' = cs_messages s ->
  cs_attempts s' = (cs_attempts s ++ [(id, ok)])%list -> delivery_inv (s', (id, n, Some ok) :: F).
Proof.
  intros Hi Hm Ha. pose proof (fun i => attempts_snoc s s' id ok i Ha) as Hts.
  destruct (inv_held _ Hi (id, n, None)) as (row & Hr & Hst & Hc & Hlt & Hle & Hs); [left|]. simpl in *.
  pose proof (inv_nodup _ Hi) as Hn. simpl in Hn. apply NoDup_cons in Hn as [Hnin Hn].
  split; simpl.
  - apply NoDup_cons. done.
  - intros h Hh. apply elem_of_cons in Hh as [->|Hh].
    + exists row. simpl. rewrite Hm. unfold held_id in *; simpl in *. destruct (Hts id) as [-> ->].
      rewrite !decide_True by done. split_and!; [done|done|done|lia|]. intros ->. lia.
    + destruct (inv_held _ Hi h) as (row' & Hr' & Hst' & Hc' & Hx); [by right|].
      exists row'. rewrite Hm. destruct (Hts (held_id h)) as [-> ->].
      assert (id <> held_id h) as Hne by (intros Heq; apply Hnin; change (id ∈ List.map held_id F); rewrite Heq; by apply held_in).
      rewrite !decide_False, !Z.add_0_r by done. done.
  - intros i row' Hr' Hst'. rewrite Hm in Hr'. destruct (Hts i) as [-> ->].
    assert (id <> i) as Hne by (intros ->; unfold held_id in *; simpl in *; congruence).
    rewrite !decide_False, !Z.add_0_r by done. by eapply (inv_queued _ Hi).
  - intros i. destruct (Hts i) as [-> ->]. destruct (inv_bounds _ Hi i). simpl in *. unfold held_id in *; simpl in *.
    destruct (decide (id = i)) as [<-|]; [|lia]. destruct ok; lia.
Qed.

Lemma inv_refuse s F id n ok : delivery_inv (s, (id, n, None) :: F) -> delivery_inv (s, (id, n, Some ok) :: F).
Proof.
  intros [Hn Hh Hq Hb]. split; simpl; [done| |done|done]. intros h [->|Hin]%elem_of_cons; [|apply Hh; by right].
  destruct (Hh (id, n, None)) as (row & Hr & Hst & Hc & Hlt & Hle & Hs); [left|]. exists row.
  unfold held_id in *; simpl in *. split_and!; [done|done|done|lia|done].
Qed.

(** The end of an attempt: the row of the message changes and it is released. *)
Lemma inv_release s F id n r (f : message_row -> message_row) :
  delivery_inv (s, (id, n, r) :: F) ->
  (forall row, mr_status (f row) = "queued" ->
     (tries s id < bound)%Z /\ (tries s id <= mr_send_count (f row))%Z /\ successes s id = 0%Z) ->
  delivery_inv (with_messages s (alter f id (cs_messages s)), F).
Proof.
  intros Hi Hf. pose proof (inv_nodup _ Hi) as Hn. simpl in Hn. apply NoDup_cons in Hn as [Hnin _].
  apply inv_change; [by eapply inv_drop| |].
  - intros h Hh. apply lookup_alter_ne. intros Heq.
    apply Hnin. change (id ∈ List.map held_id F). rewrite Heq. by apply held_in.
  - intros i row Hr Hst. apply lookup_alter_Some in Hr as [(<- & row' & Hr & ->)|[_ Hr]]; [right; eauto|by left].
Qed.

Lemma inv_step y y' : courier_step max y y' -> delivery_inv y -> delivery_inv y'.
Proof.
  intros Hstep Hi. destruct Hstep as
    [s F id row s' Hins Hst Hc Ht|s F t limit rows s' Hc|s F s' Hs|s F id n F' ok HF|s F id n F' ok s' HF Hm Ha
    |s F id n F' t s' HF Hu|s F id n r F' m e t s' HF Hr Hu|s F h F' HF|s F id t|s F cutoff n s' Hd].
  - by eapply inv_queue.
  - by eapply inv_claim.
  - by eapply inv_same_queue.
  - apply inv_refuse. by eapply inv_perm.
  - eapply inv_try; [by eapply inv_perm|done|done].
  - injection Hu as <-. eapply inv_release; [by eapply inv_perm|]. by intros row.
  - injection Hu as <-. apply (inv_perm _ _ _ HF) in Hi. eapply inv_release; [done|].
    intros row Hq. destruct (inv_held _ Hi (id, n, r)) as (row' & _ & _ & _ & Hx); [left|].
    unfold held_id in Hx; simpl in *. unfold bound in *.
    destruct (Z.leb_spec m (n + 1)); [done|]. destruct Hr as [[-> ->]| ->].
    + destruct Hx. split_and!; [lia|lia|auto].
    + destruct Hx as (? & ? & ?). split_and!; [lia|lia|done].
  - eapply inv_drop. by eapply inv_perm.
  - unfold cancel_row. destruct (cs_messages s !! id) as [row|] eqn:Hr; [|done].
    destruct (String.eqb_spec (mr_status row) "queued") as [Hst|]; [|done]. apply inv_change; [done| |].
    + intros h Hh. apply lookup_insert_ne. intros Heq. eapply not_held; [exact Hi|exact Hr| |exact Hh|done].
      rewrite Hst. done.
    + intros i row' Hr' Hst'. apply lookup_insert_Some in Hr' as [[<- <-]|[_ Hr']]; [done|by left].
  - injection Hd as _ <-. apply inv_change; [done| |].
    + intros h Hh. destruct (inv_held _ Hi h Hh) as (row & Hr & Hst & _). simpl in Hr. rewrite Hr.
      apply map_lookup_filter_Some. split; [done|]. unfold is_old. by rewrite Hst.
    + intros i row Hr Hst. left. by apply map_lookup_filter_Some in Hr as [? _].
Qed.
End invariant.

(** ** The operations as runs of the system *)

Section operations.
Context (max : Z).
Abbreviation step := (courier_step max).

(** An operation takes the system along its transitions, whatever fails, and
    holds nothing when it returns; [releases l]: so it does with the messages
    [l] that it holds. *)
Definition releases {A} (l : list held) (m : M courier_state courier_error A) : Prop :=
  forall w F, rtc step (w_db w, l ++ F)%list (w_db (m w).2, F).
Abbreviation runs := (releases []).

Lemma lose_all s l F : rtc step (s, l ++ F)%list (s, F).
Proof. induction l as [|h l IH]; simpl; [done|]. eapply rtc_l; [by eapply (StLose max s _ h)|done]. Qed.

Lemma releases_idle {A} l (m : M courier_state courier_error A) :
  (forall w, same_queue (w_db w) (w_db (m w).2)) -> releases l m.
Proof. intros Hm w F. eapply rtc_l; [apply StMemory, Hm|]. apply lose_all. Qed.

Lemma runs_bind {A B} l (m : M courier_state courier_error A) (f : A -> M courier_state courier_error B) :
  runs m -> (forall a, releases l (f a)) -> releases l (m ≫= f).
Proof.
  intros Hm Hf w F. rewrite M_bind_run. specialize (Hm w (l ++ F)%list).
  destruct (m w) as [[a|e] w']; simpl in *; (etrans; [exact Hm|]); [apply Hf|apply lose_all].
Qed.

Lemma releases_bind {A B} l (m : M courier_state courier_error A) (f : A -> M courier_state courier_error B) :
  releases l m -> (forall a, runs (f a)) -> releases l (m ≫= f).
Proof.
  intros Hm Hf w F. rewrite M_bind_run. specialize (Hm w F).
  destruct (m w) as [[a|e] w']; simpl in *; (etrans; [exact Hm|]); [apply (Hf a)|done].
Qed.

Lemma releases_attempt {A} l (m : M courier_state courier_error A) :
  releases l m -> releases l (attempt m : M courier_state courier_error _).
Proof. intros Hm w F. specialize (Hm w F). unfold attempt, M_try. by destruct (m w). Qed.

Lemma runs_ret {A} (a : A) : runs (mret a).
Proof. by intros w F. Qed.
Lemma runs_throw {A} e : runs (throw e : M courier_state courier_error A).
Proof. by intros w F. Qed.

(** A statement that fails leaves the queue alone. *)
Lemma releases_stmt {A} l (b : bool) (q : courier_state -> result db_error (A * courier_state)) :
  (forall s a s' F, q s = Ok (a, s') -> rtc step (s, l ++ F)%list (s', F)) ->
  releases l (if b then db_stmt q else throw errCourierDBUnavailable).
Proof.
  intros Hq w F. destruct b; [|apply lose_all]. destruct (db_stmt q w) as [r w'] eqn:Hs.
  apply db_stmt_cases in Hs as [(a & -> & Hs)|(e & -> & Hs)]; simpl; [by eapply Hq|].
  rewrite Hs. apply lose_all.
Qed.

(** Templates are read and parsed without touching the queue. *)
Definition quiet {A} (m : M courier_state courier_error A) : Prop := forall s0, preserves (same_queue s0) m.

Lemma quiet_local {A} (f : courier_state -> A * courier_state) :
  (forall s, same_queue s (f s).2) -> quiet (local f).
Proof.
  intros Hf s0 w (Hm & Ha & Hc). unfold local. specialize (Hf (w_db w)). destruct (f (w_db w)) as [a s]; simpl in *.
  destruct Hf as (? & ? & ?). split_and!; congruence.
Qed.

Lemma quiet_load c t : quiet (loadTemplate c t).
Proof.
  intros s0. unfold loadTemplate. destruct (c_db c); simpl; [|apply preserves_throw].
  apply preserves_bind; [apply preserves_stmt; by intros s a s' [= <- <-]|]. intros [row|]; [|apply preserves_throw].
  destruct (html_Parse (tr_body row)); [|apply preserves_throw].
  apply preserves_bind; [by apply quiet_local|]. intros _. destruct (tr_subject row) as [subject|]; [|apply preserves_ret].
  destruct (String.eqb _ _); [apply preserves_ret|]. destruct (html_Parse subject); [|apply preserves_throw].
  by apply quiet_local.
Qed.

Lemma quiet_execute t data : quiet (execute_template t data).
Proof. intros s0. unfold execute_template. destruct (html_Execute t data); [apply preserves_ret|apply preserves_throw]. Qed.

Lemma quiet_render c t data : quiet (renderTemplate c t data).
Proof.
  intros s0. unfold renderTemplate. apply preserves_bind; [by apply quiet_local|]. intros known.
  apply preserves_bind; [destruct known; [apply preserves_ret|apply quiet_load]|]. intros _.
  apply preserves_bind; [by apply quiet_local|]. intros [t'|]; [apply quiet_execute|apply preserves_throw].
Qed.

Lemma quiet_subject c t data : quiet (renderSubjectTemplate c t data).
Proof.
  intros s0. unfold renderSubjectTemplate. apply preserves_bind; [by apply quiet_local|]. intros known.
  apply preserves_bind; [destruct known; [apply preserves_ret|apply quiet_load]|]. intros _.
  apply preserves_bind; [by apply quiet_local|]. intros [t'|]; [|apply preserves_throw].
  apply preserves_bind; [apply quiet_execute|]. intros text. apply preserves_ret.
Qed.

Lemma quiet_content c row subject t data : quiet (render c row subject t data).
Proof.
  intros s0. unfold render. apply preserves_bind; [apply preserves_try; [apply quiet_render|intros; apply preserves_ret]|].
  intros body. destruct (_ && _); [|apply preserves_ret].
  apply preserves_bind; [apply preserves_try; [apply quiet_subject|intros; apply preserves_ret]|].
  intros. apply preserves_ret.
Qed.

Lemma runs_quiet {A} (m : M courier_state courier_error A) : quiet m -> runs m.
Proof. intros Hm. apply releases_idle. intros w. by apply Hm. Qed.

(** Handing a message to a transport, and recording the outcome. *)
Lemma send_cases c id row subject body w :
  exists o, (send c id row subject body w).1 = Ok o /\
    let s' := w_db (send c id row subject body w).2 in
    cs_messages s' = cs_messages (w_db w) /\
    (s' = w_db w \/ cs_attempts s' = (cs_attempts (w_db w) ++ [(id, bool_decide (o = None))])%list).
Proof.
  unfold send. destruct (String.eqb _ _).
  - unfold sendEmail. destruct (email_call c _ _ _); simpl; eauto 6.
  - destruct (String.eqb _ _); [|simpl; eauto 6]. unfold sendSMS. destruct (sms_call c _ _); simpl; eauto 6.
Qed.

Lemma finish_releases c id n o t :
  c_maxRetries c = max -> releases [(id, n, Some (bool_decide (o = None)))] (finish c id n o t).
Proof.
  intros Hmax. unfold finish. destruct o as [e|];
    [rewrite bool_decide_false by done|rewrite bool_decide_true by done].
  - apply releases_stmt. intros s [] s' F Hu. simpl. apply rtc_once.
    eapply StMarkFailed; [reflexivity|left; split; [done|exact Hmax]|exact Hu].
  - apply releases_stmt. intros s [] s' F Hu. simpl. apply rtc_once. by eapply StMarkSent.
Qed.

Lemma send_finish_releases c id n row subject body t :
  c_maxRetries c = max ->
  releases [(id, n, None)] (sendErr ← send c id row subject body; _ ← finish c id n sendErr t; mret true).
Proof.
  intros Hmax w F. rewrite M_bind_run. destruct (send_cases c id row subject body w) as (o & Ho & Hm & Hs).
  destruct (send c id row subject body w) as [r w']; simpl in *. subst r.
  assert (step (w_db w, (id, n, None) :: F) (w_db w', (id, n, Some (bool_decide (o = None))) :: F)) as Hstep.
  { destruct Hs as [->|Ha]; [by eapply StRefuse|by eapply StSend]. }
  eapply rtc_l; [exact Hstep|].
  apply (releases_bind [_] (finish c id n o t) (fun _ => mret true) (finish_releases c id n o t Hmax)
           (fun _ => runs_ret true) w' F).
Qed.

Lemma process_message_releases c id row t :
  c_maxRetries c = max -> releases [(id, mr_send_count row, None)] (process_message c id row t).
Proof.
  intros Hmax. unfold process_message. destruct (mr_subject row) as [subject|]; [|by apply releases_idle].
  destruct (match mr_template_id row with Some _ => _ | None => _ end); [|by apply send_finish_releases].
  destruct (mr_template_data row ≫= map_Unmarshal) as [data|].
  - apply runs_bind; [apply runs_quiet, quiet_content|]. intros [subject' body]. by apply send_finish_releases.
  - apply releases_bind; [|intros; apply runs_ret]. apply releases_attempt, releases_stmt.
    intros s [] s' F Hu. simpl. apply rtc_once. eapply StMarkFailed; [reflexivity|by right|exact Hu].
Qed.

Definition hold (rows : list (N * message_row)) : list held :=
  List.map (fun p => (p.1, mr_send_count p.2, None)) rows.

Lemma process_messages_releases c rows : forall t n,
  c_maxRetries c = max -> releases (hold rows) (process_messages c rows t n).
Proof.
  induction rows as [|[id row] rows IH]; intros t n Hmax w F; simpl; [done|].
  rewrite M_bind_run. pose proof (process_message_releases c id row (t O) Hmax w (hold rows ++ F)%list) as Hp.
  destruct (process_message c id row (t O) w) as [[b|e] w']; simpl in *; (etrans; [exact Hp|]); [by apply IH|apply lose_all].
Qed.

(** A part of what was claimed may be forgotten. *)
Lemma releases_prefix {A} l k (m : M courier_state courier_error A) : releases l m -> releases (l ++ k)%list m.
Proof.
  intros Hm w F. rewrite <- app_assoc. etrans; [apply Hm|]. apply lose_all.
Qed.

(** Claiming a batch, then working on it. *)
Lemma claim_then {A} (b : bool) t limit (f : list (N * message_row) -> M courier_state courier_error A) :
  (forall rows, releases (hold rows) (f rows)) ->
  runs (rows ← (if b then db_stmt (claim t limit) else throw errCourierDBUnavailable); f rows).
Proof.
  intros Hf w F. rewrite M_bind_run. simpl. destruct b; [|done].
  destruct (db_stmt (claim t limit) w) as [r w'] eqn:Hs.
  apply db_stmt_cases in Hs as [(rows & -> & Hs)|(e & -> & Hs)]; simpl; [|by rewrite Hs].
  eapply rtc_l; [by eapply StClaim|]. apply Hf.
Qed.

Lemma hold_take n rows : exists k, hold rows = (hold (take n rows) ++ k)%list.
Proof. exists (hold (drop n rows)). unfold hold. by rewrite <- List.map_app, take_drop. Qed.

Lemma process_queue_runs c size t broken : c_maxRetries c = max -> runs (ProcessQueue c size t broken).
Proof.
  intros Hmax. unfold ProcessQueue, stmt. apply claim_then. intros rows. destruct broken as [n|].
  - destruct (hold_take n rows) as [k ->]. apply releases_prefix, releases_bind; [|intros; apply runs_throw].
    by apply process_messages_releases.
  - by apply process_messages_releases.
Qed.

Lemma fail_messages_releases wk rows : forall t, releases (hold rows) (fail_messages wk rows t).
Proof.
  induction rows as [|[id row] rows IH]; intros t; simpl; [apply runs_ret|].
  destruct (mr_subject row).
  - intros w F. pose proof (releases_attempt [(id, mr_send_count row, None)]
      (worker_stmt wk (update_message id (unsent_row (cw_maxRetries wk) (mr_send_count row) (t O))))) as Ha.
    rewrite M_bind_run. specialize (Ha ltac:(apply releases_stmt; intros s0 [] s1 G Hu; simpl; apply rtc_once;
      eapply StMarkFailed; [reflexivity|by right|exact Hu]) w (hold rows ++ F)%list).
    destruct (attempt _ w) as [[b|e] w']; simpl in *; (etrans; [exact Ha|]); [by apply IH|apply lose_all].
  - intros w F. eapply rtc_l; [eapply (StLose max (w_db w) _ (id, mr_send_count row, None) (hold rows ++ F)%list); reflexivity|].
    by apply IH.
Qed.

Lemma process_directly_runs wk t broken : runs (processDirectly wk t broken).
Proof.
  unfold processDirectly, worker_stmt. apply claim_then. intros rows. destruct broken as [n|].
  - destruct (hold_take n rows) as [k ->]. apply releases_prefix, releases_bind; [|intros; apply runs_throw].
    apply fail_messages_releases.
  - apply fail_messages_releases.
Qed.

Lemma cancel_runs c id t : runs (Cancel c id t).
Proof.
  unfold Cancel, stmt. apply runs_bind; [|intros n; destruct (n =? 0)%Z; [apply runs_throw|apply runs_ret]].
  apply releases_stmt. intros s a s' F Hq. apply rtc_once. pose proof (StCancel max s F id t) as Hc.
  unfold cancel_row in Hc. destruct (cs_messages s !! id); [|by simplify_eq]. destruct (String.eqb _ _); by simplify_eq.
Qed.

Lemma cleanup_runs (b : bool) cutoff : runs (if b then db_stmt (delete_old cutoff) else throw errCourierDBUnavailable).
Proof. apply releases_stmt. intros s n s' F Hd. apply rtc_once. by eapply StCleanup. Qed.
End operations.

Lemma stranded_step max y z id row n :
  courier_step max y z -> mr_status row = "processing" ->
  cs_messages y.1 !! id = Some row -> tries y.1 id = n -> id ∉ List.map held_id y.2 ->
  cs_messages z.1 !! id = Some row /\ tries z.1 id = n /\ (id ∉ List.map held_id z.2).
Proof.
  intros Hstep Hst Hm Ht Hn.
  assert (forall F h F', F ≡ₚ h :: F' -> id ∉ List.map held_id F -> id <> held_id h /\ (id ∉ List.map held_id F')) as Hperm.
  { intros F h F' Hp Hid. rewrite Hp in Hid. simpl in Hid. by apply not_elem_of_cons in Hid. }
  destruct Hstep as
    [s F i r s' Hins Hs Hc Hf|s F t limit rows s' Hc|s F s' (Hs1 & Hs2 & _)|s F i n' F' ok HF|s F i n' F' ok s' HF Hm' Ha
    |s F i n' F' t s' HF Hu|s F i n' r F' m e t s' HF Hr Hu|s F h F' HF|s F i t|s F cutoff n' s' Hd]; simpl in *.
  - unfold insert_message in Hins.
    destruct (negb (valid_type _)); [done|]. destruct (negb (valid_status _)); [done|].
    destruct (has_key _ _); [by injection Hins as <-|]. case_bool_decide as Hx; [done|].
    destruct (match mr_identity r with Some _ => _ | None => _ end); [done|]. injection Hins as <-.
    simpl. rewrite lookup_insert_ne; [done|]. intros ->. apply Hx. eauto.
  - apply claim_spec in Hc as (ms & -> & _ & Hrows & Hother). simpl.
    assert (id ∉ List.map fst rows) as Hid.
    { intros ([i r] & <- & Hin%list_elem_of_In)%list_elem_of_In%List.in_map_iff.
      destruct (Hrows _ _ Hin) as (Hm' & Hdue & _). simpl in *. rewrite Hm in Hm'. injection Hm' as <-.
      apply andb_true_iff in Hdue as [Hq%String.eqb_eq _]. congruence. }
    split_and!; [by rewrite Hother|done|]. rewrite List.map_app, List.map_map. unfold held_id at 1; simpl.
    by apply not_elem_of_app.
  - unfold tries. by rewrite Hs1, Hs2.
  - destruct (Hperm _ _ _ HF Hn). split_and!; [done|done|]. by apply not_elem_of_cons.
  - destruct (Hperm _ _ _ HF Hn) as [Hne ?]. unfold held_id in Hne; simpl in Hne.
    destruct (attempts_snoc s s' i ok id Ha) as [-> _]. rewrite decide_False by done.
    split_and!; [by rewrite Hm'|lia|]. apply not_elem_of_cons. done.
  - destruct (Hperm _ _ _ HF Hn) as [Hne ?]. injection Hu as <-. simpl. by rewrite lookup_alter_ne.
  - destruct (Hperm _ _ _ HF Hn) as [Hne ?]. injection Hu as <-. simpl. by rewrite lookup_alter_ne.
  - destruct (Hperm _ _ _ HF Hn). done.
  - unfold cancel_row. destruct (cs_messages s !! i) as [r|] eqn:Hi; [|done].
    destruct (String.eqb_spec (mr_status r) "queued"); [|done]. simpl. rewrite lookup_insert_ne; [done|]. congruence.
  - injection Hd as _ <-. simpl. split_and!; [|done|done]. apply map_lookup_filter_Some. split; [done|].
    unfold is_old. by rewrite Hst.
Qed.

(** ** Requests *)

Inductive courier_op : Type :=
| OpQueueEmail (recipient subject body : string) (opts : list QueueOption) (newID : uuid) (now1 now2 : time)
| OpQueueSMS (recipient body : string) (opts : list QueueOption) (newID : uuid) (now1 now2 : time)
| OpProcess (batchSize : Z) (dbnow : nat -> time) (broken : option nat)
| OpDispatch (wk : CourierDispatchWorker) (dbnow : nat -> time) (broken : option nat)
| OpCancel (id : uuid) (dbnow : time)
| OpCleanup (olderThan : duration) (now : time)
| OpCleanupOld (wk : CourierDispatchWorker) (olderThan : duration) (now : time).

Definition discard {A} (m : M courier_state courier_error A) : M courier_state courier_error unit := _ ← m; mret tt.

Definition serve (c : Courier) (op : courier_op) : M courier_state courier_error unit :=
  match op with
  | OpQueueEmail recipient subject body opts id t1 t2 => discard (QueueEmail c recipient subject body opts id t1 t2)
  | OpQueueSMS recipient body opts id t1 t2 => discard (QueueSMS c recipient body opts id t1 t2)
  | OpProcess size t broken => discard (ProcessQueue c size t broken)
  | OpDispatch wk t broken => dispatch wk t broken
  | OpCancel id t => Cancel c id t
  | OpCleanup d t => discard (Cleanup c d t)
  | OpCleanupOld wk d t => discard (CleanupOldMessages wk d t)
  end.

(** Options leave the identifier and the status alone, as those of the package do. *)
Definition plain (opt : QueueOption) : Prop := forall m, ms_Status (opt m) = ms_Status m /\ ms_ID (opt m) = ms_ID m.

Lemma options_plain t d k u i src :
  plain (WithTemplate t d) /\ plain (WithIdempotencyKey k) /\ plain (WithSendAfter u) /\ plain (WithIdentity i)
  /\ plain (WithSource src).
Proof. by repeat split. Qed.

(** New identifiers are new, options are plain, workers share the retry limit. *)
Definition op_ok (c : Courier) (op : courier_op) (s : courier_state) : Prop :=
  match op with
  | OpQueueEmail _ _ _ opts id _ _ | OpQueueSMS _ _ opts id _ _ => tries s id = 0%Z /\ Forall plain opts
  | OpDispatch wk _ _ => match cw_courier wk with Some c' => c_maxRetries c' = c_maxRetries c | None => True end
  | _ => True
  end.

Lemma apply_options_plain opts m :
  Forall plain opts -> ms_Status (apply_options m opts) = ms_Status m /\ ms_ID (apply_options m opts) = ms_ID m.
Proof.
  intros Ho. revert m. unfold apply_options. induction Ho as [|opt opts Hopt Ho IH]; intros m; simpl; [done|].
  destruct (IH (opt m)) as [-> ->]. apply Hopt.
Qed.

Lemma has_key_true ms other row k key :
  ms !! other = Some row -> mr_key row = Some k -> key = Some k -> has_key ms key = true.
Proof.
  intros Hr Hk ->. simpl. apply List.existsb_exists. exists (other, row). split.
  - by apply list_elem_of_In, elem_of_map_to_list.
  - by apply bool_decide_eq_true.
Qed.

Lemma prepare_keeps m m' :
  prepareMessage m = Ok m' ->
  ms_Status m' = ms_Status m /\ ms_ID m' = ms_ID m /\ ms_IdempotencyKey m' = ms_IdempotencyKey m.
Proof.
  unfold prepareMessage. intros (r & _ & (sub & _ & Hb)%result_bind_ok)%result_bind_ok.
  cbv zeta in Hb. destruct (String.eqb _ _); [done|]. by injection Hb as <-.
Qed.

Lemma queue_runs c max m w F :
  ms_Status m = "queued" -> tries (w_db w) (ms_ID m) = 0%Z ->
  rtc (courier_step max) (w_db w, F) (w_db (queueMessage c m w).2, F).
Proof.
  intros Hst Ht. unfold queueMessage. rewrite M_bind_run. unfold stmt.
  destruct (c_db c); [|by apply rtc_refl].
  set (row := row_of_message m (map_Marshal (ms_TemplateData m))).
  destruct (db_stmt (insert_message (ms_ID m) row) w) as [r w'] eqn:Hs.
  apply db_stmt_cases in Hs as [([] & -> & Hs)|(e & -> & Hs)]; simpl; [|by rewrite Hs].
  apply rtc_once. by eapply (StQueue max _ F (ms_ID m) row).
Qed.

Lemma discard_state {A} (m : M courier_state courier_error A) w : w_db (discard m w).2 = w_db (m w).2.
Proof. unfold discard. rewrite M_bind_run. by destruct (m w) as [[a|e] w']. Qed.

Lemma queue_new_runs c max t recipient subject body opts id t1 t2 w F :
  tries (w_db w) id = 0%Z -> Forall plain opts ->
  rtc (courier_step max) (w_db w, F)
    (w_db ((match prepareMessage (new_message id t recipient subject body t1 t2) with
            | Err e => throw (CourierErr e)
            | Ok m => queueMessage c (apply_options m opts)
            end : M courier_state courier_error Message) w).2, F).
Proof.
  intros Ht Hopts. destruct (prepareMessage _) as [m|e] eqn:Hp; [|done].
  apply prepare_keeps in Hp as (Hst & Hid & _). destruct (apply_options_plain opts m Hopts) as [Hst' Hid'].
  apply queue_runs; [by rewrite Hst', Hst|by rewrite Hid', Hid].
Qed.

(** Every operation of the courier and of its worker runs along the
    transitions of the delivery system, whatever statements fail and wherever
    a batch breaks off, while other workers hold any messages [F]. *)
Theorem courier_operations_refine_steps c op w F :
  op_ok c op (w_db w) ->
  rtc (courier_step (c_maxRetries c)) (w_db w, F) (w_db (serve c op w).2, F).
Proof.
  destruct op as [r sub b opts id t1 t2|r b opts id t1 t2|size t broken|wk t broken|id t|d t|wk d t];
    simpl; intros Hok; rewrite ?discard_state.
  - destruct Hok. by apply queue_new_runs.
  - destruct Hok. by apply queue_new_runs.
  - by apply (process_queue_runs (c_maxRetries c)).
  - unfold dispatch. destruct (cw_courier wk) as [c'|].
    + change (w_db ((_ ← ProcessQueue c' (cw_batchSize wk) t broken; mret tt) w).2)
        with (w_db (discard (ProcessQueue c' (cw_batchSize wk) t broken) w).2).
      rewrite discard_state. by apply (process_queue_runs (c_maxRetries c)).
    + apply (process_directly_runs (c_maxRetries c)).
  - apply (cancel_runs (c_maxRetries c)).
  - apply (cleanup_runs (c_maxRetries c)).
  - apply (cleanup_runs (c_maxRetries c)).
Qed.

Definition fresh_queue (s : courier_state) : Prop :=
  cs_attempts s = [] /\ forall id row, cs_messages s !! id = Some row -> (0 <= mr_send_count row)%Z.

Lemma fresh_inv max s : fresh_queue s -> delivery_inv max (s, []).
Proof.
  intros [Ha Hc]. unfold bound.
  assert (forall id, tries s id = 0%Z /\ successes s id = 0%Z) as Hz by (intros id; unfold tries, successes; by rewrite Ha).
  split; simpl; [constructor|by intros h ?%not_elem_of_nil| |].
  - intros id row Hr _. destruct (Hz id) as [-> ->]. specialize (Hc _ _ Hr). unfold bound. lia.
  - intros id. destruct (Hz id) as [-> ->]. unfold bound. lia.
Qed.

(** C4: Delivery is at most once: however many workers run, interleaved with each
    other and with queueing, cancelling and clean-up, whatever statements fail
    and whichever workers crash, a message is accepted by a transport at most
    once, and handed to one at most [maxRetries] times. *)
Theorem message_is_accepted_at_most_once max s0 s F id :
  fresh_queue s0 -> rtc (courier_step max) (s0, []) (s, F) ->
  (successes s id <= 1)%Z /\ (tries s id <= Z.max 1 max)%Z.
Proof.
  intros Hf Hrun. enough (delivery_inv max (s, F)) as Hi by (destruct (inv_bounds _ _ Hi id); done).
  revert Hrun. apply (rtc_invariant (courier_step max) (delivery_inv max)); [apply inv_step|by apply fresh_inv].
Qed.

(** A message that no worker holds any more while its row says processing is
    never touched again: it is neither sent nor retried, cancelled or removed. *)
Theorem stranded_message_stays max s F s' F' id row :
  rtc (courier_step max) (s, F) (s', F') ->
  cs_messages s !! id = Some row -> mr_status row = "processing" -> id ∉ List.map held_id F ->
  cs_messages s' !! id = Some row /\ tries s' id = tries s id.
Proof.
  intros Hrun Hr Hst Hf.
  enough (cs_messages s' !! id = Some row /\ tries s' id = tries s id /\ (id ∉ List.map held_id F')) by tauto.
  revert Hrun. apply (rtc_invariant (courier_step max)
    (fun y => cs_messages y.1 !! id = Some row /\ tries y.1 id = tries s id /\ (id ∉ List.map held_id y.2))); [|done].
  intros y z Hstep (Hm & Ht & Hn). by eapply stranded_step.
Qed.

(** A second message queued without an idempotency key is reported as queued
    but not stored, because such messages share the empty key. *)
Theorem keyless_message_is_dropped c recipient subject body id t1 t2 w m w' other row :
  cs_messages (w_db w) !! other = Some row -> mr_key row = Some "" ->
  QueueEmail c recipient subject body [] id t1 t2 w = (Ok m, w') ->
  w_db w' = w_db w /\ ms_ID m = id /\ ms_Status m = "queued".
Proof.
  intros Hr Hk. unfold QueueEmail. destruct (prepareMessage _) as [m'|e] eqn:Hp; [|done].
  apply prepare_keeps in Hp as (Hst & Hid & Hkey). simpl in *.
  unfold queueMessage, stmt. rewrite M_bind_run. destruct (c_db c); [|done].
  destruct (db_stmt _ w) as [[[]|] w1] eqn:Hs; [|done]. rewrite M_ret_run. intros [= <- <-].
  apply db_stmt_cases in Hs as [([] & _ & Hs)|(? & [=] & _)]. split; [|done].
  unfold insert_message in Hs. destruct (negb (valid_type _)); [done|]. destruct (negb (valid_status _)); [done|].
  rewrite (has_key_true _ other row "") in Hs; [by injection Hs|done|done|]. simpl. by rewrite Hkey.
Qed.
End facts.
