(* ===== verification/CourierMail.v ===== *)
(** The courier's mails and its progress: a mail has exactly the headers the
    code writes, whatever the values of the message are, and a queue that is
    served drains. *)

From Stdlib Require Import Ascii String.
From S2P Require Import Prelude GoStrings GoEncoding PlatformCrypto GoHttp Flows EventBus Courier CourierFacts.

Local Open Scope string_scope.

(** ** Reading a mail *)

(** The header lines of a mail and its body: lines end with CR LF, an empty
    one ends the header. *)
Fixpoint read_headers (line s : string) : option (list string * string) :=
  match s with
  | String c1 (String c2 rest as s') =>
      if Ascii.eqb c1 "013" && Ascii.eqb c2 "010" then
        if String.eqb line "" then Some ([], rest)
        else (fun p => (line :: p.1, p.2)) <$> read_headers "" rest
      else read_headers (line +:+ String c1 "") s'
  | _ => None
  end.

Definition one_line (s : string) : Prop := contains_newline s = false.

Lemma one_line_cons c s : one_line (String c s) <-> is_newline c = false /\ one_line s.
Proof.
  unfold one_line, contains_newline. simpl. rewrite !negb_false_iff, andb_true_iff, negb_true_iff. done.
Qed.

Lemma one_line_app a b : one_line a -> one_line b -> one_line (a +:+ b).
Proof.
  induction a as [|c a IH]; simpl; [done|]. rewrite !one_line_cons. intros [? ?] ?. auto.
Qed.

Lemma read_line l rest : forall line,
  one_line l ->
  read_headers line (l +:+ crlf +:+ rest) =
  if String.eqb (line +:+ l) "" then Some ([], rest) else (fun p => ((line +:+ l) :: p.1, p.2)) <$> read_headers "" rest.
Proof.
  induction l as [|c l IH]; intros line Hl.
  - simpl. by rewrite str_app_nil_r.
  - apply one_line_cons in Hl as [Hc Hl].
    assert (read_headers line (String c l +:+ crlf +:+ rest) = read_headers (line +:+ String c "") (l +:+ crlf +:+ rest)) as ->.
    { assert (Ascii.eqb c "013" = false) as Hcr.
      { apply Ascii.eqb_neq. intros ->. discriminate Hc. }
      change (String c l +:+ crlf +:+ rest) with (String c (l +:+ crlf +:+ rest)).
      destruct (l +:+ crlf +:+ rest) as [|c2 s] eqn:Heq; [destruct l; discriminate|].
      cbn [read_headers]. by rewrite Hcr. }
    rewrite IH by done. rewrite str_app_assoc. done.
Qed.

(** ** The mails of a courier *)

Definition content_type : string := "Content-Type: text/html; charset=" +:+ dquote +:+ "utf-8" +:+ dquote.

(** A mail to one recipient whose header is the five lines the code writes. *)
Definition intact_mail (m : smtp_call) : Prop :=
  exists from name to subject body,
    sc_from m = from /\ sc_to m = [to] /\ Forall one_line [from; name; to; subject] /\
    read_headers "" (sc_msg m)
    = Some (["From: " +:+ name +:+ " <" +:+ from +:+ ">"; "To: " +:+ to; "Subject: " +:+ subject;
             "MIME-Version: 1.0"; content_type], body).

Lemma sanitize_line v field req r : sanitizeDeliveryValue v field req = Ok r -> one_line r.
Proof.
  unfold sanitizeDeliveryValue. destruct (contains_newline (TrimSpace v)) eqn:Hn; [done|].
  destruct (req && _); [done|]. by intros [= <-].
Qed.

Lemma read_line_cons l rest : one_line l -> l <> "" ->
  read_headers "" (l +:+ crlf +:+ rest) = (fun p => (l :: p.1, p.2)) <$> read_headers "" rest.
Proof. intros Hl Hne. rewrite (read_line l rest "") by done. simpl. by destruct (String.eqb_spec l ""). Qed.

Lemma message_headers name from to subject body :
  Forall one_line [from; name; to; subject] ->
  read_headers "" (smtp_message (name +:+ " <" +:+ from +:+ ">") to subject body)
  = Some (["From: " +:+ name +:+ " <" +:+ from +:+ ">"; "To: " +:+ to; "Subject: " +:+ subject;
           "MIME-Version: 1.0"; content_type], body).
Proof.
  rewrite !Forall_cons. intros (Hf & Hn & Ht & Hs & _).
  set (sender := name +:+ " <" +:+ from +:+ ">").
  assert (one_line sender) as Hsender by (unfold sender; repeat apply one_line_app; done).
  assert (smtp_message sender to subject body =
    ("From: " +:+ sender) +:+ crlf +:+ ("To: " +:+ to) +:+ crlf +:+ ("Subject: " +:+ subject) +:+ crlf +:+
    "MIME-Version: 1.0" +:+ crlf +:+ content_type +:+ crlf +:+ crlf +:+ body) as ->.
  { unfold smtp_message, content_type. by rewrite ?str_app_assoc. }
  rewrite !read_line_cons by (by repeat apply one_line_app). done.
Qed.

Section mails.
Context `{EventJson} `{CourierEnv} `{Transport} `{ReturningOrder}.

Lemma email_call_intact c to subject body m : email_call c to subject body = Ok m -> intact_mail m.
Proof.
  unfold email_call. intros (to' & Ht%sanitize_line & Hrest)%result_bind_ok.
  apply result_bind_ok in Hrest as (subject' & Hs%sanitize_line & Hrest).
  apply result_bind_ok in Hrest as (from & Hf%sanitize_line & Hrest).
  apply result_bind_ok in Hrest as (name & Hn%sanitize_line & Hrest). injection Hrest as <-.
  exists from, name, to', subject', body. simpl.
  split_and!; [done|done|by repeat constructor|]. apply message_headers. by repeat constructor.
Qed.

(** Every mail handed to the mail server so far. *)
Definition mails_intact (s : courier_state) : Prop := forall m, SmtpCall m ∈ cs_calls s -> intact_mail m.

Abbreviation keeps m := (preserves mails_intact m).

Lemma keeps_stmt {A} (b : bool) (q : courier_state -> result db_error (A * courier_state)) :
  (forall s a s', q s = Ok (a, s') -> cs_calls s' = cs_calls s) ->
  keeps (if b then db_stmt q else throw errCourierDBUnavailable : M courier_state courier_error A).
Proof.
  intros Hq. destruct b; [|apply preserves_throw]. apply preserves_stmt.
  intros s a s' Hs Hm. unfold mails_intact. by rewrite (Hq _ _ _ Hs).
Qed.

Lemma keeps_quiet {A} (m : M courier_state courier_error A) : quiet m -> keeps m.
Proof.
  intros Hm w Hw. destruct (Hm (w_db w) w) as (_ & _ & Hc); [done|]. unfold mails_intact. by rewrite Hc.
Qed.

Lemma keeps_send c id row subject body : keeps (send c id row subject body).
Proof.
  unfold send. destruct (String.eqb _ _).
  - intros w Hw. unfold sendEmail. destruct (email_call _ _ _ _) as [call|] eqn:Hc; [|done]. simpl.
    intros m Hin. apply elem_of_app in Hin as [Hin|Hin%list_elem_of_singleton]; [by apply Hw|].
    injection Hin as ->. by eapply email_call_intact.
  - destruct (String.eqb _ _); [|apply preserves_ret]. intros w Hw. unfold sendSMS.
    destruct (sms_call _ _ _) as [call|]; [|done]. simpl. intros m Hin.
    apply elem_of_app in Hin as [Hin|Hin%list_elem_of_singleton]; [by apply Hw|done].
Qed.

Lemma keeps_update b id f :
  keeps (if b : bool then db_stmt (update_message id f) else throw errCourierDBUnavailable
         : M courier_state courier_error unit).
Proof. apply keeps_stmt. by intros s [] s' [= <-]. Qed.

Lemma keeps_finish c id n o t : keeps (finish c id n o t).
Proof. unfold finish. destruct o; apply keeps_update. Qed.

Lemma keeps_send_finish c id n row subject body t :
  keeps (sendErr ← send c id row subject body; _ ← finish c id n sendErr t; mret true).
Proof.
  apply preserves_bind; [apply keeps_send|]. intros o. apply preserves_bind; [apply keeps_finish|].
  intros. apply preserves_ret.
Qed.

Lemma keeps_process c rows : forall t n, keeps (process_messages c rows t n).
Proof.
  induction rows as [|[id row] rows IH]; intros t n; simpl; [apply preserves_ret|].
  apply preserves_bind; [|intros b; apply IH]. unfold process_message.
  destruct (mr_subject row) as [subject|]; [|apply preserves_ret].
  destruct (match mr_template_id row with Some _ => _ | None => _ end); [|apply keeps_send_finish].
  destruct (mr_template_data row ≫= map_Unmarshal) as [data|].
  - apply preserves_bind; [apply keeps_quiet, quiet_content|]. intros [s b]. apply keeps_send_finish.
  - apply preserves_bind; [|intros; apply preserves_ret].
    apply preserves_try; [apply keeps_update|intros; apply preserves_ret].
Qed.

Lemma keeps_claim b t limit :
  keeps (if b : bool then db_stmt (claim t limit) else throw errCourierDBUnavailable
         : M courier_state courier_error _).
Proof. apply keeps_stmt. intros s rows s' (ms & -> & _)%claim_spec. done. Qed.

Lemma keeps_queue c size t broken : keeps (ProcessQueue c size t broken).
Proof.
  unfold ProcessQueue, stmt. apply preserves_bind; [apply keeps_claim|]. intros rows.
  destruct broken; [|apply keeps_process].
  apply preserves_bind; [apply keeps_process|]. intros. apply preserves_throw.
Qed.

Lemma keeps_fail wk rows : forall t, keeps (fail_messages wk rows t).
Proof.
  induction rows as [|[id row] rows IH]; intros t; simpl; [apply preserves_ret|].
  destruct (mr_subject row); [|apply IH]. apply preserves_bind; [|intros; apply IH].
  apply preserves_try; [apply keeps_update|intros; apply preserves_ret].
Qed.

Lemma keeps_dispatch wk t broken : keeps (dispatch wk t broken).
Proof.
  unfold dispatch. destruct (cw_courier wk) as [c|].
  - apply preserves_bind; [apply keeps_queue|]. intros. apply preserves_ret.
  - unfold processDirectly. apply preserves_bind; [apply keeps_claim|]. intros rows.
    destruct broken; [|apply keeps_fail]. apply preserves_bind; [apply keeps_fail|]. intros. apply preserves_throw.
Qed.

Lemma keeps_message c m : keeps (queueMessage c m).
Proof.
  unfold queueMessage. apply preserves_bind; [|intros; apply preserves_ret]. apply keeps_stmt.
  intros s [] s'. unfold insert_message. destruct (negb _); [done|]. destruct (negb _); [done|].
  destruct (has_key _ _); [by intros [= <-]|]. case_bool_decide; [done|].
  destruct (match mr_identity _ with Some _ => _ | None => _ end); [done|]. by intros [= <-].
Qed.

Lemma keeps_discard {A} (m : M courier_state courier_error A) : keeps m -> keeps (discard m).
Proof. intros Hm. apply preserves_bind; [done|]. intros. apply preserves_ret. Qed.

Lemma keeps_old b cutoff :
  keeps (if b : bool then db_stmt (delete_old cutoff) else throw errCourierDBUnavailable
         : M courier_state courier_error Z).
Proof. apply keeps_stmt. by intros s n s' [= _ <-]. Qed.

(** No header injection: whatever recipients, subjects, templates and bodies
    are queued, every mail handed to the mail server by any operation goes to
    one recipient and reads back as exactly the five header lines the code
    writes, each on one line, followed by the body. *)
Theorem mails_have_no_injected_headers c op w :
  mails_intact (w_db w) -> mails_intact (w_db (serve c op w).2).
Proof.
  revert w. change (keeps (serve c op)).
  destruct op as [r sub b opts id t1 t2|r b opts id t1 t2|size t broken|wk t broken|id t|d t|wk d t]; simpl.
  - apply keeps_discard. unfold QueueEmail. destruct (prepareMessage _); [apply keeps_message|apply preserves_throw].
  - apply keeps_discard. unfold QueueSMS. destruct (prepareMessage _); [apply keeps_message|apply preserves_throw].
  - apply keeps_discard, keeps_queue.
  - apply keeps_dispatch.
  - unfold Cancel. apply preserves_bind; [|intros n; destruct (n =? 0)%Z; [apply preserves_throw|apply preserves_ret]].
    apply keeps_stmt. intros s n s' Hq. destruct (cs_messages s !! id); [|by injection Hq as _ <-].
    destruct (String.eqb _ _); by injection Hq as _ <-.
  - apply keeps_discard, keeps_old.
  - apply keeps_discard, keeps_old.
Qed.
End mails.

(** ** A queue that is served drains *)

Section progress.
Context `{EventJson} `{CourierEnv} `{Transport} `{ReturningOrder}.
Context (c : Courier) (Hdb : c_db c = true).

Lemma due_messages_nonempty t limit ms id row :
  (0 < limit)%Z -> ms !! id = Some row -> is_due t row = true -> due_messages t limit ms <> [].
Proof.
  intros Hl Hr Hd Hnil. unfold due_messages in Hnil.
  set (l := sort_by _ _) in Hnil.
  assert ((id, row) ∈ l) as Hin.
  { unfold l. rewrite sort_by_perm. apply list_elem_of_In, List.filter_In. split; [|done].
    by apply list_elem_of_In, elem_of_map_to_list. }
  destruct l as [|x l]; [by apply not_elem_of_nil in Hin|].
  destruct (Z.to_nat limit) eqn:Hn; [lia|done].
Qed.

(** Without database failures an operation does not create any. *)
Definition clean {A} (m : M courier_state courier_error A) : Prop :=
  forall w, w_faults w = [] -> w_faults (m w).2 = [].

Lemma clean_ret {A} (a : A) : clean (mret a).
Proof. by intros w. Qed.
Lemma clean_throw {A} e : clean (throw e : M courier_state courier_error A).
Proof. by intros w. Qed.
Lemma clean_local {A} (f : courier_state -> A * courier_state) : clean (local f).
Proof. intros w Hw. unfold local. by destruct (f (w_db w)). Qed.
Lemma clean_bind {A B} (m : M courier_state courier_error A) (f : A -> M courier_state courier_error B) :
  clean m -> (forall a, clean (f a)) -> clean (m ≫= f).
Proof.
  intros Hm Hf w Hw. rewrite M_bind_run. specialize (Hm w Hw). destruct (m w) as [[a|e] w']; [by apply Hf|done].
Qed.
Lemma clean_attempt {A} (m : M courier_state courier_error A) :
  clean m -> clean (attempt m : M courier_state courier_error _).
Proof. intros Hm w Hw. unfold attempt, M_try. specialize (Hm w Hw). by destruct (m w). Qed.
Lemma clean_stmt {A} (q : courier_state -> result db_error (A * courier_state)) :
  clean (db_stmt q : M courier_state courier_error A).
Proof.
  intros [s fs] Hw. simpl in Hw. subst fs. unfold db_stmt; simpl. by destruct (q s) as [[]|].
Qed.

Lemma clean_load t : clean (loadTemplate c t).
Proof.
  unfold loadTemplate. destruct (c_db c); simpl; [|apply clean_throw].
  apply clean_bind; [apply clean_stmt|]. intros [row|]; [|apply clean_throw].
  destruct (html_Parse (tr_body row)); [|apply clean_throw].
  apply clean_bind; [apply clean_local|]. intros _. destruct (tr_subject row) as [subject|]; [|apply clean_ret].
  destruct (String.eqb _ _); [apply clean_ret|]. destruct (html_Parse subject); [apply clean_local|apply clean_throw].
Qed.

Lemma clean_execute t data : clean (execute_template t data).
Proof. unfold execute_template. destruct (html_Execute t data); [apply clean_ret|apply clean_throw]. Qed.

Lemma clean_content row subject t data : clean (render c row subject t data).
Proof.
  unfold render, renderTemplate, renderSubjectTemplate.
  repeat first [ apply clean_bind; [|intros ?] | apply clean_attempt | apply clean_local | apply clean_execute
               | apply clean_ret | apply clean_throw | apply clean_load | case_match ].
Qed.

(** [render] always answers. *)
Lemma render_ok row subject t data w : exists p, (render c row subject t data w).1 = Ok p.
Proof.
  unfold render. rewrite M_bind_run. unfold attempt at 1, M_try at 1.
  destruct (renderTemplate c t data w) as [r w1]. rewrite M_ret_run. simpl.
  destruct (_ && _); [|by eexists]. rewrite M_bind_run. unfold attempt, M_try.
  destruct (renderSubjectTemplate c t data w1) as [r2 w2]. simpl. by eexists.
Qed.

(** What became of a claimed message. *)
Definition outcome (row row' : message_row) : Prop :=
  mr_subject row' = mr_subject row /\ mr_send_after row' = mr_send_after row /\
  ( mr_status row' = "sent" \/ mr_status row' = "abandoned"
    \/ (mr_status row' = "queued" /\ mr_send_count row' = (mr_send_count row + 1)%Z /\ (mr_send_count row' < c_maxRetries c)%Z)
    \/ (mr_status row' = "processing" /\ mr_subject row = None)).

Lemma finish_clean id n o t s row :
  cs_messages s !! id = Some row -> mr_send_count row = n ->
  exists s' row', finish c id n o t (World s []) = (Ok tt, World s' []) /\
    cs_messages s' = <[id := row']> (cs_messages s) /\ (is_Some (mr_subject row) -> outcome row row').
Proof.
  intros Hr Hn. unfold finish, markSent, markFailed, stmt. rewrite Hdb.
  destruct o as [e|]; rewrite db_stmt_clean; simpl;
    (eexists _, _; split; [reflexivity|]; simpl; rewrite (alter_some _ _ _ _ Hr); split; [reflexivity|]);
    intros _; unfold outcome, failed_row, sent_row, set_delivery; simpl; (split; [done|]); (split; [done|]).
  - destruct (Z.leb_spec (c_maxRetries c) (n + 1)); [by right; left|]. right; right; left. split_and!; [done|lia|done].
  - by left.
Qed.

Lemma send_finish_clean id row subject body t s row0 :
  cs_messages s !! id = Some row0 -> mr_send_count row0 = mr_send_count row ->
  exists s' row',
    (sendErr ← send c id row subject body; _ ← finish c id (mr_send_count row) sendErr t; mret true) (World s [])
      = (Ok true, World s' []) /\
    cs_messages s' = <[id := row']> (cs_messages s) /\ (is_Some (mr_subject row0) -> outcome row0 row').
Proof.
  intros Hr Hn. rewrite M_bind_run.
  destruct (send_cases c id row subject body (World s [])) as (o & Ho & Hm & _).
  assert (w_faults (send c id row subject body (World s [])).2 = []) as Hf.
  { unfold send, sendEmail, sendSMS. repeat case_match; try done. }
  destruct (send c id row subject body (World s [])) as [r [s1 fs]]; simpl in *. subst r fs.
  rewrite <- Hm in Hr |- *.
  destruct (finish_clean id (mr_send_count row) o t s1 row0 Hr Hn) as (s' & row' & Hf & Hs' & Ho).
  exists s', row'. by rewrite M_bind_run, Hf.
Qed.

Lemma process_message_clean id row t t0 s :
  cs_messages s !! id = Some (claimed_row t0 row) ->
  exists s' row' b, process_message c id row t (World s []) = (Ok b, World s' []) /\
    cs_messages s' = <[id := row']> (cs_messages s) /\ outcome row row'.
Proof.
  intros Hr. unfold process_message. destruct (mr_subject row) as [subject|] eqn:Hsub.
  2:{ exists s, (claimed_row t0 row), false. split_and!; [done|by rewrite insert_id|].
      split_and!; [done|done|]. right; right; right. by rewrite Hsub. }
  assert (forall s1 subj body, cs_messages s1 = cs_messages s -> exists s' row' b,
    (sendErr ← send c id row subj body; _ ← finish c id (mr_send_count row) sendErr t; mret true) (World s1 [])
      = (Ok b, World s' []) /\ cs_messages s' = <[id := row']> (cs_messages s) /\ outcome row row') as Hsend.
  { intros s1 subj body Hs1. rewrite <- Hs1 in Hr.
    destruct (send_finish_clean id row subj body t s1 _ Hr eq_refl) as (s' & row' & -> & Hs' & Ho).
    exists s', row', true. rewrite <- Hs1. split_and!; [done|done|]. apply Ho. simpl. eauto. }
  destruct (match mr_template_id row with Some _ => _ | None => _ end); [|by apply Hsend].
  destruct (mr_template_data row ≫= map_Unmarshal) as [data|].
  - rewrite M_bind_run. set (tid := default "" (mr_template_id row)).
    destruct (render_ok row subject tid data (World s [])) as [[subj body] Hp].
    pose proof (clean_content row subject tid data (World s []) eq_refl) as Hf.
    destruct (quiet_content c row subject tid data s (World s [])) as (Hm & _); [done|].
    destruct (render c row subject tid data (World s [])) as [r [s1 fs]]; simpl in *. subst r fs. by apply Hsend.
  - rewrite M_bind_run. unfold attempt, M_try, markFailed, stmt. rewrite Hdb.
    destruct (finish_clean id (mr_send_count row) (Some "invalid template data") t s _ Hr eq_refl)
      as (s' & row' & Hf & Hs' & Ho).
    unfold finish, markFailed, stmt in Hf. rewrite Hdb in Hf. rewrite Hf. simpl.
    exists s', row', true. split_and!; [done|done|]. apply Ho. simpl. eauto.
Qed.

Lemma process_messages_clean t0 rows : forall t n s,
  NoDup (List.map fst rows) ->
  (forall id row, (id, row) ∈ rows -> cs_messages s !! id = Some (claimed_row t0 row)) ->
  exists s' n', process_messages c rows t n (World s []) = (Ok n', World s' []) /\
    (forall id, id ∉ List.map fst rows -> cs_messages s' !! id = cs_messages s !! id) /\
    (forall id row, (id, row) ∈ rows -> exists row', cs_messages s' !! id = Some row' /\ outcome row row').
Proof.
  induction rows as [|[id row] rows IH]; intros t n s Hnd Hin; simpl.
  { exists s, n. split_and!; [done|done|]. by intros id row ?%not_elem_of_nil. }
  simpl in Hnd. apply NoDup_cons in Hnd as [Hid Hnd]. rewrite M_bind_run.
  destruct (process_message_clean id row (t O) t0 s) as (s1 & row1 & b & -> & Hs1 & Ho1); [apply Hin; left|].
  destruct (IH (fun i => t (S i)) (if b then (n + 1)%Z else n) s1 Hnd) as (s' & n' & -> & Hsame & Hout).
  { intros i r Hi. rewrite Hs1, lookup_insert_ne; [apply Hin; by right|].
    intros ->. apply Hid, list_elem_of_In, List.in_map_iff. exists (i, r). by rewrite <- list_elem_of_In. }
  exists s', n'. split_and!; [done| |].
  - intros i [Hne Hi]%not_elem_of_cons. rewrite Hsame, Hs1, lookup_insert_ne by done. done.
  - intros i r [[= -> ->]|Hi]%elem_of_cons; [|by apply Hout].
    exists row1. rewrite Hsame, Hs1 by done. split; [apply lookup_insert_eq|done].
Qed.

(** One run of the queue: nothing else changes, and when a message is due some
    due message is processed. *)
Lemma process_queue_clean size t s :
  (0 <= size)%Z ->
  exists s' n rows, ProcessQueue c size t None (World s []) = (Ok n, World s' []) /\
    (forall id, id ∉ List.map fst rows -> cs_messages s' !! id = cs_messages s !! id) /\
    (forall id row, (id, row) ∈ rows -> cs_messages s !! id = Some row /\ mr_status row = "queued" /\
       exists row', cs_messages s' !! id = Some row' /\ outcome row row') /\
    (forall id row, cs_messages s !! id = Some row -> is_due (t O) row = true -> rows <> []).
Proof.
  intros Hsize. unfold ProcessQueue, stmt. rewrite Hdb, M_bind_run, db_stmt_clean.
  set (limit := if (size =? 0)%Z then 10%Z else size).
  assert (0 < limit)%Z as Hlimit by (unfold limit; destruct (Z.eqb_spec size 0); lia).
  destruct (claim (t O) limit s) as [[rows s1]|e] eqn:Hc.
  2:{ unfold claim in Hc. by destruct (Z.ltb_spec limit 0); [lia|]. }
  pose proof Hc as (ms & -> & Hnd & Hrows & Hother)%claim_spec.
  destruct (process_messages_clean (t O) rows (fun i => t (S i)) 0%Z (with_messages s ms) Hnd) as (s' & n & -> & Hsame & Hout).
  { intros id row Hr. apply Hrows in Hr. apply Hr. }
  exists s', n, rows. split_and!; [done| | |].
  - intros id Hid. rewrite Hsame by done. by apply Hother.
  - intros id row Hr. destruct (Hrows _ _ Hr) as (Hm & Hd & _). split_and!; [done| |by apply Hout].
    by apply andb_true_iff in Hd as [?%String.eqb_eq _].
  - intros id row Hr Hd ->. unfold claim in Hc. destruct (limit <? 0)%Z; [done|].
    injection Hc as Hdue _. symmetry in Hdue.
    assert (due_messages (t O) limit (cs_messages s) = []) as Hnil.
    { apply Permutation_nil. rewrite Hdue. apply returning_perm. }
    eapply due_messages_nonempty; eauto.
Qed.

(** ** Draining *)

(** How often a message can still be claimed. *)
Definition rank (row : message_row) : nat :=
  if String.eqb (mr_status row) "queued" then Z.to_nat (Z.max 1 (c_maxRetries c - mr_send_count row)) else 0%nat.
Definition rank_at (s : courier_state) (id : N) : nat :=
  match cs_messages s !! id with Some row => rank row | None => 0%nat end.
Definition load (ids : list N) (s : courier_state) : nat := sum_list (List.map (rank_at s) ids).
Definition queue_load (s : courier_state) : nat := load (List.map fst (map_to_list (cs_messages s))) s.

Lemma outcome_rank row row' : mr_status row = "queued" -> outcome row row' -> (rank row' < rank row)%nat.
Proof.
  intros Hq (_ & _ & Ho). unfold rank. rewrite Hq. simpl.
  destruct Ho as [->|[->|[(-> & Hn & Hlt)|[-> _]]]]; simpl; lia.
Qed.

Lemma load_mono ids s s' :
  (forall id, (rank_at s' id <= rank_at s id)%nat) ->
  (load ids s' <= load ids s)%nat /\
  (forall id, id ∈ ids -> (rank_at s' id < rank_at s id)%nat -> (load ids s' < load ids s)%nat).
Proof.
  intros Hle. unfold load. induction ids as [|i ids [IH1 IH2]]; simpl; [split; [done|by intros id ?%not_elem_of_nil]|].
  pose proof (Hle i). split; [lia|]. intros id [->|Hin]%elem_of_cons Hlt; [lia|]. specialize (IH2 id Hin Hlt). lia.
Qed.

(** The state after a run of the queue without database failures. *)
Definition after_run (size : Z) (t : nat -> time) (s : courier_state) : courier_state :=
  w_db (ProcessQueue c size t None (World s [])).2.

Lemma after_run_spec size t s :
  (0 <= size)%Z ->
  (forall id, (rank_at (after_run size t s) id <= rank_at s id)%nat) /\
  (forall id, is_Some (cs_messages (after_run size t s) !! id) -> is_Some (cs_messages s !! id)) /\
  (forall id row, cs_messages s !! id = Some row ->
     cs_messages (after_run size t s) !! id = Some row \/
     mr_status row = "queued" /\ exists row', cs_messages (after_run size t s) !! id = Some row' /\ outcome row row') /\
  (forall id row, cs_messages s !! id = Some row -> is_due (t O) row = true ->
     exists i, is_Some (cs_messages s !! i) /\ (rank_at (after_run size t s) i < rank_at s i)%nat).
Proof.
  intros Hsize. destruct (process_queue_clean size t s Hsize) as (s' & n & rows & Hrun & Hsame & Hout & Hdue).
  unfold after_run. rewrite Hrun. simpl.
  assert (forall id row, (id, row) ∈ rows -> (rank_at s' id < rank_at s id)%nat) as Hlt.
  { intros id row Hin. destruct (Hout _ _ Hin) as (Hr & Hq & row' & Hr' & Ho).
    unfold rank_at. rewrite Hr, Hr'. by apply outcome_rank. }
  assert (forall id, id ∈ List.map fst rows -> exists row, (id, row) ∈ rows) as Hfst.
  { intros id ([i row] & <- & Hin%list_elem_of_In)%list_elem_of_In%List.in_map_iff. eauto. }
  split_and!.
  - intros id. destruct (decide (id ∈ List.map fst rows)) as [Hin|Hin].
    + destruct (Hfst _ Hin) as [row Hin']. specialize (Hlt _ _ Hin'). lia.
    + unfold rank_at. by rewrite Hsame.
  - intros id Hs. destruct (decide (id ∈ List.map fst rows)) as [Hin|Hin]; [|by rewrite <- Hsame].
    destruct (Hfst _ Hin) as [row Hin']. destruct (Hout _ _ Hin'). eauto.
  - intros id row Hr. destruct (decide (id ∈ List.map fst rows)) as [Hin|Hin]; [right|left; by rewrite Hsame].
    destruct (Hfst _ Hin) as [row' Hin']. destruct (Hout _ _ Hin') as (Hr' & Hq & Ho). rewrite Hr in Hr'.
    injection Hr' as <-. done.
  - intros id row Hr Hd. destruct rows as [|[i r] rows]; [by eapply Hdue in Hd|].
    exists i. destruct (Hout i r) as (Hi & _); [left|]. split; [eauto|]. apply (Hlt i r). left.
Qed.

Definition drain (size : Z) (ts : list (nat -> time)) (s : courier_state) : courier_state :=
  fold_left (fun s t => after_run size t s) ts s.

Definition settled_or_queued (subject_of row : message_row) : Prop :=
  is_Some (mr_subject row) /\ mr_send_after row = mr_send_after subject_of /\
  (mr_status row = "queued" \/ mr_status row = "sent" \/ mr_status row = "abandoned").

(** What is settled stays settled. *)
Lemma drain_keeps size id row ts : forall s,
  (0 <= size)%Z -> mr_status row = "sent" \/ mr_status row = "abandoned" -> cs_messages s !! id = Some row ->
  exists row', cs_messages (drain size ts s) !! id = Some row' /\ (mr_status row' = "sent" \/ mr_status row' = "abandoned").
Proof.
  induction ts as [|t ts IH]; intros s Hsize Hst Hr; simpl; [eauto|]. apply IH; [done|done|].
  destruct (after_run_spec size t s Hsize) as (_ & _ & Hrow & _).
  destruct (Hrow id row Hr) as [?|[Hq _]]; [done|]. rewrite Hq in Hst. by destruct Hst.
Qed.

Lemma drain_loads size ids row0 id ts : forall s row,
  (0 <= size)%Z -> (forall i, is_Some (cs_messages s !! i) -> i ∈ ids) ->
  cs_messages s !! id = Some row -> settled_or_queued row0 row ->
  Forall (fun t : nat -> time => match mr_send_after row0 with Some u => (u <= t O)%Z | None => True end) ts ->
  (load ids s <= length ts)%nat ->
  exists row', cs_messages (drain size ts s) !! id = Some row' /\ (mr_status row' = "sent" \/ mr_status row' = "abandoned").
Proof.
  induction ts as [|t ts IH]; intros s row Hsize Hids Hr (Hsub & Haf & Hst) Hts Hload; simpl in *.
  - exists row. split; [done|]. destruct Hst as [Hst|?]; [exfalso|done].
    destruct (load_mono ids s {| cs_messages := ∅; cs_template_rows := ∅; cs_identities := ∅; cs_templates := ∅;
                                 cs_subjects := ∅; cs_calls := []; cs_attempts := [] |}) as [_ Hlt].
    { intros i. unfold rank_at at 1. simpl. rewrite lookup_empty. lia. }
    specialize (Hlt id ltac:(eauto)). unfold rank_at in Hlt. simpl in Hlt. rewrite lookup_empty, Hr in Hlt.
    unfold rank in Hlt. rewrite Hst in Hlt. simpl in Hlt. lia.
  - apply Forall_cons in Hts as [Ht Hts]. destruct (after_run_spec size t s Hsize) as (Hle & Hdom & Hrow & Hdue).
    destruct (load_mono ids s (after_run size t s) Hle) as [Hload1 Hload2].
    assert (exists row', cs_messages (after_run size t s) !! id = Some row' /\ settled_or_queued row0 row') as (row1 & Hr1 & Hs1).
    { destruct (Hrow id row Hr) as [?|(_ & row' & Hr' & Hs' & Ha' & Ho)]; [by exists row|]. exists row'. split; [done|].
      unfold settled_or_queued. rewrite Hs', Ha'. split_and!; [done|done|].
      destruct Ho as [?|[?|[[? _]|[_ Hnone]]]]; [auto..|]. rewrite Hnone in Hsub. by destruct Hsub. }
    destruct (decide (mr_status row = "queued")) as [Hq|Hq].
    + destruct (Hdue id row Hr) as (i & Hi & Hlt).
      { unfold is_due. rewrite Hq, Haf. simpl. destruct (mr_send_after row0); [by apply Z.leb_le|done]. }
      apply (IH _ row1); try done; [auto|]. specialize (Hload2 i (Hids _ Hi) Hlt). lia.
    + assert (mr_status row = "sent" \/ mr_status row = "abandoned") as Hdone by tauto.
      eapply drain_keeps; [done|exact Hdone|].
      destruct (Hrow id row Hr) as [?|[Hq' _]]; done.
Qed.

(** C23: A due message of a served queue is not forgotten: with a database that
    works, after as many runs of ProcessQueue as the queue has attempts left
    it has been sent or given up, whatever the transports answer and whatever
    the batch size. *)
Theorem served_queue_drains size ts s id row :
  (0 <= size)%Z -> cs_messages s !! id = Some row -> mr_status row = "queued" -> is_Some (mr_subject row) ->
  Forall (fun t : nat -> time => is_due (t O) row = true) ts -> (queue_load s <= length ts)%nat ->
  exists row', cs_messages (drain size ts s) !! id = Some row' /\ (mr_status row' = "sent" \/ mr_status row' = "abandoned").
Proof.
  intros Hsize Hr Hq Hsub Hts Hload. eapply (drain_loads size _ row); [done| |exact Hr| | |exact Hload].
  - intros i [r Hi]. apply list_elem_of_In, List.in_map_iff. exists (i, r). split; [done|].
    by apply list_elem_of_In, elem_of_map_to_list.
  - split_and!; [done|done|by left].
  - eapply Forall_impl; [exact Hts|]. simpl. intros t Hd. apply andb_true_iff in Hd as [_ Hd].
    destruct (mr_send_after row); [by apply Z.leb_le|done].
Qed.
End progress.

(** ** Witnesses *)

Module CourierWitness.
#[local] Instance json : EventJson :=
  {| ejson := option (gmap string any); map_Marshal := fun m => Some m; map_Unmarshal := fun m => Some m |}.
#[local] Instance env : CourierEnv :=
  {| html_template := string; html_Parse := fun t => Ok t; html_Execute := fun t _ => Ok t;
     text_render := fun t _ => Ok t; courier_url_Parse := fun _ => None; http_NewRequest_ok := fun _ _ => true;
     json_string := fun v => v |}.
(** The mail server refuses the first call. *)
#[local] Instance transport : Transport :=
  {| smtp_answer := fun n _ => if Nat.eqb n 0 then Some "450 try later" else None;
     http_answer := fun _ _ => Err "no gateway" |}.
#[local] Instance order : ReturningOrder := {| returning _ l := l; returning_perm _ l := reflexivity l |}.

Definition smtp : SMTPConfig :=
  {| sm_Host := "mail.example"; sm_Port := 25; sm_FromAddress := "no-reply@example.org"; sm_FromName := "Aegion";
     sm_Username := ""; sm_Password := ""; sm_AuthEnabled := false |}.
Definition sms : SMSConfig :=
  {| ss_Enabled := false; ss_URL := ""; ss_Method := ""; ss_Headers := []; ss_BodyTemplate := ""; ss_Timeout := 0 |}.
Definition courier : Courier := New true smtp sms 3 0 0.

Definition empty_state : courier_state :=
  {| cs_messages := ∅; cs_template_rows := ∅; cs_identities := ∅; cs_templates := ∅; cs_subjects := ∅;
     cs_calls := []; cs_attempts := [] |}.
Definition mail (id : uuid) : M courier_state courier_error Message :=
  QueueEmail courier "user@example.org" "Hello" "Welcome" [] id 1%Z 1%Z.
Definition queued : courier_state := Eval vm_compute in w_db (mail 7%N (World empty_state [])).2.
Definition clock : nat -> time := fun _ => 10%Z.

(** One run: the server refuses, the message waits for another attempt. *)
Definition retried : courier_state := Eval vm_compute in w_db (ProcessQueue courier 10 clock None (World queued [])).2.
(** A run in which the server accepts but the final update fails. *)
Definition stranded : courier_state :=
  Eval vm_compute in w_db (ProcessQueue courier 10 clock None (World retried [None; Some "connection lost"])).2.

Example first_run_retries : (mr_status <$> cs_messages retried !! 7%N) = Some "queued".
Proof. reflexivity. Qed.
Example accepted_but_processing :
  (mr_status <$> cs_messages stranded !! 7%N) = Some "processing" /\ cs_attempts stranded = [(7%N, false); (7%N, true)].
Proof. split; reflexivity. Qed.

Lemma courier_operations_refine_steps_witness :
  rtc (courier_step 3) (queued, []) (retried, []).
Proof. exact (courier_operations_refine_steps courier (OpProcess 10 clock None) (World queued []) [] I). Defined.

Lemma stranded_run : rtc (courier_step 3) (queued, []) (stranded, []).
Proof.
  etrans.
  - exact (process_queue_runs 3 courier 10 clock None eq_refl (World queued []) []).
  - exact (process_queue_runs 3 courier 10 clock None eq_refl (World retried [None; Some "connection lost"]) []).
Qed.

Lemma queued_fresh : fresh_queue queued.
Proof.
  split; [reflexivity|]. intros id row Hr.
  assert (forall i r, cs_messages queued !! i = Some r -> mr_send_count r = 0%Z) as Hall.
  { apply map_Forall_lookup, (bool_decide_unpack _). vm_compute. exact I. }
  by rewrite (Hall _ _ Hr).
Qed.

Lemma message_is_accepted_at_most_once_witness :
  successes stranded 7%N = 1%Z /\ (successes stranded 7%N <= 1)%Z /\ (tries stranded 7%N <= Z.max 1 3)%Z.
Proof.
  exact (conj eq_refl (message_is_accepted_at_most_once 3 queued stranded [] 7%N queued_fresh stranded_run)).
Defined.

(** The next run of the queue does not touch the stranded message. *)
Definition still_stranded : courier_state :=
  Eval vm_compute in w_db (ProcessQueue courier 10 clock None (World stranded [])).2.
Definition stranded_row : message_row :=
  Eval vm_compute in default (row_of_message (new_message 0%N "" "" "" "" 0 0) None) (cs_messages stranded !! 7%N).

Lemma next_run : rtc (courier_step 3) (stranded, []) (still_stranded, []).
Proof. exact (process_queue_runs 3 courier 10 clock None eq_refl (World stranded []) []). Qed.

Lemma stranded_message_stays_witness :
  mr_status stranded_row = "processing" /\
  cs_messages still_stranded !! 7%N = Some stranded_row /\ tries still_stranded 7%N = tries stranded 7%N.
Proof.
  exact (conj eq_refl (stranded_message_stays 3 stranded [] still_stranded [] 7%N stranded_row next_run eq_refl eq_refl
    (not_elem_of_nil 7%N))).
Defined.

Definition queued_row : message_row :=
  Eval vm_compute in default (row_of_message (new_message 0%N "" "" "" "" 0 0) None) (cs_messages queued !! 7%N).

Lemma keyless_message_is_dropped_witness :
  exists m w', mail 8%N (World queued []) = (Ok m, w') /\ w_db w' = queued /\ ms_ID m = 8%N /\ ms_Status m = "queued".
Proof.
  destruct (mail 8%N (World queued [])) as [[m|e] w'] eqn:Hm; [|vm_compute in Hm; discriminate].
  exists m, w'. exact (conj eq_refl (keyless_message_is_dropped courier _ _ _ 8%N 1 1 (World queued []) m w' 7%N queued_row
    eq_refl eq_refl Hm)).
Defined.

Lemma mails_have_no_injected_headers_witness :
  length (cs_calls retried) = 1%nat /\ mails_intact retried.
Proof.
  split; [reflexivity|].
  assert (retried = w_db (serve courier (OpProcess 10 clock None) (World queued [])).2) as -> by (vm_compute; reflexivity).
  apply (mails_have_no_injected_headers courier (OpProcess 10 clock None) (World queued [])).
  intros m Hin. apply not_elem_of_nil in Hin. destruct Hin.
Defined.

Lemma served_queue_drains_witness :
  queue_load courier queued = 3%nat /\
  exists row', cs_messages (drain courier 1 [clock; clock; clock] queued) !! 7%N = Some row' /\
    (mr_status row' = "sent" \/ mr_status row' = "abandoned").
Proof.
  split; [vm_compute; reflexivity|].
  apply (served_queue_drains courier eq_refl 1 [clock; clock; clock] queued 7%N queued_row);
    [lia|reflexivity|reflexivity|by eexists|by repeat constructor|vm_compute; lia].
Defined.
End CourierWitness.
