(* ===== verification/LruCache.v ===== *)
(** modules/analytics/rest/cache_lru.go: the query cache, a map of keys to the
    nodes of a doubly linked list in order of use.

    The nodes live on a heap; an operation is [None] when it dereferences a
    nil pointer, where Go panics.  [time.Now()] is an argument, and so is the
    order in which Go ranges over the map. *)

From Stdlib Require Import Ascii String.
From S2P Require Import Prelude GoStrings.

Local Open Scope string_scope.

Section lru.
Context {V : Type}.

Record QueryCacheConfig : Type := {
  qc_Enabled : bool;
  qc_MaxSize : Z;
  qc_TTL : duration;
  qc_StatsInterval : duration;
}.

Record CacheStats : Type := {
  st_Hits : Z;
  st_Misses : Z;
  st_Evictions : Z;
  st_LastReset : time;
}.

Abbreviation loc := N (only parsing).

Record cacheNode : Type := {
  n_key : string;
  n_value : option V;
  n_expiresAt : time;
  n_prev : option loc;
  n_next : option loc;
}.
Definition set_prev (n : cacheNode) (p : option loc) : cacheNode :=
  {| n_key := n_key n; n_value := n_value n; n_expiresAt := n_expiresAt n; n_prev := p; n_next := n_next n |}.
Definition set_next (n : cacheNode) (x : option loc) : cacheNode :=
  {| n_key := n_key n; n_value := n_value n; n_expiresAt := n_expiresAt n; n_prev := n_prev n; n_next := x |}.
Definition set_value (n : cacheNode) (v : V) (expiresAt : time) : cacheNode :=
  {| n_key := n_key n; n_value := Some v; n_expiresAt := expiresAt; n_prev := n_prev n; n_next := n_next n |}.

Abbreviation heap := (gmap N cacheNode) (only parsing).

Record LRUQueryCache : Type := {
  c_config : QueryCacheConfig;
  c_heap : heap;
  c_cache : gmap string N;
  c_head : loc;
  c_tail : loc;
  c_stats : CacheStats;
}.
Definition with_heap (c : LRUQueryCache) (h : heap) : LRUQueryCache :=
  {| c_config := c_config c; c_heap := h; c_cache := c_cache c; c_head := c_head c; c_tail := c_tail c;
     c_stats := c_stats c |}.
Definition with_cache (c : LRUQueryCache) (m : gmap string N) : LRUQueryCache :=
  {| c_config := c_config c; c_heap := c_heap c; c_cache := m; c_head := c_head c; c_tail := c_tail c;
     c_stats := c_stats c |}.
Definition with_stats (c : LRUQueryCache) (s : CacheStats) : LRUQueryCache :=
  {| c_config := c_config c; c_heap := c_heap c; c_cache := c_cache c; c_head := c_head c; c_tail := c_tail c;
     c_stats := s |}.

Definition miss (c : LRUQueryCache) : LRUQueryCache :=
  with_stats c {| st_Hits := st_Hits (c_stats c); st_Misses := st_Misses (c_stats c) + 1;
                  st_Evictions := st_Evictions (c_stats c); st_LastReset := st_LastReset (c_stats c) |}.
Definition hit (c : LRUQueryCache) : LRUQueryCache :=
  with_stats c {| st_Hits := st_Hits (c_stats c) + 1; st_Misses := st_Misses (c_stats c);
                  st_Evictions := st_Evictions (c_stats c); st_LastReset := st_LastReset (c_stats c) |}.
Definition evicted (c : LRUQueryCache) : LRUQueryCache :=
  with_stats c {| st_Hits := st_Hits (c_stats c); st_Misses := st_Misses (c_stats c);
                  st_Evictions := st_Evictions (c_stats c) + 1; st_LastReset := st_LastReset (c_stats c) |}.

Definition empty_node : cacheNode :=
  {| n_key := ""; n_value := None; n_expiresAt := time_zero; n_prev := None; n_next := None |}.

(** The dummy head and tail nodes are the first two of the heap. *)
Definition NewLRUQueryCache (config : QueryCacheConfig) (now : time) : LRUQueryCache :=
  {| c_config := {| qc_Enabled := qc_Enabled config;
                    qc_MaxSize := if (qc_MaxSize config =? 0)%Z then 1000%Z else qc_MaxSize config;
                    qc_TTL := if (qc_TTL config =? 0)%Z then (15 * minute)%Z else qc_TTL config;
                    qc_StatsInterval := if (qc_StatsInterval config =? 0)%Z then minute else qc_StatsInterval config |};
     c_heap := <[0%N := set_next empty_node (Some 1%N)]> {[ 1%N := set_prev empty_node (Some 0%N) ]};
     c_cache := ∅; c_head := 0%N; c_tail := 1%N;
     c_stats := {| st_Hits := 0; st_Misses := 0; st_Evictions := 0; st_LastReset := now |} |}.

(** ** The list *)

(** [p.next = x] and [p.prev = x]. *)
Definition write_next (h : heap) (p : option loc) (x : option loc) : option heap :=
  p ← p; n ← h !! p; Some (<[p := set_next n x]> h).
Definition write_prev (h : heap) (p : option loc) (x : option loc) : option heap :=
  p ← p; n ← h !! p; Some (<[p := set_prev n x]> h).

Definition removeNode (h : heap) (node : loc) : option heap :=
  n ← h !! node;
  h ← write_next h (n_prev n) (n_next n);
  n ← h !! node;
  write_prev h (n_next n) (n_prev n).

Definition addNodeToHead (h : heap) (head node : loc) : option heap :=
  h ← write_prev h (Some node) (Some head);
  hd ← h !! head;
  h ← write_next h (Some node) (n_next hd);
  hd ← h !! head;
  h ← write_prev h (n_next hd) (Some node);
  write_next h (Some head) (Some node).

Definition moveToHead (h : heap) (head node : loc) : option heap :=
  h ← removeNode h node; addNodeToHead h head node.

Definition evictLRU (c : LRUQueryCache) : option LRUQueryCache :=
  tl ← c_heap c !! c_tail c;
  lru ← n_prev tl;
  if (lru =? c_head c)%N then Some c
  else
    h ← removeNode (c_heap c) lru;
    n ← h !! lru;
    Some (evicted (with_cache (with_heap c h) (delete (n_key n) (c_cache c)))).

(** ** Operations *)

(** [ctx] is the error of ValidateContext, if any. *)
Inductive cache_error : Type :=
| ErrContext (msg : string)
| ErrEmptyKey.
Definition ValidateContext (ctx : option string) : result cache_error unit :=
  match ctx with Some e => Err (ErrContext e) | None => Ok tt end.

Definition unlink (c : LRUQueryCache) (key : string) (node : loc) : option LRUQueryCache :=
  h ← removeNode (c_heap c) node;
  Some (with_cache (with_heap c h) (delete key (c_cache c))).

(** The value found, or [Ok None] for a miss. *)
Definition Get (c : LRUQueryCache) (ctx : option string) (key : string) (now : time)
    : option (result cache_error (option (option V)) * LRUQueryCache) :=
  if negb (qc_Enabled (c_config c)) then Some (Ok None, c)
  else match ValidateContext ctx with
  | Err e => Some (Err e, c)
  | Ok _ =>
      match c_cache c !! key with
      | None => Some (Ok None, miss c)
      | Some node =>
          n ← c_heap c !! node;
          if time_after now (n_expiresAt n) then
            c' ← unlink c key node;
            Some (Ok None, miss c')
          else
            h ← moveToHead (c_heap c) (c_head c) node;
            n ← h !! node;
            Some (Ok (Some (n_value n)), hit (with_heap c h))
      end
  end.

(** [fresh] is the address of a node allocated by the call. *)
Definition Set_ (c : LRUQueryCache) (ctx : option string) (key : string) (value : V) (ttl : duration) (now : time)
    (fresh : loc) : option (result cache_error unit * LRUQueryCache) :=
  if negb (qc_Enabled (c_config c)) then Some (Ok tt, c)
  else match ValidateContext ctx with
  | Err e => Some (Err e, c)
  | Ok _ =>
      if String.eqb key "" then Some (Err ErrEmptyKey, c)
      else
        let ttl := if (ttl =? 0)%Z then qc_TTL (c_config c) else ttl in
        match c_cache c !! key with
        | Some node =>
            n ← c_heap c !! node;
            h ← moveToHead (<[node := set_value n value (time_add now ttl)]> (c_heap c)) (c_head c) node;
            Some (Ok tt, with_heap c h)
        | None =>
            let newNode := {| n_key := key; n_value := Some value; n_expiresAt := time_add now ttl;
                              n_prev := None; n_next := None |} in
            h ← addNodeToHead (<[fresh := newNode]> (c_heap c)) (c_head c) fresh;
            let c' := with_cache (with_heap c h) (<[key := fresh]> (c_cache c)) in
            c'' ← (if (qc_MaxSize (c_config c) <? Z.of_nat (size (c_cache c')))%Z then evictLRU c' else Some c');
            Some (Ok tt, c'')
        end
  end.

Definition Delete (c : LRUQueryCache) (ctx : option string) (key : string)
    : option (result cache_error unit * LRUQueryCache) :=
  match ValidateContext ctx with
  | Err e => Some (Err e, c)
  | Ok _ =>
      match c_cache c !! key with
      | Some node => c' ← unlink c key node; Some (Ok tt, c')
      | None => Some (Ok tt, c)
      end
  end.

Definition Clear (c : LRUQueryCache) (ctx : option string) (now : time)
    : option (result cache_error unit * LRUQueryCache) :=
  match ValidateContext ctx with
  | Err e => Some (Err e, c)
  | Ok _ =>
      h ← write_next (c_heap c) (Some (c_head c)) (Some (c_tail c));
      h ← write_prev h (Some (c_tail c)) (Some (c_head c));
      Some (Ok tt, with_stats (with_cache (with_heap c h) ∅)
                     {| st_Hits := 0; st_Misses := 0; st_Evictions := 0; st_LastReset := now |})
  end.

Definition Size_ (c : LRUQueryCache) : nat := size (c_cache c).

(** The hit rate is the fraction of hits, when there was a request. *)
Definition GetStats (c : LRUQueryCache) : CacheStats * nat * option (Z * Z) :=
  let total := (st_Hits (c_stats c) + st_Misses (c_stats c))%Z in
  (c_stats c, size (c_cache c), if (0 <? total)%Z then Some (st_Hits (c_stats c), total) else None).

Definition matchesPattern (key pattern : string) : bool :=
  if String.eqb pattern "*" then true
  else (String.length pattern <=? String.length key)%nat && String.eqb (str_take (String.length pattern) key) pattern.

(** The loops that range over the map and remove entries: [doomed] decides. *)
Fixpoint sweep (c : LRUQueryCache) (doomed : string -> cacheNode -> bool) (order : list string) : option LRUQueryCache :=
  match order with
  | [] => Some c
  | key :: rest =>
      match c_cache c !! key with
      | None => sweep c doomed rest
      | Some node =>
          n ← c_heap c !! node;
          c' ← (if doomed key n then unlink c key node else Some c);
          sweep c' doomed rest
      end
  end.

Definition InvalidatePattern (c : LRUQueryCache) (ctx : option string) (pattern : string) (order : list string)
    : option (result cache_error unit * LRUQueryCache) :=
  match ValidateContext ctx with
  | Err e => Some (Err e, c)
  | Ok _ => c' ← sweep c (fun key _ => matchesPattern key pattern) order; Some (Ok tt, c')
  end.

Definition cleanupExpired (c : LRUQueryCache) (now : time) (order : list string) : option LRUQueryCache :=
  sweep c (fun _ n => time_after now (n_expiresAt n)) order.
End lru.
