(* ===== verification/LruCacheFacts.v ===== *)
(** The linked query cache of [LruCache] refines a list of entries in order of
    use: no operation dereferences nil, each answers as the list does, the
    size stays within its limit, and a value that is used recently enough is
    not evicted. *)

From Stdlib Require Import Ascii String.
From S2P Require Import Prelude GoStrings LruCache.

Local Open Scope string_scope.

#[local] Arguments write_next : simpl never.
#[local] Arguments write_prev : simpl never.

Section facts.
Context {V : Type}.
Abbreviation heap := (gmap N (cacheNode (V := V))).
Abbreviation cache := (LRUQueryCache (V := V)).

(** ** Links *)

Definition nxt (h : heap) (a : N) : option N := h !! a ≫= n_next.
Definition prv (h : heap) (a : N) : option N := h !! a ≫= n_prev.

Record entry : Type := Entry { e_key : string; e_value : option V; e_expires : time }.
Definition data (h : heap) (a : N) : option entry :=
  (fun n => Entry (n_key n) (n_value n) (n_expiresAt n)) <$> h !! a.

Lemma data_alloc h a : is_Some (data h a) <-> is_Some (h !! a).
Proof. unfold data. by rewrite fmap_is_Some. Qed.
Lemma nxt_alloc h a b : nxt h a = Some b -> is_Some (data h a).
Proof. unfold nxt, data. destruct (h !! a); [by eexists|done]. Qed.
Lemma prv_alloc h a b : prv h a = Some b -> is_Some (data h a).
Proof. unfold prv, data. destruct (h !! a); [by eexists|done]. Qed.

(** What a sequence of writes to links leaves. *)
Definition relinked (h h' : heap) (nx pv : N -> option N) : Prop :=
  (forall a, nxt h' a = nx a) /\ (forall a, prv h' a = pv a) /\ (forall a, data h' a = data h a).

Lemma write_next_spec h p x :
  is_Some (data h p) ->
  exists h', write_next h (Some p) x = Some h' /\
    relinked h h' (fun a => if decide (a = p) then x else nxt h a) (prv h).
Proof.
  intros [n Hn]%data_alloc. exists (<[p := set_next n x]> h). unfold write_next. simpl. rewrite Hn. split; [done|].
  unfold relinked, nxt, prv, data.
  split_and!; intros a; (destruct (decide (a = p)) as [->|]; [rewrite lookup_insert_eq|rewrite lookup_insert_ne by done]);
    rewrite ?Hn; done.
Qed.

Lemma write_prev_spec h p x :
  is_Some (data h p) ->
  exists h', write_prev h (Some p) x = Some h' /\
    relinked h h' (nxt h) (fun a => if decide (a = p) then x else prv h a).
Proof.
  intros [n Hn]%data_alloc. exists (<[p := set_prev n x]> h). unfold write_prev; simpl. rewrite Hn. split; [done|].
  unfold relinked, nxt, prv, data.
  split_and!; intros a; (destruct (decide (a = p)) as [->|]; [rewrite lookup_insert_eq|rewrite lookup_insert_ne by done]);
    rewrite ?Hn; done.
Qed.

Lemma read_links h a : is_Some (data h a) -> exists n, h !! a = Some n /\ n_next n = nxt h a /\ n_prev n = prv h a.
Proof. intros [n Hn]%data_alloc. exists n. unfold nxt, prv. by rewrite Hn. Qed.

Lemma removeNode_spec h p x n :
  prv h x = Some p -> nxt h x = Some n -> p <> x -> is_Some (data h p) -> is_Some (data h n) ->
  exists h', removeNode h x = Some h' /\
    relinked h h' (fun a => if decide (a = p) then Some n else nxt h a)
                  (fun a => if decide (a = n) then Some p else prv h a).
Proof.
  intros Hp Hn Hpx Hap Han. pose proof (prv_alloc _ _ _ Hp) as Hax. unfold removeNode.
  destruct (read_links h x Hax) as (nd & -> & Hnx & Hpv). simpl. rewrite Hnx, Hpv, Hp, Hn.
  destruct (write_next_spec h p (Some n) Hap) as (h1 & -> & Hnx1 & Hpv1 & Hd1). simpl.
  destruct (read_links h1 x) as (nd1 & -> & Hnx' & Hpv'); [by rewrite Hd1|]. simpl.
  rewrite Hnx', Hpv', Hnx1, Hpv1, Hp, decide_False, Hn by done.
  destruct (write_prev_spec h1 n (Some p)) as (h2 & -> & Hnx2 & Hpv2 & Hd2); [by rewrite Hd1|].
  exists h2. split; [done|]. split_and!; intros a; [by rewrite Hnx2, Hnx1|by rewrite Hpv2, Hpv1|by rewrite Hd2, Hd1].
Qed.

Lemma addNodeToHead_spec h head node f :
  nxt h head = Some f -> head <> node -> f <> node -> is_Some (data h node) -> is_Some (data h f) ->
  exists h', addNodeToHead h head node = Some h' /\
    relinked h h' (fun a => if decide (a = head) then Some node else if decide (a = node) then Some f else nxt h a)
                  (fun a => if decide (a = f) then Some node else if decide (a = node) then Some head else prv h a).
Proof.
  intros Hf Hhn Hfn Han Haf. pose proof (nxt_alloc _ _ _ Hf) as Hah. unfold addNodeToHead.
  destruct (write_prev_spec h node (Some head) Han) as (h1 & -> & Hnx1 & Hpv1 & Hd1). simpl.
  destruct (read_links h1 head) as (n1 & -> & Hl1 & _); [by rewrite Hd1|]. simpl. rewrite Hl1, Hnx1, Hf.
  destruct (write_next_spec h1 node (Some f)) as (h2 & -> & Hnx2 & Hpv2 & Hd2); [by rewrite Hd1|]. simpl.
  destruct (read_links h2 head) as (n2 & -> & Hl2 & _); [by rewrite Hd2, Hd1|]. simpl.
  rewrite Hl2, Hnx2, decide_False, Hnx1, Hf by done.
  destruct (write_prev_spec h2 f (Some node)) as (h3 & -> & Hnx3 & Hpv3 & Hd3); [by rewrite Hd2, Hd1|]. simpl.
  destruct (write_next_spec h3 head (Some node)) as (h4 & Hw & Hnx4 & Hpv4 & Hd4); [by rewrite Hd3, Hd2, Hd1|].
  exists h4. split; [exact Hw|]. split_and!; intros a.
  - by rewrite Hnx4, Hnx3, Hnx2, Hnx1.
  - by rewrite Hpv4, Hpv3, Hpv2, Hpv1.
  - by rewrite Hd4, Hd3, Hd2, Hd1.
Qed.

(** ** Chains *)

Fixpoint chain (h : heap) (l : list N) : Prop :=
  match l with
  | a :: (b :: _) as l' => nxt h a = Some b /\ prv h b = Some a /\ chain h l'
  | _ => True
  end.

Lemma chain_app h l1 a l2 : chain h (l1 ++ a :: l2) <-> chain h (l1 ++ [a]) /\ chain h (a :: l2).
Proof.
  induction l1 as [|x l1 IH]; simpl; [tauto|]. destruct l1 as [|y l1]; simpl in *; [tauto|]. rewrite IH. tauto.
Qed.

Lemma chain_frame h h' l :
  chain h l ->
  (forall a b, a ∈ l -> b ∈ l -> nxt h a = Some b -> prv h b = Some a -> nxt h' a = Some b /\ prv h' b = Some a) ->
  chain h' l.
Proof.
  induction l as [|a l IH]; simpl; [done|]. destruct l as [|b l]; [done|]. intros (Hn & Hp & Hc) Hf.
  destruct (Hf a b) as [? ?]; [left|right; left|done|done|]. split_and!; [done|done|].
  apply IH; [done|]. intros x y Hx Hy. apply Hf; by right.
Qed.

Lemma chain_remove h h' l1 p x n l2 :
  NoDup (l1 ++ p :: x :: n :: l2) -> chain h (l1 ++ p :: x :: n :: l2) ->
  relinked h h' (fun a => if decide (a = p) then Some n else nxt h a)
                (fun a => if decide (a = n) then Some p else prv h a) ->
  chain h' (l1 ++ p :: n :: l2).
Proof.
  intros Hnd Hc (Hnx & Hpv & _). apply chain_app in Hc as [Hc1 (Hpx & Hxp & Hxn & Hnx' & Hc2)].
  apply NoDup_app in Hnd as (_ & Hd & Hnd). apply NoDup_cons in Hnd as [Hpnin Hnd].
  apply NoDup_cons in Hnd as [Hxnin _].
  assert (x ∉ (l1 ++ [p])%list) as Hx1.
  { intros [Hx|Hx%list_elem_of_singleton]%elem_of_app; [by apply (Hd x); [|right; left]|]. subst. apply Hpnin. left. }
  assert (n ∉ (l1 ++ [p])%list) as Hn1.
  { intros [Hx|Hx%list_elem_of_singleton]%elem_of_app; [by apply (Hd n); [|right; right; left]|]. subst. apply Hpnin. right; left. }
  change (chain h (n :: l2)) in Hc2. apply chain_app. split; [|refine (conj _ (conj _ _ : _ /\ chain h' (n :: l2)))].
  - eapply chain_frame; [exact Hc1|]. intros a b Ha Hb Hab Hba. rewrite Hnx, Hpv.
    rewrite decide_False, decide_False; [done| |].
    + intros ->. done.
    + intros ->. rewrite Hpx in Hab. injection Hab as ->. done.
  - by rewrite Hnx, decide_True.
  - by rewrite Hpv, decide_True.
  - eapply chain_frame; [exact Hc2|]. intros a b Ha Hb Hab Hba. rewrite Hnx, Hpv.
    rewrite decide_False, decide_False; [done| |].
    + intros ->. rewrite Hnx' in Hba. injection Hba as ->. done.
    + intros ->. apply Hpnin. by right.
Qed.

Lemma chain_add h h' head node f l :
  NoDup (head :: f :: l) -> node ∉ head :: f :: l -> chain h (head :: f :: l) ->
  relinked h h' (fun a => if decide (a = head) then Some node else if decide (a = node) then Some f else nxt h a)
                (fun a => if decide (a = f) then Some node else if decide (a = node) then Some head else prv h a) ->
  chain h' (head :: node :: f :: l).
Proof.
  intros Hnd Hnew (Hhf & Hfh & Hc) (Hnx & Hpv & _). apply NoDup_cons in Hnd as [Hh _].
  apply not_elem_of_cons in Hnew as [Hnh Hnew]. apply not_elem_of_cons in Hnew as [Hnf Hnl].
  change (nxt h' head = Some node /\ prv h' node = Some head /\ nxt h' node = Some f /\ prv h' f = Some node
          /\ chain h' (f :: l)).
  refine (conj _ (conj _ (conj _ (conj _ _)))).
  - by rewrite Hnx, decide_True.
  - rewrite Hpv, decide_False, decide_True; [done|done|congruence].
  - rewrite Hnx, decide_False, decide_True; [done|done|congruence].
  - by rewrite Hpv, decide_True.
  - eapply chain_frame; [exact Hc|]. intros a b Ha Hb Hab Hba. rewrite Hnx, Hpv.
    assert (a <> head) by (intros ->; done).
    assert (a <> node) by (intros ->; apply elem_of_cons in Ha as [?|?]; congruence).
    assert (b <> node) by (intros ->; apply elem_of_cons in Hb as [?|?]; congruence).
    assert (b <> f) by (intros ->; rewrite Hfh in Hba; congruence).
    by rewrite !decide_False.
Qed.

(** ** The reference: entries, most recently used first *)

Record reference : Type := Reference {
  r_config : QueryCacheConfig;
  r_entries : list entry;
  r_stats : CacheStats;
}.
Definition bump (r : reference) (l : list entry) (hits misses evictions : Z) : reference :=
  Reference (r_config r) l
    {| st_Hits := st_Hits (r_stats r) + hits; st_Misses := st_Misses (r_stats r) + misses;
       st_Evictions := st_Evictions (r_stats r) + evictions; st_LastReset := st_LastReset (r_stats r) |}.

Definition has_key (k : string) (e : entry) : bool := String.eqb (e_key e) k.
Definition ref_find (k : string) (l : list entry) : option entry := List.find (has_key k) l.
Definition ref_remove (k : string) (l : list entry) : list entry := List.filter (fun e => negb (has_key k e)) l.

Definition ref_get (r : reference) (ctx : option string) (key : string) (now : time)
    : result cache_error (option (option V)) * reference :=
  if negb (qc_Enabled (r_config r)) then (Ok None, r)
  else match ctx with
  | Some e => (Err (ErrContext e), r)
  | None =>
      match ref_find key (r_entries r) with
      | None => (Ok None, bump r (r_entries r) 0 1 0)
      | Some e =>
          if time_after now (e_expires e) then (Ok None, bump r (ref_remove key (r_entries r)) 0 1 0)
          else (Ok (Some (e_value e)), bump r (e :: ref_remove key (r_entries r)) 1 0 0)
      end
  end.

Definition ref_set (r : reference) (ctx : option string) (key : string) (value : V) (ttl : duration) (now : time)
    : result cache_error unit * reference :=
  if negb (qc_Enabled (r_config r)) then (Ok tt, r)
  else match ctx with
  | Some e => (Err (ErrContext e), r)
  | None =>
      if String.eqb key "" then (Err ErrEmptyKey, r)
      else
        let ttl := if (ttl =? 0)%Z then qc_TTL (r_config r) else ttl in
        let l := Entry key (Some value) (time_add now ttl) :: ref_remove key (r_entries r) in
        match ref_find key (r_entries r) with
        | Some _ => (Ok tt, bump r l 0 0 0)
        | None =>
            if (qc_MaxSize (r_config r) <? Z.of_nat (length l))%Z then (Ok tt, bump r (removelast l) 0 0 1)
            else (Ok tt, bump r l 0 0 0)
        end
  end.

Definition ref_guard (r : reference) (ctx : option string) (f : reference -> reference)
    : result cache_error unit * reference :=
  match ctx with Some e => (Err (ErrContext e), r) | None => (Ok tt, f r) end.
Definition ref_keep (keep : entry -> bool) (r : reference) : reference := bump r (List.filter keep (r_entries r)) 0 0 0.
Definition ref_clear (now : time) (r : reference) : reference :=
  Reference (r_config r) [] {| st_Hits := 0; st_Misses := 0; st_Evictions := 0; st_LastReset := now |}.

(** ** Representation *)

Definition index (ents : list (N * entry)) : list (string * N) := List.map (fun p => (e_key p.2, p.1)) ents.
Definition spine (c : cache) (ents : list (N * entry)) : list N :=
  (c_head c :: List.map fst ents ++ [c_tail c])%list.

Record represents (c : cache) (r : reference) (ents : list (N * entry)) : Prop := {
  rep_chain : chain (c_heap c) (spine c ents);
  rep_spine : NoDup (spine c ents);
  rep_data a e : (a, e) ∈ ents -> data (c_heap c) a = Some e;
  rep_cache : c_cache c = list_to_map (index ents);
  rep_keys : NoDup (List.map fst (index ents));
  rep_entries : r_entries r = List.map snd ents;
  rep_config : c_config c = r_config r;
  rep_stats : c_stats c = r_stats r;
}.

Lemma index_app l k : index (l ++ k) = (index l ++ index k)%list.
Proof. apply List.map_app. Qed.

Lemma index_lookup c r ents k a :
  represents c r ents -> c_cache c !! k = Some a <-> exists e, (a, e) ∈ ents /\ e_key e = k.
Proof.
  intros Hr. rewrite (rep_cache _ _ _ Hr), <- elem_of_list_to_map by apply Hr.
  unfold index. rewrite list_elem_of_In, List.in_map_iff. split.
  - intros ([a' e] & [= <- ->] & Hin%list_elem_of_In). eauto.
  - intros (e & Hin%list_elem_of_In & <-). by exists (a, e).
Qed.

Lemma index_split c r ents k a :
  represents c r ents -> c_cache c !! k = Some a ->
  exists l1 e l2, ents = (l1 ++ (a, e) :: l2)%list /\ e_key e = k.
Proof.
  intros Hr (e & Hin & Hk)%(index_lookup _ _ _ _ _ Hr). apply list_elem_of_split in Hin as (l1 & l2 & ->). eauto.
Qed.

(** Keys are unique, so that finding and removing act on the one entry. *)
Lemma unique_key l1 (a : N) e l2 x :
  NoDup (List.map fst (index (l1 ++ (a, e) :: l2))) -> x ∈ (l1 ++ l2)%list -> e_key x.2 <> e_key e.
Proof.
  rewrite index_app. simpl. rewrite List.map_app. simpl. intros Hnd Hx Heq.
  rewrite <- Permutation_middle in Hnd. apply NoDup_cons in Hnd as [Hn _]. apply Hn.
  rewrite <- Heq, <- List.map_app, <- index_app. apply list_elem_of_In, List.in_map_iff.
  exists (e_key x.2, x.1). split; [done|]. unfold index. apply List.in_map_iff. exists x. by rewrite <- list_elem_of_In.
Qed.

Lemma ref_find_split l1 (a : N) e l2 :
  NoDup (List.map fst (index (l1 ++ (a, e) :: l2))) ->
  ref_find (e_key e) (List.map snd (l1 ++ (a, e) :: l2)) = Some e.
Proof.
  intros Hnd. assert (forall x, x ∈ l1 -> e_key x.2 <> e_key e) as Hne.
  { intros x Hx. eapply unique_key; [exact Hnd|]. apply elem_of_app. by left. }
  clear Hnd. induction l1 as [|x l1 IH]; simpl; unfold has_key; simpl; [by rewrite String.eqb_refl|].
  destruct (String.eqb_spec (e_key x.2) (e_key e)) as [Heq|]; [by apply Hne in Heq; [|left]|].
  apply IH. intros y Hy. apply Hne. by right.
Qed.

Lemma filter_all {A} (p : A -> bool) l : (forall x, x ∈ l -> p x = true) -> List.filter p l = l.
Proof.
  induction l as [|x l IH]; simpl; intros Hp; [done|]. rewrite (Hp x) by left. f_equal. apply IH.
  intros y Hy. apply Hp. by right.
Qed.

Lemma ref_remove_split l1 (a : N) e l2 :
  NoDup (List.map fst (index (l1 ++ (a, e) :: l2))) ->
  ref_remove (e_key e) (List.map snd (l1 ++ (a, e) :: l2)) = List.map snd (l1 ++ l2).
Proof.
  intros Hnd. unfold ref_remove. rewrite List.map_app, List.filter_app. simpl. unfold has_key at 2.
  rewrite String.eqb_refl. simpl. rewrite <- List.filter_app, <- List.map_app. apply filter_all.
  intros x Hx. apply list_elem_of_In, List.in_map_iff in Hx as (y & <- & Hy%list_elem_of_In).
  apply negb_true_iff, String.eqb_neq. by eapply unique_key.
Qed.

Lemma ref_find_none c r ents k :
  represents c r ents -> c_cache c !! k = None -> ref_find k (r_entries r) = None /\ ref_remove k (r_entries r) = r_entries r.
Proof.
  intros Hr Hk. rewrite (rep_entries _ _ _ Hr).
  assert (forall e, e ∈ List.map snd ents -> has_key k e = false) as Hno.
  { intros e He. apply list_elem_of_In, List.in_map_iff in He as ([a e'] & <- & Hin%list_elem_of_In). simpl.
    apply String.eqb_neq. intros <-. assert (c_cache c !! e_key e' = Some a); [|congruence].
    apply (index_lookup _ _ _ _ _ Hr). eauto. }
  split.
  - unfold ref_find. destruct (List.find _ _) as [e|] eqn:Hf; [|done].
    apply List.find_some in Hf as [Hin%list_elem_of_In Hb]. by rewrite Hno in Hb.
  - apply filter_all. intros e He. by rewrite Hno.
Qed.

(** ** List surgery on the spine *)

Lemma neighbours c l1 a e l2 :
  exists pre p n post,
    spine c (l1 ++ (a, e) :: l2) = (pre ++ p :: a :: n :: post)%list /\ spine c (l1 ++ l2) = (pre ++ p :: n :: post)%list.
Proof.
  unfold spine. destruct (exists_last (l := c_head c :: List.map fst l1)) as (pre & p & Hp); [done|].
  destruct (List.map fst l2 ++ [c_tail c])%list as [|n post] eqn:Hn; [by destruct l2|].
  exists pre, p, n, post. rewrite !List.map_app. simpl. rewrite <- !app_assoc. simpl. rewrite Hn.
  rewrite !app_comm_cons, Hp, <- !app_assoc. done.
Qed.

Lemma chain_alloc h l a : chain h l -> (2 <= length l)%nat -> a ∈ l -> is_Some (data h a).
Proof.
  induction l as [|x l IH]; simpl; [lia|]. destruct l as [|y l]; [simpl; lia|].
  intros (Hxy & Hyx & Hc) _ [->|Ha]%elem_of_cons; [by eapply nxt_alloc|].
  destruct l as [|z l]; [|apply IH; [done|simpl; lia|done]].
  apply list_elem_of_singleton in Ha as ->. by eapply prv_alloc.
Qed.

Lemma spine_alloc c r ents a : represents c r ents -> a ∈ spine c ents -> is_Some (data (c_heap c) a).
Proof. intros Hr Ha. eapply chain_alloc; [apply Hr| |exact Ha]. simpl. rewrite length_app. simpl. lia. Qed.

Lemma remove_links c r l1 a e l2 :
  represents c r (l1 ++ (a, e) :: l2) ->
  exists h, removeNode (c_heap c) a = Some h /\ chain h (spine c (l1 ++ l2)) /\
    (forall x, data h x = data (c_heap c) x).
Proof.
  intros Hr. destruct (neighbours c l1 a e l2) as (pre & p & n & post & Hs & Hs').
  pose proof (rep_chain _ _ _ Hr) as Hc. pose proof (rep_spine _ _ _ Hr) as Hnd. rewrite Hs in Hc, Hnd.
  pose proof Hc as [_ (Hpa & Hap & Han & Hna & _)]%chain_app.
  destruct (removeNode_spec (c_heap c) p a n) as (h & Hrm & Hl); [done|done| | | |].
  - intros ->. apply NoDup_app in Hnd as (_ & _ & [Hn _]%NoDup_cons). apply Hn. left.
  - by eapply nxt_alloc.
  - by eapply prv_alloc.
  - exists h. split; [done|]. rewrite Hs'. split; [|apply Hl]. by eapply chain_remove.
Qed.

Lemma spine_remove c l1 a e l2 : NoDup (spine c (l1 ++ (a, e) :: l2)) ->
  NoDup (spine c (l1 ++ l2)) /\ (a ∉ spine c (l1 ++ l2)).
Proof.
  unfold spine. rewrite !List.map_app. simpl. rewrite <- !app_assoc. simpl.
  rewrite app_comm_cons, <- Permutation_middle. intros [? ?]%NoDup_cons. split; assumption.
Qed.

Lemma spine_cons c a e ents : NoDup (spine c ents) -> a ∉ spine c ents -> NoDup (spine c ((a, e) :: ents)).
Proof.
  unfold spine. simpl. intros [Hh Hnd]%NoDup_cons [Hne Ha]%not_elem_of_cons.
  apply NoDup_cons. split; [by apply not_elem_of_cons|]. by apply NoDup_cons.
Qed.

(** Putting an unlinked node at the head. *)
Lemma add_links h c a e ents :
  chain h (spine c ents) -> NoDup (spine c ents) -> a ∉ spine c ents -> is_Some (data h a) ->
  exists h', addNodeToHead h (c_head c) a = Some h' /\ chain h' (spine c ((a, e) :: ents)) /\
    (forall x, data h' x = data h x).
Proof.
  intros Hc Hnd Ha Hal. unfold spine in *. simpl.
  destruct (List.map fst ents ++ [c_tail c])%list as [|f rest] eqn:Hf; [by destruct ents|].
  pose proof Hc as (Hhf & Hfh & _).
  destruct (addNodeToHead_spec h (c_head c) a f) as (h' & Had & Hl); [done| | |done|by eapply prv_alloc|].
  - intros Heq. apply Ha. rewrite Heq. left.
  - intros ->. apply Ha. right. left.
  - exists h'. split; [done|]. split; [|apply Hl]. by eapply chain_add.
Qed.

Lemma move_links c r l1 a e l2 :
  represents c r (l1 ++ (a, e) :: l2) ->
  exists h, moveToHead (c_heap c) (c_head c) a = Some h /\ chain h (spine c ((a, e) :: l1 ++ l2)) /\
    (forall x, data h x = data (c_heap c) x).
Proof.
  intros Hr. destruct (remove_links _ _ _ _ _ _ Hr) as (h1 & Hrm & Hc1 & Hd1).
  destruct (spine_remove c l1 a e l2 (rep_spine _ _ _ Hr)) as [Hnd Hna].
  destruct (add_links h1 c a e (l1 ++ l2) Hc1 Hnd Hna) as (h2 & Had & Hc2 & Hd2).
  { rewrite Hd1. exists e. apply (rep_data _ _ _ Hr), elem_of_app. right; left. }
  exists h2. unfold moveToHead. rewrite Hrm. split; [exact Had|]. split; [exact Hc2|].
  intros x. by rewrite Hd2.
Qed.

Lemma keys_remove l1 (a : N) e l2 :
  NoDup (List.map fst (index (l1 ++ (a, e) :: l2))) ->
  NoDup (List.map fst (index (l1 ++ l2))) /\
  delete (e_key e) (list_to_map (index (l1 ++ (a, e) :: l2)) : gmap string N) = list_to_map (index (l1 ++ l2)) /\
  NoDup (List.map fst (index ((a, e) :: l1 ++ l2))) /\
  (list_to_map (index (l1 ++ (a, e) :: l2)) : gmap string N) = list_to_map (index ((a, e) :: l1 ++ l2)).
Proof.
  intros Hnd.
  assert (index (l1 ++ (a, e) :: l2) ≡ₚ index ((a, e) :: l1 ++ l2)) as Hp.
  { rewrite !index_app. simpl. rewrite index_app. by rewrite Permutation_middle. }
  assert (NoDup (List.map fst (index ((a, e) :: l1 ++ l2)))) as Hnd' by (by rewrite <- Hp).
  assert ((list_to_map (index (l1 ++ (a, e) :: l2)) : gmap string N) = list_to_map (index ((a, e) :: l1 ++ l2))) as Heq.
  { by apply list_to_map_proper. }
  pose proof Hnd' as [Hn Hrest]%NoDup_cons. split_and!; [done| |done|done].
  rewrite Heq. simpl. rewrite delete_insert_id; [done|]. by apply not_elem_of_list_to_map.
Qed.

(** ** The operations *)

Definition rep (c : cache) (r : reference) : Prop := exists ents, represents c r ents.

Lemma bump0 r l : r_stats (bump r l 0 0 0) = r_stats r.
Proof. unfold bump; simpl. rewrite !Z.add_0_r. by destruct (r_stats r). Qed.

(** Statistics do not touch the list. *)
Lemma represents_stats c r ents st :
  represents c r ents -> represents (with_stats c st) (Reference (r_config r) (r_entries r) st) ents.
Proof. by intros []. Qed.

Lemma represents_entries c r ents : represents c r ents -> r = Reference (c_config c) (List.map snd ents) (c_stats c).
Proof. intros [_ _ _ _ _ <- -> ->]. by destruct r. Qed.

Lemma unlink_spec c r l1 a e l2 :
  represents c r (l1 ++ (a, e) :: l2) ->
  exists c', unlink c (e_key e) a = Some c' /\ represents c' (bump r (List.map snd (l1 ++ l2)) 0 0 0) (l1 ++ l2).
Proof.
  intros Hr. destruct (remove_links _ _ _ _ _ _ Hr) as (h & Hrm & Hc & Hd).
  destruct (keys_remove _ _ _ _ (rep_keys _ _ _ Hr)) as (Hk & Hdel & _).
  unfold unlink. rewrite Hrm. eexists. split; [reflexivity|]. split; simpl.
  - exact Hc.
  - by apply (spine_remove c l1 a e l2), Hr.
  - intros x y Hxy. rewrite Hd. apply (rep_data _ _ _ Hr). rewrite elem_of_app in *. destruct Hxy; [by left|right; by right].
  - by rewrite (rep_cache _ _ _ Hr).
  - done.
  - done.
  - apply Hr.
  - change (c_stats c = r_stats (bump r (List.map snd (l1 ++ l2)) 0 0 0)). rewrite bump0. apply Hr.
Qed.

Lemma move_spec c r l1 a e l2 :
  represents c r (l1 ++ (a, e) :: l2) ->
  exists h, moveToHead (c_heap c) (c_head c) a = Some h /\ data h a = Some e /\
    represents (with_heap c h) (bump r (List.map snd ((a, e) :: l1 ++ l2)) 0 0 0) ((a, e) :: l1 ++ l2).
Proof.
  intros Hr. destruct (move_links _ _ _ _ _ _ Hr) as (h & Hmv & Hc & Hd).
  destruct (keys_remove _ _ _ _ (rep_keys _ _ _ Hr)) as (_ & _ & Hk & Heq).
  assert (forall x y, (x, y) ∈ (a, e) :: l1 ++ l2 -> data h x = Some y) as Hdata.
  { intros x y Hxy. rewrite Hd. apply (rep_data _ _ _ Hr). by rewrite <- Permutation_middle. }
  exists h. split; [done|]. split; [apply Hdata; left|]. split.
  - exact Hc.
  - destruct (spine_remove c l1 a e l2 (rep_spine _ _ _ Hr)). by apply (spine_cons c).
  - exact Hdata.
  - change (c_cache c = list_to_map (index ((a, e) :: l1 ++ l2))). rewrite (rep_cache _ _ _ Hr). exact Heq.
  - exact Hk.
  - done.
  - apply Hr.
  - change (c_stats c = r_stats (bump r (List.map snd ((a, e) :: l1 ++ l2)) 0 0 0)). rewrite bump0. apply Hr.
Qed.

Lemma Get_refines c r ctx key now :
  rep c r -> exists c', Get c ctx key now = Some ((ref_get r ctx key now).1, c') /\ rep c' (ref_get r ctx key now).2.
Proof.
  intros [ents Hr]. unfold Get, ref_get. rewrite (rep_config _ _ _ Hr).
  destruct (negb _); [exists c; split; [done|by exists ents]|].
  destruct ctx as [err|]; simpl; [exists c; split; [done|by exists ents]|].
  destruct (c_cache c !! key) as [a|] eqn:Hk.
  2:{ destruct (ref_find_none _ _ _ _ Hr Hk) as [-> _]. exists (miss c). split; [done|]. exists ents.
      pose proof (represents_stats c r ents (c_stats (miss c)) Hr) as Hs. simpl in Hs.
      rewrite (rep_stats _ _ _ Hr) in Hs. unfold bump, miss. rewrite (rep_stats _ _ _ Hr), !Z.add_0_r. exact Hs. }
  destruct (index_split _ _ _ _ _ Hr Hk) as (l1 & e & l2 & -> & <-).
  pose proof (rep_keys _ _ _ Hr) as Hnd. rewrite (rep_entries _ _ _ Hr), ref_find_split, ref_remove_split by done.
  pose proof (rep_data _ _ _ Hr a e ltac:(apply elem_of_app; right; left)) as Hd.
  pose proof Hd as Hd'. unfold data in Hd'. apply fmap_Some in Hd' as (n & Hn & ->). rewrite Hn. simpl.
  destruct (time_after now (n_expiresAt n)).
  - destruct (unlink_spec _ _ _ _ _ _ Hr) as (c' & Hu & Hr'). simpl in Hu. rewrite Hu. simpl.
    eexists. split; [done|]. exists (l1 ++ l2)%list.
    pose proof (represents_stats c' _ _ (c_stats (miss c')) Hr') as Hs. unfold miss in *.
    pose proof (rep_stats _ _ _ Hr') as Hst. rewrite bump0 in Hst. rewrite Hst in *. unfold bump in *. simpl in *.
    rewrite !Z.add_0_r. exact Hs.
  - destruct (move_spec _ _ _ _ _ _ Hr) as (h & Hmv & Hdh & Hr'). rewrite Hmv. simpl.
    pose proof Hdh as Hdh'. unfold data in Hdh'. apply fmap_Some in Hdh' as (n' & Hn' & [= Hk' Hv He]). rewrite Hn'. simpl.
    rewrite <- Hv. eexists. split; [done|]. eexists ((a, _) :: l1 ++ l2)%list.
    pose proof (represents_stats _ _ _ (c_stats (hit (with_heap c h))) Hr') as Hs. simpl in Hs.
    unfold hit, bump in *. simpl in *. rewrite (rep_stats _ _ _ Hr) in *. rewrite !Z.add_0_r. exact Hs.
Qed.

Lemma Delete_refines c r ctx key :
  rep c r -> exists c', Delete c ctx key = Some ((ref_guard r ctx (ref_keep (fun e => negb (has_key key e)))).1, c') /\
    rep c' (ref_guard r ctx (ref_keep (fun e => negb (has_key key e)))).2.
Proof.
  intros [ents Hr]. unfold Delete, ref_guard. destruct ctx as [err|]; simpl; [exists c; split; [done|by exists ents]|].
  change (ref_keep (fun e => negb (has_key key e)) r) with (bump r (ref_remove key (r_entries r)) 0 0 0).
  destruct (c_cache c !! key) as [a|] eqn:Hk.
  - destruct (index_split _ _ _ _ _ Hr Hk) as (l1 & e & l2 & -> & <-).
    rewrite (rep_entries _ _ _ Hr), ref_remove_split by apply Hr.
    destruct (unlink_spec _ _ _ _ _ _ Hr) as (c' & -> & Hr'). simpl. eexists. split; [done|]. by exists (l1 ++ l2)%list.
  - destruct (ref_find_none _ _ _ _ Hr Hk) as [_ ->]. exists c. split; [done|]. exists ents.
    destruct Hr. split; try done. by rewrite bump0.
Qed.

Lemma Clear_refines c r ctx now :
  rep c r -> exists c', Clear c ctx now = Some ((ref_guard r ctx (ref_clear now)).1, c') /\
    rep c' (ref_guard r ctx (ref_clear now)).2.
Proof.
  intros [ents Hr]. unfold Clear, ref_guard. destruct ctx as [err|]; simpl; [exists c; split; [done|by exists ents]|].
  pose proof (rep_spine _ _ _ Hr) as Hnd.
  assert (c_head c <> c_tail c) as Hht.
  { unfold spine in Hnd. apply NoDup_cons in Hnd as [Hn _]. intros Heq. apply Hn. rewrite Heq.
    apply elem_of_app. right; left. }
  assert (is_Some (data (c_heap c) (c_head c))) as Hah by (eapply spine_alloc; [done|left]).
  assert (is_Some (data (c_heap c) (c_tail c))) as Hat.
  { eapply spine_alloc; [done|]. right. apply elem_of_app. right; left. }
  destruct (write_next_spec (c_heap c) (c_head c) (Some (c_tail c)) Hah) as (h1 & -> & Hnx1 & Hpv1 & Hd1). simpl.
  destruct (write_prev_spec h1 (c_tail c) (Some (c_head c))) as (h2 & -> & Hnx2 & Hpv2 & Hd2); [by rewrite Hd1|]. simpl.
  eexists. split; [done|]. exists []. split; simpl; try done.
  - rewrite Hnx2, Hnx1, decide_True, Hpv2, decide_True by done. done.
  - apply NoDup_cons. split; [|apply NoDup_singleton].
    apply not_elem_of_cons. split; [exact Hht|apply not_elem_of_nil].
  - by intros a e ?%not_elem_of_nil.
  - constructor.
  - apply Hr.
Qed.

Lemma update_spec c r l1 a e l2 n v x :
  represents c r (l1 ++ (a, e) :: l2) -> c_heap c !! a = Some n ->
  represents (with_heap c (<[a := set_value n v x]> (c_heap c)))
    (bump r (List.map snd (l1 ++ (a, Entry (e_key e) (Some v) x) :: l2)) 0 0 0) (l1 ++ (a, Entry (e_key e) (Some v) x) :: l2).
Proof.
  intros Hr Hn. set (h := <[a := set_value n v x]> (c_heap c)).
  assert (n_key n = e_key e) as Hk.
  { pose proof (rep_data _ _ _ Hr a e ltac:(apply elem_of_app; right; left)) as Hd.
    unfold data in Hd. rewrite Hn in Hd. by injection Hd as <-. }
  assert (spine c (l1 ++ (a, Entry (e_key e) (Some v) x) :: l2) = spine c (l1 ++ (a, e) :: l2)) as Hs
    by (unfold spine; by rewrite !List.map_app).
  assert (index (l1 ++ (a, Entry (e_key e) (Some v) x) :: l2) = index (l1 ++ (a, e) :: l2)) as Hi
    by (by rewrite !index_app).
  assert (Hnx : forall y, nxt h y = nxt (c_heap c) y /\ prv h y = prv (c_heap c) y).
  { intros y. unfold nxt, prv, h. destruct (decide (a = y)) as [<-|]; [by rewrite lookup_insert_eq, Hn|by rewrite lookup_insert_ne]. }
  split; simpl.
  - change (chain h (spine c (l1 ++ (a, Entry (e_key e) (Some v) x) :: l2))). rewrite Hs.
    eapply chain_frame; [apply Hr|]. intros y z _ _. by destruct (Hnx y) as [-> _], (Hnx z) as [_ ->].
  - change (NoDup (spine c (l1 ++ (a, Entry (e_key e) (Some v) x) :: l2))). rewrite Hs. apply Hr.
  - intros y z Hyz. destruct (decide (a = y)) as [<-|Hne].
    + assert (z = Entry (e_key e) (Some v) x) as ->.
      { pose proof (rep_spine _ _ _ Hr) as Hnd. rewrite <- Hs in Hnd. apply spine_remove in Hnd as [_ Hna].
        apply elem_of_app in Hyz as [Hyz|[[= ->]|Hyz]%elem_of_cons]; [exfalso|done|exfalso]; apply Hna; right;
          apply elem_of_app; left; rewrite List.map_app; apply elem_of_app; [left|right];
          apply list_elem_of_In, List.in_map_iff; exists (a, z); by rewrite <- list_elem_of_In. }
      unfold data, h. rewrite lookup_insert_eq. simpl. by rewrite Hk.
    + unfold data, h. rewrite lookup_insert_ne by done. apply (rep_data _ _ _ Hr). rewrite elem_of_app in *.
      destruct Hyz as [?|[[= -> _]|?]%elem_of_cons]; [by left|done|right; by right].
  - rewrite Hi. apply Hr.
  - rewrite Hi. apply Hr.
  - done.
  - apply Hr.
  - rewrite !Z.add_0_r. rewrite (rep_stats _ _ _ Hr). by destruct (r_stats r).
Qed.

Lemma push_spec c r ents fresh key v x :
  represents c r ents -> c_heap c !! fresh = None -> c_cache c !! key = None ->
  exists h, addNodeToHead (<[fresh := {| n_key := key; n_value := Some v; n_expiresAt := x; n_prev := None; n_next := None |}]>
              (c_heap c)) (c_head c) fresh = Some h /\
    represents (with_cache (with_heap c h) (<[key := fresh]> (c_cache c)))
      (bump r (Entry key (Some v) x :: r_entries r) 0 0 0) ((fresh, Entry key (Some v) x) :: ents).
Proof.
  intros Hr Hf Hk. set (h0 := <[fresh := _]> (c_heap c)).
  assert (fresh ∉ spine c ents) as Hns.
  { intros Hin. destruct (spine_alloc _ _ _ _ Hr Hin) as [e He]. unfold data in He. by rewrite Hf in He. }
  assert (Hsame : forall y, y <> fresh -> nxt h0 y = nxt (c_heap c) y /\ prv h0 y = prv (c_heap c) y /\ data h0 y = data (c_heap c) y).
  { intros y Hy. unfold nxt, prv, data, h0. by rewrite lookup_insert_ne. }
  destruct (add_links h0 c fresh (Entry key (Some v) x) ents) as (h & Had & Hc & Hd).
  - eapply chain_frame; [apply Hr|]. intros y z Hy Hz. destruct (Hsame y) as (-> & _); [by intros ->|].
    destruct (Hsame z) as (_ & -> & _); [by intros ->|]. done.
  - apply Hr.
  - done.
  - unfold data, h0. rewrite lookup_insert_eq. by eexists.
  - exists h. split; [done|]. split.
    + exact Hc.
    + apply (spine_cons c); [apply Hr|done].
    + intros y z [[= -> ->]|Hyz]%elem_of_cons.
      * simpl. rewrite Hd. unfold data, h0. by rewrite lookup_insert_eq.
      * simpl. rewrite Hd. destruct (Hsame y) as (_ & _ & ->); [|by apply (rep_data _ _ _ Hr)].
        intros ->. apply Hns. right. apply elem_of_app. left. apply list_elem_of_In, List.in_map_iff.
        exists (fresh, z). by rewrite <- list_elem_of_In.
    + simpl. by rewrite (rep_cache _ _ _ Hr).
    + simpl. apply NoDup_cons. split; [|apply Hr]. intros Hin. rewrite (rep_cache _ _ _ Hr) in Hk.
      apply not_elem_of_list_to_map in Hk. by apply Hk.
    + simpl. by rewrite (rep_entries _ _ _ Hr).
    + apply Hr.
    + change (c_stats c = r_stats (bump r (Entry key (Some v) x :: r_entries r) 0 0 0)). rewrite bump0. apply Hr.
Qed.

Lemma evict_spec c r l1 a e :
  represents c r (l1 ++ [(a, e)]) ->
  exists c', evictLRU c = Some c' /\ represents c' (bump r (List.map snd l1) 0 0 1) l1.
Proof.
  intros Hr. pose proof (rep_spine _ _ _ Hr) as Hnd.
  assert (prv (c_heap c) (c_tail c) = Some a) as Hpv.
  { pose proof (rep_chain _ _ _ Hr) as Hc.
    assert (spine c (l1 ++ [(a, e)]) = (c_head c :: List.map fst l1) ++ a :: [c_tail c])%list as Hs
      by (unfold spine; by rewrite List.map_app, <- app_assoc).
    rewrite Hs in Hc.
    apply chain_app in Hc as [_ Hc]. apply Hc. }
  unfold evictLRU. destruct (read_links (c_heap c) (c_tail c) (prv_alloc _ _ _ Hpv)) as (tl & -> & _ & Hp). simpl.
  rewrite Hp, Hpv. simpl. destruct (N.eqb_spec a (c_head c)) as [->|Hne].
  { exfalso. unfold spine in Hnd. apply NoDup_cons in Hnd as [Hn _]. apply Hn, elem_of_app. left.
    rewrite List.map_app. apply elem_of_app. right; left. }
  destruct (unlink_spec _ _ _ _ _ _ Hr) as (c' & Hu & Hr'). rewrite app_nil_r in Hr'. unfold unlink in Hu.
  destruct (removeNode (c_heap c) a) as [h|] eqn:Hrm; [|done]. simpl in *. injection Hu as <-.
  destruct (remove_links _ _ _ _ _ _ Hr) as (h' & Hrm' & _ & Hd). rewrite Hrm in Hrm'. injection Hrm' as <-.
  pose proof (rep_data _ _ _ Hr a e ltac:(apply elem_of_app; right; left)) as Hda. rewrite <- Hd in Hda.
  unfold data in Hda. apply fmap_Some in Hda as (n & Hn & ->). rewrite Hn. simpl in *.
  eexists. split; [done|]. pose proof (represents_stats _ _ _ (c_stats (evicted c)) Hr') as Hs.
  unfold evicted, bump in *. simpl in *. rewrite (rep_stats _ _ _ Hr) in *. rewrite !Z.add_0_r in *. exact Hs.
Qed.

Lemma represents_size c r ents : represents c r ents -> size (c_cache c) = length (r_entries r).
Proof.
  intros Hr. rewrite (rep_cache _ _ _ Hr), map_size_list_to_map, (rep_entries _ _ _ Hr) by apply Hr.
  unfold index. by rewrite !List.length_map.
Qed.

Lemma Set_refines c r ctx key v ttl now fresh :
  rep c r -> c_heap c !! fresh = None ->
  exists c', Set_ c ctx key v ttl now fresh = Some ((ref_set r ctx key v ttl now).1, c') /\
    rep c' (ref_set r ctx key v ttl now).2.
Proof.
  intros [ents Hr] Hf. unfold Set_, ref_set. rewrite (rep_config _ _ _ Hr).
  destruct (negb _); [exists c; split; [done|by exists ents]|].
  destruct ctx as [err|]; cbn [ValidateContext]; [exists c; split; [done|by exists ents]|].
  destruct (String.eqb key ""); [exists c; split; [done|by exists ents]|].
  set (x := time_add now _). destruct (c_cache c !! key) as [a|] eqn:Hk.
  - destruct (index_split _ _ _ _ _ Hr Hk) as (l1 & e & l2 & -> & <-).
    rewrite (rep_entries _ _ _ Hr), ref_find_split, ref_remove_split by apply Hr.
    destruct (spine_alloc _ _ _ a Hr) as [d Hd].
    { right. apply elem_of_app. left. rewrite List.map_app. apply elem_of_app. right; left. }
    unfold data in Hd. apply fmap_Some in Hd as (n & Hn & _). rewrite Hn. simpl.
    pose proof (update_spec _ _ _ _ _ _ _ v x Hr Hn) as Hr'.
    destruct (move_spec _ _ _ _ _ _ Hr') as (h & Hmv & _ & Hr''). simpl in Hmv. rewrite Hmv. simpl.
    eexists. split; [done|]. eexists. unfold bump in *. simpl in *. rewrite !Z.add_0_r in *. exact Hr''.
  - destruct (ref_find_none _ _ _ _ Hr Hk) as [-> ->].
    destruct (push_spec c r ents fresh key v x Hr Hf Hk) as (h & Had & Hr'). rewrite Had. simpl.
    pose proof (represents_size _ _ _ Hr') as Hsz. simpl in Hsz. rewrite Hsz.
    destruct (qc_MaxSize (r_config r) <? Z.of_nat (S (length (r_entries r))))%Z; simpl.
    + destruct (exists_last (l := (fresh, Entry key (Some v) x) :: ents)) as (l1 & [a e] & Hl); [done|].
      rewrite Hl in Hr'. destruct (evict_spec _ _ _ _ _ Hr') as (c' & -> & Hr''). simpl.
      eexists. split; [done|]. exists l1. unfold bump in *. simpl in *. rewrite !Z.add_0_r in *.
      assert (Entry key (Some v) x :: r_entries r = List.map snd l1 ++ [e])%list as Hents.
      { pose proof (f_equal (List.map snd) Hl) as Hm. rewrite List.map_app in Hm. simpl in Hm.
        rewrite <- Hm, (rep_entries _ _ _ Hr). done. }
      change (match r_entries r with [] => [] | _ :: _ => Entry key (Some v) x :: removelast (r_entries r) end)
        with (removelast (Entry key (Some v) x :: r_entries r)).
      rewrite Hents, List.removelast_last. exact Hr''.
    + eexists. split; [done|]. eexists. exact Hr'.
Qed.

(** ** Loops over the map *)

Lemma filter_filter {A} (p q : A -> bool) l : List.filter p (List.filter q l) = List.filter (fun x => q x && p x) l.
Proof. induction l as [|x l IH]; simpl; [done|]. destruct (q x); simpl; [|done]. by rewrite IH. Qed.

Definition swept (d : entry -> bool) (order : list string) (e : entry) : bool :=
  negb (bool_decide (e_key e ∈ order) && d e).

Lemma represents_same c r ents l :
  represents c r ents -> l = List.map snd ents -> represents c (bump r l 0 0 0) ents.
Proof. intros [] ->. split; try done. by rewrite bump0. Qed.

Lemma swept_other d k order l :
  (forall e, e ∈ l -> e_key e <> k) -> List.filter (swept d (k :: order)) l = List.filter (swept d order) l.
Proof.
  intros Hne. apply List.filter_ext_in. intros e He%list_elem_of_In. unfold swept. f_equal. f_equal.
  apply bool_decide_ext. rewrite elem_of_cons. split; [|by right]. intros [Heq|?]; [by apply Hne in Heq|done].
Qed.

Lemma filter_middle (p : entry -> bool) l1 (a : N) e l2 :
  List.filter p (List.map snd (l1 ++ (a, e) :: l2))
  = (List.filter p (List.map snd l1) ++ (if p e then [e] else []) ++ List.filter p (List.map snd l2))%list.
Proof. rewrite List.map_app, List.filter_app. simpl. by destruct (p e). Qed.

(** One turn of the loop, for a key that is in the map. *)
Lemma sweep_turn d k order l1 (a : N) e l2 :
  NoDup (List.map fst (index (l1 ++ (a, e) :: l2))) -> e_key e = k -> k ∉ order ->
  List.filter (swept d (k :: order)) (List.map snd (l1 ++ (a, e) :: l2))
  = List.filter (swept d order) (List.map snd (if d e then l1 ++ l2 else l1 ++ (a, e) :: l2)).
Proof.
  intros Hnd Hk Hno. assert (forall x, x ∈ (l1 ++ l2)%list -> e_key x.2 <> k) as Hne.
  { intros x Hx. rewrite <- Hk. by eapply unique_key. }
  assert (swept d order e = true) as Hke.
  { unfold swept. rewrite bool_decide_false; [done|]. by rewrite Hk. }
  assert (swept d (k :: order) e = negb (d e)) as Hke'.
  { unfold swept. rewrite bool_decide_true; [done|]. rewrite Hk. left. }
  rewrite filter_middle, Hke', !swept_other.
  - destruct (d e); simpl; [by rewrite List.map_app, List.filter_app|by rewrite filter_middle, Hke].
  - intros x Hx. apply list_elem_of_In, List.in_map_iff in Hx as (y & <- & Hy%list_elem_of_In).
    apply Hne, elem_of_app. by right.
  - intros x Hx. apply list_elem_of_In, List.in_map_iff in Hx as (y & <- & Hy%list_elem_of_In).
    apply Hne, elem_of_app. by left.
Qed.

Lemma sweep_refines (doomed : string -> cacheNode -> bool) (d : entry -> bool) order :
  (forall k n, k = n_key n -> doomed k n = d (Entry (n_key n) (n_value n) (n_expiresAt n))) ->
  forall c r, NoDup order -> rep c r ->
  exists c', sweep c doomed order = Some c' /\ rep c' (ref_keep (swept d order) r).
Proof.
  intros Hd. induction order as [|k order IH]; intros c r Hnd [ents Hr]; simpl.
  { exists c. split; [done|]. exists ents. apply represents_same; [done|]. rewrite filter_all; [apply Hr|done]. }
  apply NoDup_cons in Hnd as [Hk Hnd]. destruct (c_cache c !! k) as [a|] eqn:Hc.
  2:{ destruct (IH c r Hnd) as (c' & -> & Hr'); [by exists ents|]. exists c'. split; [done|].
      unfold ref_keep. rewrite swept_other; [exact Hr'|]. intros e He Heq.
      destruct (ref_find_none _ _ _ _ Hr Hc) as [_ Hrm]. rewrite <- Hrm in He.
      apply list_elem_of_In, List.filter_In in He as [_ Hb]. unfold has_key in Hb. by rewrite Heq, String.eqb_refl in Hb. }
  destruct (index_split _ _ _ _ _ Hr Hc) as (l1 & e & l2 & -> & Hek).
  pose proof (rep_data _ _ _ Hr a e ltac:(apply elem_of_app; right; left)) as Hda.
  unfold data in Hda. apply fmap_Some in Hda as (n & Hn & He). rewrite Hn. simpl.
  rewrite (Hd k n) by (by rewrite <- Hek, He). rewrite <- He.
  unfold ref_keep. rewrite (rep_entries _ _ _ Hr), (sweep_turn d k order l1 a e l2) by (done || apply Hr).
  destruct (d e).
  - destruct (unlink_spec _ _ _ _ _ _ Hr) as (c1 & Hu & Hr1). rewrite Hek in Hu. rewrite Hu. simpl.
    destruct (IH c1 _ Hnd (ex_intro _ _ Hr1)) as (c' & -> & Hr'). exists c'. split; [done|].
    unfold ref_keep, bump in *. simpl in *. rewrite !Z.add_0_r in *. exact Hr'.
  - simpl. destruct (IH c _ Hnd (ex_intro _ _ Hr)) as (c' & -> & Hr'). exists c'. split; [done|].
    unfold ref_keep in Hr'. by rewrite (rep_entries _ _ _ Hr) in Hr'.
Qed.

(** A range over the whole map. *)
Lemma sweep_all (doomed : string -> cacheNode -> bool) (d : entry -> bool) order c r :
  (forall k n, k = n_key n -> doomed k n = d (Entry (n_key n) (n_value n) (n_expiresAt n))) ->
  order ≡ₚ List.map fst (map_to_list (c_cache c)) -> rep c r ->
  exists c', sweep c doomed order = Some c' /\ rep c' (ref_keep (fun e => negb (d e)) r).
Proof.
  intros Hd Hp [ents Hr]. destruct (sweep_refines doomed d order Hd c r) as (c' & Hs & Hr').
  - rewrite Hp. apply NoDup_fst_map_to_list.
  - by exists ents.
  - exists c'. split; [done|]. unfold ref_keep in *.
    rewrite (List.filter_ext_in _ (swept d order) (r_entries r)); [done|].
    intros e He%list_elem_of_In. unfold swept. rewrite bool_decide_true; [done|]. rewrite Hp.
    rewrite (rep_entries _ _ _ Hr) in He. apply list_elem_of_In, List.in_map_iff in He as ([a x] & <- & Hin%list_elem_of_In).
    apply list_elem_of_In, List.in_map_iff. exists (e_key x, a). split; [done|].
    apply list_elem_of_In, elem_of_map_to_list, (index_lookup _ _ _ _ _ Hr). eauto.
Qed.

(** ** Histories *)

Inductive cache_op : Type :=
| OpGet (ctx : option string) (key : string) (now : time)
| OpSet (ctx : option string) (key : string) (value : V) (ttl : duration) (now : time)
| OpDelete (ctx : option string) (key : string)
| OpClear (ctx : option string) (now : time)
| OpInvalidate (ctx : option string) (pattern : string)
| OpExpire (now : time).

Inductive answer : Type :=
| Found (r : result cache_error (option (option V)))
| Done (r : result cache_error unit).

(** Go ranges over the map in some order; new nodes get an unused address. *)
Context (range : list string -> list string) (range_perm : forall l, range l ≡ₚ l).

Definition exec (c : cache) (op : cache_op) : option (answer * cache) :=
  let order := range (List.map fst (map_to_list (c_cache c))) in
  match op with
  | OpGet ctx key now => '(a, c') ← Get c ctx key now; Some (Found a, c')
  | OpSet ctx key v ttl now => '(a, c') ← Set_ c ctx key v ttl now (fresh (dom (c_heap c))); Some (Done a, c')
  | OpDelete ctx key => '(a, c') ← Delete c ctx key; Some (Done a, c')
  | OpClear ctx now => '(a, c') ← Clear c ctx now; Some (Done a, c')
  | OpInvalidate ctx pattern => '(a, c') ← InvalidatePattern c ctx pattern order; Some (Done a, c')
  | OpExpire now => c' ← cleanupExpired c now order; Some (Done (Ok tt), c')
  end.

Definition ref_exec (r : reference) (op : cache_op) : answer * reference :=
  match op with
  | OpGet ctx key now => let '(a, r') := ref_get r ctx key now in (Found a, r')
  | OpSet ctx key v ttl now => let '(a, r') := ref_set r ctx key v ttl now in (Done a, r')
  | OpDelete ctx key => let '(a, r') := ref_guard r ctx (ref_keep (fun e => negb (has_key key e))) in (Done a, r')
  | OpClear ctx now => let '(a, r') := ref_guard r ctx (ref_clear now) in (Done a, r')
  | OpInvalidate ctx pattern =>
      let '(a, r') := ref_guard r ctx (ref_keep (fun e => negb (matchesPattern (e_key e) pattern))) in (Done a, r')
  | OpExpire now => (Done (Ok tt), ref_keep (fun e => negb (time_after now (e_expires e))) r)
  end.

Fixpoint run_cache (c : cache) (ops : list cache_op) : option (list answer * cache) :=
  match ops with
  | [] => Some ([], c)
  | op :: rest => '(a, c') ← exec c op; '(l, c'') ← run_cache c' rest; Some (a :: l, c'')
  end.
Fixpoint run_reference (r : reference) (ops : list cache_op) : list answer * reference :=
  match ops with
  | [] => ([], r)
  | op :: rest => let '(a, r') := ref_exec r op in let '(l, r'') := run_reference r' rest in (a :: l, r'')
  end.
Definition new_reference (config : QueryCacheConfig) (now : time) : reference :=
  Reference (c_config (NewLRUQueryCache (V := V) config now)) [] (c_stats (NewLRUQueryCache (V := V) config now)).

Lemma exec_refines c r op :
  rep c r -> exists c', exec c op = Some ((ref_exec r op).1, c') /\ rep c' (ref_exec r op).2.
Proof.
  intros Hr. destruct op as [ctx key now|ctx key v ttl now|ctx key|ctx now|ctx pattern|now]; simpl.
  - destruct (Get_refines c r ctx key now Hr) as (c' & -> & Hr'). destruct (ref_get r ctx key now); simpl in *. eauto.
  - destruct (Set_refines c r ctx key v ttl now (fresh (dom (c_heap c))) Hr) as (c' & -> & Hr').
    { apply not_elem_of_dom, is_fresh. }
    destruct (ref_set r ctx key v ttl now); simpl in *. eauto.
  - destruct (Delete_refines c r ctx key Hr) as (c' & -> & Hr'). destruct (ref_guard r ctx _); simpl in *. eauto.
  - destruct (Clear_refines c r ctx now Hr) as (c' & -> & Hr'). destruct (ref_guard r ctx _); simpl in *. eauto.
  - unfold InvalidatePattern, ref_guard. destruct ctx as [e|]; simpl; [eauto|].
    destruct (sweep_all (fun key _ => matchesPattern key pattern) (fun e => matchesPattern (e_key e) pattern)
                (range (List.map fst (map_to_list (c_cache c)))) c r) as (c' & -> & Hr');
      [by intros k n ->|apply range_perm|done|]. simpl. eauto.
  - unfold cleanupExpired.
    destruct (sweep_all (fun _ n => time_after now (n_expiresAt n)) (fun e => time_after now (e_expires e))
                (range (List.map fst (map_to_list (c_cache c)))) c r) as (c' & -> & Hr');
      [done|apply range_perm|done|]. simpl. eauto.
Qed.

Lemma run_refines ops : forall c r, rep c r ->
  exists c', run_cache c ops = Some ((run_reference r ops).1, c') /\ rep c' (run_reference r ops).2.
Proof.
  induction ops as [|op ops IH]; intros c r Hr; simpl; [eauto|].
  destruct (exec_refines c r op Hr) as (c1 & -> & Hr1). destruct (ref_exec r op) as [a r1]. simpl in *.
  destruct (IH c1 r1 Hr1) as (c2 & -> & Hr2). destruct (run_reference r1 ops) as [l r2]. simpl in *. eauto.
Qed.

Lemma new_rep config now : rep (NewLRUQueryCache config now) (new_reference config now).
Proof.
  exists []. split; try done; simpl.
  - apply NoDup_cons. split; [|apply NoDup_singleton]. apply not_elem_of_cons. split; [done|apply not_elem_of_nil].
  - by intros a e ?%not_elem_of_nil.
  - constructor.
Qed.

(** ** What the reference keeps *)

Definition within_limit (r : reference) : Prop :=
  NoDup (List.map e_key (r_entries r)) /\ (Z.of_nat (length (r_entries r)) <= Z.max 0 (qc_MaxSize (r_config r)))%Z.

Lemma keys_filter (p : entry -> bool) l : NoDup (List.map e_key l) -> NoDup (List.map e_key (List.filter p l)).
Proof.
  induction l as [|e l IH]; simpl; [done|]. intros [He Hnd]%NoDup_cons. destruct (p e); simpl; [|auto].
  apply NoDup_cons. split; [|auto]. intros Hin. apply He. rewrite list_elem_of_In in Hin. rewrite list_elem_of_In.
  apply List.in_map_iff in Hin as (x & Hx & [Hin _]%List.filter_In). apply List.in_map_iff. eauto.
Qed.

Lemma removed_key k l : k ∉ List.map e_key (ref_remove k l).
Proof.
  intros Hin. apply list_elem_of_In, List.in_map_iff in Hin as (e & <- & [_ Hb]%List.filter_In).
  unfold has_key in Hb. by rewrite String.eqb_refl in Hb.
Qed.

Lemma filter_shorter {A} (p : A -> bool) l : (length (List.filter p l) <= length l)%nat.
Proof. induction l as [|x l IH]; simpl; [done|]. destruct (p x); simpl; lia. Qed.

Lemma find_shrinks k l e : ref_find k l = Some e -> (length (ref_remove k l) < length l)%nat.
Proof.
  unfold ref_find, ref_remove. induction l as [|x l IH]; simpl; [done|].
  pose proof (filter_shorter (fun e => negb (has_key k e)) l). destruct (has_key k x); simpl; [lia|]. intros Hf.
  apply IH in Hf. lia.
Qed.

Lemma keys_removelast l : NoDup (List.map e_key l) -> NoDup (List.map e_key (removelast l)).
Proof.
  destruct l as [|x l]; [done|]. destruct (exists_last (l := x :: l)) as (l' & y & ->); [done|].
  rewrite List.removelast_last, List.map_app. by intros [? _]%NoDup_app.
Qed.

Lemma removelast_length {A} (l : list A) : (length (removelast l) = length l - 1)%nat.
Proof. induction l as [|x l IH]; [done|]. destruct l; [done|]. simpl in *. lia. Qed.

Lemma ref_exec_limit r op : within_limit r -> within_limit (ref_exec r op).2 /\ r_config (ref_exec r op).2 = r_config r.
Proof.
  intros [Hk Hl]. pose proof (fun p : entry -> bool => keys_filter p _ Hk) as Hkf.
  pose proof (fun p : entry -> bool => filter_shorter p (r_entries r)) as Hlf.
  assert (forall p a b c, within_limit (bump r (List.filter p (r_entries r)) a b c)) as Hkeep.
  { intros p a b c. split; simpl; [apply Hkf|]. specialize (Hlf p). lia. }
  destruct op as [ctx key now|ctx key v ttl now|ctx key|ctx now|ctx pattern|now]; simpl.
  - unfold ref_get. destruct (negb _); [done|]. destruct ctx; [done|].
    destruct (ref_find key (r_entries r)) as [e|] eqn:Hf; [|done]. destruct (time_after _ _); [split; [apply Hkeep|done]|].
    split; [|done]. pose proof (find_shrinks _ _ _ Hf). split; simpl; [|lia].
    apply List.find_some in Hf as [_ Hb]. apply String.eqb_eq in Hb.
    apply NoDup_cons. split; [rewrite Hb; apply removed_key|apply Hkf].
  - unfold ref_set. destruct (negb _); [done|]. destruct ctx; [done|]. destruct (String.eqb key ""); [done|].
    set (x := time_add now _). assert (NoDup (List.map e_key (Entry key (Some v) x :: ref_remove key (r_entries r)))) as Hnew.
    { simpl. apply NoDup_cons. split; [apply removed_key|apply Hkf]. }
    pose proof (Hlf (fun e => negb (has_key key e))) as Hlr. fold (ref_remove key (r_entries r)) in Hlr.
    destruct (ref_find key (r_entries r)) as [e|] eqn:Hf.
    + split; [|done]. pose proof (find_shrinks _ _ _ Hf). split; [exact Hnew|simpl; lia].
    + destruct (Z.ltb_spec (qc_MaxSize (r_config r)) (Z.of_nat (length (Entry key (Some v) x :: ref_remove key (r_entries r)))));
        (split; [|done]); (split; [|]).
      * by apply keys_removelast.
      * unfold bump. cbn [snd r_entries r_config]. rewrite removelast_length. simpl in *. lia.
      * exact Hnew.
      * simpl in *. lia.
  - unfold ref_guard. destruct ctx; [done|]. split; [apply Hkeep|done].
  - unfold ref_guard. destruct ctx; [done|]. split; [|done]. split; simpl; [constructor|lia].
  - unfold ref_guard. destruct ctx; [done|]. split; [apply Hkeep|done].
  - split; [apply Hkeep|done].
Qed.

Lemma run_limit ops : forall r, within_limit r ->
  within_limit (run_reference r ops).2 /\ r_config (run_reference r ops).2 = r_config r.
Proof.
  induction ops as [|op ops IH]; intros r Hr; simpl; [done|]. destruct (ref_exec_limit r op Hr) as [Hr1 Hc1].
  destruct (ref_exec r op) as [a r1]; simpl in *. destruct (IH r1 Hr1) as [Hr2 Hc2].
  destruct (run_reference r1 ops) as [l r2]; simpl in *. split; [done|congruence].
Qed.

Lemma new_limit config now : within_limit (new_reference config now).
Proof. split; simpl; [constructor|lia]. Qed.

(** C19: The linked cache refines the list: over any history it never dereferences
    nil, gives the answers of the list of entries in order of use, evicting
    its last element, and still represents that list at the end, whatever
    order Go ranges over the map in. *)
Theorem lru_cache_refines_recency_list config now ops :
  exists c', run_cache (NewLRUQueryCache config now) ops = Some ((run_reference (new_reference config now) ops).1, c') /\
    rep c' (run_reference (new_reference config now) ops).2.
Proof. apply run_refines, new_rep. Qed.

(** The cache never holds more entries than its limit. *)
Theorem lru_cache_is_bounded config now ops answers c :
  run_cache (NewLRUQueryCache config now) ops = Some (answers, c) ->
  (Z.of_nat (Size_ c) <= Z.max 0 (qc_MaxSize (c_config c)))%Z.
Proof.
  intros Hrun. destruct (run_refines ops _ _ (new_rep config now)) as (c' & Hrun' & ents & Hr).
  rewrite Hrun in Hrun'. injection Hrun' as -> ->.
  destruct (run_limit ops _ (new_limit config now)) as [[_ Hl] _].
  unfold Size_. rewrite (represents_size _ _ _ Hr), (rep_config _ _ _ Hr). exact Hl.
Qed.

(** ** Recently used values are kept *)

(** Operations that use only the keys [used] and do not ask for the entry of
    [key], which expires at [expires], to be dropped. *)
Definition harmless (key : string) (expires : time) (used : list string) (op : cache_op) : Prop :=
  match op with
  | OpGet _ k now => k = key /\ (now <= expires)%Z \/ k ∈ used
  | OpSet _ k _ _ _ => k ∈ used
  | OpDelete _ k => k <> key
  | OpClear ctx _ => ctx <> None
  | OpInvalidate ctx pattern => ctx <> None \/ matchesPattern key pattern = false
  | OpExpire now => (now <= expires)%Z
  end.

(** Only entries of used keys are ahead of the entry. *)
Definition ahead (e : entry) (used : list string) (l : list entry) : Prop :=
  NoDup (List.map e_key l) /\
  exists l1 l2, l = (l1 ++ e :: l2)%list /\ forall x, x ∈ l1 -> e_key x ∈ used.

Lemma ahead_find e used l : e_key e ∉ used -> ahead e used l -> ref_find (e_key e) l = Some e.
Proof.
  intros Hk (_ & l1 & l2 & -> & Hu). unfold ref_find.
  induction l1 as [|x l1 IH]; simpl; unfold has_key at 1; [by rewrite String.eqb_refl|].
  destruct (String.eqb_spec (e_key x) (e_key e)) as [Heq|].
  - exfalso. apply Hk. rewrite <- Heq. apply Hu. left.
  - apply IH. intros y Hy. apply Hu. by right.
Qed.

Lemma ahead_filter e used p l : p e = true -> ahead e used l -> ahead e used (List.filter p l).
Proof.
  intros Hp (Hnd & l1 & l2 & -> & Hu). split; [by apply keys_filter|].
  rewrite List.filter_app. simpl. rewrite Hp. exists (List.filter p l1), (List.filter p l2). split; [done|].
  intros x Hx. apply list_elem_of_In, List.filter_In in Hx as [Hx%list_elem_of_In _]. auto.
Qed.

Lemma ahead_cons e used k x l :
  ahead e used l -> e_key x = k -> k ∈ used -> k ∉ List.map e_key l -> ahead e used (x :: l).
Proof.
  intros (Hnd & l1 & l2 & -> & Hu) Hx Hk Hn. split; [simpl; apply NoDup_cons; by rewrite Hx|].
  exists (x :: l1), l2. split; [done|]. intros y [->|Hy]%elem_of_cons; [by rewrite Hx|auto].
Qed.

(** A list longer than the used keys does not end with the entry. *)
Lemma ahead_evict e used l :
  ahead e used l -> (length used < length l - 1)%nat -> ahead e used (removelast l).
Proof.
  intros (Hnd & l1 & l2 & -> & Hu) Hlen. split; [by apply keys_removelast|].
  destruct l2 as [|y l2].
  - exfalso. rewrite length_app in Hlen. simpl in Hlen.
    assert (length (List.map e_key l1) <= length used)%nat as Hle.
    { apply submseteq_length, NoDup_submseteq.
      - rewrite List.map_app in Hnd. by apply NoDup_app in Hnd as [? _].
      - intros k Hk. apply list_elem_of_In, List.in_map_iff in Hk as (x & <- & Hx%list_elem_of_In). auto. }
    rewrite List.length_map in Hle. lia.
  - destruct (exists_last (l := y :: l2)) as (l2' & z & Hl); [done|]. rewrite Hl. exists l1, l2'. split; [|done].
    rewrite app_comm_cons, app_assoc, List.removelast_last. done.
Qed.

Lemma has_key_ne k e : e_key e <> k -> negb (has_key k e) = true.
Proof. intros Hne. apply negb_true_iff. by apply String.eqb_neq. Qed.

Lemma ahead_exec e used r op :
  e_key e ∉ used -> (Z.of_nat (length used) < qc_MaxSize (r_config r))%Z ->
  harmless (e_key e) (e_expires e) used op -> ahead e used (r_entries r) ->
  ahead e used (r_entries (ref_exec r op).2).
Proof.
  intros Hk Hcap Hop Ha. destruct op as [ctx k now|ctx k v ttl now|ctx k|ctx now|ctx pattern|now]; simpl in *.
  - unfold ref_get. destruct (negb _); [done|]. destruct ctx; [done|].
    destruct Hop as [[-> Hnow]|Hused].
    + rewrite (ahead_find _ _ _ Hk Ha). destruct (Z.ltb_spec (e_expires e) now); [lia|].
      unfold time_after. rewrite (proj2 (Z.ltb_ge _ _)) by lia. simpl.
      split; [|exists [], (ref_remove (e_key e) (r_entries r)); split; [done|by intros x ?%not_elem_of_nil]].
      simpl. apply NoDup_cons. split; [apply removed_key|]. apply keys_filter, Ha.
    + assert (e_key e <> k) as Hne by (intros <-; done).
      pose proof (ahead_filter e used (fun x => negb (has_key k x)) _ (has_key_ne _ _ Hne) Ha) as Hf.
      destruct (ref_find k (r_entries r)) as [x|] eqn:Hx; [|done].
      destruct (time_after now (e_expires x)); simpl; [exact Hf|].
      apply List.find_some in Hx as [_ Hx%String.eqb_eq]. eapply ahead_cons; [exact Hf|exact Hx|done|apply removed_key].
  - unfold ref_set. destruct (negb _); [done|]. destruct ctx; [done|]. destruct (String.eqb k ""); [done|].
    set (x := Entry k (Some v) _). assert (e_key e <> k) as Hne by (intros <-; done).
    assert (ahead e used (x :: ref_remove k (r_entries r))) as Hnew.
    { eapply ahead_cons; [apply (ahead_filter e used (fun x => negb (has_key k x)) _ (has_key_ne _ _ Hne) Ha)|done|done|].
      apply removed_key. }
    destruct (ref_find k (r_entries r)); [exact Hnew|].
    destruct (Z.ltb_spec (qc_MaxSize (r_config r)) (Z.of_nat (length (x :: ref_remove k (r_entries r))))); [|exact Hnew].
    apply ahead_evict; [exact Hnew|]. lia.
  - unfold ref_guard. destruct ctx; [done|]. apply ahead_filter; [by apply has_key_ne|done].
  - unfold ref_guard. by destruct ctx.
  - unfold ref_guard. destruct ctx; [done|]. destruct Hop as [?|Hop]; [done|].
    apply ahead_filter; [by rewrite Hop|done].
  - apply ahead_filter; [|done]. unfold time_after. apply negb_true_iff, Z.ltb_ge. done.
Qed.

Lemma ahead_run e used ops : forall r,
  e_key e ∉ used -> (Z.of_nat (length used) < qc_MaxSize (r_config r))%Z -> within_limit r ->
  Forall (harmless (e_key e) (e_expires e) used) ops -> ahead e used (r_entries r) ->
  ahead e used (r_entries (run_reference r ops).2) /\ r_config (run_reference r ops).2 = r_config r.
Proof.
  induction ops as [|op ops IH]; intros r Hk Hcap Hl Hops Ha; simpl; [done|]. apply Forall_cons in Hops as [Hop Hops].
  pose proof (ahead_exec e used r op Hk Hcap Hop Ha) as Ha1. destruct (ref_exec_limit r op Hl) as [Hl1 Hc1].
  destruct (ref_exec r op) as [a r1]; simpl in *. destruct (IH r1) as [Ha2 Hc2]; [done|by rewrite Hc1|done|done|done|].
  destruct (run_reference r1 ops) as [l r2]; simpl in *. split; [done|congruence].
Qed.

Lemma run_reference_app ops1 : forall r ops2,
  run_reference r (ops1 ++ ops2) =
  let '(l1, r1) := run_reference r ops1 in let '(l2, r2) := run_reference r1 ops2 in ((l1 ++ l2)%list, r2).
Proof.
  induction ops1 as [|op ops IH]; intros r ops2; simpl; [by destruct (run_reference r ops2)|].
  destruct (ref_exec r op) as [a r1]. rewrite IH. destruct (run_reference r1 ops) as [l1 r2].
  by destruct (run_reference r2 ops2).
Qed.

Lemma stored_ahead r key value ttl now used :
  within_limit r -> qc_Enabled (r_config r) = true -> key <> "" -> (1 <= qc_MaxSize (r_config r))%Z ->
  ahead (Entry key (Some value) (time_add now (if (ttl =? 0)%Z then qc_TTL (r_config r) else ttl))) used
    (r_entries (ref_exec r (OpSet None key value ttl now)).2).
Proof.
  intros [Hnd _] Hen Hkey Hcap. cbn [ref_exec]. unfold ref_set. rewrite Hen. cbn [negb].
  destruct (String.eqb_spec key ""); [done|]. set (e := Entry key (Some value) _).
  assert (ahead e [] (e :: ref_remove key (r_entries r))) as Ha.
  { split; [simpl; apply NoDup_cons; split; [apply removed_key|by apply keys_filter]|].
    exists [], (ref_remove key (r_entries r)). split; [done|by intros x ?%not_elem_of_nil]. }
  assert (forall l, ahead e [] l -> ahead e used l) as Hweak.
  { intros l (? & l1 & l2 & -> & Hu). split; [done|]. exists l1, l2. split; [done|]. intros x Hx.
    apply Hu in Hx. by apply not_elem_of_nil in Hx. }
  destruct (ref_find key (r_entries r)); [by apply Hweak|].
  destruct (Z.ltb_spec (qc_MaxSize (r_config r)) (Z.of_nat (length (e :: ref_remove key (r_entries r))))); [|by apply Hweak].
  apply Hweak, ahead_evict; [done|]. simpl in *. lia.
Qed.

(** A value that was stored stays available: after any history, once a value
    was stored under a key, a later Get within its lifetime returns it,
    provided that fewer other keys than the limit were used in between and
    that nobody asked for it to be dropped. *)
Theorem recently_stored_value_is_found config now0 history key value ttl now ops used now' :
  let cfg := c_config (NewLRUQueryCache (V := V) config now0) in
  let expires := time_add now (if (ttl =? 0)%Z then qc_TTL cfg else ttl) in
  qc_Enabled cfg = true -> key <> "" -> key ∉ used -> (Z.of_nat (length used) < qc_MaxSize cfg)%Z ->
  Forall (harmless key expires used) ops -> (now' <= expires)%Z ->
  exists answers c, run_cache (NewLRUQueryCache config now0)
      (history ++ OpSet None key value ttl now :: ops ++ [OpGet None key now'])
    = Some ((answers ++ [Found (Ok (Some (Some value)))])%list, c).
Proof.
  intros cfg expires Hen Hkey Hk Hcap Hops Hnow'.
  destruct (run_refines (history ++ OpSet None key value ttl now :: ops ++ [OpGet None key now']) _ _ (new_rep config now0))
    as (c & Hrun & _).
  rewrite run_reference_app in Hrun. destruct (run_limit history _ (new_limit config now0)) as [Hl1 Hc1].
  change (r_config (new_reference config now0)) with cfg in Hc1. clearbody cfg.
  destruct (run_reference (new_reference config now0) history) as [l1 r1]; simpl in Hc1, Hl1.
  cbn [run_reference] in Hrun. destruct (ref_exec_limit r1 (OpSet None key value ttl now) Hl1) as [Hl2 Hc2].
  pose proof (stored_ahead r1 key value ttl now used) as Hs. rewrite Hc1 in Hs.
  specialize (Hs Hl1 Hen Hkey ltac:(lia)). fold expires in Hs.
  destruct (ref_exec r1 (OpSet None key value ttl now)) as [a2 r2]. simpl in Hl2, Hc2, Hs.
  rewrite run_reference_app in Hrun.
  destruct (ahead_run (Entry key (Some value) expires) used ops r2) as [Ha3 Hc3]; simpl; try done.
  { rewrite Hc2, Hc1. exact Hcap. }
  destruct (run_reference r2 ops) as [l3 r3]. simpl in Ha3, Hc3. simpl in Hrun. unfold ref_get in Hrun.
  rewrite Hc3, Hc2, Hc1, Hen in Hrun. simpl in Hrun.
  pose proof (ahead_find (Entry key (Some value) expires) used _ Hk Ha3) as Hfind. simpl in Hfind. rewrite Hfind in Hrun. simpl in Hrun.
  unfold time_after in Hrun. rewrite (proj2 (Z.ltb_ge _ _)) in Hrun by lia.
  exists (l1 ++ a2 :: l3)%list, c. rewrite Hrun. by rewrite <- app_assoc.
Qed.
End facts.

(** ** Witnesses *)

Module LruWitness.
Definition config : QueryCacheConfig :=
  {| qc_Enabled := true; qc_MaxSize := 2; qc_TTL := 0; qc_StatsInterval := 0 |}.
Definition history : list (cache_op (V := Z)) :=
  [OpSet None "a" 1%Z 10 0; OpSet None "b" 2%Z 10 1; OpGet None "a" 2; OpSet None "c" 3%Z 10 3; OpGet None "b" 4;
   OpInvalidate None "c"; OpExpire 100].

(** The least recently used entry is the one evicted. *)
Example b_is_evicted :
  fst <$> run_cache (@List.rev string) (NewLRUQueryCache config 0) (take 5 history)
  = Some [Done (Ok tt); Done (Ok tt); Found (Ok (Some (Some 1%Z))); Done (Ok tt); Found (Ok None)].
Proof. vm_compute. reflexivity. Qed.

Lemma rev_perm (l : list string) : List.rev l ≡ₚ l.
Proof. symmetry. apply Permutation_rev. Qed.

Lemma lru_cache_refines_recency_list_witness :
  exists c', run_cache (@List.rev string) (NewLRUQueryCache config 0) history
    = Some ((run_reference (new_reference config 0) history).1, c') /\
    rep c' (run_reference (new_reference config 0) history).2.
Proof. exact (lru_cache_refines_recency_list (@List.rev string) rev_perm config 0 history). Defined.

Lemma lru_cache_is_bounded_witness :
  exists answers c, run_cache (@List.rev string) (NewLRUQueryCache config 0) history = Some (answers, c) /\
    (Z.of_nat (Size_ c) <= Z.max 0 (qc_MaxSize (c_config c)))%Z.
Proof.
  destruct (run_cache (@List.rev string) (NewLRUQueryCache config 0) history) as [[answers c]|] eqn:Hrun;
    [|vm_compute in Hrun; discriminate].
  exists answers, c. exact (conj eq_refl (lru_cache_is_bounded (@List.rev string) rev_perm config 0 history answers c Hrun)).
Defined.

Lemma recently_stored_value_is_found_witness :
  exists answers c, run_cache (@List.rev string) (NewLRUQueryCache config 0)
      (history ++ OpSet None "k" 7%Z 10 200 :: [OpSet None "x" 8%Z 10 201; OpGet None "x" 202] ++ [OpGet None "k" 203])
    = Some ((answers ++ [Found (Ok (Some (Some 7%Z)))])%list, c).
Proof.
  apply (recently_stored_value_is_found (@List.rev string) rev_perm config 0 history "k" 7%Z 10 200
           [OpSet None "x" 8%Z 10 201; OpGet None "x" 202] ["x"] 203).
  - reflexivity.
  - discriminate.
  - intros Hin. apply list_elem_of_singleton in Hin. discriminate.
  - simpl. lia.
  - apply Forall_cons. split; [simpl; left|]. apply Forall_cons. split; [simpl; right; left|]. apply Forall_nil_2.
  - unfold time_add. simpl. lia.
Defined.

(** A comment speaks of substring matching; a pattern matches prefixes only. *)
Example pattern_is_a_prefix : matchesPattern "user:dashboard:1" "dashboard:" = false.
Proof. reflexivity. Qed.
End LruWitness.
