(* ===== verification/MfaStore.v ===== *)
(** modules/mfa/store: the records of multi-factor authentication, the
    interface the service uses ([Repository], of service/service.go), the
    PostgreSQL store (postgres.go, migrations/0001_mfa_base.up.sql) and the
    in-memory store (store.go). *)

From Stdlib Require Import Ascii String.
From S2P Require Import Prelude GoStrings.

Local Open Scope string_scope.

(** ** Records and errors (store.go) *)

Inductive mfa_error : Type :=
| ErrEnrollmentNotFound
| ErrTOTPFactorNotFound
| ErrBackupCodeNotFound
| ErrTrustedDeviceNotFound
| MfaDb (e : db_error).

#[global] Instance mfa_db_err : DbErr mfa_error := MfaDb.

Record Enrollment : Type := {
  en_ID : string;
  en_IdentityID : string;
  en_SecretCiphertext : string;
  en_ExpiresAt : time;
  en_CreatedAt : time;
}.

Record TOTPFactor : Type := {
  tf_IdentityID : string;
  tf_SecretCiphertext : string;
  tf_EnrolledAt : time;
  tf_LastUsedAt : time;
  tf_CreatedAt : time;
  tf_UpdatedAt : time;
}.

Record BackupCode : Type := {
  bc_ID : string;
  bc_IdentityID : string;
  bc_CodeHash : string;
  bc_BatchID : string;
  bc_UsedAt : option time;
  bc_CreatedAt : time;
}.

Record TrustedDevice : Type := {
  td_ID : string;
  td_IdentityID : string;
  td_TokenHash : string;
  td_TokenPrefix : string;
  td_Label : string;
  td_ExpiresAt : time;
  td_LastUsedAt : option time;
  td_CreatedAt : time;
  td_RevokedAt : option time;
}.

Record Factor : Type := {
  fc_ID : string;
  fc_Method : string;
  fc_Verified : bool;
  fc_EnrolledAt : time;
  fc_LastUsedAt : time;
}.

Definition set_used (usedAt : option time) (c : BackupCode) : BackupCode :=
  {| bc_ID := bc_ID c; bc_IdentityID := bc_IdentityID c; bc_CodeHash := bc_CodeHash c; bc_BatchID := bc_BatchID c;
     bc_UsedAt := usedAt; bc_CreatedAt := bc_CreatedAt c |}.
Definition set_last_used (at_ : time) (d : TrustedDevice) : TrustedDevice :=
  {| td_ID := td_ID d; td_IdentityID := td_IdentityID d; td_TokenHash := td_TokenHash d;
     td_TokenPrefix := td_TokenPrefix d; td_Label := td_Label d; td_ExpiresAt := td_ExpiresAt d;
     td_LastUsedAt := Some at_; td_CreatedAt := td_CreatedAt d; td_RevokedAt := td_RevokedAt d |}.
Definition set_revoked (at_ : time) (d : TrustedDevice) : TrustedDevice :=
  {| td_ID := td_ID d; td_IdentityID := td_IdentityID d; td_TokenHash := td_TokenHash d;
     td_TokenPrefix := td_TokenPrefix d; td_Label := td_Label d; td_ExpiresAt := td_ExpiresAt d;
     td_LastUsedAt := td_LastUsedAt d; td_CreatedAt := td_CreatedAt d; td_RevokedAt := Some at_ |}.
Definition touch_factor (at_ : time) (f : TOTPFactor) : TOTPFactor :=
  {| tf_IdentityID := tf_IdentityID f; tf_SecretCiphertext := tf_SecretCiphertext f;
     tf_EnrolledAt := tf_EnrolledAt f; tf_LastUsedAt := at_; tf_CreatedAt := tf_CreatedAt f; tf_UpdatedAt := at_ |}.
Definition factor_entry (f : TOTPFactor) (identityID : string) : Factor :=
  {| fc_ID := identityID +:+ ":totp"; fc_Method := "totp"; fc_Verified := true;
     fc_EnrolledAt := tf_EnrolledAt f; fc_LastUsedAt := tf_LastUsedAt f |}.

(** ** The interface of the service (service.go, [Repository]) *)

Class Repository (S : Type) := {
  SaveEnrollment : Enrollment -> M S mfa_error unit;
  GetEnrollment : string -> M S mfa_error Enrollment;
  DeleteEnrollment : string -> M S mfa_error unit;
  UpsertTOTPFactor : TOTPFactor -> M S mfa_error unit;
  GetTOTPFactor : string -> M S mfa_error TOTPFactor;
  UpdateTOTPLastUsed : string -> time -> M S mfa_error unit;
  ReplaceBackupCodes : string -> list BackupCode -> M S mfa_error unit;
  ListBackupCodes : string -> M S mfa_error (list BackupCode);
  MarkBackupCodeUsed : string -> string -> time -> M S mfa_error unit;
  SaveTrustedDevice : TrustedDevice -> M S mfa_error unit;
  GetTrustedDevice : string -> string -> string -> M S mfa_error TrustedDevice;
  TouchTrustedDevice : string -> string -> time -> M S mfa_error unit;
  DeleteTrustedDevice : string -> string -> time -> M S mfa_error unit;
  DeleteAllIdentityData : string -> M S mfa_error unit;
  ListFactorsByIdentity : string -> M S mfa_error (list Factor);
}.

(** ** The PostgreSQL store (postgres.go) *)

Module Postgres.

(** [last_used_at] of a factor may be NULL, which is read as the zero time. *)
Record totp_row : Type := {
  tr_secret : string;
  tr_enrolled : time;
  tr_last_used : option time;
  tr_created : time;
  tr_updated : time;
}.

Record tables : Type := {
  t_enrollments : gmap string Enrollment;
  t_factors : gmap string totp_row;
  t_codes : gmap string BackupCode;
  t_devices : gmap string TrustedDevice;
}.

Definition with_enrollments (db : tables) e : tables :=
  {| t_enrollments := e; t_factors := t_factors db; t_codes := t_codes db; t_devices := t_devices db |}.
Definition with_factors (db : tables) f : tables :=
  {| t_enrollments := t_enrollments db; t_factors := f; t_codes := t_codes db; t_devices := t_devices db |}.
Definition with_codes (db : tables) c : tables :=
  {| t_enrollments := t_enrollments db; t_factors := t_factors db; t_codes := c; t_devices := t_devices db |}.
Definition with_devices (db : tables) d : tables :=
  {| t_enrollments := t_enrollments db; t_factors := t_factors db; t_codes := t_codes db; t_devices := d |}.

Definition nullTime (value : time) : option time := if (value =? time_zero)%Z then None else Some value.
Definition nullTimePtr (value : option time) : option time := value ≫= nullTime.
Definition coalesce (value : option time) : time := match value with Some t => t | None => time_zero end.

Definition exec {A} (stmt : tables -> result db_error (A * tables)) : M tables mfa_error A := db_stmt stmt.

(** A statement that always succeeds and returns nothing. *)
Definition update (f : tables -> tables) : M tables mfa_error unit := exec (fun db => Ok (tt, f db)).

Definition SaveEnrollment (e : Enrollment) : M tables mfa_error unit :=
  update (fun db =>
    let row := match t_enrollments db !! en_ID e with
      | None => e
      | Some old =>
          {| en_ID := en_ID e; en_IdentityID := en_IdentityID e; en_SecretCiphertext := en_SecretCiphertext e;
             en_ExpiresAt := en_ExpiresAt e; en_CreatedAt := en_CreatedAt old |}
      end in
    with_enrollments db (<[en_ID e := row]> (t_enrollments db))).

(** A single-row query: [pgx.ErrNoRows] becomes [missing]. *)
Definition query_row {A} (missing : mfa_error) (find : tables -> option A) : M tables mfa_error A :=
  row ← exec (fun db => Ok (find db, db));
  match row with Some a => mret a | None => throw missing end.

(** The id column is the key of the row. *)
Definition enrollment_row (id : string) (e : Enrollment) : Enrollment :=
  {| en_ID := id; en_IdentityID := en_IdentityID e; en_SecretCiphertext := en_SecretCiphertext e;
     en_ExpiresAt := en_ExpiresAt e; en_CreatedAt := en_CreatedAt e |}.

Definition GetEnrollment (enrollmentID : string) : M tables mfa_error Enrollment :=
  query_row ErrEnrollmentNotFound (fun db => enrollment_row enrollmentID <$> t_enrollments db !! enrollmentID).

Definition DeleteEnrollment (enrollmentID : string) : M tables mfa_error unit :=
  update (fun db => with_enrollments db (delete enrollmentID (t_enrollments db))).

Definition UpsertTOTPFactor (f : TOTPFactor) : M tables mfa_error unit :=
  update (fun db =>
    let created := match t_factors db !! tf_IdentityID f with
      | None => tf_CreatedAt f | Some old => tr_created old end in
    with_factors db (<[tf_IdentityID f :=
      {| tr_secret := tf_SecretCiphertext f; tr_enrolled := tf_EnrolledAt f;
         tr_last_used := nullTime (tf_LastUsedAt f); tr_created := created; tr_updated := tf_UpdatedAt f |}]>
      (t_factors db))).

Definition factor_of (identityID : string) (row : totp_row) : TOTPFactor :=
  {| tf_IdentityID := identityID; tf_SecretCiphertext := tr_secret row; tf_EnrolledAt := tr_enrolled row;
     tf_LastUsedAt := coalesce (tr_last_used row); tf_CreatedAt := tr_created row; tf_UpdatedAt := tr_updated row |}.

Definition GetTOTPFactor (identityID : string) : M tables mfa_error TOTPFactor :=
  query_row ErrTOTPFactorNotFound (fun db => factor_of identityID <$> t_factors db !! identityID).

(** An UPDATE of at most one row: no row affected becomes [missing]. *)
Definition update_row (missing : mfa_error) (stmt : tables -> option tables) : M tables mfa_error unit :=
  affected ← exec (fun db => match stmt db with Some db' => Ok (true, db') | None => Ok (false, db) end);
  if affected : bool then mret tt else throw missing.

Definition UpdateTOTPLastUsed (identityID : string) (usedAt : time) : M tables mfa_error unit :=
  update_row ErrTOTPFactorNotFound (fun db =>
    match t_factors db !! identityID with
    | None => None
    | Some row => Some (with_factors db (<[identityID :=
        {| tr_secret := tr_secret row; tr_enrolled := tr_enrolled row; tr_last_used := Some usedAt;
           tr_created := tr_created row; tr_updated := usedAt |}]> (t_factors db)))
    end).

Definition insert_code (code : BackupCode) (db : tables) : result db_error (unit * tables) :=
  match t_codes db !! bc_ID code with
  | Some _ => Err (UniqueViolation "mfa_backup_codes_pkey")
  | None => Ok (tt, with_codes db (<[bc_ID code := set_used (nullTimePtr (bc_UsedAt code)) code]> (t_codes db)))
  end.

Fixpoint insert_codes (codes : list BackupCode) : M tables mfa_error unit :=
  match codes with
  | [] => mret tt
  | code :: rest => exec (insert_code code) ≫= fun _ => insert_codes rest
  end.

Definition of_identity (identityID : string) (c : BackupCode) : bool := String.eqb (bc_IdentityID c) identityID.

Definition ReplaceBackupCodes (identityID : string) (codes : list BackupCode) : M tables mfa_error unit :=
  db_tx (
    update (fun db => with_codes db (filter (fun kv => bc_IdentityID kv.2 <> identityID) (t_codes db)))
    ≫= fun _ => insert_codes codes).

Section scan_order.
Context `{ScanOrder}.

Definition rows_where {V} (row : string -> V -> V) (p : V -> bool) (m : gmap string V) : list V :=
  List.filter p ((fun kv => row kv.1 kv.2) <$> scan m).

Definition code_row (id : string) (c : BackupCode) : BackupCode :=
  {| bc_ID := id; bc_IdentityID := bc_IdentityID c; bc_CodeHash := bc_CodeHash c; bc_BatchID := bc_BatchID c;
     bc_UsedAt := bc_UsedAt c; bc_CreatedAt := bc_CreatedAt c |}.
Definition device_row (id : string) (d : TrustedDevice) : TrustedDevice :=
  {| td_ID := id; td_IdentityID := td_IdentityID d; td_TokenHash := td_TokenHash d;
     td_TokenPrefix := td_TokenPrefix d; td_Label := td_Label d; td_ExpiresAt := td_ExpiresAt d;
     td_LastUsedAt := td_LastUsedAt d; td_CreatedAt := td_CreatedAt d; td_RevokedAt := td_RevokedAt d |}.

Definition ListBackupCodes (identityID : string) : M tables mfa_error (list BackupCode) :=
  exec (fun db => Ok (sort_by (fun a b => (bc_CreatedAt a <=? bc_CreatedAt b)%Z)
    (rows_where code_row (of_identity identityID) (t_codes db)), db)).

Definition is_none {A} (o : option A) : bool := match o with None => true | Some _ => false end.

Definition MarkBackupCodeUsed (identityID codeID : string) (usedAt : time) : M tables mfa_error unit :=
  update_row ErrBackupCodeNotFound (fun db =>
    match t_codes db !! codeID with
    | Some code =>
        if String.eqb (bc_IdentityID code) identityID && is_none (bc_UsedAt code)
        then Some (with_codes db (<[codeID := set_used (Some usedAt) code]> (t_codes db))) else None
    | None => None
    end).

Definition SaveTrustedDevice (d : TrustedDevice) : M tables mfa_error unit :=
  exec (fun db =>
    match t_devices db !! td_ID d with
    | Some _ => Err (UniqueViolation "mfa_trusted_devices_pkey")
    | None =>
        Ok (tt, with_devices db (<[td_ID d :=
          {| td_ID := td_ID d; td_IdentityID := td_IdentityID d; td_TokenHash := td_TokenHash d;
             td_TokenPrefix := td_TokenPrefix d; td_Label := td_Label d; td_ExpiresAt := td_ExpiresAt d;
             td_LastUsedAt := nullTimePtr (td_LastUsedAt d); td_CreatedAt := td_CreatedAt d;
             td_RevokedAt := nullTimePtr (td_RevokedAt d) |}]> (t_devices db)))
    end).

Definition device_matches (identityID tokenHash tokenPrefix : string) (d : TrustedDevice) : bool :=
  String.eqb (td_IdentityID d) identityID && String.eqb (td_TokenHash d) tokenHash &&
  String.eqb (td_TokenPrefix d) tokenPrefix && is_none (td_RevokedAt d).

Definition GetTrustedDevice (identityID tokenHash tokenPrefix : string) : M tables mfa_error TrustedDevice :=
  query_row ErrTrustedDeviceNotFound (fun db =>
    head (sort_by (fun a b => (td_CreatedAt b <=? td_CreatedAt a)%Z)
      (rows_where device_row (device_matches identityID tokenHash tokenPrefix) (t_devices db)))).

Definition update_device (identityID deviceID : string) (f : TrustedDevice -> TrustedDevice) (db : tables) : option tables :=
  match t_devices db !! deviceID with
  | Some d =>
      if String.eqb (td_IdentityID d) identityID && is_none (td_RevokedAt d)
      then Some (with_devices db (<[deviceID := f d]> (t_devices db))) else None
  | None => None
  end.

Definition TouchTrustedDevice (identityID deviceID : string) (touchedAt : time) : M tables mfa_error unit :=
  update_row ErrTrustedDeviceNotFound (update_device identityID deviceID (set_last_used touchedAt)).

Definition DeleteTrustedDevice (identityID deviceID : string) (revokedAt : time) : M tables mfa_error unit :=
  update_row ErrTrustedDeviceNotFound (update_device identityID deviceID (set_revoked revokedAt)).

Definition DeleteAllIdentityData (identityID : string) : M tables mfa_error unit :=
  db_tx (
    update (fun db => with_enrollments db (filter (fun kv => en_IdentityID kv.2 <> identityID) (t_enrollments db)))
    ≫= fun _ => update (fun db => with_codes db (filter (fun kv => bc_IdentityID kv.2 <> identityID) (t_codes db)))
    ≫= fun _ => update (fun db => with_factors db (delete identityID (t_factors db)))
    ≫= fun _ => update (fun db => with_devices db (filter (fun kv => td_IdentityID kv.2 <> identityID) (t_devices db)))).

Definition ListFactorsByIdentity (identityID : string) : M tables mfa_error (list Factor) :=
  exec (fun db => Ok (match t_factors db !! identityID with
    | Some row => [factor_entry (factor_of identityID row) identityID]
    | None => []
    end, db)).

#[global] Instance repository : Repository tables := {
  SaveEnrollment := SaveEnrollment;
  GetEnrollment := GetEnrollment;
  DeleteEnrollment := DeleteEnrollment;
  UpsertTOTPFactor := UpsertTOTPFactor;
  GetTOTPFactor := GetTOTPFactor;
  UpdateTOTPLastUsed := UpdateTOTPLastUsed;
  ReplaceBackupCodes := ReplaceBackupCodes;
  ListBackupCodes := ListBackupCodes;
  MarkBackupCodeUsed := MarkBackupCodeUsed;
  SaveTrustedDevice := SaveTrustedDevice;
  GetTrustedDevice := GetTrustedDevice;
  TouchTrustedDevice := TouchTrustedDevice;
  DeleteTrustedDevice := DeleteTrustedDevice;
  DeleteAllIdentityData := DeleteAllIdentityData;
  ListFactorsByIdentity := ListFactorsByIdentity;
}.
End scan_order.
End Postgres.

(** ** The in-memory store (store.go)

    Each method runs under the mutex, so it is one atomic step; the lists it
    returns are copies. *)

Module Memory.

Record store : Type := {
  enrollments : gmap string Enrollment;
  totpFactors : gmap string TOTPFactor;
  backupCodes : gmap string (list BackupCode);
  trustedDevices : gmap string (list TrustedDevice);
}.

Definition New : store :=
  {| enrollments := ∅; totpFactors := ∅; backupCodes := ∅; trustedDevices := ∅ |}.

Definition locked {A} (f : store -> result mfa_error A * store) : M store mfa_error A :=
  fun w => let '(r, s) := f (w_db w) in (r, World s (w_faults w)).
Definition write (f : store -> store) : M store mfa_error unit := locked (fun s => (Ok tt, f s)).
Definition read {A} (f : store -> result mfa_error A) : M store mfa_error A := locked (fun s => (f s, s)).

Definition with_enrollments (s : store) e : store :=
  {| enrollments := e; totpFactors := totpFactors s; backupCodes := backupCodes s; trustedDevices := trustedDevices s |}.
Definition with_factors (s : store) f : store :=
  {| enrollments := enrollments s; totpFactors := f; backupCodes := backupCodes s; trustedDevices := trustedDevices s |}.
Definition with_codes (s : store) c : store :=
  {| enrollments := enrollments s; totpFactors := totpFactors s; backupCodes := c; trustedDevices := trustedDevices s |}.
Definition with_devices (s : store) d : store :=
  {| enrollments := enrollments s; totpFactors := totpFactors s; backupCodes := backupCodes s; trustedDevices := d |}.

Definition SaveEnrollment (e : Enrollment) : M store mfa_error unit :=
  write (fun s => with_enrollments s (<[en_ID e := e]> (enrollments s))).
Definition GetEnrollment (enrollmentID : string) : M store mfa_error Enrollment :=
  read (fun s => result_of_option ErrEnrollmentNotFound (enrollments s !! enrollmentID)).
Definition DeleteEnrollment (enrollmentID : string) : M store mfa_error unit :=
  write (fun s => with_enrollments s (delete enrollmentID (enrollments s))).
Definition UpsertTOTPFactor (f : TOTPFactor) : M store mfa_error unit :=
  write (fun s => with_factors s (<[tf_IdentityID f := f]> (totpFactors s))).
Definition GetTOTPFactor (identityID : string) : M store mfa_error TOTPFactor :=
  read (fun s => result_of_option ErrTOTPFactorNotFound (totpFactors s !! identityID)).
Definition UpdateTOTPLastUsed (identityID : string) (usedAt : time) : M store mfa_error unit :=
  locked (fun s => match totpFactors s !! identityID with
    | None => (Err ErrTOTPFactorNotFound, s)
    | Some f => (Ok tt, with_factors s (<[identityID := touch_factor usedAt f]> (totpFactors s)))
    end).

Definition codes_of (s : store) (identityID : string) : list BackupCode := default [] (backupCodes s !! identityID).
Definition devices_of (s : store) (identityID : string) : list TrustedDevice := default [] (trustedDevices s !! identityID).

Definition ReplaceBackupCodes (identityID : string) (codes : list BackupCode) : M store mfa_error unit :=
  write (fun s => with_codes s (<[identityID := codes]> (backupCodes s))).
Definition ListBackupCodes (identityID : string) : M store mfa_error (list BackupCode) :=
  read (fun s => Ok (codes_of s identityID)).

(** The loop that changes the first entry with the given identifier. *)
Fixpoint change_first {A} (here : A -> bool) (f : A -> A) (l : list A) : option (list A) :=
  match l with
  | [] => None
  | x :: r => if here x then Some (f x :: r) else (fun r' => x :: r') <$> change_first here f r
  end.

Definition MarkBackupCodeUsed (identityID codeID : string) (usedAt : time) : M store mfa_error unit :=
  locked (fun s =>
    match change_first (fun c => String.eqb (bc_ID c) codeID) (set_used (Some usedAt)) (codes_of s identityID) with
    | Some codes => (Ok tt, with_codes s (<[identityID := codes]> (backupCodes s)))
    | None => (Err ErrBackupCodeNotFound, s)
    end).

Definition SaveTrustedDevice (d : TrustedDevice) : M store mfa_error unit :=
  write (fun s => with_devices s (<[td_IdentityID d := devices_of s (td_IdentityID d) ++ [d]]> (trustedDevices s)))%list.

Definition GetTrustedDevice (identityID tokenHash tokenPrefix : string) : M store mfa_error TrustedDevice :=
  read (fun s => result_of_option ErrTrustedDeviceNotFound
    (List.find (fun d => String.eqb (td_TokenHash d) tokenHash && String.eqb (td_TokenPrefix d) tokenPrefix)
      (devices_of s identityID))).

Definition change_device (identityID deviceID : string) (f : TrustedDevice -> TrustedDevice) : M store mfa_error unit :=
  locked (fun s =>
    match change_first (fun d => String.eqb (td_ID d) deviceID) f (devices_of s identityID) with
    | Some devices => (Ok tt, with_devices s (<[identityID := devices]> (trustedDevices s)))
    | None => (Err ErrTrustedDeviceNotFound, s)
    end).
Definition TouchTrustedDevice (identityID deviceID : string) (touchedAt : time) : M store mfa_error unit :=
  change_device identityID deviceID (set_last_used touchedAt).
Definition DeleteTrustedDevice (identityID deviceID : string) (revokedAt : time) : M store mfa_error unit :=
  change_device identityID deviceID (set_revoked revokedAt).

Definition DeleteAllIdentityData (identityID : string) : M store mfa_error unit :=
  write (fun s =>
    {| enrollments := filter (fun kv => en_IdentityID kv.2 <> identityID) (enrollments s);
       totpFactors := delete identityID (totpFactors s);
       backupCodes := delete identityID (backupCodes s);
       trustedDevices := delete identityID (trustedDevices s) |}).

Definition ListFactorsByIdentity (identityID : string) : M store mfa_error (list Factor) :=
  read (fun s => Ok (match totpFactors s !! identityID with
    | Some f => [factor_entry f identityID] | None => [] end)).

#[global] Instance repository : Repository store := {
  SaveEnrollment := SaveEnrollment;
  GetEnrollment := GetEnrollment;
  DeleteEnrollment := DeleteEnrollment;
  UpsertTOTPFactor := UpsertTOTPFactor;
  GetTOTPFactor := GetTOTPFactor;
  UpdateTOTPLastUsed := UpdateTOTPLastUsed;
  ReplaceBackupCodes := ReplaceBackupCodes;
  ListBackupCodes := ListBackupCodes;
  MarkBackupCodeUsed := MarkBackupCodeUsed;
  SaveTrustedDevice := SaveTrustedDevice;
  GetTrustedDevice := GetTrustedDevice;
  TouchTrustedDevice := TouchTrustedDevice;
  DeleteTrustedDevice := DeleteTrustedDevice;
  DeleteAllIdentityData := DeleteAllIdentityData;
  ListFactorsByIdentity := ListFactorsByIdentity;
}.
End Memory.
