(* ===== verification/MfaService.v ===== *)
(** modules/mfa/service/service.go: time-based one-time passwords (RFC 6238),
    backup codes and trusted devices, over any [Repository]; and
    modules/mfa/grpc/server.go.

    Random draws, identifiers and clock readings are arguments in the order
    the code takes them; a run-time panic (division by zero) is an error. *)

From Stdlib Require Import Ascii String.
From S2P Require Import Prelude GoStrings GoEncoding GoSha256 GoOtp PlatformCrypto CryptoFields GoHttp MfaStore.

Local Open Scope string_scope.

Inductive svc_error : Type :=
| ErrInvalidIdentity
| ErrInvalidEnrollment
| ErrInvalidTOTPCode
| ErrInvalidBackupCode
| ErrCipherKeyRequired
| ErrTrustedDeviceToken
| errTrustedDeviceEntropy
| errSecretEntropy
| SvcStore (e : mfa_error)
| SvcCrypto (e : crypto_error)
| DivideByZero.

Definition trustedDeviceLookupPrefixLength : Z := secrettoken.DefaultLookupPrefixLength.

Record Config : Type := {
  Issuer : string;
  EnrollmentTTL : duration;
  TOTPPeriod : duration;
  TOTPDigits : Z;
  TOTPAllowedTimeWindows : Z;
  BackupCodeCount : Z;
  TrustedDeviceTTL : duration;
  CipherKey : string;
}.

Definition positive_or (z dflt : Z) : Z := if (z <=? 0)%Z then dflt else z.

(** [New]: fields without a value take their defaults. *)
Definition New (cfg : Config) : Config :=
  {| Issuer := if String.eqb (Issuer cfg) "" then "Aegion" else Issuer cfg;
     EnrollmentTTL := positive_or (EnrollmentTTL cfg) (10 * minute);
     TOTPPeriod := positive_or (TOTPPeriod cfg) (30 * second);
     TOTPDigits := positive_or (TOTPDigits cfg) 6;
     TOTPAllowedTimeWindows := positive_or (TOTPAllowedTimeWindows cfg) 1;
     BackupCodeCount := positive_or (BackupCodeCount cfg) 12;
     TrustedDeviceTTL := positive_or (TrustedDeviceTTL cfg) (30 * 24 * hour);
     CipherKey := CipherKey cfg |}.

(** ** Text *)

(** [strings.ReplaceAll(s, c, "")]. *)
Fixpoint remove_char (c : ascii) (s : string) : string :=
  match s with
  | EmptyString => EmptyString
  | String d r => if Ascii.eqb d c then remove_char c r else String d (remove_char c r)
  end.

Definition normalizeTOTPCode (code : string) : string := remove_char "-" (remove_char " " (TrimSpace code)).
Definition normalizeBackupCode (code : string) : string :=
  remove_char "-" (remove_char " " (ToUpper (TrimSpace code))).

(** [net/url]: percent-encoding of a path segment and of a query component. *)
Definition upper_hex (c : ascii) : string := "%" +:+ ToUpper (hex_EncodeToString (String c "")).
Definition unreserved (c : ascii) : bool := is_alnum c || existsb (Ascii.eqb c) ["-"; "_"; "."; "~"]%char.
Fixpoint percent (keep : ascii -> bool) (plus : bool) (s : string) : string :=
  match s with
  | EmptyString => EmptyString
  | String c r =>
      (if plus && Ascii.eqb c " " then "+"
       else if unreserved c || keep c then String c "" else upper_hex c) +:+ percent keep plus r
  end.
Definition PathEscape (s : string) : string :=
  percent (fun c => existsb (Ascii.eqb c) ["$"; "&"; "+"; ":"; "="; "@"]%char) false s.
Definition QueryEscape (s : string) : string := percent (fun _ => false) true s.

(** [url.Values.Encode] lists the keys in order. *)
Definition buildOTPAuthURL (issuer accountName secret : string) (digits period : Z) : string :=
  let label := PathEscape (TrimSpace issuer +:+ ":" +:+ TrimSpace accountName) in
  let query := Join (map (fun kv => QueryEscape kv.1 +:+ "=" +:+ QueryEscape kv.2)
    [("algorithm", "SHA1"); ("digits", FormatInt digits); ("issuer", TrimSpace issuer);
     ("period", FormatInt period); ("secret", secret)]) "&" in
  "otpauth://totp/" +:+ label +:+ "?" +:+ query.

(** ** One-time passwords *)

Definition generateTOTPSecret (buf : option string) : option string := b32_Encode <$> buf.

(** [binary.BigEndian.PutUint64(msg, uint64(counter))]. *)
Definition counter_bytes (counter : Z) : string := string_of (be_bytes 8 (Z.to_N (counter mod 2 ^ 64))).

Definition byte_at (sum : string) (i : Z) : Z :=
  match String.get (Z.to_nat i) sum with Some c => Z.of_N (code c) | None => 0 end.

Local Open Scope Z_scope.

Definition truncated (sum : string) : Z :=
  let offset := Z.land (byte_at sum (Z.of_nat (String.length sum) - 1)) 0x0f in
  Z.lor (Z.lor (Z.lor
    (Z.shiftl (Z.land (byte_at sum offset) 0x7f) 24)
    (Z.shiftl (Z.land (byte_at sum (offset + 1)) 0xff) 16))
    (Z.shiftl (Z.land (byte_at sum (offset + 2)) 0xff) 8))
    (Z.land (byte_at sum (offset + 3)) 0xff).

(** [%0*d] for a number that is not negative. *)
Definition pad_number (width : Z) (z : Z) : string :=
  let s := FormatInt z in zeros (Z.to_nat width - String.length s) +:+ s.

(** The loop that computes the modulus, on 64 bits. *)
Definition otp_modulus (digits : Z) : Z := Nat.iter (Z.to_nat digits) (fun m => wrap64 (m * 10)) 1.

Definition generateTOTPCode (secret : string) (counter digits : Z) : result svc_error string :=
  let sum := hmac_sha1 secret (counter_bytes counter) in
  let binaryCode := truncated sum in
  let modulus := otp_modulus digits in
  if modulus =? 0 then Err DivideByZero
  else Ok (pad_number digits (Z.rem binaryCode modulus)).

(** The offsets [-w], ..., [w], in order. *)
Definition offsets (w : Z) : list Z := map (fun i => Z.of_nat i - w) (seq 0 (Z.to_nat (2 * w + 1))).

Fixpoint any_code (secret code : string) (counter digits : Z) (offs : list Z) : result svc_error bool :=
  match offs with
  | [] => Ok false
  | offset :: rest =>
      generated ← generateTOTPCode secret (wrap64 (counter + offset)) digits;
      if String.eqb generated code then Ok true else any_code secret code counter digits rest
  end.

Definition verifyTOTP (cfg : Config) (secret code : string) (now : time) : result svc_error bool :=
  let code := normalizeTOTPCode code in
  if negb (Z.of_nat (String.length code) =? TOTPDigits cfg) then Ok false
  else match b32_Decode (ToUpper (TrimSpace secret)) with
  | None => Ok false
  | Some decoded =>
      let step := duration_secs (TOTPPeriod cfg) in
      if step =? 0 then Err DivideByZero
      else any_code decoded code (Z.quot (time_unix now) step) (TOTPDigits cfg) (offsets (TOTPAllowedTimeWindows cfg))
  end.

Local Close Scope Z_scope.

(** ** Backup codes *)

Definition generateBackupCode (buf : option string) : result svc_error string :=
  match buf with
  | None => Err (SvcCrypto ErrRngFailed)
  | Some buf =>
      let encoded := ToUpper (b32_Encode buf) in
      if (String.length encoded <? 12)%nat then Ok encoded
      else Ok (str_take 4 encoded +:+ "-" +:+ str_take 4 (str_drop 4 encoded) +:+ "-" +:+
               str_take 4 (str_drop 8 encoded))
  end.

Definition randomTrustedDeviceToken (buf : option string) : option string := b64url_Encode <$> buf.

Definition highestAALForFactors (factors : list Factor) : string :=
  match factors with [] => "aal1" | _ => "aal2" end.

(** What one turn of the loop of [generateAndStoreBackupCodes] draws. *)
Record code_draw : Type := {
  cd_bytes : option string;
  cd_salt : option string;
  cd_id : string;
}.

Record TOTPEnrollmentStartResponse : Type := {
  sr_EnrollmentID : string;
  sr_Secret : string;
  sr_OTPAuthURL : string;
  sr_ExpiresIn : Z;
}.

Record TOTPEnrollmentFinishRequest : Type := {
  fr_IdentityID : string;
  fr_EnrollmentID : string;
  fr_Code : string;
}.

Record MFAStatusResponse : Type := {
  MfaEnrolled : bool;
  HighestAal : string;
  EnrolledMethods : list string;
}.

Record FactorMessage : Type := {
  fm_Id : string;
  fm_Method : string;
  fm_Verified : bool;
  fm_EnrolledAt : Z;
  fm_LastUsedAt : Z;
}.

Section service.
Context `{Primitives} {S : Type} `{Repository S} (cfg : Config).

Abbreviation svc := (M S svc_error).

Definition of_store {A} (m : M S mfa_error A) : svc A := call SvcStore m.
Definition of_crypto {A} (r : result crypto_error A) : svc A :=
  match r with Ok a => mret a | Err e => throw (SvcCrypto e) end.
(** [if cond { return err }]. *)
Definition refuse_if (cond : bool) (e : svc_error) : svc unit := if cond then throw e else mret tt.
(** The identity, without which there is nothing to do. *)
Definition need_identity (identityID : string) : svc string :=
  let identityID := TrimSpace identityID in
  refuse_if (String.eqb identityID "") ErrInvalidIdentity ≫= fun _ => mret identityID.

Definition key_missing : bool := negb (String.length (CipherKey cfg) =? KeySize)%nat.

Definition StartTOTPEnrollment (identityID accountName : string)
    (buf : option string) (enrollmentID : string) (nonce : option string) (now : time)
    : svc TOTPEnrollmentStartResponse :=
  identityID ← need_identity identityID;
  refuse_if key_missing ErrCipherKeyRequired ≫= fun _ =>
  secret ← lift_result (result_of_option errSecretEntropy (generateTOTPSecret buf));
  ciphertext ← of_crypto (EncryptField (CipherKey cfg) secret ("mfa-enrollment:" +:+ enrollmentID) nonce);
  of_store (SaveEnrollment
    {| en_ID := enrollmentID; en_IdentityID := identityID; en_SecretCiphertext := ciphertext;
       en_ExpiresAt := time_add now (EnrollmentTTL cfg); en_CreatedAt := now |}) ≫= fun _ =>
  let accountName := if String.eqb (TrimSpace accountName) "" then identityID else TrimSpace accountName in
  mret {| sr_EnrollmentID := enrollmentID; sr_Secret := secret;
          sr_OTPAuthURL := buildOTPAuthURL (Issuer cfg) accountName secret (TOTPDigits cfg)
                             (duration_secs (TOTPPeriod cfg));
          sr_ExpiresIn := duration_secs (EnrollmentTTL cfg) |}.

Definition decryptEnrollmentSecret (enrollment : Enrollment) : svc string :=
  of_crypto (DecryptField (CipherKey cfg) (en_SecretCiphertext enrollment)
    ("mfa-enrollment:" +:+ en_ID enrollment)).

(** The loop: the codes to show, and the records to store. *)
Fixpoint make_codes (identityID batchID : string) (now : time) (draws : nat -> code_draw) (idx count : nat)
    : result svc_error (list (string * BackupCode)) :=
  match count with
  | O => Ok []
  | Datatypes.S count' =>
      let d := draws idx in
      plain ← generateBackupCode (cd_bytes d);
      hash ← match HashPassword (normalizeBackupCode plain) (cd_salt d) with
             | Ok h => Ok h | Err e => Err (SvcCrypto e) end;
      rest ← make_codes identityID batchID now draws (idx + 1) count';
      Ok ((plain, {| bc_ID := cd_id d; bc_IdentityID := identityID; bc_CodeHash := hash; bc_BatchID := batchID;
                     bc_UsedAt := None; bc_CreatedAt := now |}) :: rest)
  end.

Definition generateAndStoreBackupCodes (identityID : string)
    (batchID : string) (now : time) (draws : nat -> code_draw) : svc (list string) :=
  codes ← lift_result (make_codes identityID batchID now draws 0 (Z.to_nat (BackupCodeCount cfg)));
  of_store (ReplaceBackupCodes identityID (map snd codes)) ≫= fun _ =>
  mret (map fst codes).

Definition CompleteTOTPEnrollment (req : option TOTPEnrollmentFinishRequest)
    (now1 now2 now3 : time) (nonce : option string) (batchID : string) (now4 : time) (draws : nat -> code_draw)
    : svc (list string) :=
  match req with
  | None => throw ErrInvalidIdentity
  | Some req =>
      refuse_if (String.eqb (TrimSpace (fr_IdentityID req)) "") ErrInvalidIdentity ≫= fun _ =>
      refuse_if key_missing ErrCipherKeyRequired ≫= fun _ =>
      enrollment ← call (fun _ => ErrInvalidEnrollment) (GetEnrollment (TrimSpace (fr_EnrollmentID req)));
      refuse_if (negb (String.eqb (en_IdentityID enrollment) (TrimSpace (fr_IdentityID req)))
                 || time_after now1 (en_ExpiresAt enrollment)) ErrInvalidEnrollment ≫= fun _ =>
      secret ← decryptEnrollmentSecret enrollment;
      ok ← lift_result (verifyTOTP cfg secret (fr_Code req) now2);
      refuse_if (negb ok) ErrInvalidTOTPCode ≫= fun _ =>
      factorCiphertext ← of_crypto (EncryptField (CipherKey cfg) secret
        ("mfa-totp:" +:+ en_IdentityID enrollment) nonce);
      of_store (UpsertTOTPFactor
        {| tf_IdentityID := en_IdentityID enrollment; tf_SecretCiphertext := factorCiphertext;
           tf_EnrolledAt := now3; tf_LastUsedAt := now3; tf_CreatedAt := now3; tf_UpdatedAt := now3 |}) ≫= fun _ =>
      of_store (DeleteEnrollment (en_ID enrollment)) ≫= fun _ =>
      generateAndStoreBackupCodes (en_IdentityID enrollment) batchID now4 draws
  end.

Definition VerifyTOTP (identityID code : string) (now : time) : svc unit :=
  identityID ← need_identity identityID;
  factor ← call (fun _ => ErrInvalidTOTPCode) (GetTOTPFactor identityID);
  secret ← of_crypto (DecryptField (CipherKey cfg) (tf_SecretCiphertext factor) ("mfa-totp:" +:+ identityID));
  ok ← lift_result (verifyTOTP cfg secret code now);
  refuse_if (negb ok) ErrInvalidTOTPCode ≫= fun _ =>
  of_store (UpdateTOTPLastUsed identityID now).

(** The loop over the candidates: the first unused code that verifies. *)
Fixpoint find_code (code : string) (codes : list BackupCode) : result svc_error (option BackupCode) :=
  match codes with
  | [] => Ok None
  | candidate :: rest =>
      if negb (Postgres.is_none (bc_UsedAt candidate)) then find_code code rest
      else match VerifyPassword (normalizeBackupCode code) (bc_CodeHash candidate) with
           | Err e => Err (SvcCrypto e)
           | Ok true => Ok (Some candidate)
           | Ok false => find_code code rest
           end
  end.

Definition VerifyBackupCode (identityID code : string) (now : time) : svc unit :=
  identityID ← need_identity identityID;
  codes ← of_store (ListBackupCodes identityID);
  found ← lift_result (find_code code codes);
  match found with
  | None => throw ErrInvalidBackupCode
  | Some candidate => of_store (MarkBackupCodeUsed identityID (bc_ID candidate) now)
  end.

Definition HasEnrolledFactor (identityID : string) : svc bool :=
  factors ← of_store (ListFactorsByIdentity (TrimSpace identityID));
  mret (0 <? length factors)%nat.

Definition RegenerateBackupCodes (identityID : string) (batchID : string) (now : time) (draws : nat -> code_draw)
    : svc (list string) :=
  identityID ← need_identity identityID;
  call (fun _ => ErrInvalidIdentity) (GetTOTPFactor identityID) ≫= fun _ =>
  generateAndStoreBackupCodes identityID batchID now draws.

Definition RememberTrustedDevice (identityID label : string) (buf : option string) (now : time) (deviceID : string)
    : svc (string * time) :=
  identityID ← need_identity identityID;
  token ← lift_result (result_of_option errTrustedDeviceEntropy (randomTrustedDeviceToken buf));
  let expiresAt := time_add now (TrustedDeviceTTL cfg) in
  of_store (SaveTrustedDevice
    {| td_ID := deviceID; td_IdentityID := identityID; td_TokenHash := secrettoken.Hash token;
       td_TokenPrefix := secrettoken.Prefix token trustedDeviceLookupPrefixLength;
       td_Label := TrimSpace label; td_ExpiresAt := expiresAt; td_LastUsedAt := None; td_CreatedAt := now;
       td_RevokedAt := None |}) ≫= fun _ =>
  mret (token, expiresAt).

Definition lookup_device (identityID token : string) : M S mfa_error TrustedDevice :=
  GetTrustedDevice identityID (secrettoken.Hash token) (secrettoken.Prefix token trustedDeviceLookupPrefixLength).

Definition ValidateTrustedDevice (identityID token : string) (now1 now2 : time) : svc bool :=
  let identityID := TrimSpace identityID in
  let token := TrimSpace token in
  if String.eqb identityID "" || String.eqb token "" then mret false
  else
    found ← attempt (lookup_device identityID token);
    match found with
    | Err ErrTrustedDeviceNotFound => mret false
    | Err e => throw (SvcStore e)
    | Ok device =>
        if negb (Postgres.is_none (td_RevokedAt device)) || time_after now1 (td_ExpiresAt device) then mret false
        else of_store (TouchTrustedDevice identityID (td_ID device) now2) ≫= fun _ => mret true
    end.

Definition RevokeTrustedDevice (identityID token : string) (now : time) : svc unit :=
  let identityID := TrimSpace identityID in
  let token := TrimSpace token in
  refuse_if (String.eqb identityID "" || String.eqb token "") ErrTrustedDeviceToken ≫= fun _ =>
  device ← call (fun _ => ErrTrustedDeviceToken) (lookup_device identityID token);
  of_store (DeleteTrustedDevice identityID (td_ID device) now).

Definition ResetIdentity (identityID : string) : svc unit :=
  identityID ← need_identity identityID;
  of_store (DeleteAllIdentityData identityID).

Definition GetStatus (identityID : string) : svc MFAStatusResponse :=
  factors ← of_store (ListFactorsByIdentity (TrimSpace identityID));
  mret {| MfaEnrolled := (0 <? length factors)%nat; HighestAal := highestAALForFactors factors;
          EnrolledMethods := map fc_Method factors |}.

Definition GetEnrolledFactors (identityID : string) : svc (list FactorMessage) :=
  factors ← of_store (ListFactorsByIdentity (TrimSpace identityID));
  mret (map (fun f => {| fm_Id := fc_ID f; fm_Method := fc_Method f; fm_Verified := fc_Verified f;
                         fm_EnrolledAt := time_unix (fc_EnrolledAt f);
                         fm_LastUsedAt := time_unix (fc_LastUsedAt f) |}) factors).
End service.

(** ** The gRPC adapter (grpc/server.go): without a provider, nothing is enrolled *)

Module Grpc.
Definition GetStatus {S} (provider : option (string -> M S svc_error MFAStatusResponse)) (identityID : string)
    : M S svc_error MFAStatusResponse :=
  match provider with
  | Some get => get identityID
  | None => mret {| MfaEnrolled := false; HighestAal := "aal1"; EnrolledMethods := [] |}
  end.
Definition GetEnrolledFactors {S} (provider : option (string -> M S svc_error (list FactorMessage)))
    (identityID : string) : M S svc_error (list FactorMessage) :=
  match provider with
  | Some get => get identityID
  | None => mret []
  end.
End Grpc.

(** RFC 6238, appendix B (SHA-1, eight digits): the seed at 59 s and 1111111109 s. *)
Example totp_rfc6238 :
  generateTOTPCode "12345678901234567890" 1 8 = Ok "94287082" /\
  generateTOTPCode "12345678901234567890" (Z.quot 1111111109 30) 8 = Ok "07081804".
Proof. vm_compute. done. Qed.
