(* ===== verification/MfaFacts.v ===== *)
(** One-time passwords: what [verifyTOTP] accepts, and that an enrolled secret
    keeps verifying, over any store that meets [EnrollmentLaws].

    Both stores meet what enrolment relies on; enrolled secrets and generated
    backup codes verify. *)

From Stdlib Require Import Ascii String DecimalString DecimalPos DecimalZ.
From S2P Require Import Prelude GoStrings GoEncoding GoSha256 GoOtp PlatformCrypto CryptoFields MfaStore MfaService.

Local Open Scope string_scope.
Local Open Scope Z_scope.

(** ** Decimal numbers have as many digits as their size *)

Lemma of_uint_acc_digits u : forall acc,
  Z.pos acc * 10 ^ Z.of_nat (String.length (NilEmpty.string_of_uint u)) <= Z.pos (Pos.of_uint_acc u acc).
Proof.
  induction u as [|u IH|u IH|u IH|u IH|u IH|u IH|u IH|u IH|u IH|u IH]; intros acc;
    cbn [NilEmpty.string_of_uint String.length Pos.of_uint_acc]; [lia|..];
    match goal with |- _ <= Z.pos (Pos.of_uint_acc u ?a) => specialize (IH a) end;
    rewrite Nat2Z.inj_succ, Z.pow_succ_r by lia;
    (etrans; [|exact IH]);
    set (p := 10 ^ Z.of_nat (String.length (NilEmpty.string_of_uint u))) in *;
    assert (0 <= p) by (subst p; apply Z.pow_nonneg; lia); nia.
Qed.

(** A number with leading digit [k]. *)
Ltac leading k :=
  match goal with
  | Hof : Pos.of_uint _ = N.pos ?p |- 10 ^ (Z.of_nat (String.length (NilZero.string_of_uint (_ ?u))) - 1) <= _ =>
      cbn [NilZero.string_of_uint NilEmpty.string_of_uint String.length]; cbn in Hof; injection Hof as Hof;
      pose proof (of_uint_acc_digits u k) as Hacc; rewrite Hof in Hacc;
      rewrite Nat2Z.inj_succ; unfold Z.succ; rewrite Z.add_simpl_r;
      pose proof (Z.pow_nonneg 10 (Z.of_nat (String.length (NilEmpty.string_of_uint u))) ltac:(lia)); nia
  end.

Lemma FormatInt_length z d :
  0 <= z < 10 ^ d -> 1 <= d -> Z.of_nat (String.length (FormatInt z)) <= d.
Proof.
  intros [H0 Hz] Hd. destruct z as [|p|p]; [simpl; lia| |lia]. unfold FormatInt. cbn [Z.to_int NilZero.string_of_int].
  pose proof (Unsigned.of_to p) as Hof.
  assert (Hnorm : Decimal.unorm (Pos.to_uint p) = Pos.to_uint p).
  { rewrite <- Unsigned.to_of, Hof. done. }
  destruct (Z_lt_ge_dec d (Z.of_nat (String.length (NilZero.string_of_uint (Pos.to_uint p))))) as [Hlt|]; [|lia].
  exfalso. assert (10 ^ d <= Z.pos p); [|lia].
  assert (Hlow : 10 ^ (Z.of_nat (String.length (NilZero.string_of_uint (Pos.to_uint p))) - 1) <= Z.pos p).
  { destruct (Pos.to_uint p) as [|u|u|u|u|u|u|u|u|u|u] eqn:Eu; [done| |..].
    - exfalso. revert Hnorm Hof. unfold Decimal.unorm. cbn [Decimal.nzhead].
      destruct (Decimal.nzhead u) eqn:En; intros Hnorm Hof; try done.
      + by injection Hnorm as <-.
      + by eapply DecimalFacts.nzhead_nonzero.
    - leading 1%positive.
    - leading 2%positive.
    - leading 3%positive.
    - leading 4%positive.
    - leading 5%positive.
    - leading 6%positive.
    - leading 7%positive.
    - leading 8%positive.
    - leading 9%positive. }
  etrans; [|exact Hlow]. apply Z.pow_le_mono_r; lia.
Qed.

(** ** The code of a counter *)

Lemma otp_modulus_pow d : 0 <= d <= 18 -> otp_modulus d = 10 ^ d.
Proof.
  intros Hd. unfold otp_modulus. rewrite <- (Z2Nat.id d) at 2 by lia.
  assert (Hn : (Z.to_nat d <= 18)%nat) by lia. induction (Z.to_nat d) as [|n IH]; [done|].
  rewrite Nat.iter_succ, IH by lia. rewrite Nat2Z.inj_succ, Z.pow_succ_r by lia.
  rewrite wrap64_id; [lia|]. pose proof (Z.pow_le_mono_r 10 (Z.of_nat n) 17 ltac:(lia) ltac:(lia)) as Hp.
  pose proof (Z.pow_nonneg 10 (Z.of_nat n) ltac:(lia)).
  unfold in_int64, int64_min, int64_max. change (10 ^ 17) with 100000000000000000 in Hp. lia.
Qed.

Lemma truncated_nonneg sum : 0 <= truncated sum.
Proof.
  assert (Hb : forall i, 0 <= byte_at sum i) by (intros i; unfold byte_at; destruct (String.get _ _); lia).
  unfold truncated. rewrite !Z.lor_nonneg, !Z.shiftl_nonneg, !Z.land_nonneg. naive_solver lia.
Qed.

(** RFC 4226: the truncated digest modulo [10^digits], written with [digits]
    digits. *)
Definition hotp (key : string) (counter digits : Z) : string :=
  pad_number digits (truncated (hmac_sha1 key (counter_bytes counter)) mod 10 ^ digits).

Lemma generateTOTPCode_hotp key counter d : 1 <= d <= 18 -> generateTOTPCode key counter d = Ok (hotp key counter d).
Proof.
  intros Hd. unfold generateTOTPCode, hotp. rewrite otp_modulus_pow by lia.
  pose proof (Z.pow_pos_nonneg 10 d ltac:(lia) ltac:(lia)).
  replace (10 ^ d =? 0) with false by (symmetry; apply Z.eqb_neq; lia).
  rewrite Z.rem_mod_nonneg; [done|apply truncated_nonneg|lia].
Qed.

Lemma zeros_digits n : str_forall is_digit (zeros n) = true.
Proof. by induction n. Qed.

Lemma FormatInt_digits z : 0 <= z -> str_forall is_digit (FormatInt z) = true.
Proof. intros. destruct z as [|p|p]; [done| |lia]. apply uint_string_digits_zero. Qed.

(** A code has exactly the configured number of digits. *)
Lemma hotp_shape key counter d :
  1 <= d -> Z.of_nat (String.length (hotp key counter d)) = d /\ str_forall is_digit (hotp key counter d) = true.
Proof.
  intros Hd. unfold hotp, pad_number.
  set (z := truncated _ mod 10 ^ d).
  assert (Hz : 0 <= z < 10 ^ d) by (apply Z.mod_pos_bound, Z.pow_pos_nonneg; lia).
  pose proof (FormatInt_length z d Hz Hd) as Hl.
  rewrite str_length_app, zeros_length, str_forall_app, zeros_digits, FormatInt_digits by lia. split; [lia|done].
Qed.

Lemma any_code_exists key code counter d offs :
  1 <= d <= 18 ->
  any_code key code counter d offs =
  Ok (existsb (fun o => String.eqb (hotp key (wrap64 (counter + o)) d) code) offs).
Proof.
  intros Hd. induction offs as [|o offs IH]; [done|]. cbn [any_code existsb].
  rewrite generateTOTPCode_hotp by done. simpl. destruct (String.eqb _ code); [done|exact IH].
Qed.

Lemma elem_of_offsets w o : 0 <= w -> In o (offsets w) <-> - w <= o <= w.
Proof.
  intros Hw. unfold offsets. rewrite in_map_iff. split.
  - intros (i & <- & Hi). apply in_seq in Hi. lia.
  - intros Ho. exists (Z.to_nat (o + w)). split; [lia|]. apply in_seq. lia.
Qed.

(** The configurations with which codes can be computed: at most eighteen
    digits (beyond that the modulus overflows), a period of whole seconds. *)
Definition usable (cfg : Config) : Prop :=
  1 <= TOTPDigits cfg <= 18 /\ second <= TOTPPeriod cfg /\ 0 <= TOTPAllowedTimeWindows cfg <= 2 ^ 62.

Definition time_step (cfg : Config) (now : time) : Z := Z.quot (time_unix now) (duration_secs (TOTPPeriod cfg)).

(** [code] is the code of [secret] at a time step at most [w] steps from now. *)
Definition code_of_window (cfg : Config) (secret code : string) (now : time) : Prop :=
  exists key t, b32_Decode (ToUpper (TrimSpace secret)) = Some key /\
    Z.abs (t - time_step cfg now) <= TOTPAllowedTimeWindows cfg /\
    normalizeTOTPCode code = hotp key t (TOTPDigits cfg).

Lemma time_step_bound cfg now :
  usable cfg -> Z.abs (time_unix now) < 2 ^ 62 -> 0 < duration_secs (TOTPPeriod cfg) /\ Z.abs (time_step cfg now) < 2 ^ 62.
Proof.
  intros (_ & Hp & _) Hn.
  assert (Hs : 1 <= duration_secs (TOTPPeriod cfg))
    by (unfold duration_secs; apply Z.quot_le_lower_bound; unfold second in *; lia).
  split; [lia|]. unfold time_step.
  rewrite <- Z.quot_abs, (Z.abs_eq (duration_secs _)) by lia.
  eapply Z.le_lt_trans; [|exact Hn]. apply Z.quot_le_upper_bound; [lia|]. nia.
Qed.

Lemma verifyTOTP_spec cfg secret code now :
  usable cfg -> Z.abs (time_unix now) < 2 ^ 62 ->
  exists b, verifyTOTP cfg secret code now = Ok b /\ (b = true <-> code_of_window cfg secret code now).
Proof.
  intros Hu Hn. destruct (time_step_bound cfg now Hu Hn) as [Hs Ht]. destruct Hu as (Hd & Hp & Hw).
  unfold verifyTOTP, code_of_window. fold (time_step cfg now).
  destruct (Z.eqb_spec (Z.of_nat (String.length (normalizeTOTPCode code))) (TOTPDigits cfg)) as [Hl|Hl]; cbn [negb].
  2: { exists false. split; [done|]. split; [done|]. intros (key & t & _ & _ & Hc). exfalso. apply Hl.
       rewrite Hc. apply hotp_shape. lia. }
  destruct (b32_Decode _) as [key|]; [|exists false; naive_solver].
  replace (duration_secs _ =? 0) with false by (symmetry; apply Z.eqb_neq; lia).
  rewrite any_code_exists by done. eexists. split; [done|]. rewrite existsb_exists. split.
  - intros (o & Ho%elem_of_offsets & Hc); [|lia]. exists key, (time_step cfg now + o).
    apply String.eqb_eq in Hc. rewrite wrap64_id in Hc by (unfold in_int64, int64_min, int64_max; lia).
    split_and!; [done|lia|done].
  - intros (key' & t & [= <-] & Ht' & Hc). exists (t - time_step cfg now).
    rewrite elem_of_offsets, String.eqb_eq, wrap64_id by (unfold in_int64, int64_min, int64_max; lia).
    split; [lia|]. rewrite Hc. f_equal. lia.
Qed.

(** ** What enrolment relies on of a store, when no statement fails *)

Class EnrollmentLaws (S : Type) `{Repository S} := {
  enrollment_of : S -> string -> option Enrollment;
  secret_of : S -> string -> option string;
  codes_of : S -> string -> list BackupCode;
  (** [codes] can be stored for the identity: their identifiers are free. *)
  codes_fit : S -> string -> list BackupCode -> Prop;
  SaveEnrollment_law : forall e s, exists s' e',
    SaveEnrollment e (World s []) = (Ok tt, World s' []) /\ enrollment_of s' (en_ID e) = Some e' /\
    en_ID e' = en_ID e /\ en_IdentityID e' = en_IdentityID e /\
    en_SecretCiphertext e' = en_SecretCiphertext e /\ en_ExpiresAt e' = en_ExpiresAt e /\
    codes_fit s' = codes_fit s;
  GetEnrollment_law : forall id e s,
    enrollment_of s id = Some e -> GetEnrollment id (World s []) = (Ok e, World s []);
  DeleteEnrollment_law : forall id s, exists s',
    DeleteEnrollment id (World s []) = (Ok tt, World s' []) /\ secret_of s' = secret_of s /\
    codes_fit s' = codes_fit s;
  UpsertTOTPFactor_law : forall f s, exists s',
    UpsertTOTPFactor f (World s []) = (Ok tt, World s' []) /\
    secret_of s' (tf_IdentityID f) = Some (tf_SecretCiphertext f) /\ codes_fit s' = codes_fit s;
  GetTOTPFactor_law : forall i c s, secret_of s i = Some c -> exists f,
    GetTOTPFactor i (World s []) = (Ok f, World s []) /\ tf_SecretCiphertext f = c;
  UpdateTOTPLastUsed_law : forall i c t s, secret_of s i = Some c -> exists s',
    UpdateTOTPLastUsed i t (World s []) = (Ok tt, World s' []) /\ secret_of s' i = Some c;
  ReplaceBackupCodes_law : forall i codes s, codes_fit s i codes -> exists s',
    ReplaceBackupCodes i codes (World s []) = (Ok tt, World s' []) /\ secret_of s' = secret_of s /\
    codes_of s' i ≡ₚ codes;
  ListBackupCodes_law : forall i s, exists l,
    ListBackupCodes i (World s []) = (Ok l, World s []) /\ l ≡ₚ codes_of s i;
  MarkBackupCodeUsed_law : forall i c t s, c ∈ codes_of s i -> bc_UsedAt c = None -> exists s',
    MarkBackupCodeUsed i (bc_ID c) t (World s []) = (Ok tt, World s' []);
}.

Section enrollment.
Context `{Primitives} {S : Type} `{EnrollmentLaws S} (cfg : Config).

Lemma need_identity_ok i (w : world S) : TrimSpace i = i -> i <> "" -> need_identity i w = (Ok i, w).
Proof. intros Ht Hi. unfold need_identity. rewrite Ht. by apply String.eqb_neq in Hi as ->. Qed.

(** What one turn of the loop needs: the random source answers. *)
Definition good_draw (d : code_draw) : Prop :=
  exists bytes salt, cd_bytes d = Some bytes /\ String.length bytes = 8%nat /\ cd_salt d = Some salt /\ salt <> "".

(** The record stored for a displayed code: unused, and its hash is verified
    by the code. *)
Definition stored_as (i : string) (p : string * BackupCode) : Prop :=
  bc_IdentityID p.2 = i /\ bc_UsedAt p.2 = None /\
  VerifyPassword (normalizeBackupCode p.1) (bc_CodeHash p.2) = Ok true.

Lemma make_codes_ok i batch now draws n : forall idx,
  (forall k, good_draw (draws k)) ->
  exists codes, make_codes i batch now draws idx n = Ok codes /\ length codes = n /\
    map bc_ID (map snd codes) = map (fun k => cd_id (draws k)) (seq idx n) /\ Forall (stored_as i) codes.
Proof.
  induction n as [|n IH]; intros idx Hd; [by exists []|].
  destruct (IH (idx + 1)%nat Hd) as (rest & Hrest & Hl & Hids & Hall).
  destruct (Hd idx) as (bytes & salt & Hb & Hlen & Hs & Hne).
  cbn [make_codes]. rewrite Hb, Hs.
  destruct (generateBackupCode (Some bytes)) as [plain|] eqn:Hg; [|unfold generateBackupCode in Hg; by case_match].
  cbn [mbind result_bind].
  destruct (HashPassword (normalizeBackupCode plain) (Some salt)) as [h|] eqn:Hh; [|done].
  cbn [mbind result_bind]. rewrite Hrest. cbn [mbind result_bind]. eexists. split; [done|].
  cbn [length map seq fst snd bc_ID]. rewrite Hl, Hids, Nat.add_1_r. split_and!; [done..|].
  constructor; [|done]. split_and!; [done..|]. cbn [snd fst bc_CodeHash].
  erewrite password_hash_verifies by done. by rewrite bool_decide_true.
Qed.

Lemma generateAndStoreBackupCodes_ok i batch now draws s :
  (forall k, good_draw (draws k)) ->
  (forall codes, map bc_ID codes = map (fun k => cd_id (draws k)) (seq 0 (Z.to_nat (BackupCodeCount cfg))) ->
     Forall (fun c => bc_IdentityID c = i /\ bc_UsedAt c = None) codes -> codes_fit s i codes) ->
  exists codes s', generateAndStoreBackupCodes cfg i batch now draws (World s []) = (Ok (map fst codes), World s' []) /\
    length codes = Z.to_nat (BackupCodeCount cfg) /\ Forall (stored_as i) codes /\
    secret_of s' = secret_of s /\ codes_of s' i ≡ₚ map snd codes.
Proof.
  intros Hd Hfit. unfold generateAndStoreBackupCodes.
  destruct (make_codes_ok i batch now draws (Z.to_nat (BackupCodeCount cfg)) 0 Hd) as (codes & Hc & Hl & Hids & Hall).
  destruct (ReplaceBackupCodes_law i (map snd codes) s) as (s' & Hr & Hsec & Hcodes).
  { apply Hfit; [exact Hids|]. apply Forall_map. eapply Forall_impl; [exact Hall|]. intros p (? & ? & ?). done. }
  exists codes, s'. split_and!; try done.
  rewrite M_bind_run. unfold lift_result. rewrite Hc, M_bind_run. unfold of_store.
  rewrite call_run, Hr. done.
Qed.

Lemma of_crypto_ok {A} (r : result crypto_error A) a (w : world S) : r = Ok a -> of_crypto r w = (Ok a, w).
Proof. by intros ->. Qed.

Lemma EncryptField_ok key text aad nonce :
  String.length key = KeySize -> exists c, EncryptField key text aad (Some nonce) = Ok c.
Proof. intros Hk. unfold EncryptField. rewrite Hk. eexists. reflexivity. Qed.

Context (Hkey : String.length (CipherKey cfg) = KeySize).

Lemma key_present : key_missing cfg = false.
Proof using Hkey. unfold key_missing. by rewrite Hkey. Qed.

(** What [StartTOTPEnrollment] leaves behind: the secret it shows, encrypted
    for the enrolment. *)
Lemma StartTOTPEnrollment_ok i account buf id nonce now s :
  TrimSpace i = i -> i <> "" -> String.length nonce = encryptedNonceBytes ->
  exists resp s' e,
    StartTOTPEnrollment cfg i account (Some buf) id (Some nonce) now (World s []) = (Ok resp, World s' []) /\
    sr_Secret resp = b32_Encode buf /\ sr_EnrollmentID resp = id /\ enrollment_of s' id = Some e /\
    en_ID e = id /\ en_IdentityID e = i /\ en_ExpiresAt e = now + EnrollmentTTL cfg /\
    DecryptField (CipherKey cfg) (en_SecretCiphertext e) ("mfa-enrollment:" +:+ id) = Ok (b32_Encode buf) /\
    codes_fit s' = codes_fit s.
Proof using Hkey.
  intros Ht Hi Hn. unfold StartTOTPEnrollment.
  destruct (EncryptField_ok (CipherKey cfg) (b32_Encode buf) ("mfa-enrollment:" +:+ id) nonce Hkey) as [c Hc].
  rewrite M_bind_run, need_identity_ok by done. rewrite key_present, M_bind_run.
  cbn [refuse_if]. rewrite M_ret_run, M_bind_run. cbn [generateTOTPSecret fmap option_fmap option_map result_of_option].
  unfold lift_result. rewrite M_bind_run, (of_crypto_ok _ c) by done.
  edestruct SaveEnrollment_law as (s' & e & Hs & He & Hid & Hii & Hci & Hex & Hfit).
  rewrite M_bind_run. unfold of_store. rewrite call_run, Hs.
  eexists _, s', e. split; [reflexivity|]. cbn [en_ID en_IdentityID en_SecretCiphertext en_ExpiresAt] in *.
  split_and!; try done. rewrite Hci. by eapply DecryptField_EncryptField.
Qed.

(** [CompleteTOTPEnrollment] with a code of the secret, in time. *)
Lemma CompleteTOTPEnrollment_ok i id e secret req now1 now2 now3 nonce batch now4 draws s :
  TrimSpace i = i -> i <> "" -> TrimSpace id = id -> String.length nonce = encryptedNonceBytes ->
  req = {| fr_IdentityID := i; fr_EnrollmentID := id; fr_Code := fr_Code req |} ->
  enrollment_of s id = Some e -> en_ID e = id -> en_IdentityID e = i -> now1 <= en_ExpiresAt e ->
  DecryptField (CipherKey cfg) (en_SecretCiphertext e) ("mfa-enrollment:" +:+ id) = Ok secret ->
  verifyTOTP cfg secret (fr_Code req) now2 = Ok true ->
  (forall k, good_draw (draws k)) ->
  (forall codes, map bc_ID codes = map (fun k => cd_id (draws k)) (seq 0 (Z.to_nat (BackupCodeCount cfg))) ->
     Forall (fun c => bc_IdentityID c = i /\ bc_UsedAt c = None) codes -> codes_fit s i codes) ->
  exists codes s' c, CompleteTOTPEnrollment cfg (Some req) now1 now2 now3 (Some nonce) batch now4 draws (World s [])
      = (Ok (map fst codes), World s' []) /\
    length codes = Z.to_nat (BackupCodeCount cfg) /\ Forall (stored_as i) codes /\
    codes_of s' i ≡ₚ map snd codes /\ secret_of s' i = Some c /\
    DecryptField (CipherKey cfg) c ("mfa-totp:" +:+ i) = Ok secret.
Proof using Hkey.
  intros Ht Hi Hid Hn Hreq He Heid Hei Hnow Hdec Hv Hd Hfit. unfold CompleteTOTPEnrollment.
  destruct (EncryptField_ok (CipherKey cfg) secret ("mfa-totp:" +:+ i) nonce Hkey) as [c Hc].
  rewrite Hreq. cbn [fr_IdentityID fr_EnrollmentID fr_Code]. rewrite Ht, Hid, key_present.
  apply String.eqb_neq in Hi as Hi'. rewrite Hi', M_bind_run. cbn [refuse_if]. rewrite M_ret_run, M_bind_run, M_ret_run.
  rewrite M_bind_run, call_run, (GetEnrollment_law id e) by done.
  rewrite Hei, String.eqb_refl. unfold time_after. replace (en_ExpiresAt e <? now1) with false by (symmetry; apply Z.ltb_ge; lia).
  cbn [negb orb refuse_if]. rewrite M_bind_run, M_ret_run, M_bind_run. unfold decryptEnrollmentSecret.
  rewrite Heid, (of_crypto_ok _ secret), M_bind_run by done. unfold lift_result. rewrite Hv. cbn [negb refuse_if].
  rewrite M_bind_run, M_ret_run, M_bind_run, (of_crypto_ok _ c) by done.
  edestruct UpsertTOTPFactor_law as (s1 & Hs1 & Hsec & Hfit1). rewrite M_bind_run. unfold of_store at 1.
  rewrite call_run, Hs1. destruct (DeleteEnrollment_law id s1) as (s2 & Hs2 & Hsec2 & Hfit2).
  rewrite M_bind_run. unfold of_store at 1. rewrite call_run, Hs2.
  destruct (generateAndStoreBackupCodes_ok i batch now4 draws s2 Hd) as (codes & s3 & Hg & Hl & Hall & Hsec3 & Hcodes).
  { rewrite Hfit2, Hfit1. done. }
  cbn [tf_IdentityID tf_SecretCiphertext] in Hsec. exists codes, s3, c. split; [exact Hg|].
  rewrite Hsec3, Hsec2, Hsec. split_and!; try done. by eapply DecryptField_EncryptField.
Qed.

(** A stored secret verifies exactly the codes of its window. *)
Lemma VerifyTOTP_stored i secret c code now s :
  TrimSpace i = i -> i <> "" -> usable cfg -> Z.abs (time_unix now) < 2 ^ 62 ->
  secret_of s i = Some c -> DecryptField (CipherKey cfg) c ("mfa-totp:" +:+ i) = Ok secret ->
  ((VerifyTOTP cfg i code now (World s [])).1 = Ok tt <-> code_of_window cfg secret code now) /\
  ((VerifyTOTP cfg i code now (World s [])).1 <> Ok tt ->
     VerifyTOTP cfg i code now (World s []) = (Err ErrInvalidTOTPCode, World s [])).
Proof.
  intros Ht Hi Hu Hn Hsec Hdec. unfold VerifyTOTP. rewrite M_bind_run, need_identity_ok by done.
  destruct (GetTOTPFactor_law i c s Hsec) as (f & Hf & Hfc).
  rewrite M_bind_run, call_run, Hf, M_bind_run, (of_crypto_ok _ secret), M_bind_run by (by rewrite Hfc).
  destruct (verifyTOTP_spec cfg secret code now Hu Hn) as (b & Hb & Hiff). unfold lift_result. rewrite Hb.
  destruct b; cbn [negb refuse_if]; rewrite M_bind_run.
  - rewrite M_ret_run. destruct (UpdateTOTPLastUsed_law i c now s Hsec) as (s' & Hs' & _).
    unfold of_store. rewrite call_run, Hs'. naive_solver.
  - cbn. split; [|done]. split; [done|]. intros Hc. apply Hiff in Hc. done.
Qed.

(** RFC 6238 asks that a code be accepted once; nothing records the time step
    of an accepted code, and the same code is accepted again. *)
Lemma totp_code_replays i secret c code now s :
  TrimSpace i = i -> i <> "" -> usable cfg -> Z.abs (time_unix now) < 2 ^ 62 ->
  secret_of s i = Some c -> DecryptField (CipherKey cfg) c ("mfa-totp:" +:+ i) = Ok secret ->
  code_of_window cfg secret code now ->
  exists s', VerifyTOTP cfg i code now (World s []) = (Ok tt, World s' []) /\
    (VerifyTOTP cfg i code now (World s' [])).1 = Ok tt.
Proof.
  intros Ht Hi Hu Hn Hsec Hdec Hcode. destruct (UpdateTOTPLastUsed_law i c now s Hsec) as (s' & Hs' & Hsec').
  exists s'. split; [|by apply (VerifyTOTP_stored i secret c code now s')].
  unfold VerifyTOTP. rewrite M_bind_run, need_identity_ok by done.
  destruct (GetTOTPFactor_law i c s Hsec) as (f & Hf & Hfc).
  rewrite M_bind_run, call_run, Hf, M_bind_run, (of_crypto_ok _ secret), M_bind_run by (by rewrite Hfc).
  destruct (verifyTOTP_spec cfg secret code now Hu Hn) as (b & Hb & Hiff). unfold lift_result. rewrite Hb.
  destruct b; [|by apply Hiff in Hcode]. cbn [negb refuse_if]. rewrite M_bind_run, M_ret_run.
  unfold of_store. by rewrite call_run, Hs'.
Qed.
End enrollment.

(** ** The PostgreSQL store *)

Module PostgresLaws.
Import Postgres.

Section laws.
Context `{ScanOrder}.

Lemma update_run f s : update f (World s []) = (Ok tt, World (f s) []).
Proof. done. Qed.

Lemma query_row_run {A} missing (find : tables -> option A) s :
  query_row missing find (World s []) = (result_of_option missing (find s), World s []).
Proof. unfold query_row. rewrite M_bind_run. unfold exec. rewrite db_stmt_clean. by destruct (find s). Qed.

Lemma update_row_run missing stmt s :
  update_row missing stmt (World s []) =
  match stmt s with Some s' => (Ok tt, World s' []) | None => (Err missing, World s []) end.
Proof. unfold update_row. rewrite M_bind_run. unfold exec. rewrite db_stmt_clean. by destruct (stmt s). Qed.

Lemma elem_of_rows_where {V} row p (m : gmap string V) v :
  v ∈ rows_where row p m <-> exists k r, m !! k = Some r /\ v = row k r /\ p v = true.
Proof.
  unfold rows_where. rewrite list_elem_of_In, filter_In, <- list_elem_of_In, list_elem_of_fmap.
  setoid_rewrite scan_perm. split.
  - intros [([k r] & -> & Hin%elem_of_map_to_list) Hp]. eauto.
  - intros (k & r & Hk & -> & Hp). split; [|done]. exists (k, r). split; [done|]. by apply elem_of_map_to_list.
Qed.

Lemma rows_where_perm {V} row p (l : list (string * V)) (m : gmap string V) :
  map_to_list m ≡ₚ l -> rows_where row p m ≡ₚ List.filter p ((fun kv => row kv.1 kv.2) <$> l).
Proof.
  intros Hl. unfold rows_where. assert (Hp : scan m ≡ₚ l) by (by rewrite scan_perm).
  apply (fmap_Permutation (fun kv => row kv.1 kv.2)) in Hp. revert Hp.
  generalize ((fun kv => row kv.1 kv.2) <$> scan m), ((fun kv => row kv.1 kv.2) <$> l).
  induction 1; simpl; repeat case_match; try done; by econstructor.
Qed.

Lemma rows_where_insert {V} row p (m : gmap string V) k v :
  m !! k = None -> p (row k v) = true -> rows_where row p (<[k := v]> m) ≡ₚ row k v :: rows_where row p m.
Proof.
  intros Hk Hp. rewrite (rows_where_perm row p ((k, v) :: map_to_list m)) by (by apply map_to_list_insert).
  rewrite (rows_where_perm row p (map_to_list m) m) by done. cbn. by rewrite Hp.
Qed.

Definition fits (db : tables) (i : string) (codes : list BackupCode) : Prop :=
  NoDup (map bc_ID codes) /\ Forall (fun c => bc_IdentityID c = i /\ bc_UsedAt c = None) codes /\
  forall c row, c ∈ codes -> t_codes db !! bc_ID c = Some row -> bc_IdentityID row = i.

Lemma insert_codes_run i codes : forall db,
  NoDup (map bc_ID codes) -> Forall (fun c => bc_IdentityID c = i /\ bc_UsedAt c = None) codes ->
  (forall c, c ∈ codes -> t_codes db !! bc_ID c = None) ->
  exists m, insert_codes codes (World db []) = (Ok tt, World (with_codes db m) []) /\
    rows_where code_row (of_identity i) m ≡ₚ (codes ++ rows_where code_row (of_identity i) (t_codes db))%list.
Proof.
  induction codes as [|c codes IH]; intros db Hnd Hall Hfree.
  { exists (t_codes db). split; [|done]. by destruct db. }
  apply NoDup_cons in Hnd as [Hc Hnd]. apply Forall_cons in Hall as [[Hi Hu] Hall].
  cbn [insert_codes]. rewrite M_bind_run. unfold exec. rewrite db_stmt_clean. unfold insert_code.
  rewrite (Hfree c) by set_solver.
  destruct (IH (with_codes db (<[bc_ID c := set_used (nullTimePtr (bc_UsedAt c)) c]> (t_codes db))) Hnd Hall)
    as (m & Hm & Hp).
  { intros d Hd. cbn [t_codes with_codes]. rewrite lookup_insert_ne; [apply Hfree; set_solver|].
    intros Heq. apply Hc. rewrite list_elem_of_In. apply in_map_iff. exists d. by rewrite <- list_elem_of_In. }
  exists m. split; [exact Hm|]. rewrite Hp. cbn [t_codes with_codes].
  assert (Hrow : code_row (bc_ID c) (set_used (nullTimePtr (bc_UsedAt c)) c) = c) by (rewrite Hu; destruct c; simpl in *; by subst).
  rewrite rows_where_insert, Hrow; [by rewrite <- Permutation_middle|apply Hfree; set_solver|].
  rewrite Hrow. unfold of_identity. by apply String.eqb_eq.
Qed.

Lemma ReplaceBackupCodes_run i codes db :
  fits db i codes -> exists db', ReplaceBackupCodes i codes (World db []) = (Ok tt, World db' []) /\
    t_factors db' = t_factors db /\ rows_where code_row (of_identity i) (t_codes db') ≡ₚ codes.
Proof.
  intros (Hnd & Hall & Hfree). unfold ReplaceBackupCodes, db_tx. rewrite db_stmt_clean, M_bind_run, update_run.
  set (db1 := with_codes db _).
  destruct (insert_codes_run i codes db1 Hnd Hall) as (m & -> & Hp).
  { intros c Hc. apply map_lookup_filter_None. destruct (t_codes db !! bc_ID c) as [row|] eqn:E; [|by left].
    right. intros row' Hrow' Hne. simplify_eq. apply Hne. simpl. eauto. }
  rewrite db_stmt_clean. exists (with_codes db1 m). split_and!; [done|done|].
  cbn [t_codes with_codes]. rewrite Hp.
  assert (He : rows_where code_row (of_identity i) (t_codes db1) = []).
  { apply elem_of_nil_inv. intros c (k & r & Hk & -> & Hp')%elem_of_rows_where.
    apply map_lookup_filter_Some in Hk as [_ Hne]. apply Hne. by apply String.eqb_eq. }
  by rewrite He, app_nil_r.
Qed.

#[export] Instance postgres_enrollment : EnrollmentLaws tables.
Proof.
  refine {| enrollment_of db id := enrollment_row id <$> t_enrollments db !! id;
            secret_of db i := tr_secret <$> t_factors db !! i;
            codes_of db i := rows_where code_row (of_identity i) (t_codes db);
            codes_fit := fits |}.
  - intros e db. eexists _, _. split; [apply update_run|]. cbn [t_enrollments with_enrollments].
    rewrite lookup_insert_eq. split; [reflexivity|]. split_and!; by destruct (t_enrollments db !! en_ID e).
  - intros id e db He. cbn [MfaStore.GetEnrollment repository]. unfold GetEnrollment. by rewrite query_row_run, He.
  - intros id db. eexists. split; [apply update_run|]. done.
  - intros f db. eexists. split; [apply update_run|]. cbn [t_factors with_factors]. by rewrite lookup_insert_eq.
  - intros i c db Hc. cbn [MfaStore.GetTOTPFactor repository]. unfold GetTOTPFactor. rewrite query_row_run.
    destruct (t_factors db !! i) as [row|]; [|done]. simplify_eq/=. eauto.
  - intros i c t db Hc. cbn [MfaStore.UpdateTOTPLastUsed repository]. unfold UpdateTOTPLastUsed. rewrite update_row_run.
    destruct (t_factors db !! i) as [row|]; [|done]. eexists. split; [done|]. cbn [t_factors with_factors].
    rewrite lookup_insert_eq. done.
  - intros i codes db Hfit. destruct (ReplaceBackupCodes_run i codes db Hfit) as (db' & Hr & Hf & Hp).
    exists db'. split_and!; [done| |done]. by rewrite Hf.
  - intros i db. cbn [MfaStore.ListBackupCodes repository]. unfold ListBackupCodes, exec. rewrite db_stmt_clean.
    eexists. split; [reflexivity|]. apply sort_by_perm.
  - intros i c t db (k & r & Hk & -> & Hp)%elem_of_rows_where Hu. cbn [MfaStore.MarkBackupCodeUsed repository].
    unfold MarkBackupCodeUsed. rewrite update_row_run. cbn [bc_ID code_row bc_UsedAt] in *. rewrite Hk.
    unfold of_identity in Hp. cbn [bc_IdentityID code_row] in Hp. rewrite Hp, Hu. eauto.
Defined.
End laws.
End PostgresLaws.

(** ** The in-memory store *)

Module MemoryLaws.
Import Memory.

#[export] Instance memory_enrollment : EnrollmentLaws store.
Proof.
  refine {| enrollment_of s id := enrollments s !! id;
            secret_of s i := tf_SecretCiphertext <$> totpFactors s !! i;
            MfaFacts.codes_of := codes_of;
            codes_fit _ _ _ := True |}.
  - intros e s. eexists _, e. split; [reflexivity|]. cbn [enrollments with_enrollments]. by rewrite lookup_insert_eq.
  - intros id e s He. cbn. unfold read, locked. cbn. by rewrite He.
  - intros id s. eexists. split; [reflexivity|]. done.
  - intros f s. eexists. split; [reflexivity|]. cbn [totpFactors with_factors]. by rewrite lookup_insert_eq.
  - intros i c s Hc. cbn. unfold read, locked. cbn. destruct (totpFactors s !! i) as [f|]; [|done].
    simplify_eq/=. eauto.
  - intros i c t s Hc. cbn [MfaStore.UpdateTOTPLastUsed repository]. unfold UpdateTOTPLastUsed, locked.
    cbn [w_db w_faults]. destruct (totpFactors s !! i) as [f|]; [|done].
    eexists. split; [reflexivity|]. cbn [totpFactors with_factors]. rewrite lookup_insert_eq. by simplify_eq/=.
  - intros i codes s _. eexists. split; [reflexivity|]. split; [done|]. unfold codes_of.
    cbn [backupCodes with_codes]. by rewrite lookup_insert_eq.
  - intros i s. eexists. split; [reflexivity|]. done.
  - intros i c t s Hc _. cbn [MfaStore.MarkBackupCodeUsed repository]. unfold MarkBackupCodeUsed, locked.
    cbn [w_db w_faults].
    assert (Hch : exists l, change_first (fun d => String.eqb (bc_ID d) (bc_ID c)) (set_used (Some t)) (codes_of s i) = Some l).
    { revert Hc. generalize (codes_of s i). induction l as [|d l IH]; [by intros ?%not_elem_of_nil|].
      intros Hin. cbn. destruct (String.eqb_spec (bc_ID d) (bc_ID c)); [eauto|].
      apply elem_of_cons in Hin as [->|Hin]; [done|]. destruct (IH Hin) as [l' ->]. eauto. }
    destruct Hch as [l ->]. eauto.
Defined.
End MemoryLaws.

(** ** The theorems *)

Section props.
Context `{Primitives} {S : Type} `{EnrollmentLaws S} (cfg : Config).


(** The code identifiers drawn are free. *)
Definition fresh_codes (s : S) (i : string) (draws : nat -> code_draw) : Prop :=
  forall codes, map bc_ID codes = map (fun k => cd_id (draws k)) (seq 0 (Z.to_nat (BackupCodeCount cfg))) ->
    Forall (fun c => bc_IdentityID c = i /\ bc_UsedAt c = None) codes -> codes_fit s i codes.

(** The unused stored codes verify the codes that were shown. *)
Lemma find_code_stored i codes l plain :
  Forall (stored_as i) codes -> l ≡ₚ map snd codes -> In plain (map fst codes) ->
  (forall c, c ∈ l -> exists b, VerifyPassword (normalizeBackupCode plain) (bc_CodeHash c) = Ok b) ->
  exists c, find_code plain l = Ok (Some c) /\ c ∈ l /\ bc_UsedAt c = None.
Proof.
  intros Hall Hl Hin Hver. apply in_map_iff in Hin as ([p c] & <- & Hin).
  assert (Hc : c ∈ l). { rewrite Hl, list_elem_of_In. apply in_map_iff. by exists (p, c). }
  assert (Hun : forall d, d ∈ l -> bc_UsedAt d = None).
  { intros d. rewrite Hl, list_elem_of_In, in_map_iff. intros (q & <- & Hq). rewrite Forall_forall in Hall.
    rewrite <- list_elem_of_In in Hq. by destruct (Hall q Hq) as (_ & ? & _). }
  rewrite Forall_forall in Hall. rewrite <- list_elem_of_In in Hin. destruct (Hall _ Hin) as (_ & _ & Hv).
  clear Hl Hall Hin. cbn [fst snd] in *. revert Hc Hver Hun. induction l as [|d l IH]; [by intros ?%not_elem_of_nil|].
  intros Hc Hver Hun. cbn [find_code]. rewrite (Hun d) by set_solver. cbn [Postgres.is_none negb].
  destruct (Hver d) as [[] Hd]; [set_solver| |]; rewrite Hd.
  - exists d. split_and!; [done|set_solver|apply Hun; set_solver].
  - destruct IH as (e & He & Hin & Hu); [|set_solver|set_solver|exists e; split_and!; [done|set_solver|done]].
    apply elem_of_cons in Hc as [->|Hc]; [congruence|done].
Qed.

Lemma VerifyPassword_PHC password h e : VerifyPassword password h = Err e -> forall p, VerifyPassword p h = Err e.
Proof. unfold VerifyPassword. destruct (parsePHC h) as [[[]]|]; [done|]. intros [= <-]. done. Qed.

(** C7: Enrolment is a round trip: with a 32-byte cipher key, starting an
    enrolment shows a secret; finishing it in time with a code of that secret
    succeeds, issues the configured number of backup codes, and from then on
    [VerifyTOTP] accepts exactly the codes of that secret within the allowed
    window (and refuses others with [ErrInvalidTOTPCode]), while every backup
    code issued verifies.  This holds over any store that meets
    [EnrollmentLaws]; both stores do. *)
Theorem enrolled_secret_verifies i account buf id nonce now s :
  TrimSpace i = i -> i <> "" -> TrimSpace id = id -> String.length nonce = encryptedNonceBytes ->
  String.length (CipherKey cfg) = KeySize -> usable cfg ->
  exists resp s1,
    StartTOTPEnrollment cfg i account (Some buf) id (Some nonce) now (World s []) = (Ok resp, World s1 []) /\
    forall code now1 now2 now3 nonce' batch now4 draws,
      now1 <= now + EnrollmentTTL cfg -> Z.abs (time_unix now2) < 2 ^ 62 ->
      code_of_window cfg (sr_Secret resp) code now2 -> String.length nonce' = encryptedNonceBytes ->
      (forall k, good_draw (draws k)) -> fresh_codes s i draws ->
      exists codes s2,
        CompleteTOTPEnrollment cfg
          (Some {| fr_IdentityID := i; fr_EnrollmentID := sr_EnrollmentID resp; fr_Code := code |})
          now1 now2 now3 (Some nonce') batch now4 draws (World s1 []) = (Ok codes, World s2 []) /\
        length codes = Z.to_nat (BackupCodeCount cfg) /\
        (forall code' now', Z.abs (time_unix now') < 2 ^ 62 ->
           ((VerifyTOTP cfg i code' now' (World s2 [])).1 = Ok tt <-> code_of_window cfg (sr_Secret resp) code' now') /\
           ((VerifyTOTP cfg i code' now' (World s2 [])).1 <> Ok tt ->
              VerifyTOTP cfg i code' now' (World s2 []) = (Err ErrInvalidTOTPCode, World s2 []))) /\
        (forall plain now', In plain codes -> (VerifyBackupCode i plain now' (World s2 [])).1 = Ok tt).
Proof.
  intros Ht Hi Hid Hn Hkey Hu.
  destruct (StartTOTPEnrollment_ok cfg Hkey i account buf id nonce now s Ht Hi Hn)
    as (resp & s1 & e & Hrun & Hsec & Hrid & He & Heid & Hei & Hex & Hdec & Hfit).
  exists resp, s1. split; [exact Hrun|]. intros code now1 now2 now3 nonce' batch now4 draws Hnow Hn2 Hcode Hn' Hd Hfresh.
  destruct (verifyTOTP_spec cfg (sr_Secret resp) code now2 Hu Hn2) as (b & Hb & Hiff).
  destruct b; [|by apply Hiff in Hcode]. rewrite Hsec in Hb.
  destruct (CompleteTOTPEnrollment_ok cfg Hkey i id e (b32_Encode buf)
    {| fr_IdentityID := i; fr_EnrollmentID := id; fr_Code := code |} now1 now2 now3 nonce' batch now4 draws s1)
    as (codes & s2 & c & Hc & Hl & Hall & Hcodes & Hs2 & Hdec2); try done.
  { by rewrite Hex. }
  { intros l. rewrite Hfit. apply Hfresh. }
  exists (map fst codes), s2. rewrite Hrid. split_and!; [exact Hc|by rewrite length_map| |].
  - intros code' now' Hn0. rewrite Hsec. by eapply VerifyTOTP_stored.
  - intros plain now' Hin. unfold VerifyBackupCode. rewrite M_bind_run, need_identity_ok, M_bind_run by done.
    destruct (ListBackupCodes_law i s2) as (l & Hlist & Hlp). unfold of_store. rewrite call_run, Hlist, M_bind_run.
    assert (Hlp' : l ≡ₚ map snd codes) by (by rewrite Hlp).
    destruct (find_code_stored i codes l plain) as (f & Hf & Hfin & Hun); try done.
    { intros d. rewrite Hlp', list_elem_of_In, in_map_iff. intros (q & <- & Hq).
      rewrite <- list_elem_of_In in Hq. rewrite Forall_forall in Hall. destruct (Hall q Hq) as (_ & _ & Hv).
      destruct (VerifyPassword (normalizeBackupCode plain) (bc_CodeHash q.2)) eqn:Ev; [eauto|].
      eapply VerifyPassword_PHC in Ev. rewrite Ev in Hv. done. }
    unfold lift_result. rewrite Hf, call_run. rewrite Hlp in Hfin.
    destruct (MarkBackupCodeUsed_law i f now' s2 Hfin Hun) as (s3 & ->). done.
Qed.
End props.
