(* ===== verification/MfaCodes.v ===== *)
(** Backup codes under concurrent verification, and trusted devices.

    Requests run at the same time and interleave at the calls of the store.
    [repo_call] lists the calls that change the store; a verifier is a request
    that runs [VerifyBackupCode], which reads the codes and then marks one.

    Trusted devices on the PostgreSQL store, and the in-memory store's backup
    codes, which are not one-time under concurrency. *)

From Stdlib Require Import Ascii String.
From S2P Require Import Prelude OneTime GoStrings GoEncoding PlatformCrypto CryptoFields MfaStore MfaService MfaFacts.

Local Open Scope string_scope.

(** ** Calls of the store *)

Inductive repo_call : Type :=
| CallSaveEnrollment (e : Enrollment)
| CallDeleteEnrollment (id : string)
| CallUpsertTOTPFactor (f : TOTPFactor)
| CallUpdateTOTPLastUsed (i : string) (t : time)
| CallReplaceBackupCodes (i : string) (codes : list BackupCode)
| CallMarkBackupCodeUsed (i id : string) (t : time)
| CallSaveTrustedDevice (d : TrustedDevice)
| CallTouchTrustedDevice (i id : string) (t : time)
| CallDeleteTrustedDevice (i id : string) (t : time)
| CallDeleteAllIdentityData (i : string).

Definition exec_call {S} `{Repository S} (c : repo_call) : M S mfa_error unit :=
  match c with
  | CallSaveEnrollment e => SaveEnrollment e
  | CallDeleteEnrollment id => DeleteEnrollment id
  | CallUpsertTOTPFactor f => UpsertTOTPFactor f
  | CallUpdateTOTPLastUsed i t => UpdateTOTPLastUsed i t
  | CallReplaceBackupCodes i codes => ReplaceBackupCodes i codes
  | CallMarkBackupCodeUsed i id t => MarkBackupCodeUsed i id t
  | CallSaveTrustedDevice d => SaveTrustedDevice d
  | CallTouchTrustedDevice i id t => TouchTrustedDevice i id t
  | CallDeleteTrustedDevice i id t => DeleteTrustedDevice i id t
  | CallDeleteAllIdentityData i => DeleteAllIdentityData i
  end.

(** The identifiers of the codes a call stores. *)
Definition issued (c : repo_call) : list string :=
  match c with CallReplaceBackupCodes _ codes => map bc_ID codes | _ => [] end.

(** ** What one-time codes rely on of a store *)

Class OneTimeCodes (S : Type) `{Repository S} := {
  (** a code with this identifier is stored and unused *)
  unused : S -> string -> Prop;
  mark_takes : forall i id t w w',
    MarkBackupCodeUsed i id t w = (Ok tt, w') -> unused (w_db w) id /\ ~ unused (w_db w') id;
  calls_issue : forall c w r w' id,
    exec_call c w = (r, w') -> unused (w_db w') id -> unused (w_db w) id \/ id ∈ issued c;
  list_reads : forall i w r w', ListBackupCodes i w = (r, w') -> w_db w' = w_db w;
}.

(** ** Concurrent verifiers *)

Inductive verifier : Type :=
| VStart (identity code : string)
| VMark (identity code : string) (candidate : BackupCode)
| VAccepted (identity code : string) (candidate : BackupCode)
| VRefused.

Definition accepted_id (v : verifier) : option string :=
  match v with VAccepted _ _ c => Some (bc_ID c) | _ => None end.
Definition accepted_ids (vs : list verifier) : list string := omap accepted_id vs.

Section verifiers.
Context `{Primitives} {S : Type} `{Repository S}.

(** The first half of [VerifyBackupCode]: list, and choose a candidate. *)
Definition after_list (i code : string) (r : result mfa_error (list BackupCode)) : verifier :=
  match r with
  | Err _ => VRefused
  | Ok codes =>
      match find_code code codes with
      | Ok (Some c) => VMark i code c
      | _ => VRefused
      end
  end.
(** The second half: mark it. *)
Definition after_mark (i code : string) (c : BackupCode) (r : result mfa_error unit) : verifier :=
  match r with Ok _ => VAccepted i code c | Err _ => VRefused end.

Inductive verify_step : list verifier * S -> list verifier * S -> Prop :=
| StepList k i code fs vs s r w' :
    vs !! k = Some (VStart i code) -> ListBackupCodes i (World s fs) = (r, w') ->
    verify_step (vs, s) (<[k := after_list i code r]> vs, w_db w')
| StepMark k i code c now fs vs s r w' :
    vs !! k = Some (VMark i code c) -> MarkBackupCodeUsed i (bc_ID c) now (World s fs) = (r, w') ->
    verify_step (vs, s) (<[k := after_mark i code c r]> vs, w_db w')
| StepCall c fs vs s r w' :
    exec_call c (World s fs) = (r, w') -> (forall id, id ∈ issued c -> id ∉ accepted_ids vs) ->
    verify_step (vs, s) (vs, w_db w').

(** One verifier alone is [VerifyBackupCode]. *)
Lemma VerifyBackupCode_steps i code now w :
  TrimSpace i = i -> i <> "" ->
  (VerifyBackupCode i code now w).1 = Ok tt <->
  exists codes c w1, ListBackupCodes i w = (Ok codes, w1) /\ after_list i code (Ok codes) = VMark i code c /\
    after_mark i code c (MarkBackupCodeUsed i (bc_ID c) now w1).1 = VAccepted i code c.
Proof.
  intros Ht Hi. unfold VerifyBackupCode. rewrite M_bind_run, need_identity_ok, M_bind_run by done.
  unfold of_store. rewrite call_run. destruct (ListBackupCodes i w) as [[codes|e] w1]; [|split; [done|by intros (?&?&?&?&_)]].
  rewrite M_bind_run. unfold lift_result, after_list. split.
  - destruct (find_code code codes) as [[c|]|e] eqn:Hf; [|done..]. rewrite call_run. intros Hm.
    exists codes, c, w1. rewrite Hf. split_and!; try done.
    by destruct (MarkBackupCodeUsed i (bc_ID c) now w1) as [[[]|]].
  - intros (codes' & c & w1' & [= <- <-] & Hf & Hm). destruct (find_code code codes) as [[c'|]|]; try done.
    injection Hf as ->. rewrite call_run. by destruct (MarkBackupCodeUsed i (bc_ID c) now w1) as [[[]|]].
Qed.

Lemma accepted_ids_insert k v v' vs :
  vs !! k = Some v -> accepted_id v = None ->
  accepted_ids (<[k := v']> vs) ≡ₚ option_list (accepted_id v') ++ accepted_ids vs.
Proof.
  unfold accepted_ids. revert k. induction vs as [|u vs IH]; intros [|k] Hk Hv; simplify_eq/=.
  - rewrite Hv. by destruct (accepted_id v').
  - specialize (IH k Hk Hv). destruct (accepted_id u); [|done]. rewrite IH. by rewrite Permutation_middle.
Qed.

Context `{!OneTimeCodes S}.

(** Every step is a step of the one-time system, up to the order of grants. *)
Definition once_inv (p : list verifier * S) : Prop := once unused (accepted_ids p.1, p.2).

Lemma once_step p p' : verify_step p p' -> once_inv p -> once_inv p'.
Proof.
  unfold once_inv. intros Hs Hinv.
  destruct Hs as [k i code fs vs s r w' Hk Hl|k i code c now fs vs s r w' Hk Hm|c fs vs s r w' He Hf]; cbn [fst snd] in *.
  - apply list_reads in Hl. rewrite Hl. cbn [w_db].
    assert (Ha : accepted_id (after_list i code r) = None)
      by (unfold after_list; destruct r as [codes|]; [destruct (find_code code codes) as [[]|]; done|done]).
    eapply once_perm; [|exact Hinv]. by rewrite (accepted_ids_insert k (VStart i code)), Ha.
  - assert (Hold : forall id, unused (w_db w') id -> unused s id).
    { intros id Hu. destruct (calls_issue (CallMarkBackupCodeUsed i (bc_ID c) now) _ _ _ id Hm Hu) as [?|Hin];
        [done|by apply not_elem_of_nil in Hin]. }
    destruct r as [[]|e]; cbn [after_mark].
    + apply mark_takes in Hm as [Hu Hn]. cbn [w_db] in Hu.
      eapply (once_perm _ (bc_ID c :: accepted_ids vs)); [by rewrite (accepted_ids_insert k (VMark i code c))|].
      by eapply claim_step_once; [apply Grant|].
    + eapply (once_perm _ (accepted_ids vs)); [by rewrite (accepted_ids_insert k (VMark i code c))|].
      eapply claim_step_once; [apply Silent|exact Hinv]. auto.
  - eapply claim_step_once; [apply Silent|exact Hinv]. intros id Hu.
    destruct (calls_issue c _ _ _ id He Hu) as [?|Hin]; [by left|right; by apply Hf].
Qed.

(** Every accepted verifier held an unused code that its own code verified. *)
Definition honest (v : verifier) : Prop :=
  match v with
  | VMark i code c | VAccepted i code c =>
      bc_UsedAt c = None /\ VerifyPassword (normalizeBackupCode code) (bc_CodeHash c) = Ok true
  | _ => True
  end.

Lemma find_code_honest code codes c :
  find_code code codes = Ok (Some c) ->
  c ∈ codes /\ bc_UsedAt c = None /\ VerifyPassword (normalizeBackupCode code) (bc_CodeHash c) = Ok true.
Proof.
  induction codes as [|d codes IH]; [done|]. cbn [find_code].
  destruct (bc_UsedAt d) eqn:Hu; cbn [Postgres.is_none negb].
  - intros Hf. destruct (IH Hf) as (? & ? & ?). split_and!; [set_solver|done..].
  - destruct (VerifyPassword _ (bc_CodeHash d)) as [[]|] eqn:Hv; try done.
    + intros ?. simplify_eq. split_and!; [set_solver|done..].
    + intros Hf. destruct (IH Hf) as (? & ? & ?). split_and!; [set_solver|done..].
Qed.

Lemma honest_step p p' : verify_step p p' -> Forall honest p.1 -> Forall honest p'.1.
Proof.
  intros Hs Hh. destruct Hs as [k i code fs vs s r w' Hk Hl|k i code c now fs vs s r w' Hk Hm|]; cbn [fst] in *; [| |done].
  - apply Forall_insert; [done|]. unfold after_list. destruct r as [codes|]; [|done].
    destruct (find_code code codes) as [[c|]|] eqn:Hf; try done. by apply find_code_honest in Hf as (_ & ? & ?).
  - apply Forall_insert; [done|]. destruct r; [|done]. exact (Forall_lookup_1 honest _ _ _ Hh Hk).
Qed.

(** C8: Over a store that marks a code only while it is unused ([OneTimeCodes]),
    a backup code is good for one use: whatever requests run at the same time,
    however their calls of the store interleave and fail, no two verifications
    are accepted on the same stored code, and each accepted one presented a code
    that verifies against the stored hash. The PostgreSQL store is such a store,
    the identifiers of new codes being fresh; the in-memory store is not
    ([memory_store_accepts_twice]). *)
Theorem backup_code_accepted_once reqs s vs s' :
  rtc verify_step (map (fun r => VStart r.1 r.2) reqs, s) (vs, s') ->
  NoDup (accepted_ids vs) /\
  (forall i code c, VAccepted i code c ∈ vs ->
     VerifyPassword (normalizeBackupCode code) (bc_CodeHash c) = Ok true /\ ~ unused s' (bc_ID c)).
Proof.
  intros Hrun.
  assert (Ha0 : accepted_ids (map (fun r => VStart r.1 r.2) reqs) = []).
  { clear Hrun. unfold accepted_ids. induction reqs as [|r reqs IH]; [done|]. exact IH. }
  assert (Hinv : once_inv (vs, s')).
  { eapply (rtc_invariant verify_step once_inv); [exact once_step| |exact Hrun].
    unfold once_inv. cbn [fst]. rewrite Ha0. split; [constructor|]. by intros id ?%not_elem_of_nil. }
  assert (Hh : Forall honest vs).
  { change vs with (fst (vs, s')). eapply (rtc_invariant verify_step (fun p => Forall honest p.1)); [exact honest_step| |exact Hrun].
    apply Forall_map. by apply Forall_true. }
  destruct Hinv as [Hnd Hun]. split; [exact Hnd|]. intros i code c Hin. split.
  - rewrite Forall_forall in Hh. by apply (Hh _ Hin).
  - apply Hun. cbn [fst]. unfold accepted_ids. apply list_elem_of_omap. by exists (VAccepted i code c).
Qed.
End verifiers.

(** ** The PostgreSQL store *)

Module PostgresOnce.
Import Postgres.

Definition unused_row (db : tables) (id : string) : Prop :=
  exists c, t_codes db !! id = Some c /\ bc_UsedAt c = None.

(** Every call changes the codes in one of these ways, or not at all. *)
Lemma exec_cases {A} (stmt : tables -> result db_error (A * tables)) w r w' :
  exec stmt w = (r, w') -> (exists a, r = Ok a /\ stmt (w_db w) = Ok (a, w_db w')) \/ w_db w' = w_db w.
Proof. intros [(a & -> & ?)|(e & -> & ?)]%db_stmt_cases; eauto. Qed.

Lemma update_row_cases missing stmt w r w' :
  update_row missing stmt w = (r, w') ->
  (r = Ok tt /\ stmt (w_db w) = Some (w_db w')) \/ (r <> Ok tt /\ w_db w' = w_db w).
Proof.
  unfold update_row. rewrite M_bind_run. destruct (exec _ w) as [r1 w1] eqn:E.
  apply db_stmt_cases in E as [(a & -> & E)|(e & -> & E)].
  - destruct (stmt (w_db w)) as [s'|]; simplify_eq; cbn.
    + intros [= <- <-]. left. split; [done|]. by f_equal.
    + intros [= <- <-]. by right.
  - intros [= <- <-]. by right.
Qed.

(** A property of the tables that each statement of a body keeps, the body keeps. *)
Lemma preserves_exec {A} (P : tables -> Prop) (stmt : tables -> result db_error (A * tables)) :
  (forall s a s', stmt s = Ok (a, s') -> P s -> P s') -> preserves P (exec stmt).
Proof. apply preserves_stmt. Qed.
Lemma preserves_update (P : tables -> Prop) f : (forall s, P s -> P (f s)) -> preserves P (update f).
Proof. intros Hf. apply preserves_exec. intros s a s' [= <- <-]. auto. Qed.
Lemma preserves_update_row (P : tables -> Prop) missing stmt :
  (forall s s', stmt s = Some s' -> P s -> P s') -> preserves P (update_row missing stmt).
Proof.
  intros Hs w Hw. destruct (update_row missing stmt w) as [r w'] eqn:E.
  apply update_row_cases in E as [[_ E]|[_ E]]; simpl; [eauto|by rewrite E].
Qed.

Section scan_order.
Context `{ScanOrder}.

(** What a call does not issue, it does not make unused. *)
Lemma call_keeps c id : id ∉ issued c -> preserves (fun db => ~ unused_row db id) (exec_call c).
Proof.
  intros Hid. destruct c as [e|e|f|i t|i codes|i cid t|d|i did t|i did t|i]; cbn [exec_call issued] in *.
  - by apply preserves_update.
  - by apply preserves_update.
  - by apply preserves_update.
  - apply preserves_update_row. intros s s' Hs. by case_match; simplify_eq.
  - apply preserves_tx, preserves_bind.
    + apply preserves_update. intros s Hs (c & [Hc _]%map_lookup_filter_Some & Hu). apply Hs. by exists c.
    + intros _. clear i. induction codes as [|c codes IH]; [apply preserves_ret|]. cbn [insert_codes map] in *.
      apply not_elem_of_cons in Hid as [Hne Hid]. apply preserves_bind; [|intros _; by apply IH].
      apply preserves_exec. unfold insert_code. intros s a s' Hs Hun. case_match; [done|]. simplify_eq.
      intros (d & Hd & Hu). apply Hun. exists d. cbn in Hd. by rewrite lookup_insert_ne in Hd.
  - apply preserves_update_row. intros s s' Hs Hun. case_match; [|done]. case_match; [|done]. simplify_eq.
    intros (d & Hd & Hu). cbn in Hd. destruct (decide (cid = id)) as [->|].
    + rewrite lookup_insert_eq in Hd. by simplify_eq/=.
    + rewrite lookup_insert_ne in Hd by done. apply Hun. by exists d.
  - apply preserves_exec. intros s a s' Hs. case_match; [done|]. by simplify_eq.
  - apply preserves_update_row. unfold update_device. intros s s' Hs. repeat case_match; by simplify_eq.
  - apply preserves_update_row. unfold update_device. intros s s' Hs. repeat case_match; by simplify_eq.
  - apply preserves_tx. repeat (apply preserves_bind; [|intros _]); apply preserves_update; try done.
    intros s Hs (c & [Hc _]%map_lookup_filter_Some & Hu). apply Hs. by exists c.
Qed.

#[export] Instance postgres_once : OneTimeCodes tables.
Proof.
  refine {| unused := unused_row |}.
  - intros i id t w w' Hm. apply update_row_cases in Hm as [[_ Hm]|[? _]]; [|done].
    destruct (t_codes (w_db w) !! id) as [c|] eqn:Hc; [|done].
    destruct (String.eqb (bc_IdentityID c) i && is_none (bc_UsedAt c))%bool eqn:Hcond; [|done].
    apply andb_true_iff in Hcond as [_ Hu]. injection Hm as Hm. rewrite <- Hm. split.
    + exists c. split; [done|]. by destruct (bc_UsedAt c).
    + intros (d & Hd & Hu'). cbn in Hd. rewrite lookup_insert_eq in Hd. by simplify_eq/=.
  - intros c w r w' id Hc Hu. destruct (decide (id ∈ issued c)); [by right|]. left.
    destruct (t_codes (w_db w) !! id) as [d|] eqn:Hd; [destruct (bc_UsedAt d) eqn:Hud|].
    + exfalso. pose proof (call_keeps c id n w) as Hk. rewrite Hc in Hk. apply Hk; [|done].
      intros (d' & Hd' & Hu'). congruence.
    + by exists d.
    + exfalso. pose proof (call_keeps c id n w) as Hk. rewrite Hc in Hk. apply Hk; [|done].
      intros (d' & Hd' & Hu'). congruence.
  - intros i w r w' Hl. apply exec_cases in Hl as [(a & _ & Hl)|Hl]; [|done]. by injection Hl as _ <-.
Defined.
End scan_order.
End PostgresOnce.

Import Postgres PostgresLaws PostgresOnce.


(** The table row of a device that [token] opens. *)
Definition opened_by (db : tables) (i token id : string) (d : TrustedDevice) : Prop :=
  t_devices db !! id = Some d /\ td_IdentityID d = i /\ td_TokenHash d = secrettoken.Hash token /\
  td_TokenPrefix d = secrettoken.Prefix token trustedDeviceLookupPrefixLength /\ td_RevokedAt d = None.
Definition live (db : tables) (i token : string) : Prop := exists id d, opened_by db i token id d.
(** Tokens are random: no two devices share one. *)
Definition sole (db : tables) (i token : string) : Prop :=
  forall id d id' d', opened_by db i token id d -> opened_by db i token id' d' -> id = id'.

(** A call other than the registration of a device with this token. *)
Definition spares (i token : string) (c : repo_call) : Prop :=
  match c with
  | CallSaveTrustedDevice d => td_IdentityID d <> i \/ td_TokenHash d <> secrettoken.Hash token
  | _ => True
  end.

Section devices.
Context `{ScanOrder}.

Definition call_step (ok : repo_call -> Prop) (s s' : tables) : Prop :=
  exists c fs r w', ok c /\ exec_call c (World s fs) = (r, w') /\ s' = w_db w'.

Lemma matching_row i token id d :
  device_matches i (secrettoken.Hash token) (secrettoken.Prefix token trustedDeviceLookupPrefixLength) (device_row id d) = true <->
  td_IdentityID d = i /\ td_TokenHash d = secrettoken.Hash token /\
  td_TokenPrefix d = secrettoken.Prefix token trustedDeviceLookupPrefixLength /\ td_RevokedAt d = None.
Proof.
  unfold device_matches. rewrite !andb_true_iff, !String.eqb_eq. cbn. destruct (td_RevokedAt d); naive_solver.
Qed.

Lemma elem_of_sorted {A} (leb : A -> A -> bool) l x : head (sort_by leb l) = Some x -> x ∈ l.
Proof. intros Hx. rewrite <- (sort_by_perm leb l). destruct (sort_by leb l); simplify_eq/=. set_solver. Qed.

(** A look-up that finds a device finds one the token opens. *)
Lemma lookup_device_ok i token w d w' :
  lookup_device i token w = (Ok d, w') -> w_db w' = w_db w /\
  exists r, opened_by (w_db w) i token (td_ID d) r /\ d = device_row (td_ID d) r.
Proof.
  unfold lookup_device. cbn [MfaStore.GetTrustedDevice repository]. unfold GetTrustedDevice, query_row.
  rewrite M_bind_run. destruct (exec _ w) as [[o|] w1] eqn:E; [|done].
  apply db_stmt_cases in E as [(a & [= ->] & E)|(? & ? & ?)]; [|done]. injection E as Ho Hw.
  destruct a as [d'|]; [|done]. rewrite M_ret_run. intros [= <- <-]. split; [done|].
  apply elem_of_sorted, elem_of_rows_where in Ho as (k & r & Hk & -> & Hp).
  apply matching_row in Hp. exists r. by split.
Qed.

(** What is not live, only a registration makes live. *)
Lemma spares_keeps i token c : spares i token c -> preserves (fun db => ~ live db i token) (exec_call c).
Proof.
  intros Hsp. destruct c as [e|e|f|j t|j codes|j cid t|d|j did t|j did t|j]; cbn [exec_call spares] in *.
  - by apply preserves_update.
  - by apply preserves_update.
  - by apply preserves_update.
  - apply preserves_update_row. intros s s' Hs. by case_match; simplify_eq.
  - apply preserves_tx, preserves_bind; [by apply preserves_update|]. intros _.
    induction codes as [|c codes IH]; [apply preserves_ret|]. apply preserves_bind; [|by intros _].
    apply preserves_exec. unfold insert_code. intros s a s' Hs. case_match; [done|]. by simplify_eq.
  - apply preserves_update_row. intros s s' Hs. repeat case_match; by simplify_eq.
  - apply preserves_exec. intros s a s' Hs Hl. case_match; [done|]. simplify_eq.
    intros (id & r & Hr & Hi & Hh & Hp & Hrev). cbn in Hr. destruct (decide (td_ID d = id)) as [<-|].
    + rewrite lookup_insert_eq in Hr. simplify_eq/=. naive_solver.
    + rewrite lookup_insert_ne in Hr by done. apply Hl. by exists id, r.
  - apply preserves_update_row. unfold update_device. intros s s' Hs Hl. repeat case_match; simplify_eq.
    intros (id & r & Hr & Hi & Hh & Hp & Hrev). cbn in Hr. destruct (decide (did = id)) as [->|].
    + rewrite lookup_insert_eq in Hr. simplify_eq/=. apply Hl. by eexists id, _.
    + rewrite lookup_insert_ne in Hr by done. apply Hl. by exists id, r.
  - apply preserves_update_row. unfold update_device. intros s s' Hs Hl. repeat case_match; simplify_eq.
    intros (id & r & Hr & Hi & Hh & Hp & Hrev). cbn in Hr. destruct (decide (did = id)) as [->|].
    + rewrite lookup_insert_eq in Hr. by simplify_eq/=.
    + rewrite lookup_insert_ne in Hr by done. apply Hl. by exists id, r.
  - apply preserves_tx. repeat (apply preserves_bind; [|intros _]); apply preserves_update; try done.
    intros s Hs (id & r & [Hr _]%map_lookup_filter_Some & Hrest). apply Hs. by exists id, r.
Qed.

Context (cfg : Config) (i token : string) (Hi : TrimSpace i = i) (Hi' : i <> "")
  (Htok : TrimSpace token = token) (Htok' : token <> "").

(** Validation succeeds only for a live device that has not expired. *)
Lemma ValidateTrustedDevice_sound now1 now2 w w' :
  ValidateTrustedDevice i token now1 now2 w = (Ok true, w') ->
  exists id d, opened_by (w_db w) i token id d /\ (now1 <= td_ExpiresAt d)%Z.
Proof using Hi Htok.
  unfold ValidateTrustedDevice. rewrite Hi, Htok. destruct (_ || _)%bool; [done|].
  rewrite M_bind_run. unfold attempt, M_try. destruct (lookup_device i token w) as [[d|e] w1] eqn:El;
    rewrite M_ret_run; [|by destruct e].
  apply lookup_device_ok in El as (Hw & r & Ho & Hd).
  destruct (_ || time_after now1 (td_ExpiresAt d))%bool eqn:Eexp; [done|].
  intros _. apply orb_false_iff in Eexp as [_ Hexp]. unfold time_after in Hexp. bool_to_prop.
  exists (td_ID d), r. split; [done|]. rewrite Hd in Hexp. exact Hexp.
Qed.

Lemma RevokeTrustedDevice_ends now w w' :
  sole (w_db w) i token -> RevokeTrustedDevice i token now w = (Ok tt, w') -> ~ live (w_db w') i token.
Proof using Hi Hi' Htok Htok'.
  intros Hsole. unfold RevokeTrustedDevice. rewrite Hi, Htok, M_bind_run. destruct (_ || _)%bool; [done|].
  cbn [refuse_if]. rewrite M_ret_run, M_bind_run, call_run.
  destruct (lookup_device i token w) as [[d|e] w1] eqn:El; [|done].
  apply lookup_device_ok in El as (Hw & r & Ho & Hd). unfold of_store. rewrite call_run.
  destruct (MfaStore.DeleteTrustedDevice i (td_ID d) now w1) as [[[]|] w2] eqn:Em; [|done]. intros [= <-].
  apply update_row_cases in Em as [[_ Em]|[? _]]; [|done]. rewrite Hw in Em. unfold update_device in Em.
  destruct Ho as (Hr & Hrest). rewrite Hr in Em. case_match; [|done]. injection Em as Em. rewrite <- Em.
  intros (id & d' & Hd' & Hi1 & Hh1 & Hp1 & Hrev1). cbn in Hd'. destruct (decide (td_ID d = id)) as [<-|Hne].
  - rewrite lookup_insert_eq in Hd'. by simplify_eq/=.
  - rewrite lookup_insert_ne in Hd' by done. apply Hne. by eapply (Hsole _ r id d').
Qed.

(** Revoking a trusted device is final: once [RevokeTrustedDevice] reports
    success for a token (which belongs to one device), then whatever calls the
    store serves afterwards, and whichever of them fail, as long as none
    registers a device with that token again, [ValidateTrustedDevice] never
    accepts the token. *)
Theorem revoked_device_never_validates now w w1 s2 :
  sole (w_db w) i token ->
  RevokeTrustedDevice i token now w = (Ok tt, w1) ->
  rtc (call_step (spares i token)) (w_db w1) s2 ->
  forall now1 now2 fs, (ValidateTrustedDevice i token now1 now2 (World s2 fs)).1 <> Ok true.
Proof using Hi Hi' Htok Htok'.
  intros Hsole Hrev Hrun now1 now2 fs Hv.
  assert (Hdead : ~ live s2 i token).
  { eapply (rtc_invariant _ (fun db => ~ live db i token)); [|by eapply RevokeTrustedDevice_ends|exact Hrun].
    intros a b (c & fs' & r & w' & Hsp & Hc & ->) Ha. pose proof (spares_keeps i token c Hsp (World a fs') Ha) as Hk.
    by rewrite Hc in Hk. }
  destruct (ValidateTrustedDevice i token now1 now2 (World s2 fs)) as [r w'] eqn:E. cbn in Hv. subst r.
  apply ValidateTrustedDevice_sound in E as (id & d & Ho & _). apply Hdead. by exists id, d.
Qed.
End devices.

(** ** Registering a device *)

Section register.
Context `{ScanOrder} (cfg : Config).

Lemma singleton_rows {V} row p (m : gmap string V) k v :
  m !! k = Some v -> p (row k v) = true ->
  (forall k' v', m !! k' = Some v' -> p (row k' v') = true -> k' = k) -> rows_where row p m = [row k v].
Proof.
  intros Hk Hp Huniq. rewrite <- (insert_delete_id m k v Hk). apply Permutation_singleton_r.
  rewrite rows_where_insert; [|by rewrite lookup_delete_eq|done].
  assert (He : rows_where row p (delete k m) = []).
  { apply elem_of_nil_inv. intros x (k' & v' & Hk' & -> & Hp')%elem_of_rows_where.
    apply lookup_delete_Some in Hk' as [Hne Hk']. by apply Hne, eq_sym, (Huniq k' v'). }
  by rewrite He.
Qed.

(** A registered device opens until it expires. *)
Lemma remembered_device_validates i label buf now id db now1 now2 :
  TrimSpace i = i -> i <> "" -> buf <> "" -> t_devices db !! id = None ->
  ~ live db i (b64url_Encode buf) -> (now1 <= now + TrustedDeviceTTL cfg)%Z ->
  exists db',
    RememberTrustedDevice cfg i label (Some buf) now id (World db []) =
      (Ok (b64url_Encode buf, now + TrustedDeviceTTL cfg)%Z, World db' []) /\
    (ValidateTrustedDevice i (b64url_Encode buf) now1 now2 (World db' [])).1 = Ok true.
Proof.
  intros Hi Hi' Hbuf Hid Hdead Hnow. unfold RememberTrustedDevice.
  rewrite M_bind_run, need_identity_ok, M_bind_run by done. unfold lift_result. cbn [randomTrustedDeviceToken fmap option_fmap option_map result_of_option].
  rewrite M_bind_run. unfold of_store. rewrite call_run. cbn [MfaStore.SaveTrustedDevice repository].
  unfold SaveTrustedDevice, exec. rewrite db_stmt_clean. cbn [td_ID]. rewrite Hid. eexists. split; [reflexivity|].
  unfold ValidateTrustedDevice. rewrite Hi, b64url_trimmed.
  rewrite (proj2 (String.eqb_neq i "") Hi'), (proj2 (String.eqb_neq (b64url_Encode buf) "") (b64url_Encode_nonempty _ Hbuf)).
  cbn [orb]. rewrite M_bind_run. unfold attempt, M_try, lookup_device. cbn [MfaStore.GetTrustedDevice repository].
  unfold GetTrustedDevice. rewrite query_row_run. cbn [t_devices with_devices].
  set (row := Build_TrustedDevice _ _ _ _ _ _ _ _ _).
  erewrite (singleton_rows _ _ _ id row); [|by rewrite lookup_insert_eq|by apply matching_row|].
  2: { intros k v Hk Hp%matching_row. destruct (decide (id = k)) as [|Hne]; [done|].
       rewrite lookup_insert_ne in Hk by done. exfalso. apply Hdead. exists k, v. by split. }
  cbn [sort_by foldr insert_by head result_of_option]. rewrite M_ret_run.
  cbn [td_RevokedAt device_row row nullTimePtr mbind option_bind is_none negb orb td_ExpiresAt time_add time_after].
  unfold time_after, time_add. rewrite (proj2 (Z.ltb_ge _ _)) by lia.
  rewrite M_bind_run. unfold of_store. rewrite call_run. cbn [MfaStore.TouchTrustedDevice repository]. unfold TouchTrustedDevice.
  rewrite update_row_run. unfold update_device. cbn [t_devices with_devices td_ID]. rewrite lookup_insert_eq.
  cbn [td_IdentityID row td_RevokedAt is_none]. by rewrite String.eqb_refl.
Qed.
End register.

(** ** The in-memory store marks a used code again *)

Module MemoryTwice.
Section twice.
Context `{Primitives}.

(** Two verifiers of the same code read it unused, and both are accepted. *)
Lemma memory_store_accepts_twice c :
  VerifyPassword (normalizeBackupCode "AAAA-BBBB-CCCC") (bc_CodeHash c) = Ok true -> bc_UsedAt c = None ->
  exists s s', rtc verify_step
    (map (fun r => VStart r.1 r.2) [("ada", "AAAA-BBBB-CCCC"); ("ada", "AAAA-BBBB-CCCC")], s)
    ([VAccepted "ada" "AAAA-BBBB-CCCC" c; VAccepted "ada" "AAAA-BBBB-CCCC" c], s') /\
    Memory.codes_of s "ada" = [c].
Proof.
  intros Hv Hu.
  set (s := Memory.with_codes Memory.New {["ada" := [c]]}).
  assert (Hl : MfaStore.ListBackupCodes "ada" (World s []) = (Ok [c], World s [])) by (destruct c; reflexivity).
  assert (Hf : after_list "ada" "AAAA-BBBB-CCCC" (Ok [c]) = VMark "ada" "AAAA-BBBB-CCCC" c).
  { unfold after_list. cbn [find_code]. rewrite Hu. cbn [is_none negb]. by rewrite Hv. }
  assert (Hm : forall c' t, bc_ID c' = bc_ID c ->
    MfaStore.MarkBackupCodeUsed "ada" (bc_ID c) t (World (Memory.with_codes Memory.New {["ada" := [c']]}) []) =
    (Ok tt, World (Memory.with_codes Memory.New {["ada" := [set_used (Some t) c']]}) [])).
  { intros c' t Hc. cbn [MfaStore.MarkBackupCodeUsed Memory.repository]. unfold Memory.MarkBackupCodeUsed, Memory.locked.
    cbn [w_db w_faults]. unfold Memory.codes_of. cbn [Memory.backupCodes Memory.with_codes].
    rewrite lookup_singleton_eq. cbn [from_option id Memory.change_first]. rewrite Hc, String.eqb_refl.
    unfold Memory.with_codes. cbn [Memory.enrollments Memory.totpFactors Memory.trustedDevices Memory.backupCodes].
    by rewrite insert_singleton_eq. }
  exists s, (Memory.with_codes Memory.New {["ada" := [set_used (Some 2%Z) (set_used (Some 1%Z) c)]]}).
  split; [|reflexivity].
  eapply rtc_l; [eapply (StepList 0 "ada" "AAAA-BBBB-CCCC"); [reflexivity|exact Hl]|]. rewrite Hf.
  eapply rtc_l; [eapply (StepList 1 "ada" "AAAA-BBBB-CCCC"); [reflexivity|exact Hl]|]. rewrite Hf.
  eapply rtc_l; [eapply (StepMark 0 _ _ c 1%Z); [reflexivity|by apply Hm]|].
  eapply rtc_l; [eapply (StepMark 1 _ _ c 2%Z); [reflexivity|by apply Hm]|].
  apply rtc_refl.
Qed.
End twice.
End MemoryTwice.
