(* ===== verification/MfaHttp.v ===== *)
(** modules/mfa/handler/handler.go: the HTTP routes of the MFA module.  JSON
    bodies arrive decoded ([None] when [decodeJSONBody] refused them), an answer
    is its status and payload.

    Concrete runs of the MFA module: a cipher that appends a tag, a key
    derivation that pads, tables scanned in the order of their keys. *)

From Stdlib Require Import Ascii String.
From S2P Require Import Prelude GoStrings GoEncoding PlatformCrypto CryptoFields GoHttp SignedHeaders MfaStore MfaService MfaFacts MfaCodes.
From S2P Require Import GoOtp.
From S2P Require Import MfaCodes MfaFacts.

Local Open Scope string_scope.

Definition identityIDHeader : string := "X-User-ID".
Definition identitySessionIDHeader : string := "X-User-Session-ID".
Definition identityAALHeader : string := "X-User-AAL".
Definition identitySignatureHeader : string := "X-Aegion-Signature".
Definition identityContextMaxAge : duration := minute.
Definition signedIdentityHeaders : list string := [identityIDHeader; identitySessionIDHeader; identityAALHeader].

(** The bodies the routes decode. *)
Inductive body : Type :=
| StartBody (accountName : string)
| FinishBody (enrollmentID code : string)
| CodeBody (code : string)
| EmptyBody
| LabelBody (label : string)
| TokenBody (token : string).

Inductive payload : Type :=
| Started (r : TOTPEnrollmentStartResponse)
| BackupCodes (codes : list string)
| Verified
| Regenerated (codes : list string)
| Trusted (token : string) (expiresAt : time)
| Revoked
| Failed (message : string)
| Refused (e : svc_error).

Record response : Type := { rs_status : Z; rs_payload : payload }.
Definition writeJSON (p : payload) : response := {| rs_status := 200; rs_payload := p |}.
Definition writeError (status : Z) (message : string) : response :=
  {| rs_status := status; rs_payload := Failed message |}.

Section handler.
Context `{UuidText} `{Primitives} {S : Type} `{Repository S} (cfg : Config) (identitySigningSecret : string).

Definition identityIDFromRequest (h : header) (now : time) : option string :=
  if String.eqb identitySigningSecret "" then None
  else if negb (VerifyIdentityHeaders identitySigningSecret h signedIdentityHeaders
                  (Header_Get h identitySignatureHeader) identityContextMaxAge now) then None
  else match uuid_parse (TrimSpace (Header_Get h identityIDHeader)) with
  | None => None
  | Some identityID =>
      if (identityID =? uuid_Nil)%N then None
      else match uuid_parse (TrimSpace (Header_Get h identitySessionIDHeader)) with
      | None => None
      | Some _ =>
          if String.eqb (TrimSpace (Header_Get h identityAALHeader)) "" then None
          else Some (uuid_string identityID)
      end
  end.

(** A call of the service: an error becomes status 400. *)
Definition answer {A} (m : M S svc_error A) (f : A -> payload) : M S svc_error response :=
  r ← attempt m;
  mret match r with
       | Ok a => writeJSON (f a)
       | Err e => {| rs_status := 400; rs_payload := Refused e |}
       end.

(** What the routes have in common: the method, the body, the identity. *)
Definition guarded {A} (r : Request) (method : string) (now : time) (decoded : option A)
    (serve : string -> A -> M S svc_error response) : M S svc_error response :=
  if negb (String.eqb (Method r) method) then mret (writeError 405 "method not allowed")
  else match decoded with
  | None => mret (writeError 400 "invalid request body")
  | Some b =>
      match identityIDFromRequest (Header r) now with
      | None => mret (writeError 401 "authentication required")
      | Some identityID => serve identityID b
      end
  end.

(** What a request draws: clock readings, random bytes, identifiers. *)
Record draws : Type := {
  d_now : time; d_now1 : time; d_now2 : time; d_now3 : time; d_now4 : time;
  d_buf : option string;
  d_nonce : option string;
  d_id : string;
  d_codes : nat -> code_draw;
}.

Definition as_start (b : option body) : option string := match b with Some (StartBody a) => Some a | _ => None end.
Definition as_finish (b : option body) : option (string * string) :=
  match b with Some (FinishBody i c) => Some (i, c) | _ => None end.
Definition as_code (b : option body) : option string := match b with Some (CodeBody c) => Some c | _ => None end.
Definition as_empty (b : option body) : option unit := match b with Some EmptyBody => Some tt | _ => None end.
Definition as_label (b : option body) : option string := match b with Some (LabelBody l) => Some l | _ => None end.
Definition as_token (b : option body) : option string := match b with Some (TokenBody t) => Some t | _ => None end.

Definition handleStartTOTPEnrollment (r : Request) (b : option body) (d : draws) : M S svc_error response :=
  guarded r "POST" (d_now d) (as_start b) (fun identityID accountName =>
    answer (StartTOTPEnrollment cfg identityID accountName (d_buf d) (d_id d) (d_nonce d) (d_now1 d)) Started).

Definition handleFinishTOTPEnrollment (r : Request) (b : option body) (d : draws) : M S svc_error response :=
  guarded r "POST" (d_now d) (as_finish b) (fun identityID '(enrollmentID, code) =>
    answer (CompleteTOTPEnrollment cfg
      (Some {| fr_IdentityID := identityID; fr_EnrollmentID := enrollmentID; fr_Code := code |})
      (d_now1 d) (d_now2 d) (d_now3 d) (d_nonce d) (d_id d) (d_now4 d) (d_codes d)) BackupCodes).

Definition handleVerifyTOTP (r : Request) (b : option body) (d : draws) : M S svc_error response :=
  guarded r "POST" (d_now d) (as_code b) (fun identityID code =>
    answer (VerifyTOTP cfg identityID code (d_now1 d)) (fun _ => Verified)).

Definition handleVerifyBackupCode (r : Request) (b : option body) (d : draws) : M S svc_error response :=
  guarded r "POST" (d_now d) (as_code b) (fun identityID code =>
    answer (VerifyBackupCode identityID code (d_now1 d)) (fun _ => Verified)).

Definition handleRegenerateBackupCodes (r : Request) (b : option body) (d : draws) : M S svc_error response :=
  guarded r "POST" (d_now d) (as_empty b) (fun identityID _ =>
    answer (RegenerateBackupCodes cfg identityID (d_id d) (d_now1 d) (d_codes d)) Regenerated).

Definition handleTrustedDevice (r : Request) (b : option body) (d : draws) : M S svc_error response :=
  if String.eqb (Method r) "POST" then
    guarded r "POST" (d_now d) (as_label b) (fun identityID label =>
      answer (RememberTrustedDevice cfg identityID label (d_buf d) (d_now1 d) (d_id d)) (fun p => Trusted p.1 p.2))
  else
    guarded r "DELETE" (d_now d) (as_token b) (fun identityID token =>
      answer (RevokeTrustedDevice identityID token (d_now1 d)) (fun _ => Revoked)).

(** [RegisterRoutes]: the paths of the module. *)
Definition route (r : Request) (b : option body) (d : draws) : M S svc_error response :=
  if String.eqb (URL_Path r) "/api/v1/mfa/totp/start" then handleStartTOTPEnrollment r b d
  else if String.eqb (URL_Path r) "/api/v1/mfa/totp/finish" then handleFinishTOTPEnrollment r b d
  else if String.eqb (URL_Path r) "/api/v1/mfa/totp/verify" then handleVerifyTOTP r b d
  else if String.eqb (URL_Path r) "/api/v1/mfa/backup/verify" then handleVerifyBackupCode r b d
  else if String.eqb (URL_Path r) "/api/v1/mfa/backup/regenerate" then handleRegenerateBackupCodes r b d
  else if String.eqb (URL_Path r) "/api/v1/mfa/trusted-device" then handleTrustedDevice r b d
  else mret (writeError 404 "404 page not found").

(** ** Every route serves the signed identity *)

Lemma guarded_cases {A} r method now (decoded : option A) serve w resp w' :
  guarded r method now decoded serve w = (Ok resp, w') ->
  (w' = w /\ rs_status resp <> 200%Z) \/
  exists i b, identityIDFromRequest (Header r) now = Some i /\ decoded = Some b /\ serve i b w = (Ok resp, w').
Proof.
  unfold guarded. destruct (negb _); [intros [= <- <-]; by left|].
  destruct decoded as [b|]; [|intros [= <- <-]; by left].
  destruct (identityIDFromRequest _ now) as [i|]; [|intros [= <- <-]; by left]. intros Hs. right. eauto.
Qed.

(** The signed headers name the identity: the accepted payload has its line. *)
Lemma identityIDFromRequest_sound h now i :
  identityIDFromRequest h now = Some i ->
  identitySigningSecret <> "" /\
  VerifyIdentityHeaders identitySigningSecret h signedIdentityHeaders (Header_Get h identitySignatureHeader)
    identityContextMaxAge now = true /\
  exists u, uuid_parse (TrimSpace (Header_Get h identityIDHeader)) = Some u /\ u <> uuid_Nil /\ i = uuid_string u.
Proof.
  unfold identityIDFromRequest. destruct (String.eqb_spec identitySigningSecret "") as [|Hs]; [done|].
  destruct (VerifyIdentityHeaders _ _ _ _ _ _); [|done]. cbn [negb].
  destruct (uuid_parse _) as [u|]; [|done]. destruct (N.eqb_spec u uuid_Nil); [done|].
  destruct (uuid_parse (TrimSpace (Header_Get h identitySessionIDHeader))); [|done].
  destruct (String.eqb _ ""); [done|]. intros [= <-]. eauto 10.
Qed.

End handler.

(** ** Isolation on the PostgreSQL store

    The data of an identity, and what an operation needs to leave the data of
    another identity alone. *)

Create HintDb isolation.

Module Isolation.
Import Postgres PostgresOnce.

Record owned : Type := {
  o_enrollments : gmap string Enrollment;
  o_factor : option totp_row;
  o_codes : gmap string BackupCode;
  o_devices : gmap string TrustedDevice;
}.
Definition owned_by (j : string) (db : tables) : owned :=
  {| o_enrollments := filter (fun kv => en_IdentityID kv.2 = j) (t_enrollments db);
     o_factor := t_factors db !! j;
     o_codes := filter (fun kv => bc_IdentityID kv.2 = j) (t_codes db);
     o_devices := filter (fun kv => td_IdentityID kv.2 = j) (t_devices db) |}.

(** A change of rows that are not in a selection leaves the selection. *)
Lemma filter_insert_other {V} (P : string * V -> Prop) `{!forall x, Decision (P x)} (m : gmap string V) k v :
  ~ P (k, v) -> (forall v', m !! k = Some v' -> ~ P (k, v')) -> filter P (<[k := v]> m) = filter P m.
Proof. intros Hv Hm. rewrite map_filter_insert_False by done. by apply map_filter_delete_not. Qed.
Lemma filter_filter_other {V} (P Q : string * V -> Prop) `{!forall x, Decision (P x), !forall x, Decision (Q x)} (m : gmap string V) :
  (forall kv, P kv -> Q kv) -> filter P (filter Q m) = filter P m.
Proof.
  intros HPQ. apply map_eq. intros k. apply option_eq. intros v. rewrite !map_lookup_filter_Some. naive_solver.
Qed.

Section isolation.
Context `{UuidText} `{Primitives} `{ScanOrder} (j : string) (o : owned).

Definition kept (db : tables) : Prop := owned_by j db = o.

Lemma kept_with_enrollments db m :
  filter (fun kv => en_IdentityID kv.2 = j) m = o_enrollments o -> kept db -> kept (with_enrollments db m).
Proof. unfold kept. intros Hm <-. unfold owned_by in *. cbn in *. by rewrite Hm. Qed.
Lemma kept_with_factors db m : m !! j = o_factor o -> kept db -> kept (with_factors db m).
Proof. unfold kept. intros Hm <-. unfold owned_by in *. cbn in *. by rewrite Hm. Qed.
Lemma kept_with_codes db m :
  filter (fun kv => bc_IdentityID kv.2 = j) m = o_codes o -> kept db -> kept (with_codes db m).
Proof. unfold kept. intros Hm <-. unfold owned_by in *. cbn in *. by rewrite Hm. Qed.
Lemma kept_with_devices db m :
  filter (fun kv => td_IdentityID kv.2 = j) m = o_devices o -> kept db -> kept (with_devices db m).
Proof. unfold kept. intros Hm <-. unfold owned_by in *. cbn in *. by rewrite Hm. Qed.

Lemma kept_no_enrollment db id : kept db -> o_enrollments o !! id = None ->
  forall e, t_enrollments db !! id = Some e -> en_IdentityID e <> j.
Proof.
  unfold kept. intros <- Hno e He Hj. cbn in Hno. rewrite map_lookup_filter_None in Hno.
  destruct Hno as [Hno|Hno]; [congruence|by eapply Hno].
Qed.

Lemma keep_SaveEnrollment e :
  en_IdentityID e <> j -> o_enrollments o !! en_ID e = None -> preserves kept (SaveEnrollment e).
Proof.
  intros Hj Hno. apply preserves_update. intros db Hk. pose proof (kept_no_enrollment db _ Hk Hno) as Hother.
  apply kept_with_enrollments; [|done]. rewrite filter_insert_other; [by rewrite <- Hk| |].
  - by destruct (t_enrollments db !! en_ID e).
  - intros e' He'. by apply Hother.
Qed.
Lemma keep_DeleteEnrollment id : o_enrollments o !! id = None -> preserves kept (DeleteEnrollment id).
Proof.
  intros Hno. apply preserves_update. intros db Hk. pose proof (kept_no_enrollment db _ Hk Hno) as Hother.
  apply kept_with_enrollments; [|done]. rewrite map_filter_delete_not; [by rewrite <- Hk|]. intros e He. by apply Hother.
Qed.
Lemma keep_UpsertTOTPFactor f : tf_IdentityID f <> j -> preserves kept (UpsertTOTPFactor f).
Proof.
  intros Hj. apply preserves_update. intros db Hk. apply kept_with_factors; [|done].
  rewrite lookup_insert_ne by done. by rewrite <- Hk.
Qed.
Lemma keep_UpdateTOTPLastUsed i t : i <> j -> preserves kept (UpdateTOTPLastUsed i t).
Proof.
  intros Hj. apply preserves_update_row. intros db db' Hdb Hk. case_match; [|done]. simplify_eq.
  apply kept_with_factors; [|done]. rewrite lookup_insert_ne by done. by rewrite <- Hk.
Qed.
Lemma keep_ReplaceBackupCodes i codes :
  i <> j -> Forall (fun c => bc_IdentityID c <> j) codes -> preserves kept (ReplaceBackupCodes i codes).
Proof.
  intros Hj Hall. apply preserves_tx, preserves_bind.
  - apply preserves_update. intros db Hk. apply kept_with_codes; [|done].
    rewrite filter_filter_other; [by rewrite <- Hk|]. by intros kv ->.
  - intros _. induction Hall as [|c codes Hc Hall IH]; [apply preserves_ret|].
    apply preserves_bind; [|by intros _]. apply preserves_exec. unfold insert_code. intros db a db' Hdb Hk.
    destruct (t_codes db !! bc_ID c) eqn:E; [done|]. simplify_eq. apply kept_with_codes; [|done].
    rewrite filter_insert_other; [by rewrite <- Hk|done|congruence].
Qed.
Lemma keep_MarkBackupCodeUsed i id t : i <> j -> preserves kept (MarkBackupCodeUsed i id t).
Proof.
  intros Hj. apply preserves_update_row. intros db db' Hdb Hk. destruct (t_codes db !! id) as [c|] eqn:E; [|done].
  destruct (_ && _)%bool eqn:Hc; [|done]. simplify_eq. bool_to_prop. apply kept_with_codes; [|done].
  rewrite filter_insert_other; [by rewrite <- Hk|by subst|]. intros c' Hc'. by simplify_eq.
Qed.
Lemma keep_SaveTrustedDevice d : td_IdentityID d <> j -> preserves kept (SaveTrustedDevice d).
Proof.
  intros Hj. apply preserves_exec. intros db a db' Hdb Hk. destruct (t_devices db !! td_ID d) eqn:E; [done|]. simplify_eq.
  apply kept_with_devices; [|done]. rewrite filter_insert_other; [by rewrite <- Hk|done|congruence].
Qed.
Lemma keep_update_device missing i id f :
  i <> j -> (forall d, td_IdentityID (f d) = td_IdentityID d) ->
  preserves kept (update_row missing (update_device i id f)).
Proof.
  intros Hj Hf. apply preserves_update_row. unfold update_device. intros db db' Hdb Hk.
  destruct (t_devices db !! id) as [d|] eqn:E; [|done]. destruct (_ && _)%bool eqn:Hc; [|done]. simplify_eq. bool_to_prop.
  apply kept_with_devices; [|done]. rewrite filter_insert_other; [by rewrite <- Hk| |].
  - cbn. rewrite Hf. by subst.
  - intros d' Hd'. by simplify_eq.
Qed.

Lemma keep_query {E A} (m : M tables E A) Q : query m Q -> preserves kept m.
Proof. intros Hm w Hw. destruct (Hm w) as [-> _]. done. Qed.
Lemma keep_yields {E A} (m : M tables E A) : preserves kept m -> yields kept m (fun _ => True).
Proof. intros Hm w Hw. split; [by apply Hm|done]. Qed.
Lemma keep_exec_query {A} (f : tables -> A) : preserves kept (exec (fun db => Ok (f db, db))).
Proof. apply preserves_exec. by intros db a db' [= <- <-]. Qed.
Lemma keep_query_row {A} missing (f : tables -> option A) : preserves kept (query_row missing f).
Proof. apply preserves_bind; [apply keep_exec_query|]. intros [a|]; [apply preserves_ret|apply preserves_throw]. Qed.
Lemma keep_call {E E' A} (f : E -> E') (m : M tables E A) : preserves kept m -> preserves kept (call f m).
Proof. intros Hm. apply preserves_try; [done|]. intros []; [apply preserves_ret|apply preserves_throw]. Qed.
Lemma keep_attempt {E E' A} (m : M tables E A) : preserves kept m -> preserves kept (attempt m : M tables E' _).
Proof. intros Hm. apply preserves_try; [done|]. intros r. apply preserves_ret. Qed.
Lemma keep_refuse cond e : preserves kept (refuse_if cond e).
Proof. destruct cond; [apply preserves_throw|apply preserves_ret]. Qed.
Lemma keep_crypto {A} (r : result crypto_error A) : preserves kept (of_crypto r).
Proof. destruct r; [apply preserves_ret|apply preserves_throw]. Qed.

Lemma keep_GetTOTPFactor ident : preserves kept (MfaStore.GetTOTPFactor ident).
Proof. apply keep_query_row. Qed.
Lemma keep_ListBackupCodes ident : preserves kept (MfaStore.ListBackupCodes ident).
Proof. apply keep_exec_query. Qed.
Lemma keep_lookup_device ident token : preserves kept (lookup_device ident token).
Proof. apply keep_query_row. Qed.
Lemma keep_store {A} (m : M tables mfa_error A) : preserves kept m -> preserves kept (of_store m).
Proof. apply keep_call. Qed.

(** The identity a request acts on is the one it names, without the spaces. *)
Lemma keep_identity {A} i (f : string -> M tables svc_error A) :
  preserves kept (f (TrimSpace i)) -> preserves kept (need_identity i ≫= f).
Proof.
  intros Hf. unfold need_identity. destruct (String.eqb _ ""); [by intros w|]. exact Hf.
Qed.

Local Hint Resolve keep_GetTOTPFactor keep_ListBackupCodes keep_lookup_device keep_store keep_query_row keep_call keep_attempt keep_refuse keep_crypto keep_exec_query
  preserves_ret preserves_throw preserves_lift : isolation.
(** One operation of a body, then the rest. *)
Local Ltac keep_step := apply preserves_bind; [auto with isolation|intros ?].

Context (cfg : Config) (i : string) (Hj : TrimSpace i <> j).

Lemma make_codes_identity ident batch now draws n : forall idx codes,
  make_codes ident batch now draws idx n = Ok codes -> Forall (fun c => bc_IdentityID c = ident) (map snd codes).
Proof.
  induction n as [|n IH]; intros idx codes Hm; [by simplify_eq/=; constructor|]. cbn [make_codes] in Hm.
  apply result_bind_ok in Hm as (plain & _ & Hm). apply result_bind_ok in Hm as (h & _ & Hm).
  apply result_bind_ok in Hm as (rest & Hrest & Hm). simplify_eq. constructor; [done|eauto].
Qed.

Lemma keep_generate ident batch now draws :
  ident <> j -> preserves kept (generateAndStoreBackupCodes cfg ident batch now draws).
Proof.
  intros Hne. unfold generateAndStoreBackupCodes, lift_result. intros w Hw. rewrite M_bind_run.
  destruct (make_codes _ _ _ _ _ _) as [codes|] eqn:Hm; [|done]. apply make_codes_identity in Hm.
  revert w Hw. change (preserves kept (of_store (MfaStore.ReplaceBackupCodes ident (map snd codes)) ≫=
    fun _ => mret (map fst codes) : M tables svc_error _)).
  keep_step; [|auto with isolation]. apply keep_call, keep_ReplaceBackupCodes; [done|].
  eapply Forall_impl; [exact Hm|]. by intros c ->.
Qed.

Lemma keep_Start account buf id nonce now :
  o_enrollments o !! id = None -> preserves kept (StartTOTPEnrollment cfg i account buf id nonce now).
Proof using Hj.
  intros Hno. apply keep_identity. do 3 keep_step. keep_step; [|auto with isolation].
  by apply keep_call, keep_SaveEnrollment.
Qed.

Lemma keep_Complete req now1 now2 now3 nonce batch now4 draws :
  fr_IdentityID req = i -> preserves kept (CompleteTOTPEnrollment cfg (Some req) now1 now2 now3 nonce batch now4 draws).
Proof using Hj.
  intros Hreq. unfold CompleteTOTPEnrollment, decryptEnrollmentSecret. rewrite Hreq. do 2 keep_step.
  eapply yields_preserves, (yields_bind _ _ _ (fun e => en_IdentityID e <> j -> o_enrollments o !! en_ID e = None)).
  { apply yields_call. cbn [MfaStore.GetEnrollment repository]. unfold GetEnrollment, query_row.
    eapply (yields_bind _ _ _ (fun r => forall e, r = Some e -> en_IdentityID e <> j -> o_enrollments o !! en_ID e = None)).
    - apply yields_stmt. intros db r db' [= <- <-] Hk. split; [done|]. intros e He Hne. rewrite <- Hk. cbn.
      apply map_lookup_filter_None. right. intros e' He'. apply fmap_Some in He as (e1 & He1 & ->). cbn in *.
      by simplify_eq.
    - intros [e|] Hr; [apply yields_ret; intros Hne; by apply Hr|apply yields_throw]. }
  intros e He. apply keep_yields.
  destruct (String.eqb_spec (en_IdentityID e) (TrimSpace i)) as [Heq|Hne]; cbn [negb orb]; [|by intros w Hw].
  assert (Hne : en_IdentityID e <> j) by congruence.
  do 5 keep_step.
  keep_step; [by apply keep_call, keep_UpsertTOTPFactor|].
  keep_step; [by apply keep_call, keep_DeleteEnrollment, He|]. by apply keep_generate.
Qed.

Lemma keep_VerifyTOTP code now : preserves kept (VerifyTOTP cfg i code now).
Proof using Hj. apply keep_identity. do 4 keep_step. by apply keep_call, keep_UpdateTOTPLastUsed. Qed.
Lemma keep_VerifyBackupCode code now : preserves kept (VerifyBackupCode i code now).
Proof using Hj.
  apply keep_identity. do 2 keep_step.
  case_match; [|auto with isolation]. by apply keep_call, keep_MarkBackupCodeUsed.
Qed.
Lemma keep_Regenerate batch now draws : preserves kept (RegenerateBackupCodes cfg i batch now draws).
Proof using Hj. apply keep_identity. keep_step. by apply keep_generate. Qed.
Lemma keep_Remember label buf now id : preserves kept (RememberTrustedDevice cfg i label buf now id).
Proof using Hj.
  apply keep_identity. keep_step. keep_step; [|auto with isolation]. by apply keep_call, keep_SaveTrustedDevice.
Qed.
Lemma keep_Revoke token now : preserves kept (RevokeTrustedDevice i token now).
Proof using Hj.
  unfold RevokeTrustedDevice. do 2 keep_step.
  by apply keep_call, keep_update_device.
Qed.

Lemma keep_answer {A} (m : M tables svc_error A) f : preserves kept m -> preserves kept (answer m f).
Proof. intros Hm. apply preserves_bind; [by apply keep_attempt|]. intros r. apply preserves_ret. Qed.
End isolation.

Section routes.
Context `{UuidText} `{Primitives} `{ScanOrder} (cfg : Config) (secret : string).

Lemma keep_guarded {A} j o r method now (decoded : option A) serve :
  (forall i b, identityIDFromRequest secret (Header r) now = Some i -> decoded = Some b -> preserves (kept j o) (serve i b)) ->
  preserves (kept j o) (guarded secret r method now decoded serve : M tables svc_error response).
Proof.
  intros Hs. unfold guarded. destruct (negb _); [by apply preserves_ret|].
  destruct decoded as [b|]; [|by apply preserves_ret].
  destruct (identityIDFromRequest _ _ now) as [i|]; [by apply Hs|by apply preserves_ret].
Qed.

(** A request to the MFA module changes nothing but the data of the
    identity its signed headers name: whatever the route, the body and the
    database's failures, a request without a valid signed identity leaves the
    tables as they were and is not answered 200, and one signed for an identity
    leaves the enrolments, factor, backup codes and trusted devices of every
    other identity untouched (the new enrolment's identifier being fresh). *)
Theorem mfa_request_is_isolated r b d w resp w' :
  route (S := tables) cfg secret r b d w = (Ok resp, w') ->
  match identityIDFromRequest secret (Header r) (d_now d) with
  | None => w_db w' = w_db w /\ rs_status resp <> 200%Z
  | Some i =>
      VerifyIdentityHeaders secret (Header r) signedIdentityHeaders (Header_Get (Header r) identitySignatureHeader)
        identityContextMaxAge (d_now d) = true /\
      forall j, j <> TrimSpace i -> o_enrollments (owned_by j (w_db w)) !! d_id d = None ->
        owned_by j (w_db w') = owned_by j (w_db w)
  end.
Proof.
  intros Hr. destruct (identityIDFromRequest secret (Header r) (d_now d)) as [i|] eqn:Hid.
  - split; [by apply identityIDFromRequest_sound in Hid as (_ & ? & _)|]. intros j Hj Hno.
    enough (Hk : preserves (kept j (owned_by j (w_db w))) (route (S := tables) cfg secret r b d))
      by (specialize (Hk w eq_refl); by rewrite Hr in Hk).
    clear Hr. apply not_eq_sym in Hj. unfold route. repeat (case_match; [|]); try (by apply preserves_ret);
      unfold handleStartTOTPEnrollment, handleFinishTOTPEnrollment, handleVerifyTOTP, handleVerifyBackupCode,
        handleRegenerateBackupCodes, handleTrustedDevice;
      repeat (case_match; [|]);
      apply keep_guarded; intros i' a Hi' Ha; rewrite Hid in Hi'; injection Hi' as <-;
      try match type of a with prod _ _ => destruct a as [enrollmentID code] end; apply keep_answer.
    + by apply keep_Start.
    + by eapply keep_Complete.
    + by apply keep_VerifyTOTP.
    + by apply keep_VerifyBackupCode.
    + by apply keep_Regenerate.
    + by apply keep_Remember.
    + by apply keep_Revoke.
  - assert (Hg : forall A method (decoded : option A) serve,
      guarded secret r method (d_now d) decoded serve w = (Ok resp, w') -> w_db w' = w_db w /\ rs_status resp <> 200%Z).
    { intros A method decoded serve Hg. apply guarded_cases in Hg as [[-> ?]|(i & a & Hi & _)]; [done|congruence]. }
    unfold route in Hr. repeat (case_match; [|]); [..|by injection Hr as <- <-];
      unfold handleStartTOTPEnrollment, handleFinishTOTPEnrollment, handleVerifyTOTP, handleVerifyBackupCode,
        handleRegenerateBackupCodes, handleTrustedDevice in Hr; repeat (case_match; [|]); by eapply Hg in Hr.
Qed.
End routes.
End Isolation.

Import Postgres PostgresLaws PostgresOnce.


Module MfaWitness.

#[local] Existing Instance toy_primitives.
#[local] Existing Instance key_order.
#[local] Existing Instance unary_uuid.

Definition cfg : Config := Eval vm_compute in
  New {| Issuer := ""; EnrollmentTTL := 0; TOTPPeriod := 0; TOTPDigits := 0; TOTPAllowedTimeWindows := 0;
         BackupCodeCount := 2; TrustedDeviceTTL := 0; CipherKey := zeros 32 |}.
Definition no_rows : tables := {| t_enrollments := ∅; t_factors := ∅; t_codes := ∅; t_devices := ∅ |}.

Lemma usable_cfg : usable cfg.
Proof. vm_compute. repeat split; discriminate. Qed.

Definition draw (k : nat) : code_draw :=
  {| cd_bytes := Some (zeros 8); cd_salt := Some "salt"; cd_id := FormatInt (Z.of_nat k) |}.
Definition secret20 : string := zeros 20.
Definition first_code : string := Eval vm_compute in hotp secret20 0 6.

(** An enrolment, its completion and a later verification. *)
Lemma enrolled_secret_verifies_witness :
  exists resp s1 codes s2,
    StartTOTPEnrollment cfg "ada" "" (Some secret20) "e1" (Some (zeros 24)) 0 (World no_rows []) = (Ok resp, World s1 []) /\
    CompleteTOTPEnrollment cfg
      (Some {| fr_IdentityID := "ada"; fr_EnrollmentID := sr_EnrollmentID resp; fr_Code := first_code |})
      5 5 5 (Some (zeros 24)) "b1" 5 draw (World s1 []) = (Ok codes, World s2 []) /\
    length codes = 2%nat /\ (VerifyTOTP cfg "ada" first_code (40 * second)%Z (World s2 [])).1 = Ok tt.
Proof.
  destruct (enrolled_secret_verifies cfg "ada" "" secret20 "e1" (zeros 24) 0%Z no_rows) as (resp & s1 & Hrun & Hrest);
    [reflexivity|discriminate|reflexivity|reflexivity|reflexivity|exact usable_cfg|].
  assert (Hsec : sr_Secret resp = b32_Encode secret20)
    by (pose proof Hrun as Hr; vm_compute in Hr; injection Hr as <- _; vm_compute; reflexivity).
  assert (Hcode : forall now, (Z.abs (0 - time_step cfg now) <= 1)%Z -> code_of_window cfg (sr_Secret resp) first_code now).
  { intros now Hn. exists secret20, 0%Z. rewrite Hsec. split; [vm_compute; reflexivity|]. split; [exact Hn|vm_compute; reflexivity]. }
  destruct (Hrest first_code 5%Z 5%Z 5%Z (zeros 24) "b1" 5%Z draw) as (codes & s2 & Hc & Hl & Hv & _).
  - vm_compute. discriminate.
  - reflexivity.
  - apply Hcode. vm_compute. discriminate.
  - reflexivity.
  - intros k. exists (zeros 8), "salt". by split_and!.
  - intros codes Hids Hall. cbn in Hids. split_and!.
    + rewrite Hids. apply (bool_decide_unpack _). vm_compute. exact I.
    + exact Hall.
    + intros c row _ Hrow. discriminate Hrow.
  - exists resp, s1, codes, s2. split_and!; [exact Hrun|exact Hc|exact Hl|].
    apply (Hv first_code (40 * second)%Z); [reflexivity|]. apply Hcode. vm_compute. discriminate.
Defined.

(** Two verifiers of one stored code: the second finds it used. *)
Definition code1 : BackupCode := Eval vm_compute in
  {| bc_ID := "c1"; bc_IdentityID := "ada";
     bc_CodeHash := match HashPassword "AAAABBBBCCCC" (Some "salt") with Ok h => h | Err _ => "" end;
     bc_BatchID := "b1"; bc_UsedAt := None; bc_CreatedAt := 0 |}.
Definition with_code (c : BackupCode) : tables := with_codes no_rows {["c1" := c]}.
Definition one_accepted : list verifier := [VAccepted "ada" "aaaa-bbbb-cccc" code1; VRefused].

Lemma two_verifiers :
  rtc verify_step (map (fun r => VStart r.1 r.2) [("ada", "aaaa-bbbb-cccc"); ("ada", "aaaa-bbbb-cccc")], with_code code1)
    (one_accepted, with_code (set_used (Some 7%Z) code1)).
Proof.
  assert (Hl : MfaStore.ListBackupCodes "ada" (World (with_code code1) []) = (Ok [code1], World (with_code code1) []))
    by (vm_compute; reflexivity).
  assert (Hf : after_list "ada" "aaaa-bbbb-cccc" (Ok [code1]) = VMark "ada" "aaaa-bbbb-cccc" code1) by (vm_compute; reflexivity).
  eapply rtc_l; [eapply (StepList 0 "ada" "aaaa-bbbb-cccc"); [reflexivity|exact Hl]|]. rewrite Hf.
  eapply rtc_l; [eapply (StepList 1 "ada" "aaaa-bbbb-cccc"); [reflexivity|exact Hl]|]. rewrite Hf.
  eapply rtc_l; [eapply (StepMark 0 _ _ code1 7%Z [] _ _ (Ok tt) (World (with_code (set_used (Some 7%Z) code1)) []));
    [reflexivity|vm_compute; reflexivity]|].
  eapply rtc_l; [eapply (StepMark 1 _ _ code1 8%Z [] _ _ (Err ErrBackupCodeNotFound)
    (World (with_code (set_used (Some 7%Z) code1)) [])); [reflexivity|vm_compute; reflexivity]|].
  apply rtc_refl.
Qed.

Lemma backup_code_accepted_once_witness : accepted_ids one_accepted = ["c1"] /\ NoDup (accepted_ids one_accepted).
Proof.
  split; [reflexivity|].
  exact (proj1 (backup_code_accepted_once [("ada", "aaaa-bbbb-cccc"); ("ada", "aaaa-bbbb-cccc")] _ _ _ two_verifiers)).
Defined.

(** A device is registered and revoked. *)
Definition token1 : string := Eval vm_compute in b64url_Encode (zeros 32).
Definition registered : tables := Eval vm_compute in
  w_db (RememberTrustedDevice cfg "ada" "laptop" (Some (zeros 32)) 0 "d1" (World no_rows [])).2.
Definition revoked : world tables := Eval vm_compute in (RevokeTrustedDevice "ada" token1 9 (World registered [])).2.

Lemma one_device : sole registered "ada" token1.
Proof.
  assert (Hone : forall id d, opened_by registered "ada" token1 id d -> id = "d1").
  { intros id d (Hd & _). destruct (decide (id = "d1")) as [|Hne]; [done|]. exfalso.
    change (t_devices registered) with ({["d1" := default d (t_devices registered !! "d1")]} : gmap string TrustedDevice) in Hd.
    by rewrite lookup_singleton_ne in Hd. }
  intros id d id' d' Ho Ho'. by rewrite (Hone id d Ho), (Hone id' d' Ho').
Qed.

Lemma revoked_device_never_validates_witness :
  (ValidateTrustedDevice "ada" token1 1 1 (World registered [])).1 = Ok true /\
  (ValidateTrustedDevice "ada" token1 10 10 (World (w_db revoked) [])).1 <> Ok true.
Proof.
  split; [vm_compute; reflexivity|].
  apply (revoked_device_never_validates "ada" token1 eq_refl ltac:(discriminate) eq_refl ltac:(discriminate)
    9%Z (World registered []) revoked (w_db revoked) one_device); [vm_compute; reflexivity|apply rtc_refl].
Defined.

(** A request without signed headers. *)
Definition bare_request : Request :=
  {| Method := "POST"; URL_Path := "/api/v1/mfa/totp/verify"; URL_RawQuery := ""; Host := "mfa"; RemoteAddr := "10.0.0.1:5";
     TLS := false; Cookies := []; Header := ∅ |}.
Definition no_draws : draws :=
  {| d_now := 0; d_now1 := 0; d_now2 := 0; d_now3 := 0; d_now4 := 0; d_buf := None; d_nonce := None; d_id := "";
     d_codes := draw |}.
Lemma mfa_request_is_isolated_witness :
  exists resp w', route cfg "key" bare_request (Some (CodeBody "000000")) no_draws (World registered []) = (Ok resp, w') /\
    w_db w' = registered /\ rs_status resp <> 200%Z.
Proof.
  eexists _, _. split; [vm_compute; reflexivity|].
  exact (Isolation.mfa_request_is_isolated cfg "key" bare_request (Some (CodeBody "000000")) no_draws
    (World registered []) _ _ eq_refl).
Defined.
End MfaWitness.
