(* ===== verification/MagicLink.v ===== *)
(** modules/magic_link: one-time login, verification and recovery codes and
    links (store/store.go with its migrations, service/service.go).

    The courier is a parameter; what is handed to it is recorded in the state.
    [net/url] is a parameter of the links ([LinkUrl]). *)

From Stdlib Require Import Ascii String.
From S2P Require Import Prelude GoStrings GoEncoding PlatformCrypto CryptoFields.

Local Open Scope string_scope.

(** ** The store (store.go) *)

Inductive ml_error : Type :=
| ErrCodeNotFound
| ErrCodeExpired
| ErrCodeUsed
| ErrRateLimited
| MlCrypto (e : crypto_error)
| MlDb (e : db_error).

#[global] Instance ml_db_err : DbErr ml_error := MlDb.

Definition tokenLookupPrefixLength : Z := secrettoken.DefaultLookupPrefixLength.
Abbreviation CodeType := string (only parsing).
Definition CodeTypeLogin : CodeType := "login".
Definition CodeTypeVerification : CodeType := "verification".
Definition CodeTypeRecovery : CodeType := "recovery".

Record Code : Type := {
  co_ID : uuid;
  co_IdentityID : option uuid;
  co_Recipient : string;
  co_Type : CodeType;
  co_Code : string;
  co_Token : string;
  co_Used : bool;
  co_UsedAt : option time;
  co_ExpiresAt : time;
  co_CreatedAt : time;
}.

Record code_row : Type := {
  cr_identity : option uuid;
  cr_recipient : string;
  cr_type : CodeType;
  cr_code : option string;
  cr_code_hash : option string;
  cr_token : option string;
  cr_token_hash : option string;
  cr_token_prefix : option string;
  cr_used : bool;
  cr_used_at : option time;
  cr_expires : time;
  cr_created : time;
}.

Record mail : Type := { mail_to : string; mail_link : string; mail_code : string }.

(** The two tables, and the mails handed to the courier, newest first. *)
Record ml_db : Type := {
  t_codes : gmap N code_row;
  t_limits : gmap string (Z * time);
  outbox : list mail;
}.
Definition with_codes (db : ml_db) c : ml_db := {| t_codes := c; t_limits := t_limits db; outbox := outbox db |}.
Definition with_limits (db : ml_db) l : ml_db := {| t_codes := t_codes db; t_limits := l; outbox := outbox db |}.
Definition with_mail (db : ml_db) m : ml_db := {| t_codes := t_codes db; t_limits := t_limits db; outbox := m :: outbox db |}.

Record Store : Type := { codeLength : Z; codeCharset : string }.
Definition newStore : Store := {| codeLength := 6; codeCharset := "0123456789" |}.
Definition SetCodeConfig (s : Store) (length : Z) (charset : string) : Store :=
  {| codeLength := length; codeCharset := charset |}.

(** [generateCode] over the stream of random blocks; [None] when a draw is
    still being rejected after [fuel] tries.  An index out of the charset is
    impossible and would panic. *)
Fixpoint code_loop (fuel : nat) (charset : string) (rand : rand_source) (n : nat) (pos : nat)
    : option (result crypto_error string * nat) :=
  match n with
  | O => Some (Ok "", pos)
  | S n' =>
      match RandomIntN fuel (Z.of_nat (String.length charset)) rand pos with
      | None => None
      | Some (Err e, pos') => Some (Err e, pos')
      | Some (Ok i, pos') =>
          match String.get (Z.to_nat i) charset, code_loop fuel charset rand n' pos' with
          | Some c, Some (Ok rest, pos'') => Some (Ok (String c rest), pos'')
          | _, r => r
          end
      end
  end.
Definition generateCode (s : Store) (fuel : nat) (rand : rand_source) (pos : nat)
    : option (result crypto_error string * nat) :=
  code_loop fuel (codeCharset s) rand (Z.to_nat (codeLength s)) pos.

Definition generateToken (b : result crypto_error string) : result crypto_error string := b64url_Encode <$> b.

Definition valid_type (t : CodeType) : bool :=
  existsb (String.eqb t) [CodeTypeLogin; CodeTypeVerification; CodeTypeRecovery].
Definition token_taken (h : option string) (rows : gmap N code_row) : bool :=
  match h with
  | None => false
  | Some h => existsb (fun p => bool_decide (cr_token_hash p.2 = Some h)) (map_to_list rows)
  end.

Definition insert_code (id : uuid) (row : code_row) (db : ml_db) : result db_error (unit * ml_db) :=
  if negb (valid_type (cr_type row)) then Err (CheckViolation "ml_codes_type_check")
  else if bool_decide (is_Some (t_codes db !! id)) then Err (UniqueViolation "ml_codes_pkey")
  else if token_taken (cr_token_hash row) (t_codes db) then Err (UniqueViolation "idx_ml_codes_token_hash")
  else Ok (tt, with_codes db (<[id := row]> (t_codes db))).

Definition lift_crypto {A} (r : result crypto_error A) : M ml_db ml_error A :=
  match r with Ok a => mret a | Err e => throw (MlCrypto e) end.

(** [codeValue] and [buf] are what the random source gave. *)
Definition Create (recipient : string) (codeType : CodeType) (identityID : option uuid) (ttl : duration)
    (codeValue buf : result crypto_error string) (newID : uuid) (now1 now2 : time) : M ml_db ml_error Code :=
  codeValue ← lift_crypto codeValue;
  tokenValue ← lift_crypto (generateToken buf);
  let code := {| co_ID := newID; co_IdentityID := identityID; co_Recipient := recipient; co_Type := codeType;
                 co_Code := codeValue; co_Token := tokenValue; co_Used := false; co_UsedAt := None;
                 co_ExpiresAt := time_add now1 ttl; co_CreatedAt := now2 |} in
  db_stmt (insert_code newID
    {| cr_identity := identityID; cr_recipient := recipient; cr_type := codeType; cr_code := None;
       cr_code_hash := Some (secrettoken.Hash codeValue); cr_token := None;
       cr_token_hash := Some (secrettoken.Hash tokenValue);
       cr_token_prefix := Some (secrettoken.Prefix tokenValue tokenLookupPrefixLength);
       cr_used := false; cr_used_at := None; cr_expires := co_ExpiresAt code; cr_created := co_CreatedAt code |})
  ≫= fun _ => mret code.

Definition code_of_row (id : uuid) (row : code_row) : Code :=
  {| co_ID := id; co_IdentityID := cr_identity row; co_Recipient := cr_recipient row; co_Type := cr_type row;
     co_Code := default "" (cr_code row); co_Token := default "" (cr_token row); co_Used := cr_used row;
     co_UsedAt := cr_used_at row; co_ExpiresAt := cr_expires row; co_CreatedAt := cr_created row |}.

(** ORDER BY created_at DESC LIMIT 1. *)
Definition newest `{ScanOrder} (p : code_row -> bool) (rows : gmap N code_row) : option Code :=
  (fun kv => code_of_row kv.1 kv.2) <$>
  head (sort_by (fun a b => (cr_created b.2 <=? cr_created a.2)%Z)
    (List.filter (fun kv => p kv.2) (scan rows))).

Definition opt_eqb (a : option string) (b : string) : bool := match a with Some a => String.eqb a b | None => false end.

Definition matches_code (recipient otpCode : string) (codeType : CodeType) (row : code_row) : bool :=
  String.eqb (cr_recipient row) recipient && String.eqb (cr_type row) codeType && negb (cr_used row) &&
  (opt_eqb (cr_code_hash row) (secrettoken.Hash otpCode) || opt_eqb (cr_code row) otpCode).
Definition matches_token (token : string) (row : code_row) : bool :=
  negb (cr_used row) && opt_eqb (cr_token_hash row) (secrettoken.Hash token) &&
  opt_eqb (cr_token_prefix row) (secrettoken.Prefix token tokenLookupPrefixLength).

Definition with_code_value (c : Code) (v : string) : Code :=
  {| co_ID := co_ID c; co_IdentityID := co_IdentityID c; co_Recipient := co_Recipient c; co_Type := co_Type c;
     co_Code := v; co_Token := co_Token c; co_Used := co_Used c; co_UsedAt := co_UsedAt c;
     co_ExpiresAt := co_ExpiresAt c; co_CreatedAt := co_CreatedAt c |}.
Definition with_token_value (c : Code) (v : string) : Code :=
  {| co_ID := co_ID c; co_IdentityID := co_IdentityID c; co_Recipient := co_Recipient c; co_Type := co_Type c;
     co_Code := co_Code c; co_Token := v; co_Used := co_Used c; co_UsedAt := co_UsedAt c;
     co_ExpiresAt := co_ExpiresAt c; co_CreatedAt := co_CreatedAt c |}.

(** The row a query found, unless it has expired. *)
Definition unexpired (now : time) (found : option Code) : M ml_db ml_error Code :=
  match found with
  | None => throw ErrCodeNotFound
  | Some code => if time_after now (co_ExpiresAt code) then throw ErrCodeExpired else mret code
  end.

Definition GetByCode `{ScanOrder} (recipient otpCode : string) (codeType : CodeType) (now : time) : M ml_db ml_error Code :=
  found ← db_stmt (fun db => Ok (newest (matches_code recipient otpCode codeType) (t_codes db), db));
  unexpired now ((fun c => with_code_value c otpCode) <$> found).

Definition GetByToken `{ScanOrder} (token : string) (now : time) : M ml_db ml_error Code :=
  found ← db_stmt (fun db => Ok (newest (matches_token token) (t_codes db), db));
  unexpired now ((fun c => with_token_value c token) <$> found).

Definition use_row (at_ : time) (row : code_row) : code_row :=
  {| cr_identity := cr_identity row; cr_recipient := cr_recipient row; cr_type := cr_type row; cr_code := cr_code row;
     cr_code_hash := cr_code_hash row; cr_token := cr_token row; cr_token_hash := cr_token_hash row;
     cr_token_prefix := cr_token_prefix row; cr_used := true; cr_used_at := Some at_; cr_expires := cr_expires row;
     cr_created := cr_created row |}.

Definition MarkUsed (codeID : uuid) (now : time) : M ml_db ml_error unit :=
  affected ← db_stmt (fun db =>
    match t_codes db !! codeID with
    | Some row =>
        if negb (cr_used row) then Ok (true, with_codes db (<[codeID := use_row now row]> (t_codes db)))
        else Ok (false, db)
    | None => Ok (false, db)
    end);
  if affected : bool then mret tt else throw ErrCodeUsed.

Definition superseded (recipient : string) (codeType : CodeType) (row : code_row) : bool :=
  String.eqb (cr_recipient row) recipient && String.eqb (cr_type row) codeType && negb (cr_used row).

Definition InvalidatePrevious (recipient : string) (codeType : CodeType) (dbnow : time) : M ml_db ml_error unit :=
  db_stmt (fun db => Ok (tt, with_codes db
    ((fun row => if superseded recipient codeType row then use_row dbnow row else row) <$> t_codes db))).

(** The upsert of a counter; [count] is a 32-bit column. *)
Definition int32_max : Z := 2 ^ 31 - 1.
Definition count_request (key : string) (now windowEnd : time) (db : ml_db) : result db_error (Z * ml_db) :=
  match t_limits db !! key with
  | None => Ok (1%Z, with_limits db (<[key := (1%Z, windowEnd)]> (t_limits db)))
  | Some (count, window_end) =>
      if (window_end <? now)%Z then Ok (1%Z, with_limits db (<[key := (1%Z, windowEnd)]> (t_limits db)))
      else if (int32_max <? count + 1)%Z then Err (DbFault "integer out of range")
      else Ok ((count + 1)%Z, with_limits db (<[key := ((count + 1)%Z, window_end)]> (t_limits db)))
  end.

Definition CheckRateLimit (key : string) (limit : Z) (window : duration) (now : time) : M ml_db ml_error unit :=
  count ← db_stmt (count_request key now (time_add now window));
  if (limit <? count)%Z then throw ErrRateLimited else mret tt.

Definition stale_code (now : time) (row : code_row) : bool :=
  (cr_expires row <? now)%Z ||
  (cr_used row && match cr_used_at row with Some t => (t <? time_add now (- (24 * hour)))%Z | None => false end).

Definition Cleanup (now : time) : M ml_db ml_error Z :=
  codesDeleted ← db_stmt (fun db =>
    let kept := filter (fun kv => stale_code now kv.2 = false) (t_codes db) in
    Ok (Z.of_nat (size (t_codes db) - size kept), with_codes db kept));
  db_stmt (fun db => Ok (tt, with_limits db (filter (fun kv => (kv.2.2 <? now)%Z = false) (t_limits db))))
  ≫= fun _ => mret codesDeleted.

(** ** The service (service.go) *)

Module Service.

Inductive svc_error : Type :=
| ErrInvalidCode
| ErrRateLimited
| ErrRecipientEmpty
| SvcStore (e : ml_error)
| SvcCourier (message : string).

Record Config : Type := {
  BaseURL : string;
  CodeLength : Z;
  CodeCharset : string;
  LinkLifespan : duration;
  CodeLifespan : duration;
  RateLimit : Z;
  RateWindow : duration;
  RecoveryRateLimit : Z;
}.

Definition zero_or (z dflt : Z) : Z := if (z =? 0)%Z then dflt else z.

Definition New (st : Store) (c : Config) : Store * Config :=
  let c := {| BaseURL := BaseURL c; CodeLength := zero_or (CodeLength c) 6;
              CodeCharset := if String.eqb (CodeCharset c) "" then "0123456789" else CodeCharset c;
              LinkLifespan := zero_or (LinkLifespan c) (15 * minute);
              CodeLifespan := zero_or (CodeLifespan c) (15 * minute);
              RateLimit := zero_or (RateLimit c) 5; RateWindow := zero_or (RateWindow c) hour;
              RecoveryRateLimit := zero_or (RecoveryRateLimit c) 3 |} in
  (SetCodeConfig st (CodeLength c) (CodeCharset c), c).

(** What one request draws. *)
Record draws : Type := {
  d_code : result crypto_error string;
  d_token : result crypto_error string;
  d_id : uuid;
  d_rate : time;
  d_dbnow : time;
  d_now1 : time;
  d_now2 : time;
}.

(** [url.Parse(base)] with the path and the token set; [None] if it fails. *)
Class LinkUrl := link_url : string -> string -> string -> option string.

Section service.
Context `{UuidText} `{LinkUrl} `{ScanOrder} (cfg : Config)
  (** the courier's answer to a mail: an error message, or none *)
  (courier : option (mail -> option string)).

Abbreviation svc := (M ml_db svc_error).

Definition of_store {A} (m : M ml_db ml_error A) : svc A := call SvcStore m.

Definition limited {A} (m : M ml_db ml_error A) : svc A :=
  call (fun e => match e with MagicLink.ErrRateLimited => ErrRateLimited | e => SvcStore e end) m.
Definition found {A} (m : M ml_db ml_error A) : svc A :=
  call (fun e => match e with ErrCodeNotFound | ErrCodeExpired => ErrInvalidCode | e => SvcStore e end) m.
Definition marked {A} (m : M ml_db ml_error A) : svc A :=
  call (fun e => match e with ErrCodeUsed => ErrInvalidCode | e => SvcStore e end) m.

Definition buildMagicLink (token flowType : string) : string :=
  let base := if String.eqb (BaseURL cfg) "" then "http://localhost:8080" else BaseURL cfg in
  default "" (link_url base ("/self-service/" +:+ flowType +:+ "/methods/link/verify") token).

Definition send (m : mail) : svc unit :=
  match courier with
  | None => mret tt
  | Some deliver =>
      fun w => (match deliver m with None => Ok tt | Some e => Err (SvcCourier e) end,
                World (with_mail (w_db w) m) (w_faults w))
  end.

(** The steps the three senders share after their rate limit. *)
Definition issue (email : string) (codeType : CodeType) (identityID : option uuid) (ttl : duration)
    (flowType : string) (d : draws) : svc unit :=
  of_store (InvalidatePrevious email codeType (d_dbnow d)) ≫= fun _ =>
  code ← of_store (Create email codeType identityID ttl (d_code d) (d_token d) (d_id d) (d_now1 d) (d_now2 d));
  send {| mail_to := email; mail_link := buildMagicLink (co_Token code) flowType; mail_code := co_Code code |}.

Definition SendLoginCode (email : string) (d : draws) : svc unit :=
  if String.eqb email "" then throw ErrRecipientEmpty
  else limited (CheckRateLimit ("login:" +:+ email) (RateLimit cfg) (RateWindow cfg) (d_rate d)) ≫= fun _ =>
       issue email CodeTypeLogin None (LinkLifespan cfg) "login" d.

Definition VerifyCode (email otpCode : string) (now1 now2 now3 : time) : svc (string * option uuid) :=
  limited (CheckRateLimit ("login_verify:" +:+ email) (RateLimit cfg) (RateWindow cfg) now1) ≫= fun _ =>
  code ← found (GetByCode email otpCode CodeTypeLogin now2);
  marked (MarkUsed (co_ID code) now3) ≫= fun _ =>
  mret (co_Recipient code, co_IdentityID code).

Definition verifyMagicLink (token : string) (expectedType : option CodeType) (now1 now2 : time)
    : svc (string * option uuid) :=
  code ← found (GetByToken token now1);
  if match expectedType with Some t => negb (String.eqb (co_Type code) t) | None => false end
  then throw ErrInvalidCode
  else marked (MarkUsed (co_ID code) now2) ≫= fun _ => mret (co_Recipient code, co_IdentityID code).

Definition VerifyMagicLink (token : string) (now1 now2 : time) : svc (string * option uuid) :=
  verifyMagicLink token None now1 now2.
Definition VerifyMagicLinkForType (token : string) (expectedType : CodeType) (now1 now2 : time)
    : svc (string * option uuid) :=
  verifyMagicLink token (Some expectedType) now1 now2.

Definition SendVerificationCode (email : string) (identityID : uuid) (d : draws) : svc unit :=
  if String.eqb email "" then throw ErrRecipientEmpty
  else limited (CheckRateLimit ("verify:" +:+ uuid_string identityID) (RateLimit cfg) (RateWindow cfg) (d_rate d)) ≫= fun _ =>
       issue email CodeTypeVerification (Some identityID) (CodeLifespan cfg) "verification" d.

(** Verification and recovery codes are checked alike. *)
Definition verify_for (codeType : CodeType) (email otpCode : string) (now1 now2 : time) : svc uuid :=
  code ← found (GetByCode email otpCode codeType now1);
  match co_IdentityID code with
  | None => throw ErrInvalidCode
  | Some identityID => marked (MarkUsed (co_ID code) now2) ≫= fun _ => mret identityID
  end.

Definition VerifyVerificationCode (email otpCode : string) (now1 now2 : time) : svc uuid :=
  verify_for CodeTypeVerification email otpCode now1 now2.

Definition sendRecoveryCode (email : string) (identityID : option uuid) (d : draws) : svc unit :=
  if String.eqb email "" then throw ErrRecipientEmpty
  else limited (CheckRateLimit ("recover:" +:+ email) (RecoveryRateLimit cfg) (RateWindow cfg) (d_rate d)) ≫= fun _ =>
       match identityID with
       | None => mret tt
       | Some _ => issue email CodeTypeRecovery identityID (CodeLifespan cfg) "recovery" d
       end.
Definition SendRecoveryCode (email : string) (identityID : uuid) (d : draws) : svc unit :=
  sendRecoveryCode email (Some identityID) d.
Definition SendRecoveryCodeIfIdentityExists (email : string) (identityID : option uuid) (d : draws) : svc unit :=
  sendRecoveryCode email identityID d.

Definition VerifyRecoveryCode (email otpCode : string) (now1 now2 : time) : svc uuid :=
  verify_for CodeTypeRecovery email otpCode now1 now2.

Definition Cleanup (now : time) : svc Z := of_store (MagicLink.Cleanup now).
End service.
End Service.
