(* ===== verification/MagicLinkFacts.v ===== *)
(** Magic links: codes have the configured shape, guesses are bounded, a code or
    link is accepted once however requests interleave, and a code that was mailed
    logs its recipient in and supersedes the codes mailed before.

    [serve] cuts every operation of the service at its calls of the store;
    [serve_run] shows that a request served alone is the operation. *)

From Stdlib Require Import Ascii String.
From S2P Require Import Prelude GoStrings GoEncoding PlatformCrypto CryptoFields OneTime MagicLink.

Local Open Scope string_scope.

(** ** Generated codes *)

Lemma get_forall p s i c : str_forall p s = true -> String.get i s = Some c -> p c = true.
Proof.
  revert i; induction s as [|d s IH]; intros [|i] Hs Hg; simplify_eq/=; apply andb_true_iff in Hs as [? ?]; eauto.
Qed.

(** A generated code has the configured length and letters. *)
Lemma generateCode_shape s fuel rand pos code pos' p :
  (0 <= codeLength s)%Z -> str_forall p (codeCharset s) = true ->
  generateCode s fuel rand pos = Some (Ok code, pos') ->
  Z.of_nat (String.length code) = codeLength s /\ str_forall p code = true.
Proof.
  unfold generateCode. intros Hl Hp. assert (Hgen : forall n pos code pos',
    code_loop fuel (codeCharset s) rand n pos = Some (Ok code, pos') ->
    String.length code = n /\ str_forall p code = true).
  { induction n as [|n IH]; intros q c q' Hc; cbn [code_loop] in Hc; [by simplify_eq|].
    destruct (RandomIntN fuel _ rand q) as [[[i|] q1]|] eqn:Hi; [|done..].
    apply RandomIntN_range in Hi.
    destruct (String.get (Z.to_nat i) (codeCharset s)) as [ch|] eqn:Hg.
    - destruct (code_loop fuel _ rand n q1) as [[[rest|] q2]|] eqn:Hrest; [|done..]. simplify_eq.
      destruct (IH _ _ _ Hrest) as [<- Hall]. cbn. by rewrite (get_forall p _ _ _ Hp Hg), Hall.
    - exfalso. assert (Hin : (Z.to_nat i < String.length (codeCharset s))%nat) by lia. revert Hg Hin. clear.
      generalize (Z.to_nat i), (codeCharset s). intros k t. revert k.
      induction t as [|d t IH]; intros [|k] Hg Hk; simpl in *; [lia..|done|]. apply (IH k Hg). lia. }
  intros Hc. destruct (Hgen _ _ _ _ Hc) as [Hlen Hall]. split; [lia|done].
Qed.

(** ** The rate limit

    [CheckRateLimit] counts in fixed windows.  Requests for one key come with a
    clock that does not go back, between requests for other keys and clean-ups,
    and any statement may fail. *)

Local Open Scope Z_scope.

Inductive limit_op : Type :=
| OpCheck (key : string) (limit : Z) (window : duration) (now : time)
| OpCleanup (now : time).
Definition op_time (op : limit_op) : time := match op with OpCheck _ _ _ t | OpCleanup t => t end.

(** Runs the operations; the times at which checks of [key] passed. *)
Fixpoint passes (key : string) (ops : list limit_op) (w : world ml_db) : list time :=
  match ops with
  | [] => []
  | OpCheck k limit window now :: rest =>
      match CheckRateLimit k limit window now w with
      | (Ok _, w') => if String.eqb k key then now :: passes key rest w' else passes key rest w'
      | (Err _, w') => passes key rest w'
      end
  | OpCleanup now :: rest => passes key rest (Cleanup now w).2
  end.

Fixpoint ordered_from (t : time) (ops : list limit_op) : Prop :=
  match ops with [] => True | op :: rest => t <= op_time op /\ ordered_from (op_time op) rest end.
(** Every check of [key] uses the same limit and window. *)
Definition uniform (key : string) (limit : Z) (window : duration) (op : limit_op) : Prop :=
  match op with OpCheck k l w _ => k = key -> l = limit /\ w = window | OpCleanup _ => True end.

Definition within (a b : time) (t : time) : bool := (a <=? t) && (t <=? b).
Definition count_within (a b : time) (ts : list time) : Z := Z.of_nat (length (List.filter (within a b) ts)).

Section limit.
Context (key : string) (limit : Z) (window : duration) (a b : time)
  (Hlimit : 0 <= limit) (Hwindow : b - a <= window).

(** What is known after [n] passes within [a, b]: they all fell into the
    current window, or the current window reaches beyond [b], or [b] is over. *)
Definition budget (now : time) (row : option (Z * time)) (n : Z) : Prop :=
  0 <= n /\ (now < a -> n = 0) /\
  match row with
  | None => n <= limit \/ (b < now /\ n <= 2 * limit)
  | Some (count, window_end) =>
      n <= Z.min count limit \/ (b <= window_end /\ n <= limit + Z.min count limit) \/ (b < now /\ n <= 2 * limit)
  end.

Lemma budget_later now now' row n : now <= now' -> budget now row n -> budget now' row n.
Proof. unfold budget. intros Hle (H0 & H1 & H2). destruct row as [[c e]|]; split_and!; try lia. Qed.

(** The check itself, on the row of the key. *)
Lemma budget_check now db c db' n :
  budget now (t_limits db !! key) n -> count_request key now (now + window) db = Ok (c, db') ->
  budget now (t_limits db' !! key) (n + if (c <=? limit) && within a b now then 1 else 0).
Proof using Hlimit Hwindow.
  unfold budget, count_request, within. intros (H0 & H1 & H2) Hc.
  destruct (t_limits db !! key) as [[count e]|].
  - destruct (Z.ltb_spec e now) as [He|He]; [|destruct (_ <? _); [done|]]; simplify_eq; cbn; rewrite lookup_insert_eq.
    + destruct (Z.leb_spec 1 limit), (Z.leb_spec a now), (Z.leb_spec now b); cbn [andb]; split_and!; lia.
    + destruct (Z.leb_spec (count + 1) limit), (Z.leb_spec a now), (Z.leb_spec now b); cbn [andb]; split_and!; lia.
  - simplify_eq; cbn; rewrite lookup_insert_eq.
    destruct (Z.leb_spec 1 limit), (Z.leb_spec a now), (Z.leb_spec now b); cbn [andb]; split_and!; lia.
Qed.

Lemma CheckRateLimit_cases k l wd now w r w' :
  CheckRateLimit k l wd now w = (r, w') ->
  (exists c, count_request k now (now + wd) (w_db w) = Ok (c, w_db w') /\
     if c <=? l then r = Ok tt else r = Err ErrRateLimited) \/
  (w_db w' = w_db w /\ exists e, r = Err e).
Proof.
  unfold CheckRateLimit, time_add. rewrite M_bind_run. destruct (db_stmt _ w) as [r1 w1] eqn:E.
  apply db_stmt_cases in E as [(c & -> & E)|(e & -> & E)]; [|intros [= <- <-]; eauto].
  rewrite Z.ltb_antisym. destruct (Z.leb_spec c l) as [Hc|Hc]; cbn [negb]; intros [= <- <-]; left; exists c;
    (split; [done|]); [by rewrite (proj2 (Z.leb_le c l))|by rewrite (proj2 (Z.leb_gt c l))].
Qed.

(** A request for another key leaves the row of [key]. *)
Lemma count_request_other k now e db c db' :
  k <> key -> count_request k now e db = Ok (c, db') -> t_limits db' !! key = t_limits db !! key.
Proof.
  unfold count_request. intros Hne Hc. repeat case_match; simplify_eq; cbn; by rewrite lookup_insert_ne.
Qed.

Lemma budget_cleanup now n db m :
  m = filter (fun kv => (kv.2.2 <? now) = false) (t_limits db) ->
  budget now (t_limits db !! key) n -> budget now (m !! key) n.
Proof.
  intros -> Hb. destruct (filter _ (t_limits db) !! key) as [row|] eqn:E.
  - apply map_lookup_filter_Some in E as [E _]. by rewrite E in Hb.
  - apply map_lookup_filter_None in E as [E|E]; [by rewrite E in Hb|].
    destruct (t_limits db !! key) as [[c e]|]; [|done]. specialize (E _ eq_refl). cbn in E.
    apply not_false_is_true, Z.ltb_lt in E. unfold budget in *. destruct Hb as (H0 & H1 & H2). split_and!; lia.
Qed.

Lemma Cleanup_limits now w :
  t_limits (w_db (Cleanup now w).2) = t_limits (w_db w) \/
  t_limits (w_db (Cleanup now w).2) = filter (fun kv => (kv.2.2 <? now) = false) (t_limits (w_db w)).
Proof.
  unfold Cleanup. rewrite M_bind_run. destruct (db_stmt _ w) as [r1 w1] eqn:E1.
  assert (H1 : t_limits (w_db w1) = t_limits (w_db w)).
  { apply db_stmt_cases in E1 as [(n & -> & E1)|(e & -> & E1)]; [injection E1 as _ <-; done|by rewrite E1]. }
  destruct r1 as [n|]; [|by left]. rewrite M_bind_run. destruct (db_stmt _ w1) as [r2 w2] eqn:E2.
  apply db_stmt_cases in E2 as [(u & -> & E2)|(e & -> & E2)].
  - right. cbn. injection E2 as _ <-. cbn. by rewrite H1.
  - left. cbn. by rewrite E2.
Qed.

Lemma passes_bound ops : forall t w n,
  ordered_from t ops -> Forall (uniform key limit window) ops -> budget t (t_limits (w_db w) !! key) n ->
  n + count_within a b (passes key ops w) <= 2 * limit.
Proof using Hlimit Hwindow.
  induction ops as [|op ops IH]; intros t w n Hord Hu Hb.
  { unfold count_within. cbn. unfold budget in Hb. destruct Hb as (? & ? & Hb).
    destruct (t_limits (w_db w) !! key) as [[c e]|]; lia. }
  destruct Hord as [Ht Hord]. apply Forall_cons in Hu as [Hu Hus]. apply (budget_later t (op_time op)) in Hb; [|done].
  destruct op as [k l wd now|now]; cbn [passes op_time] in *.
  - destruct (CheckRateLimit k l wd now w) as [r w'] eqn:E.
    apply CheckRateLimit_cases in E as [(c & Hc & Hr)|(Hw & e & ->)].
    + destruct (String.eqb_spec k key) as [->|Hne].
      * destruct (Hu eq_refl) as [-> ->]. apply (budget_check now _ _ _ n) in Hc; [|done].
        specialize (IH now w' _ Hord Hus Hc). destruct (c <=? limit); subst r; [|cbn [andb] in IH; lia].
        unfold count_within in *. cbn [List.filter length]. destruct (within a b now); cbn [andb length] in *; lia.
      * apply count_request_other in Hc; [|done]. rewrite <- Hc in Hb.
        destruct r; by apply (IH now w').
    + rewrite <- Hw in Hb. by apply (IH now w').
  - apply (IH now); [done..|]. destruct (Cleanup_limits now w) as [->|Hl]; [done|].
    by apply (budget_cleanup now n (w_db w)).
Qed.
End limit.

(** C30: Guesses are bounded: in any stretch of time no longer than the window,
    at most twice the limit of requests for a key pass [CheckRateLimit],
    whatever other keys, clean-ups and database failures come in between. *)
Theorem rate_limit_bounds_attempts key limit window a b ops t w :
  0 <= limit -> b - a <= window -> ordered_from t ops -> Forall (uniform key limit window) ops ->
  (forall count window_end, t_limits (w_db w) !! key = Some (count, window_end) -> 0 <= count) ->
  count_within a b (passes key ops w) <= 2 * limit.
Proof.
  intros Hl Hw Hord Hu Hcounts.
  apply (passes_bound key limit window a b Hl Hw ops t w 0); [done..|].
  unfold budget. destruct (t_limits (w_db w) !! key) as [[c e]|]; [specialize (Hcounts c e eq_refl)|]; split_and!; lia.
Qed.

Definition empty_db : ml_db := {| t_codes := ∅; t_limits := ∅; outbox := [] |}.
Definition checks (ts : list time) : list limit_op := map (OpCheck "login_verify:a" 2 hour) ts.

(** Five guesses within an hour: two pass. *)
Lemma rate_limit_bounds_attempts_witness :
  passes "login_verify:a" (checks [1; 2; 3; 4; 5]) (World empty_db []) = [1; 2] /\
  count_within 0 hour (passes "login_verify:a" (checks [1; 2; 3; 4; 5]) (World empty_db [])) <= 4.
Proof.
  split; [vm_compute; reflexivity|].
  apply (rate_limit_bounds_attempts "login_verify:a" 2 hour 0 hour (checks [1; 2; 3; 4; 5]) 0 (World empty_db []));
    [lia|lia|cbn; lia|repeat constructor|done].
Defined.
Local Close Scope Z_scope.

(** ** One acceptance, whatever requests interleave *)

Import Service.

Inductive ml_request : Type :=
| RSendLogin (email : string) (d : draws)
| RVerifyCode (email otpCode : string) (now1 now2 now3 : time)
| RVerifyLink (token : string) (expectedType : option CodeType) (now1 now2 : time)
| RSendVerification (email : string) (identityID : uuid) (d : draws)
| RSendRecovery (email : string) (identityID : option uuid) (d : draws)
| RVerifyFor (codeType : CodeType) (email otpCode : string) (now1 now2 : time)
| RCleanup (now : time).

(** What a request answers, with the row that was accepted. *)
Inductive ml_answer : Type :=
| ASent
| AAccepted (id : uuid) (recipient : string) (identityID : option uuid)
| ACleaned (n : Z).

Definition accepted_row (r : result svc_error ml_answer) : option uuid :=
  match r with Ok (AAccepted id _ _) => Some id | _ => None end.

Definition open_code (db : ml_db) (id : uuid) : Prop := exists row, t_codes db !! id = Some row /\ cr_used row = false.

Section concurrent.
Context `{UuidText} `{LinkUrl} `{ScanOrder} (cfg : Config) (courier : option (mail -> option string)).

Abbreviation request := (prog ml_db (result svc_error ml_answer)).

Definition accept (code : Code) (now : time) : request :=
  bindc (marked (MarkUsed (co_ID code) now)) (fun _ => Ret (Ok (AAccepted (co_ID code) (co_Recipient code) (co_IdentityID code)))).

Definition issue_steps (email : string) (codeType : CodeType) (identityID : option uuid) (ttl : duration)
    (flowType : string) (d : draws) : request :=
  bindc (of_store (InvalidatePrevious email codeType (d_dbnow d))) (fun _ =>
  bindc (of_store (Create email codeType identityID ttl (d_code d) (d_token d) (d_id d) (d_now1 d) (d_now2 d))) (fun code =>
  bindc (send courier {| mail_to := email; mail_link := buildMagicLink cfg (co_Token code) flowType; mail_code := co_Code code |})
    (fun _ => Ret (Ok ASent)))).

Definition check_rate (key : string) (limit : Z) (now : time) : M ml_db svc_error unit :=
  limited (CheckRateLimit key limit (RateWindow cfg) now).

Definition serve (r : ml_request) : request :=
  match r with
  | RSendLogin email d =>
      if String.eqb email "" then Ret (Err ErrRecipientEmpty)
      else bindc (check_rate ("login:" +:+ email) (RateLimit cfg) (d_rate d)) (fun _ =>
           issue_steps email CodeTypeLogin None (LinkLifespan cfg) "login" d)
  | RVerifyCode email otpCode now1 now2 now3 =>
      bindc (check_rate ("login_verify:" +:+ email) (RateLimit cfg) now1) (fun _ =>
      bindc (found (GetByCode email otpCode CodeTypeLogin now2)) (fun code => accept code now3))
  | RVerifyLink token expectedType now1 now2 =>
      bindc (found (GetByToken token now1)) (fun code =>
      if match expectedType with Some t => negb (String.eqb (co_Type code) t) | None => false end
      then Ret (Err ErrInvalidCode) else accept code now2)
  | RSendVerification email identityID d =>
      if String.eqb email "" then Ret (Err ErrRecipientEmpty)
      else bindc (check_rate ("verify:" +:+ uuid_string identityID) (RateLimit cfg) (d_rate d)) (fun _ =>
           issue_steps email CodeTypeVerification (Some identityID) (CodeLifespan cfg) "verification" d)
  | RSendRecovery email identityID d =>
      if String.eqb email "" then Ret (Err ErrRecipientEmpty)
      else bindc (check_rate ("recover:" +:+ email) (RecoveryRateLimit cfg) (d_rate d)) (fun _ =>
           match identityID with
           | None => Ret (Ok ASent)
           | Some _ => issue_steps email CodeTypeRecovery identityID (CodeLifespan cfg) "recovery" d
           end)
  | RVerifyFor codeType email otpCode now1 now2 =>
      bindc (found (GetByCode email otpCode codeType now1)) (fun code =>
      match co_IdentityID code with None => Ret (Err ErrInvalidCode) | Some _ => accept code now2 end)
  | RCleanup now => bindc (Service.Cleanup now) (fun n => Ret (Ok (ACleaned n)))
  end.

(** The answer of the operation itself, without the row. *)
Inductive ml_reply : Type := Done | Verified (recipient : string) (identityID : option uuid) | Identity (id : uuid) | Count (n : Z).
Definition reply_of (r : ml_request) (a : ml_answer) : ml_reply :=
  match a with
  | ASent => Done
  | ACleaned n => Count n
  | AAccepted _ recipient identityID =>
      match r with RVerifyFor _ _ _ _ _ => Identity (default uuid_Nil identityID) | _ => Verified recipient identityID end
  end.

Definition map_m {E A B} (g : A -> B) (m : M ml_db E A) : M ml_db E B := a ← m; mret (g a).
Definition operation (r : ml_request) : M ml_db svc_error ml_reply :=
  match r with
  | RSendLogin email d => map_m (fun _ => Done) (SendLoginCode cfg courier email d)
  | RVerifyCode email otpCode now1 now2 now3 =>
      map_m (fun p => Verified p.1 p.2) (VerifyCode cfg email otpCode now1 now2 now3)
  | RVerifyLink token None now1 now2 => map_m (fun p => Verified p.1 p.2) (VerifyMagicLink token now1 now2)
  | RVerifyLink token (Some t) now1 now2 => map_m (fun p => Verified p.1 p.2) (VerifyMagicLinkForType token t now1 now2)
  | RSendVerification email identityID d => map_m (fun _ => Done) (SendVerificationCode cfg courier email identityID d)
  | RSendRecovery email identityID d => map_m (fun _ => Done) (SendRecoveryCodeIfIdentityExists cfg courier email identityID d)
  | RVerifyFor codeType email otpCode now1 now2 => map_m Identity (verify_for codeType email otpCode now1 now2)
  | RCleanup now => map_m Count (Service.Cleanup now)
  end.

Ltac serve_bind :=
  match goal with |- context [run_prog (bindc ?m ?k) ?w] =>
    let r := fresh "r" in cbn [bindc run_prog]; destruct (m w) as [[r|] ?]; [|done]; cbn [fst snd] end.

(** A request served alone is the operation of the service. *)
Lemma serve_run r w :
  (fun rw => (reply_of r <$> rw.1, rw.2)) (run_prog (serve r) w) = operation r w.
Proof.
  destruct r as [email d|email otp t1 t2 t3|token ty t1 t2|email i d|email i d|ty email otp t1 t2|t]; cbn [serve operation];
    unfold map_m, SendLoginCode, VerifyCode, VerifyMagicLink, VerifyMagicLinkForType, verifyMagicLink, SendVerificationCode,
      SendRecoveryCodeIfIdentityExists, sendRecoveryCode, verify_for, Service.Cleanup, issue, issue_steps, accept, check_rate;
    rewrite ?M_bind_run.
  - destruct (String.eqb email ""); [done|]. rewrite ?M_bind_run. repeat (serve_bind; rewrite ?M_bind_run). done.
  - repeat (serve_bind; rewrite ?M_bind_run). done.
  - destruct ty as [ty|]; rewrite ?M_bind_run; serve_bind; [destruct (negb _); [done|]|]; rewrite ?M_bind_run;
      repeat (serve_bind; rewrite ?M_bind_run); done.
  - destruct (String.eqb email ""); [done|]. rewrite ?M_bind_run. repeat (serve_bind; rewrite ?M_bind_run). done.
  - destruct (String.eqb email ""); [done|]. rewrite ?M_bind_run. serve_bind. destruct i; [|done]. rewrite ?M_bind_run.
    repeat (serve_bind; rewrite ?M_bind_run). done.
  - rewrite ?M_bind_run. serve_bind. destruct (co_IdentityID r) eqn:Hi; [|done]. rewrite ?M_bind_run.
    repeat (serve_bind; rewrite ?M_bind_run). reflexivity.
  - repeat (serve_bind; rewrite ?M_bind_run). done.
Qed.

(** ** Every request is disciplined *)

Abbreviation quiet := (opens_nothing open_code).

Lemma open_use db id t j : open_code (with_codes db (alter (use_row t) id (t_codes db))) j -> open_code db j /\ j <> id.
Proof.
  intros (row & Hr & Hu). cbn in Hr. destruct (decide (id = j)) as [<-|Hne].
  - rewrite lookup_alter_eq in Hr. destruct (t_codes db !! id); by simplify_eq/=.
  - rewrite lookup_alter_ne in Hr by done. split; [by exists row|done].
Qed.

(** A call that leaves the codes alone. *)
Lemma quiet_stmt {E A} `{DbErr E} (stmt : ml_db -> result db_error (A * ml_db)) :
  (forall s a s', stmt s = Ok (a, s') -> t_codes s' = t_codes s) -> quiet (db_stmt stmt : M ml_db E A).
Proof.
  intros Hs. apply steps_stmt. intros s a s' _ E0. apply rtc_once. intros j (row & Hr & Hu). exists row.
  by rewrite <- (Hs _ _ _ E0).
Qed.

Lemma quiet_CheckRateLimit key limit window now : quiet (CheckRateLimit key limit window now).
Proof.
  apply steps_bind; [|intros c; destruct (limit <? c)%Z; auto with aegion].
  apply quiet_stmt. intros s c s' Hc. unfold count_request in Hc. repeat case_match; by simplify_eq.
Qed.
Lemma quiet_get p f now :
  quiet (found ← db_stmt (fun db => Ok (newest p (t_codes db), db)); unexpired now (f <$> found)).
Proof.
  apply steps_bind; [apply quiet_stmt; intros; by simplify_eq|]. intros [c|]; cbn; [destruct (time_after _ _)|]; auto with aegion.
Qed.
Lemma quiet_send m : quiet (send courier m).
Proof.
  intros w _. unfold send. destruct courier as [deliver|]; [|done]. apply rtc_once. by intros j (row & Hr & Hu); exists row.
Qed.
Lemma quiet_MarkUsed id now : quiet (MarkUsed id now).
Proof.
  apply steps_bind; [|intros []; auto with aegion]. apply steps_stmt. intros s a s' _ E0. apply rtc_once. intros j Hj.
  destruct (t_codes s !! id) as [row|] eqn:Hrow; [|by simplify_eq]. destruct (negb _); [|by simplify_eq].
  simplify_eq. rewrite <- (alter_some _ _ _ _ Hrow) in Hj. by apply open_use in Hj as [? _].
Qed.
Lemma MarkUsed_takes id now w a w' :
  MarkUsed id now w = (Ok a, w') -> open_code (w_db w) id /\ ~ open_code (w_db w') id.
Proof.
  unfold MarkUsed. rewrite M_bind_ok. intros (b & w1 & E0 & E1). destruct b; [|done]. injection E1 as <- <-.
  apply db_stmt_cases in E0 as [(b & [= <-] & E0)|(? & ? & _)]; [|done].
  destruct (t_codes (w_db w) !! id) as [row|] eqn:Hrow; [|done].
  destruct (cr_used row) eqn:Hu; cbn [negb] in E0; [done|]. injection E0 as E0. split; [by exists row|].
  rewrite <- E0, <- (alter_some _ _ _ _ Hrow). by intros [_ ?]%open_use.
Qed.
Lemma quiet_InvalidatePrevious email ty t : quiet (InvalidatePrevious email ty t).
Proof.
  apply steps_stmt. intros s a s' _ E0. apply rtc_once. simplify_eq. intros j (row & Hr & Hu). cbn in Hr.
  rewrite lookup_fmap in Hr. destruct (t_codes s !! j) as [row'|] eqn:Hrow; [|done]. simplify_eq/=.
  exists row'. split; [done|]. by destruct (superseded email ty row').
Qed.
Lemma quiet_Cleanup now : quiet (MagicLink.Cleanup now).
Proof.
  apply steps_bind; [|intros n; apply steps_bind; [|intros; apply steps_ret]].
  - apply steps_stmt. intros s a s' _ E0. apply rtc_once. injection E0 as _ <-. intros j (row & Hr & Hu). cbn in Hr.
    apply map_lookup_filter_Some in Hr as [Hr _]. by exists row.
  - apply quiet_stmt. intros. by simplify_eq.
Qed.
Lemma Create_opens email ty i ttl code buf id t1 t2 w r w' j :
  of_store (Create email ty i ttl code buf id t1 t2) w = (r, w') ->
  open_code (w_db w') j -> open_code (w_db w) j \/ j = id.
Proof.
  unfold of_store, call, M_try, Create, lift_crypto. destruct code as [code|]; [|by intros [= <- <-]; left].
  destruct (generateToken buf) as [token|]; [|by intros [= <- <-]; left].
  rewrite !M_bind_run, !M_ret_run, !M_bind_run, !M_ret_run, !M_bind_run. destruct (db_stmt _ w) as [r1 w1] eqn:E0.
  apply db_stmt_cases in E0 as [(u & -> & E0)|(e & -> & E0)]; intros [= <- <-]; [|rewrite E0; by left].
  unfold insert_code in E0. repeat case_match; try done. injection E0 as _ E0. intros (row & Hr & Hu). rewrite <- E0 in Hr. cbn in Hr.
  destruct (decide (j = id)) as [->|Hne]; [by right|left]. rewrite lookup_insert_ne in Hr by done. by exists row.
Qed.

Abbreviation discipline := (disciplined open_code accepted_row).

Lemma discipline_accept new code now : discipline new (accept code now).
Proof.
  eapply disciplined_claim with (id := co_ID code); [done|apply steps_call, quiet_MarkUsed| |done].
  intros w a w' E0. unfold marked, call, M_try in E0. destruct (MarkUsed _ now w) as [[u|e] w1] eqn:E1; [|done].
  injection E0 as _ <-. by eapply MarkUsed_takes.
Qed.
Lemma discipline_issue email ty i ttl flow d : discipline (fun j => j = d_id d) (issue_steps email ty i ttl flow d).
Proof.
  apply disciplined_quiet; [done|apply steps_call, quiet_InvalidatePrevious|]. intros [].
  apply disciplined_open; [done|by intros; eapply Create_opens|]. intros code.
  apply disciplined_quiet; [done|apply quiet_send|done].
Qed.

(** The identifier a request draws for a new row. *)
Definition drawn_id (r : ml_request) : option uuid :=
  match r with
  | RSendLogin _ d | RSendVerification _ _ d | RSendRecovery _ _ d => Some (d_id d)
  | _ => None
  end.

Lemma discipline_serve r : discipline (fun j => drawn_id r = Some j) (serve r).
Proof.
  assert (Hissue : forall new email ty i ttl flow d, (forall j, j = d_id d -> new j) ->
    discipline new (issue_steps email ty i ttl flow d)).
  { intros new email ty i ttl flow d Hnew. eapply disciplined_weaken; [exact Hnew|apply discipline_issue]. }
  assert (Hrate : forall new key limit now k, (forall a, discipline new (k a)) ->
    discipline new (bindc (check_rate key limit now) k)).
  { intros. apply disciplined_quiet; [done|apply steps_call, quiet_CheckRateLimit|done]. }
  destruct r as [email d|email otp t1 t2 t3|token ty t1 t2|email i d|email i d|ty email otp t1 t2|t]; cbn [serve drawn_id].
  - destruct (String.eqb email ""); [done|]. apply Hrate. intros []. apply Hissue. naive_solver.
  - apply Hrate. intros []. apply disciplined_quiet; [done|apply steps_call, quiet_get|]. intros. apply discipline_accept.
  - apply disciplined_quiet; [done|apply steps_call, quiet_get|]. intros code.
    destruct (match ty with Some _ => _ | None => _ end); [done|apply discipline_accept].
  - destruct (String.eqb email ""); [done|]. apply Hrate. intros []. apply Hissue. naive_solver.
  - destruct (String.eqb email ""); [done|]. apply Hrate. intros []. destruct i; [|done]. apply Hissue. naive_solver.
  - apply disciplined_quiet; [done|apply steps_call, quiet_get|]. intros code.
    destruct (co_IdentityID code); [apply discipline_accept|done].
  - apply disciplined_quiet; [done|apply steps_call, quiet_Cleanup|done].
Qed.

(** C10: A code or link is accepted once: whatever requests of the service run
    at the same time, however their database calls interleave and fail, no two
    of them are accepted on the same code, whether it is presented as a code or
    as a link, and an accepted code is used up.  New rows must have fresh
    identifiers. *)
Theorem magic_code_accepted_once reqs db ps db' :
  (forall i i' id, (drawn_id <$> reqs !! i) = Some (Some id) -> (drawn_id <$> reqs !! i') = Some (Some id) -> i = i') ->
  (forall i id, (drawn_id <$> reqs !! i) = Some (Some id) -> t_codes db !! id = None) ->
  rtc pool_step (map serve reqs, db) (ps, db') ->
  NoDup (grants accepted_row ps) /\ forall id, id ∈ grants accepted_row ps -> ~ open_code db' id.
Proof.
  intros Hown Hfresh Hrun.
  apply (pool_grants_once open_code accepted_row (map serve reqs) db ps db'
    (fun i id => (drawn_id <$> reqs !! i) = Some (Some id))); [|done| |exact Hrun].
  - intros i p Hp. apply list_lookup_fmap_Some in Hp as (r & -> & Hr). rewrite Hr. cbn [fmap option_fmap option_map].
    assert (Hd : discipline (fun id => Some (drawn_id r) = Some (Some id)) (serve r))
      by (eapply disciplined_weaken; [|apply discipline_serve]; cbn; by intros j ->).
    split; [done|by eapply disciplined_not_granted].
  - intros i id Hd (row & Hrow & _). by rewrite (Hfresh i id Hd) in Hrow.
Qed.
End concurrent.

(** Two log-ins with the same code and one with its link, interleaved call by
    call: one is accepted. *)
Module OnceWitness.
#[local] Instance ids : UuidText := unary_uuid.
#[local] Instance order : ScanOrder := key_order.
#[local] Instance urls : LinkUrl := fun base path token => Some (base +:+ path +:+ "?token=" +:+ token).
Definition cfg : Config := (New newStore
  {| BaseURL := ""; CodeLength := 0; CodeCharset := ""; LinkLifespan := 0; CodeLifespan := 0; RateLimit := 0;
     RateWindow := 0; RecoveryRateLimit := 0 |}).2.
Definition courier : option (mail -> option string) := Some (fun _ => None).
Definition d (id : uuid) (code : string) : draws :=
  {| d_code := Ok code; d_token := Ok "abc"; d_id := id; d_rate := 1; d_dbnow := 1; d_now1 := 1; d_now2 := 1 |}.
Definition db0 : ml_db := Eval vm_compute in w_db (SendLoginCode cfg courier "a@b" (d 1%N "123456") (World empty_db [])).2.
Definition reqs : list ml_request :=
  [RVerifyCode "a@b" "123456" 2 2 2; RVerifyCode "a@b" "123456" 2 2 2; RVerifyLink (b64url_Encode "abc") None 2 2;
   RSendLogin "a@b" (d 2%N "654321")].
Definition schedule : list nat := [0; 1; 2; 0; 1; 2; 1; 3; 3; 0; 3].
Definition final : list (prog ml_db (result svc_error ml_answer)) * ml_db :=
  pool_run schedule (map (serve cfg courier) reqs, db0).

Lemma magic_code_accepted_once_witness :
  grants accepted_row final.1 = [1%N] /\ NoDup (grants accepted_row final.1).
Proof.
  split; [vm_compute; reflexivity|].
  destruct (magic_code_accepted_once cfg courier reqs db0 final.1 final.2) as [Hnd _]; [| |rewrite <- surjective_pairing; apply pool_run_steps|exact Hnd].
  - by intros [|[|[|[|i]]]] [|[|[|[|i']]]] id Hi Hi'; vm_compute in Hi, Hi'.
  - intros [|[|[|[|i]]]] id Hi; vm_compute in Hi; simplify_eq; reflexivity.
Defined.
End OnceWitness.

Import Service.

(** ** What a query finds *)

Section newest.
Context `{ScanOrder}.

Lemma newest_elem (p : code_row -> bool) (rows : gmap N code_row) c :
  newest p rows = Some c -> exists id row, rows !! id = Some row /\ p row = true /\ c = code_of_row id row.
Proof.
  unfold newest. intros ([id row] & Hh & ->)%fmap_Some. exists id, row.
  assert (Hin : (id, row) ∈ sort_by (fun a b : N * code_row => (cr_created b.2 <=? cr_created a.2)%Z)
    (List.filter (fun kv => p kv.2) (scan rows))) by (by apply head_Some_elem_of).
  rewrite sort_by_perm in Hin. apply list_elem_of_In, List.filter_In in Hin as [Hin Hp].
  apply list_elem_of_In in Hin. rewrite scan_perm in Hin. by apply elem_of_map_to_list in Hin.
Qed.

Lemma newest_none (p : code_row -> bool) (rows : gmap N code_row) :
  (forall id row, rows !! id = Some row -> p row = false) -> newest p rows = None.
Proof.
  intros Hno. destruct (newest p rows) as [c|] eqn:E; [|done].
  apply newest_elem in E as (id & row & Hr & Hp & _). by rewrite (Hno _ _ Hr) in Hp.
Qed.

(** The only row that matches is the one found. *)
Lemma newest_unique (p : code_row -> bool) (rows : gmap N code_row) id row :
  rows !! id = Some row -> p row = true ->
  (forall id' row', rows !! id' = Some row' -> p row' = true -> id' = id) ->
  newest p rows = Some (code_of_row id row).
Proof.
  intros Hr Hp Huniq. destruct (newest p rows) as [c|] eqn:E.
  - apply newest_elem in E as (id' & row' & Hr' & Hp' & ->). assert (id' = id) as -> by eauto. congruence.
  - exfalso. unfold newest in E. apply fmap_None, head_None in E.
    assert (Hin : (id, row) ∈ List.filter (fun kv : N * code_row => p kv.2) (scan rows)).
    { apply list_elem_of_In, List.filter_In. split; [|done]. apply list_elem_of_In. rewrite scan_perm.
      by apply elem_of_map_to_list. }
    rewrite <- (sort_by_perm (fun a b : N * code_row => (cr_created b.2 <=? cr_created a.2)%Z)) in Hin.
    rewrite E in Hin. by apply not_elem_of_nil in Hin.
Qed.
End newest.

(** ** Log-in by mail *)

(** The rate limit lets a request for [key] pass. *)
Definition allows (key : string) (limit : Z) (now : time) (db : ml_db) : Prop :=
  match t_limits db !! key with
  | None => (1 <= limit)%Z
  | Some (count, window_end) =>
      ((window_end < now /\ 1 <= limit) \/ (now <= window_end /\ count + 1 <= limit /\ count + 1 <= int32_max))%Z
  end.

Section mail.
Context `{UuidText} `{LinkUrl} `{ScanOrder} (cfg : Config) (deliver : mail -> option string).

Abbreviation courier := (Some deliver).

Lemma CheckRateLimit_passes key limit window now db :
  allows key limit now db ->
  exists l, CheckRateLimit key limit window now (World db []) = (Ok tt, World (with_limits db l) []) /\
    forall key', key' <> key -> l !! key' = t_limits db !! key'.
Proof.
  unfold allows, CheckRateLimit. intros Ha. rewrite M_bind_run, db_stmt_clean. unfold count_request.
  destruct (t_limits db !! key) as [[count e]|].
  - destruct (Z.ltb_spec e now); [|destruct (Z.ltb_spec int32_max (count + 1)); [lia|]];
      rewrite (proj2 (Z.ltb_ge _ _)) by lia; eexists; (split; [reflexivity|]); intros; by apply lookup_insert_ne.
  - rewrite (proj2 (Z.ltb_ge _ _)) by lia; eexists; (split; [reflexivity|]); intros; by apply lookup_insert_ne.
Qed.

(** The tables after a code was issued: the older codes of that kind for the
    recipient are used, and the new row is stored. *)
Definition issued_row (email code token : string) (ty : CodeType) (i : option uuid) (expires created : time) : code_row :=
  {| cr_identity := i; cr_recipient := email; cr_type := ty; cr_code := None;
     cr_code_hash := Some (secrettoken.Hash code); cr_token := None; cr_token_hash := Some (secrettoken.Hash token);
     cr_token_prefix := Some (secrettoken.Prefix token tokenLookupPrefixLength); cr_used := false; cr_used_at := None;
     cr_expires := expires; cr_created := created |}.
Definition superseding (email : string) (ty : CodeType) (t : time) (rows : gmap N code_row) : gmap N code_row :=
  (fun row => if superseded email ty row then use_row t row else row) <$> rows.

Lemma token_taken_superseding h email ty t rows : token_taken (Some h) (superseding email ty t rows) = token_taken (Some h) rows.
Proof.
  apply Bool.eq_iff_eq_true. unfold token_taken. rewrite !existsb_exists. split; intros ([id row] & Hin & Hh);
    apply list_elem_of_In, elem_of_map_to_list in Hin; apply bool_decide_eq_true in Hh; cbn in Hh.
  - unfold superseding in Hin. rewrite lookup_fmap in Hin. destruct (rows !! id) as [row'|] eqn:Hr; [|done]. injection Hin as <-.
    exists (id, row'). split; [by apply list_elem_of_In, elem_of_map_to_list|]. apply bool_decide_eq_true. cbn.
    by destruct (superseded email ty row').
  - exists (id, if superseded email ty row then use_row t row else row). split.
    + apply list_elem_of_In, elem_of_map_to_list. unfold superseding. by rewrite lookup_fmap, Hin.
    + apply bool_decide_eq_true. cbn. by destruct (superseded email ty row).
Qed.

Lemma Create_run email ty i ttl code buf id t1 t2 db :
  valid_type ty = true -> t_codes db !! id = None ->
  token_taken (Some (secrettoken.Hash (b64url_Encode buf))) (t_codes db) = false ->
  Create email ty i ttl (Ok code) (Ok buf) id t1 t2 (World db []) =
  (Ok {| co_ID := id; co_IdentityID := i; co_Recipient := email; co_Type := ty; co_Code := code;
         co_Token := b64url_Encode buf; co_Used := false; co_UsedAt := None; co_ExpiresAt := time_add t1 ttl; co_CreatedAt := t2 |},
   World (with_codes db (<[id := issued_row email code (b64url_Encode buf) ty i (time_add t1 ttl) t2]> (t_codes db))) []).
Proof.
  intros Hty Hid Htok. unfold Create, lift_crypto, generateToken, mbind, M_bind, mret, M_ret, fmap, result_fmap.
  cbv beta iota zeta.
  rewrite db_stmt_clean. unfold insert_code. cbn [cr_type cr_token_hash]. rewrite Hty. cbn [negb].
  rewrite bool_decide_eq_false_2 by (rewrite Hid; by intros [? ?]). by rewrite Htok.
Qed.

Lemma issue_run email ty i ttl flow d code buf db :
  valid_type ty = true -> d_code d = Ok code -> d_token d = Ok buf -> t_codes db !! d_id d = None ->
  token_taken (Some (secrettoken.Hash (b64url_Encode buf))) (t_codes db) = false ->
  let m := {| mail_to := email; mail_link := buildMagicLink cfg (b64url_Encode buf) flow; mail_code := code |} in
  deliver m = None ->
  issue cfg courier email ty i ttl flow d (World db []) =
  (Ok tt, World (with_mail (with_codes db (<[d_id d := issued_row email code (b64url_Encode buf) ty i
     (time_add (d_now1 d) ttl) (d_now2 d)]> (superseding email ty (d_dbnow d) (t_codes db)))) m) []).
Proof.
  intros Hty Hc Ht Hid Htok m Hm. unfold issue, of_store. rewrite M_bind_run, call_run. unfold InvalidatePrevious.
  rewrite db_stmt_clean. fold (superseding email ty (d_dbnow d) (t_codes db)).
  rewrite M_bind_run, call_run, Hc, Ht, Create_run; [|done| |by cbn [t_codes with_codes]; rewrite token_taken_superseding].
  - unfold send. cbn [co_Token co_Code]. fold m. by rewrite Hm.
  - cbn [t_codes with_codes]. unfold superseding. by rewrite lookup_fmap, Hid.
Qed.

Lemma superseding_used email ty t rows id row :
  superseding email ty t rows !! id = Some row -> superseded email ty row = false.
Proof.
  unfold superseding. rewrite lookup_fmap. destruct (rows !! id) as [row'|]; [|done]. intros [= <-].
  destruct (superseded email ty row') eqn:Hs; [|done]. unfold superseded, use_row. cbn. by rewrite andb_false_r.
Qed.
Lemma matches_superseded email otp ty row : matches_code email otp ty row = true -> superseded email ty row = true.
Proof. unfold matches_code, superseded. intros Hm. bool_to_prop. by rewrite !andb_true_iff, !negb_true_iff, !String.eqb_eq. Qed.

(** Among the codes of the recipient, only the row [id] can be found. *)
Definition only_open (email : string) (ty : CodeType) (id : uuid) (rows : gmap N code_row) : Prop :=
  forall id' row, rows !! id' = Some row -> superseded email ty row = true -> id' = id.

Lemma find_only email otp ty now id row db :
  only_open email ty id (t_codes db) -> t_codes db !! id = Some row ->
  GetByCode email otp ty now (World db []) =
  (if matches_code email otp ty row then
     if time_after now (cr_expires row) then Err ErrCodeExpired else Ok (with_code_value (code_of_row id row) otp)
   else Err ErrCodeNotFound, World db []).
Proof.
  intros Honly Hr. unfold GetByCode. rewrite M_bind_run, db_stmt_clean. destruct (matches_code _ _ _ row) eqn:Hm.
  - rewrite (newest_unique _ _ id row Hr Hm) by (intros; eapply Honly; [done|by eapply matches_superseded]).
    cbn [fmap option_fmap option_map unexpired co_ExpiresAt with_code_value code_of_row]. by destruct (time_after _ _).
  - rewrite newest_none; [done|]. intros id' row' Hr'. apply Bool.not_true_is_false. intros Hm'.
    assert (id' = id) as -> by (eapply Honly; [done|by eapply matches_superseded]). congruence.
Qed.

Lemma check_rate_passes key limit now db (m : M ml_db svc_error (string * option uuid)) :
  allows key limit now db ->
  exists l, (limited (CheckRateLimit key limit (RateWindow cfg) now) ≫= fun _ => m) (World db []) = m (World (with_limits db l) []) /\
    forall key', key' <> key -> l !! key' = t_limits db !! key'.
Proof.
  intros Ha. destruct (CheckRateLimit_passes key limit (RateWindow cfg) now db Ha) as (l & Hl & Hother). exists l.
  split; [|done]. unfold limited. by rewrite M_bind_run, call_run, Hl.
Qed.

(** Verifying a code when one row only can match. *)
Lemma VerifyCode_only email otp t1 t2 t3 id row db :
  allows ("login_verify:" +:+ email) (RateLimit cfg) t1 db ->
  only_open email CodeTypeLogin id (t_codes db) -> t_codes db !! id = Some row -> (t2 <= cr_expires row)%Z ->
  exists l, VerifyCode cfg email otp t1 t2 t3 (World db []) =
    if matches_code email otp CodeTypeLogin row
    then (Ok (cr_recipient row, cr_identity row),
          World (with_codes (with_limits db l) (<[id := use_row t3 row]> (t_codes db))) [])
    else (Err ErrInvalidCode, World (with_limits db l) []).
Proof.
  intros Ha Honly Hr Hexp. unfold VerifyCode.
  destruct (check_rate_passes ("login_verify:" +:+ email) (RateLimit cfg) t1 db
    (code ← found (GetByCode email otp CodeTypeLogin t2); marked (MarkUsed (co_ID code) t3) ≫= fun _ =>
     mret (co_Recipient code, co_IdentityID code)) Ha) as (l & -> & _). exists l.
  unfold found, marked. rewrite M_bind_run, call_run, (find_only email otp CodeTypeLogin t2 id row) by done.
  destruct (matches_code email otp CodeTypeLogin row) eqn:Hm; [|done].
  unfold time_after. rewrite (proj2 (Z.ltb_ge _ _)) by lia.
  rewrite M_bind_run, call_run. unfold MarkUsed. rewrite M_bind_run, db_stmt_clean.
  cbn [co_ID with_code_value code_of_row t_codes with_limits]. rewrite Hr.
  assert (Hu : cr_used row = false) by (unfold matches_code in Hm; by bool_to_prop).
  by rewrite Hu.
Qed.

(** Once no code of the recipient is open, none is accepted. *)
Lemma VerifyCode_none email otp t1 t2 t3 w :
  (forall id row, t_codes (w_db w) !! id = Some row -> superseded email CodeTypeLogin row = false) ->
  ~ is_Some (match (VerifyCode cfg email otp t1 t2 t3 w).1 with Ok a => Some a | Err _ => None end).
Proof.
  intros Hno. unfold VerifyCode. rewrite M_bind_run. unfold limited. rewrite call_run.
  destruct (CheckRateLimit _ _ _ _ w) as [[u|e] w1] eqn:E1; [|by intros [? ?]].
  assert (Hc1 : t_codes (w_db w1) = t_codes (w_db w)).
  { apply CheckRateLimit_cases in E1 as [(c & Hc & _)|(-> & _)]; [|done].
    unfold count_request in Hc. repeat case_match; try done; injection Hc as _ <-; done. }
  rewrite M_bind_run. unfold found. rewrite call_run. unfold GetByCode. rewrite M_bind_run.
  destruct (db_stmt _ w1) as [[c|e] w2] eqn:E2; [|by intros [? ?]].
  apply db_stmt_cases in E2 as [(c' & [= <-] & [= <- _])|(? & ? & _)]; [|done].
  rewrite newest_none; [by intros [? ?]|]. intros id row Hr. rewrite Hc1 in Hr. specialize (Hno _ _ Hr).
  apply Bool.not_true_is_false. intros Hm%matches_superseded. congruence.
Qed.

(** C27: Log-in by mail: when the limits allow it, [SendLoginCode] mails the
    code to the address; until the code expires, [VerifyCode] accepts for this
    address exactly the code that was mailed last, whatever was mailed before,
    answers with the address, and after that accepts nothing more. *)
Theorem mailed_code_logs_in email d code buf otp t1 t2 t3 db :
  email <> "" -> d_code d = Ok code -> d_token d = Ok buf -> t_codes db !! d_id d = None ->
  token_taken (Some (secrettoken.Hash (b64url_Encode buf))) (t_codes db) = false ->
  allows ("login:" +:+ email) (RateLimit cfg) (d_rate d) db ->
  allows ("login_verify:" +:+ email) (RateLimit cfg) t1 db ->
  (t2 <= time_add (d_now1 d) (LinkLifespan cfg))%Z ->
  let m := {| mail_to := email; mail_link := buildMagicLink cfg (b64url_Encode buf) "login"; mail_code := code |} in
  deliver m = None ->
  exists w1, SendLoginCode cfg courier email d (World db []) = (Ok tt, w1) /\ outbox (w_db w1) = m :: outbox db /\
    ((VerifyCode cfg email code t1 t2 t3 w1).1 = Ok (email, None)) /\
    (secrettoken.Hash otp <> secrettoken.Hash code -> (VerifyCode cfg email otp t1 t2 t3 w1).1 = Err ErrInvalidCode) /\
    forall otp' t4 t5 t6 r, (VerifyCode cfg email otp' t4 t5 t6 (VerifyCode cfg email code t1 t2 t3 w1).2).1 <> Ok r.
Proof.
  intros He Hc Ht Hid Htok Hr1 Hr2 Hexp m Hm.
  destruct (CheckRateLimit_passes ("login:" +:+ email) (RateLimit cfg) (RateWindow cfg) (d_rate d) db Hr1) as (l & Hl & Hother).
  eexists. split.
  { unfold SendLoginCode. rewrite (proj2 (String.eqb_neq _ _) He). unfold limited. rewrite M_bind_run, call_run, Hl.
    apply (issue_run email CodeTypeLogin None (LinkLifespan cfg) "login" d code buf); done. }
  split; [done|]. match goal with |- context [World ?x []] => set (db1 := x) end.
  set (row := issued_row email code (b64url_Encode buf) CodeTypeLogin None (time_add (d_now1 d) (LinkLifespan cfg)) (d_now2 d)) in *.
  assert (Hrow : t_codes db1 !! d_id d = Some row) by apply lookup_insert_eq.
  assert (Honly : only_open email CodeTypeLogin (d_id d) (t_codes db1)).
  { intros id' row' Hr' Hs'. destruct (decide (id' = d_id d)) as [|Hne]; [done|]. exfalso. cbn in Hr'.
    rewrite lookup_insert_ne in Hr' by done. apply superseding_used in Hr'. congruence. }
  assert (Hallow : allows ("login_verify:" +:+ email) (RateLimit cfg) t1 db1)
    by (unfold allows; cbn; by rewrite Hother).
  assert (Hmatch : forall o, matches_code email o CodeTypeLogin row = String.eqb (secrettoken.Hash code) (secrettoken.Hash o)).
  { intros o. unfold matches_code, row. cbn -[secrettoken.Hash]. by rewrite String.eqb_refl, orb_false_r. }
  destruct (VerifyCode_only email code t1 t2 t3 (d_id d) row db1 Hallow Honly Hrow Hexp) as (l1 & Hv).
  rewrite Hmatch, String.eqb_refl in Hv. rewrite Hv. split; [done|]. split.
  - intros Hne. destruct (VerifyCode_only email otp t1 t2 t3 (d_id d) row db1 Hallow Honly Hrow Hexp) as (l2 & ->).
    rewrite Hmatch, (proj2 (String.eqb_neq _ _)) by congruence. done.
  - intros otp' t4 t5 t6 r Hok. eapply (VerifyCode_none email otp' t4 t5 t6); [|by erewrite Hok].
    intros id' row'. cbn [snd w_db t_codes with_codes with_limits]. destruct (decide (id' = d_id d)) as [->|Hne].
    + rewrite lookup_insert_eq. intros [= <-]. unfold superseded, use_row. cbn. by rewrite andb_false_r.
    + rewrite lookup_insert_ne by done. intros Hr'. apply Bool.not_true_is_false. intros Hs. apply Hne. by eapply Honly.
Qed.
End mail.

(** A wrong verification or recovery code costs nothing: no counter moves, and
    the next guess finds the tables as they were. *)
Lemma wrong_recovery_code_is_not_counted `{ScanOrder} ty email otp t1 t2 db :
  newest (matches_code email otp ty) (t_codes db) = None ->
  verify_for ty email otp t1 t2 (World db []) = (Err ErrInvalidCode, World db []).
Proof.
  intros Hn. unfold verify_for, found. rewrite M_bind_run, call_run. unfold GetByCode.
  by rewrite M_bind_run, db_stmt_clean, Hn.
Qed.

Module MailWitness.
#[local] Instance ids : UuidText := unary_uuid.
#[local] Instance order : ScanOrder := key_order.
#[local] Instance urls : LinkUrl := fun base path token => Some (base +:+ path +:+ "?token=" +:+ token).
Definition cfg : Config := (New newStore
  {| BaseURL := ""; CodeLength := 0; CodeCharset := ""; LinkLifespan := 0; CodeLifespan := 0; RateLimit := 0;
     RateWindow := 0; RecoveryRateLimit := 0 |}).2.
Definition deliver (m : mail) : option string := None.
Definition d (id : uuid) (code token : string) : draws :=
  {| d_code := Ok code; d_token := Ok token; d_id := id; d_rate := 1; d_dbnow := 1; d_now1 := 1; d_now2 := 1 |}.
(** An older code is open when the new one is sent. *)
Definition db0 : ml_db := Eval vm_compute in
  w_db (SendLoginCode cfg (Some deliver) "a@b" (d 1%N "111111" "abc") (World empty_db [])).2.

Lemma mailed_code_logs_in_witness :
  exists w1, SendLoginCode cfg (Some deliver) "a@b" (d 2%N "222222" "def") (World db0 []) = (Ok tt, w1) /\
    (VerifyCode cfg "a@b" "222222" 2 2 2 w1).1 = Ok ("a@b", None) /\
    (VerifyCode cfg "a@b" "111111" 2 2 2 w1).1 = Err ErrInvalidCode.
Proof.
  destruct (mailed_code_logs_in cfg deliver "a@b" (d 2%N "222222" "def") "222222" "def" "111111" 2 2 2 db0)
    as (w1 & Hs & _ & Hv & Hold & _);
    [discriminate|reflexivity|reflexivity|reflexivity|vm_compute; reflexivity|vm_compute; right; split_and!; discriminate
    |vm_compute; discriminate|vm_compute; discriminate|reflexivity|].
  exists w1. split; [exact Hs|]. split; [exact Hv|]. apply Hold. vm_compute. discriminate.
Defined.
End MailWitness.
