(* ===== verification/MagicLinkHttp.v ===== *)
(** modules/magic_link/handler: the HTTP handlers (handler.go) over the
    service, the core identity tables (core_identity_store.go) and the session
    manager.

    JSON bodies arrive decoded ([None] when [decodeJSONBody] refused them) and
    [token] is the query parameter of that name.  SQL's [LOWER] is taken for
    ASCII letters. *)

From Stdlib Require Import Ascii String.
From S2P Require Import Prelude OneTime GoStrings GoEncoding GoSha256 PlatformCrypto CryptoFields GoHttp SignedHeaders.
From S2P Require Import Session SessionContext SessionFacts MagicLink MagicLinkFacts.

Local Open Scope string_scope.
Import Service.

(** ** Identities (core/migrations/0001) *)

Record identity_row : Type := { ir_state : string; ir_deleted : option time }.
Record address_row : Type := {
  ad_identity : uuid; ad_type : string; ad_value : string; ad_primary : bool; ad_verified : bool;
  ad_verified_at : option time; ad_created : time; ad_updated : time;
}.
Record identity_db : Type := { t_identities : gmap N identity_row; t_addresses : gmap N address_row }.

#[global] Instance identity_db_err : DbErr db_error := fun e => e.

(** The join: e-mail addresses that read [email], of identities not deleted. *)
Definition address_matches (email : string) (a : address_row) : bool :=
  String.eqb (ad_type a) "email" && String.eqb (ToLower (ad_value a)) (ToLower email).
Definition joined (email : string) (db : identity_db) (a : address_row) : bool :=
  address_matches email a &&
  match t_identities db !! ad_identity a with
  | Some i => match ir_deleted i with None => true | Some _ => false end
  | None => false
  end.

(** ORDER BY verified DESC, is_primary DESC, created_at DESC. *)
Definition address_before (a b : address_row) : bool :=
  if Bool.eqb (ad_verified a) (ad_verified b) then
    if Bool.eqb (ad_primary a) (ad_primary b) then (ad_created b <=? ad_created a)%Z else ad_primary a
  else ad_verified a.

Definition select_identity `{ScanOrder} (email : string) (db : identity_db) : option uuid :=
  (fun kv => ad_identity kv.2) <$>
  head (sort_by (fun x y : N * address_row => address_before x.2 y.2)
    (List.filter (fun kv => joined email db kv.2) (scan (t_addresses db)))).

(** [hasDB]: the store and its pool are not nil. *)
Definition GetIdentityByEmail `{ScanOrder} (hasDB : bool) (email : string) : M identity_db db_error (option uuid) :=
  if negb hasDB then mret None
  else let email := TrimSpace email in
  if String.eqb email "" then mret None
  else db_stmt (fun db => Ok (select_identity email db, db)).

Definition verify_row (now : time) (a : address_row) : address_row :=
  {| ad_identity := ad_identity a; ad_type := ad_type a; ad_value := ad_value a; ad_primary := ad_primary a;
     ad_verified := true;
     ad_verified_at := match ad_verified_at a with Some t => Some t | None => Some now end;
     ad_created := ad_created a; ad_updated := now |}.
(** The unique index on verified addresses, over two different rows. *)
Definition verified_twice (rows : gmap N address_row) : bool :=
  existsb (fun x => existsb (fun y =>
    negb (x.1 =? y.1)%N && ad_verified x.2 && ad_verified y.2 &&
    String.eqb (ad_type x.2) (ad_type y.2) && String.eqb (ad_value x.2) (ad_value y.2)) (map_to_list rows)) (map_to_list rows).

Definition MarkEmailVerified (hasDB : bool) (identityID : uuid) (email : string) (now : time) : M identity_db db_error unit :=
  if negb hasDB then mret tt
  else let email := TrimSpace email in
  if String.eqb email "" then mret tt
  else db_stmt (fun db =>
    let rows := (fun a => if (ad_identity a =? identityID)%N && address_matches email a then verify_row now a else a)
                  <$> t_addresses db in
    if verified_twice rows then Err (UniqueViolation "idx_core_addr_value_type")
    else Ok (tt, {| t_identities := t_identities db; t_addresses := rows |})).

(** ** Handlers *)

(** The tables the handlers reach. *)
Record app : Type := { a_codes : ml_db; a_identities : identity_db; a_sessions : session_db }.
Definition put_codes (c : ml_db) (a : app) : app :=
  {| a_codes := c; a_identities := a_identities a; a_sessions := a_sessions a |}.
Definition put_identities (i : identity_db) (a : app) : app :=
  {| a_codes := a_codes a; a_identities := i; a_sessions := a_sessions a |}.
Definition put_sessions (s : session_db) (a : app) : app :=
  {| a_codes := a_codes a; a_identities := a_identities a; a_sessions := s |}.

Record Handler : Type := {
  h_identityStore : option bool;   (* nil, or a store with or without a pool *)
  h_sessionManager : option SessionManager;
  h_sessionHeaderSecret : string;
  h_allowLegacyIdentityHeaderAuth : bool;
}.

Record session_view : Type := { sv_ID : string; sv_IdentityID : string; sv_AAL : string }.
Inductive payload : Type :=
| Message (m : string)
| SessionBody (s : session_view)
| ErrorBody (code message : string).
(** [rs_session]: the session whose cookie was set. *)
Record response : Type := { rs_status : Z; rs_payload : payload; rs_session : option Session }.

Definition writeError (status : Z) (code message : string) : response :=
  {| rs_status := status; rs_payload := ErrorBody code message; rs_session := None |}.
Definition writeSuccess (message : string) : response :=
  {| rs_status := 200; rs_payload := Message message; rs_session := None |}.
Definition internal_error : response := writeError 500 "internal_error" "Internal server error".
Definition invalid_body : response := writeError 400 "invalid_request" "Invalid request body".

Definition handleServiceError (e : svc_error) : response :=
  match e with
  | ErrInvalidCode => writeError 400 "invalid_code" "The code is invalid or has expired"
  | ErrRateLimited => writeError 429 "rate_limited" "Too many requests. Please wait before trying again."
  | ErrRecipientEmpty => writeError 400 "missing_recipient" "Email or phone number is required"
  | _ => internal_error
  end.

Definition codeTypeFromRequest (r : Request) : CodeType :=
  let path := ToLower (URL_Path r) in
  if Contains path "/verification/" then CodeTypeVerification
  else if Contains path "/recovery/" then CodeTypeRecovery
  else CodeTypeLogin.

Definition requestIP (r : Request) : string :=
  let xff := TrimSpace (Header_Get (Header r) "X-Forwarded-For") in
  if negb (String.eqb xff "") then TrimSpace (default "" (head (Split xff ",")))
  else
    let xri := TrimSpace (Header_Get (Header r) "X-Real-IP") in
    if negb (String.eqb xri "") then xri
    else match SplitHostPort (TrimSpace (RemoteAddr r)) with
         | Some host => trim (fun c => Ascii.eqb c "[" || Ascii.eqb c "]") host
         | None => TrimSpace (RemoteAddr r)
         end.

(** What a request draws. *)
Record hdraws : Type := {
  hd_send : draws;
  hd_t1 : time; hd_t2 : time; hd_t3 : time;
  hd_headers : time; hd_dbnow : time;
  hd_session_now : time; hd_session_id : uuid; hd_rand1 : option string; hd_rand2 : option string;
}.

Section handler.
Context `{UuidText} `{LinkUrl} `{ScanOrder} (cfg : Config) (courier : option (mail -> option string)) (h : Handler).

Abbreviation AM := (M app Empty_set).

Definition service {A} (m : M ml_db svc_error A) : AM (result svc_error A) := attempt (zoom a_codes put_codes m).
Definition identities {A} (m : M identity_db db_error A) : AM (result db_error A) :=
  attempt (zoom a_identities put_identities m).
Definition sessions {A} (m : M session_db session_error A) : AM (result session_error A) :=
  attempt (zoom a_sessions put_sessions m).

(** A service call whose error is answered; the rest of the handler otherwise. *)
Definition served {A} (m : M ml_db svc_error A) (k : A -> AM response) : AM response :=
  r ← service m;
  match r with Err e => mret (handleServiceError e) | Ok a => k a end.

Definition HandleSendLoginCode (body : option string) (d : hdraws) : AM response :=
  match body with
  | None => mret invalid_body
  | Some email =>
      let email := TrimSpace email in
      if String.eqb email "" then mret (writeError 400 "missing_email" "Email is required")
      else served (SendLoginCode cfg courier email (hd_send d)) (fun _ =>
        mret (writeSuccess "If an account exists with this email, you will receive a login link."))
  end.

Definition resolveIdentityID (recipient : string) (directIdentityID : option uuid) : AM (result db_error (option uuid)) :=
  match directIdentityID with
  | Some i => mret (Ok (Some i))
  | None =>
      match h_identityStore h with
      | Some hasDB => if String.eqb recipient "" then mret (Ok None) else identities (GetIdentityByEmail hasDB recipient)
      | None => mret (Ok None)
      end
  end.

Definition handleSessionVerificationSuccess (r : Request) (recipient : string) (directIdentityID : option uuid)
    (d : hdraws) : AM response :=
  resolved ← resolveIdentityID recipient directIdentityID;
  match resolved with
  | Err _ => mret internal_error
  | Ok None => mret (writeSuccess ("Link verified for: " +:+ recipient))
  | Ok (Some identityID) =>
      match h_sessionManager h with
      | None =>
          mret {| rs_status := 200; rs_session := None;
                  rs_payload := SessionBody {| sv_ID := ""; sv_IdentityID := uuid_string identityID; sv_AAL := AAL1 |} |}
      | Some m =>
          created ← sessions (Manager.Create m identityID AuthMethodMagicLink
            {| dev_UserAgent := Header_Get (Header r) "User-Agent"; dev_IPAddress := requestIP r; dev_Location := "" |}
            (hd_session_now d) (hd_session_id d) (hd_rand1 d) (hd_rand2 d));
          mret match created with
          | Err _ => internal_error
          | Ok s =>
              {| rs_status := 200; rs_session := Some s;
                 rs_payload := SessionBody {| sv_ID := uuid_string (Session.ID s);
                   sv_IdentityID := uuid_string (Session.IdentityID s); sv_AAL := SessionAAL s |} |}
          end
      end
  end.

Definition handleVerificationSuccess (email : string) (identityID : option uuid) (d : hdraws) : AM response :=
  match identityID with
  | None => mret (writeError 400 "invalid_code" "The code is invalid or has expired")
  | Some i =>
      marked ← match h_identityStore h with
               | Some hasDB => identities (MarkEmailVerified hasDB i email (hd_dbnow d))
               | None => mret (Ok tt)
               end;
      mret match marked with Err _ => internal_error | Ok _ => writeSuccess "Verification complete." end
  end.

Definition HandleVerifyCode (r : Request) (body : option (string * string)) (d : hdraws) : AM response :=
  match body with
  | None => mret invalid_body
  | Some (email, code) =>
      let email := TrimSpace email in
      let code := TrimSpace code in
      if String.eqb email "" || String.eqb code "" then mret (writeError 400 "missing_fields" "Email and code are required")
      else if String.eqb (codeTypeFromRequest r) CodeTypeVerification then
        served (VerifyVerificationCode email code (hd_t1 d) (hd_t2 d)) (fun identityID =>
          handleVerificationSuccess email (Some identityID) d)
      else if String.eqb (codeTypeFromRequest r) CodeTypeRecovery then
        served (VerifyRecoveryCode email code (hd_t1 d) (hd_t2 d)) (fun identityID =>
          handleSessionVerificationSuccess r email (Some identityID) d)
      else
        served (VerifyCode cfg email code (hd_t1 d) (hd_t2 d) (hd_t3 d)) (fun '(recipient, identityID) =>
          handleSessionVerificationSuccess r recipient identityID d)
  end.

Definition HandleVerifyMagicLink (r : Request) (token : string) (d : hdraws) : AM response :=
  if String.eqb token "" then mret (writeError 400 "missing_token" "Token is required")
  else
    let codeType := codeTypeFromRequest r in
    served (if String.eqb codeType CodeTypeLogin then VerifyMagicLink token (hd_t1 d) (hd_t2 d)
            else VerifyMagicLinkForType token codeType (hd_t1 d) (hd_t2 d)) (fun '(recipient, identityID) =>
      if String.eqb codeType CodeTypeVerification then handleVerificationSuccess recipient identityID d
      else handleSessionVerificationSuccess r recipient identityID d).

Definition hasSignedSessionContextHeaders (r : Request) : bool :=
  existsb (fun suffix => negb (String.eqb (TrimSpace (Header_Get (Header r) (HeaderPrefix +:+ suffix))) ""))
    ["Session-ID"; "Identity-ID"; "AAL"; "Signature"].

(** The unsigned headers, in order. *)
Fixpoint legacy_identity (r : Request) (headers : list string) : option uuid :=
  match headers with
  | [] => None
  | hd :: rest =>
      let raw := TrimSpace (Header_Get (Header r) hd) in
      if String.eqb raw "" then legacy_identity r rest else uuid_parse raw
  end.

Definition identityIDFromRequest (ctx : ctx_value) (r : Request) (now : time) : option uuid :=
  match GetContext ctx with
  | Some {| ctx_IdentityID := Npos p |} => Some (Npos p)
  | _ =>
      if negb (String.eqb (h_sessionHeaderSecret h) "") && hasSignedSessionContextHeaders r then
        match VerifyHeaders r (h_sessionHeaderSecret h) now with
        | Ok c => if (ctx_IdentityID c =? uuid_Nil)%N then None else Some (ctx_IdentityID c)
        | Err _ => None
        end
      else if negb (h_allowLegacyIdentityHeaderAuth h) then None
      else legacy_identity r ["X-Aegion-Session-Identity-ID"; "X-Aegion-Identity-ID"; "X-User-ID"]
  end.

Definition HandleSendVerificationCode (ctx : ctx_value) (r : Request) (body : option string) (d : hdraws) : AM response :=
  match body with
  | None => mret invalid_body
  | Some email =>
      let email := TrimSpace email in
      if String.eqb email "" then mret (writeError 400 "missing_email" "Email is required")
      else match identityIDFromRequest ctx r (hd_headers d) with
      | None => mret (writeError 401 "unauthorized" "Active session required")
      | Some identityID =>
          served (SendVerificationCode cfg courier email identityID (hd_send d)) (fun _ =>
            mret (writeSuccess "If verification is required for this address, you will receive a verification link."))
      end
  end.

Definition HandleSendRecoveryCode (body : option string) (d : hdraws) : AM response :=
  match body with
  | None => mret invalid_body
  | Some email =>
      let email := TrimSpace email in
      if String.eqb email "" then mret (writeError 400 "missing_email" "Email is required")
      else
        resolved ← match h_identityStore h with
                   | Some hasDB => identities (GetIdentityByEmail hasDB email)
                   | None => mret (Ok None)
                   end;
        match resolved with
        | Err _ => mret internal_error
        | Ok identityID =>
            served (SendRecoveryCodeIfIdentityExists cfg courier email identityID (hd_send d)) (fun _ =>
              mret (writeSuccess "If an account exists with this email, you will receive a recovery link."))
        end
  end.

(** The handlers, by request. *)
Inductive http_request : Type :=
| PostSendLogin (body : option string)
| PostVerifyCode (body : option (string * string))
| GetVerifyLink (token : string)
| PostSendVerification (body : option string)
| PostSendRecovery (body : option string).

Definition handle (ctx : ctx_value) (r : Request) (q : http_request) (d : hdraws) : AM response :=
  match q with
  | PostSendLogin b => HandleSendLoginCode b d
  | PostVerifyCode b => HandleVerifyCode r b d
  | GetVerifyLink t => HandleVerifyMagicLink r t d
  | PostSendVerification b => HandleSendVerificationCode ctx r b d
  | PostSendRecovery b => HandleSendRecoveryCode b d
  end.

(** ** A session needs a code *)

(** What an accepted request knows about the row it used. *)
Definition used_up (db db' : ml_db) (id : uuid) (row : code_row) : Prop :=
  t_codes db !! id = Some row /\ cr_used row = false /\ ~ open_code db' id.

Lemma marked_ok id now w a w' :
  marked (MarkUsed id now) w = (Ok a, w') -> open_code (w_db w) id /\ ~ open_code (w_db w') id.
Proof.
  unfold marked. rewrite call_run. destruct (MarkUsed id now w) as [[u|e] w1] eqn:E; [|done]. intros [= <- <-].
  by eapply MarkUsed_takes.
Qed.

(** The row a look-up returns. *)
Lemma get_ok p f now w c w1 :
  (forall x, co_ID (f x) = co_ID x /\ co_Recipient (f x) = co_Recipient x /\ co_IdentityID (f x) = co_IdentityID x /\
     co_Type (f x) = co_Type x /\ co_ExpiresAt (f x) = co_ExpiresAt x) ->
  found (got ← db_stmt (fun db => Ok (newest p (t_codes db), db)); unexpired now (f <$> got)) w = (Ok c, w1) ->
  w_db w1 = w_db w /\ exists row, t_codes (w_db w) !! co_ID c = Some row /\ p row = true /\ cr_recipient row = co_Recipient c /\
    cr_identity row = co_IdentityID c /\ cr_type row = co_Type c /\ (now <= cr_expires row)%Z.
Proof.
  intros Hf. unfold found. rewrite call_run, M_bind_run. destruct (db_stmt _ w) as [[got|e] w2] eqn:E; [|done].
  apply db_stmt_cases in E as [(x & [= <-] & [= <- Hw])|(? & ? & _)]; [|done].
  destruct (newest p (t_codes (w_db w))) as [c0|] eqn:Hn; [|done].
  apply newest_elem in Hn as (id & row & Hr & Hp & ->). cbn [fmap option_fmap option_map unexpired].
  destruct (Hf (code_of_row id row)) as (F1 & F2 & F3 & F4 & F5). unfold time_after.
  destruct (Z.ltb_spec (co_ExpiresAt (f (code_of_row id row))) now) as [|Hle]; [done|]. intros [= <- <-].
  split; [done|]. exists row. rewrite F1, F2, F3, F4. rewrite F5 in Hle. done.
Qed.

Lemma used_up_marked id row now w w1 a w2 :
  w_db w1 = w_db w -> t_codes (w_db w) !! id = Some row -> marked (MarkUsed id now) w1 = (Ok a, w2) ->
  used_up (w_db w) (w_db w2) id row.
Proof.
  intros Hw Hr Hm. apply marked_ok in Hm as [(row' & Hr' & Hu) Hn]. rewrite Hw in Hr'. by simplify_eq.
Qed.

Lemma VerifyCode_ok email otp t1 t2 t3 w rc i w' :
  VerifyCode cfg email otp t1 t2 t3 w = (Ok (rc, i), w') ->
  exists id row, used_up (w_db w) (w_db w') id row /\ matches_code email otp (cr_type row) row = true /\
    cr_recipient row = rc /\ cr_identity row = i /\ cr_type row = CodeTypeLogin.
Proof.
  unfold VerifyCode. intros (u & w1 & E1 & (c & w2 & E2 & (v & w3 & E3 & [= <- <- <-])%M_bind_ok)%M_bind_ok)%M_bind_ok.
  assert (Hc : t_codes (w_db w1) = t_codes (w_db w)).
  { unfold limited in E1. rewrite call_run in E1. destruct (CheckRateLimit _ _ _ _ w) as [[|] wx] eqn:E; [|done].
    injection E1 as _ <-. apply CheckRateLimit_cases in E as [(n & Hn & _)|(-> & _)]; [|done].
    unfold count_request in Hn. repeat case_match; try done; injection Hn as _ <-; done. }
  apply get_ok in E2 as (Hw & row & Hr & Hp & ? & ? & Hty & _); [|done].
  assert (Hrow : cr_type row = CodeTypeLogin) by (unfold matches_code in Hp; by bool_to_prop).
  exists (co_ID c), row. rewrite Hrow. split_and!; try done.
  destruct (used_up_marked _ _ _ w1 w2 _ w3 Hw Hr E3) as (F1 & F2 & F3). split_and!; [by rewrite <- Hc|done..].
Qed.

Lemma verify_for_ok ty email otp t1 t2 w i w' :
  verify_for ty email otp t1 t2 w = (Ok i, w') ->
  exists id row, used_up (w_db w) (w_db w') id row /\ matches_code email otp (cr_type row) row = true /\
    cr_identity row = Some i /\ cr_type row = ty.
Proof.
  unfold verify_for. intros (c & w2 & E2 & E3)%M_bind_ok.
  apply get_ok in E2 as (Hw & row & Hr & Hp & ? & Hi & _); [|done].
  assert (Hrow : cr_type row = ty) by (unfold matches_code in Hp; by bool_to_prop).
  destruct (co_IdentityID c) as [i'|]; [|done]. apply M_bind_ok in E3 as (v & w3 & E3 & [= <- <-]).
  exists (co_ID c), row. rewrite Hrow. split_and!; try done. by eapply used_up_marked.
Qed.

Lemma verifyMagicLink_ok token ty t1 t2 w rc i w' :
  verifyMagicLink token ty t1 t2 w = (Ok (rc, i), w') ->
  exists id row, used_up (w_db w) (w_db w') id row /\ matches_token token row = true /\
    cr_recipient row = rc /\ cr_identity row = i /\ (forall t, ty = Some t -> cr_type row = t).
Proof.
  unfold verifyMagicLink. intros (c & w2 & E2 & E3)%M_bind_ok.
  apply get_ok in E2 as (Hw & row & Hr & Hp & ? & ? & Hty & _); [|done].
  destruct (match ty with Some _ => _ | None => _ end) eqn:Ht; [done|].
  apply M_bind_ok in E3 as (v & w3 & E3 & [= <- <- <-]). exists (co_ID c), row. split_and!; try done.
  - by eapply used_up_marked.
  - intros t ->. rewrite Hty. apply negb_false_iff, String.eqb_eq in Ht. done.
Qed.

(** What [Manager.Create] adds. *)
Lemma Create_adds m i method device now id r1 r2 w sid row :
  t_sessions (w_db (Manager.Create m i method device now id r1 r2 w).2) !! sid = Some row ->
  t_sessions (w_db w) !! sid = Some row \/
  (sid = id /\ row_identity row = i /\
   row_aal row = if String.eqb (methodToAAL method) AAL2 then AAL1 else methodToAAL method).
Proof.
  set (P := fun db => forall sid row, t_sessions db !! sid = Some row ->
    t_sessions (w_db w) !! sid = Some row \/ (sid = id /\ row_identity row = i /\
      row_aal row = if String.eqb (methodToAAL method) AAL2 then AAL1 else methodToAAL method)).
  enough (Hp : preserves P (Manager.Create m i method device now id r1 r2)) by (intros Hs; eapply Hp; [by left|exact Hs]).
  unfold Manager.Create. repeat (apply preserves_bind; [|intros]); auto with aegion; apply stmt_preserves.
  - intros db [] db' (_ & _ & _ & ->)%insert_session_ok HP sid' row'. cbn [t_sessions].
    intros [[<- <-]|[_ Hr]]%lookup_insert_Some; [by right|by apply HP].
  - intros db [] db' (_ & _ & _ & ->)%insert_method_ok HP. exact HP.
Qed.

Lemma select_identity_joined email db i :
  select_identity email db = Some i -> exists aid a, t_addresses db !! aid = Some a /\ joined email db a = true /\ ad_identity a = i.
Proof.
  unfold select_identity. intros ([aid a] & Hh & ->)%fmap_Some. exists aid, a.
  apply head_Some_elem_of in Hh. rewrite sort_by_perm in Hh. apply list_elem_of_In, List.filter_In in Hh as [Hin Hj].
  apply list_elem_of_In in Hin. rewrite scan_perm in Hin. by apply elem_of_map_to_list in Hin.
Qed.

(** An identity that is not deleted and has the address. *)
Definition has_address (ids : identity_db) (email : string) (i : uuid) : Prop :=
  (exists row, t_identities ids !! i = Some row /\ ir_deleted row = None) /\
  exists aid a, t_addresses ids !! aid = Some a /\ ad_identity a = i /\ ad_type a = "email" /\ ToLower (ad_value a) = ToLower email.

Lemma joined_has_address ids email aid a :
  t_addresses ids !! aid = Some a -> joined email ids a = true -> has_address ids email (ad_identity a).
Proof.
  unfold joined, address_matches, has_address. intros Ha Hj. bool_to_prop.
  destruct (t_identities ids !! ad_identity a) as [i|]; [|done]. destruct (ir_deleted i) eqn:Hd; [done|].
  split; [by exists i|]. by exists aid, a.
Qed.

(** The identities a code may open a session for: the one it was issued for,
    or else one with the recipient among its e-mail addresses. *)
Definition opens_for (ids : identity_db) (code : code_row) (i : uuid) : Prop :=
  match cr_identity code with
  | Some j => i = j
  | None => has_address ids (TrimSpace (cr_recipient code)) i
  end.

(** What the request presents is the secret of the row. *)
Definition presents (q : http_request) (code : code_row) : Prop :=
  match q with
  | PostVerifyCode (Some (email, otp)) => matches_code (TrimSpace email) (TrimSpace otp) (cr_type code) code = true
  | GetVerifyLink token => matches_token token code = true
  | _ => False
  end.

(** A handler that leaves the session table alone. *)
Abbreviation no_session m := (forall w, a_sessions (w_db (m w).2) = a_sessions (w_db w)).

Lemma service_run {A} (m : M ml_db svc_error A) (w : world app) r w' :
  service m w = (r, w') -> a_sessions (w_db w') = a_sessions (w_db w) /\ a_identities (w_db w') = a_identities (w_db w) /\
    exists r1 w1, r = Ok r1 /\ m (World (a_codes (w_db w)) (w_faults w)) = (r1, w1) /\ a_codes (w_db w') = w_db w1.
Proof.
  unfold service, attempt, M_try. destruct (zoom _ _ m w) as [r1 w1] eqn:E. intros [= <- <-].
  apply zoom_run in E as (w2 & E & ->). split_and!; [done..|]. by exists r1, w2.
Qed.
Lemma identities_run {A} (m : M identity_db db_error A) (w : world app) r w' :
  identities m w = (r, w') -> a_sessions (w_db w') = a_sessions (w_db w) /\ a_codes (w_db w') = a_codes (w_db w) /\
    exists r1 w1, r = Ok r1 /\ m (World (a_identities (w_db w)) (w_faults w)) = (r1, w1).
Proof.
  unfold identities, attempt, M_try. destruct (zoom _ _ m w) as [r1 w1] eqn:E. intros [= <- <-].
  apply zoom_run in E as (w2 & E & ->). split_and!; [done..|]. by exists r1, w2.
Qed.

(** Opening the session after a code was accepted. *)
Lemma handleSession_adds r rc direct d w sid row :
  t_sessions (a_sessions (w_db (handleSessionVerificationSuccess r rc direct d w).2)) !! sid = Some row ->
  t_sessions (a_sessions (w_db w)) !! sid = Some row \/
  (row_aal row = AAL1 /\
   match direct with
   | Some j => row_identity row = j
   | None => has_address (a_identities (w_db w)) (TrimSpace rc) (row_identity row)
   end).
Proof.
  unfold handleSessionVerificationSuccess. rewrite M_bind_run. destruct (resolveIdentityID rc direct w) as [res w1] eqn:E.
  assert (Hs : a_sessions (w_db w1) = a_sessions (w_db w) /\ forall i, res = Ok (Ok (Some i)) ->
    match direct with Some j => i = j | None => has_address (a_identities (w_db w)) (TrimSpace rc) i end).
  { unfold resolveIdentityID in E. destruct direct as [j|]; [injection E as <- <-; split; [done|]; by intros i [= <-]|].
    destruct (h_identityStore h) as [hasDB|]; [|injection E as <- <-; done].
    destruct (String.eqb rc ""); [injection E as <- <-; done|].
    apply identities_run in E as (-> & _ & r1 & w2 & -> & E). split; [done|]. intros i [= ->].
    unfold GetIdentityByEmail in E. destruct (negb hasDB); [done|]. destruct (String.eqb (TrimSpace rc) ""); [done|].
    apply db_stmt_cases in E as [(x & [= <-] & [= E _])|(? & ? & _)]; [|done].
    apply select_identity_joined in E as (aid & a & Ha & Hj & <-). by eapply joined_has_address. }
  destruct Hs as [Hs Hi]. destruct res as [[[i|]|e]|[]]; [|cbn; rewrite Hs; by left..].
  specialize (Hi i eq_refl). destruct (h_sessionManager h) as [m|]; [|cbn; rewrite Hs; by left].
  rewrite M_bind_run. unfold sessions, attempt, M_try, zoom.
  destruct (Manager.Create m i _ _ _ _ _ _ _) as [rc1 w2] eqn:Ec. cbn [snd fst w_db]. intros Hrow.
  pose proof (Create_adds m i AuthMethodMagicLink {| dev_UserAgent := Header_Get (Header r) "User-Agent"; dev_IPAddress := requestIP r; dev_Location := "" |}
    (hd_session_now d) (hd_session_id d) (hd_rand1 d) (hd_rand2 d) (World (a_sessions (w_db w1)) (w_faults w1)) sid row) as Hadd.
  rewrite Ec in Hadd. cbn [snd w_db] in Hadd. rewrite Hs in Hadd.
  assert (Hrow' : t_sessions (w_db w2) !! sid = Some row) by (by destruct rc1).
  destruct (Hadd Hrow') as [?|(_ & Hid & Ha)]; [by left|right]. split; [exact Ha|]. rewrite Hid.
  destruct direct; [done|]. exact Hi.
Qed.

(** Sessions a handler adds are for an accepted code. *)
Definition justified (q : http_request) (w w' : world app) (row : session_row) : Prop :=
  exists id code, used_up (a_codes (w_db w)) (a_codes (w_db w')) id code /\ presents q code /\
    row_aal row = AAL1 /\ opens_for (a_identities (w_db w)) code (row_identity row).

Definition adds_justified (q : http_request) (m : AM response) : Prop :=
  forall w sid row, t_sessions (a_sessions (w_db (m w).2)) !! sid = Some row ->
    t_sessions (a_sessions (w_db w)) !! sid = Some row \/ justified q w (m w).2 row.

Lemma handleSession_codes r rc direct d w :
  a_codes (w_db (handleSessionVerificationSuccess r rc direct d w).2) = a_codes (w_db w).
Proof.
  unfold handleSessionVerificationSuccess. rewrite M_bind_run. destruct (resolveIdentityID rc direct w) as [res w1] eqn:E.
  assert (Hc : a_codes (w_db w1) = a_codes (w_db w)).
  { unfold resolveIdentityID in E. destruct direct as [j|]; [by injection E as <- <-|].
    destruct (h_identityStore h) as [hasDB|]; [|by injection E as <- <-].
    destruct (String.eqb rc ""); [by injection E as <- <-|]. by apply identities_run in E as (_ & -> & _). }
  destruct res as [[[i|]|e]|[]]; try done. destruct (h_sessionManager h) as [m|]; [|done].
  rewrite M_bind_run. unfold sessions, attempt, M_try, zoom. by destruct (Manager.Create _ _ _ _ _ _ _ _ _) as [[|] w2].
Qed.

(** A verification that opens a session for the row it used up. *)
Lemma served_session {A} q (m : M ml_db svc_error A) (view : A -> string * option uuid) r d :
  (forall w a w', m w = (Ok a, w') -> exists id code, used_up (w_db w) (w_db w') id code /\ presents q code /\
     match (view a).2 with
     | Some i => cr_identity code = Some i
     | None => cr_identity code = None /\ cr_recipient code = (view a).1
     end) ->
  adds_justified q (served m (fun a => handleSessionVerificationSuccess r (view a).1 (view a).2 d)).
Proof.
  intros Hm w sid row. unfold served. rewrite M_bind_run. destruct (service m w) as [res w1] eqn:E.
  apply service_run in E as (Hs & Hi & r1 & w2 & -> & E & Hc). destruct r1 as [a|e]; [|cbn; rewrite Hs; by left].
  intros Hrow. apply handleSession_adds in Hrow. rewrite Hs, Hi in Hrow. destruct Hrow as [?|[Haal Hid]]; [by left|right].
  destruct (Hm _ _ _ E) as (id & code & Hu & Hp & Hv). exists id, code. unfold opens_for. rewrite handleSession_codes, Hc.
  split_and!; [exact Hu|done..|]. destruct ((view a).2) as [i|].
  - by rewrite Hv.
  - destruct Hv as [-> ->]. exact Hid.
Qed.

Lemma no_session_justified q (m : AM response) : no_session m -> adds_justified q m.
Proof. intros Hm w sid row. rewrite Hm. by left. Qed.
Lemma no_session_ret resp : no_session (mret resp : AM response).
Proof. done. Qed.
Lemma no_session_served {A} (m : M ml_db svc_error A) (k : A -> AM response) :
  (forall a, no_session (k a)) -> no_session (served m k).
Proof.
  intros Hk w. unfold served. rewrite M_bind_run. destruct (service m w) as [res w1] eqn:E.
  apply service_run in E as (Hs & _ & r1 & w2 & -> & _). destruct r1; [by rewrite Hk|done].
Qed.
Lemma no_session_verification email i d : no_session (handleVerificationSuccess email i d).
Proof.
  intros w. unfold handleVerificationSuccess. destruct i as [i|]; [|done]. rewrite M_bind_run.
  destruct (h_identityStore h); [|done]. destruct (identities _ w) as [res w1] eqn:E.
  apply identities_run in E as (Hs & _ & r1 & _ & -> & _). exact Hs.
Qed.

Lemma HandleVerifyCode_justified r body d : adds_justified (PostVerifyCode body) (HandleVerifyCode r body d).
Proof.
  unfold HandleVerifyCode. destruct body as [[email otp]|]; [|by apply no_session_justified].
  destruct (_ || _); [by apply no_session_justified|]. destruct (String.eqb _ CodeTypeVerification).
  { apply no_session_justified, no_session_served. intros. apply no_session_verification. }
  destruct (String.eqb _ CodeTypeRecovery).
  - apply (served_session _ _ (fun i => (TrimSpace email, Some i))). intros w i w' E.
    apply verify_for_ok in E as (id & code & Hu & Hp & Hi & _). by exists id, code.
  - assert (Heq : forall a : string * option uuid, (let '(recipient, i) := a in handleSessionVerificationSuccess r recipient i d) =
      handleSessionVerificationSuccess r a.1 a.2 d) by (by intros []).
    intros w sid row. unfold served. intros Hrow.
    assert (Hj : adds_justified (PostVerifyCode (Some (email, otp)))
      (served (VerifyCode cfg (TrimSpace email) (TrimSpace otp) (hd_t1 d) (hd_t2 d) (hd_t3 d))
        (fun a => handleSessionVerificationSuccess r a.1 a.2 d))).
    { apply (served_session _ _ id). intros w0 [rc i] w' E. apply VerifyCode_ok in E as (cid & code & Hu & Hp & Hr & Hi & _).
      exists cid, code. split_and!; [done..|]. destruct i; done. }
    specialize (Hj w sid row). unfold served in Hj. revert Hrow Hj. rewrite !M_bind_run.
    destruct (service _ w) as [[[a|e]|] w1]; rewrite ?Heq; auto.
Qed.

Lemma HandleVerifyMagicLink_justified r token d : adds_justified (GetVerifyLink token) (HandleVerifyMagicLink r token d).
Proof.
  unfold HandleVerifyMagicLink. destruct (String.eqb token ""); [by apply no_session_justified|]. cbv zeta.
  destruct (String.eqb (codeTypeFromRequest r) CodeTypeVerification).
  { apply no_session_justified, no_session_served. intros []. apply no_session_verification. }
  assert (Hj : forall ty, adds_justified (GetVerifyLink token) (served (verifyMagicLink token ty (hd_t1 d) (hd_t2 d))
      (fun a => handleSessionVerificationSuccess r a.1 a.2 d))).
  { intros ty. apply (served_session _ _ id). intros w [rc i] w' E. apply verifyMagicLink_ok in E as (cid & code & Hu & Hp & Hr & Hi & _).
    exists cid, code. split_and!; [done..|]. destruct i; done. }
  unfold VerifyMagicLink, VerifyMagicLinkForType.
  destruct (String.eqb (codeTypeFromRequest r) CodeTypeLogin); intros w sid row Hrow;
    [specialize (Hj None w sid row)|specialize (Hj (Some (codeTypeFromRequest r)) w sid row)];
    unfold served in Hj, Hrow |- *; revert Hrow Hj; rewrite !M_bind_run; destruct (service _ w) as [[[[]|]|] w1]; auto.
Qed.

(** C9: Log-in by code or link: whatever a request of the module does and
    whatever fails, a session it leaves in the database that was not there
    before has level aal1 and belongs to a code that the request presented,
    that was stored unused, that is used up now, and that was issued for the
    identity of the session, or was mailed to one of its addresses. *)
Theorem magic_session_needs_code ctx r q d w sid row :
  t_sessions (a_sessions (w_db (handle ctx r q d w).2)) !! sid = Some row ->
  t_sessions (a_sessions (w_db w)) !! sid = Some row \/ justified q w (handle ctx r q d w).2 row.
Proof.
  revert w sid row. change (adds_justified q (handle ctx r q d)). destruct q as [b|b|t|b|b]; cbn [handle].
  - apply no_session_justified. unfold HandleSendLoginCode. destruct b as [e|]; [|done]. cbv zeta.
    destruct (String.eqb _ _); [done|]. by apply no_session_served.
  - apply HandleVerifyCode_justified.
  - apply HandleVerifyMagicLink_justified.
  - apply no_session_justified. unfold HandleSendVerificationCode. destruct b as [e|]; [|done]. cbv zeta.
    destruct (String.eqb _ _); [done|]. destruct (identityIDFromRequest _ _ _); [|done]. by apply no_session_served.
  - apply no_session_justified. unfold HandleSendRecoveryCode. destruct b as [e|]; [|done]. cbv zeta.
    destruct (String.eqb _ _); [done|]. intros w. rewrite M_bind_run. destruct (h_identityStore h).
    + destruct (identities _ w) as [res w1] eqn:E. apply identities_run in E as (<- & _ & r1 & _ & -> & _).
      destruct r1; [|done]. by apply (no_session_served).
    + by apply (no_session_served).
Qed.
End handler.

(** ** A concrete log-in, and where the checks fall short *)

Module HttpWitness.
#[local] Instance ids : UuidText := unary_uuid.
#[local] Instance order : ScanOrder := key_order.
#[local] Instance urls : LinkUrl := fun base path token => Some (base +:+ path +:+ "?token=" +:+ token).
Definition cfg : Config := MailWitness.cfg.
Definition courier : option (mail -> option string) := Some (fun _ => None).
Definition hnd : Handler :=
  {| h_identityStore := Some true; h_sessionManager := Some mgr; h_sessionHeaderSecret := ""; h_allowLegacyIdentityHeaderAuth := false |}.
Definition request (path : string) : Request :=
  {| Method := "GET"; URL_Path := path; URL_RawQuery := ""; Host := "h"; RemoteAddr := "10.0.0.1:99"; TLS := true;
     Cookies := []; Header := ∅ |}.
Definition sent (id : uuid) (code token : string) : draws := MailWitness.d id code token.
Definition hd (send : draws) : hdraws :=
  {| hd_send := send; hd_t1 := 2; hd_t2 := 2; hd_t3 := 2; hd_headers := 2; hd_dbnow := 2; hd_session_now := 2;
     hd_session_id := 50%N; hd_rand1 := Some "r1"; hd_rand2 := Some "r2" |}.
(** An identity in the given state with an unverified address. *)
Definition app0 (state : string) : app :=
  {| a_codes := empty_db;
     a_identities := {| t_identities := {[ 7%N := {| ir_state := state; ir_deleted := None |} ]};
       t_addresses := {[ 1%N := {| ad_identity := 7; ad_type := "email"; ad_value := "A@b"; ad_primary := true;
         ad_verified := false; ad_verified_at := None; ad_created := 1; ad_updated := 1 |} ]} |};
     a_sessions := SessionFacts.empty_db |}.
Definition login_path : string := "/self-service/login/methods/link/verify".
Definition after_send (state : string) : world app :=
  (handle cfg courier hnd CtxEmpty (request "/self-service/login/methods/link") (PostSendLogin (Some "a@b "))
     (hd (sent 1%N "123456" "abc")) (World (app0 state) [])).2.
Definition log_in (w : world app) (token : string) : result Empty_set response * world app :=
  handle cfg courier hnd CtxEmpty (request login_path) (GetVerifyLink token) (hd (sent 2%N "x" "y")) w.
Definition new_session (w : world app) : option session_row := t_sessions (a_sessions (w_db w)) !! 50%N.
Definition session_row0 : session_row := Eval vm_compute in
  match new_session (log_in (after_send "active") (b64url_Encode "abc")).2 with
  | Some row => row
  | None => Manager.row_of_session some_session
  end.

Lemma magic_session_needs_code_witness :
  justified (GetVerifyLink (b64url_Encode "abc")) (after_send "active") (log_in (after_send "active") (b64url_Encode "abc")).2 session_row0.
Proof.
  destruct (magic_session_needs_code cfg courier hnd CtxEmpty (request login_path) (GetVerifyLink (b64url_Encode "abc"))
    (hd (sent 2%N "x" "y")) (after_send "active") 50%N session_row0) as [Hold|Hj].
  - vm_compute. reflexivity.
  - vm_compute in Hold. discriminate.
  - exact Hj.
Defined.

(** The identity of the new session. *)
Definition session_identity (w : world app) : option uuid := row_identity <$> new_session w.

(** The identity's state is not looked at: a banned identity logs in. *)
Lemma banned_identity_logs_in : session_identity (log_in (after_send "banned") (b64url_Encode "abc")).2 = Some 7%N.
Proof. vm_compute. reflexivity. Qed.

(** The kind of a link is not looked at on the log-in path: a verification
    link opens a session. *)
Definition verification_sent : world app :=
  World (put_codes (w_db (SendVerificationCode cfg courier "a@b" 7%N (sent 1%N "123456" "abc") (World empty_db [])).2)
    (app0 "active")) [].
Lemma verification_link_logs_in : session_identity (log_in verification_sent (b64url_Encode "abc")).2 = Some 7%N.
Proof. vm_compute. reflexivity. Qed.
End HttpWitness.
