(* ===== verification/Registry.v ===== *)
(** core/registry: registration (registry.go), discovery with round robin
    (discovery.go), health checks (health.go) and the gRPC service
    (grpc_service.go).

    Every operation holds the registry's lock and is one step.  A function that
    ranges over the map of modules takes the entries in the order they were met.
    A module handed out is a copy.  URL and address parsing are parameters. *)

From Stdlib Require Import Ascii String.
From S2P Require Import Prelude GoStrings GoEncoding PlatformCrypto.

Local Open Scope string_scope.

(** ** Types (types.go) *)

Abbreviation ModuleStatus := string (only parsing).
Definition StatusHealthy : ModuleStatus := "healthy".
Definition StatusUnhealthy : ModuleStatus := "unhealthy".
Definition StatusUnknown : ModuleStatus := "unknown".
Definition StatusStarting : ModuleStatus := "starting".

Abbreviation EndpointType := string (only parsing).
Definition EndpointHTTP : EndpointType := "http".
Definition EndpointGRPC : EndpointType := "grpc".
Definition EndpointWS : EndpointType := "websocket".

Record Endpoint : Type := { ep_Type : EndpointType; ep_URL : string; ep_Methods : list string }.

Record Module_ : Type := {
  m_ID : string;
  m_Name : string;
  m_Version : string;
  m_Endpoints : list Endpoint;
  m_HealthURL : string;
  m_Status : ModuleStatus;
  m_RegisteredAt : time;
  m_LastHealthAt : time;
  m_Metadata : gmap string string;
}.

Record RegistrationRequest : Type := {
  rq_ID : string;
  rq_Name : string;
  rq_Version : string;
  rq_Endpoints : list Endpoint;
  rq_HealthURL : string;
  rq_Metadata : gmap string string;
}.

Record ModuleQuery : Type := {
  q_Status : option ModuleStatus;
  q_Name : string;
  q_EndpointType : option EndpointType;
}.

Inductive registry_error : Type :=
| ErrModuleNotFound
| ErrModuleAlreadyExists
| ErrInvalidModule
| ErrRegistryClosed
| ErrNoHealthyInstances
| ErrEndpointNotFound.

(** [rrIndex] holds 64-bit unsigned counters. *)
Record Registry : Type := {
  modules : gmap string Module_;
  closed : bool;
  rrIndex : gmap string Z;
}.
Definition New : Registry := {| modules := ∅; closed := false; rrIndex := ∅ |}.
Definition with_modules (r : Registry) m : Registry := {| modules := m; closed := closed r; rrIndex := rrIndex r |}.
Definition with_index (r : Registry) i : Registry := {| modules := modules r; closed := closed r; rrIndex := i |}.
Definition Stop (r : Registry) : Registry := {| modules := modules r; closed := true; rrIndex := rrIndex r |}.

(** ** Addresses *)

(** [url.Parse] with the scheme, the host and the host name of the result, and
    [net.ParseIP] with [Equal] and [IsLoopback]. *)
Record parsed_url : Type := { u_Scheme : string; u_Host : string; u_Hostname : string }.
Class Addresses := {
  url_parse : string -> option parsed_url;
  ip : Type;
  parse_ip : string -> option ip;
  ip_equal : ip -> ip -> bool;
  is_loopback : ip -> bool;
}.

Section registry.
Context `{Addresses}.

Definition hostsMatch (endpointHost healthHost : string) : bool :=
  let endpointHost := ToLower endpointHost in
  let healthHost := ToLower healthHost in
  if String.eqb endpointHost healthHost then true
  else
    let endpointIP := parse_ip endpointHost in
    let healthIP := parse_ip healthHost in
    match endpointIP, healthIP with
    | Some e, Some h => ip_equal e h
    | _, _ =>
        (String.eqb endpointHost "localhost" && match healthIP with Some h => is_loopback h | None => false end) ||
        (String.eqb healthHost "localhost" && match endpointIP with Some e => is_loopback e | None => false end)
    end.

(** The host name of an absolute http or https URL. *)
Definition http_host (u : string) : option string :=
  match url_parse u with
  | None => None
  | Some p =>
      if String.eqb (u_Host p) "" then None
      else if negb (EqualFold (u_Scheme p) "http") && negb (EqualFold (u_Scheme p) "https") then None
      else Some (u_Hostname p)
  end.

Definition isValidHealthURL (healthURL : string) (endpoints : list Endpoint) : bool :=
  match http_host healthURL with
  | None => false
  | Some hostname =>
      let healthHost := ToLower hostname in
      existsb (fun e => match http_host (ep_URL e) with Some h => hostsMatch h healthHost | None => false end) endpoints
  end.

(** ** Registration (registry.go) *)

Definition Register (req : RegistrationRequest) (now : time) (r : Registry) : result registry_error string * Registry :=
  if closed r then (Err ErrRegistryClosed, r)
  else if String.eqb (rq_ID req) "" || String.eqb (rq_Name req) "" || Nat.eqb (length (rq_Endpoints req)) 0
  then (Err ErrInvalidModule, r)
  else if negb (String.eqb (rq_HealthURL req) "") && negb (isValidHealthURL (rq_HealthURL req) (rq_Endpoints req))
  then (Err ErrInvalidModule, r)
  else match modules r !! rq_ID req with
  | Some _ => (Err ErrModuleAlreadyExists, r)
  | None =>
      let module := {| m_ID := rq_ID req; m_Name := rq_Name req; m_Version := rq_Version req;
        m_Endpoints := rq_Endpoints req; m_HealthURL := rq_HealthURL req; m_Status := StatusStarting;
        m_RegisteredAt := now; m_LastHealthAt := now; m_Metadata := rq_Metadata req |} in
      (Ok (rq_ID req), with_modules r (<[rq_ID req := module]> (modules r)))
  end.

Definition Deregister (moduleID : string) (r : Registry) : result registry_error string * Registry :=
  if closed r then (Err ErrRegistryClosed, r)
  else match modules r !! moduleID with
  | None => (Err ErrModuleNotFound, r)
  | Some _ => (Ok moduleID, with_modules r (delete moduleID (modules r)))
  end.

Definition GetModule (moduleID : string) (r : Registry) : result registry_error Module_ :=
  match modules r !! moduleID with None => Err ErrModuleNotFound | Some m => Ok m end.

Definition has_type (t : EndpointType) (m : Module_) : bool := existsb (fun ep => String.eqb (ep_Type ep) t) (m_Endpoints m).
Definition selected (query : option ModuleQuery) (m : Module_) : bool :=
  match query with
  | None => true
  | Some q =>
      match q_Status q with Some s => String.eqb (m_Status m) s | None => true end &&
      (String.eqb (q_Name q) "" || String.eqb (m_Name m) (q_Name q)) &&
      match q_EndpointType q with Some t => has_type t m | None => true end
  end.

Definition ListModules (query : option ModuleQuery) (enum : list (string * Module_)) : list Module_ :=
  List.filter (selected query) (map snd enum).

Definition set_status (status : ModuleStatus) (now : time) (m : Module_) : Module_ :=
  {| m_ID := m_ID m; m_Name := m_Name m; m_Version := m_Version m; m_Endpoints := m_Endpoints m;
     m_HealthURL := m_HealthURL m; m_Status := status; m_RegisteredAt := m_RegisteredAt m; m_LastHealthAt := now;
     m_Metadata := m_Metadata m |}.

Definition UpdateStatus (moduleID : string) (status : ModuleStatus) (now : time) (r : Registry)
    : result registry_error unit * Registry :=
  match modules r !! moduleID with
  | None => (Err ErrModuleNotFound, r)
  | Some m => (Ok tt, with_modules r (<[moduleID := set_status status now m]> (modules r)))
  end.

Definition GetHealthyModules (enum : list (string * Module_)) : list Module_ :=
  ListModules (Some {| q_Status := Some StatusHealthy; q_Name := ""; q_EndpointType := None |}) enum.
Definition ModuleCount (r : Registry) : Z := Z.of_nat (size (modules r)).
Definition HealthyCount (enum : list (string * Module_)) : Z :=
  Z.of_nat (length (List.filter (fun p => String.eqb (m_Status p.2) StatusHealthy) enum)).

(** ** Discovery (discovery.go) *)

Definition live (m : Module_) : bool := String.eqb (m_Status m) StatusHealthy || String.eqb (m_Status m) StatusStarting.

(** The URLs of the endpoints of one type. *)
Definition urls_of (t : EndpointType) (m : Module_) : list string :=
  map ep_URL (List.filter (fun ep => String.eqb (ep_Type ep) t) (m_Endpoints m)).

Definition nextIndex (key : string) (r : Registry) : Z * Registry :=
  let i := ((default 0 (rrIndex r !! key) + 1) mod 2 ^ 64)%Z in
  (i, with_index r (<[key := i]> (rrIndex r))).

(** An element of a list of at least one, by index. *)
Definition pick (l : list string) (i : Z) : string := nth (Z.to_nat (i mod Z.of_nat (length l))) l "".

Definition endpoint_key (moduleID : string) (t : EndpointType) : string := moduleID +:+ ":" +:+ t.

Definition GetEndpoint (moduleID : string) (t : EndpointType) (r : Registry) : result registry_error string * Registry :=
  match GetModule moduleID r with
  | Err e => (Err e, r)
  | Ok m =>
      if negb (live m) then (Err ErrNoHealthyInstances, r)
      else match urls_of t m with
      | [] => (Err ErrEndpointNotFound, r)
      | [u] => (Ok u, r)
      | us => let '(i, r') := nextIndex (endpoint_key moduleID t) r in (Ok (pick us i), r')
      end
  end.

Definition GetEndpointByName (moduleName : string) (t : EndpointType) (enum : list (string * Module_))
    : result registry_error (list string) :=
  match ListModules (Some {| q_Status := None; q_Name := moduleName; q_EndpointType := None |}) enum with
  | [] => Err ErrModuleNotFound
  | ms =>
      match concat (map (urls_of t) (List.filter live ms)) with
      | [] => Err ErrNoHealthyInstances
      | us => Ok (sort_Strings us)
      end
  end.

Definition GetHealthyEndpoint (moduleName : string) (t : EndpointType) (enum : list (string * Module_)) (r : Registry)
    : result registry_error string * Registry :=
  match GetEndpointByName moduleName t enum with
  | Err e => (Err e, r)
  | Ok [u] => (Ok u, r)
  | Ok us => let '(i, r') := nextIndex ("name:" +:+ endpoint_key moduleName t) r in (Ok (pick us i), r')
  end.

Definition GetAllEndpoints (t : EndpointType) (enum : list (string * Module_)) : list string :=
  concat (map (urls_of t)
    (ListModules (Some {| q_Status := Some StatusHealthy; q_Name := ""; q_EndpointType := Some t |}) enum)).

Definition with_status (s : ModuleStatus) (ms : list Module_) : option Module_ :=
  List.find (fun m => String.eqb (m_Status m) s) ms.
Definition ResolveModule (moduleName : string) (enum : list (string * Module_)) : result registry_error Module_ :=
  match ListModules (Some {| q_Status := None; q_Name := moduleName; q_EndpointType := None |}) enum with
  | [] => Err ErrModuleNotFound
  | ms =>
      match with_status StatusHealthy ms with
      | Some m => Ok m
      | None => match with_status StatusStarting ms with Some m => Ok m | None => Err ErrNoHealthyInstances end
      end
  end.

Definition ResetRoundRobin (moduleID : string) (t : EndpointType) (r : Registry) : Registry :=
  with_index r (delete (endpoint_key moduleID t) (rrIndex r)).
Definition ResetAllRoundRobin (r : Registry) : Registry := with_index r ∅.

(** ** Health checks (health.go) *)

(** The answer of a health endpoint: a status code, or none on an error. *)
Abbreviation probe := (string -> option Z) (only parsing).

Definition checkModule (answer : probe) (m : Module_) : ModuleStatus :=
  if String.eqb (m_HealthURL m) "" then StatusUnknown
  else match answer (m_HealthURL m) with
  | None => StatusUnhealthy
  | Some code => if ((200 <=? code) && (code <? 300))%Z then StatusHealthy else StatusUnhealthy
  end.

(** [checkAll] without interference: the results arrive in any order. *)
Definition checkAll (answer : probe) (enum : list (string * Module_)) (now : time) (r : Registry) : Registry :=
  fold_left (fun r p => (UpdateStatus (m_ID p.2) (checkModule answer p.2) now r).2) enum r.

Definition CheckNow (answer : probe) (moduleID : string) (now : time) (r : Registry)
    : result registry_error ModuleStatus * Registry :=
  match GetModule moduleID r with
  | Err e => (Err e, r)
  | Ok m =>
      let status := checkModule answer m in
      let '(res, r') := UpdateStatus moduleID status now r in
      (match res with Ok _ => Ok status | Err e => Err e end, r')
  end.

(** The checker's own state; closing the stop channel twice panics ([None]). *)
Record HealthChecker : Type := {
  hc_interval : duration; hc_timeout : duration; hc_initialDelay : duration; hc_running : bool; hc_stopClosed : bool;
}.
Definition NewHealthChecker (interval timeout : duration) : HealthChecker :=
  {| hc_interval := interval; hc_timeout := timeout;
     hc_initialDelay := if ((0 <? interval) && (interval <? 10 * second))%Z then Z.quot interval 2 else (5 * second)%Z;
     hc_running := false; hc_stopClosed := false |}.
Definition StartChecker (h : HealthChecker) : HealthChecker :=
  {| hc_interval := hc_interval h; hc_timeout := hc_timeout h; hc_initialDelay := hc_initialDelay h; hc_running := true;
     hc_stopClosed := hc_stopClosed h |}.
Definition StopChecker (h : HealthChecker) : option HealthChecker :=
  if negb (hc_running h) then Some h
  else if hc_stopClosed h then None
  else Some {| hc_interval := hc_interval h; hc_timeout := hc_timeout h; hc_initialDelay := hc_initialDelay h;
               hc_running := false; hc_stopClosed := true |}.

(** ** The gRPC service (grpc_service.go) *)

Record GrpcRegister : Type := {
  gr_Module : string; gr_Version : string; gr_Address : string; gr_HttpAddress : string; gr_HealthUrl : string;
  gr_ReadyUrl : string; gr_Routes : list string; gr_Capabilities : list string; gr_GrpcServices : list string;
  gr_EventSubscriptions : list string;
}.

(** [caller] is the module the context is authenticated for, or empty. *)
Definition grpc_request (req : GrpcRegister) : RegistrationRequest :=
  let module := TrimSpace (gr_Module req) in
  let grpcAddress := TrimSpace (gr_Address req) in
  {| rq_ID := module; rq_Name := module; rq_Version := gr_Version req;
     rq_Endpoints :=
       {| ep_Type := EndpointHTTP; ep_URL := "http://" +:+ TrimSpace (gr_HttpAddress req); ep_Methods := [] |} ::
       (if String.eqb grpcAddress "" then []
        else [{| ep_Type := EndpointGRPC; ep_URL := "grpc://" +:+ grpcAddress; ep_Methods := [] |}]);
     rq_HealthURL := TrimSpace (gr_HealthUrl req);
     rq_Metadata :=
       <["routes" := Join (gr_Routes req) ","]> (<["capabilities" := Join (gr_Capabilities req) ","]>
       (<["grpc_services" := Join (gr_GrpcServices req) ","]>
       (<["event_subscriptions" := Join (gr_EventSubscriptions req) ","]>
       (<["ready_url" := TrimSpace (gr_ReadyUrl req)]> ∅)))) |}.

(** Answers whether the registration succeeded. *)
Definition GrpcRegister_ (caller : string) (req : GrpcRegister) (now : time) (r : Registry) : bool * Registry :=
  let module := TrimSpace (gr_Module req) in
  if String.eqb module "" || String.eqb (TrimSpace (gr_HttpAddress req)) "" || String.eqb (TrimSpace (gr_HealthUrl req)) ""
  then (false, r)
  else if String.eqb caller "" || negb (String.eqb caller module) then (false, r)
  else
    let '(cleared, r1) :=
      match GetModule module r with
      | Ok existing => let '(res, r1) := Deregister (m_ID existing) r in (is_ok res, r1)
      | Err _ => (true, r)
      end in
    if negb cleared then (false, r1)
    else let '(res, r2) := Register (grpc_request req) now r1 in (is_ok res, r2).

Definition GrpcDeregister (caller module instance : string) (r : Registry) : bool * Registry :=
  if negb (String.eqb caller (TrimSpace module)) then (false, r)
  else match GetModule instance r with
  | Err _ => (false, r)
  | Ok m =>
      if negb (String.eqb (m_Name m) (TrimSpace module)) then (false, r)
      else let '(res, r') := Deregister instance r in (is_ok res, r')
  end.

Inductive HealthStatus : Type := HEALTH_UNKNOWN | HEALTHY | UNHEALTHY | DEGRADED.

Definition heartbeat_status (s : HealthStatus) : ModuleStatus :=
  match s with UNHEALTHY => StatusUnhealthy | DEGRADED => StatusStarting | _ => StatusHealthy end.

Definition Heartbeat (caller module instance : string) (s : HealthStatus) (now : time) (r : Registry) : bool * Registry :=
  if negb (String.eqb caller (TrimSpace module)) then (false, r)
  else match GetModule instance r with
  | Err _ => (false, r)
  | Ok m =>
      if negb (String.eqb (m_Name m) (TrimSpace module)) then (false, r)
      else let '(res, r') := UpdateStatus instance (heartbeat_status s) now r in (is_ok res, r')
  end.

Definition firstGRPCAddress (endpoints : list Endpoint) : string :=
  match List.find (fun e => String.eqb (ep_Type e) EndpointGRPC) endpoints with
  | Some e => TrimPrefix (ep_URL e) "grpc://"
  | None => ""
  end.
Definition splitMetadata (value : string) : list string :=
  if String.eqb (TrimSpace value) "" then [] else Split value ",".
Definition protoHealthStatus (s : ModuleStatus) : HealthStatus :=
  if String.eqb s StatusHealthy then HEALTHY
  else if String.eqb s StatusUnhealthy then UNHEALTHY
  else if String.eqb s StatusStarting then DEGRADED
  else HEALTH_UNKNOWN.

Record ModuleInstance : Type := {
  mi_InstanceId : string; mi_Module : string; mi_Version : string; mi_Address : string; mi_Routes : list string;
  mi_Capabilities : list string; mi_Status : HealthStatus; mi_RegisteredAt : Z; mi_LastHeartbeat : Z;
}.
Definition module_instance (m : Module_) : ModuleInstance :=
  {| mi_InstanceId := m_ID m; mi_Module := m_Name m; mi_Version := m_Version m; mi_Address := firstGRPCAddress (m_Endpoints m);
     mi_Routes := splitMetadata (default "" (m_Metadata m !! "routes"));
     mi_Capabilities := splitMetadata (default "" (m_Metadata m !! "capabilities"));
     mi_Status := protoHealthStatus (m_Status m); mi_RegisteredAt := time_unix (m_RegisteredAt m);
     mi_LastHeartbeat := time_unix (m_LastHealthAt m) |}.
Definition GetModules (filter : string) (includeUnhealthy : bool) (enum : list (string * Module_)) : list ModuleInstance :=
  let query := if String.eqb filter "" then None
               else Some {| q_Status := None; q_Name := filter; q_EndpointType := None |} in
  map module_instance (List.filter (fun m => includeUnhealthy || negb (String.eqb (m_Status m) StatusUnhealthy)) (ListModules query enum)).
End registry.
