(* ===== verification/RegistryFacts.v ===== *)
(** The module registry: what is registered stays well formed, health probes
    go to the module's own hosts, discovery is exact and fair, and a module
    manages its own registration only. *)

From Stdlib Require Import Ascii String.
From S2P Require Import Prelude GoStrings GoEncoding PlatformCrypto Registry.

Local Open Scope string_scope.

Section facts.
Context `{Addresses}.

(** ** Well-formed registries *)

Definition module_ok (id : string) (m : Module_) : Prop :=
  m_ID m = id /\ id <> "" /\ m_Name m <> "" /\ m_Endpoints m <> [] /\
  (m_HealthURL m = "" \/ isValidHealthURL (m_HealthURL m) (m_Endpoints m) = true).
Definition registry_ok (r : Registry) : Prop := forall id m, modules r !! id = Some m -> module_ok id m.

Lemma registry_ok_set_status id s now m r :
  registry_ok r -> modules r !! id = Some m -> registry_ok (with_modules r (<[id := set_status s now m]> (modules r))).
Proof.
  intros Hok Hm j m'. cbn [modules with_modules]. intros [[<- <-]|[_ Hj]]%lookup_insert_Some; [|by apply Hok].
  destruct (Hok _ _ Hm) as (? & ? & ? & ? & ?). by split_and!.
Qed.
Lemma registry_ok_UpdateStatus id s now r : registry_ok r -> registry_ok (UpdateStatus id s now r).2.
Proof.
  intros Hok. unfold UpdateStatus. destruct (modules r !! id) as [m|] eqn:Hm; [|done]. by apply registry_ok_set_status.
Qed.
Lemma registry_ok_Deregister id r : registry_ok r -> registry_ok (Deregister id r).2.
Proof.
  intros Hok. unfold Deregister. destruct (closed r); [done|]. destruct (modules r !! id) as [m0|]; [|done].
  intros j m. cbn [snd modules with_modules]. intros [_ Hj]%lookup_delete_Some. by apply Hok.
Qed.
Lemma registry_ok_Register req now r : registry_ok r -> registry_ok (Register req now r).2.
Proof.
  intros Hok. unfold Register. destruct (closed r); [done|].
  destruct (String.eqb_spec (rq_ID req) ""); [done|]. destruct (String.eqb_spec (rq_Name req) ""); [done|].
  destruct (rq_Endpoints req) as [|e es] eqn:He; [done|]. cbn [orb Nat.eqb length].
  destruct (String.eqb_spec (rq_HealthURL req) "") as [Hu|Hu]; cbn [negb andb].
  - destruct (modules r !! rq_ID req) as [m0|]; [done|]. intros j m. cbn [snd modules with_modules].
    intros [[<- <-]|[_ Hj]]%lookup_insert_Some; [|by apply Hok]. unfold module_ok. cbn. rewrite Hu. by split_and!; auto.
  - destruct (isValidHealthURL _ _) eqn:Hv; [|done]. cbn [negb].
    destruct (modules r !! rq_ID req) as [m0|]; [done|]. intros j m. cbn [snd modules with_modules].
    intros [[<- <-]|[_ Hj]]%lookup_insert_Some; [|by apply Hok]. unfold module_ok. cbn. by split_and!; auto.
Qed.

(** ** Operations, and health checks in flight *)

Inductive reg_op : Type :=
| OpRegister (req : RegistrationRequest) (now : time)
| OpDeregister (id : string)
| OpUpdateStatus (id : string) (s : ModuleStatus) (now : time)
| OpGetEndpoint (id : string) (t : EndpointType)
| OpGetHealthyEndpoint (name : string) (t : EndpointType) (enum : list (string * Module_))
| OpReset (id : string) (t : EndpointType)
| OpResetAll
| OpGrpcRegister (caller : string) (req : GrpcRegister) (now : time)
| OpGrpcDeregister (caller module instance : string)
| OpHeartbeat (caller module instance : string) (s : HealthStatus) (now : time)
| OpStop.

Definition exec (op : reg_op) (r : Registry) : Registry :=
  match op with
  | OpRegister req now => (Register req now r).2
  | OpDeregister id => (Deregister id r).2
  | OpUpdateStatus id s now => (UpdateStatus id s now r).2
  | OpGetEndpoint id t => (GetEndpoint id t r).2
  | OpGetHealthyEndpoint name t enum => (GetHealthyEndpoint name t enum r).2
  | OpReset id t => ResetRoundRobin id t r
  | OpResetAll => ResetAllRoundRobin r
  | OpGrpcRegister caller req now => (GrpcRegister_ caller req now r).2
  | OpGrpcDeregister caller module instance => (GrpcDeregister caller module instance r).2
  | OpHeartbeat caller module instance s now => (Heartbeat caller module instance s now r).2
  | OpStop => Stop r
  end.

(** The modules whose check has started and not been recorded yet are copies
    taken when the round began; operations may run meanwhile. *)
Inductive reg_step : list Module_ * Registry -> list Module_ * Registry -> Prop :=
| StepOp op pending r : reg_step (pending, r) (pending, exec op r)
| StepRound pending r : reg_step (pending, r) ((pending ++ map snd (map_to_list (modules r)))%list, r)
| StepResult i m answer now pending r :
    pending !! i = Some m ->
    reg_step (pending, r) (delete i pending, (UpdateStatus (m_ID m) (checkModule answer m) now r).2).

Lemma exec_modules_index r i : registry_ok (with_index r i) <-> registry_ok r.
Proof. done. Qed.
Lemma GetEndpoint_modules id t r : modules (GetEndpoint id t r).2 = modules r.
Proof.
  unfold GetEndpoint. destruct (GetModule id r); [|done]. destruct (negb _); [done|].
  by destruct (urls_of t _) as [|u [|v us]].
Qed.
Lemma GetHealthyEndpoint_modules name t enum r : modules (GetHealthyEndpoint name t enum r).2 = modules r.
Proof. unfold GetHealthyEndpoint. by destruct (GetEndpointByName _ _ _) as [[|u [|v us]]|]. Qed.

Lemma registry_ok_exec op r : registry_ok r -> registry_ok (exec op r).
Proof.
  intros Hok. destruct op as [req now|id|id s now|id t|name t enum|id t| |caller req now|caller module i|caller module i s now|]; cbn [exec].
  - by apply registry_ok_Register.
  - by apply registry_ok_Deregister.
  - by apply registry_ok_UpdateStatus.
  - intros j m. rewrite GetEndpoint_modules. apply Hok.
  - intros j m. rewrite GetHealthyEndpoint_modules. apply Hok.
  - exact Hok.
  - exact Hok.
  - unfold GrpcRegister_. destruct (_ || _); [done|]. destruct (_ || _); [done|].
    destruct (GetModule _ r) as [m|e].
    + pose proof (registry_ok_Deregister (m_ID m) r Hok) as Hd. destruct (Deregister _ r) as [[|] r1]; cbn [is_ok negb]; [|done].
      pose proof (registry_ok_Register (grpc_request req) now r1 Hd) as Hr. by destruct (Register _ now r1).
    + cbn [negb]. pose proof (registry_ok_Register (grpc_request req) now r Hok) as Hr. by destruct (Register _ now r).
  - unfold GrpcDeregister. destruct (negb _); [done|]. destruct (GetModule i r); [|done]. destruct (negb _); [done|].
    pose proof (registry_ok_Deregister i r Hok). by destruct (Deregister i r).
  - unfold Heartbeat. destruct (negb _); [done|]. destruct (GetModule i r); [|done]. destruct (negb _); [done|].
    pose proof (registry_ok_UpdateStatus i (heartbeat_status s) now r Hok). by destruct (UpdateStatus _ _ _ r).
  - exact Hok.
Qed.

Definition checks_ok (p : list Module_ * Registry) : Prop :=
  registry_ok p.2 /\ Forall (fun m => module_ok (m_ID m) m) p.1.

Lemma checks_ok_step p p' : reg_step p p' -> checks_ok p -> checks_ok p'.
Proof.
  intros Hs [Hok Hp]. destruct Hs as [op pending r|pending r|i m answer now pending r Hi]; split; cbn [fst snd] in *.
  - by apply registry_ok_exec.
  - done.
  - done.
  - apply Forall_app. split; [done|]. apply Forall_forall. intros m Hin.
    apply list_elem_of_fmap in Hin as ([id m'] & -> & Hin). apply elem_of_map_to_list in Hin.
    pose proof (Hok _ _ Hin) as Hm. cbn [snd]. by rewrite (proj1 Hm).
  - by apply registry_ok_UpdateStatus.
  - by apply Forall_delete.
Qed.

(** The same host: the same name up to case, the same address, or the name
    localhost and a loopback address. *)
Definition same_host (a b : string) : Prop :=
  ToLower a = ToLower b \/
  (exists x y, parse_ip (ToLower a) = Some x /\ parse_ip (ToLower b) = Some y /\ ip_equal x y = true) \/
  (ToLower a = "localhost" /\ exists y, parse_ip (ToLower b) = Some y /\ is_loopback y = true) \/
  (ToLower b = "localhost" /\ exists x, parse_ip (ToLower a) = Some x /\ is_loopback x = true).

Lemma hostsMatch_same a b : hostsMatch a b = true -> same_host a b.
Proof.
  unfold hostsMatch, same_host. destruct (String.eqb_spec (ToLower a) (ToLower b)) as [|Hne]; [auto|].
  destruct (parse_ip (ToLower a)) as [x|], (parse_ip (ToLower b)) as [y|]; intros Hm.
  - right; left. by exists x, y.
  - apply orb_true_iff in Hm as [[_ ?]%andb_true_iff|[Hb ?]%andb_true_iff]; [done|].
    right; right; right. apply String.eqb_eq in Hb. eauto.
  - apply orb_true_iff in Hm as [[Ha ?]%andb_true_iff|[_ ?]%andb_true_iff]; [|done].
    right; right; left. apply String.eqb_eq in Ha. eauto.
  - by rewrite !andb_false_r in Hm.
Qed.
Lemma ToLower_idem s : ToLower (ToLower s) = ToLower s.
Proof.
  unfold ToLower. induction s as [|c s IH]; [done|]. cbn [str_map]. f_equal; [|exact IH].
  destruct c as [[] [] [] [] [] [] [] []]; reflexivity.
Qed.

(** Health probes stay on the module's hosts: whatever is registered,
    replaced and removed while rounds of checks run, every check in flight is
    of a module that was registered under a name with at least one endpoint,
    and the URL it fetches, if any, is an http(s) URL whose host is the host
    of one of that module's own http(s) endpoints. *)
Theorem health_probes_stay_on_module_hosts pending r m :
  rtc reg_step ([], New) (pending, r) -> m ∈ pending -> m_HealthURL m <> "" ->
  exists healthHost e endpointHost, http_host (m_HealthURL m) = Some healthHost /\ e ∈ m_Endpoints m /\
    http_host (ep_URL e) = Some endpointHost /\ same_host endpointHost healthHost.
Proof.
  intros Hrun Hin Hne.
  assert (Hok : checks_ok (pending, r)).
  { eapply rtc_invariant; [exact checks_ok_step| |exact Hrun]. split; [|constructor]. intros id m0 Hm. cbn in Hm. by rewrite lookup_empty in Hm. }
  destruct Hok as [_ Hp]. rewrite Forall_forall in Hp. destruct (Hp m Hin) as (_ & _ & _ & _ & [?|Hv]); [done|].
  unfold isValidHealthURL in Hv. destruct (http_host (m_HealthURL m)) as [hh|]; [|done].
  apply existsb_exists in Hv as (e & He & Hm). destruct (http_host (ep_URL e)) as [eh|] eqn:Heh; [|done].
  exists hh, e, eh. apply list_elem_of_In in He. split_and!; try done.
  apply hostsMatch_same in Hm. unfold same_host in *. by rewrite ToLower_idem in Hm.
Qed.

(** ** Round robin *)

(** [n] calls of [GetEndpoint], one after the other. *)
Fixpoint get_many (n : nat) (id : string) (t : EndpointType) (r : Registry) : list (result registry_error string) * Registry :=
  match n with
  | O => ([], r)
  | S n' =>
      let '(u, r1) := GetEndpoint id t r in
      let '(us, r2) := get_many n' id t r1 in (u :: us, r2)
  end.

(** The elements picked by consecutive indices. *)
Definition picks (us : list string) (i : Z) (n : nat) : list string := map (fun j => pick us (i + Z.of_nat j)) (seq 0 n).

Lemma picks_app us i a b : picks us i (a + b) = (picks us i a ++ picks us (i + Z.of_nat a) b)%list.
Proof.
  unfold picks. rewrite seq_app, map_app. f_equal. rewrite Nat.add_0_l. rewrite <- (Nat.add_0_r a) at 1.
  rewrite <- fmap_add_seq. rewrite map_map. apply map_ext. intros j. f_equal. lia.
Qed.

(** A full turn from any index is a rotation of the list. *)
Lemma picks_turn us i : us <> [] -> (0 <= i)%Z -> picks us i (length us) ≡ₚ us.
Proof.
  intros Hne Hi. set (k := Z.of_nat (length us)). assert (Hk : (0 < k)%Z) by (destruct us; [done|cbn in *; lia]).
  set (s := Z.to_nat (i mod k)). assert (Hs : (s < length us)%nat) by (pose proof (Z.mod_pos_bound i k Hk); lia).
  assert (Heq : picks us i (length us) = (drop s us ++ take s us)%list).
  { apply list_eq. intros j. destruct (decide (j < length us)%nat) as [Hj|Hj].
    - unfold picks. rewrite list_lookup_fmap, lookup_seq_lt by done. cbn [fmap option_fmap option_map Nat.add].
      unfold pick. fold k.
      destruct (nth_lookup_or_length us (Z.to_nat ((i + Z.of_nat j) mod k)) "") as [<-|Hlong];
        [|pose proof (Z.mod_pos_bound (i + Z.of_nat j) k Hk); lia].
      assert (Hmod : ((i + Z.of_nat j) mod k = if decide (s + j < length us)%nat then Z.of_nat (s + j) else Z.of_nat (s + j - length us))%Z).
      { rewrite Z.add_mod by lia. rewrite (Z.mod_small (Z.of_nat j)) by lia.
        assert (Hsi : (i mod k)%Z = Z.of_nat s) by (unfold s; pose proof (Z.mod_pos_bound i k Hk); lia). rewrite Hsi.
        case_decide.
        - rewrite Z.mod_small by lia. lia.
        - replace (Z.of_nat s + Z.of_nat j)%Z with (Z.of_nat (s + j - length us) + 1 * k)%Z by lia.
          rewrite Z.mod_add by lia. apply Z.mod_small. lia. }
      rewrite Hmod. case_decide.
      + rewrite lookup_app_l by (rewrite length_drop; lia). rewrite lookup_drop. f_equal. lia.
      + rewrite lookup_app_r by (rewrite length_drop; lia). rewrite length_drop.
        rewrite lookup_take_lt by lia. f_equal. lia.
    - rewrite !lookup_ge_None_2; [done| |]; [rewrite length_app, length_drop, length_take|unfold picks; rewrite length_map, length_seq]; lia. }
  rewrite Heq. rewrite Permutation_app_comm. by rewrite take_drop.
Qed.

Lemma picks_turns us i q : us <> [] -> (0 <= i)%Z -> picks us i (q * length us) ≡ₚ concat (replicate q us).
Proof.
  intros Hne. revert i. induction q as [|q IH]; intros i Hi; [done|]. cbn [Nat.mul replicate concat].
  rewrite picks_app, picks_turn by done. by rewrite IH by lia.
Qed.

Lemma get_many_picks n id t m r :
  modules r !! id = Some m -> live m = true -> (2 <= length (urls_of t m))%nat ->
  (0 <= default 0 (rrIndex r !! endpoint_key id t))%Z -> (default 0 (rrIndex r !! endpoint_key id t) + Z.of_nat n < 2 ^ 64)%Z ->
  (get_many n id t r).1 = map Ok (picks (urls_of t m) (default 0 (rrIndex r !! endpoint_key id t) + 1)%Z n).
Proof.
  intros Hm Hl Hlen. revert r Hm. induction n as [|n IH]; intros r Hm H0 Hn; [done|]. cbn [get_many].
  set (i := default 0%Z (rrIndex r !! endpoint_key id t)) in *.
  assert (Hg : GetEndpoint id t r =
    (Ok (pick (urls_of t m) (i + 1)), with_index r (<[endpoint_key id t := (i + 1)%Z]> (rrIndex r)))).
  { unfold GetEndpoint, GetModule. rewrite Hm, Hl. cbn [negb]. destruct (urls_of t m) as [|u [|v us]]; [cbn in Hlen; lia..|].
    unfold nextIndex. fold i. rewrite Z.mod_small by lia. done. }
  rewrite Hg. set (r1 := with_index r _).
  assert (Hi1 : default 0%Z (rrIndex r1 !! endpoint_key id t) = (i + 1)%Z) by (cbn; by rewrite lookup_insert_eq).
  specialize (IH r1 Hm). rewrite Hi1 in IH. specialize (IH ltac:(lia) ltac:(lia)).
  destruct (get_many n id t r1) as [us r2]. cbn [fst] in *. rewrite IH.
  replace (S n) with (1 + n)%nat by lia. rewrite picks_app. cbn. by rewrite Z.add_0_r.
Qed.

(** Round robin is fair: as long as its 64-bit counter does not wrap
    around, any [q] times [k] consecutive calls of [GetEndpoint] for a live
    module with [k] > 1 endpoints of a type return every endpoint exactly [q]
    times. *)
Theorem round_robin_is_fair q id t m r :
  modules r !! id = Some m -> live m = true -> (2 <= length (urls_of t m))%nat ->
  (0 <= default 0 (rrIndex r !! endpoint_key id t))%Z ->
  (default 0 (rrIndex r !! endpoint_key id t) + Z.of_nat (q * length (urls_of t m)) < 2 ^ 64)%Z ->
  (get_many (q * length (urls_of t m)) id t r).1 ≡ₚ map Ok (concat (replicate q (urls_of t m))).
Proof.
  intros Hm Hl Hlen H0 Hn. rewrite (get_many_picks _ id t m) by done. apply Permutation_map, picks_turns; [|lia].
  intros E. rewrite E in Hlen. cbn in Hlen. lia.
Qed.

(** ** Discovery by name *)

Lemma elem_of_ListModules q enum m r :
  enum ≡ₚ map_to_list (modules r) ->
  m ∈ ListModules q enum <-> exists id, modules r !! id = Some m /\ selected q m = true.
Proof.
  intros Hp. unfold ListModules. rewrite list_elem_of_In, List.filter_In, <- list_elem_of_In. split.
  - intros [([id m'] & -> & Hin)%list_elem_of_fmap Hs]. rewrite Hp in Hin. apply elem_of_map_to_list in Hin. by exists id.
  - intros (id & Hm & Hs). split; [|done]. apply list_elem_of_fmap. exists (id, m). split; [done|]. rewrite Hp.
    by apply elem_of_map_to_list.
Qed.

Lemma ListModules_perm q enum enum' : enum ≡ₚ enum' -> ListModules q enum ≡ₚ ListModules q enum'.
Proof.
  intros Hp. unfold ListModules. induction Hp as [|x l l' _ IH|x y l|l l' l'' _ IH1 _ IH2]; [done| | |by etrans].
  - cbn [map List.filter]. destruct (selected q x.2); by rewrite ?IH.
  - cbn [map List.filter]. destruct (selected q x.2), (selected q y.2); try apply perm_swap; done.
Qed.
Lemma urls_perm t ms ms' :
  ms ≡ₚ ms' -> concat (map (urls_of t) (List.filter live ms)) ≡ₚ concat (map (urls_of t) (List.filter live ms')).
Proof.
  intros Hp. induction Hp as [|x l l' _ IH|x y l|l l' l'' _ IH1 _ IH2]; [done| | |by etrans].
  - cbn [List.filter]. destruct (live x); cbn [map concat]; by rewrite ?IH.
  - cbn [List.filter]. destruct (live x), (live y); cbn [map concat]; try done. by rewrite !(assoc_L (++)%list), (Permutation_app_comm (urls_of t y)).
Qed.

Definition named (name : string) : option ModuleQuery := Some {| q_Status := None; q_Name := name; q_EndpointType := None |}.
Lemma selected_named name m : selected (named name) m = true <-> name = "" \/ m_Name m = name.
Proof. unfold selected, named. cbn. rewrite andb_true_r, orb_true_iff, !String.eqb_eq. done. Qed.

Lemma by_name_answer name t enum :
  GetEndpointByName name t enum =
  let us := concat (map (urls_of t) (List.filter live (ListModules (named name) enum))) in
  if bool_decide (ListModules (named name) enum = []) then Err ErrModuleNotFound
  else if bool_decide (us = []) then Err ErrNoHealthyInstances else Ok (sort_Strings us).
Proof.
  unfold GetEndpointByName. fold (named name). cbv zeta. destruct (ListModules (named name) enum) as [|m ms]; [done|].
  by destruct (concat _).
Qed.
Lemma perm_nil_iff {A} (l l' : list A) : l ≡ₚ l' -> l = [] <-> l' = [].
Proof. intros Hp. split; intros ->; [by apply Permutation_nil_l in Hp|by apply Permutation_nil_r in Hp]. Qed.

(** Discovery by name is exact and does not depend on the order of the
    map: it lists, in order, the URLs of that type of the modules of that name
    that are healthy or starting, and those only; it fails exactly when there
    are none. *)
Theorem discovery_lists_live_endpoints name t enum r :
  enum ≡ₚ map_to_list (modules r) ->
  (forall u, (exists us, GetEndpointByName name t enum = Ok us /\ u ∈ us) <->
     exists id m, modules r !! id = Some m /\ (name = "" \/ m_Name m = name) /\ live m = true /\ u ∈ urls_of t m) /\
  (forall us, GetEndpointByName name t enum = Ok us -> us <> [] /\ StronglySorted (fun a b => String.leb a b = true) us) /\
  (forall enum', enum' ≡ₚ enum -> GetEndpointByName name t enum' = GetEndpointByName name t enum).
Proof.
  intros Hp. set (all enum := concat (map (urls_of t) (List.filter live (ListModules (named name) enum)))).
  assert (Hall : forall u, u ∈ all enum <-> exists id m, modules r !! id = Some m /\ (name = "" \/ m_Name m = name) /\
    live m = true /\ u ∈ urls_of t m).
  { intros u. unfold all. rewrite list_elem_of_In, in_concat. split.
    - intros (us & (m & <- & [Hin Hl]%List.filter_In)%in_map_iff & Hu).
      apply list_elem_of_In, (elem_of_ListModules _ _ _ r Hp) in Hin as (id & Hm & Hs). exists id, m.
      apply selected_named in Hs. by rewrite list_elem_of_In.
    - intros (id & m & Hm & Hn & Hl & Hu). exists (urls_of t m). split; [|by apply list_elem_of_In]. apply in_map_iff.
      exists m. split; [done|]. apply List.filter_In. split; [|done]. apply list_elem_of_In, (elem_of_ListModules _ _ _ r Hp).
      exists id. split; [done|]. by apply selected_named. }
  assert (Hperm : forall enum', enum' ≡ₚ enum -> all enum' ≡ₚ all enum)
    by (intros enum' Hp'; apply urls_perm, ListModules_perm, Hp').
  split_and!.
  - intros u. rewrite <- Hall. rewrite by_name_answer. cbv zeta. fold (all enum). split.
    + intros (us & Hus & Hu). destruct (bool_decide (ListModules (named name) enum = [])); [done|].
      destruct (bool_decide (all enum = [])); [done|]. injection Hus as <-. by rewrite sort_Strings_perm in Hu.
    + intros Hu. exists (sort_Strings (all enum)). split; [|by rewrite sort_Strings_perm].
      rewrite bool_decide_eq_false_2, bool_decide_eq_false_2; [done| |].
      * intros Hnil. rewrite Hnil in Hu. by apply not_elem_of_nil in Hu.
      * intros Hnil. unfold all in Hu. rewrite Hnil in Hu. by apply not_elem_of_nil in Hu.
  - intros us. rewrite by_name_answer. cbv zeta. fold (all enum). case_bool_decide; [done|]. case_bool_decide as Hne; [done|].
    intros Hus. injection Hus as <-. split; [|apply sort_Strings_sorted].
    intros Hnil. pose proof (sort_Strings_perm (all enum)) as Hl. rewrite Hnil in Hl. by apply Permutation_nil_l in Hl.
  - intros enum' Hp'. rewrite !by_name_answer. cbv zeta. fold (all enum) (all enum').
    rewrite (sort_Strings_of_perm _ _ (Hperm _ Hp')).
    rewrite (bool_decide_ext _ _ (perm_nil_iff _ _ (ListModules_perm (named name) _ _ Hp'))).
    by rewrite (bool_decide_ext _ _ (perm_nil_iff _ _ (Hperm _ Hp'))).
Qed.

(** ** The gRPC service *)

(** Requests a module may send; the caller is the module its token names. *)
Inductive grpc_call : Type :=
| CallRegister (req : GrpcRegister) (now : time)
| CallDeregister (module instance : string)
| CallHeartbeat (module instance : string) (s : HealthStatus) (now : time).
Definition grpc_serve (caller : string) (c : grpc_call) (r : Registry) : Registry :=
  match c with
  | CallRegister req now => (GrpcRegister_ caller req now r).2
  | CallDeregister module instance => (GrpcDeregister caller module instance r).2
  | CallHeartbeat module instance s now => (Heartbeat caller module instance s now r).2
  end.

Lemma Register_other req now r id : id <> rq_ID req -> modules (Register req now r).2 !! id = modules r !! id.
Proof.
  intros Hne. unfold Register. destruct (closed r); [done|]. destruct (_ || _); [done|]. destruct (_ && _); [done|].
  destruct (modules r !! rq_ID req); [done|]. by apply lookup_insert_ne.
Qed.
Lemma Deregister_other id' r id : id <> id' -> modules (Deregister id' r).2 !! id = modules r !! id.
Proof.
  intros Hne. unfold Deregister. destruct (closed r); [done|]. destruct (modules r !! id'); [|done]. by apply lookup_delete_ne.
Qed.
Lemma UpdateStatus_other id' s now r id : id <> id' -> modules (UpdateStatus id' s now r).2 !! id = modules r !! id.
Proof. intros Hne. unfold UpdateStatus. destruct (modules r !! id'); [|done]. by apply lookup_insert_ne. Qed.

(** A module manages its own registration only: a request changes no module
    of another name than the caller's, and an unauthenticated one nothing. *)
Lemma requests_isolated caller c r id m :
  registry_ok r -> modules r !! id = Some m -> m_Name m <> caller -> id <> caller \/ caller = "" ->
  modules (grpc_serve caller c r) !! id = Some m.
Proof.
  intros Hok Hm Hname Hid. destruct c as [req now|module i|module i s now]; cbn [grpc_serve].
  - unfold GrpcRegister_. destruct (_ || _); [done|].
    destruct (String.eqb_spec caller "") as [|Hc]; [done|]. destruct Hid as [Hid|]; [|done].
    destruct (String.eqb_spec caller (TrimSpace (gr_Module req))) as [Heq|]; [|done]. cbn [orb negb].
    destruct (GetModule (TrimSpace (gr_Module req)) r) as [m0|e] eqn:Hg.
    + unfold GetModule in Hg. destruct (modules r !! TrimSpace (gr_Module req)) as [m1|] eqn:H1; [|done]. injection Hg as <-.
      destruct (Hok _ _ H1) as [Hmid _].
      pose proof (Deregister_other (m_ID m1) r id ltac:(congruence)) as Hd. destruct (Deregister (m_ID m1) r) as [[|] r1];
        cbn [is_ok negb snd] in *; [|by rewrite Hd].
      pose proof (Register_other (grpc_request req) now r1 id ltac:(cbn; congruence)) as Hr.
      destruct (Register (grpc_request req) now r1) as [res r2]. cbn [snd] in *. by rewrite Hr, Hd.
    + cbn [negb]. pose proof (Register_other (grpc_request req) now r id ltac:(cbn; congruence)) as Hr.
      destruct (Register (grpc_request req) now r) as [res r2]. cbn [snd] in *. by rewrite Hr.
  - unfold GrpcDeregister. destruct (String.eqb_spec caller (TrimSpace module)) as [Heq|]; [|done]. cbn [negb].
    destruct (GetModule i r) as [m0|e] eqn:Hg; [|done]. destruct (String.eqb_spec (m_Name m0) (TrimSpace module)); [|done]. cbn [negb].
    assert (Hne : id <> i) by (intros <-; unfold GetModule in Hg; rewrite Hm in Hg; congruence).
    pose proof (Deregister_other i r id Hne) as Hd. destruct (Deregister i r). cbn [snd] in *. by rewrite Hd.
  - unfold Heartbeat. destruct (String.eqb_spec caller (TrimSpace module)) as [Heq|]; [|done]. cbn [negb].
    destruct (GetModule i r) as [m0|e] eqn:Hg; [|done]. destruct (String.eqb_spec (m_Name m0) (TrimSpace module)); [|done]. cbn [negb].
    assert (Hne : id <> i) by (intros <-; unfold GetModule in Hg; rewrite Hm in Hg; congruence).
    pose proof (UpdateStatus_other i (heartbeat_status s) now r id Hne) as Hd. destruct (UpdateStatus i _ now r). cbn [snd] in *. by rewrite Hd.
Qed.


(** After a round of checks without interference every module has the status
    its own endpoint gave. *)
Lemma checkAll_refreshes answer enum now r :
  registry_ok r -> enum ≡ₚ map_to_list (modules r) ->
  forall id m, modules r !! id = Some m ->
    modules (checkAll answer enum now r) !! id = Some (set_status (checkModule answer m) now m).
Proof.
  intros Hok Hp.
  assert (Hgen : forall l r0, NoDup (map fst l) -> (forall p, p ∈ l -> modules r0 !! p.1 = Some p.2 /\ m_ID p.2 = p.1) ->
    let r1 := fold_left (fun r p => (UpdateStatus (m_ID p.2) (checkModule answer p.2) now r).2) l r0 in
    (forall p, p ∈ l -> modules r1 !! p.1 = Some (set_status (checkModule answer p.2) now p.2)) /\
    (forall id, id ∉ map fst l -> modules r1 !! id = modules r0 !! id)).
  { induction l as [|p l IH]; intros r0 Hnd Hin; cbn [fold_left]; [split; [by intros p ?%not_elem_of_nil|done]|].
    cbn [map] in Hnd. apply NoDup_cons in Hnd as [Hx Hnd]. destruct (Hin p ltac:(set_solver)) as [Hm Hid].
    rewrite Hid. set (r1 := (UpdateStatus p.1 _ now r0).2).
    assert (H1 : modules r1 !! p.1 = Some (set_status (checkModule answer p.2) now p.2)).
    { unfold r1, UpdateStatus. rewrite Hm. cbn. by rewrite lookup_insert_eq. }
    assert (Hin1 : forall q, q ∈ l -> modules r1 !! q.1 = Some q.2 /\ m_ID q.2 = q.1).
    { intros q Hq. unfold r1. rewrite UpdateStatus_other; [apply Hin; set_solver|].
      intros Heq. apply Hx. rewrite <- Heq. apply list_elem_of_fmap. by exists q. }
    destruct (IH r1 Hnd Hin1) as [IH1 IH2]. split.
    - intros q [->|Hq]%elem_of_cons; [|by apply IH1]. rewrite IH2 by done. exact H1.
    - intros id Hid'. cbn [map] in Hid'. apply not_elem_of_cons in Hid' as [Hne Hni]. rewrite IH2 by done. unfold r1.
      by apply UpdateStatus_other. }
  intros id m Hm. destruct (Hgen enum r) as [H1 _].
  - rewrite Hp. apply NoDup_fst_map_to_list.
  - intros [j m'] Hin. rewrite Hp in Hin. apply elem_of_map_to_list in Hin. split; [done|]. by apply (Hok _ _ Hin).
  - specialize (H1 (id, m)). apply H1. rewrite Hp. by apply elem_of_map_to_list.
Qed.
End facts.

(** ** Concrete registries, and where the code falls short *)

Module RegistryWitness.
(** URLs of the form http://host or grpc://host, and no addresses. *)
Definition split_url (u : string) : option parsed_url :=
  match CutPrefix u "http://" with
  | Some h => Some {| u_Scheme := "http"; u_Host := h; u_Hostname := h |}
  | None => match CutPrefix u "grpc://" with
            | Some h => Some {| u_Scheme := "grpc"; u_Host := h; u_Hostname := h |}
            | None => None
            end
  end.
#[local] Instance names_only : Addresses :=
  {| url_parse := split_url; ip := unit; parse_ip := fun _ => None; ip_equal := fun _ _ => true; is_loopback := fun _ => true |}.

Definition http (u : string) : Endpoint := {| ep_Type := EndpointHTTP; ep_URL := u; ep_Methods := [] |}.
Definition request (id : string) (eps : list Endpoint) (health : string) : RegistrationRequest :=
  {| rq_ID := id; rq_Name := id; rq_Version := "1"; rq_Endpoints := eps; rq_HealthURL := health; rq_Metadata := ∅ |}.
Definition three : list Endpoint := [http "http://a"; http "http://b"; http "http://c"].
Definition r1 : Registry := (Register (request "mfa" three "http://B") 1 New).2.
Definition mfa : Module_ := Eval vm_compute in
  match modules r1 !! "mfa" with
  | Some m => m
  | None => {| m_ID := ""; m_Name := ""; m_Version := ""; m_Endpoints := []; m_HealthURL := ""; m_Status := "";
               m_RegisteredAt := 0; m_LastHealthAt := 0; m_Metadata := ∅ |}
  end.

Lemma health_probes_stay_on_module_hosts_witness :
  exists healthHost e endpointHost, http_host (m_HealthURL mfa) = Some healthHost /\ e ∈ m_Endpoints mfa /\
    http_host (ep_URL e) = Some endpointHost /\ same_host endpointHost healthHost.
Proof.
  apply (health_probes_stay_on_module_hosts [mfa] r1 mfa); [|by left|discriminate].
  eapply rtc_l; [apply (StepOp (OpRegister (request "mfa" three "http://B") 1))|].
  eapply rtc_l; [apply StepRound|]. apply rtc_refl.
Defined.

Lemma round_robin_is_fair_witness :
  (get_many 6 "mfa" EndpointHTTP r1).1 ≡ₚ map Ok ["http://a"; "http://b"; "http://c"; "http://a"; "http://b"; "http://c"].
Proof. apply (round_robin_is_fair 2 "mfa" EndpointHTTP mfa r1); vm_compute; first [reflexivity|lia|discriminate]. Defined.

Lemma discovery_lists_live_endpoints_witness :
  exists us, GetEndpointByName "mfa" EndpointHTTP (map_to_list (modules r1)) = Ok us /\ "http://b" ∈ us.
Proof.
  destruct (discovery_lists_live_endpoints "mfa" EndpointHTTP (map_to_list (modules r1)) r1) as [Hex _]; [reflexivity|].
  apply Hex. exists "mfa", mfa. split; [vm_compute; reflexivity|]. split; [by right|]. split; [vm_compute; reflexivity|].
  apply list_elem_of_In. vm_compute. auto.
Defined.

Definition wrong_health : GrpcRegister :=
  {| gr_Module := "mfa"; gr_Version := "2"; gr_Address := ""; gr_HttpAddress := "a"; gr_HealthUrl := "http://other";
     gr_ReadyUrl := ""; gr_Routes := []; gr_Capabilities := []; gr_GrpcServices := []; gr_EventSubscriptions := [] |}.


(** A registration that is refused has removed the one it was to replace. *)
Lemma failed_reregistration_drops_module :
  (GrpcRegister_ "mfa" wrong_health 2 r1).1 = false /\ modules (GrpcRegister_ "mfa" wrong_health 2 r1).2 !! "mfa" = None.
Proof. split; vm_compute; reflexivity. Qed.

(** The result of a check that began before a module was replaced is recorded
    for its successor. *)
Lemma late_result_hits_successor (answer : string -> option Z) (now : time) :
  answer "http://B" = None ->
  exists pending r, rtc reg_step ([mfa], New) (pending, r) /\
    (m_Status <$> modules r !! "mfa") = Some StatusUnhealthy.
Proof.
  intros Ha. exists [], (UpdateStatus "mfa" (checkModule answer mfa) now (Register (request "mfa" [http "http://z"] "") 3 New).2).2.
  split.
  - eapply rtc_l; [apply (StepOp (OpRegister (request "mfa" [http "http://z"] "") 3))|].
    eapply rtc_l; [by apply (StepResult 0 mfa answer now [mfa])|]. apply rtc_refl.
  - unfold checkModule. cbn [m_HealthURL mfa]. rewrite Ha. vm_compute. reflexivity.
Qed.

(** The health checker cannot be stopped twice, even if it was started again. *)
Lemma restarted_checker_panics i t :
  match StopChecker (StartChecker (NewHealthChecker i t)) with
  | Some h => StopChecker (StartChecker h)
  | None => Some (NewHealthChecker i t)
  end = None.
Proof. reflexivity. Qed.
End RegistryWitness.
