(* ===== verification/AuthToken.v ===== *)
(** core/authtoken: tokens between modules (token.go), rotation of their secret
    (rotator.go), and the HTTP and gRPC checks (middleware.go, grpc.go).

    A nil secret is the empty string.  The rotator's timer is part of its
    state: a timer that has fired waits for the rotator's lock, and stopping it
    then no longer has an effect.  Events published on a rotation are left out. *)

From Stdlib Require Import Ascii String.
From S2P Require Import Prelude GoStrings GoEncoding GoSha256 PlatformCrypto GoHttp.

Local Open Scope string_scope.

(** ** Tokens *)

Inductive token_error : Type :=
| ErrInvalidToken
| ErrExpiredToken
| ErrInvalidSecret
| ErrModuleIDEmpty
| TokenCrypto (e : crypto_error).

Definition DefaultTTL : duration := 5 * minute.

Record Generator : Type := { g_secrets : list string; g_ttl : duration }.

Definition NewGenerator (secret : string) (ttl : duration) (previous : list string) : result token_error Generator :=
  if String.eqb secret "" then Err ErrInvalidSecret
  else Ok {| g_secrets := secret :: previous; g_ttl := if (ttl =? 0)%Z then DefaultTTL else ttl |}.

(** The generator always has a primary secret. *)
Definition primary (g : Generator) : string := default "" (head (g_secrets g)).

Definition Generate (g : Generator) (moduleID : string) (now : time) : result token_error string :=
  if String.eqb moduleID "" then Err ErrModuleIDEmpty
  else match GenerateInternalToken (primary g) moduleID now with
       | Ok t => Ok t
       | Err e => Err (TokenCrypto e)
       end.

(** [now i] is the clock when secret [i] is tried. *)
Fixpoint try_secrets (secrets : list string) (tokenStr : string) (ttl : duration) (now : nat -> time)
    : result token_error ValidatedInternalToken :=
  match secrets with
  | [] => Err ErrInvalidToken
  | secret :: rest =>
      match VerifyInternalToken secret tokenStr ttl (now O) with
      | Ok parsed => Ok parsed
      | Err ErrExpired => Err ErrExpiredToken
      | Err _ => try_secrets rest tokenStr ttl (fun i => now (S i))
      end
  end.
Definition Validate (g : Generator) (tokenStr : string) (now : nat -> time) : result token_error ValidatedInternalToken :=
  try_secrets (g_secrets g) tokenStr (g_ttl g) now.
Definition ValidateString (g : Generator) (tokenStr : string) (now : nat -> time) : result token_error string :=
  vit_ModuleID <$> Validate g tokenStr now.

Definition SetSecrets (g : Generator) (prim : string) (previous : list string) : result token_error Generator :=
  if String.eqb prim "" then Err ErrInvalidSecret
  else Ok {| g_secrets := prim :: previous; g_ttl := g_ttl g |}.

(** ** Rotation *)

Record Rotator : Type := {
  rt_generator : Generator;
  rt_previousSecret : string;
  rt_gracePeriod : duration;
  (** the timer, if there is one: the secret it completes, and whether it is
      still to fire *)
  rt_timer : option (string * bool);
  (** completions that wait for the lock *)
  rt_waiting : list string;
}.
Definition NewRotator (g : Generator) (gracePeriod : duration) : Rotator :=
  {| rt_generator := g; rt_previousSecret := ""; rt_gracePeriod := if (gracePeriod =? 0)%Z then (10 * minute)%Z else gracePeriod;
     rt_timer := None; rt_waiting := [] |}.

Definition with_timer (r : Rotator) (t : option (string * bool)) (waiting : list string) : Rotator :=
  {| rt_generator := rt_generator r; rt_previousSecret := rt_previousSecret r; rt_gracePeriod := rt_gracePeriod r;
     rt_timer := t; rt_waiting := waiting |}.

(** [Rotate] and [RotateWithCallback] do the same to the secrets. *)
Definition Rotate (r : Rotator) (newSecret : string) : result token_error unit * Rotator :=
  let r := with_timer r None (rt_waiting r) in
  match SetSecrets (rt_generator r) newSecret [rt_previousSecret r] with
  | Err e => (Err e, r)
  | Ok g => (Ok tt, {| rt_generator := g; rt_previousSecret := newSecret; rt_gracePeriod := rt_gracePeriod r;
                       rt_timer := Some (newSecret, true); rt_waiting := rt_waiting r |})
  end.

Definition completeRotation (r : Rotator) (currentSecret : string) : Rotator :=
  {| rt_generator := match SetSecrets (rt_generator r) currentSecret [] with Ok g => g | Err _ => rt_generator r end;
     rt_previousSecret := rt_previousSecret r; rt_gracePeriod := rt_gracePeriod r; rt_timer := None;
     rt_waiting := rt_waiting r |}.

(** The grace period ends: the timer's function starts and waits for the lock. *)
Definition fire (r : Rotator) : Rotator :=
  match rt_timer r with
  | Some (s, true) => with_timer r (Some (s, false)) (rt_waiting r ++ [s])%list
  | _ => r
  end.
(** One of the waiting completions gets the lock. *)
Definition run_waiting (i : nat) (r : Rotator) : Rotator :=
  match rt_waiting r !! i with
  | None => r
  | Some s => completeRotation (with_timer r (rt_timer r) (delete i (rt_waiting r))) s
  end.

(** The first half of [ForceComplete], up to the unlock; its completion waits
    for the lock like a timer's. *)
Definition ForceStart (r : Rotator) : Rotator :=
  if String.eqb (rt_previousSecret r) "" then with_timer r None (rt_waiting r)
  else with_timer r None (rt_waiting r ++ [rt_previousSecret r])%list.
Definition ForceComplete (r : Rotator) : Rotator :=
  run_waiting (length (rt_waiting r)) (ForceStart r).

Definition IsRotating (r : Rotator) : bool := match rt_timer r with Some _ => true | None => false end.
Definition StopRotator (r : Rotator) : Rotator := with_timer r None (rt_waiting r).

(** ** Checks *)

Definition HeaderInternalToken : string := "X-Aegion-Internal-Token".

Inductive http_outcome : Type :=
| Next (moduleID : option string)   (* the handler runs, with this module attached *)
| Unavailable
| Unauthorized (message : string).

Definition Middleware (g : option Generator) (skipPaths : list string) (r : Request) (now : nat -> time) : http_outcome :=
  if existsb (String.eqb (URL_Path r)) skipPaths then Next None
  else match g with
  | None => Unavailable
  | Some g =>
      let token := Header_Get (Header r) HeaderInternalToken in
      if String.eqb token "" then Unauthorized "missing internal auth token"
      else match ValidateString g token now with
           | Err _ => Unauthorized "invalid internal auth token"
           | Ok moduleID => Next (Some moduleID)
           end
  end.

(** The module of a context; nothing attached is the empty name. *)
Definition ModuleIDFromContext (attached : option string) : string := default "" attached.

Definition RequireModuleID (allowedModules : list string) (attached : option string) : bool :=
  let moduleID := ModuleIDFromContext attached in
  negb (String.eqb moduleID "") && existsb (String.eqb moduleID) allowedModules.

Inductive grpc_code : Type := CodeUnavailable | CodeUnauthenticated | CodePermissionDenied.

Definition authenticateGRPCContext (g : option Generator) (values : list string) (now : nat -> time) : result grpc_code string :=
  match g with
  | None => Err CodeUnavailable
  | Some g =>
      match values with
      | [v] => if String.eqb v "" then Err CodeUnauthenticated
               else match ValidateString g v now with Ok m => Ok m | Err _ => Err CodeUnauthenticated end
      | _ => Err CodeUnauthenticated
      end
  end.

(** ** Accepted tokens are signed *)

(** [token] is a token for [moduleID], signed with [secret] and fresh. *)
Definition signed_with (secret token : string) (ttl : duration) (now : time) (moduleID : string) : Prop :=
  secret <> "" /\ exists enc tstext ts sig,
    Split token "." = [internalTokenVer; enc; tstext; sig] /\ ParseInt tstext = Some ts /\ b64url_Decode enc = Some moduleID /\
    hex_DecodeString sig = Some (hmac_sha256 secret (internalTokenMessage enc ts)) /\
    (ts <= time_unix_milli now)%Z /\ fresh (ttl_millis ttl) (time_unix_milli now) ts.

Lemma VerifyInternalToken_signed secret token ttl now p :
  VerifyInternalToken secret token ttl now = Ok p -> signed_with secret token ttl now (vit_ModuleID p).
Proof.
  unfold VerifyInternalToken. destruct (cVerifyInternalToken _ _ _ _) as [[[m ts] sig]|e] eqn:E; [|done].
  destruct (hex_DecodeString sig) eqn:Hs; [|done]. intros [= <-].
  apply cVerifyInternalToken_sound in E as (enc & tstext & ? & ? & ? & ? & ? & ? & ?). split; [done|].
  exists enc, tstext, ts, sig. by split_and!.
Qed.

Lemma try_secrets_signed secrets token ttl now p :
  try_secrets secrets token ttl now = Ok p ->
  exists secret i, secret ∈ secrets /\ signed_with secret token ttl (now i) (vit_ModuleID p).
Proof.
  revert now. induction secrets as [|secret rest IH]; intros now E; [done|]. cbn [try_secrets] in E.
  destruct (VerifyInternalToken secret token ttl (now O)) as [p'|e] eqn:Hv.
  - injection E as ->. apply VerifyInternalToken_signed in Hv. exists secret, O. split; [by left|done].
  - assert (Hrest : try_secrets rest token ttl (fun i => now (S i)) = Ok p) by (by destruct e).
    apply IH in Hrest as (s & i & Hs & Hsig). exists s, (S i). split; [by right|done].
Qed.

(** Calls between modules are authenticated: a handler behind the HTTP
    middleware runs with a module attached, or behind the gRPC check at all,
    only for a token for that module that is signed with one of the current,
    non-empty secrets and fresh; without a token the middleware lets only the
    configured paths through. *)
Theorem internal_call_is_authenticated g skip r values now :
  (forall o, Middleware g skip r now = Next o ->
     match o with
     | None => URL_Path r ∈ skip
     | Some moduleID => exists gen secret i, g = Some gen /\ secret ∈ g_secrets gen /\
         signed_with secret (Header_Get (Header r) HeaderInternalToken) (g_ttl gen) (now i) moduleID
     end) /\
  (forall moduleID, authenticateGRPCContext g values now = Ok moduleID ->
     exists gen secret i token, g = Some gen /\ values = [token] /\ secret ∈ g_secrets gen /\
       signed_with secret token (g_ttl gen) (now i) moduleID).
Proof.
  assert (Hv : forall gen token m, ValidateString gen token now = Ok m ->
    exists secret i, secret ∈ g_secrets gen /\ signed_with secret token (g_ttl gen) (now i) m).
  { intros gen token m E. unfold ValidateString, Validate in E. destruct (try_secrets _ _ _ _) as [p|] eqn:Ht; [|done].
    injection E as <-. by apply try_secrets_signed in Ht. }
  split.
  - intros o. unfold Middleware. destruct (existsb _ skip) eqn:Hs.
    + intros [= <-]. apply existsb_exists in Hs as (p & Hp & ->%String.eqb_eq). by apply list_elem_of_In.
    + destruct g as [gen|]; [|done]. destruct (String.eqb _ ""); [done|].
      destruct (ValidateString gen _ now) as [m|] eqn:E; [|done]. intros [= <-].
      apply Hv in E as (secret & i & ? & ?). by exists gen, secret, i.
  - intros m. unfold authenticateGRPCContext. destruct g as [gen|]; [|done]. destruct values as [|v [|]]; try done.
    destruct (String.eqb v ""); [done|]. destruct (ValidateString gen v now) as [m'|] eqn:E; [|done]. intros [= <-].
    apply Hv in E as (secret & i & ? & ?). by exists gen, secret, i, v.
Qed.

(** ** Rotation *)

(** The generator signs with the secret of the last rotation. *)
Definition settled (r : Rotator) : Prop := primary (rt_generator r) = rt_previousSecret r /\ rt_previousSecret r <> "".

(** No completion of an earlier rotation is waiting. *)
Definition no_stale (r : Rotator) : Prop :=
  Forall (fun s => s = rt_previousSecret r) (rt_waiting r) /\
  match rt_timer r with Some (s, _) => s = rt_previousSecret r | None => True end.

Inductive rot_step : Rotator -> Rotator -> Prop :=
| SRotate r s : rt_waiting r = [] -> s <> "" -> rot_step r (Rotate r s).2
| SFire r : rot_step r (fire r)
| SRun r i : rot_step r (run_waiting i r)
| SForce r : rot_step r (ForceStart r)
| SStop r : rot_step r (StopRotator r).

Lemma SetSecrets_ok g s prev : s <> "" -> SetSecrets g s prev = Ok {| g_secrets := s :: prev; g_ttl := g_ttl g |}.
Proof. intros Hs. unfold SetSecrets. by destruct (String.eqb_spec s ""). Qed.

(** When no rotation overtakes a waiting completion, the rotator stays settled. *)
Lemma settled_step r r' : rot_step r r' -> settled r /\ no_stale r -> settled r' /\ no_stale r'.
Proof.
  intros Hs [[Hp Hne] [Hw Ht]]. destruct Hs as [r s Hempty Hs|r|r i|r|r].
  - unfold Rotate. rewrite SetSecrets_ok by done. split; split; cbn; try done. rewrite Hempty. constructor.
  - unfold fire. destruct (rt_timer r) as [[s []]|] eqn:Et; (split; split; cbn; try done); try (by rewrite Et).
    apply Forall_app. split; [done|]. by constructor.
  - unfold run_waiting. destruct (rt_waiting r !! i) as [s|] eqn:Hi; [|done].
    assert (s = rt_previousSecret r) as -> by exact (Forall_lookup_1 _ _ _ _ Hw Hi).
    unfold completeRotation. cbn [rt_generator with_timer rt_previousSecret]. rewrite SetSecrets_ok by done.
    split; split; cbn; try done. by apply Forall_delete.
  - unfold ForceStart. destruct (String.eqb_spec (rt_previousSecret r) ""); [done|]. split; split; cbn; try done.
    apply Forall_app. split; [done|]. by constructor.
  - by split; split.
Qed.

(** A token of one secret, presented under another. *)
Lemma verify_generated secret secret' m t0 token ttl now :
  TrimSpace m <> "" -> secret <> "" -> in_int64 (time_unix_milli t0) -> (time_unix_milli t0 <= time_unix_milli now)%Z ->
  fresh (ttl_millis ttl) (time_unix_milli now) (time_unix_milli t0) ->
  GenerateInternalToken secret m t0 = Ok token ->
  (exists p, VerifyInternalToken secret' token ttl now = Ok p /\ vit_ModuleID p = m) \/
  (secret' <> secret /\ VerifyInternalToken secret' token ttl now = Err ErrInvalidSignature).
Proof.
  intros Hm Hs Hts Hle Hf Hg. unfold GenerateInternalToken, cGenerateInternalToken in Hg.
  destruct (String.eqb_spec (TrimSpace m) ""); [done|]. rewrite cHMACSHA256Hex_ok in Hg by done.
  match type of Hg with Ok ?x = Ok _ => assert (Htok : token = x) by congruence end. rewrite Htok.
  unfold VerifyInternalToken, cVerifyInternalToken.
  rewrite Split_dots; [|done|by apply b64url_no_sep|by apply hex_no_sep].
  rewrite String.eqb_refl, ParseInt_FormatInt by done. cbn [negb].
  rewrite fresh_not_expired, (proj2 (Z.ltb_ge _ _)) by done.
  destruct (verifyHMACHex secret' _ _) eqn:Hv; cbn [negb].
  - left. rewrite b64url_round_trip, hex_round_trip. eexists. by split.
  - right. split; [|done]. intros ->. by rewrite verifyHMACHex_sign in Hv by done.
Qed.

(** The clock does not go back and the token has not expired. *)
Definition in_lifetime (ttl : duration) (t0 : time) (now : nat -> time) : Prop :=
  in_int64 (time_unix_milli t0) /\ forall i, (time_unix_milli t0 <= time_unix_milli (now i))%Z /\
    fresh (ttl_millis ttl) (time_unix_milli (now i)) (time_unix_milli t0).

Lemma try_secrets_accepts secret secrets m t0 token ttl now :
  TrimSpace m <> "" -> secret <> "" -> secret ∈ secrets -> in_lifetime ttl t0 now ->
  GenerateInternalToken secret m t0 = Ok token ->
  exists p, try_secrets secrets token ttl now = Ok p /\ vit_ModuleID p = m.
Proof.
  intros Hm Hs Hin [Hts Hl] Hg. revert now Hl Hin. induction secrets as [|s rest IH]; intros now Hl Hin; [by apply not_elem_of_nil in Hin|].
  cbn [try_secrets].
  destruct (verify_generated secret s m t0 token ttl (now O) Hm Hs Hts (proj1 (Hl O)) (proj2 (Hl O)) Hg) as [(p & Hv & Hp)|[Hne Hv]];
    rewrite Hv; [by exists p|]. apply IH; [intros i; apply Hl|]. apply elem_of_cons in Hin as [->|?]; done.
Qed.

(** Rotation loses no token: once a first rotation is done, and as long as
    no new rotation overtakes a completion that waits for the lock, a token
    generated at any time is accepted, for its module, until it expires or the
    grace period of the next rotation is over; in particular it survives a
    rotation. *)
Theorem rotation_keeps_tokens r0 r s2 m t0 token now :
  settled r0 -> no_stale r0 -> rtc rot_step r0 r ->
  TrimSpace m <> "" -> in_lifetime (g_ttl (rt_generator r)) t0 now -> s2 <> "" ->
  Generate (rt_generator r) m t0 = Ok token ->
  (exists p, Validate (rt_generator r) token now = Ok p /\ vit_ModuleID p = m) /\
  (exists r2, Rotate r s2 = (Ok tt, r2) /\ settled r2 /\
     exists p, Validate (rt_generator r2) token now = Ok p /\ vit_ModuleID p = m).
Proof.
  intros H1 H2 Hrun Hm Hl Hs2 Hg.
  assert (Hset : settled r /\ no_stale r) by (eapply (rtc_invariant rot_step (fun r => settled r /\ no_stale r)); [exact settled_step| |exact Hrun]; done).
  destruct Hset as [[Hp Hne] _]. unfold Generate in Hg. destruct (String.eqb m ""); [done|].
  destruct (GenerateInternalToken _ m t0) as [t|] eqn:Ht; [|done]. injection Hg as ->. rewrite Hp in Ht.
  unfold Validate. split.
  - eapply try_secrets_accepts; [done|exact Hne| |exact Hl|exact Ht].
    rewrite <- Hp. unfold primary in *. destruct (g_secrets (rt_generator r)); [done|]. by left.
  - unfold Rotate. rewrite SetSecrets_ok by done. eexists. split; [reflexivity|]. split; [by split|].
    cbn [rt_generator g_secrets g_ttl with_timer]. eapply try_secrets_accepts; [done|exact Hne| |exact Hl|exact Ht].
    right. by left.
Qed.

Module AuthWitness.
Definition g0 : Generator := {| g_secrets := ["s0"]; g_ttl := minute |}.
Definition r0 : Rotator := NewRotator g0 0.
Definition r1 : Rotator := (Rotate r0 "s1").2.
Definition clock : nat -> time := fun _ => (2 * second)%Z.
Definition token_of (g : Generator) : string := match Generate g "mfa" second with Ok t => t | Err _ => "" end.

Lemma rotation_keeps_tokens_witness :
  exists r2, Rotate r1 "s2" = (Ok tt, r2) /\ exists p, Validate (rt_generator r2) (token_of (rt_generator r1)) clock = Ok p /\ vit_ModuleID p = "mfa".
Proof.
  destruct (rotation_keeps_tokens r1 r1 "s2" "mfa" second (token_of (rt_generator r1)) clock) as [_ (r2 & H1 & _ & H2)];
    [split; [reflexivity|discriminate]|split; [constructor|reflexivity]|apply rtc_refl|discriminate
    | |discriminate|vm_compute; reflexivity|by exists r2].
  split; [vm_compute; split; discriminate|]. intros i. split; [vm_compute; discriminate|]. right. vm_compute. split; discriminate.
Defined.

Definition request (token : string) : Request :=
  {| Method := "GET"; URL_Path := "/x"; URL_RawQuery := ""; Host := ""; RemoteAddr := ""; TLS := true; Cookies := [];
     Header := Header_Set ∅ HeaderInternalToken token |}.
Lemma internal_call_is_authenticated_witness :
  exists gen secret i, Some g0 = Some gen /\ secret ∈ g_secrets gen /\
    signed_with secret (Header_Get (Header (request (token_of g0))) HeaderInternalToken) (g_ttl gen) (clock i) "mfa".
Proof.
  apply (proj1 (internal_call_is_authenticated (Some g0) ["/health"] (request (token_of g0)) [] clock) (Some "mfa")).
  vm_compute. reflexivity.
Defined.

(** The first rotation drops the initial secret at once: the rotator does not
    know it, and puts an empty secret in its place. *)
Lemma first_rotation_drops_tokens :
  g_secrets (rt_generator r1) = ["s1"; ""] /\ ValidateString (rt_generator r1) (token_of g0) clock = Err ErrInvalidToken.
Proof. split; vm_compute; reflexivity. Qed.

(** A completion that waited for the lock while a rotation ran takes the new
    secret back. *)
Lemma late_completion_restores_old_secret :
  g_secrets (rt_generator (run_waiting 0 (Rotate (fire r1) "s2").2)) = ["s1"] /\
  rt_previousSecret (run_waiting 0 (Rotate (fire r1) "s2").2) = "s2".
Proof. split; reflexivity. Qed.
End AuthWitness.
