(* ===== verification/ModuleAuth.v ===== *)
(** core/moduleauth: credentials of modules and the short-lived tokens issued
    for them (moduleauth.go, store.go, grpc.go), and the control plane that
    puts them in front of the registry (cmd/aegion/registry_grpc.go).

    JSON is a parameter ([ClaimsJson]); the client certificate of a connection
    is its common name. *)

From Stdlib Require Import Ascii String.
From S2P Require Import Prelude GoStrings GoEncoding GoSha256 PlatformCrypto CryptoFields Registry RegistryFacts AuthToken.

Local Open Scope string_scope.

Inductive auth_error : Type :=
| ErrCredentialInvalid
| ErrCredentialRevoked
| ErrTokenInvalid
| ErrTokenExpired
| ErrTokenDenied
| AuthStore (message : string)
| AuthDb (e : db_error)
| AuthCrypto (e : crypto_error).

#[global] Instance auth_db_err : DbErr auth_error := AuthDb.

Definition tokenVersion : Z := 2.

Record Credential : Type := {
  cr_ID : string;
  cr_ModuleID : string;
  cr_SecretHash : string;
  cr_Permissions : list string;
  cr_Audiences : list string;
  cr_Enabled : bool;
  cr_ExpiresAt : option time;
}.

Record Claims : Type := {
  cl_Version : Z;
  cl_TokenID : string;
  cl_CredentialID : string;
  cl_ModuleID : string;
  cl_Audience : string;
  cl_Permissions : list string;
  cl_IssuedAt : Z;
  cl_ExpiresAt : Z;
}.

(** [json.Marshal] and the strict decoder.  Text that is not UTF-8 is changed
    by encoding, so that reading back is promised for [utf8] claims. *)
Class ClaimsJson := {
  claims_Marshal : Claims -> option string;
  claims_Decode : string -> option Claims;
  utf8 : Claims -> Prop;
  claims_round_trip : forall c b, utf8 c -> claims_Marshal c = Some b -> claims_Decode b = Some c;
}.

(** ** The store (store.go, migration 0009): one row per module *)

Definition cred_db : Type := list Credential.

Definition find_credential (moduleID : string) (db : cred_db) : option Credential :=
  List.find (fun c => String.eqb (cr_ModuleID c) moduleID) db.

Definition store_Credential (moduleID : string) : M cred_db auth_error Credential :=
  db_stmt (fun db => match find_credential (TrimSpace moduleID) db with Some c => Ok (c, db) | None => Err NoRows end).

Definition with_id (c : Credential) (id : string) : Credential :=
  {| cr_ID := id; cr_ModuleID := cr_ModuleID c; cr_SecretHash := cr_SecretHash c; cr_Permissions := cr_Permissions c;
     cr_Audiences := cr_Audiences c; cr_Enabled := cr_Enabled c; cr_ExpiresAt := cr_ExpiresAt c |}.

Definition Create (c : Credential) (newID : string) : M cred_db auth_error unit :=
  let c := if String.eqb (TrimSpace (cr_ID c)) "" then with_id c newID else c in
  if String.eqb (TrimSpace (cr_ModuleID c)) "" || String.eqb (TrimSpace (cr_SecretHash c)) "" ||
     Nat.eqb (length (cr_Permissions c)) 0 || Nat.eqb (length (cr_Audiences c)) 0
  then throw (AuthStore "module credential requires module, hash, permissions, and audiences")
  else db_stmt (fun db =>
    if existsb (fun d => String.eqb (cr_ID d) (cr_ID c)) db then Err (UniqueViolation "core_module_credentials_pkey")
    else if existsb (fun d => String.eqb (cr_ModuleID d) (cr_ModuleID c)) db
    then Err (UniqueViolation "core_module_credentials_module_id_key")
    else Ok (tt, c :: db)).

(** An UPDATE of the row of a module, which must exist. *)
Definition update_module (moduleID : string) (f : Credential -> Credential) : M cred_db auth_error unit :=
  affected ← db_stmt (fun db => Ok (bool_decide (is_Some (find_credential (TrimSpace moduleID) db)),
    map (fun c => if String.eqb (cr_ModuleID c) (TrimSpace moduleID) then f c else c) db));
  if affected : bool then mret tt else throw (AuthStore "module credential was not found").

Definition rotated (secretHash : string) (expiresAt : option time) (c : Credential) : Credential :=
  {| cr_ID := cr_ID c; cr_ModuleID := cr_ModuleID c; cr_SecretHash := secretHash; cr_Permissions := cr_Permissions c;
     cr_Audiences := cr_Audiences c; cr_Enabled := true; cr_ExpiresAt := expiresAt |}.
Definition revoked (c : Credential) : Credential :=
  {| cr_ID := cr_ID c; cr_ModuleID := cr_ModuleID c; cr_SecretHash := cr_SecretHash c; cr_Permissions := cr_Permissions c;
     cr_Audiences := cr_Audiences c; cr_Enabled := false; cr_ExpiresAt := cr_ExpiresAt c |}.

Definition Rotate (moduleID secretHash : string) (expiresAt : option time) : M cred_db auth_error unit :=
  if String.eqb (TrimSpace moduleID) "" || String.eqb (TrimSpace secretHash) ""
  then throw (AuthStore "module ID and credential hash are required")
  else update_module moduleID (rotated secretHash expiresAt).
Definition Revoke (moduleID : string) : M cred_db auth_error unit := update_module moduleID revoked.

(** ** The manager (moduleauth.go) *)

Record Manager : Type := { mg_key : string; mg_ttl : duration }.
Definition NewManager (signingKey : string) (ttl : duration) : option Manager :=
  if String.eqb signingKey "" then None
  else Some {| mg_key := signingKey; mg_ttl := if (ttl <=? 0)%Z then (5 * minute)%Z else ttl |}.

Definition contains (values : list string) (wanted : string) : bool := existsb (fun v => String.eqb v wanted) values.
Definition subset (values allowed : list string) : bool := forallb (contains allowed) values.

Section manager.
Context `{Primitives} `{ClaimsJson} (m : Manager).

Definition usableCredential (moduleID : string) (now : time) : M cred_db auth_error Credential :=
  credential ← store_Credential moduleID;
  if negb (cr_Enabled credential) then throw ErrCredentialRevoked
  else if match cr_ExpiresAt credential with Some e => negb (now <? e)%Z | None => false end then throw ErrCredentialRevoked
  else mret credential.

Definition signature (payload : string) : option string :=
  match HMACSHA256Hex (mg_key m) payload with Ok h => hex_DecodeString h | Err _ => None end.

Definition randomValue (b : result crypto_error string) : result auth_error string :=
  match b with Ok v => Ok (b64url_Encode v) | Err e => Err (AuthCrypto e) end.

(** [rand] are the 16 bytes of the token identifier. *)
Definition issue (credential : Credential) (audience : string) (permissions : list string) (issuedAt : time)
    (rand : result crypto_error string) : result auth_error (string * Claims) :=
  tokenID ← randomValue rand;
  let claims := {| cl_Version := tokenVersion; cl_TokenID := tokenID; cl_CredentialID := cr_ID credential;
    cl_ModuleID := cr_ModuleID credential; cl_Audience := audience; cl_Permissions := permissions;
    cl_IssuedAt := time_unix issuedAt; cl_ExpiresAt := time_unix (time_add issuedAt (mg_ttl m)) |} in
  match claims_Marshal claims with
  | None => Err (AuthStore "encode module token claims")
  | Some payload =>
      match signature payload with
      | None => Err (AuthCrypto ErrSignatureFailed)
      | Some sig => Ok ("v2." +:+ b64url_Encode payload +:+ "." +:+ b64url_Encode sig, claims)
      end
  end.

Definition Exchange (moduleID rawCredential audience : string) (permissions : list string) (now1 now2 : time)
    (rand : result crypto_error string) : M cred_db auth_error (string * Claims) :=
  let moduleID := TrimSpace moduleID in
  let audience := TrimSpace audience in
  if String.eqb moduleID "" || String.eqb rawCredential "" || String.eqb audience "" then throw ErrCredentialInvalid
  else
    credential ← usableCredential moduleID now1;
    match VerifyPassword rawCredential (cr_SecretHash credential) with
    | Ok true =>
        let permissions := match permissions with [] => cr_Permissions credential | _ => permissions end in
        if negb (contains (cr_Audiences credential) audience) || negb (subset permissions (cr_Permissions credential))
        then throw ErrTokenDenied
        else lift_result (issue credential audience permissions now2 rand)
    | _ => throw ErrCredentialInvalid
    end.

Definition parse (token : string) (now : time) : result auth_error Claims :=
  match Split token "." with
  | [v; p; s] =>
      if negb (String.eqb v "v2") then Err ErrTokenInvalid
      else match b64url_Decode p, b64url_Decode s with
      | Some payload, Some sig =>
          match signature payload with
          | None => Err ErrTokenInvalid
          | Some expected =>
              if negb (ConstantTimeCompare sig expected) then Err ErrTokenInvalid
              else match claims_Decode payload with
              | None => Err ErrTokenInvalid
              | Some claims =>
                  if negb (cl_Version claims =? tokenVersion)%Z || String.eqb (cl_TokenID claims) "" ||
                     String.eqb (cl_CredentialID claims) "" || String.eqb (cl_ModuleID claims) "" ||
                     String.eqb (cl_Audience claims) "" || Nat.eqb (length (cl_Permissions claims)) 0
                  then Err ErrTokenInvalid
                  else
                    let now := time_unix now in
                    if (cl_ExpiresAt claims <=? now)%Z then Err ErrTokenExpired
                    else if (now + 60 <? cl_IssuedAt claims)%Z then Err ErrTokenInvalid
                    else Ok claims
              end
          end
      | _, _ => Err ErrTokenInvalid
      end
  | _ => Err ErrTokenInvalid
  end.

Definition Validate (token audience permission : string) (now1 now2 : time) : M cred_db auth_error Claims :=
  claims ← lift_result (parse token now1);
  if negb (String.eqb (cl_Audience claims) (TrimSpace audience)) || negb (contains (cl_Permissions claims) permission)
  then throw ErrTokenDenied
  else
    credential ← usableCredential (cl_ModuleID claims) now2;
    if negb (String.eqb (cr_ID credential) (cl_CredentialID claims)) ||
       negb (contains (cr_Audiences credential) (cl_Audience claims)) ||
       negb (subset (cl_Permissions claims) (cr_Permissions credential))
    then throw ErrTokenDenied
    else mret claims.

Definition NewCredential (raw : result crypto_error string) (salt : option string) : result auth_error (string * string) :=
  raw ← randomValue raw;
  match HashPassword raw salt with Ok h => Ok (raw, h) | Err e => Err (AuthCrypto e) end.

(** ** gRPC (grpc.go) *)

Record Requirement : Type := { rq_Audience : string; rq_Permission : string; rq_Bootstrap : bool }.

Definition grpcAuthError (e : auth_error) : grpc_code :=
  match e with
  | ErrTokenDenied | ErrCredentialRevoked => CodePermissionDenied
  | ErrCredentialInvalid | ErrTokenInvalid | ErrTokenExpired => CodeUnauthenticated
  | _ => CodeUnavailable
  end.

(** The common name of the client certificate, or [None] without one. *)
Definition moduleTLSIdentity (commonName : option string) : result grpc_code string :=
  match commonName with
  | None => Err CodeUnauthenticated
  | Some cn => if String.eqb (TrimSpace cn) "" then Err CodeUnauthenticated else Ok (TrimSpace cn)
  end.

(** The module a call is let through for; [None] for a bootstrap method. *)
Definition UnaryServerInterceptor (requirements : gmap string Requirement) (method : string) (values : list string)
    (commonName : option string) (now1 now2 : time) : M cred_db grpc_code (option string) :=
  match requirements !! method with
  | None => throw CodePermissionDenied
  | Some requirement =>
      if rq_Bootstrap requirement then mret None
      else match values with
      | [token] =>
          if String.eqb token "" then throw CodeUnauthenticated
          else
            claims ← call grpcAuthError (Validate token (rq_Audience requirement) (rq_Permission requirement) now1 now2);
            mtlsIdentity ← lift_result (moduleTLSIdentity commonName);
            if negb (String.eqb mtlsIdentity (cl_ModuleID claims)) then throw CodePermissionDenied
            else mret (Some (cl_ModuleID claims))
      | _ => throw CodeUnauthenticated
      end
  end.

Definition GetCurrent (module bootstrapSecret : string) (commonName : option string) (now1 now2 : time)
    (rand : result crypto_error string) : M cred_db grpc_code (string * Z * Z) :=
  if String.eqb module "" || String.eqb bootstrapSecret "" then throw CodeUnauthenticated
  else
    mtlsIdentity ← lift_result (moduleTLSIdentity commonName);
    if negb (String.eqb mtlsIdentity module) then throw CodePermissionDenied
    else
      '(token, claims) ← call grpcAuthError (Exchange module bootstrapSecret "core.registry" [] now1 now2 rand);
      mret (token, cl_IssuedAt claims, cl_ExpiresAt claims).

Definition GrpcValidate (token module : string) (now1 now2 : time) : M cred_db grpc_code bool :=
  r ← attempt (Validate token "core.registry" "registry:register" now1 now2);
  mret match r with Ok claims => String.eqb (cl_ModuleID claims) module | Err _ => false end.
End manager.

(** ** The control plane (cmd/aegion/registry_grpc.go) *)

Definition method_GetCurrent : string := "/aegion.core.internal_token.InternalTokenService/GetCurrent".
Definition method_Validate : string := "/aegion.core.internal_token.InternalTokenService/Validate".
Definition method_Register : string := "/aegion.core.registry.ModuleRegistry/Register".
Definition method_Deregister : string := "/aegion.core.registry.ModuleRegistry/Deregister".
Definition method_Heartbeat : string := "/aegion.core.registry.ModuleRegistry/Heartbeat".
Definition method_GetModules : string := "/aegion.core.registry.ModuleRegistry/GetModules".

Definition needs (permission : string) : Requirement :=
  {| rq_Audience := "core.registry"; rq_Permission := permission; rq_Bootstrap := false |}.
Definition requirements : gmap string Requirement :=
  <[method_GetCurrent := {| rq_Audience := ""; rq_Permission := ""; rq_Bootstrap := true |}]>
  (<[method_Validate := needs "registry:register"]>
  (<[method_Register := needs "registry:register"]>
  (<[method_Deregister := needs "registry:deregister"]>
  (<[method_Heartbeat := needs "registry:heartbeat"]>
  (<[method_GetModules := needs "registry:read"]> ∅))))).
