(* ===== verification/ModuleAuthFacts.v ===== *)
(** Module credentials: issued tokens validate while their credential is live,
    and the registry is changed only by the module the connection and the
    token name. *)

From Stdlib Require Import Ascii String.
From S2P Require Import Prelude GoStrings GoEncoding GoSha256 PlatformCrypto CryptoFields Registry RegistryFacts AuthToken ModuleAuth.

Local Open Scope string_scope.

Lemma contains_elem l x : contains l x = true <-> x ∈ l.
Proof.
  unfold contains. rewrite existsb_exists, list_elem_of_In. split; [intros (y & Hy & ->%String.eqb_eq); done|].
  intros Hx. exists x. by rewrite String.eqb_refl.
Qed.
Lemma subset_spec l l' : subset l l' = true <-> forall x, x ∈ l -> x ∈ l'.
Proof.
  unfold subset. rewrite forallb_forall. split; intros Hs x Hx.
  - by apply contains_elem, Hs, list_elem_of_In.
  - by apply contains_elem, Hs, list_elem_of_In.
Qed.

Section facts.
Context `{Primitives} `{ClaimsJson} (m : Manager).

(** [c] is the credential of [moduleID] and may be used at [now]. *)
Definition live_credential (moduleID : string) (now : time) (c : Credential) (db : cred_db) : Prop :=
  find_credential (TrimSpace moduleID) db = Some c /\ cr_Enabled c = true /\
  forall e, cr_ExpiresAt c = Some e -> (now < e)%Z.

Lemma usableCredential_spec moduleID now w c w' :
  usableCredential moduleID now w = (Ok c, w') -> live_credential moduleID now c (w_db w) /\ w_db w' = w_db w.
Proof.
  unfold usableCredential. intros (c0 & w1 & E & E2)%M_bind_ok.
  unfold store_Credential in E. apply db_stmt_cases in E as [(x & [= <-] & E)|(? & ? & _)]; [|done].
  destruct (find_credential _ (w_db w)) as [c1|] eqn:Hf; [|done]. injection E as -> Hw.
  destruct (cr_Enabled c0) eqn:He; [|done]. cbn [negb] in E2.
  destruct (cr_ExpiresAt c0) as [e|] eqn:Hx.
  - destruct (Z.ltb_spec now e); [|done]. injection E2 as <- <-. split; [|done]. split_and!; [done..|]. intros e' He'. congruence.
  - injection E2 as <- <-. split; [|done]. split_and!; [done..|]. intros e' He'. congruence.
Qed.

Lemma usableCredential_run moduleID now c db :
  live_credential moduleID now c db -> usableCredential moduleID now (World db []) = (Ok c, World db []).
Proof.
  intros (Hf & He & Hx). unfold usableCredential, store_Credential. rewrite M_bind_run, db_stmt_clean, Hf, He. cbn [negb].
  destruct (cr_ExpiresAt c) as [e|]; [|done]. specialize (Hx e eq_refl). by rewrite (proj2 (Z.ltb_lt now e)).
Qed.

(** ** What a token means *)

(** The token carries the claims under the manager's signature. *)
Definition token_carries (token : string) (claims : Claims) : Prop :=
  mg_key m <> "" /\ exists p s payload, Split token "." = ["v2"; p; s] /\ b64url_Decode p = Some payload /\
    b64url_Decode s = Some (hmac_sha256 (mg_key m) payload) /\ claims_Decode payload = Some claims.

Lemma signature_spec payload sig :
  signature m payload = Some sig <-> mg_key m <> "" /\ sig = hmac_sha256 (mg_key m) payload.
Proof.
  unfold signature, HMACSHA256Hex. destruct (String.eqb_spec (mg_key m) "") as [He|Hne].
  - unfold cHMACSHA256Hex. rewrite He. cbn. split; [done|]. by intros [? _].
  - rewrite cHMACSHA256Hex_ok, hex_round_trip by done. split; [by intros [= <-]|by intros [_ ->]].
Qed.

Lemma parse_sound token now claims :
  parse m token now = Ok claims ->
  token_carries token claims /\ (time_unix now < cl_ExpiresAt claims)%Z /\ (cl_IssuedAt claims <= time_unix now + 60)%Z.
Proof.
  unfold parse. destruct (Split token ".") as [|v [|p [|s [|]]]] eqn:Hs; try done.
  destruct (String.eqb_spec v "v2") as [->|]; [|done]. cbn [negb].
  destruct (b64url_Decode p) as [payload|] eqn:Hp; [|done]. destruct (b64url_Decode s) as [sig|] eqn:Hsig; [|done].
  destruct (signature m payload) as [expected|] eqn:He; [|done]. rewrite ConstantTimeCompare_eqb.
  destruct (String.eqb_spec sig expected) as [->|]; [|done]. cbn [negb].
  destruct (claims_Decode payload) as [c|] eqn:Hd; [|done]. destruct (_ || _); [done|]. cbv zeta.
  destruct (Z.leb_spec (cl_ExpiresAt c) (time_unix now)); [done|].
  destruct (Z.ltb_spec (time_unix now + 60) (cl_IssuedAt c)); [done|]. intros [= <-].
  apply signature_spec in He as [Hk ->]. split; [|lia]. split; [done|]. by exists p, s, payload.
Qed.

(** What [Validate] promises of the token it accepts. *)
Definition authorized (token audience permission : string) (claims : Claims) (now1 now2 : time) (db : cred_db) : Prop :=
  token_carries token claims /\ (time_unix now1 < cl_ExpiresAt claims)%Z /\ cl_Audience claims = TrimSpace audience /\
  permission ∈ cl_Permissions claims /\
  exists c, live_credential (cl_ModuleID claims) now2 c db /\ cr_ID c = cl_CredentialID claims /\
    cl_Audience claims ∈ cr_Audiences c /\ forall p, p ∈ cl_Permissions claims -> p ∈ cr_Permissions c.

Lemma Validate_sound token audience permission now1 now2 w claims w' :
  Validate m token audience permission now1 now2 w = (Ok claims, w') ->
  authorized token audience permission claims now1 now2 (w_db w) /\ w_db w' = w_db w.
Proof.
  unfold Validate. intros (c0 & w1 & E & E2)%M_bind_ok. injection E as Hparse <-.
  destruct (String.eqb_spec (cl_Audience c0) (TrimSpace audience)) as [Ha|]; [|done].
  destruct (contains (cl_Permissions c0) permission) eqn:Hp; [|done]. cbn [negb orb] in E2.
  apply M_bind_ok in E2 as (c & w2 & Hu & E3). apply usableCredential_spec in Hu as [Hl Hw].
  destruct (String.eqb_spec (cr_ID c) (cl_CredentialID c0)) as [Hid|]; [|done].
  destruct (contains (cr_Audiences c) (cl_Audience c0)) eqn:Haud; [|done].
  destruct (subset (cl_Permissions c0) (cr_Permissions c)) eqn:Hsub; [|done]. cbn [negb orb] in E3.
  injection E3 as <- <-. split; [|done]. destruct (parse_sound _ _ _ Hparse) as (? & ? & _).
  split_and!; [done..|by apply contains_elem|]. exists c. apply contains_elem in Haud. rewrite subset_spec in Hsub. by split_and!.
Qed.

(** ** Tokens that were issued *)

(** The claims a token is issued with. *)
Definition claims_for (c : Credential) (audience : string) (permissions : list string) (issuedAt : time) (id : string) : Claims :=
  {| cl_Version := tokenVersion; cl_TokenID := b64url_Encode id; cl_CredentialID := cr_ID c; cl_ModuleID := cr_ModuleID c;
     cl_Audience := audience; cl_Permissions := permissions; cl_IssuedAt := time_unix issuedAt;
     cl_ExpiresAt := time_unix (time_add issuedAt (mg_ttl m)) |}.

Lemma parse_issued payload claims now :
  mg_key m <> "" -> claims_Decode payload = Some claims -> cl_Version claims = tokenVersion -> cl_TokenID claims <> "" ->
  cl_CredentialID claims <> "" -> cl_ModuleID claims <> "" -> cl_Audience claims <> "" -> cl_Permissions claims <> [] ->
  (time_unix now < cl_ExpiresAt claims)%Z -> (cl_IssuedAt claims <= time_unix now + 60)%Z ->
  parse m ("v2." +:+ b64url_Encode payload +:+ "." +:+ b64url_Encode (hmac_sha256 (mg_key m) payload)) now = Ok claims.
Proof.
  intros Hk Hd Hv Ht Hc Hm Ha Hp He Hi. unfold parse.
  assert (Hsplit : Split ("v2." +:+ b64url_Encode payload +:+ "." +:+ b64url_Encode (hmac_sha256 (mg_key m) payload)) "." =
    ["v2"; b64url_Encode payload; b64url_Encode (hmac_sha256 (mg_key m) payload)]).
  { set (a := b64url_Encode payload). set (b := b64url_Encode (hmac_sha256 _ _)).
    change ("v2." +:+ a +:+ "." +:+ b) with ("v2" +:+ String "." (a +:+ String "." b)). rewrite Split_app_sep by done. rewrite Split_app_sep by (by apply b64url_no_sep).
    by rewrite Split_single by (by apply b64url_no_sep). }
  rewrite Hsplit. cbn [String.eqb Ascii.eqb Bool.eqb negb]. rewrite !b64url_round_trip.
  rewrite (proj2 (signature_spec payload _) (conj Hk eq_refl)). rewrite ConstantTimeCompare_eqb, String.eqb_refl. cbn [negb].
  rewrite Hd, Hv, Z.eqb_refl. cbn [negb orb].
  rewrite (proj2 (String.eqb_neq _ _) Ht), (proj2 (String.eqb_neq _ _) Hc), (proj2 (String.eqb_neq _ _) Hm), (proj2 (String.eqb_neq _ _) Ha).
  cbn [orb]. destruct (cl_Permissions claims) as [|x xs] eqn:Hx; [done|]. cbn [length Nat.eqb]. cbv zeta.
  by rewrite (proj2 (Z.leb_gt _ _) He), (proj2 (Z.ltb_ge _ _) Hi).
Qed.

(** Exchange and validation agree: with a live credential and its secret,
    [Exchange] gives a token for any audience and permissions of the
    credential, and [Validate] accepts it for this audience and each of these
    permissions, until it expires, while the credential stays as it is. *)
Theorem exchanged_token_validates moduleID raw audience perms c db id payload p now1 now2 t1 t2 :
  mg_key m <> "" -> live_credential (TrimSpace moduleID) now1 c db -> live_credential (cr_ModuleID c) t2 c db ->
  TrimSpace moduleID <> "" -> raw <> "" -> TrimSpace audience <> "" ->
  cr_ID c <> "" -> cr_ModuleID c <> "" -> id <> "" ->
  VerifyPassword raw (cr_SecretHash c) = Ok true -> TrimSpace audience ∈ cr_Audiences c ->
  (forall q, q ∈ perms -> q ∈ cr_Permissions c) -> p ∈ perms ->
  let claims := claims_for c (TrimSpace audience) perms now2 id in
  utf8 claims -> claims_Marshal claims = Some payload ->
  (time_unix t1 < cl_ExpiresAt claims)%Z -> (cl_IssuedAt claims <= time_unix t1 + 60)%Z ->
  exists token, Exchange m moduleID raw audience perms now1 now2 (Ok id) (World db []) = (Ok (token, claims), World db []) /\
    Validate m token audience p t1 t2 (World db []) = (Ok claims, World db []).
Proof.
  intros Hk Hl1 Hl2 Hm Hraw Ha Hid Hmod Hrand Hpw Haud Hsub Hp claims Hu Hpay He Hi.
  exists ("v2." +:+ b64url_Encode payload +:+ "." +:+ b64url_Encode (hmac_sha256 (mg_key m) payload)). split.
  - unfold Exchange. cbv zeta.
    rewrite (proj2 (String.eqb_neq _ _) Hm), (proj2 (String.eqb_neq _ _) Hraw), (proj2 (String.eqb_neq _ _) Ha). cbn [orb].
    rewrite M_bind_run, (usableCredential_run _ now1 c db Hl1), Hpw. destruct perms as [|q qs]; [by apply not_elem_of_nil in Hp|].
    rewrite (proj2 (contains_elem _ _) Haud), (proj2 (subset_spec _ _) Hsub). cbn [negb orb].
    unfold lift_result, issue, randomValue. cbn [mbind result_bind]. fold (claims_for c (TrimSpace audience) (q :: qs) now2 id).
    fold claims. by rewrite Hpay, (proj2 (signature_spec payload _) (conj Hk eq_refl)).
  - unfold Validate, lift_result. rewrite M_bind_run.
    rewrite (parse_issued payload claims t1 Hk (claims_round_trip claims payload Hu Hpay)); try done.
    + cbn [cl_Audience claims claims_for cl_Permissions cl_ModuleID cl_CredentialID].
      rewrite String.eqb_refl, (proj2 (contains_elem _ _) Hp). cbn [negb orb].
      rewrite M_bind_run, (usableCredential_run _ t2 c db Hl2), String.eqb_refl, (proj2 (contains_elem _ _) Haud), (proj2 (subset_spec _ _) Hsub).
      done.
    + by apply b64url_Encode_nonempty.
    + intros Hnil. cbn in Hnil. rewrite Hnil in Hp. by apply not_elem_of_nil in Hp.
Qed.

(** ** Revocation *)

Inductive cred_op : Type :=
| OpCreateCredential (c : Credential) (newID : string)
| OpRotateCredential (moduleID hash : string) (expiresAt : option time)
| OpRevokeCredential (moduleID : string).
Definition cred_exec (op : cred_op) : M cred_db auth_error unit :=
  match op with
  | OpCreateCredential c newID => Create c newID
  | OpRotateCredential i h e => Rotate i h e
  | OpRevokeCredential i => Revoke i
  end.
Fixpoint cred_history (h : list (cred_op * list (option string))) (db : cred_db) : cred_db :=
  match h with
  | [] => db
  | (op, faults) :: rest => cred_history rest (w_db (cred_exec op (World db faults)).2)
  end.
Definition not_rotating (moduleID : string) (op : cred_op) : Prop :=
  match op with OpRotateCredential i _ _ => TrimSpace i <> moduleID | _ => True end.

(** The module has a row, and all of its rows are disabled. *)
Definition locked (moduleID : string) (db : cred_db) : Prop :=
  (exists c, c ∈ db /\ cr_ModuleID c = moduleID) /\ forall c, c ∈ db -> cr_ModuleID c = moduleID -> cr_Enabled c = false.

Lemma find_credential_elem moduleID db c : find_credential moduleID db = Some c -> c ∈ db /\ cr_ModuleID c = moduleID.
Proof. intros [Hin Heq%String.eqb_eq]%List.find_some. by rewrite list_elem_of_In. Qed.
Lemma find_credential_none moduleID db : find_credential moduleID db = None -> forall c, c ∈ db -> cr_ModuleID c <> moduleID.
Proof. intros Hf c Hc%list_elem_of_In. apply (List.find_none _ _ Hf) in Hc. by apply String.eqb_neq in Hc. Qed.

Lemma locked_update moduleID i f db :
  (forall c, cr_ModuleID (f c) = cr_ModuleID c) ->
  (TrimSpace i = moduleID -> forall c, cr_Enabled (f c) = false) ->
  locked moduleID db -> locked moduleID (map (fun c => if String.eqb (cr_ModuleID c) (TrimSpace i) then f c else c) db).
Proof.
  intros Hf Hdis [(c & Hc & Hm) Hall]. split.
  - exists (if String.eqb (cr_ModuleID c) (TrimSpace i) then f c else c). split.
    + apply list_elem_of_fmap. by exists c.
    + destruct (String.eqb _ _); [by rewrite Hf|done].
  - intros c' (c0 & -> & Hc0)%list_elem_of_fmap. destruct (String.eqb_spec (cr_ModuleID c0) (TrimSpace i)) as [He|].
    + rewrite Hf. intros Hm'. apply Hdis. congruence.
    + by apply Hall.
Qed.

Lemma locked_exec moduleID op w : not_rotating moduleID op -> locked moduleID (w_db w) -> locked moduleID (w_db (cred_exec op w).2).
Proof.
  intros Hn Hl. destruct op as [c newID|i h e|i]; cbn [cred_exec not_rotating] in *.
  - unfold Create. set (c' := if String.eqb _ "" then _ else c).
    destruct (_ || _); [done|]. revert w Hl. apply (preserves_stmt (locked moduleID)).
    intros db [] db' Hs [(d & Hd & Hm) Hall]. destruct (existsb _ db); [done|]. destruct (existsb _ db) eqn:Hex; [done|].
    injection Hs as <-. split; [exists d; split; [by right|done]|].
    intros d' [->|Hd']%elem_of_cons Hm'; [|by apply Hall]. exfalso.
    apply not_true_iff_false in Hex. apply Hex, existsb_exists. exists d. split; [by apply list_elem_of_In|].
    apply String.eqb_eq. congruence.
  - unfold Rotate. destruct (_ || _); [done|]. revert w Hl. apply preserves_bind; [|intros []; [apply preserves_ret|apply preserves_throw]].
    apply preserves_stmt. intros db b db' Hs Hl. injection Hs as _ <-. by apply locked_update.
  - unfold Revoke. revert w Hl. apply preserves_bind; [|intros []; [apply preserves_ret|apply preserves_throw]].
    apply preserves_stmt. intros db b db' Hs Hl. injection Hs as _ <-. by apply locked_update.
Qed.

Lemma Revoke_locks moduleID w w' : Revoke moduleID w = (Ok tt, w') -> locked (TrimSpace moduleID) (w_db w').
Proof.
  unfold Revoke, update_module. intros (b & w1 & E & E2)%M_bind_ok. destruct b; [|done]. injection E2 as <-.
  apply db_stmt_cases in E as [(x & [= <-] & E)|(? & ? & _)]; [|done]. injection E as Hb <-.
  apply bool_decide_eq_true in Hb as [c Hc]. apply find_credential_elem in Hc as [Hc Hm]. split.
  - exists (revoked c). split; [|done]. apply list_elem_of_fmap. exists c. by rewrite Hm, String.eqb_refl.
  - intros c' (c0 & -> & _)%list_elem_of_fmap. by destruct (String.eqb_spec (cr_ModuleID c0) (TrimSpace moduleID)).
Qed.

(** Revocation takes effect at once: after [Revoke] of a module no token
    of it is accepted and no credential of it exchanged, whatever happens to
    the credentials and whatever fails, until the module's own credential is
    rotated. *)
Theorem revoked_module_is_locked_out moduleID w w1 h now1 now2 faults :
  Revoke moduleID w = (Ok tt, w1) -> Forall (fun p => not_rotating (TrimSpace moduleID) p.1) h ->
  let db := cred_history h (w_db w1) in
  (forall token audience permission claims w', Validate m token audience permission now1 now2 (World db faults) = (Ok claims, w') ->
     TrimSpace (cl_ModuleID claims) <> TrimSpace moduleID) /\
  (forall raw audience perms rand token w', Exchange m moduleID raw audience perms now1 now2 rand (World db faults) <> (Ok token, w')).
Proof.
  intros Hrev Hh. apply Revoke_locks in Hrev.
  assert (Hl : forall h db, Forall (fun p => not_rotating (TrimSpace moduleID) p.1) h -> locked (TrimSpace moduleID) db ->
    locked (TrimSpace moduleID) (cred_history h db)).
  { clear. intros h. induction h as [|[op fs] h IH]; intros db Hh Hl; [done|]. apply Forall_cons in Hh as [H1 H2]. cbn [cred_history].
    apply IH; [done|]. by apply (locked_exec _ op (World db fs)). }
  cbv zeta. set (db := cred_history h (w_db w1)). specialize (Hl h (w_db w1) Hh Hrev). fold db in Hl. destruct Hl as [_ Hall]. split.
  - intros token audience permission claims w' Hv Heq. apply Validate_sound in Hv as [(_ & _ & _ & _ & c & (Hf & He & _) & _) _].
    apply find_credential_elem in Hf as [Hc Hm]. rewrite (Hall c Hc) in He; [done|]. by rewrite Hm.
  - intros raw audience perms rand token w' Hx. unfold Exchange in Hx. cbv zeta in Hx. destruct (_ || _); [done|].
    apply M_bind_ok in Hx as (c & w2 & Hu & _). apply usableCredential_spec in Hu as [(Hf & He & _) _].
    apply find_credential_elem in Hf as [Hc Hm]. rewrite (Hall c Hc) in He; [done|]. by rewrite Hm, TrimSpace_idem.
Qed.

(** ** Rotation leaves tokens valid *)

Lemma rotated_credential_keeps_tokens token audience permission now1 now2 claims hash e db w' :
  Validate m token audience permission now1 now2 (World db []) = (Ok claims, w') ->
  TrimSpace (cl_ModuleID claims) <> "" -> TrimSpace hash <> "" -> (now2 < e)%Z ->
  exists db', Rotate (cl_ModuleID claims) hash (Some e) (World db []) = (Ok tt, World db' []) /\
    Validate m token audience permission now1 now2 (World db' []) = (Ok claims, World db' []).
Proof.
  unfold Validate at 1. intros (c0 & w1 & E & E2)%M_bind_ok Hmod Hhash He. injection E as Hparse <-.
  destruct (negb (String.eqb (cl_Audience c0) (TrimSpace audience)) || negb (contains (cl_Permissions c0) permission)) eqn:Hguard; [done|].
  apply M_bind_ok in E2 as (c & w2 & Hu & E3). apply usableCredential_spec in Hu as [(Hf & Hen & _) Hw]. cbn [w_db] in Hf.
  destruct (_ || _) eqn:Hguard2 in E3; [done|]. injection E3 as <- <-.
  set (f := fun d => if String.eqb (cr_ModuleID d) (TrimSpace (cl_ModuleID c0)) then rotated hash (Some e) d else d).
  exists (map f db). split.
  - unfold Rotate. rewrite (proj2 (String.eqb_neq _ _) Hmod), (proj2 (String.eqb_neq _ _) Hhash). cbn [orb].
    unfold update_module. rewrite M_bind_run, db_stmt_clean. rewrite bool_decide_eq_true_2 by (rewrite Hf; eauto). done.
  - assert (Hf' : find_credential (TrimSpace (cl_ModuleID c0)) (map f db) = Some (rotated hash (Some e) c)).
    { clear -Hf. unfold find_credential in *. induction db as [|d db IH]; [done|]. cbn [map List.find] in *.
      replace (cr_ModuleID (f d)) with (cr_ModuleID d) by (unfold f; by destruct (String.eqb _ _)).
      destruct (String.eqb (cr_ModuleID d) (TrimSpace (cl_ModuleID c0))) eqn:Hd; [|by apply IH].
      injection Hf as ->. unfold f. by rewrite Hd. }
    unfold Validate, lift_result. rewrite M_bind_run, Hparse, Hguard, M_bind_run.
    rewrite (usableCredential_run _ now2 (rotated hash (Some e) c)).
    + cbn [cr_ID cr_Audiences cr_Permissions rotated]. by rewrite Hguard2.
    + split_and!; [done|done|]. by intros ? [= <-].
Qed.

(** ** The control plane *)

Definition method_of (c : grpc_call) : string :=
  match c with
  | CallRegister _ _ => method_Register
  | CallDeregister _ _ => method_Deregister
  | CallHeartbeat _ _ _ _ => method_Heartbeat
  end.
Definition permission_of (c : grpc_call) : string :=
  match c with
  | CallRegister _ _ => "registry:register"
  | CallDeregister _ _ => "registry:deregister"
  | CallHeartbeat _ _ _ _ => "registry:heartbeat"
  end.

(** A call of the registry through the interceptor. *)
Definition control_plane `{Addresses} (values : list string) (commonName : option string) (now1 now2 : time) (c : grpc_call) (r : Registry)
    : M cred_db grpc_code Registry :=
  caller ← UnaryServerInterceptor m requirements (method_of c) values commonName now1 now2;
  mret (grpc_serve (ModuleIDFromContext caller) c r).

Lemma interceptor_sound c values commonName now1 now2 w caller w' :
  UnaryServerInterceptor m requirements (method_of c) values commonName now1 now2 w = (Ok caller, w') ->
  exists token claims cn, values = [token] /\ commonName = Some cn /\ TrimSpace cn = cl_ModuleID claims /\ TrimSpace cn <> "" /\
    caller = Some (TrimSpace cn) /\ authorized token "core.registry" (permission_of c) claims now1 now2 (w_db w).
Proof.
  unfold UnaryServerInterceptor.
  assert (Hreq : requirements !! method_of c = Some (needs (permission_of c))) by (destruct c; vm_compute; reflexivity).
  rewrite Hreq. cbn [rq_Bootstrap needs]. destruct values as [|token [|]]; try done.
  destruct (String.eqb token ""); [done|]. intros (claims & w1 & E & (cn' & w2 & E2 & E3)%M_bind_ok)%M_bind_ok.
  rewrite call_run in E. destruct (Validate m token _ _ now1 now2 w) as [[cl|] wx] eqn:Hv; [|done]. injection E as -> _.
  apply Validate_sound in Hv as [Hv _]. injection E2 as Hcn _.
  unfold moduleTLSIdentity in Hcn. destruct commonName as [cn|]; [|done].
  destruct (String.eqb_spec (TrimSpace cn) "") as [|Hne]; [done|]. injection Hcn as <-.
  destruct (String.eqb_spec (TrimSpace cn) (cl_ModuleID claims)) as [Heq|]; [|done]. injection E3 as <- _.
  exists token, claims, cn. rewrite <- Heq. by split_and!.
Qed.

(** C18: The control plane changes a module's registration only on the module's
    own behalf: if a call that the interceptor lets through changes or removes
    a module, the client certificate names that module, and the call carried a
    token for it, signed, unexpired, backed by its live credential and with the
    permission of the call. *)
Theorem control_plane_changes_own_module `{Addresses} values commonName now1 now2 c r w r' w' id md :
  registry_ok r -> control_plane values commonName now1 now2 c r w = (Ok r', w') ->
  modules r !! id = Some md -> modules r' !! id <> Some md ->
  exists token claims cn, values = [token] /\ commonName = Some cn /\ cl_ModuleID claims = TrimSpace cn /\
    (m_Name md = TrimSpace cn \/ id = TrimSpace cn) /\
    authorized token "core.registry" (permission_of c) claims now1 now2 (w_db w).
Proof.
  intros Hok Hc Hmod Hdiff. unfold control_plane in Hc. apply M_bind_ok in Hc as (caller & w1 & Hi & E). injection E as <- <-.
  apply interceptor_sound in Hi as (token & claims & cn & ? & ? & Hcn & Hne & -> & Hauth). exists token, claims, cn.
  split_and!; try done. destruct (decide (m_Name md = TrimSpace cn)) as [|Hn]; [by left|].
  destruct (decide (id = TrimSpace cn)) as [|Hid]; [by right|]. exfalso. apply Hdiff.
  apply requests_isolated; try done. by left.
Qed.
End facts.

(** ** A concrete control plane *)

Module ModuleAuthWitness.
#[local] Existing Instance toy_primitives.

Definition mgr : Manager := {| mg_key := "key"; mg_ttl := (5 * minute)%Z |}.
Definition hash0 : string := Eval vm_compute in match HashPassword "raw" (Some "salt") with Ok h => h | Err _ => "" end.
Definition cred : Credential :=
  {| cr_ID := "c1"; cr_ModuleID := "mfa"; cr_SecretHash := hash0; cr_Permissions := ["registry:register"; "registry:deregister"];
     cr_Audiences := ["core.registry"]; cr_Enabled := true; cr_ExpiresAt := None |}.
Definition perms : list string := ["registry:deregister"].
Definition claims0 : Claims := Eval vm_compute in claims_for mgr cred "core.registry" perms second "0123456789abcdef".

(** A codec that knows these claims. *)
Lemma one_claim_round_trip c b : c = claims0 -> Some "p" = Some b -> Some claims0 = Some c.
Proof. by intros -> _. Qed.
#[local] Instance one_claim : ClaimsJson :=
  {| claims_Marshal := fun _ => Some "p"; claims_Decode := fun _ => Some claims0; utf8 := fun c => c = claims0;
     claims_round_trip := one_claim_round_trip |}.

Lemma exchanged_token_validates_witness :
  exists token, Exchange mgr "mfa" "raw" "core.registry" perms second second (Ok "0123456789abcdef") (World [cred] []) = (Ok (token, claims0), World [cred] []) /\
    Validate mgr token "core.registry" "registry:deregister" second second (World [cred] []) = (Ok claims0, World [cred] []).
Proof.
  apply (exchanged_token_validates mgr "mfa" "raw" "core.registry" perms cred [cred] "0123456789abcdef" "p" "registry:deregister" second second second second);
    try discriminate; try reflexivity; try (vm_compute; reflexivity); try (vm_compute; discriminate).
  - split; [reflexivity|]. split; [reflexivity|]. discriminate.
  - split; [reflexivity|]. split; [reflexivity|]. discriminate.
  - apply list_elem_of_In. vm_compute. auto.
  - intros q Hq. apply list_elem_of_In. apply list_elem_of_In in Hq. vm_compute in Hq |- *. tauto.
  - apply list_elem_of_In. vm_compute. auto.
Defined.

Definition token0 : string := Eval vm_compute in
  match (Exchange mgr "mfa" "raw" "core.registry" perms second second (Ok "0123456789abcdef") (World [cred] [])).1 with
  | Ok (t, _) => t
  | Err _ => ""
  end.
Definition revoked_db : world cred_db := (Revoke "mfa" (World [cred] [])).2.
Lemma revoked_module_is_locked_out_witness :
  let again := Validate mgr token0 "core.registry" "registry:deregister" second second (World (w_db revoked_db) []) in
  again <> (Ok claims0, again.2).
Proof.
  intros again Hv.
  apply (proj1 (revoked_module_is_locked_out mgr "mfa" (World [cred] []) revoked_db [] second second []
    ltac:(vm_compute; reflexivity) ltac:(constructor)) _ _ _ _ _ Hv). vm_compute. reflexivity.
Defined.

(** A module removes its registration through the control plane. *)
#[local] Existing Instance RegistryWitness.names_only.
Definition after_call : Registry := grpc_serve "mfa" (CallDeregister "mfa" "mfa") RegistryWitness.r1.
Lemma control_plane_changes_own_module_witness :
  exists token claims cn, [token0] = [token] /\ Some "mfa" = Some cn /\ cl_ModuleID claims = TrimSpace cn /\
    (m_Name RegistryWitness.mfa = TrimSpace cn \/ "mfa" = TrimSpace cn) /\
    authorized mgr token "core.registry" "registry:deregister" claims second second [cred].
Proof.
  apply (control_plane_changes_own_module mgr [token0] (Some "mfa") second second (CallDeregister "mfa" "mfa") RegistryWitness.r1
    (World [cred] []) after_call (World [cred] []) "mfa" RegistryWitness.mfa).
  - apply (registry_ok_Register (RegistryWitness.request "mfa" RegistryWitness.three "http://B") 1 New).
    intros id' m'. cbn. by rewrite lookup_empty.
  - vm_compute. reflexivity.
  - vm_compute. reflexivity.
  - vm_compute. discriminate.
Defined.
End ModuleAuthWitness.
