(* ===== verification/Password.v ===== *)
(** modules/password: credentials and their history (store/store.go with its
    migration) and the rules passwords must meet (service/service.go).

    The hasher is an interface with the law the service relies on; the one the
    server installs (cmd/aegion/auth_flows.go) meets it.  The classes of the
    package [unicode] ([Runes]) and the answers of the breach database
    ([hibp]) are parameters. *)

From Stdlib Require Import Ascii String.
From S2P Require Import GoPath.
From S2P Require Import Prelude GoStrings GoEncoding GoSha256 PlatformCrypto CryptoFields GoOtp.

Local Open Scope string_scope.

(** ** The store (store.go) *)

Record Credential : Type := {
  cr_ID : uuid; cr_IdentityID : uuid; cr_Identifier : string; cr_Hash : string;
  cr_CreatedAt : time; cr_UpdatedAt : time;
}.

Record cred_row : Type := {
  p_identity : uuid; p_identifier : string; p_hash : string; p_created : time; p_updated : time;
}.
Record hist_row : Type := { h_credential : uuid; h_hash : string; h_created : time }.

(** The two tables, and the identities the foreign key refers to. *)
Record pwd_db : Type := { t_creds : gmap N cred_row; t_history : gmap N hist_row; t_ids : gset N }.
Definition with_creds (db : pwd_db) c : pwd_db := {| t_creds := c; t_history := t_history db; t_ids := t_ids db |}.
Definition with_history (db : pwd_db) h : pwd_db := {| t_creds := t_creds db; t_history := h; t_ids := t_ids db |}.

Inductive store_error : Type :=
| ErrCredentialNotFound
| ErrCredentialExists
| StoreDb (e : db_error).
#[global] Instance store_db_err : DbErr store_error := StoreDb.

(** [err.Error()]: the text of pgx's errors, and of a failure of the driver. *)
Definition quoted (s : string) : string := String "034" (s +:+ String "034" "").
Definition error_text (e : db_error) : string :=
  match e with
  | DbFault msg => msg
  | NoRows => "no rows in result set"
  | CheckViolation c => "ERROR: new row violates check constraint " +:+ quoted c +:+ " (SQLSTATE 23514)"
  | UniqueViolation c => "ERROR: duplicate key value violates unique constraint " +:+ quoted c +:+ " (SQLSTATE 23505)"
  | ForeignKeyViolation c => "ERROR: insert or update violates foreign key constraint " +:+ quoted c +:+ " (SQLSTATE 23503)"
  | NotNullViolation c => "ERROR: null value in column " +:+ quoted c +:+ " violates not-null constraint (SQLSTATE 23502)"
  end.

(** The loop over the positions from which [substr] still fits. *)
Definition containsHelper (s substr : string) : bool :=
  existsb (fun i => String.eqb (str_take (String.length substr) (str_drop i s)) substr)
    (seq 0 (S (String.length s) - String.length substr)).
Definition contains (s substr : string) : bool :=
  (String.length substr <=? String.length s)%nat &&
  (String.eqb s substr || ((0 <? String.length s)%nat && containsHelper s substr)).
Definition isDuplicateKeyError (err : option db_error) : bool :=
  match err with
  | None => false
  | Some e => negb (String.eqb (error_text e) "") && (contains (error_text e) "duplicate key" || contains (error_text e) "23505")
  end.

Definition cred_of_row (id : uuid) (r : cred_row) : Credential :=
  {| cr_ID := id; cr_IdentityID := p_identity r; cr_Identifier := p_identifier r; cr_Hash := p_hash r;
     cr_CreatedAt := p_created r; cr_UpdatedAt := p_updated r |}.

Definition insert_cred (c : Credential) (db : pwd_db) : result db_error (unit * pwd_db) :=
  if bool_decide (is_Some (t_creds db !! cr_ID c)) then Err (UniqueViolation "pwd_credentials_pkey")
  else if existsb (fun kv => String.eqb (p_identifier kv.2) (cr_Identifier c)) (map_to_list (t_creds db))
  then Err (UniqueViolation "idx_pwd_credentials_identifier")
  else if negb (bool_decide (cr_IdentityID c ∈ t_ids db)) then Err (ForeignKeyViolation "fk_pwd_credentials_identity")
  else Ok (tt, with_creds db (<[cr_ID c := {| p_identity := cr_IdentityID c; p_identifier := cr_Identifier c;
         p_hash := cr_Hash c; p_created := cr_CreatedAt c; p_updated := cr_UpdatedAt c |}]> (t_creds db))).

Definition dup_or_db (e : store_error) : store_error :=
  match e with StoreDb d => if isDuplicateKeyError (Some d) then ErrCredentialExists else StoreDb d | _ => e end.
Definition Create (c : Credential) : M pwd_db store_error unit := call dup_or_db (db_stmt (insert_cred c)).

(** QueryRow: the first of the rows the query lists. *)
Definition first_cred `{ScanOrder} (p : cred_row -> bool) (db : pwd_db) : option Credential :=
  (fun kv => cred_of_row kv.1 kv.2) <$> head (List.filter (fun kv => p kv.2) (scan (t_creds db))).
Definition found (c : option Credential) : M pwd_db store_error Credential :=
  match c with Some c => mret c | None => throw ErrCredentialNotFound end.

Definition GetByIdentifier `{ScanOrder} (identifier : string) : M pwd_db store_error Credential :=
  c ← db_stmt (fun db => Ok (first_cred (fun r => String.eqb (p_identifier r) identifier) db, db));
  found c.

Definition GetByIdentityID `{ScanOrder} (identityID : uuid) : M pwd_db store_error Credential :=
  c ← db_stmt (fun db => Ok (first_cred (fun r => (p_identity r =? identityID)%N) db, db));
  found c.

Definition set_hash (h : string) (now : time) (r : cred_row) : cred_row :=
  {| p_identity := p_identity r; p_identifier := p_identifier r; p_hash := h; p_created := p_created r; p_updated := now |}.
Definition Update (credID : uuid) (newHash : string) (dbnow : time) : M pwd_db store_error unit :=
  affected ← db_stmt (fun db =>
    match t_creds db !! credID with
    | Some r => Ok (true, with_creds db (<[credID := set_hash newHash dbnow r]> (t_creds db)))
    | None => Ok (false, db)
    end);
  if affected : bool then mret tt else throw ErrCredentialNotFound.

(** Deleting credentials takes their history along. *)
Definition delete_creds (p : N * cred_row -> bool) (db : pwd_db) : pwd_db :=
  let kept := filter (fun kv => p kv = false) (t_creds db) in
  {| t_creds := kept; t_history := filter (fun kv => is_Some (kept !! h_credential kv.2)) (t_history db); t_ids := t_ids db |}.
Definition Delete (credID : uuid) : M pwd_db store_error unit :=
  db_stmt (fun db => Ok (tt, delete_creds (fun kv => (kv.1 =? credID)%N) db)).
Definition DeleteByIdentityID (identityID : uuid) : M pwd_db store_error unit :=
  db_stmt (fun db => Ok (tt, delete_creds (fun kv => (p_identity kv.2 =? identityID)%N) db)).

(** [newID]: the identifier gen_random_uuid gives the row. *)
Definition AddToHistory (credID : uuid) (hash : string) (newID : uuid) (dbnow : time) : M pwd_db store_error unit :=
  db_stmt (fun db =>
    if bool_decide (is_Some (t_history db !! newID)) then Err (UniqueViolation "pwd_history_pkey")
    else if negb (bool_decide (is_Some (t_creds db !! credID))) then Err (ForeignKeyViolation "pwd_history_credential_id_fkey")
    else Ok (tt, with_history db (<[newID := {| h_credential := credID; h_hash := hash; h_created := dbnow |}]> (t_history db)))).

(** WHERE credential_id = $1 ORDER BY created_at DESC. *)
Definition history_of `{ScanOrder} (credID : uuid) (db : pwd_db) : list (N * hist_row) :=
  sort_by (fun a b => (h_created b.2 <=? h_created a.2)%Z)
    (List.filter (fun kv => (h_credential kv.2 =? credID)%N) (scan (t_history db))).
(** LIMIT $2. *)
Definition newest_of `{ScanOrder} (credID : uuid) (limit : Z) (db : pwd_db) : result db_error (list (N * hist_row)) :=
  if (limit <? 0)%Z then Err (DbFault "ERROR: LIMIT must not be negative (SQLSTATE 2201W)")
  else Ok (take (Z.to_nat limit) (history_of credID db)).

Definition GetHistory `{ScanOrder} (credID : uuid) (limit : Z) : M pwd_db store_error (list string) :=
  let limit := if (limit =? 0)%Z then 5%Z else limit in
  db_stmt (fun db => match newest_of credID limit db with Ok rows => Ok (h_hash <$> rows.*2, db) | Err e => Err e end).

Definition CleanupHistory `{ScanOrder} (credID : uuid) (keepCount : Z) : M pwd_db store_error unit :=
  db_stmt (fun db =>
    match newest_of credID keepCount db with
    | Err e => Err e
    | Ok rows =>
        Ok (tt, with_history db
          (filter (fun kv => (h_credential kv.2 =? credID)%N && negb (bool_decide (kv.1 ∈ rows.*1)) = false) (t_history db)))
    end).

(** ** What the service calls *)

(** The random source gives the number of bytes it is asked for, or fails. *)
Definition drawn (salt : option string) : Prop := match salt with Some s => String.length s = argonSaltSize | None => True end.

(** The hasher: the second argument of [Hash] is what the random source
    gives.  A hash is accepted for the password it was made from. *)
Class Hasher := {
  Hash : string -> option string -> result string string;
  HVerify : string -> string -> result string bool;
  Hash_Verify : forall password salt h,
    drawn salt -> Hash password salt = Ok h -> HVerify password h = Ok true;
}.

(** runtimePasswordHasher (cmd/aegion/auth_flows.go). *)
Module runtimePasswordHasher.
Section hasher.
Context `{Primitives}.
Definition hash_failed {A} (r : result crypto_error A) : result string A :=
  match r with Ok a => Ok a | Err _ => Err "crypto" end.
Definition Hash (password : string) (salt : option string) : result string string :=
  hash_failed (HashPassword password salt).
Definition Verify (password hash : string) : result string bool := hash_failed (VerifyPassword password hash).

Lemma Hash_accepted password salt h :
  drawn salt -> Hash password salt = Ok h -> Verify password h = Ok true.
Proof.
  unfold Hash, Verify. intros Hs Hh. destruct salt as [salt|]; [|done]. cbn in Hs.
  destruct (HashPassword password (Some salt)) as [h'|] eqn:E; [|done].
  injection Hh as <-. rewrite (password_hash_verifies password password salt h'); [by rewrite bool_decide_true| |done].
  by intros ->.
Qed.

Definition hasher : Hasher := {| Password.Hash := Hash; HVerify := Verify; Hash_Verify := Hash_accepted |}.
End hasher.
End runtimePasswordHasher.

(** The classes of the package [unicode]. *)
Class Runes := { IsUpper : Z -> bool; IsLower : Z -> bool; IsNumber : Z -> bool; IsPunct : Z -> bool; IsSymbol : Z -> bool }.

(** What becomes of a request to the breach database: it cannot be built, it
    is not answered, or it is answered with a status and a body ([None] when
    reading the body fails). *)
Inductive hibp_reply : Type :=
| NewRequestFailed (e : string)
| DoFailed (e : string)
| Replied (status : Z) (body : option string).

(** ** The service (service.go) *)

Module Service.

Inductive svc_error : Type :=
| ErrPasswordTooShort
| ErrPasswordTooWeak
| ErrPasswordBreached
| ErrPasswordReused
| ErrPasswordSimilar
| ErrInvalidCredentials
| ErrIdentityNotFound
| SvcHash (e : string)
| SvcVerify (e : string)
| SvcHibp (e : string)
| SvcStore (e : store_error).

Record Config : Type := {
  MinLength : Z;
  RequireUppercase : bool;
  RequireLowercase : bool;
  RequireNumber : bool;
  RequireSpecial : bool;
  HIBPEnabled : bool;
  HIBPTimeout : duration;
  HIBPBaseURL : string;
  HIBPIgnoreNetworkErrors : bool;
  HIBPMinBreachCount : Z;
  HistoryCount : Z;
}.

Definition zero_or (z dflt : Z) : Z := if (z =? 0)%Z then dflt else z.
Definition New (c : Config) : Config :=
  {| MinLength := zero_or (MinLength c) 8;
     RequireUppercase := RequireUppercase c; RequireLowercase := RequireLowercase c;
     RequireNumber := RequireNumber c; RequireSpecial := RequireSpecial c;
     HIBPEnabled := HIBPEnabled c;
     HIBPTimeout := zero_or (HIBPTimeout c) (5 * second);
     HIBPBaseURL := if String.eqb (HIBPBaseURL c) "" then "https://api.pwnedpasswords.com/range/" else HIBPBaseURL c;
     HIBPIgnoreNetworkErrors := if negb (HIBPEnabled c) then true else HIBPIgnoreNetworkErrors c;
     HIBPMinBreachCount := zero_or (HIBPMinBreachCount c) 1;
     HistoryCount := zero_or (HistoryCount c) 5 |}.

(** The runes a [range] over a string yields; every step takes at least one
    byte, so the length is enough fuel. *)
Fixpoint runes_loop (fuel : nat) (s : string) : list Z :=
  match fuel with
  | O => []
  | S fuel => if String.eqb s "" then [] else let '(c, w) := DecodeRune s in c :: runes_loop fuel (str_drop w s)
  end.
Definition runes (s : string) : list Z := runes_loop (String.length s) s.

(** Which classes have been seen. *)
Record classes : Type := { hasUpper : bool; hasLower : bool; hasNumber : bool; hasSpecial : bool }.
Definition classify `{Runes} (k : classes) (c : Z) : classes :=
  if IsUpper c then {| hasUpper := true; hasLower := hasLower k; hasNumber := hasNumber k; hasSpecial := hasSpecial k |}
  else if IsLower c then {| hasUpper := hasUpper k; hasLower := true; hasNumber := hasNumber k; hasSpecial := hasSpecial k |}
  else if IsNumber c then {| hasUpper := hasUpper k; hasLower := hasLower k; hasNumber := true; hasSpecial := hasSpecial k |}
  else if IsPunct c || IsSymbol c
  then {| hasUpper := hasUpper k; hasLower := hasLower k; hasNumber := hasNumber k; hasSpecial := true |}
  else k.
Definition no_classes : classes := {| hasUpper := false; hasLower := false; hasNumber := false; hasSpecial := false |}.

Definition checkComplexity `{Runes} (cfg : Config) (password : string) : result svc_error unit :=
  let k := fold_left classify (runes password) no_classes in
  if RequireUppercase cfg && negb (hasUpper k) then Err ErrPasswordTooWeak
  else if RequireLowercase cfg && negb (hasLower k) then Err ErrPasswordTooWeak
  else if RequireNumber cfg && negb (hasNumber k) then Err ErrPasswordTooWeak
  else if RequireSpecial cfg && negb (hasSpecial k) then Err ErrPasswordTooWeak
  else Ok tt.

(** The part before the first [@], unless that is empty. *)
Definition username_part (identifier : string) : string :=
  match String.index 0 "@" identifier with
  | Some (S idx) => str_take (S idx) identifier
  | _ => identifier
  end.

Definition checkSimilarity (password identifier : string) : result svc_error unit :=
  if String.eqb identifier "" then Ok tt
  else
    let passwordLower := ToLower password in
    let identifierLower := username_part (ToLower identifier) in
    if (String.length identifierLower <? 3)%nat then Ok tt
    else if Contains passwordLower identifierLower || Contains identifierLower passwordLower
    then Err ErrPasswordSimilar
    else Ok tt.

Definition tolerated (cfg : Config) (e : string) : result svc_error unit :=
  if HIBPIgnoreNetworkErrors cfg then Ok tt else Err (SvcHibp e).

(** A line of the answer that counts the suffix as breached. *)
Definition breach_line (cfg : Config) (suffix line : string) : bool :=
  match Split (TrimSpace line) ":" with
  | part0 :: part1 :: _ =>
      EqualFold part0 suffix &&
      match ParseInt (TrimSpace part1) with
      | Some count => (HIBPMinBreachCount cfg <=? count)%Z
      | None => false
      end
  | _ => false
  end.

Definition hibp_hash (password : string) : string := ToUpper (hex_EncodeToString (sha1 password)).
Definition hibp_url (cfg : Config) (prefix : string) : string :=
  trim_right (Ascii.eqb "/") (HIBPBaseURL cfg) +:+ "/" +:+ prefix.

Definition checkHIBP (cfg : Config) (hibp : string -> hibp_reply) (password : string) : result svc_error unit :=
  let hashStr := hibp_hash password in
  let prefix := str_take 5 hashStr in
  let suffix := str_drop 5 hashStr in
  match hibp (hibp_url cfg prefix) with
  | NewRequestFailed e | DoFailed e => tolerated cfg e
  | Replied status body =>
      if negb (status =? 200)%Z then tolerated cfg ("hibp request failed with status " +:+ FormatInt status)
      else match body with
      | None => tolerated cfg "failed to read hibp response"
      | Some body => if existsb (breach_line cfg suffix) (Split body "010") then Err ErrPasswordBreached else Ok tt
      end
  end.

(** HIBPBaseURLFromHost; [parsed]: url.Parse as the path of the URL and the
    text of the URL with another path. *)
Definition HIBPBaseURLFromHost (parsed : string -> option (string * (string -> string))) (host : string) : string :=
  let h := TrimSpace host in
  if String.eqb h "" then "https://api.pwnedpasswords.com/range/"
  else
    let bare := "https://" +:+ trim (Ascii.eqb "/") h +:+ "/range/" in
    if HasPrefix h "http://" || HasPrefix h "https://" then
      match parsed h with
      | Some (path, with_path) => with_path (trim_right (Ascii.eqb "/") path +:+ "/range/")
      | None => bare
      end
    else bare.

Section service.
Context `{Hasher} `{Runes} `{ScanOrder} (cfg : Config) (hibp : string -> hibp_reply).

Abbreviation SM := (M pwd_db svc_error).

Definition ValidatePassword (password identifier : string) : result svc_error unit :=
  if (Z.of_nat (String.length password) <? MinLength cfg)%Z then Err ErrPasswordTooShort
  else match checkComplexity cfg password with
  | Err e => Err e
  | Ok _ =>
      match checkSimilarity password identifier with
      | Err e => Err e
      | Ok _ => if HIBPEnabled cfg then checkHIBP cfg hibp password else Ok tt
      end
  end.

Definition hashed (password : string) (salt : option string) : SM string :=
  match Hash password salt with Ok h => mret h | Err e => throw (SvcHash e) end.

Definition Register (identityID : uuid) (identifier password : string)
    (salt : option string) (newID : uuid) (now1 now2 : time) : SM unit :=
  lift_result (ValidatePassword password identifier) ≫= fun _ =>
  hash ← hashed password salt;
  call SvcStore (Create {| cr_ID := newID; cr_IdentityID := identityID; cr_Identifier := ToLower identifier;
                           cr_Hash := hash; cr_CreatedAt := now1; cr_UpdatedAt := now2 |}).

(** The dummy hash of the branch without a credential has no effect. *)
Definition Verify (identifier password : string) : SM uuid :=
  cred ← call (fun e => match e with ErrCredentialNotFound => ErrInvalidCredentials | _ => SvcStore e end)
           (GetByIdentifier (ToLower identifier));
  match HVerify password (cr_Hash cred) with
  | Err e => throw (SvcVerify e)
  | Ok valid => if negb valid then throw ErrInvalidCredentials else mret (cr_IdentityID cred)
  end.

Definition own_credential (identityID : uuid) : SM Credential :=
  call (fun e => match e with ErrCredentialNotFound => ErrIdentityNotFound | _ => SvcStore e end) (GetByIdentityID identityID).

Definition accepts (password hash : string) : bool :=
  match HVerify password hash with Ok valid => valid | Err _ => false end.

Definition checkHistory (credID : uuid) (password : string) : SM unit :=
  history ← call SvcStore (GetHistory credID (HistoryCount cfg));
  if existsb (accepts password) history then throw ErrPasswordReused else mret tt.

(** What a request draws: the salt, the identifier of the history row and the
    clocks of the two statements. *)
Record draws : Type := { d_salt : option string; d_hist : uuid; d_now1 : time; d_now2 : time }.

(** From the rules to the new hash, as both callers do it. *)
Definition replace_password (cred : Credential) (newPassword : string) (d : draws) : SM unit :=
  lift_result (ValidatePassword newPassword (cr_Identifier cred)) ≫= fun _ =>
  checkHistory (cr_ID cred) newPassword ≫= fun _ =>
  newHash ← hashed newPassword (d_salt d);
  call SvcStore (AddToHistory (cr_ID cred) (cr_Hash cred) (d_hist d) (d_now1 d)) ≫= fun _ =>
  call SvcStore (Update (cr_ID cred) newHash (d_now2 d)).

Definition ChangePassword (identityID : uuid) (oldPassword newPassword : string) (d : draws) : SM unit :=
  cred ← own_credential identityID;
  if negb (accepts oldPassword (cr_Hash cred)) then throw ErrInvalidCredentials
  else
    replace_password cred newPassword d ≫= fun _ =>
    call SvcStore (CleanupHistory (cr_ID cred) (HistoryCount cfg)).

Definition ResetPassword (identityID : uuid) (newPassword : string) (d : draws) : SM unit :=
  cred ← own_credential identityID;
  replace_password cred newPassword d.

Definition DeletePasswords (identityID : uuid) : SM unit := call SvcStore (DeleteByIdentityID identityID).

End service.
End Service.
