(* ===== verification/PasswordFacts.v ===== *)
(** modules/password: the service refines a table of accounts, recently replaced
    passwords are refused, what the rules accept, and concrete runs. *)

From Stdlib Require Import Ascii String.
From S2P Require Import GoPath.
From S2P Require Import Prelude GoStrings GoEncoding GoSha256 PlatformCrypto CryptoFields GoOtp Password.

Local Open Scope string_scope.
Import Service.

(** The requests that change the tables, with what they draw. *)
Inductive op : Type :=
| ORegister (identityID : uuid) (identifier password : string) (salt : option string) (newID : uuid) (now1 now2 : time)
| OChange (identityID : uuid) (oldPassword newPassword : string) (d : draws)
| OReset (identityID : uuid) (newPassword : string) (d : draws)
| ODelete (identityID : uuid).

Definition op_drawn (o : op) : Prop :=
  match o with
  | ORegister _ _ _ salt _ _ _ => drawn salt
  | OChange _ _ _ d | OReset _ _ d => drawn (d_salt d)
  | ODelete _ => True
  end.

Section accounts.
Context `{Hasher} `{Runes} `{ScanOrder} (cfg : Config) (hibp : string -> hibp_reply).

Definition exec (o : op) : M pwd_db svc_error unit :=
  match o with
  | ORegister i ident pw salt id n1 n2 => Register cfg hibp i ident pw salt id n1 n2
  | OChange i old new d => ChangePassword cfg hibp i old new d
  | OReset i new d => ResetPassword cfg hibp i new d
  | ODelete i => DeletePasswords i
  end.

(** ** Accounts: the identity and the current password of an identifier *)

Abbreviation accounts := (gmap string (uuid * string)).

(** Two passwords some stored hash cannot tell apart. *)
Definition confusable (p q : string) : Prop := exists h, HVerify p h = Ok true /\ HVerify q h = Ok true.

(** One request on the accounts; the flag says whether it reports success. *)
Inductive account_step : op -> bool -> accounts -> accounts -> Prop :=
| step_register acc i ident pw salt id n1 n2 :
    acc !! ToLower ident = None ->
    account_step (ORegister i ident pw salt id n1 n2) true acc (<[ToLower ident := (i, pw)]> acc)
| step_change acc i ident cur old new d reported :
    acc !! ident = Some (i, cur) -> confusable old cur ->
    account_step (OChange i old new d) reported acc (<[ident := (i, new)]> acc)
| step_reset acc i ident cur new d :
    acc !! ident = Some (i, cur) ->
    account_step (OReset i new d) true acc (<[ident := (i, new)]> acc)
| step_delete acc i :
    account_step (ODelete i) true acc (filter (fun kv => kv.2.1 <> i) acc)
| step_refused acc o :
    account_step o false acc acc.

(** The credentials hold the accounts: one row per identifier, whose hash
    accepts the current password. *)
Record implements (db : pwd_db) (acc : accounts) : Prop := {
  im_row : forall id row, t_creds db !! id = Some row ->
    exists p, acc !! p_identifier row = Some (p_identity row, p) /\ HVerify p (p_hash row) = Ok true;
  im_account : forall ident ip, acc !! ident = Some ip -> exists id row, t_creds db !! id = Some row /\ p_identifier row = ident;
  im_unique : forall id1 id2 r1 r2, t_creds db !! id1 = Some r1 -> t_creds db !! id2 = Some r2 ->
    p_identifier r1 = p_identifier r2 -> id1 = id2;
}.

(** ** What the statements do *)

Lemma first_cred_some p db c :
  first_cred p db = Some c -> exists row, t_creds db !! cr_ID c = Some row /\ c = cred_of_row (cr_ID c) row /\ p row = true.
Proof.
  unfold first_cred. intros ([id row] & Hh & ->)%fmap_Some. apply head_Some_elem_of in Hh.
  apply list_elem_of_In, List.filter_In in Hh as [Hin Hp]. apply list_elem_of_In in Hin. rewrite scan_perm in Hin.
  apply elem_of_map_to_list in Hin. by exists row.
Qed.

Lemma first_cred_none p db id row : first_cred p db = None -> t_creds db !! id = Some row -> p row = false.
Proof.
  unfold first_cred. intros Hn Hr. apply fmap_None in Hn. destruct (p row) eqn:Hp; [|done]. exfalso.
  assert (Hin : (id, row) ∈ List.filter (fun kv => p kv.2) (scan (t_creds db))).
  { apply list_elem_of_In, List.filter_In. split; [|done]. apply list_elem_of_In. rewrite scan_perm.
    by apply elem_of_map_to_list. }
  destruct (List.filter _ _); [by apply not_elem_of_nil in Hin|done].
Qed.

(** A look-up changes nothing and finds a stored row, or none. *)
Lemma lookup_run p w r w' :
  (c ← db_stmt (fun db => Ok (first_cred p db, db)); found c) w = (r, w') ->
  w_db w' = w_db w /\
  match r with
  | Ok c => exists row, t_creds (w_db w) !! cr_ID c = Some row /\ c = cred_of_row (cr_ID c) row /\ p row = true
  | Err ErrCredentialNotFound => forall id row, t_creds (w_db w) !! id = Some row -> p row = false
  | Err ErrCredentialExists => False
  | Err (StoreDb _) => True
  end.
Proof.
  rewrite M_bind_run. unfold db_stmt.
  assert (Hgo : forall fs, found (first_cred p (w_db w)) (World (w_db w) fs) = (r, w') -> w_db w' = w_db w /\
    match r with
    | Ok c => exists row, t_creds (w_db w) !! cr_ID c = Some row /\ c = cred_of_row (cr_ID c) row /\ p row = true
    | Err ErrCredentialNotFound => forall id row, t_creds (w_db w) !! id = Some row -> p row = false
    | Err ErrCredentialExists => False
    | Err (StoreDb _) => True
    end).
  { intros fs. destruct (first_cred p (w_db w)) as [c|] eqn:E; cbn; intros [= <- <-]; (split; [done|]).
    - by apply first_cred_some.
    - intros id row Hr. by eapply first_cred_none. }
  destruct (w_faults w) as [|[e|] fs]; [by apply Hgo|cbn; by intros [= <- <-]|by apply Hgo].
Qed.

Lemma own_credential_run i w r w' :
  own_credential i w = (r, w') ->
  w_db w' = w_db w /\
  match r with
  | Ok c => exists row, t_creds (w_db w) !! cr_ID c = Some row /\ c = cred_of_row (cr_ID c) row /\ p_identity row = i
  | Err _ => True
  end.
Proof.
  unfold own_credential, GetByIdentityID. rewrite call_run.
  match goal with |- context [match ?m with _ => _ end] => destruct m as [[c|e] w1] eqn:E end; intros [= <- <-].
  - apply lookup_run in E as (-> & row & Hr & Hc & Hp). split; [done|]. exists row. by apply N.eqb_eq in Hp.
  - by apply lookup_run in E as (-> & _).
Qed.

Lemma checkHistory_run c pw w r w' : checkHistory cfg c pw w = (r, w') -> w_db w' = w_db w.
Proof.
  unfold checkHistory. rewrite M_bind_run, call_run. unfold GetHistory.
  destruct (db_stmt _ w) as [[hs|e] w1] eqn:E; apply db_stmt_cases in E as [(a & Ha & Hs)|(e' & He & Hw)]; try done.
  - destruct (newest_of _ _ _); [|done]. injection Hs as _ Hs. destruct (existsb _ _); intros [= <- <-]; done.
  - by intros [= <- <-].
Qed.

(** The rows after a password was replaced. *)
Definition replaced (cred : Credential) (newPassword : string) (d : draws) (db db' : pwd_db) : Prop :=
  exists row h, t_creds db !! cr_ID cred = Some row /\ Hash newPassword (d_salt d) = Ok h /\
    t_creds db' = <[cr_ID cred := set_hash h (d_now2 d) row]> (t_creds db).

Lemma AddToHistory_creds c h id now w r w' :
  AddToHistory c h id now w = (r, w') -> t_creds (w_db w') = t_creds (w_db w).
Proof.
  unfold AddToHistory. intros [(a & -> & Hs)|(e & -> & ->)]%db_stmt_cases; [|done].
  destruct (bool_decide _); [done|]. destruct (negb _); [done|]. by injection Hs as _ <-.
Qed.
Lemma CleanupHistory_creds c k w r w' : CleanupHistory c k w = (r, w') -> t_creds (w_db w') = t_creds (w_db w).
Proof.
  unfold CleanupHistory. intros [(a & -> & Hs)|(e & -> & ->)]%db_stmt_cases; [|done].
  destruct (newest_of _ _ _); [|done]. by injection Hs as _ <-.
Qed.
Lemma Update_run c h now w r w' :
  Update c h now w = (r, w') ->
  match r with
  | Ok _ => exists row, t_creds (w_db w) !! c = Some row /\ t_creds (w_db w') = <[c := set_hash h now row]> (t_creds (w_db w))
  | Err _ => t_creds (w_db w') = t_creds (w_db w)
  end.
Proof.
  unfold Update. rewrite M_bind_run. destruct (db_stmt _ w) as [[a|e] w1] eqn:E;
    apply db_stmt_cases in E as [(a' & Ha & Hs)|(e' & He & Hw)]; try done.
  - destruct (t_creds (w_db w) !! c) as [row|] eqn:Hr; injection Hs as <- Hs; injection Ha as ->; intros [= <- <-].
    + exists row. split; [done|]. by rewrite <- Hs.
    + by rewrite <- Hs.
  - intros [= <- <-]. by rewrite Hw.
Qed.

Lemma replace_password_run cred new d w r w' :
  replace_password cfg hibp cred new d w = (r, w') ->
  match r with
  | Ok _ => replaced cred new d (w_db w) (w_db w')
  | Err _ => t_creds (w_db w') = t_creds (w_db w)
  end.
Proof.
  unfold replace_password. rewrite M_bind_run. unfold lift_result.
  destruct (ValidatePassword _ _ _ _) as [u|e]; [|by intros [= <- <-]].
  rewrite M_bind_run. destruct (checkHistory _ _ _ w) as [rh w1] eqn:E1. apply checkHistory_run in E1.
  destruct rh as [u1|e]; [|intros [= <- <-]; by rewrite E1]. rewrite M_bind_run. unfold hashed.
  destruct (Hash new (d_salt d)) as [h|e] eqn:Eh; [|intros [= <- <-]; by rewrite E1].
  rewrite M_ret_run, M_bind_run, call_run. destruct (AddToHistory _ _ _ _ w1) as [ra w2] eqn:E2.
  apply AddToHistory_creds in E2. rewrite E1 in E2. destruct ra as [u2|e]; [|intros [= <- <-]; done].
  rewrite call_run. destruct (Update _ _ _ w2) as [ru w3] eqn:E3. apply Update_run in E3. rewrite E2 in E3.
  destruct ru as [u3|e]; intros [= <- <-]; [|done]. destruct E3 as (row & Hr & Hw3). by exists row, h.
Qed.

(** ** The refinement *)

Lemma implements_put db db' acc id row i pw :
  implements db acc -> t_creds db' = <[id := row]> (t_creds db) ->
  p_identity row = i -> HVerify pw (p_hash row) = Ok true ->
  (forall id2 r2, t_creds db !! id2 = Some r2 -> p_identifier r2 = p_identifier row -> id2 = id) ->
  (forall old, t_creds db !! id = Some old -> p_identifier old = p_identifier row) ->
  implements db' (<[p_identifier row := (i, pw)]> acc).
Proof.
  intros [Hr Ha Hu] Hdb Hi Hv Hone Hsame. split; rewrite Hdb.
  - intros id1 r1 [[<- <-]|[Hne Hl]]%lookup_insert_Some.
    + exists pw. by rewrite lookup_insert_eq, Hi.
    + destruct (Hr _ _ Hl) as (p & Hp & Hv1). exists p. rewrite lookup_insert_ne; [done|].
      intros Heq. apply Hne. symmetry. by eapply Hone.
  - intros ident ip [[<- _]|[Hne Hl]]%lookup_insert_Some.
    + exists id, row. by rewrite lookup_insert_eq.
    + destruct (Ha _ _ Hl) as (id1 & r1 & Hl1 & <-). exists id1, r1. rewrite lookup_insert_ne; [done|].
      intros <-. apply Hne. symmetry. by apply Hsame.
  - intros id1 id2 r1 r2 [[<- <-]|[Hne1 Hl1]]%lookup_insert_Some [[<- <-]|[Hne2 Hl2]]%lookup_insert_Some Heq; [done| | |].
    + symmetry. by eapply Hone.
    + by eapply Hone.
    + by eapply Hu.
Qed.

Lemma implements_same db db' acc : implements db acc -> t_creds db' = t_creds db -> implements db' acc.
Proof. intros [Hr Ha Hu] Hdb. split; rewrite Hdb; [exact Hr|exact Ha|exact Hu]. Qed.

Lemma replaced_implements cred new d db db' acc row :
  implements db acc -> drawn (d_salt d) -> t_creds db !! cr_ID cred = Some row -> replaced cred new d db db' ->
  implements db' (<[p_identifier row := (p_identity row, new)]> acc).
Proof.
  intros Him Hd Hrow (row' & h & Hr & Hh & Hdb). simplify_eq.
  apply (implements_put db db' acc (cr_ID cred) (set_hash h (d_now2 d) row)); try done.
  - by eapply Hash_Verify.
  - intros id2 r2 Hl Heq. by eapply (im_unique _ _ Him id2 (cr_ID cred) r2 row).
  - intros old Hl. by simplify_eq.
Qed.

Lemma insert_credential_run c w r w' :
  Create c w = (r, w') ->
  match r with
  | Ok _ =>
      t_creds (w_db w) !! cr_ID c = None /\
      (forall id row, t_creds (w_db w) !! id = Some row -> p_identifier row <> cr_Identifier c) /\
      t_creds (w_db w') = <[cr_ID c := {| p_identity := cr_IdentityID c; p_identifier := cr_Identifier c;
         p_hash := cr_Hash c; p_created := cr_CreatedAt c; p_updated := cr_UpdatedAt c |}]> (t_creds (w_db w))
  | Err _ => t_creds (w_db w') = t_creds (w_db w)
  end.
Proof.
  unfold Create. rewrite call_run. destruct (db_stmt _ w) as [[u|e] w1] eqn:E;
    apply db_stmt_cases in E as [(a & Ha & Hs)|(e' & He & Hw)]; try done; intros [= <- <-].
  - unfold insert_cred in Hs. destruct (bool_decide _) eqn:E1; [done|]. destruct (existsb _ _) eqn:E2; [done|].
    destruct (negb _); [done|]. injection Hs as _ <-. apply bool_decide_eq_false, eq_None_not_Some in E1.
    split_and!; [done| |done]. intros id row Hr Heq. apply not_true_iff_false in E2. apply E2.
    apply existsb_exists. exists (id, row). split; [|by apply String.eqb_eq].
    by apply list_elem_of_In, elem_of_map_to_list.
  - by rewrite Hw.
Qed.

Lemma implements_account db acc ident : implements db acc ->
  (forall id row, t_creds db !! id = Some row -> p_identifier row <> ident) -> acc !! ident = None.
Proof.
  intros Him Hno. apply eq_None_not_Some. intros [ip Hip]. destruct (im_account _ _ Him _ _ Hip) as (id & row & Hr & Hid).
  by eapply Hno.
Qed.

Lemma Register_refines i ident pw salt id n1 n2 w r w' acc :
  implements (w_db w) acc -> drawn salt -> Register cfg hibp i ident pw salt id n1 n2 w = (r, w') ->
  exists acc', account_step (ORegister i ident pw salt id n1 n2) (is_ok r) acc acc' /\ implements (w_db w') acc'.
Proof.
  intros Him Hd. assert (Hno : forall e wx, t_creds (w_db wx) = t_creds (w_db w) -> (Err e, wx) = (r, w') ->
    exists acc', account_step (ORegister i ident pw salt id n1 n2) (is_ok r) acc acc' /\ implements (w_db w') acc').
  { intros e wx Hw [= <- <-]. exists acc. split; [constructor|]. by eapply implements_same. }
  unfold Register. rewrite M_bind_run. unfold lift_result. destruct (ValidatePassword _ _ _ _) as [u|e]; [|by apply Hno].
  rewrite M_bind_run. unfold hashed. destruct (Hash pw salt) as [h|e] eqn:Eh; [|by apply Hno].
  rewrite M_ret_run, call_run. destruct (Create _ w) as [rc w1] eqn:E. apply insert_credential_run in E.
  destruct rc as [u1|e]; [|by apply Hno]. intros [= <- <-]. destruct E as (Hn & Huniq & Hdb). cbn in Hn, Huniq.
  exists (<[ToLower ident := (i, pw)]> acc). split.
  - constructor. by eapply implements_account.
  - eapply (implements_put (w_db w) (w_db w1) acc id {| p_identifier := ToLower ident |}); try done.
    + by eapply Hash_Verify.
    + intros id2 r2 Hl Heq. by destruct (Huniq _ _ Hl).
    + intros old Hl. congruence.
Qed.

Lemma DeletePasswords_refines i w r w' acc :
  implements (w_db w) acc -> DeletePasswords i w = (r, w') ->
  exists acc', account_step (ODelete i) (is_ok r) acc acc' /\ implements (w_db w') acc'.
Proof.
  intros Him. unfold DeletePasswords, DeleteByIdentityID. rewrite call_run.
  destruct (db_stmt _ w) as [rd w1] eqn:E. apply db_stmt_cases in E as [(a & -> & Hs)|(e & -> & Hw)]; intros [= <- <-].
  - injection Hs as _ Hs. exists (filter (fun kv => kv.2.1 <> i) acc). split; [constructor|].
    assert (Hk : forall id row, t_creds (w_db w1) !! id = Some row <-> t_creds (w_db w) !! id = Some row /\ p_identity row <> i).
    { intros id row. rewrite <- Hs. cbn [t_creds delete_creds]. rewrite map_lookup_filter_Some. cbn.
      by rewrite N.eqb_neq. }
    destruct Him as [Hr Ha Hu]. split.
    + intros id row [Hl Hi]%Hk. destruct (Hr _ _ Hl) as (p & Hp & Hv). exists p. split; [|done].
      by apply map_lookup_filter_Some.
    + intros ident ip [Hl Hi]%map_lookup_filter_Some. cbn in Hi. destruct (Ha _ _ Hl) as (id & row & Hrow & Hid).
      exists id, row. split; [|done]. apply Hk. split; [done|]. destruct (Hr _ _ Hrow) as (p & Hp & _).
      rewrite Hid, Hl in Hp. by injection Hp as ->.
    + intros id1 id2 r1 r2 [Hl1 _]%Hk [Hl2 _]%Hk. by eapply Hu.
  - exists acc. split; [constructor|]. eapply implements_same; [exact Him|]. by rewrite Hw.
Qed.

Lemma account_of_row db acc id row :
  implements db acc -> t_creds db !! id = Some row ->
  exists p, acc !! p_identifier row = Some (p_identity row, p) /\ HVerify p (p_hash row) = Ok true.
Proof. intros Him. apply (im_row _ _ Him). Qed.

Lemma accepts_true p h : accepts p h = true <-> HVerify p h = Ok true.
Proof. unfold accepts. destruct (HVerify p h) as [[]|]; split; by intros [=]. Qed.

Lemma password_exec_refines o w r w' acc :
  implements (w_db w) acc -> op_drawn o -> exec o w = (r, w') ->
  exists acc', account_step o (is_ok r) acc acc' /\ implements (w_db w') acc'.
Proof.
  intros Him Hd. destruct o as [i ident pw salt id n1 n2|i old new d|i new d|i]; cbn [exec op_drawn] in *.
  - by apply Register_refines.
  - assert (Hno : forall e wx, t_creds (w_db wx) = t_creds (w_db w) -> (Err e, wx) = (r, w') ->
      exists acc', account_step (OChange i old new d) (is_ok r) acc acc' /\ implements (w_db w') acc').
    { intros e wx Hw [= <- <-]. exists acc. split; [constructor|]. by eapply implements_same. }
    unfold ChangePassword. rewrite M_bind_run. destruct (own_credential i w) as [rc w1] eqn:E1.
    apply own_credential_run in E1 as [Hw1 Hc]. destruct rc as [cred|e]; [|apply Hno; by rewrite Hw1].
    destruct Hc as (row & Hrow & Hcred & Hi). destruct (accepts old (cr_Hash cred)) eqn:Ha; [|apply Hno; by rewrite Hw1].
    cbn [negb]. rewrite M_bind_run. destruct (replace_password _ _ cred new d w1) as [rp w2] eqn:E2.
    apply replace_password_run in E2. destruct rp as [u|e]; [|apply Hno; by rewrite E2, Hw1].
    rewrite Hw1 in E2. pose proof (replaced_implements _ _ _ _ _ _ _ Him Hd Hrow E2) as Him2.
    destruct (account_of_row _ _ _ _ Him Hrow) as (p & Hp & Hv).
    rewrite call_run. destruct (CleanupHistory _ _ w2) as [rl w3] eqn:E3. apply CleanupHistory_creds in E3.
    intros Hres. assert (w' = w3) as -> by (by destruct rl; injection Hres).
    exists (<[p_identifier row := (p_identity row, new)]> acc). split; [|by eapply implements_same].
    subst i. eapply step_change; [exact Hp|]. exists (p_hash row). split; [|done]. apply accepts_true.
    rewrite Hcred in Ha. exact Ha.
  - unfold ResetPassword. rewrite M_bind_run. destruct (own_credential i w) as [rc w1] eqn:E1.
    apply own_credential_run in E1 as [Hw1 Hc]. destruct rc as [cred|e].
    + destruct Hc as (row & Hrow & Hcred & Hi). intros E2. apply replace_password_run in E2. destruct r as [u|e].
      * rewrite Hw1 in E2. destruct (account_of_row _ _ _ _ Him Hrow) as (p & Hp & Hv).
        exists (<[p_identifier row := (p_identity row, new)]> acc). split; [|by eapply replaced_implements].
        subst i. by eapply step_reset.
      * exists acc. split; [constructor|]. eapply implements_same; [exact Him|]. by rewrite E2, Hw1.
    + intros [= <- <-]. exists acc. split; [constructor|]. eapply implements_same; [exact Him|]. by rewrite Hw1.
  - by apply DeletePasswords_refines.
Qed.

(** Requests one after the other, with what each reported. *)
Fixpoint run_ops (os : list op) (w : world pwd_db) : list bool * world pwd_db :=
  match os with
  | [] => ([], w)
  | o :: os =>
      let '(r, w1) := exec o w in
      let '(oks, w2) := run_ops os w1 in (is_ok r :: oks, w2)
  end.
Inductive account_run : list op -> list bool -> accounts -> accounts -> Prop :=
| run_none acc : account_run [] [] acc acc
| run_step o os ok oks acc acc1 acc2 :
    account_step o ok acc acc1 -> account_run os oks acc1 acc2 -> account_run (o :: os) (ok :: oks) acc acc2.

Lemma run_ops_refines os : forall w oks w' acc,
  implements (w_db w) acc -> Forall op_drawn os -> run_ops os w = (oks, w') ->
  exists acc', account_run os oks acc acc' /\ implements (w_db w') acc'.
Proof.
  induction os as [|o os IH]; intros w oks w' acc Him Hd; cbn [run_ops].
  - intros [= <- <-]. exists acc. split; [constructor|done].
  - apply Forall_cons in Hd as [Ho Hd]. destruct (exec o w) as [r w1] eqn:E1. destruct (run_ops os w1) as [oks2 w2] eqn:E2.
    intros [= <- <-]. destruct (password_exec_refines _ _ _ _ _ Him Ho E1) as (acc1 & Hs & Him1).
    destruct (IH _ _ _ _ Him1 Hd E2) as (acc2 & Hr & Him2). exists acc2. split; [by econstructor|done].
Qed.

Lemma Verify_sound ident pw w i w' acc :
  implements (w_db w) acc -> Verify ident pw w = (Ok i, w') ->
  exists cur, acc !! ToLower ident = Some (i, cur) /\ confusable pw cur.
Proof.
  intros Him. unfold Verify, GetByIdentifier. rewrite M_bind_run, call_run.
  match goal with |- context [(db_stmt ?q ≫= ?f) w] => destruct ((db_stmt q ≫= f) w) as [[c|e] w1] eqn:E end; [|by destruct e].
  apply lookup_run in E as (_ & row & Hr & Hc & Hp). apply String.eqb_eq in Hp.
  destruct (HVerify pw (cr_Hash c)) as [[]|] eqn:Hv; [|done..]. intros [= <- <-].
  destruct (account_of_row _ _ _ _ Him Hr) as (cur & Hacc & Hcur). exists cur. rewrite <- Hp, Hc. split; [done|].
  exists (p_hash row). split; [|done]. by rewrite Hc in Hv.
Qed.

Lemma Verify_complete ident cur i w acc :
  implements (w_db w) acc -> acc !! ToLower ident = Some (i, cur) ->
  (Verify ident cur w).1 = Ok i \/ exists msg, (Verify ident cur w).1 = Err (SvcStore (StoreDb (DbFault msg))).
Proof.
  intros Him Hacc. destruct (im_account _ _ Him _ _ Hacc) as (id & row & Hrow & Hid).
  unfold Verify, GetByIdentifier. rewrite M_bind_run, call_run, M_bind_run. unfold db_stmt.
  destruct (first_cred (fun r => String.eqb (p_identifier r) (ToLower ident)) (w_db w)) as [c|] eqn:Hc.
  - apply first_cred_some in Hc as (row' & Hrow' & Hc & Hp). apply String.eqb_eq in Hp.
    assert (cr_ID c = id) as Heq by (eapply (im_unique _ _ Him); [done..|congruence]).
    rewrite Heq in Hrow'. simplify_eq. destruct (account_of_row _ _ _ _ Him Hrow) as (p & Hp' & Hv).
    rewrite Hp, Hacc in Hp'. injection Hp' as -> <-. rewrite Hc.
    destruct (w_faults w) as [|[msg|] fs]; cbn; [rewrite Hv; by left|right; by exists msg|rewrite Hv; by left].
  - pose proof (first_cred_none _ _ _ _ Hc Hrow) as Hp. cbn in Hp. by apply String.eqb_neq in Hp.
Qed.

(** C11: The password service refines a table of accounts: after any requests,
    whatever fails in them, there is a table the requests can have produced in
    which a log-in is granted only for the account's identity and a password
    the stored hash cannot tell from the current one, and in which the current
    password is never turned away: it logs in unless the database fails. *)
Theorem password_service_refines_accounts os w oks w' :
  t_creds (w_db w) = ∅ -> Forall op_drawn os -> run_ops os w = (oks, w') ->
  exists acc, account_run os oks ∅ acc /\
    (forall ident pw i w'', Verify ident pw w' = (Ok i, w'') ->
       exists cur, acc !! ToLower ident = Some (i, cur) /\ confusable pw cur) /\
    (forall ident i cur, acc !! ToLower ident = Some (i, cur) ->
       (Verify ident cur w').1 = Ok i \/ exists msg, (Verify ident cur w').1 = Err (SvcStore (StoreDb (DbFault msg)))).
Proof.
  intros Hw Hd Hrun. assert (Him : implements (w_db w) ∅).
  { split; rewrite Hw; [intros id row; by rewrite lookup_empty|intros ident ip; by rewrite lookup_empty|].
    intros id1 id2 r1 r2. by rewrite lookup_empty. }
  destruct (run_ops_refines _ _ _ _ _ Him Hd Hrun) as (acc & Hr & Him'). exists acc. split_and!; [done| |].
  - intros. by eapply Verify_sound.
  - intros. by eapply Verify_complete.
Qed.
End accounts.

Import Service.

(** Two sorted lists of the same elements are equal where the order is
    antisymmetric. *)
Lemma sorted_unique {A} (R : A -> A -> Prop) (l : list A) : forall l',
  (forall x y, x ∈ l -> y ∈ l -> R x y -> R y x -> x = y) ->
  StronglySorted R l -> StronglySorted R l' -> l ≡ₚ l' -> l = l'.
Proof.
  induction l as [|x l IH]; intros l' Hanti Hl Hl' Hp.
  - symmetry. by apply Permutation_nil.
  - destruct l' as [|y l']; [by apply Permutation_sym, Permutation_nil in Hp|].
    apply StronglySorted_inv in Hl as [Hl Hx], Hl' as [Hl' Hy].
    assert (x = y) as ->.
    { assert (Hyx : y ∈ x :: l) by (rewrite Hp; by left). assert (Hxy : x ∈ y :: l') by (rewrite <- Hp; by left).
      apply elem_of_cons in Hyx as [->|Hyx]; [done|]. apply elem_of_cons in Hxy as [->|Hxy]; [done|].
      apply Hanti; [by left|by right| |]; [by eapply Forall_forall in Hx|by eapply Forall_forall in Hy]. }
    f_equal. apply IH; [|done..|by apply Permutation_cons_inv in Hp]. intros a b Ha Hb. apply Hanti; by right.
Qed.

Section history.
Context `{Hasher} `{Runes} `{ScanOrder} (cfg : Config) (hibp : string -> hibp_reply).

(** ** The rows of a credential, newest first *)

Definition newer (a b : N * hist_row) : Prop := (h_created b.2 <=? h_created a.2)%Z = true.
Definition row_of (c : uuid) (db : pwd_db) (kv : N * hist_row) : Prop :=
  t_history db !! kv.1 = Some kv.2 /\ h_credential kv.2 = c.
Definition distinct_times (c : uuid) (db : pwd_db) : Prop :=
  forall x y, row_of c db x -> row_of c db y -> h_created x.2 = h_created y.2 -> x = y.

Lemma history_of_elem c db kv : kv ∈ history_of c db <-> row_of c db kv.
Proof.
  unfold history_of, row_of. rewrite sort_by_perm, list_elem_of_In, List.filter_In, <- list_elem_of_In, scan_perm.
  destruct kv as [k v]. rewrite elem_of_map_to_list, N.eqb_eq. done.
Qed.
Lemma history_of_nodup c db : NoDup (history_of c db).
Proof.
  unfold history_of. rewrite sort_by_perm. apply (NoDup_fmap_1 fst). apply nodup_filter_fst.
  change (List.map fst) with (fmap (M := list) (@fst N hist_row)). rewrite scan_perm. apply NoDup_fst_map_to_list.
Qed.
Lemma history_of_sorted c db : StronglySorted newer (history_of c db).
Proof.
  apply sort_by_sorted.
  - intros x y. rewrite !Z.leb_le. lia.
  - intros x y z. rewrite !Z.leb_le. lia.
Qed.

Lemma history_of_unique c db l :
  distinct_times c db -> NoDup l -> StronglySorted newer l -> (forall kv, kv ∈ l <-> row_of c db kv) -> history_of c db = l.
Proof.
  intros Hd Hn Hs He. apply (sorted_unique newer); [|apply history_of_sorted|done|].
  - intros x y Hx%history_of_elem Hy%history_of_elem H1' H2'. apply Hd; [done..|]. unfold newer in *. bool_to_prop. lia.
  - apply NoDup_Permutation; [apply history_of_nodup|done|]. intros kv. by rewrite history_of_elem, He.
Qed.

Lemma history_of_same c db db' :
  distinct_times c db -> (forall kv, row_of c db' kv <-> row_of c db kv) -> history_of c db' = history_of c db.
Proof.
  intros Hd He. apply history_of_unique; [|apply history_of_nodup|apply history_of_sorted|].
  - intros x y Hx%He Hy%He. by apply Hd.
  - intros kv. by rewrite history_of_elem, He.
Qed.

(** What the history of a credential looks like when its last entries are
    [past], newest first, all made by the time [T]. *)
Record tracks (c : uuid) (T : time) (db : pwd_db) (past : list string) : Prop := {
  tr_fk : forall id row, t_history db !! id = Some row -> is_Some (t_creds db !! h_credential row);
  tr_distinct : distinct_times c db;
  tr_before : forall kv, row_of c db kv -> (h_created kv.2 <= T)%Z;
  tr_past : take (Z.to_nat (HistoryCount cfg)) (h_hash <$> (history_of c db).*2) = take (Z.to_nat (HistoryCount cfg)) past;
  tr_gone : t_creds db !! c = None -> past = [];
}.

Lemma no_rows c db : (forall kv, ~ row_of c db kv) -> history_of c db = [].
Proof.
  intros Hno. destruct (history_of c db) as [|kv l] eqn:E; [done|]. exfalso. apply (Hno kv), history_of_elem.
  rewrite E. by left.
Qed.

(** ** Runs in which the database does not fail *)

Lemma own_credential_clean i db :
  own_credential i (World db []) =
  (match first_cred (fun r => (p_identity r =? i)%N) db with Some c => Ok c | None => Err ErrIdentityNotFound end, World db []).
Proof.
  unfold own_credential, GetByIdentityID. rewrite call_run, M_bind_run, db_stmt_clean.
  by destruct (first_cred _ db).
Qed.

Context (Hpos : (0 < HistoryCount cfg)%Z).
Abbreviation keep := (Z.to_nat (HistoryCount cfg)).

Lemma checkHistory_clean c pw db :
  checkHistory cfg c pw (World db []) =
  ((if existsb (accepts pw) (take keep (h_hash <$> (history_of c db).*2)) then Err ErrPasswordReused else Ok tt), World db []).
Proof.
  unfold checkHistory, GetHistory. rewrite M_bind_run, call_run, (proj2 (Z.eqb_neq _ _)) by lia.
  rewrite db_stmt_clean. unfold newest_of. rewrite (proj2 (Z.ltb_ge _ _)) by lia.
  rewrite !fmap_take. by destruct (existsb _ _).
Qed.

Definition replaced_db (cred : Credential) (h : string) (row : cred_row) (d : draws) (db : pwd_db) : pwd_db :=
  {| t_creds := <[cr_ID cred := set_hash h (d_now2 d) row]> (t_creds db);
     t_history := <[d_hist d := {| h_credential := cr_ID cred; h_hash := cr_Hash cred; h_created := d_now1 d |}]> (t_history db);
     t_ids := t_ids db |}.

Lemma replace_password_clean cred new d db r w' :
  replace_password cfg hibp cred new d (World db []) = (r, w') ->
  w_faults w' = [] /\
  match r with
  | Ok _ =>
      existsb (accepts new) (take keep (h_hash <$> (history_of (cr_ID cred) db).*2)) = false /\
      t_history db !! d_hist d = None /\
      exists row h, t_creds db !! cr_ID cred = Some row /\ w_db w' = replaced_db cred h row d db
  | Err _ => w_db w' = db
  end.
Proof.
  unfold replace_password. rewrite M_bind_run. unfold lift_result.
  destruct (ValidatePassword _ _ _ _) as [u|e]; [|by intros [= <- <-]].
  rewrite M_bind_run, checkHistory_clean. destruct (existsb _ _) eqn:Ex; [by intros [= <- <-]|].
  rewrite M_bind_run. unfold hashed. destruct (Hash new (d_salt d)) as [h|e]; [|by intros [= <- <-]].
  rewrite M_ret_run, M_bind_run, call_run. unfold AddToHistory. rewrite db_stmt_clean.
  destruct (bool_decide (is_Some (t_history db !! _))) eqn:E1; [by intros [= <- <-]|].
  destruct (bool_decide (is_Some (t_creds db !! _))) eqn:E2; cbn [negb]; [|by intros [= <- <-]].
  bool_to_prop. destruct E2 as [row Hrow]. apply eq_None_not_Some in E1.
  rewrite call_run. unfold Update. rewrite M_bind_run, db_stmt_clean. cbn [t_creds with_history]. rewrite Hrow.
  intros [= <- <-]. split_and!; [done..|]. by exists row, h.
Qed.

(** ** Each request keeps track of the past *)

Lemma tracks_later c T T' db past : tracks c T db past -> (T <= T')%Z -> tracks c T' db past.
Proof.
  intros [Hfk Hd Hb Hp Hg] Hle. split; [done..| |done|done]. intros kv Hkv. specialize (Hb _ Hkv). lia.
Qed.

Lemma replaced_rows cred h row d db c kv :
  t_history db !! d_hist d = None ->
  row_of c (replaced_db cred h row d db) kv <->
  row_of c db kv \/
  (c = cr_ID cred /\ kv = (d_hist d, {| h_credential := cr_ID cred; h_hash := cr_Hash cred; h_created := d_now1 d |})).
Proof.
  intros Hn. unfold row_of. cbn [t_history replaced_db]. rewrite lookup_insert_Some. split.
  - intros [[[Hk Hv]|[Hk Hv]] Hc]; [right|by left]. destruct kv as [k v]. cbn in *. subst. done.
  - intros [[Hv Hc]|[-> ->]]; [|cbn; auto]. split; [right|done]. split; [|done]. intros Heq. rewrite Heq in Hn. congruence.
Qed.

Lemma tracks_replaced cred h row d db c T past :
  tracks c T db past -> (T < d_now1 d)%Z -> t_history db !! d_hist d = None -> t_creds db !! cr_ID cred = Some row ->
  tracks c (d_now1 d) (replaced_db cred h row d db) (if (cr_ID cred =? c)%N then cr_Hash cred :: past else past).
Proof.
  intros [Hfk Hd Hb Hp Hg] HT Hn Hrow. pose proof (fun kv => replaced_rows cred h row d db c kv Hn) as Hro.
  assert (Hd' : distinct_times c (replaced_db cred h row d db)).
  { intros x y [Hx|[Hc ->]]%Hro [Hy|[_ ->]]%Hro Heq; [by apply Hd| | |done]; cbn in Heq.
    - specialize (Hb _ Hx). lia.
    - specialize (Hb _ Hy). lia. }
  split; [|done| | |].
  - intros id r. cbn [t_history t_creds replaced_db]. rewrite lookup_insert_Some.
    assert (Hin : forall k, is_Some (t_creds db !! k) -> is_Some (<[cr_ID cred := set_hash h (d_now2 d) row]> (t_creds db) !! k)).
    { intros k Hk. destruct (decide (k = cr_ID cred)) as [->|]; [by rewrite lookup_insert_eq|by rewrite lookup_insert_ne]. }
    intros [[_ <-]|[_ Hl]]; apply Hin; [by exists row|by eapply Hfk].
  - intros kv [Hkv|[_ ->]]%Hro; [|done]. specialize (Hb _ Hkv). lia.
  - destruct (N.eqb_spec (cr_ID cred) c) as [Heq|Hne].
    + assert (history_of c (replaced_db cred h row d db) =
        (d_hist d, {| h_credential := cr_ID cred; h_hash := cr_Hash cred; h_created := d_now1 d |}) :: history_of c db) as ->.
      { apply history_of_unique; [done| | |].
        - apply NoDup_cons. split; [|apply history_of_nodup]. rewrite history_of_elem. unfold row_of. cbn. rewrite Hn. by intros [].
        - constructor; [apply history_of_sorted|]. apply Forall_forall. intros kv Hkv. apply history_of_elem, Hb in Hkv.
          apply Z.leb_le. cbn. lia.
        - intros kv. rewrite elem_of_cons, history_of_elem, Hro. naive_solver. }
      destruct keep as [|k] eqn:Hk; [done|]. rewrite !fmap_cons. cbn [take h_hash snd]. f_equal.
      apply (f_equal (take k)) in Hp. rewrite !take_take in Hp. by replace (k `min` S k)%nat with k in Hp by lia.
    + rewrite (history_of_same c db); [done|done|]. intros kv. rewrite Hro. naive_solver.
  - cbn [t_creds replaced_db]. destruct (N.eqb_spec (cr_ID cred) c) as [<-|Hne]; [by rewrite lookup_insert_eq|].
    by rewrite lookup_insert_ne.
Qed.

Definition cleaned (c : uuid) (db : pwd_db) : pwd_db :=
  with_history db (filter (fun kv => (h_credential kv.2 =? c)%N &&
    negb (bool_decide (kv.1 ∈ (take keep (history_of c db)).*1)) = false) (t_history db)).

Lemma CleanupHistory_clean c db : CleanupHistory c (HistoryCount cfg) (World db []) = (Ok tt, World (cleaned c db) []).
Proof.
  unfold CleanupHistory. rewrite db_stmt_clean. unfold newest_of. by rewrite (proj2 (Z.ltb_ge _ _)) by lia.
Qed.

Lemma cleaned_rows c db c' kv :
  row_of c' (cleaned c db) kv <-> row_of c' db kv /\ (c' = c -> kv ∈ take keep (history_of c db)).
Proof.
  unfold row_of. cbn [t_history cleaned with_history]. rewrite map_lookup_filter_Some, andb_false_iff, negb_false_iff, bool_decide_eq_true.
  destruct kv as [k v]. cbn [fst snd]. rewrite N.eqb_neq. split.
  - intros [[Hl Hk] <-]. split; [done|]. intros Hc. destruct Hk as [?|Hk]; [done|].
    apply list_elem_of_fmap in Hk as ([k' v'] & Hkk & Hin). cbn in Hkk. subst k'.
    pose proof Hin as Hin'. apply elem_of_take in Hin' as (i & Hi & _). apply list_elem_of_lookup_2, history_of_elem in Hi as [Hi _].
    cbn in Hi. by simplify_eq.
  - intros [[Hl Hc] Hk]. split_and!; try done. destruct (decide (h_credential v = c)) as [Heq|]; [right|by left].
    apply list_elem_of_fmap. exists (k, v). split; [done|]. apply Hk. congruence.
Qed.

Lemma sorted_take {A} (R : A -> A -> Prop) (l : list A) : forall n, StronglySorted R l -> StronglySorted R (take n l).
Proof.
  induction l as [|x l IH]; intros n Hs; [by rewrite take_nil|]. destruct n; [constructor|].
  apply StronglySorted_inv in Hs as [Hs Hx]. cbn. constructor; [by apply IH|]. by apply Forall_take.
Qed.

Lemma tracks_cleaned c' c T db past : tracks c T db past -> tracks c T (cleaned c' db) past.
Proof.
  intros [Hfk Hd Hb Hp Hg].
  assert (Hd' : distinct_times c (cleaned c' db)).
  { intros x y [Hx _]%cleaned_rows [Hy _]%cleaned_rows. by apply Hd. }
  split; [|done| | |done].
  - intros id r [Hl _]%map_lookup_filter_Some. by eapply Hfk.
  - intros kv [Hkv _]%cleaned_rows. by apply Hb.
  - destruct (decide (c = c')) as [->|Hne].
    + assert (history_of c' (cleaned c' db) = take keep (history_of c' db)) as ->.
      { apply history_of_unique; [done|eapply sublist_NoDup; [apply history_of_nodup|apply sublist_take]| |].
        - apply sorted_take, history_of_sorted.
        - intros kv. rewrite cleaned_rows. split; [|naive_solver]. intros Hkv. split; [|done].
          apply history_of_elem. apply elem_of_take in Hkv as (j & Hj & _). by apply list_elem_of_lookup_2 in Hj. }
      rewrite !fmap_take, take_take. by rewrite Nat.min_id.
    + rewrite (history_of_same c db); [done|done|]. intros kv. rewrite cleaned_rows. naive_solver.
Qed.

Lemma tracks_deleted p c T db past :
  tracks c T db past ->
  tracks c T (delete_creds p db) (match t_creds (delete_creds p db) !! c with Some _ => past | None => [] end).
Proof.
  intros [Hfk Hd Hb Hp Hg].
  assert (Hro : forall kv, row_of c (delete_creds p db) kv <-> row_of c db kv /\ is_Some (t_creds (delete_creds p db) !! c)).
  { intros [k v]. unfold row_of. cbn [t_history t_creds delete_creds fst snd]. rewrite map_lookup_filter_Some. cbn [snd].
    split; [intros [[? ?] <-]|intros [[? <-] ?]]; done. }
  split.
  - intros id r. cbn [t_history t_creds delete_creds]. by intros [_ ?]%map_lookup_filter_Some.
  - intros x y [Hx _]%Hro [Hy _]%Hro. by apply Hd.
  - intros kv [Hkv _]%Hro. by apply Hb.
  - destruct (t_creds (delete_creds p db) !! c) as [r|].
    + rewrite (history_of_same c db); [done|done|]. intros kv. rewrite Hro. naive_solver.
    + rewrite no_rows; [done|]. intros kv [_ [? ?]]%Hro. done.
  - intros Hn. by rewrite Hn.
Qed.

Lemma tracks_registered id row c T db past :
  tracks c T db past -> t_creds db !! id = None -> tracks c T (with_creds db (<[id := row]> (t_creds db))) past.
Proof.
  intros [Hfk Hd Hb Hp Hg] Hn. split; [|done..|].
  - intros k r Hl. cbn [t_creds with_creds]. destruct (decide (h_credential r = id)) as [->|].
    + by rewrite lookup_insert_eq.
    + rewrite lookup_insert_ne by done. by eapply Hfk.
  - cbn [t_creds with_creds]. intros [Hl _]%lookup_insert_None. auto.
Qed.

(** ** The past of a credential along a run *)

(** The credential a request replaces the password of, and when. *)
Definition target (o : op) (db : pwd_db) : option Credential :=
  match o with
  | OChange i _ _ _ | OReset i _ _ => first_cred (fun r => (p_identity r =? i)%N) db
  | _ => None
  end.
Definition stamp (o : op) : option time :=
  match o with OChange _ _ _ d | OReset _ _ d => Some (d_now1 d) | _ => None end.
Fixpoint in_order (T : time) (os : list op) : Prop :=
  match os with
  | [] => True
  | o :: os => match stamp o with Some t => (T < t)%Z /\ in_order t os | None => in_order T os end
  end.

(** The hashes of the credential [c] that were replaced, newest first; they
    are forgotten when the credential is deleted. *)
Definition remember (c : uuid) (o : op) (ok : bool) (db db' : pwd_db) (past : list string) : list string :=
  match t_creds db' !! c with
  | None => []
  | Some _ =>
      match target o db with
      | Some cred => if ok && (cr_ID cred =? c)%N then cr_Hash cred :: past else past
      | None => past
      end
  end.
Fixpoint run_past (c : uuid) (os : list op) (db : pwd_db) (past : list string) : list string * pwd_db :=
  match os with
  | [] => (past, db)
  | o :: os =>
      let '(r, db') := run (exec cfg hibp o) db in run_past c os db' (remember c o (is_ok r) db db' past)
  end.

Lemma tracks_remembered c T db past o ok db' :
  tracks c T db past -> target o db = None \/ ok = false -> t_creds db' = t_creds db ->
  tracks c T db' past -> tracks c T db' (remember c o ok db db' past).
Proof.
  intros Hold Ht Hdb Htr. unfold remember. destruct (t_creds db' !! c) eqn:E.
  - destruct Ht as [->| ->]; [done|]. by destruct (target o db).
  - rewrite Hdb in E. by rewrite <- (tr_gone _ _ _ _ Hold E).
Qed.

Lemma tracks_refused c T db past o e :
  tracks c T db past -> (forall t, stamp o = Some t -> (T < t)%Z) ->
  tracks c (default T (stamp o)) db (remember c o (is_ok (Err e : result svc_error unit)) db db past).
Proof.
  intros Htr Ht. apply (tracks_later c T).
  - apply tracks_remembered; auto.
  - destruct (stamp o) as [t|]; [|done]. specialize (Ht t eq_refl). cbn. lia.
Qed.

(** A replaced password joins the past of its credential. *)
Lemma tracks_replacing c T db past o cred new d w db' :
  tracks c T db past -> stamp o = Some (d_now1 d) -> (T < d_now1 d)%Z -> target o db = Some cred ->
  replace_password cfg hibp cred new d (World db []) = (Ok tt, w) ->
  (db' = w_db w \/ db' = cleaned (cr_ID cred) (w_db w)) ->
  tracks c (default T (stamp o)) db' (remember c o true db db' past).
Proof.
  intros Htr Hst HT Htg Hrun Hdb'. apply replace_password_clean in Hrun as (_ & _ & Hn & row & h & Hrow & Hw).
  pose proof (tracks_replaced cred h row d db c T past Htr HT Hn Hrow) as Hr. rewrite <- Hw in Hr.
  rewrite Hst. cbn [default]. unfold remember. rewrite Htg. cbn [andb].
  assert (Hres : tracks c (d_now1 d) db' (if (cr_ID cred =? c)%N then cr_Hash cred :: past else past)).
  { destruct Hdb' as [->| ->]; [done|by apply tracks_cleaned]. }
  destruct (t_creds db' !! c) eqn:E; [done|]. by rewrite <- (tr_gone _ _ _ _ Hres E).
Qed.

Lemma exec_tracks c T db past o r db' :
  tracks c T db past -> (forall t, stamp o = Some t -> (T < t)%Z) -> run (exec cfg hibp o) db = (r, db') ->
  tracks c (default T (stamp o)) db' (remember c o (is_ok r) db db' past).
Proof.
  intros Htr Ht. unfold run. destruct (exec cfg hibp o (World db [])) as [r1 w1] eqn:E. intros [= -> <-].
  pose proof (fun e => tracks_refused c T db past o e Htr Ht) as Hno.
  destruct o as [i ident pw salt id n1 n2|i old new d|i new d|i]; cbn [exec] in E.
  - unfold Register in E. rewrite M_bind_run in E. unfold lift_result in E.
    destruct (ValidatePassword _ _ _ _) as [u|e]; [|by injection E as <- <-; apply Hno].
    rewrite M_bind_run in E. unfold hashed in E. destruct (Hash pw salt) as [h|e]; [|by injection E as <- <-; apply Hno].
    rewrite M_ret_run, call_run in E. unfold Create in E. rewrite call_run, db_stmt_clean in E.
    destruct (insert_cred _ db) as [[[] db1]|e] eqn:Ei; [|by injection E as <- <-; apply Hno].
    injection E as <- <-. unfold insert_cred in Ei. destruct (bool_decide _) eqn:E1; [done|].
    destruct (existsb _ _); [done|]. destruct (negb _); [done|]. injection Ei as <-. cbn [w_db].
    apply bool_decide_eq_false, eq_None_not_Some in E1. cbn [cr_ID] in E1.
    pose proof (tracks_registered id {| p_identity := i; p_identifier := ToLower ident; p_hash := h; p_created := n1; p_updated := n2 |}
      c T db past Htr E1) as Hreg. unfold remember. cbn [target stamp default is_ok]. cbn [cr_ID cr_IdentityID cr_Identifier cr_Hash cr_CreatedAt cr_UpdatedAt].
    destruct (t_creds _ !! c) eqn:Ec; [exact Hreg|]. by rewrite <- (tr_gone _ _ _ _ Hreg Ec).
  - unfold ChangePassword in E. rewrite M_bind_run, own_credential_clean in E.
    destruct (first_cred _ db) as [cred|] eqn:Ec; [|by injection E as <- <-; apply Hno].
    destruct (negb _); [by injection E as <- <-; apply Hno|]. rewrite M_bind_run in E.
    destruct (replace_password _ _ cred new d _) as [[[]|e] w2] eqn:E2.
    + pose proof (replace_password_clean _ _ _ _ _ _ E2) as [Hf _]. destruct w2 as [db2 fs]. cbn in Hf. subst fs.
      rewrite call_run, CleanupHistory_clean in E. injection E as <- <-.
      eapply tracks_replacing; [done..|by apply Ht|exact Ec|exact E2|by right].
    + apply replace_password_clean in E2 as [_ Hw]. injection E as <- <-. rewrite Hw. apply Hno.
  - unfold ResetPassword in E. rewrite M_bind_run, own_credential_clean in E.
    destruct (first_cred _ db) as [cred|] eqn:Ec; [|by injection E as <- <-; apply Hno].
    destruct r as [[]|e].
    + eapply tracks_replacing; [done..|by apply Ht|exact Ec|exact E|by left].
    + apply replace_password_clean in E as [_ ->]. apply Hno.
  - unfold DeletePasswords, DeleteByIdentityID in E. rewrite call_run, db_stmt_clean in E. injection E as <- <-.
    cbn [w_db]. unfold remember. cbn [target stamp default]. by apply tracks_deleted.
Qed.

Lemma run_past_tracks c os : forall T db past past' db',
  tracks c T db past -> in_order T os -> run_past c os db past = (past', db') -> exists T', tracks c T' db' past'.
Proof.
  induction os as [|o os IH]; intros T db past past' db' Htr Ho; cbn [run_past].
  - intros [= <- <-]. by exists T.
  - destruct (run _ db) as [r db1] eqn:E. intros Hrun. cbn [in_order] in Ho.
    apply (IH (default T (stamp o)) _ _ _ _) in Hrun; [done| |by destruct (stamp o); [apply Ho|]].
    eapply exec_tracks; [done| |done]. intros t Hst. rewrite Hst in Ho. by apply Ho.
Qed.

(** C12: Recently used passwords are refused: after any sequence of requests
    that starts with an empty history, in which no database statement fails and
    the clock advances, a password that one of the last [HistoryCount] (if it is
    positive) replaced hashes of a credential accepts is refused by both ways of
    replacing the credential's password, and the tables stay as they are. (When
    an update fails after its hash was recorded, the hash of the password that
    stays in use takes the place of an older one in the history.) *)
Theorem recent_passwords_are_refused c T os db past db' i cred new d h :
  t_history db = ∅ -> in_order T os -> run_past c os db [] = (past, db') ->
  first_cred (fun r => (p_identity r =? i)%N) db' = Some cred -> cr_ID cred = c ->
  h ∈ take (Z.to_nat (HistoryCount cfg)) past -> accepts new h = true ->
  (exists e, run (ResetPassword cfg hibp i new d) db' = (Err e, db')) /\
  (forall old, exists e, run (ChangePassword cfg hibp i old new d) db' = (Err e, db')).
Proof.
  intros Hempty Ho Hrun Hc Hid Hh Ha.
  assert (Htr : tracks c T db []).
  { assert (Hno : forall kv, ~ row_of c db kv) by (intros kv [Hl _]; by rewrite Hempty, lookup_empty in Hl).
    split; [intros id row; by rewrite Hempty, lookup_empty|by intros x y Hx; apply Hno in Hx|by intros kv Hx%Hno| |done].
    by rewrite no_rows. }
  destruct (run_past_tracks _ _ _ _ _ _ _ Htr Ho Hrun) as [T' Htr'].
  assert (Hrep : exists e, replace_password cfg hibp cred new d (World db' []) = (Err e, World db' [])).
  { destruct (replace_password _ _ cred new d _) as [[u|e] w] eqn:E; apply replace_password_clean in E as [Hf E].
    - destruct E as (Hx & _). rewrite Hid, (tr_past _ _ _ _ Htr') in Hx. apply not_true_iff_false in Hx. exfalso. apply Hx.
      apply existsb_exists. exists h. by rewrite <- list_elem_of_In.
    - exists e. destruct w; cbn in *; by subst. }
  destruct Hrep as [e He]. unfold run. split; [|intros old].
  - exists e. unfold ResetPassword. by rewrite M_bind_run, own_credential_clean, Hc, He.
  - unfold ChangePassword. rewrite M_bind_run, own_credential_clean, Hc.
    destruct (negb _); [by exists ErrInvalidCredentials|]. rewrite M_bind_run, He. by exists e.
Qed.
End history.

Import Service.

(** ** The breach database

    A range answer lists the suffixes of the breached hashes with the given
    prefix, one per line with its count, the lines separated by CR LF. *)

Definition crlf : string := String "013" (String "010" "").
Definition entry_line (e : string * Z) : string := e.1 +:+ ":" +:+ FormatInt e.2.
Definition range_body (entries : list (string * Z)) : string := Join (entry_line <$> entries) crlf.
Definition hex_digit (c : ascii) : bool := is_hex c || ((65 <=? code c) && (code c <=? 70))%N.
Definition entry_ok (e : string * Z) : Prop := str_forall hex_digit e.1 = true /\ in_int64 e.2.

(** The suffix is listed often enough to count as breached. *)
Definition listed (cfg : Config) (suffix : string) (e : string * Z) : bool :=
  EqualFold e.1 suffix && (HIBPMinBreachCount cfg <=? e.2)%Z.

Lemma hex_text c : hex_digit c = true ->
  negb (is_space c) = true /\ not_char ":" c = true /\ not_char "010" c = true.
Proof. destruct c as [[] [] [] [] [] [] [] []]; by vm_compute. Qed.
Lemma is_digit_text c : is_digit c = true ->
  negb (is_space c) = true /\ not_char ":" c = true /\ not_char "010" c = true.
Proof. destruct c as [[] [] [] [] [] [] [] []]; by vm_compute. Qed.

Lemma FormatInt_text z : str_forall (fun c => negb (is_space c) && not_char "010" c) (FormatInt z) = true.
Proof.
  assert (Hd : forall d, str_forall is_digit d = true -> str_forall (fun c => negb (is_space c) && not_char "010" c) d = true).
  { intros d. apply str_forall_impl. intros c Hc. by destruct (is_digit_text c Hc) as (-> & _ & ->). }
  destruct (FormatInt_cases z) as [(c & d & -> & Hc & Hs)|(d & -> & Hs)].
  - apply (Hd (String c d)). cbn. by rewrite Hc.
  - cbn. by apply Hd.
Qed.
Lemma entry_text e : entry_ok e -> str_forall (fun c => negb (is_space c) && not_char "010" c) (entry_line e) = true.
Proof.
  intros [He _]. unfold entry_line. rewrite !str_forall_app, FormatInt_text. apply andb_true_iff. split; [|done].
  eapply str_forall_impl; [|exact He]. intros c Hc. by destruct (hex_text c Hc) as (-> & _ & ->).
Qed.

Lemma trim_cr s : str_forall (fun c => negb (is_space c)) s = true -> TrimSpace (s +:+ String "013" "") = s.
Proof.
  intros Hs. unfold TrimSpace, trim. destruct s as [|c s]; [done|].
  assert (Hl : trim_left is_space (String c s +:+ String "013" "") = String c s +:+ String "013" "").
  { cbn [String.append trim_left]. cbn in Hs. apply andb_true_iff in Hs as [Hc _]. apply negb_true_iff in Hc.
    change (String c s +:+ String "013" "") with (String c (s +:+ String "013" "")). cbn [trim_left]. by rewrite Hc. }
  rewrite Hl. clear Hl. revert Hs. generalize (String c s). clear. intros s. induction s as [|c s IH]; [done|].
  cbn. rewrite andb_true_iff, negb_true_iff. intros [Hc Hs]. specialize (IH Hs). rewrite IH. destruct s; [by rewrite Hc|done].
Qed.

Lemma breach_line_entry cfg suffix e line :
  entry_ok e -> TrimSpace line = entry_line e -> breach_line cfg suffix line = listed cfg suffix e.
Proof.
  intros [He Hz] Hl. unfold breach_line, listed. rewrite Hl. unfold entry_line.
  change (":" +:+ FormatInt e.2) with (String ":" (FormatInt e.2)). rewrite Split_app_sep.
  - rewrite Split_single by (by apply FormatInt_not_char).
    assert (Ht : TrimSpace (FormatInt e.2) = FormatInt e.2).
    { apply trim_none. eapply str_forall_impl; [|apply FormatInt_text]. intros c. by intros [? _]%andb_true_iff. }
    by rewrite Ht, ParseInt_FormatInt.
  - eapply str_forall_impl; [|exact He]. intros c Hc. by destruct (hex_text c Hc) as (_ & ? & _).
Qed.

Lemma breach_lines cfg suffix entries :
  Forall entry_ok entries ->
  existsb (breach_line cfg suffix) (Split (range_body entries) "010") = existsb (listed cfg suffix) entries.
Proof.
  intros Hok. unfold range_body. induction Hok as [|e entries He Hes IH]; [done|].
  pose proof (entry_text e He) as Ht.
  assert (Hns : str_forall (fun c => negb (is_space c)) (entry_line e) = true).
  { eapply str_forall_impl; [|exact Ht]. intros c. by intros [? _]%andb_true_iff. }
  assert (Hnl : str_forall (not_char "010") (entry_line e) = true).
  { eapply str_forall_impl; [|exact Ht]. intros c. by intros [_ ?]%andb_true_iff. }
  rewrite fmap_cons. destruct entries as [|e' entries].
  - cbn [fmap list_fmap Join]. rewrite Split_single by done. cbn [existsb].
    rewrite (breach_line_entry cfg suffix e); [done|done|]. by apply trim_none.
  - assert (Hj : Join (entry_line e :: (entry_line <$> e' :: entries)) crlf =
      (entry_line e +:+ String "013" "") +:+ String "010" (Join (entry_line <$> e' :: entries) crlf)).
    { rewrite str_app_assoc. done. }
    rewrite Hj, Split_app_sep; [|rewrite str_forall_app, Hnl; done]. cbn [existsb].
    rewrite IH, (breach_line_entry cfg suffix e); [done|done|]. by apply trim_cr.
Qed.

(** The breach check: against a well-formed range answer for the prefix of
    the password's hash, a password is refused exactly when the suffix of its
    hash is listed with at least the configured count; against anything but
    an answer, the configuration decides. *)
Theorem breach_check_decides cfg hibp pw :
  match hibp (hibp_url cfg (str_take 5 (hibp_hash pw))) with
  | Replied 200 (Some body) =>
      forall entries, Forall entry_ok entries -> body = range_body entries ->
      checkHIBP cfg hibp pw =
      if existsb (listed cfg (str_drop 5 (hibp_hash pw))) entries then Err ErrPasswordBreached else Ok tt
  | _ => is_ok (checkHIBP cfg hibp pw) = HIBPIgnoreNetworkErrors cfg
  end.
Proof.
  unfold checkHIBP. cbv zeta. destruct (hibp _) as [e|e|status body]; [unfold tolerated; by destruct (HIBPIgnoreNetworkErrors cfg)..|].
  destruct (Z.eqb_spec status 200) as [->|Hne]; cbn [negb].
  - destruct body as [body|]; [|unfold tolerated; by destruct (HIBPIgnoreNetworkErrors cfg)].
    intros entries Hok ->. by rewrite breach_lines.
  - assert (Hr : is_ok (tolerated cfg ("hibp request failed with status " +:+ FormatInt status)) = HIBPIgnoreNetworkErrors cfg)
      by (unfold tolerated; by destruct (HIBPIgnoreNetworkErrors cfg)).
    repeat case_match; try done; lia.
Qed.
