(* ===== verification/PasswordHttp.v ===== *)
(** modules/password/handler: registration, log-in and password change over
    HTTP (handler.go), over the password service and the session manager.

    JSON bodies arrive decoded ([None] when [decodeJSONBody] refused them).
    The identity store is a parameter: no implementation of it is part of the
    repository.  [requestIP], [hasSignedSessionContextHeaders] and the unsigned
    identity headers are, line by line, those of the magic-link handler. *)

From Stdlib Require Import Ascii String.
From S2P Require Import GoPath.
From S2P Require Import Prelude GoStrings GoEncoding GoSha256 PlatformCrypto CryptoFields GoOtp GoHttp SignedHeaders.
From S2P Require Import Session SessionContext SessionFacts MagicLinkHttp Password PasswordFacts.

Local Open Scope string_scope.
Import Password.Service.

(** The tables the handlers reach. *)
Record app : Type := { a_pwd : pwd_db; a_sessions : session_db }.
Definition put_pwd (p : pwd_db) (a : app) : app := {| a_pwd := p; a_sessions := a_sessions a |}.
Definition put_sessions (s : session_db) (a : app) : app := {| a_pwd := a_pwd a; a_sessions := s |}.

(** CreateIdentity, on the identities that exist. *)
Abbreviation IdentityStore := (string -> gset N -> result string (uuid * gset N)).

Record Handler : Type := {
  identityStore : option IdentityStore;
  sessionManager : option SessionManager;
  sessionHeaderSecret : string;
  allowLegacyIdentityHeaderAuth : bool;
}.

(** Options. *)
Definition WithIdentityStore (s : IdentityStore) (h : Handler) : Handler :=
  {| identityStore := Some s; sessionManager := sessionManager h; sessionHeaderSecret := sessionHeaderSecret h;
     allowLegacyIdentityHeaderAuth := allowLegacyIdentityHeaderAuth h |}.
Definition WithSessionManager (m : SessionManager) (h : Handler) : Handler :=
  {| identityStore := identityStore h; sessionManager := Some m; sessionHeaderSecret := sessionHeaderSecret h;
     allowLegacyIdentityHeaderAuth := allowLegacyIdentityHeaderAuth h |}.
Definition WithSessionHeaderSecret (secret : string) (h : Handler) : Handler :=
  {| identityStore := identityStore h; sessionManager := sessionManager h; sessionHeaderSecret := secret;
     allowLegacyIdentityHeaderAuth := allowLegacyIdentityHeaderAuth h |}.
Definition WithLegacyIdentityHeaderAuth (enabled : bool) (h : Handler) : Handler :=
  {| identityStore := identityStore h; sessionManager := sessionManager h; sessionHeaderSecret := sessionHeaderSecret h;
     allowLegacyIdentityHeaderAuth := enabled |}.
Definition New (opts : list (option (Handler -> Handler))) : Handler :=
  fold_left (fun h opt => match opt with Some f => f h | None => h end) opts
    {| identityStore := None; sessionManager := None; sessionHeaderSecret := ""; allowLegacyIdentityHeaderAuth := false |}.

Inductive payload : Type :=
| SuccessResponse (session : session_view) (identity_id : string) (traits_email : option string)
| Changed
| ErrorBody (code message : string).
(** [rs_session]: the session whose cookie was set. *)
Record response : Type := { rs_status : Z; rs_payload : payload; rs_session : option Session }.

Definition writeError (status : Z) (code message : string) : response :=
  {| rs_status := status; rs_payload := ErrorBody code message; rs_session := None |}.
Definition internal_error : response := writeError 500 "internal_error" "An internal error occurred".
Definition invalid_body : response := writeError 400 "invalid_request" "Invalid request body".

Definition handleServiceError (e : svc_error) : response :=
  match e with
  | ErrPasswordTooShort => writeError 400 "password_too_short" "Password must be at least 8 characters"
  | ErrPasswordTooWeak => writeError 400 "password_too_weak" "Password does not meet complexity requirements"
  | ErrPasswordBreached =>
      writeError 400 "password_breached" "This password has been found in a data breach. Please choose a different password."
  | ErrPasswordReused => writeError 400 "password_reused" "This password was used recently. Please choose a different password."
  | ErrPasswordSimilar => writeError 400 "password_similar" "Password is too similar to your email or username"
  | ErrInvalidCredentials => writeError 401 "invalid_credentials" "The provided credentials are invalid"
  | ErrIdentityNotFound => writeError 404 "identity_not_found" "Identity not found"
  | _ => internal_error
  end.

(** What a request draws; the breach database is asked twice by a
    registration. *)
Record pdraws : Type := {
  pd_hibp1 : string -> hibp_reply; pd_hibp2 : string -> hibp_reply;
  pd_salt : option string; pd_id : uuid; pd_now1 : time; pd_now2 : time;
  pd_headers : time;
  pd_session_now : time; pd_session_id : uuid; pd_rand1 : option string; pd_rand2 : option string;
}.

Section handler.
Context `{UuidText} `{Hasher} `{Runes} `{ScanOrder} (cfg : Config) (h : Handler).

Abbreviation AM := (M app Empty_set).

Definition service {A} (m : M pwd_db svc_error A) : AM (result svc_error A) := attempt (zoom a_pwd put_pwd m).
Definition sessions {A} (m : M session_db session_error A) : AM (result session_error A) :=
  attempt (zoom a_sessions put_sessions m).

Definition resolveRegistrationIdentityID (email : string) : AM (option uuid) := fun w =>
  match identityStore h with
  | None => (Ok None, w)
  | Some create =>
      match create email (t_ids (a_pwd (w_db w))) with
      | Err _ => (Ok None, w)
      | Ok (id, ids) =>
          let p := a_pwd (w_db w) in
          (Ok (Some id), World (put_pwd {| t_creds := t_creds p; t_history := t_history p; t_ids := ids |} (w_db w)) (w_faults w))
      end
  end.

(** [createSession]: the session and its view, or an error. *)
Definition createSession (r : Request) (identityID : uuid) (d : pdraws) : AM (option (Session * session_view)) :=
  match sessionManager h with
  | None => mret None
  | Some m =>
      created ← sessions (Manager.Create m identityID AuthMethodPassword
        {| dev_UserAgent := Header_Get (Header r) "User-Agent"; dev_IPAddress := requestIP r; dev_Location := "" |}
        (pd_session_now d) (pd_session_id d) (pd_rand1 d) (pd_rand2 d));
      mret match created with
      | Err _ => None
      | Ok s => Some (s, {| sv_ID := uuid_string (Session.ID s); sv_IdentityID := uuid_string (Session.IdentityID s);
                            sv_AAL := SessionAAL s |})
      end
  end.

Definition HandleRegistration (r : Request) (body : option (string * string)) (d : pdraws) : AM response :=
  match body with
  | None => mret invalid_body
  | Some (email, password) =>
      let email := ToLower (TrimSpace email) in
      if String.eqb email "" then mret (writeError 400 "missing_email" "Email is required")
      else if String.eqb password "" then mret (writeError 400 "missing_password" "Password is required")
      else match ValidatePassword cfg (pd_hibp1 d) password email with
      | Err e => mret (handleServiceError e)
      | Ok _ =>
          resolved ← resolveRegistrationIdentityID email;
          match resolved with
          | None => mret internal_error
          | Some identityID =>
              registered ← service (Register cfg (pd_hibp2 d) identityID email password (pd_salt d) (pd_id d) (pd_now1 d) (pd_now2 d));
              match registered with
              | Err e => mret (handleServiceError e)
              | Ok _ =>
                  created ← createSession r identityID d;
                  mret match created with
                  | None => internal_error
                  | Some (s, view) =>
                      {| rs_status := 201; rs_session := Some s;
                         rs_payload := SuccessResponse view (uuid_string identityID) (Some email) |}
                  end
              end
          end
      end
  end.

Definition HandleLogin (r : Request) (body : option (string * string)) (d : pdraws) : AM response :=
  match body with
  | None => mret invalid_body
  | Some (ident, password) =>
      let identifier := TrimSpace ident in
      if String.eqb identifier "" || String.eqb password ""
      then mret (writeError 400 "missing_credentials" "Identifier and password are required")
      else
        verified ← service (Verify identifier password);
        match verified with
        | Err ErrInvalidCredentials =>
            mret (writeError 401 "invalid_credentials"
              "The provided credentials are invalid. Check for spelling mistakes or use another login method.")
        | Err e => mret (handleServiceError e)
        | Ok identityID =>
            created ← createSession r identityID d;
            mret match created with
            | None => internal_error
            | Some (s, view) => {| rs_status := 200; rs_session := Some s; rs_payload := SuccessResponse view "" None |}
            end
        end
  end.

Definition identityIDFromRequest (ctx : ctx_value) (r : Request) (now : time) : option uuid :=
  match GetContext ctx with
  | Some {| ctx_IdentityID := Npos p |} => Some (Npos p)
  | _ =>
      if negb (String.eqb (sessionHeaderSecret h) "") && hasSignedSessionContextHeaders r then
        match VerifyHeaders r (sessionHeaderSecret h) now with
        | Ok c => if (ctx_IdentityID c =? uuid_Nil)%N then None else Some (ctx_IdentityID c)
        | Err _ => None
        end
      else if negb (allowLegacyIdentityHeaderAuth h) then None
      else legacy_identity r ["X-Aegion-Session-Identity-ID"; "X-Aegion-Identity-ID"; "X-User-ID"]
  end.

Definition HandleChangePassword (ctx : ctx_value) (r : Request) (body : option (string * string)) (d : pdraws) : AM response :=
  match identityIDFromRequest ctx r (pd_headers d) with
  | None => mret (writeError 401 "unauthorized" "Session required")
  | Some identityID =>
      match body with
      | None => mret invalid_body
      | Some (oldPassword, newPassword) =>
          changed ← service (ChangePassword cfg (pd_hibp1 d) identityID oldPassword newPassword
            {| d_salt := pd_salt d; d_hist := pd_id d; d_now1 := pd_now1 d; d_now2 := pd_now2 d |});
          mret match changed with
          | Err e => handleServiceError e
          | Ok _ => {| rs_status := 200; rs_session := None; rs_payload := Changed |}
          end
      end
  end.

Inductive http_request : Type :=
| PostRegistration (body : option (string * string))
| PostLogin (body : option (string * string))
| PostChange (body : option (string * string)).

Definition handle (ctx : ctx_value) (r : Request) (q : http_request) (d : pdraws) : AM response :=
  match q with
  | PostRegistration b => HandleRegistration r b d
  | PostLogin b => HandleLogin r b d
  | PostChange b => HandleChangePassword ctx r b d
  end.

(** ** A session needs the password *)

Lemma pwd_service_run {A} (m : M pwd_db svc_error A) (w : world app) r w' :
  service m w = (r, w') -> a_sessions (w_db w') = a_sessions (w_db w) /\
    exists r1 w1, r = Ok r1 /\ m (World (a_pwd (w_db w)) (w_faults w)) = (r1, w1) /\ a_pwd (w_db w') = w_db w1.
Proof.
  unfold service, attempt, M_try. destruct (zoom _ _ m w) as [r1 w1] eqn:E. intros [= <- <-].
  apply zoom_run in E as (w2 & E & ->). split; [done|]. by exists r1, w2.
Qed.

Lemma createSession_run r i d w res w' :
  createSession r i d w = (res, w') ->
  a_pwd (w_db w') = a_pwd (w_db w) /\
  forall sid row, t_sessions (a_sessions (w_db w')) !! sid = Some row ->
    t_sessions (a_sessions (w_db w)) !! sid = Some row \/ (row_identity row = i /\ row_aal row = AAL1).
Proof.
  unfold createSession. destruct (sessionManager h) as [m|]; [|intros [= <- <-]; by split; [|left]].
  rewrite M_bind_run. unfold sessions, attempt, M_try, zoom. 
  match goal with |- context [Manager.Create m i AuthMethodPassword ?dv ?n ?id ?r1 ?r2 ?w0] =>
    pose proof (fun sid row => Create_adds m i AuthMethodPassword dv n id r1 r2 w0 sid row) as Hadd;
    destruct (Manager.Create m i AuthMethodPassword dv n id r1 r2 w0) as [rc w1] end.
  intros [= <- <-]. cbn [w_db a_pwd a_sessions put_sessions fst snd] in *. split; [done|]. intros sid row Hs.
  destruct (Hadd _ _ Hs) as [?|(_ & Hi & Ha)]; [by left|right]. split; [exact Hi|exact Ha].
Qed.

(** The identifier and the password a request presents. *)
Definition presented (q : http_request) : option (string * string) :=
  match q with
  | PostRegistration (Some (email, password)) => Some (ToLower (TrimSpace email), password)
  | PostLogin (Some (ident, password)) => Some (ToLower (TrimSpace ident), password)
  | _ => None
  end.

(** The session belongs to a stored credential of the presented identifier
    that accepts the presented password; at a log-in it was stored before. *)
Definition session_justified (q : http_request) (w w' : world app) (row : session_row) : Prop :=
  row_aal row = AAL1 /\
  exists ident password id cred, presented q = Some (ident, password) /\ t_creds (a_pwd (w_db w')) !! id = Some cred /\
    p_identifier cred = ident /\ p_identity cred = row_identity row /\ HVerify password (p_hash cred) = Ok true /\
    (match q with PostRegistration _ => t_creds (a_pwd (w_db w)) !! id = None | _ => t_creds (a_pwd (w_db w)) !! id = Some cred end).

Definition adds_justified (q : http_request) (m : AM response) : Prop :=
  forall w sid row, t_sessions (a_sessions (w_db (m w).2)) !! sid = Some row ->
    t_sessions (a_sessions (w_db w)) !! sid = Some row \/ session_justified q w (m w).2 row.

Lemma lower_case_idem s : ToLower (ToLower s) = ToLower s.
Proof.
  unfold ToLower. induction s as [|c s IH]; [done|]. cbn. rewrite IH. f_equal. by destruct c as [[] [] [] [] [] [] [] []].
Qed.

Lemma Register_ok hibp i ident pw salt id n1 n2 w u w' :
  drawn salt -> Register cfg hibp i ident pw salt id n1 n2 w = (Ok u, w') ->
  t_creds (w_db w) !! id = None /\ exists cred, t_creds (w_db w') !! id = Some cred /\ p_identifier cred = ToLower ident /\
    p_identity cred = i /\ HVerify pw (p_hash cred) = Ok true.
Proof.
  intros Hd. unfold Register. rewrite M_bind_run. unfold lift_result. destruct (ValidatePassword _ _ _ _) as [u1|e]; [|done].
  rewrite M_bind_run. unfold hashed. destruct (Hash pw salt) as [hs|e] eqn:Eh; [|done].
  rewrite M_ret_run, call_run. destruct (Create _ w) as [[u2|e] w1] eqn:E; [|done]. intros [= <- <-].
  apply insert_credential_run in E as (Hn & _ & Hdb). cbn in Hn. split; [done|]. rewrite Hdb. cbn [cr_ID]. rewrite lookup_insert_eq.
  eexists. split; [done|]. cbn. split_and!; [done..|]. by eapply Hash_Verify.
Qed.

Lemma Verify_ok ident pw w i w' :
  Verify ident pw w = (Ok i, w') ->
  w_db w' = w_db w /\ exists id cred, t_creds (w_db w) !! id = Some cred /\ p_identifier cred = ToLower ident /\
    p_identity cred = i /\ HVerify pw (p_hash cred) = Ok true.
Proof.
  unfold Verify, GetByIdentifier. rewrite M_bind_run, call_run.
  match goal with |- context [(db_stmt ?q ≫= ?f) w] => destruct ((db_stmt q ≫= f) w) as [[c|e] w1] eqn:E end; [|by destruct e].
  apply lookup_run in E as (Hw & row & Hr & Hc & Hp). apply String.eqb_eq in Hp.
  destruct (HVerify pw (cr_Hash c)) as [[]|] eqn:Hv; [|done..]. intros [= <- <-]. split; [done|].
  exists (cr_ID c), row. rewrite Hc in Hv |- *. done.
Qed.

Lemma Verify_keeps ident pw w r w' : Verify ident pw w = (r, w') -> w_db w' = w_db w.
Proof.
  unfold Verify, GetByIdentifier. rewrite M_bind_run, call_run.
  match goal with |- context [(db_stmt ?q ≫= ?f) w] => destruct ((db_stmt q ≫= f) w) as [[c|e] w1] eqn:E end;
    apply lookup_run in E as (Hw & _).
  - destruct (HVerify pw (cr_Hash c)) as [[]|]; by intros [= <- <-].
  - by intros [= <- <-].
Qed.

Lemma registration_justified r body d : drawn (pd_salt d) -> adds_justified (PostRegistration body) (HandleRegistration r body d).
Proof.
  intros Hd w sid row. unfold HandleRegistration. destruct body as [[email password]|]; [|by left]. cbv zeta.
  destruct (String.eqb _ ""); [by left|]. destruct (String.eqb password ""); [by left|].
  destruct (ValidatePassword _ _ _ _) as [u|e]; [|by left]. rewrite M_bind_run.
  destruct (resolveRegistrationIdentityID _ w) as [ri w1] eqn:Er.
  assert (Hr : a_sessions (w_db w1) = a_sessions (w_db w) /\ t_creds (a_pwd (w_db w1)) = t_creds (a_pwd (w_db w))).
  { unfold resolveRegistrationIdentityID in Er. destruct (identityStore h) as [create|]; [|by injection Er as <- <-].
    destruct (create _ _) as [[i ids]|]; by injection Er as <- <-. }
  destruct Hr as [Hs Hc]. destruct ri as [[i|]|[]]; [|cbn; rewrite Hs; by left].
  rewrite M_bind_run. destruct (service _ w1) as [rs w2] eqn:Ev.
  apply pwd_service_run in Ev as (Hs2 & r1 & w3 & -> & Ev & Hp2). destruct r1 as [u1|e]; [|cbn; rewrite Hs2, Hs; by left].
  apply Register_ok in Ev as (Hnew & cred & Hcred & Hident & Hid & Hv); [|done]. cbn [w_db] in Hnew.
  rewrite M_bind_run. destruct (createSession r i d w2) as [rc w4] eqn:Ec.
  apply createSession_run in Ec as [Hp4 Hadd]. destruct rc as [rc|[]]. cbn [fst snd]. intros Hrow.
  destruct (Hadd _ _ Hrow) as [Hold|[Hi Ha]]; [left; by rewrite Hs2, Hs in Hold|right]. split; [done|].
  exists (ToLower (TrimSpace email)), password, (pd_id d), cred. rewrite lower_case_idem in Hident. split_and!; try done.
  - by rewrite M_ret_run; cbn [snd w_db]; rewrite Hp4, Hp2.
  - congruence.
  - by rewrite <- Hc.
Qed.

Lemma login_justified r body d : adds_justified (PostLogin body) (HandleLogin r body d).
Proof.
  intros w sid row. unfold HandleLogin. destruct body as [[ident password]|]; [|by left]. cbv zeta.
  destruct (_ || _); [by left|]. rewrite M_bind_run. destruct (service _ w) as [rs w2] eqn:Ev.
  apply pwd_service_run in Ev as (Hs2 & r1 & w3 & -> & Ev & Hp2). destruct r1 as [i|e]; [|by destruct e; cbn; rewrite Hs2; left].
  apply Verify_ok in Ev as (Hw & id & cred & Hcred & Hident & Hid & Hv). rewrite Hw in Hp2. cbn [w_db] in *.
  rewrite M_bind_run. destruct (createSession r i d w2) as [rc w4] eqn:Ec.
  apply createSession_run in Ec as [Hp4 Hadd]. destruct rc as [rc|[]]. cbn [fst snd]. intros Hrow.
  destruct (Hadd _ _ Hrow) as [Hold|[Hi Ha]]; [left; by rewrite Hs2 in Hold|right]. split; [done|].
  exists (ToLower (TrimSpace ident)), password, id, cred. split_and!; try done.
  - by rewrite M_ret_run; cbn [snd w_db]; rewrite Hp4, Hp2.
  - congruence.
Qed.

Lemma change_sessions ctx r body d w : a_sessions (w_db (HandleChangePassword ctx r body d w).2) = a_sessions (w_db w).
Proof.
  unfold HandleChangePassword. destruct (identityIDFromRequest _ _ _); [|done]. destruct body as [[old new]|]; [|done].
  rewrite M_bind_run. destruct (service _ w) as [rs w2] eqn:Ev. by apply pwd_service_run in Ev as (Hs2 & r1 & w3 & -> & _).
Qed.

(** C13: Log-in by password: whatever a request of the module does and
    whatever fails, a session it leaves in the database that was not there
    before has level aal1 and belongs to the identity of a credential for the
    identifier the request named, whose hash accepts the password the request
    presented; a log-in finds that credential stored, and a registration has
    just stored it. *)
Theorem password_session_needs_password ctx r q d w sid row :
  drawn (pd_salt d) ->
  t_sessions (a_sessions (w_db (handle ctx r q d w).2)) !! sid = Some row ->
  t_sessions (a_sessions (w_db w)) !! sid = Some row \/ session_justified q w (handle ctx r q d w).2 row.
Proof.
  intros Hd. destruct q as [b|b|b]; cbn [handle]; [by apply registration_justified|apply login_justified|].
  rewrite change_sessions. by left.
Qed.

Lemma Register_keeps hibp i ident pw salt id n1 n2 w r w' id0 cred :
  Register cfg hibp i ident pw salt id n1 n2 w = (r, w') -> t_creds (w_db w) !! id0 = Some cred ->
  t_creds (w_db w') !! id0 = Some cred.
Proof.
  unfold Register. rewrite M_bind_run. unfold lift_result. destruct (ValidatePassword _ _ _ _) as [u1|e]; [|by intros [= <- <-]].
  rewrite M_bind_run. unfold hashed. destruct (Hash pw salt) as [hs|e]; [|by intros [= <- <-]].
  rewrite M_ret_run, call_run. destruct (Create _ w) as [[u2|e] w1] eqn:E; apply insert_credential_run in E; intros [= <- <-] Hc.
  - destruct E as (Hn & _ & ->). rewrite lookup_insert_ne; [done|]. cbn in Hn |- *. congruence.
  - by rewrite E.
Qed.

Lemma ChangePassword_changes hibp i old new d w r w' id cred cred' :
  ChangePassword cfg hibp i old new d w = (r, w') -> t_creds (w_db w) !! id = Some cred ->
  t_creds (w_db w') !! id = Some cred' -> p_hash cred' <> p_hash cred ->
  p_identity cred = i /\ HVerify old (p_hash cred) = Ok true.
Proof.
  intros Hrun Hc Hc' Hne. unfold ChangePassword in Hrun. rewrite M_bind_run in Hrun.
  destruct (own_credential i w) as [rc w1] eqn:E1. apply own_credential_run in E1 as [Hw1 Hown].
  assert (Hno : t_creds (w_db w') <> t_creds (w_db w)) by (intros Heq; rewrite Heq in Hc'; congruence).
  destruct rc as [c|e]; [|injection Hrun as <- <-; by rewrite Hw1 in Hno].
  destruct Hown as (row & Hrow & Hcr & Hi). destruct (accepts old (cr_Hash c)) eqn:Ha;
    [|injection Hrun as <- <-; by rewrite Hw1 in Hno].
  cbn [negb] in Hrun. rewrite M_bind_run in Hrun. destruct (replace_password _ _ c new d w1) as [rp w2] eqn:E2.
  apply replace_password_run in E2. rewrite Hw1 in E2. destruct rp as [u|e]; [|by injection Hrun as <- <-].
  destruct E2 as (row' & hs & Hr' & _ & Hdb). rewrite Hrow in Hr'. injection Hr' as <-.
  rewrite call_run in Hrun. destruct (CleanupHistory _ _ w2) as [rl w3] eqn:E3. apply CleanupHistory_creds in E3.
  assert (w' = w3) as -> by (by destruct rl; injection Hrun). rewrite E3, Hdb in Hc'.
  apply lookup_insert_Some in Hc' as [[<- _]|[_ Hl]]; [|congruence]. rewrite Hrow in Hc. injection Hc as <-.
  split; [done|]. apply accepts_true. rewrite Hcr in Ha. exact Ha.
Qed.

Lemma registration_keeps r body d w id cred :
  t_creds (a_pwd (w_db w)) !! id = Some cred -> t_creds (a_pwd (w_db (HandleRegistration r body d w).2)) !! id = Some cred.
Proof.
  intros Hc. unfold HandleRegistration. destruct body as [[email password]|]; [|done]. cbv zeta.
  destruct (String.eqb _ ""); [done|]. destruct (String.eqb password ""); [done|].
  destruct (ValidatePassword _ _ _ _) as [u|e]; [|done]. rewrite M_bind_run.
  destruct (resolveRegistrationIdentityID _ w) as [ri w1] eqn:Er.
  assert (Hr : t_creds (a_pwd (w_db w1)) = t_creds (a_pwd (w_db w))).
  { unfold resolveRegistrationIdentityID in Er. destruct (identityStore h) as [create|]; [|by injection Er as <- <-].
    destruct (create _ _) as [[i ids]|]; by injection Er as <- <-. }
  rewrite <- Hr in Hc. destruct ri as [[i|]|[]]; [|done].
  rewrite M_bind_run. destruct (service _ w1) as [rs w2] eqn:Ev.
  apply pwd_service_run in Ev as (_ & r1 & w3 & -> & Ev & Hp2). eapply Register_keeps in Ev; [|exact Hc].
  rewrite <- Hp2 in Ev. destruct r1 as [u1|e]; [|done].
  rewrite M_bind_run. destruct (createSession r i d w2) as [rc w4] eqn:Ec.
  apply createSession_run in Ec as [Hp4 _]. destruct rc as [rc|[]]. cbn. by rewrite Hp4.
Qed.

Lemma login_keeps r body d w : a_pwd (w_db (HandleLogin r body d w).2) = a_pwd (w_db w).
Proof.
  unfold HandleLogin. destruct body as [[ident password]|]; [|done]. cbv zeta.
  destruct (_ || _); [done|]. rewrite M_bind_run. destruct (service _ w) as [rs w2] eqn:Ev.
  apply pwd_service_run in Ev as (_ & r1 & w3 & -> & Ev & Hp2). apply Verify_keeps in Ev. rewrite Ev in Hp2. cbn [w_db] in Hp2.
  destruct r1 as [i|e]; [|by destruct e]. rewrite M_bind_run. destruct (createSession r i d w2) as [rc w4] eqn:Ec.
  apply createSession_run in Ec as [Hp4 _]. destruct rc as [rc|[]]. cbn. by rewrite Hp4.
Qed.

(** A stored password is replaced only by its owner: when a request of
    the module changes the hash of a stored credential, whatever fails, the
    request came with the identity of that credential and with a password its
    hash accepts. *)
Theorem password_replaced_by_owner ctx r q d w id cred cred' :
  t_creds (a_pwd (w_db w)) !! id = Some cred ->
  t_creds (a_pwd (w_db (handle ctx r q d w).2)) !! id = Some cred' -> p_hash cred' <> p_hash cred ->
  exists old new, q = PostChange (Some (old, new)) /\
    identityIDFromRequest ctx r (pd_headers d) = Some (p_identity cred) /\
    HVerify old (p_hash cred) = Ok true.
Proof.
  intros Hc Hc' Hne. destruct q as [b|b|b]; cbn [handle] in Hc'.
  - rewrite (registration_keeps _ _ _ _ _ _ Hc) in Hc'. congruence.
  - rewrite login_keeps in Hc'. congruence.
  - unfold HandleChangePassword in Hc'. destruct (identityIDFromRequest ctx r (pd_headers d)) as [i|]; [|cbn in Hc'; congruence].
    destruct b as [[old new]|]; [|cbn in Hc'; congruence]. exists old, new. rewrite M_bind_run in Hc'.
    destruct (service _ w) as [rs w2] eqn:Ev. apply pwd_service_run in Ev as (_ & r1 & w3 & -> & Ev & Hp2).
    cbn in Hc'. rewrite Hp2 in Hc'. by destruct (ChangePassword_changes _ _ _ _ _ _ _ _ _ _ _ Ev Hc Hc' Hne) as [<- Hv].
Qed.
End handler.

(** ** Concrete runs *)

Module PasswordWitness.
#[local] Instance ids : UuidText := unary_uuid.
#[local] Instance order : ScanOrder := key_order.
#[local] Instance prims : Primitives := toy_primitives.
#[local] Instance hasher : Hasher := runtimePasswordHasher.hasher.
(** The classes of ASCII characters. *)
Definition between (lo hi c : Z) : bool := ((lo <=? c) && (c <=? hi))%Z.
#[local] Instance ascii_runes : Runes :=
  {| IsUpper := between 65 90; IsLower := between 97 122; IsNumber := between 48 57;
     IsPunct c := between 33 35 c || between 37 42 c || between 44 47 c; IsSymbol c := (c =? 36)%Z || (c =? 43)%Z |}.

Definition cfg : Config := Service.New
  {| MinLength := 0; RequireUppercase := true; RequireLowercase := true; RequireNumber := true; RequireSpecial := true;
     HIBPEnabled := true; HIBPTimeout := 0; HIBPBaseURL := ""; HIBPIgnoreNetworkErrors := false; HIBPMinBreachCount := 0;
     HistoryCount := 2 |}.
(** A breach database that lists one suffix under every prefix. *)
Definition breached : string := "Breached1!".
Definition entries : list (string * Z) :=
  [("0018A45C4D1DEF81644B54AB7F969B88D65", 3%Z); (str_drop 5 (hibp_hash breached), 21%Z)].
Definition hibp (url : string) : hibp_reply :=
  Replied 200 (Some (range_body entries)).
Definition salt : option string := Some "0123456789abcdef".
Definition d (hist : uuid) (t : time) : draws := {| d_salt := salt; d_hist := hist; d_now1 := t; d_now2 := t |}.
Definition db0 : pwd_db := {| t_creds := ∅; t_history := ∅; t_ids := {[ 7%N ]} |}.
Definition pw (n : nat) : string := "Password" +:+ zeros n +:+ "!1x".
Definition os : list op :=
  [ORegister 7 "Me@here" (pw 1) salt 1 1 1; OChange 7 (pw 1) (pw 2) (d 11 2); OReset 7 (pw 3) (d 12 3);
   OChange 7 (pw 1) (pw 4) (d 13 4)].

Definition outcome : list bool * world pwd_db := run_ops cfg hibp os (World db0 []).
Lemma password_service_refines_accounts_witness :
  exists acc, account_run os outcome.1 ∅ acc /\
    (forall ident p i w'', Verify ident p outcome.2 = (Ok i, w'') ->
       exists cur, acc !! ToLower ident = Some (i, cur) /\ confusable p cur) /\
    (forall ident i cur, acc !! ToLower ident = Some (i, cur) ->
       (Verify ident cur outcome.2).1 = Ok i \/
       exists msg, (Verify ident cur outcome.2).1 = Err (SvcStore (StoreDb (DbFault msg)))).
Proof.
  unfold outcome. destruct (run_ops cfg hibp os (World db0 [])) as [oks w] eqn:E. cbn [fst snd].
  apply (password_service_refines_accounts cfg hibp os (World db0 []) oks w); [reflexivity|repeat constructor|exact E].
Defined.

(** The fourth request is refused, and the account has the third password. *)
Example third_password_logs_in :
  outcome.1 = [true; true; true; false] /\ (Verify "ME@HERE" (pw 3) outcome.2).1 = Ok 7%N.
Proof. vm_compute. done. Qed.

Definition after (n : nat) : list string * pwd_db := run_past cfg hibp 1 (take n os) db0 [].
Definition own (n : nat) : Credential :=
  default {| cr_ID := 0; cr_IdentityID := 0; cr_Identifier := ""; cr_Hash := ""; cr_CreatedAt := 0; cr_UpdatedAt := 0 |}
    (first_cred (fun r => (p_identity r =? 7)%N) (after n).2).
Lemma recent_passwords_are_refused_witness :
  exists e, run (ResetPassword cfg hibp 7 (pw 1) (d 14 5)) (after 3).2 = (Err e, (after 3).2).
Proof.
  refine (proj1 (recent_passwords_are_refused cfg hibp ltac:(vm_compute; reflexivity) 1%N 0%Z (take 3 os) db0 (after 3).1 (after 3).2 7%N (own 3)
    (pw 1) (d 14 5) (default "" (last (after 3).1)) _ _ _ _ _ _ _)).
  - reflexivity.
  - vm_compute. auto.
  - vm_compute. reflexivity.
  - vm_compute. reflexivity.
  - vm_compute. reflexivity.
  - vm_compute. right. left.
  - vm_compute. reflexivity.
Defined.

(** The current password is not part of the history: it can be set again. *)
Lemma current_password_can_be_set_again :
  (run (ChangePassword cfg hibp 7 (pw 3) (pw 3) (d 14 5)) (after 3).2).1 = Ok tt.
Proof. vm_compute. reflexivity. Qed.

Lemma breach_check_decides_witness : checkHIBP cfg hibp breached = Err ErrPasswordBreached.
Proof.
  pose proof (breach_check_decides cfg hibp breached) as Hb. cbn [hibp] in Hb. rewrite (Hb entries); [| |reflexivity].
  - vm_compute. reflexivity.
  - repeat (apply Forall_cons; split; [by vm_compute|]). constructor.
Defined.

(** An enabled breach check fails closed unless configured otherwise, although
    ignoring errors is documented as the default. *)
Lemma enabled_breach_check_fails_closed : is_ok (checkHIBP cfg (fun _ => DoFailed "timeout") (pw 1)) = false.
Proof. vm_compute. reflexivity. Qed.

(** *** Over HTTP *)

Definition create (email : string) (ids : gset N) : result string (uuid * gset N) := Ok (8%N, {[ 8%N ]} ∪ ids).
Definition hnd : Handler := New [Some (WithIdentityStore create); Some (WithSessionManager mgr); None].
Definition pd (id sid : uuid) : pdraws :=
  {| pd_hibp1 := hibp; pd_hibp2 := hibp; pd_salt := salt; pd_id := id; pd_now1 := 1; pd_now2 := 1; pd_headers := 1;
     pd_session_now := 2; pd_session_id := sid; pd_rand1 := Some "r1"; pd_rand2 := Some "r2" |}.
Definition request : Request := HttpWitness.request "/self-service/login/methods/password".
Definition app0 : app := {| a_pwd := (after 3).2; a_sessions := SessionFacts.empty_db |}.
Definition login : http_request := PostLogin (Some (" Me@Here ", pw 3)).
Definition after_login : world app := (handle cfg hnd CtxEmpty request login (pd 20 50) (World app0 [])).2.
Definition session0 : session_row :=
  default HttpWitness.session_row0 (t_sessions (a_sessions (w_db after_login)) !! 50%N).
Lemma password_session_needs_password_witness :
  t_sessions (a_sessions app0) !! 50%N = Some session0 \/ session_justified login (World app0 []) after_login session0.
Proof.
  apply (password_session_needs_password cfg hnd CtxEmpty request login (pd 20 50) (World app0 []) 50%N session0); by vm_compute.
Defined.

Definition me : ctx_value := CtxContext
  (Some {| ctx_SessionID := 1; ctx_IdentityID := 7; ctx_AAL := AAL1; ctx_RequestID := ""; ctx_IsAdmin := false |}).
Definition change : http_request := PostChange (Some (pw 3, pw 5)).
Definition row_at (a : app) : cred_row :=
  default {| p_identity := 0; p_identifier := ""; p_hash := ""; p_created := 0; p_updated := 0 |} (t_creds (a_pwd a) !! 1%N).
Definition after_change : app := w_db (handle cfg hnd me request change (pd 20 50) (World app0 [])).2.
Lemma password_replaced_by_owner_witness :
  exists old new, change = PostChange (Some (old, new)) /\
    identityIDFromRequest hnd me request 1 = Some (p_identity (row_at app0)) /\ HVerify old (p_hash (row_at app0)) = Ok true.
Proof.
  apply (password_replaced_by_owner cfg hnd me request change (pd 20 50) (World app0 []) 1%N (row_at app0) (row_at after_change)).
  - vm_compute. reflexivity.
  - vm_compute. reflexivity.
  - vm_compute. discriminate.
Defined.

(** A second registration of an address is an internal error, and leaves an
    identity without a credential behind. *)
Definition register_again : http_request := PostRegistration (Some ("me@here", pw 1)).
Lemma second_registration_is_internal_error :
  let '(r, w) := handle cfg hnd CtxEmpty request register_again (pd 20 50) (World app0 []) in
  (exists resp, r = Ok resp /\ rs_status resp = 500%Z) /\
  bool_decide (8%N ∈ t_ids (a_pwd (w_db w))) = true /\ t_creds (a_pwd (w_db w)) = t_creds (a_pwd app0).
Proof. vm_compute. eauto. Qed.
End PasswordWitness.
