(* ===== verification/Jwt.v ===== *)
(** internal/platform/jwt/jwt.go: JSON web tokens.

    Parameters: JSON coding of headers and claim objects ([JwtJson]) and the
    signature schemes and key formats of the crypto packages ([Signatures]),
    with what their documentation promises.  A JSON number is kept as its
    text, as [UseNumber] does. *)

From Stdlib Require Import Ascii String DecimalString.
From S2P Require Import Prelude GoStrings GoEncoding GoSha256 PlatformCrypto CryptoFields.

Local Open Scope string_scope.

Inductive jwt_error : Type :=
| ErrKeyGenFailed
| ErrSigningFailed
| ErrVerifyFailed
| ErrInvalidToken
| ErrInvalidAlg
| ErrInvalidKey
| ErrInvalidLeeway
| ErrTokenExpired
| ErrTokenNotYetValid
| ErrMarshal.   (* an error of encoding/json *)

(** ** Claims *)

Inductive jval : Type :=
| JString (s : string)
| JNumber (text : string)
| JBool (b : bool)
| JNull
| JOther (text : string).   (* arrays and objects *)

Definition reservedClaimNames : list string := ["iss"; "sub"; "aud"; "exp"; "nbf"; "iat"; "jti"; "sid"].
Definition reserved (k : string) : bool := existsb (String.eqb k) reservedClaimNames.

Record Claims : Type := {
  Issuer : string; Subject : string; Audience : string;
  ExpiresAt : Z; NotBefore : Z; IssuedAt : Z;
  JWTID : string; SessionID : string;
  Custom : gmap string jval;
}.

Definition put_string (k s : string) (m : gmap string jval) : gmap string jval :=
  if String.eqb s "" then m else <[k := JString s]> m.
Definition put_int (k : string) (z : Z) (m : gmap string jval) : gmap string jval :=
  if (z =? 0)%Z then m else <[k := JNumber (FormatInt z)]> m.

(** The object [MarshalJSON] encodes; reserved custom claims are skipped. *)
Definition claims_object (c : Claims) : gmap string jval :=
  let m := put_string "sid" (SessionID c) (put_string "jti" (JWTID c) (put_int "iat" (IssuedAt c)
    (put_int "nbf" (NotBefore c) (put_int "exp" (ExpiresAt c) (put_string "aud" (Audience c)
      (put_string "sub" (Subject c) (put_string "iss" (Issuer c) ∅))))))) in
  filter (fun kv => reserved kv.1 = false) (Custom c) ∪ m.

(** [json.Number.Int64]: a number out of range gives the nearest bound, a
    number that is not an integer gives zero; the error is dropped. *)
Definition number_Int64 (text : string) : Z :=
  let clamp z := Z.max int64_min (Z.min int64_max z) in
  match text with
  | String "-" d => match NilZero.uint_of_string d with Some u => clamp (- Z.of_uint u)%Z | None => 0%Z end
  | _ => match NilZero.uint_of_string text with Some u => clamp (Z.of_uint u) | None => 0%Z end
  end.
Definition numberToInt64 (v : jval) : Z := match v with JNumber t => number_Int64 t | _ => 0%Z end.

Definition get_string (k : string) (m : gmap string jval) : string :=
  match m !! k with Some (JString s) => s | _ => "" end.
Definition get_int (k : string) (m : gmap string jval) : Z :=
  match m !! k with Some v => numberToInt64 v | None => 0%Z end.

(** [UnmarshalJSON] of the decoded object. *)
Definition object_claims (m : gmap string jval) : Claims :=
  {| Issuer := get_string "iss" m; Subject := get_string "sub" m; Audience := get_string "aud" m;
     ExpiresAt := get_int "exp" m; NotBefore := get_int "nbf" m; IssuedAt := get_int "iat" m;
     JWTID := get_string "jti" m; SessionID := get_string "sid" m;
     Custom := filter (fun kv => reserved kv.1 = false) m |}.

Record jwtHeader : Type := { Alg : string; Typ : string; KID : string }.

(** encoding/json on headers and claim objects; [encodable]: the strings are
    valid UTF-8 and the number texts are JSON numbers. *)
Class JwtJson := {
  header_Marshal : jwtHeader -> option string;
  header_Unmarshal : string -> option jwtHeader;
  object_Marshal : gmap string jval -> option string;
  object_Unmarshal : string -> option (gmap string jval);
  encodable_header : jwtHeader -> Prop;
  encodable : gmap string jval -> Prop;
  header_round_trip : forall h b, encodable_header h -> header_Marshal h = Some b -> header_Unmarshal b = Some h;
  object_round_trip : forall m b, encodable m -> object_Marshal m = Some b -> object_Unmarshal b = Some m;
}.

(** ** Signatures *)

(** A parsed PKCS #8 key. *)
Inductive private_key (E D : Type) : Type := P256Key (k : E) | Ed25519Key (k : D) | OtherKey.
Arguments P256Key {E D} k.
Arguments Ed25519Key {E D} k.
Arguments OtherKey {E D}.

(** The schemes: [ecdsa_Sign] takes what it draws; [Unmarshal_point] reads
    what [Marshal_point] writes, and what is signed verifies. *)
Class Signatures := {
  ec_key : Type; ed_key : Type; rsa_key : Type;
  ParsePKCS8PrivateKey : string -> option (private_key ec_key ed_key);
  ec_point : ec_key -> Z * Z;
  ed_public : ed_key -> string;
  Unmarshal_point : string -> option (Z * Z);
  Marshal_point : Z * Z -> string;
  ecdsa_Sign : ec_key -> string -> string -> option (Z * Z);
  ecdsa_Verify : Z * Z -> string -> Z -> Z -> bool;
  ed25519_Sign : ed_key -> string -> string;
  ed25519_Verify : string -> string -> string -> bool;
  ParsePKCS1PublicKey : string -> option rsa_key;
  ParsePKIXPublicKey : string -> option (option rsa_key);   (* Some None: a key of another kind *)
  rsa_VerifyPKCS1v15 : rsa_key -> string -> string -> bool;
  Unmarshal_Marshal : forall k, Unmarshal_point (Marshal_point (ec_point k)) = Some (ec_point k);
  Marshal_nonempty : forall k, Marshal_point (ec_point k) <> "";
  ed_public_length : forall k, String.length (ed_public k) = 32%nat;
  ecdsa_Sign_range : forall k digest rand r s, ecdsa_Sign k digest rand = Some (r, s) ->
    (0 <= r < 2 ^ 256 /\ 0 <= s < 2 ^ 256)%Z;
  ecdsa_Verify_Sign : forall k digest rand r s, ecdsa_Sign k digest rand = Some (r, s) ->
    ecdsa_Verify (ec_point k) digest r s = true;
  ed25519_Verify_Sign : forall k msg, ed25519_Verify (ed_public k) msg (ed25519_Sign k msg) = true;
}.

(** [big.Int.Bytes]: big-endian without leading zeros; [fuel] is a bound on
    the number of bytes. *)
Fixpoint Bytes_loop (fuel : nat) (z : Z) (acc : string) : string :=
  match fuel with
  | O => acc
  | S fuel => if (z <=? 0)%Z then acc else Bytes_loop fuel (z / 256) (String (ascii_of_N (Z.to_N (z mod 256))) acc)
  end.
Definition Bytes (z : Z) : string := Bytes_loop (Z.to_nat (Z.log2 z + 1)) z "".
Definition SetBytes (b : string) : Z := big_endian 0 b.
Fixpoint zero_bytes (n : nat) : string := match n with O => "" | S n => String "000" (zero_bytes n) end.
Definition padBytes (s : string) (size : nat) : string :=
  if (size <=? String.length s)%nat then s else zero_bytes (size - String.length s) +:+ s.

Section jwt.
Context `{JwtJson} `{Signatures}.

Record KeyPair : Type := { kp_Algorithm : string; kp_KeyID : string; kp_PrivateKey : string; kp_PublicKey : string }.

(** GenerateECKeyPair; [made]: the key ecdsa.GenerateKey drew with its PKCS #8
    form, or a failure. *)
Definition GenerateECKeyPair (keyID : string) (made : option (ec_key * option string)) : result jwt_error KeyPair :=
  match made with
  | Some (key, Some privateKey) =>
      Ok {| kp_Algorithm := "ES256"; kp_KeyID := keyID; kp_PrivateKey := privateKey; kp_PublicKey := Marshal_point (ec_point key) |}
  | _ => Err ErrKeyGenFailed
  end.

Definition signBytes (message privateKey algorithm rand : string) : result jwt_error string :=
  match ParsePKCS8PrivateKey privateKey with
  | None => Err ErrInvalidKey
  | Some parsed =>
      if String.eqb algorithm "ES256" then
        match parsed with
        | P256Key key =>
            match ecdsa_Sign key (sha256 message) rand with
            | Some (r, s) => Ok (padBytes (Bytes r) 32 +:+ padBytes (Bytes s) 32)
            | None => Err ErrSigningFailed
            end
        | _ => Err ErrInvalidKey
        end
      else if String.eqb algorithm "EdDSA" then
        match parsed with
        | Ed25519Key key => Ok (ed25519_Sign key message)
        | _ => Err ErrInvalidKey
        end
      else Err ErrInvalidAlg
  end.

Definition Sign (claims : Claims) (privateKey algorithm keyID rand : string) : result jwt_error string :=
  if String.eqb privateKey "" then Err ErrInvalidKey
  else match header_Marshal {| Alg := algorithm; Typ := "JWT"; KID := keyID |} with
  | None => Err ErrSigningFailed
  | Some headerJSON =>
      match object_Marshal (claims_object claims) with
      | None => Err ErrMarshal
      | Some claimsJSON =>
          let signingInput := b64url_Encode headerJSON +:+ "." +:+ b64url_Encode claimsJSON in
          match signBytes signingInput privateKey algorithm rand with
          | Ok signature => Ok (signingInput +:+ "." +:+ b64url_Encode signature)
          | Err ErrInvalidAlg => Err ErrInvalidAlg
          | Err ErrInvalidKey => Err ErrInvalidKey
          | Err _ => Err ErrSigningFailed
          end
      end
  end.

Definition parseRSAPublicKey (publicKey : string) : option rsa_key :=
  match ParsePKCS1PublicKey publicKey with
  | Some key => Some key
  | None => match ParsePKIXPublicKey publicKey with Some (Some key) => Some key | _ => None end
  end.

Definition verifyBytes (message signature publicKey algorithm : string) : result jwt_error unit :=
  if String.eqb algorithm "ES256" then
    if negb (String.length signature =? 64)%nat then Err ErrVerifyFailed
    else match Unmarshal_point publicKey with
    | None => Err ErrVerifyFailed
    | Some point =>
        if ecdsa_Verify point (sha256 message) (SetBytes (str_take 32 signature)) (SetBytes (str_drop 32 signature))
        then Ok tt else Err ErrVerifyFailed
    end
  else if String.eqb algorithm "EdDSA" then
    if negb (String.length publicKey =? 32)%nat || negb (ed25519_Verify publicKey message signature)
    then Err ErrVerifyFailed else Ok tt
  else if String.eqb algorithm "RS256" then
    match parseRSAPublicKey publicKey with
    | None => Err ErrVerifyFailed
    | Some key => if rsa_VerifyPKCS1v15 key (sha256 message) signature then Ok tt else Err ErrVerifyFailed
    end
  else Err ErrInvalidAlg.

Record VerifyOptions : Type := { opt_Issuer : string; opt_Audience : string; opt_Leeway : duration }.
Record VerifyResult : Type := { vr_Claims : Claims; vr_KeyID : string }.

(** Sums of seconds are 64-bit sums. *)
Definition validateClaims (claims : Claims) (opts : VerifyOptions) (clock : time) : result jwt_error unit :=
  let now := time_unix clock in
  let leeway := Z.quot (opt_Leeway opts) second in
  if (leeway <? 0)%Z then Err ErrInvalidLeeway
  else if (ExpiresAt claims =? 0)%Z then Err ErrVerifyFailed
  else if (wrap64 (ExpiresAt claims + leeway) <? now)%Z then Err ErrTokenExpired
  else if negb (NotBefore claims =? 0)%Z && (wrap64 (now + leeway) <? NotBefore claims)%Z then Err ErrTokenNotYetValid
  else if negb (String.eqb (opt_Issuer opts) "") && negb (String.eqb (Issuer claims) (opt_Issuer opts)) then Err ErrVerifyFailed
  else if negb (String.eqb (opt_Audience opts) "") && negb (String.eqb (Audience claims) (opt_Audience opts)) then Err ErrVerifyFailed
  else Ok tt.

Definition Verify (token publicKey algorithm : string) (opts : VerifyOptions) (clock : time) : result jwt_error VerifyResult :=
  if String.eqb publicKey "" then Err ErrInvalidKey
  else if (opt_Leeway opts <? 0)%Z then Err ErrInvalidLeeway
  else match Split token "." with
  | [p0; p1; p2] =>
      match b64url_Decode p0 ≫= header_Unmarshal with
      | None => Err ErrVerifyFailed
      | Some header =>
          if negb (String.eqb (Alg header) algorithm) then Err ErrInvalidAlg
          else match b64url_Decode p2 with
          | None => Err ErrVerifyFailed
          | Some signature =>
              match verifyBytes (p0 +:+ "." +:+ p1) signature publicKey algorithm with
              | Err ErrInvalidAlg => Err ErrInvalidAlg
              | Err _ => Err ErrVerifyFailed
              | Ok _ =>
                  match b64url_Decode p1 ≫= object_Unmarshal with
                  | None => Err ErrVerifyFailed
                  | Some m =>
                      let claims := object_claims m in
                      match validateClaims claims opts clock with
                      | Err e => Err e
                      | Ok _ => Ok {| vr_Claims := claims; vr_KeyID := KID header |}
                      end
                  end
              end
          end
      end
  | _ => Err ErrInvalidToken
  end.

(** ToJWK, as the members of the object it encodes. *)
Definition ToJWK (algorithm keyID publicKey : string) : option (gmap string jval) :=
  if String.eqb publicKey "" then None
  else if String.eqb algorithm "ES256" then
    match Unmarshal_point publicKey with
    | None => None
    | Some (x, y) =>
        Some (put_string "kty" "EC" (put_string "kid" keyID (put_string "use" "sig" (put_string "alg" "ES256"
          (put_string "crv" "P-256" (put_string "x" (b64url_Encode (padBytes (Bytes x) 32))
            (put_string "y" (b64url_Encode (padBytes (Bytes y) 32)) ∅)))))))
    end
  else if String.eqb algorithm "EdDSA" then
    if negb (String.length publicKey =? 32)%nat then None
    else Some (put_string "kty" "OKP" (put_string "kid" keyID (put_string "use" "sig" (put_string "alg" "EdDSA"
           (put_string "crv" "Ed25519" (put_string "x" (b64url_Encode publicKey) ∅))))))
  else None.
End jwt.
