(* ===== verification/JwtFacts.v ===== *)
(** internal/platform/jwt: a token that is signed verifies, and a token that
    verifies was signed over its header and claims. *)

From Stdlib Require Import Ascii String DecimalString DecimalZ DecimalPos.
From S2P Require Import Prelude GoStrings GoEncoding GoSha256 PlatformCrypto CryptoFields Jwt.

Local Open Scope string_scope.

(** ** Numbers *)

Lemma big_endian_app a : forall acc b, big_endian acc (a +:+ b) = big_endian (big_endian acc a) b.
Proof. induction a as [|c a IH]; intros acc b; [done|]. cbn [String.append]. change (String c a +:+ b) with (String c (a +:+ b)). cbn [big_endian]. apply IH. Qed.

Lemma zero_bytes_value n : big_endian 0 (zero_bytes n) = 0%Z.
Proof. induction n as [|n IH]; [done|]. cbn [zero_bytes big_endian]. exact IH. Qed.
Lemma padding_length n : String.length (zero_bytes n) = n.
Proof. induction n; simpl; congruence. Qed.

Lemma big_endian_acc b : forall acc, big_endian acc b = (acc * 256 ^ Z.of_nat (String.length b) + big_endian 0 b)%Z.
Proof.
  induction b as [|c b IH]; intros acc; [cbn; lia|]. cbn [big_endian String.length].
  rewrite IH, (IH (0 * 256 + _)%Z), Nat2Z.inj_succ, Z.pow_succ_r by lia. lia.
Qed.

Lemma Bytes_loop_spec fuel : forall z acc, (0 <= z < 256 ^ Z.of_nat fuel)%Z ->
  big_endian 0 (Bytes_loop fuel z acc) = (z * 256 ^ Z.of_nat (String.length acc) + big_endian 0 acc)%Z.
Proof.
  induction fuel as [|fuel IH]; intros z acc Hz; cbn [Bytes_loop].
  - change (256 ^ Z.of_nat 0)%Z with 1%Z in Hz. assert (z = 0%Z) as -> by lia. lia.
  - destruct (Z.leb_spec z 0) as [Hle|Hgt]; [assert (z = 0%Z) as -> by lia; lia|].
    pose proof (Z.mod_pos_bound z 256 ltac:(lia)) as Hm. pose proof (Z.div_mod z 256 ltac:(lia)) as Hdm.
    rewrite IH.
    + cbn [String.length big_endian]. rewrite (big_endian_acc acc), Nat2Z.inj_succ, Z.pow_succ_r by lia.
      unfold code. rewrite N_ascii_embedding by lia. rewrite Z2N.id by lia. nia.
    + rewrite Nat2Z.inj_succ, Z.pow_succ_r in Hz by lia. split; [apply Z.div_pos; lia|apply Z.div_lt_upper_bound; lia].
Qed.

Lemma Bytes_loop_length fuel : forall z acc n, (0 <= z < 256 ^ Z.of_nat n)%Z ->
  (String.length (Bytes_loop fuel z acc) <= n + String.length acc)%nat.
Proof.
  induction fuel as [|fuel IH]; intros z acc n Hz; cbn [Bytes_loop]; [lia|].
  destruct (Z.leb_spec z 0); [lia|]. destruct n as [|n]; [change (256 ^ Z.of_nat 0)%Z with 1%Z in Hz; lia|].
  etrans; [apply (IH _ _ n)|cbn [String.length]; lia].
  rewrite Nat2Z.inj_succ, Z.pow_succ_r in Hz by lia. split; [apply Z.div_pos; lia|apply Z.div_lt_upper_bound; lia].
Qed.

Lemma padBytes_spec z n : (0 <= z < 256 ^ Z.of_nat n)%Z ->
  String.length (padBytes (Bytes z) n) = n /\ SetBytes (padBytes (Bytes z) n) = z.
Proof.
  intros Hz. unfold SetBytes.
  assert (Hl : (String.length (Bytes z) <= n)%nat) by (etrans; [apply (Bytes_loop_length _ _ _ n Hz)|cbn; lia]).
  assert (Hv : big_endian 0 (Bytes z) = z).
  { unfold Bytes. rewrite Bytes_loop_spec; [cbn; lia|]. split; [lia|]. pose proof (Z.log2_nonneg z).
    rewrite Z2Nat.id by lia. destruct (Z.eq_dec z 0) as [->|]; [by vm_compute|].
    pose proof (Z.log2_spec z ltac:(lia)) as [_ Hlt]. eapply Z.lt_le_trans; [exact Hlt|].
    change 256%Z with (2 ^ 8)%Z. rewrite <- Z.pow_mul_r by lia. apply Z.pow_le_mono_r; lia. }
  unfold padBytes. destruct (Nat.leb_spec n (String.length (Bytes z))); [split; [lia|done]|].
  rewrite str_length_app, padding_length, big_endian_app, zero_bytes_value. split; [lia|done].
Qed.

Lemma number_Int64_FormatInt z : in_int64 z -> number_Int64 (FormatInt z) = z.
Proof.
  intros Hz. pose proof (ParseInt_FormatInt z Hz) as Hp. unfold ParseInt in Hp. unfold number_Int64.
  unfold in_int64 in Hz.
  destruct (FormatInt_cases z) as [(c & d & E & Hc & _)|(d & E & _)]; rewrite E in Hp |- *.
  - assert (Hc' : c <> "-"%char /\ c <> "+"%char) by (split; intros ->; discriminate).
    assert (Hu : exists u, NilZero.uint_of_string (String c d) = Some u /\ Z.of_uint u = z).
    { destruct c as [[] [] [] [] [] [] [] []]; try (by destruct Hc'); try discriminate Hc;
        (destruct (NilZero.uint_of_string _) as [u|]; [|discriminate Hp]; exists u; split; [done|]; by case_match; simplify_eq). }
    destruct Hu as (u & Hu & Hz'). destruct Hc' as [Hc1 _].
    destruct c as [[] [] [] [] [] [] [] []]; try discriminate Hc; rewrite Hu; lia.
  - destruct (NilZero.uint_of_string d) as [u|]; [|done]. case_match; simplify_eq; lia.
Qed.

(** ** Claims *)

Lemma put_string_eq k s m : m !! k = None -> get_string k (put_string k s m) = s.
Proof.
  intros Hm. unfold get_string, put_string. destruct (String.eqb_spec s "") as [->|]; [by rewrite Hm|by rewrite lookup_insert_eq].
Qed.
Lemma put_string_ne k k' s m : k <> k' -> put_string k s m !! k' = m !! k'.
Proof. intros Hk. unfold put_string. destruct (String.eqb s ""); [done|]. by rewrite lookup_insert_ne. Qed.
Lemma put_int_eq k z m : in_int64 z -> m !! k = None -> get_int k (put_int k z m) = z.
Proof.
  intros Hz Hm. unfold get_int, put_int. destruct (Z.eqb_spec z 0) as [->|]; [by rewrite Hm|].
  rewrite lookup_insert_eq. by apply number_Int64_FormatInt.
Qed.
Lemma put_int_ne k k' z m : k <> k' -> put_int k z m !! k' = m !! k'.
Proof. intros Hk. unfold put_int. destruct (z =? 0)%Z; [done|]. by rewrite lookup_insert_ne. Qed.

Lemma get_string_lookup k m m' : m !! k = m' !! k -> get_string k m = get_string k m'.
Proof. unfold get_string. by intros ->. Qed.
Lemma get_int_lookup k m m' : m !! k = m' !! k -> get_int k m = get_int k m'.
Proof. unfold get_int. by intros ->. Qed.

(** What a token carries of the claims: custom claims cannot override the
    registered ones. *)
Definition carried (c : Claims) : Claims :=
  {| Issuer := Issuer c; Subject := Subject c; Audience := Audience c; ExpiresAt := ExpiresAt c; NotBefore := NotBefore c;
     IssuedAt := IssuedAt c; JWTID := JWTID c; SessionID := SessionID c;
     Custom := filter (fun kv => reserved kv.1 = false) (Custom c) |}.

Ltac skip_puts := repeat (rewrite ?put_string_ne, ?put_int_ne by discriminate).

Lemma custom_lookup c m k :
  reserved k = true -> (filter (fun kv : string * jval => reserved kv.1 = false) (Custom c) ∪ m) !! k = m !! k.
Proof.
  intros Hk. rewrite lookup_union_r; [done|]. apply map_lookup_filter_None. right. intros v _. cbn [fst]. by rewrite Hk.
Qed.

Lemma claims_round_trip c :
  in_int64 (ExpiresAt c) -> in_int64 (NotBefore c) -> in_int64 (IssuedAt c) ->
  object_claims (claims_object c) = carried c.
Proof.
  intros He Hn Hi. unfold object_claims, carried, claims_object. cbv zeta.
  f_equal; try (first [erewrite get_string_lookup by (by apply custom_lookup)|erewrite get_int_lookup by (by apply custom_lookup)];
    first [erewrite get_string_lookup by (skip_puts; reflexivity); apply put_string_eq
          |erewrite get_int_lookup by (skip_puts; reflexivity); apply put_int_eq; [done|]];
    skip_puts; apply lookup_empty).
  apply map_eq. intros k. apply option_eq. intros v. rewrite !map_lookup_filter_Some. cbn [fst].
  destruct (reserved k) eqn:Hk; [by split; intros []|].
  assert (Hm : forall x, In x reservedClaimNames -> x <> k).
  { intros x Hin ->. apply not_true_iff_false in Hk. apply Hk. apply existsb_exists. exists k. split; [done|apply String.eqb_refl]. }
  rewrite lookup_union_l.
  - rewrite map_lookup_filter_Some. cbn [fst]. rewrite Hk. tauto.
  - repeat first [rewrite put_string_ne by (apply Hm; cbn; tauto)|rewrite put_int_ne by (apply Hm; cbn; tauto)]. apply lookup_empty.
Qed.

(** ** Tokens *)

Section tokens.
Context `{JwtJson} `{Signatures}.

(** The public key that belongs to a private key under an algorithm. *)
Definition public_of (privateKey algorithm publicKey : string) : Prop :=
  match ParsePKCS8PrivateKey privateKey with
  | Some (P256Key k) => algorithm = "ES256" /\ publicKey = Marshal_point (ec_point k)
  | Some (Ed25519Key k) => algorithm = "EdDSA" /\ publicKey = ed_public k
  | _ => False
  end.

Lemma signBytes_verifies message privateKey algorithm rand publicKey signature :
  public_of privateKey algorithm publicKey -> signBytes message privateKey algorithm rand = Ok signature ->
  verifyBytes message signature publicKey algorithm = Ok tt.
Proof.
  unfold public_of, signBytes, verifyBytes. destruct (ParsePKCS8PrivateKey privateKey) as [[k|k|]|]; [| |done..].
  - intros [-> ->]. cbn [String.eqb Ascii.eqb Bool.eqb andb]. 
    destruct (ecdsa_Sign k (sha256 message) rand) as [[r s]|] eqn:E; [|done]. intros [= <-].
    destruct (ecdsa_Sign_range _ _ _ _ _ E) as [Hr Hs].
    destruct (padBytes_spec r 32 Hr) as [Hlr Hvr], (padBytes_spec s 32 Hs) as [Hls Hvs].
    change ("ES256" =? "ES256")%string with true. cbv iota. rewrite str_length_app, Hlr, Hls. cbn [Nat.add Nat.eqb negb].
    rewrite Unmarshal_Marshal. revert Hlr Hvr Hvs. generalize (padBytes (Bytes r) 32), (padBytes (Bytes s) 32).
    intros a b Ha Hva Hvb. rewrite <- Ha, str_take_app, str_drop_app, Hva, Hvb.
    by rewrite (ecdsa_Verify_Sign _ _ _ _ _ E).
  - intros [-> ->]. intros [= <-]. cbn [String.eqb Ascii.eqb Bool.eqb andb].
    change ("EdDSA" =? "ES256")%string with false. change ("EdDSA" =? "EdDSA")%string with true. cbv iota.
    rewrite ed_public_length, ed25519_Verify_Sign. done.
Qed.

Lemma public_nonempty privateKey algorithm publicKey : public_of privateKey algorithm publicKey -> publicKey <> "".
Proof.
  unfold public_of. destruct (ParsePKCS8PrivateKey privateKey) as [[k|k|]|]; [| |done..].
  - intros [_ ->]. apply Marshal_nonempty.
  - intros [_ ->] He. pose proof (ed_public_length k) as Hl. by rewrite He in Hl.
Qed.

(** Acceptance of claims, without the 64-bit sums. *)
Definition acceptable (c : Claims) (opts : VerifyOptions) (clock : time) : Prop :=
  let now := time_unix clock in let leeway := Z.quot (opt_Leeway opts) second in
  ExpiresAt c <> 0%Z /\ (now <= wrap64 (ExpiresAt c + leeway))%Z /\
  (NotBefore c = 0%Z \/ (NotBefore c <= wrap64 (now + leeway))%Z) /\
  (opt_Issuer opts = "" \/ Issuer c = opt_Issuer opts) /\ (opt_Audience opts = "" \/ Audience c = opt_Audience opts).

Lemma validateClaims_ok c opts clock :
  (0 <= opt_Leeway opts)%Z -> validateClaims c opts clock = Ok tt <-> acceptable c opts clock.
Proof.
  intros Hl. unfold validateClaims, acceptable. cbv zeta.
  assert (Hq : (0 <= Z.quot (opt_Leeway opts) second)%Z) by (apply Z.quot_pos; [lia|by vm_compute]).
  rewrite (proj2 (Z.ltb_ge _ _)) by lia.
  destruct (Z.eqb_spec (ExpiresAt c) 0); [naive_solver|].
  destruct (Z.ltb_spec (wrap64 (ExpiresAt c + Z.quot (opt_Leeway opts) second)) (time_unix clock)); [split; [done|intros; exfalso; lia]|].
  destruct (Z.eqb_spec (NotBefore c) 0); cbn [negb andb].
  - destruct (String.eqb_spec (opt_Issuer opts) ""), (String.eqb_spec (Issuer c) (opt_Issuer opts)),
      (String.eqb_spec (opt_Audience opts) ""), (String.eqb_spec (Audience c) (opt_Audience opts)); cbn [negb andb]; naive_solver.
  - destruct (Z.ltb_spec (wrap64 (time_unix clock + Z.quot (opt_Leeway opts) second)) (NotBefore c)); cbn [negb andb];
      [split; [done|intros (_ & _ & [?|?] & _); [done|lia]]|].
    destruct (String.eqb_spec (opt_Issuer opts) ""), (String.eqb_spec (Issuer c) (opt_Issuer opts)),
      (String.eqb_spec (opt_Audience opts) ""), (String.eqb_spec (Audience c) (opt_Audience opts)); cbn [negb andb]; naive_solver.
Qed.

(** C24: Tokens round-trip: a token that [Sign] makes verifies under the
    public key and the algorithm of its key, and [Verify] returns its claims
    (custom claims with registered names left out) and key identifier, whenever
    the claims are acceptable at the time. *)
Theorem signed_token_verifies c privateKey algorithm keyID rand publicKey token opts clock :
  public_of privateKey algorithm publicKey ->
  encodable_header {| Alg := algorithm; Typ := "JWT"; KID := keyID |} -> encodable (claims_object c) ->
  in_int64 (ExpiresAt c) -> in_int64 (NotBefore c) -> in_int64 (IssuedAt c) -> (0 <= opt_Leeway opts)%Z ->
  Sign c privateKey algorithm keyID rand = Ok token -> acceptable c opts clock ->
  Verify token publicKey algorithm opts clock = Ok {| vr_Claims := carried c; vr_KeyID := keyID |}.
Proof.
  intros Hpub Hh Ho He Hn Hi Hl Hs Hacc. unfold Sign in Hs. destruct (String.eqb privateKey ""); [done|].
  destruct (header_Marshal _) as [hj|] eqn:Eh; [|done]. destruct (object_Marshal _) as [cj|] eqn:Ec; [|done].
  cbv zeta in Hs. destruct (signBytes _ privateKey algorithm rand) as [sg|e] eqn:Es; [|by destruct e].
  assert (token = (b64url_Encode hj +:+ "." +:+ b64url_Encode cj) +:+ "." +:+ b64url_Encode sg) as -> by congruence.
  unfold Verify. rewrite (proj2 (String.eqb_neq _ _)) by (by eapply public_nonempty).
  rewrite (proj2 (Z.ltb_ge _ _)) by lia.
  assert (Hsp : Split ((b64url_Encode hj +:+ "." +:+ b64url_Encode cj) +:+ "." +:+ b64url_Encode sg) "." =
    [b64url_Encode hj; b64url_Encode cj; b64url_Encode sg]).
  { rewrite !str_app_assoc. rewrite <- (Split_Join [b64url_Encode hj; b64url_Encode cj; b64url_Encode sg] "."%char); [done|done|].
    repeat constructor; by apply b64url_no_sep. }
  rewrite Hsp, b64url_round_trip. cbn [mbind option_bind]. rewrite (header_round_trip _ _ Hh Eh). cbn [Alg KID].
  rewrite String.eqb_refl. cbn [negb]. rewrite b64url_round_trip, (signBytes_verifies _ _ _ _ _ _ Hpub Es).
  rewrite b64url_round_trip. cbn [mbind option_bind]. rewrite (object_round_trip _ _ Ho Ec). cbv zeta.
  rewrite (claims_round_trip c He Hn Hi). rewrite (proj2 (validateClaims_ok (carried c) opts clock Hl)); [done|exact Hacc].
Qed.

(** Only signed tokens verify: when [Verify] accepts a token, the token has
    three parts, its header names the algorithm the caller asked for, its
    signature verifies under the given key over the first two parts as they
    stand, and the claims it returns are those of the second part and
    acceptable at the time. *)
Theorem verified_token_is_signed token publicKey algorithm opts clock res :
  Verify token publicKey algorithm opts clock = Ok res ->
  exists p0 p1 p2 header signature m,
    token = p0 +:+ "." +:+ p1 +:+ "." +:+ p2 /\
    (b64url_Decode p0 ≫= header_Unmarshal) = Some header /\ Alg header = algorithm /\ KID header = vr_KeyID res /\
    b64url_Decode p2 = Some signature /\ verifyBytes (p0 +:+ "." +:+ p1) signature publicKey algorithm = Ok tt /\
    (b64url_Decode p1 ≫= object_Unmarshal) = Some m /\ vr_Claims res = object_claims m /\
    acceptable (vr_Claims res) opts clock.
Proof.
  unfold Verify. destruct (String.eqb publicKey ""); [done|].
  destruct (Z.ltb_spec (opt_Leeway opts) 0) as [|Hl]; [done|].
  destruct (Split token ".") as [|p0 [|p1 [|p2 [|? ?]]]] eqn:Hsp; try done.
  destruct (b64url_Decode p0 ≫= header_Unmarshal) as [header|] eqn:Eh; [|done].
  destruct (String.eqb_spec (Alg header) algorithm) as [Ha|]; cbn [negb]; [|done].
  destruct (b64url_Decode p2) as [signature|] eqn:E2; [|done].
  destruct (verifyBytes _ signature publicKey algorithm) as [[]|e] eqn:Ev; [|by destruct e].
  destruct (b64url_Decode p1 ≫= object_Unmarshal) as [m|] eqn:Em; [|done]. cbv zeta.
  destruct (validateClaims _ opts clock) as [[]|e] eqn:Ec; [|done]. intros [= <-].
  exists p0, p1, p2, header, signature, m. split_and!; try done.
  - rewrite <- (Join_Split token "."), Hsp. done.
  - by apply validateClaims_ok.
Qed.
End tokens.

(** An expiry at the end of the 64-bit range counts as expired, since the sum
    with the leeway wraps. *)
Lemma far_expiry_is_expired clock :
  (0 <= clock)%Z ->
  validateClaims {| Issuer := ""; Subject := ""; Audience := ""; ExpiresAt := int64_max; NotBefore := 0; IssuedAt := 0;
    JWTID := ""; SessionID := ""; Custom := ∅ |} {| opt_Issuer := ""; opt_Audience := ""; opt_Leeway := second |} clock =
  Err ErrTokenExpired.
Proof.
  intros Hc. unfold validateClaims. cbv zeta. cbn [ExpiresAt opt_Leeway].
  change (Z.quot second second) with 1%Z. cbn [Z.ltb Z.compare]. change (int64_max =? 0)%Z with false. cbv iota.
  change (wrap64 (int64_max + 1)) with int64_min. assert (0 <= time_unix clock)%Z by (unfold time_unix, second; apply Z.div_pos; lia).
  rewrite (proj2 (Z.ltb_lt _ _)); [done|]. unfold int64_min. lia.
Qed.

(** ** A concrete token *)

Module JwtWitness.
Definition header0 : jwtHeader := {| Alg := "ES256"; Typ := "JWT"; KID := "k1" |}.
Definition claims0 : Claims :=
  {| Issuer := "https://id"; Subject := "u1"; Audience := "app"; ExpiresAt := 2000; NotBefore := 0; IssuedAt := 1000;
     JWTID := ""; SessionID := "s1"; Custom := {[ "scope" := JString "openid"; "sub" := JString "forged" ]} |}.

(** A coding of this header and these claims. *)
Lemma one_header (h : jwtHeader) b : h = header0 -> Some "h" = Some b -> (if String.eqb b "h" then Some header0 else None) = Some h.
Proof. by intros -> [= <-]. Qed.
Lemma one_object (m : gmap string jval) b :
  m = claims_object claims0 -> Some "c" = Some b -> (if String.eqb b "c" then Some (claims_object claims0) else None) = Some m.
Proof. by intros -> [= <-]. Qed.
#[local] Instance one_json : JwtJson :=
  {| header_Marshal _ := Some "h"; header_Unmarshal b := if String.eqb b "h" then Some header0 else None;
     object_Marshal _ := Some "c"; object_Unmarshal b := if String.eqb b "c" then Some (claims_object claims0) else None;
     encodable_header h := h = header0; encodable m := m = claims_object claims0;
     header_round_trip := one_header; object_round_trip := one_object |}.

(** Signatures that repeat the digest; keys are one byte long. *)
Definition digest_value (d : string) : Z := (big_endian 0 d mod 2 ^ 256)%Z.
Lemma digest_range (k : ascii) (d rand : string) r s :
  Some (digest_value d, 7%Z) = Some (r, s) -> (0 <= r < 2 ^ 256 /\ 0 <= s < 2 ^ 256)%Z.
Proof. intros [= <- <-]. split; [apply Z.mod_pos_bound|]; lia. Qed.
Lemma digest_verifies (k : ascii) (d rand : string) r s :
  Some (digest_value d, 7%Z) = Some (r, s) -> ((r =? digest_value d) && (s =? 7))%Z = true.
Proof. intros [= <- <-]. by rewrite !Z.eqb_refl. Qed.
Lemma ed_verifies (k : ascii) (msg : string) : String.eqb msg msg = true.
Proof. apply String.eqb_refl. Qed.
#[local] Instance toy_signatures : Signatures :=
  {| ec_key := ascii; ed_key := ascii; rsa_key := unit;
     ParsePKCS8PrivateKey b := match b with String c "" => Some (P256Key c) | _ => None end;
     ec_point c := (Z.of_N (code c), 1%Z);
     ed_public _ := zero_bytes 32;
     Unmarshal_point b := match b with String c "" => Some (Z.of_N (code c), 1%Z) | _ => None end;
     Marshal_point p := String (ascii_of_N (Z.to_N p.1)) "";
     ecdsa_Sign _ d _ := Some (digest_value d, 7%Z);
     ecdsa_Verify _ d r s := ((r =? digest_value d) && (s =? 7))%Z;
     ed25519_Sign _ msg := msg;
     ed25519_Verify _ msg sig := String.eqb msg sig;
     ParsePKCS1PublicKey _ := None; ParsePKIXPublicKey _ := None; rsa_VerifyPKCS1v15 _ _ _ := false;
     Unmarshal_Marshal := ltac:(intros k; cbn; rewrite N2Z.id; unfold code; by rewrite ascii_N_embedding);
     Marshal_nonempty := ltac:(done);
     ed_public_length := ltac:(intros; apply padding_length);
     ecdsa_Sign_range := digest_range; ecdsa_Verify_Sign := digest_verifies; ed25519_Verify_Sign := ed_verifies |}.

Definition opts : VerifyOptions := {| opt_Issuer := "https://id"; opt_Audience := "app"; opt_Leeway := 30 * second |}.
Definition token0 : string := match Sign claims0 "k" "ES256" "k1" "" with Ok t => t | Err _ => "" end.
Lemma signed_token_verifies_witness :
  Verify token0 "k" "ES256" opts (1500 * second) = Ok {| vr_Claims := carried claims0; vr_KeyID := "k1" |}.
Proof.
  apply (signed_token_verifies claims0 "k" "ES256" "k1" "" "k" token0 opts (1500 * second)%Z).
  - by vm_compute.
  - reflexivity.
  - reflexivity.
  - by vm_compute.
  - by vm_compute.
  - by vm_compute.
  - by vm_compute.
  - vm_compute. reflexivity.
  - vm_compute. split_and!; try done; by right.
Defined.

(** The forged subject among the custom claims is not carried. *)
Lemma verified_token_is_signed_witness :
  exists p0 p1 p2 header signature m, token0 = p0 +:+ "." +:+ p1 +:+ "." +:+ p2 /\
    (b64url_Decode p0 ≫= header_Unmarshal) = Some header /\ Alg header = "ES256" /\ KID header = "k1" /\
    b64url_Decode p2 = Some signature /\ verifyBytes (p0 +:+ "." +:+ p1) signature "k" "ES256" = Ok tt /\
    (b64url_Decode p1 ≫= object_Unmarshal) = Some m /\ carried claims0 = object_claims m /\
    acceptable (carried claims0) opts (1500 * second).
Proof.
  apply (verified_token_is_signed token0 "k" "ES256" opts (1500 * second)%Z {| vr_Claims := carried claims0; vr_KeyID := "k1" |}).
  vm_compute. reflexivity.
Defined.
End JwtWitness.
