(* ===== verification/Social.v ===== *)
(** modules/social/store: providers, authentication states and identity links
    (store.go), in memory (memory.go) and in PostgreSQL (postgres.go with its
    migration).

    Columns that the code writes as NULL for an empty text and reads back as
    an empty text are kept as the text; JSONB columns hold the values they
    encode.  [collate] is the order of the server's texts. *)

From Stdlib Require Import Ascii String.
From S2P Require Import MagicLinkHttp.
From S2P Require Import Prelude GoStrings GoEncoding PlatformCrypto CryptoFields Jwt.

Local Open Scope string_scope.

Inductive soc_error : Type :=
| ErrStateNotFound
| ErrStateExpired
| ErrProviderNotFound
| SocCrypto (e : crypto_error)
| SocDb (e : db_error).
#[global] Instance soc_db_err : DbErr soc_error := SocDb.

Definition ProtocolOIDC : string := "oidc".
Definition ProtocolOAuth : string := "oauth2".
Definition AuthStyleClientSecretPost : string := "client_secret_post".
Definition AuthStyleClientSecretBasic : string := "client_secret_basic".
Definition PKCENone : string := "none".
Definition PKCES256 : string := "S256".
Definition PKCEPlain : string := "plain".
Definition ClaimSourceUserInfo : string := "userinfo".
Definition ClaimSourceIDToken : string := "id_token".
Definition ClaimSourceGitHubUser : string := "github_user".

Record ClaimMapping : Type := {
  cm_Subject : string; cm_Email : string; cm_EmailVerified : string; cm_Name : string; cm_Picture : string;
}.

Record Provider : Type := {
  pr_ID : uuid; pr_Slug : string; pr_DisplayName : string; pr_Preset : string; pr_Protocol : string;
  pr_Issuer : string; pr_DiscoveryURL : string; pr_AuthorizeEndpoint : string; pr_TokenEndpoint : string;
  pr_UserInfoEndpoint : string; pr_JWKSURI : string; pr_Scopes : list string; pr_ClaimMapping : ClaimMapping;
  pr_ExtraAuthParams : gmap string string; pr_PKCEMethod : string; pr_AuthStyle : string; pr_ClaimSource : string;
  pr_Enabled : bool; pr_TrustEmailVerified : bool; pr_RedirectURI : string; pr_ClientID : string;
  pr_ClientSecret : string; pr_CreatedAt : time; pr_UpdatedAt : time;
}.

(** A provider with some members replaced. *)
Definition with_row (p : Provider) (id : uuid) (slug secret : string) (created updated : time) : Provider :=
  {| pr_ID := id; pr_Slug := slug; pr_DisplayName := pr_DisplayName p; pr_Preset := pr_Preset p; pr_Protocol := pr_Protocol p;
     pr_Issuer := pr_Issuer p; pr_DiscoveryURL := pr_DiscoveryURL p; pr_AuthorizeEndpoint := pr_AuthorizeEndpoint p;
     pr_TokenEndpoint := pr_TokenEndpoint p; pr_UserInfoEndpoint := pr_UserInfoEndpoint p; pr_JWKSURI := pr_JWKSURI p;
     pr_Scopes := pr_Scopes p; pr_ClaimMapping := pr_ClaimMapping p; pr_ExtraAuthParams := pr_ExtraAuthParams p;
     pr_PKCEMethod := pr_PKCEMethod p; pr_AuthStyle := pr_AuthStyle p; pr_ClaimSource := pr_ClaimSource p;
     pr_Enabled := pr_Enabled p; pr_TrustEmailVerified := pr_TrustEmailVerified p; pr_RedirectURI := pr_RedirectURI p;
     pr_ClientID := pr_ClientID p; pr_ClientSecret := secret; pr_CreatedAt := created; pr_UpdatedAt := updated |}.
Definition Sanitized (p : Provider) : Provider :=
  with_row p (pr_ID p) (pr_Slug p) "" (pr_CreatedAt p) (pr_UpdatedAt p).

Record AuthState : Type := {
  as_ID : string; as_ProviderSlug : string; as_RedirectTo : string; as_Nonce : string; as_PKCEVerifier : string;
  as_ExpiresAt : time;
}.
Record SocialProfile : Type := {
  sp_Provider : string; sp_ProviderUser : string; sp_Email : string; sp_EmailVerified : bool; sp_Name : string;
  sp_PictureURL : string; sp_RawClaims : gmap string jval;
}.
Record IdentityLinkResult : Type := { il_IdentityID : uuid; il_Created : bool; il_Linked : bool }.

Definition normalizeSlug (slug : string) : string := ToLower (TrimSpace slug).

(** What an operation draws: clocks, identifiers and the nonce of an
    encryption. *)
Record rdraws : Type := {
  rd_now : time; rd_dbnow : time; rd_id : uuid; rd_id2 : uuid; rd_id3 : uuid; rd_nonce : option string;
}.

(** The interface the service is written against. *)
Class Repository (S : Type) := {
  ListProviders : bool -> M S soc_error (list Provider);
  GetProviderBySlug : string -> M S soc_error Provider;
  UpsertProvider : Provider -> rdraws -> M S soc_error Provider;
  DeleteProvider : string -> M S soc_error unit;
  SaveState : AuthState -> rdraws -> M S soc_error unit;
  ConsumeState : string -> time -> M S soc_error AuthState;
  ResolveIdentity : Provider -> SocialProfile -> rdraws -> M S soc_error IdentityLinkResult;
}.

(** ** In memory (memory.go) *)

Module Memory.
Definition maxInMemoryAuthStates : nat := 1024.

Record MemoryStore : Type := {
  providers : gmap string Provider;
  states : gmap string AuthState;
  linkBySubject : gmap string uuid;
  identityByMail : gmap string uuid;
}.
Definition New : MemoryStore := {| providers := ∅; states := ∅; linkBySubject := ∅; identityByMail := ∅ |}.
Definition with_providers (s : MemoryStore) p : MemoryStore :=
  {| providers := p; states := states s; linkBySubject := linkBySubject s; identityByMail := identityByMail s |}.
Definition with_states (s : MemoryStore) t : MemoryStore :=
  {| providers := providers s; states := t; linkBySubject := linkBySubject s; identityByMail := identityByMail s |}.
Definition with_links (s : MemoryStore) l e : MemoryStore :=
  {| providers := providers s; states := states s; linkBySubject := l; identityByMail := e |}.

Section memory.
(** [scan] is also the order in which Go's [range] visits a map. *)
Context `{ScanOrder}.
Abbreviation MM := (M MemoryStore soc_error).
Definition now_state {A} (f : MemoryStore -> A * MemoryStore) : MM A :=
  fun w => let '(a, s) := f (w_db w) in (Ok a, World s (w_faults w)).

Definition ListProviders (includeDisabled : bool) : MM (list Provider) :=
  now_state (fun s => (List.filter (fun p => includeDisabled || pr_Enabled p) (scan (providers s)).*2, s)).

Definition GetProviderBySlug (slug : string) : MM Provider :=
  p ← now_state (fun s => (providers s !! normalizeSlug slug, s));
  match p with Some p => mret p | None => throw ErrProviderNotFound end.

Definition UpsertProvider (provider : Provider) (d : rdraws) : MM Provider :=
  now_state (fun s =>
    let slug := normalizeSlug (pr_Slug provider) in
    let saved :=
      match providers s !! slug with
      | Some existing =>
          with_row provider (pr_ID existing) slug
            (if String.eqb (TrimSpace (pr_ClientSecret provider)) "" then pr_ClientSecret existing else pr_ClientSecret provider)
            (pr_CreatedAt existing) (rd_now d)
      | None =>
          with_row provider (if (pr_ID provider =? uuid_Nil)%N then rd_id d else pr_ID provider) slug (pr_ClientSecret provider)
            (rd_now d) (rd_now d)
      end in
    (saved, with_providers s (<[slug := saved]> (providers s)))).

Definition DeleteProvider (slug : string) : MM unit :=
  p ← now_state (fun s => (providers s !! normalizeSlug slug, s));
  match p with
  | Some _ => now_state (fun s => (tt, with_providers s (delete (normalizeSlug slug) (providers s))))
  | None => throw ErrProviderNotFound
  end.

(** The entry with the earliest expiry, the first of them in the order of the
    iteration; an entry whose key is empty does not stay the oldest. *)
Definition oldest (ts : list (string * AuthState)) : string :=
  (fold_left (fun '(oldestID, oldestExpiry) '(id, existing) =>
    if String.eqb oldestID "" || (as_ExpiresAt existing <? oldestExpiry)%Z then (id, as_ExpiresAt existing)
    else (oldestID, oldestExpiry)) ts ("", time_zero)).1.

Definition SaveState (state : AuthState) (d : rdraws) : MM unit :=
  now_state (fun s =>
    let live := filter (fun kv => (rd_now d <? as_ExpiresAt kv.2)%Z = true) (states s) in
    let kept := if (maxInMemoryAuthStates <=? size live)%nat then
                  let oldestID := oldest (scan live) in
                  if String.eqb oldestID "" then live else delete oldestID live
                else live in
    (tt, with_states s (<[as_ID state := state]> kept))).

Definition ConsumeState (stateID : string) (now : time) : MM AuthState :=
  st ← now_state (fun s => (states s !! stateID, with_states s (delete stateID (states s))));
  match st with
  | None => throw ErrStateNotFound
  | Some state => if time_after now (as_ExpiresAt state) then throw ErrStateExpired else mret state
  end.

Definition link_key (slug user : string) : string := slug +:+ ":" +:+ user.
Definition ResolveIdentity (provider : Provider) (profile : SocialProfile) (d : rdraws) : MM IdentityLinkResult :=
  now_state (fun s =>
    let key := link_key (pr_Slug provider) (sp_ProviderUser profile) in
    let email := ToLower (TrimSpace (sp_Email profile)) in
    match linkBySubject s !! key with
    | Some identityID => ({| il_IdentityID := identityID; il_Created := false; il_Linked := true |}, s)
    | None =>
        match (if negb (String.eqb email "") && pr_TrustEmailVerified provider && sp_EmailVerified profile
               then identityByMail s !! email else None) with
        | Some identityID =>
            ({| il_IdentityID := identityID; il_Created := false; il_Linked := true |},
             with_links s (<[key := identityID]> (linkBySubject s)) (identityByMail s))
        | None =>
            ({| il_IdentityID := rd_id d; il_Created := true; il_Linked := true |},
             with_links s (<[key := rd_id d]> (linkBySubject s))
               (if String.eqb email "" then identityByMail s else <[email := rd_id d]> (identityByMail s)))
        end
    end).

Definition repository : Repository MemoryStore :=
  {| Social.ListProviders := ListProviders; Social.GetProviderBySlug := GetProviderBySlug;
     Social.UpsertProvider := UpsertProvider; Social.DeleteProvider := DeleteProvider; Social.SaveState := SaveState;
     Social.ConsumeState := ConsumeState; Social.ResolveIdentity := ResolveIdentity |}.
End memory.
End Memory.

(** ** In PostgreSQL (postgres.go) *)

Module Postgres.

(** The identifier of the link is a column of its own; the table is keyed by
    its unique constraint. *)
Record link_row : Type := {
  lk_id : uuid; lk_identity : uuid; lk_email : string; lk_email_verified : bool; lk_name : string; lk_picture : string;
  lk_claims : gmap string jval; lk_linked : time; lk_last_login : time; lk_updated : time;
}.
Record cred_row : Type := { cr_client_id : string; cr_ciphertext : string; cr_created : time; cr_updated : time }.
(** [as_PKCEVerifier] of a stored state is the ciphertext. *)
Record soc_db : Type := {
  t_providers : gmap N Provider;      (* without the members of the credentials *)
  t_creds : gmap N cred_row;
  t_states : gmap string AuthState;
  t_links : gmap (string * string) link_row;
  t_schemas : gmap N (bool * time);   (* is_default, created_at *)
  t_core : identity_db;
}.
Definition with_provs (db : soc_db) p c : soc_db :=
  {| t_providers := p; t_creds := c; t_states := t_states db; t_links := t_links db; t_schemas := t_schemas db; t_core := t_core db |}.
Definition with_states (db : soc_db) s : soc_db :=
  {| t_providers := t_providers db; t_creds := t_creds db; t_states := s; t_links := t_links db; t_schemas := t_schemas db; t_core := t_core db |}.
Definition with_links (db : soc_db) l : soc_db :=
  {| t_providers := t_providers db; t_creds := t_creds db; t_states := t_states db; t_links := l; t_schemas := t_schemas db; t_core := t_core db |}.
Definition with_core (db : soc_db) c : soc_db :=
  {| t_providers := t_providers db; t_creds := t_creds db; t_states := t_states db; t_links := t_links db; t_schemas := t_schemas db; t_core := c |}.

(** NewPostgres: the pool is there and the key has its length. *)
Definition NewPostgres (pool : bool) (cipherKey : string) : result soc_error string :=
  if negb pool then Err (SocDb (DbFault "postgres pool is required"))
  else if negb (String.length cipherKey =? KeySize)%nat then Err (SocCrypto ErrInvalidKeyLength)
  else Ok cipherKey.

Fixpoint dedup (seen : list string) (scopes : list string) : list string :=
  match scopes with
  | [] => []
  | s :: rest =>
      let t := TrimSpace s in
      if String.eqb t "" || existsb (String.eqb t) seen then dedup seen rest else t :: dedup (t :: seen) rest
  end.
Definition normalizeScopes (scopes : list string) : list string := dedup [] scopes.

(** The row of a provider as the INSERT writes it. *)
Definition row_of (p : Provider) (id : uuid) (slug : string) (created updated : time) : Provider :=
  {| pr_ID := id; pr_Slug := slug; pr_DisplayName := TrimSpace (pr_DisplayName p); pr_Preset := TrimSpace (pr_Preset p);
     pr_Protocol := pr_Protocol p; pr_Issuer := TrimSpace (pr_Issuer p); pr_DiscoveryURL := TrimSpace (pr_DiscoveryURL p);
     pr_AuthorizeEndpoint := TrimSpace (pr_AuthorizeEndpoint p); pr_TokenEndpoint := TrimSpace (pr_TokenEndpoint p);
     pr_UserInfoEndpoint := TrimSpace (pr_UserInfoEndpoint p); pr_JWKSURI := TrimSpace (pr_JWKSURI p);
     pr_Scopes := normalizeScopes (pr_Scopes p); pr_ClaimMapping := pr_ClaimMapping p;
     pr_ExtraAuthParams := pr_ExtraAuthParams p; pr_PKCEMethod := pr_PKCEMethod p; pr_AuthStyle := pr_AuthStyle p;
     pr_ClaimSource := pr_ClaimSource p; pr_Enabled := pr_Enabled p; pr_TrustEmailVerified := pr_TrustEmailVerified p;
     pr_RedirectURI := TrimSpace (pr_RedirectURI p); pr_ClientID := ""; pr_ClientSecret := "";
     pr_CreatedAt := created; pr_UpdatedAt := updated |}.
Definition one_of (s : string) (l : list string) : bool := existsb (String.eqb s) l.
Definition check_provider (p : Provider) : option db_error :=
  if negb (one_of (pr_Protocol p) [ProtocolOIDC; ProtocolOAuth]) then Some (CheckViolation "soc_providers_protocol_check")
  else if negb (one_of (pr_PKCEMethod p) [PKCENone; PKCEPlain; PKCES256]) then Some (CheckViolation "soc_providers_pkce_method_check")
  else if negb (one_of (pr_AuthStyle p) [AuthStyleClientSecretPost; AuthStyleClientSecretBasic])
  then Some (CheckViolation "soc_providers_auth_style_check")
  else if negb (one_of (pr_ClaimSource p) [ClaimSourceUserInfo; ClaimSourceIDToken; ClaimSourceGitHubUser])
  then Some (CheckViolation "soc_providers_claim_source_check")
  else None.

Definition by_slug (slug : string) (db : soc_db) : option (N * Provider) :=
  List.find (fun kv => String.eqb (pr_Slug kv.2) slug) (map_to_list (t_providers db)).

(** INSERT ... ON CONFLICT (slug) DO UPDATE; the trigger sets [updated_at]. *)
Definition upsert_row (p : Provider) (slug : string) (d : rdraws) (db : soc_db) : result db_error (uuid * soc_db) :=
  match check_provider p with
  | Some e => Err e
  | None =>
      match by_slug slug db with
      | Some (id, existing) =>
          Ok (id, with_provs db (<[id := row_of p id slug (pr_CreatedAt existing) (rd_dbnow d)]> (t_providers db)) (t_creds db))
      | None =>
          let id := if (pr_ID p =? uuid_Nil)%N then rd_id d else pr_ID p in
          if bool_decide (is_Some (t_providers db !! id)) then Err (UniqueViolation "soc_providers_pkey")
          else Ok (id, with_provs db (<[id := row_of p id slug (rd_now d) (rd_now d)]> (t_providers db)) (t_creds db))
      end
  end.
Definition upsert_cred (id : uuid) (clientID ciphertext : string) (d : rdraws) (db : soc_db) : result db_error (unit * soc_db) :=
  if negb (bool_decide (is_Some (t_providers db !! id))) then Err (ForeignKeyViolation "soc_provider_credentials_provider_id_fkey")
  else
    let row :=
      match t_creds db !! id with
      | Some old => {| cr_client_id := clientID; cr_ciphertext := if String.eqb ciphertext "" then cr_ciphertext old else ciphertext;
                       cr_created := cr_created old; cr_updated := rd_dbnow d |}
      | None => {| cr_client_id := clientID; cr_ciphertext := ciphertext; cr_created := rd_now d; cr_updated := rd_now d |}
      end in
    Ok (tt, with_provs db (t_providers db) (<[id := row]> (t_creds db))).

Section postgres.
Context `{Primitives} `{ScanOrder} (collate : string -> string -> bool) (cipherKey : string).
Abbreviation PM := (M soc_db soc_error).

Definition lift_crypto {A} (r : result crypto_error A) : PM A :=
  match r with Ok a => mret a | Err e => throw (SocCrypto e) end.

Definition secret_aad (slug : string) : string := "social-provider:" +:+ normalizeSlug slug.
Definition encryptSecret (slug secret : string) (nonce : option string) : result crypto_error string :=
  EncryptField cipherKey secret (secret_aad slug) nonce.
Definition decryptSecret (slug ciphertext : string) : result crypto_error string :=
  if String.eqb (TrimSpace ciphertext) "" then Ok "" else DecryptField cipherKey ciphertext (secret_aad slug).

(** The joined row; the row of a provider has an empty client identifier. *)
Definition scanProvider (db : soc_db) (kv : N * Provider) : result crypto_error Provider :=
  let '(clientID, ciphertext) :=
    match t_creds db !! kv.1 with Some c => (cr_client_id c, cr_ciphertext c) | None => ("", "") end in
  match decryptSecret (pr_Slug kv.2) ciphertext with
  | Err e => Err e
  | Ok secret =>
      let p := with_row kv.2 kv.1 (pr_Slug kv.2) secret (pr_CreatedAt kv.2) (pr_UpdatedAt kv.2) in
      Ok {| pr_ID := pr_ID p; pr_Slug := pr_Slug p; pr_DisplayName := pr_DisplayName p; pr_Preset := pr_Preset p;
            pr_Protocol := pr_Protocol p; pr_Issuer := pr_Issuer p; pr_DiscoveryURL := pr_DiscoveryURL p;
            pr_AuthorizeEndpoint := pr_AuthorizeEndpoint p; pr_TokenEndpoint := pr_TokenEndpoint p;
            pr_UserInfoEndpoint := pr_UserInfoEndpoint p; pr_JWKSURI := pr_JWKSURI p; pr_Scopes := pr_Scopes p;
            pr_ClaimMapping := pr_ClaimMapping p; pr_ExtraAuthParams := pr_ExtraAuthParams p; pr_PKCEMethod := pr_PKCEMethod p;
            pr_AuthStyle := pr_AuthStyle p; pr_ClaimSource := pr_ClaimSource p; pr_Enabled := pr_Enabled p;
            pr_TrustEmailVerified := pr_TrustEmailVerified p; pr_RedirectURI := pr_RedirectURI p; pr_ClientID := clientID;
            pr_ClientSecret := pr_ClientSecret p; pr_CreatedAt := pr_CreatedAt p; pr_UpdatedAt := pr_UpdatedAt p |}
  end.

(** ORDER BY p.display_name ASC, p.slug ASC. *)
Definition provider_before (x y : N * Provider) : bool :=
  if String.eqb (pr_DisplayName x.2) (pr_DisplayName y.2) then collate (pr_Slug x.2) (pr_Slug y.2)
  else collate (pr_DisplayName x.2) (pr_DisplayName y.2).
Fixpoint scan_all (db : soc_db) (rows : list (N * Provider)) : result crypto_error (list Provider) :=
  match rows with
  | [] => Ok []
  | kv :: rest =>
      match scanProvider db kv with
      | Err e => Err e
      | Ok p => match scan_all db rest with Ok ps => Ok (p :: ps) | Err e => Err e end
      end
  end.
Definition ListProviders (includeDisabled : bool) : PM (list Provider) :=
  ps ← db_stmt (fun db => Ok (scan_all db (sort_by provider_before
         (List.filter (fun kv => includeDisabled || pr_Enabled kv.2) (scan (t_providers db)))), db));
  lift_crypto ps.

Definition GetProviderBySlug (slug : string) : PM Provider :=
  row ← db_stmt (fun db => Ok (scanProvider db <$> by_slug (normalizeSlug slug) db, db));
  match row with
  | None => throw ErrProviderNotFound
  | Some p => lift_crypto p
  end.

Definition UpsertProvider (provider : Provider) (d : rdraws) : PM Provider :=
  let slug := normalizeSlug (pr_Slug provider) in
  if String.eqb slug "" then throw ErrProviderNotFound
  else
    db_tx (
      id ← db_stmt (upsert_row provider slug d);
      ciphertext ← (if String.eqb (TrimSpace (pr_ClientSecret provider)) "" then mret ""
                    else lift_crypto (encryptSecret slug (pr_ClientSecret provider) (rd_nonce d)));
      db_stmt (upsert_cred id (TrimSpace (pr_ClientID provider)) ciphertext d)) ≫= fun _ =>
    GetProviderBySlug slug.

Definition DeleteProvider (slug : string) : PM unit :=
  affected ← db_stmt (fun db =>
    match by_slug (normalizeSlug slug) db with
    | Some (id, _) => Ok (true, with_provs db (delete id (t_providers db)) (delete id (t_creds db)))
    | None => Ok (false, db)
    end);
  if affected : bool then mret tt else throw ErrProviderNotFound.

Definition SaveState (state : AuthState) (d : rdraws) : PM unit :=
  verifier ← (if String.eqb (TrimSpace (as_PKCEVerifier state)) "" then mret ""
              else lift_crypto (EncryptField cipherKey (as_PKCEVerifier state) (as_ID state) (rd_nonce d)));
  db_stmt (fun db =>
    if bool_decide (is_Some (t_states db !! as_ID state)) then Err (UniqueViolation "soc_auth_states_pkey")
    else Ok (tt, with_states db (<[as_ID state :=
      {| as_ID := as_ID state; as_ProviderSlug := normalizeSlug (as_ProviderSlug state); as_RedirectTo := TrimSpace (as_RedirectTo state);
         as_Nonce := TrimSpace (as_Nonce state); as_PKCEVerifier := verifier; as_ExpiresAt := as_ExpiresAt state |}]> (t_states db)))).

(** The two statements of the transaction, and what follows its commit. *)
Definition select_state (stateID : string) : PM AuthState :=
  row ← db_stmt (fun db => Ok (t_states db !! stateID, db));
  match row with Some st => mret st | None => throw ErrStateNotFound end.
Definition delete_state (stateID : string) : PM unit :=
  db_stmt (fun db => Ok (tt, with_states db (delete stateID (t_states db)))).
Definition open_state (st : AuthState) (now : time) : PM AuthState :=
  if time_after now (as_ExpiresAt st) then throw ErrStateExpired
  else if String.eqb (as_PKCEVerifier st) "" then mret st
  else
    plaintext ← lift_crypto (DecryptField cipherKey (as_PKCEVerifier st) (as_ID st));
    mret {| as_ID := as_ID st; as_ProviderSlug := as_ProviderSlug st; as_RedirectTo := as_RedirectTo st; as_Nonce := as_Nonce st;
            as_PKCEVerifier := plaintext; as_ExpiresAt := as_ExpiresAt st |}.
Definition ConsumeState (stateID : string) (now : time) : PM AuthState :=
  st ← db_tx (st ← select_state stateID; delete_state stateID ≫= fun _ => mret st);
  open_state st now.

Definition shouldTrustEmail (provider : Provider) (profile : SocialProfile) : bool :=
  pr_TrustEmailVerified provider && sp_EmailVerified profile && negb (String.eqb (TrimSpace (sp_Email profile)) "").

Definition identityByLink (slug subject : string) : PM (option uuid) :=
  db_stmt (fun db => Ok (lk_identity <$> t_links db !! (normalizeSlug slug, TrimSpace subject), db)).

Definition refreshLink (provider : Provider) (identityID : uuid) (profile : SocialProfile) (d : rdraws) : PM unit :=
  db_stmt (fun db =>
    let key := (pr_Slug provider, sp_ProviderUser profile) in
    if negb (bool_decide (is_Some (t_identities (t_core db) !! identityID))) then Err (ForeignKeyViolation "soc_identity_links_identity_id_fkey")
    else match t_links db !! key with
    | Some old =>
        Ok (tt, with_links db (<[key :=
          {| lk_id := lk_id old; lk_identity := identityID; lk_email := ToLower (TrimSpace (sp_Email profile));
             lk_email_verified := sp_EmailVerified profile; lk_name := TrimSpace (sp_Name profile);
             lk_picture := TrimSpace (sp_PictureURL profile); lk_claims := sp_RawClaims profile; lk_linked := lk_linked old;
             lk_last_login := rd_now d; lk_updated := rd_dbnow d |}]> (t_links db)))
    | None =>
        if existsb (fun kv => (lk_id kv.2 =? rd_id3 d)%N) (map_to_list (t_links db)) then Err (UniqueViolation "soc_identity_links_pkey")
        else Ok (tt, with_links db (<[key :=
          {| lk_id := rd_id3 d; lk_identity := identityID; lk_email := ToLower (TrimSpace (sp_Email profile));
             lk_email_verified := sp_EmailVerified profile; lk_name := TrimSpace (sp_Name profile);
             lk_picture := TrimSpace (sp_PictureURL profile); lk_claims := sp_RawClaims profile; lk_linked := rd_now d;
             lk_last_login := rd_now d; lk_updated := rd_now d |}]> (t_links db)))
    end).

Definition is_primary_email (identityID : uuid) (a : address_row) : bool :=
  (ad_identity a =? identityID)%N && String.eqb (ad_type a) "email" && ad_primary a.
Definition set_primary (email : string) (verified : bool) (now : time) (a : address_row) : address_row :=
  {| ad_identity := ad_identity a; ad_type := ad_type a; ad_value := email; ad_primary := ad_primary a; ad_verified := verified;
     ad_verified_at := if verified then Some (default now (ad_verified_at a)) else None; ad_created := ad_created a; ad_updated := now |}.

Definition upsertPrimaryEmail (identityID : uuid) (email : string) (verified : bool) (d : rdraws) : PM unit :=
  let email := ToLower (TrimSpace email) in
  if String.eqb email "" then mret tt
  else
    affected ← db_stmt (fun db =>
      let rows := (fun a => if is_primary_email identityID a then set_primary email verified (rd_dbnow d) a else a)
                    <$> t_addresses (t_core db) in
      if verified_twice rows then Err (UniqueViolation "idx_core_addr_value_type")
      else Ok (existsb (fun kv => is_primary_email identityID kv.2) (map_to_list (t_addresses (t_core db))),
               with_core db {| t_identities := t_identities (t_core db); t_addresses := rows |}));
    if affected : bool then mret tt
    else db_stmt (fun db =>
      let row := {| ad_identity := identityID; ad_type := "email"; ad_value := email; ad_primary := true; ad_verified := verified;
                    ad_verified_at := if verified then Some (rd_dbnow d) else None; ad_created := rd_dbnow d; ad_updated := rd_dbnow d |} in
      let rows := <[rd_id2 d := row]> (t_addresses (t_core db)) in
      if bool_decide (is_Some (t_addresses (t_core db) !! rd_id2 d)) then Err (UniqueViolation "core_identity_addresses_pkey")
      else if negb (bool_decide (is_Some (t_identities (t_core db) !! identityID))) then Err (ForeignKeyViolation "core_identity_addresses_identity_id_fkey")
      else if verified_twice rows then Err (UniqueViolation "idx_core_addr_value_type")
      else Ok (tt, with_core db {| t_identities := t_identities (t_core db); t_addresses := rows |})).

(** ORDER BY a.verified DESC, a.is_primary DESC, a.created_at ASC LIMIT 1. *)
Definition owner_before (a b : address_row) : bool :=
  if Bool.eqb (ad_verified a) (ad_verified b) then
    if Bool.eqb (ad_primary a) (ad_primary b) then (ad_created a <=? ad_created b)%Z else ad_primary a
  else ad_verified a.
Definition owner_of (email : string) (db : soc_db) : option uuid :=
  (fun kv => ad_identity kv.2) <$>
  head (sort_by (fun x y : N * address_row => owner_before x.2 y.2)
    (List.filter (fun kv => joined email (t_core db) kv.2) (scan (t_addresses (t_core db))))).
(** ORDER BY is_default DESC, created_at ASC LIMIT 1. *)
Definition schema_before (a b : bool * time) : bool := if Bool.eqb a.1 b.1 then (a.2 <=? b.2)%Z else a.1.
Definition default_schema (db : soc_db) : option uuid :=
  fst <$> head (sort_by (fun x y : N * (bool * time) => schema_before x.2 y.2) (scan (t_schemas db))).

(** A new identity; its schema and traits are not read by this code. *)
Definition create_identity (provider : Provider) (profile : SocialProfile) (d : rdraws) : PM (uuid * bool) :=
  db_stmt (fun db => match default_schema db with Some id => Ok (id, db) | None => Err NoRows end) ≫= fun _ =>
  db_stmt (fun db =>
    if bool_decide (is_Some (t_identities (t_core db) !! rd_id d)) then Err (UniqueViolation "core_identities_pkey")
    else Ok (tt, with_core db {| t_identities := <[rd_id d := {| ir_state := "active"; ir_deleted := None |}]> (t_identities (t_core db));
                                 t_addresses := t_addresses (t_core db) |})) ≫= fun _ =>
  (if String.eqb (ToLower (TrimSpace (sp_Email profile))) "" then mret tt
   else upsertPrimaryEmail (rd_id d) (ToLower (TrimSpace (sp_Email profile))) (shouldTrustEmail provider profile) d) ≫= fun _ =>
  mret (rd_id d, true).

Definition lookupOrCreateIdentity (provider : Provider) (profile : SocialProfile) (d : rdraws) : PM (uuid * bool) :=
  let email := ToLower (TrimSpace (sp_Email profile)) in
  if negb (String.eqb email "") && shouldTrustEmail provider profile then
    owner ← db_stmt (fun db => Ok (owner_of email db, db));
    match owner with
    | Some identityID => upsertPrimaryEmail identityID email true d ≫= fun _ => mret (identityID, false)
    | None => create_identity provider profile d
    end
  else create_identity provider profile d.

Definition ResolveIdentity (provider : Provider) (profile : SocialProfile) (d : rdraws) : PM IdentityLinkResult :=
  db_tx (
    existing ← identityByLink (pr_Slug provider) (sp_ProviderUser profile);
    match existing with
    | Some identityID =>
        refreshLink provider identityID profile d ≫= fun _ =>
        (if shouldTrustEmail provider profile then upsertPrimaryEmail identityID (sp_Email profile) true d else mret tt) ≫= fun _ =>
        mret {| il_IdentityID := identityID; il_Created := false; il_Linked := true |}
    | None =>
        found ← lookupOrCreateIdentity provider profile d;
        refreshLink provider found.1 profile d ≫= fun _ =>
        mret {| il_IdentityID := found.1; il_Created := found.2; il_Linked := true |}
    end).

Definition repository : Repository soc_db :=
  {| Social.ListProviders := ListProviders; Social.GetProviderBySlug := GetProviderBySlug;
     Social.UpsertProvider := UpsertProvider; Social.DeleteProvider := DeleteProvider; Social.SaveState := SaveState;
     Social.ConsumeState := ConsumeState; Social.ResolveIdentity := ResolveIdentity |}.
End postgres.
End Postgres.
