(* ===== verification/SocialService.v ===== *)
(** modules/social/service: the OAuth flow with external providers
    (service.go, oauth.go, jwt.go, types.go) over any repository, and the
    catalogue of presets (providers/catalog/catalog.go).

    The providers' endpoints are a parameter of each request ([remote]), since
    they may answer differently every time; a failed request, a status outside
    200 to 299 and a body that does not decode are all [Err].  URL building,
    JSON of tokens, RSA key encoding and title case are parameters as well. *)

From Stdlib Require Import Ascii String.
From S2P Require Import MagicLinkHttp.
From S2P Require Import Prelude GoStrings GoEncoding PlatformCrypto CryptoFields Jwt Social.

Local Open Scope string_scope.

Inductive svc_error : Type :=
| ErrProviderUnsupported
| ErrInvalidState
| ErrInvalidCallback
| ErrProviderMisconfig
| SvcRepo (e : soc_error)
| SvcCrypto (e : crypto_error)
| SvcJwt (e : jwt_error)
| SvcRemote (message : string).

Record resolvedProvider : Type := {
  rp_Issuer : string; rp_AuthorizeEndpoint : string; rp_TokenEndpoint : string; rp_UserInfoEndpoint : string;
  rp_JWKSURI : string; rp_Scopes : list string;
}.
Record discoveryDocument : Type := {
  dd_Issuer : string; dd_AuthorizationEndpoint : string; dd_TokenEndpoint : string; dd_UserInfoEndpoint : string;
  dd_JWKSURI : string; dd_ScopesSupported : list string;
}.
Record tokenPayload : Type := { tp_AccessToken : string; tp_TokenType : string; tp_IDToken : string }.
Record jwk : Type := { k_Kid : string; k_Kty : string; k_Alg : string; k_Crv : string; k_X : string; k_Y : string; k_N : string; k_E : string }.

(** Claims; a number is kept as the text of [%.0f]. *)
Abbreviation claims := (gmap string jval).

(** The token request: endpoint, form, and basic authentication. *)
Record token_request : Type := { tr_endpoint : string; tr_form : list (string * string); tr_basic : option (string * string) }.

(** What the provider answers. *)
Record remote : Type := {
  r_discovery : string -> result string discoveryDocument;
  r_token : token_request -> result string tokenPayload;
  r_claims : string -> string -> result string claims;
  r_github_emails : string -> option (list claims);
  r_jwks : string -> result string (list jwk);
}.

(** Parsing an endpoint and setting query parameters in turn; title case; the
    decoding of token payloads with float64 numbers; the DER form of an RSA
    key; the [kid] and [alg] of a token header. *)
Class SocialEnv := {
  with_params : string -> list (string * string) -> option string;
  title : string -> string;
  payload_Unmarshal : string -> option claims;
  header_kid_alg : string -> option (string * string);
  MarshalPKCS1PublicKey : Z -> Z -> string;
}.

(** ** The catalogue (catalog.go)

    The embedded entries in the order of the directory: name, whether it is a
    directory, and what reading and decoding the file gives. *)
Record preset_entry : Type := { pe_name : string; pe_dir : bool; pe_content : result string Provider }.
Record catalogue : Type := { presetBySlug : gmap string Provider; presetOrder : list string }.

Definition with_slug_preset (p : Provider) (slug preset : string) : Provider :=
  {| pr_ID := pr_ID p; pr_Slug := slug; pr_DisplayName := pr_DisplayName p; pr_Preset := preset; pr_Protocol := pr_Protocol p;
     pr_Issuer := pr_Issuer p; pr_DiscoveryURL := pr_DiscoveryURL p; pr_AuthorizeEndpoint := pr_AuthorizeEndpoint p;
     pr_TokenEndpoint := pr_TokenEndpoint p; pr_UserInfoEndpoint := pr_UserInfoEndpoint p; pr_JWKSURI := pr_JWKSURI p;
     pr_Scopes := pr_Scopes p; pr_ClaimMapping := pr_ClaimMapping p; pr_ExtraAuthParams := pr_ExtraAuthParams p;
     pr_PKCEMethod := pr_PKCEMethod p; pr_AuthStyle := pr_AuthStyle p; pr_ClaimSource := pr_ClaimSource p;
     pr_Enabled := pr_Enabled p; pr_TrustEmailVerified := pr_TrustEmailVerified p; pr_RedirectURI := pr_RedirectURI p;
     pr_ClientID := pr_ClientID p; pr_ClientSecret := pr_ClientSecret p; pr_CreatedAt := pr_CreatedAt p; pr_UpdatedAt := pr_UpdatedAt p |}.

Fixpoint load_entries (entries : list preset_entry) (c : catalogue) : result string catalogue :=
  match entries with
  | [] => Ok {| presetBySlug := presetBySlug c; presetOrder := sort_Strings (presetOrder c) |}
  | e :: rest =>
      if pe_dir e || negb (HasSuffix (ToLower (pe_name e)) ".json") then load_entries rest c
      else match pe_content e with
      | Err m => Err m
      | Ok p =>
          let slug := ToLower (TrimSpace (pr_Slug p)) in
          let preset := ToLower (TrimSpace (pr_Preset p)) in
          if String.eqb slug "" then Err ("preset " +:+ pe_name e +:+ " is missing slug")
          else
            let p := with_slug_preset p slug (if String.eqb preset "" then slug else preset) in
            load_entries rest {| presetBySlug := <[slug := p]> (presetBySlug c); presetOrder := presetOrder c ++ [slug] |}
      end
  end.
Definition ensureLoaded (entries : list preset_entry) : result string catalogue :=
  load_entries entries {| presetBySlug := ∅; presetOrder := [] |}.
Definition Lookup (entries : list preset_entry) (name : string) : result string Provider :=
  match ensureLoaded entries with
  | Err m => Err m
  | Ok c => match presetBySlug c !! ToLower (TrimSpace name) with
            | Some p => Ok p
            | None => Err "unknown provider preset"
            end
  end.
Definition All (entries : list preset_entry) : list Provider :=
  match ensureLoaded entries with
  | Err _ => []
  | Ok c => omap (fun slug => presetBySlug c !! slug) (presetOrder c)
  end.
Definition Names (entries : list preset_entry) : list string :=
  match ensureLoaded entries with Err _ => [] | Ok c => presetOrder c end.

(** ** Merging and normalising *)

Record ProviderUpsertRequest : Type := {
  rq_Slug : string; rq_DisplayName : string; rq_Preset : string; rq_Protocol : string; rq_Issuer : string;
  rq_DiscoveryURL : string; rq_AuthorizeEndpoint : string; rq_TokenEndpoint : string; rq_UserInfoEndpoint : string;
  rq_JWKSURI : string; rq_Scopes : list string; rq_ClaimMapping : ClaimMapping; rq_ExtraAuthParams : gmap string string;
  rq_PKCEMethod : string; rq_AuthStyle : string; rq_ClaimSource : string; rq_Enabled : bool; rq_TrustEmailVerified : bool;
  rq_RedirectURI : string; rq_ClientID : string; rq_ClientSecret : string;
}.

Definition or_else (a b : string) : string := if String.eqb a "" then b else a.

Definition mergeClaimMapping (base override : ClaimMapping) : ClaimMapping :=
  {| cm_Subject := or_else (cm_Subject override) (cm_Subject base); cm_Email := or_else (cm_Email override) (cm_Email base);
     cm_EmailVerified := or_else (cm_EmailVerified override) (cm_EmailVerified base);
     cm_Name := or_else (cm_Name override) (cm_Name base); cm_Picture := or_else (cm_Picture override) (cm_Picture base) |}.

Definition mergePreset (preset override : Provider) : Provider :=
  {| pr_ID := pr_ID preset; pr_Slug := or_else (pr_Slug override) (pr_Slug preset);
     pr_DisplayName := or_else (pr_DisplayName override) (pr_DisplayName preset); pr_Preset := pr_Preset preset;
     pr_Protocol := or_else (pr_Protocol override) (pr_Protocol preset); pr_Issuer := or_else (pr_Issuer override) (pr_Issuer preset);
     pr_DiscoveryURL := or_else (pr_DiscoveryURL override) (pr_DiscoveryURL preset);
     pr_AuthorizeEndpoint := or_else (pr_AuthorizeEndpoint override) (pr_AuthorizeEndpoint preset);
     pr_TokenEndpoint := or_else (pr_TokenEndpoint override) (pr_TokenEndpoint preset);
     pr_UserInfoEndpoint := or_else (pr_UserInfoEndpoint override) (pr_UserInfoEndpoint preset);
     pr_JWKSURI := or_else (pr_JWKSURI override) (pr_JWKSURI preset);
     pr_Scopes := match pr_Scopes override with [] => pr_Scopes preset | s => s end;
     pr_ClaimMapping := mergeClaimMapping (pr_ClaimMapping preset) (pr_ClaimMapping override);
     pr_ExtraAuthParams := pr_ExtraAuthParams override ∪ pr_ExtraAuthParams preset;
     pr_PKCEMethod := or_else (pr_PKCEMethod override) (pr_PKCEMethod preset);
     pr_AuthStyle := or_else (pr_AuthStyle override) (pr_AuthStyle preset);
     pr_ClaimSource := or_else (pr_ClaimSource override) (pr_ClaimSource preset);
     pr_Enabled := pr_Enabled preset || pr_Enabled override;
     pr_TrustEmailVerified := pr_TrustEmailVerified preset || pr_TrustEmailVerified override;
     pr_RedirectURI := or_else (pr_RedirectURI override) (pr_RedirectURI preset);
     pr_ClientID := or_else (pr_ClientID override) (pr_ClientID preset);
     pr_ClientSecret := or_else (pr_ClientSecret override) (pr_ClientSecret preset);
     pr_CreatedAt := pr_CreatedAt preset; pr_UpdatedAt := pr_UpdatedAt preset |}.

(** [strings.ContainsAny(s, CR LF)]. *)
Definition has_newline (s : string) : bool :=
  negb (str_forall (fun c => negb (Ascii.eqb c "013" || Ascii.eqb c "010")) s).
Definition normalizeRedirectTarget (target : string) : string :=
  let target := TrimSpace target in
  if String.eqb target "" then "/"
  else if has_newline target then "/"
  else if negb (HasPrefix target "/") || HasPrefix target "//" then "/"
  else target.

(** ** Claims (oauth.go) *)

Fixpoint claim_value (cs : claims) (keys : list string) : string :=
  match keys with
  | [] => ""
  | key :: rest =>
      let key := TrimSpace key in
      if String.eqb key "" then claim_value cs rest
      else match cs !! key with
      | Some (JString s) => if String.eqb (TrimSpace s) "" then claim_value cs rest else TrimSpace s
      | Some (JNumber t) => TrimSpace t
      | _ => claim_value cs rest
      end
  end.
Definition claimValue (cs : claims) (mapping : string) : string := claim_value cs (Split mapping "|").

Definition truthy (s : string) : bool := existsb (String.eqb (ToLower (TrimSpace s))) ["true"; "1"; "yes"].
Fixpoint claim_bool (cs : claims) (keys : list string) : bool :=
  match keys with
  | [] => false
  | key :: rest =>
      let key := TrimSpace key in
      if String.eqb key "" then claim_bool cs rest
      else match cs !! key with
      | Some (JBool b) => b
      | Some (JString s) => if truthy s then true else claim_bool cs rest
      | _ => claim_bool cs rest
      end
  end.
Definition claimBool (cs : claims) (mapping : string) : bool := claim_bool cs (Split mapping "|").

Definition claimsToProfile (provider : Provider) (cs : claims) : SocialProfile :=
  let m := pr_ClaimMapping provider in
  let user := claimValue cs (cm_Subject m) in
  let email := ToLower (claimValue cs (cm_Email m)) in
  let verified := claimBool cs (cm_EmailVerified m) in
  {| sp_Provider := pr_Slug provider;
     sp_ProviderUser := if String.eqb user "" then claimValue cs "sub|id" else user;
     sp_Email := email;
     sp_EmailVerified :=
       if negb verified && negb (String.eqb (TrimSpace email) "") && String.eqb (pr_ClaimSource provider) ClaimSourceGitHubUser
       then true else verified;
     sp_Name := claimValue cs (cm_Name m);
     sp_PictureURL := claimValue cs (cm_Picture m);
     sp_RawClaims := cs |}.

(** The first address of the list that [p] accepts. *)
Definition item_bool (item : claims) (k : string) : bool := match item !! k with Some (JBool b) => b | _ => false end.
Definition item_string (item : claims) (k : string) : string := match item !! k with Some (JString s) => s | _ => "" end.
Fixpoint take_email (p : claims -> bool) (items : list claims) (cs : claims) : claims :=
  match items with
  | [] => cs
  | item :: rest =>
      if p item && negb (String.eqb (item_string item "email") "")
      then <["email_verified" := JBool true]> (<["email" := JString (item_string item "email")]> cs)
      else take_email p rest cs
  end.

(** ** The service *)

Record svc (S : Type) : Type := { ss_repo : S; ss_discovery : gmap string discoveryDocument }.
Arguments ss_repo {S} _.
Arguments ss_discovery {S} _.
Definition put_repo {S} (r : S) (s : svc S) : svc S := {| ss_repo := r; ss_discovery := ss_discovery s |}.

Record StartAuthResponse : Type := { st_Provider : string; st_AuthURL : string; st_State : string }.
Record CallbackResult : Type := {
  cb_Provider : string; cb_RedirectTo : string; cb_IdentityID : string; cb_CreatedIdentity : bool; cb_Linked : bool;
  cb_Profile : SocialProfile;
}.

(** What a request draws besides the repository's draws. *)
Record sdraws : Type := {
  sd_remote : remote; sd_now : time; sd_state : result crypto_error string; sd_nonce : result crypto_error string;
  sd_verifier : result crypto_error string; sd_repo : rdraws; sd_jwt : time;
}.

Definition randomHexToken (buf : result crypto_error string) : result svc_error string :=
  match buf with Ok b => Ok (hex_EncodeToString b) | Err e => Err (SvcCrypto e) end.
Definition randomPKCEVerifier (buf : result crypto_error string) : result svc_error string :=
  match buf with Ok b => Ok (b64url_Encode b) | Err e => Err (SvcCrypto e) end.
Definition shortLeeway : duration := 30 * second.

Section service.
Context {S : Type} `{Repository S} `{UuidText} `{SocialEnv} `{JwtJson} `{Signatures} `{ScanOrder} (entries : list preset_entry).

Abbreviation SM := (M (svc S) svc_error).
Definition repo {A} (m : M S soc_error A) : SM A := call SvcRepo (zoom ss_repo put_repo m).

Definition ListConfiguredProviders (includeDisabled : bool) : SM (list Provider) :=
  ps ← repo (ListProviders includeDisabled); mret (Sanitized <$> ps).
Definition ListEnabledProviders : SM (list Provider) := ListConfiguredProviders false.
Definition GetProvider (slug : string) : SM Provider := p ← repo (GetProviderBySlug slug); mret (Sanitized p).

(** [strings.TrimSpace] of the request's members, then the preset and the
    defaults. *)
Definition requested (req : ProviderUpsertRequest) : Provider :=
  {| pr_ID := uuid_Nil; pr_Slug := ToLower (TrimSpace (rq_Slug req)); pr_DisplayName := TrimSpace (rq_DisplayName req);
     pr_Preset := ToLower (TrimSpace (rq_Preset req)); pr_Protocol := rq_Protocol req; pr_Issuer := TrimSpace (rq_Issuer req);
     pr_DiscoveryURL := TrimSpace (rq_DiscoveryURL req); pr_AuthorizeEndpoint := TrimSpace (rq_AuthorizeEndpoint req);
     pr_TokenEndpoint := TrimSpace (rq_TokenEndpoint req); pr_UserInfoEndpoint := TrimSpace (rq_UserInfoEndpoint req);
     pr_JWKSURI := TrimSpace (rq_JWKSURI req); pr_Scopes := rq_Scopes req; pr_ClaimMapping := rq_ClaimMapping req;
     pr_ExtraAuthParams := rq_ExtraAuthParams req; pr_PKCEMethod := rq_PKCEMethod req; pr_AuthStyle := rq_AuthStyle req;
     pr_ClaimSource := rq_ClaimSource req; pr_Enabled := rq_Enabled req; pr_TrustEmailVerified := rq_TrustEmailVerified req;
     pr_RedirectURI := TrimSpace (rq_RedirectURI req); pr_ClientID := TrimSpace (rq_ClientID req);
     pr_ClientSecret := TrimSpace (rq_ClientSecret req); pr_CreatedAt := time_zero; pr_UpdatedAt := time_zero |}.
Definition with_defaults (p : Provider) : Provider :=
  {| pr_ID := pr_ID p; pr_Slug := pr_Slug p; pr_DisplayName := or_else (pr_DisplayName p) (title (pr_Slug p)); pr_Preset := pr_Preset p;
     pr_Protocol := or_else (pr_Protocol p) ProtocolOIDC;
     pr_Issuer := pr_Issuer p; pr_DiscoveryURL := pr_DiscoveryURL p; pr_AuthorizeEndpoint := pr_AuthorizeEndpoint p;
     pr_TokenEndpoint := pr_TokenEndpoint p; pr_UserInfoEndpoint := pr_UserInfoEndpoint p; pr_JWKSURI := pr_JWKSURI p;
     pr_Scopes := match pr_Scopes p with [] => ["openid"; "email"; "profile"] | s => s end;
     pr_ClaimMapping := pr_ClaimMapping p; pr_ExtraAuthParams := pr_ExtraAuthParams p;
     pr_PKCEMethod := or_else (pr_PKCEMethod p) PKCES256; pr_AuthStyle := or_else (pr_AuthStyle p) AuthStyleClientSecretPost;
     pr_ClaimSource := or_else (pr_ClaimSource p) ClaimSourceUserInfo;
     pr_Enabled := pr_Enabled p; pr_TrustEmailVerified := pr_TrustEmailVerified p; pr_RedirectURI := pr_RedirectURI p;
     pr_ClientID := pr_ClientID p; pr_ClientSecret := pr_ClientSecret p; pr_CreatedAt := pr_CreatedAt p; pr_UpdatedAt := pr_UpdatedAt p |}.
Definition buildProvider (req : ProviderUpsertRequest) : result svc_error Provider :=
  let p := requested req in
  let merged :=
    if negb (String.eqb (pr_Preset p) "") && negb (String.eqb (pr_Preset p) "custom") then
      match Lookup entries (pr_Preset p) with Ok preset => Ok (mergePreset preset p) | Err m => Err (SvcRemote m) end
    else Ok p in
  match merged with
  | Err e => Err e
  | Ok p =>
      if String.eqb (pr_Slug p) "" then Err ErrProviderMisconfig
      else
        let p := with_defaults p in
        if pr_Enabled p && (String.eqb (pr_ClientID p) "" || String.eqb (pr_RedirectURI p) "") then Err ErrProviderMisconfig
        else Ok p
  end.

(** The service's operations on providers; named after the repository's. *)
Definition SvcUpsertProvider (req : ProviderUpsertRequest) (d : sdraws) : SM Provider :=
  provider ← lift_result (buildProvider req);
  saved ← repo (UpsertProvider provider (sd_repo d));
  mret (Sanitized saved).
Definition SvcDeleteProvider (slug : string) : SM unit := repo (DeleteProvider slug).

(** One preset after the other; each draws its own. *)
Fixpoint ensure_presets (presets : list (Provider * rdraws)) : SM unit :=
  match presets with
  | [] => mret tt
  | (preset, d) :: rest =>
      existing ← attempt (repo (GetProviderBySlug (pr_Slug preset)));
      match existing with
      | Ok _ => ensure_presets rest
      | Err (SvcRepo ErrProviderNotFound) => repo (UpsertProvider preset d) ≫= fun _ => ensure_presets rest
      | Err e => throw e
      end
  end.
Definition EnsurePresetProviders (ds : list rdraws) : SM unit := ensure_presets (zip (All entries) ds).

Definition fetchDiscovery (discoveryURL : string) (rem : remote) : SM discoveryDocument := fun w =>
  let url := TrimSpace discoveryURL in
  match ss_discovery (w_db w) !! url with
  | Some cached => (Ok cached, w)
  | None =>
      match r_discovery rem url with
      | Err m => (Err (SvcRemote m), w)
      | Ok doc =>
          (Ok doc, World {| ss_repo := ss_repo (w_db w); ss_discovery := <[url := doc]> (ss_discovery (w_db w)) |} (w_faults w))
      end
  end.

Definition resolveProvider (p : Provider) (rem : remote) : SM resolvedProvider :=
  let r0 := {| rp_Issuer := TrimSpace (pr_Issuer p); rp_AuthorizeEndpoint := TrimSpace (pr_AuthorizeEndpoint p);
               rp_TokenEndpoint := TrimSpace (pr_TokenEndpoint p); rp_UserInfoEndpoint := TrimSpace (pr_UserInfoEndpoint p);
               rp_JWKSURI := TrimSpace (pr_JWKSURI p); rp_Scopes := pr_Scopes p |} in
  r ← (if String.eqb (pr_Protocol p) ProtocolOIDC && negb (String.eqb (TrimSpace (pr_DiscoveryURL p)) "") then
         doc ← fetchDiscovery (pr_DiscoveryURL p) rem;
         mret {| rp_Issuer := or_else (rp_Issuer r0) (dd_Issuer doc);
                 rp_AuthorizeEndpoint := or_else (rp_AuthorizeEndpoint r0) (dd_AuthorizationEndpoint doc);
                 rp_TokenEndpoint := or_else (rp_TokenEndpoint r0) (dd_TokenEndpoint doc);
                 rp_UserInfoEndpoint := or_else (rp_UserInfoEndpoint r0) (dd_UserInfoEndpoint doc);
                 rp_JWKSURI := or_else (rp_JWKSURI r0) (dd_JWKSURI doc);
                 rp_Scopes := match rp_Scopes r0 with [] => dd_ScopesSupported doc | s => s end |}
       else mret r0);
  if String.eqb (TrimSpace (rp_AuthorizeEndpoint r)) "" || String.eqb (TrimSpace (rp_TokenEndpoint r)) "" then throw ErrProviderMisconfig
  else mret {| rp_Issuer := rp_Issuer r; rp_AuthorizeEndpoint := rp_AuthorizeEndpoint r; rp_TokenEndpoint := rp_TokenEndpoint r;
               rp_UserInfoEndpoint := rp_UserInfoEndpoint r; rp_JWKSURI := rp_JWKSURI r;
               rp_Scopes := match rp_Scopes r with [] => ["openid"; "email"; "profile"] | s => s end |}.

Definition loadProvider (slug : string) (rem : remote) : SM (Provider * resolvedProvider) :=
  p ← call (fun e => match e with SvcRepo ErrProviderNotFound => ErrProviderUnsupported | _ => e end) (repo (GetProviderBySlug slug));
  if negb (pr_Enabled p) then throw ErrProviderUnsupported
  else resolved ← resolveProvider p rem; mret (p, resolved).

(** The query parameters in the order they are set; the extra parameters in
    the order of the map. *)
Definition extra_params (p : Provider) : list (string * string) :=
  omap (fun kv => if String.eqb (TrimSpace kv.1) "" || String.eqb (TrimSpace kv.2) "" then None
                  else Some (TrimSpace kv.1, TrimSpace kv.2)) (scan (pr_ExtraAuthParams p)).
Definition auth_params (p : Provider) (r : resolvedProvider) (state nonce pkceChallenge : string) : list (string * string) :=
  [("response_type", "code"); ("client_id", pr_ClientID p); ("redirect_uri", pr_RedirectURI p);
   ("scope", Join (rp_Scopes r) " "); ("state", state)] ++
  (if String.eqb (pr_Protocol p) ProtocolOIDC || String.eqb (pr_ClaimSource p) ClaimSourceIDToken then [("nonce", nonce)] else []) ++
  (if negb (String.eqb (pr_PKCEMethod p) PKCENone) && negb (String.eqb pkceChallenge "")
   then [("code_challenge", pkceChallenge); ("code_challenge_method", pr_PKCEMethod p)] else []) ++
  extra_params p.
Definition authorizationURL (p : Provider) (r : resolvedProvider) (state nonce pkceChallenge : string) : result svc_error string :=
  match with_params (rp_AuthorizeEndpoint r) (auth_params p r state nonce pkceChallenge) with
  | Some url => Ok url
  | None => Err (SvcRemote "parse")
  end.

Definition pkce_pair (p : Provider) (d : sdraws) : result svc_error (string * string) :=
  if String.eqb (pr_PKCEMethod p) PKCENone then Ok ("", "")
  else match randomPKCEVerifier (sd_verifier d) with
  | Err e => Err e
  | Ok verifier =>
      match PKCEChallenge verifier (pr_PKCEMethod p) with
      | Err e => Err (SvcCrypto e)
      | Ok challenge => Ok (verifier, challenge)
      end
  end.

Definition StartAuth (providerSlug redirectTo : string) (d : sdraws) : SM StartAuthResponse :=
  loaded ← loadProvider providerSlug (sd_remote d);
  let '(provider, resolved) := loaded in
  stateID ← lift_result (randomHexToken (sd_state d));
  nonce ← lift_result (randomHexToken (sd_nonce d));
  pkce ← lift_result (pkce_pair provider d);
  repo (SaveState {| as_ID := stateID; as_ProviderSlug := pr_Slug provider; as_RedirectTo := normalizeRedirectTarget redirectTo;
                     as_Nonce := nonce; as_PKCEVerifier := pkce.1; as_ExpiresAt := time_add (sd_now d) (10 * minute) |} (sd_repo d)) ≫= fun _ =>
  authURL ← lift_result (authorizationURL provider resolved stateID nonce pkce.2);
  mret {| st_Provider := pr_Slug provider; st_AuthURL := authURL; st_State := stateID |}.

Definition exchange_request (p : Provider) (r : resolvedProvider) (state : AuthState) (code : string) : token_request :=
  {| tr_endpoint := rp_TokenEndpoint r;
     tr_form := [("grant_type", "authorization_code"); ("code", code); ("redirect_uri", pr_RedirectURI p); ("client_id", pr_ClientID p)] ++
       (if String.eqb (pr_AuthStyle p) AuthStyleClientSecretPost && negb (String.eqb (pr_ClientSecret p) "")
        then [("client_secret", pr_ClientSecret p)] else []) ++
       (if negb (String.eqb (pr_PKCEMethod p) PKCENone) && negb (String.eqb (as_PKCEVerifier state) "")
        then [("code_verifier", as_PKCEVerifier state)] else []);
     tr_basic := if String.eqb (pr_AuthStyle p) AuthStyleClientSecretBasic && negb (String.eqb (pr_ClientSecret p) "")
                 then Some (pr_ClientID p, pr_ClientSecret p) else None |}.
Definition exchangeCode (p : Provider) (r : resolvedProvider) (state : AuthState) (code : string) (rem : remote) : result svc_error tokenPayload :=
  match r_token rem (exchange_request p r state code) with
  | Err m => Err (SvcRemote m)
  | Ok token =>
      if String.eqb (TrimSpace (tp_AccessToken token)) "" && String.eqb (TrimSpace (tp_IDToken token)) "" then Err ErrInvalidCallback
      else Ok token
  end.

Definition fetchJSONClaims (endpoint accessToken : string) (rem : remote) : result svc_error claims :=
  match r_claims rem endpoint accessToken with Ok cs => Ok cs | Err m => Err (SvcRemote m) end.

Definition profileFromUserInfo (p : Provider) (r : resolvedProvider) (accessToken : string) (rem : remote) : result svc_error SocialProfile :=
  if String.eqb (TrimSpace (rp_UserInfoEndpoint r)) "" || String.eqb (TrimSpace accessToken) "" then Err ErrProviderMisconfig
  else match fetchJSONClaims (rp_UserInfoEndpoint r) accessToken rem with
  | Err e => Err e
  | Ok cs => Ok (claimsToProfile p cs)
  end.

(** The primary verified address, or else any verified one; failures to list
    the addresses are ignored. *)
Definition github_claims (p : Provider) (cs : claims) (items : list claims) : claims :=
  let cs := take_email (fun i => item_bool i "verified" && item_bool i "primary") items cs in
  if String.eqb (TrimSpace (claimValue cs (cm_Email (pr_ClaimMapping p)))) "" then take_email (fun i => item_bool i "verified") items cs
  else cs.
Definition profileFromGitHub (p : Provider) (r : resolvedProvider) (accessToken : string) (rem : remote) : result svc_error SocialProfile :=
  match fetchJSONClaims (rp_UserInfoEndpoint r) accessToken rem with
  | Err e => Err e
  | Ok cs =>
      let cs := if String.eqb (TrimSpace (claimValue cs (cm_Email (pr_ClaimMapping p)))) "" then
                  match r_github_emails rem accessToken with Some items => github_claims p cs items | None => cs end
                else cs in
      Ok (claimsToProfile p cs)
  end.

(** *** Identity tokens (jwt.go) *)

Definition token_parts (token : string) : option (string * string * string) :=
  match Split token "." with [a; b; c] => Some (a, b, c) | _ => None end.
Definition parseJWTHeader (token : string) : result svc_error (string * string) :=
  match token_parts token with
  | None => Err (SvcRemote "invalid jwt")
  | Some (h, _, _) =>
      match b64url_Decode h ≫= header_kid_alg with Some ka => Ok ka | None => Err (SvcRemote "header") end
  end.
Definition parseJWTPayload (token : string) : result svc_error claims :=
  match token_parts token with
  | None => Err (SvcRemote "invalid jwt")
  | Some (_, p, _) =>
      match b64url_Decode p ≫= payload_Unmarshal with Some cs => Ok cs | None => Err (SvcRemote "payload") end
  end.
Definition decodeBase64URLInt (input : string) : option Z := SetBytes <$> b64url_Decode (TrimSpace input).

(** [FillBytes] panics when the number does not fit in the 32 bytes. *)
Definition jwkToVerifyKey (key : jwk) : result svc_error string :=
  if String.eqb (k_Kty key) "EC" then
    if EqualFold (k_Crv key) "P-256" then
      match decodeBase64URLInt (k_X key), decodeBase64URLInt (k_Y key) with
      | Some x, Some y =>
          if (2 ^ 256 <=? x)%Z || (2 ^ 256 <=? y)%Z then Err (SvcRemote "panic: buffer too small")
          else Ok (String "004" (padBytes (Bytes x) 32 +:+ padBytes (Bytes y) 32))
      | _, _ => Err (SvcRemote "base64")
      end
    else Err (SvcRemote "unsupported ec curve")
  else if String.eqb (k_Kty key) "RSA" then
    match decodeBase64URLInt (k_N key), decodeBase64URLInt (k_E key) with
    | Some n, Some e => Ok (MarshalPKCS1PublicKey n (wrap64 e))
    | _, _ => Err (SvcRemote "base64")
    end
  else Err (SvcRemote "unsupported jwk type").

Definition jwk_matches (kid alg : string) (key : jwk) : bool :=
  negb (negb (String.eqb kid "") && negb (String.eqb (k_Kid key) "") && negb (String.eqb (k_Kid key) kid)) &&
  negb (negb (String.eqb alg "") && negb (String.eqb (k_Alg key) "") && negb (String.eqb (k_Alg key) alg)).

Definition verifyAndDecodeIDToken (token clientID issuer jwksURI : string) (rem : remote) (clock : time) : result svc_error claims :=
  match parseJWTHeader token with
  | Err e => Err e
  | Ok (kid, alg) =>
      match r_jwks rem jwksURI with
      | Err m => Err (SvcRemote m)
      | Ok keys =>
          match List.find (jwk_matches kid alg) keys with
          | None => Err (SvcRemote "provider jwk not found")
          | Some key =>
              match jwkToVerifyKey key with
              | Err e => Err e
              | Ok publicKey =>
                  match Verify token publicKey alg {| opt_Issuer := issuer; opt_Audience := clientID; opt_Leeway := shortLeeway |} clock with
                  | Err e => Err (SvcJwt e)
                  | Ok _ => parseJWTPayload token
                  end
              end
          end
      end
  end.

Definition profileFromIDToken (p : Provider) (r : resolvedProvider) (state : AuthState) (idToken : string) (rem : remote) (clock : time)
    : result svc_error SocialProfile :=
  if String.eqb (TrimSpace idToken) "" then Err ErrInvalidCallback
  else match verifyAndDecodeIDToken idToken (pr_ClientID p) (rp_Issuer r) (rp_JWKSURI r) rem clock with
  | Err e => Err e
  | Ok cs =>
      if negb (String.eqb (TrimSpace (as_Nonce state)) "") && negb (String.eqb (TrimSpace (claimValue cs "nonce")) (TrimSpace (as_Nonce state)))
      then Err (SvcRemote "id token nonce mismatch")
      else Ok (claimsToProfile p cs)
  end.

Definition fetchProfile (p : Provider) (r : resolvedProvider) (state : AuthState) (token : tokenPayload) (rem : remote) (clock : time)
    : result svc_error SocialProfile :=
  if String.eqb (pr_ClaimSource p) ClaimSourceIDToken then profileFromIDToken p r state (tp_IDToken token) rem clock
  else if String.eqb (pr_ClaimSource p) ClaimSourceGitHubUser then profileFromGitHub p r (tp_AccessToken token) rem
  else profileFromUserInfo p r (tp_AccessToken token) rem.

Definition CompleteAuth (providerSlug stateID code : string) (d : sdraws) : SM CallbackResult :=
  let providerSlug := ToLower (TrimSpace providerSlug) in
  let stateID := TrimSpace stateID in
  let code := TrimSpace code in
  if String.eqb providerSlug "" || String.eqb stateID "" || String.eqb code "" then throw ErrInvalidCallback
  else
    state ← call (fun e => match e with SvcRepo ErrStateExpired | SvcRepo ErrStateNotFound => ErrInvalidState | _ => e end)
              (repo (ConsumeState stateID (sd_now d)));
    if negb (String.eqb (as_ProviderSlug state) providerSlug) then throw ErrInvalidState
    else
      loaded ← loadProvider providerSlug (sd_remote d);
      let '(provider, resolved) := loaded in
      token ← lift_result (exchangeCode provider resolved state code (sd_remote d));
      profile ← lift_result (fetchProfile provider resolved state token (sd_remote d) (sd_jwt d));
      link ← repo (ResolveIdentity provider profile (sd_repo d));
      mret {| cb_Provider := pr_Slug provider; cb_RedirectTo := as_RedirectTo state; cb_IdentityID := uuid_string (il_IdentityID link);
              cb_CreatedIdentity := il_Created link; cb_Linked := il_Linked link; cb_Profile := profile |}.
End service.
