(* ===== verification/SocialFacts.v ===== *)
(** modules/social: what a repository promises, that both repositories keep
    the promise, and what log-ins over any repository that does are worth. *)

From Stdlib Require Import Ascii String.
From S2P Require Import MagicLinkHttp.
From S2P Require Import Prelude GoStrings GoEncoding PlatformCrypto CryptoFields Jwt Social SocialService.

Local Open Scope string_scope.

(** ** Normal forms *)

Lemma is_space_lower c : is_space (lower_char c) = is_space c.
Proof. by destruct c as [[] [] [] [] [] [] [] []]. Qed.
Lemma lower_char_idem c : lower_char (lower_char c) = lower_char c.
Proof. by destruct c as [[] [] [] [] [] [] [] []]. Qed.
Lemma trim_left_lower s : trim_left is_space (ToLower s) = ToLower (trim_left is_space s).
Proof. unfold ToLower. induction s as [|c s IH]; [done|]. cbn. rewrite is_space_lower. by destruct (is_space c). Qed.
Lemma trim_right_lower s : trim_right is_space (ToLower s) = ToLower (trim_right is_space s).
Proof.
  unfold ToLower. induction s as [|c s IH]; [done|]. cbn. rewrite IH. destruct (trim_right is_space s); cbn; [|done].
  rewrite is_space_lower. by destruct (is_space c).
Qed.
Lemma TrimSpace_lower s : TrimSpace (ToLower s) = ToLower (TrimSpace s).
Proof. unfold TrimSpace, trim. by rewrite trim_left_lower, trim_right_lower. Qed.
Lemma ToLower_ToLower s : ToLower (ToLower s) = ToLower s.
Proof. unfold ToLower. induction s as [|c s IH]; [done|]. cbn. by rewrite lower_char_idem, IH. Qed.
Lemma normalizeSlug_idem s : normalizeSlug (normalizeSlug s) = normalizeSlug s.
Proof. unfold normalizeSlug. by rewrite TrimSpace_lower, TrimSpace_idem, ToLower_ToLower. Qed.

(** A provider and a profile as the service hands them to the repository. *)
Definition normal_provider (p : Provider) : Prop := normalizeSlug (pr_Slug p) = pr_Slug p.
Definition normal_profile (u : SocialProfile) : Prop := TrimSpace (sp_ProviderUser u) = sp_ProviderUser u.

Lemma claim_value_trimmed cs keys : TrimSpace (claim_value cs keys) = claim_value cs keys.
Proof.
  induction keys as [|k keys IH]; [done|]. cbn. destruct (String.eqb (TrimSpace k) ""); [done|].
  destruct (cs !! TrimSpace k) as [[s|t|b| |x]|]; try done; [|apply TrimSpace_idem].
  destruct (String.eqb (TrimSpace s) ""); [done|apply TrimSpace_idem].
Qed.
Lemma claimsToProfile_normal p cs : normal_profile (claimsToProfile p cs).
Proof.
  unfold normal_profile, claimsToProfile, claimValue. cbv zeta. cbn [sp_ProviderUser].
  destruct (String.eqb _ ""); apply claim_value_trimmed.
Qed.

(** ** What a repository promises

    [link]: the identity of a subject; [stored]: the provider and the expiry
    of a pending state. *)
Class RepositoryLaws (S : Type) `{Repository S} := {
  repo_ok : S -> Prop;
  link : S -> string -> string -> option uuid;
  stored : S -> string -> option (string * time);
  get_law : forall slug w r w', GetProviderBySlug slug w = (r, w') -> repo_ok (w_db w) ->
    w_db w' = w_db w /\ forall p, r = Ok p -> pr_Slug p = normalizeSlug slug;
  list_law : forall b w, w_db (ListProviders b w).2 = w_db w;
  upsert_law : forall p d w, repo_ok (w_db w) -> let s' := w_db (UpsertProvider p d w).2 in
    repo_ok s' /\ (forall slug u, link s' slug u = link (w_db w) slug u) /\ (forall id, stored s' id = stored (w_db w) id);
  delete_law : forall slug w, repo_ok (w_db w) -> let s' := w_db (DeleteProvider slug w).2 in
    repo_ok s' /\ (forall slug u, link s' slug u = link (w_db w) slug u) /\ (forall id, stored s' id = stored (w_db w) id);
  save_law : forall st d w, repo_ok (w_db w) -> let s' := w_db (SaveState st d w).2 in
    repo_ok s' /\ (forall slug u, link s' slug u = link (w_db w) slug u) /\
    (forall id x, stored s' id = Some x -> id = as_ID st \/ stored (w_db w) id = Some x);
  consume_law : forall id now w r w', ConsumeState id now w = (r, w') -> repo_ok (w_db w) ->
    repo_ok (w_db w') /\ (forall slug u, link (w_db w') slug u = link (w_db w) slug u) /\
    (forall id' x, stored (w_db w') id' = Some x -> stored (w_db w) id' = Some x) /\
    (forall st, r = Ok st -> stored (w_db w') id = None /\
       exists expires, stored (w_db w) id = Some (as_ProviderSlug st, expires) /\ (now <= expires)%Z);
  resolve_law : forall p u d w r w', ResolveIdentity p u d w = (r, w') -> repo_ok (w_db w) -> normal_provider p -> normal_profile u ->
    repo_ok (w_db w') /\ (forall id, stored (w_db w') id = stored (w_db w) id) /\
    (forall slug v i, link (w_db w) slug v = Some i -> link (w_db w') slug v = Some i) /\
    (forall res, r = Ok res -> link (w_db w') (pr_Slug p) (sp_ProviderUser u) = Some (il_IdentityID res));
}.

(** ** The store in memory *)

Section memory.
Context `{ScanOrder}.
Import Memory.
#[local] Instance memory_repo : Repository MemoryStore := repository.

Definition providers_keyed (s : MemoryStore) : Prop := forall k p, providers s !! k = Some p -> pr_Slug p = k.
Definition mem_link (s : MemoryStore) (slug user : string) : option uuid := linkBySubject s !! link_key slug user.
Definition mem_stored (s : MemoryStore) (id : string) : option (string * time) :=
  (fun st => (as_ProviderSlug st, as_ExpiresAt st)) <$> states s !! id.

Lemma mem_get slug w r w' : GetProviderBySlug slug w = (r, w') -> providers_keyed (w_db w) ->
  w_db w' = w_db w /\ forall p, r = Ok p -> pr_Slug p = normalizeSlug slug.
Proof.
  unfold GetProviderBySlug. rewrite M_bind_run. unfold now_state. cbv zeta.
  destruct (providers (w_db w) !! normalizeSlug slug) as [p|] eqn:E; intros [= <- <-] Hk; (split; [done|]); intros q Hq; [|done].
  injection Hq as <-. by eapply Hk.
Qed.
Lemma mem_list b w : w_db (ListProviders b w).2 = w_db w.
Proof. done. Qed.
Lemma mem_upsert p d w : providers_keyed (w_db w) -> let s' := w_db (UpsertProvider p d w).2 in
  providers_keyed s' /\ (forall slug u, mem_link s' slug u = mem_link (w_db w) slug u) /\ (forall id, mem_stored s' id = mem_stored (w_db w) id).
Proof.
  intros Hk. cbv zeta. split_and!; [|done..]. intros k q. unfold UpsertProvider, now_state. cbn [snd w_db providers with_providers].
  intros [[<- <-]|[_ Hl]]%lookup_insert_Some; [|by apply Hk]. by destruct (providers (w_db w) !! _).
Qed.
Lemma mem_delete slug w : providers_keyed (w_db w) -> let s' := w_db (DeleteProvider slug w).2 in
  providers_keyed s' /\ (forall slug u, mem_link s' slug u = mem_link (w_db w) slug u) /\ (forall id, mem_stored s' id = mem_stored (w_db w) id).
Proof.
  intros Hk. cbv zeta. unfold DeleteProvider. rewrite M_bind_run. unfold now_state.
  destruct (providers (w_db w) !! normalizeSlug slug); cbn; split_and!; try done.
  intros k q. cbn. intros [_ Hl]%lookup_delete_Some. by apply Hk.
Qed.
Lemma mem_save st d w : providers_keyed (w_db w) -> let s' := w_db (SaveState st d w).2 in
  providers_keyed s' /\ (forall slug u, mem_link s' slug u = mem_link (w_db w) slug u) /\
  (forall id x, mem_stored s' id = Some x -> id = as_ID st \/ mem_stored (w_db w) id = Some x).
Proof.
  intros Hk. cbv zeta. split_and!; [done..|]. intros id x. unfold SaveState, now_state, mem_stored. cbn [snd w_db states with_states].
  intros (y & Hl & ->)%fmap_Some. apply lookup_insert_Some in Hl as [[<- _]|[Hne Hl]]; [by left|right].
  assert (Hin : forall m : gmap string AuthState, m = filter (fun kv => (rd_now d <? as_ExpiresAt kv.2)%Z = true) (states (w_db w)) ->
    m !! id = Some y -> states (w_db w) !! id = Some y).
  { intros m -> Hm. by apply map_lookup_filter_Some in Hm as [? _]. }
  destruct (_ <=? _)%nat; [destruct (String.eqb _ "")|].
  - by rewrite (Hin _ eq_refl Hl).
  - apply lookup_delete_Some in Hl as [_ Hl]. by rewrite (Hin _ eq_refl Hl).
  - by rewrite (Hin _ eq_refl Hl).
Qed.
Lemma mem_consume id now w r w' : ConsumeState id now w = (r, w') -> providers_keyed (w_db w) ->
  providers_keyed (w_db w') /\ (forall slug u, mem_link (w_db w') slug u = mem_link (w_db w) slug u) /\
  (forall id' x, mem_stored (w_db w') id' = Some x -> mem_stored (w_db w) id' = Some x) /\
  (forall st, r = Ok st -> mem_stored (w_db w') id = None /\
     exists expires, mem_stored (w_db w) id = Some (as_ProviderSlug st, expires) /\ (now <= expires)%Z).
Proof.
  unfold ConsumeState. rewrite M_bind_run. unfold now_state. intros Hrun Hk.
  assert (Hw : w_db w' = with_states (w_db w) (delete id (states (w_db w)))).
  { revert Hrun. destruct (states (w_db w) !! id) as [st|]; [destruct (time_after _ _)|]; by intros [= <- <-]. }
  rewrite Hw. split_and!; [done..| |].
  - intros id' x. unfold mem_stored. cbn [states with_states]. intros (y & Hl & ->)%fmap_Some.
    apply lookup_delete_Some in Hl as [_ ->]. done.
  - intros st Hr. unfold mem_stored. cbn [states with_states]. rewrite lookup_delete_eq. split; [done|].
    revert Hrun. destruct (states (w_db w) !! id) as [st'|]; [|by intros [= <- <-]]. unfold time_after.
    destruct (Z.ltb_spec (as_ExpiresAt st') now); intros [= <- <-]; [done|]. injection Hr as <-. by exists (as_ExpiresAt st').
Qed.
Lemma mem_resolve p u d w r w' : ResolveIdentity p u d w = (r, w') -> providers_keyed (w_db w) -> normal_provider p -> normal_profile u ->
  providers_keyed (w_db w') /\ (forall id, mem_stored (w_db w') id = mem_stored (w_db w) id) /\
  (forall slug v i, mem_link (w_db w) slug v = Some i -> mem_link (w_db w') slug v = Some i) /\
  (forall res, r = Ok res -> mem_link (w_db w') (pr_Slug p) (sp_ProviderUser u) = Some (il_IdentityID res)).
Proof.
  unfold ResolveIdentity, now_state. cbv zeta. intros Hrun Hk _ _. unfold mem_link.
  set (key := link_key (pr_Slug p) (sp_ProviderUser u)) in *. destruct (linkBySubject (w_db w) !! key) as [i|] eqn:El.
  { injection Hrun as <- <-. split_and!; [done..|]. by intros res [= <-]. }
  assert (Hput : forall i l, l = <[key := i]> (linkBySubject (w_db w)) ->
    (forall slug v j, linkBySubject (w_db w) !! link_key slug v = Some j -> l !! link_key slug v = Some j) /\ l !! key = Some i).
  { intros i l ->. split; [|apply lookup_insert_eq]. intros slug v j Hj. rewrite lookup_insert_ne; [done|]. congruence. }
  destruct (if _ : bool then identityByMail (w_db w) !! _ else None) as [i|]; injection Hrun as <- <-;
    [destruct (Hput i _ eq_refl) as [Hold Hnew]|destruct (Hput (rd_id d) _ eq_refl) as [Hold Hnew]];
    split_and!; try done; by intros res [= <-].
Qed.

Definition memory_laws : RepositoryLaws MemoryStore :=
  {| repo_ok := providers_keyed; link := mem_link; stored := mem_stored; get_law := mem_get; list_law := mem_list;
     upsert_law := mem_upsert; delete_law := mem_delete; save_law := mem_save; consume_law := mem_consume; resolve_law := mem_resolve |}.
End memory.

(** ** The store in PostgreSQL *)

Section postgres.
Context `{Primitives} `{ScanOrder} (collate : string -> string -> bool) (cipherKey : string).
Import Postgres.
#[local] Instance postgres_repo : Repository soc_db := repository collate cipherKey.

Definition pg_link (db : soc_db) (slug user : string) : option uuid := lk_identity <$> t_links db !! (slug, user).
Definition pg_stored (db : soc_db) (id : string) : option (string * time) :=
  (fun st => (as_ProviderSlug st, as_ExpiresAt st)) <$> t_states db !! id.

(** Operations that leave the links and the states alone. *)
Definition frame (l : gmap (string * string) link_row) (t : gmap string AuthState) (db : soc_db) : Prop := t_links db = l /\ t_states db = t.

Lemma by_slug_slug slug db id p : by_slug slug db = Some (id, p) -> pr_Slug p = slug /\ t_providers db !! id = Some p.
Proof.
  unfold by_slug. intros Hf. apply List.find_some in Hf as [Hin Hs]. apply String.eqb_eq in Hs.
  apply list_elem_of_In, elem_of_map_to_list in Hin. done.
Qed.

Lemma scanProvider_slug db kv p : scanProvider cipherKey db kv = Ok p -> pr_Slug p = pr_Slug kv.2.
Proof.
  unfold scanProvider. destruct (match t_creds db !! kv.1 with Some _ => _ | None => _ end) as [ci ct].
  destruct (decryptSecret _ _ _); [|done]. by intros [= <-].
Qed.

Lemma lift_crypto_run {A} (r : result crypto_error A) w : exists r', lift_crypto r w = (r', w) /\ (forall a, r' = Ok a -> r = Ok a).
Proof. destruct r as [a|e]; [exists (Ok a)|exists (Err (SocCrypto e))]; split; try done; by intros ? [= <-]. Qed.

Lemma pg_get slug w r w' : GetProviderBySlug cipherKey slug w = (r, w') -> True ->
  w_db w' = w_db w /\ forall p, r = Ok p -> pr_Slug p = normalizeSlug slug.
Proof.
  unfold GetProviderBySlug. rewrite M_bind_run. destruct (db_stmt _ w) as [rr w1] eqn:E. intros Hrun _.
  apply db_stmt_cases in E as [(a & -> & Hs)|(e & -> & Hw)].
  - injection Hs as <- Hw. destruct (by_slug _ _) as [[id p]|] eqn:Eb; cbn in Hrun; [|by injection Hrun as <- <-].
    destruct (lift_crypto_run (scanProvider cipherKey (w_db w) (id, p)) w1) as (r' & Hl & Hok). rewrite Hl in Hrun.
    injection Hrun as <- <-. split; [done|]. intros q Hq. apply Hok, scanProvider_slug in Hq. rewrite Hq. cbn [snd].
    by apply by_slug_slug in Eb as [-> _].
  - injection Hrun as <- <-. by split.
Qed.

Lemma frame_stmt {A} l t (stmt : soc_db -> result db_error (A * soc_db)) :
  (forall db a db', stmt db = Ok (a, db') -> t_links db' = t_links db /\ t_states db' = t_states db) ->
  preserves (frame l t) (db_stmt stmt : M soc_db soc_error A).
Proof. intros Hs. apply preserves_stmt. intros db a db' Hst [<- <-]. by apply Hs in Hst. Qed.

Lemma frame_get l t slug : preserves (frame l t) (GetProviderBySlug cipherKey slug).
Proof.
  intros w Hw. destruct (GetProviderBySlug cipherKey slug w) as [r w'] eqn:E. apply pg_get in E as [E _]; [|done]. cbn. by rewrite E.
Qed.
Lemma frame_crypto {A} l t (r : result crypto_error A) : preserves (frame l t) (lift_crypto r).
Proof. intros w Hw. by destruct r. Qed.

Lemma frame_upsert l t p d : preserves (frame l t) (UpsertProvider cipherKey p d).
Proof.
  unfold UpsertProvider. cbv zeta. destruct (String.eqb _ ""); [apply preserves_throw|].
  apply preserves_bind; [|intros; apply frame_get]. apply preserves_tx. apply preserves_bind.
  - apply frame_stmt. intros db a db'. unfold upsert_row. destruct (check_provider p); [done|].
    destruct (by_slug _ db) as [[id q]|]; [by intros [= <- <-]|]. cbv zeta. destruct (bool_decide _); [done|]. by intros [= <- <-].
  - intros id. apply preserves_bind; [destruct (String.eqb _ ""); [apply preserves_ret|apply frame_crypto]|]. intros ct. apply frame_stmt.
    intros db a db'. unfold upsert_cred. destruct (negb _); [done|]. by intros [= <- <-].
Qed.
Lemma frame_delete l t slug : preserves (frame l t) (DeleteProvider slug).
Proof.
  unfold DeleteProvider. apply preserves_bind; [|intros []; [apply preserves_ret|apply preserves_throw]].
  apply frame_stmt. intros db a db'. destruct (by_slug _ db) as [[id q]|]; by intros [= <- <-].
Qed.

Lemma frame_laws (w : world soc_db) db' :
  frame (t_links (w_db w)) (t_states (w_db w)) db' ->
  True /\ (forall slug u, pg_link db' slug u = pg_link (w_db w) slug u) /\ (forall id, pg_stored db' id = pg_stored (w_db w) id).
Proof. intros [Hl Ht]. unfold pg_link, pg_stored. by rewrite Hl, Ht. Qed.

Lemma pg_list b w : w_db (ListProviders collate cipherKey b w).2 = w_db w.
Proof.
  unfold ListProviders. rewrite M_bind_run. destruct (db_stmt _ w) as [rr w1] eqn:E.
  apply db_stmt_cases in E as [(a & -> & Hs)|(e & -> & Hw)]; [|done]. injection Hs as _ Hw.
  destruct (lift_crypto_run a w1) as (r' & -> & _). done.
Qed.
Lemma pg_upsert p d w : True -> let s' := w_db (UpsertProvider cipherKey p d w).2 in
  True /\ (forall slug u, pg_link s' slug u = pg_link (w_db w) slug u) /\ (forall id, pg_stored s' id = pg_stored (w_db w) id).
Proof. intros _. cbv zeta. apply frame_laws. by apply frame_upsert. Qed.
Lemma pg_delete slug w : True -> let s' := w_db (DeleteProvider slug w).2 in
  True /\ (forall slug u, pg_link s' slug u = pg_link (w_db w) slug u) /\ (forall id, pg_stored s' id = pg_stored (w_db w) id).
Proof. intros _. cbv zeta. apply frame_laws. by apply frame_delete. Qed.

Lemma pg_save st d w : True -> let s' := w_db (SaveState cipherKey st d w).2 in
  True /\ (forall slug u, pg_link s' slug u = pg_link (w_db w) slug u) /\
  (forall id x, pg_stored s' id = Some x -> id = as_ID st \/ pg_stored (w_db w) id = Some x).
Proof.
  intros _. cbv zeta. unfold SaveState. rewrite M_bind_run.
  assert (Hv : exists r, (if String.eqb (TrimSpace (as_PKCEVerifier st)) "" then mret "" else
    lift_crypto (EncryptField cipherKey (as_PKCEVerifier st) (as_ID st) (rd_nonce d))) w = (r, w)).
  { destruct (String.eqb _ ""); [by eexists|]. destruct (lift_crypto_run (EncryptField cipherKey (as_PKCEVerifier st) (as_ID st) (rd_nonce d)) w) as (r & Hr & _). by exists r. }
  destruct Hv as [[v|e] ->]; [|split_and!; [done..|]; by right].
  destruct (db_stmt _ w) as [r w1] eqn:E. cbn [snd]. apply db_stmt_cases in E as [(a & -> & Hs)|(e & -> & Hw)].
  - destruct (bool_decide _); [done|]. injection Hs as _ Hs. rewrite <- Hs. split_and!; [done..|]. intros id x.
    unfold pg_stored. cbn [t_states with_states]. intros (y & Hl & ->)%fmap_Some.
    apply lookup_insert_Some in Hl as [[<- _]|[_ ->]]; [by left|by right].
  - rewrite Hw. split_and!; [done..|]. by right.
Qed.

Lemma open_state_run st now w r w' : open_state cipherKey st now w = (r, w') ->
  w' = w /\ forall st', r = Ok st' -> as_ProviderSlug st' = as_ProviderSlug st /\ (now <= as_ExpiresAt st)%Z.
Proof.
  unfold open_state, time_after. destruct (Z.ltb_spec (as_ExpiresAt st) now); [by intros [= <- <-]|].
  destruct (String.eqb _ ""); [intros [= <- <-]; split; [done|]; by intros st' [= <-]|]. rewrite M_bind_run.
  destruct (lift_crypto_run (DecryptField cipherKey (as_PKCEVerifier st) (as_ID st)) w) as (r' & -> & _).
  destruct r' as [pt|e]; intros [= <- <-]; (split; [done|]); [|done]. by intros st' [= <-].
Qed.

Lemma pg_consume id now w r w' : ConsumeState cipherKey id now w = (r, w') -> True ->
  True /\ (forall slug u, pg_link (w_db w') slug u = pg_link (w_db w) slug u) /\
  (forall id' x, pg_stored (w_db w') id' = Some x -> pg_stored (w_db w) id' = Some x) /\
  (forall st, r = Ok st -> pg_stored (w_db w') id = None /\
     exists expires, pg_stored (w_db w) id = Some (as_ProviderSlug st, expires) /\ (now <= expires)%Z).
Proof.
  unfold ConsumeState. rewrite M_bind_run. intros Hrun _.
  destruct (db_tx _ w) as [[st|e] w1] eqn:Et.
  - apply db_tx_ok in Et as (w2 & w3 & Hw2 & Hbody & Hw1). apply M_bind_ok in Hbody as (st' & w4 & Hsel & Hdel).
    assert (Hs : w_db w4 = w_db w2 /\ t_states (w_db w2) !! id = Some st').
    { unfold select_state in Hsel. apply M_bind_ok in Hsel as (row & w5 & Hq & Hsel).
      apply db_stmt_cases in Hq as [(a & [= <-] & [= Hrow Hw5])|(? & ? & _)]; [|done].
      destruct row as [row|]; [|done]. injection Hsel as <- <-. by rewrite <- Hw5. }
    destruct Hs as [Hw4 Hst]. apply M_bind_ok in Hdel as ([] & w5 & Hdel & [= -> ->]).
    unfold delete_state in Hdel. apply db_stmt_cases in Hdel as [(a & _ & [= _ Hw5])|(? & ? & _)]; [|done].
    apply open_state_run in Hrun as [-> Hok]. rewrite Hw1, <- Hw5, Hw4, Hw2. rewrite Hw2 in Hst.
    split_and!; [done..| |].
    + intros id' x. unfold pg_stored. cbn [t_states with_states]. intros (y & Hl & ->)%fmap_Some.
      by apply lookup_delete_Some in Hl as [_ ->].
    + intros st2 Hr. apply Hok in Hr as [Hslug Hle]. unfold pg_stored. cbn [t_states with_states]. rewrite lookup_delete_eq, Hst, Hslug.
      split; [done|]. by exists (as_ExpiresAt st).
  - injection Hrun as <- <-. apply db_tx_atomic in Et. rewrite Et. by split_and!.
Qed.

Lemma frame_email l t i e v d : preserves (frame l t) (upsertPrimaryEmail i e v d).
Proof.
  unfold upsertPrimaryEmail. cbv zeta. destruct (String.eqb _ ""); [apply preserves_ret|]. apply preserves_bind.
  - apply frame_stmt. intros db a db'. destruct (verified_twice _); [done|]. by intros [= <- <-].
  - intros []; [apply preserves_ret|]. apply frame_stmt. intros db a db'. repeat (case_match; [done|]). by intros [= <- <-].
Qed.
Lemma frame_create l t p u d : preserves (frame l t) (create_identity p u d).
Proof.
  unfold create_identity. apply preserves_bind; [|intros ?; apply preserves_bind; [|intros ?; apply preserves_bind; [|intros ?; apply preserves_ret]]].
  - apply frame_stmt. intros db a db'. destruct (default_schema db); [by intros [= <- <-]|done].
  - apply frame_stmt. intros db a1 db'. destruct (bool_decide _); [done|]. by intros [= <- <-].
  - destruct (String.eqb _ ""); [apply preserves_ret|apply frame_email].
Qed.
Lemma frame_lookup l t p u d : preserves (frame l t) (lookupOrCreateIdentity p u d).
Proof.
  unfold lookupOrCreateIdentity. cbv zeta. destruct (_ && _); [|apply frame_create]. apply preserves_bind.
  - apply frame_stmt. by intros db a db' [= <- <-].
  - intros [i|]; [|apply frame_create]. apply preserves_bind; [apply frame_email|intros ?; apply preserves_ret].
Qed.

Lemma refreshLink_ok p i u d w a w' : refreshLink p i u d w = (Ok a, w') ->
  t_states (w_db w') = t_states (w_db w) /\
  exists row, lk_identity row = i /\ t_links (w_db w') = <[(pr_Slug p, sp_ProviderUser u) := row]> (t_links (w_db w)).
Proof.
  unfold refreshLink. intros [(x & _ & Hs)|(? & ? & _)]%db_stmt_cases; [|done]. cbv zeta in Hs. destruct (negb _); [done|].
  destruct (t_links (w_db w) !! _) as [old|]; [|destruct (existsb _ _); [done|]]; injection Hs as _ Hs; rewrite <- Hs; (split; [done|]);
    eexists; by split; [|reflexivity].
Qed.

(** What a successful resolution does to the links. *)
Lemma ResolveIdentity_ok p u d w res w' :
  ResolveIdentity p u d w = (Ok res, w') -> normal_provider p -> normal_profile u ->
  t_states (w_db w') = t_states (w_db w) /\
  (forall i, pg_link (w_db w) (pr_Slug p) (sp_ProviderUser u) = Some i -> il_IdentityID res = i) /\
  exists row, lk_identity row = il_IdentityID res /\
    t_links (w_db w') = <[(pr_Slug p, sp_ProviderUser u) := row]> (t_links (w_db w)).
Proof.
  unfold ResolveIdentity. intros (w1 & w2 & Hw1 & Hbody & Hw')%db_tx_ok Hnp Hnu. unfold normal_provider, normal_profile in *.
  apply M_bind_ok in Hbody as (existing & w3 & Hid & Hbody). unfold identityByLink in Hid.
  apply db_stmt_cases in Hid as [(x & [= <-] & [= Hex Hw3])|(? & ? & _)]; [|done]. rewrite Hnp, Hnu, Hw1 in Hex. rewrite Hw1 in Hw3.
  destruct existing as [i|].
  - apply M_bind_ok in Hbody as (a & w4 & Href & Hbody). apply refreshLink_ok in Href as (Ht & row & Hrow & Hl).
    apply M_bind_ok in Hbody as (b & w5 & Hem & [= <- <-]).
    assert (Hf : frame (t_links (w_db w4)) (t_states (w_db w4)) (w_db w5)).
    { destruct (shouldTrustEmail p u); [|by injection Hem as <- <-].
      pose proof (frame_email (t_links (w_db w4)) (t_states (w_db w4)) i (sp_Email u) true d w4) as Hfr. rewrite Hem in Hfr. by apply Hfr. }
    destruct Hf as [Hfl Hft]. rewrite Hw', Hfl, Hft, Ht, Hl, <- Hw3. split_and!; [done| |by exists row].
    unfold pg_link. rewrite Hex. by intros j [= <-].
  - apply M_bind_ok in Hbody as ([i cr] & w4 & Hlk & Hbody).
    assert (Hf : frame (t_links (w_db w3)) (t_states (w_db w3)) (w_db w4)).
    { pose proof (frame_lookup (t_links (w_db w3)) (t_states (w_db w3)) p u d w3) as Hfr. rewrite Hlk in Hfr. by apply Hfr. }
    destruct Hf as [Hfl Hft]. apply M_bind_ok in Hbody as (a & w5 & Href & [= <- <-]).
    apply refreshLink_ok in Href as (Ht & row & Hrow & Hl). rewrite Hw', Ht, Hft, Hl, Hfl, <- Hw3. split_and!; [done| |by exists row].
    unfold pg_link. rewrite Hex. done.
Qed.

Lemma pg_resolve p u d w r w' : ResolveIdentity p u d w = (r, w') -> True -> normal_provider p -> normal_profile u ->
  True /\ (forall id, pg_stored (w_db w') id = pg_stored (w_db w) id) /\
  (forall slug v i, pg_link (w_db w) slug v = Some i -> pg_link (w_db w') slug v = Some i) /\
  (forall res, r = Ok res -> pg_link (w_db w') (pr_Slug p) (sp_ProviderUser u) = Some (il_IdentityID res)).
Proof.
  intros Hrun _ Hnp Hnu. destruct r as [res|e].
  - destruct (ResolveIdentity_ok _ _ _ _ _ _ Hrun Hnp Hnu) as (Ht & Hsame & row & Hrow & Hl).
    unfold pg_stored, pg_link in *. rewrite Ht, Hl. split_and!; [done..| |].
    + intros slug v i Hi. destruct (decide ((slug, v) = (pr_Slug p, sp_ProviderUser u))) as [[= -> ->]|Hne].
      * rewrite lookup_insert_eq. cbn. by rewrite Hrow, (Hsame i Hi).
      * by rewrite lookup_insert_ne.
    + intros res' [= <-]. rewrite lookup_insert_eq. cbn. by rewrite Hrow.
  - unfold ResolveIdentity in Hrun. apply db_tx_atomic in Hrun. rewrite Hrun. by split_and!.
Qed.

Definition postgres_laws : RepositoryLaws soc_db :=
  {| repo_ok _ := True; link := pg_link; stored := pg_stored; get_law := pg_get; list_law := pg_list;
     upsert_law := pg_upsert; delete_law := pg_delete; save_law := pg_save; consume_law := pg_consume; resolve_law := pg_resolve |}.

(** The two statements of [ConsumeState] under READ COMMITTED: when the
    transactions of two callbacks both read before either deletes, both go on
    with the state. *)
Lemma interleaved_callbacks_share_state (db : soc_db) id st :
  t_states db !! id = Some st ->
  let '(a, w1) := select_state id (World db []) in
  let '(b, w2) := select_state id w1 in
  let '(c, w3) := delete_state id w2 in
  let '(d, w4) := delete_state id w3 in
  a = Ok st /\ b = Ok st /\ c = Ok tt /\ d = Ok tt.
Proof.
  intros Hst. assert (Hs : select_state id (World db []) = (Ok st, World db [])).
  { unfold select_state. rewrite M_bind_run. cbn. by rewrite Hst. }
  by rewrite Hs, Hs.
Qed.
End postgres.

Section login.
Context {S : Type} `{RepositoryLaws S} `{UuidText} `{SocialEnv} `{JwtJson} `{Signatures} `{ScanOrder} (entries : list preset_entry).

Abbreviation SM := (M (svc S) svc_error).

Lemma repo_run {A} (m : M S soc_error A) (w : world (svc S)) r w' :
  repo m w = (r, w') -> exists r1 w1, m (World (ss_repo (w_db w)) (w_faults w)) = (r1, w1) /\ ss_repo (w_db w') = w_db w1 /\
    match r with Ok a => r1 = Ok a | Err _ => is_ok r1 = false end.
Proof.
  unfold repo. rewrite call_run. destruct (zoom _ _ m w) as [r1 w1] eqn:E. apply zoom_run in E as (w2 & E & Hw).
  destruct r1; intros [= <- <-]; eexists _, w2; (split; [exact E|]); by rewrite Hw.
Qed.

(** ** Properties of the repository that log-ins keep

    [A] may depend on links being kept, and on no states appearing but those
    of [allowed]. *)
Definition stable (allowed : string -> Prop) (A : S -> Prop) : Prop :=
  forall s s', (forall slug u i, link s slug u = Some i -> link s' slug u = Some i) ->
    (forall id x, stored s' id = Some x -> stored s id = Some x \/ allowed id) -> A s -> A s'.

Section kept.
Context (allowed : string -> Prop) (A : S -> Prop) (Hstable : stable allowed A).
Definition good (s : svc S) : Prop := repo_ok (ss_repo s) /\ A (ss_repo s).

Lemma good_repo {B} (m : M S soc_error B) :
  (forall w, repo_ok (w_db w) -> repo_ok (w_db (m w).2) /\
     (forall slug u i, link (w_db w) slug u = Some i -> link (w_db (m w).2) slug u = Some i) /\
     (forall id x, stored (w_db (m w).2) id = Some x -> stored (w_db w) id = Some x \/ allowed id)) ->
  preserves good (repo m).
Proof.
  intros Hm w [Hok HA]. destruct (repo m w) as [r w'] eqn:E. apply repo_run in E as (r1 & w1 & E & Hw & _). cbn [snd].
  unfold good. rewrite Hw. specialize (Hm (World (ss_repo (w_db w)) (w_faults w)) Hok). rewrite E in Hm. cbn [snd w_db] in Hm.
  destruct Hm as (Hok' & Hl & Hs). split; [done|]. by eapply Hstable.
Qed.

Lemma good_get slug : preserves good (repo (GetProviderBySlug slug)).
Proof.
  apply good_repo. intros w Hok. destruct (GetProviderBySlug slug w) as [r w'] eqn:E. cbn [snd].
  destruct (get_law _ _ _ _ E Hok) as [-> _]. split_and!; [done..|]. by left.
Qed.
Lemma good_list b : preserves good (repo (ListProviders b)).
Proof. apply good_repo. intros w Hok. rewrite list_law. split_and!; [done..|]. by left. Qed.
Lemma good_upsert p d : preserves good (repo (UpsertProvider p d)).
Proof.
  apply good_repo. intros w Hok. destruct (upsert_law p d w Hok) as (Hok' & Hl & Hs). split_and!; [done|..].
  - intros slug u i. by rewrite Hl.
  - intros id x. rewrite Hs. by left.
Qed.
Lemma good_delete slug : preserves good (repo (DeleteProvider slug)).
Proof.
  apply good_repo. intros w Hok. destruct (delete_law slug w Hok) as (Hok' & Hl & Hs). split_and!; [done|..].
  - intros slug' u i. by rewrite Hl.
  - intros id x. rewrite Hs. by left.
Qed.
Lemma good_save st d : allowed (as_ID st) -> preserves good (repo (SaveState st d)).
Proof.
  intros Ha. apply good_repo. intros w Hok. destruct (save_law st d w Hok) as (Hok' & Hl & Hs). split_and!; [done|..].
  - intros slug u i. by rewrite Hl.
  - intros id x Hx. apply Hs in Hx as [->|Hx]; [by right|by left].
Qed.
Lemma good_consume id now : preserves good (repo (ConsumeState id now)).
Proof.
  apply good_repo. intros w Hok. destruct (ConsumeState id now w) as [r w'] eqn:E. cbn [snd].
  destruct (consume_law _ _ _ _ _ E Hok) as (Hok' & Hl & Hs & _). split_and!; [done|..].
  - intros slug u i. by rewrite Hl.
  - intros id' x Hx. left. by apply Hs.
Qed.
Lemma good_resolve p u d : normal_provider p -> normal_profile u -> preserves good (repo (ResolveIdentity p u d)).
Proof.
  intros Hp Hu. apply good_repo. intros w Hok. destruct (ResolveIdentity p u d w) as [r w'] eqn:E. cbn [snd].
  destruct (resolve_law _ _ _ _ _ _ E Hok Hp Hu) as (Hok' & Hs & Hl & _). split_and!; [done..|]. intros id x. rewrite Hs. by left.
Qed.

Lemma good_call {B} (f : svc_error -> svc_error) (m : SM B) : preserves good m -> preserves good (call f m).
Proof. intros Hm. apply preserves_try; [done|]. intros []; [apply preserves_ret|apply preserves_throw]. Qed.
Lemma good_discovery url rem : preserves good (fetchDiscovery url rem).
Proof.
  intros w Hw. unfold fetchDiscovery. cbv zeta. destruct (_ !! _); [done|]. by destruct (r_discovery rem _).
Qed.
Lemma good_resolveProvider p rem : preserves good (resolveProvider p rem).
Proof.
  unfold resolveProvider. cbv zeta. apply preserves_bind.
  - destruct (_ && _); [|apply preserves_ret]. apply preserves_bind; [apply good_discovery|intros; apply preserves_ret].
  - intros r. destruct (_ || _); [apply preserves_throw|apply preserves_ret].
Qed.
Lemma good_load slug rem : preserves good (loadProvider slug rem).
Proof.
  unfold loadProvider. apply preserves_bind; [apply good_call, good_get|]. intros p.
  destruct (negb _); [apply preserves_throw|]. apply preserves_bind; [apply good_resolveProvider|intros; apply preserves_ret].
Qed.
End kept.

(** ** What a look-up of a provider gives *)

Lemma resolveProvider_repo p rem (w : world (svc S)) : ss_repo (w_db (resolveProvider p rem w).2) = ss_repo (w_db w).
Proof.
  unfold resolveProvider. cbv zeta. rewrite M_bind_run.
  assert (Hd : forall u, ss_repo (w_db (fetchDiscovery u rem w).2) = ss_repo (w_db w)).
  { intros u. unfold fetchDiscovery. cbv zeta. destruct (_ !! _); [done|]. by destruct (r_discovery rem _). }
  destruct (_ && _).
  - rewrite M_bind_run. specialize (Hd (pr_DiscoveryURL p)). destruct (fetchDiscovery _ rem w) as [[doc|e] w1]; [|done].
    rewrite M_ret_run. by destruct (_ || _).
  - rewrite M_ret_run. by destruct (_ || _).
Qed.

Lemma loadProvider_ok slug rem (w : world (svc S)) p r w' :
  loadProvider slug rem w = (Ok (p, r), w') -> repo_ok (ss_repo (w_db w)) ->
  ss_repo (w_db w') = ss_repo (w_db w) /\ pr_Slug p = normalizeSlug slug /\ pr_Enabled p = true.
Proof.
  unfold loadProvider. rewrite M_bind_run, call_run. destruct (repo _ w) as [rr w1] eqn:E. intros Hrun Hok.
  apply repo_run in E as (r1 & w2 & E & Hw & Hr). destruct rr as [q|e]; [|done]. subst r1.
  destruct (get_law _ _ _ _ E Hok) as [Hdb Hslug]. cbn [w_db] in Hdb.
  destruct (pr_Enabled q) eqn:Hen; cbn [negb] in Hrun; [|done]. rewrite M_bind_run in Hrun.
  pose proof (resolveProvider_repo q rem w1) as Hres. destruct (resolveProvider q rem w1) as [[rp|e] w3]; [|done].
  injection Hrun as <- <- <-. cbn [snd] in Hres. rewrite Hres, Hw, Hdb. split_and!; [done|by apply Hslug|done].
Qed.

Lemma fetchProfile_normal p r st tok rem clock u : fetchProfile p r st tok rem clock = Ok u -> normal_profile u.
Proof.
  unfold fetchProfile, profileFromIDToken, profileFromGitHub, profileFromUserInfo. intros Hf. revert Hf.
  repeat case_match; try done; intros [= <-]; apply claimsToProfile_normal.
Qed.

(** ** A completed log-in *)

Lemma CompleteAuth_ok slug st code d (w : world (svc S)) res w' :
  CompleteAuth slug st code d w = (Ok res, w') -> repo_ok (ss_repo (w_db w)) ->
  cb_Provider res = normalizeSlug slug /\
  (exists expires, stored (ss_repo (w_db w)) (TrimSpace st) = Some (normalizeSlug slug, expires) /\ (sd_now d <= expires)%Z) /\
  stored (ss_repo (w_db w')) (TrimSpace st) = None /\
  exists i, cb_IdentityID res = uuid_string i /\ link (ss_repo (w_db w')) (cb_Provider res) (sp_ProviderUser (cb_Profile res)) = Some i /\
    (forall j, link (ss_repo (w_db w)) (cb_Provider res) (sp_ProviderUser (cb_Profile res)) = Some j -> j = i).
Proof.
  unfold CompleteAuth. cbv zeta. intros Hrun Hok. destruct (_ || _); [done|].
  apply M_bind_ok in Hrun as (state & w1 & Hcon & Hrun). rewrite call_run in Hcon.
  destruct (repo (ConsumeState _ _) w) as [rc wc] eqn:E. apply repo_run in E as (r1 & w2 & E & Hw & Hr).
  destruct rc as [state'|e]; [|done]. injection Hcon as <- <-. subst r1.
  destruct (consume_law _ _ _ _ _ E Hok) as (Hok2 & Hl2 & _ & Hst). destruct (Hst _ eq_refl) as (Hgone & expires & Hstored & Hle).
  rewrite <- Hw in Hok2, Hl2, Hgone. cbn [w_db] in *.
  destruct (String.eqb_spec (as_ProviderSlug state') (ToLower (TrimSpace slug))) as [Hs|]; cbn [negb] in Hrun; [|done].
  apply M_bind_ok in Hrun as ([p r] & w3 & Hload & Hrun). apply loadProvider_ok in Hload as (Hdb3 & Hslug & _); [|done].
  apply M_bind_ok in Hrun as (tok & w4 & Htok & Hrun). unfold lift_result in Htok. injection Htok as _ <-.
  apply M_bind_ok in Hrun as (u & w5 & Hu & Hrun). unfold lift_result in Hu. injection Hu as Hu <-. apply fetchProfile_normal in Hu.
  apply M_bind_ok in Hrun as (lr & w6 & Hres & [= <- <-]). apply repo_run in Hres as (r2 & w7 & Hres & Hw7 & ->).
  fold (normalizeSlug slug) in Hslug, Hs |- *. rewrite normalizeSlug_idem in Hslug.
  assert (Hnp : normal_provider p) by (unfold normal_provider; by rewrite Hslug, normalizeSlug_idem).
  rewrite Hdb3 in Hres. destruct (resolve_law _ _ _ _ _ _ Hres Hok2 Hnp Hu) as (_ & Hst7 & Hl7 & Hnew). cbn [w_db] in Hst7, Hl7.
  specialize (Hnew _ eq_refl). rewrite <- Hw7 in Hst7, Hl7, Hnew. cbn [cb_Provider cb_IdentityID cb_Profile].
  split_and!; [done|exists expires; by rewrite <- Hs|by rewrite Hst7|]. exists (il_IdentityID lr). split_and!; [done..|].
  intros j Hj. rewrite <- Hl2 in Hj. apply Hl7 in Hj. rewrite Hnew in Hj. by injection Hj.
Qed.

(** ** Any number of requests *)

Inductive request : Type :=
| RStart (slug redirectTo : string) (d : sdraws)
| RComplete (slug st code : string) (d : sdraws)
| RUpsert (req : ProviderUpsertRequest) (d : sdraws)
| RDelete (slug : string)
| RList (includeDisabled : bool)
| RGet (slug : string)
| REnsure (ds : list rdraws).
Definition discard {B} (m : SM B) : SM unit := m ≫= fun _ => mret tt.
Definition serve (q : request) : SM unit :=
  match q with
  | RStart slug redirectTo d => discard (StartAuth slug redirectTo d)
  | RComplete slug st code d => discard (CompleteAuth slug st code d)
  | RUpsert req d => discard (SvcUpsertProvider entries req d)
  | RDelete slug => discard (SvcDeleteProvider slug)
  | RList b => discard (ListConfiguredProviders b)
  | RGet slug => discard (GetProvider slug)
  | REnsure ds => discard (EnsurePresetProviders entries ds)
  end.
Definition serve_all (qs : list request) (w : world (svc S)) : world (svc S) := fold_left (fun w q => (serve q w).2) qs w.

(** The state a request draws. *)
Definition fresh_state (q : request) : option string :=
  match q with RStart _ _ d => match sd_state d with Ok b => Some (hex_EncodeToString b) | Err _ => None end | _ => None end.

Section served.
Context (allowed : string -> Prop) (A : S -> Prop) (Hstable : stable allowed A).

Lemma good_discard {B} (m : SM B) : preserves (good A) m -> preserves (good A) (discard m).
Proof. intros Hm. apply preserves_bind; [done|intros; apply preserves_ret]. Qed.

Lemma good_lift_bind {B C} (r : result svc_error B) (f : B -> SM C) :
  (forall b, r = Ok b -> preserves (good A) (f b)) -> preserves (good A) (lift_result r ≫= f).
Proof. intros Hf w Hw. rewrite M_bind_run. unfold lift_result. destruct r as [b|e]; [by apply Hf|done]. Qed.

Lemma good_load_bind {C} slug rem (f : Provider * resolvedProvider -> SM C) :
  (forall p r, normal_provider p -> preserves (good A) (f (p, r))) -> preserves (good A) (loadProvider slug rem ≫= f).
Proof.
  intros Hf w Hw. rewrite M_bind_run. pose proof (good_load allowed A Hstable slug rem w Hw) as Hg.
  destruct (loadProvider slug rem w) as [[[p r]|e] w1] eqn:E; [|done]. apply Hf; [|done].
  apply loadProvider_ok in E as (_ & Hs & _); [|by destruct Hw]. unfold normal_provider. by rewrite Hs, normalizeSlug_idem.
Qed.

Lemma good_start slug redirectTo d :
  (forall b, sd_state d = Ok b -> allowed (hex_EncodeToString b)) -> preserves (good A) (StartAuth slug redirectTo d).
Proof.
  intros Ha. unfold StartAuth. apply good_load_bind. intros p r _.
  apply good_lift_bind. intros sid Hsid. apply good_lift_bind. intros nonce _. apply good_lift_bind. intros pkce _.
  apply preserves_bind; [eapply good_save; [done|]|intros; apply good_lift_bind; intros; apply preserves_ret].
  cbn [as_ID]. destruct (sd_state d) as [b|e]; [|done]. injection Hsid as <-. by apply Ha.
Qed.

Lemma good_complete slug st code d : preserves (good A) (CompleteAuth slug st code d).
Proof.
  unfold CompleteAuth. cbv zeta. destruct (_ || _); [apply preserves_throw|].
  apply preserves_bind; [apply good_call; by eapply good_consume|]. intros state. destruct (negb _); [apply preserves_throw|].
  apply good_load_bind. intros p r Hp. apply good_lift_bind. intros tok _. apply good_lift_bind. intros u Hu%fetchProfile_normal.
  apply preserves_bind; [by eapply good_resolve|intros; apply preserves_ret].
Qed.

Lemma good_ensure presets : preserves (good A) (ensure_presets presets).
Proof.
  induction presets as [|[p d] presets IH]; [apply preserves_ret|]. cbn [ensure_presets]. apply preserves_bind.
  - apply preserves_try; [by eapply good_get|intros; apply preserves_ret].
  - intros [q|e]; [done|]. destruct e as [| | | |e|e|e|e]; try apply preserves_throw. destruct e; try apply preserves_throw.
    apply preserves_bind; [by eapply good_upsert|done].
Qed.

Lemma good_serve q : (forall sid, fresh_state q = Some sid -> allowed sid) -> preserves (good A) (serve q).
Proof.
  intros Ha. destruct q; cbn [serve]; apply good_discard.
  - apply good_start. intros b Hb. apply Ha. cbn. by rewrite Hb.
  - apply good_complete.
  - unfold SvcUpsertProvider. apply good_lift_bind. intros p _. apply preserves_bind; [by eapply good_upsert|intros; apply preserves_ret].
  - by eapply good_delete.
  - unfold ListConfiguredProviders. apply preserves_bind; [by eapply good_list|intros; apply preserves_ret].
  - unfold GetProvider. apply preserves_bind; [by eapply good_get|intros; apply preserves_ret].
  - apply good_ensure.
Qed.

Lemma good_serve_all qs : forall w,
  Forall (fun q => forall sid, fresh_state q = Some sid -> allowed sid) qs -> good A (w_db w) -> good A (w_db (serve_all qs w)).
Proof.
  induction qs as [|q qs IH]; intros w Hq Hw; [done|]. apply Forall_cons in Hq as [Hq Hqs]. cbn [serve_all fold_left].
  apply IH; [done|]. by apply good_serve.
Qed.
End served.

(** C14: A subject keeps its identity: once a log-in of a provider's user was
    completed, every later completed log-in of that user is for the same
    identity, whatever other log-ins, changes of providers and failures come
    in between, over any repository that keeps the promises. *)
Theorem social_subject_keeps_identity slug st code d slug' st' code' d' qs w res w1 res' w2 :
  repo_ok (ss_repo (w_db w)) ->
  CompleteAuth slug st code d w = (Ok res, w1) ->
  CompleteAuth slug' st' code' d' (serve_all qs w1) = (Ok res', w2) ->
  cb_Provider res' = cb_Provider res -> sp_ProviderUser (cb_Profile res') = sp_ProviderUser (cb_Profile res) ->
  cb_IdentityID res' = cb_IdentityID res.
Proof.
  intros Hok Hc1 Hc2 Hp Hu. destruct (CompleteAuth_ok _ _ _ _ _ _ _ Hc1 Hok) as (_ & _ & _ & i & Hi & Hl & _).
  set (A := fun s => link s (cb_Provider res) (sp_ProviderUser (cb_Profile res)) = Some i).
  assert (HA : stable (fun _ => True) A) by (intros s s' Hlk _ Hs; by apply Hlk).
  assert (Hok1 : repo_ok (ss_repo (w_db w1))).
  { pose proof (good_complete (fun _ => True) (fun _ => True) ltac:(by intros ? ?) slug st code d w) as Hg. rewrite Hc1 in Hg.
    by apply Hg. }
  destruct (good_serve_all (fun _ => True) A HA qs w1) as [Hok2 Hl2]; [by apply Forall_forall|done|].
  destruct (CompleteAuth_ok _ _ _ _ _ _ _ Hc2 Hok2) as (_ & _ & _ & j & Hj & _ & Hsame). rewrite Hi, Hj. f_equal. symmetry. apply Hsame.
  by rewrite Hp, Hu.
Qed.

(** C15: A state completes at most one log-in: a log-in is completed only with a
    state stored for that provider that has not expired, and as long as no new
    log-in happens to draw the same state, no later request, whatever comes in
    between, completes a log-in with it. *)
Theorem social_state_is_single_use slug st code d w res w1 qs :
  repo_ok (ss_repo (w_db w)) -> CompleteAuth slug st code d w = (Ok res, w1) ->
  Forall (fun q => fresh_state q <> Some (TrimSpace st)) qs ->
  (exists expires, stored (ss_repo (w_db w)) (TrimSpace st) = Some (normalizeSlug slug, expires) /\ (sd_now d <= expires)%Z) /\
  (forall slug' code' d', is_ok (CompleteAuth slug' st code' d' (serve_all qs w1)).1 = false).
Proof.
  intros Hok Hc Hqs. destruct (CompleteAuth_ok _ _ _ _ _ _ _ Hc Hok) as (_ & Hst & Hgone & _). split; [exact Hst|].
  set (A := fun s => stored s (TrimSpace st) = None).
  assert (HA : stable (fun sid => sid <> TrimSpace st) A).
  { intros s s' _ Hs Hn. unfold A. destruct (stored s' (TrimSpace st)) as [x|] eqn:E; [|done].
    apply Hs in E as [E|E]; [|done]. unfold A in Hn. congruence. }
  assert (Hok1 : repo_ok (ss_repo (w_db w1))).
  { pose proof (good_complete (fun _ => True) (fun _ => True) ltac:(by intros ? ?) slug st code d w) as Hg. rewrite Hc in Hg.
    by apply Hg. }
  destruct (good_serve_all _ A HA qs w1) as [Hok2 Hl2]; [|done|].
  { eapply Forall_impl; [exact Hqs|]. cbn. intros q Hq sid Hs Heq. apply Hq. by rewrite Hs, Heq. }
  intros slug' code' d'. destruct (CompleteAuth slug' st code' d' (serve_all qs w1)) as [[r|e] w3] eqn:E; [|done].
  destruct (CompleteAuth_ok _ _ _ _ _ _ _ E Hok2) as (_ & (x & Hx & _) & _). unfold A in Hl2. congruence.
Qed.
End login.
