(* ===== verification/SocialHttp.v ===== *)
(** modules/social/handler/handler.go: the HTTP routes of social log-in, who
    may configure providers and what the answers reveal; a complete log-in over
    the store in memory closes the file.

    JSON bodies arrive decoded ([None] when [decodeJSONBody] refused them), the
    parameters of a callback as the query and the form give them.  [serve_mux]
    is for paths the multiplexer does not rewrite. *)

From Stdlib Require Import Ascii String.
From S2P Require Import MagicLinkHttp.
From S2P Require Import Prelude GoStrings GoEncoding PlatformCrypto CryptoFields GoHttp SignedHeaders Jwt JwtFacts Social SocialService SocialFacts.

Local Open Scope string_scope.

Record Config : Type := { ManagementToken : string; IdentitySigningSecret : string }.
Record Handler : Type := { managementToken : string; identitySigningSecret : string }.
Definition New (cfg : Config) : Handler :=
  {| managementToken := TrimSpace (ManagementToken cfg); identitySigningSecret := IdentitySigningSecret cfg |}.

Inductive payload : Type :=
| PProviders (ps : list Provider)
| PProvider (p : Provider)
| PStarted (r : StartAuthResponse)
| PCompleted (r : CallbackResult)
| PError (message : string)
| PNone.
(** [rs_location]: what [http.Redirect] is given. *)
Record response : Type := { rs_status : Z; rs_payload : payload; rs_location : option string }.
Definition writeJSON (status : Z) (p : payload) : response := {| rs_status := status; rs_payload := p; rs_location := None |}.
Definition writeError (status : Z) (message : string) : response := writeJSON status (PError message).

(** What the body and the query of a request hold; [in_form] is [false] when
    [ParseForm] fails. *)
Record input : Type := {
  in_start : option string; in_upsert : option ProviderUpsertRequest;
  in_query_state : string; in_query_code : string; in_form : bool; in_form_state : string; in_form_code : string;
}.

Fixpoint firstNonEmpty (values : list string) : string :=
  match values with
  | [] => ""
  | v :: rest => if String.eqb (TrimSpace v) "" then firstNonEmpty rest else v
  end.
Definition acceptsJSON (r : Request) : bool :=
  Contains (ToLower (TrimSpace (Header_Get (Header r) "Accept"))) "application/json".
Definition safeBrowserRedirectTarget (target : string) : string :=
  let target := TrimSpace target in
  if String.eqb target "" then ""
  else if has_newline target then "/"
  else if negb (HasPrefix target "/") || HasPrefix target "//" then "/"
  else target.

Definition managementHeaders : list string := ["X-User-ID"; "X-User-Session-ID"; "X-User-AAL"].
Definition maxIdentityHeaderAge : duration := 5 * minute.
Definition bearer (r : Request) : string := TrimSpace (TrimPrefix (Header_Get (Header r) "Authorization") "Bearer ").

(** [None] when the caller may manage providers. *)
Definition requireManagementAuth (h : Handler) (r : Request) (now : time) : option response :=
  if String.eqb (TrimSpace (managementToken h)) "" then Some (writeError 503 "provider management is disabled")
  else if String.eqb (bearer r) "" then Some (writeError 401 "missing management token")
  else if negb (ConstantTimeCompare (bearer r) (managementToken h)) then Some (writeError 401 "invalid management token")
  else if String.eqb (identitySigningSecret h) "" then None
  else if existsb (fun name => String.eqb (TrimSpace (Header_Get (Header r) name)) "") managementHeaders
  then Some (writeError 401 "missing management identity context")
  else if negb (VerifyIdentityHeaders (identitySigningSecret h) (Header r) managementHeaders
                  (Header_Get (Header r) "X-Aegion-Signature") maxIdentityHeaderAge now)
  then Some (writeError 401 "invalid management identity context")
  else None.

Section handler.
Context {S : Type} `{Repository S} `{UuidText} `{SocialEnv} `{JwtJson} `{Signatures} `{ScanOrder} (entries : list preset_entry) (h : Handler).
Abbreviation SM := (M (svc S) svc_error).

Definition withQuery (target : string) (additions : list (string * string)) : string :=
  default target (with_params target (List.filter (fun kv => negb (String.eqb (TrimSpace kv.2) "")) additions)).

(** A call of the service. *)
Definition answered {A} (m : SM A) (ok : A -> response) (failed : svc_error -> response) : SM response :=
  r ← attempt m; mret (match r with Ok a => ok a | Err e => failed e end).

Definition handleProviders (r : Request) : SM response :=
  if negb (String.eqb (Method r) "GET") then mret (writeError 405 "method not allowed")
  else answered ListEnabledProviders (fun ps => writeJSON 200 (PProviders ps)) (fun _ => writeError 500 "failed to list providers").

Definition handleStart (r : Request) (provider : string) (b : input) (d : sdraws) : SM response :=
  if negb (String.eqb (Method r) "POST") then mret (writeError 405 "method not allowed")
  else match in_start b with
  | None => mret (writeError 400 "invalid request body")
  | Some redirectTo =>
      answered (StartAuth provider redirectTo d) (fun resp => writeJSON 200 (PStarted resp)) (fun e =>
        match e with
        | ErrProviderUnsupported | ErrProviderMisconfig => writeError 400 "provider is not configured"
        | _ => writeError 500 "failed to start social auth"
        end)
  end.

Definition redirect_params (resp : CallbackResult) : list (string * string) :=
  [("social_provider", cb_Provider resp); ("identity_id", cb_IdentityID resp); ("social_status", "authenticated")].
Definition handleCallback (r : Request) (provider : string) (b : input) (d : sdraws) : SM response :=
  if negb (String.eqb (Method r) "GET") && negb (String.eqb (Method r) "POST") then mret (writeError 405 "method not allowed")
  else if String.eqb (Method r) "POST" && negb (in_form b) then mret (writeError 400 "invalid callback payload")
  else
    let stateID := TrimSpace (firstNonEmpty [in_query_state b; in_form_state b]) in
    let code := TrimSpace (firstNonEmpty [in_query_code b; in_form_code b]) in
    answered (CompleteAuth provider stateID code d) (fun resp =>
      let redirectTarget := safeBrowserRedirectTarget (cb_RedirectTo resp) in
      if negb (acceptsJSON r) && negb (String.eqb redirectTarget "")
      then {| rs_status := 303; rs_payload := PNone; rs_location := Some (withQuery redirectTarget (redirect_params resp)) |}
      else writeJSON 200 (PCompleted resp)) (fun e =>
      match e with
      | ErrProviderUnsupported | ErrInvalidState | ErrInvalidCallback => writeError 400 "invalid social callback"
      | _ => writeError 502 "provider callback failed"
      end).

Definition handleSocialPath (r : Request) (b : input) (d : sdraws) : SM response :=
  let segments := Split (trim (Ascii.eqb "/") (URL_Path r)) "/" in
  match rev segments with
  | action :: provider :: _ :: _ :: _ =>
      if String.eqb action "start" then handleStart r provider b d
      else if String.eqb action "callback" then handleCallback r provider b d
      else mret (writeError 404 "route not found")
  | _ => mret (writeError 404 "route not found")
  end.

(** Behind the check of the caller. *)
Definition managed (r : Request) (now : time) (m : SM response) : SM response :=
  match requireManagementAuth h r now with Some refusal => mret refusal | None => m end.

Definition handleAdminProviders (r : Request) (b : input) (d : sdraws) (now : time) : SM response :=
  managed r now (
    if String.eqb (Method r) "GET" then
      answered (ListConfiguredProviders true) (fun ps => writeJSON 200 (PProviders ps)) (fun _ => writeError 500 "failed to list providers")
    else if String.eqb (Method r) "POST" then
      match in_upsert b with
      | None => mret (writeError 400 "invalid request body")
      | Some req =>
          answered (SvcUpsertProvider entries req d) (fun p => writeJSON 200 (PProvider p)) (fun _ => writeError 400 "failed to save provider")
      end
    else mret (writeError 405 "method not allowed")).

Definition adminPrefix : string := "/api/v1/social/admin/providers/".
Definition handleAdminProvider (r : Request) (now : time) : SM response :=
  managed r now (
    let slug := TrimSpace (TrimPrefix (URL_Path r) adminPrefix) in
    if String.eqb slug "" then mret (writeError 404 "route not found")
    else if String.eqb (Method r) "GET" then
      answered (GetProvider slug) (fun p => writeJSON 200 (PProvider p)) (fun _ => writeError 404 "provider not found")
    else if String.eqb (Method r) "DELETE" then
      answered (SvcDeleteProvider slug) (fun _ => writeJSON 204 PNone) (fun _ => writeError 404 "provider not found")
    else mret (writeError 405 "method not allowed")).

(** RegisterRoutes: the longest pattern wins. *)
Definition serve_mux (r : Request) (b : input) (d : sdraws) (now : time) : SM response :=
  if String.eqb (URL_Path r) "/api/v1/social/providers" then handleProviders r
  else if String.eqb (URL_Path r) "/api/v1/social/admin/providers" then handleAdminProviders r b d now
  else if HasPrefix (URL_Path r) adminPrefix then handleAdminProvider r now
  else if HasPrefix (URL_Path r) "/api/v1/social/" || HasPrefix (URL_Path r) "/self-service/social/" then handleSocialPath r b d
  else mret (writeError 404 "404 page not found").
End handler.

(** ** What the operations of log-ins leave alone

    [configuration] is what a repository holds of the providers. *)
Class ProviderFrame (S : Type) `{Repository S} := {
  config : Type;
  configuration : S -> config;
  get_keeps : forall slug c, preserves (fun s => configuration s = c) (GetProviderBySlug slug);
  list_keeps : forall b c, preserves (fun s => configuration s = c) (ListProviders b);
  save_keeps : forall st d c, preserves (fun s => configuration s = c) (SaveState st d);
  consume_keeps : forall id now c, preserves (fun s => configuration s = c) (ConsumeState id now);
  resolve_keeps : forall p u d c, preserves (fun s => configuration s = c) (ResolveIdentity p u d);
}.

Section memory_frame.
Context `{ScanOrder}.
#[local] Instance memory_ops : Repository Memory.MemoryStore := Memory.repository.

Lemma mem_now {A} (f : Memory.MemoryStore -> A * Memory.MemoryStore) c :
  (forall s, Memory.providers (f s).2 = Memory.providers s) -> preserves (fun s => Memory.providers s = c) (Memory.now_state f).
Proof. intros Hf w Hw. unfold Memory.now_state. specialize (Hf (w_db w)). destruct (f (w_db w)) as [a s]. cbn in *. congruence. Qed.

Definition memory_frame : ProviderFrame Memory.MemoryStore.
Proof.
  refine {| configuration := Memory.providers |}.
  - intros slug c. apply preserves_bind; [by apply mem_now|]. intros []; [apply preserves_ret|apply preserves_throw].
  - intros b c. by apply mem_now.
  - intros st d c. by apply mem_now.
  - intros id now c. apply preserves_bind; [by apply mem_now|]. intros []; [|apply preserves_throw].
    destruct (time_after _ _); [apply preserves_throw|apply preserves_ret].
  - intros p u d c. apply mem_now. intros s. cbv zeta. by repeat case_match.
Defined.
End memory_frame.

Section postgres_frame.
Context `{Primitives} `{ScanOrder} (collate : string -> string -> bool) (cipherKey : string).
#[local] Instance postgres_ops : Repository Postgres.soc_db := Postgres.repository collate cipherKey.
Definition pg_config (db : Postgres.soc_db) : gmap N Provider * gmap N Postgres.cred_row := (Postgres.t_providers db, Postgres.t_creds db).

Lemma pg_keeps_stmt {A} c (stmt : Postgres.soc_db -> result db_error (A * Postgres.soc_db)) :
  (forall db a db', stmt db = Ok (a, db') -> pg_config db' = pg_config db) ->
  preserves (fun db => pg_config db = c) (db_stmt stmt : M _ soc_error A).
Proof. intros Hs. apply preserves_stmt. intros db a db' Hst <-. by eapply Hs. Qed.
Lemma pg_keeps_crypto {A} c (r : result crypto_error A) : preserves (fun db => pg_config db = c) (Postgres.lift_crypto r).
Proof. intros w Hw. by destruct r. Qed.

Ltac pg_keeps :=
  repeat first
    [ apply preserves_ret | apply preserves_throw | apply pg_keeps_crypto | apply preserves_tx
    | apply preserves_bind; [|intros ?]
    | apply pg_keeps_stmt; intros ? ? ?; cbv zeta; repeat case_match; by intros [= <- <-]
    | case_match ].

Lemma pg_keeps_email c i e v d : preserves (fun db => pg_config db = c) (Postgres.upsertPrimaryEmail i e v d).
Proof. unfold Postgres.upsertPrimaryEmail. cbv zeta. pg_keeps. Qed.

Definition postgres_frame : ProviderFrame Postgres.soc_db.
Proof.
  refine {| configuration := pg_config |}; cbn.
  - intros slug c. unfold Postgres.GetProviderBySlug. pg_keeps.
  - intros b c. unfold Postgres.ListProviders. pg_keeps.
  - intros st d c. unfold Postgres.SaveState. pg_keeps.
  - intros id now c. unfold Postgres.ConsumeState, Postgres.select_state, Postgres.delete_state, Postgres.open_state. pg_keeps.
  - intros p u d c. pose proof (pg_keeps_email c) as He.
    unfold Postgres.ResolveIdentity, Postgres.identityByLink, Postgres.refreshLink, Postgres.lookupOrCreateIdentity, Postgres.create_identity.
    cbv zeta. repeat (first [apply He|progress pg_keeps]).
Defined.
End postgres_frame.

Section answers.
Context {S : Type} `{ProviderFrame S} `{UuidText} `{SocialEnv} `{JwtJson} `{Signatures} `{ScanOrder} (entries : list preset_entry) (h : Handler).
Abbreviation SM := (M (svc S) svc_error).
Abbreviation same c := (fun s : svc S => configuration (ss_repo s) = c).

Lemma same_repo {A} (m : M S soc_error A) c : preserves (fun s => configuration s = c) m -> preserves (same c) (repo m).
Proof.
  intros Hm w Hw. destruct (repo m w) as [r w'] eqn:E. apply repo_run in E as (r1 & w1 & E & Hw' & _). cbn [snd]. rewrite Hw'.
  specialize (Hm (World (ss_repo (w_db w)) (w_faults w)) Hw). by rewrite E in Hm.
Qed.
Lemma same_call {A} (f : svc_error -> svc_error) (m : SM A) c : preserves (same c) m -> preserves (same c) (call f m).
Proof. intros Hm. apply preserves_try; [done|]. intros []; [apply preserves_ret|apply preserves_throw]. Qed.
Lemma same_load slug rem c : preserves (same c) (loadProvider slug rem).
Proof.
  unfold loadProvider. apply preserves_bind; [apply same_call, same_repo, get_keeps|]. intros p.
  destruct (negb _); [apply preserves_throw|]. apply preserves_bind; [|intros; apply preserves_ret].
  intros w Hw. by rewrite resolveProvider_repo.
Qed.
Lemma same_start slug redirectTo d c : preserves (same c) (StartAuth slug redirectTo d).
Proof.
  unfold StartAuth. apply preserves_bind; [apply same_load|]. intros [p r].
  repeat (apply preserves_bind; [apply preserves_lift|intros ?]).
  apply preserves_bind; [apply same_repo, save_keeps|intros ?].
  apply preserves_bind; [apply preserves_lift|intros ?]. apply preserves_ret.
Qed.
Lemma same_complete slug st code d c : preserves (same c) (CompleteAuth slug st code d).
Proof.
  unfold CompleteAuth. cbv zeta. destruct (_ || _); [apply preserves_throw|].
  apply preserves_bind; [apply same_call, same_repo, consume_keeps|]. intros state. destruct (negb _); [apply preserves_throw|].
  apply preserves_bind; [apply same_load|]. intros [p r].
  repeat (apply preserves_bind; [apply preserves_lift|intros ?]).
  apply preserves_bind; [apply same_repo, resolve_keeps|intros ?]. apply preserves_ret.
Qed.
Lemma same_list b c : preserves (same c) (ListConfiguredProviders b).
Proof. unfold ListConfiguredProviders. apply preserves_bind; [apply same_repo, list_keeps|intros; apply preserves_ret]. Qed.
Lemma same_answered {A} (m : SM A) ok failed c : preserves (same c) m -> preserves (same c) (answered m ok failed).
Proof. intros Hm. apply preserves_bind; [|intros; apply preserves_ret]. apply preserves_try; [done|intros; apply preserves_ret]. Qed.

(** Outside the managed routes nothing changes a provider. *)
Lemma same_path r b d c : preserves (same c) (handleSocialPath r b d).
Proof.
  unfold handleSocialPath, handleStart, handleCallback. cbv zeta.
  repeat first [apply preserves_ret|apply same_answered, same_start|apply same_answered, same_complete|case_match].
Qed.

(** Who may manage providers. *)
Definition manager (r : Request) (now : time) : Prop :=
  managementToken h <> "" /\ bearer r = managementToken h /\
  (identitySigningSecret h <> "" ->
     VerifyIdentityHeaders (identitySigningSecret h) (Header r) managementHeaders
       (Header_Get (Header r) "X-Aegion-Signature") maxIdentityHeaderAge now = true).
Lemma requireManagementAuth_None r now : requireManagementAuth h r now = None -> manager r now.
Proof.
  unfold requireManagementAuth, manager. destruct (String.eqb_spec (TrimSpace (managementToken h)) "") as [|Hm]; [done|].
  destruct (String.eqb (bearer r) ""); [done|]. rewrite ConstantTimeCompare_eqb.
  destruct (String.eqb_spec (bearer r) (managementToken h)) as [Hb|]; [|done]. cbn [negb].
  assert (managementToken h <> "") by (intros E; by rewrite E in Hm).
  destruct (String.eqb_spec (identitySigningSecret h) ""); [by intros _|]. destruct (existsb _ _); [done|].
  destruct (VerifyIdentityHeaders _ _ _ _ _ _); [by intros _|done].
Qed.
Lemma managed_change r now (m : SM response) (w : world (svc S)) :
  configuration (ss_repo (w_db (managed h r now m w).2)) <> configuration (ss_repo (w_db w)) -> manager r now.
Proof. unfold managed. destruct (requireManagementAuth h r now) eqn:E; [done|]. intros _. by apply requireManagementAuth_None. Qed.

(** Providers are configured by managers only: whatever the request and the
    repository, when it changes what is stored of the providers (their rows or
    their credentials), then management is enabled, the request presents the
    management token, and where a signing secret is configured, a signed
    identity that is at most five minutes old. *)
Theorem social_providers_need_management r b d now (w : world (svc S)) :
  configuration (ss_repo (w_db (serve_mux entries h r b d now w).2)) <> configuration (ss_repo (w_db w)) ->
  manager r now.
Proof.
  assert (Hk : forall m : SM response, (forall c, preserves (same c) m) ->
    configuration (ss_repo (w_db (m w).2)) = configuration (ss_repo (w_db w))) by (intros m Hm; by apply Hm).
  unfold serve_mux. destruct (String.eqb _ "/api/v1/social/providers").
  { intros []. apply Hk. intros c. unfold handleProviders. destruct (negb _); [apply preserves_ret|]. apply same_answered, same_list. }
  destruct (String.eqb _ "/api/v1/social/admin/providers"); [apply managed_change|].
  destruct (HasPrefix _ adminPrefix); [apply managed_change|].
  destruct (_ || _); intros []; apply Hk; intros c; [apply same_path|apply preserves_ret].
Qed.

(** ** What an answer reveals *)

Definition no_secret (p : Provider) : Prop := pr_ClientSecret p = "".
Definition local_target (t : string) : Prop := HasPrefix t "/" = true /\ HasPrefix t "//" = false.
Definition discreet (a : response) : Prop :=
  match rs_payload a with PProviders ps => Forall no_secret ps | PProvider p => no_secret p | _ => True end /\
  match rs_location a with
  | Some l => exists target params, l = withQuery target params /\ local_target target
  | None => True
  end.
Definition answers (P : response -> Prop) (m : SM response) : Prop := forall w a w', m w = (Ok a, w') -> P a.

Lemma answers_ret P a : P a -> answers P (mret a).
Proof. by intros HP w a' w' [= <- <-]. Qed.
Lemma answers_answered {A} P (m : SM A) ok failed :
  (forall w a w', m w = (Ok a, w') -> P (ok a)) -> (forall e, P (failed e)) -> answers P (answered m ok failed).
Proof.
  intros Hok Hf w a w'. unfold answered, attempt, M_try. rewrite M_bind_run. destruct (m w) as [[x|e] w1] eqn:E; intros [= <- _]; [by eapply Hok|done].
Qed.
Lemma safe_target t : safeBrowserRedirectTarget t <> "" -> local_target (safeBrowserRedirectTarget t).
Proof.
  unfold safeBrowserRedirectTarget, local_target. cbv zeta. destruct (String.eqb _ ""); [done|]. intros _.
  destruct (has_newline _); [done|]. destruct (HasPrefix (TrimSpace t) "/") eqn:E1; [|done].
  by destruct (HasPrefix (TrimSpace t) "//") eqn:E2.
Qed.
Lemma discreet_error s m : discreet (writeError s m).
Proof. done. Qed.
Lemma list_sanitized b w ps w' : ListConfiguredProviders b w = (Ok ps, w') -> Forall no_secret ps.
Proof. unfold ListConfiguredProviders. intros (qs & w1 & _ & [= <- _])%M_bind_ok. by apply Forall_fmap, Forall_true. Qed.

Lemma discreet_path r b d : answers discreet (handleSocialPath r b d).
Proof.
  unfold handleSocialPath, handleStart. cbv zeta.
  repeat first [apply answers_ret; done|apply answers_answered; [by intros|by intros []]|case_match].
  unfold handleCallback. cbv zeta. repeat first [apply answers_ret; done|case_match]. apply answers_answered; [|by intros []].
  intros w1 a w2 _. destruct (String.eqb_spec (safeBrowserRedirectTarget (cb_RedirectTo a)) ""); [by rewrite andb_false_r|].
  destruct (acceptsJSON r); [done|]. split; [done|]. eexists _, _. split; [done|]. by apply safe_target.
Qed.

Lemma discreet_managed r now (m : SM response) : answers discreet m -> answers discreet (managed h r now m).
Proof.
  intros Hm. unfold managed. destruct (requireManagementAuth h r now) as [a|] eqn:E; [|done]. apply answers_ret.
  unfold requireManagementAuth in E. revert E. repeat case_match; by intros [= <-].
Qed.

(** What answers reveal: no answer of the module carries a client secret,
    not even those to managers, and every redirect goes to a path of this
    site. *)
Theorem social_answers_are_discreet r b d now : answers discreet (serve_mux entries h r b d now).
Proof.
  unfold serve_mux, handleProviders, handleAdminProviders, handleAdminProvider.
  repeat first
    [ apply answers_ret; done | apply discreet_path | apply discreet_managed | apply answers_answered; [|done] | case_match ].
  - intros w ps w' Hl. split; [by eapply list_sanitized|done].
  - intros w ps w' Hl. split; [by eapply list_sanitized|done].
  - intros w p' w' (q & w1 & _ & (s & w2 & _ & [= <- _])%M_bind_ok)%M_bind_ok. by split.
  - intros w p' w' (q & w1 & _ & [= <- _])%M_bind_ok. by split.
  - by intros.
Qed.
End answers.

(** ** A log-in from start to end, over the store in memory *)

Module SocialWitness.
#[local] Existing Instance key_order.
#[local] Existing Instance unary_uuid.
#[local] Existing Instance JwtWitness.one_json.
#[local] Existing Instance JwtWitness.toy_signatures.
#[local] Instance store : Repository Memory.MemoryStore := Memory.repository.
#[local] Instance laws : RepositoryLaws Memory.MemoryStore := memory_laws.
#[local] Instance frame : ProviderFrame Memory.MemoryStore := memory_frame.
#[local] Instance env : SocialEnv :=
  {| with_params url ps := Some (url +:+ "?" +:+ Join ((fun kv => kv.1 +:+ "=" +:+ kv.2) <$> ps) "&");
     title s := s; payload_Unmarshal _ := None; header_kid_alg _ := None; MarshalPKCS1PublicKey _ _ := "" |}.

Definition mapping : ClaimMapping :=
  {| cm_Subject := "sub"; cm_Email := "email"; cm_EmailVerified := "email_verified"; cm_Name := "name"; cm_Picture := "picture" |}.
Definition upsert : ProviderUpsertRequest :=
  {| rq_Slug := " GitLab "; rq_DisplayName := "GitLab"; rq_Preset := "custom"; rq_Protocol := ProtocolOAuth; rq_Issuer := "";
     rq_DiscoveryURL := ""; rq_AuthorizeEndpoint := "https://gl/auth"; rq_TokenEndpoint := "https://gl/token";
     rq_UserInfoEndpoint := "https://gl/me"; rq_JWKSURI := ""; rq_Scopes := []; rq_ClaimMapping := mapping; rq_ExtraAuthParams := ∅;
     rq_PKCEMethod := PKCENone; rq_AuthStyle := ""; rq_ClaimSource := ""; rq_Enabled := true; rq_TrustEmailVerified := true;
     rq_RedirectURI := "https://id/cb"; rq_ClientID := "aegion"; rq_ClientSecret := "s3cret" |}.
(** The provider answers for one user with a verified address. *)
Definition provider_side : remote :=
  {| r_discovery _ := Err "unused";
     r_token q := Ok {| tp_AccessToken := "at"; tp_TokenType := "bearer"; tp_IDToken := "" |};
     r_claims _ _ := Ok {[ "sub" := JString "u1"; "email" := JString "Me@Here"; "email_verified" := JBool true ]};
     r_github_emails _ := None; r_jwks _ := Err "unused" |}.
Definition d (id : uuid) (state : string) (t : time) : sdraws :=
  {| sd_remote := provider_side; sd_now := t; sd_state := Ok state; sd_nonce := Ok "n"; sd_verifier := Ok "v";
     sd_repo := {| rd_now := t; rd_dbnow := t; rd_id := id; rd_id2 := id; rd_id3 := id; rd_nonce := None |}; sd_jwt := t |}.
Definition hnd : Handler := New {| ManagementToken := " manage "; IdentitySigningSecret := "" |}.
Definition manage : Request :=
  {| Method := "POST"; URL_Path := "/api/v1/social/admin/providers"; URL_RawQuery := ""; Host := "id"; RemoteAddr := ""; TLS := true;
     Cookies := []; Header := Header_Set ∅ "Authorization" "Bearer manage" |}.
Definition body : input :=
  {| in_start := None; in_upsert := Some upsert; in_query_state := ""; in_query_code := ""; in_form := true; in_form_state := ""; in_form_code := "" |}.
Definition w0 : world (svc Memory.MemoryStore) := World {| ss_repo := Memory.New; ss_discovery := ∅ |} [].
Definition w1 : world (svc Memory.MemoryStore) := (serve_mux [] hnd manage body (d 3 "" 1) 1 w0).2.

Lemma social_providers_need_management_witness : manager hnd manage 1.
Proof.
  apply (social_providers_need_management [] hnd manage body (d 3 "" 1) 1 w0). vm_compute. done.
Defined.

(** Log-ins of the same user. *)
Definition w2 : world (svc Memory.MemoryStore) := serve_all [] [RStart "gitlab" "/home" (d 4 "a" 10)] w1.
Definition first := CompleteAuth "gitlab" "61" "code" (d 5 "" 20) w2.
Definition between : list request := [RList true; RStart "gitlab" "" (d 6 "b" 30)].
Definition second_login := CompleteAuth "GitLab" "62" "code2" (d 7 "" 40) (serve_all [] between first.2).
Definition result_of (r : result svc_error CallbackResult) : CallbackResult :=
  match r with
  | Ok c => c
  | Err _ => {| cb_Provider := ""; cb_RedirectTo := ""; cb_IdentityID := ""; cb_CreatedIdentity := false; cb_Linked := false;
                cb_Profile := claimsToProfile (requested upsert) ∅ |}
  end.

Definition gitlab : Provider := default (requested upsert) (Memory.providers (ss_repo (w_db w2)) !! "gitlab").
Lemma w2_ok : repo_ok (ss_repo (w_db w2)).
Proof.
  assert (E : Memory.providers (ss_repo (w_db w2)) = {[ "gitlab" := gitlab ]}) by (vm_compute; reflexivity).
  intros slug p Hp. rewrite E in Hp. apply lookup_singleton_Some in Hp as [<- <-]. vm_compute. reflexivity.
Qed.

Lemma social_subject_keeps_identity_witness : cb_IdentityID (result_of second_login.1) = cb_IdentityID (result_of first.1).
Proof.
  refine (social_subject_keeps_identity [] "gitlab" "61" "code" (d 5 "" 20) "GitLab" "62" "code2" (d 7 "" 40) between
    w2 (result_of first.1) first.2 (result_of second_login.1) second_login.2 _ _ _ _ _).
  - apply w2_ok.
  - vm_compute. reflexivity.
  - vm_compute. reflexivity.
  - vm_compute. reflexivity.
  - vm_compute. reflexivity.
Defined.

Lemma social_state_is_single_use_witness :
  (exists expires, stored (ss_repo (w_db w2)) (TrimSpace "61") = Some (normalizeSlug "gitlab", expires) /\ (sd_now (d 5 "" 20) <= expires)%Z) /\
  (forall slug' code' d', is_ok (CompleteAuth slug' "61" code' d' (serve_all [] between first.2)).1 = false).
Proof.
  refine (social_state_is_single_use [] "gitlab" "61" "code" (d 5 "" 20) w2 (result_of first.1) first.2 between _ _ _).
  - apply w2_ok.
  - vm_compute. reflexivity.
  - repeat constructor; vm_compute; done.
Defined.

(** A provider whose claims name no subject: two people get one identity. *)
Definition nameless (email : string) : remote :=
  {| r_discovery := r_discovery provider_side; r_token := r_token provider_side;
     r_claims _ _ := Ok {[ "email" := JString email ]}; r_github_emails _ := None; r_jwks := r_jwks provider_side |}.
Definition as_remote (rem : remote) (x : sdraws) : sdraws :=
  {| sd_remote := rem; sd_now := sd_now x; sd_state := sd_state x; sd_nonce := sd_nonce x; sd_verifier := sd_verifier x;
     sd_repo := sd_repo x; sd_jwt := sd_jwt x |}.
Definition alice_login := CompleteAuth "gitlab" "61" "code" (as_remote (nameless "alice@a") (d 5 "" 20)) w2.
Definition bob_login := CompleteAuth "gitlab" "62" "code2" (as_remote (nameless "bob@b") (d 7 "" 40)) (serve_all [] between alice_login.2).
Lemma nameless_users_share_identity :
  sp_Email (cb_Profile (result_of alice_login.1)) = "alice@a" /\ sp_Email (cb_Profile (result_of bob_login.1)) = "bob@b" /\ is_ok bob_login.1 = true /\ cb_IdentityID (result_of bob_login.1) = cb_IdentityID (result_of alice_login.1).
Proof. by vm_compute. Qed.

(** The second log-in of the user found the first one's identity. *)
Example second_login_is_not_new :
  cb_IdentityID (result_of second_login.1) = uuid_string 5 /\ cb_CreatedIdentity (result_of first.1) = true /\
  cb_CreatedIdentity (result_of second_login.1) = false.
Proof. by vm_compute. Qed.
End SocialWitness.
