(* ===== verification/Workers.v ===== *)
(** core/workers: the background workers.

    - worker.go: the loop of a worker, and the manager that starts and stops
      workers, as labelled steps over shared flags ([running], the closed
      channel [done], the cancelled contexts);
    - session_cleanup.go, flow_cleanup.go: the periodic removals, over the
      tables of the sessions, flows and continuity containers;
    - event_processor.go: delivery with the event bus or without it.

    The courier's worker is in Courier.v.  Logging is left out. *)

From Stdlib Require Import Ascii String.
From S2P Require Import Prelude GoStrings Session SessionFacts Flows FlowStore FlowService Continuity EventBus.

Local Open Scope string_scope.

Inductive worker_error : Type :=
| errWorkerDBUnavailable
| WorkerDb (e : db_error)
| WorkerBus (e : bus_error).
#[global] Instance worker_db_err : DbErr worker_error := WorkerDb.

(** [BaseWorker.exec] and [query]: a worker without a database fails. *)
Definition exec {S A} (hasDB : bool) (s : S -> result db_error (A * S)) : M S worker_error A :=
  if hasDB then db_stmt s else throw errWorkerDBUnavailable.

(** ** Loops and the manager (worker.go) *)

(** Where a started loop is: before [SetRunning(true)], in [safeRun], at the
    [select], or returned. *)
Inductive loop_at : Type := LFresh | LRunning | LSelecting | LReturned.

(** [done] closed, and the loops started on the worker with the context each
    was given. *)
Record worker : Type := { wk_running : bool; wk_closed : bool; wk_loops : list (nat * loop_at) }.
Definition NewBaseWorker : worker := {| wk_running := false; wk_closed := false; wk_loops := [] |}.

(** [mg_contexts]: whether each context made by [Start] is cancelled;
    [mg_cancel]: the one [cancel] is for; [mg_panic]: a closed channel was
    closed again. *)
Record manager : Type := {
  mg_workers : list worker; mg_contexts : list bool; mg_cancel : option nat; mg_panic : bool;
}.
Definition NewManager : manager := {| mg_workers := []; mg_contexts := []; mg_cancel := None; mg_panic := false |}.
Definition with_workers (m : manager) (ws : list worker) : manager :=
  {| mg_workers := ws; mg_contexts := mg_contexts m; mg_cancel := mg_cancel m; mg_panic := mg_panic m |}.

Definition Register (m : manager) : manager := with_workers m (mg_workers m ++ [NewBaseWorker]).

Definition launch (ctx : nat) (w : worker) : worker :=
  {| wk_running := wk_running w; wk_closed := wk_closed w; wk_loops := wk_loops w ++ [(ctx, LFresh)] |}.
Definition Start (m : manager) : manager :=
  let ctx := length (mg_contexts m) in
  {| mg_workers := launch ctx <$> mg_workers m; mg_contexts := mg_contexts m ++ [false]; mg_cancel := Some ctx; mg_panic := mg_panic m |}.

(** The first part of [Manager.Stop], and [BaseWorker.Stop], which it then
    calls for each worker. *)
Definition CancelContext (m : manager) : manager :=
  match mg_cancel m with
  | None => m
  | Some ctx => {| mg_workers := mg_workers m; mg_contexts := <[ctx := true]> (mg_contexts m); mg_cancel := mg_cancel m; mg_panic := mg_panic m |}
  end.
Definition StopWorker (i : nat) (m : manager) : manager :=
  match mg_workers m !! i with
  | Some w =>
      if wk_running w then
        if wk_closed w
        then {| mg_workers := mg_workers m; mg_contexts := mg_contexts m; mg_cancel := mg_cancel m; mg_panic := true |}
        else with_workers m (<[i := {| wk_running := false; wk_closed := true; wk_loops := wk_loops w |}]> (mg_workers m))
      else m
  | None => m
  end.

(** A step of loop [j] of a worker. *)
Inductive move : Type := MBegin | MFinish | MTick | MSeeCancelled | MSeeDone.
Definition set_loop (w : worker) (j : nat) (running : bool) (ctx : nat) (l : loop_at) : worker :=
  {| wk_running := running; wk_closed := wk_closed w; wk_loops := <[j := (ctx, l)]> (wk_loops w) |}.
(** RunLoop. *)
Definition loop_step (contexts : list bool) (w : worker) (j : nat) (mv : move) : option worker :=
  match wk_loops w !! j, mv with
  | Some (ctx, LFresh), MBegin => Some (set_loop w j true ctx LRunning)
  | Some (ctx, LRunning), MFinish => Some (set_loop w j (wk_running w) ctx LSelecting)
  | Some (ctx, LSelecting), MTick => Some (set_loop w j (wk_running w) ctx LRunning)
  | Some (ctx, LSelecting), MSeeCancelled =>
      if default false (contexts !! ctx) then Some (set_loop w j false ctx LReturned) else None
  | Some (ctx, LSelecting), MSeeDone => if wk_closed w then Some (set_loop w j false ctx LReturned) else None
  | _, _ => None
  end.

(** [SParent]: the context given to [Start] is cancelled from outside. *)
Inductive label : Type :=
| SRegister | SStart | SCancel | SStopWorker (i : nat) | SParent | SLoop (i j : nat) (mv : move).
Definition mgr_step (l : label) (m : manager) : option manager :=
  if mg_panic m then None
  else match l with
  | SRegister => Some (Register m)
  | SStart => Some (Start m)
  | SCancel => Some (CancelContext m)
  | SStopWorker i => Some (StopWorker i m)
  | SParent => Some {| mg_workers := mg_workers m; mg_contexts := (fun _ => true) <$> mg_contexts m; mg_cancel := mg_cancel m; mg_panic := mg_panic m |}
  | SLoop i j mv =>
      match mg_workers m !! i with
      | Some w => (fun w' => with_workers m (<[i := w']> (mg_workers m))) <$> loop_step (mg_contexts m) w j mv
      | None => None
      end
  end.
Fixpoint mgr_run (ls : list label) (m : manager) : option manager :=
  match ls with [] => Some m | l :: rest => mgr_step l m ≫= mgr_run rest end.

(** ** Sessions (session_cleanup.go)

    [interval] is what PostgreSQL makes of a number of seconds given as a
    double; it is not negative for a duration that is not. *)
Class SecondsInterval := {
  interval : duration -> duration;
  interval_nonneg : forall d, (0 <= d)%Z -> (0 <= interval d)%Z;
}.

Record SessionCleanupWorker : Type := { sc_db : bool; sc_interval : duration; sc_expiredAfter : duration; sc_inactiveAfter : duration }.
Definition day : duration := (24 * hour)%Z.
Definition positive_or (d dflt : duration) : duration := if (d <=? 0)%Z then dflt else d.
Definition NewSessionCleanupWorker (hasDB : bool) (Interval ExpiredAfter InactiveAfter : duration) : SessionCleanupWorker :=
  {| sc_db := hasDB; sc_interval := if (Interval =? 0)%Z then hour else Interval;
     sc_expiredAfter := positive_or ExpiredAfter (7 * day); sc_inactiveAfter := positive_or InactiveAfter day |}.

Section cleanup.
Context `{SecondsInterval}.

Definition removable_session (c : SessionCleanupWorker) (dbnow : time) (row : session_row) : bool :=
  (row_expires row <? dbnow - interval (sc_expiredAfter c))%Z ||
  (negb (row_active row) && (row_updated row <? dbnow - interval (sc_inactiveAfter c))%Z).
Definition delete_orphans (db : session_db) : Z * session_db :=
  let kept := List.filter (fun q => bool_decide (is_Some (t_sessions db !! q.1))) (t_methods db) in
  (Z.of_nat (length (t_methods db) - length kept), {| t_sessions := t_sessions db; t_methods := kept |}).
Definition cleanup_sessions (c : SessionCleanupWorker) (dbnow : time) : M session_db worker_error unit :=
  exec (sc_db c) (fun db => Ok (Session.Manager.delete_sessions (removable_session c dbnow) db)) ≫= fun _ =>
  M_try (exec (sc_db c) (fun db => Ok (delete_orphans db))) (fun _ => mret tt).
End cleanup.

(** ** Flows and containers (flow_cleanup.go) *)

Record FlowCleanupWorker : Type := { fc_db : bool; fc_interval : duration; fc_expiredAfter : duration; fc_completedAfter : duration }.
Definition NewFlowCleanupWorker (hasDB : bool) (Interval ExpiredAfter CompletedAfter : duration) : FlowCleanupWorker :=
  {| fc_db := hasDB; fc_interval := if (Interval =? 0)%Z then (30 * minute)%Z else Interval;
     fc_expiredAfter := positive_or ExpiredAfter hour; fc_completedAfter := positive_or CompletedAfter day |}.

Section flow_cleanup.
Context `{FlowJson} `{SecondsInterval}.
(** The flows and the continuity containers. *)
Record flow_tables : Type := { ft_flows : flow_db; ft_containers : continuity_db }.
Definition put_flows (f : flow_db) (t : flow_tables) : flow_tables := {| ft_flows := f; ft_containers := ft_containers t |}.
Definition put_containers (c : continuity_db) (t : flow_tables) : flow_tables := {| ft_flows := ft_flows t; ft_containers := c |}.
Abbreviation TM := (M flow_tables worker_error).

Definition delete_flows (p : flow_row -> bool) (db : flow_db) : Z * flow_db :=
  let kept := filter (fun '(_, row) => p row = false) (t_flows db) in
  (Z.of_nat (size (t_flows db) - size kept), with_flows db kept).
Definition delete_containers (p : container_row -> bool) (db : continuity_db) : Z * continuity_db :=
  let kept := filter (fun '(_, row) => p row = false) (t_containers db) in
  (Z.of_nat (size (t_containers db) - size kept), with_containers db kept).

Definition removable_flow (c : FlowCleanupWorker) (dbnow : time) (row : flow_row) : bool :=
  (String.eqb (fr_state row) "active" && (fr_expires row <? dbnow - interval (fc_expiredAfter c))%Z) ||
  (existsb (String.eqb (fr_state row)) ["complete"; "failed"] && (fr_updated row <? dbnow - interval (fc_completedAfter c))%Z).
Definition cleanupFlows (c : FlowCleanupWorker) (dbnow : time) : TM Z :=
  zoom ft_flows put_flows (exec (fc_db c) (fun db => Ok (delete_flows (removable_flow c dbnow) db))).
Definition cleanupContinuityContainers (c : FlowCleanupWorker) (dbnow : time) : TM Z :=
  zoom ft_containers put_containers (exec (fc_db c) (fun db => Ok (delete_containers (fun row => (cr_expires row <? dbnow)%Z) db))).
(** Errors are logged; the clock of each statement is its own. *)
Definition cleanup_flows (c : FlowCleanupWorker) (dbnow1 dbnow2 : time) : TM unit :=
  M_try (cleanupFlows c dbnow1) (fun _ => M_try (cleanupContinuityContainers c dbnow2) (fun _ => mret tt)).

Definition CleanupOldFlows (c : FlowCleanupWorker) (olderThan : duration) (now : time) : TM Z :=
  zoom ft_flows put_flows (exec (fc_db c) (fun db => Ok (delete_flows (fun row => (fr_created row <? time_add now (- olderThan))%Z) db))).
Definition CleanupOldContainers (c : FlowCleanupWorker) (olderThan : duration) (now : time) : TM Z :=
  zoom ft_containers put_containers (exec (fc_db c) (fun db => Ok (delete_containers (fun row => (cr_created row <? time_add now (- olderThan))%Z) db))).
End flow_cleanup.

(** ** Events (event_processor.go) *)

Record EventProcessorWorker : Type := {
  ep_db : bool; ep_bus : option Bus; ep_subscriber : string; ep_interval : duration; ep_batchSize : Z; ep_maxRetries : Z; ep_retryDelay : duration;
}.
Definition nonzero_or (x dflt : Z) : Z := if (x =? 0)%Z then dflt else x.
Definition NewEventProcessorWorker (hasDB : bool) (bus : option Bus) (Subscriber : string) (Interval : duration) (BatchSize MaxRetries : Z)
    (RetryDelay : duration) : EventProcessorWorker :=
  {| ep_db := hasDB; ep_bus := bus; ep_subscriber := if String.eqb Subscriber "" then "default" else Subscriber;
     ep_interval := nonzero_or Interval (10 * second); ep_batchSize := nonzero_or BatchSize 100; ep_maxRetries := nonzero_or MaxRetries 3;
     ep_retryDelay := nonzero_or RetryDelay second |}.

Section events.
Context `{EventJson} (e : EventProcessorWorker).
Abbreviation EM := (M bus_db worker_error).

(** ORDER BY occurred_at LIMIT batchSize, over the join with the events. *)
Definition due_rows (dbnow : time) (db : bus_db) : list (N * delivery_row * event_row) :=
  take (Z.to_nat (ep_batchSize e))
    (fold_left (fun acc x => insert_by_occurred x acc)
       (omap (fun p => (fun ev => (p.1, p.2, ev)) <$> t_events db !! dr_event p.2)
          (List.filter (fun p => due (ep_subscriber e) dbnow p.2) (map_to_list (t_deliveries db)))) []).
Definition ep_markDelivered (id : uuid) (dbnow : time) : EM unit :=
  M_try (exec (ep_db e) (update_delivery id (fun row =>
    set_status row "delivered" (dr_attempts row) (dr_error row) (dr_next_retry row) (Some dbnow)))) (fun _ => mret tt).
Fixpoint mark_all (rows : list (N * delivery_row * event_row)) (dbnow : time) : EM unit :=
  match rows with
  | [] => mret tt
  | r :: rest => ep_markDelivered r.1.1 dbnow ≫= fun _ => mark_all rest dbnow
  end.
Definition processDirectly (dbnow dbnow' : time) : EM unit :=
  rows ← exec (ep_db e) (fun db => Ok (due_rows dbnow db, db));
  mark_all rows dbnow'.
Definition process (order : list string) (now : nat -> time) (dbnow dbnow' : time) : EM unit :=
  match ep_bus e with
  | None => processDirectly dbnow dbnow'
  | Some b => call WorkerBus (ProcessPending b order (ep_subscriber e) now dbnow) ≫= fun _ => mret tt
  end.
Definition CleanupOldEvents (olderThan : duration) (now : time) : EM Z :=
  exec (ep_db e) (fun db => delete_events (removable (time_add now (- olderThan)) db) db).
Definition count_deliveries (p : delivery_row -> bool) : EM Z :=
  exec (ep_db e) (fun db =>
    Ok (Z.of_nat (length (List.filter (fun r => String.eqb (dr_subscriber r.2) (ep_subscriber e) && p r.2) (map_to_list (t_deliveries db)))), db)).
Definition GetPendingCount : EM Z := count_deliveries open_delivery.
Definition GetDeadLetteredCount : EM Z := count_deliveries (fun row => String.eqb (dr_status row) "dead_lettered").
End events.
