(* ===== verification/WorkersFacts.v ===== *)
(** core/workers: what removals leave visible, and how workers end. *)

From Stdlib Require Import Ascii String.
From S2P Require Import Prelude GoStrings GoEncoding PlatformCrypto Session SessionFacts Flows FlowStore FlowService Continuity EventBus Workers.
Import Session.Manager.

Local Open Scope string_scope.

(** Splits on the variables the goal matches on. *)
Ltac on_variables := repeat match goal with |- context [match ?x with _ => _ end] => is_var x; destruct x end; done.

(** A reading statement with the same answer on two states runs the same. *)
Lemma db_stmt_same {S E A} `{DbErr E} (s : S -> result db_error (A * S)) x y a f :
  s x = Ok (a, x) -> s y = Ok (a, y) ->
  exists (r : result E A) f', db_stmt s (World x f) = (r, World x f') /\ db_stmt s (World y f) = (r, World y f') /\ forall b, r = Ok b -> b = a.
Proof.
  intros Hx Hy. unfold db_stmt. cbn [w_db w_faults]. rewrite Hx, Hy.
  destruct f as [|[e|] f]; eexists _, _; split_and!; try reflexivity; by intros b [= <-].
Qed.
(** A deletion that fails leaves the state, one that succeeds applies it. *)
Lemma removal_cases {S} hasDB (g : S -> Z * S) (w : world S) r w' :
  exec hasDB (fun db => Ok (g db)) w = (r, w') -> w_db w' = w_db w /\ is_ok r = false \/ w_db w' = (g (w_db w)).2.
Proof.
  unfold exec. destruct hasDB; [|intros [= <- <-]; by left].
  intros [(a & _ & [= Hg])|(e & -> & Hw)]%db_stmt_cases; [right; by rewrite Hg|by left].
Qed.

(** ** Sessions *)

Section sessions.
Context `{SecondsInterval}.

(** The sessions that [p] does not drop, with their methods. *)
Definition pruned (p : session_row -> bool) (db db' : session_db) : Prop :=
  (forall id row, t_sessions db' !! id = Some row <-> t_sessions db !! id = Some row /\ p row = false) /\
  (forall id, is_Some (t_sessions db' !! id) -> methods_of id (t_methods db') = methods_of id (t_methods db)).

Lemma methods_of_filter (q : N * SessionAuthMethod -> bool) ms id :
  (forall am, q (id, am) = true) -> methods_of id (List.filter q ms) = methods_of id ms.
Proof.
  intros Hq. unfold methods_of. induction ms as [|[i am] ms IH]; [done|]. cbn [List.filter fst].
  destruct (N.eqb_spec i id) as [->|Hne].
  - rewrite Hq. cbn [List.filter fst]. rewrite N.eqb_refl. cbn [map]. by rewrite IH.
  - destruct (q (i, am)); [|done]. cbn [List.filter fst]. by rewrite (proj2 (N.eqb_neq _ _) Hne).
Qed.

Lemma pruned_refl db : pruned (fun _ => false) db db.
Proof. split; [naive_solver|done]. Qed.
Lemma pruned_delete p db : pruned p db (delete_sessions p db).2.
Proof.
  split; cbn.
  - intros id row. by rewrite map_lookup_filter_Some.
  - intros id Hid. apply methods_of_filter. intros am. cbn. by apply bool_decide_eq_true.
Qed.
Lemma pruned_orphans p db db' : pruned p db db' -> pruned p db (delete_orphans db').2.
Proof.
  intros [Hs Hm]. split; [done|]. intros id Hid. cbn [delete_orphans t_methods snd]. rewrite methods_of_filter; [by apply Hm|].
  intros am. cbn. by apply bool_decide_eq_true.
Qed.

Lemma cleanup_sessions_prunes c dbnow w r w' :
  cleanup_sessions c dbnow w = (r, w') ->
  exists p, pruned p (w_db w) (w_db w') /\ forall row, p row = true -> removable_session c dbnow row = true.
Proof.
  unfold cleanup_sessions. rewrite M_bind_run. destruct (exec _ _ w) as [r1 w1] eqn:E1.
  assert (H1 : exists p, pruned p (w_db w) (w_db w1) /\ forall row, p row = true -> removable_session c dbnow row = true).
  { apply removal_cases in E1 as [[-> _]| ->]; [exists (fun _ => false); split; [apply pruned_refl|done]|].
    exists (removable_session c dbnow). split; [apply pruned_delete|done]. }
  destruct r1 as [n|e]; [|by intros [= <- <-]]. unfold M_try. destruct (exec _ _ w1) as [r2 w2] eqn:E2. intros [= <- <-].
  destruct H1 as (p & Hp & Hr). exists p. split; [|done]. apply removal_cases in E2 as [[-> _]| ->]; [done|by apply pruned_orphans].
Qed.

(** What [Get] found. *)
Lemma Get_select m token now1 now2 w s w' :
  Get m token now1 now2 w = (Ok s, w') ->
  exists id row, select_by_token (secrettoken.Hash token) (secrettoken.Prefix token sessionLookupPrefixLength) (w_db w) = Ok ((id, row), w_db w) /\
    (now1 <= row_expires row)%Z.
Proof.
  unfold Get. rewrite M_bind_ok. intros ([id row] & w1 & H1 & H2). unfold not_found, M_try in H1.
  destruct (stmt m _ w) as [r w2] eqn:E1. apply stmt_cases in E1 as [(p & -> & E1)|(e & -> & E1)]; [|by split_matches].
  unfold lift_result in H1. injection H1 as -> ->. exists id, row.
  destruct (select_by_token_ok _ _ _ _ _ _ E1) as (Hdb & _). rewrite Hdb in E1. split; [done|].
  unfold time_after in H2. by destruct (Z.ltb_spec (row_expires row) now1).
Qed.

(** Two states in which [Get] finds the same row with the same methods. *)
Lemma Get_same m token now1 now2 db db' id row f :
  let sel := select_by_token (secrettoken.Hash token) (secrettoken.Prefix token sessionLookupPrefixLength) in
  sel db = Ok ((id, row), db) -> sel db' = Ok ((id, row), db') -> methods_of id (t_methods db') = methods_of id (t_methods db) ->
  (Get m token now1 now2 (World db' f)).1 = (Get m token now1 now2 (World db f)).1.
Proof.
  cbv zeta. intros Hs Hs' Hm. unfold Get, not_found, M_try, stmt. rewrite !M_bind_run. destruct (m_db m); [|done].
  destruct (db_stmt_same (E := session_error) _ db db' _ f Hs Hs') as (r & f' & -> & -> & Hr). destruct r as [[i q]|e]; [|on_variables].
  pose proof (Hr _ eq_refl) as [= -> ->]. unfold lift_result. destruct (time_after now1 (row_expires row)); [done|]. destruct (_ && _); [done|].
  rewrite !M_bind_run. assert (Hsm : forall d, methods_of id (t_methods d) = methods_of id (t_methods db) ->
    select_methods id d = Ok (sort_by_completed (methods_of id (t_methods db)), d)) by (intros d Hd; unfold select_methods; by rewrite Hd).
  destruct (db_stmt_same (E := session_error) (select_methods id) db db' _ f' (Hsm _ eq_refl) (Hsm _ Hm)) as (r & f2 & -> & -> & _).
  by destruct r.
Qed.

(** C38: Cleaning up sessions is invisible: whatever failed during the clean-up,
    afterwards [Get] returns a session for a token exactly when it would have
    returned that session before, as long as the clock of the server is not
    behind the database's by more than the retention of expired sessions. *)
Theorem session_cleanup_is_invisible c dbnow w r w' m token now1 now2 f s :
  db_ok (w_db w) -> cleanup_sessions c dbnow w = (r, w') -> (dbnow - interval (sc_expiredAfter c) <= now1)%Z ->
  (Get m token now1 now2 (World (w_db w') f)).1 = Ok s <-> (Get m token now1 now2 (World (w_db w) f)).1 = Ok s.
Proof.
  intros Hok Hc Hclock. destruct (cleanup_sessions_prunes _ _ _ _ _ Hc) as (p & [Hs Hm] & Hp).
  assert (Huniq : forall id id' row row', t_sessions (w_db w) !! id = Some row -> t_sessions (w_db w) !! id' = Some row' ->
    token_match (secrettoken.Hash token) (secrettoken.Prefix token sessionLookupPrefixLength) row = true ->
    token_match (secrettoken.Hash token) (secrettoken.Prefix token sessionLookupPrefixLength) row' = true -> id' = id).
  { intros id id' row row' Hr Hr' Ht Ht'. unfold token_match in Ht, Ht'. bool_to_prop. eapply (ok_unique _ Hok); [done..|]. congruence. }
  assert (Hboth : forall id row, t_sessions (w_db w') !! id = Some row -> t_sessions (w_db w) !! id = Some row ->
    token_match (secrettoken.Hash token) (secrettoken.Prefix token sessionLookupPrefixLength) row = true ->
    (Get m token now1 now2 (World (w_db w') f)).1 = (Get m token now1 now2 (World (w_db w) f)).1).
  { intros id row Hr' Hr Ht. apply (Get_same m token now1 now2 _ _ id row); [..|by apply Hm];
      apply select_by_token_unique; try done; intros j q Hq Hqt; [|apply Hs in Hq as [Hq _]]; by eapply Huniq. }
  split; intros Hget.
  - destruct (Get m token now1 now2 (World (w_db w') f)) as [r1 w1] eqn:E. cbn in Hget. subst r1.
    destruct (Get_select _ _ _ _ _ _ _ E) as (id & row & Hsel & _). apply select_by_token_ok in Hsel as (_ & Hr & Ht).
    rewrite <- (Hboth id row); [done|done|by apply Hs in Hr as [? _]|done].
  - destruct (Get m token now1 now2 (World (w_db w) f)) as [r1 w1] eqn:E. cbn in Hget. subst r1.
    destruct (Get_select _ _ _ _ _ _ _ E) as (id & row & Hsel & Hexp). apply select_by_token_ok in Hsel as (_ & Hr & Ht).
    rewrite (Hboth id row); [done| |done|done]. apply Hs. split; [done|]. destruct (p row) eqn:Ep; [|done]. exfalso.
    apply Hp in Ep. unfold removable_session in Ep. unfold token_match in Ht. bool_to_prop. destruct (row_active row); [|done].
    cbn in Ep. rewrite orb_false_r in Ep. apply Z.ltb_lt in Ep. lia.
Qed.
End sessions.

(** ** Flows and containers *)

Section flows.
Context `{FlowJson} `{SecondsInterval} (schema : flow_schema).
#[local] Instance store : FlowStore flow_db := PostgresFlowStore schema.

(** The states the service writes. *)
Definition service_states (db : flow_db) : Prop :=
  forall id row, t_flows db !! id = Some row -> fr_state row ∈ [StateActive; StateCompleted; StateFailed; StateExpired].

Lemma cleanup_flows_prunes c dbnow1 dbnow2 w r w' :
  cleanup_flows c dbnow1 dbnow2 w = (r, w') ->
  (forall id row, t_flows (ft_flows (w_db w')) !! id = Some row -> t_flows (ft_flows (w_db w)) !! id = Some row) /\
  (forall id row, t_flows (ft_flows (w_db w)) !! id = Some row -> removable_flow c dbnow1 row = false ->
     t_flows (ft_flows (w_db w')) !! id = Some row) /\
  (forall id row, t_containers (ft_containers (w_db w')) !! id = Some row -> t_containers (ft_containers (w_db w)) !! id = Some row) /\
  (forall id row, t_containers (ft_containers (w_db w)) !! id = Some row -> (dbnow2 <= cr_expires row)%Z ->
     t_containers (ft_containers (w_db w')) !! id = Some row).
Proof.
  unfold cleanup_flows, M_try. destruct (cleanupFlows c dbnow1 w) as [r1 w1] eqn:E1. destruct (cleanupContinuityContainers c dbnow2 w1) as [r2 w2] eqn:E2.
  intros [= <- <-]. unfold cleanupFlows in E1. unfold cleanupContinuityContainers in E2.
  apply zoom_run in E1 as (x1 & E1 & Hw1). apply zoom_run in E2 as (x2 & E2 & Hw2). apply removal_cases in E1, E2. cbn [w_db] in E1, E2.
  rewrite Hw2, Hw1. cbn [put_containers put_flows ft_flows ft_containers]. rewrite Hw1 in E2. cbn [put_flows ft_containers] in E2.
  split_and!.
  - intros id row. destruct E1 as [[-> _]| ->]; [done|]. by intros [? _]%map_lookup_filter_Some.
  - intros id row Hr Hp. destruct E1 as [[-> _]| ->]; [done|]. by apply map_lookup_filter_Some.
  - intros id row. destruct E2 as [[-> _]| ->]; [done|]. by intros [? _]%map_lookup_filter_Some.
  - intros id row Hr Hp. destruct E2 as [[-> _]| ->]; [done|]. apply map_lookup_filter_Some. split; [done|]. by apply Z.ltb_ge.
Qed.

Lemma GetFlow_same id now now' db db' row f :
  t_flows db !! id = Some row -> t_flows db' !! id = Some row ->
  (GetFlow id now now' (World db' f)).1 = (GetFlow id now now' (World db f)).1.
Proof.
  intros Hr Hr'. assert (Hsel : forall d, t_flows d !! id = Some row -> select_flow id d = Ok ((id, row), d)) by (intros d Hd; unfold select_flow; by rewrite Hd).
  unfold GetFlow. cbn [fs_Get store PostgresFlowStore]. rewrite !M_bind_run. unfold FlowStore.Get, FlowStore.no_rows, M_try. rewrite !M_bind_run.
  destruct (db_stmt_same (E := flow_error) (select_flow id) db db' _ f (Hsel _ Hr) (Hsel _ Hr')) as (r & f' & -> & -> & Hok).
  destruct r as [[i q]|e].
  - unfold lift_result. destruct (decode_row i q) as [fl|e]; [|done]. unfold checked. by destruct (checkFlowState fl now now') as [[[]|] ?].
  - on_variables.
Qed.
Lemma GetFlow_live id now now' (w : world flow_db) fl w' :
  GetFlow id now now' w = (Ok fl, w') ->
  exists row, t_flows (w_db w) !! id = Some row /\ (now <= fr_expires row)%Z /\ fr_state row <> StateFailed.
Proof.
  unfold GetFlow. cbn [fs_Get store PostgresFlowStore]. rewrite M_bind_ok. intros (g & w1 & Hg & Hc).
  unfold FlowStore.Get in Hg. rewrite M_bind_ok in Hg. destruct Hg as ([i row] & w2 & Hn & Hd). unfold FlowStore.no_rows, M_try in Hn.
  destruct (db_stmt _ w) as [r w3] eqn:E. apply db_stmt_cases in E as [(a & -> & E)|(e & -> & E)]; [|by split_matches].
  injection Hn as -> ->. unfold select_flow in E. destruct (t_flows (w_db w) !! id) as [q|] eqn:Eq; [|done]. injection E as <- -> _.
  exists row. split; [done|]. unfold lift_result, decode_row in Hd.
  destruct (ui_Unmarshal (fr_ui row)) as [ui|]; [|done]. destruct (ctx_Unmarshal (fr_context row)) as [ctx|]; [|done]. injection Hd as <- <-.
  unfold checked in Hc. destruct (checkFlowState _ now now') as [[[]|e] g'] eqn:Ec; [|done]. apply checkFlowState_ok in Ec as (_ & He & Ht).
  cbn in He, Ht. split.
  - unfold IsExpired, time_after in He. cbn in He. by apply Z.ltb_ge.
  - intros Hf. cbn in Ht. by rewrite Hf in Ht.
Qed.

Lemma Retrieve_same id now db db' row f :
  t_containers db !! id = Some row -> t_containers db' !! id = Some row ->
  (Retrieve id now (World db' f)).1 = (Retrieve id now (World db f)).1.
Proof.
  intros Hr Hr'. assert (Hsel : forall d, t_containers d !! id = Some row -> select_container id d = Ok (row, d)) by (intros d Hd; unfold select_container; by rewrite Hd).
  unfold Retrieve, cc_no_rows, M_try. rewrite !M_bind_run.
  destruct (db_stmt_same (E := continuity_error) (select_container id) db db' _ f (Hsel _ Hr) (Hsel _ Hr')) as (r & f' & -> & -> & Hok).
  destruct r as [q|e].
  - unfold lift_result. rewrite !M_bind_run. unfold payload_result, lift_result, result_of_option. destruct (ctx_Unmarshal _); [|done].
    by destruct (cc_IsExpired _ _).
  - on_variables.
Qed.
Lemma Retrieve_live id now (w : world continuity_db) cc w' :
  Retrieve id now w = (Ok cc, w') -> exists row, t_containers (w_db w) !! id = Some row /\ (now <= cr_expires row)%Z.
Proof.
  unfold Retrieve. rewrite M_bind_ok. intros (row & w1 & Hn & Hd). unfold cc_no_rows, M_try in Hn.
  destruct (db_stmt _ w) as [r w3] eqn:E. apply db_stmt_cases in E as [(a & -> & E)|(e & -> & E)]; [|by split_matches].
  injection Hn as -> ->. unfold select_container in E. destruct (t_containers (w_db w) !! id) as [q|] eqn:Eq; [|done]. injection E as <- _.
  exists q. split; [done|]. rewrite M_bind_ok in Hd. destruct Hd as (p & w4 & _ & Hd). unfold cc_IsExpired, time_after in Hd. cbn in Hd.
  by destruct (Z.ltb_spec (cr_expires q) now).
Qed.

(** Cleaning up flows and containers is invisible: whatever failed during
    the clean-up, afterwards a flow is returned for use, or a container
    retrieved, exactly when it would have been before; for flows the clock of
    the server may be behind the database's by the retention of expired flows,
    for containers not at all. *)
Theorem flow_cleanup_is_invisible c dbnow1 dbnow2 w r w' f :
  service_states (ft_flows (w_db w)) -> cleanup_flows c dbnow1 dbnow2 w = (r, w') ->
  (forall id now now' fl, (dbnow1 - interval (fc_expiredAfter c) <= now)%Z ->
     (GetFlow id now now' (World (ft_flows (w_db w')) f)).1 = Ok fl <-> (GetFlow id now now' (World (ft_flows (w_db w)) f)).1 = Ok fl) /\
  (forall id now cc, (dbnow2 <= now)%Z ->
     (Retrieve id now (World (ft_containers (w_db w')) f)).1 = Ok cc <-> (Retrieve id now (World (ft_containers (w_db w)) f)).1 = Ok cc).
Proof.
  intros Hst Hc. destruct (cleanup_flows_prunes _ _ _ _ _ _ Hc) as (Hf & Hf' & Hk & Hk'). split.
  - intros id now now' fl Hclock. split; intros Hget.
    + destruct (GetFlow id now now' (World (ft_flows (w_db w')) f)) as [r1 w1] eqn:E. cbn in Hget. subst r1.
      destruct (GetFlow_live _ _ _ _ _ _ E) as (row & Hr & _). cbn [w_db] in Hr. rewrite <- (GetFlow_same id now now' _ _ row f (Hf _ _ Hr) Hr). by rewrite E.
    + destruct (GetFlow id now now' (World (ft_flows (w_db w)) f)) as [r1 w1] eqn:E. cbn in Hget. subst r1.
      destruct (GetFlow_live _ _ _ _ _ _ E) as (row & Hr & Hexp & Hnf). cbn [w_db] in Hr. rewrite (GetFlow_same id now now' _ _ row f Hr); [by rewrite E|].
      apply Hf'; [done|]. unfold removable_flow. apply orb_false_iff. split.
      * apply andb_false_iff. right. apply Z.ltb_ge. lia.
      * apply andb_false_iff. left. specialize (Hst _ _ Hr). cbn. rewrite orb_false_r. apply orb_false_iff. rewrite !String.eqb_neq.
        split; [|done]. intros Hcomp. rewrite Hcomp in Hst. set_unfold in Hst. naive_solver.
  - intros id now cc Hclock. split; intros Hget.
    + destruct (Retrieve id now (World (ft_containers (w_db w')) f)) as [r1 w1] eqn:E. cbn in Hget. subst r1.
      destruct (Retrieve_live _ _ _ _ _ E) as (row & Hr & _). cbn [w_db] in Hr. rewrite <- (Retrieve_same id now _ _ row f (Hk _ _ Hr) Hr). by rewrite E.
    + destruct (Retrieve id now (World (ft_containers (w_db w)) f)) as [r1 w1] eqn:E. cbn in Hget. subst r1.
      destruct (Retrieve_live _ _ _ _ _ E) as (row & Hr & Hexp). cbn [w_db] in Hr. rewrite (Retrieve_same id now _ _ row f Hr); [by rewrite E|].
      apply Hk'; [done|lia].
Qed.

(** Completed flows are never removed: the statement names another state. *)
Lemma completed_flows_stay c dbnow1 dbnow2 w id row :
  t_flows (ft_flows (w_db w)) !! id = Some row -> fr_state row = StateCompleted ->
  t_flows (ft_flows (w_db (cleanup_flows c dbnow1 dbnow2 w).2)) !! id = Some row.
Proof.
  intros Hr Hs. destruct (cleanup_flows c dbnow1 dbnow2 w) as [r w'] eqn:E. apply cleanup_flows_prunes in E as (_ & Hk & _).
  apply Hk; [done|]. unfold removable_flow. by rewrite Hs.
Qed.
End flows.

(** ** The manager *)

Local Open Scope list_scope.

(** A worker on which at most [k] loops were started, where [k] is at most
    one: it runs or was stopped only after its loop began, and is not both. *)
Record worker_ok (k : nat) (w : worker) : Prop := {
  w_one : length (wk_loops w) <= k;
  w_ctx : Forall (fun p => p.1 < k) (wk_loops w);
  w_begun : wk_running w = true \/ wk_closed w = true -> wk_loops w <> [] /\ Forall (fun p => p.2 <> LFresh) (wk_loops w);
  w_stopped : wk_closed w = true -> wk_running w = false;
}.
Record manager_ok (k : nat) (m : manager) : Prop := {
  m_calm : mg_panic m = false;
  m_contexts : length (mg_contexts m) = k;
  m_cancel_of : mg_cancel m = match k with O => None | S i => Some i end;
  m_workers : Forall (worker_ok k) (mg_workers m);
}.
Definition starts (ls : list label) : nat := length (List.filter (fun l => match l with SStart => true | _ => false end) ls).

Lemma worker_ok_new k : worker_ok k NewBaseWorker.
Proof. split; cbn; [lia|constructor|by intros []|done]. Qed.
Lemma worker_ok_launch w : worker_ok 0 w -> worker_ok 1 (launch 0 w).
Proof.
  intros [Hone _ Hb _]. destruct (wk_loops w) eqn:El; [|cbn in Hone; lia].
  assert (Hr : wk_running w = false) by (destruct (wk_running w); [destruct Hb; [by left|done]|done]).
  assert (Hc : wk_closed w = false) by (destruct (wk_closed w); [destruct Hb; [by right|done]|done]).
  unfold launch. rewrite El. split; cbn; [lia|by repeat constructor|rewrite Hr, Hc; by intros []|by rewrite Hc].
Qed.
Lemma worker_ok_stop k w : worker_ok k w -> wk_running w = true ->
  wk_closed w = false /\ worker_ok k {| wk_running := false; wk_closed := true; wk_loops := wk_loops w |}.
Proof.
  intros [Hone Hctx Hb Hs] Hr. split; [destruct (wk_closed w); [|done]; rewrite Hs in Hr; done|].
  split; cbn; [done|done| |done]. intros _. apply Hb. by left.
Qed.
Lemma loop_step_ok cs k w j mv w' : k <= 1 -> worker_ok k w -> loop_step cs w j mv = Some w' -> worker_ok k w'.
Proof.
  intros Hk [Hone Hctx Hb Hs] Hst. unfold loop_step in Hst.
  destruct (wk_loops w) as [|[c l] [|? ?]] eqn:El; [|destruct j|cbn in Hone; lia]; try done.
  apply Forall_cons in Hctx as [Hctx _]. cbn in Hone, Hctx.
  assert (Hset : forall b l', (b = true \/ wk_closed w = true -> l' <> LFresh) -> (wk_closed w = true -> b = false) -> worker_ok k (set_loop w 0 b c l')).
  { intros b l' Hl Hcl. unfold set_loop. rewrite El. split; cbn; [lia|by repeat constructor| |done].
    intros Hrun. split; [done|]. repeat constructor. by apply Hl. }
  assert (Hnf : wk_running w = true \/ wk_closed w = true -> l <> LFresh).
  { intros Hrun. apply Hb in Hrun as [_ Hf]. by apply Forall_cons in Hf as [Hf _]. }
  destruct l, mv; cbn in Hst; try done; repeat (case_match; try done); injection Hst as <-; apply Hset; try done.
  intros Hcl. destruct Hnf; [by right|done].
Qed.

Lemma mgr_step_ok l k m m' : mgr_step l m = Some m' -> manager_ok k m -> k + starts [l] <= 1 -> manager_ok (k + starts [l]) m'.
Proof.
  intros Hst [Hp Hc Hcan Hw] Hk. unfold mgr_step in Hst. rewrite Hp in Hst.
  destruct l as [| | |i| |i j mv]; cbn [starts List.filter length] in *; rewrite ?Nat.add_0_r in *.
  - injection Hst as <-. split; cbn; try done. apply Forall_app. split; [done|]. constructor; [apply worker_ok_new|constructor].
  - assert (k = 0) as -> by lia. injection Hst as <-. unfold Start. rewrite Hc. split; cbn; [done|rewrite length_app; cbn; lia|done|].
    apply Forall_fmap. eapply Forall_impl; [exact Hw|]. apply worker_ok_launch.
  - injection Hst as <-. unfold CancelContext. destruct (mg_cancel m) eqn:E; split; cbn; try done; [by rewrite length_insert|by rewrite E].
  - injection Hst as <-. unfold StopWorker. destruct (mg_workers m !! i) as [w|] eqn:Ew; [|done].
    destruct (wk_running w) eqn:Er; [|done].
    destruct (worker_ok_stop k w) as [-> Hok]; [by eapply Forall_lookup_1|done|]. split; cbn; try done. by apply Forall_insert.
  - injection Hst as <-. split; cbn; try done. by rewrite length_fmap.
  - destruct (mg_workers m !! i) as [w|] eqn:Ew; [|done]. apply fmap_Some in Hst as (w' & Hl & ->). split; cbn; try done.
    apply Forall_insert; [done|]. eapply loop_step_ok; [exact Hk|by eapply Forall_lookup_1|done].
Qed.

Lemma mgr_run_ok ls : forall k m m', mgr_run ls m = Some m' -> manager_ok k m -> k + starts ls <= 1 -> manager_ok (k + starts ls) m'.
Proof.
  induction ls as [|l ls IH]; intros k m m' Hr Hok Hk; cbn [mgr_run] in Hr.
  - injection Hr as <-. cbn. by rewrite Nat.add_0_r.
  - destruct (mgr_step l m) as [m1|] eqn:E; [|done]. cbn in Hr.
    assert (Hs : starts (l :: ls) = starts [l] + starts ls) by (unfold starts; cbn; by destruct l).
    rewrite Hs in *. rewrite Nat.add_assoc. eapply IH; [done| |lia]. eapply mgr_step_ok; [done..|lia].
Qed.

(** How a loop ends once its context is cancelled. *)
Definition ending (l : loop_at) : list move :=
  match l with
  | LFresh => [MBegin; MFinish; MSeeCancelled]
  | LRunning => [MFinish; MSeeCancelled]
  | LSelecting => [MSeeCancelled]
  | LReturned => []
  end.
Fixpoint loop_run (cs : list bool) (w : worker) (j : nat) (mvs : list move) : option worker :=
  match mvs with [] => Some w | mv :: rest => loop_step cs w j mv ≫= fun w' => loop_run cs w' j rest end.
Definition returned (w : worker) : Prop := Forall (fun p => p.2 = LReturned) (wk_loops w).

Lemma mgr_run_loop i j mvs : forall m w w', mg_panic m = false -> mg_workers m !! i = Some w -> loop_run (mg_contexts m) w j mvs = Some w' ->
  mgr_run (SLoop i j <$> mvs) m = Some (with_workers m (<[i := w']> (mg_workers m))).
Proof.
  induction mvs as [|mv mvs IH]; intros m w w' Hp Hw Hr; cbn [loop_run] in Hr.
  - injection Hr as <-. cbn. rewrite list_insert_id by done. by destruct m.
  - destruct (loop_step _ w j mv) as [w1|] eqn:E; [|done]. cbn in Hr. cbn [fmap list_fmap mgr_run]. unfold mgr_step at 1.
    rewrite Hp, Hw, E. cbn [fmap option_fmap option_map mbind option_bind].
    rewrite (IH (with_workers m (<[i:=w1]> (mg_workers m))) w1 w'); [|done| |done].
    + unfold with_workers. cbn. by rewrite list_insert_insert_eq.
    + cbn. apply list_lookup_insert_eq. by eapply lookup_lt_Some.
Qed.
Lemma worker_ends cs w : worker_ok 1 w -> cs = [true] ->
  exists mvs w', length mvs <= 3 /\ loop_run cs w 0 mvs = Some w' /\ returned w' /\ length (wk_loops w') = length (wk_loops w).
Proof.
  intros [Hone Hctx _ _] ->. unfold returned. destruct w as [run cl loops]. cbn [wk_loops] in *.
  destruct loops as [|[c l] [|? ?]]; [|apply Forall_cons in Hctx as [Hctx _]; cbn in Hctx|cbn in Hone; lia].
  { exists [], {| wk_running := run; wk_closed := cl; wk_loops := [] |}. split_and!; [cbn; lia|done|constructor|done]. }
  assert (c = 0) as -> by lia. exists (ending l). destruct l; eexists; (split; [cbn; lia|split; [reflexivity|split; [by repeat constructor|done]]]).
Qed.

(** Every loop of the workers from [i] on ends. *)
Lemma workers_end ws : forall pre m, mg_workers m = pre ++ ws -> mg_panic m = false -> mg_contexts m = [true] -> Forall (worker_ok 1) ws ->
  exists ls m', length ls <= 3 * length ws /\ mgr_run ls m = Some m' /\ exists ws', mg_workers m' = pre ++ ws' /\ Forall returned ws'.
Proof.
  induction ws as [|w ws IH]; intros pre m Hm Hp Hc Hok.
  - exists [], m. split; [done|]. split; [done|]. by exists [].
  - apply Forall_cons in Hok as [Hw Hws]. destruct (worker_ends (mg_contexts m) w Hw Hc) as (mvs & w' & Hlen & Hrun & Hret & _).
    assert (Hi : mg_workers m !! length pre = Some w) by (rewrite Hm, lookup_app_r, Nat.sub_diag by lia; done).
    pose proof (mgr_run_loop (length pre) 0 mvs m w w' Hp Hi Hrun) as Hfirst.
    destruct (IH (pre ++ [w']) (with_workers m (<[length pre := w']> (mg_workers m)))) as (ls & m' & Hl & Hr & ws' & Hws' & Hall); [|done..|].
    { cbn. rewrite Hm, insert_app_r_alt, Nat.sub_diag, <- app_assoc by lia. done. }
    exists ((SLoop (length pre) 0 <$> mvs) ++ ls), m'. split_and!.
    + rewrite length_app, length_fmap. cbn [length]. lia.
    + assert (Happ : forall a b x y, mgr_run a x = Some y -> mgr_run (a ++ b) x = mgr_run b y).
      { intros a. induction a as [|t a IHa]; intros b x y; cbn; [by intros [= <-]|]. destruct (mgr_step t x); cbn; [apply IHa|done]. }
      by rewrite (Happ _ _ _ _ Hfirst).
    + exists (w' :: ws'). rewrite Hws', <- app_assoc. split; [done|]. by constructor.
Qed.

(** C39: Stopping workers is safe and enough: when the manager is started at most
    once, however its loops, registrations and any number of calls of [Stop]
    interleave, no channel is closed twice; and from any point after the
    context was cancelled every loop can end within three steps of its own,
    finishing only the call it is in. *)
Theorem stopping_workers_ends_their_loops ls m :
  mgr_run ls Workers.NewManager = Some m -> starts ls <= 1 ->
  mg_panic m = false /\
  exists more m', mgr_run more (CancelContext m) = Some m' /\ length more <= 3 * length (mg_workers m) /\ Forall returned (mg_workers m').
Proof.
  intros Hr Hs. assert (Hok : manager_ok (starts ls) m).
  { apply (mgr_run_ok ls 0 Workers.NewManager m Hr); [|done]. by split; try done; constructor. }
  destruct Hok as [Hp Hc Hcan Hw]. split; [done|]. unfold CancelContext. rewrite Hcan. destruct (starts ls) as [|[|?]] eqn:E; [| |lia].
  - exists [], m. split_and!; [done|cbn; lia|]. eapply Forall_impl; [exact Hw|]. intros w [Hone _ _ _]. unfold returned.
    destruct (wk_loops w); [constructor|cbn in Hone; lia].
  - destruct (mg_contexts m) as [|b [|? ?]] eqn:Ec; cbn in Hc; try lia.
    destruct (workers_end (mg_workers m) [] {| mg_workers := mg_workers m; mg_contexts := <[0 := true]> [b]; mg_cancel := Some 0; mg_panic := mg_panic m |})
      as (more & m' & Hl & Hrun & ws' & Hws' & Hall); [done..|].
    exists more, m'. rewrite Hws'. by split_and!.
Qed.

(** ** The direct delivery of events *)

Lemma mark_all_run `{EventJson} e rows dbnow db : ep_db e = true ->
  exists db', mark_all e rows dbnow (World db []) = (Ok tt, World db' []) /\ t_events db' = t_events db /\
    forall id, t_deliveries db' !! id =
      if bool_decide (id ∈ (fun r => r.1.1) <$> rows)
      then (fun row => set_status row "delivered" (dr_attempts row) (dr_error row) (dr_next_retry row) (Some dbnow)) <$> t_deliveries db !! id
      else t_deliveries db !! id.
Proof.
  intros Hdb. revert db. induction rows as [|r rows IH]; intros db.
  { exists db. split_and!; [done..|]. intros id. by rewrite bool_decide_eq_false_2 by (cbn; apply not_elem_of_nil). }
  set (g := fun row : delivery_row => set_status row "delivered" (dr_attempts row) (dr_error row) (dr_next_retry row) (Some dbnow)) in *.
  destruct (IH (with_deliveries db (alter g r.1.1 (t_deliveries db)))) as (db' & Hrun & Hev & Hd).
  exists db'. split_and!; [|done|].
  - cbn [mark_all]. rewrite M_bind_run. unfold ep_markDelivered, M_try, exec. rewrite Hdb. cbn -[alter]. exact Hrun.
  - intros id. rewrite Hd. cbn [t_deliveries with_deliveries fmap list_fmap].
    destruct (decide (id = r.1.1)) as [->|Hne].
    + rewrite lookup_alter_eq. rewrite (bool_decide_eq_true_2 (r.1.1 ∈ r.1.1 :: _)) by (by left).
      destruct (bool_decide _); [|done]. destruct (t_deliveries db !! r.1.1); done.
    + rewrite lookup_alter_ne by done. rewrite (bool_decide_ext (id ∈ r.1.1 :: _) (id ∈ (fun r => r.1.1) <$> rows)); [done|].
      rewrite elem_of_cons. naive_solver.
Qed.

(** Without the bus and while the database works, exactly the deliveries of the
    batch are marked as delivered, although no handler saw their events. *)
Lemma direct_processing_drops_events `{EventJson} e dbnow dbnow' db : ep_db e = true -> ep_bus e = None ->
  exists db', process e [] (fun _ => dbnow) dbnow dbnow' (World db []) = (Ok tt, World db' []) /\ t_events db' = t_events db /\
    forall id, t_deliveries db' !! id =
      if bool_decide (id ∈ (fun r => r.1.1) <$> due_rows e dbnow db)
      then (fun row => set_status row "delivered" (dr_attempts row) (dr_error row) (dr_next_retry row) (Some dbnow')) <$> t_deliveries db !! id
      else t_deliveries db !! id.
Proof.
  intros Hdb Hb. unfold process, processDirectly, exec. rewrite Hb, Hdb, M_bind_run. cbn -[due_rows mark_all]. by apply mark_all_run.
Qed.

(** ** Concrete runs *)

Module WorkersWitness.
#[local] Instance exact_interval : SecondsInterval := {| interval d := d; interval_nonneg := fun d Hd => Hd |}.

(** A worker registered, started, stopped while it runs, and stopped again. *)
Definition run1 : list label :=
  [SRegister; SStart; SLoop 0 0 MBegin; SCancel; SStopWorker 0; SStopWorker 0; SLoop 0 0 MFinish].
Definition after1 : manager := default Workers.NewManager (mgr_run run1 Workers.NewManager).
Lemma stopping_workers_ends_their_loops_witness :
  mg_panic after1 = false /\
  exists more m', mgr_run more (CancelContext after1) = Some m' /\ length more <= 3 * length (mg_workers after1) /\ Forall returned (mg_workers m').
Proof.
  apply (stopping_workers_ends_their_loops run1 after1); vm_compute; [reflexivity|lia].
Defined.

(** A manager that is started again panics when it is stopped again. *)
Lemma restarted_manager_panics :
  mg_panic <$> mgr_run (run1 ++ [SLoop 0 0 MSeeDone; SStart; SLoop 0 1 MBegin; SCancel; SStopWorker 0]) Workers.NewManager = Some true.
Proof. by vm_compute. Qed.

(** The first of two sessions is revoked and removed; the second is still there. *)
Definition worker0 : SessionCleanupWorker := {| sc_db := true; sc_interval := hour; sc_expiredAfter := hour; sc_inactiveAfter := 1 |}.
Definition dirty : world session_db := mexec mgr [MRevoke 1 2] two_sessions.
Definition clean : result worker_error unit * world session_db := cleanup_sessions worker0 10 dirty.
Definition kept : result session_error Session := (Get mgr (b64url_Encode "c") 12 12 (World (w_db dirty) [])).1.
Definition kept_session : option Session := match kept with Ok s => Some s | Err _ => None end.
Lemma session_cleanup_is_invisible_witness :
  exists s, kept_session = Some s /\ t_sessions (w_db clean.2) !! 1%N = None /\
    (Get mgr (b64url_Encode "c") 12 12 (World (w_db clean.2) [])).1 = Ok s.
Proof.
  destruct kept_session as [s|] eqn:E; [|vm_compute in E; discriminate].
  exists s. split; [reflexivity|]. split; [vm_compute; reflexivity|].
  refine (proj2 (session_cleanup_is_invisible worker0 10 dirty clean.1 clean.2 mgr (b64url_Encode "c") 12 12 [] s _ _ _) _).
  - unfold dirty. apply mexec_ok. unfold two_sessions. apply mexec_ok. exact empty_db_ok.
  - unfold clean. by destruct (cleanup_sessions worker0 10 dirty).
  - vm_compute. discriminate.
  - unfold kept_session in E. fold kept. destruct kept; [|discriminate]. by injection E as ->.
Defined.

(** An active flow that expired long ago and a failed one go; a running one stays. *)
#[local] Existing Instance FlowService.Witness.plain_json.
Definition flow_at (state : FlowState) (expires : time) : flow_row :=
  {| fr_type := "login"; fr_state := state; fr_identity := None; fr_session := None; fr_request_url := "/"; fr_return_to := "";
     fr_ui := inl None; fr_context := inr ∅; fr_issued := 0; fr_expires := expires; fr_csrf := "t"; fr_created := 0; fr_updated := 0 |}.
Definition tables : flow_tables :=
  {| ft_flows := {| t_flows := {[ 1%N := flow_at "active" 5; 2%N := flow_at "failed" 99; 3%N := flow_at "active" 99 ]};
                    t_identity_ids := ∅; t_session_ids := ∅ |};
     ft_containers := {| t_containers := {[ 1%N := {| cr_name := "c"; cr_identity := None; cr_session := None; cr_payload := inr ∅; cr_expires := 5; cr_created := 0 |} ]};
                         c_identity_ids := ∅; c_session_ids := ∅ |} |}.
Definition fworker : FlowCleanupWorker := {| fc_db := true; fc_interval := hour; fc_expiredAfter := 10; fc_completedAfter := 10 |}.
Definition swept : result worker_error unit * world flow_tables := cleanup_flows fworker 20 21 (World tables []).
Lemma tables_ok : service_states (ft_flows tables).
Proof.
  intros id row Hr. cbn in Hr. rewrite !lookup_insert_Some, lookup_singleton_Some in Hr.
  destruct Hr as [[_ <-]|[_ [[_ <-]|[_ [_ <-]]]]]; cbn; set_solver.
Qed.
Lemma flow_cleanup_is_invisible_witness :
  size (t_flows (ft_flows (w_db swept.2))) = 1 /\ size (t_containers (ft_containers (w_db swept.2))) = 0 /\
  exists fl, (GetFlow (H := PostgresFlowStore shipped_schema) 3%N 22 22 (World (ft_flows (w_db swept.2)) [])).1 = Ok fl.
Proof.
  split; [vm_compute; reflexivity|]. split; [vm_compute; reflexivity|]. eexists.
  refine (proj2 (proj1 (flow_cleanup_is_invisible shipped_schema fworker 20 21 (World tables []) swept.1 swept.2 [] tables_ok _) 3%N 22%Z 22%Z _ _) _).
  - unfold swept. by destruct (cleanup_flows fworker 20 21 (World tables [])).
  - vm_compute. discriminate.
  - vm_compute. reflexivity.
Defined.
End WorkersWitness.
