(* ===== verification/Passkeys.v ===== *)
(** modules/passkeys: registration and authentication with signed challenges.

    - store/store.go and store/postgres.go: challenges and credentials behind
      one interface ([ChallengeStore]), in memory and in PostgreSQL;
    - service/service.go;
    - handler/handler.go, and of cmd/server/main.go the guard in front of it,
      which binds a request to the identity of its signed headers.

    PEM and key decoding and ECDSA verification are parameters.  The service's
    configuration is given as [New] leaves it. *)

From Stdlib Require Import Ascii String.
From S2P Require Import Prelude GoStrings GoEncoding GoSha256 PlatformCrypto CryptoFields GoHttp SignedHeaders.

Local Open Scope string_scope.

Inductive store_error : Type :=
| ErrCredentialNotFound
| ErrCredentialExists
| ErrChallengeNotFound
| ErrChallengeExpired
| ErrStoreSignCountReplay
| PkDb (e : db_error).
#[global] Instance pk_db_err : DbErr store_error := PkDb.

Record Credential : Type := { cr_ID : string; cr_IdentityID : string; cr_PublicKey : string; cr_SignCount : Z; cr_CreatedAt : time }.
Record Challenge : Type := { ch_ID : string; ch_IdentityID : string; ch_Purpose : string; ch_ExpiresAt : time }.
Definition with_count (c : Credential) (n : Z) : Credential :=
  {| cr_ID := cr_ID c; cr_IdentityID := cr_IdentityID c; cr_PublicKey := cr_PublicKey c; cr_SignCount := n; cr_CreatedAt := cr_CreatedAt c |}.

(** The interface of the service. *)
Class ChallengeStore (S : Type) := {
  SaveChallenge : Challenge -> M S store_error unit;
  ConsumeChallenge : string -> time -> M S store_error Challenge;
  CreateCredential : Credential -> M S store_error unit;
  GetCredential : string -> M S store_error Credential;
  ListCredentialsByIdentity : string -> M S store_error (list Credential);
  UpdateCredentialSignCount : string -> Z -> M S store_error unit;
}.

(** The tables of both stores. *)
Record pk_db : Type := { t_credentials : gmap string Credential; t_challenges : gmap string Challenge }.
Definition put_challenges (c : gmap string Challenge) (db : pk_db) : pk_db := {| t_credentials := t_credentials db; t_challenges := c |}.
Definition put_credentials (c : gmap string Credential) (db : pk_db) : pk_db := {| t_credentials := c; t_challenges := t_challenges db |}.
Abbreviation PM := (M pk_db store_error).

(** ** In memory (store.go)

    [scan] is the order in which [range] visits a map. *)
Module Memory.
Definition atomic {A} (f : pk_db -> A * pk_db) : PM A := fun w => let '(a, s) := f (w_db w) in (Ok a, World s (w_faults w)).

Definition New : pk_db := {| t_credentials := ∅; t_challenges := ∅ |}.
Definition SaveChallenge (challenge : Challenge) : PM unit :=
  atomic (fun db => (tt, put_challenges (<[ch_ID challenge := challenge]> (t_challenges db)) db)).
Definition ConsumeChallenge (challengeID : string) (now : time) : PM Challenge :=
  found ← atomic (fun db => (t_challenges db !! challengeID, put_challenges (delete challengeID (t_challenges db)) db));
  match found with
  | None => throw ErrChallengeNotFound
  | Some challenge => if time_after now (ch_ExpiresAt challenge) then throw ErrChallengeExpired else mret challenge
  end.
Definition CreateCredential (credential : Credential) : PM unit :=
  created ← atomic (fun db =>
    match t_credentials db !! cr_ID credential with
    | Some _ => (false, db)
    | None => (true, put_credentials (<[cr_ID credential := credential]> (t_credentials db)) db)
    end);
  if created : bool then mret tt else throw ErrCredentialExists.
Definition GetCredential (credentialID : string) : PM Credential :=
  found ← atomic (fun db => (t_credentials db !! credentialID, db));
  match found with Some c => mret c | None => throw ErrCredentialNotFound end.
Definition UpdateCredentialSignCount (credentialID : string) (signCount : Z) : PM unit :=
  r ← atomic (fun db =>
    match t_credentials db !! credentialID with
    | None => (Some ErrCredentialNotFound, db)
    | Some c =>
        if (signCount <=? cr_SignCount c)%Z then (Some ErrStoreSignCountReplay, db)
        else (None, put_credentials (<[credentialID := with_count c signCount]> (t_credentials db)) db)
    end);
  match r with Some e => throw e | None => mret tt end.
Definition ListCredentialsByIdentity `{ScanOrder} (identityID : string) : PM (list Credential) :=
  atomic (fun db => (List.filter (fun c => String.eqb (cr_IdentityID c) identityID) (scan (t_credentials db)).*2, db)).

Definition store `{ScanOrder} : ChallengeStore pk_db :=
  {| Passkeys.SaveChallenge := SaveChallenge; Passkeys.ConsumeChallenge := ConsumeChallenge; Passkeys.CreateCredential := CreateCredential;
     Passkeys.GetCredential := GetCredential; Passkeys.ListCredentialsByIdentity := ListCredentialsByIdentity;
     Passkeys.UpdateCredentialSignCount := UpdateCredentialSignCount |}.
End Memory.

(** ** In PostgreSQL (postgres.go) *)
Module Postgres.
Definition SaveChallenge (challenge : Challenge) : PM unit :=
  M_try (db_stmt (E := store_error) (fun db => Ok (tt, put_challenges (<[ch_ID challenge := challenge]> (t_challenges db)) db))) (fun _ => mret tt).

(** The two statements of the transaction. *)
Definition select_challenge (challengeID : string) : PM Challenge :=
  row ← db_stmt (fun db => Ok (t_challenges db !! challengeID, db));
  match row with Some c => mret c | None => throw ErrChallengeNotFound end.
Definition delete_challenge (challengeID : string) : PM unit :=
  db_stmt (fun db => Ok (tt, put_challenges (delete challengeID (t_challenges db)) db)).
Definition ConsumeChallenge (challengeID : string) (now : time) : PM Challenge :=
  challenge ← db_tx (challenge ← select_challenge challengeID; delete_challenge challengeID ≫= fun _ => mret challenge);
  if time_after now (ch_ExpiresAt challenge) then throw ErrChallengeExpired else mret challenge.
Definition CreateCredential (credential : Credential) : PM unit :=
  call (fun e => match e with PkDb (UniqueViolation _) => ErrCredentialExists | _ => e end)
    (db_stmt (fun db =>
      match t_credentials db !! cr_ID credential with
      | Some _ => Err (UniqueViolation "passkey_credentials_pkey")
      | None => Ok (tt, put_credentials (<[cr_ID credential := credential]> (t_credentials db)) db)
      end)).
Definition GetCredential (credentialID : string) : PM Credential :=
  row ← db_stmt (fun db => Ok (t_credentials db !! credentialID, db));
  match row with Some c => mret c | None => throw ErrCredentialNotFound end.
Definition UpdateCredentialSignCount (credentialID : string) (signCount : Z) : PM unit :=
  affected ← db_stmt (fun db =>
    match t_credentials db !! credentialID with
    | None => Ok (false, db)
    | Some c => Ok (true, put_credentials (<[credentialID := with_count c signCount]> (t_credentials db)) db)
    end);
  if affected : bool then mret tt else throw ErrCredentialNotFound.
(** ORDER BY created_at ASC; a failure gives no credentials. *)
Definition ListCredentialsByIdentity `{ScanOrder} (identityID : string) : PM (list Credential) :=
  M_try (db_stmt (E := store_error) (fun db =>
    Ok (sort_by (fun a b => (cr_CreatedAt a <=? cr_CreatedAt b)%Z)
          (List.filter (fun c => String.eqb (cr_IdentityID c) identityID) (scan (t_credentials db)).*2), db)))
    (fun r => match r with Ok l => mret l | Err _ => mret [] end).

Definition store `{ScanOrder} : ChallengeStore pk_db :=
  {| Passkeys.SaveChallenge := SaveChallenge; Passkeys.ConsumeChallenge := ConsumeChallenge; Passkeys.CreateCredential := CreateCredential;
     Passkeys.GetCredential := GetCredential; Passkeys.ListCredentialsByIdentity := ListCredentialsByIdentity;
     Passkeys.UpdateCredentialSignCount := UpdateCredentialSignCount |}.
End Postgres.

(** ** The service (service.go) *)

Inductive svc_error : Type :=
| ErrInvalidIdentity
| ErrInvalidChallenge
| ErrInvalidCredential
| ErrInvalidSignature
| ErrSignCountReplay
| PkStore (e : store_error)
| PkCrypto (e : crypto_error).

Record Config : Type := { RPID : string; RPOrigin : string; ChallengeTTL : duration; AllowedCredentials : Z }.
Record RegistrationStartResponse : Type := { rs_Challenge : string; rs_RPID : string; rs_RPOrigin : string; rs_ExpiresIn : Z }.
Record RegistrationFinishRequest : Type := { rf_IdentityID : string; rf_Challenge : string; rf_CredentialID : string; rf_PublicKey : string }.
Record AuthenticationStartResponse : Type := { as_Challenge : string; as_AllowedCredentialIDs : list string; as_ExpiresIn : Z }.
Record AuthenticationFinishRequest : Type := {
  af_IdentityID : string; af_Challenge : string; af_CredentialID : string; af_Signature : string; af_SignCount : Z;
}.

(** [pem.Decode] with [x509.ParsePKIXPublicKey] for an ECDSA key, the host of a
    URL, and [ecdsa.VerifyASN1]. *)
Class PasskeyEnv := {
  pub_key : Type;
  parse_pem_key : string -> option pub_key;
  url_Hostname : string -> option string;
  VerifyASN1 : pub_key -> string -> string -> bool;
}.

Section service.
Context {S : Type} `{ChallengeStore S} `{PasskeyEnv}.
Abbreviation SM := (M S svc_error).

Definition deriveRPID (origin : string) : string :=
  let origin := TrimSpace origin in
  if String.eqb origin "" then "" else match url_Hostname origin with Some h => TrimSpace h | None => "" end.
Definition deriveRPOrigin (rpID : string) : string :=
  let rpID := TrimSpace rpID in if String.eqb rpID "" then "" else "https://" +:+ rpID.
Definition if_empty (s dflt : string) : string := if String.eqb s "" then dflt else s.
Definition New (cfg : Config) : Config :=
  let id := TrimSpace (RPID cfg) in
  let origin := TrimSpace (RPOrigin cfg) in
  let id := if_empty id (deriveRPID origin) in
  let origin := if_empty origin (deriveRPOrigin id) in
  {| RPID := if_empty id "localhost"; RPOrigin := if_empty origin "http://localhost";
     ChallengeTTL := if (ChallengeTTL cfg <=? 0)%Z then (5 * minute)%Z else ChallengeTTL cfg;
     AllowedCredentials := if (AllowedCredentials cfg <=? 0)%Z then 20 else AllowedCredentials cfg |}.

Definition randomChallenge (buf : result crypto_error string) : result svc_error string :=
  match buf with Ok b => Ok (b64url_Encode b) | Err e => Err (PkCrypto e) end.
Definition parseCredentialPublicKey (pem : string) : option pub_key := parse_pem_key (TrimSpace pem).

Definition assertion_message (identityID credentialID challenge : string) : string :=
  TrimSpace identityID +:+ ":" +:+ TrimSpace credentialID +:+ ":" +:+ TrimSpace challenge.
Definition verifyAssertionSignature (pub : pub_key) (identityID credentialID challenge signatureB64 : string) : result svc_error unit :=
  match (match b64url_Decode (TrimSpace signatureB64) with Some s => Some s | None => b64std_Decode (TrimSpace signatureB64) end) with
  | None => Err ErrInvalidSignature
  | Some signature =>
      if VerifyASN1 pub (sha256 (assertion_message identityID credentialID challenge)) signature then Ok tt else Err ErrInvalidSignature
  end.

(** The store's answer, its error replaced. *)
Definition store_call {A} (err : store_error -> svc_error) (m : M S store_error A) : SM A := call err m.

(** [int(ttl.Seconds())]. *)
Definition seconds (d : duration) : Z := Z.quot d second.

Definition BeginRegistration (cfg : Config) (identityID : string) (buf : result crypto_error string) (now : time) : SM RegistrationStartResponse :=
  let identityID := TrimSpace identityID in
  if String.eqb identityID "" then throw ErrInvalidIdentity
  else
    challenge ← lift_result (randomChallenge buf);
    store_call PkStore (SaveChallenge {| ch_ID := challenge; ch_IdentityID := identityID; ch_Purpose := "registration";
                                         ch_ExpiresAt := time_add now (ChallengeTTL cfg) |}) ≫= fun _ =>
    mret {| rs_Challenge := challenge; rs_RPID := RPID cfg; rs_RPOrigin := RPOrigin cfg; rs_ExpiresIn := seconds (ChallengeTTL cfg) |}.

Definition blank (s : string) : bool := String.eqb (TrimSpace s) "".
Definition FinishRegistration (req : RegistrationFinishRequest) (now now' : time) : SM unit :=
  if blank (rf_IdentityID req) then throw ErrInvalidIdentity
  else if blank (rf_Challenge req) || blank (rf_CredentialID req) || blank (rf_PublicKey req) then throw ErrInvalidCredential
  else match parseCredentialPublicKey (rf_PublicKey req) with
  | None => throw ErrInvalidCredential
  | Some _ =>
      challenge ← store_call (fun _ => ErrInvalidChallenge) (ConsumeChallenge (rf_Challenge req) now);
      if negb (String.eqb (ch_Purpose challenge) "registration") || negb (String.eqb (ch_IdentityID challenge) (rf_IdentityID req))
      then throw ErrInvalidChallenge
      else store_call (fun _ => ErrInvalidCredential)
             (CreateCredential {| cr_ID := rf_CredentialID req; cr_IdentityID := rf_IdentityID req; cr_PublicKey := rf_PublicKey req;
                                  cr_SignCount := 0; cr_CreatedAt := now' |})
  end.

(** Latest first; equally old ones by identifier. *)
Definition cred_before (a b : Credential) : bool :=
  if (cr_CreatedAt a =? cr_CreatedAt b)%Z then String.leb (cr_ID a) (cr_ID b) else (cr_CreatedAt b <? cr_CreatedAt a)%Z.
Definition BeginAuthentication (cfg : Config) (identityID : string) (buf : result crypto_error string) (now : time) : SM AuthenticationStartResponse :=
  let identityID := TrimSpace identityID in
  if String.eqb identityID "" then throw ErrInvalidIdentity
  else
    challenge ← lift_result (randomChallenge buf);
    store_call PkStore (SaveChallenge {| ch_ID := challenge; ch_IdentityID := identityID; ch_Purpose := "authentication";
                                         ch_ExpiresAt := time_add now (ChallengeTTL cfg) |}) ≫= fun _ =>
    credentials ← store_call PkStore (ListCredentialsByIdentity identityID);
    let sorted := sort_by cred_before credentials in
    let limited := if (0 <? AllowedCredentials cfg)%Z then take (Z.to_nat (AllowedCredentials cfg)) sorted else sorted in
    mret {| as_Challenge := challenge; as_AllowedCredentialIDs := cr_ID <$> limited; as_ExpiresIn := seconds (ChallengeTTL cfg) |}.

(** [SignCount+1] at 32 bits. *)
Definition next_count (n : Z) : Z := ((n + 1) mod 2 ^ 32)%Z.
Definition FinishAuthentication (req : AuthenticationFinishRequest) (now : time) : SM unit :=
  if blank (af_IdentityID req) then throw ErrInvalidIdentity
  else if blank (af_CredentialID req) || blank (af_Challenge req) || blank (af_Signature req) then throw ErrInvalidCredential
  else
    challenge ← store_call (fun _ => ErrInvalidChallenge) (ConsumeChallenge (af_Challenge req) now);
    if negb (String.eqb (ch_Purpose challenge) "authentication") || negb (String.eqb (ch_IdentityID challenge) (af_IdentityID req))
    then throw ErrInvalidChallenge
    else
      credential ← store_call (fun _ => ErrInvalidCredential) (GetCredential (af_CredentialID req));
      if negb (String.eqb (cr_IdentityID credential) (af_IdentityID req)) then throw ErrInvalidCredential
      else if negb (af_SignCount req =? next_count (cr_SignCount credential))%Z then throw ErrSignCountReplay
      else match parseCredentialPublicKey (cr_PublicKey credential) with
      | None => throw ErrInvalidCredential
      | Some publicKey =>
          lift_result (verifyAssertionSignature publicKey (af_IdentityID req) (af_CredentialID req) (af_Challenge req) (af_Signature req)) ≫= fun _ =>
          store_call PkStore (UpdateCredentialSignCount (af_CredentialID req) (af_SignCount req))
      end.
End service.

(** ** The handlers (handler.go)

    A JSON value as far as the decoding looks at it: a number is given as the
    unsigned 32-bit integer it fits, if any. *)
Inductive raw : Type := RString (s : string) | RNull | RNumber (u : option Z) | ROther.
Abbreviation members := (list (string * raw)).

Inductive field_kind : Type := KString | KUint32.
(** [encoding/json]: a key names the field it equals, or else the first field
    it equals up to case.  Case folding covers ASCII; Go also folds U+212A (the
    Kelvin sign) to k and U+017F (the long s) to s, so that a key spelled with
    them names a field in the code and is an unknown field here. *)
Definition field_for (fields : list (string * field_kind)) (key : string) : option (string * field_kind) :=
  match List.find (fun f => String.eqb f.1 key) fields with
  | Some f => Some f
  | None => List.find (fun f => EqualFold f.1 key) fields
  end.
Definition fits (k : field_kind) (v : raw) : bool :=
  match k, v with
  | _, RNull => true
  | KString, RString _ => true
  | KUint32, RNumber (Some _) => true
  | _, _ => false
  end.
(** [DisallowUnknownFields]; null leaves a field alone, and a later member
    overrides an earlier one. *)
Fixpoint decode_members (fields : list (string * field_kind)) (ms : members) (acc : gmap string raw) : option (gmap string raw) :=
  match ms with
  | [] => Some acc
  | (key, v) :: rest =>
      match field_for fields key with
      | None => None
      | Some (f, k) =>
          if fits k v then decode_members fields rest (match v with RNull => acc | _ => <[f := v]> acc end)
          else None
      end
  end.
Definition decodeJSONBody (fields : list (string * field_kind)) (body : option members) : option (gmap string raw) :=
  body ≫= fun ms => decode_members fields ms ∅.
Definition get_text (m : gmap string raw) (f : string) : string := match m !! f with Some (RString s) => s | _ => "" end.
Definition get_count (m : gmap string raw) (f : string) : Z := match m !! f with Some (RNumber (Some z)) => z | _ => 0 end.

Definition start_fields : list (string * field_kind) := [("identity_id", KString)].
Definition registration_fields : list (string * field_kind) :=
  [("identity_id", KString); ("challenge", KString); ("credential_id", KString); ("public_key", KString)].
Definition authentication_fields : list (string * field_kind) :=
  [("identity_id", KString); ("challenge", KString); ("credential_id", KString); ("signature", KString); ("sign_count", KUint32)].

Inductive payload : Type :=
| PRegistration (r : RegistrationStartResponse)
| PAuthentication (r : AuthenticationStartResponse)
| POk
| PServiceError (e : svc_error)
| PError (message : string).
Record response : Type := { rs_status : Z; rs_payload : payload }.
Definition writeJSON (status : Z) (p : payload) : response := {| rs_status := status; rs_payload := p |}.
Definition writeError (status : Z) (message : string) : response := writeJSON status (PError message).

(** What a request draws. *)
Record pdraws : Type := { pd_now : time; pd_now2 : time; pd_buf : result crypto_error string; pd_auth : time }.

Section handler.
Context {S : Type} `{ChallengeStore S} `{PasskeyEnv} (cfg : Config).
Abbreviation SM := (M S svc_error).

Definition answered {A} (m : SM A) (ok : A -> payload) : SM response :=
  r ← attempt m; mret (match r with Ok a => writeJSON 200 (ok a) | Err e => writeJSON 400 (PServiceError e) end).
(** The method and the body first. *)
Definition posted (r : Request) (fields : list (string * field_kind)) (body : option members) (k : gmap string raw -> SM response) : SM response :=
  if negb (String.eqb (Method r) "POST") then mret (writeError 405 "method not allowed")
  else match decodeJSONBody fields body with
  | None => mret (writeError 400 "invalid request body")
  | Some m => k m
  end.

Definition handleRegistrationStart (r : Request) (body : option members) (d : pdraws) : SM response :=
  posted r start_fields body (fun m => answered (BeginRegistration cfg (get_text m "identity_id") (pd_buf d) (pd_now d)) PRegistration).
Definition handleRegistrationFinish (r : Request) (body : option members) (d : pdraws) : SM response :=
  posted r registration_fields body (fun m => answered (FinishRegistration
    {| rf_IdentityID := get_text m "identity_id"; rf_Challenge := get_text m "challenge"; rf_CredentialID := get_text m "credential_id";
       rf_PublicKey := get_text m "public_key" |} (pd_now d) (pd_now2 d)) (fun _ => POk)).
Definition handleAuthenticationStart (r : Request) (body : option members) (d : pdraws) : SM response :=
  posted r start_fields body (fun m => answered (BeginAuthentication cfg (get_text m "identity_id") (pd_buf d) (pd_now d)) PAuthentication).
Definition handleAuthenticationFinish (r : Request) (body : option members) (d : pdraws) : SM response :=
  posted r authentication_fields body (fun m => answered (FinishAuthentication
    {| af_IdentityID := get_text m "identity_id"; af_Challenge := get_text m "challenge"; af_CredentialID := get_text m "credential_id";
       af_Signature := get_text m "signature"; af_SignCount := get_count m "sign_count" |} (pd_now d)) (fun _ => POk)).

(** RegisterRoutes. *)
Definition route (r : Request) (body : option members) (d : pdraws) : SM response :=
  if String.eqb (URL_Path r) "/api/v1/passkeys/registration/start" then handleRegistrationStart r body d
  else if String.eqb (URL_Path r) "/api/v1/passkeys/registration/finish" then handleRegistrationFinish r body d
  else if String.eqb (URL_Path r) "/api/v1/passkeys/authentication/start" then handleAuthenticationStart r body d
  else if String.eqb (URL_Path r) "/api/v1/passkeys/authentication/finish" then handleAuthenticationFinish r body d
  else mret (writeError 404 "404 page not found").

(** ** The guard (cmd/server/main.go) *)

Context `{UuidText} (identitySigningSecret : string).
Definition identitySigningSecretMinBytes : nat := 32.
Definition identityHeaderMaxAge : duration := minute.
Definition signedIdentityHeaders : list string := ["X-User-ID"; "X-User-Session-ID"; "X-User-AAL"].

Definition verifiedIdentityID (h : header) (now : time) : option string :=
  if (String.length identitySigningSecret <? identitySigningSecretMinBytes)%nat then None
  else if existsb (fun name => blank (Header_Get h name)) signedIdentityHeaders then None
  else if negb (VerifyIdentityHeaders identitySigningSecret h signedIdentityHeaders (Header_Get h "X-Aegion-Signature") identityHeaderMaxAge now)
  then None
  else match uuid_parse (TrimSpace (Header_Get h "X-User-ID")) with
  | None => None
  | Some identityID =>
      match uuid_parse (TrimSpace (Header_Get h "X-User-Session-ID")) with
      | None => None
      | Some _ =>
          if existsb (String.eqb (TrimSpace (Header_Get h "X-User-AAL"))) ["aal1"; "aal2"] then Some (uuid_string identityID) else None
      end
  end.

(** [jsonType]: the content type parses and is JSON.  The object is decoded
    into a map, where the last of equal keys counts, and written again in the
    order of its keys. *)
Definition to_map (ms : members) : gmap string raw := fold_left (fun m kv => <[kv.1 := kv.2]> m) ms ∅.
Definition marshal_map (m : gmap string raw) : members := sort_by (fun a b => String.leb a.1 b.1) (map_to_list m).
Definition bindTrustedIdentity (jsonType : bool) (body : option members) (identityID : string) : option members :=
  if negb jsonType then None
  else match body with
  | None => None
  | Some ms =>
      if bool_decide (is_Some (to_map ms !! "identity_id")) then None
      else Some (marshal_map (<["identity_id" := RString identityID]> (to_map ms)))
  end.
Definition passkeyRoutes : list string :=
  ["/api/v1/passkeys/registration/start"; "/api/v1/passkeys/registration/finish"; "/api/v1/passkeys/authentication/start";
   "/api/v1/passkeys/authentication/finish"].
Definition requireSignedIdentity (r : Request) (jsonType : bool) (body : option members) (d : pdraws) : SM response :=
  if negb (existsb (String.eqb (URL_Path r)) passkeyRoutes) then mret (writeError 404 "404 page not found")
  else match verifiedIdentityID (Header r) (pd_auth d) with
  | None => mret (writeError 401 "unauthenticated")
  | Some identityID =>
      match bindTrustedIdentity jsonType body identityID with
      | None => mret (writeError 400 "invalid_request")
      | Some body' => route r (Some body') d
      end
  end.
End handler.
