(* ===== verification/PasskeysFacts.v ===== *)
(** modules/passkeys: what a store promises, that both stores keep it, what an
    accepted request is worth, and what a request through the guard can do,
    whatever its body holds; a registration and an authentication close the
    file. *)

From Stdlib Require Import Ascii String.
From S2P Require Import Prelude GoStrings GoEncoding GoSha256 PlatformCrypto CryptoFields GoHttp SignedHeaders Passkeys.

Local Open Scope string_scope.

(** ** What a store promises *)

Class ChallengeStoreLaws (S : Type) `{ChallengeStore S} := {
  credentials : S -> gmap string Credential;
  challenges : S -> gmap string Challenge;
  save_law : forall ch w r w', SaveChallenge ch w = (r, w') ->
    credentials (w_db w') = credentials (w_db w) /\
    (challenges (w_db w') = challenges (w_db w) \/ challenges (w_db w') = <[ch_ID ch := ch]> (challenges (w_db w)));
  consume_law : forall id now w r w', ConsumeChallenge id now w = (r, w') ->
    credentials (w_db w') = credentials (w_db w) /\
    (challenges (w_db w') = challenges (w_db w) \/ challenges (w_db w') = delete id (challenges (w_db w))) /\
    (forall ch, r = Ok ch -> challenges (w_db w) !! id = Some ch /\ challenges (w_db w') = delete id (challenges (w_db w)) /\
       (now <= ch_ExpiresAt ch)%Z);
  create_law : forall c w r w', CreateCredential c w = (r, w') ->
    challenges (w_db w') = challenges (w_db w) /\
    ((r = Ok tt /\ credentials (w_db w) !! cr_ID c = None /\ credentials (w_db w') = <[cr_ID c := c]> (credentials (w_db w))) \/
     (is_ok r = false /\ credentials (w_db w') = credentials (w_db w)));
  get_law : forall id w r w', GetCredential id w = (r, w') ->
    w_db w' = w_db w /\ (forall c, r = Ok c -> credentials (w_db w) !! id = Some c);
  list_law : forall i w r w', ListCredentialsByIdentity i w = (r, w') -> w_db w' = w_db w;
  count_law : forall id n w r w', UpdateCredentialSignCount id n w = (r, w') ->
    challenges (w_db w') = challenges (w_db w) /\
    ((r = Ok tt /\ exists c, credentials (w_db w) !! id = Some c /\ credentials (w_db w') = <[id := with_count c n]> (credentials (w_db w))) \/
     (is_ok r = false /\ credentials (w_db w') = credentials (w_db w)));
}.

Section memory.
Context `{ScanOrder}.
#[local] Instance memory_store : ChallengeStore pk_db := Memory.store.
Definition memory_laws : ChallengeStoreLaws pk_db.
Proof.
  refine {| credentials := t_credentials; challenges := t_challenges |}.
  - intros ch w r w' [= <- <-]. cbn. by split; [|right].
  - intros id now w r w'. cbn. unfold Memory.ConsumeChallenge. rewrite M_bind_run. cbn.
    destruct (t_challenges (w_db w) !! id) as [ch|] eqn:E; [|intros [= <- <-]; cbn; split_and!; [done|by right|done]].
    unfold time_after. destruct (Z.ltb_spec (ch_ExpiresAt ch) now); intros [= <- <-]; cbn; (split_and!; [done|by right|]); [done|].
    intros c [= <-]. by split_and!.
  - intros c w r w'. cbn. unfold Memory.CreateCredential. rewrite M_bind_run. unfold Memory.atomic.
    destruct (t_credentials (w_db w) !! cr_ID c) eqn:E; intros [= <- <-]; cbn; (split; [done|]); [by right|by left].
  - intros id w r w'. cbn. unfold Memory.GetCredential. rewrite M_bind_run. cbn.
    destruct (t_credentials (w_db w) !! id) eqn:E; intros [= <- <-]; (split; [by destruct w|]); [by intros ? [= <-]|done].
  - intros i w r w' [= <- <-]. by destruct w.
  - intros id n w r w'. cbn. unfold Memory.UpdateCredentialSignCount. rewrite M_bind_run. unfold Memory.atomic.
    destruct (t_credentials (w_db w) !! id) as [c|] eqn:E; [|intros [= <- <-]; cbn; split; [done|by right]].
    destruct (n <=? cr_SignCount c)%Z; intros [= <- <-]; cbn; (split; [done|]); [by right|]. left. split; [done|]. by exists c.
Defined.
End memory.

Section postgres.
Context `{ScanOrder}.
#[local] Instance postgres_store : ChallengeStore pk_db := Postgres.store.

Lemma consume_tx id w r w' :
  db_tx (challenge ← Postgres.select_challenge id; Postgres.delete_challenge id ≫= fun _ => mret challenge) w = (r, w') ->
  (is_ok r = false /\ w_db w' = w_db w) \/
  exists ch, r = Ok ch /\ t_challenges (w_db w) !! id = Some ch /\ w_db w' = put_challenges (delete id (t_challenges (w_db w))) (w_db w).
Proof.
  destruct r as [ch|e]; [|intros Ht%db_tx_atomic; by left]. intros (w1 & w2 & Hw1 & Hb & Hw')%db_tx_ok. right. exists ch.
  apply M_bind_ok in Hb as (c & w3 & Hs & Hd). unfold Postgres.select_challenge in Hs. apply M_bind_ok in Hs as (row & w4 & Hq & Hs).
  apply db_stmt_cases in Hq as [(a & [= <-] & [= Hrow Hw4])|(? & ? & _)]; [|done]. destruct row as [row|]; [|done]. injection Hs as <- <-.
  apply M_bind_ok in Hd as ([] & w5 & Hdel & [= -> ->]). apply db_stmt_cases in Hdel as [(a & _ & [= _ Hw5])|(? & ? & _)]; [|done].
  rewrite Hw', <- Hw5, <- Hw4, Hw1. rewrite Hw1 in Hrow. by split_and!.
Qed.

Definition postgres_laws : ChallengeStoreLaws pk_db.
Proof.
  refine {| credentials := t_credentials; challenges := t_challenges |}.
  - intros ch w r w'. cbn. unfold Postgres.SaveChallenge, M_try. destruct (db_stmt _ w) as [r1 w1] eqn:E. intros [= <- <-].
    apply db_stmt_cases in E as [(a & _ & [= _ <-])|(e & _ & ->)]; [by split; [|right]|by split; [|left]].
  - intros id now w r w'. cbn. unfold Postgres.ConsumeChallenge. rewrite M_bind_run. destruct (db_tx _ w) as [r1 w1] eqn:E.
    apply consume_tx in E as [[Hr Hw]|(ch & -> & Hch & Hw)].
    { destruct r1; [done|]. intros [= <- <-]. rewrite Hw. split_and!; [done|by left|done]. }
    unfold time_after. destruct (Z.ltb_spec (ch_ExpiresAt ch) now); intros [= <- <-]; rewrite Hw; cbn; (split_and!; [done|by right|]); [done|].
    intros c [= <-]. by split_and!.
  - intros c w r w'. cbn. unfold Postgres.CreateCredential. rewrite call_run. destruct (db_stmt _ w) as [r1 w1] eqn:E.
    apply db_stmt_cases in E as [(a & -> & Hs)|(e & -> & Hw)].
    + destruct (t_credentials (w_db w) !! cr_ID c) eqn:El; [done|]. injection Hs as <- Hw. intros [= <- <-]. rewrite <- Hw. cbn.
      split; [done|]. by left.
    + intros [= <- <-]. rewrite Hw. split; [done|]. by right.
  - intros id w r w'. cbn. unfold Postgres.GetCredential. rewrite M_bind_run. destruct (db_stmt _ w) as [r1 w1] eqn:E.
    apply db_stmt_cases in E as [(a & -> & [= <- Hw])|(e & -> & Hw)].
    + destruct (t_credentials (w_db w) !! id) eqn:El; intros [= <- <-]; (split; [done|]); [by intros ? [= <-]|done].
    + intros [= <- <-]. by split.
  - intros i w r w'. cbn. unfold Postgres.ListCredentialsByIdentity, M_try. destruct (db_stmt _ w) as [r1 w1] eqn:E.
    apply db_stmt_cases in E as [(a & -> & [= _ Hw])|(e & -> & Hw)]; by intros [= _ <-].
  - intros id n w r w'. cbn. unfold Postgres.UpdateCredentialSignCount. rewrite M_bind_run. destruct (db_stmt _ w) as [r1 w1] eqn:E.
    apply db_stmt_cases in E as [(a & -> & Hs)|(e & -> & Hw)].
    + destruct (t_credentials (w_db w) !! id) as [c|] eqn:El; injection Hs as <- Hw; intros [= <- <-]; rewrite <- Hw; cbn; (split; [done|]); [|by right].
      left. split; [done|]. by exists c.
    + intros [= <- <-]. rewrite Hw. split; [done|]. by right.
Defined.

(** Under READ COMMITTED two requests whose transactions both read before
    either deletes both go on with one challenge; and the count is overwritten
    whatever it is by then. *)
Lemma interleaved_requests_share_challenge (db : pk_db) id ch :
  t_challenges db !! id = Some ch ->
  let '(a, w1) := Postgres.select_challenge id (World db []) in
  let '(b, w2) := Postgres.select_challenge id w1 in
  let '(c, w3) := Postgres.delete_challenge id w2 in
  let '(d, w4) := Postgres.delete_challenge id w3 in
  a = Ok ch /\ b = Ok ch /\ c = Ok tt /\ d = Ok tt.
Proof.
  intros Hch. assert (Hs : Postgres.select_challenge id (World db []) = (Ok ch, World db [])).
  { unfold Postgres.select_challenge. rewrite M_bind_run. cbn. by rewrite Hch. }
  by rewrite Hs, Hs.
Qed.
Lemma postgres_count_may_fall id c n db : t_credentials db !! id = Some c ->
  Postgres.UpdateCredentialSignCount id n (World db []) =
    (Ok tt, World (put_credentials (<[id := with_count c n]> (t_credentials db)) db) []).
Proof. intros Hc. unfold Postgres.UpdateCredentialSignCount. rewrite M_bind_run, db_stmt_clean, Hc. done. Qed.
End postgres.

(** ** The service over any store *)

Section service.
Context {S : Type} `{ChallengeStoreLaws S} `{PasskeyEnv}.
Abbreviation SM := (M S svc_error).

Lemma store_call_run {A} f (m : M S store_error A) (w : world S) (r : result svc_error A) w' :
  store_call f m w = (r, w') -> exists r0, m w = (r0, w') /\ match r with Ok a => r0 = Ok a | Err _ => is_ok r0 = false end.
Proof. unfold store_call. rewrite call_run. destruct (m w) as [[a|e] w1]; intros [= <- <-]; by eexists. Qed.

(** What an accepted authentication says. *)
Lemma FinishAuthentication_ok req now (w : world S) w' :
  FinishAuthentication req now w = (Ok tt, w') ->
  exists ch c key,
    challenges (w_db w) !! af_Challenge req = Some ch /\ ch_Purpose ch = "authentication" /\ ch_IdentityID ch = af_IdentityID req /\
    (now <= ch_ExpiresAt ch)%Z /\
    credentials (w_db w) !! af_CredentialID req = Some c /\ cr_IdentityID c = af_IdentityID req /\
    af_SignCount req = next_count (cr_SignCount c) /\ parseCredentialPublicKey (cr_PublicKey c) = Some key /\
    verifyAssertionSignature key (af_IdentityID req) (af_CredentialID req) (af_Challenge req) (af_Signature req) = Ok tt /\
    challenges (w_db w') = delete (af_Challenge req) (challenges (w_db w)) /\
    credentials (w_db w') = <[af_CredentialID req := with_count c (af_SignCount req)]> (credentials (w_db w)).
Proof.
  unfold FinishAuthentication. destruct (blank (af_IdentityID req)); [done|]. destruct (_ || _ || _); [done|].
  intros (ch & w1 & Hc & Hrun)%M_bind_ok. apply store_call_run in Hc as (r0 & Hc & ->).
  destruct (consume_law _ _ _ _ _ Hc) as (Hcr1 & _ & Hok). destruct (Hok _ eq_refl) as (Hch & Hdel & Hexp).
  destruct (String.eqb_spec (ch_Purpose ch) "authentication") as [Hp|]; [|done].
  destruct (String.eqb_spec (ch_IdentityID ch) (af_IdentityID req)) as [Hi|]; [|done]. cbn [negb orb] in Hrun.
  apply M_bind_ok in Hrun as (c & w2 & Hg & Hrun). apply store_call_run in Hg as (r1 & Hg & ->).
  destruct (get_law _ _ _ _ Hg) as [Hdb Hcred]. specialize (Hcred _ eq_refl). rewrite Hcr1 in Hcred.
  destruct (String.eqb_spec (cr_IdentityID c) (af_IdentityID req)) as [Hci|]; [|done]. cbn [negb] in Hrun.
  destruct (Z.eqb_spec (af_SignCount req) (next_count (cr_SignCount c))) as [Hn|]; [|done]. cbn [negb] in Hrun.
  destruct (parseCredentialPublicKey (cr_PublicKey c)) as [key|] eqn:Hk; [|done].
  apply M_bind_ok in Hrun as ([] & w3 & Hv & Hu). unfold lift_result in Hv. injection Hv as Hv <-.
  apply store_call_run in Hu as (r2 & Hu & ->). destruct (count_law _ _ _ _ _ Hu) as [Hch3 [(_ & c' & Hc' & Hcr3)|[? _]]]; [|done].
  rewrite Hdb, Hcr1, Hcred in Hc'. injection Hc' as <-. rewrite Hdb, Hdel in Hch3. rewrite Hdb, Hcr1 in Hcr3.
  exists ch, c, key. by split_and!.
Qed.
Lemma FinishRegistration_ok req now now' (w : world S) w' :
  FinishRegistration req now now' w = (Ok tt, w') ->
  exists ch, challenges (w_db w) !! rf_Challenge req = Some ch /\ ch_Purpose ch = "registration" /\ ch_IdentityID ch = rf_IdentityID req /\
    challenges (w_db w') = delete (rf_Challenge req) (challenges (w_db w)).
Proof.
  unfold FinishRegistration. destruct (blank (rf_IdentityID req)); [done|]. destruct (_ || _ || _); [done|].
  destruct (parseCredentialPublicKey _); [|done].
  intros (ch & w1 & Hc & Hrun)%M_bind_ok. apply store_call_run in Hc as (r0 & Hc & ->).
  destruct (consume_law _ _ _ _ _ Hc) as (_ & _ & Hok). destruct (Hok _ eq_refl) as (Hch & Hdel & _).
  destruct (String.eqb_spec (ch_Purpose ch) "registration") as [Hp|]; [|done].
  destruct (String.eqb_spec (ch_IdentityID ch) (rf_IdentityID req)) as [Hi|]; [|done]. cbn [negb orb] in Hrun.
  apply store_call_run in Hrun as (r2 & Hu & ->). destruct (create_law _ _ _ _ Hu) as [Hch3 _]. exists ch. split_and!; [done..|]. by rewrite Hch3.
Qed.

(** ** What every request leaves alone *)

(** Of the credentials, only one of [i] changes, and not its key. *)
Definition owned_change (i : string) (a b : gmap string Credential) : Prop :=
  forall id, b !! id <> a !! id ->
    exists c', b !! id = Some c' /\ cr_IdentityID c' = i /\
      forall c, a !! id = Some c -> cr_IdentityID c = i /\ cr_PublicKey c' = cr_PublicKey c /\ cr_SignCount c' = next_count (cr_SignCount c).
(** Of the challenges, only [fresh] ones appear. *)
Definition no_new (fresh : string -> Prop) (a b : gmap string Challenge) : Prop :=
  forall id ch, b !! id = Some ch -> a !! id = Some ch \/ fresh id.
Lemma no_new_refl f a : no_new f a a.
Proof. intros id ch Hid. by left. Qed.
Lemma no_new_trans f a b c : no_new f a b -> no_new f b c -> no_new f a c.
Proof. intros Hab Hbc id ch Hid. apply Hbc in Hid as [Hid|]; [by apply Hab|by right]. Qed.
Lemma no_new_delete f a id : no_new f a (delete id a).
Proof. intros j ch [_ Hj]%lookup_delete_Some. by left. Qed.

Definition changes (i : string) (fresh : string -> Prop) {A} (m : SM A) : Prop :=
  forall w, owned_change i (credentials (w_db w)) (credentials (w_db (m w).2)) /\ no_new fresh (challenges (w_db w)) (challenges (w_db (m w).2)).
Lemma owned_refl i a b : b = a -> owned_change i a b.
Proof. intros -> id []. done. Qed.

(** The same with the credentials untouched. *)
Definition still (fresh : string -> Prop) {A} (m : SM A) : Prop :=
  forall w, credentials (w_db (m w).2) = credentials (w_db w) /\ no_new fresh (challenges (w_db w)) (challenges (w_db (m w).2)).

Lemma still_changes i fresh {A} (m : SM A) : still fresh m -> changes i fresh m.
Proof. intros Hm w. destruct (Hm w) as [Hc Hn]. split; [by apply owned_refl|done]. Qed.
Lemma still_ret fresh {A} (r : result svc_error A) : still fresh (lift_result r).
Proof. intros w. split; [done|apply no_new_refl]. Qed.
Lemma still_throw fresh {A} e : still fresh (throw e : SM A).
Proof. intros w. split; [done|apply no_new_refl]. Qed.
Lemma still_mret fresh {A} (a : A) : still fresh (mret a : SM A).
Proof. intros w. split; [done|apply no_new_refl]. Qed.
Lemma still_bind i fresh {A B} (m : SM A) (f : A -> SM B) : still fresh m -> (forall a, changes i fresh (f a)) -> changes i fresh (m ≫= f).
Proof.
  intros Hm Hf w. rewrite M_bind_run. specialize (Hm w). destruct (m w) as [[a|e] w1]; cbn in *; destruct Hm as [Hc Hn].
  - destruct (Hf a w1) as [Ho Hn']. rewrite Hc in Ho. split; [done|]. by eapply no_new_trans.
  - split; [by apply owned_refl|done].
Qed.
Lemma still_save (fresh : string -> Prop) ch : fresh (ch_ID ch) -> still fresh (store_call PkStore (SaveChallenge ch)).
Proof.
  intros Hf w. destruct (store_call _ _ w) as [r w'] eqn:E. apply store_call_run in E as (r0 & E & _). destruct (save_law _ _ _ _ E) as [Hcr Hch].
  cbn. split; [done|]. destruct Hch as [->| ->]; [apply no_new_refl|]. intros id c [[<- _]|[_ Hid]]%lookup_insert_Some; [by right|by left].
Qed.
Lemma still_consume fresh f id now : still fresh (store_call f (ConsumeChallenge id now)).
Proof.
  intros w. destruct (store_call _ _ w) as [r w'] eqn:E. apply store_call_run in E as (r0 & E & _). destruct (consume_law _ _ _ _ _ E) as (Hcr & Hch & _).
  cbn. split; [done|]. destruct Hch as [->| ->]; [apply no_new_refl|apply no_new_delete].
Qed.
Lemma still_list fresh f i : still fresh (store_call f (ListCredentialsByIdentity i)).
Proof.
  intros w. destruct (store_call _ _ w) as [r w'] eqn:E. apply store_call_run in E as (r0 & E & _). apply list_law in E. cbn. rewrite E.
  split; [done|apply no_new_refl].
Qed.

Lemma lift_bind i fresh {A B} (r : result svc_error A) (f : A -> SM B) :
  (forall a, r = Ok a -> changes i fresh (f a)) -> changes i fresh (lift_result r ≫= f).
Proof.
  intros Hf. destruct r as [a|e]; [|by apply still_changes; intros w; split; [|apply no_new_refl]]. intros w. by apply Hf.
Qed.

Lemma BeginRegistration_changes cfg i j buf now (fresh : string -> Prop) :
  (forall b, buf = Ok b -> fresh (b64url_Encode b)) -> changes j fresh (BeginRegistration cfg i buf now).
Proof.
  intros Hf. unfold BeginRegistration. cbv zeta. destruct (String.eqb _ ""); [apply still_changes, still_throw|].
  apply lift_bind. intros c Hc. destruct buf as [b|e]; [|done]. injection Hc as <-.
  apply still_bind; [apply still_save; by apply Hf|intros _; apply still_changes, still_mret].
Qed.
Lemma BeginAuthentication_changes cfg i j buf now (fresh : string -> Prop) :
  (forall b, buf = Ok b -> fresh (b64url_Encode b)) -> changes j fresh (BeginAuthentication cfg i buf now).
Proof.
  intros Hf. unfold BeginAuthentication. cbv zeta. destruct (String.eqb _ ""); [apply still_changes, still_throw|].
  apply lift_bind. intros c Hc. destruct buf as [b|e]; [|done]. injection Hc as <-.
  apply still_bind; [apply still_save; by apply Hf|intros _].
  apply still_bind; [apply still_list|intros l; apply still_changes, still_mret].
Qed.
Lemma FinishRegistration_changes req now now' fresh : changes (rf_IdentityID req) fresh (FinishRegistration req now now').
Proof.
  unfold FinishRegistration. destruct (blank _); [apply still_changes, still_throw|]. destruct (_ || _ || _); [apply still_changes, still_throw|].
  destruct (parseCredentialPublicKey _); [|apply still_changes, still_throw]. apply still_bind; [apply still_consume|]. intros ch.
  destruct (_ || _); [apply still_changes, still_throw|]. intros w. destruct (store_call _ _ w) as [r w'] eqn:E.
  apply store_call_run in E as (r0 & E & _). destruct (create_law _ _ _ _ E) as [Hch [(_ & Hnone & Hcr)|[_ Hcr]]]; cbn; rewrite Hch, Hcr;
    (split; [|apply no_new_refl]); [|by apply owned_refl].
  intros id Hne. destruct (decide (id = rf_CredentialID req)) as [->|Hid]; [|by rewrite lookup_insert_ne in Hne].
  cbn in Hnone |- *. rewrite lookup_insert_eq. eexists. split_and!; [done..|]. intros c Hc. by rewrite Hnone in Hc.
Qed.
Lemma FinishAuthentication_changes req now fresh : changes (af_IdentityID req) fresh (FinishAuthentication req now).
Proof.
  unfold FinishAuthentication. destruct (blank _); [apply still_changes, still_throw|]. destruct (_ || _ || _); [apply still_changes, still_throw|].
  apply still_bind; [apply still_consume|]. intros ch. destruct (_ || _); [apply still_changes, still_throw|].
  intros w. rewrite M_bind_run. destruct (store_call _ _ w) as [r w1] eqn:E. apply store_call_run in E as (r0 & E & Hr).
  destruct (get_law _ _ _ _ E) as [Hdb Hc].
  assert (Hsame : owned_change (af_IdentityID req) (credentials (w_db w)) (credentials (w_db w1)) /\ no_new fresh (challenges (w_db w)) (challenges (w_db w1)))
    by (rewrite Hdb; split; [by apply owned_refl|apply no_new_refl]).
  destruct r as [c|e]; [|done]. subst r0. specialize (Hc _ eq_refl).
  destruct (String.eqb_spec (cr_IdentityID c) (af_IdentityID req)) as [Hi|]; cbn [negb]; [|done].
  destruct (Z.eqb_spec (af_SignCount req) (next_count (cr_SignCount c))) as [Hn|]; cbn [negb]; [|done].
  destruct (parseCredentialPublicKey (cr_PublicKey c)); [|done]. rewrite M_bind_run. unfold lift_result.
  destruct (verifyAssertionSignature _ _ _ _ _); [|done]. destruct (store_call _ _ w1) as [r w2] eqn:Eu.
  apply store_call_run in Eu as (r0 & Eu & _). destruct (count_law _ _ _ _ _ Eu) as [Hch [(_ & c' & Hc' & Hcr)|[_ Hcr]]]; cbn; rewrite Hch, Hcr; [|done].
  rewrite Hdb in Hc' |- *. rewrite Hc in Hc'. injection Hc' as <-. split; [|apply no_new_refl]. intros id Hne.
  destruct (decide (id = af_CredentialID req)) as [->|Hid]; [|by rewrite lookup_insert_ne in Hne].
  rewrite lookup_insert_eq. eexists. split_and!; [done|done|]. intros c0 Hc0. rewrite Hc in Hc0. injection Hc0 as <-. by split_and!.
Qed.

(** ** Any number of requests *)

Inductive request : Type :=
| QBeginRegistration (cfg : Config) (identityID : string) (buf : result crypto_error string) (now : time)
| QFinishRegistration (req : RegistrationFinishRequest) (now now' : time)
| QBeginAuthentication (cfg : Config) (identityID : string) (buf : result crypto_error string) (now : time)
| QFinishAuthentication (req : AuthenticationFinishRequest) (now : time).
Definition discard {A} (m : SM A) : SM unit := m ≫= fun _ => mret tt.
Definition serve (q : request) : SM unit :=
  match q with
  | QBeginRegistration cfg i buf now => discard (BeginRegistration cfg i buf now)
  | QFinishRegistration req now now' => FinishRegistration req now now'
  | QBeginAuthentication cfg i buf now => discard (BeginAuthentication cfg i buf now)
  | QFinishAuthentication req now => FinishAuthentication req now
  end.
Definition serve_all (qs : list request) (w : world S) : world S := fold_left (fun w q => (serve q w).2) qs w.
(** The challenge a request draws, and the one it presents. *)
Definition drawn (q : request) : option string :=
  match q with
  | QBeginRegistration _ _ (Ok b) _ | QBeginAuthentication _ _ (Ok b) _ => Some (b64url_Encode b)
  | _ => None
  end.
Definition presented (q : request) : option string :=
  match q with
  | QFinishRegistration req _ _ => Some (rf_Challenge req)
  | QFinishAuthentication req _ => Some (af_Challenge req)
  | _ => None
  end.

Lemma discard_run {A} (m : SM A) w : (discard m w).2 = (m w).2.
Proof. unfold discard. rewrite M_bind_run. by destruct (m w) as [[] ?]. Qed.
Lemma serve_no_new q (w : world S) : no_new (fun id => drawn q = Some id) (challenges (w_db w)) (challenges (w_db (serve q w).2)).
Proof.
  destruct q; cbn [serve]; rewrite ?discard_run.
  - apply (BeginRegistration_changes _ _ "" _ _ (fun id => drawn (QBeginRegistration cfg identityID buf now) = Some id)). by intros b ->.
  - apply FinishRegistration_changes.
  - apply (BeginAuthentication_changes _ _ "" _ _ (fun id => drawn (QBeginAuthentication cfg identityID buf now) = Some id)). by intros b ->.
  - apply FinishAuthentication_changes.
Qed.
Lemma serve_all_gone x qs : forall w, Forall (fun q => drawn q <> Some x) qs ->
  challenges (w_db w) !! x = None -> challenges (w_db (serve_all qs w)) !! x = None.
Proof.
  induction qs as [|q qs IH]; intros w Hq Hx; [done|]. apply Forall_cons in Hq as [Hq Hqs]. cbn [serve_all fold_left]. apply IH; [done|].
  destruct (challenges (w_db (serve q w).2) !! x) as [ch|] eqn:E; [|done]. apply serve_no_new in E as [E|E]; [by rewrite Hx in E|done].
Qed.

Lemma finish_consumes q x (w : world S) w' : presented q = Some x -> serve q w = (Ok tt, w') ->
  is_Some (challenges (w_db w) !! x) /\ challenges (w_db w') !! x = None.
Proof.
  destruct q as [| req now now'| |req now]; try done; cbn [presented serve]; intros [= <-] Hr.
  - destruct (FinishRegistration_ok _ _ _ _ _ Hr) as (ch & Hch & _ & _ & ->). rewrite Hch. split; [by eexists|apply lookup_delete_eq].
  - destruct (FinishAuthentication_ok _ _ _ _ Hr) as (ch & c & key & Hch & _ & _ & _ & _ & _ & _ & _ & _ & -> & _). rewrite Hch.
    split; [by eexists|apply lookup_delete_eq].
Qed.

(** A challenge is good once: when a registration or an authentication was
    accepted on a challenge, no later one is, whatever requests come in
    between, as long as no new challenge happens to be the same. *)
Theorem passkey_challenge_is_single_use q qs q' x w w1 :
  presented q = Some x -> presented q' = Some x -> serve q w = (Ok tt, w1) ->
  Forall (fun p => drawn p <> Some x) qs ->
  is_ok (serve q' (serve_all qs w1)).1 = false.
Proof.
  intros Hq Hq' Hs Hqs. destruct (finish_consumes _ _ _ _ Hq Hs) as [_ Hgone]. apply (serve_all_gone x qs _ Hqs) in Hgone.
  destruct (serve q' (serve_all qs w1)) as [[[]|e] w2] eqn:E; [|done]. destruct (finish_consumes _ _ _ _ Hq' E) as [[ch Hch] _].
  by rewrite Hgone in Hch.
Qed.
End service.

(** ** The identity of a bound body

    A key that names the field only up to case comes before the field's own
    name in the order of the written object, since it has a capital where they
    first differ. *)

Lemma lower_char_lt c : lower_char c <> c -> (code c <? code (lower_char c))%N = true.
Proof. by destruct c as [[] [] [] [] [] [] [] []]. Qed.
Lemma folded_key_before s k : ToLower s = s -> ToLower k = s -> k <> s -> String.leb s k = false.
Proof.
  unfold ToLower. revert k. induction s as [|d s IH]; intros [|c k] Hs Hk Hne; try done. cbn in Hs, Hk. injection Hs as Hd Hs. injection Hk as Hc Hk.
  rewrite str_leb_cons. destruct (decide (c = d)) as [->|Hcd].
  - rewrite N.ltb_irrefl, N.eqb_refl. cbn. apply IH; [done..|]. congruence.
  - assert (Hlt : (code c <? code d)%N = true) by (rewrite <- Hc; apply lower_char_lt; congruence).
    apply N.ltb_lt in Hlt. apply orb_false_iff. split; [apply N.ltb_ge; lia|]. apply andb_false_iff. left. apply N.eqb_neq. lia.
Qed.

Lemma field_for_name fields key f k : field_for fields key = Some (f, k) -> f = key \/ EqualFold f key = true.
Proof.
  unfold field_for. destruct (List.find _ fields) as [g|] eqn:E1.
  - intros [= ->]. apply List.find_some in E1 as [_ E1]. left. by apply String.eqb_eq.
  - intros E2. apply List.find_some in E2 as [_ E2]. by right.
Qed.
(** Members for other fields leave a field alone. *)
Lemma decode_keeps fields name ms : forall acc acc', decode_members fields ms acc = Some acc' ->
  (forall key v f k, (key, v) ∈ ms -> field_for fields key = Some (f, k) -> f <> name) -> acc' !! name = acc !! name.
Proof.
  induction ms as [|[key v] ms IH]; intros acc acc' Hd Hn; cbn in Hd; [by injection Hd as <-|].
  destruct (field_for fields key) as [[f k]|] eqn:Ef; [|done]. destruct (fits k v); [|done].
  rewrite (IH _ _ Hd); [|intros; eapply Hn; [by right|done]].
  assert (f <> name) by (eapply Hn; [by left|done]). destruct v; by rewrite ?lookup_insert_ne.
Qed.
Lemma decode_app fields l1 l2 : forall acc acc', decode_members fields (l1 ++ l2)%list acc = Some acc' ->
  exists acc1, decode_members fields l1 acc = Some acc1 /\ decode_members fields l2 acc1 = Some acc'.
Proof.
  induction l1 as [|[key v] l1 IH]; intros acc acc' Hd; cbn in *; [by exists acc|].
  destruct (field_for fields key) as [[f k]|]; [|done]. destruct (fits k v); [|done]. by apply IH.
Qed.

Lemma leb_pair_sorted (m : gmap string raw) : StronglySorted (fun a b : string * raw => String.leb a.1 b.1 = true) (marshal_map m).
Proof.
  apply (sort_by_sorted (fun a b : string * raw => String.leb a.1 b.1)).
  - intros x y. apply String.leb_total.
  - intros x y z. apply str_leb_trans.
Qed.

Lemma sorted_after {A} (R : A -> A -> Prop) l1 x l2 : StronglySorted R (l1 ++ x :: l2)%list -> Forall (R x) l2.
Proof. induction l1 as [|y l1 IH]; cbn; intros Hs; apply StronglySorted_inv in Hs as [Hs Hf]; [done|auto]. Qed.

Lemma bound_identity fields jsonType body identityID body' m :
  bindTrustedIdentity jsonType body identityID = Some body' -> field_for fields "identity_id" = Some ("identity_id", KString) ->
  decode_members fields body' ∅ = Some m -> get_text m "identity_id" = identityID.
Proof.
  unfold bindTrustedIdentity. destruct jsonType; [|done]. destruct body as [ms|]; [|done]. cbn [negb].
  destruct (bool_decide _); [done|]. intros [= <-] Hf Hd. set (mp := <["identity_id":=RString identityID]> (to_map ms)) in *.
  assert (Hin : ("identity_id", RString identityID) ∈ marshal_map mp).
  { unfold marshal_map. rewrite sort_by_perm. apply elem_of_map_to_list, lookup_insert_eq. }
  pose proof (leb_pair_sorted mp) as Hsort. assert (Hnd : NoDup (marshal_map mp).*1).
  { unfold marshal_map. rewrite sort_by_perm. apply NoDup_fst_map_to_list. }
  apply list_elem_of_split in Hin as (l1 & l2 & Hl). rewrite Hl in Hd, Hsort, Hnd.
  apply decode_app in Hd as (acc1 & _ & Hd). cbn [decode_members] in Hd. rewrite Hf in Hd. cbn [fits] in Hd.
  unfold get_text. rewrite (decode_keeps _ "identity_id" _ _ _ Hd); [by rewrite lookup_insert_eq|].
  intros key v f k Hkey Hff ->. apply field_for_name in Hff.
  assert (Hne : key <> "identity_id").
  { intros ->. rewrite fmap_app, fmap_cons in Hnd. apply NoDup_app in Hnd as (_ & _ & Hnd). apply NoDup_cons in Hnd as [Hni _]. cbn in Hni.
    apply Hni. apply list_elem_of_fmap. by eexists (_, _). }
  apply sorted_after in Hsort. rewrite Forall_forall in Hsort. specialize (Hsort _ Hkey). cbn [fst] in Hsort.
  rewrite folded_key_before in Hsort; [done|done| |done].
  destruct Hff as [<-|Hff]; [done|]. unfold EqualFold in Hff. apply String.eqb_eq in Hff. by rewrite <- Hff.
Qed.

(** ** Requests through the guard *)

Section http.
Context {S : Type} `{ChallengeStoreLaws S} `{PasskeyEnv} `{UuidText} (cfg : Config) (secret : string).
Abbreviation SM := (M S svc_error).

Lemma answered_run {A} (m : SM A) ok (w : world S) : (answered m ok w).2 = (m w).2.
Proof. unfold answered, attempt, M_try. rewrite M_bind_run. by destruct (m w) as [[a|e] w1]. Qed.

(** The changes of a handler given a body bound to an identity. *)
Lemma posted_changes i fresh r fields body (k : gmap string raw -> SM response) :
  (forall m, decode_members fields body ∅ = Some m -> changes i fresh (k m)) -> changes i fresh (posted r fields (Some body) k).
Proof.
  intros Hk. unfold posted. destruct (negb _); [apply still_changes, still_mret|]. cbn. destruct (decode_members fields body ∅) as [m|]; [by apply Hk|].
  apply still_changes, still_mret.
Qed.
Lemma answered_changes {A} i fresh (m : SM A) ok : changes i fresh m -> changes i fresh (answered m ok).
Proof. intros Hm w. rewrite answered_run. apply Hm. Qed.

Lemma route_changes r jsonType body i body' d : bindTrustedIdentity jsonType body i = Some body' ->
  changes i (fun _ => True) (route cfg r (Some body') d).
Proof.
  intros Hb. unfold route.
  assert (Hid : forall fields m, field_for fields "identity_id" = Some ("identity_id", KString) -> decode_members fields body' ∅ = Some m ->
    get_text m "identity_id" = i) by (intros fields m Hf Hd; by eapply bound_identity).
  repeat case_match; try (apply still_changes, still_mret); apply posted_changes; intros m Hm; apply answered_changes.
  - by apply BeginRegistration_changes.
  - rewrite (Hid registration_fields m eq_refl Hm). apply (FinishRegistration_changes (Build_RegistrationFinishRequest i _ _ _)).
  - by apply BeginAuthentication_changes.
  - rewrite (Hid authentication_fields m eq_refl Hm). apply (FinishAuthentication_changes (Build_AuthenticationFinishRequest i _ _ _ _)).
Qed.

(** C16: Passkeys are managed by their owners: whatever its body holds, a request
    through the guard changes only credentials of the identity its signed
    headers name, and of a stored credential only the count of signatures, by
    one. *)
Theorem passkey_request_is_isolated r jsonType body d (w : world S) id :
  let w' := (requireSignedIdentity cfg secret r jsonType body d w).2 in
  credentials (w_db w') !! id <> credentials (w_db w) !! id ->
  exists i c', verifiedIdentityID secret (Header r) (pd_auth d) = Some i /\
    credentials (w_db w') !! id = Some c' /\ cr_IdentityID c' = i /\
    forall c, credentials (w_db w) !! id = Some c ->
      cr_IdentityID c = i /\ cr_PublicKey c' = cr_PublicKey c /\ cr_SignCount c' = next_count (cr_SignCount c).
Proof.
  cbv zeta. unfold requireSignedIdentity. destruct (negb _); [done|].
  destruct (verifiedIdentityID secret (Header r) (pd_auth d)) as [i|]; [|done].
  destruct (bindTrustedIdentity jsonType body i) as [body'|] eqn:Hb; [|done]. intros Hne.
  destruct (route_changes r _ _ _ _ d Hb w) as [Ho _]. apply Ho in Hne as (c' & Hc' & Hi & Hold). exists i, c'. by split_and!.
Qed.

(** C17: An accepted authentication is signed: when the module accepts an
    authentication, the identity of the signed headers has a stored credential
    whose key verifies the presented signature over that identity, the
    credential and the presented challenge, which was issued to that identity
    for authentication, has not expired and is used up. *)
Theorem passkey_login_is_signed r jsonType body d (w : world S) a w' :
  URL_Path r = "/api/v1/passkeys/authentication/finish" ->
  requireSignedIdentity cfg secret r jsonType body d w = (Ok a, w') -> rs_payload a = POk ->
  exists i req ch c key, verifiedIdentityID secret (Header r) (pd_auth d) = Some i /\ af_IdentityID req = i /\
    credentials (w_db w) !! af_CredentialID req = Some c /\ cr_IdentityID c = i /\ parseCredentialPublicKey (cr_PublicKey c) = Some key /\
    verifyAssertionSignature key i (af_CredentialID req) (af_Challenge req) (af_Signature req) = Ok tt /\
    challenges (w_db w) !! af_Challenge req = Some ch /\ ch_IdentityID ch = i /\ ch_Purpose ch = "authentication" /\
    (pd_now d <= ch_ExpiresAt ch)%Z /\ challenges (w_db w') !! af_Challenge req = None.
Proof.
  intros Hpath Hrun Ha. unfold requireSignedIdentity in Hrun. rewrite Hpath in Hrun. cbn [existsb passkeyRoutes negb String.eqb] in Hrun.
  destruct (verifiedIdentityID secret (Header r) (pd_auth d)) as [i|] eqn:Hi; [|by injection Hrun as <- <-].
  destruct (bindTrustedIdentity jsonType body i) as [body'|] eqn:Hb; [|by injection Hrun as <- <-].
  unfold route in Hrun. rewrite Hpath in Hrun. change (handleAuthenticationFinish r (Some body') d w = (Ok a, w')) in Hrun.
  unfold handleAuthenticationFinish, posted in Hrun. destruct (negb _); [by injection Hrun as <- <-|]. cbn [decodeJSONBody mbind option_bind] in Hrun.
  destruct (decode_members authentication_fields body' ∅) as [m|] eqn:Hm; [|by injection Hrun as <- <-].
  unfold answered, attempt, M_try in Hrun. rewrite M_bind_run in Hrun.
  set (req := {| af_IdentityID := get_text m "identity_id"; af_Challenge := get_text m "challenge"; af_CredentialID := get_text m "credential_id";
       af_Signature := get_text m "signature"; af_SignCount := get_count m "sign_count" |}) in *.
  destruct (FinishAuthentication req (pd_now d) w) as [[[]|e] w1] eqn:Ef; injection Hrun as <- <-; [|done].
  destruct (FinishAuthentication_ok _ _ _ _ Ef) as (ch & c & key & Hch & Hp & Hci & Hexp & Hc & Hcred & _ & Hk & Hv & Hdel & _).
  assert (Hid : af_IdentityID req = i) by exact (bound_identity authentication_fields _ _ _ _ _ Hb eq_refl Hm).
  rewrite Hid in Hci, Hcred, Hv. exists i, req, ch, c, key. rewrite Hdel. split_and!; try done. apply lookup_delete_eq.
Qed.
End http.

(** ** A registration and an authentication *)

Module PasskeysWitness.
#[local] Existing Instance key_order.
#[local] Existing Instance unary_uuid.
#[local] Instance store : ChallengeStore pk_db := Memory.store.
#[local] Instance laws : ChallengeStoreLaws pk_db := memory_laws.
(** A key is its text, and a signature the digest with the key in front. *)
#[local] Instance env : PasskeyEnv :=
  {| pub_key := string; parse_pem_key s := if String.eqb s "" then None else Some s; url_Hostname _ := None;
     VerifyASN1 k digest sig := String.eqb sig (k +:+ digest) |}.

Definition secret : string := "0123456789abcdef0123456789abcdef".
Definition cfg : Config := New {| RPID := ""; RPOrigin := ""; ChallengeTTL := 0; AllowedCredentials := 0 |}.
Definition unsigned : header :=
  Header_Set (Header_Set (Header_Set ∅ "X-User-ID" "111") "X-User-Session-ID" "1") "X-User-AAL" "aal1".
Definition signed : header :=
  match SignIdentityHeaders secret unsigned signedIdentityHeaders (100 * second) with
  | Ok e => Header_Set unsigned "X-Aegion-Signature" e
  | Err _ => unsigned
  end.
Definition to (path : string) : Request :=
  {| Method := "POST"; URL_Path := "/api/v1/passkeys/" +:+ path; URL_RawQuery := ""; Host := "id"; RemoteAddr := ""; TLS := true; Cookies := [];
     Header := signed |}.
Definition d (buf : string) : pdraws :=
  {| pd_now := 100 * second; pd_now2 := 100 * second; pd_buf := Ok buf; pd_auth := 100 * second |}.
Definition send (path : string) (ms : members) (buf : string) (w : world pk_db) := requireSignedIdentity cfg secret (to path) true (Some ms) (d buf) w.

Definition w0 : world pk_db := World Memory.New [].
Definition w1 : world pk_db := (send "registration/start" [] "abc" w0).2.
Definition challenge (b : string) : string := b64url_Encode b.
(** The body names another identity in capitals. *)
Definition enrol : members :=
  [("Identity_ID", RString "11"); ("challenge", RString (challenge "abc")); ("credential_id", RString "c1"); ("public_key", RString "pk")].
Definition w2 : world pk_db := (send "registration/finish" enrol "" w1).2.
Definition w3 : world pk_db := (send "authentication/start" [] "def" w2).2.
Definition signature : string := b64url_Encode ("pk" +:+ sha256 (assertion_message "111" "c1" (challenge "def"))).
Definition login : members :=
  [("credential_id", RString "c1"); ("challenge", RString (challenge "def")); ("signature", RString signature); ("sign_count", RNumber (Some 1%Z))].
Definition last := send "authentication/finish" login "" w3.

Lemma passkey_request_is_isolated_witness :
  exists i c', verifiedIdentityID secret signed (100 * second) = Some i /\ credentials (w_db w2) !! "c1" = Some c' /\ cr_IdentityID c' = i /\
    forall c, credentials (w_db w1) !! "c1" = Some c ->
      cr_IdentityID c = i /\ cr_PublicKey c' = cr_PublicKey c /\ cr_SignCount c' = next_count (cr_SignCount c).
Proof.
  refine (passkey_request_is_isolated cfg secret (to "registration/finish") true (Some enrol) (d "") w1 "c1" _).
  intros E. vm_compute in E. discriminate E.
Defined.
Example capitals_do_not_help : cr_IdentityID <$> credentials (w_db w2) !! "c1" = Some "111".
Proof. vm_compute. reflexivity. Qed.

Lemma passkey_login_is_signed_witness :
  exists i req ch c key, verifiedIdentityID secret signed (100 * second) = Some i /\ af_IdentityID req = i /\
    credentials (w_db w3) !! af_CredentialID req = Some c /\ cr_IdentityID c = i /\ parseCredentialPublicKey (cr_PublicKey c) = Some key /\
    verifyAssertionSignature key i (af_CredentialID req) (af_Challenge req) (af_Signature req) = Ok tt /\
    challenges (w_db w3) !! af_Challenge req = Some ch /\ ch_IdentityID ch = i /\ ch_Purpose ch = "authentication" /\
    (100 * second <= ch_ExpiresAt ch)%Z /\ challenges (w_db last.2) !! af_Challenge req = None.
Proof.
  refine (passkey_login_is_signed cfg secret (to "authentication/finish") true (Some login) (d "") w3 (writeJSON 200 POk) last.2 _ _ _).
  - reflexivity.
  - vm_compute. reflexivity.
  - reflexivity.
Defined.

Definition finish : request := QFinishAuthentication
  {| af_IdentityID := "111"; af_Challenge := challenge "def"; af_CredentialID := "c1"; af_Signature := signature; af_SignCount := 1 |} (100 * second).
Lemma passkey_challenge_is_single_use_witness :
  is_ok (serve finish (serve_all [QBeginAuthentication cfg "111" (Ok "ghi") 0] last.2)).1 = false.
Proof.
  refine (passkey_challenge_is_single_use finish _ finish (challenge "def") w3 last.2 _ _ _ _).
  - reflexivity.
  - reflexivity.
  - vm_compute. reflexivity.
  - repeat constructor. vm_compute. discriminate.
Defined.
End PasskeysWitness.
