(* ===== verification/Egress.v ===== *)
(** internal/platform/egress: outbound requests under an allow-list of hosts
    and networks, with the addresses of a host validated again at each dial.

    Addresses are those of [net/netip] with its classification written out;
    parsing texts and URLs are parameters, and so is what the resolver answers,
    call by call.  The transport is modelled as far as this code shapes it: it
    dials through [dialContext], follows no redirect, and its response is
    bounded. *)

From Stdlib Require Import Ascii String.
From S2P Require Import Prelude GoStrings GoHttp.

Local Open Scope string_scope.

Inductive egress_error : Type :=
| ErrDestinationNotAllowed
| ErrUnsafeAddress
| ErrRedirectNotAllowed
| ErrResponseTooLarge
| EgressFailure (message : string).

(** ** Addresses (net/netip) *)

Inductive addr : Type := AInvalid | V4 (n : Z) | V6 (n : Z) (zone : string).
#[global] Instance addr_eq_dec : EqDecision addr.
Proof. solve_decision. Defined.
Record prefix : Type := { px_is4 : bool; px_addr : Z; px_bits : Z }.

(** The [i]-th byte of a four-byte address, and the high 16 bits of the other. *)
Definition v4 (n : Z) (i : Z) : Z := Z.land (Z.shiftr n (8 * (3 - i))) 255.
Definition v6u16 (n : Z) : Z := Z.shiftr n 112.

Definition Unmap (a : addr) : addr :=
  match a with
  | V6 n _ => if (Z.shiftr n 32 =? 65535)%Z then V4 (Z.land n (2 ^ 32 - 1)) else a
  | _ => a
  end.
Definition IsValid (a : addr) : bool := match a with AInvalid => false | _ => true end.
Definition IsLoopback (a : addr) : bool :=
  match a with V4 n => (v4 n 0 =? 127)%Z | V6 n z => (n =? 1)%Z | AInvalid => false end.
Definition IsMulticast (a : addr) : bool :=
  match a with V4 n => (Z.land (v4 n 0) 240 =? 224)%Z | V6 n _ => (Z.shiftr (v6u16 n) 8 =? 255)%Z | AInvalid => false end.
Definition IsLinkLocalUnicast (a : addr) : bool :=
  match a with
  | V4 n => (v4 n 0 =? 169)%Z && (v4 n 1 =? 254)%Z
  | V6 n _ => (Z.land (v6u16 n) 65472 =? 65152)%Z
  | AInvalid => false
  end.
Definition IsLinkLocalMulticast (a : addr) : bool :=
  match a with
  | V4 n => (v4 n 0 =? 224)%Z && (v4 n 1 =? 0)%Z && (v4 n 2 =? 0)%Z
  | V6 n _ => (Z.land (v6u16 n) 65295 =? 65282)%Z
  | AInvalid => false
  end.
Definition IsPrivate (a : addr) : bool :=
  match a with
  | V4 n => (v4 n 0 =? 10)%Z || ((v4 n 0 =? 172)%Z && (Z.land (v4 n 1) 240 =? 16)%Z) || ((v4 n 0 =? 192)%Z && (v4 n 1 =? 168)%Z)
  | V6 n _ => (Z.land (Z.shiftr (v6u16 n) 8) 254 =? 252)%Z
  | AInvalid => false
  end.
Definition IsUnspecified (a : addr) : bool := bool_decide (a = V4 0 \/ a = V6 0 "").
Definition IsGlobalUnicast (a : addr) : bool :=
  match a with
  | AInvalid => false
  | V4 n => if (n =? 0)%Z || (n =? 2 ^ 32 - 1)%Z then false
            else negb (IsLoopback a) && negb (IsMulticast a) && negb (IsLinkLocalUnicast a)
  | V6 _ _ => negb (bool_decide (a = V6 0 "")) && negb (IsLoopback a) && negb (IsMulticast a) && negb (IsLinkLocalUnicast a)
  end.

Definition width (is4 : bool) : Z := if is4 then 32 else 128.
(** [Prefix.Masked] and [Prefix.Contains]. *)
Definition Masked (p : prefix) : prefix :=
  let k := (width (px_is4 p) - px_bits p)%Z in
  {| px_is4 := px_is4 p; px_addr := Z.shiftl (Z.shiftr (px_addr p) k) k; px_bits := px_bits p |}.
Definition Contains (p : prefix) (a : addr) : bool :=
  match a with
  | V4 n => px_is4 p && (Z.shiftr (Z.lxor n (px_addr p)) (32 - px_bits p) =? 0)%Z
  | V6 n zone => negb (px_is4 p) && String.eqb zone "" && (Z.shiftr (Z.lxor n (px_addr p)) (128 - px_bits p) =? 0)%Z
  | AInvalid => false
  end.

(** ** The policy *)

(** [netip.ParseAddr] and [ParsePrefix], and [url.Parse]. *)
Record parsed_url : Type := { u_Scheme : string; u_Host : string; u_User : bool; u_Fragment : string; u_Hostname : string }.
Class NetEnv := {
  ParseAddr : string -> option addr;
  ParsePrefix : string -> option prefix;
  url_Parse : string -> option parsed_url;
}.

Record Policy : Type := { AllowedHosts : list string; AllowedCIDRs : list string; TrustedCIDRs : list string; Timeout : duration; MaxBodyBytes : Z }.
Record compiledPolicy : Type := { allowedHosts : list string; allowedCIDRs : list prefix; trustedCIDRs : list prefix }.
Record Client : Type := { policy : compiledPolicy; timeout : duration; maxBodySize : Z }.

(** A dotted form of an address with its mask length, for the table below. *)
Definition net4 (a b c d bits : Z) : prefix := {| px_is4 := true; px_addr := ((a * 256 + b) * 256 + c) * 256 + d; px_bits := bits |}.
Definition forbiddenPrefixes : list prefix :=
  [net4 100 64 0 0 10; net4 192 0 0 0 24; net4 192 0 2 0 24; net4 198 18 0 0 15; net4 198 51 100 0 24; net4 203 0 113 0 24; net4 240 0 0 0 4;
   {| px_is4 := false; px_addr := Z.shiftl 0x20010db8 96; px_bits := 32 |}].

Definition inPrefixes (a : addr) (ps : list prefix) : bool := existsb (fun p => Contains p a) ps.
Definition isForbiddenAddress (a : addr) : bool :=
  (negb (IsGlobalUnicast a) || IsPrivate a || IsLoopback a || IsLinkLocalUnicast a || IsLinkLocalMulticast a || IsMulticast a || IsUnspecified a) ||
  existsb (fun p => Contains p a) forbiddenPrefixes.

Section egress.
Context `{NetEnv}.

Definition normal_host (host : string) : string := ToLower (TrimSuffix (TrimSpace host) ".").
Fixpoint compile_hosts (hosts : list string) : result egress_error (list string) :=
  match hosts with
  | [] => Ok []
  | h :: rest =>
      let host := normal_host h in
      if String.eqb host "" || GoStrings.Contains host "://" || GoStrings.Contains host "/" then Err (EgressFailure "invalid allowed host")
      else match compile_hosts rest with Ok hs => Ok (host :: hs) | Err e => Err e end
  end.
Fixpoint parsePrefixes (raws : list string) : result egress_error (list prefix) :=
  match raws with
  | [] => Ok []
  | v :: rest =>
      match ParsePrefix (TrimSpace v) with
      | None => Err (EgressFailure "invalid CIDR")
      | Some p => match parsePrefixes rest with Ok ps => Ok (Masked p :: ps) | Err e => Err e end
      end
  end.
Definition compilePolicy (p : Policy) : result egress_error compiledPolicy :=
  match compile_hosts (AllowedHosts p) with
  | Err e => Err e
  | Ok hosts =>
      match parsePrefixes (AllowedCIDRs p) with
      | Err e => Err e
      | Ok cidrs =>
          match hosts, cidrs with
          | [], [] => Err (EgressFailure "at least one egress host or CIDR allowlist entry is required")
          | _, _ =>
              match parsePrefixes (TrustedCIDRs p) with
              | Err e => Err e
              | Ok trusted => Ok {| allowedHosts := hosts; allowedCIDRs := cidrs; trustedCIDRs := trusted |}
              end
          end
      end
  end.
Definition NewClient (p : Policy) : result egress_error Client :=
  match compilePolicy p with
  | Err e => Err e
  | Ok c => Ok {| policy := c; timeout := if (Timeout p <=? 0)%Z then (10 * second)%Z else Timeout p;
                  maxBodySize := if (MaxBodyBytes p <=? 0)%Z then Z.shiftl 1 20 else MaxBodyBytes p |}
  end.

Definition host_matches (host allowed : string) : bool :=
  String.eqb host allowed || (HasPrefix allowed "*." && HasSuffix host (TrimPrefix allowed "*")).
Definition hostAllowed (p : compiledPolicy) (host : string) : bool :=
  match ParseAddr host with
  | Some literal => inPrefixes (Unmap literal) (allowedCIDRs p)
  | None => existsb (host_matches host) (allowedHosts p)
  end.
Definition validateAddress (p : compiledPolicy) (a : addr) : result egress_error unit :=
  if negb (IsValid a) || isForbiddenAddress a then
    if inPrefixes a (trustedCIDRs p) && inPrefixes a (allowedCIDRs p) then Ok tt else Err ErrUnsafeAddress
  else if negb (bool_decide (allowedCIDRs p = [])) && negb (inPrefixes a (allowedCIDRs p)) && bool_decide (allowedHosts p = [])
  then Err ErrDestinationNotAllowed
  else Ok tt.
Fixpoint validate_all (p : compiledPolicy) (addrs : list addr) : result egress_error (list addr) :=
  match addrs with
  | [] => Ok []
  | a :: rest =>
      match validateAddress p (Unmap a) with
      | Err e => Err e
      | Ok _ => match validate_all p rest with Ok l => Ok (Unmap a :: l) | Err e => Err e end
      end
  end.
(** [slices.Compact]. *)
Fixpoint compact (l : list addr) : list addr :=
  match l with
  | a :: ((b :: _) as rest) => if bool_decide (a = b) then compact rest else a :: compact rest
  | l => l
  end.
(** [answer]: what the resolver gives for the host this time. *)
Definition resolveAndValidate (p : compiledPolicy) (host : string) (answer : result string (list addr)) : result egress_error (list addr) :=
  let host := normal_host host in
  if String.eqb host "" || negb (hostAllowed p host) then Err ErrDestinationNotAllowed
  else match ParseAddr host with
  | Some literal =>
      match validateAddress p (Unmap literal) with Err e => Err e | Ok _ => Ok [Unmap literal] end
  | None =>
      match answer with
      | Err m => Err (EgressFailure m)
      | Ok [] => Err (EgressFailure "no addresses")
      | Ok addrs => match validate_all p addrs with Err e => Err e | Ok l => Ok (compact l) end
      end
  end.

Definition ValidateURL (c : Client) (rawURL : string) (answer : result string (list addr)) : result egress_error parsed_url :=
  match url_Parse rawURL with
  | None => Err (EgressFailure "parse egress URL")
  | Some u =>
      if negb (String.eqb (u_Scheme u) "https") || String.eqb (u_Host u) "" || u_User u then Err ErrDestinationNotAllowed
      else if negb (String.eqb (u_Fragment u) "") then Err (EgressFailure "egress URL must not contain a fragment")
      else match resolveAndValidate (policy c) (u_Hostname u) answer with Err e => Err e | Ok _ => Ok u end
  end.

(** The addresses are dialled in turn until one answers; the result lists the
    attempts. *)
Fixpoint dial_all (dial : addr -> bool) (addrs : list addr) : list addr * option addr :=
  match addrs with
  | [] => ([], None)
  | a :: rest => if dial a then ([a], Some a) else let '(tried, got) := dial_all dial rest in (a :: tried, got)
  end.
Definition dialContext (p : compiledPolicy) (address : string) (answer : result string (list addr)) (dial : addr -> bool)
    : list addr * result egress_error addr :=
  match SplitHostPort address with
  | None => ([], Err (EgressFailure "address"))
  | Some host =>
      match resolveAndValidate p host answer with
      | Err e => ([], Err e)
      | Ok addrs =>
          let '(tried, got) := dial_all dial addrs in
          (tried, match got with Some a => Ok a | None => Err (EgressFailure "dial") end)
      end
  end.

(** What the destination answers. *)
Record reply : Type := { rp_redirect : bool; rp_ContentLength : Z }.
(** One request: the resolver is asked for the check and again by the dial to
    [host:port]; [reused] is set when the transport has an open connection to
    that host, which an earlier dial made. *)
Definition Do (c : Client) (rawURL address : string) (answer1 answer2 : result string (list addr)) (dial : addr -> bool) (reused : bool)
    (exchange : result string reply) : list addr * result egress_error reply :=
  match ValidateURL c rawURL answer1 with
  | Err e => ([], Err e)
  | Ok _ =>
      let '(tried, conn) := if reused then ([], Ok AInvalid) else dialContext (policy c) address answer2 dial in
      (tried,
       match conn with
       | Err e => Err e
       | Ok _ =>
           match exchange with
           | Err m => Err (EgressFailure m)
           | Ok rp => if rp_redirect rp then Err ErrRedirectNotAllowed
                      else if (maxBodySize c <? rp_ContentLength rp)%Z then Err ErrResponseTooLarge
                      else Ok rp
           end
       end)
  end.
End egress.

(** ** The bounded body

    A body still to come, and how much of it each read of the connection is
    ready to give (at least one byte while there is some, as [io.Reader] asks
    for). *)
Record stream : Type := { s_rest : string; s_ready : list nat }.
Inductive read_error : Type := ReadEOF | ReadTooLarge | ReadPanic.

(** [Read] of the connection into a buffer of [len] bytes. *)
Definition raw_read (st : stream) (len : nat) : string * option read_error * stream :=
  if String.eqb (s_rest st) "" then ("", Some ReadEOF, st)
  else
    let n := Nat.min len (Nat.min (String.length (s_rest st)) (Nat.max 1 (hd 1 (s_ready st)))) in
    (str_take n (s_rest st), None, {| s_rest := str_drop n (s_rest st); s_ready := tl (s_ready st) |}).

(** [remaining+1] is at 64 bits; a negative one is smaller than any length and
    slicing the buffer by it panics. *)
Record limitedReadCloser : Type := { lr_stream : stream; lr_remaining : Z }.
Definition Read (r : limitedReadCloser) (len : nat) : string * option read_error * limitedReadCloser :=
  if (lr_remaining r <=? 0)%Z then
    let '(b, e, st) := raw_read (lr_stream r) 1 in
    let r' := {| lr_stream := st; lr_remaining := lr_remaining r |} in
    if (0 <? String.length b)%nat then ("", Some ReadTooLarge, r') else ("", e, r')
  else
    let cut := wrap64 (lr_remaining r + 1) in
    if (cut <? 0)%Z then ("", Some ReadPanic, r) else
    let len := if (cut <? Z.of_nat len)%Z then Z.to_nat cut else len in
    let '(b, e, st) := raw_read (lr_stream r) len in
    if (lr_remaining r <? Z.of_nat (String.length b))%Z
    then (str_take (Z.to_nat (lr_remaining r)) b, Some ReadTooLarge, {| lr_stream := st; lr_remaining := 0 |})
    else (b, e, {| lr_stream := st; lr_remaining := lr_remaining r - Z.of_nat (String.length b) |}).
(** Reads with buffers of the given sizes, up to the first error. *)
Fixpoint read_all (r : limitedReadCloser) (lens : list nat) : string * option read_error :=
  match lens with
  | [] => ("", None)
  | len :: rest =>
      let '(b, e, r') := Read r len in
      match e with
      | Some e => (b, Some e)
      | None => let '(more, e') := read_all r' rest in (b +:+ more, e')
      end
  end.
