(* ===== verification/EgressFacts.v ===== *)
(** internal/platform/egress: where requests can go, and how much of a body is
    read. *)

From Stdlib Require Import Ascii String ZifyBool Btauto.
From S2P Require Import Prelude GoStrings GoHttp Egress.

Local Open Scope string_scope.

(** ** The forbidden ranges *)

Definition net6 (high : Z) (bits : Z) : prefix := {| px_is4 := false; px_addr := Z.shiftl high (128 - bits); px_bits := bits |}.
Definition special4 : list prefix :=
  [net4 0 0 0 0 32; net4 10 0 0 0 8; net4 100 64 0 0 10; net4 127 0 0 0 8; net4 169 254 0 0 16; net4 172 16 0 0 12; net4 192 0 0 0 24;
   net4 192 0 2 0 24; net4 192 168 0 0 16; net4 198 18 0 0 15; net4 198 51 100 0 24; net4 203 0 113 0 24; net4 224 0 0 0 4; net4 240 0 0 0 4].
Definition special6 : list prefix :=
  [net6 0 128; net6 1 128; net6 0x7e 7; net6 0x3fa 10; net6 0xff 8; net6 0x20010db8 32].

Lemma lxor_shift n b k : (0 <= k)%Z -> (Z.shiftr (Z.lxor n b) k =? 0)%Z = (n / 2 ^ k =? b / 2 ^ k)%Z.
Proof.
  intros Hk. rewrite Z.shiftr_lxor, !Z.shiftr_div_pow2 by done.
  destruct (Z.eqb_spec (n / 2 ^ k) (b / 2 ^ k)) as [->|Hne]; [by rewrite Z.lxor_nilpotent|].
  apply Z.eqb_neq. by rewrite Z.lxor_eq_0_iff.
Qed.
Ltac euclid := Z.to_euclidean_division_equations; lia.

(** Masks that keep the high bits. *)
Lemma land_high x k m : (0 <= k)%Z -> (0 <= m)%Z -> Z.land x (Z.shiftl (Z.ones m) k) = ((x / 2 ^ k) mod 2 ^ m * 2 ^ k)%Z.
Proof.
  intros Hk Hm. rewrite <- Z.shiftr_div_pow2, <- Z.land_ones, <- Z.shiftl_mul_pow2 by done. apply Z.bits_inj'. intros i Hi.
  rewrite Z.land_spec, !Z.shiftl_spec, Z.land_spec by done. destruct (Z.leb_spec k i).
  - rewrite Z.shiftr_spec by lia. by replace (i - k + k)%Z with i by lia.
  - by rewrite !(Z.testbit_neg_r _ (i - k)), andb_false_r by lia.
Qed.
Lemma land_240 x : (0 <= x < 256)%Z -> Z.land x 240 = (x / 16 * 16)%Z.
Proof. intros Hx. change 240%Z with (Z.shiftl (Z.ones 4) 4). rewrite land_high by lia. by rewrite Z.mod_small by euclid. Qed.
Lemma land_254 x : (0 <= x < 256)%Z -> Z.land x 254 = (x / 2 * 2)%Z.
Proof. intros Hx. change 254%Z with (Z.shiftl (Z.ones 7) 1). rewrite land_high by lia. by rewrite Z.mod_small by euclid. Qed.

Lemma v4_byte n i : (0 <= i <= 3)%Z -> v4 n i = (n / 2 ^ (8 * (3 - i)) mod 256)%Z.
Proof. intros Hi. unfold v4. rewrite Z.shiftr_div_pow2 by lia. change 255%Z with (Z.ones 8). by rewrite Z.land_ones. Qed.

(** The bytes of an address decide its quotients. *)
Lemma quot_bytes n : (0 <= n < 2 ^ 32)%Z ->
  exists a b c d, (0 <= a < 256)%Z /\ (0 <= b < 256)%Z /\ (0 <= c < 256)%Z /\ (0 <= d < 256)%Z /\ n = (((a * 256 + b) * 256 + c) * 256 + d)%Z.
Proof.
  intros Hn. exists (n / 2 ^ 24)%Z, (n / 2 ^ 16 mod 256)%Z, (n / 2 ^ 8 mod 256)%Z, (n mod 256)%Z.
  split_and!; try (apply Z.mod_pos_bound; lia); euclid.
Qed.
Lemma unspecified4 n : bool_decide (V4 n = V4 0 \/ V4 n = V6 0 "") = (n =? 0)%Z.
Proof. destruct (Z.eqb_spec n 0) as [->|Hn]; [by rewrite bool_decide_eq_true; left|]. rewrite bool_decide_eq_false. intros [[= ?]|?]; done. Qed.

Lemma forbidden4 n : (0 <= n < 2 ^ 32)%Z -> isForbiddenAddress (V4 n) = inPrefixes (V4 n) special4.
Proof.
  intros Hn. unfold isForbiddenAddress, IsGlobalUnicast, IsPrivate, IsLoopback, IsLinkLocalUnicast, IsLinkLocalMulticast, IsMulticast, IsUnspecified, inPrefixes.
  cbn [existsb special4 forbiddenPrefixes Contains net4 px_is4 px_addr px_bits andb negb].
  rewrite !lxor_shift by lia. rewrite !v4_byte by lia. rewrite !land_240 by (apply Z.mod_pos_bound; lia). rewrite unspecified4.
  destruct (quot_bytes n Hn) as (a & b & c & d & Ha & Hb & Hc & Hd & ->).
  set (n := (((a * 256 + b) * 256 + c) * 256 + d)%Z).
  assert (H0 : (n / 2 ^ (8 * (3 - 0)) mod 256 = a)%Z) by (unfold n; euclid).
  assert (H1 : (n / 2 ^ (8 * (3 - 1)) mod 256 = b)%Z) by (unfold n; euclid).
  assert (H2 : (n / 2 ^ (8 * (3 - 2)) mod 256 = c)%Z) by (unfold n; euclid).
  assert (K8 : (n / 2 ^ (32 - 24) = (a * 256 + b) * 256 + c)%Z) by (unfold n; euclid).
  assert (K16 : (n / 2 ^ (32 - 16) = a * 256 + b)%Z) by (unfold n; euclid).
  assert (K17 : (n / 2 ^ (32 - 15) = a * 128 + b / 2)%Z) by (unfold n; euclid).
  assert (K20 : (n / 2 ^ (32 - 12) = a * 16 + b / 16)%Z) by (unfold n; euclid).
  assert (K22 : (n / 2 ^ (32 - 10) = a * 4 + b / 64)%Z) by (unfold n; euclid).
  assert (K24 : (n / 2 ^ (32 - 8) = a)%Z) by (unfold n; euclid).
  assert (K28 : (n / 2 ^ (32 - 4) = a / 16)%Z) by (unfold n; euclid).
  assert (K0 : (n / 2 ^ (32 - 32) = n)%Z) by (apply Z.div_1_r).
  rewrite H0, H1, H2, K0, K8, K16, K17, K20, K22, K24, K28. clear H0 H1 H2 K0 K8 K16 K17 K20 K22 K24 K28. unfold n. clear n Hn.
  change (2 ^ 32 - 1)%Z with 4294967295%Z.
  repeat match goal with |- context [(?x =? ?y / ?z)%Z] => let v := eval vm_compute in (y / z)%Z in change (y / z)%Z with v end.
  assert (E1 : (a / 16 * 16 =? 224)%Z = (a / 16 =? 14)%Z) by lia.
  assert (E2 : ((a =? 169) && (b =? 254))%Z = (a * 256 + b =? 43518)%Z) by lia.
  assert (E3 : ((a =? 172) && (b / 16 * 16 =? 16))%Z = (a * 16 + b / 16 =? 2753)%Z) by euclid.
  assert (E4 : ((a =? 192) && (b =? 168))%Z = (a * 256 + b =? 49320)%Z) by lia.
  assert (E5 : ((a =? 224) && (b =? 0) && (c =? 0))%Z = (a / 16 =? 14)%Z && ((a =? 224) && (b =? 0) && (c =? 0))%Z).
  { destruct (Z.eqb_spec a 224) as [->|]; [done|]. by rewrite !andb_false_r. }
  assert (E6 : (((a * 256 + b) * 256 + c) * 256 + d =? 4294967295)%Z =
    (a / 16 =? 15)%Z && (((a * 256 + b) * 256 + c) * 256 + d =? 4294967295)%Z).
  { destruct (Z.eqb_spec (((a * 256 + b) * 256 + c) * 256 + d) 4294967295); [|by rewrite andb_false_r].
    clear E1 E2 E3 E4 E5. assert (a = 255)%Z as -> by lia. done. }
  assert (Eif : forall x y, negb (if x : bool then false else y) = x || negb y) by (by intros [] []).
  rewrite Eif, E1, E2, E3, E4, E5, E6.
  repeat match goal with |- context [(?x =? ?y)%Z] => generalize (x =? y)%Z; intros ? end. btauto.
Qed.

Lemma unspecified6 n : bool_decide (V6 n "" = V4 0 \/ V6 n "" = V6 0 "") = (n =? 0)%Z.
Proof. destruct (Z.eqb_spec n 0) as [->|Hn]; [by rewrite bool_decide_eq_true; right|]. rewrite bool_decide_eq_false. intros [?|[= ?]]; done. Qed.
Lemma zero6 n : bool_decide (V6 n "" = V6 0 "") = (n =? 0)%Z.
Proof. destruct (Z.eqb_spec n 0) as [->|Hn]; [by rewrite bool_decide_eq_true|]. rewrite bool_decide_eq_false. by intros [= ?]. Qed.
Lemma land_fe80 x : (0 <= x < 65536)%Z -> (Z.land x 65472 =? 65152)%Z = (x / 64 =? 1018)%Z.
Proof.
  intros Hx. change 65472%Z with (Z.shiftl (Z.ones 10) 6). rewrite land_high by lia. rewrite Z.mod_small by euclid. change (2 ^ 6)%Z with 64%Z. lia.
Qed.
Lemma land_ff02 x : (0 <= x < 65536)%Z -> (Z.land x 65295 =? 65282)%Z = (x / 256 =? 255)%Z && (Z.land x 65295 =? 65282)%Z.
Proof.
  intros Hx. destruct (Z.eqb_spec (Z.land x 65295) 65282) as [He|]; [|by rewrite andb_false_r]. rewrite andb_true_r. symmetry. apply Z.eqb_eq.
  apply (f_equal (fun y => Z.shiftr y 8)) in He. rewrite Z.shiftr_land in He. change (Z.shiftr 65295 8) with (Z.ones 8) in He.
  rewrite Z.land_ones, Z.shiftr_div_pow2 in He by lia. change (2 ^ 8)%Z with 256%Z in He. change (Z.shiftr 65282 8) with 255%Z in He. euclid.
Qed.
Lemma land_fc x : (0 <= x < 256)%Z -> (Z.land x 254 =? 252)%Z = (x / 2 =? 126)%Z.
Proof. intros Hx. rewrite land_254 by done. euclid. Qed.

Lemma forbidden6 n : (0 <= n < 2 ^ 128)%Z -> isForbiddenAddress (V6 n "") = inPrefixes (V6 n "") special6.
Proof.
  intros Hn. unfold isForbiddenAddress, IsGlobalUnicast, IsPrivate, IsLoopback, IsLinkLocalUnicast, IsLinkLocalMulticast, IsMulticast, IsUnspecified, inPrefixes, v6u16.
  cbn [existsb special6 forbiddenPrefixes Contains net4 net6 px_is4 px_addr px_bits andb negb String.eqb].
  rewrite !lxor_shift by lia. rewrite unspecified6, zero6, !Z.shiftr_div_pow2 by lia.
  set (h := (n / 2 ^ 112)%Z). assert (Hh : (0 <= h < 65536)%Z) by (unfold h; euclid).
  rewrite land_fe80, land_ff02 by done. rewrite land_fc by euclid.
  assert (K8 : (h / 2 ^ 8 = n / 2 ^ (128 - 8))%Z) by (unfold h; rewrite Z.div_div by lia; done).
  assert (K7 : (n / 2 ^ (128 - 8) / 2 = n / 2 ^ (128 - 7))%Z) by (rewrite Z.div_div by lia; done).
  assert (K10 : (h / 64 = n / 2 ^ (128 - 10))%Z) by (unfold h; rewrite Z.div_div by lia; done).
  change (h / 256)%Z with (h / 2 ^ 8)%Z. rewrite K8, K7, K10. change (n / 2 ^ (128 - 128))%Z with (n / 1)%Z. rewrite Z.div_1_r.
  repeat match goal with |- context [(?x =? ?y / ?z)%Z] => let v := eval vm_compute in (y / z)%Z in change (y / z)%Z with v end.
  repeat match goal with |- context [(?x =? ?y)%Z] => generalize (x =? y)%Z; intros ? end. btauto.
Qed.

(** What an address outside the special ranges is; an address with a zone is in
    no network. *)
Definition in_range (a : addr) : Prop :=
  match a with V4 n => (0 <= n < 2 ^ 32)%Z | V6 n _ => (0 <= n < 2 ^ 128)%Z | AInvalid => False end.
Definition special (a : addr) : bool := inPrefixes a special4 || inPrefixes a special6.
Definition zone_of (a : addr) : string := match a with V6 _ z => z | _ => "" end.

Lemma special_v4 n : special (V4 n) = inPrefixes (V4 n) special4.
Proof. unfold special. assert (inPrefixes (V4 n) special6 = false) as -> by done. by rewrite orb_false_r. Qed.
Lemma special_v6 n : special (V6 n "") = inPrefixes (V6 n "") special6.
Proof. done. Qed.
Lemma forbidden_special a : in_range a -> zone_of a = "" -> isForbiddenAddress a = special a.
Proof.
  destruct a as [|n|n z]; [done|intros Hn _; rewrite special_v4; by apply forbidden4|].
  cbn [zone_of]. intros Hn ->. rewrite special_v6. by apply forbidden6.
Qed.

(** ** Where requests go *)

Definition destination_ok (p : compiledPolicy) (a : addr) : Prop :=
  (IsValid a = true /\ isForbiddenAddress a = false /\ (allowedHosts p = [] -> allowedCIDRs p = [] \/ inPrefixes a (allowedCIDRs p) = true)) \/
  (inPrefixes a (trustedCIDRs p) = true /\ inPrefixes a (allowedCIDRs p) = true).

Lemma validateAddress_ok p a u : validateAddress p a = Ok u -> destination_ok p a.
Proof.
  unfold validateAddress, destination_ok. destruct (negb (IsValid a) || isForbiddenAddress a) eqn:Hf.
  - destruct (_ && _) eqn:Ht; [|done]. apply andb_true_iff in Ht. auto.
  - apply orb_false_iff in Hf as [Hv Hf]. apply negb_false_iff in Hv. destruct (_ && _) eqn:Ha; [done|]. intros _. left. split_and!; [done..|].
    intros Hh. rewrite Hh, andb_true_r in Ha. apply andb_false_iff in Ha as [Ha|Ha].
    + left. apply negb_false_iff, bool_decide_eq_true in Ha. done.
    + right. by apply negb_false_iff in Ha.
Qed.
Lemma validate_all_ok p l l' : validate_all p l = Ok l' -> Forall (destination_ok p) l' /\ l' = map Unmap l.
Proof.
  revert l'. induction l as [|a l IH]; cbn [validate_all map]; intros l'; [by intros [= <-]|].
  destruct (validateAddress p (Unmap a)) as [u|e] eqn:Ha; [|done]. destruct (validate_all p l) as [l2|e]; [|done]. intros [= <-].
  destruct (IH _ eq_refl) as [Hok ->]. split; [|done]. constructor; [by eapply validateAddress_ok|done].
Qed.
Lemma compact_incl l : Forall (fun a => a ∈ l) (compact l).
Proof.
  induction l as [|a [|b l] IH]; cbn [compact]; [constructor|repeat constructor|]. assert (IH' : Forall (fun x => x ∈ a :: b :: l) (compact (b :: l))).
  { eapply Forall_impl; [exact IH|]. cbn beta. intros x Hx. by right. }
  case_bool_decide; [exact IH'|]. constructor; [by left|exact IH'].
Qed.

Section where_.
Context `{NetEnv}.

Lemma resolve_ok p host answer l : resolveAndValidate p host answer = Ok l ->
  hostAllowed p (normal_host host) = true /\ Forall (destination_ok p) l.
Proof.
  unfold resolveAndValidate. destruct (_ || _) eqn:Hh; [done|]. apply orb_false_iff in Hh as [_ Hh]. apply negb_false_iff in Hh.
  destruct (ParseAddr _) as [literal|].
  - destruct (validateAddress _ _) as [u|e] eqn:Hv; [|done]. intros [= <-]. split; [done|]. constructor; [by eapply validateAddress_ok|constructor].
  - destruct answer as [[|a addrs]|m]; [done| |done]. destruct (validate_all _ _) as [l2|e] eqn:Hv; [|done]. intros [= <-].
    split; [done|]. destruct (validate_all_ok _ _ _ Hv) as [Hok _]. eapply Forall_impl; [apply compact_incl|]. cbn beta. intros x Hx.
    rewrite Forall_forall in Hok. by apply Hok.
Qed.
Lemma dial_all_tried dial l : Forall (fun a => a ∈ l) (fst (dial_all dial l)).
Proof.
  induction l as [|a l IH]; cbn [dial_all]; [constructor|]. destruct (dial a); [repeat constructor|]. destruct (dial_all dial l) as [tried got].
  cbn [fst] in *. constructor; [by left|]. eapply Forall_impl; [exact IH|]. cbn beta. intros x Hx. by right.
Qed.
Lemma dialContext_ok p address answer dial tried r : dialContext p address answer dial = (tried, r) ->
  Forall (destination_ok p) tried /\
  (tried <> [] -> exists host, SplitHostPort address = Some host /\ hostAllowed p (normal_host host) = true).
Proof.
  unfold dialContext. destruct (SplitHostPort address) as [host|]; [|intros [= <- _]; by split].
  destruct (resolveAndValidate p host answer) as [l|e] eqn:Hr; [|intros [= <- _]; by split]. destruct (resolve_ok _ _ _ _ Hr) as [Hh Hok].
  pose proof (dial_all_tried dial l) as Ht. destruct (dial_all dial l) as [tr got]. cbn [fst] in Ht. intros [= <- _]. split; [|by eauto].
  eapply Forall_impl; [exact Ht|]. cbn beta. intros x Hx. rewrite Forall_forall in Hok. by apply Hok.
Qed.
Lemma ValidateURL_ok c raw answer u : ValidateURL c raw answer = Ok u ->
  url_Parse raw = Some u /\ u_Scheme u = "https" /\ u_User u = false /\ hostAllowed (policy c) (normal_host (u_Hostname u)) = true.
Proof.
  unfold ValidateURL. destruct (url_Parse raw) as [v|]; [|done]. destruct (_ || _) eqn:Hs; [done|]. destruct (negb (u_Fragment v =? "")); [done|].
  destruct (resolveAndValidate _ _ _) as [l|e] eqn:Hr; [|done]. intros [= <-]. apply orb_false_iff in Hs as [Hs Hu]. apply orb_false_iff in Hs as [Hs _].
  apply negb_false_iff, String.eqb_eq in Hs. destruct (resolve_ok _ _ _ _ Hr) as [Hh _]. done.
Qed.

Definition public (a : addr) : Prop := in_range a -> zone_of a = "" -> special a = false.

(** C25: Whatever the resolver answers at the check and at the dial, a request whose
    URL is not of HTTPS to an allow-listed host without credentials is refused
    before any dial; the addresses dialled are of an allow-listed host, and each
    is outside the special-purpose networks of the tables [special4] and
    [special6] (and inside the allowed networks when the policy names only
    networks), or is inside both the trusted and the allowed networks. *)
Theorem egress_dials_only_allowed c raw address answer1 answer2 dial reused exchange tried r :
  Do c raw address answer1 answer2 dial reused exchange = (tried, r) ->
  ((exists u, url_Parse raw = Some u /\ u_Scheme u = "https" /\ u_User u = false /\ hostAllowed (policy c) (normal_host (u_Hostname u)) = true) \/
   (tried = [] /\ exists e, r = Err e)) /\
  (tried <> [] -> exists host, SplitHostPort address = Some host /\ hostAllowed (policy c) (normal_host host) = true) /\
  Forall (fun a =>
    (public a /\ (allowedHosts (policy c) = [] -> allowedCIDRs (policy c) = [] \/ inPrefixes a (allowedCIDRs (policy c)) = true)) \/
    (inPrefixes a (trustedCIDRs (policy c)) = true /\ inPrefixes a (allowedCIDRs (policy c)) = true)) tried.
Proof.
  unfold Do. destruct (ValidateURL c raw answer1) as [u|e] eqn:Hv; [|intros [= <- <-]; split_and!; [right; by eauto|done|constructor]].
  apply ValidateURL_ok in Hv. destruct (if reused then _ else _) as [tr conn] eqn:Hd. intros [= <- _]. split; [left; by eauto|].
  assert (Hok : Forall (destination_ok (policy c)) tr /\
    (tr <> [] -> exists host, SplitHostPort address = Some host /\ hostAllowed (policy c) (normal_host host) = true)).
  { destruct reused; [injection Hd as <- _; by split|by eapply dialContext_ok]. }
  destruct Hok as [Hok Hhost]. split; [done|]. eapply Forall_impl; [exact Hok|]. cbn beta. intros a [(_ & Hf & Hc)|Ht]; [left|by right].
  split; [|done]. intros Hrange Hzone. by rewrite <- forbidden_special.
Qed.
End where_.

(** ** How much is read *)

Lemma str_take_take k n s : k <= n -> str_take k (str_take n s) = str_take k s.
Proof.
  revert k n. induction s as [|x s IH]; intros [|k] [|n] Hk; cbn [str_take]; try done; try lia. f_equal. apply IH. lia.
Qed.
Lemma str_take_all n s : String.length s <= n -> str_take n s = s.
Proof. revert n. induction s as [|x s IH]; intros [|n] Hn; cbn [str_take String.length] in *; try done; try lia. f_equal. apply IH. lia. Qed.

Lemma taken_length k s : k <= String.length s -> String.length (str_take k s) = k.
Proof. revert k. induction s as [|x s IH]; intros [|k] Hk; cbn [str_take String.length] in *; try done; try lia. f_equal. apply IH. lia. Qed.

Definition fresh (body : string) (ready : list nat) (remaining : Z) : limitedReadCloser :=
  {| lr_stream := {| s_rest := body; s_ready := ready |}; lr_remaining := remaining |}.

Lemma Read_step body ready rem len : (0 <= rem < int64_max)%Z ->
  (exists b rest ready', Read (fresh body ready rem) len = (b, None, fresh rest ready' (rem - Z.of_nat (String.length b))) /\ body = b +:+ rest /\
     (Z.of_nat (String.length b) <= rem)%Z /\ (0 < len -> 0 < String.length b)) \/
  (body = "" /\ exists r', Read (fresh body ready rem) len = ("", Some ReadEOF, r')) \/
  ((rem < Z.of_nat (String.length body))%Z /\ exists r', Read (fresh body ready rem) len = (str_take (Z.to_nat rem) body, Some ReadTooLarge, r')).
Proof.
  intros Hrem. unfold Read, fresh. cbn [lr_stream lr_remaining]. unfold raw_read. cbn [s_rest s_ready].
  assert (Hempty : body = "" \/ (String.eqb body "" = false /\ 0 < String.length body)).
  { destruct body as [|x s]; [by left|right]. cbn [String.length]. split; [done|lia]. }
  rewrite wrap64_id by (unfold in_int64, int64_min, int64_max in *; lia).
  assert (Hcut : (rem + 1 <? 0)%Z = false) by lia. rewrite Hcut. clear Hcut. destruct Hempty as [->|[He Hlen]].
  { right; left. split; [done|]. cbn [String.eqb]. destruct (rem <=? 0)%Z; [by eexists|]. cbn [String.length].
    assert (Hr : (rem <? Z.of_nat 0)%Z = false) by lia. rewrite Hr. by eexists. }
  rewrite He. destruct (Z.leb_spec rem 0) as [Hz|Hz].
  - right; right. split; [lia|]. rewrite taken_length by lia.
    assert (Hmin : (0 <? 1 `min` (String.length body `min` (1 `max` hd 1 ready)))%nat = true) by (apply Nat.ltb_lt; lia).
    rewrite Hmin. assert (rem = 0)%Z as -> by lia. eexists. by destruct body.
  - set (len' := if (rem + 1 <? Z.of_nat len)%Z then _ else _). set (k := len' `min` _). rewrite taken_length by lia.
    destruct (Z.ltb_spec rem (Z.of_nat k)) as [Hk|Hk].
    + right; right. split; [lia|]. rewrite str_take_take by lia. by eexists.
    + left. exists (str_take k body), (str_drop k body), (tl ready). rewrite taken_length by lia. split_and!; [done|by rewrite str_take_drop|done|].
      intros Hl. assert (0 < len') by (unfold len'; case_match; lia). lia.
Qed.

Lemma str_take_app_le (a b : string) k : String.length a <= k -> str_take k (a +:+ b) = a +:+ str_take (k - String.length a) b.
Proof.
  revert k. induction a as [|x a IH]; intros k Hk; [by rewrite Nat.sub_0_r|]. destruct k as [|k]; cbn [String.length] in *; [lia|].
  change (String x (str_take k (a +:+ b)) = String x (a +:+ str_take (S k - S (String.length a)) b)). f_equal. apply IH. lia.
Qed.

(** The body a caller reads is the beginning of the body sent, at most the
    limit: it ends with the end of the stream only when that is the whole body,
    and with [ErrResponseTooLarge] only when the body is longer than the limit,
    after exactly the limit's worth of it; no read panics, and one read more
    than the body has bytes, into non-empty buffers, reaches one of the two. *)
Theorem egress_body_is_bounded body ready limit lens got e :
  (0 <= limit < int64_max)%Z -> read_all (fresh body ready limit) lens = (got, e) ->
  (exists rest, body = got +:+ rest) /\ (Z.of_nat (String.length got) <= limit)%Z /\
  match e with
  | Some ReadEOF => got = body
  | Some ReadTooLarge => (limit < Z.of_nat (String.length body))%Z /\ got = str_take (Z.to_nat limit) body
  | Some ReadPanic => False
  | None => Forall (fun len => 0 < len) lens -> length lens <= String.length got
  end.
Proof.
  revert body ready limit got. induction lens as [|len lens IH]; intros body ready limit got Hl; cbn [read_all].
  { intros [= <- <-]. split_and!; [by exists body|cbn; lia|cbn; lia]. }
  destruct (Read_step body ready limit len Hl) as [(b & rest & ready' & -> & -> & Hb & Hpos)|[(-> & r' & ->)|(Hbig & r' & ->)]].
  - destruct (read_all _ lens) as [more e'] eqn:Hr. intros [= <- <-]. apply IH in Hr as ((rest' & ->) & Hm & He); [|lia].
    rewrite str_length_app. split_and!; [exists rest'; by rewrite str_app_assoc|lia|]. destruct e' as [[| |]|]; [by f_equal| |done|].
    + destruct He as [Hlim He]. rewrite !str_length_app in *. split; [lia|]. rewrite str_take_app_le by lia. f_equal. rewrite He at 1. f_equal. lia.
    + intros [Hlen Hls]%Forall_cons. specialize (He Hls). specialize (Hpos Hlen). cbn [length]. lia.
  - intros [= <- <-]. split_and!; [by exists ""|cbn; lia|done].
  - intros [= <- <-]. split_and!; [exists (str_drop (Z.to_nat limit) body); by rewrite str_take_drop| |done..]. rewrite taken_length by lia. lia.
Qed.

(** With the largest limit [remaining+1] wraps round and the first read panics. *)
Lemma largest_limit_panics body ready len : Read (fresh body ready int64_max) len = ("", Some ReadPanic, fresh body ready int64_max).
Proof. reflexivity. Qed.

Module EgressWitness.
(** Addresses of four bytes written as such characters, networks as four bytes
    and a length; a URL is its host. *)
Definition addr_of (s : string) : option addr :=
  match s with
  | String a (String b (String c (String d ""))) => if (Z.of_N (N_of_ascii a) <? 48)%Z || (Z.of_N (N_of_ascii a) =? 203)%Z then
      Some (V4 (((Z.of_N (N_of_ascii a) * 256 + Z.of_N (N_of_ascii b)) * 256 + Z.of_N (N_of_ascii c)) * 256 + Z.of_N (N_of_ascii d))) else None
  | _ => None
  end.
#[export] Instance env : NetEnv := {|
  ParseAddr := addr_of;
  ParsePrefix s := if String.eqb s "lan" then Some (net4 10 0 0 0 8) else None;
  url_Parse s := Some {| u_Scheme := "https"; u_Host := s; u_User := false; u_Fragment := ""; u_Hostname := s |};
|}.
Definition client : Client :=
  match NewClient {| AllowedHosts := ["*.example.com"; " API.Partner.net. "]; AllowedCIDRs := ["lan"]; TrustedCIDRs := ["lan"]; Timeout := 0; MaxBodyBytes := 4 |} with
  | Ok c => c | Err _ => {| policy := {| allowedHosts := []; allowedCIDRs := []; trustedCIDRs := [] |}; timeout := 0; maxBodySize := 0 |}
  end.
Definition public_ip : addr := V4 134744072.
Definition lan_ip : addr := V4 167772161.
Definition loopback_ip : addr := V4 2130706433.

(** The check sees a public address; the dial sees that and one of the trusted
    network, and dials both. *)
Definition run := Do client "api.partner.net" "api.partner.net:443" (Ok [public_ip]) (Ok [public_ip; public_ip; lan_ip]) (fun _ => false) false (Err "").
Lemma egress_dials_only_allowed_witness :
  fst run = [public_ip; lan_ip] /\
  Forall (fun a =>
    (public a /\ (allowedHosts (policy client) = [] -> allowedCIDRs (policy client) = [] \/ inPrefixes a (allowedCIDRs (policy client)) = true)) \/
    (inPrefixes a (trustedCIDRs (policy client)) = true /\ inPrefixes a (allowedCIDRs (policy client)) = true)) (fst run).
Proof.
  split; [vm_compute; reflexivity|].
  exact (proj2 (proj2 (egress_dials_only_allowed client "api.partner.net" "api.partner.net:443" (Ok [public_ip]) (Ok [public_ip; public_ip; lan_ip]) (fun _ => false) false (Err "")
    (fst run) (snd run) (surjective_pairing run)))).
Defined.

(** A name that rebinds to a loopback address between the check and the dial is
    not dialled. *)
Example rebinding_is_caught :
  Do client "a.example.com" "a.example.com:443" (Ok [public_ip]) (Ok [public_ip; loopback_ip]) (fun _ => true) false (Err "") = ([], Err ErrUnsafeAddress).
Proof. vm_compute. reflexivity. Qed.
Example redirects_and_long_answers_fail :
  snd (Do client "a.example.com" "a.example.com:443" (Ok [public_ip]) (Ok [public_ip]) (fun _ => true) false (Ok {| rp_redirect := true; rp_ContentLength := 0 |})) =
    Err ErrRedirectNotAllowed /\
  snd (Do client "a.example.com" "a.example.com:443" (Ok [public_ip]) (Ok [public_ip]) (fun _ => true) false (Ok {| rp_redirect := false; rp_ContentLength := 5 |})) =
    Err ErrResponseTooLarge.
Proof. split; vm_compute; reflexivity. Qed.

Lemma egress_body_is_bounded_witness :
  read_all (fresh "abcdef" [3; 3] (maxBodySize client)) [10; 10; 10] = ("abcd", Some ReadTooLarge) /\
  ((4 < Z.of_nat (String.length "abcdef"))%Z /\ "abcd" = str_take (Z.to_nat 4) "abcdef").
Proof.
  split; [vm_compute; reflexivity|].
  apply (egress_body_is_bounded "abcdef" [3; 3] 4 [10; 10; 10] "abcd" (Some ReadTooLarge)); [split; vm_compute; congruence|vm_compute; reflexivity].
Defined.

(** The translation prefix 64:ff9b::/96 is not among the forbidden ones, so the
    loopback address embedded in it is taken for a public address; so are the
    addresses of 0.0.0.0/8 other than the first. *)
Example translated_loopback_is_not_forbidden :
  isForbiddenAddress (V6 (Z.shiftl 0x64ff9b 96 + 2130706433) "") = false /\ isForbiddenAddress (V4 1) = false.
Proof. split; vm_compute; reflexivity. Qed.
End EgressWitness.
