(* ===== verification/OAuth2Device.v ===== *)
(** modules/oauth2: device codes (store/device.go with migration 0004,
    service/device, the adapter and the verification endpoint of
    cmd/server/main.go) and the HTTP endpoints of the module
    (handler/handler.go).

    Requests are [prog]s, cut at their calls of the store: between two calls of
    one request the other requests run.  An operation on the other tables, which
    the device requests do not touch, is one call. *)

From Stdlib Require Import Ascii String.
From S2P Require Import MagicLink.
From S2P Require Import Prelude OneTime GoStrings GoEncoding GoHttp PlatformCrypto CryptoFields SignedHeaders Session.
From S2P Require Import OAuth2Store OAuth2Authorize OAuth2Token.

Local Open Scope string_scope.

(** ** Data (store/device.go) *)

Record DeviceCode : Type := {
  dc_DeviceCode : string;
  dc_UserCode : string;
  dc_ClientID : string;
  dc_Scopes : strings;
  dc_Audience : strings;
  dc_VerificationURI : string;
  dc_VerificationURIComplete : option string;
  dc_Interval : Z;
  dc_IdentityID : option string;
  dc_SessionID : option string;
  dc_Status : string;
  dc_ApprovedAt : option time;
  dc_ExpiresAt : time;
  dc_LastPollAt : option time;
  dc_CreatedAt : time;
}.

(** The tables of the module, with that of migration 0004. *)
Record device_db : Type := { dv_oauth : oauth_db; t_devices : gmap string DeviceCode }.
Definition put_oauth (o : oauth_db) (db : device_db) : device_db := {| dv_oauth := o; t_devices := t_devices db |}.
Definition upd_devices (f : gmap string DeviceCode -> gmap string DeviceCode) (db : device_db) : device_db :=
  {| dv_oauth := dv_oauth db; t_devices := f (t_devices db) |}.

Abbreviation DM := (M device_db store_error).

Module DeviceStore.

Definition GenerateDeviceCode := Store.generateID "dc_".
Definition user_charset : string := "BCDFGHJKLMNPQRSTVWXZ".
(** [GenerateUserCode]: each of the eight bytes modulo the size of the charset. *)
Definition user_char (c : ascii) : ascii :=
  default "B"%char (String.get (nat_of_ascii c mod String.length user_charset) user_charset).
Definition GenerateUserCode (b : option string) : result store_error string :=
  match b with
  | None => Err ErrRandomBytes
  | Some b => let code := str_map user_char b in Ok (str_take 4 code +:+ "-" +:+ str_drop 4 code)
  end.

Definition with_keys (dc : DeviceCode) (code user : string) (now : time) : DeviceCode :=
  {| dc_DeviceCode := code; dc_UserCode := user; dc_ClientID := dc_ClientID dc; dc_Scopes := dc_Scopes dc; dc_Audience := dc_Audience dc;
     dc_VerificationURI := dc_VerificationURI dc; dc_VerificationURIComplete := dc_VerificationURIComplete dc;
     dc_Interval := if (dc_Interval dc =? 0)%Z then 5%Z else dc_Interval dc; dc_IdentityID := dc_IdentityID dc; dc_SessionID := dc_SessionID dc;
     dc_Status := if String.eqb (dc_Status dc) "" then "pending" else dc_Status dc; dc_ApprovedAt := dc_ApprovedAt dc;
     dc_ExpiresAt := dc_ExpiresAt dc; dc_LastPollAt := dc_LastPollAt dc; dc_CreatedAt := now |}.

(** The INSERT with the columns that must not be null, the primary key, the
    unique user code, the client it refers to and the width of [interval]. *)
Definition has_user (user : string) (m : gmap string DeviceCode) : bool :=
  existsb (fun kv => String.eqb (dc_UserCode kv.2) user) (map_to_list m).
Definition insert_device (row : DeviceCode) (db : device_db) : result db_error (unit * device_db) :=
  if negb ((- 2 ^ 31 <=? dc_Interval row)%Z && (dc_Interval row <? 2 ^ 31)%Z) then Err (DbFault "integer out of range")
  else if bool_decide (dc_Scopes row = None) then Err (NotNullViolation "scopes")
  else if has (t_devices db) (dc_DeviceCode row) then Err (UniqueViolation "device_code")
  else if has_user (dc_UserCode row) (t_devices db) then Err (UniqueViolation "user_code")
  else if negb (has (t_clients (dv_oauth db)) (dc_ClientID row)) then Err (ForeignKeyViolation "client_id")
  else Ok (tt, upd_devices (insert (dc_DeviceCode row) row) db).

Definition or_else (x : string) (gen : result store_error string) : DM string :=
  if String.eqb x "" then lift_result gen else mret x.
Definition CreateDeviceCode (dc : DeviceCode) (rand1 rand2 : option string) (now : time) : DM unit :=
  code ← or_else (dc_DeviceCode dc) (GenerateDeviceCode rand1);
  user ← or_else (dc_UserCode dc) (GenerateUserCode rand2);
  M_try (db_stmt (insert_device (with_keys dc code user now)))
    (fun r => match r with Err (StoreDb (UniqueViolation _)) => throw ErrAlreadyExists | r => lift_result r end).

Definition no_rows (m : DM DeviceCode) : DM DeviceCode :=
  M_try m (fun r => match r with Err (StoreDb NoRows) => throw ErrNotFound | r => lift_result r end).
Definition select_one (p : DeviceCode -> bool) (db : device_db) : result db_error (DeviceCode * device_db) :=
  match List.find (fun kv => p kv.2) (map_to_list (t_devices db)) with Some kv => Ok (kv.2, db) | None => Err NoRows end.
Definition GetDeviceCodeByDeviceCode (deviceCode : string) : DM DeviceCode :=
  no_rows (db_stmt (fun db => match t_devices db !! deviceCode with Some dc => Ok (dc, db) | None => Err NoRows end)).
Definition GetDeviceCodeByUserCode (userCode : string) : DM DeviceCode :=
  no_rows (db_stmt (select_one (fun dc => String.eqb (dc_UserCode dc) userCode))).

(** An UPDATE of the rows of a predicate that must affect one. *)
Definition update_devices (p : DeviceCode -> bool) (f : DeviceCode -> DeviceCode) (db : device_db) : result db_error (bool * device_db) :=
  Ok (existsb (fun kv => p kv.2) (map_to_list (t_devices db)), upd_devices (fmap (fun dc => if p dc then f dc else dc)) db).
Definition affects (m : DM bool) : DM unit := ok ← m; if (ok : bool) then mret tt else throw ErrNotFound.

Definition set_poll (now : time) (dc : DeviceCode) : DeviceCode :=
  {| dc_DeviceCode := dc_DeviceCode dc; dc_UserCode := dc_UserCode dc; dc_ClientID := dc_ClientID dc; dc_Scopes := dc_Scopes dc;
     dc_Audience := dc_Audience dc; dc_VerificationURI := dc_VerificationURI dc; dc_VerificationURIComplete := dc_VerificationURIComplete dc;
     dc_Interval := dc_Interval dc; dc_IdentityID := dc_IdentityID dc; dc_SessionID := dc_SessionID dc; dc_Status := dc_Status dc;
     dc_ApprovedAt := dc_ApprovedAt dc; dc_ExpiresAt := dc_ExpiresAt dc; dc_LastPollAt := Some now; dc_CreatedAt := dc_CreatedAt dc |}.
Definition set_status (status : string) (identityID sessionID : option string) (approvedAt : option time) (dc : DeviceCode) : DeviceCode :=
  {| dc_DeviceCode := dc_DeviceCode dc; dc_UserCode := dc_UserCode dc; dc_ClientID := dc_ClientID dc; dc_Scopes := dc_Scopes dc;
     dc_Audience := dc_Audience dc; dc_VerificationURI := dc_VerificationURI dc; dc_VerificationURIComplete := dc_VerificationURIComplete dc;
     dc_Interval := dc_Interval dc; dc_IdentityID := identityID; dc_SessionID := sessionID; dc_Status := status;
     dc_ApprovedAt := approvedAt; dc_ExpiresAt := dc_ExpiresAt dc; dc_LastPollAt := dc_LastPollAt dc; dc_CreatedAt := dc_CreatedAt dc |}.
Definition pending_for (userCode : string) (dc : DeviceCode) : bool := String.eqb (dc_UserCode dc) userCode && String.eqb (dc_Status dc) "pending".

Definition UpdateDeviceCodePoll (deviceCode : string) (now : time) : DM unit :=
  affects (db_stmt (update_devices (fun dc => String.eqb (dc_DeviceCode dc) deviceCode) (set_poll now))).
Definition ApproveDeviceCode (userCode identityID sessionID : string) (now : time) : DM unit :=
  affects (db_stmt (update_devices (pending_for userCode) (set_status "approved" (Some identityID) (Some sessionID) (Some now)))).
Definition deny (dc : DeviceCode) : DeviceCode := set_status "denied" (dc_IdentityID dc) (dc_SessionID dc) (dc_ApprovedAt dc) dc.
Definition DenyDeviceCode (userCode : string) : DM unit := affects (db_stmt (update_devices (pending_for userCode) deny)).
Definition DeleteDeviceCode (deviceCode : string) : DM unit := db_stmt (fun db => Ok (tt, upd_devices (base.delete deviceCode) db)).
Definition CleanupExpiredDeviceCodes (dbnow : time) : DM Z :=
  db_stmt (fun db => Ok (Z.of_nat (size (filter (fun kv => (dc_ExpiresAt kv.2 < dbnow)%Z) (t_devices db))),
                         upd_devices (filter (fun kv => ~ (dc_ExpiresAt kv.2 < dbnow)%Z)) db)).

Definition GetClient (id : string) : DM Client := zoom dv_oauth put_oauth (Store.GetClient id).
End DeviceStore.

(** ** Programs of several calls *)

Fixpoint pseq {S R R'} (p : prog S R) (k : R -> prog S R') : prog S R' :=
  match p with Ret r => k r | Call m c => Call m (fun r => pseq (c r) k) end.
Abbreviation request := (prog device_db).

(** ** The service (service/device/device.go) *)

Module Device.
Import DeviceStore.

Inductive error : Type :=
| ErrSlowDown
| ErrAuthorizationPending
| ErrExpiredToken
| ErrAccessDenied
| ErrInvalidClient
| ErrInvalidScope
| ErrInvalidGrant
| ErrGenerate
| DVStore (e : store_error).

Record DeviceService : Type := { deviceCodeTTL : duration; pollingInterval : Z; verificationURI : string }.
Record DeviceAuthorizationRequest : Type := { da_ClientID : string; da_Scope : string }.
Record DeviceAuthorizationResponse : Type := {
  dp_DeviceCode : string;
  dp_UserCode : string;
  dp_VerificationURI : string;
  dp_VerificationURIComplete : string;
  dp_ExpiresIn : Z;
  dp_Interval : Z;
}.
Record DeviceTokenRequest : Type := { dq_GrantType : string; dq_DeviceCode : string; dq_ClientID : string }.

(** The adapter of cmd/server/main.go. *)
Definition GetDeviceCode := GetDeviceCodeByDeviceCode.
Definition then_call {A B} (m : DM A) (k : A -> DM B) : request (result store_error B) :=
  Call m (fun r => match r with Ok a => Call (k a) Ret | Err e => Ret (Err e) end).
Definition MarkDeviceCodeApproved (deviceCode identityID : string) (scopes : strings) (now : time) : request (result store_error unit) :=
  then_call (GetDeviceCodeByDeviceCode deviceCode) (fun dc => ApproveDeviceCode (dc_UserCode dc) identityID "" now).
Definition MarkDeviceCodeDenied (deviceCode : string) : request (result store_error unit) :=
  then_call (GetDeviceCodeByDeviceCode deviceCode) (fun dc => DenyDeviceCode (dc_UserCode dc)).
Definition MarkDeviceCodeUsed := DeleteDeviceCode.

Definition charset : string := "BCDFGHJKLMNPQRSTVWXYZ".
(** [generateUserCode] over the stream of random blocks. *)
Definition generateUserCode (fuel : nat) (rand : rand_source) (pos : nat) : option (result crypto_error string * nat) :=
  match code_loop fuel charset rand 8 pos with
  | Some (Ok code, pos') => Some (Ok (str_take 4 code +:+ "-" +:+ str_drop 4 code), pos')
  | r => r
  end.

(** What a request draws: the bytes of the device code, the user code, and the
    clock at the call of the service and in the store. *)
Record draws : Type := { dd_code : option string; dd_user : result crypto_error string; dd_now1 : time; dd_now2 : time }.

Section service.
Context (s : DeviceService).

Definition new_code (client : Client) (code user : string) (scopes : strings) (now : time) : DeviceCode :=
  {| dc_DeviceCode := code; dc_UserCode := user; dc_ClientID := cl_ID client; dc_Scopes := scopes; dc_Audience := None;
     dc_VerificationURI := ""; dc_VerificationURIComplete := None; dc_Interval := pollingInterval s; dc_IdentityID := None; dc_SessionID := None;
     dc_Status := ""; dc_ApprovedAt := None; dc_ExpiresAt := time_add now (deviceCodeTTL s); dc_LastPollAt := None; dc_CreatedAt := time_zero |}.

Definition RequestDeviceAuthorization (req : DeviceAuthorizationRequest) (d : draws) : request (result error DeviceAuthorizationResponse) :=
  Call (GetClient (da_ClientID req)) (fun r =>
  match r with
  | Err _ => Ret (Err ErrInvalidClient)
  | Ok client =>
      let scopes := parseScopes (da_Scope req) in
      if negb (forallb (Store.HasScope client) (elems scopes)) then Ret (Err ErrInvalidScope)
      else match GenerateDeviceCode (dd_code d) with
      | Err _ => Ret (Err ErrGenerate)
      | Ok deviceCode =>
          match dd_user d with
          | Err _ => Ret (Err ErrGenerate)
          | Ok userCode =>
              Call (CreateDeviceCode (new_code client deviceCode userCode scopes (dd_now1 d)) None None (dd_now2 d)) (fun r =>
              match r with
              | Err e => Ret (Err (DVStore e))
              | Ok _ => Ret (Ok {| dp_DeviceCode := deviceCode; dp_UserCode := userCode; dp_VerificationURI := verificationURI s;
                                   dp_VerificationURIComplete := verificationURI s +:+ "?user_code=" +:+ userCode;
                                   dp_ExpiresIn := Z.quot (deviceCodeTTL s) second; dp_Interval := pollingInterval s |})
              end)
          end
      end
  end).

(** The decision on the row read: the clock is read for the expiry and for the
    interval. *)
Definition poll_decision (req : DeviceTokenRequest) (dc : DeviceCode) (now1 now2 : time) : result error DeviceCode :=
  if negb (String.eqb (dc_ClientID dc) (dq_ClientID req)) then Err ErrInvalidClient
  else if time_after now1 (dc_ExpiresAt dc) then Err ErrExpiredToken
  else if String.eqb (dc_Status dc) "denied" then Err ErrAccessDenied
  else if negb (String.eqb (dc_Status dc) "approved") then
    match dc_LastPollAt dc with
    | Some last =>
        let interval := if (dc_Interval dc =? 0)%Z then pollingInterval s else dc_Interval dc in
        if (time_sub now2 last <? wrap64 (interval * second))%Z then Err ErrSlowDown else Err ErrAuthorizationPending
    | None => Err ErrAuthorizationPending
    end
  else match dc_IdentityID dc with None => Err ErrInvalidGrant | Some _ => Ok dc end.
Definition PollDeviceToken (req : DeviceTokenRequest) (now1 now2 : time) : request (result error DeviceCode) :=
  Call (GetDeviceCode (dq_DeviceCode req)) (fun r =>
  match r with Err _ => Ret (Err ErrInvalidGrant) | Ok dc => Ret (poll_decision req dc now1 now2) end).

Definition ApproveDeviceAuthorization (userCode identityID : string) (scopes : strings) (now1 now2 : time) : request (result error unit) :=
  Call (GetDeviceCodeByUserCode userCode) (fun r =>
  match r with
  | Err e => Ret (Err (DVStore e))
  | Ok dc =>
      if time_after now1 (dc_ExpiresAt dc) then Ret (Err ErrExpiredToken)
      else if negb (String.eqb (dc_Status dc) "pending") then Ret (Err ErrInvalidGrant)
      else pseq (MarkDeviceCodeApproved (dc_DeviceCode dc) identityID scopes now2)
             (fun r => Ret (match r with Ok u => Ok u | Err e => Err (DVStore e) end))
  end).
Definition DenyDeviceAuthorization (userCode : string) : request (result error unit) :=
  Call (GetDeviceCodeByUserCode userCode) (fun r =>
  match r with
  | Err e => Ret (Err (DVStore e))
  | Ok dc => pseq (MarkDeviceCodeDenied (dc_DeviceCode dc)) (fun r => Ret (match r with Ok u => Ok u | Err e => Err (DVStore e) end))
  end).
Definition ConsumeDeviceCode (deviceCode : string) : DM unit := MarkDeviceCodeUsed deviceCode.
End service.
End Device.
