(* ===== verification/OAuth2Http.v ===== *)
(** modules/oauth2/handler/handler.go and the verification endpoint of
    cmd/server/main.go: the HTTP endpoints as programs over the tables, and what
    they let a client and a user do.

    A form that does not parse is [None].  The discovery, key and user-info
    endpoints, which change nothing, are left out. *)

From Stdlib Require Import Ascii String.
From S2P Require Import MagicLink.
From S2P Require Import Prelude OneTime GoStrings GoEncoding GoHttp PlatformCrypto CryptoFields SignedHeaders Session.
From S2P Require Import OAuth2Store OAuth2Authorize OAuth2Token OAuth2Facts OAuth2Device.

Local Open Scope string_scope.

(** ** Requests and answers *)

Record http_request : Type := {
  hr_Method : string;
  hr_Header : header;
  hr_RequestURI : string;
  hr_query : string -> string;
  hr_form : option (string -> string);
}.
(** What a request draws: random bytes, clock readings, the database clock, the
    clock of the signature check, and what a device request draws. *)
Record hdraws : Type := { hd_rd : entropy; hd_ck : clock; hd_dbnow : time; hd_sig : time; hd_dev : Device.draws }.

Inductive payload : Type :=
| PError (code description : string)
| PLogin (r : Authorization.LoginChallengeResponse)
| PConsent (r : Authorization.ConsentChallengeResponse)
| PCode (r : Authorization.AuthorizationResponse)
| PTokens (r : TokenService.TokenResponse)
| PAccess (r : Grants.ClientCredentialsResponse)
| PDevice (r : Device.DeviceAuthorizationResponse)
| PIntrospection (r : TokenService.IntrospectionResponse)
| PNone.
Record response : Type := { rs_Status : Z; rs_Body : payload; rs_NoStore : bool; rs_Challenge : bool }.

Definition writeJSON (status : Z) (v : payload) : response := {| rs_Status := status; rs_Body := v; rs_NoStore := false; rs_Challenge := false |}.
Definition writeError (code description : string) (status : Z) : response := writeJSON status (PError code description).
Definition setNoStoreHeaders (r : response) : response :=
  {| rs_Status := rs_Status r; rs_Body := rs_Body r; rs_NoStore := true; rs_Challenge := rs_Challenge r |}.
Definition with_challenge (r : response) : response :=
  {| rs_Status := rs_Status r; rs_Body := rs_Body r; rs_NoStore := rs_NoStore r; rs_Challenge := true |}.
Definition writeTokenError (e : string * string * Z) : response :=
  let '(code, description, status) := e in
  let r := setNoStoreHeaders (writeError code description status) in
  if String.eqb code "invalid_client" then with_challenge r else r.
Definition methodNotAllowed : response := writeError "invalid_request" "Method not allowed" 405.
Definition badForm : response := writeError "invalid_request" "Failed to parse form" 400.

Definition ExtractClientCredentials (authHeader : string) : option (string * string) :=
  if String.eqb authHeader "" then None
  else match Cut authHeader " "%char with
  | None => None
  | Some (scheme, rest) =>
      if negb (String.eqb (ToLower scheme) "basic") then None
      else match b64std_Decode rest with None => None | Some decoded => Cut decoded ":"%char end
  end.
Definition extractClientCredentials (r : http_request) (form : string -> string) : string * string :=
  match ExtractClientCredentials (Header_Get (hr_Header r) "Authorization") with
  | Some c => c
  | None => (form "client_id", form "client_secret")
  end.

Definition mapAuthorizationError (e : Authorization.error) : response :=
  match e with
  | Authorization.ErrUnauthorizedClient => writeError "unauthorized_client" "Client is not authorized for this flow" 400
  | Authorization.ErrUnsupportedResponseType => writeError "unsupported_response_type" "Response type is not supported" 400
  | Authorization.ErrInvalidScope => writeError "invalid_scope" "Requested scope is invalid" 400
  | Authorization.ErrInvalidRequest | Authorization.ErrInvalidPKCE | Authorization.ErrPKCERequired =>
      writeError "invalid_request" "Invalid authorization request" 400
  | _ => writeError "server_error" "Internal server error" 500
  end.
Definition mapTokenGrantError (e : TokenService.error) : string * string * Z :=
  match e with
  | TokenService.ErrInvalidClient => ("invalid_client", "Client authentication failed", 401%Z)
  | TokenService.ErrUnauthorizedClient => ("unauthorized_client", "Client is not authorized for this grant type", 400%Z)
  | TokenService.ErrInvalidScope => ("invalid_scope", "Requested scope is invalid", 400%Z)
  | TokenService.ErrInvalidRequest => ("invalid_request", "Invalid token request", 400%Z)
  | TokenService.ErrInvalidGrant
  | TokenService.TKStore ErrPKCERequired | TokenService.TKStore ErrPKCEMismatch | TokenService.TKStore ErrFamilyInvalidated =>
      ("invalid_grant", "Invalid grant", 400%Z)
  | _ => ("server_error", "Internal server error", 500%Z)
  end.
Definition mapClientCredentialsError (e : Grants.error) : string * string * Z :=
  match e with
  | Grants.ErrInvalidClient => ("invalid_client", "Client authentication failed", 401%Z)
  | Grants.ErrUnauthorizedClient => ("unauthorized_client", "Client is not authorized for this grant type", 400%Z)
  | Grants.ErrInvalidScope => ("invalid_scope", "Requested scope is invalid", 400%Z)
  | _ => ("server_error", "Internal server error", 500%Z)
  end.

(** [strconv.ParseBool] and [strings.Fields]. *)
Definition ParseBool (s : string) : option bool :=
  if existsb (String.eqb s) ["1"; "t"; "T"; "true"; "TRUE"; "True"] then Some true
  else if existsb (String.eqb s) ["0"; "f"; "F"; "false"; "FALSE"; "False"] then Some false
  else None.
Fixpoint fields_from (word s : string) : list string :=
  let flush rest := if String.eqb word "" then rest else word :: rest in
  match s with
  | EmptyString => flush []
  | String c r => if is_space c then flush (fields_from "" r) else fields_from (word +:+ String c "") r
  end.
Definition Fields (s : string) : strings := Some (fields_from "" s).

(** An operation on the other tables, answered. *)
Definition on_oauth {E A} (m : M oauth_db E A) (ok : A -> response) (err : E -> response) : request response :=
  Call (zoom dv_oauth put_oauth m) (fun r => Ret (match r with Ok a => ok a | Err e => err e end)).
Definition token_answer {A} (ok : A -> payload) (a : A) : response := setNoStoreHeaders (writeJSON 200 (ok a)).

Section handlers.
Context `{OAuth2Env} `{UuidText} (issuer : string) (svc : Device.DeviceService) (identitySigningSecret : string) (identitySignatureTTL : duration).

(** ** Who is asking (cmd/server/main.go) *)

Definition signedHeaders : list string := ["X-User-ID"; "X-User-Session-ID"; "X-User-AAL"].
Definition newTrustedIdentityResolver (h : header) (now : time) : option (string * string) :=
  if negb (VerifyIdentityHeaders identitySigningSecret h signedHeaders (Header_Get h "X-Aegion-Signature") identitySignatureTTL now) then None
  else
    let identityID := TrimSpace (Header_Get h "X-User-ID") in
    let sessionID := TrimSpace (Header_Get h "X-User-Session-ID") in
    if String.eqb identityID "" || String.eqb sessionID "" || String.eqb (TrimSpace (Header_Get h "X-User-AAL")) "" then None
    else Some (identityID, sessionID).
(** [resolveIdentity]: without a secret no resolver is installed. *)
Definition resolveIdentity (h : header) (now : time) : option (string * string) :=
  if String.eqb identitySigningSecret "" then None
  else match newTrustedIdentityResolver h now with
  | None => None
  | Some (identityID, sessionID) =>
      if String.eqb (TrimSpace identityID) "" || String.eqb (TrimSpace sessionID) "" then None else Some (identityID, sessionID)
  end.

(** ** Authorization *)

Definition HandleAuthorize (r : http_request) (d : hdraws) : request response :=
  if negb (String.eqb (hr_Method r) "GET") then Ret methodNotAllowed
  else
    let q := hr_query r in
    on_oauth (Authorization.StartAuthorization (Some
      {| Authorization.ar_ClientID := q "client_id"; Authorization.ar_RedirectURI := q "redirect_uri"; Authorization.ar_RequestURL := hr_RequestURI r;
         Authorization.ar_ResponseType := q "response_type"; Authorization.ar_Scope := q "scope"; Authorization.ar_State := q "state";
         Authorization.ar_Nonce := q "nonce"; Authorization.ar_CodeChallenge := q "code_challenge";
         Authorization.ar_CodeChallengeMethod := q "code_challenge_method"; Authorization.ar_Audience := None; Authorization.ar_ACRValues := None;
         Authorization.ar_MaxAge := None; Authorization.ar_Prompt := "" |}) (hd_rd d 0%nat) (hd_ck d))
      (fun c => writeJSON 200 (PLogin c)) mapAuthorizationError.

(** A POST whose form parses. *)
Definition posted (r : http_request) (k : (string -> string) -> request response) : request response :=
  if negb (String.eqb (hr_Method r) "POST") then Ret methodNotAllowed
  else match hr_form r with None => Ret badForm | Some form => k form end.

Definition HandleLogin (r : http_request) (d : hdraws) : request response :=
  posted r (fun form =>
  match resolveIdentity (hr_Header r) (hd_sig d) with
  | None => Ret (writeError "login_required" "Authentication required" 401)
  | Some (identityID, sessionID) =>
      on_oauth (Authorization.AcceptLogin (form "challenge") identityID sessionID (hd_ck d)) (fun c => writeJSON 200 (PConsent c)) mapAuthorizationError
  end).

Definition year_seconds : Z := 365 * 24 * 3600.
(** [remember_for]: absent, or a number of seconds up to a year. *)
Definition rememberFor (form : string -> string) : option (option Z) :=
  let raw := TrimSpace (form "remember_for") in
  if String.eqb raw "" then Some None
  else match ParseInt raw with
  | Some v => if (v <=? 0)%Z || (year_seconds <? v)%Z then None else Some (Some v)
  | None => None
  end.
Definition HandleConsent (r : http_request) (d : hdraws) : request response :=
  posted r (fun form =>
  match resolveIdentity (hr_Header r) (hd_sig d) with
  | None => Ret (writeError "login_required" "Authentication required" 401)
  | Some (identityID, _) =>
      let challenge := form "challenge" in
      if String.eqb (form "decision") "deny" then
        on_oauth (Authorization.RejectConsentForIdentity challenge identityID "access_denied" "Resource owner denied consent" (hd_ck d 0%nat))
          (fun _ => writeJSON 204 PNone) mapAuthorizationError
      else if negb (String.eqb (form "decision") "accept") then Ret (writeError "invalid_request" "decision must be accept or deny" 400)
      else match ParseBool (form "remember"), String.eqb (form "remember") "" with
      | None, false => Ret (writeError "invalid_request" "remember must be a boolean" 400)
      | remember, _ =>
          match rememberFor form with
          | None => Ret (writeError "invalid_request" "remember_for must be between 1 second and one year" 400)
          | Some rf =>
              on_oauth (Authorization.AcceptConsentForIdentity challenge identityID (Fields (form "scope")) (default false remember) rf
                          (hd_rd d) (hd_ck d) (hd_dbnow d))
                (fun c => writeJSON 200 (PCode c)) mapAuthorizationError
          end
      end
  end).

(** ** Tokens *)

Definition token_request (grantType clientID clientSecret : string) (form : string -> string) (fields : list string) : TokenService.TokenRequest :=
  let get name := if existsb (String.eqb name) fields then form name else "" in
  {| TokenService.tr_GrantType := grantType; TokenService.tr_Code := get "code"; TokenService.tr_RedirectURI := get "redirect_uri";
     TokenService.tr_ClientID := clientID; TokenService.tr_ClientSecret := clientSecret; TokenService.tr_CodeVerifier := get "code_verifier";
     TokenService.tr_RefreshToken := get "refresh_token"; TokenService.tr_Scope := get "scope" |}.
Definition token_error (e : TokenService.error) : response := writeTokenError (mapTokenGrantError e).

Definition handleAuthorizationCodeGrant (r : http_request) (form : string -> string) (d : hdraws) : request response :=
  let '(clientID, clientSecret) := extractClientCredentials r form in
  on_oauth (TokenService.ExchangeAuthorizationCode issuer
      (Some (token_request "authorization_code" clientID clientSecret form ["code"; "redirect_uri"; "code_verifier"])) (hd_rd d) (hd_ck d))
    (token_answer PTokens) token_error.
(** The chain of successors is no longer than the table of refresh tokens. *)
Definition refresh (req : TokenService.TokenRequest) (rd : entropy) (ck : clock) : M oauth_db TokenService.error TokenService.TokenResponse :=
  fun w => TokenService.RefreshAccessToken issuer (S (S (size (t_refresh (w_db w))))) (Some req) rd ck w.
Definition handleRefreshTokenGrant (r : http_request) (form : string -> string) (d : hdraws) : request response :=
  let '(clientID, clientSecret) := extractClientCredentials r form in
  on_oauth (refresh (token_request "refresh_token" clientID clientSecret form ["refresh_token"; "scope"]) (hd_rd d) (hd_ck d))
    (token_answer PTokens) token_error.
Definition handleClientCredentialsGrant (r : http_request) (form : string -> string) (d : hdraws) : request response :=
  let '(clientID, clientSecret) := extractClientCredentials r form in
  on_oauth (Grants.IssueClientCredentials issuer
      (Some {| Grants.cq_ClientID := clientID; Grants.cq_ClientSecret := clientSecret; Grants.cq_Scope := form "scope" |}) (hd_rd d) (hd_ck d))
    (token_answer PAccess) (fun e => writeTokenError (mapClientCredentialsError e)).

Definition device_grant : string := "urn:ietf:params:oauth:grant-type:device_code".
Definition poll_error (e : Device.error) : response :=
  setNoStoreHeaders match e with
  | Device.ErrAuthorizationPending => writeError "authorization_pending" "User has not yet authorized" 400
  | Device.ErrSlowDown => writeError "slow_down" "Polling too fast" 400
  | Device.ErrExpiredToken => writeError "expired_token" "Device code expired" 400
  | Device.ErrAccessDenied => writeError "access_denied" "User denied authorization" 400
  | Device.ErrInvalidClient => writeError "invalid_grant" "invalid_client" 400
  | _ => writeError "invalid_grant" "invalid_grant" 400
  end.
Definition device_issue (clientID clientSecret identityID : string) (dc : DeviceCode) : TokenService.DeviceCodeTokenRequest :=
  {| TokenService.dr_ClientID := clientID; TokenService.dr_ClientSecret := clientSecret; TokenService.dr_IdentityID := identityID;
     TokenService.dr_SessionID := default "" (dc_SessionID dc); TokenService.dr_Scopes := dc_Scopes dc; TokenService.dr_Audience := dc_Audience dc;
     TokenService.dr_AuthTime := default time_zero (dc_ApprovedAt dc) |}.
Definition handleDeviceCodeGrant (r : http_request) (form : string -> string) (d : hdraws) : request response :=
  let '(clientID, clientSecret) := extractClientCredentials r form in
  pseq (Device.PollDeviceToken svc {| Device.dq_GrantType := device_grant; Device.dq_DeviceCode := form "device_code"; Device.dq_ClientID := clientID |}
          (Device.dd_now1 (hd_dev d)) (Device.dd_now2 (hd_dev d))) (fun r =>
  match r with
  | Err e => Ret (poll_error e)
  | Ok dc =>
      Call (Device.ConsumeDeviceCode (dc_DeviceCode dc)) (fun r =>
      match r with
      | Err _ => Ret (setNoStoreHeaders (writeError "server_error" "Failed to finalize device code" 500))
      | Ok _ =>
          match dc_IdentityID dc with
          | None => Ret (writeError "server_error" "panic" 500)
          | Some identityID =>
              on_oauth (TokenService.ExchangeDeviceCode issuer (Some (device_issue clientID clientSecret identityID dc)) (hd_rd d) (hd_ck d))
                (token_answer PTokens) token_error
          end
      end)
  end).

Definition HandleToken (r : http_request) (d : hdraws) : request response :=
  posted r (fun form =>
  let grantType := form "grant_type" in
  if String.eqb grantType "authorization_code" then handleAuthorizationCodeGrant r form d
  else if String.eqb grantType "refresh_token" then handleRefreshTokenGrant r form d
  else if String.eqb grantType "client_credentials" then handleClientCredentialsGrant r form d
  else if String.eqb grantType device_grant then handleDeviceCodeGrant r form d
  else Ret (setNoStoreHeaders (writeError "unsupported_grant_type" "Grant type not supported" 400))).

Definition HandleRevoke (r : http_request) (d : hdraws) : request response :=
  posted r (fun form =>
  if String.eqb (form "token") "" then Ret (setNoStoreHeaders (writeError "invalid_request" "token is required" 400))
  else
    let '(clientID, clientSecret) := extractClientCredentials r form in
    on_oauth (Revocation.RevokeToken {| Revocation.rv_Token := form "token"; Revocation.rv_TokenTypeHint := form "token_type_hint";
        Revocation.rv_ClientID := clientID; Revocation.rv_ClientSecret := clientSecret |} (hd_ck d 0%nat))
      (fun _ => setNoStoreHeaders (writeJSON 200 PNone))
      (fun e => match e with
       | Revocation.ErrInvalidClient => with_challenge (setNoStoreHeaders (writeError "invalid_client" "Client authentication failed" 401))
       end)).
Definition HandleIntrospect (r : http_request) (d : hdraws) : request response :=
  posted r (fun form =>
  let '(clientID, clientSecret) := extractClientCredentials r form in
  on_oauth (TokenService.IntrospectToken (Some {| TokenService.ir_Token := form "token"; TokenService.ir_ClientID := clientID;
      TokenService.ir_ClientSecret := clientSecret |}) (hd_ck d 0%nat))
    (token_answer PIntrospection)
    (fun e => setNoStoreHeaders match e with
     | TokenService.ErrInvalidClient => with_challenge (writeError "invalid_client" "Client authentication failed" 401)
     | TokenService.ErrInvalidRequest => writeError "invalid_request" "Invalid introspection request" 400
     | _ => writeError "server_error" "Internal server error" 500
     end)).

(** ** Devices *)

Definition HandleDeviceAuthorization (r : http_request) (d : hdraws) : request response :=
  posted r (fun form =>
  pseq (Device.RequestDeviceAuthorization svc {| Device.da_ClientID := form "client_id"; Device.da_Scope := form "scope" |} (hd_dev d)) (fun r =>
  Ret (match r with
  | Ok resp => writeJSON 200 (PDevice resp)
  | Err Device.ErrInvalidClient => writeError "invalid_client" "Client authentication failed" 401
  | Err Device.ErrInvalidScope => writeError "invalid_scope" "Requested scope is not allowed for this client" 400
  | Err _ => writeError "invalid_request" "Invalid device authorization request" 400
  end))).

Definition newDeviceVerificationHandler (r : http_request) (d : hdraws) : request response :=
  if negb (String.eqb (hr_Method r) "POST") then Ret (writeError "invalid_request" "" 405)
  else match hr_form r with
  | None => Ret (writeError "invalid_request" "" 400)
  | Some form =>
      let userCode := TrimSpace (form "user_code") in
      if String.eqb userCode "" then Ret (writeError "invalid_request" "" 400)
      else match newTrustedIdentityResolver (hr_Header r) (hd_sig d) with
      | None => Ret (writeError "login_required" "" 401)
      | Some (identityID, sessionID) =>
          let finish (m : DM unit) : request response :=
            Call m (fun r => Ret (match r with Ok _ => writeJSON 204 PNone | Err _ => writeError "invalid_grant" "" 400 end)) in
          if String.eqb (form "decision") "deny" then finish (DeviceStore.DenyDeviceCode userCode)
          else if String.eqb (form "decision") "accept" then
            finish (DeviceStore.ApproveDeviceCode userCode identityID sessionID (Device.dd_now1 (hd_dev d)))
          else Ret (writeError "invalid_request" "" 400)
      end
  end.
End handlers.

(** ** Requests that run at the same time *)

Inductive endpoint : Type := EAuthorize | ELogin | EConsent | EToken | ERevoke | EIntrospect | EDevice | EVerify.
Definition http_call : Type := endpoint * http_request * hdraws.

(** [keeps I Q p]: every call of [p] preserves [I] and [p] ends in [Q]. *)
Fixpoint keeps {S R} (I : S -> Prop) (Q : R -> Prop) (p : prog S R) : Prop :=
  match p with
  | Ret r => Q r
  | Call m k => forall w r w', I (w_db w) -> m w = (r, w') -> I (w_db w') /\ keeps I Q (k r)
  end.
Lemma keeps_pseq {S R R'} (I : S -> Prop) (Q : R -> Prop) (Q' : R' -> Prop) p k :
  keeps I Q p -> (forall r, Q r -> keeps I Q' (k r)) -> keeps I Q' (pseq p k).
Proof.
  intros Hp Hk. induction p as [r|A E m c IH]; cbn [pseq]; [by apply Hk|]. intros w r w' Hw Hm.
  destruct (Hp w r w' Hw Hm) as [Hw' Hc]. split; [done|]. by apply IH.
Qed.
Lemma keeps_impl {S R} (I : S -> Prop) (Q Q' : R -> Prop) p : keeps I Q p -> (forall r, Q r -> Q' r) -> keeps I Q' p.
Proof.
  intros Hp HQ. induction p as [r|A E m k IH]; [by apply HQ|]. intros w r w' Hw Hr. destruct (Hp w r w' Hw Hr). split; [done|]. by apply IH.
Qed.
Lemma keeps_pool {S R} (I : S -> Prop) (Q : nat -> R -> Prop) ps s ps' s' :
  rtc pool_step (ps, s) (ps', s') -> I s -> (forall i p, ps !! i = Some p -> keeps I (Q i) p) ->
  I s' /\ forall i p, ps' !! i = Some p -> keeps I (Q i) p.
Proof.
  intros Hrun Hs Hps.
  set (P := fun p : list (prog S R) * S => I p.2 /\ forall i q, p.1 !! i = Some q -> keeps I (Q i) q). change (P (ps', s')).
  refine (rtc_invariant pool_step P (ps, s) (ps', s') _ (conj Hs Hps) Hrun). clear. intros p p' Hstep [Hs Hps]. destruct Hstep as [i ps s A E m k fs r w' Hi Hm]. cbn [fst snd] in *.
  destruct (Hps i _ Hi (World s fs) r w' Hs Hm) as [Hs' Hk]. split; [done|]. intros j q Hj. cbn [fst snd] in Hj.
  destruct (decide (j = i)) as [->|Hne]; [|rewrite list_lookup_insert_ne in Hj by done; by apply Hps].
  rewrite list_lookup_insert_eq in Hj by (by eapply lookup_lt_Some). by injection Hj as <-.
Qed.

Section concurrent.
Context `{OAuth2Env} `{UuidText} (issuer : string) (svc : Device.DeviceService) (secret : string) (maxAge : duration).

Definition serve (c : http_call) : request response :=
  let '(e, r, d) := c in
  match e with
  | EAuthorize => HandleAuthorize r d
  | ELogin => HandleLogin secret maxAge r d
  | EConsent => HandleConsent secret maxAge r d
  | EToken => HandleToken issuer svc r d
  | ERevoke => HandleRevoke r d
  | EIntrospect => HandleIntrospect r d
  | EDevice => HandleDeviceAuthorization svc r d
  | EVerify => newDeviceVerificationHandler secret maxAge r d
  end.

(** A user with signed headers accepted the user code. *)
Definition accepted_by (reqs : list http_call) (userCode identityID sessionID : string) : Prop :=
  exists r d form, (EVerify, r, d) ∈ reqs /\ hr_form r = Some form /\ form "decision" = "accept" /\ TrimSpace (form "user_code") = userCode /\
    newTrustedIdentityResolver secret maxAge (hr_Header r) (hd_sig d) = Some (identityID, sessionID).
(** A client asked for the codes, with these scopes. *)
Definition asked_by (reqs : list http_call) (dc : DeviceCode) : Prop :=
  exists r d form, (EDevice, r, d) ∈ reqs /\ hr_form r = Some form /\ dc_Scopes dc = parseScopes (form "scope") /\
    Device.dd_user (hd_dev d) = Ok (dc_UserCode dc) /\ DeviceStore.GenerateDeviceCode (Device.dd_code (hd_dev d)) = Ok (dc_DeviceCode dc) /\
    dc_ExpiresAt dc = time_add (Device.dd_now1 (hd_dev d)) (Device.deviceCodeTTL svc).
Record row_ok (reqs : list http_call) (k : string) (dc : DeviceCode) : Prop := {
  row_key : dc_DeviceCode dc = k;
  row_audience : dc_Audience dc = None;
  row_poll : dc_LastPollAt dc = None;
  row_asked : asked_by reqs dc;
  row_approved : dc_Status dc = "approved" ->
    exists identityID sessionID, dc_IdentityID dc = Some identityID /\ dc_SessionID dc = Some sessionID /\
      accepted_by reqs (dc_UserCode dc) identityID sessionID;
}.
Definition devices_ok (reqs : list http_call) (db : device_db) : Prop := forall k dc, t_devices db !! k = Some dc -> row_ok reqs k dc.

Context (reqs : list http_call).
Abbreviation I := (devices_ok reqs).

(** ** Calls *)

Lemma keeps_oauth {E A} (Q : response -> Prop) (m : M oauth_db E A) ok err :
  (forall o a w', m o = (Ok a, w') -> Q (ok a)) -> (forall o e w', m o = (Err e, w') -> Q (err e)) -> keeps I Q (on_oauth m ok err).
Proof.
  intros Hok Herr w r w' Hw Hm. apply zoom_run in Hm as (w1 & Hm & Hw'). split; [by rewrite Hw'|]. destruct r; cbn; eauto.
Qed.
Lemma keeps_posted Q r k : Q methodNotAllowed -> Q badForm -> (forall form, hr_form r = Some form -> keeps I Q (k form)) -> keeps I Q (posted r k).
Proof. intros H1 H2 Hk. unfold posted. destruct (negb _); [done|]. destruct (hr_form r); [by apply Hk|done]. Qed.

Lemma GetDeviceCode_run code w r w' : DeviceStore.GetDeviceCodeByDeviceCode code w = (r, w') ->
  w_db w' = w_db w /\ forall dc, r = Ok dc -> t_devices (w_db w) !! code = Some dc.
Proof.
  unfold DeviceStore.GetDeviceCodeByDeviceCode, DeviceStore.no_rows, M_try. destruct (db_stmt _ w) as [r1 w1] eqn:E.
  apply db_stmt_cases in E as [(dc & -> & E)|(e & -> & E)].
  - destruct (t_devices (w_db w) !! code) as [dc'|] eqn:Hd; [|done]. injection E as <- Hw. intros [= <- <-]. split; [by rewrite Hw|]. by intros dc [= <-].
  - intros Hr. repeat case_match; injection Hr as <- <-; by split.
Qed.
Lemma update_devices_run p f w r w' : I (w_db w) -> DeviceStore.affects (db_stmt (DeviceStore.update_devices p f)) w = (r, w') ->
  (forall k dc, row_ok reqs k dc -> p dc = true -> row_ok reqs k (f dc)) -> I (w_db w').
Proof.
  intros Hw Hr Hf. unfold DeviceStore.affects in Hr. rewrite M_bind_run in Hr.
  destruct (db_stmt _ w) as [r1 w1] eqn:E. apply db_stmt_cases in E as [(b & -> & E)|(e & -> & E)].
  - assert (w' = w1) as -> by (by destruct b; injection Hr as _ <-). unfold DeviceStore.update_devices in E. injection E as _ <-.
    intros k dc Hk. cbn [upd_devices t_devices] in Hk. apply lookup_fmap_Some in Hk as (dc0 & <- & Hk). destruct (p dc0) eqn:Hp; auto.
  - injection Hr as _ <-. by rewrite E.
Qed.
Lemma DeleteDeviceCode_run code w r w' : I (w_db w) -> DeviceStore.DeleteDeviceCode code w = (r, w') -> I (w_db w').
Proof.
  intros Hw Hr. apply db_stmt_cases in Hr as [(u & -> & E)|(e & -> & E)]; [|by rewrite E]. injection E as _ <-.
  intros k dc Hk. cbn [upd_devices t_devices] in Hk. apply lookup_delete_Some in Hk as [_ Hk]. auto.
Qed.
Lemma CreateDeviceCode_run dc rand1 rand2 now w r w' : I (w_db w) -> DeviceStore.CreateDeviceCode dc rand1 rand2 now w = (r, w') ->
  dc_DeviceCode dc <> "" -> dc_UserCode dc <> "" \/ rand2 = None ->
  (dc_UserCode dc <> "" -> row_ok reqs (dc_DeviceCode dc) (DeviceStore.with_keys dc (dc_DeviceCode dc) (dc_UserCode dc) now)) -> I (w_db w').
Proof.
  intros Hw Hr Hcode Huser Hrow. unfold DeviceStore.CreateDeviceCode, DeviceStore.or_else in Hr. rewrite M_bind_run in Hr.
  rewrite (proj2 (String.eqb_neq _ _) Hcode) in Hr. cbn in Hr. rewrite M_bind_run in Hr.
  destruct (String.eqb_spec (dc_UserCode dc) "") as [He|He].
  - destruct Huser as [?| ->]; [done|]. cbn in Hr. injection Hr as _ <-. done.
  - cbn in Hr. unfold M_try in Hr. destruct (db_stmt _ w) as [r1 w1] eqn:E.
    assert (w' = w1) as -> by (repeat case_match; by injection Hr as _ <-).
    apply db_stmt_cases in E as [(u & -> & E)|(e & -> & E)]; [|by rewrite E]. unfold DeviceStore.insert_device in E.
    repeat match type of E with (if ?b then _ else _) = _ => destruct b; [done|] end. injection E as _ <-.
    intros k dc1 Hk. cbn [upd_devices t_devices] in Hk. apply lookup_insert_Some in Hk as [[<- <-]|[_ Hk]]; [by apply Hrow|auto].
Qed.

(** ** Requests *)

Lemma keeps_authorization r d : (EDevice, r, d) ∈ reqs -> keeps I (fun _ => True) (HandleDeviceAuthorization svc r d).
Proof.
  intros Hin. apply keeps_posted; [done..|]. intros form Hform.
  apply keeps_pseq with (Q := fun _ => True); [|done]. unfold Device.RequestDeviceAuthorization. intros w rc w1 Hw Hc.
  apply zoom_run in Hc as (w2 & _ & Hw1). split; [by rewrite Hw1|]. destruct rc as [client|]; [|done].
  destruct (negb _); [done|]. destruct (DeviceStore.GenerateDeviceCode _) as [code|] eqn:Hcode; [|done].
  destruct (Device.dd_user (hd_dev d)) as [user|] eqn:Huser; [|done]. intros w3 rr w4 Hw3 Hcr. split; [|by destruct rr].
  eapply CreateDeviceCode_run in Hcr; [exact Hcr|done| |by right|]; cbn [Device.new_code dc_DeviceCode dc_UserCode].
  - intros ->. unfold DeviceStore.GenerateDeviceCode, Store.generateID in Hcode. by destruct (Device.dd_code _).
  - intros _. split; [done..| |done]. exists r, d, form. done.
Qed.
Lemma keeps_verification r d : (EVerify, r, d) ∈ reqs -> keeps I (fun _ => True) (newDeviceVerificationHandler secret maxAge r d).
Proof.
  intros Hin. unfold newDeviceVerificationHandler. destruct (negb _); [done|]. destruct (hr_form r) as [form|] eqn:Hform; [|done].
  destruct (String.eqb _ _); [done|]. destruct (newTrustedIdentityResolver _ _ _ _) as [[identityID sessionID]|] eqn:Hid; [|done].
  cbv zeta. destruct (String.eqb_spec (form "decision") "deny") as [_|_].
  - intros w rr w' Hw Hr. split; [|done]. eapply update_devices_run; [exact Hw|exact Hr|]. intros k dc [Hk Ha Hp Has Hap] _. by split.
  - destruct (String.eqb_spec (form "decision") "accept") as [Hacc|_]; [|done]. intros w rr w' Hw Hr. split; [|done].
    eapply update_devices_run; [exact Hw|exact Hr|]. intros k dc [Hk Ha Hp Has Hap] Hpend. split; [done..|].
    intros _. exists identityID, sessionID. split_and!; [done..|]. exists r, d, form. split_and!; try done.
    unfold DeviceStore.pending_for in Hpend. apply andb_true_iff in Hpend as [Hu _]. apply String.eqb_eq in Hu. done.
Qed.

(** What a request of the device grant that has ended answered: the poll was
    refused, or the code of the request was one the same client was given, not
    expired, and a user with signed headers had accepted it. *)
Definition no_tokens (resp : response) : Prop :=
  (forall t, rs_Body resp <> PTokens t) /\ (forall description, rs_Body resp <> PError "slow_down" description).
Definition device_outcome (r : http_request) (d : hdraws) (form : string -> string) (resp : response) : Prop :=
  (exists e, e <> Device.ErrSlowDown /\ resp = poll_error e) \/
  ((exists dc identityID sessionID,
     dc_DeviceCode dc = form "device_code" /\ dc_ClientID dc = fst (extractClientCredentials r form) /\ asked_by reqs dc /\
     time_after (Device.dd_now1 (hd_dev d)) (dc_ExpiresAt dc) = false /\
     dc_IdentityID dc = Some identityID /\ dc_SessionID dc = Some sessionID /\ accepted_by reqs (dc_UserCode dc) identityID sessionID) /\
   no_tokens resp).

Lemma ExchangeDeviceCode_audience req rd ck o resp o' :
  TokenService.dr_Audience req = None -> TokenService.ExchangeDeviceCode issuer (Some req) rd ck o <> (Ok resp, o').
Proof.
  intros Ha Hx. unfold TokenService.ExchangeDeviceCode in Hx. inv_run.
  match goal with Hi : TokenService.issueTokens _ _ _ _ _ _ = _ |- _ => apply issueTokens_ok in Hi as [_ _ _ _ Haud] end. by apply Haud.
Qed.
Lemma token_error_body e : no_tokens (token_error e).
Proof.
  unfold token_error, writeTokenError. destruct (mapTokenGrantError e) as [[code description] status] eqn:Hm.
  assert (Hc : code <> "slow_down") by (destruct e as [| | | | | | | |[]|]; cbn in Hm; by injection Hm as <- _ _).
  by destruct (String.eqb code _); split; cbn; [|intros ? [= ? _]| |intros ? [= ? _]].
Qed.
Lemma poll_error_body e : e <> Device.ErrSlowDown -> no_tokens (poll_error e).
Proof. by destruct e. Qed.
Lemma poll_decision_ok req dc k now1 now2 x : row_ok reqs k dc -> Device.poll_decision svc req dc now1 now2 = x ->
  match x with
  | Err e => e <> Device.ErrSlowDown
  | Ok dc' => dc' = dc /\ dc_ClientID dc = Device.dq_ClientID req /\ time_after now1 (dc_ExpiresAt dc) = false /\ dc_Status dc = "approved"
  end.
Proof.
  intros [_ _ Hp _ _] <-. unfold Device.poll_decision. destruct (String.eqb_spec (dc_ClientID dc) (Device.dq_ClientID req)) as [Hc|]; [|done].
  cbn [negb]. destruct (time_after now1 _) eqn:Ht; [done|]. destruct (String.eqb _ _); [done|].
  destruct (String.eqb_spec (dc_Status dc) "approved") as [Hs|]; [|by rewrite Hp]. cbn [negb]. by destruct (dc_IdentityID dc).
Qed.
Lemma keeps_device_grant r form d : keeps I (device_outcome r d form) (handleDeviceCodeGrant issuer svc r form d).
Proof.
  unfold handleDeviceCodeGrant. destruct (extractClientCredentials r form) as [clientID clientSecret] eqn:Hcred.
  apply keeps_pseq with (Q := fun x => match x with
    | Err e => e <> Device.ErrSlowDown
    | Ok dc => row_ok reqs (form "device_code") dc /\ dc_ClientID dc = clientID /\
        time_after (Device.dd_now1 (hd_dev d)) (dc_ExpiresAt dc) = false /\ dc_Status dc = "approved" end).
  - intros w rr w' Hw Hr. apply GetDeviceCode_run in Hr as [Hdb Hrow]. split; [by rewrite Hdb|]. destruct rr as [dc|]; [|done].
    specialize (Hrow dc eq_refl). apply Hw in Hrow. cbn [keeps].
    pose proof (poll_decision_ok {| Device.dq_GrantType := device_grant; Device.dq_DeviceCode := form "device_code"; Device.dq_ClientID := clientID |}
      dc _ (Device.dd_now1 (hd_dev d)) (Device.dd_now2 (hd_dev d)) _ Hrow eq_refl) as Hd.
    destruct (Device.poll_decision _ _ _ _ _); [|done]. destruct Hd as (-> & ? & ? & ?). done.
  - intros [dc|e]; [|intros He; left; by exists e]. intros (Hrow & Hcl & Hexp & Hst).
    destruct (row_approved _ _ _ Hrow Hst) as (identityID & sessionID & Hid & Hsid & Hacc).
    assert (Hout : forall resp, no_tokens resp -> device_outcome r d form resp).
    { intros resp Hresp. right. split; [|done]. exists dc, identityID, sessionID. rewrite Hcred. destruct Hrow. done. }
    intros w rr w' Hw Hr. split; [by eapply DeleteDeviceCode_run|]. destruct rr; [|by apply Hout]. rewrite Hid.
    apply keeps_oauth; [|intros; apply Hout, token_error_body]. intros o resp o' Hx. exfalso. revert Hx. apply ExchangeDeviceCode_audience.
    by destruct Hrow.
Qed.

Definition is_device_grant (c : http_call) (form : string -> string) : Prop :=
  let '(e, r, _) := c in e = EToken /\ hr_Method r = "POST" /\ hr_form r = Some form /\ form "grant_type" = device_grant.
Definition outcome (c : http_call) (resp : response) : Prop :=
  let '(_, r, d) := c in forall form, is_device_grant c form -> device_outcome r d form resp.
Lemma keeps_serve c : c ∈ reqs -> keeps I (outcome c) (serve c).
Proof.
  destruct c as [[e r] d]. intros Hin. assert (Hother : e <> EToken -> keeps I (fun _ => True) (serve (e, r, d)) -> keeps I (outcome (e, r, d)) (serve (e, r, d))).
  { intros He Hk. eapply keeps_impl; [exact Hk|]. by intros resp _ form [? _]. }
  destruct e; try (apply Hother; [done|]); cbn [serve].
  - unfold HandleAuthorize. destruct (negb _); [done|]. by apply keeps_oauth.
  - apply keeps_posted; [done..|]. intros form _. destruct (resolveIdentity _ _ _ _) as [[]|]; [|done]. by apply keeps_oauth.
  - apply keeps_posted; [done..|]. intros form _. destruct (resolveIdentity _ _ _ _) as [[]|]; [|done]. cbv zeta.
    destruct (String.eqb _ "deny"); [by apply keeps_oauth|]. destruct (negb _); [done|].
    destruct (ParseBool _) as [b|], (String.eqb (form "remember") ""); try done; destruct (rememberFor form); try done; by apply keeps_oauth.
  - cbn [outcome]. unfold HandleToken, posted. destruct (String.eqb_spec (hr_Method r) "POST") as [Hm|Hm]; [|intros form (_ & ? & _); done].
    cbn [negb]. destruct (hr_form r) as [form|] eqn:Hf; [|intros form (_ & _ & ? & _); congruence].
    assert (Hnot : form "grant_type" <> device_grant -> forall p, keeps I (fun _ => True) p ->
      keeps I (fun resp => forall form0, is_device_grant (EToken, r, d) form0 -> device_outcome r d form0 resp) p).
    { intros Hg p Hk. eapply keeps_impl; [exact Hk|]. intros resp _ form0 (_ & _ & Hf0 & Hg0). congruence. }
    destruct (String.eqb_spec (form "grant_type") "authorization_code") as [Hg|_].
    { apply Hnot; [by rewrite Hg|]. unfold handleAuthorizationCodeGrant. destruct (extractClientCredentials r form). by apply keeps_oauth. }
    destruct (String.eqb_spec (form "grant_type") "refresh_token") as [Hg|_].
    { apply Hnot; [by rewrite Hg|]. unfold handleRefreshTokenGrant. destruct (extractClientCredentials r form). by apply keeps_oauth. }
    destruct (String.eqb_spec (form "grant_type") "client_credentials") as [Hg|_].
    { apply Hnot; [by rewrite Hg|]. unfold handleClientCredentialsGrant. destruct (extractClientCredentials r form). by apply keeps_oauth. }
    destruct (String.eqb_spec (form "grant_type") device_grant) as [Hg|Hg]; [|by apply Hnot].
    eapply keeps_impl; [apply keeps_device_grant|]. intros resp Hx form0 (_ & _ & Hf0 & _).
    assert (form0 = form) as -> by congruence. exact Hx.
  - apply keeps_posted; [done..|]. intros form _. destruct (String.eqb _ _); [done|]. destruct (extractClientCredentials r form). by apply keeps_oauth.
  - apply keeps_posted; [done..|]. intros form _. destruct (extractClientCredentials r form). by apply keeps_oauth.
  - by apply keeps_authorization.
  - by apply keeps_verification.
Qed.

Lemma keeps_run s ps' s' : t_devices s = ∅ -> rtc pool_step (map serve reqs, s) (ps', s') ->
  I s' /\ forall i resp, ps' !! i = Some (Ret resp) -> forall c, reqs !! i = Some c -> outcome c resp.
Proof.
  intros Hempty Hrun.
  destruct (keeps_pool I (fun i resp => forall c, reqs !! i = Some c -> outcome c resp) _ _ _ _ Hrun) as [Hs' Hps].
  - intros k dc. by rewrite Hempty.
  - intros i p Hp. rewrite list_lookup_fmap in Hp. apply fmap_Some in Hp as (c & Hc & ->).
    eapply keeps_impl; [apply keeps_serve; by eapply list_elem_of_lookup_2|]. intros resp Ho c' Hc'. by simplify_eq.
  - split; [done|]. intros i resp Hi. exact (Hps i _ Hi).
Qed.

(** C29: However requests to the endpoints of the module interleave and whatever
    statements fail, a request of the device grant that has ended was refused by
    the poll, or its code was one that the same client was given, with the scopes
    asked for then and not expired, and a user whose headers the core had signed
    had accepted it, whose identity and session the grant carries. *)
Theorem device_grant_needs_signed_approval s ps' s' i r d form resp :
  t_devices s = ∅ -> rtc pool_step (map serve reqs, s) (ps', s') ->
  reqs !! i = Some (EToken, r, d) -> is_device_grant (EToken, r, d) form -> ps' !! i = Some (Ret resp) ->
  (exists e, resp = poll_error e) \/
  exists dc identityID sessionID,
    dc_DeviceCode dc = form "device_code" /\ dc_ClientID dc = fst (extractClientCredentials r form) /\ asked_by reqs dc /\
    time_after (Device.dd_now1 (hd_dev d)) (dc_ExpiresAt dc) = false /\
    dc_IdentityID dc = Some identityID /\ dc_SessionID dc = Some sessionID /\ accepted_by reqs (dc_UserCode dc) identityID sessionID.
Proof.
  intros Hempty Hrun Hi Hg Hend. destruct (keeps_run s ps' s' Hempty Hrun) as [_ Hps]. destruct (Hps i _ Hend _ Hi form Hg) as [(e & _ & ->)|[Hok _]];
    [left; by exists e|by right].
Qed.

(** The device grant never answers with tokens and never asks a client to slow
    down: a device code has no audience, which an access token must have, and
    nothing records when a code was polled. *)
Theorem device_grant_yields_no_tokens s ps' s' i r d form resp :
  t_devices s = ∅ -> rtc pool_step (map serve reqs, s) (ps', s') ->
  reqs !! i = Some (EToken, r, d) -> is_device_grant (EToken, r, d) form -> ps' !! i = Some (Ret resp) ->
  no_tokens resp.
Proof.
  intros Hempty Hrun Hi Hg Hend. destruct (keeps_run s ps' s' Hempty Hrun) as [_ Hps]. destruct (Hps i _ Hend _ Hi form Hg) as [(e & He & ->)|[_ Hno]];
    [by apply poll_error_body|done].
Qed.
End concurrent.

Module DeviceWitness.
#[local] Existing Instance unary_uuid.

(** A signer that signs with a constant, and passwords hashed by a prefix. *)
#[local] Instance device_env : OAuth2Env := {|
  SignAccessToken := fun _ => Some "access.jwt";
  SignIDToken := fun _ => Some "id.jwt";
  VerifyPassword := fun plain hash => Some (String.eqb ("$" ++ plain) hash);
  url_Hostname := fun _ => None |}.
Definition tv : Client :=
  {| cl_ID := "tv"; cl_SecretHash := Some "$s3cret"; cl_Name := "TV"; cl_RedirectURIs := []; cl_GrantTypes := [device_grant];
     cl_ResponseTypes := []; cl_Scopes := ["openid"; "read"]; cl_TokenEndpointAuthMethod := "client_secret_basic"; cl_SectorIdentifierURI := None;
     cl_SubjectType := "public"; cl_AccessTokenTTL := 900; cl_RefreshTokenTTL := 2592000; cl_IDTokenTTL := 3600; cl_AuthCodeTTL := 600;
     cl_RequirePKCE := true; cl_RequireConsent := true; cl_AllowOfflineAccess := true; cl_Metadata := None |}.
Definition db0 : device_db :=
  {| dv_oauth := {| t_clients := {["tv" := tv]}; OAuth2Store.t_codes := ∅; t_logins := ∅; t_consents := ∅; t_remembered := ∅; t_access := ∅; t_refresh := ∅;
                    t_idtokens := ∅; t_core := {| t_sessions := ∅; t_methods := [] |} |};
     t_devices := ∅ |}.
Definition svc : Device.DeviceService :=
  {| Device.deviceCodeTTL := (600 * second)%Z; Device.pollingInterval := 5; Device.verificationURI := "https://id/device" |}.
Definition key : string := "0123456789abcdef0123456789abcdef".
Definition unsigned : header := Header_Set (Header_Set (Header_Set ∅ "X-User-ID" "ada") "X-User-Session-ID" "s1") "X-User-AAL" "aal1".
Definition signed : header :=
  match SignIdentityHeaders key unsigned signedHeaders (100 * second) with Ok s => Header_Set unsigned "X-Aegion-Signature" s | Err _ => unsigned end.
Definition form (fields : list (string * string)) (name : string) : string :=
  match List.find (fun kv => String.eqb kv.1 name) fields with Some kv => kv.2 | None => "" end.
Definition post (h : header) (fields : list (string * string)) : http_request :=
  {| hr_Method := "POST"; hr_Header := h; hr_RequestURI := ""; hr_query := fun _ => ""; hr_form := Some (form fields) |}.
Definition d : hdraws :=
  {| hd_rd := fun _ => Some "x"; hd_ck := fun n => (200 * second + Z.of_nat n)%Z; hd_dbnow := (200 * second)%Z; hd_sig := (100 * second)%Z;
     hd_dev := {| Device.dd_code := Some "abc"; Device.dd_user := Ok "BCDF-GHJK"; Device.dd_now1 := (200 * second)%Z; Device.dd_now2 := (200 * second)%Z |} |}.
Definition poll_form : list (string * string) := [("grant_type", device_grant); ("device_code", "dc_" ++ b64url_Encode "abc")].
Definition basic : header := Header_Set ∅ "Authorization" ("Basic " ++ b64std_Encode "tv:s3cret").
Definition poll : http_call := (EToken, post basic poll_form, d).
Definition reqs : list http_call :=
  [(EDevice, post ∅ [("client_id", "tv"); ("scope", "openid")], d);
   (EVerify, post signed [("user_code", " BCDF-GHJK "); ("decision", "accept")], d); poll; poll; poll].
(** The third poll comes before the approval; the other two read the row before
    either removes it. *)
Definition schedule : list nat := [0; 0; 4; 1; 2; 3; 2; 3; 2; 3].
Definition final : list (request response) * device_db := pool_run schedule (map (serve "https://iss" svc key minute) reqs, db0).
Definition answer (i : nat) : option payload := match final.1 !! i with Some (Ret resp) => Some (rs_Body resp) | _ => None end.

Example device_flow : answer 1 = Some PNone /\ answer 4 = Some (PError "authorization_pending" "User has not yet authorized").
Proof. split; vm_compute; reflexivity. Qed.
(** Both polls get past the check and go on to the token service. *)
Example code_polled_twice :
  answer 2 = Some (PError "server_error" "Internal server error") /\ answer 3 = Some (PError "server_error" "Internal server error").
Proof. split; vm_compute; reflexivity. Qed.

Definition failed : response := setNoStoreHeaders (writeError "server_error" "Internal server error" 500).
Lemma device_grant_needs_signed_approval_witness :
  exists dc identityID sessionID,
    dc_DeviceCode dc = "dc_" ++ b64url_Encode "abc" /\ dc_ClientID dc = "tv" /\ asked_by svc reqs dc /\
    time_after (200 * second) (dc_ExpiresAt dc) = false /\
    dc_IdentityID dc = Some identityID /\ dc_SessionID dc = Some sessionID /\ accepted_by key minute reqs (dc_UserCode dc) identityID sessionID.
Proof.
  destruct (device_grant_needs_signed_approval "https://iss" svc key minute reqs db0 final.1 final.2 2 (post basic poll_form) d (form poll_form) failed)
    as [[e He]|Hok].
  - reflexivity.
  - rewrite <- surjective_pairing. apply pool_run_steps.
  - reflexivity.
  - split_and!; reflexivity.
  - vm_compute. reflexivity.
  - exfalso. destruct e; discriminate He.
  - exact Hok.
Defined.
Lemma device_grant_yields_no_tokens_witness : no_tokens failed.
Proof.
  refine (device_grant_yields_no_tokens "https://iss" svc key minute reqs db0 final.1 final.2 2 (post basic poll_form) d (form poll_form) failed _ _ _ _ _).
  - reflexivity.
  - rewrite <- surjective_pairing. apply pool_run_steps.
  - reflexivity.
  - split_and!; reflexivity.
  - vm_compute. reflexivity.
Defined.
End DeviceWitness.
