(* ===== verification/ProxyHealth.v ===== *)
(** core/proxy/health.go: the health checks of upstreams.

    A checker is its fields and the place its goroutine is at; the goroutine,
    the ticker and [Stop] interleave as labelled steps.  A probe is what the
    upstream answers; the headers sent with it and the logging are left out, and
    so is the float success rate of the metrics. *)

From Stdlib Require Import Ascii String.
From S2P Require Import Prelude GoStrings CircuitBreaker RateLimit Rules Proxy.

Local Open Scope string_scope.

Inductive HealthStatus : Type := HealthStatusUnknown | HealthStatusHealthy | HealthStatusUnhealthy.
Definition HealthStatus_String (hs : HealthStatus) : string :=
  match hs with HealthStatusHealthy => "healthy" | HealthStatusUnhealthy => "unhealthy" | HealthStatusUnknown => "unknown" end.

Record HealthCheckerConfig : Type := {
  hc_URL : string;
  hc_Interval : duration;
  hc_Timeout : duration;
  hc_ExpectedStatus : Z;
  hc_ExpectedBody : string;
  hc_Method : string;
}.
Inductive health_error : Type := EProbe (message : string) | EStatus (code : Z) | EBody | ERead.

(** Where the goroutine is. *)
Inductive place : Type := PIdle | PChecking | PSelecting | PStopped.
Record HealthChecker : Type := {
  h_config : HealthCheckerConfig;
  h_status : HealthStatus;
  h_lastCheck : option time;
  h_lastError : option health_error;
  h_checkCount : Z;
  h_failureCount : Z;
  h_stop : bool;
  h_panic : bool;
  h_place : place;
}.

Definition NewHealthChecker (c : HealthCheckerConfig) : HealthChecker :=
  {| h_config := {| hc_URL := hc_URL c;
       hc_Interval := if (hc_Interval c =? 0)%Z then (30 * second)%Z else hc_Interval c;
       hc_Timeout := if (hc_Timeout c =? 0)%Z then (5 * second)%Z else hc_Timeout c;
       hc_ExpectedStatus := if (hc_ExpectedStatus c =? 0)%Z then 200%Z else hc_ExpectedStatus c;
       hc_ExpectedBody := hc_ExpectedBody c;
       hc_Method := if String.eqb (hc_Method c) "" then "GET" else hc_Method c |};
     h_status := HealthStatusUnknown; h_lastCheck := None; h_lastError := None; h_checkCount := 0; h_failureCount := 0;
     h_stop := false; h_panic := false; h_place := PIdle |}.

(** What a probe meets: an error before the answer, or an answer whose body may
    break off. *)
Record reply : Type := { rp_StatusCode : Z; rp_ContentLength : Z; rp_Body : string; rp_breaks : bool }.
Definition probe : Type := result string reply.

(** [io.ReadAll(io.LimitReader(body, limit))]. *)
Definition read_limited (rp : reply) (limit : nat) : option string :=
  if rp_breaks rp && (String.length (rp_Body rp) <? limit)%nat then None else Some (str_take limit (rp_Body rp)).
(** The verdict of a check: [None] is success. *)
Definition verdict (c : HealthCheckerConfig) (p : probe) : option health_error :=
  match p with
  | Err m => Some (EProbe m)
  | Ok rp =>
      if negb (rp_StatusCode rp =? hc_ExpectedStatus c)%Z then Some (EStatus (rp_StatusCode rp))
      else if String.eqb (hc_ExpectedBody c) "" then None
      else
        let expected := hc_ExpectedBody c in
        let maxBodySize := (String.length expected + 1)%nat in
        if (Z.of_nat maxBodySize <? rp_ContentLength rp)%Z then Some EBody
        else match read_limited rp maxBodySize with
        | None => Some ERead
        | Some body => if (String.length expected <? String.length body)%nat || negb (String.eqb body expected) then Some EBody else None
        end
  end.

(** performCheck: the first critical section, and the recording of the verdict. *)
Definition begin_check (now : time) (h : HealthChecker) : HealthChecker :=
  {| h_config := h_config h; h_status := h_status h; h_lastCheck := Some now; h_lastError := h_lastError h;
     h_checkCount := wrap64 (h_checkCount h + 1); h_failureCount := h_failureCount h; h_stop := h_stop h; h_panic := h_panic h; h_place := PChecking |}.
Definition recordSuccess (h : HealthChecker) : HealthChecker :=
  {| h_config := h_config h; h_status := HealthStatusHealthy; h_lastCheck := h_lastCheck h; h_lastError := None;
     h_checkCount := h_checkCount h; h_failureCount := h_failureCount h; h_stop := h_stop h; h_panic := h_panic h; h_place := PSelecting |}.
Definition recordFailure (e : health_error) (h : HealthChecker) : HealthChecker :=
  {| h_config := h_config h; h_status := HealthStatusUnhealthy; h_lastCheck := h_lastCheck h; h_lastError := Some e;
     h_checkCount := h_checkCount h; h_failureCount := wrap64 (h_failureCount h + 1); h_stop := h_stop h; h_panic := h_panic h; h_place := PSelecting |}.
Definition finish_check (p : probe) (h : HealthChecker) : HealthChecker :=
  match verdict (h_config h) p with None => recordSuccess h | Some e => recordFailure e h end.

(** Stop closes the channel, which panics when it is closed. *)
Definition close_stop (h : HealthChecker) : HealthChecker :=
  {| h_config := h_config h; h_status := h_status h; h_lastCheck := h_lastCheck h; h_lastError := h_lastError h; h_checkCount := h_checkCount h;
     h_failureCount := h_failureCount h; h_stop := true; h_panic := h_stop h; h_place := h_place h |}.
Definition leave (h : HealthChecker) : HealthChecker :=
  {| h_config := h_config h; h_status := h_status h; h_lastCheck := h_lastCheck h; h_lastError := h_lastError h; h_checkCount := h_checkCount h;
     h_failureCount := h_failureCount h; h_stop := h_stop h; h_panic := h_panic h; h_place := PStopped |}.

Inductive health_label : Type := HStart (now : time) | HAnswer (p : probe) | HTick (now : time) | HStop | HSeeStop.
Definition health_step (l : health_label) (h : HealthChecker) : option HealthChecker :=
  if h_panic h then None
  else match l, h_place h with
  | HStart now, PIdle => Some (begin_check now h)
  | HAnswer p, PChecking => Some (finish_check p h)
  | HTick now, PSelecting => Some (begin_check now h)
  | HSeeStop, PSelecting => if h_stop h then Some (leave h) else None
  | HStop, _ => Some (close_stop h)
  | _, _ => None
  end.
Fixpoint health_run (ls : list health_label) (h : HealthChecker) : option HealthChecker :=
  match ls with [] => Some h | l :: rest => health_step l h ≫= health_run rest end.

(** ** Metrics *)

Record HealthMetrics : Type := { hm_Status : HealthStatus; hm_LastCheck : option time; hm_LastError : option health_error; hm_CheckCount : Z; hm_FailureCount : Z }.
Definition GetStatus (h : HealthChecker) : HealthStatus := h_status h.
Definition GetMetrics (h : HealthChecker) : HealthMetrics :=
  {| hm_Status := h_status h; hm_LastCheck := h_lastCheck h; hm_LastError := h_lastError h; hm_CheckCount := h_checkCount h; hm_FailureCount := h_failureCount h |}.
Definition IsHealthy (m : HealthMetrics) : bool := match hm_Status m with HealthStatusHealthy => true | _ => false end.

Record UpstreamHealth : Type := { uh_Name : string; uh_URL : string; uh_Health : HealthMetrics; uh_CircuitBreaker : option CircuitBreakerMetrics }.
Definition checkers : Type := gmap string HealthChecker.
Definition GetUpstreamHealth (p : Proxy) (cs : checkers) : list UpstreamHealth :=
  (fun nc => {| uh_Name := nc.1; uh_URL := match Upstreams (config p) !! nc.1 with Some u => URL u | None => "" end;
                uh_Health := GetMetrics nc.2; uh_CircuitBreaker := CircuitBreaker.GetMetrics <$> breakers p !! nc.1 |}) <$> map_to_list cs.
Definition IsUpstreamHealthy (cs : checkers) (name : string) : bool :=
  match cs !! name with
  | None => true
  | Some h => match GetStatus h with HealthStatusHealthy => true | _ => false end
  end.

(** ** What a check decides *)

Lemma take_exact n s e : String.length e < n -> str_take n s = e <-> s = e.
Proof.
  revert n e. induction s as [|c s IH]; intros [|n] e He; try lia; [done|]. cbn [str_take]. destruct e as [|c' e]; [done|].
  cbn [String.length] in He. assert (IHe := IH n e ltac:(lia)). split; intros [= -> Hs]; f_equal; by apply IHe.
Qed.

(** Reading one byte more than expected decides whether the whole body is the
    expected one. *)
Theorem check_decides_whole_body c rp : hc_ExpectedBody c <> "" ->
  verdict c (Ok rp) = None <->
  rp_StatusCode rp = hc_ExpectedStatus c /\ rp_Body rp = hc_ExpectedBody c /\ rp_breaks rp = false /\
  (rp_ContentLength rp <= Z.of_nat (String.length (hc_ExpectedBody c)) + 1)%Z.
Proof.
  intros Hne. unfold verdict. destruct (Z.eqb_spec (rp_StatusCode rp) (hc_ExpectedStatus c)) as [Hs|Hs]; cbn [negb]; [|by split; [|intros []]].
  rewrite (proj2 (String.eqb_neq _ _) Hne). destruct (Z.ltb_spec (Z.of_nat (String.length (hc_ExpectedBody c) + 1)) (rp_ContentLength rp)); [split; [done|intros (_ & _ & _ & ?); lia]|].
  unfold read_limited. destruct (rp_breaks rp) eqn:Hb; cbn [andb].
  - split; [|by intros (_ & _ & ? & _)]. destruct (Nat.ltb_spec (String.length (rp_Body rp)) (String.length (hc_ExpectedBody c) + 1)) as [Hl|Hl]; [done|].
    destruct (_ || _) eqn:Hv; [done|]. apply orb_false_iff in Hv as [_ Hv]. apply negb_false_iff, String.eqb_eq in Hv.
    apply take_exact in Hv; [|lia]. rewrite Hv in Hl. lia.
  - destruct (_ || _) eqn:Hv.
    + split; [done|]. intros (_ & Hbody & _). exfalso. rewrite Hbody in Hv.
      rewrite (proj2 (take_exact (String.length (hc_ExpectedBody c) + 1) _ (hc_ExpectedBody c) ltac:(lia)) eq_refl) in Hv.
      rewrite String.eqb_refl, Nat.ltb_irrefl in Hv. done.
    + apply orb_false_iff in Hv as [_ Hv]. apply negb_false_iff, String.eqb_eq in Hv. apply take_exact in Hv; [|lia]. split; [|done]. intros _. split_and!; (done || lia).
Qed.

(** ** What a checker reports *)

(** The verdicts of the probes that were answered, oldest first. *)
Definition answers (c : HealthCheckerConfig) (ls : list health_label) : list (option health_error) :=
  omap (fun l => match l with HAnswer p => Some (verdict c p) | _ => None end) ls.
Definition status_after (vs : list (option health_error)) : HealthStatus :=
  match last vs with None => HealthStatusUnknown | Some None => HealthStatusHealthy | Some (Some _) => HealthStatusUnhealthy end.
Definition failures (vs : list (option health_error)) : nat := length (omap (fun v : option health_error => v) vs).
Definition checking (h : HealthChecker) : Z := match h_place h with PChecking => 1%Z | _ => 0%Z end.

Record reports (c : HealthCheckerConfig) (vs : list (option health_error)) (h : HealthChecker) : Prop := {
  rep_config : h_config h = c;
  rep_status : h_status h = status_after vs;
  rep_error : h_lastError h = mjoin (last vs);
  rep_checks : h_checkCount h = wrap64 (Z.of_nat (length vs) + checking h);
  rep_failures : h_failureCount h = wrap64 (Z.of_nat (failures vs));
}.
Lemma wrap64_succ z : wrap64 (wrap64 z + 1) = wrap64 (z + 1).
Proof.
  unfold wrap64. f_equal. replace ((z + 2 ^ 63) mod 2 ^ 64 - 2 ^ 63 + 1 + 2 ^ 63)%Z with ((z + 2 ^ 63) mod 2 ^ 64 + 1)%Z by lia.
  rewrite Z.add_mod_idemp_l by lia. f_equal. lia.
Qed.
Lemma omap_shorter {A B} (f : A -> option B) l : length (omap f l) <= length l.
Proof. induction l as [|x l IH]; cbn; [lia|]. destruct (f x); cbn; lia. Qed.
Lemma failures_snoc vs v : failures (vs ++ [v])%list = (failures vs + match v with Some _ => 1 | None => 0 end)%nat.
Proof. unfold failures. rewrite omap_app, length_app. by destruct v. Qed.

Lemma health_step_reports c vs l h h' : reports c vs h -> health_step l h = Some h' -> reports c (vs ++ answers c [l])%list h'.
Proof.
  intros [Hc Hs He Hn Hf] Hl. unfold health_step in Hl. destruct (h_panic h); [done|].
  destruct l as [now|p|now| |]; cbn [answers omap list_omap]; rewrite ?app_nil_r.
  - destruct (h_place h) eqn:Hp; [|done..]. injection Hl as <-. unfold checking in Hn. rewrite Hp in Hn. split; cbn; [done..| |done].
    by rewrite Hn, wrap64_succ, Z.add_0_r.
  - destruct (h_place h) eqn:Hp; [done| |done..]. injection Hl as <-. unfold checking in Hn. rewrite Hp in Hn. unfold finish_check. rewrite Hc.
    destruct (verdict c p) as [e|] eqn:Hv; split; unfold status_after; cbn; rewrite ?last_snoc, ?length_app, ?failures_snoc; cbn;
      rewrite ?Nat2Z.inj_add, ?Z.add_0_r, ?Nat.add_0_r; try done. by rewrite Hf, wrap64_succ.
  - destruct (h_place h) eqn:Hp; [done..| |done]. injection Hl as <-. unfold checking in Hn. rewrite Hp in Hn. split; cbn; [done..| |done].
    by rewrite Hn, wrap64_succ, Z.add_0_r.
  - injection Hl as <-. by split.
  - destruct (h_place h) eqn:Hp; [done..| |done]. destruct (h_stop h); [|done]. injection Hl as <-. unfold checking in Hn. rewrite Hp in Hn. by split.
Qed.
Lemma health_run_reports c vs ls h h' : reports c vs h -> health_run ls h = Some h' -> reports c (vs ++ answers c ls)%list h'.
Proof.
  revert vs h. induction ls as [|l ls IH]; intros vs h Hr Hl; cbn [health_run] in Hl; [injection Hl as <-; cbn; by rewrite app_nil_r|].
  apply bind_Some in Hl as (h1 & Hl & Hrest). eapply health_step_reports in Hr; [|exact Hl]. specialize (IH _ _ Hr Hrest).
  rewrite <- app_assoc in IH. assert (Ha : (answers c [l] ++ answers c ls)%list = answers c (l :: ls)) by (by destruct l). by rewrite <- Ha.
Qed.

(** However probes, ticks and [Stop] interleave, a checker reports the verdict of
    the last answered probe, counts the probes it began and those that failed, and
    before the first answer reports nothing: an upstream that has not answered
    yet does not count as healthy. *)
Theorem health_reports_last_probe c ls h :
  health_run ls (NewHealthChecker c) = Some h -> (Z.of_nat (length ls) < int64_max)%Z ->
  let vs := answers (h_config h) ls in
  h_config h = h_config (NewHealthChecker c) /\ hm_Status (GetMetrics h) = status_after vs /\ hm_LastError (GetMetrics h) = mjoin (last vs) /\
  hm_CheckCount (GetMetrics h) = (Z.of_nat (length vs) + checking h)%Z /\ hm_FailureCount (GetMetrics h) = Z.of_nat (failures vs) /\
  (IsHealthy (GetMetrics h) = true <-> last vs = Some None).
Proof.
  intros Hrun Hlen vs. destruct (health_run_reports (h_config (NewHealthChecker c)) [] ls _ _ ltac:(by split) Hrun) as [Hc Hs He Hn Hf].
  cbn [app] in *. rewrite <- Hc in Hs, He, Hn, Hf. fold vs in Hs, He, Hn, Hf.
  assert (Hvs : length vs <= length ls) by (unfold vs, answers; apply omap_shorter).
  assert (Hfv : failures vs <= length vs) by (unfold failures; apply omap_shorter).
  assert (Hch : (0 <= checking h <= 1)%Z) by (unfold checking; destruct (h_place h); lia).
  rewrite wrap64_id in Hn, Hf by (unfold in_int64, int64_min, int64_max in *; lia).
  split_and!; [done..|]. unfold IsHealthy, GetMetrics. cbn [hm_Status]. rewrite Hs. unfold status_after. by destruct (last vs) as [[]|].
Qed.

(** Stopping: once the channel is closed the goroutine, wherever it is after its
    start, can reach its end in at most two steps, and then nothing more is
    probed; closing it twice panics. *)
Definition to_the_end (h : HealthChecker) (p : probe) : list health_label :=
  match h_place h with PChecking => [HAnswer p; HSeeStop] | PSelecting => [HSeeStop] | _ => [] end.
Theorem stopped_checker_can_end h p : h_panic h = false -> h_stop h = true -> h_place h <> PIdle ->
  exists h', health_run (to_the_end h p) h = Some h' /\ h_place h' = PStopped /\
    forall l h'', health_step l h' = Some h'' -> h_place h'' = PStopped /\ GetMetrics h'' = GetMetrics h'.
Proof.
  intros Hp Hs Hi.
  assert (Hend : forall g, h_place g = PStopped -> forall l g', health_step l g = Some g' -> h_place g' = PStopped /\ GetMetrics g' = GetMetrics g).
  { intros g Hg l g' Hl. unfold health_step in Hl. rewrite Hg in Hl. destruct (h_panic g); [done|]. destruct l; simplify_eq; by split. }
  unfold to_the_end. destruct (h_place h) eqn:Hpl; [done| | |]; cbn [health_run].
  - assert (Hf : health_step (HAnswer p) h = Some (finish_check p h)) by (unfold health_step; by rewrite Hp, Hpl). rewrite Hf. cbn [mbind option_bind].
    exists (leave (finish_check p h)). split; [|split; [done|by apply Hend]]. unfold finish_check, health_step. destruct (verdict _ p); cbn; by rewrite Hp, Hs.
  - exists (leave h). split; [|split; [done|by apply Hend]]. unfold health_step. by rewrite Hp, Hpl, Hs.
  - exists h. split; [done|]. split; [done|]. by apply Hend.
Qed.

Module HealthWitness.
Definition cfg : HealthCheckerConfig :=
  {| hc_URL := "http://up/health"; hc_Interval := 0; hc_Timeout := 0; hc_ExpectedStatus := 0; hc_ExpectedBody := "ok"; hc_Method := "" |}.
Definition good : reply := {| rp_StatusCode := 200; rp_ContentLength := -1; rp_Body := "ok"; rp_breaks := false |}.
Definition long : reply := {| rp_StatusCode := 200; rp_ContentLength := -1; rp_Body := "okay"; rp_breaks := false |}.
Definition events : list health_label := [HStart 1; HAnswer (Ok long); HTick 2; HAnswer (Ok good); HTick 3; HStop].
Definition checker : HealthChecker := default (NewHealthChecker cfg) (health_run events (NewHealthChecker cfg)).

Lemma check_decides_whole_body_witness : verdict (h_config checker) (Ok good) = None.
Proof. apply check_decides_whole_body; [discriminate|]. split_and!; [reflexivity..|vm_compute; discriminate]. Defined.
Lemma health_reports_last_probe_witness :
  hm_CheckCount (GetMetrics checker) = 3%Z /\ (IsHealthy (GetMetrics checker) = true <-> last (answers (h_config checker) events) = Some None).
Proof.
  split; [reflexivity|]. apply (health_reports_last_probe cfg events checker); [reflexivity|vm_compute; reflexivity].
Defined.
Lemma stopped_checker_can_end_witness : exists h', health_run (to_the_end checker (Ok good)) checker = Some h' /\ h_place h' = PStopped.
Proof.
  destruct (stopped_checker_can_end checker (Ok good)) as (h' & Hrun & Hp & _); [reflexivity..|discriminate|]. exists h'. by split.
Defined.
Example stopping_twice_panics : h_panic <$> health_run [HStop] checker = Some true.
Proof. reflexivity. Qed.
End HealthWitness.
