(* ===== verification/Router.v ===== *)
(** core/router: the proxy in front of the modules (proxy.go) and the middleware
    of the router (middleware.go), with the public module endpoint of
    cmd/aegion/routes.go.

    The request's context is its values: session, calling module, request
    identifier and client address.  [url.Parse] is a parameter, and the policy
    checker an interface of the code.  The rate limiter over floats, logging,
    timeouts and the transport are left out. *)

From Stdlib Require Import Ascii String.
From S2P Require Import MagicLink Policy Registry.
From S2P Require Import Prelude GoStrings GoEncoding GoHttp PlatformCrypto SignedHeaders TrustedProxy Session SessionFacts SessionContext.
From S2P Require Import CircuitBreaker RateLimit Rules Proxy ProxyFacts.
From S2P Require Import OAuth2Store OAuth2Authorize OAuth2Token OAuth2Device OAuth2Http.

Local Open Scope string_scope.

(** ** Errors and configuration (proxy.go) *)

Inductive router_error : Type :=
| ErrModuleUnavailable (cause : option registry_error)
| ErrNoHealthyEndpoint
| ErrUrl
| ErrPolicyDenied (response : CheckResponse)
| ErrPolicy (message : string).

Definition PolicyChecker : Type := CheckRequest -> result string (option CheckResponse).
Record ModuleProxyConfig : Type := {
  mp_Registry : option Registry;
  mp_ModuleID : string;
  mp_InternalToken : string;
  mp_SessionSecret : string;
  mp_PreserveHost : bool;
  mp_TrustForwardedHeaders : bool;
  mp_StripInboundIdentityHeaders : bool;
  mp_IdentitySigningSecret : string;
  mp_IdentitySignatureHeader : string;
  mp_SignedIdentityHeaders : list string;
  mp_PolicyChecker : option PolicyChecker;
  mp_RequirePolicy : bool;
  mp_PolicyModel : string;
}.
Definition NewModuleProxy (cfg : ModuleProxyConfig) : ModuleProxyConfig :=
  {| mp_Registry := mp_Registry cfg; mp_ModuleID := mp_ModuleID cfg; mp_InternalToken := mp_InternalToken cfg; mp_SessionSecret := mp_SessionSecret cfg;
     mp_PreserveHost := mp_PreserveHost cfg; mp_TrustForwardedHeaders := mp_TrustForwardedHeaders cfg;
     mp_StripInboundIdentityHeaders := mp_StripInboundIdentityHeaders cfg; mp_IdentitySigningSecret := mp_IdentitySigningSecret cfg;
     mp_IdentitySignatureHeader := if String.eqb (mp_IdentitySignatureHeader cfg) "" then "X-Aegion-Signature" else mp_IdentitySignatureHeader cfg;
     mp_SignedIdentityHeaders := match mp_SignedIdentityHeaders cfg with [] => ["X-User-ID"; "X-User-Session-ID"; "X-User-AAL"] | l => l end;
     mp_PolicyChecker := mp_PolicyChecker cfg; mp_RequirePolicy := mp_RequirePolicy cfg; mp_PolicyModel := mp_PolicyModel cfg |}.

(** The values of a request's context. *)
Record values : Type := { v_session : option Session; v_module : string; v_requestID : string; v_clientIP : string }.
Record target : Type := { tg_Scheme : string; tg_Host : string; tg_Path : string }.
Class RouterUrl := { parse_target : string -> option target }.

(** ** Helpers *)

Definition trim_brackets (s : string) : string := trim is_bracket s.
Definition normalizeHost (hostport : string) : string :=
  let hostport := TrimSpace hostport in
  if String.eqb hostport "" then ""
  else match SplitHostPort hostport with
  | Some host => trim_brackets (ToLower host)
  | None => trim_brackets (ToLower hostport)
  end.
Definition isSameAuthority (left right : string) : bool :=
  let l := normalizeHost left in
  let r := normalizeHost right in
  negb (String.eqb l "") && negb (String.eqb r "") && String.eqb (ToLower l) (ToLower r).
Definition singleJoiningSlash (a b : string) : string :=
  match HasSuffix a "/", HasPrefix b "/" with
  | true, true => a +:+ str_drop 1 b
  | false, false => a +:+ "/" +:+ b
  | _, _ => a +:+ b
  end.
Definition policyActionFromMethod (method : string) : string :=
  let m := ToUpper (TrimSpace method) in
  if existsb (String.eqb m) ["GET"; "HEAD"; "OPTIONS"] then "read"
  else if existsb (String.eqb m) ["POST"; "PUT"; "PATCH"; "DELETE"] then "write"
  else ToLower (TrimSpace method).
Definition normalizePolicyModel (model : string) : string :=
  let m := ToLower (TrimSpace model) in
  if existsb (String.eqb m) [""; "default"; "rbac"; "abac"; "rebac"] then m else "".
Definition WithRequestContextIP (v : values) (ip : string) : values :=
  let ip := TrimSpace ip in
  if String.eqb ip "" then v
  else {| v_session := v_session v; v_module := v_module v; v_requestID := v_requestID v; v_clientIP := ip |}.
Definition requestContextIPFromContext (v : values) : string :=
  let ip := TrimSpace (v_clientIP v) in
  trim_brackets (match SplitHostPort ip with Some host => host | None => ip end).
Definition isConnectionRefused (message : string) : bool :=
  GoStrings.Contains message "connection refused" || GoStrings.Contains message "no such host" || GoStrings.Contains message "dial tcp".

Section router.
Context `{UuidText} `{Net} `{RouterUrl} (cidrs : string) (cache : gmap string (list ipnet)).

(** ** The module's endpoint *)

Definition getModuleEndpoint (p : ModuleProxyConfig) (inboundHost : string) : result router_error target :=
  match mp_Registry p with
  | None => Err (ErrModuleUnavailable None)
  | Some registry =>
      match GetModule (mp_ModuleID p) registry with
      | Err e => Err (ErrModuleUnavailable (Some e))
      | Ok m =>
          if negb (String.eqb (m_Status m) StatusHealthy) && negb (String.eqb (m_Status m) StatusStarting) then Err (ErrModuleUnavailable None)
          else match List.find (fun ep => String.eqb (ep_Type ep) EndpointHTTP) (m_Endpoints m) with
          | None => Err ErrNoHealthyEndpoint
          | Some ep =>
              match parse_target (ep_URL ep) with
              | None => Err ErrUrl
              | Some t =>
                  if negb (String.eqb (tg_Scheme t) "http") && negb (String.eqb (tg_Scheme t) "https") then Err ErrUrl
                  else if String.eqb (tg_Host t) "" then Err ErrUrl
                  else if isSameAuthority inboundHost (tg_Host t) then Err ErrUrl
                  else Ok t
              end
          end
      end
  end.

(** ** Policy *)

Definition requiredPolicyDenyResponse (reason : string) : CheckResponse :=
  let reason := if String.eqb (TrimSpace reason) "" then "policy_denied" else TrimSpace reason in
  {| Allowed := false; ModelUsed := "default"; DenyReason := reason; EvalPath := ["default:deny"; "policy:" +:+ reason] |}.
Definition policy_subject (v : values) : string :=
  match v_session v with
  | Some s => "user:" +:+ uuid_string (IdentityID s)
  | None => if String.eqb (TrimSpace (v_module v)) "" then "anonymous" else "module:" +:+ TrimSpace (v_module v)
  end.
Definition buildPolicyCheckRequest (p : ModuleProxyConfig) (r : Request) (v : values) : CheckRequest :=
  let path := TrimPrefix (URL_Path r) "/" in
  let resourcePath := if String.eqb path "" then "_root" else path in
  let extra : gmap string string := <["module_id" := mp_ModuleID p]> (<["path" := URL_Path r]> (<["http_method" := Method r]> ∅)) in
  let extra := if String.eqb (v_requestID v) "" then extra else <["request_id" := v_requestID v]> extra in
  let agent := TrimSpace (Header_Get (GoHttp.Header r) "User-Agent") in
  let extra := if String.eqb agent "" then extra else <["user_agent" := agent]> extra in
  let ip := requestContextIPFromContext v in
  let ip := if String.eqb ip "" then (ClientIP cache (Some r) true (Some cidrs)).1 else ip in
  {| cr_Subject := policy_subject v; cr_Resource := mp_ModuleID p +:+ ":" +:+ resourcePath; cr_ResourceType := "module:" +:+ mp_ModuleID p;
     cr_Action := policyActionFromMethod (Method r); cr_Model := normalizePolicyModel (mp_PolicyModel p);
     cr_Context := Some {| rc_Ip := ip; rc_TenantId := ""; rc_Extra := extra |} |}.
Definition authorize (p : ModuleProxyConfig) (r : Request) (v : values) : result router_error (option CheckResponse) :=
  match mp_PolicyChecker p with
  | None => if mp_RequirePolicy p then Err (ErrPolicyDenied (requiredPolicyDenyResponse "policy_unavailable")) else Ok None
  | Some check =>
      match check (buildPolicyCheckRequest p r v) with
      | Err m => Err (ErrPolicy m)
      | Ok None => Err (ErrPolicyDenied (requiredPolicyDenyResponse "policy_no_decision"))
      | Ok (Some resp) => if Allowed resp then Ok (Some resp) else Err (ErrPolicyDenied resp)
      end
  end.

(** ** The forwarded request *)

Definition stripIdentityHeaders (p : ModuleProxyConfig) (h : header) : header :=
  fold_left (fun h name => let name := TrimSpace name in if String.eqb name "" then h else Header_Del h name)
    (["X-User-ID"; "X-User-Email"; "X-User-Roles"; "X-User-Session-ID"; "X-User-AAL"; mp_IdentitySignatureHeader p] ++ mp_SignedIdentityHeaders p)%list h.
Definition router_injectSessionHeaders (p : ModuleProxyConfig) (r : Request) (v : values) (now : time) : Request :=
  match v_session v with None => r | Some s => SessionContext.InjectHeaders r (Some s) (mp_SessionSecret p) now end.
Definition injectIdentityHeaders (p : ModuleProxyConfig) (h : header) (v : values) (now : time) : header :=
  match v_session v with
  | None => h
  | Some s =>
      let h := Header_Set (Header_Set (Header_Set h "X-User-ID" (uuid_string (IdentityID s))) "X-User-Session-ID" (uuid_string (ID s))) "X-User-AAL" (SessionAAL s) in
      if String.eqb (mp_IdentitySigningSecret p) "" then h
      else match SignIdentityHeaders (mp_IdentitySigningSecret p) h (mp_SignedIdentityHeaders p) now with
      | Ok signed => if String.eqb signed "" then Header_Del h (mp_IdentitySignatureHeader p) else Header_Set h (mp_IdentitySignatureHeader p) signed
      | Err _ => Header_Del h (mp_IdentitySignatureHeader p)
      end
  end.
Definition router_addForwardedHeaders (trust : bool) (h : header) (original : Request) : header :=
  let clientIP := RemoteIP (RemoteAddr original) in
  let clientIP := if String.eqb clientIP "" then (ClientIP cache (Some original) trust (Some cidrs)).1 else clientIP in
  let prior := PriorForwardedFor (Some original) trust cidrs in
  let h :=
    if negb (String.eqb prior "") then
      if negb (String.eqb clientIP "") then Header_Set h "X-Forwarded-For" (prior +:+ ", " +:+ clientIP) else Header_Set h "X-Forwarded-For" prior
    else if String.eqb clientIP "" then Header_Del h "X-Forwarded-For"
    else Header_Set h "X-Forwarded-For" clientIP in
  Header_Set (Header_Set h "X-Forwarded-Proto" (ForwardedProto (Some original) trust cidrs)) "X-Forwarded-Host" (ForwardedHost (Some original) trust cidrs).

(** The clock is read for the session headers and for the identity headers. *)
Definition router_director (p : ModuleProxyConfig) (t : target) (original : Request) (v : values) (now1 now2 : time) : outgoing :=
  let req := set_Path original (singleJoiningSlash (tg_Path t) (URL_Path original)) in
  let req := set_Host req (if mp_PreserveHost p && negb (String.eqb (Host original) "") then Host original else tg_Host t) in
  let req := if mp_StripInboundIdentityHeaders p then set_Header req (stripIdentityHeaders p (GoHttp.Header req)) else req in
  let req := if String.eqb (mp_InternalToken p) "" then req else set_Header req (Header_Set (GoHttp.Header req) "X-Aegion-Internal-Token" (mp_InternalToken p)) in
  let req := router_injectSessionHeaders p req v now1 in
  let h := injectIdentityHeaders p (GoHttp.Header req) v now2 in
  let h := if String.eqb (v_requestID v) "" then h else Header_Set h "X-Request-ID" (v_requestID v) in
  let h := router_addForwardedHeaders (mp_TrustForwardedHeaders p) h original in
  {| out_Scheme := tg_Scheme t; out_URLHost := tg_Host t; out_req := set_Header req h |}.

(** ** Answers *)

Record router_answer : Type := { ra_Status : Z; ra_Message : string; ra_RequestID : string }.
Definition router_handleError (e : router_error) (requestID : string) : router_answer :=
  let '(status, message) :=
    match e with
    | ErrModuleUnavailable (Some ErrModuleNotFound) => (404%Z, "module not found")
    | ErrNoHealthyEndpoint => (502%Z, "no HTTP endpoint available")
    | ErrUrl => (502%Z, "invalid module endpoint")
    | _ => (503%Z, "Module temporarily unavailable")
    end in
  {| ra_Status := status; ra_Message := message; ra_RequestID := requestID |}.
Definition policyDenyError_Error (resp : CheckResponse) : string :=
  if String.eqb (TrimSpace (DenyReason resp)) "" then "policy_denied" else TrimSpace (DenyReason resp).
Definition handlePolicyError (e : router_error) (requestID : string) : router_answer :=
  match e with
  | ErrPolicyDenied resp => {| ra_Status := 403; ra_Message := policyDenyError_Error resp; ra_RequestID := requestID |}
  | _ => {| ra_Status := 502; ra_Message := "Policy evaluation failed"; ra_RequestID := requestID |}
  end.
Definition handleProxyError (deadline : bool) (message requestID : string) : router_answer :=
  let '(status, text) := if deadline then (504%Z, "Module request timeout") else (502%Z, "Error communicating with module") in
  let '(status, text) := if isConnectionRefused message then (503%Z, "Module is not responding") else (status, text) in
  {| ra_Status := status; ra_Message := text; ra_RequestID := requestID |}.

(** What is sent to the module, or the answer that replaces it. *)
Definition router_ServeHTTP (p : ModuleProxyConfig) (r : Request) (v : values) (now1 now2 : time) : result router_answer outgoing :=
  match getModuleEndpoint p (Host r) with
  | Err e => Err (router_handleError e (v_requestID v))
  | Ok t =>
      match authorize p r v with
      | Err e => Err (handlePolicyError e (v_requestID v))
      | Ok _ => Ok (reverse_proxy_request r (router_director p t r v now1 now2))
      end
  end.

(** ** The public module endpoint (cmd/aegion/routes.go) *)

Record proxy_settings : Type := {
  ps_PreserveHost : bool;
  ps_TrustForwardedHeaders : bool;
  ps_IdentitySignatureHeader : string;
  ps_SignedIdentityHeaders : list string;
  ps_PolicyEnabled : bool;
  ps_DefaultModel : string;
}.
Record Server : Type := {
  sv_registry : option Registry;
  sv_sessionManager : option SessionManager;
  sv_policyChecker : option PolicyChecker;
  sv_identitySecret : string;
  sv_internalSecrets : list string;
}.
Definition proxyIdentitySigningSecret (s : Server) : string :=
  if negb (String.eqb (TrimSpace (sv_identitySecret s)) "") then TrimSpace (sv_identitySecret s)
  else match sv_internalSecrets s with secret :: _ => secret | [] => "" end.
Definition withModuleProxyRequestContextWithTrust (v : values) (r : Request) (trust : bool) : values :=
  let ip := (ClientIP cache (Some r) trust (Some cidrs)).1 in
  if String.eqb ip "" then v else WithRequestContextIP v ip.
Definition with_session (v : values) (s : Session) : values :=
  {| v_session := Some s; v_module := v_module v; v_requestID := v_requestID v; v_clientIP := v_clientIP v |}.
Definition module_config (s : Server) (st : proxy_settings) (moduleID internalToken : string) : ModuleProxyConfig := NewModuleProxy
  {| mp_Registry := sv_registry s; mp_ModuleID := moduleID; mp_InternalToken := internalToken; mp_SessionSecret := "";
     mp_PreserveHost := ps_PreserveHost st; mp_TrustForwardedHeaders := ps_TrustForwardedHeaders st; mp_StripInboundIdentityHeaders := true;
     mp_IdentitySigningSecret := proxyIdentitySigningSecret s; mp_IdentitySignatureHeader := ps_IdentitySignatureHeader st;
     mp_SignedIdentityHeaders := ps_SignedIdentityHeaders st;
     mp_PolicyChecker := if ps_PolicyEnabled st then sv_policyChecker s else None; mp_RequirePolicy := ps_PolicyEnabled st;
     mp_PolicyModel := ps_DefaultModel st |}.
(** [times]: the clock of the cookie check, of the two reads of the session and
    of the two signatures. *)
Record times : Type := { tm_cookie : time; tm_get1 : time; tm_get2 : time; tm_sign1 : time; tm_sign2 : time }.
Definition proxyModuleRequest (s : Server) (st : proxy_settings) (moduleID internalToken : string) (r : Request) (v : values) (tm : times)
    (w : world session_db) : result router_answer outgoing * world session_db :=
  let v := withModuleProxyRequestContextWithTrust v r (ps_TrustForwardedHeaders st) in
  let '(v, w) :=
    match sv_sessionManager s with
    | None => (v, w)
    | Some m =>
        match Manager.GetFromRequest m r (tm_cookie tm) (tm_get1 tm) (tm_get2 tm) w with
        | (Ok sess, w') => (with_session v sess, w')
        | (Err _, w') => (v, w')
        end
    end in
  (router_ServeHTTP (module_config s st moduleID internalToken) r v (tm_sign1 tm) (tm_sign2 tm), w).
(** [owner]: the module whose routes contain the request's. *)
Definition handlePublicModuleProxy (s : Server) (st : proxy_settings) (owner : option string) (internalToken : string) (r : Request) (v : values)
    (tm : times) (w : world session_db) : result router_answer outgoing * world session_db :=
  match owner with
  | None => (Err {| ra_Status := 404; ra_Message := "404 page not found"; ra_RequestID := "" |}, w)
  | Some moduleID =>
      match sv_registry s with
      | None => (Err {| ra_Status := 503; ra_Message := "module unavailable"; ra_RequestID := "" |}, w)
      | Some registry =>
          match GetModule moduleID registry with
          | Err _ => (Err {| ra_Status := 503; ra_Message := "module unavailable"; ra_RequestID := "" |}, w)
          | Ok _ => proxyModuleRequest s st moduleID internalToken r v tm w
          end
      end
  end.
End router.

(** ** Middleware (middleware.go) *)

Record CORSConfig : Type := {
  AllowedOrigins : list string;
  AllowedMethods : list string;
  AllowedHeaders : list string;
  ExposedHeaders : list string;
  AllowCredentials : bool;
  MaxAge : Z;
}.
Definition DefaultCORS : CORSConfig :=
  {| AllowedOrigins := ["*"]; AllowedMethods := ["GET"; "POST"; "PUT"; "PATCH"; "DELETE"; "OPTIONS"];
     AllowedHeaders := ["Authorization"; "Content-Type"; "X-Session-Token"; "X-CSRF-Token"]; ExposedHeaders := ["X-Request-ID"];
     AllowCredentials := true; MaxAge := 300 |}.
Definition equal_fold (a b : string) : bool := String.eqb (ToLower a) (ToLower b).
Definition appendVaryHeader (h : header) (value : string) : header :=
  let value := TrimSpace value in
  if String.eqb value "" then h
  else
    let existing := default [] (h !! "Vary") in
    if existsb (fun e => existsb (fun part => equal_fold (TrimSpace part) value) (Split e ",")) existing then h
    else <["Vary" := (existing ++ [value])%list]> h.
Definition allow_origin (cfg : CORSConfig) (origin : string) : string :=
  if existsb (String.eqb origin) (AllowedOrigins cfg) then origin
  else if existsb (String.eqb "*") (AllowedOrigins cfg) && negb (AllowCredentials cfg) then "*"
  else "".
(** The headers of the answer so far; [Some 204] when the request is answered
    here. *)
Definition CORS (cfg : CORSConfig) (r : Request) (h : header) : header * option Z :=
  let origin := TrimSpace (Header_Get (GoHttp.Header r) "Origin") in
  if String.eqb origin "" then (h, None)
  else
    let allowOrigin := allow_origin cfg origin in
    if String.eqb allowOrigin "" then (h, None)
    else
      let h := if String.eqb allowOrigin "*" then h else appendVaryHeader h "Origin" in
      let h := Header_Set h "Access-Control-Allow-Origin" allowOrigin in
      let h := if AllowCredentials cfg && negb (String.eqb allowOrigin "*") then Header_Set h "Access-Control-Allow-Credentials" "true" else h in
      let exposed := Join (ExposedHeaders cfg) ", " in
      let h := if String.eqb exposed "" then h else Header_Set h "Access-Control-Expose-Headers" exposed in
      if String.eqb (Method r) "OPTIONS" then
        let h := Header_Set h "Access-Control-Allow-Methods" (Join (AllowedMethods cfg) ", ") in
        let h := Header_Set h "Access-Control-Allow-Headers" (Join (AllowedHeaders cfg) ", ") in
        let h := if (0 <? MaxAge cfg)%Z then Header_Set h "Access-Control-Max-Age" (TrimSpace (FormatInt (MaxAge cfg))) else h in
        (h, Some 204%Z)
      else (h, None).
Definition buildCSP : string :=
  Join ["default-src 'self'"; "script-src 'self'"; "style-src 'self' 'unsafe-inline'"; "img-src 'self' data: https:"; "font-src 'self'";
        "connect-src 'self'"; "frame-ancestors 'none'"; "base-uri 'self'"; "form-action 'self'"] "; ".
Definition SecurityHeaders (devMode : bool) (h : header) : header :=
  let h := Header_Set h "X-Content-Type-Options" "nosniff" in
  let h := Header_Set h "X-Frame-Options" "DENY" in
  let h := Header_Set h "X-XSS-Protection" "1; mode=block" in
  let h := Header_Set h "Referrer-Policy" "strict-origin-when-cross-origin" in
  let h := Header_Set h "Permissions-Policy" "accelerometer=(), camera=(), geolocation=(), gyroscope=(), magnetometer=(), microphone=(), payment=(), usb=()" in
  if devMode then h
  else Header_Set (Header_Set h "Strict-Transport-Security" "max-age=31536000; includeSubDomains; preload") "Content-Security-Policy" buildCSP.

Lemma no_credentials h : h !! "Access-Control-Allow-Credentials" = None -> Header_Get h "Access-Control-Allow-Credentials" = "".
Proof. intros Hh. unfold Header_Get. change (CanonicalHeaderKey "Access-Control-Allow-Credentials") with "Access-Control-Allow-Credentials". by rewrite Hh. Qed.
(** A browser is told that credentials may be sent only together with an origin
    that the configuration lists, the wildcard excepted. *)
Theorem credentials_need_listed_origin cfg r h h' a :
  h !! "Access-Control-Allow-Credentials" = None -> CORS cfg r h = (h', a) -> Header_Get h' "Access-Control-Allow-Credentials" <> "" ->
  exists origin, origin = TrimSpace (Header_Get (GoHttp.Header r) "Origin") /\ In origin (AllowedOrigins cfg) /\ origin <> "*" /\
    Header_Get h' "Access-Control-Allow-Origin" = origin.
Proof.
  intros Hh Hc Hg. unfold CORS in Hc. set (origin := TrimSpace _) in *. destruct (String.eqb_spec origin "") as [_|Ho]; [injection Hc as <- _; by rewrite no_credentials in Hg|].
  destruct (String.eqb_spec (allow_origin cfg origin) "") as [_|Hao]; [injection Hc as <- _; by rewrite no_credentials in Hg|].
  set (h1 := if String.eqb (allow_origin cfg origin) "*" then h else appendVaryHeader h "Origin") in Hc.
  assert (Hh1 : h1 !! "Access-Control-Allow-Credentials" = None).
  { unfold h1, appendVaryHeader. repeat case_match; try done; by rewrite lookup_insert_ne. }
  set (h2 := if AllowCredentials cfg && _ then _ else _) in Hc.
  assert (Hpre : Header_Get h' "Access-Control-Allow-Credentials" = Header_Get h2 "Access-Control-Allow-Credentials" /\
    Header_Get h' "Access-Control-Allow-Origin" = Header_Get h2 "Access-Control-Allow-Origin").
  { destruct (String.eqb (Method r) "OPTIONS"); injection Hc as <- _; repeat case_match; by rewrite ?Header_Get_Set_ne by discriminate. }
  destruct Hpre as [Hp1 Hp2]. rewrite Hp1 in Hg. rewrite Hp2. unfold h2 in *. destruct (AllowCredentials cfg) eqn:Hcred; cbn [andb] in *.
  - destruct (String.eqb_spec (allow_origin cfg origin) "*") as [Hs|Hs]; cbn [negb] in *.
    + exfalso. rewrite Header_Get_Set_ne in Hg by discriminate. by rewrite no_credentials in Hg.
    + exists origin. rewrite Header_Get_Set_ne, Header_Get_Set by discriminate. unfold allow_origin in *. rewrite Hcred, andb_false_r in *.
      destruct (existsb (String.eqb origin) (AllowedOrigins cfg)) eqn:Hin; [|done]. apply existsb_exists in Hin as (x & Hx & ->%String.eqb_eq). done.
  - exfalso. rewrite Header_Get_Set_ne in Hg by discriminate. by rewrite no_credentials in Hg.
Qed.

(** ** What a module is told *)

Definition user_headers : list string := ["X-User-ID"; "X-User-Session-ID"; "X-User-AAL"].
Abbreviation user_key k := (k ∈ map CanonicalHeaderKey user_headers).
Lemma user_key_other c k : user_key k -> bool_decide (user_key (CanonicalHeaderKey c)) = false -> CanonicalHeaderKey c <> k.
Proof. intros Hk Hc E. apply bool_decide_eq_false in Hc. apply Hc. by rewrite E. Qed.

(** Setting or deleting another header leaves [k] alone. *)
Definition kept (k c : string) : Prop := CanonicalHeaderKey c <> k.
Lemma Set_kept h c v k : kept k c -> Header_Set h c v !! k = h !! k.
Proof. intros Hk. by rewrite Header_Set_lookup, decide_False. Qed.
Lemma Del_kept h c k : kept k c -> Header_Del h c !! k = h !! k.
Proof. intros Hk. by rewrite Header_Del_lookup, decide_False. Qed.

(** The headers the proxy sets on its own account. *)
Definition own_headers : list string :=
  ["X-Aegion-Internal-Token"; "X-Request-ID"; "X-Forwarded-For"; "X-Forwarded-Proto"; "X-Forwarded-Host"; HeaderPrefix +:+ "Session-ID";
   HeaderPrefix +:+ "Identity-ID"; HeaderPrefix +:+ "AAL"; HeaderPrefix +:+ "Signature"].
Definition foreign (k : string) : Prop := Forall (kept k) own_headers.
Lemma user_foreign k : user_key k -> foreign k.
Proof.
  intros Hk. assert (Hall : Forall (fun c => bool_decide (user_key (CanonicalHeaderKey c)) = false) own_headers)
    by (apply (bool_decide_unpack _); vm_compute; exact I).
  eapply Forall_impl; [exact Hall|]. intros c Hc. by apply user_key_other.
Qed.
Lemma signature_foreign : foreign (CanonicalHeaderKey "X-Aegion-Signature").
Proof. apply (bool_decide_unpack _). vm_compute. exact I. Qed.

Lemma strip_user p h k : user_key k -> stripIdentityHeaders p h !! k = None.
Proof.
  intros Hk. unfold stripIdentityHeaders. rewrite fold_left_app.
  set (f := fun h name => let name := TrimSpace name in if String.eqb name "" then h else Header_Del h name).
  assert (Hkeep : forall l h, h !! k = None -> fold_left f l h !! k = None).
  { induction l as [|name l IH]; intros h0 Hh; [done|]. apply IH. unfold f. cbv zeta. destruct (String.eqb _ _); [done|].
    rewrite Header_Del_lookup. by case_decide. }
  apply Hkeep. cbn [fold_left].
  assert (Hdel : forall name h0, In name user_headers -> CanonicalHeaderKey name = k -> f h0 name !! k = None).
  { intros name h0 Hin E. unfold f. assert (TrimSpace name = name /\ String.eqb name "" = false) as [-> ->].
    { repeat (destruct Hin as [<-|Hin]; [by split|]); done. }
    by rewrite Header_Del_lookup, decide_True. }
  assert (Hone : forall name h0, h0 !! k = None -> f h0 name !! k = None) by (intros name h0 Hh; exact (Hkeep [name] h0 Hh)).
  apply list_elem_of_In in Hk. cbn [map user_headers] in Hk. apply Hone. repeat (destruct Hk as [E|Hk]); [..|done].
  - do 4 apply Hone. apply Hdel; [by left|done].
  - apply Hone. apply Hdel; [by right; left|done].
  - apply Hdel; [by right; right; left|done].
Qed.

(** What the reverse proxy leaves of a header that is not hop by hop. *)
Lemma hop_lookup inbound o k : k ∉ map CanonicalHeaderKey hopHeaders -> k <> "X-Forwarded-For" ->
  GoHttp.Header (out_req (reverse_proxy_request inbound o)) !! k =
  if decide (k ∈ map CanonicalHeaderKey (connection_options (GoHttp.Header (out_req o)))) then None else GoHttp.Header (out_req o) !! k.
Proof.
  intros Hk Hf. unfold reverse_proxy_request; cbn [out_req set_Header GoHttp.Header].
  assert (Happ : forall h a, append_forwarded_for h a !! k = h !! k).
  { intros h a. unfold append_forwarded_for. repeat case_match; try done; apply Set_kept; intros E; by apply Hf; rewrite <- E. }
  rewrite Happ. unfold removeHopByHopHeaders. by rewrite fold_Del_lookup, decide_False, fold_Del_lookup.
Qed.
Lemma user_not_hop k : user_key k -> (k ∉ map CanonicalHeaderKey hopHeaders) /\ k <> "X-Forwarded-For".
Proof.
  intros Hk. apply list_elem_of_In in Hk. cbn [map user_headers] in Hk.
  repeat (destruct Hk as [<-|Hk]; [split; [apply (bool_decide_unpack _); vm_compute; exact I|discriminate]|]). done.
Qed.

Section facts.
Context `{UuidText} `{Net} `{RouterUrl} (cidrs : string) (cache : gmap string (list ipnet)).

Lemma router_forwarded_lookup trust h r k : foreign k -> router_addForwardedHeaders cidrs cache trust h r !! k = h !! k.
Proof.
  intros Hk. unfold foreign, own_headers in Hk. rewrite !Forall_cons in Hk. destruct Hk as (_ & _ & Hf & Hp & Hh & _).
  unfold router_addForwardedHeaders. rewrite !Set_kept by done. repeat case_match; rewrite ?Set_kept, ?Del_kept by done; done.
Qed.
Lemma router_session_lookup p r v now k : foreign k -> GoHttp.Header (router_injectSessionHeaders p r v now) !! k = GoHttp.Header r !! k.
Proof.
  intros Hk. unfold foreign, own_headers in Hk. rewrite !Forall_cons in Hk. destruct Hk as (_ & _ & _ & _ & _ & K1 & K2 & K3 & K4 & _).
  unfold router_injectSessionHeaders, SessionContext.InjectHeaders. destruct (v_session v) as [s|]; [|done].
  destruct (SignSessionContextHeaders _ _ _); cbn [set_Header GoHttp.Header]; by rewrite !Set_kept.
Qed.

(** What the session says under an identity header. *)
Definition told (v : values) (h : header) (k : string) : option (list string) :=
  match v_session v with
  | None => h !! k
  | Some s => Header_Set (Header_Set (Header_Set h "X-User-ID" (uuid_string (IdentityID s))) "X-User-Session-ID" (uuid_string (ID s))) "X-User-AAL" (SessionAAL s) !! k
  end.
Lemma inject_identity_lookup p h v now k : kept k (mp_IdentitySignatureHeader p) -> injectIdentityHeaders p h v now !! k = told v h k.
Proof.
  intros Hk. unfold injectIdentityHeaders, told. destruct (v_session v); [|done]. repeat case_match; rewrite ?Set_kept, ?Del_kept by done; done.
Qed.

Lemma router_director_lookup p t r v now1 now2 k :
  foreign k -> kept k (mp_IdentitySignatureHeader p) ->
  GoHttp.Header (out_req (router_director cidrs cache p t r v now1 now2)) !! k =
  match v_session v with
  | None => if mp_StripInboundIdentityHeaders p then stripIdentityHeaders p (GoHttp.Header r) !! k else GoHttp.Header r !! k
  | Some _ => told v (if mp_StripInboundIdentityHeaders p then stripIdentityHeaders p (GoHttp.Header r) else GoHttp.Header r) k
  end.
Proof.
  intros Hk Hs. pose proof Hk as Hf. unfold foreign, own_headers in Hf. rewrite !Forall_cons in Hf. destruct Hf as (Ht & Hi & _).
  unfold router_director. cbv zeta. cbn [out_req set_Header GoHttp.Header]. rewrite router_forwarded_lookup by done.
  assert (Hid : forall h, (if String.eqb (v_requestID v) "" then h else Header_Set h "X-Request-ID" (v_requestID v)) !! k = h !! k)
    by (intros h; case_match; [done|by rewrite Set_kept]).
  rewrite Hid, inject_identity_lookup by done. unfold told.
  set (base := if mp_StripInboundIdentityHeaders p then stripIdentityHeaders p (GoHttp.Header r) else GoHttp.Header r).
  set (q := router_injectSessionHeaders _ _ _ _).
  assert (Hq : GoHttp.Header q !! k = base !! k).
  { unfold q. rewrite router_session_lookup by done. unfold base.
    destruct (String.eqb (mp_InternalToken p) ""), (mp_StripInboundIdentityHeaders p); cbn [set_Header GoHttp.Header]; rewrite ?Set_kept by done; done. }
  destruct (v_session v) as [s|]; [|rewrite Hq; unfold base; by destruct (mp_StripInboundIdentityHeaders p)].
  rewrite !Header_Set_lookup. by repeat case_decide.
Qed.

(** With stripping on, an identity header of the forwarded request is the
    session's or absent. *)
Lemma router_user_lookup p t r v now1 now2 k x :
  mp_StripInboundIdentityHeaders p = true -> user_key k -> kept k (mp_IdentitySignatureHeader p) ->
  GoHttp.Header (out_req (reverse_proxy_request r (router_director cidrs cache p t r v now1 now2))) !! k = Some x ->
  exists s, v_session v = Some s /\ told v ∅ k = Some x.
Proof.
  intros Hstrip Hk Hs. destruct (user_not_hop k Hk). rewrite hop_lookup by done. case_decide; [done|]. rewrite router_director_lookup by (done || by apply user_foreign). rewrite Hstrip.
  destruct (v_session v) as [s|] eqn:Hv; [|by rewrite strip_user]. intros Hx. exists s. split; [done|]. unfold told in *. rewrite Hv in *.
  rewrite !Header_Set_lookup, strip_user in Hx by done. by rewrite !Header_Set_lookup, lookup_empty.
Qed.

Lemma router_ServeHTTP_ok p r v now1 now2 o : router_ServeHTTP cidrs cache p r v now1 now2 = Ok o ->
  exists t d, getModuleEndpoint p (Host r) = Ok t /\ authorize cidrs cache p r v = Ok d /\ o = reverse_proxy_request r (router_director cidrs cache p t r v now1 now2).
Proof.
  unfold router_ServeHTTP. destruct (getModuleEndpoint p (Host r)) as [t|]; [|done]. destruct (authorize _ _ p r v) as [d|]; [|done].
  intros [= <-]. by exists t, d.
Qed.
Lemma header_present h name : String.eqb (TrimSpace (Header_Get h name)) "" = false -> exists x l, h !! CanonicalHeaderKey name = Some (x :: l) /\ Header_Get h name = x.
Proof. unfold Header_Get. destruct (h !! _) as [[|x l]|]; [done| |done]. intros _. by exists x, l. Qed.

(** The module runs, is not the core itself and, where policy checks are
    enabled, the policy allowed the request. *)
Definition admitted (s : Server) (st : proxy_settings) (moduleID : string) (r : Request) (o : outgoing) (subject : string) : Prop :=
  (exists registry m, sv_registry s = Some registry /\ modules registry !! moduleID = Some m /\ (m_Status m = StatusHealthy \/ m_Status m = StatusStarting)) /\
  isSameAuthority (Host r) (out_URLHost o) = false /\
  (ps_PolicyEnabled st = true -> exists check req resp, sv_policyChecker s = Some check /\ check req = Ok (Some resp) /\ Allowed resp = true /\
     cr_Subject req = subject /\ cr_ResourceType req = "module:" +:+ moduleID /\ cr_Action req = policyActionFromMethod (Method r)).

Lemma module_admitted s st moduleID tok r v now1 now2 o :
  router_ServeHTTP cidrs cache (module_config s st moduleID tok) r v now1 now2 = Ok o -> admitted s st moduleID r o (policy_subject v).
Proof.
  intros (t & d & Ht & Ha & ->)%router_ServeHTTP_ok. unfold admitted. split_and!.
  - unfold getModuleEndpoint, module_config, NewModuleProxy in Ht. cbn [mp_Registry mp_ModuleID] in Ht. destruct (sv_registry s) as [registry|]; [|done].
    unfold GetModule in Ht. destruct (modules registry !! moduleID) as [m|] eqn:Hm; [|done]. exists registry, m. split_and!; [done..|].
    destruct (String.eqb_spec (m_Status m) StatusHealthy); [by left|]. destruct (String.eqb_spec (m_Status m) StatusStarting); [by right|done].
  - cbn [out_URLHost reverse_proxy_request router_director]. unfold getModuleEndpoint in Ht. repeat case_match; simplify_eq. done.
  - intros Hp. unfold authorize, module_config, NewModuleProxy in Ha. cbn [mp_PolicyChecker mp_RequirePolicy] in Ha. rewrite Hp in Ha.
    destruct (sv_policyChecker s) as [check|]; [|done]. destruct (check _) as [[resp|]|] eqn:Hc; [|done..]. destruct (Allowed resp) eqn:Hall; [|done].
    eexists check, _, resp. split_and!; [done|exact Hc|done..].
Qed.

Lemma told_user v s : v_session v = Some s ->
  told v ∅ (CanonicalHeaderKey "X-User-ID") = Some [uuid_string (IdentityID s)] /\ told v ∅ (CanonicalHeaderKey "X-User-Session-ID") = Some [uuid_string (ID s)].
Proof. intros Hv. unfold told. rewrite Hv, !Header_Set_lookup. by split; repeat (case_decide; [try done|]). Qed.
(** The module takes an identity from a forwarded request only if there is a
    session, and then it is the session's. *)
Lemma resolved_is_told p t r v now1 now2 secret maxAge now identityID sessionID :
  mp_StripInboundIdentityHeaders p = true -> bool_decide (user_key (CanonicalHeaderKey (mp_IdentitySignatureHeader p))) = false ->
  newTrustedIdentityResolver secret maxAge
    (GoHttp.Header (out_req (reverse_proxy_request r (router_director cidrs cache p t r v now1 now2)))) now = Some (identityID, sessionID) ->
  exists s, v_session v = Some s /\ identityID = TrimSpace (uuid_string (IdentityID s)) /\ sessionID = TrimSpace (uuid_string (ID s)).
Proof.
  intros Hstrip Hsig. set (h := GoHttp.Header _). unfold newTrustedIdentityResolver. destruct (negb _); [done|]. destruct (_ || _) eqn:Hb; [done|].
  intros [= <- <-]. apply orb_false_iff in Hb as [Hb _]. apply orb_false_iff in Hb as [Hi Hs].
  apply header_present in Hi as (x & l & Hi & ->). apply header_present in Hs as (y & l' & Hs & ->).
  assert (Kid : user_key (CanonicalHeaderKey "X-User-ID")) by (by left). assert (Ksid : user_key (CanonicalHeaderKey "X-User-Session-ID")) by (by right; left).
  apply router_user_lookup in Hi as (s & Hv & Hi); [|done|done|by apply user_key_other].
  apply router_user_lookup in Hs as (s' & Hv' & Hs); [|done|done|by apply user_key_other].
  destruct (told_user v s Hv) as [E1 E2]. rewrite E1 in Hi. rewrite E2 in Hs. injection Hi as <- _. injection Hs as <- _. by exists s.
Qed.

(** C2: Whatever headers the client sends, a request that the public endpoint sends
    to a module, and from whose headers the module takes an identity and a
    session, presented the token of an active, unexpired session row with that
    identity and identifier; the module was running, the endpoint was not the
    core itself and, where the configuration enables policy checks, the policy
    had allowed the request to that identity. (With policy checks disabled no
    policy is asked.) It is assumed that nothing has put a session into the
    request's context before the endpoint, and that the header configured for
    the signature is not one of the headers that describe the user. *)
Theorem module_identity_comes_from_live_session s st owner tok r v tm w o w' secret maxAge now identityID sessionID :
  handlePublicModuleProxy cidrs cache s st owner tok r v tm w = (Ok o, w') -> v_session v = None ->
  bool_decide (user_key (CanonicalHeaderKey (mp_IdentitySignatureHeader (module_config s st "" "")))) = false ->
  newTrustedIdentityResolver secret maxAge (GoHttp.Header (out_req o)) now = Some (identityID, sessionID) ->
  exists moduleID m token sess row,
    owner = Some moduleID /\ sv_sessionManager s = Some m /\ Manager.request_token m r (tm_cookie tm) = Some token /\
    t_sessions (w_db w) !! ID sess = Some row /\ row_active row = true /\ row_token_hash row = secrettoken.Hash token /\
    (tm_get1 tm <= row_expires row)%Z /\
    identityID = TrimSpace (uuid_string (row_identity row)) /\ sessionID = TrimSpace (uuid_string (ID sess)) /\
    admitted s st moduleID r o ("user:" +:+ uuid_string (row_identity row)).
Proof.
  intros Hrun Hv Hsig Hid. unfold handlePublicModuleProxy in Hrun. destruct owner as [moduleID|]; [|done]. destruct (sv_registry s) as [registry|] eqn:Hreg; [|done].
  destruct (GetModule moduleID registry) as [m0|]; [|done]. unfold proxyModuleRequest in Hrun.
  set (v1 := withModuleProxyRequestContextWithTrust cidrs cache v r (ps_TrustForwardedHeaders st)) in *.
  assert (Hv1 : v_session v1 = None) by (unfold v1, withModuleProxyRequestContextWithTrust, WithRequestContextIP; repeat case_match; done).
  assert (Hnone : forall w1, (router_ServeHTTP cidrs cache (module_config s st moduleID tok) r v1 (tm_sign1 tm) (tm_sign2 tm), w1) = (Ok o, w') -> False).
  { intros w1 [= Hr _]. apply router_ServeHTTP_ok in Hr as (t & d & _ & _ & ->). apply resolved_is_told in Hid as (sess & Hs & _); [congruence|done..]. }
  destruct (sv_sessionManager s) as [m|]; [|by apply Hnone in Hrun].
  destruct (Manager.GetFromRequest m r _ _ _ w) as [[sess|e] w1] eqn:Hget; [|by apply Hnone in Hrun]. injection Hrun as Hr <-.
  unfold Manager.GetFromRequest in Hget. destruct (Manager.request_token m r (tm_cookie tm)) as [token|] eqn:Htok; [|done].
  apply Get_live in Hget as (row & Hrow & Hact & Hhash & Hexp & _ & Hsess & _).
  pose proof (module_admitted _ _ _ _ _ _ _ _ _ Hr) as Hadm. apply router_ServeHTTP_ok in Hr as (t & d & _ & _ & ->).
  apply resolved_is_told in Hid as (sess' & [= <-] & -> & ->); [|done..].
  exists moduleID, m, token, sess, row. assert (Hi : IdentityID sess = row_identity row) by (by rewrite Hsess).
  rewrite <- Hi. split_and!; done.
Qed.

(** ** What a module accepts *)

Lemma header_lines_ext h h' names : (forall name, In name names -> Header_Get h name = Header_Get h' name) -> header_lines h names = header_lines h' names.
Proof.
  induction names as [|name names IH]; intros Hh; [done|]. cbn [header_lines]. rewrite Hh by (by left). rewrite IH; [done|]. intros n Hn. apply Hh. by right.
Qed.
Lemma Header_Get_lookup h h' name : h !! CanonicalHeaderKey name = h' !! CanonicalHeaderKey name -> Header_Get h name = Header_Get h' name.
Proof. unfold Header_Get. by intros ->. Qed.

Lemma strip_absent p h k : h !! k = None -> stripIdentityHeaders p h !! k = None.
Proof.
  intros Hh. unfold stripIdentityHeaders. generalize (["X-User-ID"; "X-User-Email"; "X-User-Roles"; "X-User-Session-ID"; "X-User-AAL"; mp_IdentitySignatureHeader p] ++
    mp_SignedIdentityHeaders p)%list. intros l. revert h Hh. induction l as [|name l IH]; intros h Hh; [done|]. cbn [fold_left]. apply IH. cbv zeta.
  destruct (String.eqb _ _); [done|]. rewrite Header_Del_lookup. by case_decide.
Qed.
Lemma Join_nonempty l sep x : x ∈ l -> x <> "" -> Join l sep <> "".
Proof.
  induction l as [|y l IH]; intros Hin Hx; [by apply not_elem_of_nil in Hin|]. destruct l as [|z l].
  - apply list_elem_of_singleton in Hin as ->. done.
  - change (Join (y :: z :: l) sep) with (y +:+ sep +:+ Join (z :: l) sep). apply elem_of_cons in Hin as [->|Hin]; intros E.
    + by destruct y.
    + destruct y; [|done]. destruct sep; [|done]. by apply IH.
Qed.

(** The request at the time its identity is signed. *)
Definition signing_base (p : ModuleProxyConfig) (t : target) (r : Request) (v : values) (now1 : time) : Request :=
  let req := set_Path r (singleJoiningSlash (tg_Path t) (URL_Path r)) in
  let req := set_Host req (if mp_PreserveHost p && negb (String.eqb (Host r) "") then Host r else tg_Host t) in
  let req := if mp_StripInboundIdentityHeaders p then set_Header req (stripIdentityHeaders p (GoHttp.Header req)) else req in
  let req := if String.eqb (mp_InternalToken p) "" then req else set_Header req (Header_Set (GoHttp.Header req) "X-Aegion-Internal-Token" (mp_InternalToken p)) in
  router_injectSessionHeaders p req v now1.

(** Nothing after the signature touches the signed headers. *)
Lemma forwarded_signed p t r v now1 now2 name :
  mp_StripInboundIdentityHeaders p = true -> mp_IdentitySignatureHeader p = "X-Aegion-Signature" -> GoHttp.Header r !! "Connection" = None ->
  In name (user_headers ++ ["X-Aegion-Signature"])%list ->
  GoHttp.Header (out_req (reverse_proxy_request r (router_director cidrs cache p t r v now1 now2))) !! CanonicalHeaderKey name =
  injectIdentityHeaders p (GoHttp.Header (signing_base p t r v now1)) v now2 !! CanonicalHeaderKey name.
Proof.
  intros Hstrip Hname Hconn Hin.
  assert (Hc : GoHttp.Header (out_req (router_director cidrs cache p t r v now1 now2)) !! "Connection" = None).
  { assert (Hf : foreign "Connection") by (apply (bool_decide_unpack _); vm_compute; exact I).
    rewrite router_director_lookup by (done || rewrite Hname; discriminate). rewrite Hstrip.
    unfold told. destruct (v_session v); [|by apply strip_absent]. rewrite !Set_kept by discriminate. by apply strip_absent. }
  assert (Hfor : foreign (CanonicalHeaderKey name) /\ (CanonicalHeaderKey name ∉ map CanonicalHeaderKey hopHeaders) /\ CanonicalHeaderKey name <> "X-Forwarded-For").
  { cbn [app user_headers In] in Hin.
    repeat (destruct Hin as [<-|Hin]; [split_and!; [apply (bool_decide_unpack _); vm_compute; exact I..|discriminate]|]). done. }
  destruct Hfor as (Hf & Hhop & Hx). rewrite hop_lookup by done. unfold connection_options. rewrite Hc. cbn [default map concat List.filter].
  rewrite decide_False by (apply not_elem_of_nil). unfold router_director. cbv zeta. cbn [out_req set_Header GoHttp.Header].
  rewrite router_forwarded_lookup by done. destruct (String.eqb (v_requestID v) ""); [done|]. rewrite Set_kept; [done|].
  unfold foreign, own_headers in Hf. rewrite !Forall_cons in Hf. by destruct Hf as (_ & ? & _).
Qed.

Lemma identity_signed p h v s now2 maxAge now :
  v_session v = Some s -> mp_IdentitySigningSecret p <> "" -> mp_IdentitySignatureHeader p = "X-Aegion-Signature" -> mp_SignedIdentityHeaders p = user_headers ->
  TrimSpace (uuid_string (IdentityID s)) <> "" ->
  in_int64 (time_unix now2) -> in_int64 (time_unix now) -> in_int64 maxAge ->
  (time_unix now2 <= time_unix now)%Z -> (time_unix now - time_unix now2 <= max_age_seconds maxAge)%Z ->
  VerifyIdentityHeaders (mp_IdentitySigningSecret p) (injectIdentityHeaders p h v now2) user_headers
    (Header_Get (injectIdentityHeaders p h v now2) "X-Aegion-Signature") maxAge now = true.
Proof.
  intros Hv Hsec Hname Hnames Hi Ht2 Ht Hm Hle Hage. unfold injectIdentityHeaders. rewrite Hv, Hname, Hnames.
  set (hs := Header_Set (Header_Set (Header_Set h _ _) _ _) _ _). rewrite (proj2 (String.eqb_neq _ _) Hsec).
  assert (Hpay : CanonicalHeaderPayload hs user_headers <> "").
  { unfold CanonicalHeaderPayload. eapply (Join_nonempty _ _ ("x-user-id:" +:+ TrimSpace (uuid_string (IdentityID s)))); [|done].
    rewrite sort_Strings_perm. unfold user_headers. cbn [header_lines].
    assert (Hid : Header_Get hs "X-User-ID" = uuid_string (IdentityID s)).
    { unfold hs. rewrite !Header_Get_Set_ne by discriminate. apply Header_Get_Set. }
    rewrite Hid, (proj2 (String.eqb_neq _ _) Hi). by left. }
  destruct (VerifyEnvelope_sign identityEnvelopeKind (mp_IdentitySigningSecret p) (CanonicalHeaderPayload hs user_headers) now2 now maxAge)
    as (env & Hsign & Hver); [done..|].
  unfold SignIdentityHeaders. rewrite (proj2 (String.eqb_neq _ _) Hpay), Hsign.
  destruct (String.eqb_spec env "") as [->|_]; [by vm_compute in Hver|]. rewrite Header_Get_Set. unfold VerifyIdentityHeaders.
  etrans; [|exact Hver]. f_equal. unfold CanonicalHeaderPayload. f_equal. f_equal. apply header_lines_ext. intros name Hin.
  rewrite Header_Get_Set_ne; [done|]. unfold user_headers in Hin. repeat (destruct Hin as [<-|Hin]; [discriminate|]). done.
Qed.

(** C28: A request with a session and no [Connection] header is accepted by the
    module as that identity and session while the signature is fresh: the proxy
    and the modules agree on the headers and how they are signed. The proxy
    strips inbound identity headers, has a signing secret and the default names
    of the signature header and of the signed headers; the texts of the session's
    identifiers and level are not blank. (A [Connection] header that names
    identity headers makes the proxy drop them:
    [connection_header_drops_identity].) *)
Theorem module_accepts_forwarded_identity p t r v s now1 now2 maxAge now :
  v_session v = Some s -> mp_StripInboundIdentityHeaders p = true -> mp_IdentitySigningSecret p <> "" ->
  mp_IdentitySignatureHeader p = "X-Aegion-Signature" -> mp_SignedIdentityHeaders p = user_headers ->
  GoHttp.Header r !! "Connection" = None ->
  TrimSpace (uuid_string (IdentityID s)) <> "" -> TrimSpace (uuid_string (ID s)) <> "" -> TrimSpace (SessionAAL s) <> "" ->
  in_int64 (time_unix now2) -> in_int64 (time_unix now) -> in_int64 maxAge ->
  (time_unix now2 <= time_unix now)%Z -> (time_unix now - time_unix now2 <= max_age_seconds maxAge)%Z ->
  newTrustedIdentityResolver (mp_IdentitySigningSecret p) maxAge
    (GoHttp.Header (out_req (reverse_proxy_request r (router_director cidrs cache p t r v now1 now2)))) now =
  Some (TrimSpace (uuid_string (IdentityID s)), TrimSpace (uuid_string (ID s))).
Proof.
  intros Hv Hstrip Hsec Hname Hnames Hconn Hi Hs Ha Ht2 Ht Hm Hle Hage.
  pose proof (identity_signed p (GoHttp.Header (signing_base p t r v now1)) v s now2 maxAge now Hv Hsec Hname Hnames Hi Ht2 Ht Hm Hle Hage) as Hver.
  set (h := GoHttp.Header (out_req (reverse_proxy_request r (router_director cidrs cache p t r v now1 now2)))).
  assert (Hget : forall name, In name (user_headers ++ ["X-Aegion-Signature"])%list ->
    Header_Get h name = Header_Get (injectIdentityHeaders p (GoHttp.Header (signing_base p t r v now1)) v now2) name).
  { intros name Hin. apply Header_Get_lookup. by apply forwarded_signed. }
  assert (Hval : Header_Get h "X-User-ID" = uuid_string (IdentityID s) /\ Header_Get h "X-User-Session-ID" = uuid_string (ID s) /\ Header_Get h "X-User-AAL" = SessionAAL s).
  { rewrite !Hget by (cbn; tauto). unfold Header_Get. rewrite !inject_identity_lookup by (rewrite Hname; discriminate). unfold told. rewrite Hv, !Header_Set_lookup.
    split_and!; repeat (case_decide; [try done|]); done. }
  destruct Hval as (Ei & Es & Ea). unfold newTrustedIdentityResolver. change signedHeaders with user_headers.
  assert (Hv' : VerifyIdentityHeaders (mp_IdentitySigningSecret p) h user_headers (Header_Get h "X-Aegion-Signature") maxAge now = true).
  { rewrite (Hget "X-Aegion-Signature") by (cbn; tauto). etrans; [|exact Hver]. apply VerifyIdentityHeaders_payload. unfold CanonicalHeaderPayload. do 2 f_equal.
    apply header_lines_ext. intros name Hin. apply Hget. apply in_or_app. by left. }
  rewrite Hv'. cbn [negb]. rewrite Ei, Es, Ea. by rewrite !(proj2 (String.eqb_neq _ _)) by done.
Qed.
End facts.

Module RouterWitness.
#[local] Existing Instance host_net.
#[local] Existing Instance unary_uuid.
#[local] Instance whole_url : RouterUrl := {| parse_target s := Some {| tg_Scheme := "http"; tg_Host := s; tg_Path := "" |} |}.

Definition mfa : Module_ :=
  {| m_ID := "mfa"; m_Name := "mfa"; m_Version := "1"; m_Endpoints := [{| ep_Type := EndpointHTTP; ep_URL := "mfa:80"; ep_Methods := [] |}]; m_HealthURL := "";
     m_Status := StatusHealthy; m_RegisteredAt := 0; m_LastHealthAt := 0; m_Metadata := ∅ |}.
Definition secret : string := "0123456789abcdef0123456789abcdef".
(** A policy that allows identified users. *)
Definition users_only (req : CheckRequest) : result string (option CheckResponse) :=
  Ok (Some {| Allowed := HasPrefix (cr_Subject req) "user:"; ModelUsed := "default"; DenyReason := "login first"; EvalPath := [] |}).
Definition server : Server :=
  {| sv_registry := Some (with_modules New {["mfa" := mfa]}); sv_sessionManager := Some mgr; sv_policyChecker := Some users_only;
     sv_identitySecret := secret; sv_internalSecrets := [] |}.
Definition settings : proxy_settings :=
  {| ps_PreserveHost := false; ps_TrustForwardedHeaders := false; ps_IdentitySignatureHeader := ""; ps_SignedIdentityHeaders := []; ps_PolicyEnabled := true;
     ps_DefaultModel := "default" |}.
Definition asks (h : header) : Request :=
  {| Method := "POST"; URL_Path := "/api/v1/mfa"; URL_RawQuery := ""; Host := "app"; RemoteAddr := "10.0.0.1:555"; TLS := true; Cookies := [];
     Header := Header_Set h "X-User-ID" "999" |}.
Definition with_token : Request := asks (Header_Set ∅ "X-Session-Token" (b64url_Encode "a")).
Definition v0 : values := {| v_session := None; v_module := ""; v_requestID := "r1"; v_clientIP := "" |}.
Definition tm : times := {| tm_cookie := 1; tm_get1 := 1; tm_get2 := 1; tm_sign1 := 1; tm_sign2 := 1 |}.
Definition sent := handlePublicModuleProxy "" ∅ server settings (Some "mfa") "internal" with_token v0 tm two_sessions.
Definition resolved : option (string * string) :=
  match sent.1 with Ok o => newTrustedIdentityResolver secret minute (GoHttp.Header (out_req o)) 2 | Err _ => None end.

Lemma module_identity_comes_from_live_session_witness :
  resolved = Some ("1111111", "1") /\
  exists moduleID m token sess row,
    Some "mfa" = Some moduleID /\ sv_sessionManager server = Some m /\ Manager.request_token m with_token 1 = Some token /\
    t_sessions (w_db two_sessions) !! ID sess = Some row /\ row_active row = true /\ row_token_hash row = secrettoken.Hash token /\
    (1 <= row_expires row)%Z /\ "1111111" = TrimSpace (uuid_string (row_identity row)) /\ "1" = TrimSpace (uuid_string (ID sess)).
Proof.
  split; [vm_compute; reflexivity|].
  destruct sent as [[o|e] w'] eqn:E; [|exfalso; vm_compute in E; discriminate E].
  assert (Ho : sent.1 = Ok o) by (rewrite E; reflexivity). unfold sent in E.
  destruct (module_identity_comes_from_live_session "" ∅ server settings (Some "mfa") "internal" with_token v0 tm two_sessions o w' secret minute 2 "1111111" "1" E)
    as (moduleID & m & token & sess & row & K1 & K2 & K3 & K4 & K5 & K6 & K7 & K8 & K9 & _).
  - reflexivity.
  - vm_compute. reflexivity.
  - transitivity resolved; [|vm_compute; reflexivity]. unfold resolved. rewrite Ho. reflexivity.
  - exists moduleID, m, token, sess, row. exact (conj K1 (conj K2 (conj K3 (conj K4 (conj K5 (conj K6 (conj K7 (conj K8 K9)))))))).
Defined.

(** Without a session the forged identity does not reach the module, and the
    policy sees an anonymous request. *)
Example anonymous_is_denied :
  (handlePublicModuleProxy "" ∅ server settings (Some "mfa") "internal" (asks ∅) v0 tm two_sessions).1 =
  Err {| ra_Status := 403; ra_Message := "login first"; ra_RequestID := "r1" |}.
Proof. vm_compute. reflexivity. Qed.

Definition config : ModuleProxyConfig := module_config server settings "mfa" "internal".
Lemma module_accepts_forwarded_identity_witness :
  newTrustedIdentityResolver secret minute
    (GoHttp.Header (out_req (reverse_proxy_request (asks ∅) (router_director "" ∅ config {| tg_Scheme := "http"; tg_Host := "mfa:80"; tg_Path := "" |} (asks ∅)
       (with_session v0 some_session) 1 1)))) (30 * second) =
  Some (TrimSpace (uuid_string (IdentityID some_session)), TrimSpace (uuid_string (ID some_session))).
Proof.
  apply (module_accepts_forwarded_identity "" ∅ config); try reflexivity; try discriminate; try (vm_compute; split; discriminate); vm_compute; discriminate.
Defined.
Lemma credentials_need_listed_origin_witness :
  exists origin, origin = "https://app" /\ In origin ["https://app"] /\ origin <> "*" /\
    Header_Get (CORS {| AllowedOrigins := ["https://app"]; AllowedMethods := []; AllowedHeaders := []; ExposedHeaders := []; AllowCredentials := true; MaxAge := 0 |}
      (asks (Header_Set ∅ "Origin" "https://app")) ∅).1 "Access-Control-Allow-Origin" = origin.
Proof.
  refine (credentials_need_listed_origin {| AllowedOrigins := ["https://app"]; AllowedMethods := []; AllowedHeaders := []; ExposedHeaders := []; AllowCredentials := true; MaxAge := 0 |}
    (asks (Header_Set ∅ "Origin" "https://app")) ∅ _ _ _ (surjective_pairing _) _); [reflexivity|vm_compute; discriminate].
Defined.
(** The default configuration allows every origin and credentials, which grants
    no origin anything. *)
Example default_cors_grants_nothing : CORS DefaultCORS (asks (Header_Set ∅ "Origin" "https://app")) ∅ = (∅, None).
Proof. vm_compute. reflexivity. Qed.
End RouterWitness.
